(* ===== verification/_CoqProject ===== *)
-Q . S2P
Prelude.v
Sampler.v
NDArray.v
Array.v
Local.v
Dataset.v
DataLoader.v
LoaderV1.v
DataIter.v
Fit.v
Prefetch.v
LRScheduler.v
RecordIO.v
Scope.v
Split.v
Axis.v
ExecGroup.v
ExecParallel.v
Vocab.v
BucketIter.v
GluonParam.v
ParamDict.v
Block.v
Optimizer.v
SGD.v
Adaptive.v
OptReal.v
Trainer.v
DataParallel.v
Metric.v
MetricConfig.v
MetricReal.v
RNNCell.v
RNNUnroll.v
RNNStack.v
RNNNew.v
RNNWeights.v
RNNRoundtrip.v
RNNFused.v
RNNUnfuse.v
Checkpoint.v
ModuleDef.v
ModuleSync.v
ModuleKeeps.v
ModuleCoherent.v
Bucketing.v
Sequential.v
Initializer.v
InitFacts.v
InitFused.v
Loss.v
LossFacts.v
LossReal.v
Detection.v
DetectFacts.v
Image.v
ImageFacts.v
Tables.v
GluonRNN.v
GluonUnroll.v
GluonBatch.v
Calibration.v
CalibFacts.v
Autograd.v
ClipNorm.v
