(* ===== verification/Prelude.v ===== *)
(** * The Python layer of MXNet: data pipelines, gluon, modules, recurrent cells, optimizers, training, metrics

    ** The program

    MXNet is a deep-learning library: a C++ core (dependency engine, operators,
    storage) and, under [src/python/mxnet], a Python front end of about 60,000 lines.  The
    front end's own logic, as opposed to the wrappers it generates around the C
    interface, is what is verified here.  It consists of
    - the gluon data pipeline: samplers choose indices, datasets give the samples,
      batchify functions stack them, loaders run workers and restore the order;
    - the older iterator pipeline: [NDArrayIter], [ResizeIter], [PrefetchingIter],
      [BucketSentenceIter], all instances of the [DataIter] protocol;
    - RecordIO files, written through C handles, with an index file;
    - learning-rate schedules, name and attribute scopes, the splitting of batches over
      devices, text vocabularies;
    - gluon's parameters, dictionaries of parameters and blocks: deferred initialization,
      sharing, saving and loading, cached graphs;
    - the optimizers with their update counts, multipliers and mixed precision, the
      updater that applies them, and the trainer that exchanges gradients between devices
      and updates all copies of a parameter;
    - evaluation metrics and their configurations, losses, initializers;
    - the module API: executor groups that spread a batch over devices, modules that keep
      parameters on the host and on the devices, modules with buckets, chains of modules, the
      loops for training and prediction, checkpoints;
    - recurrent cells, of the symbolic API (graphs, packed and fused weights) and of gluon
      (arrays, sequences of different lengths);
    - image pipelines: crops, augmenters for images with boxes, the image iterator;
    - the calibration of quantized models, the scopes of autograd, clipping of gradients.
    The parts meet in a training run: an iterator or loader gives batches, a module or a
    trainer spreads them over devices, the optimizer's updater changes the parameters that
    initializers or checkpoints have set, and metrics and callbacks look at the results.

    ** The files

    - [Prelude]: exceptions ([exn]), fallible expressions ([result]), methods that keep
      their effects when they raise ([M], a state monad over [result]), Python's [range],
      slices, indices, dict lookup and stable sort, batches of a list, two lemmas on step
      relations, the hint database and tactics [py], [py_lia], [bool_cases].
    - [Sampler]: [gluon/data/sampler.py] and [gluon/contrib/data/sampler.py].  A type
      class [Sampler] is the protocol; [BatchSampler] is defined over any instance, as an
      epoch function and as the generator it is in the code.
    - [NDArray]: the part of [ndarray/ndarray.py] the pipeline rests on: index
      arithmetic, basic indexing, broadcast shapes, [concatenate].  An array is a context, an
      element type, the shape below the first axis and its rows.  [NDArray::Slice] and [NDArray::At]
      are translated from [src/ndarray/ndarray.cc]; advanced indexing is a parameter.
    - [Dataset]: [gluon/data/dataset.py] and the batchify functions of
      [gluon/data/dataloader.py].
    - [DataLoader]: [DataLoader] and [_MultiWorkerIter]; the consumer and a pool of
      worker processes as a step relation.
    - [LoaderV1]: [DataLoaderV1] and [_MultiWorkerIterV1]: consumer, fetcher thread and
      workers communicating through two queues, as a step relation.
    - [DataIter]: [io/io.py] and [io/utils.py]; [DataIter] is a type class, [CyclicIter]
      the law its clients rely on, which [NDArrayIter] is shown to satisfy.
    - [Prefetch]: [PrefetchingIter] with its threads and events, as a step relation, over
      any iterators that satisfy [CyclicIter].
    - [LRScheduler]: [lr_scheduler.py], over a class of floating-point operations.
    - [RecordIO]: [recordio.py] and [RecordFileDataset]; bytes are integers from 0 to
      255 and [struct.pack] is modelled, with the rounding of labels to single precision on
      bit patterns; the C record reader and writer are objects
      behind handles that can be freed.
    - [Scope]: [name.py] and [attribute.py], with the object identities that nesting the
      same manager twice depends on.
    - [Split]: [_split_input_slice] and the loading functions of [executor_manager.py],
      [split_data] and [split_and_load] of [gluon/utils.py].
    - [Vocab]: [Vocabulary] of [contrib/text/vocab.py] and [count_tokens_from_str].
    - [BucketIter]: [encode_sentences] and [BucketSentenceIter] of [rnn/io.py].

    - [GluonParam], [ParamDict]: [Parameter], [Constant] and [ParameterDict] of
      [gluon/parameter.py]; arrays are a context, a shape and values of any type;
      reads of sparse rows write into the copies they return.
    - [Block]: [gluon/block.py]: flattening and regrouping of arguments, registration and
      naming of children, structural names of parameters, [collect_params], the cached
      graphs and cached operators of [HybridBlock], [SymbolBlock].
    - [Optimizer]: the base class of [optimizer/optimizer.py], mixed precision and the
      [Updater], over any optimizer class ([OptimizerClass]) and scheduler ([Scheduler]).
    - [SGD], [Adaptive]: the optimizer classes with the dense kernels that they call
      ([src/operator/optimizer_op-inl.h]), over any type of numbers; [OptReal] has the
      real numbers for them.
    - [Trainer]: [gluon/trainer.py] and [_create_kvstore] of [model.py]; the key-value
      store is an interface.  [DataParallel] runs it with concrete optimizers.
    - [Metric]: [metric.py], over any type of numbers; [MetricReal] has the real numbers.
      [MetricConfig]: [registry.py], [get_config] and the constructors.

    - [Array], [Axis], [Local], [Tables]: arrays of any shape; slices and concatenation along an
      axis; computations that touch only some entries of a dictionary; lists as tables.
    - [ExecGroup], [ExecParallel]: [module/executor_group.py]; the symbol and the library
      that runs it are a record of functions.  A reshape starts from the executors of the first
      binding ([_default_execs]), as in the code; what their arrays of other sizes hold then is unknown.
    - [Fit]: the loops of [module/base_module.py], over any module and any iterator.
    - [ModuleDef], [ModuleSync], [ModuleKeeps], [ModuleCoherent]: [module/module.py] with
      the parts of [model.py] it calls; objects that modules share are in a memory.
    - [Bucketing], [Sequential]: [module/bucketing_module.py] and
      [module/sequential_module.py].
    - [Checkpoint]: [save_checkpoint], [load_checkpoint] and their callers and callbacks.
    - [RNNCell], [RNNUnroll], [RNNStack], [RNNNew]: [rnn/rnn_cell.py]: construction,
      steps and unrolling to graphs; [RNNWeights], [RNNRoundtrip], [RNNFused], [RNNUnfuse]: its
      packed and fused weights.
    - [GluonRNN], [GluonUnroll], [GluonBatch]: [gluon/rnn/rnn_cell.py] on arrays.
    - [Initializer], [InitFacts], [InitFused]: [initializer.py].
    - [Loss], [LossFacts], [LossReal]: [gluon/loss.py].
    - [Detection], [DetectFacts]: the augmenters and labels of [image/detection.py];
      [Image], [ImageFacts]: crops and [ImageIter] of [image/image.py].
    - [Calibration], [CalibFacts]: [contrib/quantization.py] without the graph rewriting.
    - [Autograd]: the scopes of [autograd.py]; [ClipNorm]: [clip_global_norm] of
      [gluon/utils.py].

    Definitions keep the names of the code; a method [m] of a class [C] is [C_m] where
    the bare name is taken.  All are executable.

    ** What the theorems show

    - Samplers: an epoch of [BatchSampler] is the inner epoch cut in batches under each
      of its three policies, [__len__] counts it, [rollover] loses no index over any
      number of epochs, and the generator yields what the function returns;
      [IntervalSampler] with rollover is a permutation.
    - Arrays: slicing with any bounds has numpy's value or raises [IndexError] exactly
      when the code says so; [_get_broadcast_shape] is the least common broadcast;
      [concatenate] puts the rows one after the other.
    - Datasets: eager and lazy transformations agree; batchify transposes tuples.
    - Loaders: when no sample raises, under every interleaving, batches come in submission
      order, every run ends, and a stuck run has delivered everything; what happens when a sample raises
      (the exception reaches the consumer of [DataLoader], the consumer of [DataLoaderV1]
      waits for ever); same-process loading equals multi-worker loading.
    - Iterators: epochs of [NDArrayIter] for [pad], [discard] and [roll_over] with batches that are
      not too large for the data, shuffling
      permutes all sources alike, [ResizeIter] cycles, [PrefetchingIter] refines the
      sequential iteration of its inner iterators under every interleaving and neither
      deadlocks nor runs for ever, if they repeat their epochs and raise nothing but
      [StopIteration] (another exception blocks the consumer); [BucketSentenceIter] serves each full batch once.
    - Schedules: the stateful schedulers compute closed forms of the update count.
    - Records: [unpack] after [pack] up to the precision of labels, reading by key what was written by key, a reader
      used in a forked process is reopened, a closed writer is used after free.
    - Scopes: leaving a [with] block restores the current manager; generated names are
      distinct.
    - Splitting: every sample lands on exactly one device, in order, for both splitters.
    - Vocabularies: tokens and indices convert both ways; the order of the index.
    - Parameters: after any calls the state is consistent and dense copies agree, deferred
      and immediate initialization agree, dictionaries share and restore parameters.
    - Blocks: flattened arguments are regrouped, parameters are found and named by their
      paths, cached graphs are current as long as no child is added below a traced block.
    - Optimizers: updates in groups and one by one agree, mixed precision follows the
      single-precision update, states saved with their optimizer resume, rates follow the schedule; in exact
      arithmetic, steps are bounded and the bias corrections are exact.
    - Training: a step on several devices is the step of one updater on the reduced
      gradients, on every device; where updates happen; what a stale gradient changes when
      updates run on the devices.
    - Metrics: local resets do not touch the global results, accuracy and the binary
      scores are those of all samples, configurations recreate a metric.
    - Modules: merged outputs of a group are those of the symbol on the whole batch;
      [get_params] never returns stale parameters after training steps, assignments,
      predictions and reshapes (a pass without an update and a second [bind] are shown to break
      this); buckets share parameters and optimizer;
      a chain composes its layers forward and applies the chain rule backward, over modules that
      are assumed to compute a function and its gradient; [fit] trains
      on every batch of every epoch once, [predict] returns one row per sample; checkpoints
      that are kept, and what they restore.
    - Recurrent cells: unrolling gives the states that are declared; a stack unrolls
      over a list of inputs as it steps; weights survive packing, unpacking and the exchange with the unfused
      stack; on arrays, a padded batch is unrolled as every sequence alone.
    - Initializers: shapes are kept, checkpoints are restored, the vector of a fused cell
      gets its biases and weights.  Losses: batches in parts; stable formulas are the
      cross-entropies they stand for.
    - Images: an epoch delivers every valid image once; augmented boxes stay valid and
      crops stay inside; padding is undone by cropping.
    - Calibration: the search for a threshold never fails an assertion and compares
      distributions of the right mass; a candidate range without values has no divergence and is
      preferred.  Scopes of autograd are lexical.  Clipped gradients
      have a bounded norm.
    Where the code differs from what it means to do, an example or a theorem shows the
    difference next to the component.

    ** Bounds and fuel

    Python integers are unbounded and are [Z].  The merged bins of a histogram are 32-bit
    integers with their wrap-around.  The fields of a record header keep their
    width: [pack] raises [struct.error] outside of it.  Functions that follow Python
    loops over an iterator take fuel; the theorems about them give a bound that is
    enough and conclude that the result is [Some].  The updater's loop over a group takes
    the length of the group, which is enough when [aggregate_num] is positive; creating a
    metric takes the depth of its configuration, an initializer the depth of its calls, a
    list of detection augmenters the depth of nested choices.  The loops of [fit],
    [predict] and [ImageIter] take the number of batches or samples that are left, which the
    theorems show to be enough.  The step relations need no fuel:
    their termination is proved by a decreasing measure.

    ** Not modelled

    The C++ core, and the Python code that wraps it: operators, symbols, executors, sparse
    arrays, the key-value store (an interface here); gluon's layers and model definitions,
    which assemble operators; decoding and colour augmentation of images, which OpenCV
    does; rewriting graphs for quantization, ONNX and other converters, whose formats are
    third-party; plots, logs, progress bars and profiles; bindings for other languages.
    Random generators are parameters, of which the theorems use that a shuffle permutes and
    that a number is in the range asked for.  The contents of arrays are integers where only
    their movement matters, and elements of any type with the operations used where they
    are computed with; rounding is modelled for the labels of records only, and statements about values are proved
    over the real numbers. *)

From stdpp Require Export base option list gmap strings sorting relations.
From Stdlib Require Export ZArith Lia.
Open Scope Z_scope.

(** ** Python exceptions and fallible computations *)

(** The exception classes the modelled code raises or catches. *)
Inductive exn :=
  | StopIteration
  | ValueError
  | AssertionError
  | TypeError
  | KeyError
  | IndexError
  | RuntimeError
  | ZeroDivisionError
  | NotImplementedError
  | MXNetError
  | AttributeError
  | StructError
  | OverflowError
  | IOError
  | DeferredInitializationError
  | UserWarning
  | UnboundLocalError
  (** not an exception: the C library was given a handle it has freed *)
  | UndefinedBehaviour.

#[export] Instance exn_eq_dec : EqDecision exn.
Proof. solve_decision. Defined.

(** A Python expression either has a value or raises. *)
Inductive result (A : Type) :=
  | Ok (a : A)
  | Raise (e : exn).
Arguments Ok {A} a.
Arguments Raise {A} e.

#[export] Instance result_ret : MRet result := fun A a => Ok a.
#[export] Instance result_bind : MBind result := fun A B f r =>
  match r with Ok a => f a | Raise e => Raise e end.
#[export] Instance result_fmap : FMap result := fun A B f r =>
  match r with Ok a => Ok (f a) | Raise e => Raise e end.

(** [assert c] of Python. *)
Definition py_assert (c : bool) : result unit :=
  if c then Ok tt else Raise AssertionError.

(** A method with side effects on its object: Python keeps the mutations that
    precede a raise, so the state is returned in both cases. *)
Definition M (S A : Type) := S -> result A * S.

#[export] Instance M_ret {S} : MRet (M S) := fun A a s => (Ok a, s).
#[export] Instance M_bind {S} : MBind (M S) := fun A B f m s =>
  match m s with
  | (Ok a, s') => f a s'
  | (Raise e, s') => (Raise e, s')
  end.

Definition get {S} : M S S := fun s => (Ok s, s).
Definition put {S} (s : S) : M S unit := fun _ => (Ok tt, s).
Definition modify {S} (f : S -> S) : M S unit := fun s => (Ok tt, f s).
Definition raise {S A} (e : exn) : M S A := fun s => (Raise e, s).
Definition massert {S} (c : bool) : M S unit :=
  fun s => (py_assert c, s).
Definition lift {S A} (r : result A) : M S A := fun s => (r, s).

(** [for x in l: f(x)] *)
Fixpoint forM {S A} (f : A -> M S unit) (l : list A) : M S unit :=
  match l with
  | [] => mret tt
  | a :: l => _ ← f a; forM f l
  end.

Lemma bind_ok {A B} (r : result A) (f : A -> result B) (b : B) :
  (r ≫= f) = Ok b <-> exists a, r = Ok a /\ f a = Ok b.
Proof. destruct r; simpl; split; naive_solver. Qed.

Lemma bind_M {S A B} (m : M S A) (f : A -> M S B) (s : S) :
  (m ≫= f) s = match m s with
               | (Ok a, s') => f a s'
               | (Raise e, s') => (Raise e, s')
               end.
Proof. reflexivity. Qed.

(** A run of a sequence, step by step, and a run that succeeded taken apart. *)
Lemma bind_get {S B} (f : S -> M S B) (s : S) : (get ≫= f) s = f s s.
Proof. reflexivity. Qed.
Lemma bind_lift {S A B} (a : A) (f : A -> M S B) (s : S) : (lift (Ok a) ≫= f) s = f a s.
Proof. reflexivity. Qed.
Lemma bind_modify {S B} (g : S -> S) (f : unit -> M S B) (s : S) : (modify g ≫= f) s = f tt (g s).
Proof. reflexivity. Qed.
Lemma bind_massert {S B} (c : bool) (f : unit -> M S B) (s : S) : c = true -> (massert c ≫= f) s = f tt s.
Proof. by intros ->. Qed.
Lemma bind_run {S A B} (m : M S A) (f : A -> M S B) (s s' : S) (a : A) : m s = (Ok a, s') -> (m ≫= f) s = f a s'.
Proof. intros E. by rewrite bind_M, E. Qed.
Lemma bindM_ok {S A B} (m : M S A) (f : A -> M S B) (s s' : S) (b : B) :
  (m ≫= f) s = (Ok b, s') -> exists a s1, m s = (Ok a, s1) /\ f a s1 = (Ok b, s').
Proof. rewrite bind_M. destruct (m s) as [[a|e] s1]; [eauto|done]. Qed.
Lemma lift_ok {S A} (r : result A) (s s' : S) (a : A) : lift r s = (Ok a, s') -> r = Ok a /\ s' = s.
Proof. by intros [= -> ->]. Qed.
Lemma massert_ok {S} (c : bool) (s s' : S) u : massert c s = (Ok u, s') -> c = true /\ s' = s.
Proof. destruct c; [by intros [= <- <-]|done]. Qed.
Ltac run_step := repeat first [rewrite bind_get | rewrite bind_lift | rewrite bind_modify].
Ltac inv_step H := let a := fresh "a" in let s := fresh "s" in let E := fresh "E" in apply bindM_ok in H as (a & s & E & H).

Lemma forM_app {S A} (f : A -> M S unit) (l1 l2 : list A) (s : S) :
  forM f (l1 ++ l2) s = match forM f l1 s with (Ok _, s') => forM f l2 s' | (Raise e, s') => (Raise e, s') end.
Proof.
  revert s. induction l1 as [|a l1 IH]; intros s; [done|]. cbn. rewrite !bind_M. destruct (f a s) as [[]]; [apply IH|done].
Qed.

(** Two computations that give the same results in related states. *)
Definition sim {S S' A} (R : S -> S' -> Prop) (m : M S A) (m' : M S' A) : Prop :=
  forall s s', R s s' -> (m s).1 = (m' s').1 /\ R (m s).2 (m' s').2.

Lemma sim_bind {S S' A B} (R : S -> S' -> Prop) (m : M S A) (m' : M S' A) (f : A -> M S B) (f' : A -> M S' B) :
  sim R m m' -> (forall a, sim R (f a) (f' a)) -> sim R (m ≫= f) (m' ≫= f').
Proof.
  intros Hm Hf s s' Hs. rewrite !bind_M. destruct (Hm s s' Hs) as [Hr Ht].
  destruct (m s) as [[a|e] t], (m' s') as [[a'|e'] t']; cbn in *; simplify_eq; [by apply Hf|done].
Qed.
Lemma sim_lift {S S' A} (R : S -> S' -> Prop) (r : result A) : sim R (lift r) (lift r).
Proof. by intros s s' Hs. Qed.
Lemma sim_modify {S S'} (R : S -> S' -> Prop) f f' : (forall s s', R s s' -> R (f s) (f' s')) -> sim R (modify f) (modify f').
Proof. intros Hf s s' Hs. split; [done|by apply Hf]. Qed.
Lemma sim_raise {S S' A} (R : S -> S' -> Prop) e : sim R (raise e : M S A) (raise e).
Proof. by intros s s' Hs. Qed.
Lemma sim_forM {S S' A} (R : S -> S' -> Prop) (f : A -> M S unit) (f' : A -> M S' unit) l :
  (forall a, a ∈ l -> sim R (f a) (f' a)) -> sim R (forM f l) (forM f' l).
Proof.
  induction l as [|a l IH]; intros Hf; [by intros s s' Hs|]. cbn. apply sim_bind; [apply Hf; left|].
  intros _. apply IH. intros b Hb. apply Hf. by right.
Qed.

Create HintDb sim.
#[export] Hint Resolve sim_bind sim_lift sim_raise : sim.

(** Left-to-right evaluation of a fallible list comprehension. *)
Fixpoint mapR {A B} (f : A -> result B) (l : list A) : result (list B) :=
  match l with
  | [] => Ok []
  | a :: l => b ← f a; bs ← mapR f l; Ok (b :: bs)
  end.

Lemma mapR_ok {A B} (f : A -> result B) (g : A -> B) (l : list A) :
  (forall a, a ∈ l -> f a = Ok (g a)) -> mapR f l = Ok (map g l).
Proof.
  induction l as [|a l IH]; intros H; simpl; [done|].
  rewrite H by set_solver. simpl.
  rewrite IH by (intros; apply H; set_solver). done.
Qed.

Lemma mapR_length {A B} (f : A -> result B) (l : list A) (bs : list B) :
  mapR f l = Ok bs -> length bs = length l.
Proof.
  revert bs; induction l as [|a l IH]; intros bs; simpl; [by intros [= <-]|].
  intros (b & _ & (bs' & Hbs & [= <-])%bind_ok)%bind_ok. simpl. by rewrite (IH _ Hbs).
Qed.

(** ** Python lists and integers *)

(** [len l], a Python int. *)
Definition py_len {A} (l : list A) : Z := Z.of_nat (length l).

(** [range(n)], [range(a, b)], and [range(a, b, s)] (which refuses [s = 0]);
    the number of elements is CPython's formula. *)
Definition range_from (a s : Z) (n : nat) : list Z :=
  map (fun k => a + Z.of_nat k * s) (seq 0 n).
Definition py_range (n : Z) : list Z := range_from 0 1 (Z.to_nat n).
Definition range_count (a b s : Z) : nat :=
  if 0 <? s then Z.to_nat ((b - a + s - 1) / s)
  else Z.to_nat ((a - b - s - 1) / (- s)).
Definition py_range3 (a b s : Z) : result (list Z) :=
  if s =? 0 then Raise ValueError
  else Ok (range_from a s (range_count a b s)).

(** [l[i:j]] with non-extended slices: negative bounds count from the end and
    out-of-range bounds are clipped. *)
Definition slice_bound (n i : Z) : Z :=
  if i <? 0 then Z.max 0 (n + i) else Z.min i n.
Definition py_slice {A} (l : list A) (i j : Z) : list A :=
  let i' := slice_bound (py_len l) i in
  let j' := slice_bound (py_len l) j in
  take (Z.to_nat (j' - i')) (drop (Z.to_nat i') l).

(** [l[i]]: negative indices count from the end, others raise [IndexError]. *)
Definition py_index {A} (l : list A) (i : Z) : result A :=
  let i' := if i <? 0 then py_len l + i else i in
  if (i' <? 0) then Raise IndexError
  else match l !! Z.to_nat i' with
       | Some a => Ok a
       | None => Raise IndexError
       end.

(** [l[i] = a] *)
Definition py_setitem {A} (l : list A) (i : Z) (a : A) : result (list A) :=
  let i' := if i <? 0 then py_len l + i else i in
  if (i' <? 0) || (py_len l <=? i') then Raise IndexError else Ok (<[Z.to_nat i' := a]> l).

(** [a // b] *)
Definition py_floordiv (a b : Z) : result Z :=
  if b =? 0 then Raise ZeroDivisionError else Ok (a / b).

(** [d[k]] of a dict. *)
Definition py_getitem {K V} `{Countable K} (d : gmap K V) (k : K) : result V :=
  match d !! k with Some v => Ok v | None => Raise KeyError end.

Definition in_dict {K V} `{Countable K} (k : K) (d : gmap K V) : bool :=
  match d !! k with Some _ => true | None => false end.

(** [bool] tests used by the translated conditions. *)
Definition str_eqb (a b : string) : bool := bool_decide (a = b).

(** ** Shared lemmas *)

Lemma py_len_app {A} (l k : list A) : py_len (l ++ k) = py_len l + py_len k.
Proof. unfold py_len. rewrite length_app. lia. Qed.

Lemma py_len_nonneg {A} (l : list A) : 0 <= py_len l.
Proof. unfold py_len. lia. Qed.

Lemma py_len_cons {A} (a : A) (l : list A) : py_len (a :: l) = 1 + py_len l.
Proof. unfold py_len. simpl length. lia. Qed.

Lemma py_len_nil {A} : py_len (@nil A) = 0.
Proof. reflexivity. Qed.

Lemma range_from_length a s n : length (range_from a s n) = n.
Proof. unfold range_from. by rewrite length_map, length_seq. Qed.

Lemma elem_of_range_from a s n x :
  x ∈ range_from a s n <-> exists k, (k < n)%nat /\ x = a + Z.of_nat k * s.
Proof.
  unfold range_from. rewrite list_elem_of_In, in_map_iff.
  setoid_rewrite in_seq. split; [intros (k & <- & ?)|intros (k & ? & ->)]; exists k; lia.
Qed.

Lemma range_from_NoDup a s n : s ≠ 0 -> NoDup (range_from a s n).
Proof.
  intros Hs. unfold range_from. apply NoDup_fmap_2_strong; [|apply NoDup_seq].
  intros i j _ _ ?. nia.
Qed.

Lemma elem_of_py_range n x : x ∈ py_range n <-> 0 <= x < n.
Proof.
  unfold py_range. rewrite elem_of_range_from. split.
  - intros (k & ? & ->). lia.
  - intros ?. exists (Z.to_nat x). lia.
Qed.

Lemma py_range_NoDup n : NoDup (py_range n).
Proof. apply range_from_NoDup. lia. Qed.

Lemma py_range_len n : 0 <= n -> py_len (py_range n) = n.
Proof. intros. unfold py_len, py_range. rewrite range_from_length. lia. Qed.

Lemma py_index_nonneg {A} (l : list A) i : 0 <= i ->
  py_index l i = match l !! Z.to_nat i with Some a => Ok a | None => Raise IndexError end.
Proof.
  intros Hi. unfold py_index. rewrite (proj2 (Z.ltb_ge i 0)) by lia. cbv beta zeta iota.
  by rewrite (proj2 (Z.ltb_ge i 0)) by lia.
Qed.

Lemma py_index_lookup {A} (l : list A) i a : l !! i = Some a -> py_index l (Z.of_nat i) = Ok a.
Proof. intros Hi. by rewrite py_index_nonneg, Nat2Z.id, Hi by lia. Qed.

Lemma elem_of_insert_weak {A} (l : list A) j (x y : A) : x ∈ <[j := y]> l -> x = y \/ x ∈ l.
Proof.
  intros (i & Hi)%list_elem_of_lookup. destruct (decide (i = j)) as [->|Hne].
  - apply list_lookup_insert_Some in Hi. destruct Hi as [(_ & -> & _)|(? & _)]; [by left|done].
  - rewrite list_lookup_insert_ne in Hi by done. right. by eapply list_elem_of_lookup_2.
Qed.

(** With in-range bounds a Python slice is a [drop] followed by a [take]. *)
Lemma py_slice_in {A} (l : list A) i j :
  0 <= i -> i <= j -> j <= py_len l ->
  py_slice l i j = take (Z.to_nat (j - i)) (drop (Z.to_nat i) l).
Proof.
  intros. unfold py_slice, slice_bound.
  rewrite !(proj2 (Z.ltb_ge _ _)) by lia. by rewrite !Z.min_l by lia.
Qed.

Lemma py_slice_len {A} (l : list A) i j :
  0 <= i -> i <= j -> j <= py_len l -> py_len (py_slice l i j) = j - i.
Proof.
  intros. rewrite py_slice_in by done. unfold py_len in *.
  rewrite length_take, length_drop. lia.
Qed.

(** Adjacent slices join up. *)
Lemma py_slice_app {A} (l : list A) i j k :
  0 <= i -> i <= j -> j <= k -> k <= py_len l ->
  py_slice l i j ++ py_slice l j k = py_slice l i k.
Proof.
  intros. rewrite !py_slice_in by lia.
  replace (Z.to_nat j) with (Z.to_nat i + Z.to_nat (j - i))%nat by lia.
  rewrite <- drop_drop.
  replace (Z.to_nat (k - i)) with (Z.to_nat (j - i) + Z.to_nat (k - j))%nat by lia.
  rewrite take_take_drop. done.
Qed.

Lemma py_slice_all {A} (l : list A) : py_slice l 0 (py_len l) = l.
Proof.
  rewrite py_slice_in by (pose proof (py_len_nonneg l); lia).
  rewrite Z.sub_0_r. simpl. unfold py_len. by rewrite Nat2Z.id, firstn_all.
Qed.

(** ** Automation *)

Create HintDb py.
Create Rewrite HintDb py.
#[export] Hint Resolve py_len_nonneg : py.
#[export] Hint Rewrite @py_len_app @py_len_cons @py_len_nil : py.

(** Normalise [py_len] goals and finish by linear arithmetic. *)
Ltac py_lia := autorewrite with py in *;
  repeat match goal with
  | |- context [py_len ?l] =>
      lazymatch goal with _ : 0 <= py_len l |- _ => fail | _ => idtac end;
      pose proof (py_len_nonneg l)
  end; lia.

(** Turn boolean integer tests into their propositions. *)
Ltac bool_cases :=
  repeat match goal with
  | |- context [?a <? ?b] => destruct (Z.ltb_spec a b)
  | |- context [?a <=? ?b] => destruct (Z.leb_spec a b)
  | |- context [?a =? ?b] => destruct (Z.eqb_spec a b)
  end; simpl; try lia.

(** ** Consecutive batches of a list *)

(** The [i]-th batch of size [b] of a sequence, Python's [l[i*b:(i+1)*b]]. *)
Definition batch_at {A} (b : Z) (l : list A) (i : Z) : list A :=
  py_slice l (i * b) ((i + 1) * b).

(** The first [n] batches. *)
Definition batches {A} (b : Z) (n : Z) (l : list A) : list (list A) :=
  map (batch_at b l) (py_range n).

Lemma py_range_succ n : 0 <= n -> py_range (n + 1) = py_range n ++ [n].
Proof.
  intros. unfold py_range, range_from. rewrite Z2Nat.inj_add by lia.
  rewrite seq_app, map_app. simpl. f_equal. f_equal. lia.
Qed.

Lemma py_range_cons n : 0 < n -> py_range n = 0 :: map (fun i => i + 1) (py_range (n - 1)).
Proof.
  intros. unfold py_range, range_from.
  replace (Z.to_nat n) with (S (Z.to_nat (n - 1))) by lia.
  simpl. f_equal. rewrite <- seq_shift, !map_map. apply map_ext. intros. lia.
Qed.

Lemma py_slice_app_r {A} (l k : list A) i j :
  py_len l <= i -> i <= j ->
  py_slice (l ++ k) i j = py_slice k (i - py_len l) (j - py_len l).
Proof.
  intros. pose proof (py_len_nonneg l). unfold py_slice, slice_bound.
  rewrite py_len_app. pose proof (py_len_nonneg k).
  rewrite !(proj2 (Z.ltb_ge _ _)) by lia.
  rewrite drop_app_ge by (unfold py_len in *; lia). f_equal; [|f_equal]; unfold py_len in *; lia.
Qed.

Lemma py_slice_snoc {A} (l m : list A) i j :
  0 <= i <= py_len l -> py_len l <= j <= py_len l + py_len m ->
  py_slice (l ++ m) i j = py_slice l i (py_len l) ++ py_slice m 0 (j - py_len l).
Proof.
  intros Hi Hj. rewrite <- (py_slice_app _ i (py_len l) j) by (rewrite ?py_len_app; lia).
  f_equal.
  - rewrite !py_slice_in by (rewrite ?py_len_app; lia).
    rewrite drop_app_le by (unfold py_len in *; lia).
    rewrite take_app_le; [done|]. rewrite length_drop. unfold py_len in *. lia.
  - rewrite py_slice_app_r by lia. by rewrite Z.sub_diag.
Qed.

(** The first batch, and the batches after it. *)
Lemma batches_cons {A} b n (x l : list A) :
  0 < b -> 0 < n -> py_len x = b ->
  batches b n (x ++ l) = x :: batches b (n - 1) l.
Proof.
  intros Hb Hn Hx. unfold batches. rewrite py_range_cons by done. simpl. f_equal.
  - unfold batch_at. replace (0 * b) with 0 by lia. replace ((0 + 1) * b) with (py_len x) by lia.
    rewrite py_slice_in by (autorewrite with py; pose proof (py_len_nonneg l); lia).
    rewrite Z.sub_0_r. unfold py_len. rewrite Nat2Z.id. change (Z.to_nat 0) with O. rewrite drop_0. by rewrite take_app_length.
  - rewrite map_map. apply map_ext_in. intros i Hi%list_elem_of_In%elem_of_py_range.
    unfold batch_at. rewrite py_slice_app_r by nia. rewrite Hx. f_equal; lia.
Qed.

Lemma batches_length {A} b n (l : list A) : 0 <= n -> py_len (batches b n l) = n.
Proof. intros. unfold batches, py_len. rewrite length_map. by apply py_range_len. Qed.

Lemma batches_succ {A} b n (l : list A) :
  0 <= n -> batches b (n + 1) l = batches b n l ++ [batch_at b l n].
Proof. intros. unfold batches. by rewrite py_range_succ, map_app. Qed.

(** Full batches concatenate to a prefix. *)
Lemma batches_concat {A} b n (l : list A) :
  0 < b -> 0 <= n -> n * b <= py_len l ->
  concat (batches b n l) = py_slice l 0 (n * b).
Proof.
  intros Hb Hn. pattern n. apply natlike_ind; [| |done].
  - intros _. simpl. by rewrite py_slice_in by (pose proof (py_len_nonneg l); lia).
  - intros m Hm IH Hle. rewrite <- Z.add_1_r, batches_succ by done.
    rewrite concat_app. simpl. rewrite app_nil_r, IH by lia.
    unfold batch_at. apply py_slice_app; lia.
Qed.

Lemma py_slice_clip {A} (l : list A) i j :
  py_len l <= j -> py_slice l i j = py_slice l i (py_len l).
Proof.
  intros. pose proof (py_len_nonneg l). unfold py_slice, slice_bound.
  rewrite (proj2 (Z.ltb_ge j 0)), (proj2 (Z.ltb_ge (py_len l) 0)) by lia.
  by rewrite (Z.min_r j), Z.min_id by lia.
Qed.

(** Rounding the number of batches up covers the whole list. *)
Lemma batches_concat_up {A} b n (l : list A) :
  0 < b -> 0 <= n -> (n - 1) * b <= py_len l <= n * b ->
  concat (batches b n l) = l.
Proof.
  intros Hb Hn [Hlo Hhi]. pose proof (py_len_nonneg l).
  destruct (decide (n = 0)) as [->|].
  { destruct l as [|a l]; [done|]. rewrite py_len_cons in *. pose proof (py_len_nonneg l). lia. }
  assert (0 <= (n - 1) * b) by nia.
  replace n with (n - 1 + 1) at 1 by lia. rewrite batches_succ by lia.
  rewrite concat_app. simpl. rewrite app_nil_r, batches_concat by lia.
  unfold batch_at. rewrite (py_slice_clip l _ ((n - 1 + 1) * b)) by lia.
  rewrite py_slice_app by lia. apply py_slice_all.
Qed.

(** ** Sorting *)

(** Python's stable sort, by insertion: [before y x] says that [y] has to come before
    [x]; equal elements keep their order. *)
Fixpoint insert_by {A} (before : A -> A -> bool) (x : A) (l : list A) : list A :=
  match l with
  | [] => [x]
  | y :: l => if before y x then y :: insert_by before x l else x :: y :: l
  end.
Definition py_sort {A} (before : A -> A -> bool) (l : list A) : list A :=
  fold_right (insert_by before) [] l.

Lemma insert_by_perm {A} (before : A -> A -> bool) x l : insert_by before x l ≡ₚ x :: l.
Proof.
  induction l as [|y l IH]; [done|]. cbn. destruct (before y x); [|done].
  rewrite IH. apply perm_swap.
Qed.

Lemma py_sort_cons {A} (before : A -> A -> bool) x l :
  py_sort before (x :: l) = insert_by before x (py_sort before l).
Proof. done. Qed.

Lemma py_sort_perm {A} (before : A -> A -> bool) l : py_sort before l ≡ₚ l.
Proof. induction l as [|x l IH]; [done|]. cbn. by rewrite insert_by_perm, IH. Qed.

(** Sorting is correct for a relation that [before] decides against everything that
    follows. *)
Lemma insert_by_sorted {A} (R : relation A) (before : A -> A -> bool) x l :
  Transitive R -> (forall y, y ∈ l -> if before y x then R y x else R x y) ->
  StronglySorted R l -> StronglySorted R (insert_by before x l).
Proof.
  intros Ht. induction l as [|y l IH]; intros Hx Hl; cbn; [by repeat constructor|].
  apply StronglySorted_inv in Hl as [Hl Hy]. pose proof (Hx y ltac:(left)) as Hyx.
  destruct (before y x).
  - constructor; [apply IH; [intros z Hz; apply Hx; by right|done]|].
    rewrite (insert_by_perm before x l). by constructor.
  - constructor; [by constructor|]. constructor; [done|]. eapply Forall_impl; [exact Hy|].
    cbn. intros z Hz. by etrans.
Qed.

(** ** Ordered dictionaries *)

(** An [OrderedDict] or a dict of Python 3.7: the items in insertion order, each key once. *)
Section OrderedDict.
Context {K A : Type} `{EqDecision K}.

Fixpoint od_get (k : K) (d : list (K * A)) : option A :=
  match d with
  | [] => None
  | (k', a) :: d => if decide (k' = k) then Some a else od_get k d
  end.

Fixpoint od_set (k : K) (a : A) (d : list (K * A)) : list (K * A) :=
  match d with
  | [] => [(k, a)]
  | (k', b) :: d => if decide (k' = k) then (k', a) :: d else (k', b) :: od_set k a d
  end.

Definition od_mem (k : K) (d : list (K * A)) : bool := match od_get k d with Some _ => true | None => false end.

Lemma od_get_set k a d k' : od_get k' (od_set k a d) = if decide (k = k') then Some a else od_get k' d.
Proof.
  induction d as [|[k0 b] d IH]; cbn; [by case_decide|]. destruct (decide (k0 = k)) as [->|]; cbn.
  - by case_decide.
  - destruct (decide (k0 = k')) as [->|]; [by rewrite decide_False by done|done].
Qed.

Lemma od_get_set_eq k a d : od_get k (od_set k a d) = Some a.
Proof. by rewrite od_get_set, decide_True. Qed.

Lemma od_get_set_ne k a d k' : k <> k' -> od_get k' (od_set k a d) = od_get k' d.
Proof. intros. by rewrite od_get_set, decide_False. Qed.

Lemma od_set_new k a d : od_get k d = None -> od_set k a d = d ++ [(k, a)].
Proof.
  induction d as [|[k0 b] d IH]; cbn; [done|]. case_decide; [done|]. intros. by rewrite IH.
Qed.

Lemma od_get_elem k a d : od_get k d = Some a -> (k, a) ∈ d.
Proof.
  induction d as [|[k0 b] d IH]; cbn; [done|]. destruct (decide (k0 = k)) as [->|]; [intros [= ->]; left|right; auto].
Qed.

Lemma od_get_None k d : od_get k d = None <-> k ∉ map fst d.
Proof.
  induction d as [|[k0 b] d IH]; cbn; [set_solver|]. destruct (decide (k0 = k)) as [->|]; [set_solver|].
  rewrite IH. set_solver.
Qed.

Lemma od_elem_get k a d : NoDup (map fst d) -> (k, a) ∈ d -> od_get k d = Some a.
Proof.
  induction d as [|[k0 b] d IH]; cbn; [by intros _ ?%elem_of_nil|]. intros [Hk Hd]%NoDup_cons Hin.
  apply elem_of_cons in Hin as [[= <- <-]|Hin]; [by rewrite decide_True|].
  rewrite decide_False; [by apply IH|]. intros ->. apply Hk. by apply (list_elem_of_fmap_2 fst) in Hin.
Qed.

Lemma od_set_keys k a d : map fst (od_set k a d) = if od_mem k d then map fst d else map fst d ++ [k].
Proof.
  unfold od_mem. induction d as [|[k0 b] d IH]; cbn; [done|]. case_decide; cbn; [done|]. rewrite IH.
  by destruct (od_get k d).
Qed.

Lemma od_set_NoDup k a d : NoDup (map fst d) -> NoDup (map fst (od_set k a d)).
Proof.
  intros Hd. rewrite od_set_keys. unfold od_mem. destruct (od_get k d) eqn:Ek; [done|]. apply od_get_None in Ek.
  apply NoDup_app. split_and!; [done|set_solver|apply NoDup_singleton].
Qed.

Lemma od_set_elem k a d x : x ∈ od_set k a d -> x = (k, a) \/ x ∈ d.
Proof.
  induction d as [|[k0 b] d IH]; cbn; [set_solver|]. destruct (decide (k0 = k)) as [->|]; set_solver.
Qed.
Lemma od_get_inj k k' a d : NoDup (map snd d) -> od_get k d = Some a -> od_get k' d = Some a -> k = k'.
Proof.
  intros Hnd [i Hi]%od_get_elem%list_elem_of_lookup [j Hj]%od_get_elem%list_elem_of_lookup.
  assert (i = j) as -> by (eapply NoDup_lookup; [exact Hnd|by rewrite list_lookup_fmap, Hi|by rewrite list_lookup_fmap, Hj]).
  congruence.
Qed.

(** Setting the items of a list one after the other, when no key occurs twice. *)
Lemma od_set_all (l : list (K * A)) : forall d, NoDup (map fst d ++ map fst l) ->
  fold_left (fun d kv => od_set kv.1 kv.2 d) l d = d ++ l.
Proof.
  induction l as [|[k a] l IH]; intros d Hnd; cbn; [by rewrite app_nil_r|]. rewrite od_set_new.
  - rewrite IH; [by rewrite <- app_assoc|]. rewrite map_app, <- app_assoc. done.
  - apply od_get_None. intros Hin. apply NoDup_app in Hnd as (_ & Hnd & _). apply (Hnd k Hin). left.
Qed.
End OrderedDict.

(** ** Step relations *)

(** An inductive invariant holds in every reachable state. *)
Lemma rtc_invariant {A} (R : relation A) (P : A -> Prop) x y :
  P x -> (forall a b, P a -> R a b -> P b) -> rtc R x y -> P y.
Proof. intros Hx Hstep. induction 1; eauto. Qed.

(** A measure that every step decreases bounds the length of every run. *)
Lemma nsteps_measure {A} (R : relation A) (P : A -> Prop) (m : A -> Z) n x y :
  (forall a, P a -> 0 <= m a) ->
  (forall a b, P a -> R a b -> P b /\ m b < m a) ->
  P x -> nsteps R n x y -> Z.of_nat n <= m x - m y.
Proof.
  intros Hnn Hdec Hx Hn. induction Hn as [a|n a b c Hab Hbc IH]; [lia|].
  destruct (Hdec a b Hx Hab) as [Hb Hm]. specialize (IH Hb). lia.
Qed.
