(* ===== verification/Sampler.v ===== *)
(** * Samplers

    [gluon/data/sampler.py] and [gluon/contrib/data/sampler.py]: the sampler
    interface, the sequential, random and interval samplers, and the batch
    sampler with its [keep] / [discard] / [rollover] treatment of an incomplete
    last batch.

    A sampler is iterated once per epoch, so [sampler_iter] is what
    [list(iter(s))] does to the sampler: the samples of the epoch and the sampler
    after it.  The batch sampler's generator is given twice, as the frame that
    [next] advances ([bs_gen_next]) and as the list a full epoch produces
    ([BatchSampler_iter]); [bs_gen_drain] relates the two. *)

From S2P Require Import Prelude.

(** ** The interface *)

(** [Sampler]: [__iter__] and [__len__]. *)
Class Sampler (S : Type) := {
  sampler_iter : S -> result (list Z) * S;
  sampler_len : S -> Z;
}.

(** What a client of a sampler relies on: an epoch does not raise, it has as many
    samples as [__len__] says, and [__len__] does not change between epochs. *)
Class LawfulSampler (S : Type) `{Sampler S} (valid : S -> Prop) := {
  sampler_lawful : forall s, valid s ->
    exists l s', sampler_iter s = (Ok l, s') /\ py_len l = sampler_len s
                 /\ valid s' /\ sampler_len s' = sampler_len s;
}.

(** ** SequentialSampler *)

Record SequentialSampler := mkSequential { seq_length : Z }.

Definition SequentialSampler_iter (s : SequentialSampler) : list Z :=
  py_range (seq_length s).

Definition SequentialSampler_len (s : SequentialSampler) : Z := seq_length s.

#[export] Instance Sequential_Sampler : Sampler SequentialSampler := {
  sampler_iter s := (Ok (SequentialSampler_iter s), s);
  sampler_len := SequentialSampler_len;
}.

#[export] Instance Sequential_lawful :
  LawfulSampler SequentialSampler (fun s => 0 <= seq_length s).
Proof.
  split. intros s Hs. eexists _, _. split; [reflexivity|].
  simpl. split; [by apply py_range_len|done].
Qed.

(** ** RandomSampler *)

Section Random.
(** numpy's generator state and [np.random.shuffle]. *)
Context {Rng : Type} (np_shuffle : Rng -> list Z -> list Z * Rng).

Record RandomSampler := mkRandom { rnd_length : Z; rnd_state : Rng }.

Definition RandomSampler_iter (s : RandomSampler) : list Z * RandomSampler :=
  let indices := py_range (rnd_length s) in
  let '(shuffled, rng) := np_shuffle (rnd_state s) indices in
  (shuffled, mkRandom (rnd_length s) rng).

Definition RandomSampler_len (s : RandomSampler) : Z := rnd_length s.

#[export] Instance Random_Sampler : Sampler RandomSampler := {
  sampler_iter s := let '(l, s') := RandomSampler_iter s in (Ok l, s');
  sampler_len := RandomSampler_len;
}.

(** [np.random.shuffle] permutes its argument in place. *)
Hypothesis shuffle_perm : forall r l, (np_shuffle r l).1 ≡ₚ l.

Lemma RandomSampler_perm s :
  (RandomSampler_iter s).1 ≡ₚ py_range (rnd_length s).
Proof.
  unfold RandomSampler_iter. pose proof (shuffle_perm (rnd_state s) (py_range (rnd_length s))) as P.
  by destruct (np_shuffle _ _).
Qed.

Lemma Random_lawful :
  LawfulSampler RandomSampler (fun s => 0 <= rnd_length s).
Proof.
  split. intros s Hs.
  exists (RandomSampler_iter s).1, (RandomSampler_iter s).2.
  split; [simpl; by destruct (RandomSampler_iter s)|].
  assert (rnd_length (RandomSampler_iter s).2 = rnd_length s) as E.
  { unfold RandomSampler_iter. by destruct (np_shuffle _ _). }
  simpl. unfold RandomSampler_len. rewrite E. split; [|done].
  unfold py_len. rewrite RandomSampler_perm. by apply py_range_len.
Qed.
End Random.
Arguments RandomSampler : clear implicits.
Arguments mkRandom {Rng} _ _.
Arguments rnd_length {Rng} _.
Arguments rnd_state {Rng} _.

(** ** IntervalSampler *)

Record IntervalSampler := mkInterval {
  int_length : Z;
  int_interval : Z;
  int_rollover : bool;
}.

Definition IntervalSampler_init (length interval : Z) (rollover : bool) : result IntervalSampler :=
  _ ← py_assert (interval <=? length);
  Ok (mkInterval length interval rollover).

Definition IntervalSampler_iter (s : IntervalSampler) : result (list Z) :=
  rows ← mapR (fun i => py_range3 i (int_length s) (int_interval s))
              (py_range (if int_rollover s then int_interval s else 1));
  Ok (concat rows).

Definition IntervalSampler_len (s : IntervalSampler) : Z := int_length s.

#[export] Instance Interval_Sampler : Sampler IntervalSampler := {
  sampler_iter s := (IntervalSampler_iter s, s);
  sampler_len := IntervalSampler_len;
}.

(** ** BatchSampler *)

Record BatchSampler (S : Type) := mkBatchSampler {
  bs_sampler : S;
  bs_batch_size : Z;
  bs_last_batch : string;
  bs_prev : list Z;
}.
Arguments mkBatchSampler {S} _ _ _ _.
Arguments bs_sampler {S} _.
Arguments bs_batch_size {S} _.
Arguments bs_last_batch {S} _.
Arguments bs_prev {S} _.

Definition BatchSampler_init {S} (sampler : S) (batch_size : Z) (last_batch : string) : BatchSampler S :=
  mkBatchSampler sampler batch_size last_batch [].

Section BatchSampler.
Context {S : Type} `{Sampler S}.

(** The [for i in self._sampler] loop: the batches it yields and the value of
    [batch] when it ends. *)
Fixpoint bs_loop (batch_size : Z) (batch : list Z) (samples : list Z)
  : list (list Z) * list Z :=
  match samples with
  | [] => ([], batch)
  | i :: samples =>
      let batch := batch ++ [i] in
      if py_len batch =? batch_size
      then let '(ys, rest) := bs_loop batch_size [] samples in (batch :: ys, rest)
      else bs_loop batch_size batch samples
  end.

(** What follows the loop: a last yield, the way the generator ends, and the
    assignment to [self._prev], if there is one. *)
Definition bs_finish (last_batch : string) (batch : list Z)
  : list (list Z) * result unit * option (list Z) :=
  match batch with
  | [] => ([], Ok tt, None)
  | _ =>
      if str_eqb last_batch "keep" then ([batch], Ok tt, None)
      else if str_eqb last_batch "discard" then ([], Ok tt, None)
      else if str_eqb last_batch "rollover" then ([], Ok tt, Some batch)
      else ([], Raise ValueError, None)
  end.

(** A full epoch: the batches yielded, whether the generator returns or
    raises, and the sampler afterwards. *)
Definition BatchSampler_iter (self : BatchSampler S)
  : list (list Z) * result unit * BatchSampler S :=
  let '(samples, sampler') := sampler_iter (bs_sampler self) in
  match samples with
  | Raise e =>
      ([], Raise e,
       mkBatchSampler sampler' (bs_batch_size self) (bs_last_batch self) [])
  | Ok samples =>
      let '(ys, batch) := bs_loop (bs_batch_size self) (bs_prev self) samples in
      let '(ys', out, prev') := bs_finish (bs_last_batch self) batch in
      (ys ++ ys', out,
       mkBatchSampler sampler' (bs_batch_size self) (bs_last_batch self) (default [] prev'))
  end.

Definition BatchSampler_len (self : BatchSampler S) : result Z :=
  let n := sampler_len (bs_sampler self) in
  if str_eqb (bs_last_batch self) "keep"
  then py_floordiv (n + bs_batch_size self - 1) (bs_batch_size self)
  else if str_eqb (bs_last_batch self) "discard"
  then py_floordiv n (bs_batch_size self)
  else if str_eqb (bs_last_batch self) "rollover"
  then py_floordiv (py_len (bs_prev self) + n) (bs_batch_size self)
  else Raise ValueError.

(** Several epochs in a row, as a training loop runs them. *)
Fixpoint BatchSampler_epochs (k : nat) (self : BatchSampler S)
  : list (list (list Z)) * BatchSampler S :=
  match k with
  | O => ([], self)
  | Datatypes.S k =>
      let '(ys, _, self') := BatchSampler_iter self in
      let '(yss, self'') := BatchSampler_epochs k self' in
      (ys :: yss, self'')
  end.

(** *** The generator as [next] sees it *)

(** Where the generator is suspended. *)
Inductive bs_frame :=
  | BsStart
  | BsLoop (batch samples : list Z)
  | BsAfterLast
  | BsDone.

(** Run the loop from a suspended point to the next yield. *)
Fixpoint bs_advance (batch_size : Z) (last_batch : string) (batch samples : list Z)
  : result (list Z) * bs_frame * option (list Z) :=
  match samples with
  | [] =>
      match bs_finish last_batch batch with
      | ([], Ok _, prev') => (Raise StopIteration, BsDone, prev')
      | ([], Raise e, prev') => (Raise e, BsDone, prev')
      | (y :: _, _, prev') => (Ok y, BsAfterLast, prev')
      end
  | i :: samples =>
      let batch := batch ++ [i] in
      if py_len batch =? batch_size then (Ok batch, BsLoop [] samples, None)
      else bs_advance batch_size last_batch batch samples
  end.

Definition set_prev (self : BatchSampler S) (sampler' : S) (prev' : list Z) : BatchSampler S :=
  mkBatchSampler sampler' (bs_batch_size self) (bs_last_batch self) prev'.

(** [next] on the generator; the frame is the generator's, [self] is shared. *)
Definition bs_gen_next (st : bs_frame * BatchSampler S)
  : result (list Z) * (bs_frame * BatchSampler S) :=
  let '(fr, self) := st in
  let run batch samples sampler' prev :=
    let '(r, fr', prev') :=
      bs_advance (bs_batch_size self) (bs_last_batch self) batch samples in
    (r, (fr', set_prev self sampler' (default prev prev'))) in
  match fr with
  | BsStart =>
      let '(samples, sampler') := sampler_iter (bs_sampler self) in
      match samples with
      | Raise e => (Raise e, (BsDone, set_prev self sampler' []))
      | Ok samples => run (bs_prev self) samples sampler' []
      end
  | BsLoop batch samples => run batch samples (bs_sampler self) (bs_prev self)
  | BsAfterLast => (Raise StopIteration, (BsDone, self))
  | BsDone => (Raise StopIteration, (BsDone, self))
  end.

(** Call [next] until it raises, at most [fuel] times. *)
Fixpoint bs_gen_drain (fuel : nat) (st : bs_frame * BatchSampler S)
  : option (list (list Z) * exn * BatchSampler S) :=
  match fuel with
  | O => None
  | Datatypes.S fuel =>
      match bs_gen_next st with
      | (Raise e, (_, self')) => Some ([], e, self')
      | (Ok y, st') =>
          '(ys, e, self') ← bs_gen_drain fuel st'; Some (y :: ys, e, self')
      end
  end.
End BatchSampler.

(** ** The batch sampler against its specification *)

(** What the documentation promises for one epoch over [all], the samples left
    over from the last epoch followed by this epoch's: consecutive batches, the
    incomplete one kept, dropped, or put aside for the next epoch. *)
Definition BatchSampler_spec {S} (self : BatchSampler S) (samples : list Z) (sampler' : S)
  : list (list Z) * result unit * BatchSampler S :=
  let b := bs_batch_size self in
  let all := bs_prev self ++ samples in
  let n := py_len all in
  let done prev' := mkBatchSampler sampler' b (bs_last_batch self) prev' in
  if str_eqb (bs_last_batch self) "keep" then
    (batches b ((n + b - 1) / b) all, Ok tt, done [])
  else if str_eqb (bs_last_batch self) "discard" then
    (batches b (n / b) all, Ok tt, done [])
  else if str_eqb (bs_last_batch self) "rollover" then
    (batches b (n / b) all, Ok tt, done (py_slice all (n / b * b) n))
  else
    (batches b (n / b) all, if n mod b =? 0 then Ok tt else Raise ValueError, done []).

(** Case analysis on the [last_batch] string tests. *)
Ltac mode_cases :=
  destruct (str_eqb _ "keep"); [|destruct (str_eqb _ "discard"); [|destruct (str_eqb _ "rollover")]].

Section BatchSamplerTheory.
Context {S : Type} `{Sampler S}.

(** The loop splits [batch ++ samples] into full batches and a remainder. *)
Lemma bs_loop_spec b batch samples :
  0 < b -> py_len batch < b ->
  bs_loop b batch samples =
    (let all := batch ++ samples in
     (batches b (py_len all / b) all, py_slice all (py_len all / b * b) (py_len all))).
Proof.
  intros Hb. revert batch. induction samples as [|i samples IH]; intros batch Hlt; simpl.
  - pose proof (py_len_nonneg batch). rewrite app_nil_r, Z.div_small by lia.
    by rewrite Z.mul_0_l, py_slice_all.
  - assert (py_len (batch ++ [i]) = py_len batch + 1) as E by (autorewrite with py; lia).
    replace (batch ++ i :: samples) with ((batch ++ [i]) ++ samples) by (by rewrite <- app_assoc).
    destruct (Z.eqb_spec (py_len (batch ++ [i])) b) as [Eb|Nb].
    + rewrite IH by (rewrite py_len_nil; lia). simpl.
      rewrite py_len_app, Eb. pose proof (py_len_nonneg samples).
      assert ((b + py_len samples) / b = 1 + py_len samples / b) as ->.
      { replace (b + py_len samples) with (py_len samples + 1 * b) by lia.
        rewrite Z.div_add by lia. lia. }
      pose proof (Z.div_pos (py_len samples) b).
      rewrite batches_cons by lia.
      replace (1 + py_len samples / b - 1) with (py_len samples / b) by lia.
      rewrite (py_slice_app_r _ samples)
        by (rewrite ?Eb; pose proof (Z.mul_div_le (py_len samples) b); nia).
      rewrite Eb. do 2 f_equal; lia.
    + by rewrite IH by lia.
Qed.

(** The remainder is what the documentation calls the last batch. *)
Lemma bs_rest_len b (all : list Z) :
  0 < b -> py_len (py_slice all (py_len all / b * b) (py_len all)) = py_len all mod b.
Proof.
  intros Hb. pose proof (py_len_nonneg all). pose proof (Z.div_pos (py_len all) b).
  pose proof (Z.mul_div_le (py_len all) b). rewrite py_slice_len by nia.
  rewrite Z.mod_eq by lia. lia.
Qed.

Lemma ceil_div_exact n b : 0 < b -> n mod b = 0 -> (n + b - 1) / b = n / b.
Proof.
  intros Hb Hm. rewrite (Z.div_mod n b) at 1 by lia. rewrite Hm.
  replace (b * (n / b) + 0 + b - 1) with (b - 1 + n / b * b) by lia.
  rewrite Z.div_add, Z.div_small by lia. lia.
Qed.

Lemma ceil_div_inexact n b : 0 < b -> n mod b ≠ 0 -> (n + b - 1) / b = n / b + 1.
Proof.
  intros Hb Hm. pose proof (Z.mod_pos_bound n b Hb).
  rewrite (Z.div_mod n b) at 1 by lia.
  replace (b * (n / b) + n mod b + b - 1) with (n mod b - 1 + (n / b + 1) * b) by lia.
  rewrite Z.div_add, Z.div_small by lia. lia.
Qed.

Lemma batch_at_last b (all : list Z) :
  0 < b -> batch_at b all (py_len all / b) = py_slice all (py_len all / b * b) (py_len all).
Proof.
  intros Hb. unfold batch_at. apply py_slice_clip.
  pose proof (Z.mod_pos_bound (py_len all) b Hb). pose proof (Z.div_mod (py_len all) b). lia.
Qed.

Lemma BatchSampler_iter_spec self samples sampler' :
  0 < bs_batch_size self -> py_len (bs_prev self) < bs_batch_size self ->
  sampler_iter (bs_sampler self) = (Ok samples, sampler') ->
  BatchSampler_iter self = BatchSampler_spec self samples sampler'.
Proof.
  intros Hb Hp Hs. unfold BatchSampler_iter, BatchSampler_spec. rewrite Hs, bs_loop_spec by done.
  cbv zeta. set (all := bs_prev self ++ samples). set (b := bs_batch_size self) in *.
  pose proof (bs_rest_len b all Hb) as Hr.
  pose proof (batch_at_last b all Hb) as Hl.
  pose proof (Z.div_pos (py_len all) b (py_len_nonneg all) Hb).
  destruct (py_slice all (py_len all / b * b) (py_len all)) as [|x rest] eqn:E; unfold bs_finish.
  - rewrite py_len_nil in Hr. rewrite app_nil_r, ceil_div_exact, <- Hr by done.
    mode_cases; done.
  - assert (py_len all mod b ≠ 0)
      by (rewrite <- Hr, py_len_cons; pose proof (py_len_nonneg rest); lia).
    rewrite ceil_div_inexact, batches_succ by done. rewrite Hl.
    destruct (Z.eqb_spec (py_len all mod b) 0); [done|].
    mode_cases; simpl; rewrite ?app_nil_r; done.
Qed.

(** The invariant of the sampler between epochs: an unfinished batch is shorter
    than a batch, and only [rollover] leaves one. *)
Definition bs_inv (self : BatchSampler S) : Prop :=
  0 < bs_batch_size self /\
  py_len (bs_prev self) < bs_batch_size self /\
  (bs_last_batch self ≠ "rollover" -> bs_prev self = []).

Lemma bs_inv_init sampler b mode : 0 < b -> bs_inv (BatchSampler_init sampler b mode).
Proof. intros. split_and!; simpl; [done|by rewrite py_len_nil|done]. Qed.

Lemma bs_inv_iter self samples sampler' ys out self' :
  bs_inv self -> sampler_iter (bs_sampler self) = (Ok samples, sampler') ->
  BatchSampler_iter self = (ys, out, self') -> bs_inv self'.
Proof.
  intros (Hb & Hp & Hr) Hs. rewrite (BatchSampler_iter_spec _ _ _ Hb Hp Hs).
  unfold BatchSampler_spec, bs_inv, str_eqb.
  destruct (bool_decide_reflect (bs_last_batch self = "keep")) as [E|N1]; [|
  destruct (bool_decide_reflect (bs_last_batch self = "discard")) as [E|N2]; [|
  destruct (bool_decide_reflect (bs_last_batch self = "rollover")) as [E|N3]]];
  intros [= <- <- <-]; simpl; (split; [done|]).
  1,2,4: split; [by rewrite py_len_nil|done].
  split; [|done]. rewrite bs_rest_len by done. by apply Z.mod_pos_bound.
Qed.

(** Number of batches against [__len__]. *)
Lemma BatchSampler_len_spec self samples sampler' n :
  bs_inv self -> sampler_iter (bs_sampler self) = (Ok samples, sampler') ->
  py_len samples = sampler_len (bs_sampler self) ->
  BatchSampler_len self = Ok n ->
  py_len (BatchSampler_iter self).1.1 = n.
Proof.
  intros (Hb & Hp & Hr) Hs Hn. rewrite (BatchSampler_iter_spec _ _ _ Hb Hp Hs).
  unfold BatchSampler_len, BatchSampler_spec, py_floordiv.
  destruct (Z.eqb_spec (bs_batch_size self) 0); [lia|].
  pose proof (py_len_nonneg (bs_prev self)). pose proof (py_len_nonneg samples).
  unfold str_eqb in *.
  destruct (bool_decide_reflect (bs_last_batch self = "keep")) as [E|N1];
  [|destruct (bool_decide_reflect (bs_last_batch self = "discard")) as [E|N2];
  [|destruct (bool_decide_reflect (bs_last_batch self = "rollover")) as [E|N3]; [|done]]];
  rewrite <- Hn; intros [= <-]; simpl; rewrite batches_length by (apply Z.div_pos; py_lia).
  - rewrite Hr by (rewrite E; done). done.
  - rewrite Hr by (rewrite E; done). done.
  - by rewrite py_len_app.
Qed.

(** The sampler on its own over [k] epochs. *)
Fixpoint sampler_epochs (k : nat) (s : S) : list Z * S :=
  match k with
  | O => ([], s)
  | Datatypes.S k =>
      let '(r, s') := sampler_iter s in
      let '(ls, s'') := sampler_epochs k s' in
      (match r with Ok l => l ++ ls | Raise _ => ls end, s'')
  end.

Lemma rollover_concat self samples sampler' :
  bs_inv self -> bs_last_batch self = "rollover" ->
  sampler_iter (bs_sampler self) = (Ok samples, sampler') ->
  let '(ys, out, self') := BatchSampler_iter self in
  out = Ok tt /\ bs_sampler self' = sampler' /\ bs_last_batch self' = "rollover" /\
  bs_batch_size self' = bs_batch_size self /\
  Forall (fun y => py_len y = bs_batch_size self) ys /\
  concat ys ++ bs_prev self' = bs_prev self ++ samples.
Proof.
  intros (Hb & Hp & Hr) Hm Hs. rewrite (BatchSampler_iter_spec _ _ _ Hb Hp Hs).
  unfold BatchSampler_spec. rewrite Hm. simpl.
  set (all := bs_prev self ++ samples). set (b := bs_batch_size self) in *.
  pose proof (Z.mul_div_le (py_len all) b Hb). pose proof (py_len_nonneg all).
  pose proof (Z.div_pos (py_len all) b ltac:(lia) Hb).
  split_and!; try done.
  - apply Forall_forall. intros y (i & <- & Hi%list_elem_of_In%elem_of_py_range)%list_elem_of_In%in_map_iff.
    unfold batch_at. rewrite py_slice_len by nia. lia.
  - rewrite batches_concat, py_slice_app by nia. apply py_slice_all.
Qed.
End BatchSamplerTheory.

(** ** The properties *)

(** C12: one epoch of a [BatchSampler], for every value of [last_batch] and every
    batch rolled over from before, yields exactly the consecutive batches that the
    documentation describes, ends as described, and leaves the described
    remainder in [_prev]. *)
Theorem batch_sampler_epoch {S} `{Sampler S} (self : BatchSampler S) samples sampler' :
  bs_inv self -> sampler_iter (bs_sampler self) = (Ok samples, sampler') ->
  BatchSampler_iter self = BatchSampler_spec self samples sampler' /\
  bs_inv (BatchSampler_iter self).2.
Proof.
  intros Hinv Hs. pose proof Hinv as (Hb & Hp & _).
  split; [by apply BatchSampler_iter_spec|].
  destruct (BatchSampler_iter self) as [[ys out] self'] eqn:E. by eapply bs_inv_iter.
Qed.

Definition ten_by_three (mode : string) : BatchSampler SequentialSampler :=
  BatchSampler_init (mkSequential 10) 3 mode.

Example batch_sampler_epoch_witness :
  (BatchSampler_iter (ten_by_three "keep")).1.1 = [[0;1;2];[3;4;5];[6;7;8];[9]] /\
  BatchSampler_iter (ten_by_three "rollover")
    = BatchSampler_spec (ten_by_three "rollover") (py_range 10) (mkSequential 10).
Proof.
  split; [reflexivity|].
  apply (batch_sampler_epoch (ten_by_three "rollover") (py_range 10) (mkSequential 10));
    [by apply bs_inv_init|reflexivity].
Defined.

(** for a lawful underlying sampler, [len(batch_sampler)] is the number of
    batches the next epoch yields, in each of the three modes. *)
Theorem batch_sampler_len {S} (valid : S -> Prop) `{LawfulSampler S valid} (self : BatchSampler S) n :
  bs_inv self -> valid (bs_sampler self) ->
  BatchSampler_len self = Ok n ->
  py_len (BatchSampler_iter self).1.1 = n.
Proof.
  intros Hinv Hv Hn. destruct (sampler_lawful _ Hv) as (l & s' & Hs & Hl & _).
  by eapply BatchSampler_len_spec.
Qed.

Example batch_sampler_len_witness :
  BatchSampler_len (ten_by_three "keep") = Ok 4 /\
  py_len (BatchSampler_iter (ten_by_three "keep")).1.1 = 4.
Proof.
  split; [reflexivity|].
  apply (batch_sampler_len (fun s => 0 <= seq_length s) (ten_by_three "keep"));
    [by apply bs_inv_init|simpl; lia|reflexivity].
Defined.

(** with [rollover] no sample is lost, duplicated or reordered over any
    number of epochs: the batches yielded, in order, followed by what is still put
    aside, are the leftover of the start followed by the samples of all the
    epochs; and every batch is full. *)
Theorem rollover_conserves {S} (valid : S -> Prop) `{LawfulSampler S valid} k (self : BatchSampler S) :
  bs_inv self -> bs_last_batch self = "rollover" -> valid (bs_sampler self) ->
  let '(yss, self') := BatchSampler_epochs k self in
  concat (concat yss) ++ bs_prev self' = bs_prev self ++ (sampler_epochs k (bs_sampler self)).1 /\
  Forall (fun y => py_len y = bs_batch_size self) (concat yss) /\ bs_inv self'.
Proof.
  revert self. induction k as [|k IH]; intros self Hinv Hm Hv; simpl.
  { rewrite app_nil_r. split_and!; [done|constructor|apply Hinv..]. }
  destruct (sampler_lawful _ Hv) as (l & s' & Hs & Hl & Hv' & _).
  pose proof (rollover_concat self l s' Hinv Hm Hs) as R.
  destruct (BatchSampler_iter self) as [[ys out] self'] eqn:E.
  destruct R as (_ & Es & Em & Eb & Hf & Hc).
  pose proof (bs_inv_iter _ _ _ _ _ _ Hinv Hs E) as Hinv'.
  specialize (IH self' Hinv' Em). rewrite Es in IH. specialize (IH Hv').
  destruct (BatchSampler_epochs k self') as [yss self'']. rewrite Hs.
  destruct (sampler_epochs k s') as [ls s'']. simpl in *. destruct IH as (IH1 & IH2 & IH3).
  rewrite concat_app, <- app_assoc, IH1, !app_assoc, Hc.
  split_and!; [done| |done..]. apply Forall_app. rewrite <- Eb. by rewrite <- Eb in Hf.
Qed.

Example rollover_conserves_witness :
  (BatchSampler_epochs 2 (ten_by_three "rollover")).1
    = [[[0;1;2];[3;4;5];[6;7;8]]; [[9;0;1];[2;3;4];[5;6;7]]] /\
  concat (concat (BatchSampler_epochs 2 (ten_by_three "rollover")).1) ++ [8; 9]
    = (sampler_epochs 2 (mkSequential 10)).1.
Proof.
  split; [reflexivity|].
  pose proof (rollover_conserves (fun s => 0 <= seq_length s) 2 (ten_by_three "rollover")
    ltac:(by apply bs_inv_init) eq_refl ltac:(simpl; lia)) as R.
  apply R.
Defined.

(** *** The generator *)

(** How the end of a generator shows to a caller of [next]. *)
Definition end_exn (out : result unit) : exn :=
  match out with Ok _ => StopIteration | Raise e => e end.

Section Generator.
Context {S : Type} `{Sampler S}.

(** Draining a generator that is suspended in its loop. *)
Lemma bs_drain_loop fuel batch samples (self : BatchSampler S) :
  let '(ys, rest) := bs_loop (bs_batch_size self) batch samples in
  let '(ys', out, prev') := bs_finish (bs_last_batch self) rest in
  (length (ys ++ ys') < fuel)%nat ->
  bs_gen_drain fuel (BsLoop batch samples, self)
    = Some (ys ++ ys', end_exn out,
            set_prev self (bs_sampler self) (default (bs_prev self) prev')).
Proof.
  revert fuel batch self. induction samples as [|i samples IH]; intros fuel batch self; cbn [bs_loop].
  - destruct (bs_finish (bs_last_batch self) batch) as [[ys' out] prev'] eqn:E.
    cbn [app]. intros Hf. destruct fuel as [|fuel]; [lia|]. cbn [bs_gen_drain bs_gen_next bs_advance].
    rewrite E. unfold bs_finish in E.
    destruct batch as [|x batch]; [by simplify_eq|].
    revert E. mode_cases; intros; simplify_eq; try done.
    destruct fuel as [|fuel]; simpl in *; [lia|done].
  - destruct (py_len (batch ++ [i]) =? bs_batch_size self) eqn:E.
    + destruct (bs_loop (bs_batch_size self) [] samples) as [ys rest] eqn:El.
      destruct (bs_finish (bs_last_batch self) rest) as [[ys' out] prev'] eqn:Ef.
      intros Hf. destruct fuel as [|fuel]; [lia|].
      cbn [bs_gen_drain bs_gen_next bs_advance]. rewrite E. cbn [default].
      specialize (IH fuel [] (set_prev self (bs_sampler self) (bs_prev self))).
      cbn [bs_batch_size bs_last_batch set_prev] in IH. rewrite El, Ef in IH.
      rewrite IH by (simpl in Hf; lia). done.
    + specialize (IH fuel (batch ++ [i]) self).
      destruct (bs_loop (bs_batch_size self) (batch ++ [i]) samples) as [ys rest].
      destruct (bs_finish (bs_last_batch self) rest) as [[ys' out] prev'].
      intros Hf. rewrite <- IH by done.
      destruct fuel as [|fuel]; [done|]. cbn [bs_gen_drain bs_gen_next bs_advance]. by rewrite E.
Qed.
End Generator.

(** calling [next] on the batch sampler's generator until it raises gives
    exactly the batches of the epoch, one per call, then the [StopIteration] (or
    the [ValueError] of an unknown mode) that ends it, and leaves the sampler in
    the same state; one call more than there are batches is enough.  No assumption
    on the batch size or on the sampler. *)
Theorem batch_sampler_generator {S} `{Sampler S} (self : BatchSampler S) ys out self' fuel :
  BatchSampler_iter self = (ys, out, self') -> (length ys < fuel)%nat ->
  bs_gen_drain fuel (BsStart, self) = Some (ys, end_exn out, self').
Proof.
  unfold BatchSampler_iter.
  destruct (sampler_iter (bs_sampler self)) as [[samples|e] sampler'] eqn:Es.
  - pose proof (bs_drain_loop fuel (bs_prev self) samples (set_prev self sampler' [])) as D.
    cbn [bs_batch_size bs_last_batch set_prev bs_sampler bs_prev] in D.
    destruct (bs_loop _ _ _) as [zs rest]. destruct (bs_finish _ rest) as [[zs' out'] prev'].
    intros [= <- <- <-] Hf. etransitivity; [|exact (D Hf)]. destruct fuel as [|fuel]; [done|].
    cbn [bs_gen_drain bs_gen_next]. by rewrite Es.
  - intros [= <- <- <-] Hf. destruct fuel as [|fuel]; [simpl in Hf; lia|].
    cbn [bs_gen_drain bs_gen_next]. by rewrite Es.
Qed.

Example batch_sampler_generator_witness :
  bs_gen_drain 5 (BsStart, ten_by_three "keep")
    = Some ([[0;1;2];[3;4;5];[6;7;8];[9]], StopIteration, ten_by_three "keep").
Proof.
  apply (batch_sampler_generator (ten_by_three "keep") _ (Ok tt) _ 5); [reflexivity|simpl; lia].
Defined.

(** *** The interval sampler *)

Lemma elem_of_py_range3 a b s l x :
  0 < s -> py_range3 a b s = Ok l ->
  x ∈ l <-> a <= x < b /\ (x - a) mod s = 0.
Proof.
  unfold py_range3, range_count. intros Hs. destruct (Z.eqb_spec s 0); [lia|].
  destruct (Z.ltb_spec 0 s); [|lia]. intros [= <-]. rewrite elem_of_range_from. split.
  - intros (k & Hk & ->). assert (Z.of_nat k < (b - a + s - 1) / s) as Hk' by lia.
    assert (Z.of_nat k * s < b - a).
    { pose proof (Z.mul_div_le (b - a + s - 1) s Hs). nia. }
    split; [nia|]. replace (a + Z.of_nat k * s - a) with (Z.of_nat k * s) by lia.
    apply Z.mod_mul. lia.
  - intros [Hx Hm]. exists (Z.to_nat ((x - a) / s)).
    pose proof (Z.div_pos (x - a) s). apply Z.div_exact in Hm; [|lia].
    rewrite Z2Nat.id by lia. split; [|lia].
    assert ((x - a) / s < (b - a + s - 1) / s); [|lia].
    apply Z.lt_le_trans with ((x - a) / s + 1); [lia|].
    apply Z.div_le_lower_bound; lia.
Qed.

Lemma py_range3_pos a b s :
  0 < s -> py_range3 a b s = Ok (range_from a s (range_count a b s)).
Proof. intros. unfold py_range3. by rewrite (proj2 (Z.eqb_neq s 0)) by lia. Qed.

Lemma NoDup_concat_disjoint {A} (ls : list (list A)) :
  Forall NoDup ls ->
  (forall i j l k x, ls !! i = Some l -> ls !! j = Some k -> x ∈ l -> x ∈ k -> i = j) ->
  NoDup (concat ls).
Proof.
  induction ls as [|l ls IH]; intros HF HD; simpl; [constructor|].
  inversion HF; subst. apply NoDup_app. split_and!; [done| |].
  - intros x Hx (k & Hk & Hxk)%list_elem_of_In%in_concat.
    apply list_elem_of_In, list_elem_of_lookup in Hk as [j Hj].
    specialize (HD 0%nat (S j) l k x eq_refl Hj Hx ltac:(by apply list_elem_of_In)). lia.
  - apply IH; [done|]. intros i j ? ? x Hi Hj ? ?.
    specialize (HD (S i) (S j) _ _ x Hi Hj). naive_solver lia.
Qed.

(** with [rollover] an interval sampler visits every index of [0, length)
    exactly once, for every interval from 1 to [length]. *)
Theorem interval_sampler_permutation length interval s :
  0 < interval -> IntervalSampler_init length interval true = Ok s ->
  exists l, IntervalSampler_iter s = Ok l /\ l ≡ₚ py_range length.
Proof.
  intros Hi. unfold IntervalSampler_init, py_assert.
  destruct (Z.leb_spec interval length); [|done]. intros [= <-].
  unfold IntervalSampler_iter. cbn [int_length int_interval int_rollover].
  set (row := fun i => range_from i interval (range_count i length interval)).
  rewrite (mapR_ok _ row) by (intros; by apply py_range3_pos).
  eexists. split; [reflexivity|].
  assert (Hrow : forall i x, x ∈ row i <-> i <= x < length /\ (x - i) mod interval = 0).
  { intros i x. by apply elem_of_py_range3, py_range3_pos. }
  assert (Huniq : forall i j x, 0 <= i < interval -> 0 <= j < interval ->
            x ∈ row i -> x ∈ row j -> i = j).
  { intros i j x Hi' Hj' [_ H1]%Hrow [_ H2]%Hrow.
    apply Z.mod_divide in H1, H2; [|lia..]. destruct H1 as [a Ha], H2 as [c Hc].
    destruct (Z.lt_trichotomy a c) as [?|[->|?]]; [nia|lia|nia]. }
  apply NoDup_Permutation.
  - apply NoDup_concat_disjoint.
    + apply Forall_forall. intros l (i & <- & _)%list_elem_of_In%in_map_iff.
      apply range_from_NoDup. lia.
    + intros i j l k x Hl Hk Hxl Hxk.
      apply list_lookup_fmap_Some in Hl as (vi & -> & Hvi), Hk as (vj & -> & Hvj).
      assert (vi = vj) as <-.
      { apply (Huniq vi vj x); [..|done|done]; apply elem_of_py_range;
          apply list_elem_of_lookup; eauto. }
      eapply NoDup_lookup; [apply (py_range_NoDup interval)|done..].
  - apply py_range_NoDup.
  - intros x. rewrite elem_of_py_range, list_elem_of_In, in_concat. split.
    + intros (l & (i & <- & Hin%list_elem_of_In%elem_of_py_range)%in_map_iff & Hx%list_elem_of_In%Hrow). lia.
    + intros Hx. pose proof (Z.mod_pos_bound x interval Hi). pose proof (Z.mod_le x interval).
      exists (row (x mod interval)). split.
      * apply in_map. by apply list_elem_of_In, elem_of_py_range.
      * apply list_elem_of_In, Hrow. split; [lia|].
        by rewrite Zminus_mod_idemp_r, Z.sub_diag, Z.mod_0_l by lia.
Qed.

Example interval_sampler_permutation_witness :
  IntervalSampler_iter (mkInterval 13 3 true) = Ok [0;3;6;9;12;1;4;7;10;2;5;8;11] /\
  exists l, IntervalSampler_iter (mkInterval 13 3 true) = Ok l /\ l ≡ₚ py_range 13.
Proof.
  split; [reflexivity|].
  apply (interval_sampler_permutation 13 3 (mkInterval 13 3 true)); [lia|reflexivity].
Defined.

(** without [rollover] the interval sampler yields [ceil(length / interval)]
    indices, while its [__len__] still answers [length]: it is not a lawful
    sampler, and a [BatchSampler] over it announces batches that never come. *)
Theorem interval_sampler_len_mismatch length interval :
  1 < interval -> interval <= length ->
  exists l, IntervalSampler_iter (mkInterval length interval false) = Ok l /\
    py_len l = (length + interval - 1) / interval /\
    py_len l < IntervalSampler_len (mkInterval length interval false).
Proof.
  intros Hi Hl. unfold IntervalSampler_iter.
  cbn [int_length int_interval int_rollover].
  change (py_range 1) with [0]. cbn [mapR]. rewrite py_range3_pos by lia.
  eexists. split; [reflexivity|].
  assert (range_count 0 length interval = Z.to_nat ((length + interval - 1) / interval)) as E.
  { unfold range_count. destruct (Z.ltb_spec 0 interval); [|lia]. do 3 f_equal. lia. }
  cbn [concat]. rewrite app_nil_r. unfold py_len. rewrite range_from_length, E.
  pose proof (Z.div_pos (length + interval - 1) interval).
  assert ((length + interval - 1) / interval < length) by (apply Z.div_lt_upper_bound; nia).
  unfold IntervalSampler_len. simpl. lia.
Qed.

Example interval_sampler_len_mismatch_witness :
  BatchSampler_len (BatchSampler_init (mkInterval 13 3 false) 5 "keep") = Ok 3 /\
  py_len (BatchSampler_iter (BatchSampler_init (mkInterval 13 3 false) 5 "keep")).1.1 = 1 /\
  exists l, IntervalSampler_iter (mkInterval 13 3 false) = Ok l /\
    py_len l = (13 + 3 - 1) / 3 /\ py_len l < IntervalSampler_len (mkInterval 13 3 false).
Proof.
  split; [reflexivity|]. split; [reflexivity|].
  apply (interval_sampler_len_mismatch 13 3); lia.
Defined.
