(* ===== verification/NDArray.v ===== *)
(** * NDArrays along their first axis

    The part of [ndarray/ndarray.py] that the data pipeline rests on: the shape,
    basic indexing by an integer, a slice or a tuple, the index arithmetic helpers
    ([_get_index_range], [_get_dim_size], [_get_broadcast_shape],
    [_get_oshape_of_gather_nd_op], the dispatch of a key), and concatenation along
    the first axis.  An array is its context, the name of its element type, the shape
    below the first axis, and its rows, each row the flat list of its elements: every
    operation here works on whole rows.  Elements are numbers that the element types
    in use represent; conversions that round are not modelled.  [MXNDArraySlice] and [MXNDArrayAt] are translated from
    [NDArray::Slice] and [NDArray::At] of [src/ndarray/ndarray.cc]; the strided
    slice operator is a parameter. *)

From S2P Require Import Prelude.

(** ** Arrays *)

(** [Context]: the device type and number. *)
Record Context := mkContext { device_typeid : Z; device_id : Z }.
Definition cpu : Context := mkContext 1 0.
Definition cpu_pinned (id : Z) : Context := mkContext 3 id.
Definition cpu_shared : Context := mkContext 5 0.

#[export] Instance Context_eq_dec : EqDecision Context.
Proof. solve_decision. Defined.

Record NDArray := mkND {
  nd_ctx : Context;
  nd_dtype : string;
  nd_tail : list Z;
  nd_rows : list (list Z);
}.

#[export] Instance NDArray_eq_dec : EqDecision NDArray.
Proof. solve_decision. Defined.

Definition prod_shape (s : list Z) : Z := fold_right Z.mul 1 s.

(** Every row has as many elements as the shape below the first axis says. *)
Definition nd_wf (a : NDArray) : Prop :=
  Forall (fun r => py_len r = prod_shape (nd_tail a)) (nd_rows a) /\
  Forall (fun d => 0 <= d) (nd_tail a).

(** [shape], [len(x)], [x.context], [x.asnumpy().ravel()]. *)
Definition nd_shape (a : NDArray) : list Z := py_len (nd_rows a) :: nd_tail a.
Definition nd_len (a : NDArray) : Z := py_len (nd_rows a).
Definition nd_flat (a : NDArray) : list Z := concat (nd_rows a).

(** An array of the given shape from its flat contents (a view, like [reshape]). *)
Definition nd_of_flat (ctx : Context) (dtype : string) (shape : list Z) (flat : list Z) : result NDArray :=
  match shape with
  | [] => Raise MXNetError
  | d :: tail =>
      if bool_decide (prod_shape shape = py_len flat)
      then Ok (mkND ctx dtype tail (batches (prod_shape tail) d flat))
      else Raise MXNetError
  end.

Definition nd_reshape (a : NDArray) (shape : list Z) : result NDArray :=
  nd_of_flat (nd_ctx a) (nd_dtype a) shape (nd_flat a).

(** [NDArray.as_in_context]: the same array, or a copy on the other device. *)
Definition nd_as_in_context (a : NDArray) (ctx : Context) : NDArray :=
  if bool_decide (nd_ctx a = ctx) then a else mkND ctx (nd_dtype a) (nd_tail a) (nd_rows a).

(** ** Index arithmetic *)

(** [_get_index_range(start, stop, length, step)]; [None] is Python's [None]. *)
Definition _get_index_range (start stop : option Z) (length : Z) (step : option Z)
  : result (Z * Z * Z) :=
  if bool_decide (step = Some 0) then Raise ValueError
  else if length <? 0 then Raise ValueError
  else
    let step := default 1 step in
    start' ←
      match start with
      | None => Ok (if 0 <? step then 0 else length - 1)
      | Some s =>
          if s <? 0 then (if s + length <? 0 then Raise IndexError else Ok (s + length))
          else if length <=? s then Raise IndexError else Ok s
      end;
    stop' ←
      match stop with
      | None => Ok (if 0 <? step then length else -1)
      | Some s =>
          if s <? 0 then (if s + length <? 0 then Raise IndexError else Ok (s + length))
          else if length <? s then Raise IndexError else Ok s
      end;
    Ok (start', stop', step).

Definition _get_dim_size (start stop step : Z) : result Z :=
  _ ← py_assert (negb (step =? 0));
  if 0 <? step then
    (_ ← py_assert (start <? stop); q ← py_floordiv (stop - start - 1) step; Ok (q + 1))
  else
    (_ ← py_assert (stop <? start); q ← py_floordiv (start - stop - 1) (- step); Ok (q + 1)).

Definition _get_oshape_of_gather_nd_op (dshape ishape : list Z) : result (list Z) :=
  _ ← py_assert ((0 <? py_len dshape) && (0 <? py_len ishape));
  match ishape with
  | [] => Raise IndexError
  | i0 :: irest =>
      Ok (irest ++ (if i0 <? py_len dshape then py_slice dshape i0 (py_len dshape) else []))
  end.

(** The loop of [_get_broadcast_shape] over [zip(shape1[::-1], shape2[::-1])],
    writing [shape[i]] from the last axis down. *)
Fixpoint broadcast_loop (pairs : list (Z * Z)) (shape : list Z) (i : nat) : result (list Z) :=
  match pairs with
  | [] => Ok shape
  | (a, b) :: pairs =>
      if negb (a =? 1) && negb (b =? 1) && negb (a =? b) then Raise ValueError
      else broadcast_loop pairs (<[i := Z.max a b]> shape) (pred i)
  end.

Definition _get_broadcast_shape (shape1 shape2 : list Z) : result (list Z) :=
  if bool_decide (shape1 = shape2) then Ok shape1
  else
    let shape := if py_len shape2 <? py_len shape1 then shape1 else shape2 in
    broadcast_loop (zip (reverse shape1) (reverse shape2)) shape
                   (Nat.max (length shape1) (length shape2) - 1).

(** ** Keys and their dispatch *)

Inductive nd_key :=
  | KInt (i : Z)
  | KSlice (start stop step : option Z)
  | KTuple (ks : list nd_key)
  | KList (ks : list nd_key)
  | KArray
  | KOther.

Inductive indexing_code := BASIC_INDEXING | ADVANCED_INDEXING | UNSUPPORTED_INDEXING.

Definition is_int (k : nd_key) : bool := match k with KInt _ => true | _ => false end.

(** The loop over the entries of a tuple key. *)
Fixpoint dispatch_tuple (ks : list nd_key) : result indexing_code :=
  match ks with
  | [] => Ok BASIC_INDEXING
  | (KArray | KList _ | KTuple _) :: _ => Ok ADVANCED_INDEXING
  | (KSlice _ _ _ | KInt _) :: ks => dispatch_tuple ks
  | KOther :: _ => Raise ValueError
  end.

Definition _get_indexing_dispatch_code (key : nd_key) : result indexing_code :=
  match key with
  | KArray => Ok ADVANCED_INDEXING
  | KList ks => if forallb is_int ks then Ok ADVANCED_INDEXING else Raise TypeError
  | KInt _ | KSlice _ _ _ => Ok BASIC_INDEXING
  | KTuple ks => dispatch_tuple ks
  | KOther => Ok UNSUPPORTED_INDEXING
  end.

(** ** Basic indexing *)

(** [NDArray::Slice]. *)
Definition MXNDArraySlice (a : NDArray) (b e : Z) : result NDArray :=
  if (b <=? e) && (e <=? nd_len a)
  then Ok (mkND (nd_ctx a) (nd_dtype a) (nd_tail a) (py_slice (nd_rows a) b e))
  else Raise MXNetError.

(** [NDArray::At]: one row, which keeps its axis when it is the only one. *)
Definition MXNDArrayAt (a : NDArray) (i : Z) : result NDArray :=
  r ← MXNDArraySlice a i (i + 1);
  if 1 <? py_len (nd_shape a) then nd_reshape r (nd_tail a) else Ok r.

Definition _slice (a : NDArray) (start stop : option Z) : result NDArray :=
  '(b, e, _) ← _get_index_range start stop (nd_len a) (Some 1);
  MXNDArraySlice a b e.

Definition _at (a : NDArray) (idx : Z) : result NDArray :=
  if idx <? 0 then
    let idx' := idx + nd_len a in
    if idx' <? 0 then Raise IndexError else MXNDArrayAt a idx'
  else MXNDArrayAt a idx.

(** [x[k]] for an integer [k]. *)
Definition nd_item (a : NDArray) (k : Z) : result NDArray :=
  if nd_len a - 1 <? k then Raise IndexError else _at a k.

Section BasicIndexing.
(** The strided slice operator [op.slice(x, begin, end, step)]. *)
Context (op_slice : NDArray -> list (option Z) -> list (option Z) -> list (option Z) -> result NDArray).

(** The entries of a tuple key turned into [begin], [end], [step] and
    [kept_axes]; [i] is the axis of the first entry. *)
Fixpoint tuple_bounds (shape : list Z) (i : nat) (ks : list nd_key)
  : result (list (option Z) * list (option Z) * list (option Z) * list nat) :=
  match ks with
  | [] => Ok ([], [], [], [])
  | KInt z :: ks =>
      e ← (if z =? -1 then py_index shape (Z.of_nat i) else Ok (z + 1));
      '(b, es, st, kept) ← tuple_bounds shape (S i) ks;
      Ok (Some z :: b, Some e :: es, Some 1 :: st, kept)
  | KSlice start stop step :: ks =>
      if bool_decide (step = Some 0) then Raise ValueError
      else
        '(b, es, st, kept) ← tuple_bounds shape (S i) ks;
        Ok (start :: b, stop :: es, step :: st, i :: kept)
  | _ :: _ => Raise ValueError
  end.

Definition _get_nd_basic_indexing (a : NDArray) (key : nd_key) : result NDArray :=
  match key with
  | KInt k => nd_item a k
  | KSlice start stop step =>
      if bool_decide (step = None) || bool_decide (step = Some 1) then
        match start, stop with
        | None, None => Ok a
        | _, _ => _slice a start stop
        end
      else if bool_decide (step = Some 0) then Raise ValueError
      else op_slice a [start] [stop] [step]
  | KTuple ks =>
      _ ← py_assert (negb (py_len ks =? 0));
      '(b, e, st, kept) ← tuple_bounds (nd_shape a) 0 ks;
      let kept := kept ++ seq (length ks) (length (nd_shape a) - length ks) in
      sliced ← op_slice a b e st;
      if Nat.eqb (length kept) (length (nd_shape a)) then Ok sliced
      else
        oshape ← mapR (fun ax => py_index (nd_shape sliced) (Z.of_nat ax)) kept;
        let oshape := if py_len oshape =? 0 then [1] else oshape in
        _ ← py_assert (prod_shape oshape =? prod_shape (nd_shape sliced));
        nd_reshape sliced oshape
  | _ => Raise ValueError
  end.

(** [x[key]]; advanced indexing (a gather operator) is a parameter. *)
Definition nd_getitem (advanced : NDArray -> nd_key -> result NDArray) (a : NDArray) (key : nd_key)
  : result NDArray :=
  code ← _get_indexing_dispatch_code key;
  match code with
  | BASIC_INDEXING => _get_nd_basic_indexing a key
  | ADVANCED_INDEXING => advanced a key
  | UNSUPPORTED_INDEXING => Raise ValueError
  end.
End BasicIndexing.

(** ** Concatenation along the first axis *)

(** [concat(x, y, dim=0)] on arrays of one type that agree below the first axis. *)
Definition concat0 (a b : NDArray) : result NDArray :=
  if bool_decide (nd_tail a = nd_tail b) && bool_decide (nd_dtype a = nd_dtype b)
  then Ok (mkND (nd_ctx a) (nd_dtype a) (nd_tail a) (nd_rows a ++ nd_rows b))
  else Raise MXNetError.

(** The checks of shape and type of [concatenate(arrays, axis=0)]. *)
Fixpoint concatenate_check (tail : list Z) (dtype : string) (shape_axis : Z) (arrays : list NDArray) : result Z :=
  match arrays with
  | [] => Ok shape_axis
  | a :: arrays =>
      _ ← py_assert (bool_decide (tail = nd_tail a));
      _ ← py_assert (bool_decide (dtype = nd_dtype a));
      concatenate_check tail dtype (shape_axis + nd_len a) arrays
  end.

(** [ret[i:j] = arr]: [_set_nd_basic_indexing] with a slice key, on rows.  The
    whole-array case assigns directly; any other slice goes through
    [_get_index_range] and [_get_dim_size], which refuse empty and out-of-range
    slices. *)
Definition set_slice (ret : list (list Z)) (i j : Z) (rows : list (list Z)) : result (list (list Z)) :=
  if (i =? 0) && (j =? py_len ret) then Ok rows
  else
    '(b, e, st) ← _get_index_range (Some i) (Some j) (py_len ret) None;
    _ ← _get_dim_size b e st;
    Ok (py_slice ret 0 b ++ rows ++ py_slice ret e (py_len ret)).

(** [ret[idx:idx+arr.shape[0]] = arr] for each array in turn. *)
Fixpoint concatenate_fill (ret : list (list Z)) (idx : Z) (arrays : list NDArray)
  : result (list (list Z)) :=
  match arrays with
  | [] => Ok ret
  | a :: arrays =>
      ret ← set_slice ret idx (idx + nd_len a) (nd_rows a);
      concatenate_fill ret (idx + nd_len a) arrays
  end.

(** [concatenate(arrays, axis=0, always_copy)]; the rows of [empty] are arbitrary. *)
Definition concatenate (uninit : list Z) (arrays : list NDArray) (always_copy : bool) : result NDArray :=
  _ ← py_assert (0 <? py_len arrays);
  match arrays with
  | [] => Raise AssertionError
  | a0 :: rest =>
      if negb always_copy && (py_len arrays =? 1) then Ok a0
      else
        n ← concatenate_check (nd_tail a0) (nd_dtype a0) (nd_len a0) rest;
        rows ← concatenate_fill (replicate (Z.to_nat n) uninit) 0 arrays;
        Ok (mkND (nd_ctx a0) (nd_dtype a0) (nd_tail a0) rows)
  end.

(** ** Slicing *)

(** The bounds an NDArray accepts: a start inside the array and a stop inside it or
    at its end, each possibly counted from the end. *)
Definition start_ok (n : Z) (start : option Z) : bool :=
  match start with None => true | Some s => (- n <=? s) && (s <? n) end.
Definition stop_ok (n : Z) (stop : option Z) : bool :=
  match stop with None => true | Some s => (- n <=? s) && (s <=? n) end.

Lemma slice_bound_range n i : 0 <= n -> 0 <= slice_bound n i <= n.
Proof. intros. unfold slice_bound. bool_cases. Qed.

Lemma slice_bound_idem n i : 0 <= n -> slice_bound n (slice_bound n i) = slice_bound n i.
Proof.
  intros. pose proof (slice_bound_range n i).
  unfold slice_bound at 1. destruct (Z.ltb_spec (slice_bound n i) 0); lia.
Qed.

Lemma py_slice_norm {A} (l : list A) i j :
  py_slice l (slice_bound (py_len l) i) (slice_bound (py_len l) j) = py_slice l i j.
Proof. unfold py_slice. by rewrite !slice_bound_idem by apply py_len_nonneg. Qed.

Lemma get_index_range_step1 n start stop :
  0 <= n ->
  _get_index_range start stop n (Some 1) =
    if start_ok n start && stop_ok n stop
    then Ok (slice_bound n (default 0 start), slice_bound n (default n stop), 1)
    else Raise IndexError.
Proof.
  intros Hn. unfold _get_index_range, start_ok, stop_ok, slice_bound. simpl.
  destruct (Z.ltb_spec n 0); [lia|].
  destruct start as [s|], stop as [t|]; simpl; repeat (bool_cases; simpl); try lia;
    try (f_equal; f_equal; f_equal; lia); done.
Qed.

(** A slice whose bounds are inside the array. *)
Lemma slice_in_bounds x i j :
  0 <= i < nd_len x -> i <= j <= nd_len x ->
  _slice x (Some i) (Some j) = Ok (mkND (nd_ctx x) (nd_dtype x) (nd_tail x) (py_slice (nd_rows x) i j)).
Proof.
  intros Hi Hj. unfold _slice. rewrite get_index_range_step1 by lia.
  unfold start_ok, stop_ok. rewrite !(proj2 (Z.leb_le _ _)) by lia.
  rewrite (proj2 (Z.ltb_lt _ _)) by lia. simpl. unfold slice_bound.
  rewrite !(proj2 (Z.ltb_ge _ _)) by lia. rewrite !Z.min_l by lia.
  unfold MXNDArraySlice. rewrite !(proj2 (Z.leb_le _ _)) by lia. done.
Qed.

(** [x[start:stop]] on an NDArray, completely: it is the Python slice of the rows
    when both bounds are inside the array and in order; a bound outside raises
    [IndexError] (a Python list or numpy array would clip it) and bounds out of
    order are refused by the engine. *)
Theorem nd_slice_spec op_slice a start stop :
  _get_nd_basic_indexing op_slice a (KSlice start stop None) =
    let n := nd_len a in
    if start_ok n start && stop_ok n stop then
      if slice_bound n (default 0 start) <=? slice_bound n (default n stop)
      then Ok (mkND (nd_ctx a) (nd_dtype a) (nd_tail a) (py_slice (nd_rows a) (default 0 start) (default n stop)))
      else Raise MXNetError
    else Raise IndexError.
Proof.
  assert (0 <= nd_len a) as Hn by apply py_len_nonneg.
  assert (_slice a start stop =
    let n := nd_len a in
    if start_ok n start && stop_ok n stop then
      if slice_bound n (default 0 start) <=? slice_bound n (default n stop)
      then Ok (mkND (nd_ctx a) (nd_dtype a) (nd_tail a) (py_slice (nd_rows a) (default 0 start) (default n stop)))
      else Raise MXNetError
    else Raise IndexError) as E.
  { unfold _slice. rewrite get_index_range_step1 by done.
    cbv zeta. destruct (start_ok _ _ && stop_ok _ _); [|done]. simpl. unfold MXNDArraySlice.
    pose proof (slice_bound_range (nd_len a) (default (nd_len a) stop) Hn).
    rewrite (proj2 (Z.leb_le (slice_bound (nd_len a) (default (nd_len a) stop)) (nd_len a))) by lia.
    rewrite andb_true_r. unfold nd_len. by rewrite py_slice_norm. }
  simpl. destruct start as [s|], stop as [t|]; try exact E.
  simpl. rewrite (proj2 (Z.leb_le _ _)) by (unfold slice_bound; bool_cases).
  unfold nd_len. rewrite py_slice_all. by destruct a.
Qed.

(** [_get_dim_size] counts the elements of the index range. *)
Lemma get_dim_size_spec start stop step :
  step ≠ 0 -> (if 0 <? step then start < stop else stop < start) ->
  exists l, py_range3 start stop step = Ok l /\ _get_dim_size start stop step = Ok (py_len l).
Proof.
  intros Hs Ho. unfold py_range3, _get_dim_size, py_floordiv.
  rewrite (proj2 (Z.eqb_neq step 0)) by done. eexists. split; [reflexivity|]. simpl.
  unfold py_len. rewrite range_from_length. unfold range_count.
  destruct (Z.ltb_spec 0 step) as [Hp|Hp]; rewrite (proj2 (Z.ltb_lt _ _)) by done; simpl.
  - replace (stop - start + step - 1) with (stop - start - 1 + 1 * step) by lia.
    rewrite Z.div_add by lia. pose proof (Z.div_pos (stop - start - 1) step). f_equal. lia.
  - rewrite (proj2 (Z.eqb_neq (- step) 0)) by lia. simpl.
    replace (start - stop - step - 1) with (start - stop - 1 + 1 * (- step)) by lia.
    rewrite Z.div_add by lia. pose proof (Z.div_pos (start - stop - 1) (- step)). f_equal. lia.
Qed.

(** ** Broadcasting *)

(** numpy's rule: [s] broadcasts to [t] when, aligned at the last axis, every axis
    of [s] is 1 or equal to that of [t]. *)
Definition broadcasts_to (s t : list Z) : Prop :=
  (length s <= length t)%nat /\
  forall j a b, reverse s !! j = Some a -> reverse t !! j = Some b -> a = 1 \/ a = b.

Definition compatible (p : Z * Z) : Prop := p.1 = 1 \/ p.2 = 1 \/ p.1 = p.2.

(** What the loop of [_get_broadcast_shape] does to each position. *)
Lemma broadcast_loop_spec pairs shape i :
  (length pairs <= S i)%nat -> (i < length shape)%nat \/ pairs = [] ->
  match broadcast_loop pairs shape i with
  | Raise e => e = ValueError /\ Exists (fun p => ~ compatible p) pairs
  | Ok s =>
      Forall compatible pairs /\ length s = length shape /\
      (forall j a b, pairs !! j = Some (a, b) -> s !! (i - j)%nat = Some (Z.max a b)) /\
      (forall k, (i < k)%nat \/ (k + length pairs <= i)%nat -> s !! k = shape !! k)
  end.
Proof.
  revert shape i. induction pairs as [|[a b] pairs IH]; intros shape i Hl Hi; simpl.
  { split_and!; [constructor|done|done|done]. }
  destruct Hi as [Hi|]; [|done]. simpl in Hl.
  destruct (negb (a =? 1) && negb (b =? 1) && negb (a =? b)) eqn:E.
  { split; [done|]. constructor. unfold compatible; simpl. lia. }
  specialize (IH (<[i := Z.max a b]> shape) (pred i) ltac:(lia)).
  rewrite length_insert in IH. specialize (IH ltac:(left; lia)).
  destruct (broadcast_loop pairs _ (pred i)) as [s|e].
  - destruct IH as (Hc & Hs & Hin & Hout). split_and!.
    + constructor; [unfold compatible; simpl; lia|done].
    + done.
    + intros [|j] a' b' Hj; simpl in Hj.
      * simplify_eq. rewrite Nat.sub_0_r.
        destruct pairs as [|p pairs].
        -- rewrite Hout by (simpl; lia). by apply list_lookup_insert_eq.
        -- rewrite Hout by (simpl in *; lia). by apply list_lookup_insert_eq.
      * specialize (Hin j a' b' Hj). by replace (i - S j)%nat with (pred i - j)%nat by lia.
    + intros k Hk. rewrite Hout by lia. apply list_lookup_insert_ne. lia.
  - destruct IH as [-> HE]. split; [done|]. by constructor 2.
Qed.

Lemma broadcasts_to_refl s : broadcasts_to s s.
Proof. split; [done|]. intros j a b Ha Hb. right. congruence. Qed.

Lemma reverse_lookup_back {A} (l : list A) j :
  (j < length l)%nat -> reverse l !! j = l !! (length l - 1 - j)%nat.
Proof. intros. rewrite reverse_lookup by done. f_equal. lia. Qed.

Lemma zip_reverse_lookup (s1 s2 : list Z) j a b :
  reverse s1 !! j = Some a -> reverse s2 !! j = Some b ->
  zip (reverse s1) (reverse s2) !! j = Some (a, b).
Proof. intros Ha Hb. apply lookup_zip_with_Some. eauto. Qed.

(** The broadcast shape position by position, aligned at the last axis. *)
Lemma broadcast_shape_lookup s1 s2 s :
  _get_broadcast_shape s1 s2 = Ok s ->
  length s = Nat.max (length s1) (length s2) /\
  forall j, reverse s !! j =
    match reverse s1 !! j, reverse s2 !! j with
    | Some a, Some b => Some (Z.max a b)
    | Some a, None => Some a
    | None, o => o
    end /\
  forall a b, reverse s1 !! j = Some a -> reverse s2 !! j = Some b -> compatible (a, b).
Proof.
  unfold _get_broadcast_shape. destruct (bool_decide_reflect (s1 = s2)) as [<-|N].
  { intros [= <-]. split; [lia|]. intros j. split.
    - destruct (reverse s1 !! j); [by rewrite Z.max_id|done].
    - intros a b. unfold compatible. simpl. intros. right. right. congruence. }
  set (sh := if py_len s2 <? py_len s1 then s1 else s2).
  set (n := Nat.max (length s1) (length s2)).
  assert (Hsh : length sh = n) by (subst sh n; unfold py_len; destruct (Z.ltb_spec (Z.of_nat (length s2)) (Z.of_nat (length s1))); lia).
  assert (Hn : (0 < n)%nat) by (subst n; destruct s1, s2; simpl; try lia; done).
  assert (Hz : length (zip (reverse s1) (reverse s2)) = Nat.min (length s1) (length s2))
    by (rewrite length_zip_with, !length_reverse; lia).
  pose proof (broadcast_loop_spec (zip (reverse s1) (reverse s2)) sh (n - 1)) as L.
  intros E. rewrite E in L. destruct L as (Hc & Hl & Hin & Hout); [lia|left; lia|].
  split; [lia|]. intros j. split.
  - destruct (decide (j < n)%nat) as [Hj|Hj]; cycle 1.
    { rewrite !lookup_ge_None_2 by (rewrite ?length_reverse; lia). done. }
    rewrite (reverse_lookup_back s) by lia.
    destruct (reverse s1 !! j) as [a|] eqn:Ha, (reverse s2 !! j) as [b|] eqn:Hb.
    + rewrite <- (Hin j a b) by (by apply zip_reverse_lookup). f_equal. lia.
    + apply lookup_lt_Some in Ha as ?. apply lookup_ge_None in Hb as ?. rewrite length_reverse in *.
      rewrite Hout by lia. assert (sh = s1) as -> by (subst sh; unfold py_len; by rewrite (proj2 (Z.ltb_lt _ _)) by lia).
      rewrite <- Ha, reverse_lookup_back by lia. f_equal. lia.
    + apply lookup_lt_Some in Hb as ?. apply lookup_ge_None in Ha as ?. rewrite length_reverse in *.
      rewrite Hout by lia. assert (sh = s2) as -> by (subst sh; unfold py_len; by rewrite (proj2 (Z.ltb_ge _ _)) by lia).
      rewrite <- Hb, reverse_lookup_back by lia. f_equal. lia.
    + apply lookup_ge_None in Ha, Hb. rewrite length_reverse in *. lia.
  - intros a b Ha Hb. rewrite Forall_lookup in Hc. eapply Hc. by apply zip_reverse_lookup.
Qed.

Lemma reverse_lookup_pos s j a : Forall (fun d => 1 <= d) s -> reverse s !! j = Some a -> 1 <= a.
Proof.
  intros HF Ha. rewrite Forall_forall in HF. apply (HF a).
  apply elem_of_reverse, list_elem_of_lookup. eauto.
Qed.

(** for shapes without empty axes, [_get_broadcast_shape] returns the least
    shape both arguments broadcast to, and raises [ValueError] exactly when there
    is none. *)
Theorem broadcast_shape_least s1 s2 :
  Forall (fun d => 1 <= d) s1 -> Forall (fun d => 1 <= d) s2 ->
  match _get_broadcast_shape s1 s2 with
  | Ok s => broadcasts_to s1 s /\ broadcasts_to s2 s /\
            forall t, broadcasts_to s1 t -> broadcasts_to s2 t -> broadcasts_to s t
  | Raise e => e = ValueError /\ forall t, ~ (broadcasts_to s1 t /\ broadcasts_to s2 t)
  end.
Proof.
  intros P1 P2. destruct (_get_broadcast_shape s1 s2) as [s|e] eqn:E.
  - apply broadcast_shape_lookup in E as [Hl Hs].
    split_and!.
    + split; [lia|]. intros j a b Ha Hb. destruct (Hs j) as [Hj Hc]. rewrite Ha, Hb in Hj.
      destruct (reverse s2 !! j) as [c|] eqn:Hc2; [|right; congruence].
      specialize (Hc a c Ha eq_refl). pose proof (reverse_lookup_pos _ _ _ P1 Ha).
      pose proof (reverse_lookup_pos _ _ _ P2 Hc2). simplify_eq. unfold compatible in Hc. simpl in Hc. lia.
    + split; [lia|]. intros j a b Ha Hb. destruct (Hs j) as [Hj Hc]. rewrite Ha, Hb in Hj.
      destruct (reverse s1 !! j) as [c|] eqn:Hc1; [|right; congruence].
      specialize (Hc c a eq_refl Ha). pose proof (reverse_lookup_pos _ _ _ P2 Ha).
      pose proof (reverse_lookup_pos _ _ _ P1 Hc1). simplify_eq. unfold compatible in Hc. simpl in Hc. lia.
    + intros t [L1 T1] [L2 T2]. split; [lia|]. intros j a b Ha Hb. destruct (Hs j) as [Hj _].
      rewrite Ha in Hj. specialize (T1 j). specialize (T2 j).
      destruct (reverse s1 !! j) as [c|] eqn:Hc1, (reverse s2 !! j) as [d|] eqn:Hc2; simplify_eq.
      * specialize (T1 c b eq_refl Hb). specialize (T2 d b eq_refl Hb).
        pose proof (reverse_lookup_pos _ _ _ P1 Hc1). pose proof (reverse_lookup_pos _ _ _ P2 Hc2). lia.
      * by apply T1.
      * by apply T2.
  - unfold _get_broadcast_shape in E. destruct (bool_decide_reflect (s1 = s2)); [done|].
    assert (0 < Nat.max (length s1) (length s2))%nat by (destruct s1, s2; simpl; try lia; done).
    pose proof (broadcast_loop_spec (zip (reverse s1) (reverse s2))
      (if py_len s2 <? py_len s1 then s1 else s2) (Nat.max (length s1) (length s2) - 1)) as L.
    rewrite E in L. destruct L as [-> HE].
    + rewrite length_zip_with, !length_reverse. lia.
    + left. unfold py_len. destruct (Z.ltb_spec (Z.of_nat (length s2)) (Z.of_nat (length s1))); lia.
    + split; [done|]. intros t [[L1 T1] [L2 T2]].
      apply Exists_exists in HE as ([a b] & Hin & Hn). apply list_elem_of_lookup in Hin as [j Hj].
      apply lookup_zip_with_Some in Hj as (a' & b' & [= <- <-] & Ha & Hb).
      assert (j < length t)%nat as Hlt by (apply lookup_lt_Some in Ha; rewrite length_reverse in Ha; lia).
      rewrite <- (length_reverse t) in Hlt. apply lookup_lt_is_Some in Hlt as [c Hc].
      specialize (T1 j a c Ha Hc). specialize (T2 j b c Hb Hc). apply Hn. unfold compatible. simpl. lia.
Qed.

Example broadcast_shape_least_witness :
  _get_broadcast_shape [8; 1; 6; 1] [7; 1; 5] = Ok [8; 7; 6; 5] /\
  broadcasts_to [8; 1; 6; 1] [8; 7; 6; 5].
Proof.
  split; [reflexivity|].
  pose proof (broadcast_shape_least [8; 1; 6; 1] [7; 1; 5]
    ltac:(repeat constructor; lia) ltac:(repeat constructor; lia)) as B.
  apply B.
Defined.

(** ** Concatenation *)

Definition total_len (arrays : list NDArray) : Z :=
  fold_right (fun a n => nd_len a + n) 0 arrays.

Lemma total_len_nonneg arrays : 0 <= total_len arrays.
Proof.
  induction arrays as [|a arrays IH]; simpl; [lia|].
  pose proof (py_len_nonneg (nd_rows a)). unfold nd_len. lia.
Qed.

(** Assigning into the first rows that have not been written yet. *)
Lemma set_slice_next pre rows old rest :
  0 < py_len rows -> py_len old = py_len rows ->
  set_slice (pre ++ old ++ rest) (py_len pre) (py_len pre + py_len rows) rows
    = Ok (pre ++ rows ++ rest).
Proof.
  intros Hr Ho. unfold set_slice.
  pose proof (py_len_nonneg pre). pose proof (py_len_nonneg rest).
  destruct ((py_len pre =? 0) && _) eqn:E.
  - apply andb_true_iff in E as [E1%Z.eqb_eq E2%Z.eqb_eq]. rewrite !py_len_app in E2.
    destruct pre; [|rewrite py_len_cons in *; pose proof (py_len_nonneg pre); lia].
    destruct rest; [by rewrite app_nil_r|rewrite py_len_cons in *; pose proof (py_len_nonneg rest); lia].
  - clear E. unfold _get_index_range. simpl.
    rewrite !py_len_app, Ho.
    rewrite !(proj2 (Z.ltb_ge _ _)), (proj2 (Z.leb_gt _ _)) by lia. simpl.
    unfold _get_dim_size. simpl. rewrite (proj2 (Z.ltb_lt _ _)) by lia. simpl.
    f_equal. f_equal; [|f_equal].
    + rewrite py_slice_in by (rewrite ?py_len_app; lia). rewrite Z.sub_0_r.
      unfold py_len. rewrite Nat2Z.id. change (Z.to_nat 0) with 0%nat. by rewrite drop_0, take_app_length.
    + rewrite app_assoc, py_slice_app_r by (rewrite ?py_len_app; lia). rewrite py_len_app, Ho.
      rewrite Z.sub_diag. replace (_ - _) with (py_len rest) by lia. apply py_slice_all.
Qed.

Lemma concatenate_fill_spec arrays pre rest :
  Forall (fun a => 0 < nd_len a) arrays -> py_len rest = total_len arrays ->
  concatenate_fill (pre ++ rest) (py_len pre) arrays = Ok (pre ++ concat (map nd_rows arrays)).
Proof.
  revert pre rest. induction arrays as [|a arrays IH]; intros pre rest HF Hl; simpl.
  { destruct rest; [done|]. rewrite py_len_cons in Hl. pose proof (py_len_nonneg rest). simpl in Hl. lia. }
  inversion HF as [|? ? Ha HF']; subst. simpl in Hl. unfold nd_len in *.
  pose proof (total_len_nonneg arrays).
  replace rest with (take (length (nd_rows a)) rest ++ drop (length (nd_rows a)) rest)
    by apply take_drop.
  rewrite set_slice_next by (try done; unfold py_len in *; rewrite length_take; lia). simpl.
  rewrite app_assoc, <- py_len_app, IH; [by rewrite <- app_assoc|done|].
  unfold py_len in *. rewrite length_drop. lia.
Qed.

Lemma concatenate_check_ok tail dtype n arrays :
  Forall (fun a => nd_tail a = tail /\ nd_dtype a = dtype) arrays ->
  concatenate_check tail dtype n arrays = Ok (n + total_len arrays).
Proof.
  induction 1 as [|a arrays [Ht Hd] HF IH] in n |- *; simpl; [f_equal; lia|].
  rewrite Ht, Hd, !bool_decide_eq_true_2 by done. simpl. rewrite IH. f_equal. lia.
Qed.

(** concatenating non-empty arrays of one row shape and type along the first axis gives
    all their rows in order: every row of the freshly allocated result is
    overwritten, so its initial contents do not matter. *)
Theorem concatenate_rows uninit a0 arrays always_copy :
  Forall (fun a => 0 < nd_len a /\ nd_tail a = nd_tail a0 /\ nd_dtype a = nd_dtype a0) (a0 :: arrays) ->
  concatenate uninit (a0 :: arrays) always_copy
    = Ok (mkND (nd_ctx a0) (nd_dtype a0) (nd_tail a0) (concat (map nd_rows (a0 :: arrays)))).
Proof.
  intros HF. unfold concatenate.
  rewrite (proj2 (Z.ltb_lt 0 _)) by (rewrite py_len_cons; pose proof (py_len_nonneg arrays); lia).
  cbn [mbind result_bind py_assert].
  destruct (negb always_copy && (py_len (a0 :: arrays) =? 1)) eqn:E.
  - apply andb_true_iff in E as [_ E%Z.eqb_eq].
    destruct arrays; [|rewrite !py_len_cons in E; pose proof (py_len_nonneg arrays); lia].
    simpl. rewrite app_nil_r. by destruct a0.
  - rewrite concatenate_check_ok; cbn [mbind result_bind];
      [|inversion HF; subst; eapply Forall_impl; [done|by intros ? [_ ?]]].
    pose proof (total_len_nonneg arrays). pose proof (py_len_nonneg (nd_rows a0)).
    pose proof (concatenate_fill_spec (a0 :: arrays) []
      (replicate (Z.to_nat (nd_len a0 + total_len arrays)) uninit)) as F.
    change (py_len []) with 0 in F. cbn [app] in F. rewrite F; [done| |].
    + eapply Forall_impl; [done|by intros ? [? _]].
    + unfold py_len. rewrite length_replicate. simpl. unfold nd_len in *. lia.
Qed.

Example concatenate_rows_witness :
  concatenate [] [mkND cpu "float32" [2] [[1;2];[3;4]]; mkND cpu "float32" [2] [[5;6]]] true
    = Ok (mkND cpu "float32" [2] [[1;2];[3;4];[5;6]]).
Proof.
  apply (concatenate_rows [] (mkND cpu "float32" [2] [[1;2];[3;4]]) [mkND cpu "float32" [2] [[5;6]]] true).
  repeat constructor.
Defined.
