(* ===== verification/Array.v ===== *)
(** * Arrays of any shape

    Arrays as a shape with the elements in row-major order, over any type of elements, and the
    operations of the library and of [numpy] on them that the metrics, the initializers and
    the recurrent cells use: lanes along an axis, broadcasting, slices of the first axis
    ([NDArray._slice]), concatenation ([concatenate]) and assignment of all elements. *)

From S2P Require Import Prelude NDArray.

(** ** Arrays *)

Record nda (F : Type) := mkNda { a_shape : list nat; a_flat : list F }.
Arguments mkNda {F} _ _.
Arguments a_shape {F} _.
Arguments a_flat {F} _.

Definition size (s : list nat) : nat := foldr Nat.mul 1%nat s.

(** The [i]-th of consecutive blocks of [n] elements. *)
Definition chunk {A} (n i : nat) (l : list A) : list A := take n (drop (i * n) l).
Definition blocks {A} (n k : nat) (l : list A) : list (list A) := map (fun i => chunk n i l) (seq 0 k).

(** [len(a)] and iteration over the first axis. *)
Definition a_len {F} (a : nda F) : result Z := match a_shape a with d :: _ => Ok (Z.of_nat d) | [] => Raise TypeError end.
Definition a_rows {F} (a : nda F) : result (list (nda F)) :=
  match a_shape a with
  | d :: s => Ok (map (mkNda s) (blocks (size s) d (a_flat a)))
  | [] => Raise TypeError
  end.

(** The axis for a possibly negative number. *)
Definition norm_axis (n : nat) (axis : Z) : option nat :=
  let a := if axis <? 0 then axis + Z.of_nat n else axis in
  if (0 <=? a) && (a <? Z.of_nat n) then Some (Z.to_nat a) else None.

(** The elements along an axis, for all positions on the others in order. *)
Definition lanes {A} (before d after : nat) (l : list A) : list (list A) :=
  concat (map (fun b => map (fun i => omap (fun j => b !! (j * after + i)%nat) (seq 0 d)) (seq 0 after)) (blocks (d * after) before l)).
Definition axis_lanes {F} (axis : nat) (a : nda F) : list (list F) :=
  lanes (size (take axis (a_shape a))) (default 1%nat (a_shape a !! axis)) (size (drop (S axis) (a_shape a))) (a_flat a).

(** Broadcasting of two arrays with as many axes: the pairs of elements that meet. *)
Fixpoint bzip {A B} (s1 s2 : list nat) (l1 : list A) (l2 : list B) : option (list (A * B)) :=
  match s1, s2 with
  | [], [] => Some (zip l1 l2)
  | d1 :: s1, d2 :: s2 =>
      let n1 := size s1 in
      let n2 := size s2 in
      let sub d i1 i2 := (@concat _) <$> mapM (fun i => bzip s1 s2 (chunk n1 (i1 i) l1) (chunk n2 (i2 i) l2)) (seq 0 d) in
      if (d1 =? d2)%nat then sub d1 id id
      else if (d1 =? 1)%nat then sub d2 (fun _ => 0%nat) id
      else if (d2 =? 1)%nat then sub d1 id (fun _ => 0%nat)
      else None
  | _, _ => None
  end.
Definition broadcast {A B} (a : nda A) (b : nda B) : result (list (A * B)) :=
  let n := Nat.max (length (a_shape a)) (length (a_shape b)) in
  let pad s := replicate (n - length s) 1%nat ++ s in
  match bzip (pad (a_shape a)) (pad (a_shape b)) (a_flat a) (a_flat b) with
  | Some l => Ok l
  | None => Raise ValueError
  end.

(** ** Slices and concatenation along the first axis *)

(** A view on an array: where its elements start, and its shape. *)
Record view := mkView { v_off : nat; v_shape : list nat }.

(** The view [a[start:stop]] of a view: [NDArray._slice], then [NDArray::Slice]. *)
Definition view_slice (v : view) (start stop : Z) : result view :=
  match v_shape v with
  | [] => Raise IndexError
  | d :: s =>
      '(b, e, _) ← _get_index_range (Some start) (Some stop) (Z.of_nat d) (Some 1);
      if (b <=? e) && (e <=? Z.of_nat d)
      then Ok (mkView (v_off v + Z.to_nat b * size s) (Z.to_nat (e - b) :: s))
      else Raise MXNetError
  end.

(** The elements of a view on an array with elements [l], and the assignment of new ones. *)
Definition view_get {F} (l : list F) (v : view) : list F := take (size (v_shape v)) (drop (v_off v) l).
Definition view_set {F} (l : list F) (v : view) (x : list F) : list F :=
  take (v_off v) l ++ x ++ drop (v_off v + length x) l.
Definition view_of {F} (a : nda F) : view := mkView 0 (a_shape a).
Definition view_array {F} (a : nda F) (v : view) : nda F := mkNda (v_shape v) (view_get (a_flat a) v).

(** [a[start:stop].copy()]. *)
Definition a_slice {F} (start stop : Z) (a : nda F) : result (nda F) :=
  v ← view_slice (view_of a) start stop; Ok (view_array a v).

(** [concatenate(arrays)] along the first axis: the checks of the shapes, in order, and the
    arrays one after the other. *)
Fixpoint cat_dims {F} (rest : list nat) (l : list (nda F)) : result nat :=
  match l with
  | [] => Ok 0%nat
  | x :: l =>
      match a_shape x with
      | [] => Raise IndexError
      | d :: s => _ ← py_assert (bool_decide (rest = s)); n ← cat_dims rest l; Ok (d + n)%nat
      end
  end.
Definition a_concat {F} (l : list (nda F)) : result (nda F) :=
  match l with
  | [] => Raise AssertionError
  | a :: _ =>
      match a_shape a with
      | [] => Raise IndexError
      | _ :: rest => n ← cat_dims rest l; Ok (mkNda (n :: rest) (concat (map a_flat l)))
      end
  end.

(** ** Reshaping *)

Definition sizeZ (s : list Z) : Z := foldr Z.mul 1 s.

(** The loop of [InferReshapeShape] (without [reverse]): the dimensions so far, the unread
    dimensions of the source, the index of the parameter and that of the [-1] among them. *)
Fixpoint infer_dims (shape : list Z) (tmp src : list Z) (i : nat) (inf : option nat) : result (list Z * option nat) :=
  match shape with
  | [] => Ok (tmp, inf)
  | d :: shape =>
      if d =? 0 then
        match src with [] => Raise MXNetError | s :: src => infer_dims shape (tmp ++ [s]) src (S i) inf end
      else if d =? -1 then
        match inf with Some _ => Raise MXNetError | None => infer_dims shape (tmp ++ [1]) (tail src) (S i) (Some i) end
      else if d =? -2 then infer_dims shape (tmp ++ src) [] (S i) inf
      else if d =? -3 then
        match src with s1 :: s2 :: src => infer_dims shape (tmp ++ [s1 * s2]) src (S i) inf | _ => Raise MXNetError end
      else if d =? -4 then
        match shape, src with
        | d1 :: d2 :: shape, s :: src =>
            if (d1 =? -1) && (d2 =? -1) then Raise MXNetError
            else if ((d1 =? -1) && (d2 =? 0)) || ((d2 =? -1) && (d1 =? 0)) then Raise UndefinedBehaviour
            else
              let d1' := if d1 =? -1 then Z.quot s d2 else d1 in
              let d2' := if d2 =? -1 then Z.quot s d1' else d2 in
              if (d1' * d2' =? s) || (s =? 0) then infer_dims shape (tmp ++ [d1'; d2']) src (S (S (S i))) inf
              else Raise MXNetError
        | _, _ => Raise MXNetError
        end
      else infer_dims shape (tmp ++ [d]) (tail src) (S i) inf
  end.
(** [InferReshapeShape]: the inferred dimension is written at the index of its parameter. *)
Definition InferReshapeShape (shape dshape : list Z) : result (list Z) :=
  '(tmp, inf) ← infer_dims shape [] dshape 0 None;
  match inf with
  | None => Ok tmp
  | Some i =>
      if sizeZ dshape =? 0 then (if (i <? length tmp)%nat then Ok (<[i := 0]> tmp) else Raise UndefinedBehaviour)
      else if (sizeZ tmp =? 0) || negb (i <? length tmp)%nat then Raise UndefinedBehaviour
      else Ok (<[i := Z.quot (sizeZ dshape) (sizeZ tmp)]> tmp)
  end.
(** [NDArray.reshape]: [MXNDArrayReshape64] and [NDArray::Reshape], which accept a smaller
    array (a negative size is huge as an unsigned number). *)
Definition view_reshape (v : view) (shape : list Z) : result view :=
  if (size (v_shape v) =? 0)%nat then Raise MXNetError
  else
    s ← InferReshapeShape shape (map Z.of_nat (v_shape v));
    if forallb (fun d => 0 <=? d) s && (sizeZ s <=? Z.of_nat (size (v_shape v)))
    then Ok (mkView (v_off v) (map Z.to_nat s))
    else Raise MXNetError.

(** ** Assignment of all elements *)

(** The elements that [x[:] = a] assigns to an array [x] of shape [s]: [a] itself, or [a]
    after [broadcast_to]. *)
Definition a_assigned {F} (s : list nat) (a : nda F) : result (list F) :=
  if bool_decide (a_shape a = s) then Ok (a_flat a)
  else if (length s <? length (a_shape a))%nat then Raise ValueError
  else
    let t := replicate (length s - length (a_shape a)) 1%nat ++ a_shape a in
    if forallb (fun '(d, e) => (e =? d)%nat || (e =? 1)%nat) (zip s t)
    then match bzip s t (replicate (size s) tt) (a_flat a) with Some l => Ok (map snd l) | None => Raise ValueError end
    else Raise ValueError.

(** Shape and contents fit. *)
Definition wf_nda {F} (a : nda F) : Prop := length (a_flat a) = size (a_shape a).

(** ** Splitting into blocks of rows and putting them together *)

Lemma view_slice_ok (b e d : nat) o s : (b < d)%nat -> (b <= e)%nat -> (e <= d)%nat ->
  view_slice (mkView o (d :: s)) (Z.of_nat b) (Z.of_nat e) = Ok (mkView (o + b * size s) ((e - b)%nat :: s)).
Proof.
  intros Hb Hbe He. unfold view_slice, _get_index_range. cbn [v_shape v_off].
  rewrite bool_decide_eq_false_2 by done. rewrite (proj2 (Z.ltb_ge (Z.of_nat d) 0)) by lia.
  cbn -[Z.ltb Z.leb]. rewrite !(proj2 (Z.ltb_ge _ 0)) by lia. rewrite (proj2 (Z.leb_gt (Z.of_nat d) (Z.of_nat b))) by lia.
  cbn -[Z.ltb Z.leb]. rewrite (proj2 (Z.ltb_ge (Z.of_nat d) (Z.of_nat e))) by lia. cbn -[Z.ltb Z.leb].
  rewrite !(proj2 (Z.leb_le _ _)) by lia. cbn.
  by replace (Z.to_nat (Z.of_nat e - Z.of_nat b)) with (e - b)%nat by lia; rewrite Nat2Z.id.
Qed.

(** Consecutive blocks of a list make up the list, and the blocks of a concatenation of lists
    of one length are the lists. *)
Lemma blocks_concat {A} n : forall k (l : list A), length l = (k * n)%nat -> concat (blocks n k l) = l.
Proof.
  unfold blocks. induction k as [|k IH]; intros l Hl; [by destruct l|].
  cbn [seq map concat]. rewrite <- seq_shift, map_map. unfold chunk at 1. cbn [Nat.mul]. rewrite drop_0.
  assert (map (fun i => chunk n (S i) l) (seq 0 k) = map (fun i => chunk n i (drop n l)) (seq 0 k)) as ->.
  { apply map_ext. intros i. unfold chunk. rewrite drop_drop. done. }
  rewrite IH; [apply take_drop|]. rewrite length_drop. cbn in Hl. lia.
Qed.

Lemma chunk_concat {A} n : forall (L : list (list A)) j x, Forall (fun y => length y = n) L -> L !! j = Some x -> chunk n j (concat L) = x.
Proof.
  unfold chunk. induction L as [|y L IH]; intros j x HL Hj; [done|]. apply Forall_cons in HL as [Hy HL]. destruct j as [|j]; cbn in Hj |- *.
  - injection Hj as ->. rewrite drop_0. rewrite take_app_le by lia. by rewrite take_ge by lia.
  - rewrite drop_app_ge by lia. replace (n + j * n - length y)%nat with (j * n)%nat by lia. by apply IH.
Qed.

Lemma chunk_length {A} n k j (l : list A) : (j < k)%nat -> length l = (k * n)%nat -> length (chunk n j l) = n.
Proof. intros Hj Hl. unfold chunk. rewrite length_take, length_drop. nia. Qed.

Lemma a_slice_block {F} (j k h : nat) s (l : list F) : (j < k)%nat -> (0 < h)%nat ->
  a_slice (Z.of_nat j * Z.of_nat h) ((Z.of_nat j + 1) * Z.of_nat h) (mkNda ((k * h)%nat :: s) l)
    = Ok (mkNda (h :: s) (chunk (h * size s) j l)).
Proof.
  intros Hj Hh. unfold a_slice, view_of. cbn [a_shape].
  replace (Z.of_nat j * Z.of_nat h) with (Z.of_nat (j * h)) by lia.
  replace ((Z.of_nat j + 1) * Z.of_nat h) with (Z.of_nat (S j * h)) by lia.
  rewrite view_slice_ok by nia. cbn [mbind result_bind]. f_equal. unfold view_array, view_get, chunk. cbn [v_shape v_off a_flat].
  replace (S j * h - j * h)%nat with h by nia. do 3 f_equal. cbn. nia.
Qed.

Lemma a_concat_blocks {F} (h : nat) s (L : list (list F)) : L <> [] ->
  a_concat (map (mkNda (h :: s)) L) = Ok (mkNda ((length L * h)%nat :: s) (concat L)).
Proof.
  intros HL. assert (forall L : list (list F), cat_dims s (map (mkNda (h :: s)) L) = Ok (length L * h)%nat) as Hd.
  { clear. induction L as [|x L IH]; [done|]. cbn -[Nat.mul]. rewrite bool_decide_eq_true_2 by done. cbn -[Nat.mul]. rewrite IH.
    cbn -[Nat.mul]. done. }
  destruct L as [|x L]; [done|]. unfold a_concat. cbn [map a_shape]. change (mkNda (h :: s) x :: map (mkNda (h :: s)) L) with (map (mkNda (h :: s)) (x :: L)).
  rewrite Hd. cbn [mbind result_bind]. do 2 f_equal. rewrite map_map. by rewrite map_id.
Qed.

Lemma blocks_of {A} n (L : list (list A)) : Forall (fun x => length x = n) L -> blocks n (length L) (concat L) = L.
Proof.
  intros HL. apply list_eq. intros i. unfold blocks. rewrite list_lookup_fmap.
  destruct (decide (i < length L)%nat) as [Hi|Hi].
  - rewrite lookup_seq_lt by done. cbn. destruct (lookup_lt_is_Some_2 L i Hi) as [x Hx]. rewrite Hx. f_equal. by apply chunk_concat.
  - rewrite lookup_seq_ge, lookup_ge_None_2 by lia. done.
Qed.
