(* ===== verification/Local.v ===== *)
(** * Footprints of computations on dictionaries

    A computation on a dictionary (a store of objects by identity, or a dict of arrays by
    name) that reads and writes only the entries of a set of keys, its footprint.
    Computations with disjoint footprints commute, which is what the interchange of loops in
    the recurrent cells and the round trip of their weights rest on. *)

From S2P Require Import Prelude.

Section Local.
Context {K V : Type} `{Countable K}.
Notation store := (gmap K V).
Implicit Types (D : gset K) (s t : store).

Definition agree D s t : Prop := forall k, k ∈ D -> s !! k = t !! k.

(** [m] depends on the entries in [D] only, and leaves the others alone. *)
Record local D {A} (m : M store A) : Prop := mkLocal {
  local_reads : forall s t, agree D s t -> (m s).1 = (m t).1 /\ agree D (m s).2 (m t).2;
  local_writes : forall s k, k ∉ D -> (m s).2 !! k = s !! k;
}.

Lemma local_mono {A} D D' (m : M store A) : D ⊆ D' -> local D m -> local D' m.
Proof.
  intros HD [Hr Hw]. split; [|by intros s k Hk; apply Hw; set_solver].
  intros s t Hst. destruct (Hr s t) as [E Ha]; [by intros k Hk; apply Hst, HD|].
  split; [done|]. intros k Hk. destruct (decide (k ∈ D)) as [?|Hn]; [by apply Ha|].
  rewrite !Hw by done. by apply Hst.
Qed.

Lemma local_ret {A} D (a : A) : local D (mret a).
Proof. by split. Qed.

Lemma local_lift {A} D (r : result A) : local D (lift r).
Proof. by split. Qed.

Lemma local_raise {A} D e : local D (raise e : M store A).
Proof. by split. Qed.

Lemma local_massert D c : local D (massert c).
Proof. by split. Qed.

Lemma local_bind {A B} D (m : M store A) (f : A -> M store B) :
  local D m -> (forall a, local D (f a)) -> local D (m ≫= f).
Proof.
  intros [Hr Hw] Hf. split.
  - intros s t Hst. destruct (Hr s t Hst) as [E Ha]. rewrite !bind_M.
    destruct (m s) as [r s'], (m t) as [r' t']; cbn in E, Ha; subst r'.
    destruct r as [a|e]; [by apply (Hf a)|done].
  - intros s k Hk. rewrite bind_M. pose proof (Hw s k Hk) as E. destruct (m s) as [[a|e] s']; cbn in E |- *; [|done].
    by rewrite (local_writes _ _ (Hf a)).
Qed.

Lemma local_forM {A} D (f : A -> M store unit) l : (forall a, a ∈ l -> local D (f a)) -> local D (forM f l).
Proof.
  induction l as [|a l IH]; intros Hf; cbn; [apply local_ret|].
  apply local_bind; [apply Hf; set_solver|]. intros _. apply IH. intros b Hb. apply Hf. set_solver.
Qed.

(** Reading the entry of a key, and changing it. *)
Lemma local_read {A} D k (f : option V -> A) : k ∈ D -> local D ((fun s => (Ok (f (s !! k)), s)) : M store A).
Proof. intros Hk. split; [|done]. intros s t Hst. cbn. by rewrite (Hst k Hk). Qed.

Lemma local_alter D k (f : option V -> option V) : k ∈ D -> local D ((fun s => (Ok tt, partial_alter f k s)) : M store unit).
Proof.
  intros Hk. split.
  - intros s t Hst. split; [done|]. intros j Hj. cbn. destruct (decide (k = j)) as [->|Hn].
    + by rewrite !lookup_partial_alter, (Hst j Hj).
    + rewrite !lookup_partial_alter_ne by done. by apply Hst.
  - intros s j Hj. cbn. rewrite lookup_partial_alter_ne; [done|]. set_solver.
Qed.

(** Computations with disjoint footprints commute when they succeed. *)
Lemma local_swap {A B} D1 D2 (m1 : M store A) (m2 : M store B) s a s1 b s2 :
  local D1 m1 -> local D2 m2 -> D1 ## D2 ->
  m1 s = (Ok a, s1) -> m2 s1 = (Ok b, s2) ->
  exists s', m2 s = (Ok b, s') /\ m1 s' = (Ok a, s2).
Proof.
  intros L1 L2 HD E1 E2.
  assert (agree D2 s1 s) as A2.
  { intros k Hk. pose proof (local_writes _ _ L1 s k) as W. rewrite E1 in W. apply W. set_solver. }
  destruct (local_reads _ _ L2 s1 s A2) as [R2 G2]. rewrite E2 in R2, G2.
  destruct (m2 s) as [r2 s'] eqn:E2'. cbn in R2, G2. subst r2. exists s'. split; [done|].
  assert (agree D1 s s') as A1.
  { intros k Hk. pose proof (local_writes _ _ L2 s k) as W. rewrite E2' in W. symmetry. apply W. set_solver. }
  destruct (local_reads _ _ L1 s s' A1) as [R1 G1]. rewrite E1 in R1, G1.
  destruct (m1 s') as [r1 s''] eqn:E1'. cbn in R1, G1. subst r1. f_equal. apply map_eq. intros k.
  pose proof (local_writes _ _ L1 s' k) as W1. rewrite E1' in W1. cbn in W1.
  pose proof (local_writes _ _ L2 s1 k) as W2. rewrite E2 in W2. cbn in W2.
  pose proof (local_writes _ _ L1 s k) as W3. rewrite E1 in W3. cbn in W3.
  pose proof (local_writes _ _ L2 s k) as W4. rewrite E2' in W4. cbn in W4.
  destruct (decide (k ∈ D1)) as [H1|H1].
  - assert (k ∉ D2) by set_solver. rewrite W2 by done. symmetry. by apply G1.
  - rewrite W1 by done. destruct (decide (k ∈ D2)) as [H2|H2]; [symmetry; by apply G2|].
    rewrite W2, W3, W4 by done. done.
Qed.

(** The same for a computation that comes after a whole loop. *)
Lemma local_swap_forM {A X} D1 (D2 : X -> gset K) (m : M store A) (f : X -> M store unit) l s u s1 a s2 :
  local D1 m -> (forall x, x ∈ l -> local (D2 x) (f x) /\ D1 ## D2 x) ->
  forM f l s = (Ok u, s1) -> m s1 = (Ok a, s2) ->
  exists s', m s = (Ok a, s') /\ forM f l s' = (Ok u, s2).
Proof.
  intros L1 Hl. apply (local_swap (⋃ (D2 <$> l)) D1); [|done|].
  - apply local_forM. intros x Hx. destruct (Hl x Hx) as [L _]. eapply local_mono; [|exact L].
    intros k Hk. apply elem_of_union_list. exists (D2 x). split; [by apply list_elem_of_fmap_2|done].
  - intros k Hk Hk'. apply elem_of_union_list in Hk as (D & (x & -> & Hx)%list_elem_of_fmap & Hk).
    destruct (Hl x Hx) as [_ Hd]. set_solver.
Qed.

(** A loop of computations with disjoint footprints is undone by the loop, in the same
    order, of computations that undo them one by one. *)
Lemma loop_roundtrip {X} (u p : X -> M store unit) (keys : X -> list K) (ok : X -> store -> Prop) l :
  (forall x, x ∈ l -> local (list_to_set (keys x)) (u x) /\ local (list_to_set (keys x)) (p x)) ->
  (forall x s t, x ∈ l -> agree (list_to_set (keys x)) s t -> ok x s -> ok x t) ->
  (forall x s, x ∈ l -> ok x s -> exists s', u x s = (Ok tt, s') /\ p x s' = (Ok tt, s)) ->
  NoDup (concat (map keys l)) -> forall s, (forall x, x ∈ l -> ok x s) ->
  exists s', forM u l s = (Ok tt, s') /\ forM p l s' = (Ok tt, s).
Proof.
  induction l as [|x l IH]; intros HL Hag Hrt Hnd s Hok; [by eexists|].
  cbn in Hnd. apply NoDup_app in Hnd as (_ & Hdis & Hnd).
  assert (forall y k, y ∈ l -> k ∈ keys y -> k ∉ keys x) as Hdis'.
  { intros y k Hy Hk Hkx. apply (Hdis k Hkx). apply list_elem_of_In, in_concat. exists (keys y). split; [apply in_map|]; by apply list_elem_of_In. }
  destruct (Hrt x s ltac:(left) ltac:(apply Hok; left)) as (s1 & Eu & Ep).
  destruct (IH ltac:(intros; apply HL; by right) ltac:(intros until 0; intros Hy; apply Hag; by right) ltac:(intros until 0; intros Hy; apply Hrt; by right) Hnd s1) as (s2 & Eus & Eps).
  { intros y Hy. apply (Hag y s s1); [by right| |apply Hok; by right]. intros k Hk. apply elem_of_list_to_set in Hk.
    pose proof (local_writes _ _ (proj1 (HL x ltac:(left))) s k) as Wr. rewrite Eu in Wr. symmetry. apply Wr.
    rewrite elem_of_list_to_set. by eapply Hdis'. }
  destruct (local_swap_forM (list_to_set (keys x)) (fun y => list_to_set (keys y)) (p x) p l s2 tt s1 tt s) as (s3 & Ex & El); [| |done|done|].
  - apply HL. left.
  - intros y Hy. split; [apply HL; by right|]. intros k Hkx Hky. apply elem_of_list_to_set in Hkx, Hky. by eapply Hdis'.
  - exists s2. cbn [forM]. rewrite !bind_M, Eu, Ex. done.
Qed.
End Local.

Create HintDb local.
#[export] Hint Resolve local_ret local_lift local_raise local_massert local_bind local_forM : local.
