(* ===== verification/Dataset.v ===== *)
(** * Datasets and batchify functions

    [gluon/data/dataset.py]: the dataset interface, lists, combined arrays, the
    lazily and eagerly transformed datasets; and the collating functions of
    [gluon/data/dataloader.py].  A sample is a Python object: an NDArray, a number,
    a tuple or a list. *)

From S2P Require Import Prelude NDArray.

Inductive pyobj :=
  | ONd (a : NDArray)
  | ONum (z : Z)
  | OTuple (l : list pyobj)
  | OList (l : list pyobj).

(** [len(x)] and [x[0]]. *)
Definition obj_len (x : pyobj) : result Z :=
  match x with
  | ONd a => Ok (nd_len a)
  | OTuple l | OList l => Ok (py_len l)
  | ONum _ => Raise TypeError
  end.

Definition obj_first (x : pyobj) : result pyobj :=
  match x with
  | ONd a => ONd <$> nd_item a 0
  | OTuple l | OList l => py_index l 0
  | ONum _ => Raise TypeError
  end.

(** The elements of an iterable. *)
Definition obj_iter (x : pyobj) : result (list pyobj) :=
  match x with
  | OTuple l | OList l => Ok l
  | ONd a => mapR (fun i => ONd <$> nd_item a i) (py_range (nd_len a))
  | ONum _ => Raise TypeError
  end.

(** ** The interface *)

Class Dataset (D : Type) := {
  ds_getitem : D -> Z -> result pyobj;
  ds_len : D -> Z;
}.

(** Indexing from 0 succeeds up to [__len__] and raises [IndexError] there. *)
Class LawfulDataset (D : Type) `{Dataset D} (valid : D -> Prop) := {
  ds_len_nonneg : forall d, valid d -> 0 <= ds_len d;
  ds_inside : forall d i, valid d -> 0 <= i < ds_len d -> exists x, ds_getitem d i = Ok x;
  ds_end : forall d, valid d -> ds_getitem d (ds_len d) = Raise IndexError;
}.

(** [[x for x in d]] for an object that only has [__getitem__]: indices 0, 1, ...
    until [IndexError]. *)
Fixpoint seq_iter (fuel : nat) (getitem : Z -> result pyobj) (i : Z) : option (result (list pyobj)) :=
  match fuel with
  | O => None
  | S fuel =>
      match getitem i with
      | Raise IndexError => Some (Ok [])
      | Raise e => Some (Raise e)
      | Ok x =>
          match seq_iter fuel getitem (i + 1) with
          | Some (Ok xs) => Some (Ok (x :: xs))
          | r => r
          end
      end
  end.

(** ** SimpleDataset *)

Record SimpleDataset := mkSimple { simple_data : list pyobj }.
Definition SimpleDataset_getitem (d : SimpleDataset) (idx : Z) : result pyobj :=
  py_index (simple_data d) idx.
Definition SimpleDataset_len (d : SimpleDataset) : Z := py_len (simple_data d).

#[export] Instance Simple_Dataset : Dataset SimpleDataset := {
  ds_getitem := SimpleDataset_getitem;
  ds_len := SimpleDataset_len;
}.

(** ** Transformed datasets *)

(** A callable receives its positional arguments. *)
Definition callable := list pyobj -> result pyobj.

Record LazyTransformDataset (D : Type) := mkLazy { lazy_data : D; lazy_fn : callable }.
Arguments mkLazy {D} _ _.
Arguments lazy_data {D} _.
Arguments lazy_fn {D} _.

Section Transform.
Context {D : Type} `{Dataset D}.

Definition LazyTransformDataset_getitem (d : LazyTransformDataset D) (idx : Z) : result pyobj :=
  item ← ds_getitem (lazy_data d) idx;
  match item with
  | OTuple l => lazy_fn d l
  | _ => lazy_fn d [item]
  end.

Definition LazyTransformDataset_len (d : LazyTransformDataset D) : Z := ds_len (lazy_data d).

#[export] Instance Lazy_Dataset : Dataset (LazyTransformDataset D) := {
  ds_getitem := LazyTransformDataset_getitem;
  ds_len := LazyTransformDataset_len;
}.

(** [_TransformFirstClosure.__call__]. *)
Definition TransformFirstClosure (fn : pyobj -> result pyobj) : callable := fun args =>
  match args with
  | [] => Raise TypeError
  | x :: [] => fn x
  | x :: args => y ← fn x; Ok (OTuple (y :: args))
  end.

(** [transform(fn, lazy=False)]; with [lazy=True] the result is [mkLazy self fn]. *)
Definition transform_eager (fuel : nat) (self : D) (fn : callable) : option (result SimpleDataset) :=
  match seq_iter fuel (ds_getitem (mkLazy self fn)) 0 with
  | Some (Ok l) => Some (Ok (mkSimple l))
  | Some (Raise e) => Some (Raise e)
  | None => None
  end.

(** [transform(fn, lazy)] *)
Definition transform (fuel : nat) (self : D) (fn : callable) (lazy : bool)
  : option (result (LazyTransformDataset D + SimpleDataset)) :=
  if lazy then Some (Ok (inl (mkLazy self fn)))
  else match transform_eager fuel self fn with
       | Some (Ok s) => Some (Ok (inr s))
       | Some (Raise e) => Some (Raise e)
       | None => None
       end.

Definition transform_first (fuel : nat) (self : D) (fn : pyobj -> result pyobj) (lazy : bool) :=
  transform fuel self (TransformFirstClosure fn) lazy.
End Transform.

(** ** ArrayDataset *)

(** What an [ArrayDataset] combines: lists, NDArrays, numpy vectors. *)
Inductive array_src :=
  | SrcList (l : list pyobj)
  | SrcNd (a : NDArray)
  | SrcNumpy (l : list Z).

Definition src_len (s : array_src) : Z :=
  match s with SrcList l => py_len l | SrcNd a => nd_len a | SrcNumpy l => py_len l end.

Definition src_getitem (s : array_src) (i : Z) : result pyobj :=
  match s with
  | SrcList l => py_index l i
  | SrcNd a => ONd <$> nd_item a i
  | SrcNumpy l => ONum <$> py_index l i
  end.

Record ArrayDataset := mkArrayDataset { arr_length : Z; arr_data : list array_src }.

(** A one-dimensional NDArray is turned into a numpy vector. *)
Definition array_src_norm (s : array_src) : array_src :=
  match s with
  | SrcNd a => if py_len (nd_shape a) =? 1 then SrcNumpy (nd_flat a) else s
  | _ => s
  end.

Definition ArrayDataset_init (args : list array_src) : result ArrayDataset :=
  _ ← py_assert (0 <? py_len args);
  match args with
  | [] => Raise IndexError
  | a0 :: _ =>
      let length := src_len a0 in
      data ← mapR (fun s => _ ← py_assert (src_len s =? length); Ok (array_src_norm s)) args;
      Ok (mkArrayDataset length data)
  end.

Definition ArrayDataset_getitem (d : ArrayDataset) (idx : Z) : result pyobj :=
  match arr_data d with
  | [s] => src_getitem s idx
  | data => xs ← mapR (fun s => src_getitem s idx) data; Ok (OTuple xs)
  end.

Definition ArrayDataset_len (d : ArrayDataset) : Z := arr_length d.

#[export] Instance Array_Dataset : Dataset ArrayDataset := {
  ds_getitem := ArrayDataset_getitem;
  ds_len := ArrayDataset_len;
}.

(** [_DownloadedDataset.__getitem__] over the arrays [_get_data] has loaded. *)
Record DownloadedDataset := mkDownloaded {
  dl_transform : option (pyobj -> pyobj -> result pyobj);
  dl_data : array_src;
  dl_label : array_src;
}.

Definition DownloadedDataset_getitem (d : DownloadedDataset) (idx : Z) : result pyobj :=
  x ← src_getitem (dl_data d) idx;
  y ← src_getitem (dl_label d) idx;
  match dl_transform d with
  | Some t => t x y
  | None => Ok (OTuple [x; y])
  end.

Definition DownloadedDataset_len (d : DownloadedDataset) : Z := src_len (dl_label d).

(** ** Collating samples *)

(** [nd.stack]: arrays of one shape and type become the rows of a new array. *)
Definition nd_stack (ctx : Context) (l : list pyobj) : result NDArray :=
  arrs ← mapR (fun x => match x with ONd a => Ok a | _ => Raise AssertionError end) l;
  match arrs with
  | [] => Raise MXNetError
  | a0 :: _ =>
      if forallb (fun a => bool_decide (nd_shape a = nd_shape a0) && bool_decide (nd_dtype a = nd_dtype a0)) arrs
      then Ok (mkND ctx (nd_dtype a0) (nd_shape a0) (map nd_flat arrs))
      else Raise MXNetError
  end.

(** [np.asarray] of nested lists of numbers: the shape and the flat contents;
    ragged input has no numeric array. *)
Fixpoint np_asarray (x : pyobj) : result (list Z * list Z) :=
  match x with
  | ONum z => Ok ([], [z])
  | ONd a => Ok (nd_shape a, nd_flat a)
  | OTuple l | OList l =>
      parts ← (fix go (l : list pyobj) : result (list (list Z * list Z)) :=
                 match l with
                 | [] => Ok []
                 | x :: l => p ← np_asarray x; ps ← go l; Ok (p :: ps)
                 end) l;
      match parts with
      | [] => Ok ([0], [])
      | (s0, _) :: _ =>
          if forallb (fun p => bool_decide (p.1 = s0)) parts
          then Ok (py_len parts :: s0, concat (map snd parts))
          else Raise TypeError
      end
  end.

(** The type of the array that [np.asarray] makes: Python integers are [int64], and
    elements of different types are promoted as numpy does it. *)
Definition float_bits (t : string) : option Z :=
  if str_eqb t "float16" then Some 16 else if str_eqb t "float32" then Some 32 else if str_eqb t "float64" then Some 64 else None.
Definition int_bits (t : string) : Z :=
  if str_eqb t "uint8" || str_eqb t "int8" then 8 else if str_eqb t "int16" then 16 else if str_eqb t "int32" then 32 else 64.
Definition promote_int (f : string) (n : Z) (i : string) : string :=
  let k := 2 * int_bits i in if k <=? n then f else if k =? 32 then "float32" else "float64".
Definition np_promote (a b : string) : string :=
  if str_eqb a b then a
  else match float_bits a, float_bits b with
       | Some n, Some m => if n <? m then b else a
       | Some n, None => promote_int a n b
       | None, Some m => promote_int b m a
       | None, None => if int_bits a =? int_bits b then "int16" else if int_bits a <? int_bits b then b else a
       end.
Fixpoint np_dtype (x : pyobj) : string :=
  match x with
  | ONum _ => "int64"
  | ONd a => nd_dtype a
  | OTuple l | OList l => match map np_dtype l with [] => "float64" | t :: ts => foldl np_promote t ts end
  end.

(** [nd.array(data, dtype=data.dtype)]; [int16] is not a type of the library. *)
Definition nd_array (ctx : Context) (dtype : string) (shape flat : list Z) : result NDArray :=
  if str_eqb dtype "int16" then Raise KeyError else nd_of_flat ctx dtype shape flat.

(** [zip( *data)]: the columns, as many as the shortest row has. *)
Fixpoint py_zip (fuel : nat) (rows : list (list pyobj)) : list (list pyobj) :=
  match fuel with
  | O => []
  | S fuel =>
      match rows with
      | [] => []
      | _ =>
          if forallb (fun r => 0 <? py_len r) rows
          then omap head rows :: py_zip fuel (map tail rows)
          else []
      end
  end.

Section Batchify.
(** The context the batch is allocated in. *)
Context (ctx : Context).

(** [default_batchify_fn] (with [ctx = cpu]) and [default_mp_batchify_fn] (with
    [ctx = cpu_shared]); the recursion follows the nesting of tuples in the first
    sample, which bounds the fuel. *)
Fixpoint batchify (fuel : nat) (data : list pyobj) : option (result pyobj) :=
  match fuel with
  | O => None
  | S fuel =>
      match data with
      | [] => Some (Raise IndexError)
      | ONd _ :: _ => Some (ONd <$> nd_stack ctx data)
      | OTuple t :: _ =>
          match mapR obj_iter data with
          | Raise e => Some (Raise e)
          | Ok rows =>
              (fix cols (zs : list (list pyobj)) (acc : list pyobj) : option (result pyobj) :=
                 match zs with
                 | [] => Some (Ok (OList (reverse acc)))
                 | z :: zs =>
                     match batchify fuel z with
                     | Some (Ok b) => cols zs (b :: acc)
                     | r => r
                     end
                 end) (py_zip (length t) rows) []
          end
      | _ :: _ =>
          Some ('(shape, flat) ← np_asarray (OList data); ONd <$> nd_array ctx (np_dtype (OList data)) shape flat)
      end
  end.
End Batchify.

Definition default_batchify_fn := batchify cpu.
Definition default_mp_batchify_fn := batchify cpu_shared.

(** [_as_in_context]: arrays are moved, tuples become lists. *)
Fixpoint _as_in_context (data : pyobj) (ctx : Context) : pyobj :=
  match data with
  | ONd a => ONd (nd_as_in_context a ctx)
  | OList l | OTuple l => OList (map (fun d => _as_in_context d ctx) l)
  | ONum z => ONum z
  end.

(** ** Eager and lazy transforms *)

Lemma seq_iter_upto getitem f k i fuel :
  0 <= k -> (forall j, i <= j < i + k -> getitem j = Ok (f j)) ->
  getitem (i + k) = Raise IndexError -> (Z.to_nat k < fuel)%nat ->
  seq_iter fuel getitem i = Some (Ok (map (fun j => f (i + j)) (py_range k))).
Proof.
  intros Hk. revert i fuel. pattern k. apply natlike_ind; [| |done]; clear k Hk.
  - intros i fuel _ He Hf. destruct fuel as [|fuel]; [lia|]. simpl.
    rewrite Z.add_0_r in He. by rewrite He.
  - intros k Hk IH i fuel Hin He Hf. destruct fuel as [|fuel]; [lia|]. simpl.
    rewrite Hin by lia. rewrite IH; [|intros; apply Hin; lia| |lia].
    + rewrite (py_range_cons (Z.succ k)) by lia. simpl. rewrite Z.add_0_r, map_map.
      replace (Z.succ k - 1) with k by lia. do 3 f_equal.
      apply map_ext. intros. f_equal. lia.
    + by replace (i + 1 + k) with (i + Z.succ k) by lia.
Qed.

Section TransformTheory.
Context {D : Type} (valid : D -> Prop) `{LawfulDataset D valid}.

(** [transform(fn, lazy=False)] on a lawful dataset, with a function that does
    not raise, terminates and gives a dataset with the length of the original that
    agrees with the lazy transform at every index. *)
Theorem transform_eager_lazy (d : D) fn f :
  valid d ->
  (forall i x, 0 <= i < ds_len d -> ds_getitem d i = Ok x ->
     (match x with OTuple l => fn l | _ => fn [x] end) = Ok (f x)) ->
  exists s, transform_eager (S (Z.to_nat (ds_len d))) d fn = Some (Ok s) /\
    ds_len s = ds_len d /\
    forall i, 0 <= i < ds_len d -> ds_getitem s i = ds_getitem (mkLazy d fn) i.
Proof.
  intros Hv Hf. pose proof (ds_len_nonneg d Hv) as Hn.
  set (g := fun i => match ds_getitem (mkLazy d fn) i with Ok y => y | Raise _ => ONum 0 end).
  assert (Hg : forall i, 0 <= i < ds_len d -> ds_getitem (mkLazy d fn) i = Ok (g i)).
  { intros i Hi. subst g. simpl. unfold LazyTransformDataset_getitem. cbn [lazy_data lazy_fn].
    destruct (ds_inside d i Hv Hi) as [x Hx]. rewrite Hx. simpl.
    specialize (Hf i x Hi Hx). destruct x; by rewrite Hf. }
  exists (mkSimple (map g (py_range (ds_len d)))). split_and!.
  - unfold transform_eager. rewrite (seq_iter_upto _ g (ds_len d)); [done|done| | |lia].
    + intros j Hj. apply Hg. lia.
    + rewrite Z.add_0_l. cbn [ds_getitem Lazy_Dataset]. unfold LazyTransformDataset_getitem.
      cbn [lazy_data]. by rewrite (ds_end d Hv).
  - simpl. unfold SimpleDataset_len, py_len. simpl. rewrite length_map. by apply py_range_len.
  - intros i Hi. rewrite Hg by done. simpl. unfold SimpleDataset_getitem, py_index. simpl.
    rewrite !(proj2 (Z.ltb_ge i 0)) by lia. unfold py_range, range_from.
    rewrite map_map. change (map ?f ?l) with (f <$> l). rewrite list_lookup_fmap.
    rewrite lookup_seq_lt by lia. simpl. do 2 f_equal. lia.
Qed.
End TransformTheory.

#[export] Instance Simple_lawful : LawfulDataset SimpleDataset (fun _ => True).
Proof.
  split.
  - intros. apply py_len_nonneg.
  - intros d i _ Hi. change (ds_len d) with (py_len (simple_data d)) in Hi.
    simpl. unfold SimpleDataset_getitem, py_index, py_len in *.
    rewrite !(proj2 (Z.ltb_ge i 0)) by lia.
    destruct (lookup_lt_is_Some_2 (simple_data d) (Z.to_nat i)) as [x ->]; [lia|eauto].
  - intros d _. simpl. unfold SimpleDataset_getitem, SimpleDataset_len, py_index.
    pose proof (py_len_nonneg (simple_data d)).
    rewrite !(proj2 (Z.ltb_ge (py_len (simple_data d)) 0)) by lia.
    rewrite lookup_ge_None_2; [done|]. unfold py_len. lia.
Qed.

Definition doubler : callable := fun args =>
  match args with ONum z :: _ => Ok (ONum (2 * z)) | _ => Raise TypeError end.

Definition three : SimpleDataset := mkSimple [ONum 1; ONum 2; ONum 3].

Example transform_eager_lazy_witness :
  transform_eager 4 three doubler = Some (Ok (mkSimple [ONum 2; ONum 4; ONum 6])) /\
  exists s, transform_eager (S (Z.to_nat (ds_len three))) three doubler = Some (Ok s) /\
    ds_len s = ds_len three /\
    forall i, 0 <= i < ds_len three -> ds_getitem s i = ds_getitem (mkLazy three doubler) i.
Proof.
  split; [reflexivity|].
  apply (transform_eager_lazy (fun _ => True) three doubler
    (fun x => match x with ONum z => ONum (2 * z) | _ => x end)); [done|].
  intros i x Hi. assert (i = 0 \/ i = 1 \/ i = 2) as [->|[->| ->]] by (change (ds_len _) with 3 in Hi; lia);
    by intros [= <-].
Defined.

(** ** Collating tuples of arrays *)

(** Samples that are tuples of [m] NDArrays. *)
Definition tuple_samples (rows : list (list NDArray)) : list pyobj :=
  map (fun r => OTuple (map ONd r)) rows.

(** Column [j] of the samples. *)
Definition field_column (rows : list (list NDArray)) (j : nat) : list NDArray := omap (fun r => r !! j) rows.

Lemma py_zip_columns m rows :
  Forall (fun r => length r = m) rows -> rows ≠ [] ->
  py_zip m (map (map ONd) rows) = map (fun j => map ONd (field_column rows j)) (seq 0 m).
Proof.
  revert rows. induction m as [|m IH]; intros rows HF Hne; [done|]. simpl.
  destruct rows as [|r0 rows0] eqn:E; [done|]. rewrite <- E in *. clear Hne.
  replace (match map (map ONd) rows with [] => [] | _ => _ end) with
    (omap head (map (map ONd) rows) :: py_zip m (map tail (map (map ONd) rows))).
  - f_equal.
    + clear E IH. unfold field_column. induction HF as [|r rows Hr HF IHF]; [done|].
      destruct r as [|a r]; [done|]. simpl. f_equal. apply IHF.
    + rewrite map_map. rewrite (map_ext _ (fun r => map ONd (tail r))) by (by intros []).
      rewrite <- (map_map tail (map ONd)). rewrite IH.
      * rewrite <- seq_shift, map_map. apply map_ext. intros j. f_equal. unfold field_column.
        clear E IH. induction HF as [|r rows Hr HF IHF]; [done|].
        destruct r as [|a r]; [done|]. simpl. destruct (r !! j); [f_equal|]; apply IHF.
      * apply Forall_map. eapply Forall_impl; [done|]. intros [|a r]; simpl; lia.
      * by rewrite E.
  - assert (forallb (fun r => 0 <? py_len r) (map (map ONd) rows) = true) as ->.
    { apply forallb_forall. intros x (r & <- & Hr%list_elem_of_In)%in_map_iff.
      rewrite Forall_forall in HF. unfold py_len. rewrite length_map, (HF r Hr). apply Z.ltb_lt. lia. }
    by rewrite E.
Qed.

Lemma nd_stack_ok ctx arrs shape dtype :
  arrs ≠ [] -> Forall (fun a => nd_shape a = shape /\ nd_dtype a = dtype) arrs ->
  nd_stack ctx (map ONd arrs) = Ok (mkND ctx dtype shape (map nd_flat arrs)).
Proof.
  intros Hne HF. unfold nd_stack.
  assert (mapR (fun x => match x with ONd a => Ok a | _ => Raise AssertionError end) (map ONd arrs) = Ok arrs) as ->.
  { clear Hne HF. induction arrs as [|a arrs IH]; simpl; [done|]. by rewrite IH. }
  simpl. destruct arrs as [|a arrs]; [done|]. inversion HF as [|? ? [Ha Hd] HF']; subst.
  rewrite (proj2 (forallb_forall _ _)); [done|].
  intros x Hx%list_elem_of_In. rewrite Forall_forall in HF. by rewrite !bool_decide_eq_true_2 by (by apply HF).
Qed.

(** The inner loop over the columns, when each column can be stacked. *)
Definition stacked (ctx : Context) (rows : list (list NDArray)) (fields : list (list Z * string)) (j : nat) : pyobj :=
  let f := nth j fields ([], ""%string) in ONd (mkND ctx f.2 f.1 (map nd_flat (field_column rows j))).

(** batching tuple samples gives one array per component: the [j]-th array of
    the batch has the [j]-th component of sample [i] as its row [i]. *)
Theorem batchify_tuples ctx fuel rows fields :
  rows ≠ [] ->
  Forall (fun r => length r = length fields) rows ->
  (forall j f, fields !! j = Some f -> Forall (fun a => nd_shape a = f.1 /\ nd_dtype a = f.2) (field_column rows j)) ->
  batchify ctx (S (S fuel)) (tuple_samples rows)
    = Some (Ok (OList (map (stacked ctx rows fields) (seq 0 (length fields))))).
Proof.
  intros Hne HF Hsh. destruct rows as [|r0 rows0] eqn:E; [done|]. rewrite <- E in *.
  unfold tuple_samples.
  assert (mapR obj_iter (map (fun r => OTuple (map ONd r)) rows) = Ok (map (map ONd) rows)) as Hit.
  { clear. induction rows as [|r rows IH]; simpl; [done|]. by rewrite IH. }
  rewrite E. cbn [map batchify]. rewrite <- (map_cons (fun r => OTuple (map ONd r)) r0 rows0), <- E.
  rewrite Hit, length_map.
  assert (length r0 = length fields) as -> by (rewrite E in HF; by inversion HF).
  rewrite py_zip_columns by done.
  assert (Hcol : forall j, (j < length fields)%nat ->
     batchify ctx (S fuel) (map ONd (field_column rows j)) = Some (Ok (stacked ctx rows fields j))).
  { intros j Hj. assert (exists a l, field_column rows j = a :: l) as (a & l & Hc).
    { rewrite E in HF |- *. inversion HF as [|? ? Hr]; subst.
      destruct (lookup_lt_is_Some_2 r0 j) as [a Ha]; [lia|]. unfold field_column. simpl. rewrite Ha. eauto. }
    destruct (lookup_lt_is_Some_2 fields j Hj) as [[s d] Hs]. specialize (Hsh j _ Hs).
    unfold stacked. rewrite (nth_lookup_Some _ _ _ _ Hs).
    rewrite Hc in *. cbn [map batchify]. rewrite <- map_cons.
    by rewrite (nd_stack_ok ctx (a :: l) s d). }
  assert (forall js acc, Forall (fun j => (j < length fields)%nat) js ->
    (fix cols (zs : list (list pyobj)) (acc : list pyobj) : option (result pyobj) :=
       match zs with
       | [] => Some (Ok (OList (reverse acc)))
       | z :: zs =>
           match batchify ctx (S fuel) z with
           | Some (Ok b) => cols zs (b :: acc)
           | r => r
           end
       end) (map (fun j => map ONd (field_column rows j)) js) acc
    = Some (Ok (OList (reverse acc ++ map (stacked ctx rows fields) js)))) as G.
  { intros js. induction js as [|j js IHj]; intros acc Hjs; [by rewrite app_nil_r|].
    inversion Hjs; subst. cbn [map]. rewrite Hcol by done. rewrite IHj by done.
    by rewrite reverse_cons, <- app_assoc. }
  rewrite G; [done|]. apply Forall_forall. intros j Hj%elem_of_seq. lia.
Qed.

Example batchify_tuples_witness :
  default_batchify_fn 2 (tuple_samples
    [[mkND cpu "float32" [] [[1]; [2]]; mkND cpu "float32" [] [[7]]]; [mkND cpu "float32" [] [[3]; [4]]; mkND cpu "float32" [] [[8]]]])
  = Some (Ok (OList [ONd (mkND cpu "float32" [2] [[1; 2]; [3; 4]]); ONd (mkND cpu "float32" [1] [[7]; [8]])])).
Proof.
  apply (batchify_tuples cpu 0
    [[mkND cpu "float32" [] [[1]; [2]]; mkND cpu "float32" [] [[7]]]; [mkND cpu "float32" [] [[3]; [4]]; mkND cpu "float32" [] [[8]]]]
    [([2], "float32"%string); ([1], "float32"%string)]); [done|repeat constructor|].
  intros [|[|j]] s [= <-]; repeat constructor.
Defined.
