(* ===== verification/DataLoader.v ===== *)
(** * The data loader

    [DataLoader] of [gluon/data/dataloader.py]: the choice of samplers made by the
    constructor, the single-process iterator, and [_MultiWorkerIter] over a worker
    pool.  The pool is modelled as the set of submitted tasks, which complete in any
    order while the consumer runs: [mw_step] interleaves the two. *)

From S2P Require Import Prelude Sampler NDArray Dataset.

(** ** The constructor *)

(** The sampler a loader builds by itself, or the user's. *)
Inductive loader_sampler (Rng U : Type) :=
  | LSeq (s : SequentialSampler)
  | LRand (s : RandomSampler Rng)
  | LUser (u : U).
Arguments LSeq {Rng U} s.
Arguments LRand {Rng U} s.
Arguments LUser {Rng U} u.

Inductive batchify_choice :=
  | UserBatchify (f : list pyobj -> result pyobj)
  | DefaultBatchify
  | DefaultMpBatchify.

Section Loader.
Context {Rng U UB : Type} (np_shuffle : Rng -> list Z -> list Z * Rng) `{Sampler U}.

#[export] Instance loader_Sampler : Sampler (loader_sampler Rng U) := {
  sampler_iter s :=
    match s with
    | LSeq s => (Ok (SequentialSampler_iter s), LSeq s)
    | LRand s => let '(l, s') := RandomSampler_iter np_shuffle s in (Ok l, LRand s')
    | LUser u => let '(l, u') := sampler_iter u in (l, LUser u')
    end;
  sampler_len s :=
    match s with
    | LSeq s => SequentialSampler_len s
    | LRand s => RandomSampler_len s
    | LUser u => sampler_len u
    end;
}.

(** The first half of both constructors: which batch sampler is used.  [rng] is
    the state of numpy's generator, [n] is [len(dataset)]. *)
Definition choose_batch_sampler (n : Z) (rng : Rng) (batch_size : option Z) (shuffle : bool)
  (sampler : option U) (last_batch : option string) (batch_sampler : option UB)
  : result (BatchSampler (loader_sampler Rng U) + UB) :=
  match batch_sampler with
  | None =>
      match batch_size with
      | None => Raise ValueError
      | Some b =>
          s ← match sampler with
              | None => Ok (if shuffle then LRand (mkRandom n rng) else LSeq (mkSequential n))
              | Some u => if shuffle then Raise ValueError else Ok (LUser u)
              end;
          let mode := match last_batch with
                      | Some m => if str_eqb m "" then "keep" else m
                      | None => "keep"
                      end%string in
          Ok (inl (BatchSampler_init s b mode))
      end
  | Some ub =>
      if bool_decide (batch_size ≠ None) || shuffle
         || (match sampler with Some _ => true | None => false end)
         || bool_decide (last_batch ≠ None)
      then Raise ValueError else Ok (inr ub)
  end.

Record DataLoader := mkDataLoader {
  ld_batch_sampler : BatchSampler (loader_sampler Rng U) + UB;
  ld_pin_memory : bool;
  ld_pin_device_id : Z;
  ld_thread_pool : bool;
  ld_num_workers : Z;
  ld_prefetch : Z;
  ld_has_pool : bool;
  ld_batchify_fn : batchify_choice;
}.

Definition choose_batchify (num_workers : Z) (f : option (list pyobj -> result pyobj)) : batchify_choice :=
  match f with
  | Some f => UserBatchify f
  | None => if 0 <? num_workers then DefaultMpBatchify else DefaultBatchify
  end.

Definition DataLoader_init (n : Z) (rng : Rng) (batch_size : option Z) (shuffle : bool)
  (sampler : option U) (last_batch : option string) (batch_sampler : option UB)
  (batchify_fn : option (list pyobj -> result pyobj)) (num_workers : Z)
  (pin_memory : bool) (pin_device_id : Z) (prefetch : option Z) (thread_pool : bool)
  : result DataLoader :=
  bs ← choose_batch_sampler n rng batch_size shuffle sampler last_batch batch_sampler;
  let workers := if 0 <=? num_workers then num_workers else 0 in
  Ok {| ld_batch_sampler := bs;
        ld_pin_memory := pin_memory;
        ld_pin_device_id := pin_device_id;
        ld_thread_pool := thread_pool;
        ld_num_workers := workers;
        ld_prefetch := Z.max 0 (default (2 * workers) prefetch);
        ld_has_pool := 0 <? workers;
        ld_batchify_fn := choose_batchify num_workers batchify_fn |}.
End Loader.

(** ** Iterating in one process *)

Section Iter.
Context {D : Type} `{Dataset D}.
Context (dataset : D) (batchify_fn : list pyobj -> result pyobj).
(** [pin_memory], with the pinned device when it is set. *)
Context (pin : option Z).

(** [batchify_fn([dataset[i] for i in samples])]: also [_thread_worker_fn], and the
    body of [_worker_fn]. *)
Definition load_batch (samples : list Z) : result pyobj :=
  xs ← mapR (ds_getitem dataset) samples; batchify_fn xs.

Definition pin_batch (b : pyobj) : pyobj :=
  match pin with Some id => _as_in_context b (cpu_pinned id) | None => b end.

(** [same_process_iter]: the batches it yields and how it ends. *)
Fixpoint same_process_iter (batches : list (list Z)) : list pyobj * result unit :=
  match batches with
  | [] => ([], Ok tt)
  | b :: batches =>
      match load_batch b with
      | Raise e => ([], Raise e)
      | Ok r => let '(ys, out) := same_process_iter batches in (pin_batch r :: ys, out)
      end
  end.

(** ** Iterating with a worker pool *)

(** Results of a process pool travel pickled. *)
Context {Bytes : Type} (pickle_dumps : pyobj -> Bytes) (pickle_loads : Bytes -> result pyobj).
Context (thread_pool : bool).

(** [_MultiWorkerIter]: the batches still to be submitted, the reorder buffer from
    batch number to the handle of its result, the two counters, and the tasks the
    pool has been given (a handle is a position in that list). *)
Record mw := mkMw {
  mw_iter : list (list Z);
  mw_buffer : gmap Z nat;
  mw_rcvd : Z;
  mw_sent : Z;
  mw_tasks : list (list Z);
}.

Definition mw_push_next (st : mw) : mw :=
  match mw_iter st with
  | [] => st
  | r :: rest =>
      {| mw_iter := rest;
         mw_buffer := <[mw_sent st := length (mw_tasks st)]> (mw_buffer st);
         mw_rcvd := mw_rcvd st;
         mw_sent := mw_sent st + 1;
         mw_tasks := mw_tasks st ++ [r] |}
  end.

Definition mw_init (prefetch : Z) (batches : list (list Z)) : mw :=
  Nat.iter (Z.to_nat prefetch) mw_push_next (mkMw batches ∅ 0 0 []).

(** What the pool computes for a task, as [ret.get()] (after [pickle.loads] for a
    process pool) returns or re-raises it. *)
Definition task_outcome (samples : list Z) : result pyobj :=
  b ← load_batch samples;
  if thread_pool then Ok b else pickle_loads (pickle_dumps b).

(** [__next__] up to the point where it waits for the worker. *)
Definition mw_next_begin : M mw nat :=
  _ ← modify mw_push_next;
  st ← get;
  if mw_rcvd st =? mw_sent st then
    (_ ← massert (bool_decide (mw_buffer st = ∅)); raise StopIteration)
  else
    (_ ← massert (mw_rcvd st <? mw_sent st);
     _ ← massert (in_dict (mw_rcvd st) (mw_buffer st));
     h ← lift (py_getitem (mw_buffer st) (mw_rcvd st));
     _ ← put {| mw_iter := mw_iter st;
                mw_buffer := delete (mw_rcvd st) (mw_buffer st);
                mw_rcvd := mw_rcvd st; mw_sent := mw_sent st; mw_tasks := mw_tasks st |};
     mret h).

(** What is handed to the consumer: pinned, and unwrapped when it has length 1. *)
Definition mw_deliver (b : pyobj) : result pyobj :=
  let b := pin_batch b in
  n ← obj_len b;
  if n =? 1 then obj_first b else Ok b.

(** The rest of [__next__], once the worker has answered. *)
Definition mw_next_end (answer : result pyobj) : M mw pyobj :=
  b ← lift (b ← answer; mw_deliver b);
  _ ← modify (fun st => {| mw_iter := mw_iter st; mw_buffer := mw_buffer st;
                           mw_rcvd := mw_rcvd st + 1; mw_sent := mw_sent st;
                           mw_tasks := mw_tasks st |});
  mret b.

(** *** Consumer and workers together *)

Inductive consumer := Idle | Waiting (h : nat) | Finished.

Record mw_sys := mkSys {
  sy_it : mw;
  sy_done : gset nat;
  sy_main : consumer;
  sy_out : list (result pyobj);
}.

Inductive mw_step : mw_sys -> mw_sys -> Prop :=
  | step_call it it' h done out :
      mw_next_begin it = (Ok h, it') ->
      mw_step (mkSys it done Idle out) (mkSys it' done (Waiting h) out)
  | step_stop it it' e done out :
      mw_next_begin it = (Raise e, it') ->
      mw_step (mkSys it done Idle out) (mkSys it' done Finished (out ++ [Raise e]))
  | step_work it h done main out :
      (h < length (mw_tasks it))%nat -> h ∉ done ->
      mw_step (mkSys it done main out) (mkSys it ({[h]} ∪ done) main out)
  | step_return it it' h samples r done out :
      h ∈ done -> mw_tasks it !! h = Some samples ->
      mw_next_end (task_outcome samples) it = (r, it') ->
      mw_step (mkSys it done (Waiting h) out) (mkSys it' done Idle (out ++ [r])).

Definition mw_start (prefetch : Z) (batches : list (list Z)) : mw_sys :=
  mkSys (mw_init prefetch batches) ∅ Idle [].
End Iter.

(** ** In-order delivery *)

Section Delivery.
Context {D : Type} `{Dataset D} (dataset : D) (batchify_fn : list pyobj -> result pyobj).
Context (pin : option Z).
Context {Bytes : Type} (pickle_dumps : pyobj -> Bytes) (pickle_loads : Bytes -> result pyobj).
Context (thread_pool : bool).

(** What the consumer receives for one batch, or the exception it gets instead. *)
Definition mw_answer (samples : list Z) : result pyobj :=
  b ← task_outcome dataset batchify_fn pickle_dumps pickle_loads thread_pool samples;
  mw_deliver pin b.

Notation step := (mw_step dataset batchify_fn pin pickle_dumps pickle_loads thread_pool).

Context (batches : list (list Z)) (v : list Z -> pyobj).
Hypothesis answers : forall b, b ∈ batches -> mw_answer b = Ok (v b).

(** The handles between two batch numbers: handle [i] is batch number [i]. *)
Definition window (buf : gmap Z nat) (lo hi : Z) : Prop :=
  forall i, buf !! i = if decide (lo <= i < hi) then Some (Z.to_nat i) else None.

(** Everything about the iterator except its reorder buffer. *)
Definition mw_inv (it : mw) : Prop :=
  mw_tasks it ++ mw_iter it = batches /\
  mw_sent it = py_len (mw_tasks it) /\
  0 <= mw_rcvd it <= mw_sent it.

Definition delivered (k : Z) : list (result pyobj) :=
  map (fun b => Ok (v b)) (take (Z.to_nat k) batches).

Definition sys_inv (s : mw_sys) : Prop :=
  let it := sy_it s in
  mw_inv it /\
  (forall h, h ∈ sy_done s -> (h < length (mw_tasks it))%nat) /\
  match sy_main s with
  | Idle => window (mw_buffer it) (mw_rcvd it) (mw_sent it) /\ sy_out s = delivered (mw_rcvd it)
  | Waiting h =>
      window (mw_buffer it) (mw_rcvd it + 1) (mw_sent it) /\ mw_rcvd it < mw_sent it /\
      h = Z.to_nat (mw_rcvd it) /\ sy_out s = delivered (mw_rcvd it)
  | Finished =>
      mw_rcvd it = py_len batches /\ sy_out s = delivered (py_len batches) ++ [Raise StopIteration]
  end.

Lemma push_inv it :
  mw_inv it -> window (mw_buffer it) (mw_rcvd it) (mw_sent it) ->
  mw_inv (mw_push_next it) /\
  window (mw_buffer (mw_push_next it)) (mw_rcvd (mw_push_next it)) (mw_sent (mw_push_next it)) /\
  mw_rcvd (mw_push_next it) = mw_rcvd it /\
  (length (mw_tasks it) <= length (mw_tasks (mw_push_next it)))%nat /\
  (mw_sent (mw_push_next it) = mw_rcvd it -> mw_iter (mw_push_next it) = []).
Proof.
  intros (Ht & Hs & Hr) Hw. unfold mw_push_next. destruct (mw_iter it) as [|r rest] eqn:Ei.
  { split_and!; try done. unfold mw_inv. rewrite Ei. done. }
  split; [|split; [|split_and!]]; cbn.
  - split_and!; cbn; [by rewrite <- app_assoc|rewrite py_len_app, py_len_cons, py_len_nil; lia|lia|lia].
  - intros i. destruct (decide (i = mw_sent it)) as [->|Hne].
    + rewrite lookup_insert_eq. rewrite decide_True by lia. f_equal. unfold py_len in Hs. lia.
    + rewrite lookup_insert_ne by done. rewrite Hw. repeat case_decide; try done; lia.
  - done.
  - rewrite length_app. simpl. lia.
  - lia.
Qed.

Lemma init_inv prefetch : sys_inv (mw_start prefetch batches).
Proof.
  unfold mw_start, mw_init, sys_inv. cbn.
  assert (forall n, let it := Nat.iter n mw_push_next (mkMw batches ∅ 0 0 []) in
    mw_inv it /\ window (mw_buffer it) (mw_rcvd it) (mw_sent it) /\ mw_rcvd it = 0) as Hn.
  { induction n as [|n IH].
    - cbn. split_and!; try done. intros i. rewrite lookup_empty. case_decide; [cbn in *; lia|done].
    - cbn. cbn in IH. destruct IH as (I1 & I2 & I3).
      destruct (push_inv _ I1 I2) as (J1 & J2 & J3 & _). split_and!; [done|done|exact (eq_trans J3 I3)]. }
  destruct (Hn (Z.to_nat prefetch)) as (I1 & I2 & I3). cbn in *.
  split_and!; try done. by rewrite I3.
Qed.

Lemma delivered_succ k b :
  0 <= k -> batches !! Z.to_nat k = Some b -> delivered (k + 1) = delivered k ++ [Ok (v b)].
Proof.
  intros Hk Hb. unfold delivered. rewrite Z2Nat.inj_add by lia. rewrite Nat.add_1_r.
  by rewrite (take_S_r _ _ _ Hb), map_app.
Qed.

(** [__next__] on a well-formed iterator: no assertion fails. *)
Lemma next_begin_spec it :
  mw_inv it -> window (mw_buffer it) (mw_rcvd it) (mw_sent it) ->
  exists it', mw_inv it' /\ mw_rcvd it' = mw_rcvd it /\
    (length (mw_tasks it) <= length (mw_tasks it'))%nat /\
    ((mw_next_begin it = (Raise StopIteration, it') /\ mw_rcvd it = py_len batches) \/
     (mw_next_begin it = (Ok (Z.to_nat (mw_rcvd it)), it') /\ mw_rcvd it' < mw_sent it' /\
      window (mw_buffer it') (mw_rcvd it' + 1) (mw_sent it'))).
Proof.
  intros Hi Hw. destruct (push_inv it Hi Hw) as (Hi' & Hw' & Er & Hlen & Hend).
  unfold mw_next_begin. rewrite bind_M. cbn [modify]. rewrite bind_M. cbn [get].
  set (st := mw_push_next it) in *.
  destruct Hi' as (Ht & Hs & Hr). destruct (Z.eqb_spec (mw_rcvd st) (mw_sent st)) as [E|N].
  - exists st. split_and!; try done; [lia..|]. left.
    assert (mw_buffer st = ∅) as Hb.
    { apply map_eq. intros i. rewrite lookup_empty, Hw'. case_decide; [lia|done]. }
    rewrite bind_M. unfold massert. rewrite bool_decide_eq_true_2 by done. split; [done|].
    specialize (Hend ltac:(lia)). rewrite Hend, app_nil_r in Ht. rewrite <- Ht. lia.
  - eexists. split; [|split; [|split; [|right; split]]].
    4: { pose proof (Hw' (mw_rcvd st)) as Hl. rewrite decide_True in Hl by lia.
         unfold mbind, M_bind, massert, lift, put, mret, M_ret, in_dict, py_getitem.
         rewrite (proj2 (Z.ltb_lt _ _)) by lia. rewrite Hl. simpl. by rewrite <- Er. }
    + split_and!; cbn; [done|done|lia|lia].
    + cbn. lia.
    + cbn. lia.
    + cbn [mw_buffer mw_rcvd mw_sent]. split; [lia|]. intros i. destruct (decide (i = mw_rcvd st)) as [->|].
      * rewrite lookup_delete_eq. by rewrite decide_False by lia.
      * rewrite lookup_delete_ne by done. rewrite Hw'. repeat case_decide; try done; lia.
Qed.

Lemma task_lookup it i b :
  mw_inv it -> mw_tasks it !! i = Some b -> batches !! i = Some b.
Proof. intros (<- & _) Hb. by apply lookup_app_l_Some. Qed.

Lemma step_inv s s' : sys_inv s -> step s s' -> sys_inv s'.
Proof.
  intros Hinv Hstep. destruct Hstep as [it it' h dn out Hb|it it' e dn out Hb|it h dn main out Hh Hn
    |it it' h samples r dn out Hd Ht He]; unfold sys_inv in *; cbn in *.
  - destruct Hinv as (Hi & Hdn & Hw & Ho).
    destruct (next_begin_spec it Hi Hw) as (it2 & Hi2 & Er & Hl & [[E _]|(E & Hlt & Hw2)]);
      rewrite E in Hb; simplify_eq.
    split_and!; [done| |done|done|by rewrite Er|by rewrite Er].
    intros h Hh. specialize (Hdn h Hh). lia.
  - destruct Hinv as (Hi & Hdn & Hw & Ho).
    destruct (next_begin_spec it Hi Hw) as (it2 & Hi2 & Er & Hl & [[E Hr]|(E & _)]);
      rewrite E in Hb; simplify_eq.
    split_and!; [done| |lia|by rewrite Hr].
    intros h Hh. specialize (Hdn h Hh). lia.
  - destruct Hinv as (Hi & Hdn & Hm). split_and!; [done|set_solver|done].
  - destruct Hinv as (Hi & Hdn & Hw & Hlt & -> & Ho).
    pose proof (task_lookup it _ _ Hi Ht) as Hb.
    assert (Ha : mw_answer samples = Ok (v samples)).
    { apply answers. apply list_elem_of_lookup. eauto. }
    unfold mw_next_end in He. rewrite bind_M in He. unfold lift in He.
    change (x ← task_outcome dataset batchify_fn pickle_dumps pickle_loads thread_pool samples;
            mw_deliver pin x) with (mw_answer samples) in He.
    rewrite Ha, bind_M in He. simpl in He. unfold mret, M_ret in He. simplify_eq. cbn.
    destruct Hi as (H1 & H2 & H3).
    split_and!; cbn; [split_and!; cbn; [done|done|lia|lia]|done|done|].
    symmetry. apply delivered_succ; [lia|done].
Qed.

Lemma reachable_inv prefetch s : rtc step (mw_start prefetch batches) s -> sys_inv s.
Proof.
  apply rtc_invariant; [apply init_inv|]. intros. by eapply step_inv.
Qed.

(** Steps left at most: two per batch that has not been delivered, one per task that
    has not completed, one for the final [StopIteration]. *)
Definition sys_measure (s : mw_sys) : Z :=
  (match sy_main s with
   | Idle => 2 * (py_len batches - mw_rcvd (sy_it s)) + 1
   | Waiting _ => 2 * (py_len batches - mw_rcvd (sy_it s))
   | Finished => 0
   end) + (py_len batches - Z.of_nat (size (sy_done s))).

Lemma done_bound s : sys_inv s -> Z.of_nat (size (sy_done s)) <= py_len (mw_tasks (sy_it s)).
Proof.
  intros (_ & Hd & _). assert (sy_done s ⊆ list_to_set (seq 0 (length (mw_tasks (sy_it s))))) as Hsub.
  { intros h Hh. apply elem_of_list_to_set, elem_of_seq. specialize (Hd h Hh). lia. }
  apply subseteq_size in Hsub. rewrite size_list_to_set, length_seq in Hsub by apply NoDup_seq.
  unfold py_len. lia.
Qed.

Lemma tasks_bound s : sys_inv s -> py_len (mw_tasks (sy_it s)) <= py_len batches.
Proof. intros ((<- & _) & _). rewrite py_len_app. pose proof (py_len_nonneg (mw_iter (sy_it s))). lia. Qed.

Lemma measure_nonneg s : sys_inv s -> 0 <= sys_measure s.
Proof.
  intros Hinv. pose proof (done_bound s Hinv). pose proof (tasks_bound s Hinv).
  destruct Hinv as ((_ & Hs & Hr) & _ & Hm). unfold sys_measure. destruct (sy_main s); lia.
Qed.

Lemma step_measure s s' : sys_inv s -> step s s' -> sys_measure s' < sys_measure s.
Proof.
  intros Hinv Hstep. pose proof (step_inv s s' Hinv Hstep) as Hinv'.
  destruct Hstep as [it it' h dn out Hb|it it' e dn out Hb|it h dn main out Hh Hn
    |it it' h samples r dn out Hd Ht He]; unfold sys_measure; cbn.
  - destruct Hinv as (Hi & _ & Hw & _). cbn in *.
    destruct (next_begin_spec it Hi Hw) as (it2 & _ & Er & _ & [[E _]|(E & _)]);
      rewrite E in Hb; simplify_eq. lia.
  - destruct Hinv as (Hi & _ & Hw & _). cbn in *.
    destruct (next_begin_spec it Hi Hw) as (it2 & _ & Er & _ & [[E Hr]|(E & _)]);
      rewrite E in Hb; simplify_eq. lia.
  - rewrite size_union by set_solver. rewrite size_singleton. lia.
  - destruct Hinv' as (_ & _ & _ & Ho'). cbn in *. destruct Hinv as (_ & _ & _ & Hlt & _ & Ho).
    unfold mw_next_end in He. rewrite bind_M in He. unfold lift in He.
    destruct (x ← task_outcome dataset batchify_fn pickle_dumps pickle_loads thread_pool samples;
              mw_deliver pin x) eqn:Ea; rewrite ?bind_M in He; simpl in He;
      unfold mret, M_ret in He; simplify_eq; cbn in *; [lia|].
    exfalso. assert (length (out ++ [Raise e]) = length out) as Hl by congruence.
    rewrite length_app in Hl. simpl in Hl. lia.
Qed.

(** Some step is always possible until the iterator has stopped. *)
Lemma step_progress s : sys_inv s -> sy_main s = Finished \/ exists s', step s s'.
Proof.
  destruct s as [it dn main out]. intros (Hi & Hd & Hm). cbn in *. destruct main as [|h|]; [right|right|by left].
  - destruct Hm as [Hw _].
    destruct (next_begin_spec it Hi Hw) as (it2 & _ & _ & _ & [[E _]|(E & _)]).
    + eexists. by eapply step_stop.
    + eexists. by eapply step_call.
  - destruct Hm as (_ & Hlt & -> & _). pose proof Hi as (_ & Hs & Hr). unfold py_len in Hs.
    destruct (decide (Z.to_nat (mw_rcvd it) ∈ dn)) as [Hin|Hout].
    + destruct (lookup_lt_is_Some_2 (mw_tasks it) (Z.to_nat (mw_rcvd it))) as [b Hb]; [lia|].
      destruct (mw_next_end pin (task_outcome dataset batchify_fn pickle_dumps pickle_loads thread_pool b) it)
        as [r it'] eqn:E.
      eexists. by eapply step_return.
    + eexists. eapply step_work; [|done]. lia.
Qed.

Lemma finished_out prefetch s :
  rtc step (mw_start prefetch batches) s -> sy_main s = Finished ->
  sy_out s = map (fun b => Ok (v b)) batches ++ [Raise StopIteration].
Proof.
  intros (Hi & _ & Hm)%reachable_inv Hf. rewrite Hf in Hm. destruct Hm as [_ ->].
  unfold delivered, py_len. by rewrite Nat2Z.id, firstn_all.
Qed.

(** C1: when every batch is loaded, sent back and received without an exception
    ([answers]), whatever the order in which the workers finish, the consumer of a
    multi-worker loader receives the batches in the order of the batch sampler, each
    once: at every moment it has received a prefix, and when the iterator has stopped
    it has received all of them and then [StopIteration].  In particular the
    assertions of [__next__] do not fail then; after an exception in a worker they do
    ([loader_poisoned]). *)
Theorem loader_in_order prefetch s :
  rtc step (mw_start prefetch batches) s ->
  match sy_main s with
  | Finished => sy_out s = map (fun b => Ok (v b)) batches ++ [Raise StopIteration]
  | _ => exists k, sy_out s = map (fun b => Ok (v b)) (take k batches)
  end.
Proof.
  intros Hr. pose proof (finished_out prefetch s Hr) as Hf.
  apply reachable_inv in Hr as (Hi & _ & Hm). destruct (sy_main s) as [|h|].
  - destruct Hm as [_ ->]. by eexists.
  - destruct Hm as (_ & _ & _ & ->). by eexists.
  - by apply Hf.
Qed.

(** C19: when every batch is loaded, sent back and received without an exception ([answers]), a
    multi-worker loader neither blocks nor runs forever: a run from the start
    has at most three steps per batch and one, and a run that no step can extend has
    delivered every batch and then [StopIteration]. *)
Theorem loader_terminates prefetch n s :
  nsteps step n (mw_start prefetch batches) s ->
  Z.of_nat n <= 3 * py_len batches + 1 /\
  ((forall s', ~ step s s') ->
     sy_out s = map (fun b => Ok (v b)) batches ++ [Raise StopIteration]).
Proof.
  intros Hn. assert (sys_inv s) as Hinv.
  { apply (reachable_inv prefetch). apply rtc_nsteps. eauto. }
  split.
  - assert (sys_measure (mw_start prefetch batches) <= 3 * py_len batches + 1) as Hm.
    { unfold sys_measure. cbn. pose proof (init_inv prefetch) as ((_ & _ & Hr) & _). cbn in Hr. lia. }
    pose proof (measure_nonneg s Hinv).
    apply (nsteps_measure step sys_inv sys_measure) in Hn; [lia|apply measure_nonneg| |apply init_inv].
    intros a b Ha Hab. split; [by eapply step_inv|by apply step_measure].
  - intros Hstuck. destruct (step_progress s Hinv) as [Hf|[s' Hs']]; [|by destruct (Hstuck s')].
    apply (finished_out prefetch); [|done]. apply rtc_nsteps. eauto.
Qed.
End Delivery.

(** *** Witnesses: three batches of two over six numbers, two prefetched *)

Definition six : SimpleDataset := mkSimple (map ONum [10; 11; 12; 13; 14; 15]).
Definition six_batches : list (list Z) := [[0; 1]; [2; 3]; [4; 5]].
Definition collate (l : list pyobj) : result pyobj :=
  match default_batchify_fn 2 l with Some r => r | None => Raise RuntimeError end.
Definition six_answer (b : list Z) : pyobj :=
  match load_batch six collate b with Ok x => x | Raise _ => ONum 0 end.

Lemma six_answers b :
  b ∈ six_batches ->
  mw_answer six collate None (fun x : pyobj => x) (fun x => Ok x) false b = Ok (six_answer b).
Proof.
  intros Hb. unfold six_batches in Hb.
  repeat (apply elem_of_cons in Hb as [->|Hb]; [reflexivity|]). by apply elem_of_nil in Hb.
Qed.

Notation six_step := (mw_step six collate None (fun x : pyobj => x) (fun x => Ok x) false).

(** A complete run: the second task finishes before the first one, the third after the first
    two batches have been delivered. *)
Lemma six_run :
  exists s, nsteps six_step 10 (mw_start 2 six_batches) s /\ sy_main s = Finished /\ forall s', ~ six_step s s'.
Proof.
  eexists. split; [|split].
  - eapply nsteps_l; [apply (step_work _ _ _ _ _ _ _ 1%nat); [vm_compute; lia|set_solver]|].
    eapply nsteps_l; [apply (step_work _ _ _ _ _ _ _ 0%nat); [vm_compute; lia|set_solver]|].
    do 2 (eapply nsteps_l; [eapply step_call; reflexivity|];
          eapply nsteps_l; [eapply step_return; [set_solver|reflexivity|reflexivity]|]).
    eapply nsteps_l; [apply (step_work _ _ _ _ _ _ _ 2%nat); [vm_compute; lia|set_solver]|].
    eapply nsteps_l; [eapply step_call; reflexivity|].
    eapply nsteps_l; [eapply step_return; [set_solver|reflexivity|reflexivity]|].
    eapply nsteps_l; [eapply step_stop; reflexivity|]. apply nsteps_O.
  - reflexivity.
  - intros s' Hs. inversion Hs as [| |it h dn main out Hh Hn E|]; subst. cbn in Hh. destruct h as [|[|[|h]]]; [set_solver..|lia].
Qed.

Example loader_in_order_witness :
  exists s, rtc six_step (mw_start 2 six_batches) s /\ sy_main s = Finished /\
    sy_out s = map (fun b => Ok (six_answer b)) six_batches ++ [Raise StopIteration].
Proof.
  destruct six_run as (s & Hr & Hm & _). exists s.
  assert (rtc six_step (mw_start 2 six_batches) s) as Hrtc by (apply rtc_nsteps; eauto).
  split; [done|]. split; [done|].
  pose proof (loader_in_order six collate None (fun x : pyobj => x) (fun x => Ok x) false
    six_batches six_answer six_answers 2 s Hrtc) as H. rewrite Hm in H. exact H.
Defined.

Example loader_terminates_witness :
  exists s, nsteps six_step 10 (mw_start 2 six_batches) s /\ Z.of_nat 10 <= 3 * py_len six_batches + 1 /\
    sy_out s = map (fun b => Ok (six_answer b)) six_batches ++ [Raise StopIteration].
Proof.
  destruct six_run as (s & Hr & _ & Hstuck). exists s. split; [done|].
  destruct (loader_terminates six collate None (fun x : pyobj => x) (fun x => Ok x) false
    six_batches six_answer six_answers 2 10 s Hr) as [Hn Ho]. split; [exact Hn|exact (Ho Hstuck)].
Defined.

(** ** Failing workers *)

(** when a worker raises, [__next__] re-raises its exception but has already
    taken the entry out of the reorder buffer without advancing [_rcvd_idx]: the
    loader is unusable from then on, every later call ends in the "fatal error"
    assertion. *)
Theorem loader_poisoned (batches : list (list Z)) (pin : option Z) it h it1 e :
  mw_inv batches it -> window (mw_buffer it) (mw_rcvd it) (mw_sent it) ->
  mw_next_begin it = (Ok h, it1) ->
  mw_next_end pin (Raise e) it1 = (Raise e, it1) /\
  exists it2, mw_next_begin it1 = (Raise AssertionError, it2) /\
    exists it3, mw_next_begin it2 = (Raise AssertionError, it3).
Proof.
  intros Hi Hw Hb. split; [reflexivity|].
  destruct (next_begin_spec batches it Hi Hw) as (it' & Hi' & Er & _ & [[E _]|(E & Hlt & Hw')]);
    rewrite E in Hb; simplify_eq.
  assert (forall st, mw_rcvd st < mw_sent st -> mw_buffer st !! mw_rcvd st = None ->
    mw_next_begin st = (Raise AssertionError, mw_push_next st) /\
    mw_rcvd (mw_push_next st) < mw_sent (mw_push_next st) /\
    mw_buffer (mw_push_next st) !! mw_rcvd (mw_push_next st) = None) as G.
  { intros st Hl Hn.
    assert (mw_rcvd (mw_push_next st) < mw_sent (mw_push_next st) /\
            mw_buffer (mw_push_next st) !! mw_rcvd (mw_push_next st) = None) as [H1 H2].
    { unfold mw_push_next. destruct (mw_iter st); [done|]. cbn. split; [lia|].
      by rewrite lookup_insert_ne by lia. }
    split; [|done]. unfold mw_next_begin, mbind, M_bind, modify, get, massert, lift, in_dict.
    rewrite (proj2 (Z.eqb_neq _ _)) by lia. rewrite (proj2 (Z.ltb_lt _ _)) by lia. simpl.
    by rewrite H2. }
  destruct (G it1) as (G1 & G2 & G3); [done| |].
  { rewrite Hw'. by rewrite decide_False by lia. }
  exists (mw_push_next it1). split; [done|].
  destruct (G (mw_push_next it1) G2 G3) as (G4 & _). eauto.
Qed.

Example loader_poisoned_witness :
  exists it1, mw_next_begin (mw_init 2 six_batches) = (Ok 0%nat, it1) /\
    mw_next_end None (Raise KeyError) it1 = (Raise KeyError, it1) /\
    exists it2, mw_next_begin it1 = (Raise AssertionError, it2) /\
      exists it3, mw_next_begin it2 = (Raise AssertionError, it3).
Proof.
  eexists. split; [reflexivity|].
  apply (loader_poisoned six_batches None (mw_init 2 six_batches) 0%nat); [| |reflexivity].
  - apply (init_inv six_batches six_answer 2).
  - apply (init_inv six_batches six_answer 2).
Defined.

(** ** One process against many *)

Lemma same_process_ok {D} `{Dataset D} (dataset : D) f batches ys :
  same_process_iter dataset f None batches = (ys, Ok tt) ->
  forall b, b ∈ batches -> exists y, load_batch dataset f b = Ok y /\ y ∈ ys.
Proof.
  revert ys. induction batches as [|c batches IH]; intros ys Heq b Hb; [by apply elem_of_nil in Hb|].
  simpl in Heq. destruct (load_batch dataset f c) as [y|] eqn:Ec; [|done].
  destruct (same_process_iter dataset f None batches) as [ys' out] eqn:Es.
  injection Heq as <- ->. apply elem_of_cons in Hb as [->|Hb].
  - exists y. split; [done|]. left.
  - destruct (IH ys' eq_refl b Hb) as (y' & ? & ?). exists y'. split; [done|]. by right.
Qed.

Lemma same_process_map {D} `{Dataset D} (dataset : D) f batches ys v :
  same_process_iter dataset f None batches = (ys, Ok tt) ->
  (forall b, b ∈ batches -> load_batch dataset f b = Ok (v b)) -> ys = map v batches.
Proof.
  revert ys. induction batches as [|c batches IH]; intros ys Heq Hv; simpl in Heq; [by simplify_eq|].
  rewrite Hv in Heq by left. destruct (same_process_iter dataset f None batches) as [ys' out].
  injection Heq as <- ->. simpl. f_equal. apply IH; [done|]. intros. apply Hv. by right.
Qed.

(** a multi-worker loader that has run to its end has delivered exactly what
    the single-process loader yields, provided no batch has length 1, results
    survive pickling, and memory is not pinned. *)
Theorem loader_same_process {D} `{Dataset D} (dataset : D) f
  {Bytes} (dumps : pyobj -> Bytes) (loads : Bytes -> result pyobj) thread_pool prefetch batches ys s :
  (forall x, loads (dumps x) = Ok x) ->
  same_process_iter dataset f None batches = (ys, Ok tt) ->
  (forall y, y ∈ ys -> exists n, obj_len y = Ok n /\ n ≠ 1) ->
  rtc (mw_step dataset f None dumps loads thread_pool) (mw_start prefetch batches) s ->
  sy_main s = Finished ->
  sy_out s = map Ok ys ++ [Raise StopIteration].
Proof.
  intros Hp Hs Hlen Hr Hf.
  set (v := fun b => match load_batch dataset f b with Ok y => y | Raise _ => ONum 0 end).
  assert (Hv : forall b, b ∈ batches -> load_batch dataset f b = Ok (v b) /\ v b ∈ ys).
  { intros b Hb. destruct (same_process_ok _ _ _ _ Hs b Hb) as (y & Hy & Hin).
    subst v. cbn. by rewrite Hy. }
  assert (ys = map v batches) as -> by (eapply same_process_map; [done|]; intros; by apply Hv).
  rewrite (finished_out dataset f None dumps loads thread_pool batches v) with (prefetch := prefetch);
    [by rewrite map_map| |done..].
  intros b Hb. destruct (Hv b Hb) as [Hl Hin]. destruct (Hlen _ Hin) as (n & Hn & Hn1).
  unfold mw_answer, task_outcome. rewrite Hl. simpl.
  destruct thread_pool; rewrite ?Hp; simpl; unfold mw_deliver, pin_batch; rewrite Hn; simpl;
    by rewrite (proj2 (Z.eqb_neq n 1) Hn1).
Qed.

Lemma six_full_run :
  exists s, rtc six_step (mw_start 2 six_batches) s /\ sy_main s = Finished.
Proof.
  eexists. split.
  - do 3 (eapply rtc_l; [eapply step_call; reflexivity|];
          eapply rtc_l; [eapply step_work; [|]|]; [| |eapply rtc_l; [eapply step_return;
            [apply elem_of_union_l, elem_of_singleton_2; reflexivity|reflexivity|reflexivity]|]];
          [vm_compute; lia|set_solver|]).
    eapply rtc_l; [eapply step_stop; reflexivity|]. apply rtc_refl.
  - reflexivity.
Qed.

Example loader_same_process_witness :
  exists ys, same_process_iter six collate None six_batches = (ys, Ok tt) /\
  exists s, rtc six_step (mw_start 2 six_batches) s /\
    sy_out s = map Ok ys ++ [Raise StopIteration].
Proof.
  eexists. split; [reflexivity|].
  destruct six_full_run as (s & Hr & Hf). exists s. split; [done|].
  apply (loader_same_process six collate (fun x : pyobj => x) (fun x => Ok x) false 2 six_batches _ s);
    [done|reflexivity| |done|done].
  intros y Hy. repeat (apply elem_of_cons in Hy as [->|Hy]; [by eexists; split; [reflexivity|]|]).
  by apply elem_of_nil in Hy.
Defined.

Lemma nd_item_0_single a r t ts :
  nd_wf a -> nd_rows a = [r] -> nd_tail a = t :: ts ->
  exists a', nd_item a 0 = Ok a' /\ nd_shape a' = nd_tail a.
Proof.
  intros (Hr & Ht) Er Et. unfold nd_item, _at, nd_len. rewrite Er. simpl.
  unfold MXNDArrayAt, MXNDArraySlice, nd_len. rewrite Er. simpl.
  unfold nd_shape at 1. rewrite Er, Et. unfold py_len at 1. simpl.
  rewrite (proj2 (Z.ltb_lt 1 _)) by lia.
  unfold nd_reshape, nd_of_flat, nd_flat. cbn [nd_rows nd_ctx].
  rewrite Er, Et in Hr. inversion Hr as [|? ? Hlen _]; subst. rewrite Et in Ht.
  inversion Ht as [|? ? Ht0 _]; subst.
  change (py_slice [r] 0 (0 + 1)) with [r]. simpl concat. rewrite app_nil_r.
  rewrite bool_decide_eq_true_2 by (by symmetry).
  eexists. split; [reflexivity|].
  unfold nd_shape. cbn [nd_rows nd_tail]. by rewrite batches_length.
Qed.

(** when a batch has length 1, the multi-worker loader hands over its only
    element instead of the batch: for an array batch of one sample the batch axis is
    gone, while the single-process loader keeps it. *)
Theorem loader_unwraps_single {D} `{Dataset D} (dataset : D) f
  {Bytes} (dumps : pyobj -> Bytes) (loads : Bytes -> result pyobj) thread_pool b a r t ts :
  (forall x, loads (dumps x) = Ok x) ->
  load_batch dataset f b = Ok (ONd a) -> nd_wf a -> nd_rows a = [r] -> nd_tail a = t :: ts ->
  same_process_iter dataset f None [b] = ([ONd a], Ok tt) /\
  exists a', mw_answer dataset f None dumps loads thread_pool b = Ok (ONd a') /\
    nd_shape a = 1 :: t :: ts /\ nd_shape a' = t :: ts.
Proof.
  intros Hp Hl Hw Hr Ht. split; [simpl; by rewrite Hl|].
  destruct (nd_item_0_single a r t ts Hw Hr Ht) as (a' & Ha & Hs).
  exists a'. split; [|split; [unfold nd_shape; by rewrite Hr, Ht|by rewrite Hs, Ht]].
  unfold mw_answer, task_outcome. rewrite Hl. simpl.
  destruct thread_pool; rewrite ?Hp; simpl; unfold mw_deliver, pin_batch; simpl;
    unfold nd_len; rewrite Hr; simpl; by rewrite Ha.
Qed.

Definition two_rows : SimpleDataset :=
  mkSimple [ONd (mkND cpu "float32" [] [[1]; [2]]); ONd (mkND cpu "float32" [] [[3]; [4]])].

Example loader_unwraps_single_witness :
  same_process_iter two_rows collate None [[1]] = ([ONd (mkND cpu "float32" [2] [[3; 4]])], Ok tt) /\
  exists a', mw_answer two_rows collate None (fun x : pyobj => x) (fun x => Ok x) false [1] = Ok (ONd a') /\
    nd_shape (mkND cpu "float32" [2] [[3; 4]]) = [1; 2] /\ nd_shape a' = [2].
Proof.
  apply (loader_unwraps_single two_rows collate (fun x : pyobj => x) (fun x => Ok x) false [1]
    (mkND cpu "float32" [2] [[3; 4]]) [3; 4] 2 []); [done|reflexivity| |reflexivity|reflexivity].
  split; repeat constructor; done.
Defined.
