(* ===== verification/LoaderV1.v ===== *)
(** * The first multi-worker data loader

    [DataLoaderV1] of [gluon/data/dataloader.py]: worker processes take numbered
    batches from a key queue and put the loaded data in a data queue, a fetcher
    thread moves it to a reorder buffer, and the consumer takes the batches from the
    buffer by number.  [v1_step] interleaves the main thread, the fetcher and the
    workers in every way; queues are first-in first-out and any idle worker may take
    the next key. *)

From S2P Require Import Prelude Sampler NDArray Dataset DataLoader.

(** ** The constructor *)

Record DataLoaderV1 (Rng U UB : Type) := mkLoaderV1 {
  l1_batch_sampler : BatchSampler (loader_sampler Rng U) + UB;
  l1_pin_memory : bool;
  l1_pin_device_id : Z;
  l1_num_workers : Z;
  l1_batchify_fn : batchify_choice;
}.
Arguments mkLoaderV1 {Rng U UB}.

Definition DataLoaderV1_init {Rng U UB : Type} (n : Z) (rng : Rng) (batch_size : option Z)
  (shuffle : bool) (sampler : option U) (last_batch : option string) (batch_sampler : option UB)
  (batchify_fn : option (list pyobj -> result pyobj)) (num_workers : Z)
  (pin_memory : bool) (pin_device_id : Z) : result (DataLoaderV1 Rng U UB) :=
  bs ← choose_batch_sampler n rng batch_size shuffle sampler last_batch batch_sampler;
  Ok (mkLoaderV1 bs pin_memory pin_device_id (if 0 <=? num_workers then num_workers else 0)
        (choose_batchify num_workers batchify_fn)).

(** ** The threads *)

Section Loader.
Context {D : Type} `{Dataset D} (dataset : D) (batchify_fn : list pyobj -> result pyobj).
(** The context batches are moved to: pinned memory when it is asked for. *)
Context (pin : option Z).

(** A worker process in [worker_loop_v1]. *)
Inductive worker :=
  | WIdle
  | WBusy (idx : Z) (samples : list Z)
  | WDead.

(** The main thread: in the loop of the consumer, waiting for the fetcher in
    [shutdown], or past the end. *)
Inductive main_state := MRun | MJoining | MEnd.
#[export] Instance main_state_eq_dec : EqDecision main_state.
Proof. solve_decision. Defined.

(** [_MultiWorkerIterV1].  A [None] in a queue is the [(None, None)] signal. *)
Record v1 := mkV1 {
  v_iter : list (list Z);
  v_keys : list (option (Z * list Z));
  v_workers : list worker;
  v_data : list (option (Z * pyobj));
  v_fetching : bool;
  v_buffer : gmap Z pyobj;
  v_rcvd : Z;
  v_sent : Z;
  v_main : main_state;
  v_out : list (result pyobj);
}.

(** [_push_next] *)
Definition v1_push_next (st : v1) : v1 :=
  match v_iter st with
  | [] => st
  | r :: rest =>
      {| v_iter := rest; v_keys := v_keys st ++ [Some (v_sent st, r)];
         v_workers := v_workers st; v_data := v_data st; v_fetching := v_fetching st;
         v_buffer := v_buffer st; v_rcvd := v_rcvd st; v_sent := v_sent st + 1;
         v_main := v_main st; v_out := v_out st |}
  end.

(** [_MultiWorkerIterV1.__init__] *)
Definition v1_init (num_workers : Z) (batches : list (list Z)) : result v1 :=
  _ ← py_assert (0 <? num_workers);
  Ok (Nat.iter (Z.to_nat (2 * num_workers)) v1_push_next
    {| v_iter := batches; v_keys := [];
       v_workers := replicate (Z.to_nat num_workers) WIdle; v_data := []; v_fetching := true;
       v_buffer := ∅; v_rcvd := 0; v_sent := 0; v_main := MRun; v_out := [] |}).

(** [fetcher_loop_v1]: the context change before a batch enters the buffer. *)
Definition fetch_batch (b : pyobj) : pyobj :=
  _as_in_context b (match pin with Some id => cpu_pinned id | None => cpu end).

(** One step of a worker process: take a key, take the end signal, put a loaded
    batch, or die of the exception of its batch. *)
Definition set_worker (j : nat) (w : worker) (st : v1) : v1 :=
  {| v_iter := v_iter st; v_keys := v_keys st; v_workers := <[j := w]> (v_workers st);
     v_data := v_data st; v_fetching := v_fetching st; v_buffer := v_buffer st;
     v_rcvd := v_rcvd st; v_sent := v_sent st; v_main := v_main st; v_out := v_out st |}.
Definition set_keys (ks : list (option (Z * list Z))) (st : v1) : v1 :=
  {| v_iter := v_iter st; v_keys := ks; v_workers := v_workers st;
     v_data := v_data st; v_fetching := v_fetching st; v_buffer := v_buffer st;
     v_rcvd := v_rcvd st; v_sent := v_sent st; v_main := v_main st; v_out := v_out st |}.
Definition set_data (ds : list (option (Z * pyobj))) (st : v1) : v1 :=
  {| v_iter := v_iter st; v_keys := v_keys st; v_workers := v_workers st;
     v_data := ds; v_fetching := v_fetching st; v_buffer := v_buffer st;
     v_rcvd := v_rcvd st; v_sent := v_sent st; v_main := v_main st; v_out := v_out st |}.
Definition set_main (m : main_state) (st : v1) : v1 :=
  {| v_iter := v_iter st; v_keys := v_keys st; v_workers := v_workers st;
     v_data := v_data st; v_fetching := v_fetching st; v_buffer := v_buffer st;
     v_rcvd := v_rcvd st; v_sent := v_sent st; v_main := m; v_out := v_out st |}.
Definition add_out (r : result pyobj) (st : v1) : v1 :=
  {| v_iter := v_iter st; v_keys := v_keys st; v_workers := v_workers st;
     v_data := v_data st; v_fetching := v_fetching st; v_buffer := v_buffer st;
     v_rcvd := v_rcvd st; v_sent := v_sent st; v_main := v_main st; v_out := v_out st ++ [r] |}.

Inductive worker_step : v1 -> v1 -> Prop :=
  | w_get j st i s ks :
      v_workers st !! j = Some WIdle -> v_keys st = Some (i, s) :: ks ->
      worker_step st (set_worker j (WBusy i s) (set_keys ks st))
  | w_exit j st ks :
      v_workers st !! j = Some WIdle -> v_keys st = None :: ks ->
      worker_step st (set_worker j WDead (set_keys ks st))
  | w_put j st i s b :
      v_workers st !! j = Some (WBusy i s) -> load_batch dataset batchify_fn s = Ok b ->
      worker_step st (set_worker j WIdle (set_data (v_data st ++ [Some (i, b)]) st))
  | w_fail j st i s e :
      v_workers st !! j = Some (WBusy i s) -> load_batch dataset batchify_fn s = Raise e ->
      worker_step st (set_worker j WDead st).

(** One iteration of the fetcher thread. *)
Definition fetcher_step (st : v1) : option v1 :=
  if negb (v_fetching st) then None
  else match v_data st with
  | [] => None
  | None :: ds =>
      Some {| v_iter := v_iter st; v_keys := v_keys st; v_workers := v_workers st; v_data := ds;
              v_fetching := false; v_buffer := v_buffer st; v_rcvd := v_rcvd st;
              v_sent := v_sent st; v_main := v_main st; v_out := v_out st |}
  | Some (i, b) :: ds =>
      Some {| v_iter := v_iter st; v_keys := v_keys st; v_workers := v_workers st; v_data := ds;
              v_fetching := v_fetching st; v_buffer := <[i := fetch_batch b]> (v_buffer st);
              v_rcvd := v_rcvd st; v_sent := v_sent st; v_main := v_main st; v_out := v_out st |}
  end.

(** The main thread: [__next__], and the two halves of [shutdown] around
    [fetcher.join()].  [None] while it has to wait. *)
Definition main_step (st : v1) : option v1 :=
  match v_main st with
  | MRun =>
      if v_rcvd st =? v_sent st then
        if bool_decide (v_buffer st = ∅)
        then Some (set_main MJoining (set_data (v_data st ++ [None]) st))
        else Some (add_out (Raise AssertionError) (set_main MEnd st))
      else
        match v_buffer st !! v_rcvd st with
        | None => None
        | Some b =>
            Some (add_out (Ok b) (v1_push_next
              {| v_iter := v_iter st; v_keys := v_keys st; v_workers := v_workers st;
                 v_data := v_data st; v_fetching := v_fetching st;
                 v_buffer := delete (v_rcvd st) (v_buffer st);
                 v_rcvd := v_rcvd st + 1; v_sent := v_sent st;
                 v_main := v_main st; v_out := v_out st |}))
        end
  | MJoining =>
      if v_fetching st then None
      else Some (add_out (Raise StopIteration) (set_main MEnd
             {| v_iter := v_iter st;
                v_keys := v_keys st ++ replicate (length (v_workers st)) None;
                v_workers := map (fun _ => WDead) (v_workers st); v_data := v_data st;
                v_fetching := v_fetching st; v_buffer := v_buffer st; v_rcvd := v_rcvd st;
                v_sent := v_sent st; v_main := v_main st; v_out := v_out st |}))
  | MEnd => None
  end.

Inductive v1_step : v1 -> v1 -> Prop :=
  | step_worker st st' : worker_step st st' -> v1_step st st'
  | step_fetcher st st' : fetcher_step st = Some st' -> v1_step st st'
  | step_main st st' : main_step st = Some st' -> v1_step st st'.
End Loader.

(** ** What the threads carry *)

Section Contents.
Context {D : Type} `{Dataset D} (dataset : D) (batchify_fn : list pyobj -> result pyobj).
Context (pin : option Z) (batches : list (list Z)) (num_workers : Z).

Notation load := (load_batch dataset batchify_fn).
Notation step := (v1_step dataset batchify_fn pin).

(** What the consumer is to receive for a batch. *)
Definition v1_answer (s : list Z) : result pyobj := fetch_batch pin <$> load s.

Definition numbered (i : Z) (s : list Z) : Prop := 0 <= i /\ batches !! Z.to_nat i = Some s.
Definition loaded (i : Z) (b : pyobj) : Prop := exists s, numbered i s /\ load s = Ok b.
Definition is_ok {A} (r : result A) : Prop := exists a, r = Ok a.

(** Counters, and the contents of the queues, the workers and the buffer; true
    whether or not batches raise. *)
Record contents (st : v1) : Prop := {
  c_iter : v_iter st = drop (Z.to_nat (v_sent st)) batches;
  c_rcvd : 0 <= v_rcvd st <= v_sent st;
  c_sent : v_sent st <= py_len batches;
  c_window : v_sent st - v_rcvd st <= 2 * num_workers;
  c_full : v_sent st - v_rcvd st < 2 * num_workers -> v_sent st = py_len batches;
  c_keys : forall i s, Some (i, s) ∈ v_keys st -> numbered i s;
  c_busy : forall i s, WBusy i s ∈ v_workers st -> numbered i s;
  c_data : forall i b, Some (i, b) ∈ v_data st -> loaded i b;
  c_buffer : forall i b, v_buffer st !! i = Some b -> exists b0, loaded i b0 /\ b = fetch_batch pin b0;
  c_ok : Forall is_ok (map v1_answer (take (Z.to_nat (v_rcvd st)) batches));
  c_out : v_main st ≠ MEnd -> v_out st = map v1_answer (take (Z.to_nat (v_rcvd st)) batches);
  c_main : v_main st ≠ MRun -> v_rcvd st = py_len batches;
}.

Lemma push_fields st :
  let st' := v1_push_next st in
  v_workers st' = v_workers st /\ v_data st' = v_data st /\ v_fetching st' = v_fetching st /\
  v_buffer st' = v_buffer st /\ v_rcvd st' = v_rcvd st /\ v_main st' = v_main st /\ v_out st' = v_out st.
Proof. unfold v1_push_next. by destruct (v_iter st). Qed.

(** The three cases of [_push_next] that matter to the counters. *)
Lemma push_counters st :
  v_iter st = drop (Z.to_nat (v_sent st)) batches -> 0 <= v_sent st <= py_len batches ->
  let st' := v1_push_next st in
  v_iter st' = drop (Z.to_nat (v_sent st')) batches /\
  ((v_sent st = py_len batches /\ st' = st) \/
   (v_sent st < py_len batches /\ v_sent st' = v_sent st + 1 /\
    exists s, numbered (v_sent st) s /\ v_keys st' = v_keys st ++ [Some (v_sent st, s)])).
Proof.
  intros Hi Hs. unfold v1_push_next. destruct (v_iter st) as [|r rest] eqn:E; cbn zeta.
  - rewrite E. split; [done|left]. split; [|done]. unfold py_len in *.
    assert (length (drop (Z.to_nat (v_sent st)) batches) = 0%nat) as Hl by by rewrite <- Hi.
    rewrite length_drop in Hl. lia.
  - cbn. assert (batches !! Z.to_nat (v_sent st) = Some r) as Hr.
    { rewrite <- (Nat.add_0_r (Z.to_nat (v_sent st))), <- lookup_drop, <- Hi. done. }
    split.
    + rewrite Z2Nat.inj_add by lia. rewrite <- drop_drop, <- Hi. done.
    + right. split_and!; [|done|].
      * apply lookup_lt_Some in Hr. unfold py_len. lia.
      * exists r. split; [split; [lia|done]|done].
Qed.

Lemma contents_init st :
  v1_init num_workers batches = Ok st -> contents st /\ v_rcvd st = 0 /\ v_main st = MRun.
Proof.
  unfold v1_init, py_assert. destruct (Z.ltb_spec 0 num_workers) as [Hw|]; [|done].
  cbn. intros [= <-].
  set (s0 := {| v_iter := batches; v_keys := [] |}).
  assert (forall n, let st := Nat.iter n v1_push_next s0 in
    v_iter st = drop (Z.to_nat (v_sent st)) batches /\
    v_sent st = Z.min (Z.of_nat n) (py_len batches) /\
    (forall i s, Some (i, s) ∈ v_keys st -> numbered i s) /\
    v_workers st = v_workers s0 /\ v_data st = [] /\ v_buffer st = ∅ /\ v_rcvd st = 0 /\
    v_main st = MRun /\ v_out st = []) as Hn.
  { induction n as [|n IH]; cbn zeta.
    - cbn. pose proof (py_len_nonneg batches). split_and!; try done; [lia|].
      intros ?? []%not_elem_of_nil.
    - cbn zeta in IH. rewrite Nat.iter_succ. revert IH. generalize (Nat.iter n v1_push_next s0).
      intros st (I1 & I2 & I3 & I4 & I5 & I6 & I7 & I8 & I9). pose proof (py_len_nonneg batches).
      destruct (push_counters st I1 ltac:(lia)) as (J1 & J2).
      destruct (push_fields st) as (P1 & P2 & P3 & P4 & P5 & P6 & P7).
      rewrite P1, P2, P4, P5, P6, P7. split_and!; try done.
      + destruct J2 as [[? ->]|(? & -> & _)]; lia.
      + destruct J2 as [[? ->]|(? & _ & s & Hs & ->)]; [done|].
        intros i s' [|[= -> ->]%list_elem_of_singleton]%elem_of_app; auto. }
  destruct (Hn (Z.to_nat (2 * num_workers))) as (I1 & I2 & I3 & I4 & I5 & I6 & I7 & I8 & I9).
  pose proof (py_len_nonneg batches). split; [|done].
  split; rewrite ?I4, ?I5, ?I6, ?I7, ?I8, ?I9; try done; try lia; cbn.
  - intros i s [[=] _]%elem_of_replicate.
  - intros ?? []%not_elem_of_nil.
Qed.

Lemma answer_loaded i b :
  loaded i b -> exists s, batches !! Z.to_nat i = Some s /\ v1_answer s = Ok (fetch_batch pin b).
Proof. intros (s & [_ Hs] & Hl). exists s. unfold v1_answer. by rewrite Hl. Qed.

Lemma worker_step_contents st st' : contents st -> worker_step dataset batchify_fn st st' -> contents st'.
Proof.
  intros Hc Hws. pose proof Hc as [Hi Hr Hs Hwin Hfull Hk Hb Hd Hbuf Hok Hout Hm].
  destruct Hws as [j st i s ks Hj Ek|j st ks Hj Ek|j st i s b Hj El|j st i s e Hj El];
    split; cbn; try done.
  + intros. apply Hk. rewrite Ek. by apply list_elem_of_further.
  + intros i' s' [[= -> ->]|]%elem_of_insert_weak; [|by auto].
    apply Hk. rewrite Ek. apply list_elem_of_here.
  + intros. apply Hk. rewrite Ek. by apply list_elem_of_further.
  + intros i' s' [[=]|]%elem_of_insert_weak; auto.
  + intros i' s' [[=]|]%elem_of_insert_weak; auto.
  + intros i' b' [|[= -> ->]%list_elem_of_singleton]%elem_of_app; [auto|].
    exists s. split; [|done]. apply Hb. by eapply list_elem_of_lookup_2.
  + intros i' s' [[=]|]%elem_of_insert_weak; auto.
Qed.

Lemma fetcher_step_contents st st' : contents st -> fetcher_step pin st = Some st' -> contents st'.
Proof.
  intros Hc Hf. pose proof Hc as [Hi Hr Hs Hwin Hfull Hk Hb Hd Hbuf Hok Hout Hm].
  unfold fetcher_step in Hf. destruct (v_fetching st); [|done]. cbn in Hf.
  destruct (v_data st) as [|[[i b]|] ds] eqn:Ed; simplify_eq; split; cbn; try done.
  + intros. apply Hd. by apply list_elem_of_further.
  + intros i' b'. rewrite lookup_insert_Some. intros [[<- <-]|[_ ?]]; [|auto].
    exists b. split; [|done]. apply Hd, list_elem_of_here.
  + intros. apply Hd. by apply list_elem_of_further.
Qed.

Lemma main_step_contents st st' : 0 < num_workers -> contents st -> main_step st = Some st' -> contents st'.
Proof.
  intros Hw Hc Hmain. pose proof Hc as [Hi Hr Hs Hwin Hfull Hk Hb Hd Hbuf Hok Hout Hm].
  unfold main_step in Hmain. destruct (v_main st) eqn:Em; [| |done].
  + destruct (Z.eqb_spec (v_rcvd st) (v_sent st)) as [E|N].
    * case_bool_decide; simplify_eq; split; cbn; try done; intros; try lia.
      -- apply Hd. apply elem_of_app in H1 as [|[=]%list_elem_of_singleton]; done.
      -- by apply Hout.
    * destruct (v_buffer st !! v_rcvd st) as [b|] eqn:Eb; [|done]. simplify_eq.
      destruct (Hbuf _ _ Eb) as (b0 & Hl & ->).
      destruct (answer_loaded _ _ Hl) as (s & Hs1 & Ha).
      match goal with |- contents (add_out _ (v1_push_next ?x)) => set (st1 := x) end.
      destruct (push_counters st1 Hi) as (J1 & J2); [cbn; lia|].
      destruct (push_fields st1) as (P1 & P2 & P3 & P4 & P5 & P6 & P7).
      cbn in P1, P2, P3, P4, P5, P6, P7.
      assert (Z.to_nat (v_rcvd st + 1) = S (Z.to_nat (v_rcvd st))) as ES by lia.
      assert (v_sent (v1_push_next st1) = Z.min (v_sent st + 1) (py_len batches)) as EN.
      { destruct J2 as [[? ->]|(? & -> & _)]; cbn in *; lia. }
      split; cbn; rewrite ?P1, ?P2, ?P4, ?P5, ?P6, ?P7, ?EN; try done; try lia.
      -- by rewrite <- EN.
      -- destruct J2 as [[_ ->]|(_ & _ & s' & Hs' & ->)]; [done|].
         intros i s'' [|[= -> ->]%list_elem_of_singleton]%elem_of_app; auto.
      -- intros i b [_ ?]%lookup_delete_Some. auto.
      -- rewrite ES, (take_S_r _ _ _ Hs1), map_app. apply Forall_app. split; [done|].
         constructor; [|constructor]. exists (fetch_batch pin b0). exact Ha.
      -- intros _. rewrite ES, (take_S_r _ _ _ Hs1), map_app. cbn. rewrite Ha. f_equal. by apply Hout.
  + destruct (v_fetching st); [done|]. simplify_eq. split; cbn; try done.
    * intros i s [|[? _]%elem_of_replicate]%elem_of_app; auto. done.
    * intros i s (x & [=] & _)%list_elem_of_fmap.
    * intros _. by apply Hm.
Qed.

Lemma step_contents st st' : 0 < num_workers -> contents st -> step st st' -> contents st'.
Proof.
  intros Hw Hc Hstep. destruct Hstep as [st st' Hs|st st' Hs|st st' Hs].
  - by eapply worker_step_contents.
  - by eapply fetcher_step_contents.
  - by eapply main_step_contents.
Qed.

Lemma reachable_contents st st' :
  v1_init num_workers batches = Ok st -> rtc step st st' -> contents st'.
Proof.
  intros Hi. assert (0 < num_workers) as Hw.
  { unfold v1_init, py_assert in Hi. by destruct (Z.ltb_spec 0 num_workers). }
  apply rtc_invariant; [by apply contents_init|]. intros. by eapply step_contents.
Qed.

(** ** No batch is lost *)

(** The batch numbers in flight: queued, being loaded, loaded, or in the buffer. *)
Definition busy_idx (w : worker) : option Z :=
  match w with WBusy i _ => Some i | _ => None end.
Definition queued {A} (q : list (option (Z * A))) : list Z := omap (fmap fst) q.
Definition in_flight (st : v1) : list Z :=
  queued (v_keys st) ++ omap busy_idx (v_workers st) ++ queued (v_data st)
  ++ (map_to_list (v_buffer st)).*1.

#[local] Arguments queued : simpl never.
#[local] Arguments in_flight : simpl never.

Lemma queued_app {A} (p q : list (option (Z * A))) : queued (p ++ q) = queued p ++ queued q.
Proof. apply omap_app. Qed.

Lemma queued_some {A} i (x : A) q : queued (Some (i, x) :: q) = i :: queued q.
Proof. reflexivity. Qed.

Lemma omap_insert_perm (ws : list worker) j w w' :
  ws !! j = Some w ->
  option_list (busy_idx w) ++ omap busy_idx (<[j := w']> ws)
  ≡ₚ option_list (busy_idx w') ++ omap busy_idx ws.
Proof.
  intros Hj. assert (j < length ws)%nat by by eapply lookup_lt_Some.
  rewrite insert_take_drop by done. rewrite <- (take_drop_middle ws j w Hj) at 3.
  rewrite !omap_app. destruct w, w'; cbn; rewrite ?app_nil_r; try done; solve_Permutation.
Qed.

Definition span (a b : Z) : list Z := range_from a 1 (Z.to_nat (b - a)).

Record running (st : v1) : Prop := {
  r_workers : length (v_workers st) = Z.to_nat num_workers;
  r_alive : WDead ∉ v_workers st;
  r_keys : None ∉ v_keys st;
  r_data : None ∉ v_data st;
  r_fetching : v_fetching st = true;
  r_flight : in_flight st ≡ₚ span (v_rcvd st) (v_sent st);
}.

Definition pipeline (st : v1) : Prop :=
  match v_main st with
  | MRun => running st
  | MJoining =>
      v_keys st = [] /\ v_data st = (if v_fetching st then [None] else []) /\
      Forall (eq WIdle) (v_workers st)
  | MEnd =>
      v_out st = map v1_answer batches ++ [Raise StopIteration] /\
      Forall (eq WDead) (v_workers st) /\ v_fetching st = false
  end.

Hypothesis loads : forall s, s ∈ batches -> is_ok (load s).

Lemma span_NoDup a b : NoDup (span a b).
Proof. by apply range_from_NoDup. Qed.

Lemma span_cons a b : a < b -> span a b = a :: span (a + 1) b.
Proof.
  intros. unfold span, range_from. replace (Z.to_nat (b - a)) with (S (Z.to_nat (b - (a + 1)))) by lia.
  cbn [seq map]. f_equal; [lia|]. rewrite <- seq_shift, map_map. apply map_ext. intros. lia.
Qed.

Lemma span_snoc a b : a <= b -> span a (b + 1) = span a b ++ [b].
Proof.
  intros. unfold span, range_from. replace (Z.to_nat (b + 1 - a)) with (Z.to_nat (b - a) + 1)%nat by lia.
  rewrite seq_app, map_app. cbn. f_equal. f_equal. lia.
Qed.

Lemma worker_running st st' :
  contents st -> v_main st = MRun -> running st -> worker_step dataset batchify_fn st st' -> running st'.
Proof.
  intros Hc Em [Hl Ha Hk Hd Hf Hp] Hs.
  destruct Hs as [j st i s ks Hj Ek|j st ks Hj Ek|j st i s b Hj El|j st i s e Hj El].
  - pose proof (omap_insert_perm _ j WIdle (WBusy i s) Hj) as Hperm. cbn in Hperm.
    split; cbn; rewrite ?length_insert; try done.
    + intros [[=]|]%elem_of_insert_weak. done.
    + rewrite Ek in Hk. intros ?. apply Hk. by apply list_elem_of_further.
    + rewrite <- Hp. unfold in_flight, set_worker, set_keys. cbn. rewrite Ek, queued_some, Hperm. solve_Permutation.
  - destruct Hk. rewrite Ek. apply list_elem_of_here.
  - pose proof (omap_insert_perm _ j (WBusy i s) WIdle Hj) as Hperm. cbn in Hperm.
    split; cbn; rewrite ?length_insert; try done.
    + intros [[=]|]%elem_of_insert_weak. done.
    + intros [|[=]%list_elem_of_singleton]%elem_of_app. done.
    + rewrite <- Hp. unfold in_flight, set_worker, set_data. cbn.
      rewrite queued_app, queued_some, <- Hperm. solve_Permutation.
  - assert (is_ok (load s)) as [b Hb]; [|congruence].
    apply loads. destruct (c_busy _ Hc i s) as [_ Hn]; [by eapply list_elem_of_lookup_2|].
    by eapply list_elem_of_lookup_2.
Qed.

Lemma fetcher_running st st' : running st -> fetcher_step pin st = Some st' -> running st'.
Proof.
  intros [Hl Ha Hk Hd Hf Hp] Hs. unfold fetcher_step in Hs. rewrite Hf in Hs. cbn in Hs.
  destruct (v_data st) as [|[[i b]|] ds] eqn:Ed; simplify_eq.
  - assert (v_buffer st !! i = None) as Hi.
    { apply eq_None_not_Some. intros [b' Hb']. apply elem_of_map_to_list in Hb'.
      pose proof (span_NoDup (v_rcvd st) (v_sent st)) as Hnd. rewrite <- Hp in Hnd.
      unfold in_flight in Hnd. rewrite Ed, queued_some in Hnd.
      apply NoDup_app in Hnd as (_ & _ & (_ & _ & [Hni _]%NoDup_cons)%NoDup_app).
      apply Hni, elem_of_app. right. apply list_elem_of_fmap. by exists (i, b'). }
    split; cbn; try done.
    + intros ?. apply Hd. by apply list_elem_of_further.
    + rewrite <- Hp. unfold in_flight. cbn.
      rewrite Ed, queued_some, (map_to_list_insert _ _ _ Hi). solve_Permutation.
  - destruct Hd. apply list_elem_of_here.
Qed.

Lemma queued_nil {A} (q : list (option (Z * A))) : None ∉ q -> queued q = [] -> q = [].
Proof. destruct q as [|[[i a]|] q]; [done|done|]. intros Hn. destruct Hn. apply list_elem_of_here. Qed.

Lemma all_idle (ws : list worker) : WDead ∉ ws -> omap busy_idx ws = [] -> Forall (eq WIdle) ws.
Proof.
  induction ws as [|w ws IH]; [done|]. rewrite not_elem_of_cons. intros [Hw Hws] Ho.
  destruct w; cbn in Ho; [|done|done]. constructor; auto.
Qed.

(** With nothing in flight the queues and the buffer are empty. *)
Lemma drained st :
  running st -> v_rcvd st = v_sent st ->
  v_keys st = [] /\ v_data st = [] /\ v_buffer st = ∅ /\ Forall (eq WIdle) (v_workers st).
Proof.
  intros [Hl Ha Hk Hd Hf Hp] E. unfold span in Hp. rewrite E, Z.sub_diag in Hp.
  apply Permutation_nil_r in Hp. unfold in_flight in Hp.
  apply app_eq_nil in Hp as (H1 & (H2 & (H3 & H4)%app_eq_nil)%app_eq_nil).
  split_and!; [by apply queued_nil|by apply queued_nil| |by apply all_idle].
  apply fmap_nil_inv in H4. by apply map_to_list_empty_iff.
Qed.

Lemma main_pipeline st st' :
  0 < num_workers -> contents st -> pipeline st -> main_step st = Some st' -> pipeline st'.
Proof.
  intros Hw Hc Hp Hs. unfold main_step in Hs. unfold pipeline in Hp.
  destruct (v_main st) eqn:Em; [| |done].
  - destruct (Z.eqb_spec (v_rcvd st) (v_sent st)) as [E|N].
    + destruct (drained st Hp E) as (Ek & Ed & Eb & Hi). rewrite bool_decide_eq_true_2 in Hs by done.
      simplify_eq. unfold pipeline. cbn. rewrite (r_fetching _ Hp), Ed. done.
    + destruct (v_buffer st !! v_rcvd st) as [b|] eqn:Eb; [|done]. simplify_eq.
      match goal with |- pipeline (add_out _ (v1_push_next ?x)) => set (st1 := x) end.
      destruct Hc as [Hi Hr Hse _ _ _ _ _ _ _ _ _]. destruct Hp as [Hl Ha Hk Hd Hf Hp].
      destruct (push_counters st1 Hi) as (J1 & J2); [cbn; lia|].
      destruct (push_fields st1) as (P1 & P2 & P3 & P4 & P5 & P6 & P7).
      cbn in P1, P2, P3, P4, P5, P6, P7, J2. unfold pipeline. cbn. rewrite P6.
      assert (v_rcvd st :: queued (v_keys st) ++ omap busy_idx (v_workers st) ++ queued (v_data st)
        ++ (map_to_list (delete (v_rcvd st) (v_buffer st))).*1 ≡ₚ span (v_rcvd st) (v_sent st)) as Hp1.
      { rewrite <- Hp. unfold in_flight. rewrite <- (map_to_list_delete _ _ _ Eb). solve_Permutation. }
      rewrite span_cons in Hp1 by lia. apply (Permutation_cons_inv (a := v_rcvd st)) in Hp1.
      split; cbn; rewrite ?P1, ?P2, ?P3, ?P4, ?P5; try done.
      * destruct J2 as [[_ ->]|(_ & _ & s' & Hs' & ->)]; [done|].
        intros [|[=]%list_elem_of_singleton]%elem_of_app; auto.
      * unfold in_flight. cbn. rewrite ?P1, ?P2, ?P3, ?P4, ?P5.
        destruct J2 as [[_ ->]|(? & -> & s' & Hs' & ->)]; [done|].
        rewrite queued_app, queued_some, span_snoc by lia. rewrite <- Hp1. solve_Permutation.
  - destruct Hp as (Ek & Ed & Hi). destruct (v_fetching st) eqn:Ef; [done|]. simplify_eq.
    unfold pipeline. cbn. split_and!; [|by apply Forall_fmap, Forall_forall|done].
    rewrite (c_out _ Hc) by congruence. rewrite (c_main _ Hc) by congruence.
    unfold py_len. by rewrite Nat2Z.id, firstn_all.
Qed.

Lemma step_pipeline st st' :
  0 < num_workers -> contents st -> pipeline st -> step st st' -> pipeline st'.
Proof.
  intros Hw Hc Hp Hst. destruct Hst as [s1 s2 Hs|s1 s2 Hs|s1 s2 Hs].
  - assert (v_main s2 = v_main s1) as E2 by by destruct Hs.
    unfold pipeline in *. destruct (v_main s1) eqn:Em.
    + rewrite E2. by apply (worker_running s1 s2).
    + destruct Hp as (Ek & Ed & Hi). rewrite Forall_forall in Hi.
      destruct Hs as [j st i s ks Hj Ek'|j st ks Hj Ek'|j st i s b Hj El|j st i s e Hj El];
        try congruence; specialize (Hi _ (list_elem_of_lookup_2 _ _ _ Hj)); done.
    + destruct Hp as (Ho & Hi & Hf). rewrite Forall_forall in Hi.
      destruct Hs as [j st i s ks Hj Ek'|j st ks Hj Ek'|j st i s b Hj El|j st i s e Hj El];
        specialize (Hi _ (list_elem_of_lookup_2 _ _ _ Hj)); done.
  - unfold pipeline in *. pose proof Hs as Hs'. unfold fetcher_step in Hs'. destruct (v_main s1) eqn:Em.
    + assert (v_main s2 = MRun) as ->; [|by apply (fetcher_running s1 s2)].
      destruct (v_fetching s1); [|done]. cbn in Hs'. destruct (v_data s1) as [|[[]|]]; simplify_eq; done.
    + destruct Hp as (Ek & Ed & Hi). destruct (v_fetching s1); [|done]. cbn in Hs'. rewrite Ed in Hs'.
      by simplify_eq.
    + destruct Hp as (_ & _ & Hf). by rewrite Hf in Hs'.
  - by eapply main_pipeline.
Qed.

Lemma pipeline_init st : v1_init num_workers batches = Ok st -> pipeline st.
Proof.
  unfold v1_init, py_assert. destruct (Z.ltb_spec 0 num_workers) as [Hw|]; [|done].
  cbn. intros [= <-].
  set (s0 := {| v_iter := batches; v_keys := [] |}).
  assert (forall n, let st := Nat.iter n v1_push_next s0 in
    v_main st = MRun /\ v_rcvd st = 0 /\ 0 <= v_sent st <= py_len batches /\
    v_iter st = drop (Z.to_nat (v_sent st)) batches /\ running st) as Hn.
  { induction n as [|n IH]; cbn zeta.
    - pose proof (py_len_nonneg batches). split_and!; try done. split; cbn; try done.
      + apply length_replicate.
      + intros [[=] _]%elem_of_replicate.
      + apply not_elem_of_nil.
      + apply not_elem_of_nil.
      + unfold in_flight. cbn. rewrite map_to_list_empty. cbn. rewrite app_nil_r.
        clear. induction (Z.to_nat num_workers); [done|]. cbn. done.
    - cbn zeta in IH. rewrite Nat.iter_succ. revert IH. generalize (Nat.iter n v1_push_next s0).
      intros st (I1 & I2 & I3 & I4 & [Hl Ha Hk Hd Hf Hp]).
      destruct (push_counters st I4 I3) as (J1 & J2).
      destruct (push_fields st) as (P1 & P2 & P3 & P4 & P5 & P6 & P7).
      destruct J2 as [[_ E]|(? & ES & s & Hs & EK)]; [by rewrite E|].
      rewrite P5, P6. split_and!; try done; try lia.
      split; rewrite ?P1, ?P2, ?P3, ?P4, ?P5; try done.
      + rewrite EK. intros [|[=]%list_elem_of_singleton]%elem_of_app; auto.
      + rewrite ES, span_snoc, <- Hp by lia. unfold in_flight. rewrite P1, P2, P4, EK.
        rewrite queued_app, queued_some. solve_Permutation. }
  destruct (Hn (Z.to_nat (2 * num_workers))) as (I1 & _ & _ & _ & I2). unfold pipeline. by rewrite I1.
Qed.

(** ** Progress and termination *)

(** Every batch still has to be submitted, taken, loaded, fetched and delivered. *)
Definition v1_measure (st : v1) : Z :=
  match v_main st with
  | MEnd => 0
  | m => 5 * py_len (v_iter st) + 4 * py_len (v_keys st)
         + 3 * py_len (omap busy_idx (v_workers st)) + 2 * py_len (v_data st)
         + Z.of_nat (size (v_buffer st)) + match m with MRun => 4 | _ => 1 end
  end.

Lemma v1_measure_nonneg st : 0 <= v1_measure st.
Proof. unfold v1_measure, py_len. destruct (v_main st); lia. Qed.

Lemma omap_insert_len (ws : list worker) j w w' :
  ws !! j = Some w ->
  py_len (option_list (busy_idx w)) + py_len (omap busy_idx (<[j := w']> ws))
  = py_len (option_list (busy_idx w')) + py_len (omap busy_idx ws).
Proof.
  intros Hj. rewrite <- !py_len_app. unfold py_len. by rewrite (omap_insert_perm ws j w w' Hj).
Qed.

Lemma worker_measure st st' :
  v_main st ≠ MEnd -> worker_step dataset batchify_fn st st' -> v1_measure st' < v1_measure st.
Proof.
  intros Hm Hs.
  destruct Hs as [j st i s ks Hj Ek|j st ks Hj Ek|j st i s b Hj El|j st i s e Hj El];
    unfold v1_measure; cbn.
  - pose proof (omap_insert_len _ j WIdle (WBusy i s) Hj) as Hl. rewrite Ek.
    destruct (v_main st); cbn in *; autorewrite with py in *; try done; lia.
  - pose proof (omap_insert_len _ j WIdle WDead Hj) as Hl. rewrite Ek.
    destruct (v_main st); cbn in *; autorewrite with py in *; try done; lia.
  - pose proof (omap_insert_len _ j (WBusy i s) WIdle Hj) as Hl.
    destruct (v_main st); cbn in *; autorewrite with py in *; try done; lia.
  - pose proof (omap_insert_len _ j (WBusy i s) WDead Hj) as Hl.
    destruct (v_main st); cbn in *; autorewrite with py in *; try done; lia.
Qed.

Lemma v1_step_measure st st' : contents st -> pipeline st -> step st st' -> v1_measure st' < v1_measure st.
Proof.
  intros Hc Hp Hst. destruct Hst as [s1 s2 Hs|s1 s2 Hs|s1 s2 Hs].
  - apply worker_measure; [|done]. intros Em. unfold pipeline in Hp. rewrite Em in Hp.
    destruct Hp as (_ & Hd & _). rewrite Forall_forall in Hd.
    destruct Hs as [j ???? Hj|j ?? Hj|j ???? Hj|j ???? Hj];
      specialize (Hd _ (list_elem_of_lookup_2 _ _ _ Hj)); done.
  - unfold fetcher_step in Hs. destruct (v_fetching s1) eqn:Ef; [|done]. cbn in Hs.
    assert (v_main s1 ≠ MEnd) as Hm.
    { intros Em. unfold pipeline in Hp. rewrite Em in Hp. destruct Hp as (_ & _ & ?). congruence. }
    destruct (v_data s1) as [|[[i b]|] ds] eqn:Ed; simplify_eq; unfold v1_measure; cbn; rewrite Ed.
    + assert (size (<[i := fetch_batch pin b]> (v_buffer s1)) <= S (size (v_buffer s1)))%nat.
      { destruct (v_buffer s1 !! i) eqn:E; [rewrite map_size_insert_Some by by eexists|
          rewrite map_size_insert_None by done]; lia. }
      destruct (v_main s1); autorewrite with py; try done; lia.
    + destruct (v_main s1); autorewrite with py; try done; lia.
  - unfold main_step in Hs. destruct (v_main s1) eqn:Em; [| |done].
    + destruct (Z.eqb_spec (v_rcvd s1) (v_sent s1)) as [E|N].
      { pose proof Hp as Hp'. unfold pipeline in Hp'. rewrite Em in Hp'.
        destruct (drained s1 Hp' E) as (_ & _ & Eb & _). rewrite bool_decide_eq_true_2 in Hs by done.
        simplify_eq. unfold v1_measure. rewrite Em. cbn. autorewrite with py. lia. }
      destruct (v_buffer s1 !! v_rcvd s1) as [b|] eqn:Eb; [|done]. simplify_eq.
      unfold v1_measure. rewrite Em. unfold v1_push_next. cbn.
      pose proof (map_size_delete_Some _ _ (mk_is_Some _ _ Eb)) as Hsz.
      assert (0 < size (v_buffer s1))%nat.
      { destruct (size (v_buffer s1)) eqn:E0; [|lia]. apply map_size_empty_inv in E0.
        rewrite E0, lookup_empty in Eb. done. }
      destruct (v_iter s1); cbn; autorewrite with py; lia.
    + destruct (v_fetching s1); [done|]. simplify_eq. unfold v1_measure. rewrite Em. cbn.
      pose proof (v1_measure_nonneg s1) as Hnn. unfold v1_measure in Hnn. rewrite Em in Hnn.
      unfold py_len in *. lia.
Qed.

(** As long as the main thread has not finished, some thread can move. *)
Lemma progress st :
  0 < num_workers -> contents st -> pipeline st -> v_main st ≠ MEnd -> exists st', step st st'.
Proof.
  intros Hw Hc Hp Hm. unfold pipeline in Hp. destruct (v_main st) eqn:Em; [| |done].
  - destruct (v_data st) as [|[[i b]|] ds] eqn:Ed.
    2-3: eexists; apply step_fetcher; unfold fetcher_step; rewrite (r_fetching _ Hp), Ed; done.
    destruct (omap busy_idx (v_workers st)) as [|i l] eqn:Eb.
    + pose proof (all_idle _ (r_alive _ Hp) Eb) as Hidle.
      destruct (v_keys st) as [|[[i s]|] ks] eqn:Ek.
      * assert (exists st', main_step st = Some st') as [st' Hst']; [|eexists; by apply step_main].
        unfold main_step. rewrite Em. destruct (Z.eqb_spec (v_rcvd st) (v_sent st)) as [E|N].
        { eexists. destruct (drained st Hp E) as (_ & _ & Ebuf & _). by rewrite bool_decide_eq_true_2. }
        pose proof (c_rcvd _ Hc). assert (v_rcvd st ∈ in_flight st) as Hin.
        { rewrite (r_flight _ Hp), span_cons by lia. apply list_elem_of_here. }
        unfold in_flight in Hin. rewrite Ek, Eb, Ed in Hin. cbn in Hin.
        apply list_elem_of_fmap in Hin as ([i b] & E & Hb%elem_of_map_to_list).
        cbn in E. rewrite E, Hb. by eexists.
      * destruct (v_workers st) as [|w ws] eqn:Ews.
        { pose proof (r_workers _ Hp) as Hl. rewrite Ews in Hl. cbn in Hl. lia. }
        apply Forall_cons in Hidle as [<- _]. eexists. apply step_worker.
        apply (w_get _ _ 0%nat); [by rewrite Ews|done].
      * destruct (r_keys _ Hp). rewrite Ek. apply list_elem_of_here.
    + assert (i ∈ omap busy_idx (v_workers st)) as Hin by (rewrite Eb; apply list_elem_of_here).
      apply list_elem_of_omap in Hin as (w & Hin & Hwi). destruct w as [|i' s|]; simplify_eq/=.
      destruct (c_busy _ Hc i s Hin) as [_ Hn]. apply list_elem_of_lookup in Hin as [j Hj].
      destruct (loads s) as [b Hb]; [by eapply list_elem_of_lookup_2|].
      eexists. apply step_worker. by apply (w_put _ _ j st i s b).
  - destruct Hp as (Ek & Ed & Hi). destruct (v_fetching st) eqn:Ef.
    + eexists. apply step_fetcher. unfold fetcher_step. by rewrite Ef, Ed.
    + eexists. apply step_main. unfold main_step. by rewrite Em, Ef.
Qed.
End Contents.

(** ** The properties of the loader *)

Section Runs.
Context {D : Type} `{Dataset D} (dataset : D) (batchify_fn : list pyobj -> result pyobj).
Context (pin : option Z) (batches : list (list Z)) (num_workers : Z).
Notation step := (v1_step dataset batchify_fn pin).

Lemma init_workers st : v1_init num_workers batches = Ok st -> 0 < num_workers.
Proof. unfold v1_init, py_assert. by destruct (Z.ltb_spec 0 num_workers). Qed.

Lemma reachable_pipeline st st' :
  (forall s, s ∈ batches -> is_ok (load_batch dataset batchify_fn s)) ->
  v1_init num_workers batches = Ok st -> rtc step st st' ->
  contents dataset batchify_fn pin batches num_workers st' /\
  pipeline dataset batchify_fn pin batches num_workers st'.
Proof.
  intros Hl Hi. pose proof (init_workers _ Hi).
  apply (rtc_invariant _ (fun s => contents dataset batchify_fn pin batches num_workers s /\
    pipeline dataset batchify_fn pin batches num_workers s)).
  - split; [by apply contents_init|by apply pipeline_init].
  - intros a b [Ha Hp] Hs. split; [by eapply step_contents|by eapply step_pipeline].
Qed.

(** whatever the interleaving of the consumer, the fetcher thread and the
    worker processes, the first loader delivers the loaded batches in submission
    order, nothing else, and ends with [StopIteration] only after the last one; at
    most [2 * num_workers] batches are between submission and delivery. *)
Theorem v1_in_order st st' :
  (forall s, s ∈ batches -> is_ok (load_batch dataset batchify_fn s)) ->
  v1_init num_workers batches = Ok st -> rtc step st st' ->
  v_out st' = map (v1_answer dataset batchify_fn pin)
                  (take (Z.to_nat (v_rcvd st')) batches) ++
              (match v_main st' with MEnd => [Raise StopIteration] | _ => [] end) /\
  (v_main st' = MEnd -> v_rcvd st' = py_len batches) /\
  v_sent st' - v_rcvd st' <= 2 * num_workers.
Proof.
  intros Hl Hi Hr. destruct (reachable_pipeline _ _ Hl Hi Hr) as [Hc Hp].
  split_and!; [|intros Em; apply (c_main _ _ _ _ _ _ Hc); congruence|apply Hc].
  unfold pipeline in Hp. destruct (v_main st') eqn:Em.
  1-2: rewrite app_nil_r; apply (c_out _ _ _ _ _ _ Hc); congruence.
  rewrite (c_main _ _ _ _ _ _ Hc) by congruence. unfold py_len. rewrite Nat2Z.id, firstn_all. apply Hp.
Qed.

(** no schedule of the threads runs for ever, and a run that cannot go on has
    delivered every batch and [StopIteration]. *)
Theorem v1_terminates st st' n :
  (forall s, s ∈ batches -> is_ok (load_batch dataset batchify_fn s)) ->
  v1_init num_workers batches = Ok st -> nsteps step n st st' ->
  Z.of_nat n <= v1_measure st /\
  ((forall st'', ~ step st' st'') ->
   v_out st' = map (v1_answer dataset batchify_fn pin) batches ++ [Raise StopIteration]).
Proof.
  intros Hl Hi Hn. pose proof (init_workers _ Hi) as Hw.
  destruct (reachable_pipeline st st' Hl Hi) as [Hc Hp]; [apply rtc_nsteps; eauto|].
  split.
  - pose proof (nsteps_measure step (fun s => contents dataset batchify_fn pin batches num_workers s /\
      pipeline dataset batchify_fn pin batches num_workers s) v1_measure n st st') as Hm.
    pose proof (v1_measure_nonneg st'). cut (Z.of_nat n <= v1_measure st - v1_measure st'); [lia|].
    apply Hm; [intros; apply v1_measure_nonneg| | |done].
    + intros a b [Ha Hpa] Hs. split; [split; [by eapply step_contents|by eapply step_pipeline]|].
      by eapply v1_step_measure.
    + apply (reachable_pipeline st st Hl Hi). apply rtc_refl.
  - intros Hstuck. unfold pipeline in Hp. destruct (decide (v_main st' = MEnd)) as [Em|Em].
    + rewrite Em in Hp. apply Hp.
    + destruct (progress dataset batchify_fn pin batches num_workers Hl st' Hw Hc Hp Em) as [? Hs].
      by apply Hstuck in Hs.
Qed.

(** a worker process dies of the exception of its batch without telling the
    consumer: if batch number [k] raises, the consumer gets at most the [k] batches
    before it and then waits for ever, without an exception. *)
Theorem v1_hangs st st' k s e :
  batches !! k = Some s -> load_batch dataset batchify_fn s = Raise e ->
  v1_init num_workers batches = Ok st -> rtc step st st' ->
  v_main st' = MRun /\ (length (v_out st') <= k)%nat /\ Forall is_ok (v_out st').
Proof.
  intros Hk He Hi Hr. pose proof (reachable_contents dataset batchify_fn pin batches num_workers _ _ Hi Hr) as Hc.
  assert (Z.to_nat (v_rcvd st') <= k)%nat as Hle.
  { destruct (le_lt_dec (Z.to_nat (v_rcvd st')) k) as [|Hlt]; [done|].
    pose proof (c_ok _ _ _ _ _ _ Hc) as Hok. rewrite Forall_forall in Hok.
    destruct (Hok (v1_answer dataset batchify_fn pin s)) as [b Hb].
    - apply list_elem_of_fmap. exists s. split; [done|]. apply list_elem_of_lookup. exists k.
      by rewrite lookup_take_lt.
    - unfold v1_answer in Hb. by rewrite He in Hb. }
  apply lookup_lt_Some in Hk. assert (v_main st' = MRun) as Em.
  { destruct (decide (v_main st' = MRun)) as [|Hm]; [done|].
    pose proof (c_main _ _ _ _ _ _ Hc Hm). unfold py_len in *. lia. }
  rewrite (c_out _ _ _ _ _ _ Hc) by congruence. split_and!; [done| |apply Hc].
  rewrite length_map, length_take. lia.
Qed.
End Runs.

(** *** Witnesses: three batches over six numbers and two workers, of which the
    second is faster *)

Notation v1_six_step := (v1_step six collate None).

Lemma six_loads s : s ∈ six_batches -> is_ok (load_batch six collate s).
Proof.
  intros Hs. unfold six_batches in Hs.
  repeat (apply elem_of_cons in Hs as [->|Hs]; [by eexists|]). by apply elem_of_nil in Hs.
Qed.

Definition v1_six : v1 :=
  match v1_init 2 six_batches with Ok st => st | Raise _ => mkV1 [] [] [] [] false ∅ 0 0 MEnd [] end.

(** Both workers take a batch, the second finishes first, then the first. *)
Lemma v1_six_run : exists s, nsteps v1_six_step 8 v1_six s /\ py_len (v_out s) = 2.
Proof.
  eexists. split.
  - eapply nsteps_l; [apply step_worker; eapply (w_get _ _ 0); reflexivity|].
    eapply nsteps_l; [apply step_worker; eapply (w_get _ _ 1); reflexivity|].
    eapply nsteps_l; [apply step_worker; eapply (w_put _ _ 1); reflexivity|].
    eapply nsteps_l; [apply step_fetcher; reflexivity|].
    eapply nsteps_l; [apply step_worker; eapply (w_put _ _ 0); reflexivity|].
    eapply nsteps_l; [apply step_fetcher; reflexivity|].
    do 2 (eapply nsteps_l; [apply step_main; vm_compute; reflexivity|]). apply nsteps_O.
  - reflexivity.
Qed.

Example v1_in_order_witness :
  exists s, rtc v1_six_step v1_six s /\ py_len (v_out s) = 2 /\
    v_out s = map (v1_answer six collate None) (take (Z.to_nat (v_rcvd s)) six_batches) ++
              (match v_main s with MEnd => [Raise StopIteration] | _ => [] end) /\
    (v_main s = MEnd -> v_rcvd s = py_len six_batches) /\ v_sent s - v_rcvd s <= 4.
Proof.
  destruct v1_six_run as (s & Hs & Ho). exists s. assert (rtc v1_six_step v1_six s) as Hr.
  { apply rtc_nsteps. eauto. }
  split; [done|]. split; [done|].
  apply (v1_in_order six collate None six_batches 2 v1_six s); [apply six_loads|reflexivity|done].
Defined.

Example v1_terminates_witness :
  exists s, nsteps v1_six_step 8 v1_six s /\ 8 <= v1_measure v1_six /\
    ((forall s', ~ v1_six_step s s') ->
     v_out s = map (v1_answer six collate None) six_batches ++ [Raise StopIteration]).
Proof.
  destruct v1_six_run as (s & Hs & Ho). exists s. split; [done|].
  apply (v1_terminates six collate None six_batches 2 v1_six s 8); [apply six_loads|reflexivity|done].
Defined.

(** The second batch asks for a sample that does not exist. *)
Definition v1_bad : v1 :=
  match v1_init 1 [[0; 1]; [9]] with Ok st => st | Raise _ => mkV1 [] [] [] [] false ∅ 0 0 MEnd [] end.

Lemma v1_bad_run : exists s, rtc v1_six_step v1_bad s /\ v_workers s = [WDead].
Proof.
  eexists. split.
  - eapply rtc_l; [apply step_worker; eapply (w_get _ _ 0); reflexivity|].
    eapply rtc_l; [apply step_worker; eapply (w_put _ _ 0); reflexivity|].
    eapply rtc_l; [apply step_worker; eapply (w_get _ _ 0); reflexivity|].
    eapply rtc_l; [apply step_worker; eapply (w_fail _ _ 0); reflexivity|]. apply rtc_refl.
  - reflexivity.
Qed.

Example v1_hangs_witness :
  exists s, rtc v1_six_step v1_bad s /\ v_workers s = [WDead] /\
    v_main s = MRun /\ (length (v_out s) <= 1)%nat /\ Forall is_ok (v_out s).
Proof.
  destruct v1_bad_run as (s & Hr & Hd). exists s. split; [done|]. split; [done|].
  eapply (v1_hangs six collate None [[0; 1]; [9]] 1 v1_bad s 1 [9] IndexError); [reflexivity..|done].
Defined.
