(* ===== verification/DataIter.v ===== *)
(** * Data iterators

    [io/io.py] and [io/utils.py]: [DataDesc], [DataBatch], the [DataIter] protocol as
    a type class, [NDArrayIter] with its three ways to handle the last batch, and
    [ResizeIter].  The arrays of an [NDArrayIter] are dense: [h5py] files and sparse
    arrays are outside the model, and numpy arrays and lists stand for the [float32]
    arrays that [_init_data] makes of them.  numpy's shuffle is a parameter. *)

From Stdlib Require Import Strings.Ascii Strings.String.
From stdpp Require Import pretty.
From S2P Require Import Prelude NDArray.

(** ** Descriptions and batches *)

Record DataDesc := mkDesc {
  desc_name : string;
  desc_shape : list Z;
  desc_dtype : string;
  desc_layout : option string;
}.

Definition mx_real_t : string := "float32".

(** [DataDesc(name, shape)] with the default type and layout. *)
Definition DataDesc_new (name : string) (shape : list Z) (dtype : option string) : DataDesc :=
  mkDesc name shape (default mx_real_t dtype) (Some "NCHW"%string).

(** [str.find] of a one-character string. *)
Definition str_find (c : Ascii.ascii) (s : string) : Z :=
  match String.index 0 (String c EmptyString) s with Some n => Z.of_nat n | None => -1 end.

Definition get_batch_axis (layout : option string) : Z :=
  match layout with None => 0 | Some l => str_find "N"%char l end.

Definition get_list (shapes : list (string * list Z)) (types : option (list (string * string)))
  : result (list DataDesc) :=
  match types with
  | Some ts =>
      let type_dict := list_to_map (reverse ts) : gmap string string in
      mapR (fun x => t ← py_getitem type_dict x.1; Ok (DataDesc_new x.1 x.2 (Some t))) shapes
  | None => Ok (map (fun x => DataDesc_new x.1 x.2 None) shapes)
  end.

Record DataBatch := mkBatch {
  b_data : list NDArray;
  b_label : list NDArray;
  b_pad : Z;
  b_index : option (list Z);
  b_bucket_key : option Z;
  b_provide_data : option (list DataDesc);
  b_provide_label : option (list DataDesc);
}.

(** [DataIter]: [next] returns a batch or raises [StopIteration], [reset] starts over. *)
Class DataIter (I : Type) := {
  it_next : M I DataBatch;
  it_reset : M I unit;
  it_provide_data : I -> list DataDesc;
  it_provide_label : I -> list DataDesc;
}.

(** [for batch in it]: the batches up to the first exception; [None] if [fuel] calls
    are not enough. *)
Fixpoint it_drain {I} `{DataIter I} (fuel : nat) (s : I) : option (list DataBatch * exn * I) :=
  match fuel with
  | O => None
  | S fuel =>
      match it_next s with
      | (Raise e, s') => Some ([], e, s')
      | (Ok b, s') => '(bs, e, s'') ← it_drain fuel s'; Some (b :: bs, e, s'')
      end
  end.

(** [n] epochs, each followed by a [reset]. *)
Fixpoint it_epochs {I} `{DataIter I} (n fuel : nat) (s : I) : option (list (list DataBatch) * I) :=
  match n with
  | O => Some ([], s)
  | S n =>
      '(bs, e, s1) ← it_drain fuel s;
      match e, it_reset s1 with
      | StopIteration, (Ok _, s2) => '(rest, s3) ← it_epochs n fuel s2; Some (bs :: rest, s3)
      | _, _ => None
      end
  end.

(** ** The sources of an [NDArrayIter] *)

Notation source := (string * NDArray)%type.

(** What can be given as data or label. *)
Inductive data_arg :=
  | DNone
  | DArray (a : NDArray)
  | DList (l : list NDArray)
  | DDict (d : list source)
  | DOther.

Definition name_le (x y : source) : Prop := String.leb x.1 y.1 = true.
#[export] Instance name_le_dec : RelDecision name_le.
Proof. intros x y. unfold name_le. apply _. Defined.

(** ['_%d_%s' % (i, name)] *)
Definition indexed_name (name : string) (i : nat) : string :=
  ("_" +:+ pretty (N.of_nat i) +:+ "_" +:+ name)%string.

Definition _init_data (data : data_arg) (allow_empty : bool) (default_name : string)
  : result (list source) :=
  let from_list (l : list NDArray) :=
    _ ← py_assert (allow_empty || (0 <? py_len l));
    match l with
    | [d] => Ok [(default_name, d)]
    | _ => Ok (imap (fun i d => (indexed_name default_name i, d)) l)
    end in
  items ← match data with
          | DNone => if allow_empty then from_list [] else Raise AssertionError
          | DArray a => from_list [a]
          | DList l => from_list l
          | DDict d => Ok d
          | DOther => Raise TypeError
          end;
  Ok (merge_sort name_le items).

(** [array(v.asnumpy()[idx], v.context)] for every source. *)
Definition _getdata_by_idx (data : list source) (idx : list Z) : result (list source) :=
  mapR (fun x => rows ← mapR (py_index (nd_rows x.2)) idx;
                 Ok (x.1, mkND (nd_ctx x.2) mx_real_t (nd_tail x.2) rows)) data.

(** ** [NDArrayIter] *)

Section NDArrayIter.
Context {Rng : Type} (np_shuffle : Rng -> list Z -> list Z * Rng).

Record NDArrayIter := mkIter {
  n_data : list source;
  n_label : list source;
  n_idx : list Z;
  n_shuffle : bool;
  n_handle : string;
  n_batch_size : Z;
  n_cursor : Z;
  n_num_data : Z;
  n_cache_data : option (list NDArray);
  n_cache_label : option (list NDArray);
  n_rng : Rng;
}.

Definition set_cursor (c : Z) (s : NDArrayIter) : NDArrayIter :=
  {| n_data := n_data s; n_label := n_label s; n_idx := n_idx s; n_shuffle := n_shuffle s;
     n_handle := n_handle s; n_batch_size := n_batch_size s; n_cursor := c;
     n_num_data := n_num_data s; n_cache_data := n_cache_data s; n_cache_label := n_cache_label s;
     n_rng := n_rng s |}.
Definition set_cache (cd cl : option (list NDArray)) (s : NDArrayIter) : NDArrayIter :=
  {| n_data := n_data s; n_label := n_label s; n_idx := n_idx s; n_shuffle := n_shuffle s;
     n_handle := n_handle s; n_batch_size := n_batch_size s; n_cursor := n_cursor s;
     n_num_data := n_num_data s; n_cache_data := cd; n_cache_label := cl; n_rng := n_rng s |}.
Definition set_sources (d l : list source) (idx : list Z) (rng : Rng) (s : NDArrayIter) : NDArrayIter :=
  {| n_data := d; n_label := l; n_idx := idx; n_shuffle := n_shuffle s;
     n_handle := n_handle s; n_batch_size := n_batch_size s; n_cursor := n_cursor s;
     n_num_data := n_num_data s; n_cache_data := n_cache_data s; n_cache_label := n_cache_label s;
     n_rng := rng |}.

(** [_shuffle_data]: the index is shuffled in place and applied to every source. *)
Definition _shuffle_data : M NDArrayIter unit :=
  s ← get;
  let '(idx, rng) := np_shuffle (n_rng s) (n_idx s) in
  _ ← put (set_sources (n_data s) (n_label s) idx rng s);
  d ← lift (_getdata_by_idx (n_data s) idx);
  _ ← modify (set_sources d (n_label s) idx rng);
  l ← lift (_getdata_by_idx (n_label s) idx);
  modify (set_sources d l idx rng).

Definition NDArrayIter_hard_reset : M NDArrayIter unit :=
  s ← get;
  _ ← (if n_shuffle s then _shuffle_data else mret tt);
  modify (fun s => set_cache None None (set_cursor (- n_batch_size s) s)).

Definition NDArrayIter_reset : M NDArrayIter unit :=
  s ← get;
  _ ← (if n_shuffle s then _shuffle_data else mret tt);
  modify (fun s =>
    if str_eqb (n_handle s) "roll_over"
       && (n_num_data s - n_batch_size s <? n_cursor s) && (n_cursor s <? n_num_data s)
    then set_cursor (n_cursor s - n_num_data s - n_batch_size s) s
    else set_cursor (- n_batch_size s) s).

Definition NDArrayIter_init (data label : data_arg) (batch_size : Z) (shuffle : bool)
  (last_batch_handle data_name label_name : string) (rng : Rng) : result NDArrayIter :=
  d ← _init_data data false data_name;
  l ← _init_data label true label_name;
  match d with
  | [] => Raise IndexError
  | x :: _ =>
      let n := nd_len x.2 in
      let s := mkIter d l (py_range n) shuffle last_batch_handle batch_size (- batch_size) n
                 None None rng in
      match NDArrayIter_reset s with
      | (Ok _, s') => Ok (set_cache None None s')
      | (Raise e, _) => Raise e
      end
  end.

Definition provide_desc (batch_size : Z) (x : source) : DataDesc :=
  DataDesc_new x.1 (batch_size :: nd_tail x.2) (Some (nd_dtype x.2)).
Definition NDArrayIter_provide_data (s : NDArrayIter) : list DataDesc :=
  map (provide_desc (n_batch_size s)) (n_data s).
Definition NDArrayIter_provide_label (s : NDArrayIter) : list DataDesc :=
  map (provide_desc (n_batch_size s)) (n_label s).

Definition NDArrayIter_iter_next : M NDArrayIter bool :=
  _ ← modify (fun s => set_cursor (n_cursor s + n_batch_size s) s);
  s ← get;
  mret (n_cursor s <? n_num_data s).

Definition _getdata (data_source : list source) (start stop : option Z) : result (list NDArray) :=
  _ ← py_assert (bool_decide (start ≠ None) || bool_decide (stop ≠ None));
  let b := default 0 start in
  let e := match stop with
           | Some e => e
           | None => match data_source with x :: _ => nd_len x.2 | [] => 0 end
           end in
  mapR (fun x => _slice x.2 (Some b) (Some e)) data_source.

(** [_concat]: the lists have equal lengths, so its last branch is never taken. *)
Definition _concat (first second : list NDArray) : result (list NDArray) :=
  _ ← py_assert (Nat.eqb (length first) (length second));
  mapR (fun p => concat0 p.1 p.2) (zip first second).

Definition _batchify (data_source : list source) : M NDArrayIter (list NDArray) :=
  s ← get;
  _ ← massert (n_cursor s <? n_num_data s);
  if str_eqb (n_handle s) "roll_over" && (- n_batch_size s <? n_cursor s) && (n_cursor s <? 0) then
    (_ ← massert (bool_decide (n_cache_data s ≠ None) || bool_decide (n_cache_label s ≠ None));
     let cache := match n_cache_data s with Some c => c | None => default [] (n_cache_label s) end in
     second ← lift (_getdata data_source None (Some (n_cursor s + n_batch_size s)));
     _ ← put (match n_cache_data s with
              | Some _ => set_cache None (n_cache_label s) s
              | None => set_cache None None s
              end);
     lift (_concat cache second))
  else if str_eqb (n_handle s) "pad" && (n_num_data s <? n_cursor s + n_batch_size s) then
    (let pad := n_batch_size s - n_num_data s + n_cursor s in
     first ← lift (_getdata data_source (Some (n_cursor s)) None);
     second ← lift (_getdata data_source None (Some pad));
     lift (_concat first second))
  else
    (let end_idx := if n_cursor s + n_batch_size s <? n_num_data s
                    then n_cursor s + n_batch_size s else n_num_data s in
     lift (_getdata data_source (Some (n_cursor s)) (Some end_idx))).

Definition getdata : M NDArrayIter (list NDArray) := s ← get; _batchify (n_data s).
Definition getlabel : M NDArrayIter (list NDArray) := s ← get; _batchify (n_label s).

Definition getpad (s : NDArrayIter) : Z :=
  if str_eqb (n_handle s) "pad" && (n_num_data s <? n_cursor s + n_batch_size s)
  then n_cursor s + n_batch_size s - n_num_data s
  else if str_eqb (n_handle s) "roll_over" && (- n_batch_size s <? n_cursor s) && (n_cursor s <? 0)
  then - n_cursor s
  else 0.

Definition NDArrayIter_next : M NDArrayIter DataBatch :=
  more ← NDArrayIter_iter_next;
  if negb more then raise StopIteration
  else
    (data ← getdata;
     label ← getlabel;
     x ← lift (py_index data 0);
     s ← get;
     if negb (nd_len x =? n_batch_size s) then
       (_ ← put (set_cache (Some data) (Some label) s); raise StopIteration)
     else mret (mkBatch data label (getpad s) None None None None)).

#[export] Instance NDArrayIter_DataIter : DataIter NDArrayIter := {
  it_next := NDArrayIter_next;
  it_reset := NDArrayIter_reset;
  it_provide_data := NDArrayIter_provide_data;
  it_provide_label := NDArrayIter_provide_label;
}.
End NDArrayIter.

(** ** [ResizeIter] *)

Record ResizeIter (I : Type) := mkResize {
  r_iter : I;
  r_size : Z;
  r_reset_internal : bool;
  r_cur : Z;
  r_batch : option DataBatch;
}.
Arguments mkResize {I}.
Arguments r_iter {I}. Arguments r_size {I}. Arguments r_reset_internal {I}.
Arguments r_cur {I}. Arguments r_batch {I}.

Section ResizeIter.
Context {I : Type} `{DataIter I}.

Definition ResizeIter_init (it : I) (size : Z) (reset_internal : bool) : ResizeIter I :=
  mkResize it size reset_internal 0 None.

Definition with_iter (s : ResizeIter I) (it : I) : ResizeIter I :=
  mkResize it (r_size s) (r_reset_internal s) (r_cur s) (r_batch s).

Definition ResizeIter_reset : M (ResizeIter I) unit := fun s =>
  let s := mkResize (r_iter s) (r_size s) (r_reset_internal s) 0 (r_batch s) in
  if r_reset_internal s
  then let '(r, it) := it_reset (r_iter s) in (r, with_iter s it)
  else (Ok tt, s).

(** [next] of the inner iterator, restarting it once when it is exhausted. *)
Definition next_or_restart : M I DataBatch := fun it =>
  match it_next it with
  | (Raise StopIteration, it1) =>
      match it_reset it1 with
      | (Ok _, it2) => it_next it2
      | (Raise e, it2) => (Raise e, it2)
      end
  | r => r
  end.

Definition ResizeIter_iter_next : M (ResizeIter I) bool := fun s =>
  if r_cur s =? r_size s then (Ok false, s)
  else
    match next_or_restart (r_iter s) with
    | (Ok b, it) => (Ok true, mkResize it (r_size s) (r_reset_internal s) (r_cur s + 1) (Some b))
    | (Raise e, it) => (Raise e, with_iter s it)
    end.

(** [DataIter.next] with the accessors of [ResizeIter]: the new batch keeps data,
    label, pad and index of the current one. *)
Definition ResizeIter_next : M (ResizeIter I) DataBatch :=
  more ← ResizeIter_iter_next;
  if (more : bool) then
    (s ← get;
     match r_batch s with
     | Some b => mret (mkBatch (b_data b) (b_label b) (b_pad b) (b_index b) None None None)
     | None => raise TypeError
     end)
  else raise StopIteration.

#[export] Instance ResizeIter_DataIter : DataIter (ResizeIter I) := {
  it_next := ResizeIter_next;
  it_reset := ResizeIter_reset;
  it_provide_data s := it_provide_data (r_iter s);
  it_provide_label s := it_provide_label (r_iter s);
}.
End ResizeIter.

(** ** One call of [NDArrayIter.next] *)

Section Next.
Context {Rng : Type} (s0 : NDArrayIter (Rng := Rng)).
Notation n := (n_num_data s0).
Notation b := (n_batch_size s0).

(** The iterator with another cursor and other caches; nothing else changes during
    an epoch. *)
Definition at_ (c : Z) (cd cl : option (list NDArray)) : NDArrayIter :=
  set_cache cd cl (set_cursor c s0).

Lemma at_eta : s0 = at_ (n_cursor s0) (n_cache_data s0) (n_cache_label s0).
Proof. unfold at_, set_cache, set_cursor. by destruct s0. Qed.

Record iter_wf : Prop := {
  wf_batch : 0 < b;
  wf_data : Forall (fun x => nd_len x.2 = n) (n_data s0);
  wf_label : Forall (fun x => nd_len x.2 = n) (n_label s0);
  wf_source : n_data s0 ≠ [];
}.
Hypothesis wf : iter_wf.

(** The rows [rows] laid out as the array [x]. *)
Definition with_rows (x : NDArray) (rows : list (list Z)) : NDArray :=
  mkND (nd_ctx x) (nd_dtype x) (nd_tail x) rows.
Definition slices (l : list source) (i j : Z) : list NDArray :=
  map (fun x => with_rows x.2 (py_slice (nd_rows x.2) i j)) l.

Lemma slice_in_range x i j :
  nd_len x = n -> 0 <= i < n -> i <= j <= n ->
  _slice x (Some i) (Some j) = Ok (with_rows x (py_slice (nd_rows x) i j)).
Proof.
  intros <- Hi Hj. by apply slice_in_bounds.
Qed.

Lemma getdata_slices l i j :
  Forall (fun x => nd_len x.2 = n) l -> 0 <= i < n -> i <= j <= n ->
  _getdata l (Some i) (Some j) = Ok (slices l i j) /\
  (i = 0 -> _getdata l None (Some j) = Ok (slices l i j)) /\
  (j = n -> _getdata l (Some i) None = Ok (slices l i j)).
Proof.
  intros Hl Hi Hj. rewrite Forall_forall in Hl.
  assert (mapR (fun x : source => _slice x.2 (Some i) (Some j)) l = Ok (slices l i j)) as Hm.
  { apply mapR_ok. intros x Hx. apply slice_in_range; auto. }
  unfold _getdata. simpl. split_and!; [done|by intros ->|]. intros ->.
  destruct l as [|x l]; [done|]. simpl default. rewrite (Hl x) by apply list_elem_of_here. exact Hm.
Qed.

Lemma getdata_past l j :
  Forall (fun x => nd_len x.2 = n) l -> l ≠ [] -> 0 < n < j ->
  _getdata l None (Some j) = Raise IndexError.
Proof.
  intros Hl Hne Hj. destruct l as [|x l]; [done|]. apply Forall_cons in Hl as [Hx _].
  unfold _getdata. simpl. unfold _slice. rewrite Hx, get_index_range_step1 by lia.
  unfold start_ok, stop_ok. rewrite (proj2 (Z.leb_gt j n)) by lia. by rewrite !andb_false_r.
Qed.

Definition joined (first second : list NDArray) : list NDArray :=
  zip_with (fun x y => with_rows x (nd_rows x ++ nd_rows y)) first second.

(** Arrays that can be joined. *)
Definition same_kind (x y : NDArray) : Prop := nd_tail x = nd_tail y /\ nd_dtype x = nd_dtype y.

Lemma concat_joined first second :
  Forall2 same_kind first second ->
  _concat first second = Ok (joined first second).
Proof.
  intros Hf. unfold _concat. rewrite (Forall2_length _ _ _ Hf), Nat.eqb_refl. cbn.
  erewrite (mapR_ok _ (fun p => with_rows p.1 (nd_rows p.1 ++ nd_rows p.2))).
  - f_equal. unfold joined. clear. revert second.
    induction first as [|x l IH]; intros [|y k]; cbn; f_equal; auto.
  - intros [x y] Hxy%list_elem_of_lookup. destruct Hxy as [i Hi]. apply lookup_zip_with_Some in Hi.
    destruct Hi as (x' & y' & [= -> ->] & Hx & Hy). unfold concat0. cbn.
    destruct (Forall2_lookup_lr _ _ _ _ _ _ Hf Hx Hy) as [Ht Hd]. by rewrite !bool_decide_eq_true_2 by done.
Qed.

Lemma slices_first i j :
  0 <= i -> i <= j <= n ->
  exists x l, slices (n_data s0) i j = x :: l /\ nd_len x = j - i.
Proof.
  intros Hi Hj. destruct wf as [_ Hd _ Hne]. destruct (n_data s0) as [|x l]; [done|].
  apply Forall_cons in Hd as [Hx _]. simpl. eexists _, _. split; [done|].
  unfold nd_len, with_rows in *. cbn. apply py_slice_len; lia.
Qed.

(** The three branches of [_batchify]. *)
Lemma batchify_normal l c cd cl :
  Forall (fun x => nd_len x.2 = n) l -> 0 <= c < n ->
  (n_handle s0 = "pad"%string -> c + b <= n) ->
  _batchify l (at_ c cd cl) = (Ok (slices l c (Z.min (c + b) n)), at_ c cd cl).
Proof.
  intros Hl Hc Hpad. pose proof (wf_batch wf) as Hb. unfold _batchify. rewrite bind_M. cbn [get].
  rewrite bind_M. unfold massert. cbn [n_cursor n_num_data n_handle n_batch_size at_ set_cache set_cursor].
  rewrite (proj2 (Z.ltb_lt _ _)) by lia. cbn [py_assert].
  rewrite (proj2 (Z.ltb_ge c 0)) by lia. rewrite andb_false_r.
  assert (str_eqb (n_handle s0) "pad" && (n <? c + b) = false) as ->.
  { unfold str_eqb. case_bool_decide as E; [|done]. specialize (Hpad E). bool_cases. }
  unfold lift. replace (if c + b <? n then c + b else n) with (Z.min (c + b) n) by bool_cases.
  f_equal. apply getdata_slices; [done|lia|lia].
Qed.

Lemma batchify_pad l c cd cl :
  Forall (fun x => nd_len x.2 = n) l -> n_handle s0 = "pad"%string ->
  0 <= c < n -> n < c + b <= n + n ->
  _batchify l (at_ c cd cl) =
    (Ok (joined (slices l c n) (slices l 0 (c + b - n))), at_ c cd cl).
Proof.
  intros Hl Hh Hc Hpad. unfold _batchify. rewrite bind_M. cbn [get].
  rewrite bind_M. unfold massert. cbn [n_cursor n_num_data n_handle n_batch_size at_ set_cache set_cursor].
  rewrite (proj2 (Z.ltb_lt _ _)) by lia. cbn [py_assert]. rewrite Hh. cbn [str_eqb andb].
  change (str_eqb "pad" "roll_over") with false. change (str_eqb "pad" "pad") with true. cbn [andb].
  rewrite (proj2 (Z.ltb_lt n _)) by lia. rewrite !bind_M. unfold lift.
  replace (b - n + c) with (c + b - n) by lia.
  destruct (getdata_slices l c n Hl ltac:(lia) ltac:(lia)) as (_ & _ & ->); [|done].
  rewrite bind_M. destruct (getdata_slices l 0 (c + b - n) Hl ltac:(lia) ltac:(lia)) as (_ & -> & _); [|done].
  f_equal. apply concat_joined. unfold slices. apply Forall2_fmap, Forall_Forall2_diag, Forall_forall. done.
Qed.

Lemma batchify_roll l c cd cl :
  Forall (fun x => nd_len x.2 = n) l -> n_handle s0 = "roll_over"%string ->
  - b < c < 0 -> 0 < n -> c + b <= n -> (cd ≠ None \/ cl ≠ None) ->
  let cache := match cd with Some x => x | None => default [] cl end in
  Forall2 (fun x y => same_kind x y.2) cache l ->
  _batchify l (at_ c cd cl) =
    (Ok (joined cache (slices l 0 (c + b))),
     match cd with Some _ => at_ c None cl | None => at_ c None None end).
Proof.
  intros Hl Hh Hc Hn Hle Hsome cache Hcache. unfold _batchify. rewrite bind_M. cbn [get].
  rewrite bind_M. unfold massert.
  cbn [n_cursor n_num_data n_handle n_batch_size n_cache_data n_cache_label at_ set_cache set_cursor].
  rewrite (proj2 (Z.ltb_lt c n)) by lia. cbn [py_assert]. rewrite Hh.
  change (str_eqb "roll_over" "roll_over") with true. cbn [andb].
  rewrite (proj2 (Z.ltb_lt (- b) c)), (proj2 (Z.ltb_lt c 0)) by lia. cbn [andb].
  assert (bool_decide (cd ≠ None) || bool_decide (cl ≠ None) = true) as E.
  { apply orb_true_iff. rewrite !bool_decide_eq_true. done. }
  rewrite bind_M. rewrite E. cbn [py_assert]. rewrite bind_M. unfold lift.
  destruct (getdata_slices l 0 (c + b) Hl ltac:(lia) ltac:(lia)) as (_ & -> & _); [|done].
  rewrite bind_M. unfold put. fold cache. rewrite (concat_joined cache).
  - destruct cd; done.
  - unfold slices. apply Forall2_fmap_r. exact Hcache.
Qed.

Lemma iter_next_at c cd cl :
  NDArrayIter_iter_next (at_ c cd cl) = (Ok (c + b <? n), at_ (c + b) cd cl).
Proof. reflexivity. Qed.

(** [next] in terms of the two calls of [_batchify]. *)
Lemma next_unfold c cd cl cd1 cl1 cd2 cl2 x data label :
  c + b < n ->
  _batchify (n_data s0) (at_ (c + b) cd cl) = (Ok (x :: data), at_ (c + b) cd1 cl1) ->
  _batchify (n_label s0) (at_ (c + b) cd1 cl1) = (Ok label, at_ (c + b) cd2 cl2) ->
  NDArrayIter_next (at_ c cd cl) =
    if nd_len x =? b
    then (Ok (mkBatch (x :: data) label (getpad (at_ (c + b) None None)) None None None None), at_ (c + b) cd2 cl2)
    else (Raise StopIteration, at_ (c + b) (Some (x :: data)) (Some label)).
Proof.
  intros Hc Hd Hl. unfold NDArrayIter_next, getdata, getlabel.
  rewrite bind_M, iter_next_at, (proj2 (Z.ltb_lt _ _)) by lia. cbn [negb].
  rewrite !bind_M. cbn [get n_data at_ set_cache set_cursor]. fold (at_ (c + b) cd cl). rewrite Hd.
  rewrite !bind_M. cbn [get n_label at_ set_cache set_cursor]. fold (at_ (c + b) cd1 cl1). rewrite Hl.
  unfold lift, mbind, M_bind, get. change (py_index (x :: data) 0) with (Ok x). cbn. by destruct (nd_len x =? b).
Qed.

Lemma next_end c cd cl :
  n <= c + b -> NDArrayIter_next (at_ c cd cl) = (Raise StopIteration, at_ (c + b) cd cl).
Proof.
  intros Hc. unfold NDArrayIter_next. by rewrite bind_M, iter_next_at, (proj2 (Z.ltb_ge _ _)) by lia.
Qed.

(** The padding reported with the batch at a cursor. *)
Lemma getpad_at c cd cl :
  getpad (at_ c cd cl) =
    (if str_eqb (n_handle s0) "pad" then Z.max 0 (c + b - n)
     else if str_eqb (n_handle s0) "roll_over" && (- b <? c) && (c <? 0) then - c else 0).
Proof.
  unfold getpad. cbn. unfold str_eqb. case_bool_decide as E; [rewrite E|]; cbn; bool_cases.
Qed.

(** A batch that lies inside the data. *)
Lemma next_full c cd cl :
  0 <= c + b -> c + b + b <= n ->
  NDArrayIter_next (at_ c cd cl) =
    (Ok (mkBatch (slices (n_data s0) (c + b) (c + b + b)) (slices (n_label s0) (c + b) (c + b + b))
           0 None None None None), at_ (c + b) cd cl).
Proof.
  intros Hc Hle. destruct wf as [Hb Hd Hl _].
  destruct (slices_first (c + b) (c + b + b)) as (x & l & Ex & Hx); [lia|lia|].
  pose proof (batchify_normal (n_data s0) (c + b) cd cl Hd ltac:(lia) ltac:(lia)) as B1.
  pose proof (batchify_normal (n_label s0) (c + b) cd cl Hl ltac:(lia) ltac:(lia)) as B2.
  rewrite Z.min_l in B1, B2 by lia. rewrite Ex in B1 |- *.
  rewrite (next_unfold c cd cl cd cl cd cl x l _ ltac:(lia) B1 B2).
  rewrite (proj2 (Z.eqb_eq _ _)) by lia. rewrite getpad_at, Z.max_l by lia.
  by rewrite (proj2 (Z.ltb_ge _ 0)), andb_false_r by lia; destruct (str_eqb _ _).
Qed.

(** An incomplete last batch is cached unless it is padded. *)
Lemma next_partial c cd cl :
  n_handle s0 ≠ "pad"%string -> 0 <= c + b < n -> n < c + b + b ->
  NDArrayIter_next (at_ c cd cl) =
    (Raise StopIteration,
     at_ (c + b) (Some (slices (n_data s0) (c + b) n)) (Some (slices (n_label s0) (c + b) n))).
Proof.
  intros Hh Hc Hle. destruct wf as [Hb Hd Hl _].
  destruct (slices_first (c + b) n) as (x & l & Ex & Hx); [lia|lia|].
  pose proof (batchify_normal (n_data s0) (c + b) cd cl Hd ltac:(lia) ltac:(done)) as B1.
  pose proof (batchify_normal (n_label s0) (c + b) cd cl Hl ltac:(lia) ltac:(done)) as B2.
  rewrite Z.min_r in B1, B2 by lia. rewrite Ex in B1 |- *.
  rewrite (next_unfold c cd cl cd cl cd cl x l _ ltac:(lia) B1 B2).
  by rewrite (proj2 (Z.eqb_neq _ _)) by lia.
Qed.

Lemma joined_first l l' x y :
  exists z r, joined (x :: l) (y :: l') = z :: r /\ nd_len z = nd_len x + nd_len y.
Proof. eexists _, _. split; [reflexivity|]. unfold nd_len, with_rows. cbn. apply py_len_app. Qed.

(** The last batch in [pad] mode wraps around. *)
Lemma next_pad c cd cl :
  n_handle s0 = "pad"%string -> 0 <= c + b < n -> n < c + b + b <= n + n ->
  let wrap l := joined (slices l (c + b) n) (slices l 0 (c + b + b - n)) in
  NDArrayIter_next (at_ c cd cl) =
    (Ok (mkBatch (wrap (n_data s0)) (wrap (n_label s0)) (c + b + b - n) None None None None),
     at_ (c + b) cd cl).
Proof.
  intros Hh Hc Hle wrap. destruct wf as [Hb Hd Hl _].
  destruct (slices_first (c + b) n) as (x & l & Ex & Hx); [lia|lia|].
  destruct (slices_first 0 (c + b + b - n)) as (y & k & Ey & Hy); [lia|lia|].
  pose proof (batchify_pad (n_data s0) (c + b) cd cl Hd Hh Hc Hle) as B1.
  pose proof (batchify_pad (n_label s0) (c + b) cd cl Hl Hh Hc Hle) as B2.
  unfold wrap. rewrite Ex, Ey in B1 |- *.
  destruct (joined_first l k x y) as (z & r & Ez & Hz). rewrite Ez in B1 |- *.
  rewrite (next_unfold c cd cl cd cl cd cl z r _ ltac:(lia) B1 B2).
  rewrite (proj2 (Z.eqb_eq _ _)) by lia. rewrite getpad_at, Hh.
  by rewrite Z.max_r by lia.
Qed.

(** The first batch after a roll-over starts with the cached rows. *)
Lemma next_roll c cd cl k :
  n_handle s0 = "roll_over"%string -> - b < c + b < 0 -> c + b + b <= n -> k = - (c + b) ->
  Forall2 (fun x y => same_kind x y.2 /\ nd_len x = k) cd (n_data s0) ->
  Forall2 (fun x y => same_kind x y.2) cl (n_label s0) ->
  NDArrayIter_next (at_ c (Some cd) (Some cl)) =
    (Ok (mkBatch (joined cd (slices (n_data s0) 0 (c + b + b)))
                 (joined cl (slices (n_label s0) 0 (c + b + b))) k None None None None),
     at_ (c + b) None None).
Proof.
  intros Hh Hc Hle -> Hcd Hcl. destruct wf as [Hb Hd Hl Hne].
  assert (Forall2 (fun x y => same_kind x y.2) cd (n_data s0)) as Hcd'.
  { eapply Forall2_impl; [exact Hcd|]. by intros ?? [? _]. }
  destruct (slices_first 0 (c + b + b)) as (y & l & Ey & Hy); [lia|lia|].
  pose proof (batchify_roll (n_data s0) (c + b) (Some cd) (Some cl) Hd Hh Hc ltac:(lia) Hle
    ltac:(by left) Hcd') as B1.
  pose proof (batchify_roll (n_label s0) (c + b) None (Some cl) Hl Hh Hc ltac:(lia) Hle
    ltac:(by right) Hcl) as B2.
  cbn [default] in B2. rewrite Ey in B1 |- *.
  destruct cd as [|x cd]; [by inversion Hcd; congruence|].
  assert (nd_len x = - (c + b)) as Hx by (by inversion Hcd as [|???? [_ ?]]; subst).
  destruct (joined_first cd l x y) as (z & r & Ez & Hz). rewrite Ez in B1 |- *.
  rewrite (next_unfold c _ _ None (Some cl) None None z r _ ltac:(lia) B1 B2).
  rewrite (proj2 (Z.eqb_eq _ _)) by lia. rewrite getpad_at, Hh.
  cbn. by rewrite !(proj2 (Z.ltb_lt _ _)) by lia.
Qed.
End Next.

(** ** An epoch of [NDArrayIter] *)

Section Epoch.
Context {Rng : Type} (s0 : NDArrayIter (Rng := Rng)).
Notation n := (n_num_data s0).
Notation b := (n_batch_size s0).
Notation padding := (str_eqb (n_handle s0) "pad").

(** The rows an epoch draws its batches from: those rolled over from the previous
    epoch, the rows of the source, and once more the source in [pad] mode. *)
Definition feed (x : NDArray) (p : list (list Z)) : list (list Z) :=
  p ++ nd_rows x ++ (if padding then nd_rows x else []).

Definition spec_arrays (l : list source) (ps : list (list (list Z))) (i : Z) : list NDArray :=
  zip_with (fun x p => with_rows x.2 (batch_at b (feed x.2 p) i)) l ps.

Definition spec_count (k : Z) : Z := if padding then (n + b - 1) / b else (k + n) / b.

Definition spec_pad (k i : Z) : Z :=
  if padding then Z.max 0 ((i + 1) * b - n) else if i =? 0 then k else 0.

(** The [i]-th batch of an epoch that starts with [k] rolled-over rows per source. *)
Definition spec_batch (k : Z) (pd pl : list (list (list Z))) (i : Z) : DataBatch :=
  mkBatch (spec_arrays (n_data s0) pd i) (spec_arrays (n_label s0) pl i) (spec_pad k i) None None None None.

Definition cached (l : list source) (ps : list (list (list Z))) : list NDArray :=
  zip_with (fun x p => with_rows x.2 p) l ps.

(** An iterator about to start an epoch with the rows [pd], [pl] rolled over. *)
Record epoch_ready (k : Z) (pd pl : list (list (list Z))) : Prop := {
  er_cursor : n_cursor s0 = - k - b;
  er_k : 0 <= k < b;
  er_mode : k = 0 \/ n_handle s0 = "roll_over"%string;
  er_pd : length pd = length (n_data s0) /\ Forall (fun p => py_len p = k) pd;
  er_pl : length pl = length (n_label s0) /\ Forall (fun p => py_len p = k) pl;
  er_cache : 0 < k -> n_cache_data s0 = Some (cached (n_data s0) pd) /\
                      n_cache_label s0 = Some (cached (n_label s0) pl);
}.

(** Batches are not so large that a slice of an NDArray runs past its end. *)
Definition batch_fits : Prop :=
  (n_handle s0 = "pad"%string -> b <= n + n) /\ (n_handle s0 = "roll_over"%string -> b <= n).

Hypothesis wf : iter_wf s0.
Hypothesis fits : batch_fits.

Lemma padding_handle : padding = true <-> n_handle s0 = "pad"%string.
Proof. unfold str_eqb. apply bool_decide_eq_true. Qed.

Lemma spec_arrays_slices l ps k i :
  length ps = length l -> Forall (fun p => py_len p = k) ps ->
  Forall (fun x => nd_len x.2 = n) l ->
  0 < b -> 0 <= i * b - k -> (i + 1) * b - k <= n ->
  slices l (i * b - k) (i * b - k + b) = spec_arrays l ps i.
Proof.
  intros Hlen Hk Hl Hb Hi Hle. unfold slices, spec_arrays. revert ps Hlen Hk.
  induction Hl as [|x l Hx Hl IH]; intros [|p ps] Hlen Hk; try done.
  apply Forall_cons in Hk as [Hp Hk]. simpl. f_equal; [|apply IH; [simpl in Hlen; lia|done]].
  unfold batch_at, feed. f_equal. rewrite py_slice_app_r by nia. rewrite Hp.
  unfold nd_len in Hx. pose proof (py_len_nonneg (nd_rows x.2)).
  replace ((i + 1) * b - k) with (i * b - k + b) by lia.
  rewrite !py_slice_in by (rewrite ?py_len_app; destruct padding; autorewrite with py; lia).
  rewrite drop_app_le by (unfold py_len in *; lia).
  rewrite take_app_le; [done|]. rewrite length_drop. unfold py_len in *. lia.
Qed.

Lemma spec_arrays_pad l ps i :
  length ps = length l -> Forall (fun p => py_len p = 0) ps ->
  Forall (fun x => nd_len x.2 = n) l -> padding = true ->
  0 <= i * b <= n -> n <= i * b + b <= n + n ->
  joined (slices l (i * b) n) (slices l 0 (i * b + b - n)) = spec_arrays l ps i.
Proof.
  intros Hlen Hk Hl Hpad Hi Hle. unfold slices, joined, spec_arrays. revert ps Hlen Hk.
  induction Hl as [|x l Hx Hl IH]; intros [|p ps] Hlen Hk; try done.
  apply Forall_cons in Hk as [Hp Hk]. cbn. f_equal; [|apply IH; [simpl in Hlen; lia|done]].
  unfold with_rows, batch_at, feed. f_equal. cbn. rewrite Hpad.
  destruct p as [|r p]; [|rewrite py_len_cons in Hp; pose proof (py_len_nonneg p); lia]. cbn.
  unfold nd_len in Hx. replace ((i + 1) * b) with (i * b + b) by lia.
  rewrite (py_slice_snoc (nd_rows x.2)) by lia. by rewrite Hx.
Qed.

Lemma spec_arrays_roll l ps k :
  length ps = length l -> Forall (fun p => py_len p = k) ps ->
  Forall (fun x => nd_len x.2 = n) l -> padding = false -> 0 <= k <= b -> b - k <= n ->
  joined (cached l ps) (slices l 0 (b - k)) = spec_arrays l ps 0.
Proof.
  intros Hlen Hk Hl Hpad Hkb Hle. unfold slices, joined, cached, spec_arrays. revert ps Hlen Hk.
  induction Hl as [|x l Hx Hl IH]; intros [|p ps] Hlen Hk; try done.
  apply Forall_cons in Hk as [Hp Hk]. cbn. f_equal; [|apply IH; [simpl in Hlen; lia|done]].
  unfold with_rows, batch_at, feed. f_equal. cbn. rewrite Hpad, app_nil_r.
  unfold nd_len in Hx. replace ((0 + 1) * b) with b by lia. replace (0 * b) with 0 by lia.
  pose proof (py_len_nonneg p).
  rewrite (py_slice_snoc p) by lia. by rewrite py_slice_all, Hp.
Qed.

Context (k : Z) (pd pl : list (list (list Z))).
Hypothesis ready : epoch_ready k pd pl.

Lemma count_bounds :
  let m := spec_count k in
  0 <= m /\ if padding then (m - 1) * b < n <= m * b else m * b <= k + n < (m + 1) * b.
Proof.
  pose proof (wf_batch _ wf) as Hb. pose proof (er_k _ _ _ ready) as Hk.
  assert (0 <= n) as Hn.
  { destruct wf as [_ Hd _ Hne]. destruct (n_data s0) as [|x l]; [done|].
    apply Forall_cons in Hd as [<- _]. apply py_len_nonneg. }
  unfold spec_count. cbn zeta. destruct padding.
  - pose proof (Z.div_mod (n + b - 1) b ltac:(lia)). pose proof (Z.mod_pos_bound (n + b - 1) b ltac:(lia)).
    split; [apply Z.div_pos; lia|nia].
  - pose proof (Z.div_mod (k + n) b ltac:(lia)). pose proof (Z.mod_pos_bound (k + n) b ltac:(lia)).
    split; [apply Z.div_pos; lia|nia].
Qed.

Lemma padding_k : padding = true -> k = 0.
Proof. intros Hp%padding_handle. destruct (er_mode _ _ _ ready) as [|E]; [done|congruence]. Qed.

(** The calls of [next] before the last batch number. *)
Lemma next_spec i cd cl :
  0 <= i < spec_count k ->
  (i = 0 -> 0 < k -> cd = Some (cached (n_data s0) pd) /\ cl = Some (cached (n_label s0) pl)) ->
  exists cd' cl', NDArrayIter_next (at_ s0 (i * b - k - b) cd cl) =
    (Ok (spec_batch k pd pl i), at_ s0 ((i + 1) * b - k - b) cd' cl').
Proof.
  intros Hi Hc. pose proof (wf_batch _ wf) as Hb. pose proof count_bounds as [Hm0 Hm].
  destruct ready as [_ Hk Hmode [Hpd1 Hpd2] [Hpl1 Hpl2] _].
  replace ((i + 1) * b - k - b) with (i * b - k - b + b) by lia.
  unfold spec_batch, spec_pad. destruct padding eqn:Ep.
  - rewrite (padding_k Ep) in *. apply padding_handle in Ep as Eh. rewrite Z.sub_0_r.
    destruct (decide ((i + 1) * b <= n)) as [Hle|Hgt].
    + rewrite next_full by (done || nia). rewrite Z.max_l by lia. exists cd, cl.
      rewrite <- (spec_arrays_slices (n_data s0) pd 0 i), <- (spec_arrays_slices (n_label s0) pl 0 i)
        by (done || apply wf || lia).
      rewrite !Z.sub_0_r. replace (i * b - b + b) with (i * b) by lia. done.
    + destruct fits as [Hf _]. specialize (Hf Eh). assert (i * b < n) by nia.
      assert (i * b + b <= n + n) by (destruct (decide (i = 0)) as [->|]; [lia|nia]).
      rewrite (next_pad s0 wf) by (done || nia). exists cd, cl. rewrite Z.max_r by lia.
      replace (i * b - b + b) with (i * b) by lia.
      rewrite (spec_arrays_pad (n_data s0) pd), (spec_arrays_pad (n_label s0) pl)
        by (done || apply wf || nia). do 3 f_equal. lia.
  - replace (i * b - k - b + b) with (i * b - k) by lia.
    destruct (decide (0 <= i * b - k)) as [Hge|Hlt].
    + replace (i * b - k - b) with (i * b - k - b) by lia. rewrite next_full by (done || nia).
      replace (i * b - k - b + b) with (i * b - k) by lia.
      rewrite (spec_arrays_slices (n_data s0) pd k i), (spec_arrays_slices (n_label s0) pl k i)
        by (done || apply wf || nia).
      exists cd, cl. do 3 f_equal. destruct (Z.eqb_spec i 0); [nia|done].
    + assert (i = 0) as -> by nia. destruct Hc as [-> ->]; [done|lia|].
      destruct Hmode as [|Eh]; [lia|]. destruct fits as [_ Hf]. specialize (Hf Eh).
      rewrite (next_roll s0 wf _ _ _ k); try done; try lia.
      * exists None, None. replace (0 * b - k - b + b + b) with (b - k) by lia.
        rewrite !spec_arrays_roll by (done || apply wf || lia).
        replace (0 * b - k - b + b) with (0 * b - k) by lia. done.
      * unfold cached. apply Forall2_same_length_lookup_2.
        { rewrite length_zip_with. lia. }
        intros j x y Hx Hy. apply lookup_zip_with_Some in Hx as (y' & p & -> & Hy' & Hp).
        simplify_eq. split; [done|]. unfold nd_len, with_rows. cbn.
        rewrite Forall_forall in Hpd2. apply Hpd2. by eapply list_elem_of_lookup_2.
      * unfold cached. apply Forall2_same_length_lookup_2.
        { rewrite length_zip_with. lia. }
        intros j x y Hx Hy. apply lookup_zip_with_Some in Hx as (y' & p & -> & Hy' & Hp).
        by simplify_eq.
Qed.

(** The call that ends the epoch, and what it leaves behind. *)
Lemma stop_spec cd cl :
  exists cd' cl', NDArrayIter_next (at_ s0 (spec_count k * b - k - b) cd cl) =
    (Raise StopIteration, at_ s0 (spec_count k * b - k) cd' cl') /\
    (spec_count k * b - k < n -> cd' = Some (slices (n_data s0) (spec_count k * b - k) n) /\
                                 cl' = Some (slices (n_label s0) (spec_count k * b - k) n)).
Proof.
  pose proof (wf_batch _ wf) as Hb. pose proof count_bounds as [Hm0 Hm].
  replace (spec_count k * b - k) with (spec_count k * b - k - b + b) by lia.
  destruct (decide (spec_count k * b - k < n)) as [Hlt|Hge].
  - destruct padding eqn:Ep; [pose proof (padding_k Ep); nia|].
    assert (0 <= spec_count k * b - k).
    { destruct (er_mode _ _ _ ready) as [->|Eh]; [nia|]. destruct fits as [_ Hf]. specialize (Hf Eh).
      pose proof (er_k _ _ _ ready). assert (0 < spec_count k) by nia. nia. }
    rewrite next_partial by (done || lia || (intros ?%padding_handle; congruence)).
    replace (spec_count k * b - k - b + b - b + b) with (spec_count k * b - k - b + b) by lia.
    eexists _, _. split; [done|]. done.
  - rewrite next_end by lia. exists cd, cl.
    replace (spec_count k * b - k - b + b - b + b) with (spec_count k * b - k - b + b) by lia.
    split; [done|lia].
Qed.

Context (np_shuffle : Rng -> list Z -> list Z * Rng).
#[local] Instance epoch_iter : DataIter NDArrayIter := NDArrayIter_DataIter np_shuffle.

Lemma drain_spec m : forall i cd cl,
  0 <= i -> i + Z.of_nat m = spec_count k ->
  (i = 0 -> 0 < k -> cd = Some (cached (n_data s0) pd) /\ cl = Some (cached (n_label s0) pl)) ->
  exists cd' cl', it_drain (S m) (at_ s0 (i * b - k - b) cd cl) =
    Some (map (spec_batch k pd pl) (range_from i 1 m), StopIteration,
          at_ s0 (spec_count k * b - k) cd' cl') /\
    (spec_count k * b - k < n -> cd' = Some (slices (n_data s0) (spec_count k * b - k) n) /\
                                 cl' = Some (slices (n_label s0) (spec_count k * b - k) n)).
Proof.
  induction m as [|m IH]; intros i cd cl Hi Hm Hc.
  - replace i with (spec_count k) by lia. destruct (stop_spec cd cl) as (cd' & cl' & E & Hl).
    exists cd', cl'. split; [|done]. simpl. by rewrite E.
  - destruct (next_spec i cd cl) as (cd1 & cl1 & E); [lia|done|].
    destruct (IH (i + 1) cd1 cl1) as (cd' & cl' & E' & Hl); [lia|lia|lia|].
    exists cd', cl'. split; [|done].
    change (it_drain (S (S m)) (at_ s0 (i * b - k - b) cd cl)) with
      (match NDArrayIter_next (at_ s0 (i * b - k - b) cd cl) with
       | (Raise e, s') => Some ([], e, s')
       | (Ok x, s') => '(bs, e, s'') ← it_drain (S m) s'; Some (x :: bs, e, s'')
       end).
    rewrite E, E'. simpl. do 3 f_equal.
    unfold range_from. cbn [seq map]. f_equal; [f_equal; lia|].
    rewrite <- seq_shift, !map_map. apply map_ext. intros j. f_equal. lia.
Qed.

(** A whole epoch: the batches, and the state it leaves. *)
Lemma epoch_spec :
  exists cd' cl', it_drain (S (Z.to_nat (spec_count k))) s0 =
    Some (map (spec_batch k pd pl) (py_range (spec_count k)), StopIteration,
          at_ s0 (spec_count k * b - k) cd' cl') /\
    (spec_count k * b - k < n -> cd' = Some (slices (n_data s0) (spec_count k * b - k) n) /\
                                 cl' = Some (slices (n_label s0) (spec_count k * b - k) n)).
Proof.
  pose proof count_bounds as [Hm0 _].
  assert (s0 = at_ s0 (0 * b - k - b) (n_cache_data s0) (n_cache_label s0)) as E.
  { replace (0 * b - k - b) with (n_cursor s0) by (rewrite (er_cursor _ _ _ ready); lia). apply at_eta. }
  assert (forall f, it_drain f s0 =
    it_drain f (at_ s0 (0 * b - k - b) (n_cache_data s0) (n_cache_label s0))) as ->
    by (intros; congruence).
  apply drain_spec; [lia|lia|]. intros _ Hk. by apply ready.
Qed.
End Epoch.

(** C7: an epoch of [NDArrayIter] on every setting of [last_batch_handle], when all
    sources have equally many rows ([iter_wf]) and the batch size is at most twice the
    number of rows in [pad] mode and at most that number in [roll_over] mode
    ([batch_fits]; in [pad] mode a larger one raises, [nditer_pad_too_large]): it
    yields exactly the consecutive batches of the rolled-over rows followed by the
    data (followed in [pad] mode by the data again), of every data and label source
    alike, and then raises [StopIteration].  The [pad] of a batch is the number of
    repeated rows at its end in [pad] mode, and in [roll_over] mode the number of
    carried-over rows at the beginning of the first batch ([carried_rows_reported]). *)
Theorem nditer_epoch {Rng} np_shuffle (s : NDArrayIter (Rng := Rng)) k pd pl :
  iter_wf s -> batch_fits s -> epoch_ready s k pd pl ->
  exists s', it_drain (H := NDArrayIter_DataIter np_shuffle) (S (Z.to_nat (spec_count s k))) s =
    Some (map (spec_batch s k pd pl) (py_range (spec_count s k)), StopIteration, s').
Proof.
  intros Hwf Hf Hr. destruct (epoch_spec s Hwf Hf k pd pl Hr np_shuffle) as (cd & cl & E & _). eauto.
Qed.

(** ** Rolling over *)

Lemma drain_more {I} `{DataIter I} f f' (s : I) r :
  (f <= f')%nat -> it_drain f s = Some r -> it_drain f' s = Some r.
Proof.
  revert f' s r. induction f as [|f IH]; intros f' s r Hle E; [done|].
  destruct f' as [|f']; [lia|]. simpl in *. destruct (it_next s) as [[x|e] s1]; [|done].
  destruct (it_drain f s1) as [r1|] eqn:E1; [|done]. rewrite (IH f' s1 r1) by (lia || done). done.
Qed.

(** The rows of the [j]-th data (or label) source over a list of batches. *)
Definition column (arrays : DataBatch -> list NDArray) (j : nat) (bs : list DataBatch) : list (list Z) :=
  concat (map (fun x => match arrays x !! j with Some a => nd_rows a | None => [] end) bs).

Section RollOver.
Context {Rng : Type} (np_shuffle : Rng -> list Z -> list Z * Rng).
#[local] Instance roll_iter : DataIter NDArrayIter := NDArrayIter_DataIter np_shuffle.

(** The rows of the sources from [i] on. *)
Definition tails (l : list source) (i m : Z) : list (list (list Z)) :=
  map (fun x => py_slice (nd_rows x.2) i m) l.

Lemma slices_cached (l : list source) i m : slices l i m = cached l (tails l i m).
Proof. unfold slices, cached, tails. induction l as [|x l IH]; cbn; f_equal; auto. Qed.

Lemma tails_len (l : list source) i m :
  Forall (fun x => nd_len x.2 = m) l -> 0 <= i <= m ->
  length (tails l i m) = length l /\ Forall (fun p => py_len p = m - i) (tails l i m).
Proof.
  intros Hl Hi. unfold tails. split; [apply length_map|]. apply Forall_fmap.
  eapply Forall_impl; [exact Hl|]. intros x Hx. cbn. apply py_slice_len; unfold nd_len in *; lia.
Qed.

(** [reset] between epochs without shuffling. *)
Lemma reset_plain (s : NDArrayIter (Rng := Rng)) :
  n_shuffle s = false ->
  NDArrayIter_reset np_shuffle s =
    (Ok tt, set_cursor (if str_eqb (n_handle s) "roll_over" && (n_num_data s - n_batch_size s <? n_cursor s)
                           && (n_cursor s <? n_num_data s)
                        then n_cursor s - n_num_data s - n_batch_size s else - n_batch_size s) s).
Proof.
  intros Hs. unfold NDArrayIter_reset. rewrite bind_M. cbn [get]. rewrite Hs. rewrite bind_M.
  unfold mret, M_ret, modify. f_equal. by destruct (str_eqb _ _ && _ && _).
Qed.

(** What an epoch without shuffling leaves for the next one. *)
Lemma epoch_next (s : NDArrayIter (Rng := Rng)) k pd pl :
  iter_wf s -> batch_fits s -> epoch_ready s k pd pl ->
  n_handle s = "roll_over"%string -> n_shuffle s = false ->
  let m := spec_count s k in
  let c := m * n_batch_size s - k in
  exists s1 c1 cd cl, it_drain (S (Z.to_nat m)) s = Some (map (spec_batch s k pd pl) (py_range m), StopIteration, s1) /\
    it_reset s1 = (Ok tt, at_ s c1 cd cl) /\
    epoch_ready (at_ s c1 cd cl) (n_num_data s - c) (tails (n_data s) c (n_num_data s)) (tails (n_label s) c (n_num_data s)).
Proof.
  intros Hwf Hf Hr Hh Hs m c.
  destruct (epoch_spec s Hwf Hf k pd pl Hr np_shuffle) as (cd & cl & E & Hl).
  fold m c in E, Hl. pose proof (count_bounds s Hwf k pd pl Hr) as [Hm0 Hm]. fold m in Hm0, Hm.
  pose proof (er_k _ _ _ _ Hr) as Hk. pose proof (wf_batch _ Hwf) as Hb.
  rewrite Hh in Hm. change (str_eqb "roll_over" "pad") with false in Hm. cbn match in Hm.
  destruct Hf as [_ Hf]. specialize (Hf Hh). assert (1 <= m) by nia. assert (0 <= c) by nia.
  exists (at_ s c cd cl), (- (n_num_data s - c) - n_batch_size s), cd, cl. split_and!; [done| |].
  - change (it_reset (at_ s c cd cl)) with (NDArrayIter_reset np_shuffle (at_ s c cd cl)).
    rewrite reset_plain by done. cbn [n_handle n_num_data n_batch_size n_cursor at_ set_cache set_cursor].
    rewrite Hh. change (str_eqb "roll_over" "roll_over") with true. cbn [andb].
    rewrite (proj2 (Z.ltb_lt (n_num_data s - n_batch_size s) c)) by nia. cbn [andb].
    replace (if c <? n_num_data s then c - n_num_data s - n_batch_size s else - n_batch_size s)
      with (- (n_num_data s - c) - n_batch_size s) by (destruct (Z.ltb_spec c (n_num_data s)); nia).
    reflexivity.
  - split; cbn; try done.
    + nia.
    + by right.
    + apply tails_len; [apply Hwf|lia].
    + apply tails_len; [apply Hwf|lia].
    + intros Hlt. rewrite <- !slices_cached. apply Hl. lia.
Qed.

Lemma wf_at (s : NDArrayIter (Rng := Rng)) c cd cl : iter_wf s -> iter_wf (at_ s c cd cl).
Proof. intros [? ? ? ?]. by split. Qed.

Lemma spec_arrays_lookup (s : NDArrayIter (Rng := Rng)) l ps j x p i :
  l !! j = Some x -> ps !! j = Some p ->
  spec_arrays s l ps i !! j = Some (with_rows x.2 (batch_at (n_batch_size s) (feed s x.2 p) i)).
Proof. intros Hx Hp. unfold spec_arrays. rewrite lookup_zip_with, Hx. simpl. by rewrite Hp. Qed.

Lemma column_batches (s : NDArrayIter (Rng := Rng)) k pd pl m arrays l ps j x p :
  (forall i, arrays (spec_batch s k pd pl i) = spec_arrays s l ps i) ->
  l !! j = Some x -> ps !! j = Some p ->
  column arrays j (map (spec_batch s k pd pl) (py_range m)) =
  concat (batches (n_batch_size s) m (feed s x.2 p)).
Proof.
  intros Ha Hx Hp. unfold column, batches. rewrite map_map. f_equal. apply map_ext. intros i.
  by rewrite Ha, (spec_arrays_lookup _ _ _ _ _ _ _ Hx Hp).
Qed.

(** In one epoch, batches and remainder make up the rolled-over rows and the data. *)
Lemma epoch_conserves (s : NDArrayIter (Rng := Rng)) k pd pl arrays l ps j x p :
  iter_wf s -> batch_fits s -> epoch_ready s k pd pl -> n_handle s = "roll_over"%string ->
  (forall i, arrays (spec_batch s k pd pl i) = spec_arrays s l ps i) ->
  l !! j = Some x -> ps !! j = Some p -> nd_len x.2 = n_num_data s -> py_len p = k ->
  let m := spec_count s k in
  column arrays j (map (spec_batch s k pd pl) (py_range m))
    ++ py_slice (nd_rows x.2) (m * n_batch_size s - k) (n_num_data s) = p ++ nd_rows x.2.
Proof.
  intros Hwf Hf Hr Hh Ha Hx Hp Hlen Hk m. rewrite (column_batches _ _ _ _ _ _ _ _ _ _ _ Ha Hx Hp).
  pose proof (count_bounds s Hwf k pd pl Hr) as [Hm0 Hm]. fold m in Hm0, Hm.
  pose proof (er_k _ _ _ _ Hr). pose proof (wf_batch _ Hwf). destruct Hf as [_ Hf]. specialize (Hf Hh).
  unfold feed. rewrite Hh in Hm |- *. change (str_eqb "roll_over" "pad") with false in *. cbn match in *.
  rewrite app_nil_r. unfold nd_len in Hlen. assert (1 <= m) by nia.
  assert (n_batch_size s <= m * n_batch_size s) by nia.
  rewrite batches_concat by (rewrite ?py_len_app; lia).
  rewrite <- Hlen, <- Hk. rewrite <- Hk in Hm.
  rewrite <- (py_slice_all (p ++ nd_rows x.2)) at 2. rewrite py_len_app.
  rewrite <- (py_slice_app (p ++ nd_rows x.2) 0 (m * n_batch_size s) (py_len p + py_len (nd_rows x.2)))
    by (rewrite ?py_len_app; nia).
  f_equal. rewrite py_slice_app_r by lia. f_equal. lia.
Qed.

Lemma column_app arrays j xs ys : column arrays j (xs ++ ys) = column arrays j xs ++ column arrays j ys.
Proof. unfold column. by rewrite map_app, concat_app. Qed.

(** [it_epochs], unfolded once. *)
Lemma epochs_S {I} `{DataIter I} e fuel f (s s1 s2 : I) bs r :
  (f <= fuel)%nat -> it_drain f s = Some (bs, StopIteration, s1) -> it_reset s1 = (Ok tt, s2) ->
  it_epochs e fuel s2 = Some r -> it_epochs (S e) fuel s = Some (bs :: r.1, r.2).
Proof.
  intros Hf E1 E2 E3. simpl. rewrite (drain_more f fuel s _ Hf E1). simpl. rewrite E2, E3. by destruct r.
Qed.

Definition conserves (arrays : DataBatch -> list NDArray) (e : nat) (l : list source)
  (ps ps' : list (list (list Z))) (epochs : list (list DataBatch)) : Prop :=
  forall j x p, l !! j = Some x -> ps !! j = Some p -> exists p', ps' !! j = Some p' /\
    column arrays j (concat epochs) ++ p' = p ++ concat (replicate e (nd_rows x.2)).

Lemma conserves_cons (s : NDArrayIter (Rng := Rng)) k pd pl arrays e l ps ps' epochs :
  iter_wf s -> batch_fits s -> epoch_ready s k pd pl -> n_handle s = "roll_over"%string ->
  (forall i, arrays (spec_batch s k pd pl i) = spec_arrays s l ps i) ->
  Forall (fun x => nd_len x.2 = n_num_data s) l -> Forall (fun p => py_len p = k) ps ->
  let m := spec_count s k in
  conserves arrays e l (tails l (m * n_batch_size s - k) (n_num_data s)) ps' epochs ->
  conserves arrays (S e) l ps ps' (map (spec_batch s k pd pl) (py_range m) :: epochs).
Proof.
  intros Hwf Hf Hr Hh Ha Hl Hps m Hc j x p Hx Hp.
  assert (nd_len x.2 = n_num_data s) by (rewrite Forall_forall in Hl; by eapply Hl, list_elem_of_lookup_2).
  assert (py_len p = k) by (rewrite Forall_forall in Hps; by eapply Hps, list_elem_of_lookup_2).
  destruct (Hc j x (py_slice (nd_rows x.2) (m * n_batch_size s - k) (n_num_data s)) Hx) as (p' & Hp' & E).
  { unfold tails. by rewrite list_lookup_fmap, Hx. }
  exists p'. split; [done|]. cbn [concat]. rewrite column_app, <- app_assoc, E, app_assoc.
  pose proof (epoch_conserves s k pd pl arrays l ps j x p) as E1. cbn zeta in E1. fold m in E1.
  rewrite E1 by done. simpl. by rewrite <- app_assoc.
Qed.
End RollOver.

(** C31: in [roll_over] mode without shuffling, when all sources have equally many rows and
    the batch size is at most that number, over any number of epochs no row of
    any data or label source is lost, repeated or moved: the batches, followed by
    what is still cached, are the initially cached rows followed by the data once per
    epoch. *)
Theorem nditer_roll_over {Rng} np_shuffle e : forall (s : NDArrayIter (Rng := Rng)) k pd pl fuel,
  iter_wf s -> batch_fits s -> epoch_ready s k pd pl ->
  n_handle s = "roll_over"%string -> n_shuffle s = false ->
  (Z.to_nat ((n_batch_size s + n_num_data s) / n_batch_size s) < fuel)%nat ->
  exists epochs s' k' pd' pl',
    it_epochs (H := NDArrayIter_DataIter np_shuffle) e fuel s = Some (epochs, s') /\
    epoch_ready s' k' pd' pl' /\
    conserves b_data e (n_data s) pd pd' epochs /\
    conserves b_label e (n_label s) pl pl' epochs.
Proof.
  induction e as [|e IH]; intros s k pd pl fuel Hwf Hf Hr Hh Hs Hfuel.
  { exists [], s, k, pd, pl. split_and!; [done|done|..]; intros j x p Hx Hp; exists p; by rewrite app_nil_r. }
  pose proof (wf_batch _ Hwf) as Hb. pose proof (er_k _ _ _ _ Hr) as Hk.
  destruct (epoch_next np_shuffle s k pd pl Hwf Hf Hr Hh Hs) as (s1 & c1 & cd & cl & E1 & E2 & Hr').
  destruct (IH (at_ s c1 cd cl) _ _ _ fuel (wf_at s c1 cd cl Hwf) Hf Hr' Hh Hs Hfuel)
    as (ep & s' & k' & pd' & pl' & E3 & Hr'' & C1 & C2).
  exists (map (spec_batch s k pd pl) (py_range (spec_count s k)) :: ep), s', k', pd', pl'.
  split_and!; [|done| |].
  - refine (epochs_S (H := NDArrayIter_DataIter np_shuffle) e fuel _ s s1 _ _ (ep, s') _ E1 E2 E3).
    apply Nat.le_trans with (2 := Hfuel). apply le_n_S, Z2Nat.inj_le.
    + by apply (count_bounds s Hwf k pd pl Hr).
    + apply Z.div_pos; [|lia]. destruct Hf as [_ Hf]. specialize (Hf Hh). lia.
    + unfold spec_count. rewrite Hh. apply Z.div_le_mono; lia.
  - eapply conserves_cons; try done; [apply Hwf|apply (er_pd _ _ _ _ Hr)].
  - eapply conserves_cons; try done; [apply Hwf|apply (er_pl _ _ _ _ Hr)].
Qed.

(** in [pad] mode a batch of more than twice the data cannot be filled: the
    slice that supplies the padding runs past the end of the array and the first
    call of [next] raises [IndexError]. *)
Theorem nditer_pad_too_large {Rng} (s : NDArrayIter (Rng := Rng)) :
  iter_wf s -> n_handle s = "pad"%string -> n_cursor s = - n_batch_size s ->
  0 < n_num_data s -> 2 * n_num_data s < n_batch_size s ->
  exists s', NDArrayIter_next s = (Raise IndexError, s').
Proof.
  intros Hwf Hh Hc Hn Hb. destruct Hwf as [Hb0 Hd Hl Hne]. rewrite (at_eta s).
  unfold NDArrayIter_next. rewrite bind_M, iter_next_at, (proj2 (Z.ltb_lt _ _)) by lia. cbn [negb].
  unfold getdata. rewrite !bind_M. cbn [get].
  assert (forall cd cl, exists s', _batchify (n_data s) (at_ s (n_cursor s + n_batch_size s) cd cl)
    = (Raise IndexError, s')) as Hraise.
  { intros cd cl. unfold _batchify. rewrite bind_M. cbn [get]. rewrite bind_M. unfold massert.
    cbn [n_cursor n_num_data n_handle n_batch_size at_ set_cache set_cursor].
    rewrite (proj2 (Z.ltb_lt _ _)) by lia. cbn [py_assert]. rewrite Hh.
    change (str_eqb "pad" "roll_over") with false. change (str_eqb "pad" "pad") with true. cbn [andb].
    rewrite (proj2 (Z.ltb_lt (n_num_data s) _)) by lia. rewrite !bind_M. unfold lift.
    replace (n_cursor s + n_batch_size s) with 0 by lia.
    destruct (getdata_slices s (n_data s) 0 (n_num_data s) Hd ltac:(lia) ltac:(lia)) as (_ & _ & E).
    rewrite E by done. rewrite bind_M. rewrite (getdata_past s) by (done || lia). eauto. }
  destruct (Hraise (n_cache_data s) (n_cache_label s)) as [s' E]. exists s'.
  cbn [n_data at_ set_cache set_cursor]. change (set_cache ?cd ?cl (set_cursor ?c s)) with (at_ s c cd cl).
  by rewrite E.
Qed.

(** ** Shuffling *)

(** numpy's [rows[idx]]. *)
Definition reindex (rows : list (list Z)) (idx : list Z) : list (list Z) :=
  omap (fun z => rows !! Z.to_nat z) idx.
Definition reindexed (idx : list Z) (x : source) : source :=
  (x.1, mkND (nd_ctx x.2) mx_real_t (nd_tail x.2) (reindex (nd_rows x.2) idx)).

Lemma reindex_perm rows idx idx' : idx ≡ₚ idx' -> reindex rows idx ≡ₚ reindex rows idx'.
Proof. intros Hp. unfold reindex. by rewrite Hp. Qed.

Lemma reindex_cons rows z idx :
  reindex rows (z :: idx) =
    match rows !! Z.to_nat z with Some r => r :: reindex rows idx | None => reindex rows idx end.
Proof. reflexivity. Qed.

Lemma reindex_shift r rows idx :
  Forall (fun z => 0 <= z) idx -> reindex (r :: rows) (map (fun i => i + 1) idx) = reindex rows idx.
Proof.
  induction 1 as [|z idx Hz _ IH]; [done|]. cbn [map]. rewrite !reindex_cons, IH.
  by replace (Z.to_nat (z + 1)) with (S (Z.to_nat z)) by lia.
Qed.

Lemma reindex_range rows : reindex rows (py_range (py_len rows)) = rows.
Proof.
  induction rows as [|r rows IH]; [done|]. pose proof (py_len_nonneg rows).
  rewrite py_len_cons, py_range_cons by lia. replace (1 + py_len rows - 1) with (py_len rows) by lia.
  change (reindex (r :: rows) (0 :: ?l)) with (r :: reindex (r :: rows) l).
  rewrite reindex_shift, IH; [done|]. apply Forall_forall. intros z Hz%elem_of_py_range. lia.
Qed.

Lemma mapR_index rows idx :
  Forall (fun z => 0 <= z < py_len rows) idx -> mapR (py_index rows) idx = Ok (reindex rows idx).
Proof.
  induction 1 as [|z idx Hz _ IH]; [done|]. cbn [mapR].
  destruct (lookup_lt_is_Some_2 rows (Z.to_nat z)) as [r Hr]; [unfold py_len in Hz; lia|].
  assert (py_index rows z = Ok r) as ->.
  { unfold py_index. rewrite (proj2 (Z.ltb_ge z 0)) by lia.
    by rewrite (proj2 (Z.ltb_ge z 0)), Hr by lia. }
  rewrite reindex_cons, Hr, IH. done.
Qed.

Lemma getdata_by_idx_ok l idx m :
  Forall (fun x => nd_len x.2 = m) l -> Forall (fun z => 0 <= z < m) idx ->
  _getdata_by_idx l idx = Ok (map (reindexed idx) l).
Proof.
  intros Hl Hidx. apply mapR_ok. intros x Hx. rewrite Forall_forall in Hl.
  rewrite mapR_index; [done|]. unfold nd_len in Hl. by rewrite (Hl x Hx).
Qed.

(** [reset] with [shuffle] reorders the rows of every data and label source by
    one and the same permutation, so samples keep their labels and none is lost; the
    iterator stays well formed.  The new arrays are of type [float32] ([reindexed]). *)
Theorem nditer_shuffle {Rng} (np_shuffle : Rng -> list Z -> list Z * Rng) (s : NDArrayIter (Rng := Rng)) :
  (forall r l, (np_shuffle r l).1 ≡ₚ l) ->
  iter_wf s -> n_idx s ≡ₚ py_range (n_num_data s) -> n_shuffle s = true ->
  exists s', NDArrayIter_reset np_shuffle s = (Ok tt, s') /\
    n_data s' = map (reindexed (n_idx s')) (n_data s) /\
    n_label s' = map (reindexed (n_idx s')) (n_label s) /\
    n_idx s' ≡ₚ py_range (n_num_data s') /\
    (forall x, x ∈ n_data s ++ n_label s -> reindex (nd_rows x.2) (n_idx s') ≡ₚ nd_rows x.2) /\
    iter_wf s'.
Proof.
  intros Hsh Hwf Hidx Hs. pose proof Hwf as [Hb Hd Hl Hne].
  unfold NDArrayIter_reset. rewrite bind_M. cbn [get]. rewrite Hs, bind_M.
  unfold _shuffle_data at 1. rewrite bind_M. cbn [get].
  pose proof (Hsh (n_rng s) (n_idx s)) as Hp.
  destruct (np_shuffle (n_rng s) (n_idx s)) as [idx rng] eqn:Ei. simpl in Hp. rewrite Hidx in Hp.
  assert (Forall (fun z => 0 <= z < n_num_data s) idx) as Hr.
  { apply Forall_forall. intros z Hz. apply elem_of_py_range. by rewrite <- Hp. }
  assert (forall x, nd_len x = n_num_data s -> reindex (nd_rows x) idx ≡ₚ nd_rows x) as Hre.
  { intros x Hx. rewrite (reindex_perm _ _ _ Hp). unfold nd_len in Hx. by rewrite <- Hx, reindex_range. }
  unfold mbind, M_bind, put, lift, modify.
  rewrite (getdata_by_idx_ok _ idx _ Hd Hr), (getdata_by_idx_ok _ idx _ Hl Hr).
  set (s' := set_sources (map (reindexed idx) (n_data s)) (map (reindexed idx) (n_label s)) idx rng s).
  assert (iter_wf s') as Hwf'.
  { assert (forall l, Forall (fun x : source => nd_len x.2 = n_num_data s) l ->
      Forall (fun x : source => nd_len x.2 = n_num_data s) (map (reindexed idx) l)) as Hm.
    { intros l Hl'. apply Forall_fmap. eapply Forall_impl; [exact Hl'|]. intros x Hx. cbn.
      unfold nd_len, with_rows, py_len. cbn. rewrite (Hre x.2 Hx). exact Hx. }
    split; [done|by apply Hm|by apply Hm|]. cbn. by destruct (n_data s). }
  eexists. split; [reflexivity|].
  assert (forall x, x ∈ n_data s ++ n_label s -> reindex (nd_rows x.2) idx ≡ₚ nd_rows x.2) as Hall.
  { intros x Hx. apply Hre. rewrite Forall_forall in Hd, Hl. apply elem_of_app in Hx as [|]; auto. }
  destruct (_ && _); split_and!; try done; destruct Hwf'; by split.
Qed.

(** ** What an iterator promises to the iterators built on it *)

(** [serves l it]: the next calls of [next] give the batches [l] and then
    [StopIteration], and [reset] starts over with the epoch [E]. *)
Class CyclicIter (I : Type) `{DataIter I} (E : list DataBatch) (serves : list DataBatch -> I -> Prop) := {
  serves_next : forall x l it, serves (x :: l) it ->
    exists it', it_next it = (Ok x, it') /\ serves l it';
  serves_stop : forall it, serves [] it ->
    exists it', it_next it = (Raise StopIteration, it') /\ serves [] it';
  serves_reset : forall l it, serves l it ->
    exists it', it_reset it = (Ok tt, it') /\ serves E it';
}.

Section Cyclic.
Context {Rng : Type} (np_shuffle : Rng -> list Z -> list Z * Rng).
#[local] Instance cyclic_iter : DataIter NDArrayIter := NDArrayIter_DataIter np_shuffle.
Context (s0 : NDArrayIter (Rng := Rng)).
Notation b := (n_batch_size s0).
Notation no_rows l := (replicate (length l) ([] : list (list Z))).

(** The batches of an epoch that starts from scratch. *)
Definition epoch_batch (i : Z) : DataBatch := spec_batch s0 0 (no_rows (n_data s0)) (no_rows (n_label s0)) i.
Definition epoch_batches : list DataBatch := map epoch_batch (py_range (spec_count s0 0)).

(** [i] calls of [next] since the last reset. *)
Definition nd_serves (l : list DataBatch) (s : NDArrayIter (Rng := Rng)) : Prop :=
  exists i cd cl, 0 <= i /\ s = at_ s0 (i * b - b) cd cl /\
    l = map epoch_batch (range_from i 1 (Z.to_nat (spec_count s0 0 - i))).

Hypothesis wf : iter_wf s0.
Hypothesis fits : batch_fits s0.
Hypothesis plain : n_shuffle s0 = false.
Hypothesis no_roll : n_handle s0 ≠ "roll_over"%string.
Hypothesis fresh : n_cursor s0 = - b.

Lemma fresh_ready : epoch_ready s0 0 (no_rows (n_data s0)) (no_rows (n_label s0)).
Proof.
  pose proof (wf_batch _ wf). split; try lia; try (split; [apply length_replicate|]).
  - by apply Forall_replicate.
  - by apply Forall_replicate.
Qed.

#[export] Instance NDArrayIter_Cyclic : CyclicIter NDArrayIter epoch_batches nd_serves.
Proof.
  pose proof (wf_batch _ wf) as Hb. pose proof fresh_ready as Hr. split.
  - intros x l it (i & cd & cl & Hi & -> & El).
    destruct (decide (i < spec_count s0 0)) as [Hlt|].
    2: { replace (Z.to_nat _) with O in El by lia. done. }
    replace (Z.to_nat (spec_count s0 0 - i)) with (S (Z.to_nat (spec_count s0 0 - (i + 1)))) in El by lia.
    unfold range_from in El. cbn [seq map] in El. injection El as -> ->.
    destruct (next_spec s0 wf fits 0 _ _ Hr i cd cl) as (cd' & cl' & E); [lia|lia|].
    rewrite Z.sub_0_r in E. eexists. split; [change (it_next ?s) with (NDArrayIter_next s); rewrite E|].
    + do 3 f_equal. unfold epoch_batch. f_equal. lia.
    + exists (i + 1), cd', cl'. split_and!; [lia|f_equal; lia|].
      unfold range_from. rewrite <- seq_shift, !map_map. apply map_ext. intros j. f_equal. lia.
  - intros it (i & cd & cl & Hi & -> & El).
    assert (spec_count s0 0 <= i) as Hge.
    { destruct (decide (spec_count s0 0 <= i)); [done|].
      replace (Z.to_nat (spec_count s0 0 - i)) with (S (Z.to_nat (spec_count s0 0 - (i + 1)))) in El by lia.
      done. }
    assert (forall cd' cl', nd_serves [] (at_ s0 (i * b - b + b) cd' cl')) as Hs.
    { intros cd' cl'. exists (i + 1), cd', cl'. split_and!; [lia|f_equal; lia|].
      by replace (Z.to_nat (spec_count s0 0 - (i + 1))) with O by lia. }
    change (it_next ?s) with (NDArrayIter_next s).
    destruct (decide (n_num_data s0 <= i * b - b + b)).
    + rewrite next_end by done. eauto.
    + destruct (str_eqb (n_handle s0) "pad") eqn:Ep.
      { pose proof (count_bounds s0 wf 0 _ _ Hr) as [_ Hc]. rewrite Ep in Hc. nia. }
      pose proof (count_bounds s0 wf 0 _ _ Hr) as [_ Hc]. rewrite Ep in Hc.
      rewrite next_partial; [eauto|done| |nia|nia].
      intros ?%padding_handle. congruence.
  - intros l it (i & cd & cl & Hi & -> & _). change (it_reset ?s) with (NDArrayIter_reset np_shuffle s).
    rewrite reset_plain by done. eexists. split; [done|]. cbn [n_handle at_ set_cache set_cursor].
    assert (str_eqb (n_handle s0) "roll_over" = false) as -> by (unfold str_eqb; by case_bool_decide).
    exists 0, cd, cl. split_and!; [lia|unfold at_; f_equal; lia|]. by rewrite Z.sub_0_r.
Qed.
End Cyclic.

(** ** [ResizeIter] over a cyclic iterator *)

Section Resize.
Context {I : Type} {E : list DataBatch} {serves : list DataBatch -> I -> Prop} `{CyclicIter I E serves}.

(** The batch as [ResizeIter] passes it on. *)
Definition passed_on (x : DataBatch) : DataBatch :=
  mkBatch (b_data x) (b_label x) (b_pad x) (b_index x) None None None.

(** The first [m] batches when [l] is followed by [E] again and again. *)
Fixpoint cycle (m : nat) (l : list DataBatch) : list DataBatch :=
  match m, l with
  | O, _ => []
  | S m, x :: l => x :: cycle m l
  | S m, [] => match E with [] => [] | x :: l => x :: cycle m l end
  end.

Lemma restart_next m l it :
  E ≠ [] -> serves l it ->
  exists x it' l', next_or_restart it = (Ok x, it') /\ serves l' it' /\ cycle (S m) l = x :: cycle m l'.
Proof.
  intros HE Hs. unfold next_or_restart. destruct l as [|x l].
  - destruct (serves_stop it Hs) as (it1 & E1 & Hs1). rewrite E1.
    destruct (serves_reset [] it1 Hs1) as (it2 & E2 & Hs2). rewrite E2. simpl.
    destruct E as [|x l] eqn:EE; [done|]. destruct (serves_next x l it2 Hs2) as (it3 & E3 & Hs3).
    exists x, it3, l. by rewrite E3.
  - destruct (serves_next x l it Hs) as (it1 & E1 & Hs1). exists x, it1, l. by rewrite E1.
Qed.

Lemma resize_drain m : forall l it size ri cur bt,
  E ≠ [] -> serves l it -> cur + Z.of_nat m = size ->
  exists it' bt' l', it_drain (S m) (mkResize it size ri cur bt) =
    Some (map passed_on (cycle m l), StopIteration, mkResize it' size ri size bt') /\ serves l' it'.
Proof.
  induction m as [|m IH]; intros l it size ri cur bt HE Hs Hc.
  - exists it, bt, l. split; [|done]. simpl. unfold ResizeIter_next, ResizeIter_iter_next. rewrite bind_M.
    cbn [r_cur r_size]. replace cur with size by lia. by rewrite Z.eqb_refl.
  - destruct (restart_next m l it HE Hs) as (x & it1 & l1 & E1 & Hs1 & Ecy).
    destruct (IH l1 it1 size ri (cur + 1) (Some x) HE Hs1) as (it' & bt' & l' & E2 & Hs2); [lia|].
    exists it', bt', l'. split; [|done].
    change (it_drain (S (S m)) ?s) with (match ResizeIter_next s with
      | (Raise e, s') => Some ([], e, s')
      | (Ok x, s') => '(bs, e, s'') ← it_drain (S m) s'; Some (x :: bs, e, s'') end).
    assert (ResizeIter_next (mkResize it size ri cur bt) =
      (Ok (passed_on x), mkResize it1 size ri (cur + 1) (Some x))) as ->.
    { unfold ResizeIter_next, ResizeIter_iter_next. rewrite bind_M. cbn [r_cur r_size r_iter].
      rewrite (proj2 (Z.eqb_neq _ _)) by lia. rewrite E1. reflexivity. }
    rewrite E2, Ecy. reflexivity.
Qed.

(** over an iterator that keeps the iteration protocol and has a non-empty
    epoch, an epoch of [ResizeIter] has exactly [size] batches, taken from the inner
    epochs repeated as often as needed, whatever the length of the inner epoch. *)
Theorem resize_epoch l it size ri bt :
  E ≠ [] -> serves l it -> 0 <= size ->
  exists it' bt' l', it_drain (S (Z.to_nat size)) (mkResize it size ri 0 bt) =
    Some (map passed_on (cycle (Z.to_nat size) l), StopIteration, mkResize it' size ri size bt') /\
    length (cycle (Z.to_nat size) l) = Z.to_nat size /\ serves l' it'.
Proof.
  intros HE Hs Hsz. destruct (resize_drain (Z.to_nat size) l it size ri 0 bt HE Hs) as (it' & bt' & l' & Ed & Hs');
    [lia|]. exists it', bt', l'. split_and!; [done| |done].
  clear -HE. generalize (Z.to_nat size) l. intros m. induction m as [|m IH]; intros l0; [done|].
  destruct l0; simpl; [destruct E; [done|]|]; simpl; by rewrite IH.
Qed.
End Resize.

(** ** Witnesses: five rows, batches of three *)

Definition five_rows : NDArray := mkND cpu "float32" [1] [[10]; [11]; [12]; [13]; [14]].
Definition five_labels : NDArray := mkND cpu "float32" [] [[0]; [1]; [2]; [3]; [4]].
Definition no_shuffle (r : unit) (l : list Z) : list Z * unit := (l, r).
Definition rotate (r : unit) (l : list Z) : list Z * unit := (drop 2 l ++ take 2 l, r).

Definition five (handle : string) (batch_size : Z) (shuffle : bool) : NDArrayIter :=
  mkIter [("data"%string, five_rows)] [("softmax_label"%string, five_labels)] (py_range 5) shuffle handle
    batch_size (- batch_size) 5 None None tt.

Example five_init :
  NDArrayIter_init no_shuffle (DArray five_rows) (DArray five_labels) 3 false "pad" "data" "softmax_label" tt
  = Ok (five "pad" 3 false).
Proof. reflexivity. Qed.

Lemma five_wf handle bs sh : 0 < bs -> iter_wf (five handle bs sh).
Proof. intros. by split; [|repeat constructor..|]. Qed.

Lemma five_ready handle bs sh : 0 < bs -> epoch_ready (five handle bs sh) 0 [[]] [[]].
Proof. intros. split; cbn; try lia; split; by repeat constructor. Qed.

Lemma five_fits handle sh : batch_fits (five handle 3 sh).
Proof. split; cbn; lia. Qed.

Example nditer_epoch_witness :
  exists s', it_drain (H := NDArrayIter_DataIter no_shuffle) 3 (five "pad" 3 false) =
    Some ([mkBatch [mkND cpu "float32" [1] [[10]; [11]; [12]]] [mkND cpu "float32" [] [[0]; [1]; [2]]] 0 None None None None;
           mkBatch [mkND cpu "float32" [1] [[13]; [14]; [10]]] [mkND cpu "float32" [] [[3]; [4]; [0]]] 1 None None None None],
          StopIteration, s').
Proof.
  destruct (nditer_epoch no_shuffle (five "pad" 3 false) 0 [[]] [[]]) as [s' E];
    [by apply five_wf|apply five_fits|by apply five_ready|].
  exists s'. exact E.
Defined.

(** Three epochs of five rows make five batches of three. *)
Example nditer_roll_over_witness :
  exists epochs s' k' pd' pl',
    it_epochs (H := NDArrayIter_DataIter no_shuffle) 3 4 (five "roll_over" 3 false) = Some (epochs, s') /\
    epoch_ready s' k' pd' pl' /\
    conserves b_data 3 [("data"%string, five_rows)] [[]] pd' epochs /\
    conserves b_label 3 [("softmax_label"%string, five_labels)] [[]] pl' epochs.
Proof.
  apply (nditer_roll_over no_shuffle 3 (five "roll_over" 3 false) 0 [[]] [[]] 4);
    [by apply five_wf|apply five_fits|by apply five_ready|reflexivity|reflexivity|vm_compute; lia].
Defined.

(** In [roll_over] mode the rows carried over from the last epoch, which are valid and
    come first, are reported as padding. *)
Example carried_rows_reported :
  (b ← it_epochs (H := NDArrayIter_DataIter no_shuffle) 1 4 (five "roll_over" 3 false);
   '(bs, _, _) ← it_drain (H := NDArrayIter_DataIter no_shuffle) 4 b.2;
   Some (map (fun x => (map nd_rows (b_data x), b_pad x)) bs))
  = Some [([[[13]; [14]; [10]]], 2); ([[[11]; [12]; [13]]], 0)].
Proof. vm_compute. reflexivity. Qed.

(** Shuffling makes [float32] arrays of all sources. *)
Example shuffle_resets_type :
  let ints := mkIter [("data"%string, mkND cpu "int32" [] [[1]; [2]])] [] [0; 1] true "pad" 2 (-2) 2 None None tt in
  map desc_dtype (NDArrayIter_provide_data ints) = ["int32"%string] /\
  map desc_dtype (NDArrayIter_provide_data (NDArrayIter_reset no_shuffle ints).2) = ["float32"%string].
Proof. vm_compute. by split. Qed.

Example nditer_pad_too_large_witness :
  exists s', NDArrayIter_next (five "pad" 11 false) = (Raise IndexError, s').
Proof.
  apply nditer_pad_too_large; [by apply five_wf|reflexivity|reflexivity|cbn; lia|cbn; lia].
Defined.

Example nditer_shuffle_witness :
  exists s', NDArrayIter_reset rotate (five "pad" 3 true) = (Ok tt, s') /\
    n_data s' = [("data"%string, mkND cpu "float32" [1] [[12]; [13]; [14]; [10]; [11]])] /\
    n_label s' = [("softmax_label"%string, mkND cpu "float32" [] [[2]; [3]; [4]; [0]; [1]])].
Proof.
  destruct (nditer_shuffle rotate (five "pad" 3 true)) as (s' & E & H1 & H2 & _);
    [|by apply five_wf|reflexivity|reflexivity|].
  - intros r l. simpl. rewrite Permutation_app_comm. by rewrite take_drop.
  - exists s'. split; [done|]. assert (n_idx s' = [2; 3; 4; 0; 1]) as E'.
    { change (NDArrayIter_reset rotate (five "pad" 3 true)) with
        (@Ok unit tt, (NDArrayIter_reset rotate (five "pad" 3 true)).2) in E. injection E as <-. reflexivity. }
    rewrite E' in H1, H2. done.
Defined.

(** Two batches an epoch, resized to five. *)
Example resize_epoch_witness :
  let s := five "pad" 3 false in
  let E := epoch_batches s in
  exists it' bt' l',
    it_drain (H := @ResizeIter_DataIter _ (NDArrayIter_DataIter no_shuffle)) 6 (mkResize s 5 true 0 None) =
      Some (map passed_on (cycle (E := E) 5 E), StopIteration, mkResize it' 5 true 5 bt') /\
    length (cycle (E := E) 5 E) = 5%nat /\ nd_serves s l' it'.
Proof.
  intros s E. assert (CyclicIter (H := NDArrayIter_DataIter no_shuffle) NDArrayIter E (nd_serves s)) as Hc.
  { apply NDArrayIter_Cyclic; [by apply five_wf|apply five_fits|done|done|done]. }
  apply (resize_epoch (H0 := Hc) E s 5 true None); [done| |lia].
  exists 0, None, None. split_and!; [lia|done|done].
Defined.
