(* ===== verification/Fit.v ===== *)
(** * Training, scoring and prediction

    The loops of [module/base_module.py]: [fit], [score], [iter_predict] and [predict], over any
    module ([FitModule]) and any data iterator ([DataIter]).  [fit] fetches the next batch
    before it reports the current one; the theorems say that it nevertheless treats every
    batch of every epoch once and in order, and that prediction returns one row for every
    sample, the padding of the last batch removed. *)

From S2P Require Import Prelude NDArray DataIter.

(** What the loops use of a module, of the metrics and of the callbacks. *)
Class FitModule (W : Type) := {
  fm_ready : W -> bool;
  (** [bind], [install_monitor], [init_params] and [init_optimizer] of [fit] *)
  fm_setup : list DataDesc -> list DataDesc -> M W unit;
  fm_prepare : DataBatch -> M W unit;
  fm_forward : DataBatch -> option bool -> M W unit;
  fm_backward : M W unit;
  fm_update : M W unit;
  fm_outputs : M W (list NDArray);
  fm_tic : M W unit;
  fm_toc : M W unit;
  (** the training metric: [reset], [update_metric] and [get_global_name_value] *)
  fm_metric_reset : M W unit;
  fm_metric_update : DataBatch -> M W unit;
  fm_metric_values : M W unit;
  fm_batch_end : Z -> Z -> M W unit;
  (** the log, [get_params], [set_params] and the callbacks at the end of an epoch *)
  fm_epoch_end : Z -> M W unit;
}.

(** A validation metric with its callbacks. *)
Record scoring (W : Type) := mkScoring {
  sc_reset : M W unit;
  sc_update : DataBatch -> M W unit;
  sc_batch_end : Z -> Z -> M W unit;
  sc_end : Z -> Z -> M W unit;
}.
Arguments mkScoring {W} _ _ _ _.
Arguments sc_reset {W} _.
Arguments sc_update {W} _ _.
Arguments sc_batch_end {W} _ _ _.
Arguments sc_end {W} _ _ _.

Section Loops.
Context {W I J : Type} `{FitModule W} `{DataIter I} `{DataIter J}.

(** A computation of the module, next to the outputs collected so far. *)
Definition onW {X A} (m : M W A) : M (W * X) A := fun s => let '(r, w) := m s.1 in (r, (w, s.2)).

(** [for nbatch, batch in enumerate(it)]: the body tells whether to break; [None] when [fuel]
    rounds are not enough.  The result is the number of completed rounds. *)
Fixpoint for_batches {V K} `{DataIter K} (body : Z -> DataBatch -> M V bool) (fuel : nat) (nbatch : Z) (s : V * K) : option (result Z * (V * K)) :=
  match fuel with
  | O => None
  | S fuel =>
      match it_next s.2 with
      | (Raise StopIteration, k) => Some (Ok nbatch, (s.1, k))
      | (Raise e, k) => Some (Raise e, (s.1, k))
      | (Ok b, k) =>
          match body nbatch b s.1 with
          | (Raise e, v) => Some (Raise e, (v, k))
          | (Ok true, v) => Some (Ok nbatch, (v, k))
          | (Ok false, v) => for_batches body fuel (nbatch + 1) (v, k)
          end
      end
  end.

(** [num_batch is not None and nbatch == num_batch] *)
Definition at_limit (num_batch : option Z) (nbatch : Z) : bool := match num_batch with Some n => nbatch =? n | None => false end.

(** ** [score] *)

Definition score_body (sc : scoring W) (num_batch : option Z) (epoch nbatch : Z) (b : DataBatch) : M W bool :=
  if at_limit num_batch nbatch then mret true
  else
    _ ← fm_prepare b;
    _ ← fm_forward b (Some false);
    _ ← sc_update sc b;
    _ ← sc_batch_end sc epoch nbatch;
    mret false.

Definition reset_data (reset : bool) (k : J) : result unit * J := if reset then it_reset k else (Ok tt, k).

Definition score (sc : scoring W) (num_batch : option Z) (reset : bool) (epoch : Z) (fuel : nat) (s : W * J) : option (result unit * (W * J)) :=
  if negb (fm_ready s.1) then Some (Raise AssertionError, s)
  else
    match reset_data reset s.2 with
    | (Raise e, k) => Some (Raise e, (s.1, k))
    | (Ok _, k) =>
        match sc_reset sc s.1 with
        | (Raise e, w) => Some (Raise e, (w, k))
        | (Ok _, w) =>
            match for_batches (score_body sc num_batch epoch) fuel 0 (w, k) with
            | None => None
            | Some (Raise e, s) => Some (Raise e, s)
            | Some (Ok n, (w, k)) => let '(r, w) := sc_end sc epoch n w in Some (r, (w, k))
            end
        end
    end.

(** ** [fit] *)

(** The rest of an epoch from the current batch on.  A [StopIteration] of the iterator or of
    [prepare] ends it. *)
Fixpoint fit_batches (fuel : nat) (epoch nbatch : Z) (b : DataBatch) (s : W * I) : option (result unit * (W * I)) :=
  match fuel with
  | O => None
  | S fuel =>
      match (_ ← fm_tic; _ ← fm_forward b (Some true); _ ← fm_backward; _ ← fm_update; fm_metric_update b) s.1 with
      | (Raise e, w) => Some (Raise e, (w, s.2))
      | (Ok _, w) =>
          let '(next, i) := it_next s.2 in
          let '(next, w) := match next with
                            | Ok b' => match fm_prepare b' w with (Ok _, w) => (Ok b', w) | (Raise e, w) => (Raise e, w) end
                            | Raise e => (Raise e, w)
                            end in
          match next with
          | Ok b' =>
              match (_ ← fm_toc; fm_batch_end epoch nbatch) w with
              | (Raise e, w) => Some (Raise e, (w, i))
              | (Ok _, w) => fit_batches fuel epoch (nbatch + 1) b' (w, i)
              end
          | Raise StopIteration =>
              let '(r, w) := (_ ← fm_toc; _ ← fm_metric_values; fm_batch_end epoch nbatch) w in Some (r, (w, i))
          | Raise e => Some (Raise e, (w, i))
          end
      end
  end.

(** One epoch: the first batch is fetched outside of any handler. *)
Definition fit_epoch (eval : option (scoring W)) (fuel : nat) (epoch : Z) (s : W * I * J) : option (result unit * (W * I * J)) :=
  let '(w, i, j) := s in
  match fm_metric_reset w with
  | (Raise e, w) => Some (Raise e, (w, i, j))
  | (Ok _, w) =>
      match it_next i with
      | (Raise e, i) => Some (Raise e, (w, i, j))
      | (Ok b, i) =>
          match fit_batches fuel epoch 0 b (w, i) with
          | None => None
          | Some (Raise e, (w, i)) => Some (Raise e, (w, i, j))
          | Some (Ok _, (w, i)) =>
              match fm_epoch_end epoch w with
              | (Raise e, w) => Some (Raise e, (w, i, j))
              | (Ok _, w) =>
                  match match eval with None => Some (Ok tt, (w, j)) | Some sc => score sc None true epoch fuel (w, j) end with
                  | None => None
                  | Some (Raise e, (w, j)) => Some (Raise e, (w, i, j))
                  | Some (Ok _, (w, j)) => let '(r, i) := it_reset i in Some (r, (w, i, j))
                  end
              end
          end
      end
  end.
Fixpoint fit_epochs (eval : option (scoring W)) (fuel : nat) (epochs : list Z) (s : W * I * J) : option (result unit * (W * I * J)) :=
  match epochs with
  | [] => Some (Ok tt, s)
  | e :: epochs =>
      match fit_epoch eval fuel e s with
      | Some (Ok _, s) => fit_epochs eval fuel epochs s
      | r => r
      end
  end.
Definition fit (eval : option (scoring W)) (begin_epoch : Z) (num_epoch : option Z) (fuel : nat) (s : W * I * J) : option (result unit * (W * I * J)) :=
  match num_epoch with
  | None => Some (Raise AssertionError, s)
  | Some n =>
      let '(w, i, j) := s in
      match fm_setup (it_provide_data i) (it_provide_label i) w with
      | (Raise e, w) => Some (Raise e, (w, i, j))
      | (Ok _, w) => fit_epochs eval fuel (range_from begin_epoch 1 (Z.to_nat (n - begin_epoch))) (w, i, j)
      end
  end.

(** ** [predict] *)

(** [out[0:out.shape[0]-pad]] *)
Definition unpad (pad : Z) (out : NDArray) : result NDArray := _slice out (Some 0) (Some (nd_len out - pad)).

(** The outputs of one batch without its padding. *)
Definition predict_one (b : DataBatch) : M W (list NDArray) :=
  _ ← fm_prepare b;
  _ ← fm_forward b (Some false);
  outs ← fm_outputs;
  lift (mapR (unpad (b_pad b)) outs).
Definition predict_body (num_batch : option Z) (nbatch : Z) (b : DataBatch) : M (W * list (list NDArray)) bool :=
  if at_limit num_batch nbatch then mret true
  else
    outs ← onW (predict_one b);
    _ ← modify (fun s => (s.1, s.2 ++ [outs]));
    mret false.

(** What [predict] returns: nothing, the outputs of every batch, or merged outputs. *)
Inductive prediction := PNothing | PBatches (l : list (list NDArray)) | PMerged (l : list NDArray) | POne (a : NDArray).

(** A single output is returned by itself, unless [always_output_list]. *)
Definition as_prediction (always_output_list : bool) (l : list NDArray) : prediction :=
  match l with
  | [a] => if always_output_list then PMerged l else POne a
  | _ => PMerged l
  end.
Definition merge_outputs (uninit : list Z) (output_list : list (list NDArray)) (merge_batches always_output_list : bool) : result prediction :=
  match output_list with
  | [] => Ok PNothing
  | first :: _ =>
      if merge_batches then
        _ ← mapR (fun out => py_assert (length out =? length first)%nat) output_list;
        l ← mapR (fun i => cols ← mapR (fun out => py_index out (Z.of_nat i)) output_list; concatenate uninit cols true) (seq 0 (length first));
        Ok (as_prediction always_output_list l)
      else Ok (PBatches output_list)
  end.

Definition predict (uninit : list Z) (num_batch : option Z) (merge_batches reset always_output_list : bool) (fuel : nat) (s : W * J)
  : option (result prediction * (W * J)) :=
  if negb (fm_ready s.1) then Some (Raise AssertionError, s)
  else
    match reset_data reset s.2 with
    | (Raise e, k) => Some (Raise e, (s.1, k))
    | (Ok _, k) =>
        match for_batches (predict_body num_batch) fuel 0 ((s.1, []), k) with
        | None => None
        | Some (Raise e, (v, k)) => Some (Raise e, (v.1, k))
        | Some (Ok _, (v, k)) => Some (merge_outputs uninit v.2 merge_batches always_output_list, (v.1, k))
        end
    end.

(** [predict] on one array *)
Definition predict_array (a : NDArray) : M W NDArray :=
  w ← get;
  _ ← massert (fm_ready w);
  _ ← fm_forward (mkBatch [a] [] 0 None None None None) None;
  outs ← fm_outputs;
  lift (py_index outs 0).
End Loops.

(** ** The loops against their plain readings *)

(** [for nbatch, b in enumerate(l): act(nbatch, b)] over a list; the number of batches. *)
Fixpoint each_batch {V} (act : Z -> DataBatch -> M V unit) (nbatch : Z) (l : list DataBatch) : M V Z :=
  match l with
  | [] => mret nbatch
  | b :: l => _ ← act nbatch b; each_batch act (nbatch + 1) l
  end.

(** What [num_batch] leaves of the batches to come, and what the iterator then still holds. *)
Definition limited (num_batch : option Z) (nbatch : Z) (l : list DataBatch) : list DataBatch :=
  match num_batch with
  | Some n => if nbatch <=? n then take (Z.to_nat (n - nbatch)) l else l
  | None => l
  end.
Definition unread (num_batch : option Z) (nbatch : Z) (l : list DataBatch) : list DataBatch :=
  match num_batch with
  | Some n => if nbatch <=? n then drop (S (Z.to_nat (n - nbatch))) l else []
  | None => []
  end.

Section OverBatches.
Context {V K : Type} {F : list DataBatch} {serves : list DataBatch -> K -> Prop} `{CyclicIter K F serves}.

Lemma for_batches_spec (act : Z -> DataBatch -> M V unit) num_batch l : forall fuel nbatch v k,
  serves l k -> (length l < fuel)%nat ->
  let body n b := if at_limit num_batch n then mret true else _ ← act n b; mret false in
  let '(r, v') := each_batch act nbatch (limited num_batch nbatch l) v in
  exists k' l', for_batches body fuel nbatch (v, k) = Some (r, (v', k')) /\ serves l' k' /\
    ((exists n, r = Ok n) -> l' = unread num_batch nbatch l).
Proof.
  induction l as [|b l IH]; intros [|fuel] nbatch v k Hs Hf; try (cbn in Hf; lia); intros body.
  - destruct (serves_stop k Hs) as (k' & E & Hs').
    assert (limited num_batch nbatch [] = []) as -> by (destruct num_batch; cbn; [case_match; by rewrite ?take_nil|done]).
    exists k', []. cbn. rewrite E. split_and!; [done|done|]. intros _.
    destruct num_batch; cbn; [by case_match|done].
  - destruct (serves_next b l k Hs) as (k' & E & Hs').
    cbn [for_batches snd fst]. rewrite E. unfold body at 1.
    destruct (at_limit num_batch nbatch) eqn:El.
    { destruct num_batch as [n|]; [|done]. apply Z.eqb_eq in El as <-. cbn. rewrite Z.leb_refl, Z.sub_diag. cbn.
      exists k', l. split_and!; done. }
    assert (limited num_batch nbatch (b :: l) = b :: limited num_batch (nbatch + 1) l /\
            unread num_batch nbatch (b :: l) = unread num_batch (nbatch + 1) l) as [-> ->].
    { destruct num_batch as [n|]; [|done]. apply Z.eqb_neq in El. cbn.
      destruct (Z.leb_spec nbatch n), (Z.leb_spec (nbatch + 1) n); try lia; [|done].
      by replace (Z.to_nat (n - nbatch)) with (S (Z.to_nat (n - (nbatch + 1)))) by lia. }
    cbn [each_batch]. rewrite !bind_M.
    destruct (act nbatch b v) as [[[]|e] v1] eqn:Ea.
    + apply IH; [done|cbn in Hf; lia].
    + exists k', l. split_and!; [done|done|by intros []].
Qed.
End OverBatches.

Section FitSpec.
Context {W I J : Type} `{FitModule W} `{DataIter I} `{DataIter J}.

(** What one batch of training does, whatever the iterator. *)
Definition train_step (b : DataBatch) : M W unit :=
  _ ← fm_tic; _ ← fm_forward b (Some true); _ ← fm_backward; _ ← fm_update; fm_metric_update b.

(** The batches of an epoch one after the other, the following one prepared early. *)
Fixpoint train_on (epoch nbatch : Z) (l : list DataBatch) : M W unit :=
  match l with
  | [] => mret tt
  | b :: l =>
      _ ← train_step b;
      _ ← match l with [] => mret tt | b' :: _ => fm_prepare b' end;
      _ ← fm_toc;
      _ ← match l with [] => fm_metric_values | _ => mret tt end;
      _ ← fm_batch_end epoch nbatch;
      train_on epoch (nbatch + 1) l
  end.

(** Evaluation on a list of batches. *)
Definition score_act (sc : scoring W) (epoch nbatch : Z) (b : DataBatch) : M W unit :=
  _ ← fm_prepare b; _ ← fm_forward b (Some false); _ ← sc_update sc b; sc_batch_end sc epoch nbatch.
Definition score_on (sc : scoring W) (epoch : Z) (l : list DataBatch) : M W unit :=
  w ← get;
  _ ← massert (fm_ready w);
  _ ← sc_reset sc;
  n ← each_batch (score_act sc epoch) 0 l;
  sc_end sc epoch n.

(** [fit] on lists: every epoch trains on [E] and evaluates on [F]. *)
Definition epoch_on (E F : list DataBatch) (eval : option (scoring W)) (epoch : Z) : M W unit :=
  _ ← fm_metric_reset;
  _ ← train_on epoch 0 E;
  _ ← fm_epoch_end epoch;
  match eval with None => mret tt | Some sc => score_on sc epoch F end.
Definition fit_on (E F : list DataBatch) (eval : option (scoring W)) (begin_epoch num_epoch : Z) : M W unit :=
  forM (epoch_on E F eval) (range_from begin_epoch 1 (Z.to_nat (num_epoch - begin_epoch))).

Lemma score_body_act sc num_batch epoch n b w :
  score_body sc num_batch epoch n b w = (if at_limit num_batch n then mret true else _ ← score_act sc epoch n b; mret false) w.
Proof.
  unfold score_body, score_act. destruct (at_limit _ _); [done|]. rewrite !bind_M.
  destruct (fm_prepare b w) as [[]]; [|done]. rewrite !bind_M.
  destruct (fm_forward b _ _) as [[]]; [|done]. rewrite !bind_M. by destruct (sc_update _ _ _) as [[]].
Qed.

Lemma for_batches_ext {V K} `{DataIter K} (f g : Z -> DataBatch -> M V bool) fuel : forall n s,
  (forall n b v, f n b v = g n b v) -> for_batches f fuel n s = for_batches g fuel n s.
Proof.
  induction fuel as [|fuel IH]; intros n s Hfg; [done|]. cbn.
  destruct (it_next s.2) as [[b|[]] k]; try done. rewrite Hfg.
  destruct (g n b s.1) as [[[]|] v]; try done. by apply IH.
Qed.

Context {E F : list DataBatch} {serves : list DataBatch -> I -> Prop} {serves' : list DataBatch -> J -> Prop}.
Context `{!CyclicIter I E serves} `{!CyclicIter J F serves'}.

(** The result of a loop that runs out of no fuel: its value, the module's state and an
    iterator that still keeps its promise. *)
Lemma score_spec sc num_batch epoch l fuel w j :
  serves' l j -> (length F < fuel)%nat ->
  let '(r, w') := score_on sc epoch (limited num_batch 0 F) w in
  exists j' l', score sc num_batch true epoch fuel (w, j) = Some (r, (w', j')) /\ serves' l' j' /\
    (r = Ok tt -> l' = unread num_batch 0 F).
Proof.
  intros Hs Hf. unfold score, score_on. rewrite bind_get, bind_M. cbn [fst snd].
  destruct (fm_ready w); [|exists j, l; by split_and!]. cbn [negb massert].
  destruct (serves_reset l j Hs) as (j1 & Er & Hs1). cbn [reset_data]. rewrite Er. cbn. rewrite bind_M.
  destruct (sc_reset sc w) as [[[]|e] w1]; [|exists j1, F; by split_and!].
  rewrite bind_M. pose proof (for_batches_spec (score_act sc epoch) num_batch F fuel 0 w1 j1 Hs1 Hf) as Hb.
  cbn zeta in Hb. destruct (each_batch _ _ _ w1) as [[n|e] w2]; destruct Hb as (j2 & l2 & Eb & Hs2 & Hl);
    (rewrite (for_batches_ext _ (fun n b => if at_limit num_batch n then mret true else _ ← score_act sc epoch n b; mret false));
     [rewrite Eb|intros; apply score_body_act]).
  - destruct (sc_end sc epoch n w2) as [r w3] eqn:Ee. exists j2, l2. split_and!; [done|done|eauto].
  - exists j2, l2. by split_and!.
Qed.

(** [prepare] does not end the epoch. *)
Definition prepare_never_stops : Prop := forall b w, (fm_prepare b w).1 ≠ Raise StopIteration.

Lemma fit_batches_spec epoch (Hp : prepare_never_stops) l : forall b fuel nbatch w i,
  serves l i -> (length l < fuel)%nat ->
  let '(r, w') := train_on epoch nbatch (b :: l) w in
  exists i' l', fit_batches fuel epoch nbatch b (w, i) = Some (r, (w', i')) /\ serves l' i'.
Proof.
  induction l as [|b' l IH]; intros b [|fuel] nbatch w i Hs Hf; try (cbn in Hf; lia);
    cbn [fit_batches train_on fst snd]; fold (train_step b); rewrite bind_M;
    (destruct (train_step b w) as [[[]|e] w1]; [|by exists i; eauto]).
  - destruct (serves_stop i Hs) as (i' & -> & Hs'). rewrite bind_M. cbn [mret M_ret].
    rewrite !bind_M. destruct (fm_toc w1) as [[[]|] w2]; [|by exists i', []].
    rewrite !bind_M. destruct (fm_metric_values w2) as [[[]|] w3]; [|by exists i', []].
    rewrite bind_M. destruct (fm_batch_end epoch nbatch w3) as [[[]|] w4]; by exists i', [].
  - destruct (serves_next b' l i Hs) as (i' & -> & Hs'). rewrite bind_M.
    specialize (Hp b' w1). destruct (fm_prepare b' w1) as [[[]|[]] w2]; try (by exists i', l).
    rewrite !bind_M. destruct (fm_toc w2) as [[[]|] w3]; [|by exists i', l].
    rewrite bind_M. cbn [mret M_ret]. rewrite bind_M.
    destruct (fm_batch_end epoch nbatch w3) as [[[]|] w4]; [|by exists i', l].
    apply IH; [done|cbn in Hf; lia].
Qed.

Lemma fit_epoch_spec eval epoch fuel w i j lj :
  prepare_never_stops -> E ≠ [] -> serves E i -> serves' lj j -> (length E <= fuel)%nat -> (length F < fuel)%nat ->
  let '(r, w') := epoch_on E F eval epoch w in
  exists i' j' lj', fit_epoch eval fuel epoch (w, i, j) = Some (r, (w', i', j')) /\
    serves' lj' j' /\ (r = Ok tt -> serves E i').
Proof.
  intros Hp HE Hi Hj Hf Hf'. unfold fit_epoch, epoch_on. rewrite bind_M.
  destruct (fm_metric_reset w) as [[[]|e] w1]; [|exists i, j, lj; by split_and!].
  assert (exists b l, E = b :: l) as (b & l & EE) by (clear -HE; destruct E; [done|eauto]).
  rewrite EE in Hi, Hf. replace (train_on epoch 0 E) with (train_on epoch 0 (b :: l)) by (by rewrite EE). destruct (serves_next b l i Hi) as (i1 & -> & Hi1). rewrite bind_M.
  pose proof (fit_batches_spec epoch Hp l b fuel 0 w1 i1 Hi1 ltac:(cbn in Hf; lia)) as Hb.
  destruct (train_on epoch 0 (b :: l) w1) as [[[]|e] w2]; destruct Hb as (i2 & l2 & -> & Hi2);
    [|exists i2, j, lj; by split_and!].
  rewrite bind_M. destruct (fm_epoch_end epoch w2) as [[[]|e] w3]; [|exists i2, j, lj; by split_and!].
  destruct (serves_reset l2 i2 Hi2) as (i3 & Er & Hi3). destruct eval as [sc|].
  - pose proof (score_spec sc None epoch lj fuel w3 j Hj Hf') as Hsc. cbn [limited unread] in Hsc.
    destruct (score_on sc epoch F w3) as [[[]|e] w4]; destruct Hsc as (j2 & lj2 & -> & Hj2 & _).
    + exists i3, j2, lj2. rewrite Er. by split_and!.
    + exists i2, j2, lj2. by split_and!.
  - exists i3, j, lj. cbn. rewrite Er. by split_and!.
Qed.

Lemma fit_epochs_spec eval fuel epochs : forall w i j lj,
  prepare_never_stops -> E ≠ [] -> serves E i -> serves' lj j -> (length E <= fuel)%nat -> (length F < fuel)%nat ->
  let '(r, w') := forM (epoch_on E F eval) epochs w in
  exists i' j' lj', fit_epochs eval fuel epochs (w, i, j) = Some (r, (w', i', j')) /\
    serves' lj' j' /\ (r = Ok tt -> serves E i').
Proof.
  induction epochs as [|e epochs IH]; intros w i j lj Hp HE Hi Hj Hf Hf'; [exists i, j, lj; by split_and!|].
  cbn [forM fit_epochs]. rewrite bind_M. pose proof (fit_epoch_spec eval e fuel w i j lj Hp HE Hi Hj Hf Hf') as He.
  destruct (epoch_on E F eval e w) as [[[]|x] w1]; destruct He as (i1 & j1 & lj1 & -> & Hj1 & Hi1).
  - by apply (IH _ _ _ lj1); auto.
  - exists i1, j1, lj1. by split_and!.
Qed.

(** C6: [fit] over an iterator that keeps the iteration protocol runs forward, backward, update
    and metric on every batch of every epoch, once and in order, although it always holds the
    next batch already; after each epoch it evaluates on the whole validation data and starts
    both iterators over.  It does so within as many rounds per epoch as there are batches, an
    exception of any part ends it at once, and it leaves the iterator at the start of an
    epoch. *)
Theorem fit_trains_on_every_batch eval begin_epoch num_epoch fuel w i j lj :
  prepare_never_stops -> E ≠ [] -> serves E i -> serves' lj j -> (length E <= fuel)%nat -> (length F < fuel)%nat ->
  let '(r, w') := (_ ← fm_setup (it_provide_data i) (it_provide_label i); fit_on E F eval begin_epoch num_epoch) w in
  exists i' j', fit eval begin_epoch (Some num_epoch) fuel (w, i, j) = Some (r, (w', i', j')) /\ (r = Ok tt -> serves E i').
Proof.
  intros Hp HE Hi Hj Hf Hf'. unfold fit, fit_on. rewrite bind_M.
  destruct (fm_setup _ _ w) as [[[]|e] w1]; [|exists i, j; by split_and!].
  pose proof (fit_epochs_spec eval fuel (range_from begin_epoch 1 (Z.to_nat (num_epoch - begin_epoch))) w1 i j lj Hp HE Hi Hj Hf Hf') as He.
  destruct (forM _ _ w1) as [r w2]. destruct He as (i' & j' & lj' & -> & _ & Hi'). by exists i', j'.
Qed.

(** [score] with [num_batch] evaluates on the first [num_batch] batches, but takes one more from
    the iterator: with [reset=False] the following evaluation misses that batch. *)
Lemma score_takes_one_more sc n epoch l fuel w j :
  serves' l j -> (length F < fuel)%nat -> 0 <= n ->
  let '(r, w') := score_on sc epoch (take (Z.to_nat n) F) w in
  exists j' l', score sc (Some n) true epoch fuel (w, j) = Some (r, (w', j')) /\ serves' l' j' /\
    (r = Ok tt -> l' = drop (S (Z.to_nat n)) F).
Proof.
  intros Hs Hf Hn. pose proof (score_spec sc (Some n) epoch l fuel w j Hs Hf) as Hsc. unfold limited, unread in Hsc.
  by rewrite (proj2 (Z.leb_le 0 n)), Z.sub_0_r in Hsc by lia.
Qed.

(** An epoch without a batch: the [StopIteration] of the first [next] leaves [fit]. *)
Lemma fit_empty_epoch eval epoch fuel w i j w1 :
  serves [] i -> fm_metric_reset w = (Ok tt, w1) ->
  exists i', fit_epoch eval fuel epoch (w, i, j) = Some (Raise StopIteration, (w1, i', j)).
Proof. intros Hs Er. unfold fit_epoch. rewrite Er. destruct (serves_stop i Hs) as (i' & -> & _). eauto. Qed.
End FitSpec.

(** ** Prediction of a module that works row by row *)

(** The rows with number [j] of some arrays, and a function applied to the first [n] of them. *)
Definition sample_at (data : list NDArray) (j : nat) : list (list Z) := map (fun a => nd_rows a !!! j) data.
Definition rows_of (f : list (list Z) -> list Z) (data : list NDArray) (n : nat) : list (list Z) :=
  map (fun j => f (sample_at data j)) (seq 0 n).

Section Predict.
Context {W : Type} `{FitModule W}.

(** An output: its device and type, the shape of its rows and the function that computes them. *)
Record output := mkOutput { o_ctx : Context; o_dtype : string; o_tail : list Z; o_fun : list (list Z) -> list Z }.
Definition out_array (data : list NDArray) (n : nat) (o : output) : NDArray :=
  mkND (o_ctx o) (o_dtype o) (o_tail o) (rows_of (o_fun o) data n).

(** On a batch of [nrow] rows a forward pass gives every output, row by row. *)
Definition row_wise (nrow : nat) (outs : list output) : Prop :=
  forall b w, fm_ready w = true -> Forall (fun a => length (nd_rows a) = nrow) (b_data b) ->
  exists w', (_ ← fm_prepare b; _ ← fm_forward b (Some false); fm_outputs) w = (Ok (map (out_array (b_data b) nrow) outs), w') /\
    fm_ready w' = true.

(** A batch with [nrow] rows, some of them padding. *)
Definition padded (nrow : nat) (b : DataBatch) : Prop :=
  Forall (fun a => length (nd_rows a) = nrow) (b_data b) /\ 0 <= b_pad b < Z.of_nat nrow.
Definition valid_rows (nrow : nat) (b : DataBatch) : nat := Z.to_nat (Z.of_nat nrow - b_pad b).

Context (nrow : nat) (outs : list output) (Hrow : row_wise nrow outs).

Lemma rows_of_take f data n m : (m <= n)%nat -> take m (rows_of f data n) = rows_of f data m.
Proof.
  intros Hle. unfold rows_of. rewrite firstn_map. f_equal.
  replace n with (m + (n - m))%nat by lia. by rewrite seq_app, take_app_le, firstn_all2 by (rewrite length_seq; lia).
Qed.

Lemma unpad_rows b o :
  padded nrow b -> unpad (b_pad b) (out_array (b_data b) nrow o) = Ok (out_array (b_data b) (valid_rows nrow b) o).
Proof.
  intros [_ Hp]. unfold unpad.
  assert (nd_len (out_array (b_data b) nrow o) = Z.of_nat nrow) as Hl
    by (unfold nd_len, py_len, out_array, rows_of; cbn; by rewrite length_map, length_seq).
  rewrite slice_in_bounds, Hl by lia. unfold out_array in *. cbn [nd_ctx nd_tail nd_rows] in *. do 2 f_equal.
  unfold nd_len in Hl. cbn [nd_rows] in Hl. rewrite py_slice_in by lia. rewrite drop_0, Z.sub_0_r.
  apply rows_of_take. unfold valid_rows. lia.
Qed.

Lemma predict_one_spec b w :
  padded nrow b -> fm_ready w = true ->
  exists w', predict_one b w = (Ok (map (out_array (b_data b) (valid_rows nrow b)) outs), w') /\ fm_ready w' = true.
Proof.
  intros Hb Hw. destruct (Hrow b w Hw (proj1 Hb)) as (w' & E & Hw'). exists w'. split; [|done].
  unfold predict_one. rewrite !bind_M in *. destruct (fm_prepare b w) as [[[]|] w1]; [|done].
  rewrite !bind_M in *. destruct (fm_forward b _ w1) as [[[]|] w2]; [|done].
  rewrite bind_M, E. unfold lift. f_equal.
  rewrite (mapR_ok _ (fun a => mkND (nd_ctx a) (nd_dtype a) (nd_tail a) (take (valid_rows nrow b) (nd_rows a)))).
  - rewrite map_map. f_equal. apply map_ext. intros o. unfold out_array. cbn. f_equal. apply rows_of_take.
    destruct Hb. unfold valid_rows. lia.
  - intros a (o & -> & _)%list_elem_of_fmap. rewrite (unpad_rows b o Hb). unfold out_array. cbn. do 2 f_equal.
    symmetry. apply rows_of_take. destruct Hb. unfold valid_rows. lia.
Qed.

(** What the loop of [predict] does with a batch. *)
Definition predict_act (nbatch : Z) (b : DataBatch) : M (W * list (list NDArray)) unit :=
  o ← onW (predict_one b); modify (fun s => (s.1, s.2 ++ [o])).
Notation outs_of b := (map (out_array (b_data b) (valid_rows nrow b)) outs).

Lemma collect_outputs l : forall n w acc,
  Forall (padded nrow) l -> fm_ready w = true ->
  exists w' m, each_batch predict_act n l (w, acc) = (Ok m, (w', acc ++ map (fun b => outs_of b) l)) /\ fm_ready w' = true.
Proof.
  induction l as [|b l IH]; intros n w acc Hl Hw; cbn [each_batch map].
  { exists w, n. by rewrite app_nil_r. }
  apply Forall_cons in Hl as [Hb Hl]. destruct (predict_one_spec b w Hb Hw) as (w1 & E & Hw1).
  destruct (IH (n + 1) w1 (acc ++ [outs_of b]) Hl Hw1) as (w' & m & E' & Hw'). exists w', m. split; [|done].
  rewrite bind_M. unfold predict_act at 1. rewrite bind_M. unfold onW. cbn [fst snd]. rewrite E. cbn.
  rewrite E'. by rewrite <- app_assoc.
Qed.

(** The merged rows of one output. *)
Definition merged (F : list DataBatch) (o : output) : NDArray :=
  mkND (o_ctx o) (o_dtype o) (o_tail o) (concat (map (fun b => rows_of (o_fun o) (b_data b) (valid_rows nrow b)) F)).

Lemma merge_column uninit F i o :
  F ≠ [] -> Forall (padded nrow) F -> outs !! i = Some o ->
  (cols ← mapR (fun out => py_index out (Z.of_nat i)) (map (fun b => outs_of b) F); concatenate uninit cols true) = Ok (merged F o).
Proof.
  intros HF Hp Eo.
  assert (mapR (fun out => py_index out (Z.of_nat i)) (map (fun b => outs_of b) F) =
    Ok (map (fun b => out_array (b_data b) (valid_rows nrow b) o) F)) as ->.
  { clear HF Hp. induction F as [|b F IH]; [done|]. cbn [map mapR].
    rewrite (py_index_lookup _ i (out_array (b_data b) (valid_rows nrow b) o)) by (by rewrite list_lookup_fmap, Eo).
    cbn [mbind result_bind]. by rewrite IH. }
  cbn [mbind result_bind]. destruct F as [|b0 F]; [done|]. cbn [map]. rewrite concatenate_rows.
  - unfold merged, out_array. cbn [nd_ctx nd_tail map concat nd_rows]. by rewrite map_map.
  - rewrite <- (map_cons (fun b => out_array (b_data b) (valid_rows nrow b) o)). apply Forall_fmap.
    eapply Forall_impl; [exact Hp|]. intros b [_ Hb]. split; [|done].
    unfold nd_len, py_len, out_array, rows_of. cbn. rewrite length_map, length_seq. unfold valid_rows. lia.
Qed.

(** Merging gives, for every output, the valid rows of all batches. *)
Lemma merge_spec uninit always F :
  F ≠ [] -> Forall (padded nrow) F ->
  merge_outputs uninit (map (fun b => outs_of b) F) true always = Ok (as_prediction always (map (merged F) outs)).
Proof.
  intros HF Hp. destruct F as [|b0 F]; [done|]. unfold merge_outputs.
  change (map (fun b => outs_of b) (b0 :: F)) with (outs_of b0 :: map (fun b => outs_of b) F).
  cbv beta iota. rewrite (mapR_ok _ (fun _ => tt)).
  2: { intros a Ha. rewrite <- (map_cons (fun b => outs_of b)) in Ha. apply list_elem_of_fmap in Ha as (b & -> & _).
       by rewrite !length_map, Nat.eqb_refl. }
  cbn [mbind result_bind]. rewrite length_map.
  rewrite (mapR_ok _ (fun i => default (mkND cpu "float32" [] []) (merged (b0 :: F) <$> (outs !! i)))).
  - cbn [mbind result_bind]. do 2 f_equal. apply list_eq. intros i. rewrite !list_lookup_fmap.
    destruct (outs !! i) eqn:Eo.
    + rewrite lookup_seq_lt by (by eapply lookup_lt_Some). cbn. by rewrite Eo.
    + rewrite lookup_seq_ge by (by apply lookup_ge_None). done.
  - intros i [_ Hi]%elem_of_seq. destruct (lookup_lt_is_Some_2 outs i Hi) as [o Eo]. rewrite Eo.
    by apply (merge_column uninit (b0 :: F)).
Qed.

Lemma predict_body_act num_batch n b v :
  predict_body num_batch n b v = (if at_limit num_batch n then mret true else _ ← predict_act n b; mret false) v.
Proof.
  unfold predict_body, predict_act. destruct (at_limit _ _); [done|]. rewrite !bind_M.
  by destruct (onW (predict_one b) v) as [[]].
Qed.

Context {J : Type} {F : list DataBatch} {serves : list DataBatch -> J -> Prop} `{CyclicIter J F serves}.

Lemma predict_spec uninit always fuel w j l :
  fm_ready w = true -> serves l j -> F ≠ [] -> Forall (padded nrow) F -> (length F < fuel)%nat ->
  exists w' j' l', predict uninit None true true always fuel (w, j) =
    Some (Ok (as_prediction always (map (merged F) outs)), (w', j')) /\ serves l' j'.
Proof.
  intros Hw Hs HF Hp Hf. unfold predict. cbn [fst snd]. rewrite Hw. cbn [negb reset_data].
  destruct (serves_reset l j Hs) as (j1 & -> & Hs1).
  pose proof (for_batches_spec predict_act None F fuel 0 (w, []) j1 Hs1 Hf) as Hb. cbn zeta in Hb. cbn [limited unread] in Hb.
  destruct (collect_outputs F 0 w [] Hp Hw) as (w' & m & Ec & _). rewrite Ec in Hb.
  destruct Hb as (j2 & l2 & Eb & Hs2 & _). exists w', j2, l2. split; [|done].
  rewrite (for_batches_ext _ (fun n b => if at_limit None n then mret true else _ ← predict_act n b; mret false))
    by (intros; apply predict_body_act).
  rewrite Eb. cbn [fst snd app]. by rewrite merge_spec.
Qed.
End Predict.

Lemma chunks_concat {A} (g : nat -> A) (b n m : nat) :
  concat (map (fun i => map g (seq (i * b) (min b (n - i * b)))) (seq 0 m)) = map g (seq 0 (min (m * b) n)).
Proof.
  induction m as [|m IH]; [done|]. rewrite seq_S, map_app, concat_app, IH. cbn [map concat plus]. rewrite app_nil_r, <- map_app.
  f_equal. destruct (decide (m * b <= n)%nat).
  - rewrite (Nat.min_l (m * b)) by lia. rewrite <- seq_app. f_equal. lia.
  - replace (n - m * b)%nat with O by lia. rewrite Nat.min_0_r. cbn. rewrite app_nil_r. f_equal. lia.
Qed.

Section PredictIter.
Context {Rng : Type} (np_shuffle : Rng -> list Z -> list Z * Rng) (s0 : NDArrayIter (Rng := Rng)).
Hypothesis wf : iter_wf s0.
Hypothesis fits : batch_fits s0.
Hypothesis pad_mode : n_handle s0 = "pad"%string.
Notation n := (n_num_data s0).
Notation b := (n_batch_size s0).
Notation sources := (map snd (n_data s0)).

Lemma pad_count_bounds : 0 < b /\ 0 <= n /\ 0 <= spec_count s0 0 /\ (spec_count s0 0 - 1) * b < n <= spec_count s0 0 * b.
Proof.
  pose proof (wf_batch _ wf). assert (0 <= n) as Hn.
  { destruct wf as [_ Hd _ Hne]. destruct (n_data s0) as [|x l]; [done|].
    apply Forall_cons in Hd as [<- _]. apply py_len_nonneg. }
  unfold spec_count. rewrite (proj2 (padding_handle s0) pad_mode).
  pose proof (Z.div_mod (n + b - 1) b ltac:(lia)). pose proof (Z.mod_pos_bound (n + b - 1) b ltac:(lia)).
  split_and!; [lia|lia|apply Z.div_pos; lia|nia|nia].
Qed.

Lemma epoch_data i :
  b_data (epoch_batch s0 i) = map (fun x => with_rows x.2 (batch_at b (nd_rows x.2 ++ nd_rows x.2) i)) (n_data s0).
Proof.
  unfold epoch_batch, spec_batch, spec_arrays. cbn [b_data]. induction (n_data s0) as [|x l IH]; [done|].
  cbn [length replicate zip_with map]. rewrite IH. unfold feed. by rewrite (proj2 (padding_handle s0) pad_mode).
Qed.

(** The rows of a batch, below the padding. *)
Lemma epoch_padded i : 0 <= i < spec_count s0 0 -> padded (Z.to_nat b) (epoch_batch s0 i).
Proof.
  intros Hi. destruct pad_count_bounds as (Hb & Hn & Hc & Hm). destruct fits as [Hf _]. specialize (Hf pad_mode). split.
  - rewrite epoch_data. apply Forall_fmap. eapply Forall_impl; [apply (wf_data _ wf)|]. intros x Hx. cbn.
    unfold batch_at. assert (py_len (py_slice (nd_rows x.2 ++ nd_rows x.2) (i * b) ((i + 1) * b)) = b) as Hl.
    { rewrite py_slice_len; [lia|nia|nia|]. rewrite py_len_app. unfold nd_len in Hx. rewrite Hx. 
      destruct (decide (i = 0)) as [->|]; nia. }
    unfold py_len in Hl. lia.
  - cbn. unfold spec_pad. rewrite (proj2 (padding_handle s0) pad_mode). nia.
Qed.

Lemma epoch_sample i j :
  0 <= i < spec_count s0 0 -> (j < Z.to_nat b)%nat -> i * b + Z.of_nat j < n ->
  sample_at (b_data (epoch_batch s0 i)) j = sample_at sources (Z.to_nat (i * b) + j).
Proof.
  intros Hi Hj Hlt. destruct pad_count_bounds as (Hb & Hn & Hc & Hm). destruct fits as [Hf _]. specialize (Hf pad_mode).
  rewrite epoch_data. unfold sample_at. rewrite !map_map. apply map_ext_in. intros x Hx%list_elem_of_In. cbn.
  pose proof (wf_data _ wf) as Hd. rewrite Forall_forall in Hd. specialize (Hd x Hx). unfold nd_len, py_len in Hd.
  unfold batch_at. rewrite py_slice_in by (rewrite ?py_len_app; unfold py_len; destruct (decide (i = 0)) as [->|]; nia).
  rewrite !list_lookup_total_alt, lookup_take_lt, lookup_drop, lookup_app_l by nia. done.
Qed.

Lemma epoch_rows f :
  concat (map (fun x => rows_of f (b_data x) (valid_rows (Z.to_nat b) x)) (epoch_batches s0)) = rows_of f sources (Z.to_nat n).
Proof.
  destruct pad_count_bounds as (Hb & Hn & Hc & Hm). unfold epoch_batches, py_range, range_from. rewrite !map_map.
  rewrite (map_ext_in _ (fun i => map (fun j => f (sample_at sources j))
    (seq (i * Z.to_nat b) (min (Z.to_nat b) (Z.to_nat n - i * Z.to_nat b))))).
  - rewrite chunks_concat. unfold rows_of. do 2 f_equal. nia.
  - intros i Hi%in_seq. unfold rows_of, valid_rows. cbn [b_pad epoch_batch spec_batch].
    unfold spec_pad. rewrite (proj2 (padding_handle s0) pad_mode).
    rewrite <- (Nat.add_0_r (i * Z.to_nat b)), <- fmap_add_seq, map_map.
    replace (Z.to_nat (Z.of_nat (Z.to_nat b) - _)) with (min (Z.to_nat b) (Z.to_nat n - (i * Z.to_nat b + 0))) by nia.
    apply map_ext_in. intros j Hj%in_seq. rewrite epoch_sample by nia. do 2 f_equal. nia.
Qed.

Context {W : Type} `{FitModule W}.

(** C20: [predict] with a module that computes its outputs row by row, over a new [NDArrayIter] in
    [pad] mode without shuffling, whose sources have equally many rows and whose batch size is at most
    twice that number, returns for every output one row for every sample, in the order of the
    samples: the rows that pad the last batch are cut off before the batches are merged.  The
    number of batches is a bound for the rounds. *)
Theorem predict_one_row_per_sample outs uninit always fuel w :
  row_wise (Z.to_nat b) outs -> fm_ready w = true -> n_shuffle s0 = false -> n_cursor s0 = - b -> 0 < n ->
  (Z.to_nat (spec_count s0 0) < fuel)%nat ->
  exists w' it', predict (H1 := NDArrayIter_DataIter np_shuffle) uninit None true true always fuel (w, s0) =
    Some (Ok (as_prediction always (map (out_array sources (Z.to_nat n)) outs)), (w', it')).
Proof.
  intros Hrow Hw Hsh Hcur Hn Hf. destruct pad_count_bounds as (Hb & _ & Hc & Hm).
  assert (n_handle s0 ≠ "roll_over"%string) as Hno by (by rewrite pad_mode).
  pose proof (NDArrayIter_Cyclic np_shuffle s0 wf fits Hsh Hno Hcur) as Hcyc.
  assert (length (epoch_batches s0) = Z.to_nat (spec_count s0 0)) as Hl
    by (unfold epoch_batches, py_range, range_from; by rewrite !length_map, length_seq).
  destruct (predict_spec (Z.to_nat b) outs Hrow (H1 := Hcyc)
    uninit always fuel w s0 (epoch_batches s0)) as (w' & it' & _ & E & _).
  - done.
  - exists 0, (n_cache_data s0), (n_cache_label s0). split_and!; [lia|rewrite (at_eta s0) at 1; by rewrite Hcur|].
    by rewrite Z.sub_0_r.
  - intros E. rewrite E in Hl. cbn in Hl. nia.
  - apply Forall_fmap, Forall_forall. intros i (j & -> & Hj%elem_of_seq)%list_elem_of_fmap. apply epoch_padded. lia.
  - lia.
  - exists w', it'. etrans; [exact E|]. do 4 f_equal. apply map_ext. intros o. unfold merged, out_array. f_equal. apply epoch_rows.
Qed.
End PredictIter.

(** ** Witnesses: a module that writes down what it is asked to do *)

Record recorder := mkRecorder { rec_log : list (string * Z); rec_out : list NDArray }.
Definition note (ev : string) (z : Z) : M recorder unit := modify (fun r => mkRecorder (rec_log r ++ [(ev, z)]) (rec_out r)).
Definition first_value (b : DataBatch) : Z := match b_data b with mkND _ _ _ ((z :: _) :: _) :: _ => z | _ => 0 end.

(** Its one output doubles the first number of a row; it is bound for three rows. *)
Definition doubled : output := mkOutput cpu "float32" [] (fun rows => match rows with (z :: _) :: _ => [2 * z] | _ => [] end).
Definition recorder_forward (b : DataBatch) (is_train : option bool) : M recorder unit :=
  _ ← note (if default true is_train then "train" else "eval") (first_value b);
  modify (fun r => mkRecorder (rec_log r) [out_array (b_data b) 3 doubled]).

#[local] Instance recorder_FitModule : FitModule recorder := {
  fm_ready _ := true;
  fm_setup ds ls := note "setup" (py_len ds + py_len ls);
  fm_prepare b := note "prepare" (first_value b);
  fm_forward := recorder_forward;
  fm_backward := mret tt;
  fm_update := note "update" 0;
  fm_outputs := r ← get; mret (rec_out r);
  fm_tic := mret tt;
  fm_toc := mret tt;
  fm_metric_reset := mret tt;
  fm_metric_update b := mret tt;
  fm_metric_values := mret tt;
  fm_batch_end epoch nbatch := mret tt;
  fm_epoch_end epoch := note "epoch" epoch;
}.
Definition recorder_scoring : scoring recorder := mkScoring (mret tt) (fun _ => mret tt) (fun _ _ => mret tt) (fun _ n => note "scored" n).

Lemma recorder_prepare : prepare_never_stops (W := recorder).
Proof. intros b w. done. Qed.

Lemma five_cyclic : CyclicIter (H := NDArrayIter_DataIter no_shuffle) NDArrayIter (epoch_batches (five "pad" 3 false)) (nd_serves (five "pad" 3 false)).
Proof. apply NDArrayIter_Cyclic; [by apply five_wf|apply five_fits|done|done|done]. Qed.
Lemma five_serves : nd_serves (five "pad" 3 false) (epoch_batches (five "pad" 3 false)) (five "pad" 3 false).
Proof. exists 0, None, None. by split_and!. Qed.

(** Two batches, one epoch: the second batch is prepared before the first one is finished. *)
Example fit_trains_on_every_batch_witness :
  exists i' j', fit (H0 := NDArrayIter_DataIter no_shuffle) (H1 := NDArrayIter_DataIter no_shuffle)
      (Some recorder_scoring) 0 (Some 1) 3 (mkRecorder [] [], five "pad" 3 false, five "pad" 3 false) =
    Some (Ok tt, (mkRecorder
      [("setup", 2); ("train", 10); ("update", 0); ("prepare", 13); ("train", 13); ("update", 0); ("epoch", 0);
       ("prepare", 10); ("eval", 10); ("prepare", 13); ("eval", 13); ("scored", 2)]%string
      [mkND cpu "float32" [] [[26]; [28]; [20]]], i', j')).
Proof.
  pose proof (fit_trains_on_every_batch (CyclicIter0 := five_cyclic) (CyclicIter1 := five_cyclic) (Some recorder_scoring) 0 1 3
    (mkRecorder [] []) (five "pad" 3 false) (five "pad" 3 false) _ recorder_prepare ltac:(done) five_serves five_serves
    ltac:(vm_compute; lia) ltac:(vm_compute; lia)) as Hfit.
  match type of Hfit with let '(_, _) := ?t in _ => let v := eval vm_compute in t in change t with v in Hfit end.
  destruct Hfit as (i' & j' & E & _). exists i', j'. exact E.
Defined.

Lemma recorder_rows : row_wise 3 [doubled].
Proof. intros b w _ _. eexists. split; reflexivity. Qed.

Example predict_one_row_per_sample_witness :
  exists w' it', predict (H1 := NDArrayIter_DataIter no_shuffle) [] None true true false 3 (mkRecorder [] [], five "pad" 3 false) =
    Some (Ok (POne (mkND cpu "float32" [] [[20]; [22]; [24]; [26]; [28]])), (w', it')).
Proof.
  apply (predict_one_row_per_sample no_shuffle (five "pad" 3 false) (five_wf "pad" 3 false ltac:(lia)) (five_fits "pad" false) eq_refl
    [doubled] [] false 3); [apply recorder_rows|done|done|done|done|vm_compute; lia].
Defined.
