(* ===== verification/Prefetch.v ===== *)
(** * The prefetching iterator

    [PrefetchingIter] of [io/io.py]: one thread per inner iterator fetches the next
    batch while the consumer works on the current one; a pair of events per thread
    hands batches over.  [pf_step] interleaves the consumer and the threads one
    event operation at a time.  The threads run until the iterator is deleted;
    deletion is not modelled. *)

From S2P Require Import Prelude NDArray DataIter.

Section Prefetch.
Context {I : Type} `{DataIter I}.
Context (rename_data rename_label : option (list (gmap string string))).

(** ** [provide_data] and [provide_label] *)

Definition renamed (r : gmap string string) (x : DataDesc) : result DataDesc :=
  name ← py_getitem r (desc_name x); Ok (DataDesc_new name (desc_shape x) (Some (desc_dtype x))).

Definition pf_provide (rename : option (list (gmap string string))) (descs : list (list DataDesc))
  : result (list DataDesc) :=
  match rename with
  | None => Ok (concat descs)
  | Some rs => (@concat DataDesc) <$> mapR (fun p => mapR (renamed p.1) p.2) (zip rs descs)
  end.

(** ** State *)

(** Where a thread is in [prefetch_func]. *)
Inductive thread_pc := TWait | TFetch | TClear | TSet | TDead.

Record thread := mkThread {
  t_pc : thread_pc;
  t_iter : I;
  t_taken : bool;
  t_ready : bool;
  t_batch : option DataBatch;
}.

Inductive call := CNext | CReset.

(** Where the consumer is: between calls, waiting for the [j]-th thread, resetting
    the [j]-th iterator, or handing over to the [j]-th thread with the value to
    return. *)
Inductive consumer_pc :=
  | CIdle
  | CWaiting (c : call) (j : nat)
  | CResetting (j : nat)
  | CClear (r : option DataBatch) (j : nat)
  | CSet (r : option DataBatch) (j : nat).

Record pf := mkPf {
  p_threads : list thread;
  p_main : consumer_pc;
  p_calls : list call;
  p_out : list (result (option DataBatch));
}.

(** [PrefetchingIter.__init__], with the calls the consumer is going to make. *)
Definition pf_init (iters : list I) (calls : list call) : result pf :=
  _ ← py_assert (0 <? py_len iters);
  Ok (mkPf (map (fun it => mkThread TWait it true false None) iters) CIdle calls []).

Definition set_thread (s : pf) (j : nat) (t : thread) : pf :=
  mkPf (<[j := t]> (p_threads s)) (p_main s) (p_calls s) (p_out s).
Definition goto (s : pf) (m : consumer_pc) : pf := mkPf (p_threads s) m (p_calls s) (p_out s).
Definition return_ (s : pf) (r : result (option DataBatch)) : pf :=
  mkPf (p_threads s) CIdle (p_calls s) (p_out s ++ [r]).

(** ** The threads *)

(** One operation of [prefetch_func]; [None] while the thread waits. *)
Definition thread_step (t : thread) : option thread :=
  match t_pc t with
  | TWait => if t_taken t then Some (mkThread TFetch (t_iter t) (t_taken t) (t_ready t) (t_batch t)) else None
  | TFetch =>
      match it_next (t_iter t) with
      | (Ok b, it) => Some (mkThread TClear it (t_taken t) (t_ready t) (Some b))
      | (Raise StopIteration, it) => Some (mkThread TClear it (t_taken t) (t_ready t) None)
      | (Raise _, it) => Some (mkThread TDead it (t_taken t) (t_ready t) (t_batch t))
      end
  | TClear => Some (mkThread TSet (t_iter t) false (t_ready t) (t_batch t))
  | TSet => Some (mkThread TWait (t_iter t) (t_taken t) true (t_batch t))
  | TDead => None
  end.

(** ** The consumer *)

(** The body of [iter_next] once every thread is ready: the batches are put
    together, or the iterators are found to disagree. *)
Definition same_pad (pad : Z) (x : option DataBatch) : result unit :=
  match x with
  | Some b => py_assert (b_pad b =? pad)
  | None => Raise AttributeError
  end.

Definition batch_arrays (f : DataBatch -> list NDArray) (next : list (option DataBatch)) : list NDArray :=
  concat (map (fun x => match x with Some b => f b | None => [] end) next).

Definition iter_next_body (threads : list thread) : result (option DataBatch) :=
  let next := map t_batch threads in
  match next with
  | [] => Raise IndexError
  | None :: _ => _ ← mapR (fun x => py_assert (bool_decide (x = None))) next; Ok None
  | Some b0 :: _ =>
      _ ← mapR (same_pad (b_pad b0)) next;
      pd ← pf_provide rename_data (map (fun t => it_provide_data (t_iter t)) threads);
      pl ← pf_provide rename_label (map (fun t => it_provide_label (t_iter t)) threads);
      Ok (Some (mkBatch (batch_arrays b_data next) (batch_arrays b_label next)
                  (b_pad b0) (b_index b0) None (Some pd) (Some pl)))
  end.

(** One operation of the consumer; [None] while it waits or has no more calls. *)
Definition consumer_step (s : pf) : option pf :=
  match p_main s with
  | CIdle =>
      match p_calls s with
      | [] => None
      | c :: cs => Some (mkPf (p_threads s) (CWaiting c 0) cs (p_out s))
      end
  | CWaiting c j =>
      match p_threads s !! j with
      | Some t => if t_ready t then Some (goto s (CWaiting c (S j))) else None
      | None =>
          match c with
          | CNext => match iter_next_body (p_threads s) with
                     | Ok (Some b) => Some (goto s (CClear (Some b) 0))
                     | Ok None => Some (return_ s (Raise StopIteration))
                     | Raise e => Some (return_ s (Raise e))
                     end
          | CReset => Some (goto s (CResetting 0))
          end
      end
  | CResetting j =>
      match p_threads s !! j with
      | Some t =>
          match it_reset (t_iter t) with
          | (Ok _, it) => Some (goto (set_thread s j (mkThread (t_pc t) it (t_taken t) (t_ready t) (t_batch t)))
                                     (CResetting (S j)))
          | (Raise e, it) => Some (return_ (set_thread s j (mkThread (t_pc t) it (t_taken t) (t_ready t) (t_batch t)))
                                     (Raise e))
          end
      | None => Some (goto s (CClear None 0))
      end
  | CClear r j =>
      match p_threads s !! j with
      | Some t => Some (goto (set_thread s j (mkThread (t_pc t) (t_iter t) (t_taken t) false (t_batch t)))
                             (CClear r (S j)))
      | None => Some (goto s (CSet r 0))
      end
  | CSet r j =>
      match p_threads s !! j with
      | Some t => Some (goto (set_thread s j (mkThread (t_pc t) (t_iter t) true (t_ready t) (t_batch t)))
                             (CSet r (S j)))
      | None => Some (return_ s (Ok r))
      end
  end.

Inductive pf_step : pf -> pf -> Prop :=
  | step_thread s j t t' :
      p_threads s !! j = Some t -> thread_step t = Some t' -> pf_step s (set_thread s j t')
  | step_consumer s s' : consumer_step s = Some s' -> pf_step s s'.
End Prefetch.
Arguments thread I : clear implicits.
Arguments pf I : clear implicits.

(** ** The sequential specification *)

Section Correct.
Context {I : Type} `{DataIter I}.
Context (rename_data rename_label : option (list (gmap string string))).

(** Iterator [i] keeps the iteration protocol with the epoch [epoch i]; the epochs
    are equally long, their batches agree on padding, and the descriptions do not
    change. *)
Context (num : nat) (epoch : nat -> list DataBatch) (serves : nat -> list DataBatch -> I -> Prop).
Context `{forall i, CyclicIter I (epoch i) (serves i)}.
Context (len : nat) (descs labels : nat -> list DataDesc) (pd pl : list DataDesc).
Hypothesis some : (0 < num)%nat.
Hypothesis same_len : forall i, (i < num)%nat -> length (epoch i) = len.
Hypothesis pads_agree : forall i k b b0, (i < num)%nat ->
  epoch i !! k = Some b -> epoch 0 !! k = Some b0 -> b_pad b = b_pad b0.
Hypothesis provided : forall i l it, serves i l it ->
  it_provide_data it = descs i /\ it_provide_label it = labels i.
Hypothesis provide_data_ok : pf_provide rename_data (map descs (seq 0 num)) = Ok pd.
Hypothesis provide_label_ok : pf_provide rename_label (map labels (seq 0 num)) = Ok pl.

Notation step := (pf_step rename_data rename_label).

(** The [k]-th batch of the combined iterator. *)
Definition combined (k : nat) : option DataBatch :=
  b0 ← epoch 0 !! k;
  Some (mkBatch (batch_arrays b_data (map (fun i => epoch i !! k) (seq 0 num)))
                (batch_arrays b_label (map (fun i => epoch i !! k) (seq 0 num)))
                (b_pad b0) (b_index b0) None (Some pd) (Some pl)).

(** One call on an iterator that has delivered [k] batches since its last reset. *)
Definition spec_call (k : nat) (c : call) : result (option DataBatch) * nat :=
  match c with
  | CNext => match combined k with
             | Some b => (Ok (Some b), S k)
             | None => (Raise StopIteration, k)
             end
  | CReset => (Ok None, O)
  end.

Fixpoint spec_run (k : nat) (cs : list call) : list (result (option DataBatch)) * nat :=
  match cs with
  | [] => ([], k)
  | c :: cs => let '(r, k') := spec_call k c in
               let '(rs, k'') := spec_run k' cs in (r :: rs, k'')
  end.

Lemma spec_run_snoc k cs c :
  spec_run k (cs ++ [c]) =
    let '(rs, k') := spec_run k cs in let '(r, k'') := spec_call k' c in (rs ++ [r], k'').
Proof.
  revert k. induction cs as [|d cs IH]; intros k; simpl.
  - by destruct (spec_call k c).
  - destruct (spec_call k d) as [r k1]. rewrite IH. destruct (spec_run k1 cs) as [rs k2].
    by destruct (spec_call k2 c).
Qed.

(** ** The invariant *)

(** What thread [i] can be in when [k] batches have been delivered: fetching batch
    [k] (or blocked after it), or blocked and about to be released. *)
Notation rest i k := (drop k (epoch i)).

Definition fetched (i k : nat) (t : thread I) : Prop :=
  t_batch t = epoch i !! k /\ serves i (rest i (S k)) (t_iter t).

Definition working (i k : nat) (t : thread I) : Prop :=
  t_ready t = false /\
  match t_pc t with
  | TWait | TFetch => t_taken t = true /\ serves i (rest i k) (t_iter t)
  | TClear => t_taken t = true /\ fetched i k t
  | TSet => t_taken t = false /\ fetched i k t
  | TDead => False
  end.

Definition blocked (ready : bool) (t : thread I) : Prop :=
  t_pc t = TWait /\ t_taken t = false /\ t_ready t = ready.

Definition has_batch (i k : nat) (t : thread I) : Prop := blocked true t /\ fetched i k t.
Definition emptied (ready : bool) (i k : nat) (t : thread I) : Prop :=
  blocked ready t /\ serves i (rest i k) (t_iter t).
Definition thread_running (i k : nat) (t : thread I) : Prop := working i k t \/ has_batch i k t.

(** The threads before position [j] satisfy one predicate, the others another. *)
Definition split_at (j : nat) (P Q : nat -> thread I -> Prop) (ts : list (thread I)) : Prop :=
  length ts = num /\
  forall i t, ts !! i = Some t -> if decide (i < j)%nat then P i t else Q i t.

(** The calls made so far, the batches delivered since the last reset, and what the
    threads are doing at each point of the consumer. *)
Definition pf_inv (calls : list call) (s : pf I) : Prop :=
  exists made k, (made ++ match p_main s with CIdle => [] | CWaiting c _ => [c] | CResetting _ => [CReset]
                         | CClear r _ | CSet r _ => [match r with Some _ => CNext | None => CReset end] end)
                 ++ p_calls s = calls /\
  spec_run 0 made = (p_out s, k) /\
  match p_main s with
  | CIdle => split_at 0 (fun i => thread_running i k) (fun i => thread_running i k) (p_threads s)
  | CWaiting c j => split_at j (fun i => has_batch i k) (fun i => thread_running i k) (p_threads s)
  | CResetting j => split_at j (fun i => emptied true i 0) (fun i => has_batch i k) (p_threads s)
  | CClear r j =>
      exists k', spec_call k (match r with Some _ => CNext | None => CReset end) = (Ok r, k') /\
      split_at j (fun i => emptied false i k') (fun i => emptied true i k') (p_threads s)
  | CSet r j =>
      exists k', spec_call k (match r with Some _ => CNext | None => CReset end) = (Ok r, k') /\
      split_at j (fun i => thread_running i k') (fun i => emptied false i k') (p_threads s)
  end.

Lemma split_impl j P Q (P' Q' : nat -> thread I -> Prop) ts :
  split_at j P Q ts -> (forall i t, P i t -> P' i t) -> (forall i t, Q i t -> Q' i t) -> split_at j P' Q' ts.
Proof. intros [Hl Hs] HP HQ. split; [done|]. intros i t Ht. specialize (Hs i t Ht). case_decide; auto. Qed.

(** Moving the boundary when the predicates agree there. *)
Lemma split_move j j' P Q ts :
  split_at j P Q ts ->
  (forall i t, ts !! i = Some t -> (i < j)%nat -> ~ (i < j')%nat -> P i t -> Q i t) ->
  (forall i t, ts !! i = Some t -> ~ (i < j)%nat -> (i < j')%nat -> Q i t -> P i t) ->
  split_at j' P Q ts.
Proof.
  intros [Hl Hs] H1 H2. split; [done|]. intros i t Ht. specialize (Hs i t Ht).
  repeat case_decide; eauto.
Qed.

Lemma split_insert j P Q ts t :
  split_at j P Q ts -> (j < num)%nat -> P j t -> split_at (S j) P Q (<[j := t]> ts).
Proof.
  intros [Hl Hs] Hj HP. split; [by rewrite length_insert|]. intros i t' Ht.
  apply list_lookup_insert_Some in Ht as [(<- & <- & _)|(Hne & Ht)].
  - by rewrite decide_True by lia.
  - specialize (Hs i t' Ht). repeat case_decide; try done; lia.
Qed.

(** All threads satisfy the second predicate, or the first one. *)
Lemma split_all_r P Q ts : split_at 0 P Q ts -> forall R, split_at 0 R Q ts.
Proof. intros [Hl Hs] R. split; [done|]. intros i t Ht. specialize (Hs i t Ht). by case_decide; [lia|]. Qed.

Lemma split_all_l j P Q ts : split_at j P Q ts -> ts !! j = None -> forall R, split_at 0 R P ts.
Proof.
  intros [Hl Hs] Hj R. apply lookup_ge_None in Hj. split; [done|]. intros i t Ht.
  pose proof (lookup_lt_Some _ _ _ Ht). specialize (Hs i t Ht). rewrite decide_True in Hs by lia.
  by case_decide; [lia|].
Qed.

(** ** Preservation *)

Definition closed (P : nat -> thread I -> Prop) : Prop :=
  forall i t t', P i t -> thread_step t = Some t' -> P i t'.

Lemma blocked_stuck ready t : blocked ready t -> thread_step t = None.
Proof. intros (Hp & Ht & _). unfold thread_step. by rewrite Hp, Ht. Qed.

Lemma closed_has_batch k : closed (fun i => has_batch i k).
Proof. intros i t t' [Hb _] E. by rewrite (blocked_stuck _ _ Hb) in E. Qed.

Lemma closed_emptied r k : closed (fun i => emptied r i k).
Proof. intros i t t' [Hb _] E. by rewrite (blocked_stuck _ _ Hb) in E. Qed.

Lemma closed_running k : closed (fun i => thread_running i k).
Proof.
  intros i t t' [[Hr Hw]|[Hb _]] E; [|by rewrite (blocked_stuck _ _ Hb) in E].
  unfold thread_step in E. destruct t as [pc it tk rd bt]. cbn in *. destruct pc.
  - destruct Hw as [-> Hs]. simplify_eq. left. by split.
  - destruct Hw as [-> Hs]. left. destruct (epoch i !! k) as [x|] eqn:Ex.
    + rewrite (drop_S _ _ _ Ex) in Hs. destruct (serves_next x _ it Hs) as (it' & En & Hs').
      rewrite En in E. simplify_eq. by repeat split.
    + apply lookup_ge_None in Ex. rewrite drop_ge in Hs by done.
      destruct (serves_stop it Hs) as (it' & En & Hs'). rewrite En in E. simplify_eq.
      repeat split; cbn; [symmetry; by apply lookup_ge_None|]. by rewrite drop_ge by lia.
  - destruct Hw as (-> & Hb & Hs). simplify_eq. left. by repeat split.
  - destruct Hw as (-> & Hb & Hs). simplify_eq. right. by repeat split.
  - done.
Qed.

Lemma split_thread j P Q ts i t t' :
  closed P -> closed Q -> split_at j P Q ts -> ts !! i = Some t -> thread_step t = Some t' ->
  split_at j P Q (<[i := t']> ts).
Proof.
  intros HP HQ [Hl Hs] Ht Et. split; [by rewrite length_insert|]. intros i' t1 Ht1.
  apply list_lookup_insert_Some in Ht1 as [(<- & <- & _)|(Hne & Ht1)]; [|by apply Hs].
  specialize (Hs _ _ Ht). case_decide; eauto.
Qed.

Lemma thread_inv calls s j t t' :
  pf_inv calls s -> p_threads s !! j = Some t -> thread_step t = Some t' -> pf_inv calls (set_thread s j t').
Proof.
  intros (made & k & Hc & Ho & Hm) Ht Et. exists made, k. split_and!; [done|done|]. cbn.
  destruct (p_main s) as [|c m|m|r m|r m].
  - by eapply split_thread; [apply closed_running..| | |].
  - by eapply split_thread; [apply closed_has_batch|apply closed_running| | |].
  - by eapply split_thread; [apply closed_emptied|apply closed_has_batch| | |].
  - destruct Hm as (k' & E & Hm). exists k'. split; [done|].
    by eapply split_thread; [apply closed_emptied|apply closed_emptied| | |].
  - destruct Hm as (k' & E & Hm). exists k'. split; [done|].
    by eapply split_thread; [apply closed_running|apply closed_emptied| | |].
Qed.

(** When every thread holds its batch, [iter_next] does what the specification says. *)
Lemma threads_batches k ts :
  split_at 0 (fun i => has_batch i k) (fun i => has_batch i k) ts ->
  map t_batch ts = map (fun i => epoch i !! k) (seq 0 num) /\
  map (fun t => it_provide_data (t_iter t)) ts = map descs (seq 0 num) /\
  map (fun t => it_provide_label (t_iter t)) ts = map labels (seq 0 num).
Proof.
  intros [Hl Hs].
  assert (forall i t, ts !! i = Some t -> has_batch i k t) as Hall.
  { intros i t Ht. specialize (Hs i t Ht). by case_decide. }
  assert (forall A (f : thread I -> A) (g : nat -> A),
    (forall i t, ts !! i = Some t -> f t = g i) -> (map f ts = map g (seq 0 num))) as Hm.
  { intros A f g Hfg. apply list_eq. intros i. change (map ?h ?l) with (h <$> l).
    rewrite !list_lookup_fmap. destruct (ts !! i) as [t|] eqn:Ht; cbn.
    - pose proof (lookup_lt_Some _ _ _ Ht). rewrite lookup_seq_lt by lia. cbn. by rewrite (Hfg i t Ht).
    - apply lookup_ge_None in Ht. by rewrite lookup_seq_ge by lia. }
  split_and!; apply Hm; intros i t Ht; destruct (Hall i t Ht) as (_ & Hb & Hsv); [done|..];
    by apply (provided i _ _ Hsv).
Qed.

Lemma epoch_lookup i k : (i < num)%nat -> is_Some (epoch i !! k) <-> is_Some (epoch 0 !! k).
Proof. intros Hi. rewrite !lookup_lt_is_Some. by rewrite !same_len by lia. Qed.

Lemma body_spec k ts :
  split_at 0 (fun i => has_batch i k) (fun i => has_batch i k) ts ->
  iter_next_body rename_data rename_label ts = Ok (combined k).
Proof.
  intros Hs. destruct (threads_batches k ts Hs) as (E1 & E2 & E3). unfold iter_next_body, combined.
  rewrite E1, E2, E3, provide_data_ok, provide_label_ok.
  set (next := map (fun i => epoch i !! k) (seq 0 num)).
  assert (forall x, x ∈ next -> exists i, (i < num)%nat /\ x = epoch i !! k) as Hnext.
  { intros x (i & -> & Hi%elem_of_seq)%list_elem_of_fmap. exists i. split; [lia|done]. }
  assert (exists l, next = epoch 0 !! k :: l) as [l El].
  { unfold next. destruct num as [|m]; [lia|]. by eexists. }
  rewrite El in Hnext |- *. clear El next. destruct (epoch 0 !! k) as [b0|] eqn:E0.
  - rewrite (mapR_ok _ (fun _ => tt)); [done|]. intros x Hx. destruct (Hnext x Hx) as (i & Hi & ->).
    destruct (epoch i !! k) as [b|] eqn:Ei.
    + cbn. by rewrite (pads_agree i k b b0 Hi Ei E0), Z.eqb_refl.
    + destruct (proj2 (epoch_lookup i k Hi)) as [? ?]; [by rewrite E0|congruence].
  - rewrite (mapR_ok _ (fun _ => tt)); [done|]. intros x Hx. destruct (Hnext x Hx) as (i & Hi & ->).
    destruct (epoch i !! k) as [b|] eqn:Ei; [|done].
    destruct (proj1 (epoch_lookup i k Hi)) as [? ?]; [by rewrite Ei|congruence].
Qed.

Lemma split_lookup j P Q ts t : split_at j P Q ts -> ts !! j = Some t -> Q j t /\ (j < num)%nat.
Proof.
  intros [Hl Hs] Ht. pose proof (lookup_lt_Some _ _ _ Ht). specialize (Hs j t Ht).
  rewrite decide_False in Hs by lia. split; [done|lia].
Qed.

(** The consumer's last step in a call: the call joins those made. *)
Lemma return_inv calls s made k c r k' :
  (made ++ [c]) ++ p_calls s = calls -> spec_run 0 made = (p_out s, k) -> spec_call k c = (r, k') ->
  split_at 0 (fun i => thread_running i k') (fun i => thread_running i k') (p_threads s) ->
  pf_inv calls (return_ s r).
Proof.
  intros Hc Ho Es Hs. exists (made ++ [c]), k'. cbn. rewrite app_nil_r. split_and!; [done| |done].
  by rewrite spec_run_snoc, Ho, Es.
Qed.

Lemma waiting_inv calls s c j s' :
  p_main s = CWaiting c j -> pf_inv calls s -> consumer_step rename_data rename_label s = Some s' -> pf_inv calls s'.
Proof.
  intros Em (made & k & Hc & Ho & Hm) Hs. unfold consumer_step in Hs. rewrite Em in *.
  destruct (p_threads s !! j) as [t|] eqn:Et.
  - destruct (t_ready t) eqn:Er; [|done]. simplify_eq. exists made, k. cbn. split_and!; [done|done|].
    apply (split_move j); [done|intros; lia|]. intros i t' Ht' H1 H2 [[Hr _]|Hb]; [|done].
    assert (i = j) as -> by lia. congruence.
  - pose proof (split_all_l _ _ _ _ Hm Et (fun i => has_batch i k)) as Hall. destruct c.
    + rewrite (body_spec k _ Hall) in Hs. destruct (combined k) as [b|] eqn:Eb; simplify_eq.
      * exists made, k. cbn. split_and!; [done|done|]. exists (S k). rewrite Eb. split; [done|].
        eapply split_impl; [exact (split_all_r _ _ _ Hall (fun i => emptied false i (S k)))|done|].
        intros i t (Hb & _ & Hsv). by split.
      * eapply return_inv; [done|done|unfold spec_call; by rewrite Eb|].
        eapply split_impl; [exact Hall|by right|by right].
    + simplify_eq. exists made, k. cbn. split_and!; [done|done|]. by apply (split_all_r _ _ _ Hall).
Qed.

Lemma main_inv calls s s' :
  pf_inv calls s -> consumer_step rename_data rename_label s = Some s' -> pf_inv calls s'.
Proof.
  intros Hinv Hs. destruct (p_main s) as [|c j|j|r j|r j] eqn:Em.
  2: by eapply waiting_inv.
  all: destruct Hinv as (made & k & Hc & Ho & Hm); unfold consumer_step in Hs; rewrite Em in *.
  - destruct (p_calls s) as [|c cs] eqn:Ec; simplify_eq. exists made, k. cbn. split_and!; [|done|].
    + rewrite app_nil_r. by rewrite <- app_assoc.
    + by apply (split_all_r _ _ _ Hm).
  - destruct (p_threads s !! j) as [t|] eqn:Et.
    + destruct (split_lookup _ _ _ _ _ Hm Et) as [(Hb & _ & Hsv) Hj].
      destruct (serves_reset _ _ Hsv) as (it & Er & Hsv'). rewrite Er in Hs. simplify_eq.
      exists made, k. cbn. split_and!; [done|done|]. apply split_insert; [done|done|]. by split.
    + simplify_eq. exists made, k. cbn. split_and!; [done|done|]. exists 0%nat. split; [done|].
      by apply (split_all_l _ _ _ _ Hm Et).
  - destruct Hm as (k' & Es & Hm). destruct (p_threads s !! j) as [t|] eqn:Et.
    + destruct (split_lookup _ _ _ _ _ Hm Et) as [((Hp & Htk & _) & Hsv) Hj]. simplify_eq.
      exists made, k. cbn. split_and!; [done|done|]. exists k'. split; [done|].
      apply split_insert; [done|done|]. by split.
    + simplify_eq. exists made, k. cbn. split_and!; [done|done|]. exists k'. split; [done|].
      by apply (split_all_l _ _ _ _ Hm Et).
  - destruct Hm as (k' & Es & Hm). destruct (p_threads s !! j) as [t|] eqn:Et.
    + destruct (split_lookup _ _ _ _ _ Hm Et) as [((Hp & Htk & Hrd) & Hsv) Hj]. simplify_eq.
      exists made, k. cbn. split_and!; [done|done|]. exists k'. split; [done|].
      apply split_insert; [done|done|]. left. split; cbn; [done|]. by rewrite Hp.
    + simplify_eq. eapply return_inv; [done|done|done|]. by apply (split_all_l _ _ _ _ Hm Et).
Qed.

Lemma pf_step_inv calls s s' : pf_inv calls s -> step s s' -> pf_inv calls s'.
Proof. intros Hi Hs. destruct Hs; [by eapply thread_inv|by eapply main_inv]. Qed.

Lemma pf_init_inv iters calls s :
  length iters = num -> (forall i it, iters !! i = Some it -> serves i (epoch i) it) ->
  pf_init iters calls = Ok s -> pf_inv calls s.
Proof.
  intros Hl Hsv Hi. unfold pf_init in Hi. apply bind_ok in Hi as (u & _ & [= <-]).
  exists [], 0%nat. split_and!; [done|done|]. cbn. split; [by rewrite length_map|].
  intros i t Ht. change (map ?f ?l) with (f <$> l) in Ht. rewrite list_lookup_fmap in Ht.
  destruct (iters !! i) as [it|] eqn:Ei; [|done]. cbn in Ht. simplify_eq.
  case_decide; [lia|]. left. split; [done|]. cbn. split; [done|]. by apply Hsv.
Qed.

(** ** Progress and termination *)

Definition thread_weight (t : thread I) : nat :=
  match t_pc t with
  | TWait => if t_taken t then 4 else 0
  | TFetch => 3
  | TClear => 2
  | TSet => 1
  | TDead => 0
  end.

Definition set_weight (j : nat) : nat := 5 * (num - j) + 1.
Definition clear_weight (j : nat) : nat := (num - j) + 1 + set_weight 0.
Definition reset_weight (j : nat) : nat := (num - j) + 1 + clear_weight 0.
Definition wait_weight (j : nat) : nat := (num - j) + 1 + reset_weight 0.

Definition main_weight (m : consumer_pc) : nat :=
  match m with
  | CIdle => 0
  | CWaiting _ j => wait_weight j
  | CResetting j => reset_weight j
  | CClear _ j => clear_weight j
  | CSet _ j => set_weight j
  end.

Ltac weights := cbn -[Nat.mul Nat.sub]; unfold wait_weight, reset_weight, clear_weight, set_weight in *; lia.

(** Steps left at most. *)
Definition pf_measure (s : pf I) : nat :=
  sum_list_with thread_weight (p_threads s) + main_weight (p_main s)
  + S (wait_weight 0) * length (p_calls s).

Lemma sum_insert (ts : list (thread I)) j t t' :
  ts !! j = Some t ->
  (sum_list_with thread_weight (<[j := t']> ts) + thread_weight t
   = sum_list_with thread_weight ts + thread_weight t')%nat.
Proof.
  intros Ht. assert (j < length ts)%nat by by eapply lookup_lt_Some.
  rewrite insert_take_drop by done. rewrite <- (take_drop_middle ts j t Ht) at 3.
  rewrite !sum_list_with_app. cbn. lia.
Qed.

Lemma thread_in_split j P Q ts i t : split_at j P Q ts -> ts !! i = Some t -> P i t \/ Q i t.
Proof. intros [_ Hs] Ht. specialize (Hs i t Ht). case_decide; auto. Qed.

Lemma thread_decreases calls s j t t' :
  pf_inv calls s -> p_threads s !! j = Some t -> thread_step t = Some t' ->
  (thread_weight t' < thread_weight t)%nat.
Proof.
  intros (made & k & _ & _ & Hm) Ht Et.
  assert (exists i k, thread_running i k t) as (i & k' & Hr).
  { assert (forall b, blocked b t -> False) as Hb.
    { intros b Hb. by rewrite (blocked_stuck _ _ Hb) in Et. }
    destruct (p_main s) as [|c m|m|r m|r m]; [| | |destruct Hm as (k' & _ & Hm)|destruct Hm as (k' & _ & Hm)];
      destruct (thread_in_split _ _ _ _ _ _ Hm Ht) as [Hx|Hx]; eauto;
      destruct Hx as [Hx _]; by destruct (Hb _ Hx). }
  destruct Hr as [[_ Hw]|[Hb _]]; [|by rewrite (blocked_stuck _ _ Hb) in Et].
  destruct t as [pc it tk rd bt]. unfold thread_step, thread_weight in *. cbn in *. destruct pc; [| | | |done].
  - destruct Hw as [-> _]. simplify_eq. cbn. lia.
  - destruct (it_next it) as [[x|[]] it']; simplify_eq; cbn; lia.
  - simplify_eq. cbn. lia.
  - destruct Hw as [-> _]. simplify_eq. cbn. lia.
Qed.

Lemma main_decreases calls s s' :
  pf_inv calls s -> consumer_step rename_data rename_label s = Some s' -> (pf_measure s' < pf_measure s)%nat.
Proof.
  intros (made & k & _ & _ & Hm) Hs. unfold consumer_step in Hs. unfold pf_measure.
  destruct (p_main s) as [|c j|j|r j|r j].
  - destruct (p_calls s) as [|c cs]; simplify_eq. weights.
  - destruct (p_threads s !! j) as [t|] eqn:Et.
    + destruct (t_ready t); [|done]. simplify_eq. pose proof (split_lookup _ _ _ _ _ Hm Et).
      weights.
    + destruct c; [|simplify_eq; weights].
      destruct (iter_next_body _ _ _) as [[b|]|e]; simplify_eq; weights.
  - destruct (p_threads s !! j) as [t|] eqn:Et; [|simplify_eq; weights].
    pose proof (split_lookup _ _ _ _ _ Hm Et) as [_ Hj].
    destruct (it_reset (t_iter t)) as [[u|e] it]; simplify_eq;
      pose proof (sum_insert (p_threads s) j t (mkThread (t_pc t) it (t_taken t) (t_ready t) (t_batch t)) Et) as Hi;
      unfold thread_weight in Hi at 2 4; cbn in Hi; weights.
  - destruct Hm as (k' & _ & Hm). destruct (p_threads s !! j) as [t|] eqn:Et; simplify_eq.
    + pose proof (split_lookup _ _ _ _ _ Hm Et) as [_ Hj].
      pose proof (sum_insert (p_threads s) j t (mkThread (t_pc t) (t_iter t) (t_taken t) false (t_batch t)) Et) as Hi.
      unfold thread_weight in Hi at 2 4; cbn in Hi. weights.
    + weights.
  - destruct Hm as (k' & _ & Hm). destruct (p_threads s !! j) as [t|] eqn:Et; simplify_eq.
    + pose proof (split_lookup _ _ _ _ _ Hm Et) as [((Hp & Htk & _) & _) Hj].
      pose proof (sum_insert (p_threads s) j t (mkThread (t_pc t) (t_iter t) true (t_ready t) (t_batch t)) Et) as Hi.
      unfold thread_weight in Hi at 2 4. cbn in Hi. rewrite Hp, Htk in Hi. cbn in Hi. rewrite Hp. weights.
    + weights.
Qed.

Lemma step_decreases calls s s' : pf_inv calls s -> step s s' -> (pf_measure s' < pf_measure s)%nat.
Proof.
  intros Hi Hs. destruct Hs as [s j t t' Ht Et|s s' Hs]; [|by eapply main_decreases].
  pose proof (thread_decreases _ _ _ _ _ Hi Ht Et). pose proof (sum_insert _ j t t' Ht).
  unfold pf_measure. cbn. lia.
Qed.

(** A state from which no step is possible is at the end of the calls. *)
Lemma stuck_end calls s :
  pf_inv calls s -> (forall s', ~ step s s') -> p_main s = CIdle /\ p_calls s = [].
Proof.
  intros (made & k & _ & _ & Hm) Hstuck.
  assert (consumer_step rename_data rename_label s = None) as Hmain.
  { destruct (consumer_step _ _ s) as [s'|] eqn:E; [|done]. destruct (Hstuck s'). by apply step_consumer. }
  assert (forall j t, p_threads s !! j = Some t -> thread_step t = None) as Hthr.
  { intros j t Ht. destruct (thread_step t) as [t'|] eqn:E; [|done].
    destruct (Hstuck (set_thread s j t')). by eapply step_thread. }
  unfold consumer_step in Hmain. destruct (p_main s) as [|c j|j|r j|r j].
  - by destruct (p_calls s).
  - destruct (p_threads s !! j) as [t|] eqn:Et.
    + destruct (split_lookup _ _ _ _ _ Hm Et) as [[[Hr Hw]|((_ & _ & Hr) & _)] _]; [|by rewrite Hr in Hmain].
      specialize (Hthr j t Et). unfold thread_step in Hthr.
      destruct (t_pc t); [|by destruct (it_next (t_iter t)) as [[x|[]] it']|done|done|done].
      destruct Hw as [Hw _]. by rewrite Hw in Hthr.
    + destruct c; [|done]. by destruct (iter_next_body _ _ _) as [[b|]|e].
  - destruct (p_threads s !! j) as [t|]; [|done]. by destruct (it_reset _) as [[u|e] it].
  - by destruct (p_threads s !! j).
  - by destruct (p_threads s !! j).
Qed.

Lemma pf_reachable_inv iters calls s0 s :
  length iters = num -> (forall i it, iters !! i = Some it -> serves i (epoch i) it) ->
  pf_init iters calls = Ok s0 -> rtc step s0 s -> pf_inv calls s.
Proof.
  intros Hl Hsv Hi. apply rtc_invariant; [by eapply pf_init_inv|]. intros. by eapply pf_step_inv.
Qed.

Lemma spec_run_prefix k cs cs' : (spec_run k cs).1 `prefix_of` (spec_run k (cs ++ cs')).1.
Proof.
  revert k. induction cs as [|c cs IH]; intros k; simpl; [apply prefix_nil|].
  destruct (spec_call k c) as [r k1]. specialize (IH k1).
  destruct (spec_run k1 cs), (spec_run k1 (cs ++ cs')). simpl in *. by apply prefix_cons.
Qed.

(** C8: over inner iterators that repeat one epoch after every [reset] and raise nothing
    but [StopIteration] ([CyclicIter], so an [NDArrayIter] without shuffling and not in
    [roll_over] mode), with equally many batches, equal paddings batch by batch and
    descriptions that do not change: whatever the interleaving of the prefetching threads
    and the consumer, the calls of [next] and [reset] on a [PrefetchingIter] return, as far as
    they have returned, exactly what the same calls return on the inner iterators run in
    step without threads: the [k]-th batches of all of them joined, [StopIteration] at
    their common end, and the first batches again after [reset]. *)
Theorem prefetch_sequential iters calls s0 s :
  length iters = num -> (forall i it, iters !! i = Some it -> serves i (epoch i) it) ->
  pf_init iters calls = Ok s0 -> rtc step s0 s ->
  p_out s `prefix_of` (spec_run 0 calls).1.
Proof.
  intros Hl Hsv Hi Hr. destruct (pf_reachable_inv _ _ _ _ Hl Hsv Hi Hr) as (made & k & Hc & Ho & _).
  rewrite <- Hc, <- app_assoc. pose proof (spec_run_prefix 0 made
    (match p_main s with CIdle => [] | CWaiting c _ => [c] | CResetting _ => [CReset]
     | CClear r _ | CSet r _ => [match r with Some _ => CNext | None => CReset end] end ++ p_calls s)) as Hp.
  by rewrite Ho in Hp.
Qed.

(** C21: over the same inner iterators, for which fetching a batch raises nothing but
    [StopIteration], the event protocol neither deadlocks nor runs for ever: every schedule is
    finite, and when no thread can move, every call has returned its result.  (An inner
    iterator that raises something else ends its thread, and the consumer then waits for
    ever: [dead_thread_blocks].) *)
Theorem prefetch_live iters calls s0 s n :
  length iters = num -> (forall i it, iters !! i = Some it -> serves i (epoch i) it) ->
  pf_init iters calls = Ok s0 -> nsteps step n s0 s ->
  (n <= pf_measure s0)%nat /\ ((forall s', ~ step s s') -> p_out s = (spec_run 0 calls).1).
Proof.
  intros Hl Hsv Hi Hn. split.
  - pose proof (nsteps_measure step (pf_inv calls) (fun s => Z.of_nat (pf_measure s)) n s0 s) as Hm.
    cbn in Hm. assert (Z.of_nat n <= Z.of_nat (pf_measure s0) - Z.of_nat (pf_measure s)); [|lia].
    apply Hm; [lia| |by eapply pf_init_inv|done].
    intros a b Ha Hs. split; [by eapply pf_step_inv|]. pose proof (step_decreases _ _ _ Ha Hs). lia.
  - intros Hstuck. assert (pf_inv calls s) as Hinv by (eapply pf_reachable_inv; eauto; apply rtc_nsteps; eauto).
    destruct (stuck_end _ _ Hinv Hstuck) as [Em Ec]. destruct Hinv as (made & k & Hc & Ho & _).
    rewrite Em, Ec, !app_nil_r in Hc. subst made. by rewrite Ho.
Qed.
End Correct.

(** ** Witnesses: two array iterators in step *)

#[local] Instance five_iter : DataIter NDArrayIter := NDArrayIter_DataIter no_shuffle.

Definition left_iter : NDArrayIter := five "pad" 3 false.
Definition right_iter : NDArrayIter :=
  mkIter [("other"%string, mkND cpu "float32" [] [[20]; [21]; [22]; [23]; [24]])] [] (py_range 5) false "pad" 3 (-3) 5
    None None tt.

Lemma right_wf : iter_wf right_iter.
Proof. by split; [|repeat constructor..|]. Qed.

Definition pair_iter (i : nat) : NDArrayIter := if Nat.eqb i 0 then left_iter else right_iter.

#[local] Instance pair_cyclic i :
  CyclicIter NDArrayIter (epoch_batches (pair_iter i)) (nd_serves (pair_iter i)).
Proof.
  unfold pair_iter. destruct (Nat.eqb i 0); apply NDArrayIter_Cyclic; try done.
  - by apply five_wf.
  - apply right_wf.
Qed.

Definition pair_calls : list call := [CNext; CNext; CNext; CReset; CNext].
Definition pair_start : pf NDArrayIter :=
  match pf_init [left_iter; right_iter] pair_calls with Ok s => s | Raise _ => mkPf [] CIdle [] [] end.

Notation pair_provide f := (concat (map (fun i => f (pair_iter i)) (seq 0 2))).
Notation pair_spec := (spec_run 2 (fun i => epoch_batches (pair_iter i))
  (pair_provide NDArrayIter_provide_data) (pair_provide NDArrayIter_provide_label)).

(** One schedule: a thread that can move does, otherwise the consumer. *)
Section Schedule.
Context {I : Type} `{DataIter I} (rename_data rename_label : option (list (gmap string string))).
Definition try_thread (s : pf I) (j : nat) : option (pf I) := t ← p_threads s !! j; t' ← thread_step t; Some (set_thread s j t').
Definition next_state (s : pf I) : option (pf I) :=
  match omap (try_thread s) (seq 0 (length (p_threads s))) with
  | s' :: _ => Some s'
  | [] => consumer_step rename_data rename_label s
  end.
Fixpoint schedule (fuel : nat) (s : pf I) : nat * pf I :=
  match fuel with
  | O => (O, s)
  | S fuel => match next_state s with Some s' => let '(n, t) := schedule fuel s' in (S n, t) | None => (O, s) end
  end.

Lemma next_state_step s s' : next_state s = Some s' -> pf_step rename_data rename_label s s'.
Proof.
  unfold next_state. destruct (omap _ _) as [|s1 l] eqn:E; [apply step_consumer|]. intros [= ->].
  assert (s' ∈ omap (try_thread s) (seq 0 (length (p_threads s)))) as (j & _ & Hj)%list_elem_of_omap by (rewrite E; left).
  unfold try_thread in Hj. destruct (p_threads s !! j) as [t|] eqn:Et; [|done]. cbn in Hj.
  destruct (thread_step t) as [t'|] eqn:Ett; [|done]. injection Hj as <-. by eapply step_thread.
Qed.
Lemma schedule_steps fuel : forall s, nsteps (pf_step rename_data rename_label) (schedule fuel s).1 s (schedule fuel s).2.
Proof.
  induction fuel as [|fuel IH]; intros s; cbn [schedule]; [apply nsteps_O|].
  destruct (next_state s) as [s'|] eqn:E; [|apply nsteps_O]. specialize (IH s'). destruct (schedule fuel s') as [n t].
  eapply nsteps_l; [by apply next_state_step|exact IH].
Qed.
Lemma next_state_stuck s : next_state s = None -> forall s', ~ pf_step rename_data rename_label s s'.
Proof.
  unfold next_state. destruct (omap _ _) eqn:E; [|done]. intros Hc s' Hs. destruct Hs as [s j t t' Ht Et|s s' Hs]; [|congruence].
  assert (set_thread s j t' ∈ omap (try_thread s) (seq 0 (length (p_threads s)))) as Hin.
  { apply list_elem_of_omap. exists j. split; [apply elem_of_seq; pose proof (lookup_lt_Some _ _ _ Ht); lia|].
    unfold try_thread. rewrite Ht. cbn. by rewrite Et. }
  rewrite E in Hin. by apply elem_of_nil in Hin.
Qed.
End Schedule.

(** The run of all five calls: it answers all of them and then nothing can move. *)
Definition pair_end : nat * pf NDArrayIter := schedule None None 200 pair_start.
Lemma pair_run : exists n s,
  nsteps (pf_step None None) n pair_start s /\ length (p_out s) = 5%nat /\
  p_out s !! 2%nat = Some (Raise StopIteration) /\ forall s', ~ pf_step None None s s'.
Proof.
  exists pair_end.1, pair_end.2. split; [apply schedule_steps|]. split; [by vm_compute|]. split; [by vm_compute|].
  apply next_state_stuck. by vm_compute.
Qed.

Lemma pair_pads i k b b0 :
  (i < 2)%nat -> epoch_batches (pair_iter i) !! k = Some b ->
  epoch_batches (pair_iter 0) !! k = Some b0 -> b_pad b = b_pad b0.
Proof.
  intros Hi. destruct i as [|[|i]]; [by intros; simplify_eq|clear Hi|lia].
  destruct k as [|[|k]]; vm_compute; intros [= <-] [= <-]; done.
Qed.

Lemma pair_provided i l it :
  nd_serves (pair_iter i) l it ->
  it_provide_data it = NDArrayIter_provide_data (pair_iter i) /\
  it_provide_label it = NDArrayIter_provide_label (pair_iter i).
Proof. intros (j & cd & cl & _ & -> & _). done. Qed.

Lemma pair_serves i it :
  [left_iter; right_iter] !! i = Some it -> nd_serves (pair_iter i) (epoch_batches (pair_iter i)) it.
Proof.
  intros Hi. destruct i as [|[|i]]; simplify_eq/=; exists 0, None, None; split_and!; done.
Qed.

Example prefetch_sequential_witness :
  exists s, rtc (pf_step None None) pair_start s /\ length (p_out s) = 5%nat /\
    p_out s !! 2%nat = Some (Raise StopIteration) /\ p_out s `prefix_of` (pair_spec 0%nat pair_calls).1.
Proof.
  destruct pair_run as (n & s & Hs & Hl & Ho & _). exists s.
  assert (rtc (pf_step None None) pair_start s) as Hr by (apply rtc_nsteps; eauto).
  split; [done|]. split; [done|]. split; [done|].
  apply (prefetch_sequential None None 2 (fun i => epoch_batches (pair_iter i)) (fun i => nd_serves (pair_iter i))
    2 (fun i => NDArrayIter_provide_data (pair_iter i)) (fun i => NDArrayIter_provide_label (pair_iter i)) _ _)
    with (iters := [left_iter; right_iter]) (s0 := pair_start); try done.
  - lia.
  - intros [|[|i]]; [done|done|lia].
  - apply pair_pads.
  - apply pair_provided.
  - apply pair_serves.
Defined.

Example prefetch_live_witness :
  exists n s, nsteps (pf_step None None) n pair_start s /\ (n <= pf_measure 2 pair_start)%nat /\
    length (p_out s) = 5%nat /\ p_out s = (pair_spec 0%nat pair_calls).1.
Proof.
  destruct pair_run as (n & s & Hs & Hl & _ & Hstuck). exists n, s. split; [done|].
  destruct (prefetch_live None None 2 (fun i => epoch_batches (pair_iter i)) (fun i => nd_serves (pair_iter i))
    2 (fun i => NDArrayIter_provide_data (pair_iter i)) (fun i => NDArrayIter_provide_label (pair_iter i))
    (pair_provide NDArrayIter_provide_data) (pair_provide NDArrayIter_provide_label))
    with (iters := [left_iter; right_iter]) (calls := pair_calls) (s0 := pair_start) (s := s) (n := n) as [Hn Ho]; try done.
  - lia.
  - intros [|[|i]]; [done|done|lia].
  - apply pair_pads.
  - apply pair_provided.
  - apply pair_serves.
  - split; [exact Hn|]. split; [exact Hl|exact (Ho Hstuck)].
Defined.

(** An inner iterator whose batches are too large raises [IndexError] in its thread: the thread
    ends and the consumer waits for ever. *)
Definition broken_start : pf NDArrayIter :=
  match pf_init [five "pad" 11 false] [CNext] with Ok s => s | Raise _ => mkPf [] CIdle [] [] end.
Example dead_thread_blocks :
  exists n s, nsteps (pf_step None None) n broken_start s /\ p_out s = [] /\ p_main s = CWaiting CNext 0 /\
    forall s', ~ pf_step None None s s'.
Proof.
  exists (schedule None None 9 broken_start).1, (schedule None None 9 broken_start).2. split; [apply schedule_steps|].
  split; [by vm_compute|]. split; [by vm_compute|]. apply next_state_stuck. by vm_compute.
Qed.
