(* ===== verification/LRScheduler.v ===== *)
(** * Learning rate schedulers

    [lr_scheduler.py]: the warm-up of the base class and the factor, multi-factor,
    polynomial and cosine schedulers.  A scheduler is called with the number of
    updates done so far and keeps its current rate in [base_lr], which the factor
    schedulers update lazily in a loop.  Floating point numbers are a type with the
    operations the code applies to them ([Float]); no law of arithmetic is assumed,
    so the results hold for IEEE doubles.  Logging is left out. *)

From Stdlib Require Import QArith.
From S2P Require Import Prelude.
Open Scope Z_scope.

(** Python floats: arithmetic, [float(n)] of an int, comparisons, [pow], [cos], [pi]. *)
Class Float (F : Type) := {
  fadd : F -> F -> F;
  fsub : F -> F -> F;
  fmul : F -> F -> F;
  fdiv : F -> F -> F;
  fof : Z -> F;
  fltb : F -> F -> bool;
  fzero : F -> bool;
  fpow : F -> F -> F;
  fcos : F -> F;
  fpi : F;
}.

Section Schedulers.
Context {F : Type} `{Float F}.

(** Division of floats raises on a zero divisor. *)
Definition py_fdiv (a b : F) : result F := if fzero b then Raise ZeroDivisionError else Ok (fdiv a b).

(** ** The base class *)

Record LRScheduler := mkLR {
  base_lr : F;
  warmup_steps : Z;
  warmup_final_lr : F;
  warmup_begin_lr : F;
  warmup_mode : string;
}.

Definition LRScheduler_init (lr : F) (steps : Z) (begin_lr : F) (mode : string) : result LRScheduler :=
  if fltb lr begin_lr then Raise ValueError
  else if steps <? 0 then Raise ValueError
  else if negb (str_eqb mode "linear" || str_eqb mode "constant") then Raise ValueError
  else Ok (mkLR lr steps lr begin_lr mode).

Definition get_warmup_lr (s : LRScheduler) (num_update : Z) : result F :=
  _ ← py_assert (num_update <? warmup_steps s);
  if str_eqb (warmup_mode s) "linear" then
    (increase ← py_fdiv (fmul (fsub (warmup_final_lr s) (warmup_begin_lr s)) (fof num_update))
                        (fof (warmup_steps s));
     Ok (fadd (warmup_begin_lr s) increase))
  else if str_eqb (warmup_mode s) "constant" then Ok (warmup_begin_lr s)
  else Raise ValueError.

Definition set_base_lr (lr : F) (s : LRScheduler) : LRScheduler :=
  mkLR lr (warmup_steps s) (warmup_final_lr s) (warmup_begin_lr s) (warmup_mode s).

(** ** [FactorScheduler] *)

Record FactorScheduler := mkFactor {
  f_super : LRScheduler;
  f_step : Z;
  f_factor : F;
  f_stop : F;
  f_count : Z;
}.

Definition FactorScheduler_init (step : Z) (factor stop lr : F) (steps : Z) (begin_lr : F) (mode : string)
  : result FactorScheduler :=
  s ← LRScheduler_init lr steps begin_lr mode;
  if step <? 1 then Raise ValueError
  else if fltb (fof 1) factor then Raise ValueError
  else Ok (mkFactor s step factor stop 0).

(** One iteration of the loop on the rate. *)
Definition decay (s : FactorScheduler) (lr : F) : F :=
  let lr' := fmul lr (f_factor s) in if fltb lr' (f_stop s) then f_stop s else lr'.

(** The [while] loop; [None] when [fuel] iterations are not enough. *)
Fixpoint factor_loop (fuel : nat) (num_update : Z) (s : FactorScheduler) : option FactorScheduler :=
  if f_count s + f_step s <? num_update then
    match fuel with
    | O => None
    | S fuel =>
        factor_loop fuel num_update
          (mkFactor (set_base_lr (decay s (base_lr (f_super s))) (f_super s)) (f_step s) (f_factor s)
             (f_stop s) (f_count s + f_step s))
    end
  else Some s.

(** [__call__]; the loop runs at most [num_update - count] times. *)
Definition FactorScheduler_call (num_update : Z) (s : FactorScheduler) : option (result F * FactorScheduler) :=
  if num_update <? warmup_steps (f_super s) then Some (get_warmup_lr (f_super s) num_update, s)
  else
    s' ← factor_loop (Z.to_nat (num_update - f_count s)) num_update s;
    Some (Ok (base_lr (f_super s')), s').

(** ** [MultiFactorScheduler] *)

Record MultiFactorScheduler := mkMulti {
  m_super : LRScheduler;
  m_step : list Z;
  m_ind : nat;
  m_factor : F;
  m_count : Z;
}.

(** The checks on the list of steps, in order. *)
Fixpoint check_steps (prev : option Z) (step : list Z) : result unit :=
  match step with
  | [] => Ok tt
  | x :: step =>
      if match prev with Some p => x <=? p | None => false end then Raise ValueError
      else if x <? 1 then Raise ValueError
      else check_steps (Some x) step
  end.

Definition MultiFactorScheduler_init (step : list Z) (factor lr : F) (steps : Z) (begin_lr : F) (mode : string)
  : result MultiFactorScheduler :=
  s ← LRScheduler_init lr steps begin_lr mode;
  _ ← py_assert (1 <=? py_len step);
  _ ← check_steps None step;
  if fltb (fof 1) factor then Raise ValueError
  else Ok (mkMulti s step 0 factor 0).

Fixpoint multi_loop (fuel : nat) (num_update : Z) (s : MultiFactorScheduler) : option MultiFactorScheduler :=
  match m_step s !! m_ind s with
  | None => Some s
  | Some x =>
      if x <? num_update then
        match fuel with
        | O => None
        | S fuel =>
            multi_loop fuel num_update
              (mkMulti (set_base_lr (fmul (base_lr (m_super s)) (m_factor s)) (m_super s)) (m_step s)
                 (S (m_ind s)) (m_factor s) x)
        end
      else Some s
  end.

Definition MultiFactorScheduler_call (num_update : Z) (s : MultiFactorScheduler)
  : option (result F * MultiFactorScheduler) :=
  if num_update <? warmup_steps (m_super s) then Some (get_warmup_lr (m_super s) num_update, s)
  else
    s' ← multi_loop (length (m_step s)) num_update s;
    Some (Ok (base_lr (m_super s')), s').

(** ** [PolyScheduler] and [CosineScheduler] *)

Record DecayScheduler := mkDecay {
  d_super : LRScheduler;
  d_power : F;
  d_base_lr_orig : F;
  d_max_update : Z;
  d_final_lr : F;
  d_max_steps : Z;
}.

Definition DecayScheduler_init (max_update : Z) (lr pwr final : F) (steps : Z) (begin_lr : F) (mode : string)
  : result DecayScheduler :=
  s ← LRScheduler_init lr steps begin_lr mode;
  if max_update <? 1 then Raise ValueError
  else Ok (mkDecay s pwr lr max_update final (max_update - steps)).

Definition PolyScheduler_init := DecayScheduler_init.
Definition CosineScheduler_init (max_update : Z) (lr final : F) :=
  DecayScheduler_init max_update lr (fof 1) final.

Definition PolyScheduler_rate (num_update : Z) (s : DecayScheduler) : result F :=
  q ← py_fdiv (fof (num_update - warmup_steps (d_super s))) (fof (d_max_steps s));
  Ok (fadd (d_final_lr s) (fmul (fsub (d_base_lr_orig s) (d_final_lr s)) (fpow (fsub (fof 1) q) (d_power s)))).

Definition CosineScheduler_rate (num_update : Z) (s : DecayScheduler) : result F :=
  q ← py_fdiv (fmul fpi (fof (num_update - warmup_steps (d_super s)))) (fof (d_max_steps s));
  Ok (fadd (d_final_lr s)
        (fdiv (fmul (fsub (d_base_lr_orig s) (d_final_lr s)) (fadd (fof 1) (fcos q))) (fof 2))).

(** [__call__] of both, which differ in the rate. *)
Definition decay_call (rate : Z -> DecayScheduler -> result F) (num_update : Z) (s : DecayScheduler)
  : result F * DecayScheduler :=
  if num_update <? warmup_steps (d_super s) then (get_warmup_lr (d_super s) num_update, s)
  else if num_update <=? d_max_update s then
    match rate num_update s with
    | Ok lr => (Ok lr, mkDecay (set_base_lr lr (d_super s)) (d_power s) (d_base_lr_orig s) (d_max_update s)
                         (d_final_lr s) (d_max_steps s))
    | Raise e => (Raise e, s)
    end
  else (Ok (base_lr (d_super s)), s).

Definition PolyScheduler_call := decay_call PolyScheduler_rate.
Definition CosineScheduler_call := decay_call CosineScheduler_rate.
End Schedulers.
Arguments LRScheduler F : clear implicits.
Arguments FactorScheduler F : clear implicits.
Arguments MultiFactorScheduler F : clear implicits.
Arguments DecayScheduler F : clear implicits.

(** ** The factor scheduler in closed form *)

Section Factor.
Context {F : Type} `{Float F} (s0 : FactorScheduler F).
Hypothesis step_pos : 1 <= f_step s0.
Hypothesis fresh : f_count s0 = 0.

(** The scheduler after [k] iterations of its loop. *)
Definition decayed (k : nat) : FactorScheduler F :=
  mkFactor (set_base_lr (Nat.iter k (decay s0) (base_lr (f_super s0))) (f_super s0))
    (f_step s0) (f_factor s0) (f_stop s0) (Z.of_nat k * f_step s0).

(** How many iterations bring the scheduler up to date with an update. *)
Definition due (n : Z) : nat := Z.to_nat ((n - 1) / f_step s0).

Lemma due_spec k n : Z.of_nat k * f_step s0 + f_step s0 < n <-> (k < due n)%nat.
Proof.
  unfold due. pose proof (Z.div_mod (n - 1) (f_step s0) ltac:(lia)).
  pose proof (Z.mod_pos_bound (n - 1) (f_step s0) ltac:(lia)). split; intros; nia.
Qed.

Lemma due_mono n n' : n <= n' -> (due n <= due n')%nat.
Proof. intros. unfold due. pose proof (Z.div_le_mono (n - 1) (n' - 1) (f_step s0)). lia. Qed.

Lemma factor_loop_spec fuel : forall k n,
  (due n <= k + fuel)%nat -> factor_loop fuel n (decayed k) = Some (decayed (Nat.max k (due n))).
Proof.
  induction fuel as [|fuel IH]; intros k n Hf; unfold factor_loop; fold (factor_loop (F := F));
    cbn [f_count f_step decayed];
    destruct (Z.ltb_spec (Z.of_nat k * f_step s0 + f_step s0) n) as [Hlt|Hge].
  - apply due_spec in Hlt. lia.
  - rewrite Nat.max_l; [done|]. destruct (le_lt_dec (due n) k) as [|Hk%due_spec]; [done|lia].
  - apply due_spec in Hlt. rewrite Nat.max_r by lia.
    replace (due n) with (Nat.max (S k) (due n)) at 1 by lia. rewrite <- (IH (S k) n) by lia.
    f_equal. unfold decayed. cbn. f_equal. lia.
  - rewrite Nat.max_l; [done|]. destruct (le_lt_dec (due n) k) as [|Hk%due_spec]; [done|lia].
Qed.

Lemma factor_call_spec k n :
  FactorScheduler_call n (decayed k) =
    if n <? warmup_steps (f_super s0) then Some (get_warmup_lr (f_super (decayed k)) n, decayed k)
    else Some (Ok (Nat.iter (Nat.max k (due n)) (decay s0) (base_lr (f_super s0))),
               decayed (Nat.max k (due n))).
Proof.
  unfold FactorScheduler_call. cbn [f_super decayed warmup_steps set_base_lr].
  destruct (n <? warmup_steps (f_super s0)); [done|].
  rewrite (factor_loop_spec _ k n); [done|]. cbn. unfold due.
  pose proof (Z.div_mod (n - 1) (f_step s0) ltac:(lia)).
  pose proof (Z.mod_pos_bound (n - 1) (f_step s0) ltac:(lia)). nia.
Qed.
End Factor.

(** The results of a history of calls. *)
Fixpoint factor_run {F} `{Float F} (ns : list Z) (s : FactorScheduler F)
  : option (list (result F) * FactorScheduler F) :=
  match ns with
  | [] => Some ([], s)
  | n :: ns => '(r, s1) ← FactorScheduler_call n s; '(rs, s2) ← factor_run ns s1; Some (r :: rs, s2)
  end.

Lemma factor_run_spec {F} `{Float F} (s0 : FactorScheduler F) ns : forall k m,
  1 <= f_step s0 -> (k <= due s0 m)%nat -> Forall (fun n => n <= m) ns ->
  exists outs k', factor_run ns (decayed s0 k) = Some (outs, decayed s0 k') /\ (k' <= due s0 m)%nat.
Proof.
  induction ns as [|n ns IH]; intros k m Hs Hk Hm; [by exists [], k|].
  apply Forall_cons in Hm as [Hn Hm]. simpl. rewrite factor_call_spec by done.
  pose proof (due_mono s0 Hs n m Hn). destruct (n <? warmup_steps (f_super s0)); cbn.
  - destruct (IH k m Hs Hk Hm) as (outs & k' & E & Hk'). rewrite E. cbn. eauto.
  - destruct (IH (Nat.max k (due s0 n)) m Hs ltac:(lia) Hm) as (outs & k' & E & Hk'). rewrite E. cbn. eauto.
Qed.

Lemma factor_init_inv {F} `{Float F} step factor stop lr ws begin_lr mode (s0 : FactorScheduler F) :
  FactorScheduler_init step factor stop lr ws begin_lr mode = Ok s0 ->
  1 <= step /\ f_step s0 = step /\ base_lr (f_super s0) = lr /\ warmup_steps (f_super s0) = ws /\
  s0 = decayed s0 0.
Proof.
  unfold FactorScheduler_init, LRScheduler_init. destruct (fltb lr begin_lr); [done|].
  destruct (ws <? 0); [done|]. destruct (negb _); [done|]. cbn.
  destruct (Z.ltb_spec step 1); [done|]. destruct (fltb _ factor); [done|]. by intros [= <-].
Qed.

(** whatever calls were made before (for no later update), a call of a
    [FactorScheduler] after warm-up returns, and its rate is the base rate decayed
    [(num_update - 1) / step] times, with the floor [stop_factor_lr]: the lazy
    updates never lose or repeat a decay.  (The documentation says
    [num_update / step] times.) *)
Theorem factor_closed_form {F} `{Float F} step factor stop lr ws begin_lr mode (s0 : FactorScheduler F) ns n :
  FactorScheduler_init step factor stop lr ws begin_lr mode = Ok s0 ->
  Forall (fun m => m <= n) ns -> ws <= n ->
  exists outs s1 s2, factor_run ns s0 = Some (outs, s1) /\
    FactorScheduler_call n s1 = Some (Ok (Nat.iter (Z.to_nat ((n - 1) / step)) (decay s0) lr), s2).
Proof.
  intros Hi Hns Hn. destruct (factor_init_inv _ _ _ _ _ _ _ _ Hi) as (Hs & Es & El & Ew & E0).
  destruct (factor_run_spec s0 ns 0 n) as (outs & k & Er & Hk); [lia|lia|done|].
  rewrite <- E0 in Er. exists outs, (decayed s0 k), (decayed s0 (Nat.max k (due s0 n))). split; [done|].
  rewrite factor_call_spec by lia. rewrite (proj2 (Z.ltb_ge _ _)) by lia.
  rewrite Nat.max_r by done. unfold due. by rewrite Es, El.
Qed.

(** ** The multi-factor scheduler in closed form *)

Lemma check_steps_sorted prev l :
  check_steps prev l = Ok tt ->
  StronglySorted Z.lt l /\ Forall (fun x => match prev with Some p => p < x | None => True end) l.
Proof.
  revert prev. induction l as [|x l IH]; intros prev Hc; [by repeat constructor|]. simpl in Hc.
  destruct (match prev with Some p => x <=? p | None => false end) eqn:Ep; [done|].
  destruct (x <? 1); [done|]. destruct (IH _ Hc) as [Hs Hx]. split; [by constructor|].
  destruct prev as [p|]; [apply Z.leb_gt in Ep|]; constructor; try done;
    (eapply Forall_impl; [exact Hx|]); cbn; intros y Hy; [lia|done].
Qed.

(** In an increasing list the elements below [n] come first. *)
Lemma below_first n l k x :
  StronglySorted Z.lt l -> l !! k = Some x ->
  (x < n <-> (k < length (filter (fun y => (y < n)%Z) l))%nat).
Proof.
  intros Hs. revert k. induction Hs as [|y l Hs IH Hy]; intros k Hk; [done|].
  rewrite filter_cons. destruct k as [|k]; simpl in Hk.
  - simplify_eq. case_decide as Hd; simpl; [lia|].
    assert (filter (fun y => (y < n)%Z) l = []) as ->; [|simpl; lia].
    rewrite Forall_forall in Hy.
    destruct (filter (fun y => (y < n)%Z) l) as [|z q] eqn:E; [done|].
    assert (z ∈ filter (fun y => (y < n)%Z) l) as [Hz1 Hz2]%list_elem_of_filter by (rewrite E; left).
    specialize (Hy z Hz2). lia.
  - specialize (IH k Hk). case_decide as Hd; simpl; [lia|].
    rewrite Forall_forall in Hy. specialize (Hy x (list_elem_of_lookup_2 _ _ _ Hk)).
    split; [lia|]. intros Hlt. apply IH. lia.
Qed.

Section Multi.
Context {F : Type} `{Float F} (s0 : MultiFactorScheduler F).
Hypothesis sorted : StronglySorted Z.lt (m_step s0).

(** The number of steps an update has passed. *)
Definition passed (n : Z) : nat := length (filter (fun x => (x < n)%Z) (m_step s0)).

(** The scheduler after passing [k] steps. *)
Definition reduced (k : nat) : MultiFactorScheduler F :=
  mkMulti (set_base_lr (Nat.iter k (fun lr => fmul lr (m_factor s0)) (base_lr (m_super s0))) (m_super s0))
    (m_step s0) k (m_factor s0) (match k with O => m_count s0 | S j => default 0 (m_step s0 !! j) end).

Lemma passed_le n : (passed n <= length (m_step s0))%nat.
Proof. apply length_filter. Qed.

Lemma passed_mono n n' : n <= n' -> (passed n <= passed n')%nat.
Proof.
  intros Hn. unfold passed. generalize (m_step s0). intros l. induction l as [|x l IH]; [done|].
  rewrite !filter_cons. repeat case_decide; simpl; lia.
Qed.

Lemma multi_loop_spec fuel : forall k n,
  (passed n <= k + fuel)%nat -> multi_loop fuel n (reduced k) = Some (reduced (Nat.max k (passed n))).
Proof.
  induction fuel as [|fuel IH]; intros k n Hf; unfold multi_loop; fold (multi_loop (F := F));
    cbn [m_step m_ind reduced]; destruct (m_step s0 !! k) as [x|] eqn:Ex.
  2, 4: apply lookup_ge_None in Ex; pose proof (passed_le n); by rewrite Nat.max_l by lia.
  all: destruct (Z.ltb_spec x n) as [Hlt|Hge];
    [|rewrite Nat.max_l; [done|]; destruct (le_lt_dec (passed n) k) as [|Hk]; [done|];
      apply (below_first n _ k x sorted Ex) in Hk; lia].
  - apply (below_first n _ k x sorted Ex) in Hlt. unfold passed in Hf. lia.
  - apply (below_first n _ k x sorted Ex) in Hlt. fold (passed n) in Hlt.
    rewrite Nat.max_r by lia. replace (passed n) with (Nat.max (S k) (passed n)) at 1 by lia.
    rewrite <- (IH (S k) n) by lia. f_equal. unfold reduced. by rewrite Ex.
Qed.

Lemma multi_call_spec k n :
  MultiFactorScheduler_call n (reduced k) =
    if n <? warmup_steps (m_super s0) then Some (get_warmup_lr (m_super (reduced k)) n, reduced k)
    else Some (Ok (Nat.iter (Nat.max k (passed n)) (fun lr => fmul lr (m_factor s0)) (base_lr (m_super s0))),
               reduced (Nat.max k (passed n))).
Proof.
  unfold MultiFactorScheduler_call. cbn [m_super m_step reduced warmup_steps set_base_lr].
  destruct (n <? warmup_steps (m_super s0)); [done|].
  rewrite (multi_loop_spec _ k n); [done|]. pose proof (passed_le n). lia.
Qed.
End Multi.

Fixpoint multi_run {F} `{Float F} (ns : list Z) (s : MultiFactorScheduler F)
  : option (list (result F) * MultiFactorScheduler F) :=
  match ns with
  | [] => Some ([], s)
  | n :: ns => '(r, s1) ← MultiFactorScheduler_call n s; '(rs, s2) ← multi_run ns s1; Some (r :: rs, s2)
  end.

Lemma multi_run_spec {F} `{Float F} (s0 : MultiFactorScheduler F) ns : forall k m,
  StronglySorted Z.lt (m_step s0) -> (k <= passed s0 m)%nat -> Forall (fun n => n <= m) ns ->
  exists outs k', multi_run ns (reduced s0 k) = Some (outs, reduced s0 k') /\ (k' <= passed s0 m)%nat.
Proof.
  induction ns as [|n ns IH]; intros k m Hs Hk Hm; [by exists [], k|].
  apply Forall_cons in Hm as [Hn Hm]. simpl. rewrite multi_call_spec by done.
  pose proof (passed_mono s0 n m Hn). destruct (n <? warmup_steps (m_super s0)); cbn.
  - destruct (IH k m Hs Hk Hm) as (outs & k' & E & Hk'). rewrite E. cbn. eauto.
  - destruct (IH (Nat.max k (passed s0 n)) m Hs ltac:(lia) Hm) as (outs & k' & E & Hk'). rewrite E. cbn. eauto.
Qed.

Lemma multi_init_inv {F} `{Float F} step factor lr ws begin_lr mode (s0 : MultiFactorScheduler F) :
  MultiFactorScheduler_init step factor lr ws begin_lr mode = Ok s0 ->
  StronglySorted Z.lt (m_step s0) /\ m_step s0 = step /\ m_factor s0 = factor /\
  base_lr (m_super s0) = lr /\ warmup_steps (m_super s0) = ws /\ s0 = reduced s0 0.
Proof.
  unfold MultiFactorScheduler_init, LRScheduler_init. destruct (fltb lr begin_lr); [done|].
  destruct (ws <? 0); [done|]. destruct (negb _); [done|]. cbn.
  destruct (py_assert _); [|done]. cbn. destruct (check_steps None step) as [[]|] eqn:Ec; [|done]. cbn.
  destruct (fltb _ factor); [done|]. intros [= <-]. split_and!; try done.
  by destruct (check_steps_sorted _ _ Ec).
Qed.

(** whatever calls were made before (for no later update), a call of a
    [MultiFactorScheduler] after warm-up returns, and its rate is the base rate
    multiplied by the factor once for every step strictly below [num_update].  (The
    documentation counts the steps up to and including [num_update].) *)
Theorem multi_factor_closed_form {F} `{Float F} step factor lr ws begin_lr mode (s0 : MultiFactorScheduler F) ns n :
  MultiFactorScheduler_init step factor lr ws begin_lr mode = Ok s0 ->
  Forall (fun m => m <= n) ns -> ws <= n ->
  exists outs s1 s2, multi_run ns s0 = Some (outs, s1) /\
    MultiFactorScheduler_call n s1 =
      Some (Ok (Nat.iter (length (filter (fun x => (x < n)%Z) step)) (fun x => fmul x factor) lr), s2).
Proof.
  intros Hi Hns Hn. destruct (multi_init_inv _ _ _ _ _ _ _ Hi) as (Hs & Es & Ef & El & Ew & E0).
  destruct (multi_run_spec s0 ns 0 n) as (outs & k & Er & Hk); [done|lia|done|].
  rewrite <- E0 in Er. exists outs, (reduced s0 k), (reduced s0 (Nat.max k (passed s0 n))). split; [done|].
  rewrite multi_call_spec by done. rewrite (proj2 (Z.ltb_ge _ _)) by lia.
  rewrite Nat.max_r by done. unfold passed. by rewrite Es, Ef, El.
Qed.

(** ** Past the last update *)

(** A polynomial or cosine scheduler answers past [max_update] with whatever rate it
    computed last: the initial rate if it was not consulted before. *)
Lemma decay_past_max {F} `{Float F} rate max_update lr pwr final ws begin_lr mode (s0 : DecayScheduler F) n :
  DecayScheduler_init max_update lr pwr final ws begin_lr mode = Ok s0 ->
  ws <= n -> max_update < n -> (decay_call rate n s0).1 = Ok lr.
Proof.
  unfold DecayScheduler_init, LRScheduler_init. destruct (fltb lr begin_lr); [done|].
  destruct (ws <? 0); [done|]. destruct (negb _); [done|]. cbn.
  destruct (max_update <? 1); [done|]. intros [= <-] Hw Hn. unfold decay_call. cbn.
  rewrite (proj2 (Z.ltb_ge _ _)) by lia. by rewrite (proj2 (Z.leb_gt _ _)) by lia.
Qed.

(** ** Witnesses, on rational numbers *)

#[local] Instance Q_Float : Float Q := {
  fadd a b := Qred (Qplus a b);
  fsub a b := Qred (Qminus a b);
  fmul a b := Qred (Qmult a b);
  fdiv a b := Qred (Qdiv a b);
  fof := inject_Z;
  fltb a b := negb (Qle_bool b a);
  fzero a := Qeq_bool a 0;
  fpow a _ := a;
  fcos a := a;
  fpi := 3%Q;
}.

Definition halving : FactorScheduler Q :=
  mkFactor (mkLR 1%Q 0 1%Q 0%Q "linear") 10 (1 # 2) (1 # 16) 0.

Example factor_closed_form_witness :
  exists outs s1 s2, factor_run [5; 12; 11] halving = Some (outs, s1) /\
    FactorScheduler_call 35 s1 = Some (Ok (1 # 8)%Q, s2).
Proof.
  destruct (factor_closed_form 10 (1 # 2) (1 # 16) 1%Q 0 0%Q "linear" halving [5; 12; 11] 35)
    as (outs & s1 & s2 & E1 & E2); [reflexivity|repeat constructor; lia|lia|].
  exists outs, s1, s2. split; [exact E1|]. rewrite E2. vm_compute. reflexivity.
Defined.

Definition staged : MultiFactorScheduler Q :=
  mkMulti (mkLR 1%Q 0 1%Q 0%Q "linear") [10; 20; 30] 0 (1 # 2) 0.

Example multi_factor_closed_form_witness :
  exists outs s1 s2, multi_run [5; 12; 11] staged = Some (outs, s1) /\
    MultiFactorScheduler_call 30 s1 = Some (Ok (1 # 4)%Q, s2).
Proof.
  destruct (multi_factor_closed_form [10; 20; 30] (1 # 2) 1%Q 0 0%Q "linear" staged [5; 12; 11] 30)
    as (outs & s1 & s2 & E1 & E2); [reflexivity|repeat constructor; lia|lia|].
  exists outs, s1, s2. split; [exact E1|]. rewrite E2. vm_compute. reflexivity.
Defined.
