(* ===== verification/RecordIO.v ===== *)
(** * RecordIO files

    [recordio.py] and [RecordFileDataset] of [gluon/data/dataset.py]: sequential and
    indexed record files over the handles of the C library, their behaviour across
    processes and pickling, and the packing of image records.

    A world holds the record files, the index files (as their lines, a key and a
    position), the live C handles and the current process id.  The framing of a
    record inside a file belongs to dmlc-core: [frame] encodes a record and [parse]
    reads the first record of what is left of a file.  Handing the C library a freed
    handle is undefined behaviour, shown as [UndefinedBehaviour]. *)

From Stdlib Require Import Strings.Ascii Strings.String.
From S2P Require Import Prelude Dataset.

Notation bytes := (list Z).

(** ** The C library and the file system *)

(** [MXRecordIOContext]: a writer, or a reader with its position. *)
Inductive rec_handle :=
  | HWriter (uri : string)
  | HReader (uri : string) (pos : Z).

Record world := mkWorld {
  w_files : gmap string bytes;
  w_index : gmap string (list (Z * Z));
  w_live : gmap nat rec_handle;
  w_fresh : nat;
  w_pid : Z;
}.

Definition set_files (f : gmap string bytes) (w : world) : world :=
  mkWorld f (w_index w) (w_live w) (w_fresh w) (w_pid w).
Definition set_index (f : gmap string (list (Z * Z))) (w : world) : world :=
  mkWorld (w_files w) f (w_live w) (w_fresh w) (w_pid w).
Definition set_live (l : gmap nat rec_handle) (w : world) : world :=
  mkWorld (w_files w) (w_index w) l (w_fresh w) (w_pid w).

Section RecordIO.
Context (frame : bytes -> bytes) (parse : bytes -> option (bytes * bytes)).

Definition new_handle (h : rec_handle) (w : world) : nat * world :=
  (w_fresh w, mkWorld (w_files w) (w_index w) (<[w_fresh w := h]> (w_live w)) (S (w_fresh w)) (w_pid w)).

Definition MXRecordIOWriterCreate (uri : string) : M world nat := fun w =>
  let '(h, w') := new_handle (HWriter uri) (set_files (<[uri := []]> (w_files w)) w) in (Ok h, w').

Definition MXRecordIOReaderCreate (uri : string) : M world nat := fun w =>
  match w_files w !! uri with
  | Some _ => let '(h, w') := new_handle (HReader uri 0) w in (Ok h, w')
  | None => (Raise MXNetError, w)
  end.

Definition MXRecordIOFree (h : nat) : M world unit := fun w =>
  match w_live w !! h with
  | Some _ => (Ok tt, set_live (delete h (w_live w)) w)
  | None => (Raise UndefinedBehaviour, w)
  end.

Definition MXRecordIOWriterWriteRecord (h : nat) (buf : bytes) : M world unit := fun w =>
  match w_live w !! h with
  | Some (HWriter uri) =>
      (Ok tt, set_files (<[uri := default [] (w_files w !! uri) ++ frame buf]> (w_files w)) w)
  | _ => (Raise UndefinedBehaviour, w)
  end.

Definition MXRecordIOWriterTell (h : nat) : M world Z := fun w =>
  match w_live w !! h with
  | Some (HWriter uri) => (Ok (py_len (default [] (w_files w !! uri))), w)
  | _ => (Raise UndefinedBehaviour, w)
  end.

(** [None] at the end of the file. *)
Definition MXRecordIOReaderReadRecord (h : nat) : M world (option bytes) := fun w =>
  match w_live w !! h with
  | Some (HReader uri pos) =>
      let file := default [] (w_files w !! uri) in
      match parse (drop (Z.to_nat pos) file) with
      | Some (buf, rest) =>
          (Ok (Some buf), set_live (<[h := HReader uri (py_len file - py_len rest)]> (w_live w)) w)
      | None => (Ok None, w)
      end
  | _ => (Raise UndefinedBehaviour, w)
  end.

Definition MXRecordIOReaderSeek (h : nat) (pos : Z) : M world unit := fun w =>
  match w_live w !! h with
  | Some (HReader uri _) => (Ok tt, set_live (<[h := HReader uri pos]> (w_live w)) w)
  | _ => (Raise UndefinedBehaviour, w)
  end.

(** ** [MXRecordIO] *)

(** [writable] is unset before the first [open]; the null handle is [None]. *)
Record MXRecordIO := mkRec {
  r_uri : string;
  r_handle : option nat;
  r_flag : string;
  r_pid : option Z;
  r_open : bool;
  r_writable : option bool;
}.

(** Methods work on the world and the object. *)
Definition on_world {S A} (m : M world A) : M (world * S) A :=
  fun '(w, s) => let '(r, w') := m w in (r, (w', s)).
Definition on_handle {S A} (h : option nat) (m : nat -> M world A) : M (world * S) A :=
  match h with Some h => on_world (m h) | None => raise UndefinedBehaviour end.
Definition self {S} : M (world * S) S := fun '(w, s) => (Ok s, (w, s)).
Definition set_self {S} (s : S) : M (world * S) unit := fun '(w, _) => (Ok tt, (w, s)).
Definition current_pid {S} : M (world * S) Z := fun '(w, s) => (Ok (w_pid w), (w, s)).

(** Reading an attribute that may be unset. *)
Definition attr {S A} (x : option A) : M S A :=
  match x with Some a => mret a | None => raise AttributeError end.

Definition rec_open : M (world * MXRecordIO) unit :=
  s ← self;
  _ ← (if str_eqb (r_flag s) "w" then
         (h ← on_world (MXRecordIOWriterCreate (r_uri s));
          set_self (mkRec (r_uri s) (Some h) (r_flag s) (r_pid s) (r_open s) (Some true)))
       else if str_eqb (r_flag s) "r" then
         (h ← on_world (MXRecordIOReaderCreate (r_uri s));
          set_self (mkRec (r_uri s) (Some h) (r_flag s) (r_pid s) (r_open s) (Some false)))
       else raise ValueError);
  pid ← current_pid;
  s ← self;
  set_self (mkRec (r_uri s) (r_handle s) (r_flag s) (Some pid) true (r_writable s)).

Definition rec_new (uri flag : string) : MXRecordIO := mkRec uri None flag None false None.

Definition rec_close : M (world * MXRecordIO) unit :=
  s ← self;
  if negb (r_open s) then mret tt
  else
    (_ ← attr (r_writable s);
     _ ← on_handle (r_handle s) MXRecordIOFree;
     set_self (mkRec (r_uri s) (r_handle s) (r_flag s) None false (r_writable s))).

Definition rec_reset : M (world * MXRecordIO) unit := _ ← rec_close; rec_open.

(** [_check_pid]; [reset] is the object's own. *)
Definition check_pid {S} (pid : option Z) (allow_reset : bool) (reset : M (world * S) unit) : M (world * S) unit :=
  cur ← current_pid;
  if bool_decide (pid = Some cur) then mret tt
  else if allow_reset then reset else raise RuntimeError.

Definition rec_write (buf : bytes) : M (world * MXRecordIO) unit :=
  s ← self;
  wr ← attr (r_writable s);
  _ ← massert wr;
  _ ← check_pid (r_pid s) false rec_reset;
  s ← self;
  on_handle (r_handle s) (fun h => MXRecordIOWriterWriteRecord h buf).

Definition rec_read : M (world * MXRecordIO) (option bytes) :=
  s ← self;
  wr ← attr (r_writable s);
  _ ← massert (negb wr);
  _ ← check_pid (r_pid s) false rec_reset;
  s ← self;
  on_handle (r_handle s) MXRecordIOReaderReadRecord.

(** [__getstate__] and [__setstate__]: the file is closed, the handle is not
    pickled, and a copy of an open object opens the file again. *)
Record rec_state := mkState {
  st_uri : string; st_flag : string; st_open : bool; st_writable : option bool;
}.

Definition rec_getstate : M (world * MXRecordIO) rec_state :=
  s ← self;
  _ ← rec_close;
  mret (mkState (r_uri s) (r_flag s) (r_open s) (r_writable s)).

Definition rec_setstate (d : rec_state) : M (world * MXRecordIO) unit :=
  _ ← set_self (mkRec (st_uri d) None (st_flag d) None false (st_writable d));
  if st_open d then rec_open else mret tt.

(** ** [MXIndexedRecordIO] *)

Record MXIndexedRecordIO := mkIdx {
  x_super : MXRecordIO;
  x_idx_path : string;
  x_idx : gmap Z Z;
  x_keys : list Z;
  x_fidx : option bool;   (** the index file object: [Some true] while it is open *)
}.

Definition x_with_super (s : MXIndexedRecordIO) (r : MXRecordIO) : MXIndexedRecordIO :=
  mkIdx r (x_idx_path s) (x_idx s) (x_keys s) (x_fidx s).

(** A method of the base class. *)
Definition super {A} (m : M (world * MXRecordIO) A) : M (world * MXIndexedRecordIO) A := fun '(w, s) =>
  let '(r, (w', b)) := m (w, x_super s) in (r, (w', x_with_super s b)).

(** [open(idx_path, flag)]: writing truncates, reading needs the file; the lines. *)
Definition open_index (path flag : string) : M world (list (Z * Z)) := fun w =>
  if str_eqb flag "w" then (Ok [], set_index (<[path := []]> (w_index w)) w)
  else match w_index w !! path with
       | Some lines => (Ok lines, w)
       | None => (Raise IOError, w)
       end.

Definition idx_open : M (world * MXIndexedRecordIO) unit :=
  _ ← super rec_open;
  s ← self;
  _ ← set_self (mkIdx (x_super s) (x_idx_path s) ∅ [] (x_fidx s));
  lines ← on_world (open_index (x_idx_path s) (r_flag (x_super s)));
  wr ← attr (r_writable (x_super s));
  set_self (mkIdx (x_super s) (x_idx_path s)
              (if wr : bool then ∅ else list_to_map (reverse lines))
              (if wr : bool then [] else map fst lines) (Some true)).

Definition idx_new (idx_path uri flag : string) : MXIndexedRecordIO :=
  mkIdx (rec_new uri flag) idx_path ∅ [] None.

Definition idx_close : M (world * MXIndexedRecordIO) unit :=
  s ← self;
  if negb (r_open (x_super s)) then mret tt
  else
    (_ ← super rec_close;
     s ← self;
     match x_fidx s with
     | Some _ => set_self (mkIdx (x_super s) (x_idx_path s) (x_idx s) (x_keys s) (Some false))
     | None => raise AttributeError
     end).

Definition idx_reset : M (world * MXIndexedRecordIO) unit := _ ← idx_close; idx_open.

Definition idx_seek (idx : Z) : M (world * MXIndexedRecordIO) unit :=
  s ← self;
  wr ← attr (r_writable (x_super s));
  _ ← massert (negb wr);
  _ ← check_pid (r_pid (x_super s)) true idx_reset;
  s ← self;
  pos ← lift (py_getitem (x_idx s) idx);
  on_handle (r_handle (x_super s)) (fun h => MXRecordIOReaderSeek h pos).

Definition idx_tell : M (world * MXIndexedRecordIO) Z :=
  s ← self;
  wr ← attr (r_writable (x_super s));
  _ ← massert wr;
  on_handle (r_handle (x_super s)) MXRecordIOWriterTell.

Definition idx_read : M (world * MXIndexedRecordIO) (option bytes) := super rec_read.

Definition read_idx (idx : Z) : M (world * MXIndexedRecordIO) (option bytes) :=
  _ ← idx_seek idx; idx_read.

(** [fidx.write]: a line at the end of the index file. *)
Definition write_line (path : string) (line : Z * Z) : M world unit := fun w =>
  (Ok tt, set_index (<[path := default [] (w_index w !! path) ++ [line]]> (w_index w)) w).

Definition write_idx (key : Z) (buf : bytes) : M (world * MXIndexedRecordIO) unit :=
  pos ← idx_tell;
  _ ← super (rec_write buf);
  s ← self;
  _ ← match x_fidx s with
      | Some true => on_world (write_line (x_idx_path s) (key, pos))
      | Some false => raise ValueError
      | None => raise AttributeError
      end;
  set_self (mkIdx (x_super s) (x_idx_path s) (<[key := pos]> (x_idx s)) (x_keys s ++ [key]) (x_fidx s)).

(** Pickling an indexed file also drops the index file object. *)
Definition idx_getstate : M (world * MXIndexedRecordIO) (rec_state * gmap Z Z * list Z * string) :=
  s ← self;
  _ ← idx_close;
  s' ← self;
  let r := x_super s in
  mret (mkState (r_uri r) (r_flag r) (r_open r) (r_writable r), x_idx s', x_keys s', x_idx_path s').

Definition idx_setstate (d : rec_state * gmap Z Z * list Z * string) : M (world * MXIndexedRecordIO) unit :=
  let '(b, idx, keys, path) := d in
  _ ← set_self (mkIdx (mkRec (st_uri b) None (st_flag b) None false (st_writable b)) path idx keys None);
  if st_open b then idx_open else mret tt.
End RecordIO.

(** ** [RecordFileDataset] *)

(** [os.path.splitext(p)[0]]: everything before the last dot of the last path
    component, unless only dots precede it there. *)
Fixpoint rfind (c : ascii) (s : list ascii) (i last : Z) : Z :=
  match s with
  | [] => last
  | d :: s => rfind c s (i + 1) (if Ascii.eqb c d then i else last)
  end.

Definition splitext_root (p : string) : string :=
  let s := list_ascii_of_string p in
  let sep := rfind "/"%char s 0 (-1) in
  let dot := rfind "."%char s 0 (-1) in
  if (sep <? dot) && existsb (fun c => negb (Ascii.eqb c "."%char)) (py_slice s (sep + 1) dot)
  then string_of_list_ascii (py_slice s 0 dot) else p.

Section RecordFileDataset.
Context (parse : bytes -> option (bytes * bytes)).

Definition RecordFileDataset_init (filename : string) : MXIndexedRecordIO :=
  idx_new (splitext_root filename +:+ ".idx")%string filename "r".

Definition RecordFileDataset_getitem (idx : Z) : M (world * MXIndexedRecordIO) (option bytes) :=
  s ← self; key ← lift (py_index (x_keys s) idx); read_idx parse key.

Definition RecordFileDataset_len (s : MXIndexedRecordIO) : Z := py_len (x_keys s).
End RecordFileDataset.

(** ** Image records *)

(** [IRHeader].  A label is a number, a double given by its bit pattern, or an array of any
    shape, its elements in C order: doubles (a list of numbers too), or single-precision
    numbers, given by their bit patterns. *)
Inductive label_array := F64 (bits : list Z) | F32 (bits : list Z).
Inductive ir_label := LNum (bits : Z) | LArr (shape : list Z) (a : label_array).
Record IRHeader := mkHeader { h_flag : Z; h_label : ir_label; h_id : Z; h_id2 : Z }.

(** [n] bytes of an unsigned integer, least significant first. *)
Fixpoint le_bytes (n : nat) (z : Z) : bytes :=
  match n with
  | O => []
  | S n => Z.land z 255 :: le_bytes n (Z.shiftr z 8)
  end.

Fixpoint of_le_bytes (l : bytes) : Z :=
  match l with
  | [] => 0
  | b :: l => Z.lor b (Z.shiftl (of_le_bytes l) 8)
  end.

(** The conversion of a double to single precision, on bit patterns: [m] without its lowest
    [k] bits, rounded to nearest, ties to even; the sign, the infinity and what is left of a
    NaN are kept, a number too large becomes infinity, one too small a subnormal number or
    zero. *)
Definition round_shift (m k : Z) : Z :=
  let q := m / 2 ^ k in
  let rest := m mod 2 ^ k in
  if (2 ^ (k - 1) <? rest) || ((rest =? 2 ^ (k - 1)) && Z.odd q) then q + 1 else q.

Definition f32_inf : Z := 255 * 2 ^ 23.

Definition f32_magnitude (e m : Z) : Z :=
  if e =? 2047 then f32_inf + (if m =? 0 then 0 else Z.lor (2 ^ 22) (m / 2 ^ 29))
  else if e =? 0 then 0
  else Z.min f32_inf
    (if 897 <=? e then (e - 897) * 2 ^ 23 + round_shift (2 ^ 52 + m) 29
     else round_shift (2 ^ 52 + m) (29 + (897 - e))).

Definition to_f32 (x : Z) : Z :=
  x / 2 ^ 63 * 2 ^ 31 + f32_magnitude (x / 2 ^ 52 mod 2 ^ 11) (x mod 2 ^ 52).

(** The conversion of a single-precision number to a double, which is exact. *)
Definition f64_magnitude (e m : Z) : Z :=
  if e =? 255 then 2047 * 2 ^ 52 + (if m =? 0 then 0 else Z.lor (2 ^ 51) (m * 2 ^ 29))
  else if e =? 0 then
    if m =? 0 then 0 else (Z.log2 m + 874) * 2 ^ 52 + (m - 2 ^ Z.log2 m) * 2 ^ (52 - Z.log2 m)
  else (e + 896) * 2 ^ 52 + m * 2 ^ 29.

Definition of_f32 (b : Z) : Z :=
  b / 2 ^ 31 * 2 ^ 63 + f64_magnitude (b / 2 ^ 23 mod 2 ^ 8) (b mod 2 ^ 23).

(** A finite double that rounds to infinity. *)
Definition f32_overflows (x : Z) : bool :=
  (to_f32 x mod 2 ^ 31 =? f32_inf) && negb (x mod 2 ^ 63 =? 2047 * 2 ^ 52).

Definition _IR_SIZE : Z := 24.

(** [struct.pack('IfQQ', flag, label, id, id2)]: 4, 4, 8 and 8 bytes without padding, the
    label converted to single precision. *)
Definition struct_pack (flag label id id2 : Z) : result bytes :=
  if negb ((0 <=? flag) && (flag <? 2 ^ 32)) then Raise StructError
  else if f32_overflows label then Raise OverflowError
  else if (0 <=? id) && (id <? 2 ^ 64) && (0 <=? id2) && (id2 <? 2 ^ 64)
  then Ok (le_bytes 4 flag ++ le_bytes 4 (to_f32 label) ++ le_bytes 8 id ++ le_bytes 8 id2)
  else Raise StructError.

Definition struct_unpack (s : bytes) : result (Z * Z * Z * Z) :=
  if py_len s =? _IR_SIZE
  then Ok (of_le_bytes (take 4 s), of_f32 (of_le_bytes (take 4 (drop 4 s))),
           of_le_bytes (take 8 (drop 8 s)), of_le_bytes (take 8 (drop 16 s)))
  else Raise StructError.

(** [np.asarray(label, dtype=np.float32)] *)
Definition as_float32 (a : label_array) : list Z := match a with F64 l => map to_f32 l | F32 l => l end.

Definition pack (header : IRHeader) (s : bytes) : result bytes :=
  let '(flag, label, s) :=
    match h_label header with
    | LNum bits => (0, bits, s)
    | LArr _ a => let l := as_float32 a in (py_len l, 0, concat (map (le_bytes 4) l) ++ s)
    end in
  h ← struct_pack flag label (h_id header) (h_id2 header);
  Ok (h ++ s).

(** [np.frombuffer(s, np.float32, count)] *)
Fixpoint words (n : nat) (s : bytes) : list Z :=
  match n with
  | O => []
  | S n => of_le_bytes (take 4 s) :: words n (drop 4 s)
  end.
Definition frombuffer (s : bytes) (count : Z) : result (list Z) :=
  if py_len s <? 4 * count then Raise ValueError else Ok (words (Z.to_nat count) s).

Definition unpack (s : bytes) : result (IRHeader * bytes) :=
  '(flag, label, id, id2) ← struct_unpack (py_slice s 0 _IR_SIZE);
  let s := py_slice s _IR_SIZE (py_len s) in
  if 0 <? flag then
    (l ← frombuffer s flag; Ok (mkHeader flag (LArr [flag] (F32 l)) id id2, py_slice s (flag * 4) (py_len s)))
  else Ok (mkHeader flag (LNum label) id id2, s).

(** Images, with OpenCV's encoder and decoder as parameters. *)
Section Images.
Context {Img : Type} (cv2_available : bool).
Context (imencode : string -> Img -> option (string * Z) -> bool * bytes) (imdecode : bytes -> Z -> option Img).

Definition upper (c : ascii) : ascii :=
  let n := nat_of_ascii c in
  if (Nat.leb 97 n && Nat.leb n 122)%bool then ascii_of_nat (n - 32) else c.
Definition str_upper (s : string) : string := string_of_list_ascii (map upper (list_ascii_of_string s)).

Definition pack_img (header : IRHeader) (img : Img) (quality : Z) (img_fmt : string) : result bytes :=
  _ ← py_assert cv2_available;
  let params :=
    if str_eqb (str_upper img_fmt) ".JPG" || str_eqb (str_upper img_fmt) ".JPEG"
    then Some ("IMWRITE_JPEG_QUALITY"%string, quality)
    else if str_eqb (str_upper img_fmt) ".PNG" then Some ("IMWRITE_PNG_COMPRESSION"%string, quality)
    else None in
  let '(ret, buf) := imencode img_fmt img params in
  _ ← py_assert ret;
  pack header buf.

Definition unpack_img (s : bytes) (iscolor : Z) : result (IRHeader * option Img) :=
  '(header, s) ← unpack s;
  _ ← py_assert cv2_available;
  Ok (header, imdecode s iscolor).
End Images.

(** ** Packing round trip *)

Lemma le_bytes_length n z : length (le_bytes n z) = n.
Proof. revert z. induction n; intros; simpl; auto. Qed.

Lemma of_le_bytes_spec n : forall z, 0 <= z < 2 ^ (8 * Z.of_nat n) -> of_le_bytes (le_bytes n z) = z.
Proof.
  induction n as [|n IH]; intros z Hz; [simpl in Hz |- *; lia|]. cbn [le_bytes of_le_bytes].
  change 255 with (Z.ones 8). rewrite Z.land_ones by lia. rewrite IH.
  - rewrite Z.shiftr_div_pow2, <- Z.land_ones by lia.
    apply Z.bits_inj'. intros i Hi. rewrite Z.lor_spec, Z.land_spec.
    destruct (Z.ltb_spec i 8).
    + rewrite Z.ones_spec_low, Z.shiftl_spec_low by lia. by rewrite andb_true_r, orb_false_r.
    + rewrite Z.ones_spec_high, Z.shiftl_spec by lia. rewrite andb_false_r, orb_false_l.
      rewrite <- Z.shiftr_div_pow2 by lia. rewrite Z.shiftr_spec by lia. f_equal. lia.
  - rewrite Z.shiftr_div_pow2 by lia. split; [apply Z.div_pos; lia|].
    apply Z.div_lt_upper_bound; [lia|]. rewrite <- Z.pow_add_r by lia.
    replace (8 + 8 * Z.of_nat n) with (8 * Z.of_nat (S n)) by lia. lia.
Qed.

Lemma words_spec l s :
  Forall (fun z => 0 <= z < 2 ^ 32) l -> words (length l) (concat (map (le_bytes 4) l) ++ s) = l.
Proof.
  induction 1 as [|z l Hz _ IH]; [done|]. cbn [map concat length words]. rewrite <- app_assoc.
  rewrite take_app_length', drop_app_length', IH by (by rewrite le_bytes_length).
  by rewrite of_le_bytes_spec by (simpl; lia).
Qed.

Lemma concat_le_length l : length (concat (map (le_bytes 4) l)) = (4 * length l)%nat.
Proof.
  induction l as [|z l IH]; [done|]. cbn [map concat]. rewrite length_app, le_bytes_length, IH. simpl. lia.
Qed.

(** *** Single precision *)

Lemma round_shift_bounds m k : 0 <= m -> 0 < k -> m / 2 ^ k <= round_shift m k <= m / 2 ^ k + 1.
Proof. intros. unfold round_shift. destruct (_ || _); lia. Qed.

Lemma round_shift_exact q k : 0 < k -> round_shift (q * 2 ^ k) k = q.
Proof.
  intros Hk. assert (0 < 2 ^ k) by (apply Z.pow_pos_nonneg; lia). assert (0 < 2 ^ (k - 1)) by (apply Z.pow_pos_nonneg; lia).
  unfold round_shift. rewrite Z.div_mul, Z.mod_mul by lia.
  rewrite (proj2 (Z.ltb_ge _ _)), (proj2 (Z.eqb_neq _ _)) by lia. done.
Qed.

Lemma lor_small a b n : 0 <= n -> 0 <= a < 2 ^ n -> 0 <= b < 2 ^ n -> 0 <= Z.lor a b < 2 ^ n.
Proof.
  intros Hn Ha Hb. rewrite <- (Z.mod_small a (2 ^ n)), <- (Z.mod_small b (2 ^ n)) by lia.
  rewrite <- !Z.land_ones, <- Z.land_lor_distr_l, Z.land_ones by lia. apply Z.mod_pos_bound, Z.pow_pos_nonneg; lia.
Qed.

Lemma f32_magnitude_range e m : 0 <= e < 2 ^ 11 -> 0 <= m < 2 ^ 52 -> 0 <= f32_magnitude e m < 2 ^ 31.
Proof.
  intros He Hm. unfold f32_magnitude. assert (f32_inf = 2139095040) as Ei by reflexivity.
  destruct (Z.eqb_spec e 2047).
  - destruct (Z.eqb_spec m 0); [lia|].
    assert (0 <= Z.lor (2 ^ 22) (m / 2 ^ 29) < 2 ^ 23); [|lia].
    apply lor_small; [lia|lia|]. split; [apply Z.div_pos; lia|apply Z.div_lt_upper_bound; lia].
  - destruct (Z.eqb_spec e 0); [lia|]. destruct (Z.leb_spec 897 e).
    + pose proof (round_shift_bounds (2 ^ 52 + m) 29 ltac:(lia) ltac:(lia)).
      pose proof (Z.div_pos (2 ^ 52 + m) (2 ^ 29) ltac:(lia) ltac:(lia)). lia.
    + pose proof (round_shift_bounds (2 ^ 52 + m) (29 + (897 - e)) ltac:(lia) ltac:(lia)).
      pose proof (Z.div_pos (2 ^ 52 + m) (2 ^ (29 + (897 - e))) ltac:(lia) ltac:(apply Z.pow_pos_nonneg; lia)). lia.
Qed.

Lemma to_f32_range x : 0 <= x < 2 ^ 64 -> 0 <= to_f32 x < 2 ^ 32.
Proof.
  intros Hx. unfold to_f32.
  pose proof (f32_magnitude_range (x / 2 ^ 52 mod 2 ^ 11) (x mod 2 ^ 52) ltac:(apply Z.mod_pos_bound; lia)
    ltac:(apply Z.mod_pos_bound; lia)).
  assert (0 <= x / 2 ^ 63 < 2); [|lia]. split; [apply Z.div_pos; lia|apply Z.div_lt_upper_bound; lia].
Qed.

(** A NaN that is quiet, as every conversion leaves it, or not a NaN. *)
Definition f32_quiet (b : Z) : Prop := 2 ^ 22 <= b mod 2 ^ 23 \/ b mod 2 ^ 23 = 0 \/ b / 2 ^ 23 mod 2 ^ 8 <> 255.

Lemma split_bits s e m E M : 0 <= e < 2 ^ E -> 0 <= m < 2 ^ M -> 0 <= E -> 0 <= M ->
  let x := s * 2 ^ (E + M) + (e * 2 ^ M + m) in
  x / 2 ^ (E + M) = s /\ x / 2 ^ M mod 2 ^ E = e /\ x mod 2 ^ M = m.
Proof.
  intros He Hm HE HM x. assert (0 < 2 ^ M) by (apply Z.pow_pos_nonneg; lia). assert (0 < 2 ^ E) by (apply Z.pow_pos_nonneg; lia).
  assert (2 ^ (E + M) = 2 ^ E * 2 ^ M) as Ep by (apply Z.pow_add_r; lia). unfold x. clear x. rewrite Ep. split_and!.
  - rewrite Z.div_add_l by nia. rewrite Z.div_small; [lia|]. nia.
  - replace (s * (2 ^ E * 2 ^ M) + (e * 2 ^ M + m)) with ((s * 2 ^ E + e) * 2 ^ M + m) by lia.
    rewrite Z.div_add_l, (Z.div_small m), Z.add_0_r by lia. rewrite Z.add_comm, Z.mod_add, Z.mod_small by lia. done.
  - replace (s * (2 ^ E * 2 ^ M) + (e * 2 ^ M + m)) with (m + (s * 2 ^ E + e) * 2 ^ M) by lia.
    by rewrite Z.mod_add, Z.mod_small by lia.
Qed.

Lemma lor_top m n : 0 <= n -> 2 ^ n <= m < 2 ^ (n + 1) -> Z.lor (2 ^ n) m = m.
Proof.
  intros Hn Hm. assert (Z.log2 m = n) as El by (apply Z.log2_unique; lia).
  apply Z.bits_inj'. intros i Hi. rewrite Z.lor_spec, Z.pow2_bits_eqb by lia. destruct (Z.eqb_spec n i) as [<-|]; [|done].
  rewrite <- El, Z.bit_log2; [done|]. pose proof (Z.pow_pos_nonneg 2 n). lia.
Qed.

(** The parts of a widened number, and that narrowing gives its parts back. *)
Lemma f64_parts e m : 0 <= e < 2 ^ 8 -> 0 <= m < 2 ^ 23 -> 2 ^ 22 <= m \/ m = 0 \/ e <> 255 ->
  exists e' m', f64_magnitude e m = e' * 2 ^ 52 + m' /\ 0 <= e' < 2 ^ 11 /\ 0 <= m' < 2 ^ 52 /\
    f32_magnitude e' m' = e * 2 ^ 23 + m.
Proof.
  intros He Hm Hq. unfold f64_magnitude. assert (f32_inf = 255 * 2 ^ 23) as Ei by reflexivity.
  destruct (Z.eqb_spec e 255) as [->|]; [destruct (Z.eqb_spec m 0) as [->|]|].
  - by exists 2047, 0.
  - assert (Z.lor (2 ^ 51) (m * 2 ^ 29) = m * 2 ^ 29) as -> by (apply lor_top; lia).
    exists 2047, (m * 2 ^ 29). split_and!; [done|lia..|]. unfold f32_magnitude. cbn [Z.eqb Pos.eqb].
    rewrite (proj2 (Z.eqb_neq _ 0)) by lia. rewrite Z.div_mul, lor_top by lia. lia.
  - destruct (Z.eqb_spec e 0) as [->|]; [destruct (Z.eqb_spec m 0) as [->|]|].
    + by exists 0, 0.
    + pose proof (Z.log2_spec m ltac:(lia)) as Hk. set (k := Z.log2 m) in *.
      assert (0 <= k < 23) as Hk' by (split; [apply Z.log2_nonneg|apply Z.log2_lt_pow2; lia]). clearbody k.
      assert (2 ^ 52 = 2 ^ k * 2 ^ (52 - k)) as E52 by (rewrite <- Z.pow_add_r by lia; f_equal; lia).
      assert (2 ^ Z.succ k = 2 * 2 ^ k) as Es by (apply Z.pow_succ_r; lia).
      assert (0 < 2 ^ (52 - k)) by (apply Z.pow_pos_nonneg; lia).
      exists (k + 874), ((m - 2 ^ k) * 2 ^ (52 - k)). split_and!; [done|lia|lia|nia|rewrite E52; nia|].
      unfold f32_magnitude. rewrite !(proj2 (Z.eqb_neq _ _)), (proj2 (Z.leb_gt _ _)) by lia.
      replace (2 ^ 52 + (m - 2 ^ k) * 2 ^ (52 - k)) with (m * 2 ^ (52 - k)) by (rewrite E52; lia).
      replace (29 + (897 - (k + 874))) with (52 - k) by lia. rewrite round_shift_exact by lia. lia.
    + exists (e + 896), (m * 2 ^ 29). split_and!; [done|lia..|]. unfold f32_magnitude.
      rewrite !(proj2 (Z.eqb_neq _ _)), (proj2 (Z.leb_le _ _)) by lia.
      replace (2 ^ 52 + m * 2 ^ 29) with ((2 ^ 23 + m) * 2 ^ 29) by lia. rewrite round_shift_exact by lia. lia.
Qed.

(** Narrowing gives back what was widened. *)
Lemma to_of_f32 b : 0 <= b < 2 ^ 32 -> f32_quiet b -> to_f32 (of_f32 b) = b.
Proof.
  intros Hb Hq. unfold of_f32. set (e := b / 2 ^ 23 mod 2 ^ 8). set (m := b mod 2 ^ 23).
  assert (0 <= e < 2 ^ 8) as He by (apply Z.mod_pos_bound; lia). assert (0 <= m < 2 ^ 23) as Hm by (apply Z.mod_pos_bound; lia).
  destruct (f64_parts e m He Hm Hq) as (e' & m' & -> & He' & Hm' & Hback).
  destruct (split_bits (b / 2 ^ 31) e' m' 11 52 He' Hm') as (E1 & E2 & E3); [lia..|]. change (11 + 52) with 63 in *.
  unfold to_f32. rewrite E1, E2, E3, Hback. unfold e, m.
  pose proof (Z.div_mod b (2 ^ 23) ltac:(lia)). pose proof (Z.div_mod (b / 2 ^ 23) (2 ^ 8) ltac:(lia)).
  assert (b / 2 ^ 31 = b / 2 ^ 23 / 2 ^ 8) as -> by (rewrite Z.div_div by lia; done). lia.
Qed.

Lemma struct_round_trip flag label id id2 s :
  0 <= flag < 2 ^ 32 -> 0 <= label < 2 ^ 64 -> f32_overflows label = false -> 0 <= id < 2 ^ 64 -> 0 <= id2 < 2 ^ 64 ->
  exists h, struct_pack flag label id id2 = Ok h /\ py_len h = _IR_SIZE /\
    struct_unpack (py_slice (h ++ s) 0 _IR_SIZE) = Ok (flag, of_f32 (to_f32 label), id, id2) /\
    py_slice (h ++ s) _IR_SIZE (py_len (h ++ s)) = s.
Proof.
  intros Hf Hl Ho Hi Hi2. pose proof (to_f32_range label Hl) as Hr. unfold struct_pack.
  rewrite !(proj2 (Z.leb_le _ _)), !(proj2 (Z.ltb_lt _ _)), Ho by lia. cbn [andb negb].
  eexists. split; [reflexivity|]. set (h := le_bytes 4 flag ++ _).
  assert (length h = 24%nat) as Hh by (unfold h; rewrite !length_app, !le_bytes_length; done).
  assert (py_len h = _IR_SIZE) as Hp by (unfold py_len; by rewrite Hh).
  pose proof (py_len_nonneg s). assert (_IR_SIZE = 24) as E24 by done.
  split; [done|]. split.
  - rewrite <- Hp. rewrite py_slice_in by (rewrite ?py_len_app; lia). rewrite Z.sub_0_r.
    unfold py_len at 1. rewrite Nat2Z.id. change (Z.to_nat 0) with O. rewrite drop_0, take_app_length.
    unfold struct_unpack. rewrite Hp, Z.eqb_refl. unfold h.
    rewrite take_app_length', drop_app_length' by (by rewrite le_bytes_length).
    rewrite (take_app_length' (le_bytes 4 (to_f32 label))) by (by rewrite le_bytes_length).
    rewrite (app_assoc (le_bytes 4 flag) (le_bytes 4 (to_f32 label))).
    rewrite (drop_app_length' (le_bytes 4 flag ++ le_bytes 4 (to_f32 label))) by by rewrite length_app, !le_bytes_length.
    rewrite (take_app_length' (le_bytes 8 id)) by (by rewrite le_bytes_length).
    rewrite (app_assoc _ (le_bytes 8 id)).
    rewrite (drop_app_length' ((le_bytes 4 flag ++ le_bytes 4 (to_f32 label)) ++ le_bytes 8 id))
      by by rewrite !length_app, !le_bytes_length.
    rewrite take_ge by by rewrite le_bytes_length.
    by rewrite !of_le_bytes_spec by (simpl; lia).
  - rewrite <- Hp at 1. rewrite py_slice_app_r by (rewrite ?py_len_app; lia).
    rewrite Z.sub_diag, py_len_app. replace (py_len h + py_len s - py_len h) with (py_len s) by lia.
    apply py_slice_all.
Qed.

(** What [struct] and the label array can hold: ids of 64 bits, a number that does not
    overflow single precision, an array that is not empty. *)
Definition header_ok (h : IRHeader) : Prop :=
  0 <= h_id h < 2 ^ 64 /\ 0 <= h_id2 h < 2 ^ 64 /\
  match h_label h with
  | LNum x => 0 <= x < 2 ^ 64 /\ f32_overflows x = false
  | LArr _ (F64 l) => Forall (fun x => 0 <= x < 2 ^ 64) l /\ 0 < py_len l < 2 ^ 32
  | LArr _ (F32 l) => Forall (fun b => 0 <= b < 2 ^ 32) l /\ 0 < py_len l < 2 ^ 32
  end.

(** The label in single precision; an array is flat. *)
Definition single_label (l : ir_label) : ir_label :=
  match l with
  | LNum x => LNum (of_f32 (to_f32 x))
  | LArr _ a => LArr [py_len (as_float32 a)] (F32 (as_float32 a))
  end.

(** A number that single precision can represent, or a flat array of single precision. *)
Definition label_exact (l : ir_label) : Prop :=
  match l with
  | LNum x => exists b, x = of_f32 b /\ 0 <= b < 2 ^ 32 /\ f32_quiet b
  | LArr shape (F32 l) => shape = [py_len l]
  | LArr _ (F64 _) => False
  end.

Lemma single_exact l : label_exact l -> single_label l = l.
Proof.
  destruct l as [x|shape [l|l]]; cbn; [|done|by intros ->]. intros (b & -> & Hb & Hq). by rewrite to_of_f32.
Qed.

Lemma as_float32_ok shape a h : header_ok h -> h_label h = LArr shape a ->
  Forall (fun b => 0 <= b < 2 ^ 32) (as_float32 a) /\ 0 < py_len (as_float32 a) < 2 ^ 32.
Proof.
  intros (_ & _ & Hl) E. rewrite E in Hl. destruct a as [l|l]; cbn; [|done]. destruct Hl as [Hl Hn]. split.
  - apply Forall_fmap. eapply Forall_impl; [exact Hl|]. intros x Hx. by apply to_f32_range.
  - unfold py_len in *. by rewrite length_map.
Qed.

(** C29: [unpack] gives back the ids and the contents of a packed record and its label
    rounded to single precision, for a number that single precision does not overflow and for a
    non-empty array of labels, which comes back as a flat array; so a number that single
    precision represents (no signalling NaN) and a flat array of single precision come back
    unchanged.  The flag is the number of labels of an array and 0 otherwise, whatever it
    was set to. *)
Theorem pack_unpack h s :
  header_ok h ->
  exists p, pack h s = Ok p /\
    unpack p = Ok (mkHeader (match h_label h with LNum _ => 0 | LArr _ a => py_len (as_float32 a) end)
                            (single_label (h_label h)) (h_id h) (h_id2 h), s) /\
    (label_exact (h_label h) -> single_label (h_label h) = h_label h).
Proof.
  intros Hok. pose proof Hok as (Hi & Hi2 & Hl). unfold pack, unpack. destruct (h_label h) as [bits|shape a] eqn:El.
  - destruct (struct_round_trip 0 bits (h_id h) (h_id2 h) s) as (p & E & _ & E1 & E2); [lia|apply Hl|apply Hl|lia..|].
    exists (p ++ s). rewrite E. split; [done|]. rewrite E1. cbn. rewrite E2. split; [done|apply (single_exact (LNum bits))].
  - destruct (as_float32_ok shape a h Hok El) as [Hl' Hn]. clear Hl. cbn [single_label].
    enough (exists p, (h' ← struct_pack (py_len (as_float32 a)) 0 (h_id h) (h_id2 h);
        Ok (h' ++ concat (map (le_bytes 4) (as_float32 a)) ++ s)) = Ok p /\ unpack p =
        Ok (mkHeader (py_len (as_float32 a)) (LArr [py_len (as_float32 a)] (F32 (as_float32 a))) (h_id h) (h_id2 h), s))
      as (p & Ep & Eu) by (exists p; split_and!; [exact Ep|exact Eu|apply (single_exact (LArr shape a))]).
    unfold unpack. set (l := as_float32 a) in *. clearbody l.
    destruct (struct_round_trip (py_len l) 0 (h_id h) (h_id2 h) (concat (map (le_bytes 4) l) ++ s))
      as (p & E & _ & E1 & E2); [lia|lia|reflexivity|lia..|].
    exists (p ++ concat (map (le_bytes 4) l) ++ s). rewrite E. split; [done|]. rewrite E1. cbn [mbind result_bind].
    rewrite (proj2 (Z.ltb_lt 0 _)) by lia. rewrite E2. unfold frombuffer.
    assert (py_len (concat (map (le_bytes 4) l)) = 4 * py_len l) as Hlen.
    { unfold py_len. rewrite concat_le_length. lia. }
    rewrite (proj2 (Z.ltb_ge _ _)) by (rewrite py_len_app; pose proof (py_len_nonneg s); lia).
    replace (Z.to_nat (py_len l)) with (length l) by (unfold py_len; lia). cbn [mbind result_bind].
    rewrite words_spec by done. f_equal. f_equal.
    pose proof (py_len_nonneg s).
    rewrite py_slice_app_r by (rewrite ?py_len_app; lia). rewrite py_len_app, Hlen.
    replace (py_len l * 4 - 4 * py_len l) with 0 by lia.
    replace (4 * py_len l + py_len s - 4 * py_len l) with (py_len s) by lia. apply py_slice_all.
Qed.

(** The labels 1 and 2 as doubles; single precision represents them. *)
Definition two_labels : ir_label := LArr [2; 1] (F64 [1023 * 2 ^ 52; 1024 * 2 ^ 52]).

Example pack_unpack_witness :
  (exists p, pack (mkHeader 7 two_labels 2574 0) [104; 105] = Ok p /\
     unpack p = Ok (mkHeader 2 (LArr [2] (F32 [1065353216; 1073741824])) 2574 0, [104; 105])) /\
  (exists p, pack (mkHeader 7 (LNum 0x3FF8000000000000) 2574 0) [104] = Ok p /\
     unpack p = Ok (mkHeader 0 (LNum 0x3FF8000000000000) 2574 0, [104])).
Proof.
  split.
  - destruct (pack_unpack (mkHeader 7 two_labels 2574 0) [104; 105]) as (p & E & U & _).
    + split_and!; cbn; try lia; repeat constructor; lia.
    + exists p. split; [exact E|]. rewrite U. reflexivity.
  - destruct (pack_unpack (mkHeader 7 (LNum 0x3FF8000000000000) 2574 0) [104]) as (p & E & U & X).
    + unfold header_ok. cbn [h_id h_id2 h_label]. split_and!; [lia..|reflexivity].
    + exists p. split; [exact E|]. rewrite U, X; [reflexivity|]. exists 0x3FC00000.
      split_and!; [reflexivity|lia|lia|]. right. right. discriminate.
Defined.

(** The label 0.1 comes back as the nearest single-precision number; 1e39 does not fit, but
    becomes infinity in an array. *)
Example label_rounded :
  single_label (LNum 0x3FB999999999999A) = LNum 0x3FB99999A0000000 /\
  pack (mkHeader 0 (LNum 0x48078287F49C4A1D) 0 0) [] = Raise OverflowError /\
  single_label (LArr [1] (F64 [0x48078287F49C4A1D])) = LArr [1] (F32 [f32_inf]).
Proof. vm_compute. done. Qed.

(** ** Writing and reading back *)

(** A method applied to each element in turn. *)
Fixpoint mapM_ {S A B} (f : A -> M S B) (l : list A) : M S (list B) :=
  match l with
  | [] => mret []
  | a :: l => b ← f a; bs ← mapM_ f l; mret (b :: bs)
  end.

(** In the process that opened the file [_check_pid] does nothing. *)
Lemma check_pid_same {S} pid allow (reset : M (world * S) unit) w s :
  pid = Some (w_pid w) -> check_pid pid allow reset (w, s) = (Ok tt, (w, s)).
Proof.
  intros ->. unfold check_pid. rewrite bind_M. cbn [current_pid].
  by rewrite bool_decide_eq_true_2 by done.
Qed.

Lemma check_pid_other {S} pid allow (reset : M (world * S) unit) w s :
  pid ≠ Some (w_pid w) ->
  check_pid pid allow reset (w, s) = if (allow : bool) then reset (w, s) else (Raise RuntimeError, (w, s)).
Proof.
  intros Hp. unfold check_pid. rewrite bind_M. cbn [current_pid].
  rewrite bool_decide_eq_false_2 by done. by destruct allow.
Qed.

Section Files.
Context (frame : bytes -> bytes) (parse : bytes -> option (bytes * bytes)).
(** Reading a file that starts with a record gives that record and the rest. *)
Hypothesis parse_frame : forall b r, parse (frame b ++ r) = Some (b, r).

Notation rec := (Z * bytes)%type.

Definition content (recs : list rec) : bytes := concat (map (fun r => frame r.2) recs).

(** The lines of the index: each key with the length of what precedes its record. *)
Fixpoint positions (off : Z) (recs : list rec) : list (Z * Z) :=
  match recs with
  | [] => []
  | (k, b) :: recs => (k, off) :: positions (off + py_len (frame b)) recs
  end.

Lemma content_snoc recs k b : content (recs ++ [(k, b)]) = content recs ++ frame b.
Proof. unfold content. rewrite map_app, concat_app. cbn. by rewrite app_nil_r. Qed.

Lemma positions_snoc off recs k b :
  positions off (recs ++ [(k, b)]) = positions off recs ++ [(k, off + py_len (content recs))].
Proof.
  revert off. induction recs as [|[k' b'] recs IH]; intros off; cbn; [by rewrite Z.add_0_r|].
  rewrite IH. do 3 f_equal. unfold content. cbn. rewrite py_len_app. f_equal. lia.
Qed.

Lemma positions_keys off recs : map fst (positions off recs) = map fst recs.
Proof. revert off. induction recs as [|[k b] recs IH]; intros; cbn; f_equal; auto. Qed.

(** Where a record starts, its bytes follow. *)
Lemma positions_content off recs i k b :
  recs !! i = Some (k, b) -> 0 <= off ->
  exists pre post, positions off recs !! i = Some (k, off + py_len pre) /\
    content recs = pre ++ frame b ++ post.
Proof.
  revert off i. induction recs as [|[k' b'] recs IH]; intros off i Hi Ho; [done|].
  destruct i as [|i]; cbn in Hi; simplify_eq.
  - exists [], (content recs). cbn. by rewrite Z.add_0_r.
  - destruct (IH (off + py_len (frame b')) i Hi) as (pre & post & Hp & Hc); [pose proof (py_len_nonneg (frame b')); lia|].
    exists (frame b' ++ pre), post. cbn [positions]. change ((?a :: ?l) !! S i) with (l !! i).
    rewrite Hp, py_len_app. split; [by rewrite Z.add_assoc|].
    change (content ((k', b') :: recs)) with (frame b' ++ content recs). by rewrite Hc, <- app_assoc.
Qed.

Context (path uri : string).

(** An indexed file open for writing in its own process. *)
Record writing (recs : list rec) (w : world) (x : MXIndexedRecordIO) : Prop := {
  wr_uri : r_uri (x_super x) = uri;
  wr_path : x_idx_path x = path;
  wr_handle : exists h, r_handle (x_super x) = Some h /\ w_live w !! h = Some (HWriter uri);
  wr_writable : r_writable (x_super x) = Some true;
  wr_pid : r_pid (x_super x) = Some (w_pid w);
  wr_open : r_open (x_super x) = true;
  wr_fidx : x_fidx x = Some true;
  wr_file : w_files w !! uri = Some (content recs);
  wr_index : w_index w !! path = Some (positions 0 recs);
}.

Lemma open_writing w :
  exists w' x', idx_open (w, idx_new path uri "w") = (Ok tt, (w', x')) /\ writing [] w' x'.
Proof.
  eexists _, _. split; [reflexivity|]. split; try reflexivity; cbn.
  - exists (w_fresh w). split; [done|]. apply lookup_insert_eq.
  - apply lookup_insert_eq.
  - apply lookup_insert_eq.
Qed.

Lemma write_idx_writing recs w x k b :
  writing recs w x ->
  exists w' x', write_idx frame k b (w, x) = (Ok tt, (w', x')) /\ writing (recs ++ [(k, b)]) w' x'.
Proof.
  intros [Eu Ep (h & Eh & Hl) Ew Epid Eo Ef Efile Eidx].
  destruct x as [[u hd fl pid op wr] pth idx keys fidx]; cbn in *; simplify_eq.
  eexists _, _. split.
  - unfold write_idx, idx_tell, super, rec_write, mbind, M_bind, self, attr, mret, M_ret, massert, py_assert,
      on_handle, on_world, set_self. cbn.
    unfold MXRecordIOWriterTell. rewrite Hl. cbn. rewrite check_pid_same by done. cbn.
    unfold MXRecordIOWriterWriteRecord. rewrite Hl. cbn. unfold write_line. reflexivity.
  - split; try done; cbn.
    + by exists h.
    + rewrite Efile, content_snoc. apply lookup_insert_eq.
    + rewrite Eidx, Efile, positions_snoc. rewrite Z.add_0_l. apply lookup_insert_eq.
Qed.

Lemma write_all recs : forall done w x,
  writing done w x ->
  exists us w' x', mapM_ (fun r => write_idx frame r.1 r.2) recs (w, x) = (Ok us, (w', x')) /\
    writing (done ++ recs) w' x'.
Proof.
  induction recs as [|[k b] recs IH]; intros done w x Hw.
  - exists [], w, x. by rewrite app_nil_r.
  - destruct (write_idx_writing done w x k b Hw) as (w1 & x1 & E1 & Hw1).
    destruct (IH _ _ _ Hw1) as (us & w2 & x2 & E2 & Hw2). exists (tt :: us), w2, x2.
    split; [|by rewrite <- app_assoc in Hw2]. cbn [mapM_]. rewrite bind_M. cbn [fst snd]. rewrite E1.
    by rewrite bind_M, E2.
Qed.

Lemma close_writing recs w x :
  writing recs w x ->
  exists w' x', idx_close (w, x) = (Ok tt, (w', x')) /\
    w_files w' !! uri = Some (content recs) /\ w_index w' !! path = Some (positions 0 recs) /\
    (exists h, r_handle (x_super x') = Some h /\ w_live w' !! h = None) /\
    r_writable (x_super x') = Some true /\ r_pid (x_super x') = None /\ r_open (x_super x') = false.
Proof.
  intros [Eu Ep (h & Eh & Hl) Ew Epid Eo Ef Efile Eidx].
  destruct x as [[u hd fl pid op wr] pth idx keys fidx]; cbn in *; simplify_eq.
  eexists _, _. split.
  - unfold idx_close, super, rec_close, mbind, M_bind, self, attr, mret, M_ret, on_handle, on_world, set_self. cbn.
    unfold MXRecordIOFree. rewrite Hl. cbn. reflexivity.
  - cbn. split_and!; try done. exists h. split; [done|]. apply lookup_delete_eq.
Qed.

(** An indexed file open for reading; [pid] is the process that opened it. *)
Record reading (recs : list rec) (pid : Z) (w : world) (x : MXIndexedRecordIO) : Prop := {
  rd_uri : r_uri (x_super x) = uri;
  rd_flag : r_flag (x_super x) = "r"%string;
  rd_path : x_idx_path x = path;
  rd_handle : exists h pos, r_handle (x_super x) = Some h /\ w_live w !! h = Some (HReader uri pos);
  rd_writable : r_writable (x_super x) = Some false;
  rd_pid : r_pid (x_super x) = Some pid;
  rd_open : r_open (x_super x) = true;
  rd_fidx : x_fidx x = Some true;
  rd_idx : x_idx x = list_to_map (reverse (positions 0 recs));
  rd_keys : x_keys x = map fst recs;
  rd_file : w_files w !! uri = Some (content recs);
  rd_index : w_index w !! path = Some (positions 0 recs);
}.

(** [open] of a reader, whatever was left in the object. *)
Lemma open_reading recs w x :
  w_files w !! uri = Some (content recs) -> w_index w !! path = Some (positions 0 recs) ->
  r_uri (x_super x) = uri -> r_flag (x_super x) = "r"%string -> x_idx_path x = path ->
  exists w' x', idx_open (w, x) = (Ok tt, (w', x')) /\ reading recs (w_pid w) w' x' /\
    r_handle (x_super x') = Some (w_fresh w) /\ w_pid w' = w_pid w.
Proof.
  intros Hf Hi Eu Efl Ep. destruct x as [[u hd fl pid op wr] pth idx keys fidx]; cbn in *; simplify_eq.
  eexists _, _. split.
  - unfold idx_open, super, rec_open, mbind, M_bind, self, attr, mret, M_ret, on_world, set_self, current_pid. cbn.
    change (str_eqb "r" "w") with false. change (str_eqb "r" "r") with true. cbn match.
    unfold MXRecordIOReaderCreate. rewrite Hf. cbn. unfold open_index. cbn.
    change (str_eqb "r" "w") with false. cbn match. rewrite Hi. reflexivity.
  - split_and!; [|done|done]. split; try done; cbn.
    + exists (w_fresh w), 0. split; [done|]. apply lookup_insert_eq.
    + by rewrite positions_keys.
Qed.

Lemma index_lookup recs i k b :
  NoDup (map fst recs) -> recs !! i = Some (k, b) ->
  exists pre post, (list_to_map (reverse (positions 0 recs)) : gmap Z Z) !! k = Some (py_len pre) /\
    content recs = pre ++ frame b ++ post.
Proof.
  intros Hnd Hi. destruct (positions_content 0 recs i k b Hi) as (pre & post & Hp & Hc); [lia|].
  exists pre, post. split; [|done]. apply elem_of_list_to_map_1.
  - change (NoDup (map fst (reverse (positions 0 recs)))). rewrite <- positions_keys with (off := 0) in Hnd.
    change (map fst (reverse ?l)) with (fst <$> reverse l). rewrite fmap_reverse. 
    by rewrite reverse_Permutation.
  - apply elem_of_reverse. by apply list_elem_of_lookup_2 in Hp.
Qed.

Lemma read_idx_reading recs w x i k b :
  NoDup (map fst recs) -> reading recs (w_pid w) w x -> recs !! i = Some (k, b) ->
  exists w' x', read_idx parse k (w, x) = (Ok (Some b), (w', x')) /\ reading recs (w_pid w') w' x' /\
    w_pid w' = w_pid w /\ r_handle (x_super x') = r_handle (x_super x).
Proof.
  intros Hnd [Eu Efl Ep (h & pos & Eh & Hl) Ew Epid Eo Ef Ex Ek Efile Eidx] Hi.
  destruct (index_lookup recs i k b Hnd Hi) as (pre & post & Hk & Hc).
  assert (drop (Z.to_nat (py_len pre)) (content recs) = frame b ++ post) as Hd.
  { unfold py_len. by rewrite Nat2Z.id, Hc, drop_app_length. }
  destruct x as [[u hd fl pid op wr] pth idx keys fidx]; cbn in *; simplify_eq.
  eexists _, _. split.
  - unfold read_idx, idx_seek, idx_read, super, rec_read, mbind, M_bind, self, attr, mret, M_ret, massert, py_assert,
      on_handle, on_world, set_self, lift. cbn. rewrite check_pid_same by done. cbn.
    unfold py_getitem. rewrite Hk. cbn. unfold MXRecordIOReaderSeek. rewrite Hl. cbn.
    rewrite check_pid_same by done. cbn. unfold MXRecordIOReaderReadRecord. cbn. rewrite lookup_insert_eq, Efile.
    cbn [default id]. rewrite Hd, parse_frame. reflexivity.
  - split_and!; try done. split; try done; cbn. eexists h, _. split; [done|]. apply lookup_insert_eq.
Qed.

Lemma read_many recs ks : forall w x,
  NoDup (map fst recs) -> reading recs (w_pid w) w x -> Forall (fun r => r ∈ recs) ks ->
  exists w' x', mapM_ (fun k => read_idx parse k) (map fst ks) (w, x) =
    (Ok (map (fun r => Some r.2) ks), (w', x')) /\ reading recs (w_pid w') w' x'.
Proof.
  induction ks as [|[k b] ks IH]; intros w x Hnd Hr Hks; [by exists w, x|].
  apply Forall_cons in Hks as [[i Hi]%list_elem_of_lookup Hks].
  destruct (read_idx_reading recs w x i k b Hnd Hr Hi) as (w1 & x1 & E1 & Hr1 & _).
  destruct (IH w1 x1 Hnd Hr1 Hks) as (w2 & x2 & E2 & Hr2). exists w2, x2. split; [|done].
  cbn [map mapM_ fst]. by rewrite bind_M, E1, bind_M, E2.
Qed.

(** C30: records written to an indexed file under distinct keys are read back by
    key, after the file is closed and opened for reading: every key gives the record
    written under it, in any order of access and however often. *)
Theorem indexed_round_trip recs ks w :
  NoDup (map fst recs) -> Forall (fun r => r ∈ recs) ks ->
  exists us w1 x1 w2 x2 w3 x3 w4 x4 w5 x5,
    idx_open (w, idx_new path uri "w") = (Ok tt, (w1, x1)) /\
    mapM_ (fun r => write_idx frame r.1 r.2) recs (w1, x1) = (Ok us, (w2, x2)) /\
    idx_close (w2, x2) = (Ok tt, (w3, x3)) /\
    idx_open (w3, idx_new path uri "r") = (Ok tt, (w4, x4)) /\
    x_keys x4 = map fst recs /\
    mapM_ (fun k => read_idx parse k) (map fst ks) (w4, x4) = (Ok (map (fun r => Some r.2) ks), (w5, x5)).
Proof.
  intros Hnd Hks. destruct (open_writing w) as (w1 & x1 & E1 & Hw1).
  destruct (write_all recs [] w1 x1 Hw1) as (us & w2 & x2 & E2 & Hw2).
  destruct (close_writing _ w2 x2 Hw2) as (w3 & x3 & E3 & Hf & Hi & _).
  destruct (open_reading recs w3 (idx_new path uri "r") Hf Hi) as (w4 & x4 & E4 & Hr & _ & Ep); [done..|].
  rewrite <- Ep in Hr.
  destruct (read_many recs ks w4 x4 Hnd Hr Hks) as (w5 & x5 & E5 & _).
  exists us, w1, x1, w2, x2, w3, x3, w4, x4, w5, x5. split_and!; try done. apply Hr.
Qed.

(** ** Across processes *)

(** The same memory and files seen from another process. *)
Definition in_process (pid : Z) (w : world) : world :=
  mkWorld (w_files w) (w_index w) (w_live w) (w_fresh w) pid.

Lemma close_reading recs pid w x :
  reading recs pid w x ->
  exists w' x', idx_close (w, x) = (Ok tt, (w', x')) /\
    w_files w' = w_files w /\ w_index w' = w_index w /\ w_pid w' = w_pid w /\ w_fresh w' = w_fresh w /\
    r_uri (x_super x') = uri /\ r_flag (x_super x') = "r"%string /\ x_idx_path x' = path /\
    r_open (x_super x') = false /\ r_pid (x_super x') = None /\ r_writable (x_super x') = Some false.
Proof.
  intros [Eu Efl Ep (h & pos & Eh & Hl) Ew Epid Eo Ef Ex Ek Efile Eidx].
  destruct x as [[u hd fl pd op wr] pth idx keys fidx]; cbn in *; simplify_eq.
  eexists _, _. split.
  - unfold idx_close, super, rec_close, mbind, M_bind, self, attr, mret, M_ret, on_handle, on_world, set_self. cbn.
    unfold MXRecordIOFree. rewrite Hl. cbn. reflexivity.
  - by cbn.
Qed.

(** [reset] of a reader: a new handle, opened by the current process. *)
Lemma reset_reading recs pid w x :
  reading recs pid w x ->
  exists w' x', idx_reset (w, x) = (Ok tt, (w', x')) /\ reading recs (w_pid w') w' x' /\
    w_pid w' = w_pid w /\ r_handle (x_super x') = Some (w_fresh w).
Proof.
  intros Hr. destruct (close_reading recs pid w x Hr) as (w1 & x1 & E1 & F1 & F2 & F3 & F4 & U & Fl & P & _).
  destruct (open_reading recs w1 x1) as (w2 & x2 & E2 & Hr2 & Hh & Ep);
    [rewrite F1; apply Hr|rewrite F2; apply Hr|done|done|done|].
  exists w2, x2. unfold idx_reset. rewrite bind_M, E1, E2. rewrite <- Ep in Hr2. split_and!; [done|done|congruence..].
Qed.

(** [seek] after its check of the process. *)
Lemma seek_unfold k w x :
  r_writable (x_super x) = Some false ->
  idx_seek k (w, x) =
    match check_pid (r_pid (x_super x)) true idx_reset (w, x) with
    | (Ok _, s) => (s ← self; pos ← lift (py_getitem (x_idx s) k);
                    on_handle (r_handle (x_super s)) (fun h => MXRecordIOReaderSeek h pos)) s
    | (Raise e, s) => (Raise e, s)
    end.
Proof. intros Ew. unfold idx_seek. rewrite bind_M. cbn [self]. by rewrite Ew. Qed.

(** an open reader carried into another process never uses the handle of the
    process it came from: a sequential read is refused with [RuntimeError] and
    changes nothing, while a read by key first opens the file again with a handle of
    its own and then returns the right record. *)
Theorem reader_across_processes recs pid pid' w x i k b :
  NoDup (map fst recs) -> reading recs pid w x -> pid' ≠ pid -> recs !! i = Some (k, b) ->
  idx_read parse (in_process pid' w, x) = (Raise RuntimeError, (in_process pid' w, x)) /\
  exists w' x', read_idx parse k (in_process pid' w, x) = (Ok (Some b), (w', x')) /\
    reading recs pid' w' x' /\ r_handle (x_super x') = Some (w_fresh w).
Proof.
  intros Hnd Hr Hne Hi. split.
  - destruct Hr as [Eu Efl Ep (h & pos & Eh & Hl) Ew Epid Eo Ef Ex Ek Efile Eidx].
    destruct x as [[u hd fl pd op wr] pth idx keys fidx]; cbn in *; simplify_eq.
    unfold idx_read, super, rec_read, mbind, M_bind, self, attr, mret, M_ret, massert, py_assert. cbn.
    rewrite check_pid_other by (cbn; congruence). reflexivity.
  - assert (reading recs pid (in_process pid' w) x) as Hr' by (by destruct Hr).
    destruct (reset_reading recs pid _ x Hr') as (w1 & x1 & E1 & Hr1 & Ep1 & Hh1).
    destruct (read_idx_reading recs w1 x1 i k b Hnd Hr1 Hi) as (w2 & x2 & E2 & Hr2 & Ep2 & Hh2).
    exists w2, x2. cbn in Ep1. rewrite Ep1 in Ep2. rewrite Ep2 in Hr2. rewrite Hh2. split_and!; [|done|done].
    unfold read_idx in E2 |- *. rewrite bind_M in E2 |- *.
    rewrite seek_unfold in E2 by apply Hr1. rewrite seek_unfold by apply Hr.
    rewrite check_pid_same in E2 by apply Hr1.
    rewrite check_pid_other by (rewrite (rd_pid _ _ _ _ Hr); cbn; congruence). by rewrite E1.
Qed.

(** on a writer that has been closed, [write] is refused with [RuntimeError],
    but [tell], and with it [write_idx], hands the freed handle to the C library. *)
Theorem closed_writer_use_after_free recs w x w' x' k b :
  writing recs w x -> idx_close (w, x) = (Ok tt, (w', x')) ->
  super (rec_write frame b) (w', x') = (Raise RuntimeError, (w', x')) /\
  idx_tell (w', x') = (Raise UndefinedBehaviour, (w', x')) /\
  write_idx frame k b (w', x') = (Raise UndefinedBehaviour, (w', x')).
Proof.
  intros Hw Hc. destruct (close_writing recs w x Hw) as (w1 & x1 & E1 & _ & _ & (h & Hh & Hl) & Ewr & Epid & Eo).
  rewrite E1 in Hc. simplify_eq.
  destruct x' as [[u hd fl pd op wr] pth idx keys fidx]; cbn in *; simplify_eq.
  assert (idx_tell (w', mkIdx (mkRec u (Some h) fl None false (Some true)) pth idx keys fidx) =
    (Raise UndefinedBehaviour, (w', mkIdx (mkRec u (Some h) fl None false (Some true)) pth idx keys fidx))) as Et.
  { unfold idx_tell, mbind, M_bind, self, attr, mret, M_ret, massert, py_assert, on_handle, on_world. cbn.
    unfold MXRecordIOWriterTell. by rewrite Hl. }
  split_and!; [|done|].
  - unfold super, rec_write, mbind, M_bind, self, attr, mret, M_ret, massert, py_assert. cbn.
    by rewrite check_pid_other by done.
  - unfold write_idx. by rewrite bind_M, Et.
Qed.
End Files.

(** *** Witnesses: records framed by their length *)

Definition len_frame (b : bytes) : bytes := py_len b :: b.
Definition len_parse (s : bytes) : option (bytes * bytes) :=
  match s with [] => None | n :: r => Some (take (Z.to_nat n) r, drop (Z.to_nat n) r) end.

Lemma len_parse_frame b r : len_parse (len_frame b ++ r) = Some (b, r).
Proof. cbn. unfold py_len. by rewrite Nat2Z.id, take_app_length, drop_app_length. Qed.

Definition empty_world : world := mkWorld ∅ ∅ ∅ 0 100.
Definition three_recs : list (Z * bytes) := [(7, [1; 2]); (3, []); (5, [9])].

Lemma three_nodup : NoDup (map fst three_recs).
Proof. apply (bool_decide_unpack _). by vm_compute. Qed.

Example indexed_round_trip_witness :
  exists us w1 x1 w2 x2 w3 x3 w4 x4 w5 x5,
    idx_open (empty_world, idx_new "a.idx" "a.rec" "w") = (Ok tt, (w1, x1)) /\
    mapM_ (fun r => write_idx len_frame r.1 r.2) three_recs (w1, x1) = (Ok us, (w2, x2)) /\
    idx_close (w2, x2) = (Ok tt, (w3, x3)) /\
    idx_open (w3, idx_new "a.idx" "a.rec" "r") = (Ok tt, (w4, x4)) /\
    x_keys x4 = [7; 3; 5] /\
    mapM_ (fun k => read_idx len_parse k) [5; 7; 5] (w4, x4) = (Ok [Some [9]; Some [1; 2]; Some [9]], (w5, x5)).
Proof.
  apply (indexed_round_trip len_frame len_parse len_parse_frame "a.idx" "a.rec" three_recs
    [(5, [9]); (7, [1; 2]); (5, [9])] empty_world); [apply three_nodup|].
  repeat constructor; set_solver.
Defined.

Lemma three_reading : exists w x, reading len_frame "a.idx" "a.rec" three_recs 100 w x.
Proof.
  destruct (open_writing len_frame "a.idx" "a.rec" empty_world) as (w1 & x1 & E1 & Hw1).
  destruct (write_all len_frame "a.idx" "a.rec" three_recs [] w1 x1 Hw1) as (us & w2 & x2 & E2 & Hw2).
  destruct (open_reading len_frame "a.idx" "a.rec" three_recs (in_process 100 w2) (idx_new "a.idx" "a.rec" "r"))
    as (w4 & x4 & E4 & Hr & _); [apply Hw2|apply Hw2|done..|]. eauto.
Qed.

Example reader_across_processes_witness :
  exists w x, reading len_frame "a.idx" "a.rec" three_recs 100 w x /\
    idx_read len_parse (in_process 200 w, x) = (Raise RuntimeError, (in_process 200 w, x)) /\
    exists w' x', read_idx len_parse 5 (in_process 200 w, x) = (Ok (Some [9]), (w', x')) /\
      reading len_frame "a.idx" "a.rec" three_recs 200 w' x' /\ r_handle (x_super x') = Some (w_fresh w).
Proof.
  destruct three_reading as (w & x & Hr). exists w, x. split; [done|].
  apply (reader_across_processes len_frame len_parse len_parse_frame "a.idx" "a.rec" three_recs 100 200 w x 2);
    [apply three_nodup|done|lia|done].
Defined.

Example closed_writer_use_after_free_witness :
  exists w' x', super (rec_write len_frame [1]) (w', x') = (Raise RuntimeError, (w', x')) /\
    idx_tell (w', x') = (Raise UndefinedBehaviour, (w', x')) /\
    write_idx len_frame 7 [1] (w', x') = (Raise UndefinedBehaviour, (w', x')).
Proof.
  destruct (open_writing len_frame "a.idx" "a.rec" empty_world) as (w1 & x1 & E1 & Hw1).
  destruct (close_writing len_frame "a.idx" "a.rec" [] w1 x1 Hw1) as (w2 & x2 & E2 & _).
  exists w2, x2. by apply (closed_writer_use_after_free len_frame "a.idx" "a.rec" [] w1 x1 w2 x2 7 [1]).
Defined.
