(* ===== verification/Scope.v ===== *)
(** * Name managers and attribute scopes

    [name.py] and [attribute.py]: the two kinds of [with] scopes that symbols are
    created in.  Scope objects live in a store, because they are shared: entering a
    scope records the current scope inside the object, and leaving it reads it back.
    [exec] runs programs of nested [with] blocks that may raise. *)

From Stdlib Require Import Strings.Ascii Strings.String.
From stdpp Require Import pretty.
From S2P Require Import Prelude.

(** ** Scopes in general *)

(** A scope object: what it holds, and the scope that was current when it was
    entered ([_old_manager], [_old_scope]). *)
Record scope (V : Type) := mkScope { sc_val : V; sc_old : option nat }.
Arguments mkScope {V}. Arguments sc_val {V}. Arguments sc_old {V}.

(** The store and the thread's current scope; [None] when the thread has none yet. *)
Record scopes (V O : Type) := mkScopes {
  ss_heap : gmap nat (scope V);
  ss_cur : option nat;
  ss_out : list O;
}.
Arguments mkScopes {V O}. Arguments ss_heap {V O}. Arguments ss_cur {V O}. Arguments ss_out {V O}.

Section Scopes.
Context {V O : Type}.
(** A fresh scope, and what entering a scope inside another makes of its contents. *)
Context (fresh_scope : V) (merge : V -> V -> V).

(** The thread's scope, created when it is first needed. *)
Definition current (s : scopes V O) : nat * scopes V O :=
  match ss_cur s with
  | Some c => (c, s)
  | None => let c := fresh (dom (ss_heap s)) in
            (c, mkScopes (<[c := mkScope fresh_scope None]> (ss_heap s)) (Some c) (ss_out s))
  end.

Definition enter (m : nat) : M (scopes V O) unit := fun s =>
  let '(c, s) := current s in
  match ss_heap s !! m, ss_heap s !! c with
  | Some self, Some outer =>
      (Ok tt, mkScopes (<[m := mkScope (merge (sc_val outer) (sc_val self)) (Some c)]> (ss_heap s))
                (Some m) (ss_out s))
  | _, _ => (Raise KeyError, s)
  end.

Definition exit_ (m : nat) : M (scopes V O) unit := fun s =>
  match ss_heap s !! m with
  | Some self =>
      match sc_old self with
      | Some c => (Ok tt, mkScopes (ss_heap s) (Some c) (ss_out s))
      | None => (Raise AssertionError, s)
      end
  | None => (Raise KeyError, s)
  end.

(** What happens inside scopes: an operation on the current scope that yields an
    output, an exception, nested [with] blocks, sequences. *)
Inductive prog :=
  | PSkip
  | POp (f : V -> V * O)
  | PRaise (e : exn)
  | PWith (m : nat) (body : prog)
  | PSeq (p q : prog).

Definition operate (f : V -> V * O) : M (scopes V O) unit := fun s =>
  let '(c, s) := current s in
  match ss_heap s !! c with
  | Some self =>
      let '(v, o) := f (sc_val self) in
      (Ok tt, mkScopes (<[c := mkScope v (sc_old self)]> (ss_heap s)) (ss_cur s) (ss_out s ++ [o]))
  | None => (Raise KeyError, s)
  end.

(** [with] leaves the scope also when the body raises. *)
Fixpoint exec (p : prog) : M (scopes V O) unit :=
  match p with
  | PSkip => mret tt
  | POp f => operate f
  | PRaise e => raise e
  | PWith m body => fun s =>
      match enter m s with
      | (Raise e, s1) => (Raise e, s1)
      | (Ok _, s1) =>
          let '(r, s2) := exec body s1 in
          match exit_ m s2 with
          | (Ok _, s3) => (r, s3)
          | (Raise e, s3) => (Raise e, s3)
          end
      end
  | PSeq p q => _ ← exec p; exec q
  end.

(** The scopes a program enters; it is well nested when no scope is entered inside
    itself. *)
Fixpoint entered (p : prog) : gset nat :=
  match p with
  | PWith m body => {[m]} ∪ entered body
  | PSeq p q => entered p ∪ entered q
  | _ => ∅
  end.

Fixpoint well_nested (p : prog) : bool :=
  match p with
  | PWith m body => bool_decide (m ∉ entered body) && well_nested body
  | PSeq p q => well_nested p && well_nested q
  | _ => true
  end.

Definition old_of (s : scopes V O) (m : nat) : option (option nat) := sc_old <$> ss_heap s !! m.

(** Every scope the program needs exists. *)
Definition has_scopes (s : scopes V O) (p : prog) : Prop :=
  ss_cur s ≠ None /\ (forall c, ss_cur s = Some c -> is_Some (ss_heap s !! c)) /\
  forall m, m ∈ entered p -> is_Some (ss_heap s !! m).

Lemma current_some s c : ss_cur s = Some c -> current s = (c, s).
Proof. unfold current. by intros ->. Qed.

Lemma enter_ok m s c self outer :
  ss_cur s = Some c -> ss_heap s !! m = Some self -> ss_heap s !! c = Some outer ->
  enter m s = (Ok tt, mkScopes (<[m := mkScope (merge (sc_val outer) (sc_val self)) (Some c)]> (ss_heap s))
                        (Some m) (ss_out s)).
Proof. intros Hc Hm Ho. unfold enter. by rewrite (current_some _ _ Hc), Hm, Ho. Qed.

(** What running a program preserves: the scopes that exist, the current scope, and
    what the scopes it does not enter remember. *)
Definition preserves (p : prog) (s s' : scopes V O) : Prop :=
  ss_cur s' = ss_cur s /\
  (forall m, is_Some (ss_heap s !! m) -> is_Some (ss_heap s' !! m)) /\
  (forall m, m ∉ entered p -> old_of s' m = old_of s m).

Lemma preserves_refl p s : preserves p s s.
Proof. done. Qed.

Lemma operate_preserves f s :
  ss_cur s ≠ None -> preserves (POp f) s (operate f s).2.
Proof.
  intros Hc. unfold operate. destruct (ss_cur s) as [c|] eqn:Ec; [|done].
  rewrite (current_some _ _ Ec). destruct (ss_heap s !! c) as [self|] eqn:Eh; [|done].
  destruct (f (sc_val self)) as [v o]. split_and!; cbn; [done| |].
  - intros m Hm. destruct (decide (m = c)) as [->|]; [by rewrite lookup_insert_eq|by rewrite lookup_insert_ne].
  - intros m _. unfold old_of. cbn. destruct (decide (m = c)) as [->|].
    + by rewrite lookup_insert_eq, Eh.
    + by rewrite lookup_insert_ne.
Qed.

Lemma has_scopes_mono p q s s' :
  has_scopes s p -> ss_cur s' = ss_cur s ->
  (forall m, is_Some (ss_heap s !! m) -> is_Some (ss_heap s' !! m)) ->
  entered q ⊆ entered p -> has_scopes s' q.
Proof.
  intros (H1 & H2 & H3) Ec Hh Hq. split_and!; [by rewrite Ec| |].
  - intros c Hc. rewrite Ec in Hc. by apply Hh, H2.
  - intros m Hm. by apply Hh, H3, Hq.
Qed.

Lemma exec_preserves p : forall s,
  well_nested p = true -> has_scopes s p -> preserves p s (exec p s).2.
Proof.
  induction p as [|f|e|m body IH|p IHp q IHq]; intros s Hw Hs; [done| |done| |].
  - apply operate_preserves, Hs.
  - cbn in Hw. apply andb_true_iff in Hw as [Hm%bool_decide_eq_true Hw]. destruct Hs as (H1 & H2 & H3).
    destruct (ss_cur s) as [c|] eqn:Ec; [|done]. destruct (H2 c eq_refl) as [outer Ho].
    destruct (H3 m ltac:(set_solver)) as [self Hself]. cbn [exec].
    rewrite (enter_ok m s c self outer Ec Hself Ho). set (s1 := mkScopes _ _ _).
    assert (forall k, is_Some (ss_heap s !! k) -> is_Some (ss_heap s1 !! k)) as Hh1.
    { intros k Hk. cbn. destruct (decide (k = m)) as [->|]; [by rewrite lookup_insert_eq|by rewrite lookup_insert_ne]. }
    destruct (IH s1 Hw) as (P1 & P2 & P3).
    { split_and!; cbn; [done| |].
      - intros k [= <-]. by rewrite lookup_insert_eq.
      - intros k Hk. apply Hh1, H3. cbn. set_solver. }
    destruct (exec body s1) as [r s2]. cbn in P1, P2, P3.
    assert (old_of s2 m = Some (Some c)) as Hold.
    { rewrite (P3 m Hm). unfold old_of. cbn. by rewrite lookup_insert_eq. }
    unfold exit_. unfold old_of in Hold. destruct (ss_heap s2 !! m) as [self2|] eqn:E2; [|done].
    cbn in Hold. injection Hold as Hold. rewrite Hold. cbn. split_and!; cbn; [done| |].
    + intros k Hk. by apply P2, Hh1.
    + intros k Hk. cbn in Hk. change (old_of (mkScopes (ss_heap s2) (Some c) (ss_out s2)) k) with (old_of s2 k).
      rewrite (P3 k) by set_solver. unfold old_of, s1. cbn. by rewrite lookup_insert_ne by set_solver.
  - cbn in Hw. apply andb_true_iff in Hw as [Hwp Hwq]. cbn [exec]. rewrite bind_M.
    destruct (IHp s Hwp) as (P1 & P2 & P3).
    { eapply has_scopes_mono; [exact Hs|done|done|]. cbn. set_solver. }
    destruct (exec p s) as [[u|e] s1]; cbn in P1, P2, P3.
    + destruct (IHq s1 Hwq) as (Q1 & Q2 & Q3).
      { eapply has_scopes_mono; [exact Hs|done|done|]. cbn. set_solver. }
      split_and!; [congruence|auto|]. intros m Hm. cbn in Hm. rewrite Q3 by set_solver. apply P3. set_solver.
    + split_and!; [done|done|]. intros m Hm. cbn in Hm. apply P3. set_solver.
Qed.
End Scopes.
Arguments prog V O : clear implicits.

(** after a well-nested program of [with] blocks the current scope is the one
    from before, also when the body raises. *)
Theorem with_restores {V O} fresh_scope merge (p : prog V O) (s : scopes V O) :
  well_nested p = true -> has_scopes s p -> ss_cur (exec fresh_scope merge p s).2 = ss_cur s.
Proof. intros Hw Hs. by apply exec_preserves. Qed.

(** ** [NameManager] and [Prefix] *)

(** The counters, and the prefix of a [Prefix]. *)
Record NameManager := mkNames { nm_counter : gmap string Z; nm_prefix : option string }.

Definition NameManager_new : NameManager := mkNames ∅ None.
Definition Prefix_new (prefix : string) : NameManager := mkNames ∅ (Some prefix).

(** ['%d' % n] for the non-negative counters. *)
Definition dec (n : Z) : string := pretty (Z.to_N n).

(** [NameManager.get]. *)
Definition base_get (name : option string) (hint : string) (m : NameManager) : NameManager * string :=
  match name with
  | Some n => if str_eqb n "" then
                let c := default 0 (nm_counter m !! hint) in
                (mkNames (<[hint := c + 1]> (nm_counter m)) (nm_prefix m), hint +:+ dec c)%string
              else (m, n)
  | None => let c := default 0 (nm_counter m !! hint) in
            (mkNames (<[hint := c + 1]> (nm_counter m)) (nm_prefix m), hint +:+ dec c)%string
  end.

(** [get] of the object's class: [Prefix.get] adds the prefix. *)
Definition manager_get (name : option string) (hint : string) (m : NameManager) : NameManager * string :=
  let '(m', n) := base_get name hint m in
  (m', match nm_prefix m with Some p => p +:+ n | None => n end)%string.

(** [__enter__] leaves the manager's own fields alone. *)
Definition manager_merge (outer self : NameManager) : NameManager := self.

(** ** [AttrScope] *)

Definition attrs := gmap string string.
(** The constructor accepts string values only; [None] is any other value. *)
Definition AttrScope_new (kwargs : gmap string (option string)) : result attrs :=
  if bool_decide (map_Forall (fun _ v => v ≠ None) kwargs) then Ok (omap id kwargs) else Raise ValueError.

Definition AttrScope_get (attr : attrs) (self : attrs) : attrs * attrs :=
  (self, if bool_decide (self = ∅) then attr else attr ∪ self).

(** [__enter__] adds the attributes of the enclosing scope. *)
Definition attr_merge (outer self : attrs) : attrs := self ∪ outer.

(** ** Generated names *)

Definition is_digit (c : ascii) : bool :=
  (Nat.leb 48 (nat_of_ascii c) && Nat.leb (nat_of_ascii c) 57)%bool.

Notation chars := list_ascii_of_string.

Lemma chars_app a b : chars (a +:+ b) = (chars a ++ chars b)%list.
Proof.
  induction a as [|c a IH]; [done|].
  change (c :: chars (a +:+ b) = c :: (chars a ++ chars b))%list. by rewrite IH.
Qed.

Lemma chars_inj a b : chars a = chars b -> a = b.
Proof.
  intros E. by rewrite <- (string_of_list_ascii_of_string a), <- (string_of_list_ascii_of_string b), E.
Qed.

Lemma pretty_go_digits x : forall s,
  Forall (fun c => is_digit c = true) (chars s) ->
  Forall (fun c => is_digit c = true) (chars (pretty_N_go x s)).
Proof.
  induction (N.lt_wf_0 x) as [x _ IH]. intros s Hs. destruct (decide (x = 0)%N) as [->|Hx].
  - by rewrite pretty_N_go_0.
  - rewrite pretty_N_go_step by lia. apply IH; [apply N.div_lt; lia|]. cbn. constructor; [|done].
    pose proof (N.mod_lt x 10 ltac:(lia)) as Hm. revert Hm. generalize (x `mod` 10)%N. intros d Hd.
    assert (d = 0 \/ d = 1 \/ d = 2 \/ d = 3 \/ d = 4 \/ d = 5 \/ d = 6 \/ d = 7 \/ d = 8 \/ d = 9)%N as Hd'
      by lia. repeat (destruct Hd' as [->|Hd']; [done|]). by subst.
Qed.

Lemma dec_digits n : Forall (fun c => is_digit c = true) (chars (dec n)).
Proof.
  unfold dec, pretty, pretty_N. case_decide; [by repeat constructor|].
  by apply pretty_go_digits.
Qed.

(** A hint that does not end in a digit. *)
Definition plain_hint (h : string) : Prop :=
  match last (chars h) with Some c => is_digit c = false | None => True end.

(** Stripping the digits at the end. *)
Fixpoint strip (l : list ascii) : list ascii :=
  match l with
  | [] => []
  | c :: l => if is_digit c then strip l else c :: l
  end.

Lemma strip_digits d l : Forall (fun c => is_digit c = true) d -> strip (d ++ l) = strip l.
Proof. induction 1 as [|c d Hc _ IH]; cbn; [done|]. by rewrite Hc. Qed.

Lemma strip_plain h : plain_hint h -> strip (reverse (chars h)) = reverse (chars h).
Proof.
  unfold plain_hint. intros Hp.
  destruct (chars h) as [|c l _] using rev_ind; [done|]. rewrite last_snoc in Hp.
  rewrite reverse_snoc. cbn. by rewrite Hp.
Qed.

(** A generated name determines its hint and its number. *)
Lemma name_inj h h' n n' :
  plain_hint h -> plain_hint h' -> 0 <= n -> 0 <= n' ->
  (h +:+ dec n = h' +:+ dec n')%string -> h = h' /\ n = n'.
Proof.
  intros Hh Hh' Hn Hn' E. apply (f_equal chars) in E. rewrite !chars_app in E.
  assert (reverse (chars h) = reverse (chars h')) as Er.
  { rewrite <- (strip_plain h Hh), <- (strip_plain h' Hh').
    rewrite <- (strip_digits (reverse (chars (dec n))) (reverse (chars h))),
      <- (strip_digits (reverse (chars (dec n'))) (reverse (chars h')))
      by (rewrite Forall_reverse; apply dec_digits).
    by rewrite <- !reverse_app, E. }
  apply (inj reverse) in Er. rewrite Er in E. apply (inj (app _)) in E. apply chars_inj in Er, E.
  split; [done|]. unfold dec in E. apply (inj pretty) in E. lia.
Qed.

(** Names asked for without a user's name. *)
Fixpoint gets (hints : list string) (m : NameManager) : list string * NameManager :=
  match hints with
  | [] => ([], m)
  | h :: hints => let '(m1, n) := manager_get None h m in
                  let '(ns, m2) := gets hints m1 in (n :: ns, m2)
  end.

Definition with_prefix (p : option string) (n : string) : string :=
  match p with Some p => p +:+ n | None => n end.

Definition counter_of (m : NameManager) (h : string) : Z := default 0 (nm_counter m !! h).

Lemma with_prefix_inj p n n' : with_prefix p n = with_prefix p n' -> n = n'.
Proof. destruct p as [p|]; cbn; [|done]. apply (inj (String.append p)). Qed.

Lemma get_counter h m h' :
  let m' := (manager_get None h m).1 in
  nm_prefix m' = nm_prefix m /\
  counter_of m' h' = if decide (h = h') then counter_of m h + 1 else counter_of m h'.
Proof.
  cbn. split; [done|]. unfold counter_of. cbn. case_decide as E.
  - subst. by rewrite lookup_insert_eq.
  - by rewrite lookup_insert_ne.
Qed.

Lemma gets_names hints : forall m x,
  x ∈ (gets hints m).1 ->
  exists h n, h ∈ hints /\ x = with_prefix (nm_prefix m) (h +:+ dec n)%string /\ counter_of m h <= n.
Proof.
  induction hints as [|h hints IH]; intros m x Hx; [by apply not_elem_of_nil in Hx|].
  cbn [gets] in Hx. pose proof (get_counter h m) as Hg. cbn zeta in Hg.
  destruct (manager_get None h m) as [m1 n] eqn:Eg. specialize (IH m1).
  destruct (gets hints m1) as [ns m2]. cbn in Hx, IH, Hg. apply elem_of_cons in Hx as [->|Hx].
  - exists h, (counter_of m h). split_and!; [left|by injection Eg as <- <-|lia].
  - destruct (IH x Hx) as (h' & k & Hh' & -> & Hk). destruct (Hg h') as [Hp Hc]. rewrite Hp.
    exists h', k. split_and!; [by right|done|]. rewrite Hc in Hk. case_decide; subst; lia.
Qed.

(** a name manager (plain or [Prefix]) never generates the same name twice, for
    hints that do not end in a digit. *)
Theorem names_distinct hints m :
  Forall plain_hint hints -> (forall h, 0 <= counter_of m h) -> NoDup (gets hints m).1.
Proof.
  intros Hh. revert m. induction Hh as [|h hints Hp Hh IH]; intros m Hm; [constructor|].
  cbn [gets]. pose proof (get_counter h m) as Hg. cbn zeta in Hg.
  pose proof (gets_names hints (manager_get None h m).1) as Hn. specialize (IH (manager_get None h m).1).
  destruct (manager_get None h m) as [m1 n] eqn:Eg. cbn in Hg, Hn, IH.
  destruct (gets hints m1) as [ns m2]. cbn in Hn, IH |- *. constructor.
  - intros Hin. destruct (Hn n Hin) as (h' & k & Hh' & En & Hk). destruct (Hg h') as [Ep Hc].
    rewrite Ep in En. assert (n = with_prefix (nm_prefix m) (h +:+ dec (counter_of m h))%string) as En'
      by (by injection Eg as <- <-). rewrite En' in En. apply with_prefix_inj in En.
    rewrite Forall_forall in Hh. pose proof (Hm h'). pose proof (Hm h).
    assert (0 <= k) by (rewrite Hc in Hk; case_decide; subst; lia).
    apply name_inj in En as [-> En]; [|done|by apply Hh|done|done].
    rewrite Hc, decide_True in Hk by done. lia.
  - apply IH. intros h'. destruct (Hg h') as [_ ->]. pose proof (Hm h). pose proof (Hm h').
    case_decide; lia.
Qed.

(** Hints that end in a digit can collide. *)
Example names_collide : (gets ["conv1"; "conv"; "conv"; "conv"; "conv"; "conv"; "conv"; "conv"; "conv"; "conv"; "conv";
  "conv"]%string NameManager_new).1 !! 0%nat = Some "conv10"%string /\
  (gets ["conv1"; "conv"; "conv"; "conv"; "conv"; "conv"; "conv"; "conv"; "conv"; "conv"; "conv";
  "conv"]%string NameManager_new).1 !! 11%nat = Some "conv10"%string.
Proof. by vm_compute. Qed.

(** ** Attributes *)

(** Inside nested scopes the attribute dictionary is the innermost one over the
    enclosing ones, under the user's attributes. *)
Lemma attr_get_nested (user a outer : attrs) :
  (AttrScope_get user (attr_merge outer a)).2 = user ∪ (a ∪ outer).
Proof.
  unfold AttrScope_get, attr_merge. cbn. case_bool_decide as E; [|done]. by rewrite E, (right_id_L ∅ (∪)).
Qed.

(** A scope entered once keeps the attributes of the scope around it. *)
Example attr_scope_keeps_outer :
  let s := mkScopes {[0%nat := mkScope ∅ None; 1%nat := mkScope {["a" := "1"]} None;
                      2%nat := mkScope {["b" := "2"]} None]}%string (Some 0%nat) [] in
  ss_out (exec ∅ attr_merge (PSeq (PWith 1 (PWith 2 PSkip)) (PWith 2 (POp (AttrScope_get ∅)))) s).2
  = [{["a" := "1"; "b" := "2"]}]%string.
Proof. by vm_compute. Qed.

(** A manager entered inside itself is never left. *)
Example reentered_not_restored :
  let s : scopes NameManager string :=
    mkScopes {[0%nat := mkScope NameManager_new None; 1%nat := mkScope NameManager_new None]} (Some 0%nat) [] in
  ss_cur (exec NameManager_new manager_merge (PWith 1 (PWith 1 PSkip)) s).2 = Some 1%nat.
Proof. by vm_compute. Qed.

(** *** Witnesses *)

Definition two_managers : scopes NameManager string :=
  mkScopes {[0%nat := mkScope NameManager_new None; 1%nat := mkScope (Prefix_new "net_") None]} (Some 0%nat) [].
Definition raising_body : prog NameManager string :=
  PWith 1 (PSeq (POp (manager_get None "fc")) (PRaise ValueError)).

Example with_restores_witness :
  ss_out (exec NameManager_new manager_merge raising_body two_managers).2 = ["net_fc0"%string] /\
  ss_cur (exec NameManager_new manager_merge raising_body two_managers).2 = Some 0%nat.
Proof.
  split; [by vm_compute|]. apply (with_restores NameManager_new manager_merge raising_body two_managers).
  - by vm_compute.
  - split_and!; [done|by intros c [= <-]; eexists|]. intros m Hm.
    assert (m = 1%nat) as -> by (cbn in Hm; set_solver). by eexists.
Defined.

Example names_distinct_witness : NoDup (gets ["fc"; "conv"; "fc"]%string (Prefix_new "net_")).1.
Proof.
  apply names_distinct; [by repeat constructor|]. intros h. unfold counter_of. cbn. by rewrite lookup_empty.
Defined.
