(* ===== verification/Split.v ===== *)
(** * Splitting a batch over devices

    [_split_input_slice], [_check_arguments] and [_load_general] of
    [executor_manager.py], and [split_data] and [split_and_load] of
    [gluon/utils.py].  Work loads are integers and their quotients are exact;
    splitting along an axis other than the first is left to operators that are
    parameters. *)

From S2P Require Import Prelude NDArray.

(** ** [executor_manager.py] *)

(** Python 3's [round(a / b)]: to the nearest integer, halves to the even one. *)
Definition round_div (a b : Z) : result Z :=
  if b =? 0 then Raise ZeroDivisionError
  else
    let '(a, b) := if b <? 0 then (- a, - b) else (a, b) in
    let q := a / b in
    let r := a mod b in
    Ok (if 2 * r <? b then q
        else if b <? 2 * r then q + 1
        else if Z.even q then q else q + 1).

Definition py_sum (l : list Z) : Z := fold_right Z.add 0 l.

(** [l[-1] += d] *)
Definition add_last (l : list Z) (d : Z) : result (list Z) :=
  match reverse l with
  | [] => Raise IndexError
  | x :: rest => Ok (reverse rest ++ [x + d])
  end.

(** The loop that turns sizes into slices [(begin, end)]. *)
Fixpoint slice_loop (batch_size stop : Z) (nums : list Z) : result (list (Z * Z)) :=
  match nums with
  | [] => Ok []
  | k :: nums =>
      let b := Z.min stop batch_size in
      let e := Z.min (b + k) batch_size in
      if e <=? b then Raise ValueError
      else rest ← slice_loop batch_size e nums; Ok ((b, e) :: rest)
  end.

Definition _split_input_slice (batch_size : Z) (work_load_list : list Z) : result (list (Z * Z)) :=
  let total := py_sum work_load_list in
  nums ← mapR (fun w => round_div (w * batch_size) total) work_load_list;
  let s := py_sum nums in
  nums ← (if s <? batch_size then add_last nums (batch_size - s) else Ok nums);
  slice_loop batch_size 0 nums.

(** The two duplicate checks of [_check_arguments]. *)
Fixpoint no_duplicate (seen : gset string) (names : list string) : result unit :=
  match names with
  | [] => Ok tt
  | n :: names => if bool_decide (n ∈ seen) then Raise ValueError else no_duplicate ({[n]} ∪ seen) names
  end.

Definition _check_arguments (arg_names aux_names : list string) : result unit :=
  _ ← no_duplicate ∅ arg_names; no_duplicate ∅ aux_names.

(** A target of loading: a whole array, or slices with the array each is copied to. *)
Inductive load_target :=
  | TWhole (dst : NDArray)
  | TSlices (parts : list ((Z * Z) * NDArray)).

(** [src.copyto(dst)]: the contents of [dst] afterwards, in the type of [dst]. *)
Definition copyto (src dst : NDArray) : result NDArray :=
  if bool_decide (nd_shape src = nd_shape dst) then Ok (mkND (nd_ctx dst) (nd_dtype dst) (nd_tail dst) (nd_rows src))
  else Raise MXNetError.

Definition load_one (d_src : NDArray) (t : load_target) : result (list NDArray) :=
  match t with
  | TWhole dst => d ← copyto d_src dst; Ok [d]
  | TSlices parts =>
      match last parts with
      | None => Raise IndexError
      | Some ((_, stop), _) =>
          _ ← py_assert (stop =? nd_len d_src);
          mapR (fun p => s ← _slice d_src (Some p.1.1) (Some p.1.2); copyto s p.2) parts
      end
  end.

(** The contents of all targets after [_load_general(data, targets)]. *)
Definition _load_general (data : list NDArray) (targets : list load_target) : result (list (list NDArray)) :=
  mapR (fun p => load_one p.1 p.2) (zip data targets).

(** ** [gluon/utils.py] *)

Section SplitData.
(** [ndarray.split] and [ndarray.slice_axis] along another axis. *)
Context (nd_split : NDArray -> Z -> Z -> result (list NDArray)).
Context (slice_axis : NDArray -> Z -> Z -> Z -> result NDArray).

Definition split_data (data : NDArray) (num_slice batch_axis : Z) (even_split : bool)
  : result (list NDArray) :=
  size ← py_index (nd_shape data) batch_axis;
  if size <? num_slice then Raise ValueError
  else
    _ ← (if even_split then
           if num_slice =? 0 then Raise ZeroDivisionError
           else if negb (size mod num_slice =? 0) then Raise ValueError else Ok tt
         else Ok tt);
    step ← py_floordiv size num_slice;
    let bounds i := (i * step, if i <? num_slice - 1 then (i + 1) * step else size) in
    if batch_axis =? 0 then
      mapR (fun i => _slice data (Some (bounds i).1) (Some (bounds i).2)) (py_range num_slice)
    else if even_split then nd_split data num_slice batch_axis
    else mapR (fun i => slice_axis data batch_axis (bounds i).1 (bounds i).2) (py_range num_slice).

Definition split_and_load (data : NDArray) (ctx_list : list Context) (batch_axis : Z) (even_split : bool)
  : result (list NDArray) :=
  match ctx_list with
  | [ctx] => Ok [nd_as_in_context data ctx]
  | _ =>
      slices ← split_data data (py_len ctx_list) batch_axis even_split;
      Ok (zip_with nd_as_in_context slices ctx_list)
  end.
End SplitData.

(** ** Slices partition the batch *)

(** Consecutive non-empty slices from [a] to [b]. *)
Fixpoint chain (a b : Z) (l : list (Z * Z)) : Prop :=
  match l with
  | [] => a = b
  | (x, y) :: l => x = a /\ a < y /\ chain y b l
  end.

Lemma slice_loop_chain n nums : forall stop l,
  0 <= stop <= n -> slice_loop n stop nums = Ok l ->
  length l = length nums /\ chain stop (Z.min (stop + py_sum nums) n) l /\ Forall (fun p => p.2 <= n) l.
Proof.
  induction nums as [|k nums IH]; intros stop l Hs Hl; cbn in Hl.
  { injection Hl as <-. cbn. split_and!; [done|lia|constructor]. }
  rewrite (Z.min_l stop n) in Hl by lia. destruct (Z.leb_spec (Z.min (stop + k) n) stop); [done|].
  apply bind_ok in Hl as (rest & Hr & [= <-]).
  destruct (IH (Z.min (stop + k) n) rest ltac:(lia) Hr) as (Hlen & Hc & Hf). cbn.
  split_and!; [by rewrite Hlen|done|lia| |by constructor; [cbn; lia|]].
  destruct (decide (stop + k <= n)).
  - rewrite (Z.min_l (stop + k) n) in Hc |- * by lia.
    change (fold_right Z.add 0 nums) with (py_sum nums).
    by replace (stop + (k + py_sum nums)) with (stop + k + py_sum nums) by lia.
  - rewrite (Z.min_r (stop + k) n) in Hc, Hr |- * by lia.
    assert (nums = []) as ->; [|cbn in Hr; injection Hr as <-; cbn; lia].
    destruct nums as [|k' nums]; [done|]. cbn in Hr. rewrite Z.min_id in Hr.
    destruct (Z.leb_spec (Z.min (n + k') n) n); [done|lia].
Qed.

Lemma add_last_sum l d l' : add_last l d = Ok l' -> length l' = length l /\ py_sum l' = py_sum l + d.
Proof.
  unfold add_last. intros Ha. destruct (reverse l) as [|x rest] eqn:E; [done|]. injection Ha as <-.
  assert (l = reverse rest ++ [x]) as -> by (by rewrite <- (reverse_involutive l), E, reverse_cons).
  assert (forall a b, py_sum (a ++ b) = py_sum a + py_sum b) as Hs.
  { intros a b. induction a as [|y a IH]; [done|].
    change (y + py_sum (a ++ b) = y + py_sum a + py_sum b). lia. }
  rewrite !length_app, !Hs. cbn. split; [done|lia].
Qed.

Lemma split_chain n loads l :
  0 <= n -> _split_input_slice n loads = Ok l ->
  length l = length loads /\ chain 0 n l /\ Forall (fun p => p.2 <= n) l.
Proof.
  intros Hn Hs. unfold _split_input_slice in Hs. apply bind_ok in Hs as (nums & Hm & Hs).
  apply mapR_length in Hm. apply bind_ok in Hs as (nums' & Ha & Hs).
  assert (length nums' = length nums /\ n <= py_sum nums') as [Hlen Hsum].
  { destruct (Z.ltb_spec (py_sum nums) n).
    - apply add_last_sum in Ha as [? ?]. split; [done|lia].
    - injection Ha as <-. done. }
  destruct (slice_loop_chain n nums' 0 l ltac:(lia) Hs) as (Hl & Hc & Hf).
  rewrite Z.min_r in Hc by lia. split_and!; [congruence|done|done].
Qed.

(** The rows of consecutive slices are the rows between their ends. *)
Lemma chain_rows (rows : list (list Z)) a b l :
  0 <= a -> b <= py_len rows -> chain a b l ->
  concat (map (fun p => py_slice rows p.1 p.2) l) = py_slice rows a b /\ a <= b.
Proof.
  revert a. induction l as [|[x y] l IH]; intros a Ha Hb Hc; cbn in Hc.
  - subst. split; [|lia]. cbn. rewrite py_slice_in by lia. by rewrite Z.sub_diag.
  - destruct Hc as (-> & Hlt & Hc). destruct (IH y) as [E Hle]; [lia|done|done|]. split; [|lia].
    cbn. rewrite E. apply py_slice_app; lia.
Qed.

Lemma copyto_ok src dst :
  nd_shape src = nd_shape dst -> copyto src dst = Ok (mkND (nd_ctx dst) (nd_dtype dst) (nd_tail dst) (nd_rows src)).
Proof. intros E. unfold copyto. by rewrite bool_decide_eq_true_2. Qed.

(** Each destination has the shape of its slice. *)
Definition fits (d_src : NDArray) (p : (Z * Z) * NDArray) : Prop :=
  nd_tail p.2 = nd_tail d_src /\ nd_len p.2 = p.1.2 - p.1.1.

Lemma load_slices d_src parts n a :
  nd_len d_src = n -> 0 <= a -> chain a n (map fst parts) -> Forall (fits d_src) parts ->
  exists loaded, mapR (fun p => s ← _slice d_src (Some p.1.1) (Some p.1.2); copyto s p.2) parts = Ok loaded /\
    Forall2 (fun d p => nd_rows d = py_slice (nd_rows d_src) p.1.1 p.1.2 /\ nd_ctx d = nd_ctx p.2) loaded parts.
Proof.
  intros Hn. revert a. induction parts as [|[[x y] dst] parts IH]; intros a Ha Hc Hf.
  { exists []. by split. }
  cbn in Hc. destruct Hc as (-> & Hlt & Hc). apply Forall_cons in Hf as [[Ht Hl] Hf]. cbn in Ht, Hl.
  assert (y <= n) as Hy.
  { destruct (chain_rows (nd_rows d_src) y n (map fst parts)) as [_ ?]; [lia|unfold nd_len in Hn; lia|done|done]. }
  destruct (IH y ltac:(lia) Hc Hf) as (loaded & E & HF).
  eexists (mkND (nd_ctx dst) (nd_dtype dst) (nd_tail dst) (py_slice (nd_rows d_src) a y) :: loaded). split.
  - cbn [mapR fst snd]. rewrite slice_in_bounds by lia. cbn [mbind result_bind].
    rewrite copyto_ok; [cbn [mbind result_bind]; by rewrite E|]. unfold nd_shape. cbn. f_equal; [|done]. rewrite py_slice_len by (unfold nd_len in *; lia).
    unfold nd_len in Hl. by rewrite Hl.
  - constructor; [done|done].
Qed.

Lemma chain_last a b l p : chain a b l -> last l = Some p -> p.2 = b.
Proof.
  revert a. induction l as [|[x y] l IH]; intros a Hc Hl; [done|]. cbn in Hc. destruct Hc as (-> & _ & Hc).
  destruct l as [|q l]; [cbn in *; by simplify_eq|]. apply (IH y Hc). by rewrite last_cons_cons in Hl.
Qed.

Lemma chain_pos a b l : chain a b l -> Forall (fun p => 0 < p.2 - p.1) l.
Proof.
  revert a. induction l as [|[x y] l IH]; intros a Hc; [done|]. cbn in Hc.
  destruct Hc as (-> & Hlt & Hc). constructor; [cbn; lia|by eapply IH].
Qed.

Lemma Forall2_rows d_src loaded (parts : list ((Z * Z) * NDArray)) :
  Forall2 (fun d p => nd_rows d = py_slice (nd_rows d_src) p.1.1 p.1.2 /\ nd_ctx d = nd_ctx p.2) loaded parts ->
  map nd_rows loaded = map (fun p => py_slice (nd_rows d_src) p.1 p.2) (map fst parts) /\
  map nd_ctx loaded = map nd_ctx (map snd parts).
Proof. induction 1 as [|d p l l' [Hr Hc] _ [IH1 IH2]]; [done|]. cbn. by rewrite Hr, Hc, IH1, IH2. Qed.

(** whenever [_split_input_slice] accepts the work loads, every device gets a
    non-empty slice, and loading a batch through the slices puts every sample on
    exactly one device, in order. *)
Theorem split_load_partition n loads slices d_src dsts :
  0 < n -> _split_input_slice n loads = Ok slices -> nd_len d_src = n ->
  length dsts = length slices -> Forall (fits d_src) (zip slices dsts) ->
  length slices = length loads /\
  Forall (fun p => 0 < p.2 - p.1) slices /\
  exists loaded, load_one d_src (TSlices (zip slices dsts)) = Ok loaded /\
    concat (map nd_rows loaded) = nd_rows d_src /\ map nd_ctx loaded = map nd_ctx dsts.
Proof.
  intros Hn Hs Hlen Hd Hf. destruct (split_chain n loads slices ltac:(lia) Hs) as (Hl & Hc & _).
  assert ((zip slices dsts).*1 = slices) as Ef by (apply fst_zip; by rewrite Hd).
  assert ((zip slices dsts).*2 = dsts) as Es by (apply snd_zip; by rewrite Hd).
  split; [done|]. split; [by eapply chain_pos|].
  destruct (load_slices d_src (zip slices dsts) n 0 Hlen ltac:(lia)) as (loaded & E & HF).
  { change (map fst (zip slices dsts)) with ((zip slices dsts).*1). by rewrite Ef. }
  { done. }
  exists loaded. destruct (Forall2_rows _ _ _ HF) as [Hr Hx].
  change (map fst (zip slices dsts)) with ((zip slices dsts).*1) in Hr.
  change (map snd (zip slices dsts)) with ((zip slices dsts).*2) in Hx. rewrite Ef in Hr. rewrite Es in Hx.
  split_and!; [|rewrite Hr|done].
  - unfold load_one. destruct (last (zip slices dsts)) as [[[x y] d]|] eqn:El.
    + assert (last slices = Some (x, y)) as Ely.
      { rewrite <- Ef. rewrite fmap_last. by rewrite El. }
      pose proof (chain_last _ _ _ _ Hc Ely) as Hy. cbn in Hy. subst y. rewrite Hlen, Z.eqb_refl. exact E.
    + apply last_None in El. rewrite El in Ef. cbn in Ef. subst slices. cbn in Hc. lia.
  - destruct (chain_rows (nd_rows d_src) 0 n slices) as [-> _]; [lia|unfold nd_len in Hlen; lia|done|].
    unfold nd_len in Hlen. rewrite <- Hlen. apply py_slice_all.
Qed.

(** ** Equal work loads *)

Lemma py_sum_replicate k w : py_sum (replicate k w) = Z.of_nat k * w.
Proof. induction k as [|k IH]; [done|]. change (w + py_sum (replicate k w) = Z.of_nat (S k) * w). lia. Qed.

Lemma slice_loop_even n m : forall k stop,
  0 < m -> 0 <= stop -> stop + Z.of_nat k * m <= n ->
  slice_loop n stop (replicate k m) =
    Ok (map (fun i => (stop + i * m, stop + (i + 1) * m)) (py_range (Z.of_nat k))).
Proof.
  induction k as [|k IH]; intros stop Hm Hs Hn; [done|]. cbn [slice_loop replicate].
  rewrite (Z.min_l stop n), (Z.min_l (stop + m) n) by nia.
  destruct (Z.leb_spec (stop + m) stop); [lia|]. rewrite IH by nia. cbn [mbind result_bind].
  rewrite (py_range_cons (Z.of_nat (S k))) by lia. replace (Z.of_nat (S k) - 1) with (Z.of_nat k) by lia.
  cbn [map]. rewrite map_map. f_equal. f_equal; [f_equal; lia|]. apply map_ext. intros i. f_equal; lia.
Qed.

(** with equal work loads and a batch size that is a multiple of the number of
    devices, the batch is split into equal consecutive parts. *)
Theorem split_even k w m :
  0 < w -> 0 < m -> (0 < k)%nat ->
  _split_input_slice (Z.of_nat k * m) (replicate k w) =
    Ok (map (fun i => (i * m, (i + 1) * m)) (py_range (Z.of_nat k))).
Proof.
  intros Hw Hm Hk. unfold _split_input_slice. rewrite py_sum_replicate.
  assert (round_div (w * (Z.of_nat k * m)) (Z.of_nat k * w) = Ok m) as Hr.
  { unfold round_div. rewrite (proj2 (Z.eqb_neq _ _)) by nia. rewrite (proj2 (Z.ltb_ge _ 0)) by nia.
    replace (w * (Z.of_nat k * m)) with (m * (Z.of_nat k * w)) by lia.
    rewrite Z.div_mul, Z.mod_mul by nia. by rewrite (proj2 (Z.ltb_lt _ _)) by nia. }
  rewrite (mapR_ok _ (fun _ => m)).
  2: { intros a [-> _]%elem_of_replicate. exact Hr. }
  change (map (fun _ => m) (replicate k w)) with ((fun _ : Z => m) <$> replicate k w).
  rewrite fmap_replicate. cbn [mbind result_bind]. rewrite py_sum_replicate.
  rewrite Z.ltb_irrefl. cbn [mbind result_bind]. by rewrite slice_loop_even by lia.
Qed.

(** Rounding can use up the batch before the last device gets its part. *)
Example split_rounds_too_far : _split_input_slice 6 [1; 1; 1; 1] = Raise ValueError.
Proof. reflexivity. Qed.

(** ** [split_data] and [split_and_load] *)

Section SplitDataRows.
Context (nd_split : NDArray -> Z -> Z -> result (list NDArray)).
Context (slice_axis : NDArray -> Z -> Z -> Z -> result NDArray).

(** The bounds of the parts form a chain. *)
Lemma bounds_chain size num step :
  1 <= num -> 0 < step -> step = size / num -> num <= size ->
  chain 0 size (map (fun i => (i * step, if i <? num - 1 then (i + 1) * step else size)) (py_range num)).
Proof.
  intros Hn Hs Hd Hle. pose proof (Z.mul_div_le size num ltac:(lia)) as Hm. rewrite <- Hd in Hm.
  assert (forall k i, 0 <= i -> i + Z.of_nat k = num -> (0 < k)%nat ->
    chain (i * step) size (map (fun i => (i * step, if i <? num - 1 then (i + 1) * step else size))
      (range_from i 1 k))) as Hk.
  { induction k as [|k IH]; intros i Hi Hik Hpos; [lia|]. unfold range_from. cbn [seq map].
    rewrite Z.add_0_r. cbn [chain]. split; [lia|].
    destruct k as [|k].
    - rewrite (proj2 (Z.ltb_ge _ _)) by lia. cbn. split; [nia|done].
    - rewrite (proj2 (Z.ltb_lt _ _)) by lia. split; [lia|]. specialize (IH (i + 1) ltac:(lia) ltac:(lia) ltac:(lia)).
      unfold range_from in IH. rewrite <- seq_shift, !map_map. rewrite map_map in IH.
      erewrite map_ext; [exact IH|]. intros j. cbn. by replace (i + Z.of_nat (S j) * 1) with (i + 1 + Z.of_nat j * 1) by lia. }
  specialize (Hk (Z.to_nat num) 0 ltac:(lia) ltac:(lia) ltac:(lia)). exact Hk.
Qed.

Lemma split_data_ok data num even :
  1 <= num <= nd_len data -> (even = true -> nd_len data mod num = 0) ->
  exists l, split_data nd_split slice_axis data num 0 even = Ok l /\ py_len l = num /\
    concat (map nd_rows l) = nd_rows data /\ Forall (fun a => 0 < nd_len a) l /\
    (even = true -> Forall (fun a => nd_len a = nd_len data / num) l).
Proof.
  intros Hn He. set (size := nd_len data) in *. set (step := size / num).
  assert (0 < step) as Hs by (apply Z.div_str_pos; lia).
  pose proof (bounds_chain size num step ltac:(lia) Hs eq_refl ltac:(lia)) as Hc.
  set (bounds := fun i => (i * step, if i <? num - 1 then (i + 1) * step else size)) in *.
  set (part := fun i => mkND (nd_ctx data) (nd_dtype data) (nd_tail data) (py_slice (nd_rows data) (bounds i).1 (bounds i).2)).
  pose proof (Z.mul_div_le size num ltac:(lia)) as Hm. fold step in Hm.
  assert (forall i, i ∈ py_range num -> 0 <= (bounds i).1 < size /\ (bounds i).1 < (bounds i).2 <= size) as Hb.
  { intros i Hi%elem_of_py_range. unfold bounds. cbn. assert (i * step <= (num - 1) * step) by nia.
    destruct (Z.ltb_spec i (num - 1)); nia. }
  exists (map part (py_range num)). split_and!.
  - unfold split_data. change (py_index (nd_shape data) 0) with (Ok size). cbn [mbind result_bind].
    rewrite (proj2 (Z.ltb_ge _ _)) by lia.
    assert ((if even then if num =? 0 then Raise ZeroDivisionError
             else if negb (size mod num =? 0) then Raise ValueError else Ok tt else Ok tt) = Ok tt) as ->.
    { destruct even; [|done]. rewrite (proj2 (Z.eqb_neq num 0)) by lia. by rewrite He. }
    cbn [mbind result_bind]. unfold py_floordiv. rewrite (proj2 (Z.eqb_neq num 0)) by lia.
    cbn [mbind result_bind]. rewrite Z.eqb_refl. apply mapR_ok. intros i Hi. destruct (Hb i Hi).
    change (_slice data (Some (bounds i).1) (Some (bounds i).2) = Ok (part i)).
    apply slice_in_bounds; fold size; lia.
  - unfold py_len. rewrite length_map. apply py_range_len. lia.
  - rewrite map_map. cbn [part nd_rows]. destruct (chain_rows (nd_rows data) 0 size (map bounds (py_range num))) as [E _];
      [lia|unfold size, nd_len; lia|done|]. rewrite map_map in E.
    transitivity (py_slice (nd_rows data) 0 size); [exact E|apply py_slice_all].
  - apply Forall_fmap, Forall_forall. intros i Hi. destruct (Hb i Hi).
    change (0 < py_len (py_slice (nd_rows data) (bounds i).1 (bounds i).2)).
    rewrite py_slice_len by (change (py_len (nd_rows data)) with size; lia). lia.
  - intros Hev. apply Forall_fmap, Forall_forall. intros i Hi. destruct (Hb i Hi).
    change (py_len (py_slice (nd_rows data) (bounds i).1 (bounds i).2) = size / num).
    rewrite py_slice_len by (change (py_len (nd_rows data)) with size; lia). fold step.
    specialize (He Hev). pose proof (Z.div_mod size num ltac:(lia)) as Hdm. fold step in Hdm.
    apply elem_of_py_range in Hi. unfold bounds. cbn. destruct (Z.ltb_spec i (num - 1)); nia.
Qed.

Lemma zip_contexts l : forall ctxs, length l = length ctxs ->
  map nd_ctx (zip_with nd_as_in_context l ctxs) = ctxs /\
  map nd_rows (zip_with nd_as_in_context l ctxs) = map nd_rows l.
Proof.
  induction l as [|a l IH]; intros [|c ctxs] Hlen; try done. cbn in Hlen |- *.
  destruct (IH ctxs) as [-> ->]; [lia|]. unfold nd_as_in_context. by case_bool_decide as E; [rewrite E|].
Qed.

(** The number of rows depends on the rows only. *)
Lemma Forall_len (P : Z -> Prop) l l' :
  map nd_rows l' = map nd_rows l -> Forall (fun a => P (nd_len a)) l -> Forall (fun a => P (nd_len a)) l'.
Proof.
  intros E Hl.
  assert (Forall (fun r => P (py_len r)) (nd_rows <$> l)) as Hr by (apply Forall_fmap; exact Hl).
  change (nd_rows <$> l) with (map nd_rows l) in Hr. rewrite <- E in Hr.
  change (map nd_rows l') with (nd_rows <$> l') in Hr. rewrite Forall_fmap in Hr. exact Hr.
Qed.

(** [split_and_load] puts every row of a batch on exactly one of the contexts,
    in order and leaving none empty; with [even_split] the parts are equal. *)
Theorem split_and_load_rows data ctxs even :
  1 <= py_len ctxs <= nd_len data -> (even = true -> nd_len data mod py_len ctxs = 0) ->
  exists l, split_and_load nd_split slice_axis data ctxs 0 even = Ok l /\
    map nd_ctx l = ctxs /\ concat (map nd_rows l) = nd_rows data /\ Forall (fun a => 0 < nd_len a) l /\
    (even = true -> Forall (fun a => nd_len a = nd_len data / py_len ctxs) l).
Proof.
  intros Hn He.
  assert (exists l, split_and_load nd_split slice_axis data ctxs 0 even = Ok (zip_with nd_as_in_context l ctxs) /\
    py_len l = py_len ctxs /\ concat (map nd_rows l) = nd_rows data /\ Forall (fun a => 0 < nd_len a) l /\
    (even = true -> Forall (fun a => nd_len a = nd_len data / py_len ctxs) l)) as (l & El & Hl & Hr & Hne & Hev).
  { destruct ctxs as [|c [|c' ctxs]]; [rewrite py_len_nil in Hn; lia| |].
    - exists [data]. change (py_len [c]) with 1 in *. rewrite Z.div_1_r. split_and!; try done.
      + cbn. apply app_nil_r.
      + constructor; [lia|done].
      + intros _. by constructor.
    - destruct (split_data_ok data _ even Hn He) as (l & El & ?). exists l. unfold split_and_load. by rewrite El. }
  destruct (zip_contexts l ctxs) as [E1 E2]; [unfold py_len in Hl; lia|].
  exists (zip_with nd_as_in_context l ctxs). rewrite E1, E2. split_and!; try done.
  - by apply (Forall_len (fun n => 0 < n) l).
  - intros Hv. by apply (Forall_len (fun n => n = nd_len data / py_len ctxs) l); [|apply Hev].
Qed.
End SplitDataRows.

(** *** Witnesses *)

Definition six_rows : NDArray := mkND cpu "float32" [1] [[0]; [1]; [2]; [3]; [4]; [5]].
Definition blank (id : Z) (n : nat) : NDArray := mkND (mkContext 2 id) "float32" [1] (replicate n [0]).

Example split_load_partition_witness :
  exists loaded, load_one six_rows (TSlices (zip [(0, 4); (4, 6)] [blank 0 4; blank 1 2])) = Ok loaded /\
    concat (map nd_rows loaded) = nd_rows six_rows /\ map nd_ctx loaded = [mkContext 2 0; mkContext 2 1].
Proof.
  apply (split_load_partition 6 [2; 1] [(0, 4); (4, 6)] six_rows [blank 0 4; blank 1 2]);
    [lia|reflexivity|reflexivity|reflexivity|by repeat constructor].
Defined.

Example split_even_witness : _split_input_slice 6 [5; 5; 5] = Ok [(0, 2); (2, 4); (4, 6)].
Proof. apply (split_even 3 5 2); lia. Defined.

Example split_and_load_rows_witness :
  exists l, split_and_load (fun _ _ _ => Raise MXNetError) (fun _ _ _ _ => Raise MXNetError)
      six_rows [mkContext 2 0; mkContext 2 1; mkContext 2 2; mkContext 2 3] 0 false = Ok l /\
    map nd_ctx l = [mkContext 2 0; mkContext 2 1; mkContext 2 2; mkContext 2 3] /\
    concat (map nd_rows l) = nd_rows six_rows.
Proof.
  destruct (split_and_load_rows (fun _ _ _ => Raise MXNetError) (fun _ _ _ _ => Raise MXNetError) six_rows
    [mkContext 2 0; mkContext 2 1; mkContext 2 2; mkContext 2 3] false) as (l & E1 & E2 & E3 & _);
    [by vm_compute|done|]. by exists l.
Defined.
