(* ===== verification/Axis.v ===== *)
(** * Slices and concatenation along any axis

    The operators [slice_axis] and [concat] that the executor group uses to spread a batch over
    devices and to merge the results, on the arrays of [Array].  An array is, along an axis,
    a list of blocks, one for each position on the axes before it; a slice takes a piece of
    every block and a concatenation puts pieces together block by block.  The main lemma says
    that consecutive slices of an array concatenate to the array. *)

From S2P Require Import Prelude NDArray Array Split.

Section Axis.
Context {F : Type}.
Notation arr := (nda F).

(** The sizes around an axis. *)
Definition before (k : nat) (s : list nat) : nat := size (take k s).
Definition after (k : nat) (s : list nat) : nat := size (drop (S k) s).

(** The elements from [b] to [e] along axis [k]. *)
Definition axis_piece (k b e : nat) (a : arr) (d : nat) : arr :=
  let s := a_shape a in
  mkNda (<[k := (e - b)%nat]> s)
    (concat (map (fun l => take ((e - b) * after k s) (drop (b * after k s) l)) (blocks (d * after k s) (before k s) (a_flat a)))).

(** [nd.slice_axis(a, axis=axis, begin=begin, end=end)] for an axis and bounds that are not negative. *)
Definition slice_axis (axis begin end_ : Z) (a : arr) : result arr :=
  match a_shape a !! Z.to_nat axis with
  | None => Raise MXNetError
  | Some d =>
      if (0 <=? axis) && (0 <=? begin) && (begin <? end_) && (end_ <=? Z.of_nat d)
      then Ok (axis_piece (Z.to_nat axis) (Z.to_nat begin) (Z.to_nat end_) a d)
      else Raise MXNetError
  end.

(** The sizes along axis [k] of arrays that have the sizes [s] on the other axes. *)
Fixpoint axis_dims (k : nat) (s : list nat) (l : list arr) : result (list nat) :=
  match l with
  | [] => Ok []
  | a :: l =>
      match a_shape a !! k with
      | None => Raise MXNetError
      | Some d => if bool_decide (<[k := 0%nat]> (a_shape a) = <[k := 0%nat]> s) then ds ← axis_dims k s l; Ok (d :: ds) else Raise MXNetError
      end
  end.

(** [nd.concat( *arrays, dim=axis)] *)
Definition concat_axis (axis : Z) (l : list arr) : result arr :=
  match l with
  | [] => Raise MXNetError
  | a :: _ =>
      let k := Z.to_nat axis in
      let s := a_shape a in
      ds ← axis_dims k s l;
      Ok (mkNda (<[k := foldr Nat.add 0%nat ds]> s)
            (concat (map (fun j => concat (map (fun '(d, x) => chunk (d * after k s) j (a_flat x)) (zip ds l))) (seq 0 (before k s)))))
  end.

(** ** Slices of consecutive ranges *)

Lemma size_app s t : size (s ++ t) = (size s * size t)%nat.
Proof. induction s as [|d s IH]; [change (size t = 1 * size t)%nat; lia|]. change (d * size (s ++ t) = d * size s * size t)%nat. rewrite IH. lia. Qed.

Lemma size_around k s d : s !! k = Some d -> size s = (before k s * (d * after k s))%nat.
Proof.
  intros Hk. unfold before, after. rewrite <- (take_drop_middle s k d Hk) at 1. rewrite size_app. reflexivity.
Qed.

Lemma after_insert k d s : after k (<[k := d]> s) = after k s.
Proof. unfold after. by rewrite drop_insert_lt by lia. Qed.
Lemma before_insert k d s : before k (<[k := d]> s) = before k s.
Proof. unfold before. by rewrite take_insert_ge by lia. Qed.

Lemma slice_axis_ok (k b e d : nat) (a : arr) : a_shape a !! k = Some d -> (b < e)%nat -> (e <= d)%nat ->
  slice_axis (Z.of_nat k) (Z.of_nat b) (Z.of_nat e) a = Ok (axis_piece k b e a d).
Proof.
  intros Hk Hb He. unfold slice_axis. rewrite !Nat2Z.id, Hk.
  rewrite !(proj2 (Z.leb_le _ _)), (proj2 (Z.ltb_lt _ _)) by lia. done.
Qed.

(** The blocks of a slice are the pieces of the blocks. *)
Lemma piece_chunk (k b e d j : nat) (a : arr) : a_shape a !! k = Some d -> wf_nda a -> (b <= e)%nat -> (e <= d)%nat -> (j < before k (a_shape a))%nat ->
  chunk ((e - b) * after k (a_shape a)) j (a_flat (axis_piece k b e a d)) =
    take ((e - b) * after k (a_shape a)) (drop (b * after k (a_shape a)) (chunk (d * after k (a_shape a)) j (a_flat a))).
Proof.
  intros Hk Hwf Hb He Hj. cbn [axis_piece a_flat].
  assert (length (a_flat a) = before k (a_shape a) * (d * after k (a_shape a)))%nat as Hlen by (rewrite Hwf; by apply size_around).
  apply chunk_concat.
  - apply Forall_map, Forall_forall. intros l Hl. unfold blocks in Hl. apply list_elem_of_In, in_map_iff in Hl as (i & <- & Hi).
    apply in_seq in Hi. cbn. rewrite length_take, length_drop, (chunk_length _ (before k (a_shape a))) by (done || lia). nia.
  - rewrite list_lookup_fmap. unfold blocks. rewrite list_lookup_fmap, lookup_seq_lt by done. done.
Qed.

Lemma axis_dims_pieces (k n : nat) (a : arr) : is_Some (a_shape a !! k) -> forall (l : list (nat * nat)) s, <[k := 0%nat]> s = <[k := 0%nat]> (a_shape a) ->
  axis_dims k s (map (fun p => axis_piece k p.1 p.2 a n) l) = Ok (map (fun p => (p.2 - p.1)%nat) l).
Proof.
  intros Hk l s Hs. induction l as [|[b e] l IH]; [done|]. cbn -[axis_piece]. cbn [axis_piece a_shape].
  rewrite list_lookup_insert_eq by by apply lookup_lt_is_Some_1. rewrite list_insert_insert_eq, Hs.
  rewrite bool_decide_eq_true_2 by done. by rewrite IH.
Qed.

(** Consecutive ranges from [x] to [y]. *)
Fixpoint ranges (x y : nat) (l : list (nat * nat)) : Prop :=
  match l with
  | [] => x = y
  | (b, e) :: l => b = x /\ (x <= e)%nat /\ ranges e y l
  end.

Lemma ranges_le l : forall x y, ranges x y l -> (x <= y)%nat.
Proof. induction l as [|[b e] l IH]; intros x y Hr; cbn in Hr; [lia|]. destruct Hr as (-> & ? & Hr). apply IH in Hr. lia. Qed.

Lemma ranges_in l : forall x y p, ranges x y l -> p ∈ l -> (x <= p.1 <= p.2 /\ p.2 <= y)%nat.
Proof.
  induction l as [|[b e] l IH]; intros x y p Hr Hp; [by apply elem_of_nil in Hp|]. cbn in Hr. destruct Hr as (-> & ? & Hr).
  pose proof (ranges_le _ _ _ Hr). apply elem_of_cons in Hp as [->|Hp]; [cbn; lia|]. pose proof (IH _ _ _ Hr Hp). lia.
Qed.

Lemma ranges_total l : forall x y, ranges x y l -> foldr Nat.add 0%nat (map (fun p => (p.2 - p.1)%nat) l) = (y - x)%nat.
Proof.
  induction l as [|[b e] l IH]; intros x y Hr; cbn in Hr |- *; [lia|]. destruct Hr as (-> & ? & Hr). rewrite (IH _ _ Hr).
  pose proof (ranges_le _ _ _ Hr). lia.
Qed.

Lemma ranges_concat {A} (m : nat) (v : list A) l : forall x y, ranges x y l -> (y * m <= length v)%nat ->
  concat (map (fun p => take ((p.2 - p.1) * m) (drop (p.1 * m) v)) l) = take ((y - x) * m) (drop (x * m) v).
Proof.
  induction l as [|[b e] l IH]; intros x y Hr Hy; cbn in Hr |- *.
  - subst. by rewrite Nat.sub_diag.
  - destruct Hr as (-> & Hx & Hr). pose proof (ranges_le _ _ _ Hr). rewrite (IH _ _ Hr Hy).
    replace ((y - x) * m)%nat with ((e - x) * m + (y - e) * m)%nat by nia.
    rewrite <- (take_take_drop (drop (x * m) v) ((e - x) * m) ((y - e) * m)).
    rewrite drop_drop. do 3 f_equal; nia.
Qed.

Lemma zip_map_same {A B C} (g : A -> B) (h : A -> C) l : zip (map g l) (map h l) = map (fun x => (g x, h x)) l.
Proof. induction l as [|x l IH]; [done|]. cbn. by f_equal. Qed.

(** The pieces of block [j] make up block [j]. *)
Lemma pieces_block (k d j : nat) (a : arr) (l : list (nat * nat)) : a_shape a !! k = Some d -> wf_nda a -> ranges 0 d l -> (j < before k (a_shape a))%nat ->
  concat (map (fun '(m, x) => chunk (m * after k (a_shape a)) j (a_flat x))
            (zip (map (fun p => (p.2 - p.1)%nat) l) (map (fun p => axis_piece k p.1 p.2 a d) l)))
    = chunk (d * after k (a_shape a)) j (a_flat a).
Proof.
  intros Hk Hwf Hr Hj. rewrite zip_map_same, map_map. set (v := chunk (d * after k (a_shape a)) j (a_flat a)).
  assert (length v = d * after k (a_shape a))%nat as Hv.
  { apply (chunk_length _ (before k (a_shape a))); [done|]. rewrite Hwf. by apply size_around. }
  transitivity (concat (map (fun p => take ((p.2 - p.1) * after k (a_shape a)) (drop (p.1 * after k (a_shape a)) v)) l)).
  - f_equal. apply map_ext_in. intros p Hp. apply list_elem_of_In in Hp. pose proof (ranges_in _ _ _ _ Hr Hp). by apply piece_chunk; try lia.
  - rewrite (ranges_concat _ v _ _ _ Hr) by lia. rewrite Nat.sub_0_r. cbn [Nat.mul]. rewrite drop_0. apply take_ge. lia.
Qed.

(** Consecutive slices of an array concatenate to the array. *)
Lemma concat_slices (k d : nat) (a : arr) (l : list (nat * nat)) : a_shape a !! k = Some d -> wf_nda a -> ranges 0 d l -> l <> [] ->
  concat_axis (Z.of_nat k) (map (fun p => axis_piece k p.1 p.2 a d) l) = Ok a.
Proof.
  intros Hk Hwf Hr Hl. destruct l as [|p0 l0] eqn:El; [done|]. rewrite <- El in *. unfold concat_axis.
  assert (exists rest, map (fun p => axis_piece k p.1 p.2 a d) l = axis_piece k p0.1 p0.2 a d :: rest) as [rest Hrest] by (subst; eauto).
  rewrite Hrest, <- Hrest. rewrite Nat2Z.id. set (s0 := a_shape (axis_piece k p0.1 p0.2 a d)).
  assert (s0 = <[k := (p0.2 - p0.1)%nat]> (a_shape a)) as Es by done.
  rewrite axis_dims_pieces; [|by eexists|rewrite Es; by rewrite list_insert_insert_eq].
  cbn [mbind result_bind]. f_equal. rewrite (ranges_total _ _ _ Hr), Es, list_insert_insert_eq, Nat.sub_0_r, list_insert_id by done.
  rewrite after_insert, before_insert.
  assert (length (a_flat a) = before k (a_shape a) * (d * after k (a_shape a)))%nat as Hlen by (rewrite Hwf; by apply size_around).
  transitivity (mkNda (a_shape a) (concat (blocks (d * after k (a_shape a)) (before k (a_shape a)) (a_flat a)))).
  - f_equal. unfold blocks. f_equal. apply map_ext_in. intros j Hj. apply in_seq in Hj. apply pieces_block; try done. lia.
  - rewrite blocks_concat by done. by destruct a.
Qed.

(** The slices of [_split_input_slice] are consecutive ranges. *)
Lemma chain_ranges l : forall x y, 0 <= x -> chain x y l -> ranges (Z.to_nat x) (Z.to_nat y) (map (fun p => (Z.to_nat p.1, Z.to_nat p.2)) l).
Proof.
  induction l as [|[b e] l IH]; intros x y Hx Hc; cbn in Hc |- *; [by subst|]. destruct Hc as (-> & He & Hc).
  split_and!; [done|lia|]. apply IH; [lia|done].
Qed.

(** A slice of the first axis by [slice_axis] and by indexing. *)
Lemma slice_first (b e d : nat) s (l : list F) : (b < e)%nat -> (e <= d)%nat -> length l = size (d :: s) ->
  a_slice (Z.of_nat b) (Z.of_nat e) (mkNda (d :: s) l) = Ok (axis_piece 0 b e (mkNda (d :: s) l) d).
Proof.
  intros Hb He Hl. unfold a_slice, view_of. cbn [a_shape]. rewrite view_slice_ok by lia. cbn [mbind result_bind]. f_equal.
  unfold view_array, view_get, axis_piece, before, after, blocks. cbn [v_shape v_off a_flat a_shape].
  change (size (take 0 (d :: s))) with 1%nat. change (drop 1 (d :: s)) with s. cbn [seq map concat list_insert insert]. rewrite app_nil_r.
  f_equal. unfold chunk. cbn [Nat.mul]. rewrite drop_0. cbn in Hl. fold (size s) in Hl. rewrite (take_ge l) by (unfold size in *; lia). done.
Qed.

Lemma piece_shape (k b e d : nat) (a : arr) : a_shape (axis_piece k b e a d) = <[k := (e - b)%nat]> (a_shape a).
Proof. done. Qed.

Lemma piece_wf (k b e d : nat) (a : arr) : a_shape a !! k = Some d -> wf_nda a -> (b <= e)%nat -> (e <= d)%nat -> wf_nda (axis_piece k b e a d).
Proof.
  intros Hk Hwf Hb He. unfold wf_nda. rewrite piece_shape.
  assert (Hlt := lookup_lt_Some _ _ _ Hk). rewrite (size_around k _ (e - b)) by by apply list_lookup_insert_eq.
  rewrite before_insert, after_insert. cbn [axis_piece a_flat]. rewrite length_concat, map_map.
  assert (length (a_flat a) = before k (a_shape a) * (d * after k (a_shape a)))%nat as Hlen by (rewrite Hwf; by apply size_around).
  rewrite (map_ext_in _ (fun _ => ((e - b) * after k (a_shape a))%nat)).
  - unfold blocks. rewrite map_map. generalize ((e - b) * after k (a_shape a))%nat as m. intros m.
    assert (forall n, list_sum (map (fun _ : nat => m) (seq n (before k (a_shape a)))) = before k (a_shape a) * m)%nat as E; [|apply E].
    clear. generalize (before k (a_shape a)). intros w. induction w as [|w IH]; intros n; [done|]. cbn [seq map list_sum fold_right Nat.mul]. f_equal. apply IH.
  - intros l Hl. unfold blocks in Hl. apply in_map_iff in Hl as (i & <- & Hi). apply in_seq in Hi.
    rewrite length_take, length_drop, (chunk_length _ (before k (a_shape a))) by (done || lia). nia.
Qed.

(** The slice of everything. *)
Lemma piece_all (k d : nat) (a : arr) : a_shape a !! k = Some d -> wf_nda a -> axis_piece k 0 d a d = a.
Proof.
  intros Hk Hwf. unfold axis_piece. rewrite Nat.sub_0_r, list_insert_id by done.
  assert (length (a_flat a) = before k (a_shape a) * (d * after k (a_shape a)))%nat as Hlen by (rewrite Hwf; by apply size_around).
  rewrite (map_ext_in _ id).
  - rewrite map_id, blocks_concat by done. by destruct a.
  - intros l Hl. unfold blocks in Hl. apply in_map_iff in Hl as (i & <- & Hi). apply in_seq in Hi. cbn [Nat.mul]. rewrite drop_0.
    cbn beta. unfold id. apply take_ge. assert (E := chunk_length (d * after k (a_shape a)) (before k (a_shape a)) i (a_flat a)). lia.
Qed.
End Axis.

(** Slices of an array that was changed element by element. *)
Lemma piece_map {F E} (f : F -> E) k b e (a : nda F) d :
  axis_piece k b e (mkNda (a_shape a) (map f (a_flat a))) d = mkNda (a_shape (axis_piece k b e a d)) (map f (a_flat (axis_piece k b e a d))).
Proof.
  unfold axis_piece. cbn [a_shape a_flat]. f_equal. rewrite concat_map, map_map. f_equal. unfold blocks. rewrite !map_map. apply map_ext.
  intros i. unfold chunk. by rewrite !fmap_take, !fmap_drop, !fmap_take, !fmap_drop || rewrite !skipn_map, !firstn_map, !skipn_map, !firstn_map.
Qed.
