(* ===== verification/ExecGroup.v ===== *)
(** * Executor groups

    [module/executor_group.py]: a [DataParallelExecutorGroup] binds one executor to each device,
    gives each a slice of every batch and merges what the executors return.

    An executor has two parts here.  The parameters, auxiliary states and gradients of
    parameters are on a [device]: executors of several groups share them when one group is
    bound with [shared_group].  The other arguments (data, labels, states), their gradients and
    the outputs belong to the executor ([exec]).  The symbol and the library that runs it are
    a record of functions ([symbol]): names, shape inference, the forward and the backward
    computation.  What an input array holds after binding is a parameter, since memory is
    reused.  Arrays carry no device or element type. *)

From S2P Require Import Prelude NDArray Array Split Axis DataIter LRScheduler.

(** What the module API uses of a symbol. *)
Record symbol (F : Type) := mkSymbol {
  s_arguments : list string;
  s_auxiliary : list string;
  s_outputs : list string;
  s_layout : string -> option string;
  s_infer : gmap string (list nat) -> result (gmap string (list nat) * gmap string (list nat) * list (list nat));
  s_forward : bool -> gmap string (nda F) -> gmap string (nda F) -> list (nda F) * gmap string (nda F);
  s_backward : gmap string (nda F) -> gmap string (nda F) -> list (nda F) -> gmap string (nda F);
}.
Arguments mkSymbol {F} _ _ _ _ _ _ _.
Arguments s_arguments {F} _.
Arguments s_auxiliary {F} _.
Arguments s_outputs {F} _.
Arguments s_layout {F} _ _.
Arguments s_infer {F} _ _.
Arguments s_forward {F} _ _ _ _.
Arguments s_backward {F} _ _ _ _.

Record device (F : Type) := mkDevice { d_args : gmap string (nda F); d_aux : gmap string (nda F); d_grads : gmap string (nda F) }.
Arguments mkDevice {F} _ _ _.
Arguments d_args {F} _.
Arguments d_aux {F} _.
Arguments d_grads {F} _.

Record exec (F : Type) := mkExec { e_inputs : gmap string (nda F); e_igrads : gmap string (nda F); e_outputs : list (nda F) }.
Arguments mkExec {F} _ _ _.
Arguments e_inputs {F} _.
Arguments e_igrads {F} _.
Arguments e_outputs {F} _.

Record group (F : Type) := mkGroup {
  g_symbol : symbol F;
  g_workload : list Z;
  g_param_names : list string;
  g_for_training : bool;
  g_inputs_need_grad : bool;
  g_state_names : list string;
  g_grad_req : gmap string string;
  g_batch_size : option Z;
  g_slices : option (list (Z * Z));
  g_data_shapes : list DataDesc;
  g_label_shapes : option (list DataDesc);
  g_label_names : option (list string);
  g_data_layouts : list Z;
  g_label_layouts : option (list Z);
  g_output_layouts : list Z;
  g_execs : list (exec F);
  g_default_execs : option (list (exec F));
}.
Arguments mkGroup {F} _ _ _ _ _ _ _ _ _ _ _ _ _ _ _ _ _.
Arguments g_symbol {F} _.
Arguments g_workload {F} _.
Arguments g_param_names {F} _.
Arguments g_for_training {F} _.
Arguments g_inputs_need_grad {F} _.
Arguments g_state_names {F} _.
Arguments g_grad_req {F} _.
Arguments g_batch_size {F} _.
Arguments g_slices {F} _.
Arguments g_data_shapes {F} _.
Arguments g_label_shapes {F} _.
Arguments g_label_names {F} _.
Arguments g_data_layouts {F} _.
Arguments g_label_layouts {F} _.
Arguments g_output_layouts {F} _.
Arguments g_execs {F} _.
Arguments g_default_execs {F} _.

(** A batch as the module API reads it, and a list of batches, one for each device. *)
Record mbatch (F : Type) := mkMBatch {
  mb_data : list (nda F);
  mb_label : list (nda F);
  mb_pad : Z;
  mb_bucket_key : option Z;
  mb_provide_data : option (list DataDesc);
  mb_provide_label : option (list DataDesc);
}.
Arguments mkMBatch {F} _ _ _ _ _ _.
Arguments mb_data {F} _.
Arguments mb_label {F} _.
Arguments mb_pad {F} _.
Arguments mb_bucket_key {F} _.
Arguments mb_provide_data {F} _.
Arguments mb_provide_label {F} _.
Inductive mbatches (F : Type) := OneBatch (b : mbatch F) | ManyBatches (l : list (mbatch F)).
Arguments OneBatch {F} _.
Arguments ManyBatches {F} _.

(** The argument [grad_req]. *)
Inductive greq := GStr (s : string) | GList (l : list string) | GDict (d : gmap string string).

Section Group.
Context {F : Type} `{Float F}.
(** What an input array of a shape holds when it is bound. *)
Context (unset : string -> list nat -> list F).
Notation arr := (nda F).
Notation G := (group F * list (device F))%type.

(** ** Copies *)

(** [src.copyto(dst)]: the new contents of [dst]. *)
Definition copyto (src dst : arr) : result arr :=
  if bool_decide (a_shape src = a_shape dst) then Ok src else Raise MXNetError.

Definition zeros (s : list nat) : arr := mkNda s (replicate (size s) (fof 0)).

(** The part of a source that goes to one target in [_load_general]. *)
Definition load_slice (axis : Z) (d_src : arr) (islice : Z * Z) (d_dst : arr) : result arr :=
  if 0 <=? axis then
    d ← py_index (map Z.of_nat (a_shape d_src)) axis;
    if negb (islice.1 =? 0) || negb (d =? islice.2) then
      s ← (if axis =? 0 then a_slice islice.1 islice.2 d_src else slice_axis axis islice.1 islice.2 d_src);
      copyto s d_dst
    else copyto d_src d_dst
  else copyto d_src d_dst.

(** [_merge_multi_context] *)
Definition merge_one (tensors : list arr) (axis : Z) : result arr :=
  if 0 <=? axis then
    if (length tensors =? 1)%nat then py_index tensors 0 else concat_axis axis tensors
  else py_index tensors 0.
Definition _merge_multi_context (outputs : list (list arr)) (major_axis : list Z) : result (list arr) :=
  mapR (fun '(tensors, axis) => merge_one tensors axis) (zip outputs major_axis).

(** [_prepare_group2ctxs] *)
Inductive ctx_spec := OneCtx (c : Context) | CtxList (l : list Context).
Inductive group2ctx := G2None | G2List (l : list (option (gmap string Context))) | G2Dict (d : list (string * ctx_spec)) | G2Other.
Definition spec_ctxs (v : ctx_spec) (ctx_len : nat) : result (list Context) :=
  match v with
  | OneCtx c => Ok (replicate ctx_len c)
  | CtxList [c] => Ok (replicate ctx_len c)
  | CtxList l => _ ← py_assert (length l =? ctx_len)%nat; Ok l
  end.
Fixpoint fill_ctxs (d : list (string * ctx_spec)) (ctx_len : nat) (ret : list (gmap string Context)) : result (list (gmap string Context)) :=
  match d with
  | [] => Ok ret
  | (k, v) :: d => ctxs ← spec_ctxs v ctx_len; fill_ctxs d ctx_len (zip_with (fun m c => <[k := c]> m) ret ctxs)
  end.
Definition _prepare_group2ctxs (g : group2ctx) (ctx_len : nat) : result (list (option (gmap string Context))) :=
  match g with
  | G2None => Ok (replicate ctx_len None)
  | G2List l => _ ← py_assert (length l =? ctx_len)%nat; Ok l
  | G2Dict d => ret ← fill_ctxs d ctx_len (replicate ctx_len ∅); Ok (map Some ret)
  | G2Other => Raise AssertionError
  end.

(** ** The gradients that are requested *)

(** [self.grad_req] of the constructor. *)
Definition request_of (param_names fixed data_names : list string) (inputs_need_grad : bool) (req k : string) : string :=
  if bool_decide (k ∈ param_names) then (if bool_decide (k ∈ fixed) then "null" else req)
  else if bool_decide (k ∈ data_names) then (if inputs_need_grad then req else "null")
  else "null".
Definition requests (arg_names param_names fixed data_names : list string) (inputs_need_grad : bool) (req : string) : gmap string string :=
  list_to_map (map (fun k => (k, request_of param_names fixed data_names inputs_need_grad req k)) arg_names).
Definition grad_requests (arg_names param_names fixed data_names : list string) (for_training inputs_need_grad : bool) (grad_req : greq)
  : result (gmap string string) :=
  match (if for_training then grad_req else GStr "null") with
  | GStr s => Ok (requests arg_names param_names fixed data_names inputs_need_grad s)
  | GList l =>
      _ ← py_assert (length l =? length arg_names)%nat;
      Ok (list_to_map (reverse (zip arg_names l)))
  | GDict d => Ok (d ∪ requests arg_names param_names fixed data_names inputs_need_grad "write")
  end.

(** ** Assignments to attributes *)

Definition on_group (f : group F -> group F) : M G unit := modify (fun s => (f s.1, s.2)).
Definition set_batch (n : option Z) (sl : option (list (Z * Z))) (g : group F) : group F :=
  mkGroup (g_symbol g) (g_workload g) (g_param_names g) (g_for_training g) (g_inputs_need_grad g) (g_state_names g) (g_grad_req g)
    n sl (g_data_shapes g) (g_label_shapes g) (g_label_names g) (g_data_layouts g) (g_label_layouts g) (g_output_layouts g) (g_execs g) (g_default_execs g).
Definition set_shapes (ds : list DataDesc) (ls : option (list DataDesc)) (g : group F) : group F :=
  mkGroup (g_symbol g) (g_workload g) (g_param_names g) (g_for_training g) (g_inputs_need_grad g) (g_state_names g) (g_grad_req g)
    (g_batch_size g) (g_slices g) ds ls (match ls with Some l => Some (map desc_name l) | None => g_label_names g end) (g_data_layouts g) (g_label_layouts g) (g_output_layouts g) (g_execs g) (g_default_execs g).
Definition set_layouts (dl : list Z) (ll : option (list Z)) (g : group F) : group F :=
  mkGroup (g_symbol g) (g_workload g) (g_param_names g) (g_for_training g) (g_inputs_need_grad g) (g_state_names g) (g_grad_req g)
    (g_batch_size g) (g_slices g) (g_data_shapes g) (g_label_shapes g) (g_label_names g) dl ll (g_output_layouts g) (g_execs g) (g_default_execs g).
Definition set_execs (l : list (exec F)) (g : group F) : group F :=
  mkGroup (g_symbol g) (g_workload g) (g_param_names g) (g_for_training g) (g_inputs_need_grad g) (g_state_names g) (g_grad_req g)
    (g_batch_size g) (g_slices g) (g_data_shapes g) (g_label_shapes g) (g_label_names g) (g_data_layouts g) (g_label_layouts g) (g_output_layouts g) l (g_default_execs g).
Definition set_default_execs (l : option (list (exec F))) (g : group F) : group F :=
  mkGroup (g_symbol g) (g_workload g) (g_param_names g) (g_for_training g) (g_inputs_need_grad g) (g_state_names g) (g_grad_req g)
    (g_batch_size g) (g_slices g) (g_data_shapes g) (g_label_shapes g) (g_label_names g) (g_data_layouts g) (g_label_layouts g) (g_output_layouts g) (g_execs g) l.

(** ** Slices of the batch *)

(** The loop of [decide_slices]: the first input with a batch axis fixes the size of the batch. *)
Fixpoint decide_loop (l : list (DataDesc * Z)) : M G unit :=
  match l with
  | [] => mret tt
  | (desc, axis) :: l =>
      if axis =? -1 then decide_loop l
      else
        n ← lift (py_index (desc_shape desc) axis);
        s ← get;
        match g_batch_size s.1 with
        | Some b => _ ← massert (n =? b); decide_loop l
        | None =>
            _ ← on_group (set_batch (Some n) (g_slices s.1));
            sl ← lift (_split_input_slice n (g_workload s.1));
            _ ← on_group (set_batch (Some n) (Some sl));
            decide_loop l
        end
  end.
Definition decide_slices (data_shapes : list DataDesc) : M G (list Z) :=
  _ ← massert (negb (length data_shapes =? 0)%nat);
  let major_axis := map (fun x => get_batch_axis (desc_layout x)) data_shapes in
  _ ← decide_loop (zip data_shapes major_axis);
  mret major_axis.

(** The slice of executor [i]; [None[i]] is a [TypeError]. *)
Definition slice_of (g : group F) (i : nat) : result (Z * Z) :=
  match g_slices g with None => Raise TypeError | Some l => py_index l (Z.of_nat i) end.

Definition _sliced_shape (g : group F) (shapes : list DataDesc) (i : nat) (major_axis : list Z) : result (list DataDesc) :=
  mapR (fun '(desc, axis) =>
          s ← (if 0 <=? axis then sl ← slice_of g i; py_setitem (desc_shape desc) axis (sl.2 - sl.1) else Ok (desc_shape desc));
          Ok (mkDesc (desc_name desc) s (desc_dtype desc) (desc_layout desc)))
       (zip shapes major_axis).

(** ** Binding *)

(** The shapes that are given to [simple_bind]. *)
Definition input_shapes (l : list DataDesc) : gmap string (list nat) :=
  list_to_map (reverse (map (fun x => (desc_name x, map Z.to_nat (desc_shape x))) l)).

Definition lib_get {V} (m : gmap string V) (k : string) : result V :=
  match m !! k with Some v => Ok v | None => Raise MXNetError end.
Definition wants_grad (g : group F) (n : string) : bool := negb (str_eqb (default "null"%string (g_grad_req g !! n)) "null").
Definition is_param (g : group F) (n : string) : bool := bool_decide (n ∈ g_param_names g).

(** [GraphExecutor::InitArguments]: a parameter, its gradient and an auxiliary state, shared or new. *)
Definition share_arg (g : group F) (shapes : gmap string (list nat)) (d : device F) (n : string) : result unit :=
  s ← lib_get shapes n;
  a ← lib_get (d_args d) n;
  if bool_decide (a_shape a = s) then (if wants_grad g n then _ ← lib_get (d_grads d) n; Ok tt else Ok tt) else Raise MXNetError.
Definition share_aux (shapes : gmap string (list nat)) (d : device F) (n : string) : result unit :=
  s ← lib_get shapes n; a ← lib_get (d_aux d) n; if bool_decide (a_shape a = s) then Ok tt else Raise MXNetError.
Definition new_arrays (shapes : gmap string (list nat)) (names : list string) : result (gmap string arr) :=
  l ← mapR (fun n => s ← lib_get shapes n; Ok (n, zeros s)) names; Ok (list_to_map l).
Definition new_inputs (shapes : gmap string (list nat)) (names : list string) : result (gmap string arr) :=
  l ← mapR (fun n => s ← lib_get shapes n; Ok (n, mkNda s (unset n s))) names; Ok (list_to_map l).

(** The arguments of the symbol that are parameters, and the others. *)
Definition own_params (g : group F) : list string := filter (fun n => is_param g n = true) (s_arguments (g_symbol g)).
Definition own_inputs (g : group F) : list string := filter (fun n => is_param g n = false) (s_arguments (g_symbol g)).

(** [Symbol.simple_bind] *)
Definition simple_bind (g : group F) (shapes : gmap string (list nat)) (shared : option (device F)) : result (exec F * device F) :=
  '(args, auxs, outs) ← s_infer (g_symbol g) shapes;
  inputs ← new_inputs args (own_inputs g);
  igrads ← new_inputs args (filter (fun n => wants_grad g n = true) (own_inputs g));
  d ← match shared with
      | Some d =>
          _ ← mapR (share_arg g args d) (own_params g);
          _ ← mapR (share_aux auxs d) (s_auxiliary (g_symbol g));
          Ok d
      | None =>
          ps ← new_arrays args (own_params g);
          xs ← new_arrays auxs (s_auxiliary (g_symbol g));
          gs ← new_arrays args (filter (fun n => wants_grad g n = true) (own_params g));
          Ok (mkDevice ps xs gs)
      end;
  Ok (mkExec inputs igrads (map (fun s => mkNda s (unset EmptyString s)) outs), d).

(** [Executor.reshape]: the parameters and the inputs that get no new shape keep their shapes and their arrays. *)
Definition exec_reshape (g : group F) (shapes : gmap string (list nat)) (e : exec F) (d : device F) : result (exec F) :=
  '(args, auxs, outs) ← s_infer (g_symbol g) shapes;
  _ ← mapR (share_arg g args d) (own_params g);
  _ ← mapR (share_aux auxs d) (s_auxiliary (g_symbol g));
  let given := filter (fun n => n ∈ dom shapes) (own_inputs g) in
  let kept := filter (fun n => n ∉ dom shapes) (own_inputs g) in
  _ ← mapR (fun n => s ← lib_get args n; a ← lib_get (e_inputs e) n; if bool_decide (a_shape a = s) then Ok tt else Raise MXNetError) kept;
  inputs ← new_inputs args given;
  igrads ← new_inputs args (filter (fun n => wants_grad g n = true) given);
  Ok (mkExec (inputs ∪ e_inputs e) (igrads ∪ e_igrads e) (map (fun s => mkNda s (unset EmptyString s)) outs)).

(** [Executor._get_dict] refuses names that occur twice. *)
Definition arg_dict (g : group F) : result unit := no_duplicate ∅ (s_arguments (g_symbol g)).

(** [_collect_arrays]: every input is an argument of the symbol, and there is a slice for every executor. *)
Definition _collect_arrays (g : group F) : result unit :=
  let names := map desc_name (g_data_shapes g) ++ g_state_names g ++ match g_label_shapes g with Some l => map desc_name l | None => [] end in
  _ ← mapR (slice_of g) (seq 0 (length (g_execs g)));
  _ ← arg_dict g;
  _ ← mapR (fun n => if bool_decide (n ∈ s_arguments (g_symbol g)) then Ok tt else Raise KeyError) names;
  Ok tt.

(** The arrays of the executor that was bound first: those without a new shape are shared
    with the current one, which may have written to them; what the memory of the others holds
    is unknown, since the executors made from it reuse it. *)
Definition default_arrays (given : list string) (first current : gmap string arr) : gmap string arr :=
  map_imap (fun n a => Some (if bool_decide (n ∈ given) then mkNda (a_shape a) (unset n (a_shape a)) else default a (current !! n))) first.
Definition default_exec (g : group F) (first current : exec F) : exec F :=
  let given := map desc_name (g_data_shapes g) ++ match g_label_shapes g with Some l => map desc_name l | None => [] end in
  mkExec (default_arrays given (e_inputs first) (e_inputs current)) (default_arrays given (e_igrads first) (e_igrads current)) (e_outputs first).

(** The executor for device [i]: bound, or the one that was bound first with new shapes. *)
Definition bind_ith (data_shapes : list DataDesc) (label_shapes : option (list DataDesc)) (shared : option (list (device F))) (reshape : bool) (i : nat)
  : M G unit :=
  s ← get;
  ds ← lift (_sliced_shape s.1 data_shapes i (g_data_layouts s.1));
  ls ← lift (match label_shapes with
             | Some l => _sliced_shape s.1 l i (default [] (g_label_layouts s.1))
             | None => Ok []
             end);
  let shapes := input_shapes (ds ++ ls) in
  if reshape then
    d ← lift (py_index s.2 (Z.of_nat i));
    e ← lift (py_index (g_execs s.1) (Z.of_nat i));
    e0 ← lift (match g_default_execs s.1 with Some l => py_index l (Z.of_nat i) | None => Raise TypeError end);
    e ← lift (exec_reshape s.1 shapes (default_exec s.1 e0 e) d);
    on_group (set_execs (<[i := e]> (g_execs s.1)))
  else
    sh ← lift (match shared with None => Ok None | Some l => d ← py_index l (Z.of_nat i); Ok (Some d) end);
    '(e, d) ← lift (simple_bind s.1 shapes sh);
    _ ← modify (fun s => (s.1, s.2 ++ [d]));
    on_group (set_execs (g_execs s.1 ++ [e])).

Definition bind_exec (data_shapes : list DataDesc) (label_shapes : option (list DataDesc)) (shared : option (list (device F))) (reshape : bool) : M G unit :=
  s ← get;
  _ ← massert (reshape || (length (g_execs s.1) =? 0)%nat);
  _ ← on_group (set_batch None (g_slices s.1));
  dl ← decide_slices data_shapes;
  _ ← on_group (set_layouts dl (g_label_layouts s.1));
  _ ← match label_shapes with
      | Some l => ll ← decide_slices l; on_group (set_layouts dl (Some ll))
      | None => mret tt
      end;
  _ ← forM (bind_ith data_shapes label_shapes shared reshape) (seq 0 (length (g_workload s.1)));
  _ ← on_group (set_shapes data_shapes label_shapes);
  s ← get;
  lift (_collect_arrays s.1).

(** The constructor: the group and the devices of its executors. *)
Definition group_new (sym : symbol F) (workload : list Z) (data_shapes : list DataDesc) (label_shapes : option (list DataDesc)) (param_names : list string)
  (for_training inputs_need_grad : bool) (shared : option (list (device F))) (fixed : list string) (grad_req : greq) (state_names : list string) : result G :=
  req ← grad_requests (s_arguments sym) param_names fixed (map desc_name data_shapes) for_training inputs_need_grad grad_req;
  let g := mkGroup sym workload param_names for_training inputs_need_grad state_names req None None [] None None [] None
             (map (fun n => get_batch_axis (s_layout sym n)) (s_outputs sym)) [] None in
  let '(r, s) := bind_exec data_shapes label_shapes shared false (g, []) in
  _ ← r; Ok s.

(** Descriptions are pairs of a name and a shape: their other attributes are not compared. *)
Definition same_descs (l k : list DataDesc) : bool :=
  bool_decide (map (fun x => (desc_name x, desc_shape x)) l = map (fun x => (desc_name x, desc_shape x)) k).
Definition same_labels (l k : option (list DataDesc)) : bool :=
  match l, k with None, None => true | Some l, Some k => same_descs l k | _, _ => false end.
Definition group_reshape (data_shapes : list DataDesc) (label_shapes : option (list DataDesc)) : M G unit :=
  s ← get;
  if same_descs data_shapes (g_data_shapes s.1) && same_labels label_shapes (g_label_shapes s.1) then mret tt
  else
    _ ← match g_default_execs s.1 with Some _ => mret tt | None => on_group (set_default_execs (Some (g_execs s.1))) end;
    bind_exec data_shapes label_shapes None true.

(** ** Parameters *)

Notation host := (gmap string arr * gmap string arr)%type.

Definition set_exec (i : nat) (e : exec F) : M G unit := modify (fun s => (set_execs (<[i := e]> (g_execs s.1)) s.1, s.2)).
Definition set_device (i : nat) (d : device F) : M G unit := modify (fun s => (s.1, <[i := d]> s.2)).
Definition exec_at (i : nat) : M G (exec F * device F) :=
  s ← get; e ← lift (py_index (g_execs s.1) (Z.of_nat i)); d ← lift (py_index s.2 (Z.of_nat i)); mret (e, d).

(** [Executor.copy_params_from], one argument and one auxiliary state. *)
Definition copy_arg (allow_extra : bool) (i : nat) (x : string * arr) : M G unit :=
  s ← get;
  '(e, d) ← exec_at i;
  if is_param s.1 x.1 && bool_decide (x.1 ∈ s_arguments (g_symbol s.1)) then
    dst ← lift (py_getitem (d_args d) x.1); v ← lift (copyto x.2 dst);
    set_device i (mkDevice (<[x.1 := v]> (d_args d)) (d_aux d) (d_grads d))
  else if bool_decide (x.1 ∈ s_arguments (g_symbol s.1)) then
    dst ← lift (py_getitem (e_inputs e) x.1); v ← lift (copyto x.2 dst);
    set_exec i (mkExec (<[x.1 := v]> (e_inputs e)) (e_igrads e) (e_outputs e))
  else if allow_extra then mret tt else raise ValueError.
Definition copy_aux (allow_extra : bool) (i : nat) (x : string * arr) : M G unit :=
  s ← get;
  '(_, d) ← exec_at i;
  if bool_decide (x.1 ∈ s_auxiliary (g_symbol s.1)) then
    dst ← lift (py_getitem (d_aux d) x.1); v ← lift (copyto x.2 dst);
    set_device i (mkDevice (d_args d) (<[x.1 := v]> (d_aux d)) (d_grads d))
  else if allow_extra then mret tt else raise ValueError.
Definition copy_params_from (arg aux : gmap string arr) (allow_extra : bool) (i : nat) : M G unit :=
  _ ← forM (copy_arg allow_extra i) (map_to_list arg); forM (copy_aux allow_extra i) (map_to_list aux).

Definition group_set_params (h : host) (allow_extra : bool) : M G unit :=
  s ← get; forM (copy_params_from h.1 h.2 allow_extra) (seq 0 (length (g_execs s.1))).

(** [sum(block) / len(block)]; Python's [sum] starts from [0]. *)
Definition arr_add (a b : arr) : result arr :=
  if bool_decide (a_shape a = a_shape b) then Ok (mkNda (a_shape a) (zip_with fadd (a_flat a) (a_flat b))) else Raise MXNetError.
Definition average (block : list arr) : result arr :=
  match block with
  | [] => Raise ZeroDivisionError
  | a :: l =>
      t ← foldl (fun r b => x ← r; arr_add x b) (Ok (mkNda (a_shape a) (map (fun x => fadd x (fof 0)) (a_flat a)))) l;
      Ok (mkNda (a_shape t) (map (fun x => fdiv x (fof (py_len block))) (a_flat t)))
  end.

(** [get_params]: the average over the devices, written to the arrays of the caller. *)
Definition collect (read : device F -> gmap string arr) (devs : list (device F)) (n : string) : result arr :=
  block ← mapR (fun d => py_getitem (read d) n) devs; average block.
Definition get_arg (devs : list (device F)) (x : string * string) : M host unit :=
  w ← lift (collect d_args devs x.2); h ← get; dst ← lift (py_getitem h.1 x.1); v ← lift (copyto w dst); put (<[x.1 := v]> h.1, h.2).
Definition get_aux (devs : list (device F)) (n : string) : M host unit :=
  w ← lift (collect d_aux devs n); h ← get; dst ← lift (py_getitem h.2 n); v ← lift (copyto w dst); put (h.1, <[n := v]> h.2).
Definition own_devices (s : G) : list (device F) := take (length (g_execs s.1)) s.2.
Definition group_get_params (s : G) : M host unit :=
  _ ← forM (get_arg (own_devices s)) (zip (g_param_names s.1) (own_params s.1)); forM (get_aux (own_devices s)) (s_auxiliary (g_symbol s.1)).

(** ** Forward *)

Definition load_into (i : nat) (name : string) (f : arr -> result arr) : M G unit :=
  '(e, _) ← exec_at i;
  dst ← lift (py_getitem (e_inputs e) name);
  v ← lift (f dst);
  set_exec i (mkExec (<[name := v]> (e_inputs e)) (e_igrads e) (e_outputs e)).

(** [_load_general] for the inputs of a batch: every executor gets its slice. *)
Definition load_one (x : arr * string * Z) : M G unit :=
  let '(src, name, axis) := x in
  s ← get;
  forM (fun i => sl ← lift (slice_of s.1 i); load_into i name (load_slice axis src sl)) (seq 0 (length (g_execs s.1))).
Definition load_general (data : list arr) (names : list string) (axes : list Z) : M G unit := forM load_one (zip (zip data names) axes).

(** The same for a list of arrays to each executor. *)
Definition load_list (x : list arr * string) : M G unit :=
  s ← get;
  forM (fun '(i, src) => load_into i x.2 (copyto src)) (zip (seq 0 (length (g_execs s.1))) x.1).

(** [_load_data] and [_load_label] *)
Definition load_inputs (of_batch : mbatch F -> list arr) (b : mbatches F) (names : list string) (axes : list Z) : M G unit :=
  match b with
  | OneBatch b => load_general (of_batch b) names axes
  | ManyBatches l =>
      srcs ← lift (mapR (fun i => mapR (fun b => py_index (of_batch b) (Z.of_nat i)) l) (seq 0 (length names)));
      forM load_list (map fst (zip (zip srcs names) axes))
  end.

(** [exec_.forward(is_train)] *)
Definition exec_forward (is_train : bool) (i : nat) : M G unit :=
  s ← get;
  '(e, d) ← exec_at i;
  let '(outs, aux) := s_forward (g_symbol s.1) is_train (e_inputs e ∪ d_args d) (d_aux d) in
  _ ← set_exec i (mkExec (e_inputs e) (e_igrads e) outs);
  set_device i (mkDevice (d_args d) (aux ∪ d_aux d) (d_grads d)).

(** Whether the batch has labels; [data_batch[0]] of an empty list is an [IndexError]. *)
Definition has_label (b : mbatches F) : result bool :=
  match b with
  | OneBatch b => Ok (negb (length (mb_label b) =? 0)%nat)
  | ManyBatches l => b ← py_index l 0; Ok (negb (length (mb_label b) =? 0)%nat)
  end.

Definition group_forward (b : mbatches F) (is_train : option bool) : M G unit :=
  s ← get;
  _ ← load_inputs mb_data b (map desc_name (g_data_shapes s.1)) (g_data_layouts s.1);
  _ ← match g_label_shapes s.1 with
      | Some ls =>
          lift (has_label b) ≫= fun lab : bool =>
          if lab then load_inputs mb_label b (map desc_name ls) (default [] (g_label_layouts s.1)) else mret tt
      | None => mret tt
      end;
  forM (exec_forward (default (g_for_training s.1) is_train)) (seq 0 (length (g_execs s.1))).

(** ** Results *)

Definition get_output_shapes (g : group F) : result (list (string * list Z)) :=
  e ← py_index (g_execs g) 0;
  mapR (fun '(key, out, axis) =>
          let s := map Z.of_nat (a_shape out) in
          s ← (if 0 <=? axis then match g_batch_size g with Some n => py_setitem s axis n | None => Raise TypeError end else Ok s);
          Ok (key, s))
       (zip (zip (s_outputs (g_symbol g)) (e_outputs e)) (g_output_layouts g)).

Definition raw_outputs (g : group F) (begin end_ : Z) : result (list (list arr)) :=
  idx ← py_range3 begin end_ 1; mapR (fun i => mapR (fun e => py_index (e_outputs e) i) (g_execs g)) idx.
Definition group_get_outputs (g : group F) : result (list arr) :=
  outs ← raw_outputs g 0 (py_len (s_outputs (g_symbol g)));
  _merge_multi_context outs (g_output_layouts g).

Definition group_get_states (merge_multi_context : bool) (g : group F) : result (list (list arr)) :=
  _ ← py_assert (negb merge_multi_context);
  mapR (fun n => mapR (fun e => py_getitem (e_inputs e) n) (g_execs g)) (g_state_names g).

(** [set_states], with arrays for every executor or with one value. *)
Definition group_set_states (states : option (list (list arr))) (value : option F) : M G unit :=
  s ← get;
  match states, value with
  | Some _, Some _ => raise AssertionError
  | Some l, None => forM load_list (zip l (g_state_names s.1))
  | None, None => raise AssertionError
  | None, Some v =>
      forM (fun n => forM (fun i => load_into i n (fun dst => Ok (mkNda (a_shape dst) (map (fun _ => v) (a_flat dst))))) (seq 0 (length (g_execs s.1))))
           (g_state_names s.1)
  end.

(** The gradients of the data, for every executor; no gradient is [None]. *)
Definition input_grads (g : group F) : result (list (list arr)) :=
  mapR (fun n => mapR (fun e => match e_igrads e !! n with Some a => Ok a | None => Raise TypeError end) (g_execs g))
       (filter (fun n => n ∈ s_arguments (g_symbol g)) (map desc_name (g_data_shapes g))).
Definition group_get_input_grads (g : group F) : result (list arr) :=
  _ ← py_assert (g_inputs_need_grad g);
  gs ← input_grads g;
  _merge_multi_context gs (g_data_layouts g).

(** ** Backward *)

(** The gradients that one executor computes, as its [grad_req] asks. *)
Definition store_grad (req : gmap string string) (n : string) (new : arr) (old : gmap string arr) : gmap string arr :=
  match old !! n with
  | None => old
  | Some a =>
      if str_eqb (default "null"%string (req !! n)) "add"
      then <[n := mkNda (a_shape a) (zip_with fadd (a_flat a) (a_flat new))]> old
      else <[n := new]> old
  end.
Definition store_grads (req : gmap string string) (new old : gmap string arr) : gmap string arr :=
  foldr (fun x m => store_grad req x.1 x.2 m) old (map_to_list new).
Definition exec_backward (out_grads : list arr) (i : nat) : M G unit :=
  s ← get;
  '(e, d) ← exec_at i;
  let new := s_backward (g_symbol s.1) (e_inputs e ∪ d_args d) (d_aux d) out_grads in
  _ ← set_exec i (mkExec (e_inputs e) (store_grads (g_grad_req s.1) (filter (fun x => is_param s.1 x.1 = false) new) (e_igrads e)) (e_outputs e));
  set_device i (mkDevice (d_args d) (d_aux d) (store_grads (g_grad_req s.1) (filter (fun x => is_param s.1 x.1 = true) new) (d_grads d))).

(** The part of the gradients of the outputs that goes to a slice. *)
Definition slice_grads (out_grads : list arr) (layouts : list Z) (sl : Z * Z) : result (list arr) :=
  mapR (fun '(g, axis) => if 0 <=? axis then slice_axis axis sl.1 sl.2 g else Ok g) (zip out_grads layouts).
Definition group_backward (out_grads : list arr) : M G unit :=
  s ← get;
  _ ← massert (g_for_training s.1);
  forM (fun i => sl ← lift (slice_of s.1 i); gs ← lift (slice_grads out_grads (g_output_layouts s.1) sl); exec_backward gs i)
       (seq 0 (length (g_execs s.1))).

(** ** Metrics *)

(** The labels for one executor. *)
Definition slice_labels (labels : list arr) (layouts : list Z) (sl : Z * Z) : result (list arr) :=
  mapR (fun '(l, axis) => if axis =? 0 then a_slice sl.1 sl.2 l else if 0 <? axis then slice_axis axis sl.1 sl.2 l else Ok l) (zip labels layouts).

(** [update_metric] with labels that are not sliced, or one list of labels for each executor. *)
Definition group_update_metric {Met} (update_dict : list (string * arr) -> list (string * arr) -> M Met unit) (g : group F)
  (labels : list arr + list (list arr)) : M Met unit :=
  forM (fun i : nat =>
          sl ← lift (slice_of g i);
          e ← lift (py_index (g_execs g) (Z.of_nat i));
          ls ← lift (match labels with
                     | inl l => match g_label_layouts g with Some lay => slice_labels l lay sl | None => Raise TypeError end
                     | inr l => py_index l (Z.of_nat i)
                     end);
          names ← lift (match g_label_names g with Some l => Ok l | None => Raise TypeError end);
          update_dict (zip names ls) (zip (s_outputs (g_symbol g)) (e_outputs e)))
       (seq 0 (length (g_execs g))).
End Group.
