(* ===== verification/ExecParallel.v ===== *)
(** * A group of executors computes what one executor would

    A bound group spreads a batch over its devices, runs the symbol on every slice and merges
    the outputs.  When the symbol works along the batch axis (the outputs for a slice of the
    batch are the slice of the outputs), the merged outputs are those of the symbol on the
    whole batch, and [get_output_shapes] gives their shapes. *)

From Stdlib Require Import QArith.
From S2P Require Import Prelude NDArray Array Split Axis DataIter LRScheduler ExecGroup.
Open Scope Z_scope.

(** What is used of shape inference: the shapes that are given are kept. *)
Class InferLaws {F} (sym : symbol F) := {
  infer_given : forall shapes args auxs outs n s, s_infer sym shapes = Ok (args, auxs, outs) -> n ∈ s_arguments sym -> shapes !! n = Some s -> args !! n = Some s;
}.

Section Parallel.
Context {F : Type} `{Float F} (unset : string -> list nat -> list F).
Notation arr := (nda F).
Notation G := (group F * list (device F))%type.
Notation cellE := (exec F * device F)%type.

(** ** The loops over the executors *)

(** The state of a group whose executors and devices are the pairs [X]. *)
Definition st (g : group F) (X : list cellE) : G := (set_execs (map fst X) g, map snd X).

Lemma exec_at_st g X i x : X !! i = Some x -> exec_at i (st g X) = (Ok x, st g X).
Proof.
  intros Hi. unfold exec_at. rewrite bind_get. unfold st. cbn [fst snd set_execs g_execs].
  rewrite (py_index_lookup _ _ x.1), bind_lift by by rewrite list_lookup_fmap, Hi.
  rewrite (py_index_lookup _ _ x.2), bind_lift by by rewrite list_lookup_fmap, Hi. by destruct x.
Qed.

Lemma insert_fst (X : list cellE) i e x : X !! i = Some x -> map fst (<[i := (e, x.2)]> X) = <[i := e]> (map fst X) /\ map snd (<[i := (e, x.2)]> X) = map snd X.
Proof.
  intros Hi. split; [by rewrite (list_fmap_insert fst)|]. rewrite (list_fmap_insert snd). cbn. apply list_insert_id. by rewrite list_lookup_fmap, Hi.
Qed.

Lemma set_exec_st g X i x e : X !! i = Some x -> set_exec i e (st g X) = (Ok tt, st g (<[i := (e, x.2)]> X)).
Proof. intros Hi. unfold set_exec, modify, st. cbn. destruct (insert_fst X i e x Hi) as [-> ->]. done. Qed.

Lemma set_device_st g X i x d : X !! i = Some x -> set_device i d (st g X) = (Ok tt, st g (<[i := (x.1, d)]> X)).
Proof.
  intros Hi. unfold set_device, modify, st. cbn. rewrite (list_fmap_insert fst), (list_fmap_insert snd). cbn.
  rewrite (list_insert_id (map fst X)); [done|]. by rewrite list_lookup_fmap, Hi.
Qed.

(** A loop over all executors whose body changes one of them. *)
Lemma forM_from (body : nat -> M G unit) (f : nat -> cellE -> cellE) (P : nat -> cellE -> Prop) g :
  (forall i x X, X !! i = Some x -> P i x -> body i (st g X) = (Ok tt, st g (<[i := f i x]> X))) ->
  forall todo done, (forall i x, todo !! i = Some x -> P (length done + i)%nat x) ->
  forM body (seq (length done) (length todo)) (st g (done ++ todo)) = (Ok tt, st g (done ++ imap (fun i => f (length done + i)%nat) todo)).
Proof.
  intros Hb todo. induction todo as [|x todo IH]; intros pre HP; [done|]. cbn [length seq forM]. rewrite bind_M.
  assert ((pre ++ x :: todo) !! length pre = Some x) as Hx by by apply list_lookup_middle.
  rewrite (Hb _ _ _ Hx) by (specialize (HP 0%nat x eq_refl); by rewrite Nat.add_0_r in HP).
  rewrite insert_app_r_alt, Nat.sub_diag by lia. cbn [insert list_insert].
  replace (pre ++ f (length pre) x :: todo) with ((pre ++ [f (length pre) x]) ++ todo) by by rewrite <- app_assoc.
  replace (S (length pre)) with (length (pre ++ [f (length pre) x])) by (rewrite length_app; cbn; lia).
  rewrite IH; [|intros i y Hi; specialize (HP (S i) y Hi); rewrite length_app; cbn [length]; by replace (length pre + 1 + i)%nat with (length pre + S i)%nat by lia].
  rewrite <- app_assoc. cbn [imap app]. do 4 f_equal; [by rewrite Nat.add_0_r|].
  apply imap_ext. intros i y _. rewrite length_app. cbn. f_equal. lia.
Qed.

Lemma forM_execs (body : nat -> M G unit) (f : nat -> cellE -> cellE) (P : nat -> cellE -> Prop) g X :
  (forall i x X, X !! i = Some x -> P i x -> body i (st g X) = (Ok tt, st g (<[i := f i x]> X))) ->
  (forall i x, X !! i = Some x -> P i x) ->
  forM body (seq 0 (length X)) (st g X) = (Ok tt, st g (imap f X)).
Proof. intros Hb HP. exact (forM_from body f P g Hb X [] HP). Qed.

(** ** Loading a batch *)

(** The part of an array with [n] rows along its batch axis that belongs to a slice. *)
Definition cut (n : nat) (sl : Z * Z) (axis : Z) (a : arr) : arr :=
  if 0 <=? axis then axis_piece (Z.to_nat axis) (Z.to_nat sl.1) (Z.to_nat sl.2) a n else a.

(** An array that has [n] rows along its batch axis. *)
Definition has_rows (n : nat) (axis : Z) (a : arr) : Prop := wf_nda a /\ (0 <= axis -> a_shape a !! Z.to_nat axis = Some n).

Lemma load_slice_ok n axis src sl dst : has_rows n axis src -> 0 <= sl.1 -> sl.1 < sl.2 -> sl.2 <= Z.of_nat n ->
  a_shape dst = a_shape (cut n sl axis src) -> load_slice axis src sl dst = Ok (cut n sl axis src).
Proof.
  intros [Hwf Hn] H1 H2 H3 Hd. unfold load_slice, cut in *. destruct (Z.leb_spec 0 axis) as [Ha|Ha];
    [|unfold copyto; by rewrite bool_decide_eq_true_2].
  specialize (Hn Ha). rewrite py_index_nonneg by done. rewrite list_lookup_fmap, Hn. cbn [fmap option_fmap option_map mbind result_bind].
  destruct sl as [b e]; cbn [fst snd] in *.
  set (p := axis_piece (Z.to_nat axis) (Z.to_nat b) (Z.to_nat e) src n) in *.
  assert (copyto p dst = Ok p) as Hc by (unfold copyto; by rewrite bool_decide_eq_true_2).
  destruct (negb (b =? 0) || negb (Z.of_nat n =? e)) eqn:Ec.
  - assert ((if axis =? 0 then a_slice b e src else slice_axis axis b e src) = Ok p) as ->; [|done].
    destruct (Z.eqb_spec axis 0) as [->|Hne].
    + destruct src as [[|d s] l]; [done|]. cbn in Hn. injection Hn as ->.
      rewrite <- (Z2Nat.id b), <- (Z2Nat.id e) by lia. apply slice_first; [lia|lia|exact Hwf].
    + rewrite <- (Z2Nat.id axis), <- (Z2Nat.id b), <- (Z2Nat.id e) at 1 by lia. apply slice_axis_ok; [done|lia|lia].
  - apply orb_false_iff in Ec as [Eb%negb_false_iff%Z.eqb_eq En%negb_false_iff%Z.eqb_eq]. subst b e.
    assert (p = src) as -> by (unfold p; rewrite Nat2Z.id; by apply piece_all). done.
Qed.

Definition put_input (name : string) (v : arr) (e : exec F) : exec F := mkExec (<[name := v]> (e_inputs e)) (e_igrads e) (e_outputs e).

Lemma load_into_st g X i x name (f : arr -> result arr) dst v : X !! i = Some x -> e_inputs x.1 !! name = Some dst -> f dst = Ok v ->
  load_into i name f (st g X) = (Ok tt, st g (<[i := (put_input name v x.1, x.2)]> X)).
Proof.
  intros Hi Hn Hf. unfold load_into. rewrite (bind_run _ _ _ _ _ (exec_at_st g X i x Hi)). destruct x as [e d]; cbn [fst snd] in *.
  unfold py_getitem. rewrite Hn. rewrite bind_lift, Hf, bind_lift. by rewrite (set_exec_st _ _ _ (e, d)).
Qed.

(** The inputs of an executor for a slice. *)
Notation input := (arr * string * Z)%type.
Definition put_inputs (n : nat) (sl : Z * Z) (ins : list input) (e : exec F) : exec F :=
  foldl (fun e '(src, name, axis) => put_input name (cut n sl axis src) e) e ins.

(** The slice [sl] fits the batch, and an executor has arrays of the right shapes for the inputs. *)
Definition in_batch (n : nat) (sl : Z * Z) : Prop := 0 <= sl.1 /\ sl.1 < sl.2 /\ sl.2 <= Z.of_nat n.
Definition accepts (n : nat) (sl : Z * Z) (ins : list input) (e : exec F) : Prop :=
  forall src name axis, (src, name, axis) ∈ ins -> has_rows n axis src /\
    exists dst, e_inputs e !! name = Some dst /\ a_shape dst = a_shape (cut n sl axis src).

Lemma accepts_put n sl ins e src name axis : NoDup (map (fun x : input => x.1.2) ((src, name, axis) :: ins)) -> accepts n sl ((src, name, axis) :: ins) e ->
  accepts n sl ins (put_input name (cut n sl axis src) e).
Proof.
  intros Hnd Ha src' name' axis' Hin. destruct (Ha src' name' axis') as (Hr & dst & Hd & Hs); [by right|]. split; [done|].
  cbn in Hnd. apply NoDup_cons in Hnd as [Hni _]. exists dst. split; [|done]. cbn. rewrite lookup_insert_ne; [done|].
  intros ->. apply Hni. apply list_elem_of_fmap. by exists (src', name', axis').
Qed.

Lemma load_one_st g X n sls src name axis : g_slices g = Some sls -> length sls = length X ->
  (forall i x sl, X !! i = Some x -> sls !! i = Some sl -> in_batch n sl /\ accepts n sl [(src, name, axis)] x.1) ->
  load_one (src, name, axis) (st g X) =
    (Ok tt, st g (imap (fun i x => (put_input name (cut n (default (0, 0) (sls !! i)) axis src) x.1, x.2)) X)).
Proof.
  intros Hsl Hlen HX. unfold load_one. rewrite bind_get. unfold st at 2. cbn [fst set_execs g_execs]. rewrite length_map.
  apply (forM_execs _ _ (fun i x => exists sl, sls !! i = Some sl /\ in_batch n sl /\ accepts n sl [(src, name, axis)] x.1)).
  - intros i x Y Hi (sl & Es & (H1 & H2 & H3) & Ha). destruct (Ha src name axis) as (Hr & dst & Hd & Hs); [by left|].
    unfold slice_of. cbn [st fst set_execs g_slices]. rewrite Hsl, (py_index_lookup _ _ _ Es), bind_lift.
    rewrite (load_into_st g Y i x name _ dst (cut n sl axis src)); [by rewrite Es|done|done|by apply load_slice_ok].
  - intros i x Hi. destruct (lookup_lt_is_Some_2 sls i) as [sl Es]; [rewrite Hlen; by eapply lookup_lt_Some|]. exists sl. split; [done|]. by apply (HX i x sl).
Qed.

Lemma imap_imap {A B C} (f : nat -> B -> C) (h : nat -> A -> B) l : imap f (imap h l) = imap (fun i x => f i (h i x)) l.
Proof. apply list_eq. intros i. rewrite !list_lookup_imap. by destruct (l !! i). Qed.

(** All slots of a list of pairs of an executor and a device. *)
Definition slots_ok (n : nat) (sls : list (Z * Z)) (ins : list input) (X : list cellE) : Prop :=
  forall i x sl, X !! i = Some x -> sls !! i = Some sl -> in_batch n sl /\ accepts n sl ins x.1.

Lemma load_all_st g n sls ins : g_slices g = Some sls -> NoDup (map (fun x : input => x.1.2) ins) -> forall X, length sls = length X -> slots_ok n sls ins X ->
  forM load_one ins (st g X) = (Ok tt, st g (imap (fun i x => (put_inputs n (default (0, 0) (sls !! i)) ins x.1, x.2)) X)).
Proof.
  intros Hsl. induction ins as [|[[src name] axis] ins IH]; intros Hnd X Hlen HX.
  { cbn [forM put_inputs foldl]. unfold mret, M_ret. do 2 f_equal. rewrite <- (list_fmap_id X) at 1. rewrite <- imap_const.
    apply imap_ext. by intros i [e d] _. }
  cbn [forM]. erewrite bind_run; [|apply (load_one_st g X n sls); [done|done|]; intros i x sl Hi Hs; destruct (HX i x sl Hi Hs) as [Hb Ha];
    split; [done|]; intros src' name' axis' Hin; apply Ha; set_solver].
  rewrite IH.
  - rewrite imap_imap. done.
  - cbn in Hnd. by apply NoDup_cons in Hnd as [_ Hnd].
  - by rewrite length_imap.
  - intros i x sl Hi Hs. rewrite list_lookup_imap in Hi. apply fmap_Some in Hi as (y & Hy & ->). cbn [fst]. rewrite Hs. cbn [default].
    destruct (HX i y sl Hy Hs) as [Hb Ha]. split; [done|]. by apply accepts_put.
Qed.

(** The inputs of the symbol: the arrays by name, cut for a slice or whole. *)
Definition cut_inputs (n : nat) (sl : Z * Z) (ins : list input) : gmap string arr := list_to_map (map (fun '(src, name, axis) => (name, cut n sl axis src)) ins).
Definition whole_inputs (ins : list input) : gmap string arr := list_to_map (map (fun '(src, name, _) => (name, src)) ins).

Lemma put_inputs_inputs n sl ins : NoDup (map (fun x : input => x.1.2) ins) -> forall e,
  e_inputs (put_inputs n sl ins e) = cut_inputs n sl ins ∪ e_inputs e.
Proof.
  unfold put_inputs, cut_inputs. induction ins as [|[[src name] axis] ins IH]; intros Hnd e; cbn [foldl map list_to_map foldr]; [by rewrite (left_id_L ∅ (∪))|].
  cbn in Hnd. apply NoDup_cons in Hnd as [Hni Hnd]. rewrite IH by done. cbn [put_input e_inputs].
  rewrite <- insert_union_l. rewrite <- insert_union_r; [done|].
  apply not_elem_of_list_to_map_1. intros Hin. apply Hni. apply list_elem_of_fmap in Hin as ([k v] & -> & Hin).
  apply list_elem_of_fmap in Hin as ([[s' k'] a'] & [= -> ->] & Hin). apply list_elem_of_fmap. by exists (s', k', a').
Qed.

(** ** Running the executors *)

Definition run_exec (g : group F) (tr : bool) (x : cellE) : cellE :=
  let '(outs, aux) := s_forward (g_symbol g) tr (e_inputs x.1 ∪ d_args x.2) (d_aux x.2) in
  (mkExec (e_inputs x.1) (e_igrads x.1) outs, mkDevice (d_args x.2) (aux ∪ d_aux x.2) (d_grads x.2)).

Lemma exec_forward_st g X tr i x : X !! i = Some x -> exec_forward tr i (st g X) = (Ok tt, st g (<[i := run_exec g tr x]> X)).
Proof.
  intros Hi. unfold exec_forward. rewrite bind_get, (bind_run _ _ _ _ _ (exec_at_st g X i x Hi)). destruct x as [e d]. unfold run_exec. cbn [fst snd].
  change (g_symbol (st g X).1) with (g_symbol g).
  destruct (s_forward (g_symbol g) tr (e_inputs e ∪ d_args d) (d_aux d)) as [outs aux].
  erewrite bind_run by by apply (set_exec_st _ _ _ (e, d)).
  rewrite (set_device_st _ _ _ (mkExec (e_inputs e) (e_igrads e) outs, d)).
  - by rewrite list_insert_insert_eq.
  - apply list_lookup_insert_eq. by eapply lookup_lt_Some.
Qed.

Lemma forward_all_st g X tr : forM (exec_forward tr) (seq 0 (length X)) (st g X) = (Ok tt, st g (imap (fun _ => run_exec g tr) X)).
Proof. apply (forM_execs _ _ (fun _ _ => True)); [|done]. intros i x Y Hi _. by apply exec_forward_st. Qed.

(** ** Merging the outputs *)

(** The symbol works along the batch axes: the outputs have a row for every row of the batch,
    and the outputs for a slice are the slice of the outputs. *)
Record batchwise (g : group F) (tr : bool) (n : nat) (ins : list input) (P A : gmap string arr) : Prop := {
  bw_outs : Forall2 (has_rows n) (g_output_layouts g) (s_forward (g_symbol g) tr (whole_inputs ins ∪ P) A).1;
  bw_slice : forall sl, in_batch n sl ->
    (s_forward (g_symbol g) tr (cut_inputs n sl ins ∪ P) A).1 =
      zip_with (cut n sl) (g_output_layouts g) (s_forward (g_symbol g) tr (whole_inputs ins ∪ P) A).1;
}.

Lemma merge_one_cut n sls axis a : has_rows n axis a -> chain 0 (Z.of_nat n) sls -> sls <> [] ->
  merge_one (map (fun sl => cut n sl axis a) sls) axis = Ok a.
Proof.
  intros [Hwf Hn] Hc Hne. unfold merge_one, cut. destruct (Z.leb_spec 0 axis) as [Ha|Ha]; [|by destruct sls].
  specialize (Hn Ha). destruct (Nat.eqb_spec (length (map (fun sl => axis_piece (Z.to_nat axis) (Z.to_nat sl.1) (Z.to_nat sl.2) a n) sls)) 1) as [E|E].
  - destruct sls as [|[b e] [|]]; try done. cbn in Hc. destruct Hc as (-> & _ & ->). cbn [map py_index]. cbn.
    rewrite Nat2Z.id. f_equal. by apply piece_all.
  - rewrite <- (Z2Nat.id axis) at 1 by done.
    rewrite <- (map_map (fun p : Z * Z => (Z.to_nat p.1, Z.to_nat p.2)) (fun p => axis_piece (Z.to_nat axis) p.1 p.2 a n)).
    apply concat_slices; [done|done| |by destruct sls].
    pose proof (chain_ranges sls 0 (Z.of_nat n) ltac:(lia) Hc) as Hr. by rewrite Nat2Z.id in Hr.
Qed.

Lemma mapR_Forall2 {A B} (f : A -> result B) l k : Forall2 (fun a b => f a = Ok b) l k -> mapR f l = Ok k.
Proof. induction 1 as [|a b l k Hab _ IH]; [done|]. cbn. rewrite Hab. cbn. by rewrite IH. Qed.

Lemma range3_up (m : nat) : py_range3 0 (Z.of_nat m) 1 = Ok (map Z.of_nat (seq 0 m)).
Proof.
  unfold py_range3, range_count. change (1 =? 0) with false. change (0 <? 1) with true. cbn beta iota. f_equal. unfold range_from.
  rewrite Z.div_1_r. replace (Z.to_nat (Z.of_nat m - 0 + 1 - 1)) with m by lia. apply map_ext. intros k. lia.
Qed.

Lemma raw_outputs_cut g (X : list cellE) n sls outs : length sls = length X -> length (g_output_layouts g) = length (s_outputs (g_symbol g)) ->
  length outs = length (g_output_layouts g) ->
  (forall i x sl, X !! i = Some x -> sls !! i = Some sl -> e_outputs x.1 = zip_with (cut n sl) (g_output_layouts g) outs) ->
  raw_outputs (set_execs (map fst X) g) 0 (py_len (s_outputs (g_symbol g))) =
    Ok (zip_with (fun axis a => map (fun sl => cut n sl axis a) sls) (g_output_layouts g) outs).
Proof.
  intros Hlen Hlay Hout HX. unfold raw_outputs, py_len. rewrite range3_up. cbn [mbind result_bind]. apply mapR_Forall2.
  apply Forall2_same_length_lookup_2; [rewrite length_map, length_seq, length_zip_with; lia|].
  intros j y z Hy Hz. rewrite list_lookup_fmap in Hy. apply fmap_Some in Hy as (j' & Hj & ->). apply lookup_seq in Hj as [-> Hj]. cbn [Nat.add] in *.
  apply lookup_zip_with_Some in Hz as (axis & a & -> & Hax & Ha). apply mapR_Forall2.
  cbn [set_execs g_execs]. apply Forall2_same_length_lookup_2; [by rewrite !length_map|].
  intros i e v He Hv. rewrite list_lookup_fmap in He. apply fmap_Some in He as (x & Hx & ->).
  rewrite list_lookup_fmap in Hv. apply fmap_Some in Hv as (sl & Hs & ->).
  apply py_index_lookup. rewrite (HX i x sl Hx Hs). apply lookup_zip_with_Some. eauto.
Qed.

Lemma merge_cut n sls layouts outs : chain 0 (Z.of_nat n) sls -> sls <> [] -> Forall2 (has_rows n) layouts outs ->
  _merge_multi_context (zip_with (fun axis a => map (fun sl => cut n sl axis a) sls) layouts outs) layouts = Ok outs.
Proof.
  intros Hc Hne. unfold _merge_multi_context. induction 1 as [|axis a layouts outs Ha _ IH]; [done|]. cbn [zip_with mapR].
  rewrite (merge_one_cut n sls axis a Ha Hc Hne). cbn [mbind result_bind]. by rewrite IH.
Qed.

(** ** What binding establishes *)

Lemma bind_on_group {B} f (k : unit -> M G B) g devs : (on_group f ≫= k) (g, devs) = k tt (f g, devs).
Proof. reflexivity. Qed.


(** The slices belong to the batch size. *)
Definition sliced (g : group F) : Prop :=
  forall n, g_batch_size g = Some n -> exists sls, g_slices g = Some sls /\ _split_input_slice n (g_workload g) = Ok sls.
(** A description agrees with the batch size. *)
Definition agrees (g : group F) (x : DataDesc * Z) : Prop :=
  x.2 <> -1 -> exists n, g_batch_size g = Some n /\ py_index (desc_shape x.1) x.2 = Ok n.

Lemma decide_loop_ok l : forall g (devs : list (device F)) u s, decide_loop l (g, devs) = (Ok u, s) -> sliced g ->
  exists bs sls, s = (set_batch bs sls g, devs) /\ sliced (set_batch bs sls g) /\ (forall n, g_batch_size g = Some n -> bs = Some n) /\
    Forall (agrees (set_batch bs sls g)) l.
Proof.
  induction l as [|[d axis] l IH]; intros g devs u s E Hs; cbn [decide_loop] in E.
  { injection E as _ <-. exists (g_batch_size g), (g_slices g). destruct g; cbn. auto. }
  destruct (Z.eqb_spec axis (-1)) as [->|Hax].
  { destruct (IH _ _ _ _ E Hs) as (bs & sls & -> & H1 & H2 & H3). exists bs, sls. split_and!; try done. constructor; [by intros []|done]. }
  inv_step E. apply lift_ok in E0 as [En ->]. rewrite bind_get in E. cbn [fst] in E. destruct (g_batch_size g) as [b|] eqn:Eb.
  - inv_step E. apply massert_ok in E0 as [->%Z.eqb_eq ->]. destruct (IH _ _ _ _ E Hs) as (bs & sls & -> & H1 & H2 & H3).
    rewrite Eb in H2. specialize (H2 b eq_refl) as ->. exists (Some b), sls. split_and!; try done.
    constructor; [|done]. intros _. by exists b.
  - unfold on_group in E. rewrite bind_modify in E. inv_step E. apply lift_ok in E0 as [Es ->]. rewrite bind_modify in E. cbn [fst snd] in E.
    apply IH in E as (bs & sls & -> & H1 & H2 & H3); [|intros n [= <-]; exists a0; by split].
    specialize (H2 a eq_refl) as ->. exists (Some a), sls. split_and!; try done. constructor; [|done]. intros _. by exists a.
Qed.

Lemma decide_slices_ok l g (devs : list (device F)) axes s : decide_slices l (g, devs) = (Ok axes, s) -> sliced g ->
  exists bs sls, s = (set_batch bs sls g, devs) /\ sliced (set_batch bs sls g) /\ (forall n, g_batch_size g = Some n -> bs = Some n) /\
    axes = map (fun x => get_batch_axis (desc_layout x)) l /\ l <> [] /\ Forall (agrees (set_batch bs sls g)) (zip l axes).
Proof.
  intros E Hs. unfold decide_slices in E. inv_step E. apply massert_ok in E0 as [Hl ->]. inv_step E. injection E as <- <-.
  apply decide_loop_ok in E0 as (bs & sls & -> & H1 & H2 & H3); [|done]. exists bs, sls. split_and!; try done. by intros ->.
Qed.

(** The shapes that executor [i] is bound with. *)
Definition shapes_of (g : group F) (ds : list DataDesc) (ls : option (list DataDesc)) (i : nat) : result (gmap string (list nat)) :=
  a ← _sliced_shape g ds i (g_data_layouts g);
  b ← match ls with Some l => _sliced_shape g l i (default [] (g_label_layouts g)) | None => Ok [] end;
  Ok (input_shapes (a ++ b)).
Definition bound_with (g : group F) (ds : list DataDesc) (ls : option (list DataDesc)) (i : nat) (x : cellE) : Prop :=
  exists sh, shapes_of g ds ls i = Ok sh /\ simple_bind unset g sh None = Ok x.

Lemma bind_ith_ok ds ls i g devs u s : bind_ith unset ds ls None false i (g, devs) = (Ok u, s) ->
  exists x, s = (set_execs (g_execs g ++ [x.1]) g, devs ++ [x.2]) /\ bound_with g ds ls i x.
Proof.
  unfold bind_ith. intros E. rewrite bind_get in E. cbn [fst snd] in E. inv_step E. apply lift_ok in E0 as [Ea ->].
  inv_step E. apply lift_ok in E0 as [Eb ->]. rewrite bind_lift in E. inv_step E. apply lift_ok in E0 as [Ex ->]. destruct a1 as [e d].
  rewrite bind_modify in E. injection E as _ <-. exists (e, d). split; [done|]. exists (input_shapes (a ++ a0)). split; [|done].
  unfold shapes_of. rewrite Ea. cbn [mbind result_bind]. by rewrite Eb.
Qed.

Lemma bind_loop_ok ds ls m : forall k g devs u s, forM (bind_ith unset ds ls None false) (seq k m) (g, devs) = (Ok u, s) ->
  exists X, length X = m /\ s = (set_execs (g_execs g ++ map fst X) g, devs ++ map snd X) /\
    forall j x, X !! j = Some x -> bound_with g ds ls (k + j) x.
Proof.
  induction m as [|m IH]; intros k g devs u s E; cbn [seq forM] in E.
  { injection E as _ <-. exists []. rewrite !app_nil_r. split_and!; [done|by destruct g|done]. }
  inv_step E. apply bind_ith_ok in E0 as (x & -> & Hx). apply IH in E as (X & Hl & -> & HX). exists (x :: X). cbn [length map].
  split_and!; [by rewrite Hl| |].
  - cbn [set_execs g_execs]. by rewrite <- !app_assoc.
  - intros [|j] y Hy; [injection Hy as <-; by rewrite Nat.add_0_r|]. specialize (HX j y Hy). replace (k + S j)%nat with (S k + j)%nat by lia. exact HX.
Qed.

(** The group that the constructor makes. *)
Record bound (sym : symbol F) (workload : list Z) (ds : list DataDesc) (ls : option (list DataDesc)) (params : list string) (g : group F) (X : list cellE) : Prop := {
  bd_symbol : g_symbol g = sym;
  bd_params : g_param_names g = params;
  bd_ds : g_data_shapes g = ds;
  bd_ls : g_label_shapes g = ls;
  bd_dl : g_data_layouts g = map (fun x => get_batch_axis (desc_layout x)) ds;
  bd_ll : forall l, ls = Some l -> g_label_layouts g = Some (map (fun x => get_batch_axis (desc_layout x)) l);
  bd_ol : g_output_layouts g = map (fun n => get_batch_axis (s_layout sym n)) (s_outputs sym);
  bd_ne : ds <> [];
  bd_len : length X = length workload;
  bd_exec : forall j x, X !! j = Some x -> bound_with g ds ls j x;
  bd_split : forall n, g_batch_size g = Some n -> exists sls, g_slices g = Some sls /\ _split_input_slice n workload = Ok sls;
  bd_agree : Forall (agrees g) (zip ds (g_data_layouts g));
  bd_agree_l : forall l, ls = Some l -> l <> [] /\ Forall (agrees g) (zip l (map (fun x => get_batch_axis (desc_layout x)) l));
  bd_names : forall x, x ∈ ds \/ (exists l, ls = Some l /\ x ∈ l) -> desc_name x ∈ s_arguments sym;
}.

Lemma collect_names (g : group F) : _collect_arrays g = Ok tt -> forall x, x ∈ g_data_shapes g \/ (exists l, g_label_shapes g = Some l /\ x ∈ l) ->
  desc_name x ∈ s_arguments (g_symbol g).
Proof.
  unfold _collect_arrays. intros E x Hx. apply bind_ok in E as (_ & _ & E). apply bind_ok in E as (_ & _ & E). apply bind_ok in E as (us & E & _).
  set (names := map desc_name (g_data_shapes g) ++ g_state_names g ++ match g_label_shapes g with Some l => map desc_name l | None => [] end) in E.
  assert (desc_name x ∈ names) as Hin.
  { unfold names. destruct Hx as [Hx|(l & El & Hx)]; [apply elem_of_app; left|apply elem_of_app; right; apply elem_of_app; right; rewrite El];
      by apply list_elem_of_fmap_2. }
  clearbody names. revert us E. induction names as [|y names IH]; intros us E; [by apply elem_of_nil in Hin|]. cbn in E.
  case_bool_decide as Hy; [|done]. apply elem_of_cons in Hin as [->|Hin]; [done|].
  cbn [mbind result_bind] in E. apply bind_ok in E as (vs & E & _). by eapply IH.
Qed.

(** The slices after the labels were looked at. *)
Definition decide_labels (ls : option (list DataDesc)) (dl : list Z) : M G unit :=
  match ls with
  | Some l => ll ← decide_slices l; on_group (set_layouts dl (Some ll))
  | None => mret tt
  end.

Lemma decide_labels_ok ls dl g (devs : list (device F)) u s : decide_labels ls dl (set_layouts dl None g, devs) = (Ok u, s) -> sliced g ->
  exists bs sls ll, s = (set_layouts dl ll (set_batch bs sls g), devs) /\ sliced (set_batch bs sls g) /\ (forall n, g_batch_size g = Some n -> bs = Some n) /\
    forall l, ls = Some l -> ll = Some (map (fun x => get_batch_axis (desc_layout x)) l) /\ l <> [] /\
      Forall (agrees (set_batch bs sls g)) (zip l (map (fun x => get_batch_axis (desc_layout x)) l)).
Proof.
  intros E Hs. destruct ls as [l|]; cbn [decide_labels] in E.
  - inv_step E. apply decide_slices_ok in E0 as (bs & sls & -> & H1 & H2 & -> & H3 & H4); [|exact Hs]. unfold on_group in E. injection E as _ <-.
    exists bs, sls, (Some (map (fun x => get_batch_axis (desc_layout x)) l)). split_and!; [done|exact H1|exact H2|]. intros l' [= <-]. done.
  - injection E as _ <-. exists (g_batch_size g), (g_slices g), None. split_and!; [by destruct g|by destruct g|done|done].
Qed.

Lemma agrees_mono g bs sls x : (forall n, g_batch_size g = Some n -> bs = Some n) -> agrees g x -> agrees (set_batch bs sls g) x.
Proof. intros Hm Ha Hx. destruct (Ha Hx) as (n & Hn & E). exists n. split; [by apply Hm|done]. Qed.

Lemma group_new_bound sym workload ds ls params tr ing fixed req states s :
  group_new unset sym workload ds ls params tr ing None fixed req states = Ok s ->
  exists g X, s = st g X /\ bound sym workload ds ls params g X.
Proof.
  unfold group_new. intros E. apply bind_ok in E as (reqs & _ & E). cbn zeta in E.
  match type of E with context [bind_exec _ _ _ _ _ (?g, _)] => set (g0 := g) in E end.
  destruct (bind_exec unset ds ls None false (g0, [])) as [r s'] eqn:Eb. apply bind_ok in E as (u & -> & [= ->]).
  unfold bind_exec in Eb. rewrite bind_get in Eb. inv_step Eb. apply massert_ok in E as [_ ->]. rewrite bind_on_group in Eb.
  cbn [fst snd] in Eb. inv_step Eb. apply decide_slices_ok in E as (bs & sls & -> & Hs1 & _ & -> & Hne & Hag); [|by intros n [=]].
  rewrite bind_on_group in Eb. cbn [fst snd] in Eb. inv_step Eb.
  change (decide_labels ls (map (fun x => get_batch_axis (desc_layout x)) ds)
    (set_layouts (map (fun x => get_batch_axis (desc_layout x)) ds) None (set_batch bs sls g0), []) = (Ok a0, s0)) in E.
  apply decide_labels_ok in E as (bs' & sls' & ll & -> & Hs2 & Hm & Hll); [|exact Hs1].
  inv_step Eb. apply bind_loop_ok in E as (X & HlX & -> & HX). rewrite bind_on_group, bind_get in Eb.
  apply lift_ok in Eb as [Ec ->]. destruct u. pose proof (collect_names _ Ec) as Hnames. cbn [fst snd] in *.
  exists (set_shapes ds ls (set_layouts (map (fun x => get_batch_axis (desc_layout x)) ds) ll (set_batch bs' sls' (set_batch bs sls g0)))), X.
  split; [done|]. split; try done.
  - by intros l Hl; apply Hll in Hl as [-> _].
  - exact (Forall_impl _ _ _ Hag (fun x => agrees_mono _ bs' sls' x Hm)).
  - intros l Hl. apply Hll in Hl as (_ & H1 & H2). done.
Qed.

(** ** The arrays of the executors *)

Notation axis_of := (fun x : DataDesc => get_batch_axis (desc_layout x)).

Lemma batch_axis_range l : -1 <= get_batch_axis l.
Proof. destruct l as [s|]; cbn; [|lia]. unfold str_find. destruct (String.index 0 _ s); lia. Qed.

(** The description of the slice of an input. *)
Definition cut_desc (sl : Z * Z) (x : DataDesc * Z) (d : DataDesc) : Prop :=
  desc_name d = desc_name x.1 /\
  desc_shape d = if 0 <=? x.2 then <[Z.to_nat x.2 := sl.2 - sl.1]> (desc_shape x.1) else desc_shape x.1.

Lemma sliced_shape_ok (g : group F) l i axes l' sl : slice_of g i = Ok sl -> _sliced_shape g l i axes = Ok l' -> Forall2 (cut_desc sl) (zip l axes) l'.
Proof.
  intros Hsl. unfold _sliced_shape. generalize (zip l axes) as z. intros z. revert l'. induction z as [|[d axis] z IH]; intros l' E; cbn in E.
  { injection E as <-. constructor. }
  apply bind_ok in E as (y & Ey & E). apply bind_ok in E as (l2 & E2 & [= <-]). constructor; [|by apply IH].
  apply bind_ok in Ey as (s & Es & [= <-]). split; [done|]. cbn [fst snd desc_shape]. destruct (Z.leb_spec 0 axis) as [Ha|Ha]; [|by injection Es].
  rewrite Hsl in Es. cbn [mbind result_bind] in Es. unfold py_setitem in Es. rewrite (proj2 (Z.ltb_ge axis 0)) in Es by lia.
  destruct (_ || _); [done|]. by injection Es as <-.
Qed.

Lemma cut_names sl l : forall l', Forall2 (cut_desc sl) (zip l (map axis_of l)) l' -> map desc_name l' = map desc_name l.
Proof.
  induction l as [|x l IH]; intros l' HF; cbn in HF.
  - apply Forall2_nil_inv_l in HF as ->. done.
  - apply Forall2_cons_inv_l in HF as (d & k & [Hd _] & HF & ->). cbn. f_equal; [exact Hd|]. by apply IH.
Qed.

Lemma input_shapes_lookup l d : NoDup (map desc_name l) -> d ∈ l -> input_shapes l !! desc_name d = Some (map Z.to_nat (desc_shape d)).
Proof.
  intros Hnd Hd. unfold input_shapes. apply elem_of_list_to_map_1.
  - rewrite fmap_reverse, reverse_Permutation, <- list_fmap_compose. exact Hnd.
  - apply elem_of_reverse. apply list_elem_of_fmap. by exists d.
Qed.

(** The shapes that are given for the inputs of executor [i]. *)
Lemma shapes_of_lookup g ds ls i sh sl x axis : shapes_of g ds ls i = Ok sh -> slice_of g i = Ok sl ->
  g_data_layouts g = map axis_of ds -> (forall l, ls = Some l -> g_label_layouts g = Some (map axis_of l)) ->
  NoDup (map desc_name (ds ++ default [] ls)) -> x ∈ ds ++ default [] ls -> axis = axis_of x ->
  exists d, cut_desc sl (x, axis) d /\ sh !! desc_name x = Some (map Z.to_nat (desc_shape d)).
Proof.
  intros Esh Hsl Hdl Hll Hnd Hx ->. unfold shapes_of in Esh. apply bind_ok in Esh as (a & Ea & Esh). apply bind_ok in Esh as (b & Eb & [= <-]).
  assert (Forall2 (cut_desc sl) (zip (ds ++ default [] ls) (map axis_of (ds ++ default [] ls))) (a ++ b)) as HF.
  { rewrite map_app, zip_with_app by by rewrite length_map. apply Forall2_app; [rewrite <- Hdl; by eapply sliced_shape_ok|].
    destruct ls as [l|]; [|injection Eb as <-; constructor]. cbn [default] in *. rewrite (Hll l eq_refl) in Eb. by eapply sliced_shape_ok. }
  apply list_elem_of_lookup in Hx as [k Hk].
  assert (zip (ds ++ default [] ls) (map axis_of (ds ++ default [] ls)) !! k = Some (x, axis_of x)) as Hz.
  { apply lookup_zip_with_Some. exists x, (axis_of x). split_and!; [done|done|]. by rewrite list_lookup_fmap, Hk. }
  destruct (Forall2_lookup_l _ _ _ _ _ HF Hz) as (d & Hd & Hc). exists d. split; [done|].
  destruct Hc as [Hname Hshape]. cbn [fst] in Hname. rewrite <- Hname. apply input_shapes_lookup; [|by eapply list_elem_of_lookup_2].
  by rewrite (cut_names _ _ _ HF).
Qed.

Lemma new_inputs_ok args names : forall m, new_inputs unset args names = Ok m ->
  (forall n s, n ∈ names -> args !! n = Some s -> m !! n = Some (mkNda s (unset n s))) /\ (forall n, is_Some (m !! n) -> n ∈ names).
Proof.
  unfold new_inputs. induction names as [|k names IH]; intros m E; cbn in E.
  { injection E as <-. split; [by intros n s Hn%elem_of_nil|]. cbn. intros n [a Ha]. by rewrite lookup_empty in Ha. }
  apply bind_ok in E as (l & E & [= <-]). apply bind_ok in E as (p & Ep & E). apply bind_ok in E as (l2 & El & [= <-]).
  apply bind_ok in Ep as (s & Es & [= <-]). unfold lib_get in Es. destruct (args !! k) as [s'|] eqn:Ek; [injection Es as ->|done].
  destruct (IH (list_to_map l2)) as [IH1 IH2]; [by rewrite El|]. cbn [list_to_map foldr fst snd uncurry]. split.
  - intros n t Hn Ht. destruct (decide (n = k)) as [->|Hne]; [rewrite lookup_insert_eq; congruence|].
    rewrite lookup_insert_ne by done. apply IH1; [set_solver|done].
  - intros n Hn. destruct (decide (n = k)) as [->|Hne]; [by left|]. rewrite lookup_insert_ne in Hn by done. right. by apply IH2.
Qed.

(** The inputs that a batch gives, as the arrays are paired with the descriptions. *)
Definition ins_of (xs : list arr) (l : list DataDesc) : list input := zip (zip xs (map desc_name l)) (map axis_of l).
Definition matches (x : arr) (d : DataDesc) : Prop := wf_nda x /\ map Z.of_nat (a_shape x) = desc_shape d.

Lemma inputs_elem xs l src name axis : Forall2 matches xs l -> (src, name, axis) ∈ ins_of xs l ->
  exists d, d ∈ l /\ name = desc_name d /\ axis = axis_of d /\ matches src d.
Proof.
  unfold ins_of. induction 1 as [|x d xs l Hm _ IH]; cbn; [by intros ?%elem_of_nil|]. rewrite elem_of_cons. intros [[= -> -> ->]|Hin].
  - exists d. split_and!; [by left|done|done|done].
  - destruct (IH Hin) as (d' & Hd & ?). exists d'. split; [by right|done].
Qed.

Lemma ins_names xs l : length xs = length l -> map (fun x : input => x.1.2) (ins_of xs l) = map desc_name l.
Proof.
  unfold ins_of. revert xs. induction l as [|d l IH]; intros [|x xs] Hl; try done. cbn. f_equal. apply IH. by injection Hl.
Qed.

Lemma bound_input (sym : symbol F) `{!InferLaws sym} workload ds ls params g X j x sls sl n d src :
  bound sym workload ds ls params g X -> X !! j = Some x -> g_slices g = Some sls -> sls !! j = Some sl -> in_batch n sl ->
  NoDup (map desc_name (ds ++ default [] ls)) -> d ∈ ds ++ default [] ls -> desc_name d ∉ params -> matches src d ->
  exists dst, e_inputs x.1 !! desc_name d = Some dst /\ a_shape dst = a_shape (cut n sl (axis_of d) src).
Proof.
  intros Hb Hx Hs Hsl (H1 & H2 & H3) Hnd Hd Hp [Hwf Hm]. destruct (bd_exec _ _ _ _ _ _ _ Hb _ _ Hx) as (sh & Esh & Ebind).
  assert (slice_of g j = Ok sl) as Hj by (unfold slice_of; rewrite Hs; by apply py_index_lookup).
  destruct (shapes_of_lookup _ _ _ _ _ _ d _ Esh Hj (bd_dl _ _ _ _ _ _ _ Hb) (bd_ll _ _ _ _ _ _ _ Hb) Hnd Hd eq_refl) as (d' & [_ Hshape] & Hlook).
  unfold simple_bind in Ebind. apply bind_ok in Ebind as ([[args auxs] outs] & Einf & Ebind). apply bind_ok in Ebind as (inputs & Ein & Ebind).
  apply bind_ok in Ebind as (igrads & _ & Ebind). apply bind_ok in Ebind as (dev & _ & [= <-]). cbn [fst e_inputs].
  assert (desc_name d ∈ s_arguments sym) as Harg by (apply (bd_names _ _ _ _ _ _ _ Hb); destruct ls; cbn in Hd; set_solver).
  rewrite (bd_symbol _ _ _ _ _ _ _ Hb) in Einf. pose proof (infer_given _ _ _ _ _ _ Einf Harg Hlook) as Hargs.
  destruct (new_inputs_ok _ _ _ Ein) as [Hin _]. eexists. split.
  - apply Hin; [|exact Hargs]. unfold own_inputs. rewrite (bd_symbol _ _ _ _ _ _ _ Hb). apply list_elem_of_filter. split; [|done].
    unfold is_param. rewrite (bd_params _ _ _ _ _ _ _ Hb). by apply bool_decide_eq_false_2.
  - cbn [a_shape]. cbn [fst snd] in Hshape. rewrite Hshape, <- Hm. unfold cut. destruct (0 <=? axis_of d).
    + rewrite (list_fmap_insert Z.to_nat), piece_shape. f_equal; [lia|]. rewrite map_map. rewrite (map_ext _ id) by (intros; apply Nat2Z.id). apply map_id.
    + rewrite map_map. rewrite (map_ext _ id) by (intros; apply Nat2Z.id). apply map_id.
Qed.

(** ** Forward *)

(** All inputs of a batch; labels are loaded when label shapes were bound. *)
Definition batch_inputs (b : mbatch F) (ds : list DataDesc) (ls : option (list DataDesc)) : list input :=
  ins_of (mb_data b) ds ++ match ls with Some l => ins_of (mb_label b) l | None => [] end.
Definition batch_matches (b : mbatch F) (ds : list DataDesc) (ls : option (list DataDesc)) : Prop :=
  Forall2 matches (mb_data b) ds /\ match ls with Some l => Forall2 matches (mb_label b) l | None => True end.

Lemma batch_inputs_elem b ds ls src name axis : batch_matches b ds ls -> (src, name, axis) ∈ batch_inputs b ds ls ->
  exists d, d ∈ ds ++ default [] ls /\ name = desc_name d /\ axis = axis_of d /\ matches src d.
Proof.
  intros [H1 H2] Hin. unfold batch_inputs in Hin. apply elem_of_app in Hin as [Hin|Hin].
  - destruct (inputs_elem _ _ _ _ _ H1 Hin) as (d & Hd & ?). exists d. split; [set_solver|done].
  - destruct ls as [l|]; [|by apply elem_of_nil in Hin]. destruct (inputs_elem _ _ _ _ _ H2 Hin) as (d & Hd & ?). exists d. split; [set_solver|done].
Qed.

Lemma batch_inputs_names b ds ls : batch_matches b ds ls -> map (fun x : input => x.1.2) (batch_inputs b ds ls) = map desc_name (ds ++ default [] ls).
Proof.
  intros [H1 H2]. unfold batch_inputs. rewrite map_app, map_app, ins_names by by eapply Forall2_length. f_equal.
  destruct ls as [l|]; [|done]. cbn [default]. apply ins_names. by eapply Forall2_length.
Qed.

Lemma forward_unfold sym workload ds ls params g X b tr s s1 : bound sym workload ds ls params g X -> batch_matches b ds ls ->
  g_data_shapes s.1 = ds -> g_label_shapes s.1 = ls -> g_data_layouts s.1 = g_data_layouts g -> g_label_layouts s.1 = g_label_layouts g ->
  forM load_one (batch_inputs b ds ls) s = (Ok tt, s1) ->
  group_forward (OneBatch b) (Some tr) s = forM (exec_forward tr) (seq 0 (length (g_execs s.1))) s1.
Proof.
  intros Hb [Hm Hml] Hds Hls Hdl Hll E. unfold batch_inputs in E. rewrite forM_app in E. unfold group_forward. rewrite bind_get.
  rewrite Hds, Hls, Hdl, Hll, (bd_dl _ _ _ _ _ _ _ Hb). rewrite bind_M. cbn [load_inputs]. unfold load_general. fold (ins_of (mb_data b) ds).
  destruct (forM load_one (ins_of (mb_data b) ds) s) as [[[]|e] s']; [|done]. rewrite bind_M. destruct ls as [l|]; cbn [default] in *.
  - rewrite bind_M. unfold lift, has_label. destruct (bd_agree_l _ _ _ _ _ _ _ Hb l eq_refl) as [Hne _].
    assert (length (mb_label b) <> 0)%nat as Hlen by (rewrite (Forall2_length _ _ _ Hml); by destruct l).
    rewrite (proj2 (Nat.eqb_neq _ _) Hlen). cbn [negb load_inputs]. unfold load_general.
    rewrite (bd_ll _ _ _ _ _ _ _ Hb l eq_refl). cbn [default]. unfold id at 1. fold (ins_of (mb_label b) l). by rewrite E.
  - injection E as ->. done.
Qed.

Lemma chain_in_batch n l : forall a, 0 <= a -> chain a (Z.of_nat n) l -> forall p, p ∈ l -> in_batch n p.
Proof.
  induction l as [|[x y] l IH]; intros a Ha Hc p Hp; [by apply elem_of_nil in Hp|]. cbn in Hc. destruct Hc as (-> & Hlt & Hc).
  apply elem_of_cons in Hp as [->|Hp]; [|eapply IH; [|done|done]; lia].
  assert (y <= Z.of_nat n) as Hy; [|done]. clear -Hc. revert y Hc. induction l as [|[x z] l IH]; intros y Hc; cbn in Hc; [lia|].
  destruct Hc as (-> & ? & Hc). apply IH in Hc. lia.
Qed.

(** A symbol without other inputs than those of the batch. *)
Record fed (sym : symbol F) (ds : list DataDesc) (ls : option (list DataDesc)) (params : list string) : Prop := {
  fed_names : NoDup (map desc_name (ds ++ default [] ls));
  fed_params : forall d, d ∈ ds ++ default [] ls -> desc_name d ∉ params;
  fed_all : forall k, k ∈ s_arguments sym -> k ∉ params -> k ∈ map desc_name (ds ++ default [] ls);
}.

Lemma bound_dom sym workload ds ls params g X j x k : bound sym workload ds ls params g X -> fed sym ds ls params -> X !! j = Some x ->
  is_Some (e_inputs x.1 !! k) -> k ∈ map desc_name (ds ++ default [] ls).
Proof.
  intros Hb Hf Hx Hk. destruct (bd_exec _ _ _ _ _ _ _ Hb _ _ Hx) as (sh & _ & Ebind).
  unfold simple_bind in Ebind. apply bind_ok in Ebind as ([[args auxs] outs] & _ & Ebind). apply bind_ok in Ebind as (inputs & Ein & Ebind).
  apply bind_ok in Ebind as (igrads & _ & Ebind). apply bind_ok in Ebind as (dev & _ & [= <-]). cbn [fst e_inputs] in Hk.
  apply (proj2 (new_inputs_ok _ _ _ Ein)) in Hk. unfold own_inputs in Hk. apply list_elem_of_filter in Hk as [Hp Hk].
  unfold is_param in Hp. rewrite (bd_params _ _ _ _ _ _ _ Hb) in Hp. apply bool_decide_eq_false_1 in Hp. rewrite (bd_symbol _ _ _ _ _ _ _ Hb) in Hk.
  by apply (fed_all _ _ _ _ Hf).
Qed.

Lemma zip_axis_elem d l : d ∈ l -> (d, axis_of d) ∈ zip l (map axis_of l).
Proof. induction 1 as [|x y l _ IH]; cbn; [by left|by right]. Qed.

Lemma bound_rows sym workload ds ls params g X n d src : bound sym workload ds ls params g X -> g_batch_size g = Some (Z.of_nat n) ->
  d ∈ ds ++ default [] ls -> matches src d -> has_rows n (axis_of d) src.
Proof.
  intros Hb Hn Hd [Hwf Hm]. split; [done|]. intros Ha.
  assert (agrees g (d, axis_of d)) as Hag.
  { apply elem_of_app in Hd as [Hd|Hd].
    - pose proof (bd_agree _ _ _ _ _ _ _ Hb) as Hall. rewrite (bd_dl _ _ _ _ _ _ _ Hb) in Hall. rewrite Forall_forall in Hall. by apply Hall, zip_axis_elem.
    - destruct ls as [l|]; [|by apply elem_of_nil in Hd]. destruct (bd_agree_l _ _ _ _ _ _ _ Hb l eq_refl) as [_ Hall]. rewrite Forall_forall in Hall. by apply Hall, zip_axis_elem. }
  destruct Hag as (m & Hm' & Hi); [cbn; lia|]. rewrite Hn in Hm'. injection Hm' as <-. cbn [fst snd] in Hi. rewrite <- Hm in Hi.
  rewrite py_index_nonneg in Hi by done. rewrite list_lookup_fmap in Hi. destruct (a_shape src !! Z.to_nat (axis_of d)) as [k|]; [|done].
  cbn in Hi. injection Hi as Hi. f_equal. lia.
Qed.

(** The slots of a bound group accept the inputs of a batch. *)
Lemma bound_slots (sym : symbol F) `{!InferLaws sym} workload ds ls params g X n sls b (devs : list (device F)) :
  bound sym workload ds ls params g X -> fed sym ds ls params -> g_batch_size g = Some (Z.of_nat n) -> g_slices g = Some sls ->
  chain 0 (Z.of_nat n) sls -> batch_matches b ds ls -> slots_ok n sls (batch_inputs b ds ls) (zip (map fst X) devs).
Proof.
  intros Hb Hf Hn Hs Hc Hm i x sl Hx Hsl. apply lookup_zip_with_Some in Hx as (e & d & -> & He & Hd). cbn [fst].
  rewrite list_lookup_fmap in He. apply fmap_Some in He as (x & Hx & ->).
  assert (in_batch n sl) as Hsb by (eapply chain_in_batch; [|done|by eapply list_elem_of_lookup_2]; lia).
  split; [done|]. intros src name axis Hin. destruct (batch_inputs_elem _ _ _ _ _ _ Hm Hin) as (d' & Hd' & -> & -> & Hmat).
  split; [by eapply bound_rows|]. eapply bound_input; try done; [by apply Hf|by apply Hf].
Qed.

(** What a slot holds after the inputs were loaded and the executor ran. *)
Lemma slot_outputs sym workload ds ls params g X n b tr P A i x d sl :
  bound sym workload ds ls params g X -> fed sym ds ls params -> batch_matches b ds ls -> batchwise g tr n (batch_inputs b ds ls) P A ->
  X !! i = Some x -> in_batch n sl -> d_args d = P -> d_aux d = A ->
  e_outputs (run_exec g tr (put_inputs n sl (batch_inputs b ds ls) x.1, d)).1 =
    zip_with (cut n sl) (g_output_layouts g) (s_forward sym tr (whole_inputs (batch_inputs b ds ls) ∪ P) A).1.
Proof.
  intros Hb Hf Hm Hbw Hx Hsl HP HA. unfold run_exec. cbn [fst snd]. rewrite put_inputs_inputs by (rewrite batch_inputs_names by done; apply Hf).
  assert (cut_inputs n sl (batch_inputs b ds ls) ∪ e_inputs x.1 = cut_inputs n sl (batch_inputs b ds ls)) as ->.
  { apply map_eq. intros k. rewrite lookup_union. destruct (e_inputs x.1 !! k) as [v|] eqn:Ev; [|by rewrite (right_id_L None (∪))].
    assert (k ∈ map desc_name (ds ++ default [] ls)) as Hk by (eapply bound_dom; [done|done|done|by rewrite Ev]).
    rewrite <- (batch_inputs_names b ds ls Hm) in Hk. apply list_elem_of_fmap in Hk as ([[src name] axis] & -> & Hin). cbn [fst snd].
    destruct (cut_inputs n sl (batch_inputs b ds ls) !! name) as [w|] eqn:Ew; [done|]. unfold cut_inputs in Ew. apply not_elem_of_list_to_map in Ew.
    exfalso. apply Ew. rewrite map_map. apply list_elem_of_fmap. by exists (src, name, axis). }
  rewrite HP, HA, (bd_symbol _ _ _ _ _ _ _ Hb) in *. pose proof (bw_slice _ _ _ _ _ _ Hbw sl Hsl) as Hbs. rewrite (bd_symbol _ _ _ _ _ _ _ Hb) in Hbs.
  destruct (s_forward sym tr (cut_inputs n sl (batch_inputs b ds ls) ∪ P) A) as [outs aux] eqn:Eo. exact Hbs.
Qed.

(** The shapes that are reported are those of the merged outputs. *)
Lemma output_shapes_cut (names : list string) layouts outs n sl N : Forall2 (has_rows n) layouts outs -> N = Z.of_nat n -> length names = length layouts ->
  mapR (fun '(key, out, axis) =>
          let s := map Z.of_nat (a_shape out) in
          s ← (if 0 <=? axis then py_setitem s axis N else Ok s); Ok (key, s))
       (zip (zip names (zip_with (cut n sl) layouts outs)) layouts)
    = Ok (zip names (map (fun a : arr => map Z.of_nat (a_shape a)) outs)).
Proof.
  intros HF -> . revert names. induction HF as [|axis a layouts outs [_ Hn] _ IH]; intros [|name names] Hl; try done. cbn [zip_with mapR map].
  assert ((if 0 <=? axis then py_setitem (map Z.of_nat (a_shape (cut n sl axis a))) axis (Z.of_nat n) else Ok (map Z.of_nat (a_shape (cut n sl axis a))))
    = Ok (map Z.of_nat (a_shape a))) as ->.
  { unfold cut. destruct (Z.leb_spec 0 axis) as [Ha|Ha]; [|done]. specialize (Hn Ha). pose proof (lookup_lt_Some _ _ _ Hn) as Hlt.
    unfold py_setitem. rewrite (proj2 (Z.ltb_ge axis 0)), piece_shape by lia. rewrite (list_fmap_insert Z.of_nat).
    rewrite (proj2 (Z.leb_gt _ _)) by (unfold py_len; rewrite length_insert, length_map; lia). cbn [orb].
    rewrite (proj2 (Z.ltb_ge axis 0)) by lia. cbn [orb].
    rewrite list_insert_insert_eq, list_insert_id; [done|]. by rewrite list_lookup_fmap, Hn. }
  cbn [mbind result_bind]. rewrite IH by by injection Hl. done.
Qed.

(** C4: A group that was bound to several devices with equal parameters gives for a batch the
    outputs that the symbol computes on the whole batch, when the symbol works along the batch
    axes; and [get_output_shapes] tells their shapes. *)
Theorem forward_is_data_parallel (sym : symbol F) `{!InferLaws sym} workload ds ls params training ing fixed req states g devs0 n b tr P A devs :
  group_new unset sym workload ds ls params training ing None fixed req states = Ok (g, devs0) ->
  workload <> [] -> fed sym ds ls params -> g_batch_size g = Some (Z.of_nat n) -> batch_matches b ds ls ->
  length devs = length devs0 -> Forall (fun d => d_args d = P /\ d_aux d = A) devs ->
  batchwise g tr n (batch_inputs b ds ls) P A ->
  let outs := (s_forward sym tr (whole_inputs (batch_inputs b ds ls) ∪ P) A).1 in
  exists s, group_forward (OneBatch b) (Some tr) (g, devs) = (Ok tt, s) /\ group_get_outputs s.1 = Ok outs /\
    get_output_shapes s.1 = Ok (zip (s_outputs sym) (map (fun a => map Z.of_nat (a_shape a)) outs)).
Proof.
  intros Hnew Hw Hf Hn Hm Hlen Hdev Hbw outs. destruct (group_new_bound _ _ _ _ _ _ _ _ _ _ _ Hnew) as (g1 & X & [= -> ->] & Hb). clear Hnew.
  rewrite length_map in Hlen. set (Y := zip (map fst X) devs). assert (length Y = length X) as HlY by (unfold Y; rewrite length_zip_with, length_map; lia).
  assert ((set_execs (map fst X) g1, devs) = st g1 Y) as Est.
  { unfold st, Y. rewrite fst_zip, snd_zip by (rewrite length_map; lia). done. }
  destruct (bd_split _ _ _ _ _ _ _ Hb _ Hn) as (sls & Hs & Hsplit). destruct (split_chain _ _ _ (Nat2Z.is_nonneg n) Hsplit) as (Hls & Hc & _).
  assert (length sls = length Y) as HlS by (rewrite HlY, Hls; symmetry; apply Hb).
  pose proof (bound_slots sym _ _ _ _ _ _ _ _ b devs Hb Hf Hn Hs Hc Hm) as Hok. fold Y in Hok.
  assert (sls <> []) as Hsne by (intros ->; destruct workload; done).
  assert (batchwise g1 tr n (batch_inputs b ds ls) P A) as Hbw1 by (destruct Hbw; by split).
  pose proof (bw_outs _ _ _ _ _ _ Hbw1) as Houts. rewrite (bd_symbol _ _ _ _ _ _ _ Hb) in Houts. fold outs in Houts.
  pose proof (load_all_st g1 n sls (batch_inputs b ds ls) Hs ltac:(rewrite batch_inputs_names by done; apply Hf) Y HlS Hok) as Eload.
  set (Z0 := imap (fun i x => (put_inputs n (default (0, 0) (sls !! i)) (batch_inputs b ds ls) x.1, x.2)) Y) in Eload.
  exists (st g1 (imap (fun _ => run_exec g1 tr) Z0)).
  assert (forall i x sl, imap (fun _ => run_exec g1 tr) Z0 !! i = Some x -> sls !! i = Some sl -> e_outputs x.1 = zip_with (cut n sl) (g_output_layouts g1) outs) as Hslot.
  { intros i x sl Hx Hsl. unfold Z0 in Hx. rewrite !list_lookup_imap, Hsl in Hx. apply fmap_Some in Hx as (z & Hz & ->).
    apply fmap_Some in Hz as ([e d] & Hy & ->). unfold Y in Hy. apply lookup_zip_with_Some in Hy as (e' & d' & [= -> ->] & He & Hd).
    rewrite list_lookup_fmap in He. apply fmap_Some in He as (x0 & Hx0 & ->). cbn [default fst snd].
    destruct (Forall_lookup_1 _ _ _ _ Hdev Hd) as [HP HA].
    eapply slot_outputs; [done|done|done|exact Hbw1|exact Hx0| |done|done].
    eapply chain_in_batch; [|exact Hc|by eapply list_elem_of_lookup_2]. lia. }
  split_and!.
  - rewrite Est, (forward_unfold sym workload ds ls params g1 X b tr (st g1 Y) _ Hb Hm) by (try exact Eload; cbn; apply Hb || done).
    cbn [st fst set_execs g_execs]. rewrite length_map. replace (length Y) with (length Z0) by apply length_imap. apply forward_all_st.
  - unfold group_get_outputs. cbn [st fst]. change (g_symbol (set_execs _ g1)) with (g_symbol g1).
    rewrite (raw_outputs_cut g1 _ n sls outs); [|by rewrite length_imap; unfold Z0; rewrite length_imap|by rewrite (bd_ol _ _ _ _ _ _ _ Hb), (bd_symbol _ _ _ _ _ _ _ Hb), length_map|by rewrite (Forall2_length _ _ _ Houts)|done].
    cbn [mbind result_bind]. by apply merge_cut.
  - destruct (lookup_lt_is_Some_2 (imap (fun _ => run_exec g1 tr) Z0) 0) as [x Hx];
      [rewrite length_imap; unfold Z0; rewrite length_imap, <- HlS; destruct sls; [done|cbn; lia]|].
    destruct sls as [|sl sls']; [done|]. unfold get_output_shapes. cbn [st fst set_execs g_execs g_symbol g_output_layouts g_batch_size].
    assert (py_index (map fst (imap (fun _ => run_exec g1 tr) Z0)) 0 = Ok x.1) as ->
      by (apply (py_index_lookup _ 0 x.1); by rewrite list_lookup_fmap, Hx). cbn [mbind result_bind].
    rewrite (Hslot 0%nat x sl Hx eq_refl), (Hn : g_batch_size g1 = _), (bd_symbol _ _ _ _ _ _ _ Hb).
    by apply output_shapes_cut; [| |rewrite (bd_ol _ _ _ _ _ _ _ Hb), length_map].
Qed.
End Parallel.

(** ** Two devices *)

Section Example.
#[local] Existing Instance Q_Float.

(** A symbol that scales its data, whose batches lie on the second axis, by a weight. *)
Definition scale_by (args aux : gmap string (nda Q)) : list (nda Q) * gmap string (nda Q) :=
  match args !! "data"%string, args !! "w"%string with
  | Some d, Some w => ([mkNda (a_shape d) (map (Qmult (default 0%Q (head (a_flat w)))) (a_flat d))], ∅)
  | _, _ => ([], ∅)
  end.
Definition scale_symbol : symbol Q := {|
  s_arguments := ["data"; "w"]%string; s_auxiliary := []; s_outputs := ["out"%string]; s_layout _ := Some "TN"%string;
  s_infer shapes := Ok (shapes ∪ {["w"%string := [1%nat]]}, ∅, [default [] (shapes !! "data"%string)]);
  s_forward _ := scale_by; s_backward _ _ _ := ∅ |}.
#[local] Instance scale_infer : InferLaws scale_symbol.
Proof. split. intros shapes args auxs outs n s [= <- <- <-] _ Hn. rewrite lookup_union, Hn. by destruct ({["w"%string := [1%nat]]} !! n). Qed.

Definition ex_desc : DataDesc := mkDesc "data" [2; 3] "float32" (Some "TN"%string).
Definition ex_new := group_new (fun _ s => replicate (size s) 0%Q) scale_symbol [1; 2] [ex_desc] None ["w"%string] false false None [] (GStr "write") [].
Definition ex_group : group Q * list (device Q) := match ex_new with Ok s => s | Raise _ => (mkGroup scale_symbol [] [] false false [] ∅ None None [] None None [] None [] [] None, []) end.
Definition ex_batch : mbatch Q := mkMBatch [mkNda [2; 3]%nat [1; 2; 3; 4; 5; 6]%Q] [] 0 None None None.
Definition ex_params : gmap string (nda Q) := {["w"%string := mkNda [1%nat] [10%Q]]}.

Lemma scale_run d : (scale_by (list_to_map [("data"%string, d)] ∪ ex_params) ∅).1 = [mkNda (a_shape d) (map (Qmult 10) (a_flat d))].
Proof. reflexivity. Qed.

Lemma scale_batchwise : batchwise ex_group.1 false 3 (batch_inputs ex_batch [ex_desc] None) ex_params ∅.
Proof.
  assert (g_symbol ex_group.1 = scale_symbol) as Hs by (vm_compute; reflexivity).
  assert (g_output_layouts ex_group.1 = [1]) as Hl by (vm_compute; reflexivity). split; rewrite Hs, Hl.
  - constructor; [|constructor]. split; [reflexivity|]. intros _. reflexivity.
  - intros sl Hsl. set (x := mkNda [2; 3]%nat [1; 2; 3; 4; 5; 6]%Q).
    change (s_forward scale_symbol false) with scale_by. change (batch_inputs ex_batch [ex_desc] None) with [(x, "data"%string, 1)].
    unfold whole_inputs, cut_inputs. cbn [map]. rewrite !scale_run. cbn [zip_with]. f_equal. unfold cut. change (0 <=? 1) with true. cbn beta iota. by rewrite piece_map.
Qed.

Lemma ex_group_new : ex_new = Ok (ex_group.1, ex_group.2).
Proof. vm_compute. reflexivity. Qed.
Lemma ex_group_size : g_batch_size ex_group.1 = Some 3 /\ length ex_group.2 = 2%nat.
Proof. vm_compute. done. Qed.
Lemma ex_outputs : (s_forward scale_symbol false (whole_inputs (batch_inputs ex_batch [ex_desc] None) ∪ ex_params) ∅).1 = [mkNda [2; 3]%nat [10; 20; 30; 40; 50; 60]%Q].
Proof. vm_compute. reflexivity. Qed.

Lemma forward_is_data_parallel_witness : exists s, group_forward (OneBatch ex_batch) (Some false) (ex_group.1, [mkDevice ex_params ∅ ∅; mkDevice ex_params ∅ ∅]) = (Ok tt, s) /\
  group_get_outputs s.1 = Ok [mkNda [2; 3]%nat [10; 20; 30; 40; 50; 60]%Q] /\ get_output_shapes s.1 = Ok [("out"%string, [2; 3])].
Proof.
  assert (fed scale_symbol [ex_desc] None ["w"%string]) as Hf by (split; cbn; [apply NoDup_singleton|set_solver|set_solver]).
  assert (batch_matches ex_batch [ex_desc] None) as Hm by (split; [|done]; constructor; [|constructor]; by split).
  pose proof (forward_is_data_parallel (fun _ s => replicate (size s) 0%Q) scale_symbol [1; 2] [ex_desc] None ["w"%string] false false [] (GStr "write") []
    ex_group.1 ex_group.2 3 ex_batch false ex_params ∅ [mkDevice ex_params ∅ ∅; mkDevice ex_params ∅ ∅] ex_group_new ltac:(done) Hf (proj1 ex_group_size) Hm
    (eq_sym (proj2 ex_group_size)) ltac:(by repeat constructor) scale_batchwise) as T.
  cbv zeta in T. rewrite ex_outputs in T. exact T.
Defined.
End Example.
