(* ===== verification/Vocab.v ===== *)
(** * Vocabularies

    [contrib/text/vocab.py] and [contrib/text/utils.py]: counting tokens, indexing
    the unknown token, the reserved tokens and the frequent tokens of a counter, and
    the conversions between tokens and indices.  Tokens are any type with decidable
    equality and Python's [<]; the delimiters of the tokenizer are single literal
    characters, as the defaults are. *)

From Stdlib Require Import Ascii.
From S2P Require Import Prelude.

Section Vocabulary.
Context {Tok : Type} `{Countable Tok} (tok_ltb : Tok -> Tok -> bool).

(** [collections.Counter]: tokens with their counts, in order of first occurrence. *)
Notation Counter := (list (Tok * Z)).

Fixpoint count (t : Tok) (c : Counter) : Counter :=
  match c with
  | [] => [(t, 1)]
  | (u, n) :: c => if decide (u = t) then (u, n + 1) :: c else (u, n) :: count t c
  end.
Definition counter_update (c : Counter) (ts : list Tok) : Counter := fold_left (fun c t => count t c) ts c.

(** ** [Vocabulary] *)

Record Vocabulary := mkVocab {
  v_unknown : Tok;
  v_reserved : option (list Tok);
  v_idx_to_token : list Tok;
  v_token_to_idx : gmap Tok Z;
}.

Definition _index_unknown_and_reserved_tokens (unknown : Tok) (reserved : option (list Tok)) : Vocabulary :=
  let toks := unknown :: default [] reserved in
  mkVocab unknown reserved toks
    (list_to_map (reverse (imap (fun i t => (t, Z.of_nat i)) toks))).

(** The loop over the sorted counter. *)
Fixpoint index_loop (special : gset Tok) (min_freq cap : Z) (items : Counter) (v : Vocabulary) : Vocabulary :=
  match items with
  | [] => v
  | (t, f) :: items =>
      if (f <? min_freq) || (py_len (v_idx_to_token v) =? cap) then v
      else if bool_decide (t ∈ special) then index_loop special min_freq cap items v
      else
        let toks := v_idx_to_token v ++ [t] in
        index_loop special min_freq cap items
          (mkVocab (v_unknown v) (v_reserved v) toks (<[t := py_len toks - 1]> (v_token_to_idx v)))
  end.

Definition sort_counter (c : Counter) : Counter :=
  py_sort (fun y x => x.2 <? y.2) (py_sort (fun y x => tok_ltb y.1 x.1) c).

Definition _index_counter_keys (c : Counter) (unknown : Tok) (reserved : option (list Tok))
  (most_freq_count : option Z) (min_freq : Z) (v : Vocabulary) : Vocabulary :=
  let special := {[unknown]} ∪ list_to_set (default [] reserved) : gset Tok in
  let cap := Z.of_nat (size special) + default (py_len c) most_freq_count in
  index_loop special min_freq cap (sort_counter c) v.

Definition Vocabulary_init (c : option Counter) (most_freq_count : option Z) (min_freq : Z) (unknown : Tok)
  (reserved : option (list Tok)) : result Vocabulary :=
  _ ← py_assert (0 <? min_freq);
  _ ← match reserved with
      | None => Ok tt
      | Some r =>
          let s := list_to_set r : gset Tok in
          _ ← py_assert (bool_decide (unknown ∉ s));
          py_assert (Nat.eqb (size s) (length r))
      end;
  let v := _index_unknown_and_reserved_tokens unknown reserved in
  Ok (match c with
      | None => v
      | Some c => _index_counter_keys c unknown reserved most_freq_count min_freq v
      end).

Definition Vocabulary_len (v : Vocabulary) : Z := py_len (v_idx_to_token v).

Definition UNKNOWN_IDX : Z := 0.

(** [to_indices] and [to_tokens] of a list (a single argument is a list of one whose
    result is taken out again). *)
Definition to_indices (v : Vocabulary) (tokens : list Tok) : list Z :=
  map (fun t => default UNKNOWN_IDX (v_token_to_idx v !! t)) tokens.

Definition to_tokens (v : Vocabulary) (indices : list Z) : result (list Tok) :=
  let max_idx := py_len (v_idx_to_token v) - 1 in
  mapR (fun i => if max_idx <? i then Raise ValueError else py_index (v_idx_to_token v) i) indices.

(** ** The index is a bijection *)

(** Each token is indexed once, at the position it has in the list. *)
Definition vocab_inv (v : Vocabulary) : Prop :=
  NoDup (v_idx_to_token v) /\
  (forall t i, v_token_to_idx v !! t = Some i <-> 0 <= i /\ v_idx_to_token v !! Z.to_nat i = Some t) /\
  v_idx_to_token v !! 0%nat = Some (v_unknown v).

Lemma index_loop_inv special min_freq cap items : forall v,
  vocab_inv v -> (forall t, t ∈ v_idx_to_token v -> t ∈ special \/ t ∉ map fst items) ->
  NoDup (map fst items) -> vocab_inv (index_loop special min_freq cap items v).
Proof.
  induction items as [|[t f] items IH]; intros v (Hnd & Hbij & H0) Hnew Hit; [done|]. cbn [index_loop map fst] in *.
  apply NoDup_cons in Hit as [Ht Hit]. destruct (_ || _); [done|].
  case_bool_decide as Hs; [apply IH; [done| |done]|].
  { intros u Hu. destruct (Hnew u Hu) as [|Hn]; [by left|right]. set_solver. }
  assert (t ∉ v_idx_to_token v) as Hnt by (intros Hin; destruct (Hnew t Hin); set_solver).
  apply IH; [| |done].
  - split_and!; cbn.
    + apply NoDup_app. split_and!; [done|set_solver|apply NoDup_singleton].
    + intros u i. rewrite py_len_app, py_len_cons, py_len_nil.
      destruct (decide (u = t)) as [->|Hne].
      * rewrite lookup_insert_eq. split.
        -- intros [= <-]. pose proof (py_len_nonneg (v_idx_to_token v)). split; [lia|].
           rewrite lookup_app_r by (unfold py_len; lia). unfold py_len. by replace (_ - _)%nat with O by lia.
        -- intros [Hi Hl]. apply lookup_app_Some in Hl as [Hl|[Hge Hl]].
           { destruct Hnt. by eapply list_elem_of_lookup_2. }
           f_equal. apply lookup_lt_Some in Hl as Hlt. cbn in Hlt. unfold py_len. lia.
      * rewrite lookup_insert_ne by done. rewrite Hbij. split; intros [Hi Hl]; (split; [done|]).
        -- by apply lookup_app_l_Some.
        -- apply lookup_app_Some in Hl as [|[_ Hl]]; [done|].
           apply list_lookup_singleton_Some in Hl as [_ ?]. congruence.
    + by apply lookup_app_l_Some.
  - cbn. intros u [Hu|Hu]%elem_of_app.
    + destruct (Hnew u Hu) as [|Hn]; [by left|right]. set_solver.
    + apply list_elem_of_singleton in Hu as ->. by right.
Qed.

Lemma initial_vocab_inv unknown reserved :
  NoDup (unknown :: default [] reserved) -> vocab_inv (_index_unknown_and_reserved_tokens unknown reserved).
Proof.
  intros Hnd. split_and!; [done| |done]. intros t i. cbn [v_token_to_idx v_idx_to_token _index_unknown_and_reserved_tokens].
  generalize dependent (unknown :: default [] reserved). intros l Hnd.
  assert ((reverse (imap (fun i t => (t, Z.of_nat i)) l)).*1 ≡ₚ l) as Hp.
  { rewrite reverse_Permutation, fmap_imap. change (imap (const id) l ≡ₚ l). by rewrite imap_const, list_fmap_id. }
  rewrite <- elem_of_list_to_map by (by rewrite Hp).
  rewrite elem_of_reverse, elem_of_lookup_imap. split.
  - intros (j & u & [= -> ->] & Hl). rewrite Nat2Z.id. split; [lia|done].
  - intros [Hi Hl]. exists (Z.to_nat i), t. rewrite Z2Nat.id by done. done.
Qed.

(** What the checks of the constructor establish. *)
Lemma list_to_set_size_le (r : list Tok) : (size (list_to_set r : gset Tok) <= length r)%nat.
Proof.
  induction r as [|a r IH]; cbn; [by rewrite size_empty|].
  pose proof (size_union_alt ({[a]} : gset Tok) (list_to_set r)) as Hu. rewrite size_singleton in Hu.
  pose proof (subseteq_size ((list_to_set r : gset Tok) ∖ {[a]}) (list_to_set r) ltac:(set_solver)). lia.
Qed.

Lemma reserved_distinct (unknown : Tok) (r : list Tok) :
  unknown ∉ (list_to_set r : gset Tok) -> size (list_to_set r : gset Tok) = length r -> NoDup (unknown :: r).
Proof.
  intros Hu Hs. constructor; [set_solver|]. clear Hu. induction r as [|a r IH]; [constructor|].
  cbn in Hs. pose proof (list_to_set_size_le r). destruct (decide (a ∈ (list_to_set r : gset Tok))) as [Ha|Ha].
  - assert ({[a]} ∪ list_to_set r = (list_to_set r : gset Tok)) as Heq by set_solver. rewrite Heq in Hs. lia.
  - rewrite size_union, size_singleton in Hs by set_solver. constructor; [set_solver|apply IH; lia].
Qed.

Lemma init_inversion c mfc mf unknown reserved v :
  Vocabulary_init c mfc mf unknown reserved = Ok v ->
  0 < mf /\ NoDup (unknown :: default [] reserved) /\
  v = match c with
      | None => _index_unknown_and_reserved_tokens unknown reserved
      | Some c => _index_counter_keys c unknown reserved mfc mf (_index_unknown_and_reserved_tokens unknown reserved)
      end.
Proof.
  unfold Vocabulary_init, py_assert. destruct (Z.ltb_spec 0 mf) as [Hmf|]; [|done]. cbn.
  destruct reserved as [r|]; cbn.
  - case_bool_decide as Hu; [|done]. cbn. destruct (Nat.eqb_spec (size (list_to_set r : gset Tok)) (length r)) as [Hs|];
      [|done]. cbn. intros [= <-]. split_and!; [done|by apply reserved_distinct|done].
  - intros [= <-]. split_and!; [done|repeat constructor; set_solver|done].
Qed.

Lemma sort_counter_perm c : sort_counter c ≡ₚ c.
Proof. unfold sort_counter. by rewrite !py_sort_perm. Qed.

Lemma index_loop_unknown special mf cap items : forall v,
  v_unknown (index_loop special mf cap items v) = v_unknown v.
Proof.
  induction items as [|[t f] items IH]; intros v; [done|]. cbn. destruct (_ || _); [done|].
  case_bool_decide; by rewrite IH.
Qed.

Lemma counter_keys_inv c mfc mf unknown reserved :
  NoDup (unknown :: default [] reserved) -> NoDup (map fst c) ->
  vocab_inv (_index_counter_keys c unknown reserved mfc mf (_index_unknown_and_reserved_tokens unknown reserved)).
Proof.
  intros Hr Hc. apply index_loop_inv; [by apply initial_vocab_inv| |].
  - cbn. intros t Ht. left. set_solver.
  - by rewrite sort_counter_perm.
Qed.

(** *** Conversions *)

Lemma to_tokens_in v ks :
  (forall i, i ∈ ks -> 0 <= i < Vocabulary_len v) ->
  to_tokens v ks = Ok (map (fun i => default (v_unknown v) (v_idx_to_token v !! Z.to_nat i)) ks).
Proof.
  intros Hin. unfold to_tokens. apply mapR_ok. intros i Hi. specialize (Hin i Hi). unfold Vocabulary_len in Hin.
  rewrite (proj2 (Z.ltb_ge _ _)) by lia. unfold py_index. rewrite (proj2 (Z.ltb_ge i 0)) by lia. cbn.
  rewrite (proj2 (Z.ltb_ge i 0)) by lia.
  destruct (lookup_lt_is_Some_2 (v_idx_to_token v) (Z.to_nat i)) as [t ->]; [unfold py_len in *; lia|done].
Qed.

Lemma to_indices_bounds v ts i : vocab_inv v -> i ∈ to_indices v ts -> 0 <= i < Vocabulary_len v.
Proof.
  intros (_ & Hbij & H0) (t & <- & Ht)%list_elem_of_In%in_map_iff. unfold Vocabulary_len, py_len.
  destruct (v_token_to_idx v !! t) as [j|] eqn:Hj; cbn.
  - apply Hbij in Hj as [? ?%lookup_lt_Some]. lia.
  - apply lookup_lt_Some in H0. unfold UNKNOWN_IDX. lia.
Qed.

Lemma to_tokens_to_indices v ts : vocab_inv v ->
  to_tokens v (to_indices v ts) = Ok (map (fun t => if decide (t ∈ v_idx_to_token v) then t else v_unknown v) ts).
Proof.
  intros Hv. rewrite to_tokens_in by (intros; by eapply to_indices_bounds). destruct Hv as (_ & Hbij & H0).
  f_equal. unfold to_indices. rewrite map_map. apply map_ext. intros t.
  destruct (v_token_to_idx v !! t) as [j|] eqn:Hj; cbn.
  - apply Hbij in Hj as [? Hj]. rewrite Hj. rewrite decide_True; [done|by eapply list_elem_of_lookup_2].
  - change (Z.to_nat UNKNOWN_IDX) with 0%nat. rewrite H0, decide_False; [done|]. intros (j & Hl)%list_elem_of_lookup.
    assert (v_token_to_idx v !! t = Some (Z.of_nat j)) by (apply Hbij; rewrite Nat2Z.id; split; [lia|done]).
    congruence.
Qed.

Lemma to_indices_to_tokens v ks :
  vocab_inv v -> (forall i, i ∈ ks -> 0 <= i < Vocabulary_len v) ->
  exists ts, to_tokens v ks = Ok ts /\ to_indices v ts = ks.
Proof.
  intros (_ & Hbij & _) Hin. eexists. split; [by apply to_tokens_in|]. unfold to_indices. rewrite map_map.
  rewrite <- map_id. apply map_ext_in. intros i Hi%list_elem_of_In. specialize (Hin i Hi).
  destruct (lookup_lt_is_Some_2 (v_idx_to_token v) (Z.to_nat i)) as [t Ht];
    [unfold Vocabulary_len, py_len in *; lia|]. rewrite Ht. cbn.
  by rewrite (proj2 (Hbij t i) (conj (proj1 Hin) Ht)).
Qed.

Lemma to_tokens_too_large v ks i :
  Vocabulary_len v <= i -> (forall j, j ∈ ks -> 0 <= j < Vocabulary_len v) -> to_tokens v (ks ++ [i]) = Raise ValueError.
Proof.
  intros Hi. unfold to_tokens, Vocabulary_len in *. induction ks as [|j ks IH]; intros Hin.
  - cbn. by rewrite (proj2 (Z.ltb_lt _ _)) by lia.
  - cbn [app mapR]. rewrite IH by (intros; apply Hin; by right).
    destruct (_ <? j); [done|]. specialize (Hin j ltac:(left)). unfold py_index.
    rewrite (proj2 (Z.ltb_ge j 0)) by lia. cbn. rewrite (proj2 (Z.ltb_ge j 0)) by lia.
    destruct (lookup_lt_is_Some_2 (v_idx_to_token v) (Z.to_nat j)) as [t ->]; [unfold py_len in *; lia|done].
Qed.

(** Converting tokens to indices and back through a vocabulary gives the tokens
    themselves, those that are not indexed replaced by the unknown token; converting
    valid indices to tokens and back gives the indices; an index past the end raises
    [ValueError]. *)
Theorem vocabulary_round_trip c mfc mf unknown reserved v :
  Vocabulary_init c mfc mf unknown reserved = Ok v -> NoDup (map fst (default [] c)) ->
  (forall ts, to_tokens v (to_indices v ts) =
     Ok (map (fun t => if decide (t ∈ v_idx_to_token v) then t else unknown) ts)) /\
  (forall ks, (forall i, i ∈ ks -> 0 <= i < Vocabulary_len v) ->
     exists ts, to_tokens v ks = Ok ts /\ to_indices v ts = ks) /\
  (forall i, Vocabulary_len v <= i -> to_tokens v [i] = Raise ValueError).
Proof.
  intros (_ & Hr & Hv)%init_inversion Hc. assert (vocab_inv v) as Hinv.
  { subst v. destruct c; [by apply counter_keys_inv|by apply initial_vocab_inv]. }
  assert (v_unknown v = unknown) as <-.
  { subst v. destruct c; [apply index_loop_unknown|done]. }
  split_and!.
  - intros. by apply to_tokens_to_indices.
  - intros. by apply to_indices_to_tokens.
  - intros i Hi. apply (to_tokens_too_large v []); [done|set_solver].
Qed.

(** ** The order of the index *)

(** The order of indexing: by frequency, largest first, then by token. *)
Definition more_frequent (x y : Tok * Z) : Prop :=
  y.2 < x.2 \/ x.2 = y.2 /\ tok_ltb x.1 y.1 = true.

(** The keys of a counter that qualify. *)
Definition indexed_keys (special : list Tok) (min_freq : Z) (items : Counter) : list Tok :=
  map fst (filter (fun x => min_freq <= x.2 /\ x.1 ∉ special) items).

Section Order.
Context (tok_lt_trans : forall a b c, tok_ltb a b = true -> tok_ltb b c = true -> tok_ltb a c = true)
  (tok_lt_total : forall a b, a ≠ b -> tok_ltb a b = false -> tok_ltb b a = true).

Lemma more_frequent_trans : Transitive more_frequent.
Proof using tok_lt_trans.
  intros x y z [?|[? ?]] [?|[? ?]]; unfold more_frequent; try (left; lia). right. split; [lia|eauto].
Qed.

Lemma sort_by_token (c : Counter) : NoDup (map fst c) ->
  StronglySorted (fun x y => tok_ltb x.1 y.1 = true) (py_sort (fun y x => tok_ltb y.1 x.1) c).
Proof using tok_lt_trans tok_lt_total.
  induction c as [|x c IH]; intros Hnd; [constructor|]. apply NoDup_cons in Hnd as [Hx Hnd].
  rewrite py_sort_cons.
  apply insert_by_sorted; [intros ???; apply tok_lt_trans| |by apply IH].
  intros y Hy. rewrite py_sort_perm in Hy. destruct (tok_ltb y.1 x.1) eqn:Hlt; [done|].
  apply tok_lt_total; [|done]. intros Heq. apply Hx. rewrite <- Heq. by apply (list_elem_of_fmap_2 fst).
Qed.

(** The second sort keeps the order of the first among equal frequencies. *)
Lemma sort_by_frequency (c : Counter) : StronglySorted (fun x y => tok_ltb x.1 y.1 = true) c ->
  StronglySorted more_frequent (py_sort (fun y x => x.2 <? y.2) c).
Proof using tok_lt_trans.
  induction c as [|x c IH]; intros Hs; [constructor|]. apply StronglySorted_inv in Hs as [Hs Hx].
  rewrite py_sort_cons. apply insert_by_sorted; [apply more_frequent_trans| |by apply IH].
  intros y Hy. rewrite py_sort_perm in Hy. rewrite Forall_forall in Hx. specialize (Hx y Hy).
  unfold more_frequent. destruct (Z.ltb_spec x.2 y.2); [by left|].
  destruct (decide (x.2 = y.2)); [by right|left; lia].
Qed.

Lemma sort_counter_sorted (c : Counter) : NoDup (map fst c) -> StronglySorted more_frequent (sort_counter c).
Proof using tok_lt_trans tok_lt_total. intros. by apply sort_by_frequency, sort_by_token. Qed.
End Order.

Lemma indexed_keys_rare special mf items :
  Forall (fun x => x.2 < mf) items -> indexed_keys special mf items = [].
Proof.
  unfold indexed_keys. induction 1 as [|x items Hx _ IH]; [done|]. rewrite filter_cons_False by lia. done.
Qed.

Lemma index_loop_keys (special : gset Tok) specials mf cap items : forall v,
  (forall t, t ∈ special <-> t ∈ specials) -> StronglySorted more_frequent items -> py_len (v_idx_to_token v) <= cap ->
  v_idx_to_token (index_loop special mf cap items v) =
    v_idx_to_token v ++ take (Z.to_nat (cap - py_len (v_idx_to_token v))) (indexed_keys specials mf items).
Proof.
  induction items as [|[t f] items IH]; intros v Hsp Hs Hcap.
  { cbn. unfold indexed_keys. cbn. by rewrite take_nil, app_nil_r. }
  apply StronglySorted_inv in Hs as [Hs Hx]. cbn [index_loop].
  destruct (Z.ltb_spec f mf) as [Hf|Hf]; cbn [orb].
  { rewrite indexed_keys_rare, take_nil, app_nil_r; [done|]. constructor; [done|].
    eapply Forall_impl; [exact Hx|]. intros y [Hy|[Hy _]]; cbn in Hy; lia. }
  destruct (Z.eqb_spec (py_len (v_idx_to_token v)) cap) as [Hc|Hc].
  { rewrite Hc, Z.sub_diag. cbn. by rewrite app_nil_r. }
  case_bool_decide as Ht.
  - rewrite IH by done. unfold indexed_keys. rewrite filter_cons_False; [done|]. cbn. rewrite <- Hsp. tauto.
  - rewrite IH; [|done..|cbn; autorewrite with py; lia]. cbn [v_idx_to_token]. unfold indexed_keys.
    rewrite filter_cons_True by (cbn; rewrite <- Hsp; done). cbn [map fst].
    rewrite py_len_app, py_len_cons, py_len_nil.
    replace (Z.to_nat (cap - py_len (v_idx_to_token v)))
      with (S (Z.to_nat (cap - (py_len (v_idx_to_token v) + (1 + 0))))) by lia.
    cbn [take]. by rewrite <- app_assoc.
Qed.

(** The constructor indexes the unknown token first, then the reserved tokens, then
    the keys of the counter that occur at least [min_freq] times and are not special,
    the most frequent first and equally frequent ones in their order, up to
    [most_freq_count] of them. *)
Theorem vocabulary_order c mfc mf unknown reserved v
  (tok_lt_trans : forall a b c, tok_ltb a b = true -> tok_ltb b c = true -> tok_ltb a c = true)
  (tok_lt_total : forall a b, a ≠ b -> tok_ltb a b = false -> tok_ltb b a = true) :
  Vocabulary_init (Some c) mfc mf unknown reserved = Ok v -> NoDup (map fst c) -> 0 <= default 0 mfc ->
  exists s, s ≡ₚ c /\ StronglySorted more_frequent s /\
    v_idx_to_token v = unknown :: default [] reserved ++
      take (Z.to_nat (default (py_len c) mfc)) (indexed_keys (unknown :: default [] reserved) mf s).
Proof.
  intros (_ & Hr & ->)%init_inversion Hc Hmfc. exists (sort_counter c).
  pose proof (py_len_nonneg c). assert (0 <= default (py_len c) mfc) by (by destruct mfc).
  split_and!; [apply sort_counter_perm|by apply sort_counter_sorted|]. unfold _index_counter_keys.
  assert (size ({[unknown]} ∪ list_to_set (default [] reserved) : gset Tok) = length (unknown :: default [] reserved)) as ->.
  { by apply (size_list_to_set (C := gset Tok)) in Hr. }
  rewrite (index_loop_keys _ (unknown :: default [] reserved)).
  - cbn [v_idx_to_token _index_unknown_and_reserved_tokens]. unfold py_len at 2.
    replace (_ + _ - _) with (default (py_len c) mfc) by lia. done.
  - set_solver.
  - by apply sort_counter_sorted.
  - cbn [v_idx_to_token _index_unknown_and_reserved_tokens]. unfold py_len at 1. lia.
Qed.
End Vocabulary.

Notation Counter Tok := (list (Tok * Z)).

(** ** Counting tokens *)

(** [re.split] with a pattern of single literal characters: the pieces between the
    delimiters, empty ones included. *)
Fixpoint re_split (delim : ascii -> bool) (s : string) : list string :=
  match s with
  | EmptyString => [EmptyString]
  | String c s =>
      match re_split delim s with
      | w :: ws => if delim c then EmptyString :: w :: ws else String c w :: ws
      | [] => []
      end
  end.

(** [str.lower] on ASCII. *)
Definition lower_char (c : ascii) : ascii :=
  let n := Ascii.nat_of_ascii c in
  if ((65 <=? n) && (n <=? 90))%nat then ascii_of_nat (n + 32) else c.
Fixpoint lower (s : string) : string :=
  match s with EmptyString => EmptyString | String c s => String (lower_char c) (lower s) end.

Definition text_tokens (source_str : string) (token_delim seq_delim : ascii) (to_lower : bool) : list string :=
  let pieces := re_split (fun c => bool_decide (c = token_delim) || bool_decide (c = seq_delim)) source_str in
  let source := filter (fun t => t <> EmptyString) pieces in
  if to_lower then map lower source else source.

Definition count_tokens_from_str (source_str : string) (token_delim seq_delim : ascii) (to_lower : bool)
  (counter_to_update : option (Counter string)) : Counter string :=
  counter_update (default [] counter_to_update) (text_tokens source_str token_delim seq_delim to_lower).

(** [counter[t]], which is [0] for a missing key. *)
Fixpoint count_of {Tok} `{EqDecision Tok} (t : Tok) (c : Counter Tok) : Z :=
  match c with
  | [] => 0
  | (u, n) :: c => if decide (u = t) then n else count_of t c
  end.

Definition occurrences {Tok} `{EqDecision Tok} (t : Tok) (ts : list Tok) : Z :=
  py_len (filter (fun u => u = t) ts).

Section Counting.
Context {Tok : Type} `{Countable Tok}.

Lemma count_of_count (t u : Tok) c : count_of u (count t c) = count_of u c + (if decide (t = u) then 1 else 0).
Proof.
  induction c as [|[w n] c IH]; cbn; [by repeat case_decide|].
  destruct (decide (w = t)); cbn; repeat case_decide; subst; lia || done.
Qed.

Lemma count_keys (t : Tok) c : NoDup (map fst c) -> NoDup (map fst (count t c)).
Proof.
  assert (forall u (c : Counter Tok), u ∈ map fst (count t c) -> u = t \/ u ∈ map fst c) as Hin.
  { intros u c'. induction c' as [|[w n] c' IH]; cbn; [set_solver|]. case_decide; cbn; set_solver. }
  induction c as [|[w n] c IH]; cbn; intros Hnd; [repeat constructor; set_solver|].
  apply NoDup_cons in Hnd as [Hw Hnd]. case_decide; cbn; constructor; [done..| |by apply IH].
  intros [->|]%Hin; done.
Qed.

(** Counting adds the number of occurrences of every token, and keeps the keys of the
    counter distinct. *)
Lemma counter_update_spec (ts : list Tok) : forall c,
  NoDup (map fst c) ->
  NoDup (map fst (counter_update c ts)) /\
  forall t, count_of t (counter_update c ts) = count_of t c + occurrences t ts.
Proof.
  unfold occurrences. induction ts as [|u ts IH]; intros c Hnd; cbn [counter_update fold_left].
  { split; [done|]. intros t. rewrite filter_nil, py_len_nil. lia. }
  destruct (IH (count u c) (count_keys u c Hnd)) as [Hk Hc]. split; [done|].
  intros t. etrans; [apply Hc|]. rewrite count_of_count. destruct (decide (u = t)).
  - rewrite filter_cons_True by done. py_lia.
  - rewrite filter_cons_False by done. lia.
Qed.
End Counting.

(** A token never contains a delimiter. *)
Fixpoint str_forall (P : ascii -> bool) (s : string) : bool :=
  match s with EmptyString => true | String c s => P c && str_forall P s end.

Lemma re_split_pieces delim s : Forall (fun w => str_forall (fun c => negb (delim c)) w = true) (re_split delim s).
Proof.
  induction s as [|c s IH]; cbn; [by repeat constructor|].
  destruct (re_split delim s) as [|w ws]; [done|]. apply Forall_cons in IH as [Hw Hws].
  destruct (delim c) eqn:Hc; repeat (apply Forall_cons; split); try done. cbn. by rewrite Hc.
Qed.

(** Counting the tokens of a text, then indexing: the example of the documentation. *)
Example count_tokens_doc :
  count_tokens_from_str " Life is great ! " " "%char "010"%char true None =
    [("life", 1); ("is", 1); ("great", 1); ("!", 1)]%string.
Proof. vm_compute. reflexivity. Qed.

(** *** Witnesses *)

Lemma vocabulary_round_trip_witness :
  exists v, Vocabulary_init Z.ltb (Some [(7, 2); (5, 3); (4, 3); (9, 1); (1, 8)]) (Some 2) 2 0 (Some [1]) = Ok v /\
    to_tokens v (to_indices v [5; 9; 1; 4]) = Ok [5; 0; 1; 4] /\ to_tokens v [4] = Raise ValueError.
Proof.
  eexists. split; [vm_compute; reflexivity|]. split.
  - etrans; [apply (vocabulary_round_trip Z.ltb (Some [(7, 2); (5, 3); (4, 3); (9, 1); (1, 8)]) (Some 2) 2 0 (Some [1]))|];
      [vm_compute; reflexivity|apply (bool_decide_unpack _); vm_compute; exact I|vm_compute; reflexivity].
  - apply (vocabulary_round_trip Z.ltb (Some [(7, 2); (5, 3); (4, 3); (9, 1); (1, 8)]) (Some 2) 2 0 (Some [1]));
      [vm_compute; reflexivity|apply (bool_decide_unpack _); vm_compute; exact I|vm_compute; discriminate].
Defined.

Lemma vocabulary_order_witness :
  exists v s, Vocabulary_init Z.ltb (Some [(7, 2); (5, 3); (4, 3); (9, 1); (1, 8)]) (Some 2) 2 0 (Some [1]) = Ok v /\
    s ≡ₚ [(7, 2); (5, 3); (4, 3); (9, 1); (1, 8)] /\
    v_idx_to_token v = [0; 1] ++ take 2 (indexed_keys [0; 1] 2 s) /\ v_idx_to_token v = [0; 1; 4; 5].
Proof.
  destruct (vocabulary_order Z.ltb [(7, 2); (5, 3); (4, 3); (9, 1); (1, 8)] (Some 2) 2 0 (Some [1])
    (mkVocab 0 (Some [1]) [0; 1; 4; 5] (list_to_map [(0, 0); (1, 1); (4, 2); (5, 3)]))) as (s & Hs & _ & Hv).
  - intros a b c. rewrite !Z.ltb_lt. lia.
  - intros a b ? ?%Z.ltb_ge. apply Z.ltb_lt. lia.
  - vm_compute. reflexivity.
  - apply (bool_decide_unpack _). vm_compute. exact I.
  - vm_compute. discriminate.
  - eexists _, s. split; [vm_compute; reflexivity|]. split; [exact Hs|]. split; [exact Hv|reflexivity].
Defined.
