(* ===== verification/BucketIter.v ===== *)
(** * Bucketing of sentences

    [rnn/io.py]: [encode_sentences], which maps words to integers and builds the
    dictionary on the way, and [BucketSentenceIter], which pads sentences to the sizes
    of a few buckets and delivers batches of one bucket each.  The two random
    generators' shuffles are parameters, and [dtype] is one that holds the labels
    exactly. *)

From Stdlib Require Import Strings.Ascii Strings.String.
From S2P Require Import Prelude NDArray DataIter.

(** ** [encode_sentences] *)

(** Left-to-right evaluation of a loop body that appends its value. *)
Fixpoint mapS {S A B} (f : A -> M S B) (l : list A) : M S (list B) :=
  match l with
  | [] => mret []
  | a :: l => b ← f a; bs ← mapS f l; mret (b :: bs)
  end.

(** The local [idx] and the dictionary [vocab], which may be the caller's. *)
Record encoder := mkEnc { e_idx : Z; e_vocab : gmap string Z }.

(** The truth value of [unknown_token]: [None] and the empty string are false. *)
Definition given (unknown_token : option string) : bool :=
  match unknown_token with Some s => negb (str_eqb s EmptyString) | None => false end.

Section Encode.
Context (new_vocab : bool) (invalid_label : Z) (unknown_token : option string).

Definition encode_word (word : string) : M encoder Z :=
  e ← get;
  if in_dict word (e_vocab e) then lift (py_getitem (e_vocab e) word)
  else
    (_ ← massert (new_vocab || given unknown_token);
     let idx := if e_idx e =? invalid_label then e_idx e + 1 else e_idx e in
     let word := if given unknown_token then default word unknown_token else word in
     _ ← put (mkEnc (idx + 1) (<[word := idx]> (e_vocab e)));
     e ← get;
     lift (py_getitem (e_vocab e) word)).
End Encode.

Definition encode_sentences (sentences : list (list string)) (vocab : option (gmap string Z))
  (invalid_label : Z) (invalid_key : string) (start_label : Z) (unknown_token : option string)
  : result (list (list Z)) * gmap string Z :=
  let new_vocab := bool_decide (vocab = None) in
  let vocab := default {[invalid_key := invalid_label]} vocab in
  let '(res, e) := mapS (mapS (encode_word new_vocab invalid_label unknown_token)) sentences
                     (mkEnc start_label vocab) in
  (res, e_vocab e).

(** ** [BucketSentenceIter] *)

Definition bincount (lens : list Z) : list Z :=
  map (fun i => py_len (filter (fun l => l = i) lens)) (py_range (1 + fold_right Z.max (-1) lens)).

Definition auto_buckets (sentences : list (list Z)) (batch_size : Z) : list Z :=
  map fst (filter (fun x => batch_size <= x.2)
    (imap (fun i j => (Z.of_nat i, j)) (bincount (map py_len sentences)))).

(** [bisect.bisect_left] on a sorted list. *)
Fixpoint bisect_left (l : list Z) (x : Z) : nat :=
  match l with
  | [] => O
  | b :: l => if b <? x then S (bisect_left l x) else O
  end.

(** [np.full((width,), invalid_label)] with the sentence written over its beginning. *)
Definition pad_to (invalid_label width : Z) (sent : list Z) : list Z :=
  sent ++ replicate (Z.to_nat (width - py_len sent)) invalid_label.

(** The loop that distributes the sentences: the rows of each bucket, which buckets are
    used, and the number of sentences discarded. *)
Fixpoint place (buckets : list Z) (invalid_label : Z) (sentences : list (list Z))
  (data : list (list (list Z))) (valid : gmap nat Z) (ndiscard : Z)
  : list (list (list Z)) * gmap nat Z * Z :=
  match sentences with
  | [] => (data, valid, ndiscard)
  | sent :: sentences =>
      let buck := bisect_left buckets (py_len sent) in
      let valid := <[buck := 1]> valid in
      match buckets !! buck with
      | None => place buckets invalid_label sentences data valid (ndiscard + 1)
      | Some width =>
          place buckets invalid_label sentences
            (alter (fun rows => rows ++ [pad_to invalid_label width sent]) buck data) valid ndiscard
      end
  end.

(** [max(l)] *)
Definition py_max (l : list Z) : result Z :=
  match l with [] => Raise ValueError | a :: l => Ok (fold_left Z.max l a) end.

Section BucketIter.
Context {Rng : Type} (py_shuffle : Rng -> list (nat * Z) -> list (nat * Z) * Rng)
  (np_shuffle : Rng -> list (list Z) -> list (list Z) * Rng).

Record BucketSentenceIter := mkBucket {
  bk_data : list (list (list Z));
  bk_batch_size : Z;
  bk_buckets : list Z;
  bk_data_name : string;
  bk_label_name : string;
  bk_invalid_label : Z;
  bk_nddata : list NDArray;
  bk_ndlabel : list NDArray;
  bk_major_axis : Z;
  bk_layout : string;
  bk_default_bucket_key : Z;
  bk_provide_data : list DataDesc;
  bk_provide_label : list DataDesc;
  bk_idx : list (nat * Z);
  bk_curr_idx : Z;
  bk_dtype : string;
  bk_rng : Rng;
}.

(** The number of columns of a bucket's array. *)
Definition width_of (rows : list (list Z)) : Z := match rows with r :: _ => py_len r | [] => 0 end.

(** A row of labels: the next token, and the invalid label at the end. *)
Definition label_row (invalid_label : Z) (row : list Z) : list Z := drop 1 row ++ [invalid_label].

(** The loop of [reset] that builds the arrays; an array without columns has no last
    column to write to. *)
Fixpoint nd_loop (dtype : string) (invalid_label : Z) (data : list (list (list Z))) (nd ndl : list NDArray)
  : result unit * (list NDArray * list NDArray) :=
  match data with
  | [] => (Ok tt, (nd, ndl))
  | buck :: data =>
      let w := width_of buck in
      if w =? 0 then (Raise IndexError, (nd, ndl))
      else nd_loop dtype invalid_label data (nd ++ [mkND cpu dtype [w] buck])
             (ndl ++ [mkND cpu dtype [w] (map (label_row invalid_label) buck)])
  end.

(** [for buck in self.data: np.random.shuffle(buck)] *)
Fixpoint shuffle_all (data : list (list (list Z))) (rng : Rng) : list (list (list Z)) * Rng :=
  match data with
  | [] => ([], rng)
  | buck :: data =>
      let '(buck, rng) := np_shuffle rng buck in
      let '(data, rng) := shuffle_all data rng in
      (buck :: data, rng)
  end.

Definition BucketSentenceIter_reset : M BucketSentenceIter unit := fun s =>
  let '(idx, rng) := py_shuffle (bk_rng s) (bk_idx s) in
  let '(data, rng) := shuffle_all (bk_data s) rng in
  let '(r, (nd, ndl)) := nd_loop (bk_dtype s) (bk_invalid_label s) data [] [] in
  (r, mkBucket data (bk_batch_size s) (bk_buckets s) (bk_data_name s) (bk_label_name s) (bk_invalid_label s)
        nd ndl (bk_major_axis s) (bk_layout s) (bk_default_bucket_key s) (bk_provide_data s)
        (bk_provide_label s) idx 0 (bk_dtype s) rng).

(** The starts of the batches of all buckets. *)
Definition batch_starts (batch_size : Z) (data : list (list (list Z))) : result (list (nat * Z)) :=
  ls ← mapR (fun x => js ← py_range3 0 (py_len x.2 - batch_size + 1) batch_size; Ok (map (pair x.1) js))
         (imap pair data);
  Ok (concat ls).

(** The given buckets or those with enough sentences, sorted. *)
Definition sorted_buckets (sentences : list (list Z)) (batch_size : Z) (buckets : option (list Z)) : list Z :=
  py_sort Z.ltb (match buckets with
                 | None | Some [] => auto_buckets sentences batch_size
                 | Some l => l
                 end).

Definition BucketSentenceIter_init (sentences : list (list Z)) (batch_size : Z) (buckets : option (list Z))
  (invalid_label : Z) (data_name label_name dtype layout : string) (rng : Rng) : result BucketSentenceIter :=
  let buckets := sorted_buckets sentences batch_size buckets in
  let valid := list_to_map (map (fun i => (i, 0)) (seq 0 (length buckets))) : gmap nat Z in
  let '(data, valid, _) := place buckets invalid_label sentences (map (const []) buckets) valid 0 in
  used ← mapR (fun x => v ← py_getitem valid x.1; Ok (x.2, v)) (imap pair buckets);
  let buckets := map fst (filter (fun x => x.2 = 1) used) in
  let data := filter (fun rows => rows <> []) data in
  key ← py_max buckets;
  let major_axis := str_find "N"%char layout in
  shape ← (if major_axis =? 0 then Ok [batch_size; key]
           else if major_axis =? 1 then Ok [key; batch_size]
           else Raise ValueError);
  idx ← batch_starts batch_size data;
  match BucketSentenceIter_reset
          (mkBucket data batch_size buckets data_name label_name invalid_label [] [] major_axis layout key
             [mkDesc data_name shape mx_real_t (Some layout)] [mkDesc label_name shape mx_real_t (Some layout)]
             idx 0 dtype rng) with
  | (Ok _, s) => Ok s
  | (Raise e, _) => Raise e
  end.

(** [x.T] of a matrix. *)
Definition nd_T (a : NDArray) : NDArray :=
  match nd_tail a with
  | [w] => mkND (nd_ctx a) (nd_dtype a) [py_len (nd_rows a)]
             (map (fun k => map (fun row => nth k row 0) (nd_rows a)) (seq 0 (Z.to_nat w)))
  | _ => a
  end.

Definition BucketSentenceIter_next : M BucketSentenceIter DataBatch :=
  s ← get;
  if bk_curr_idx s =? py_len (bk_idx s) then raise StopIteration
  else
    (ij ← lift (py_index (bk_idx s) (bk_curr_idx s));
     let '(i, j) := ij in
     _ ← put (mkBucket (bk_data s) (bk_batch_size s) (bk_buckets s) (bk_data_name s) (bk_label_name s)
                (bk_invalid_label s) (bk_nddata s) (bk_ndlabel s) (bk_major_axis s) (bk_layout s)
                (bk_default_bucket_key s) (bk_provide_data s) (bk_provide_label s) (bk_idx s)
                (bk_curr_idx s + 1) (bk_dtype s) (bk_rng s));
     nd ← lift (py_index (bk_nddata s) (Z.of_nat i));
     data ← lift (_slice nd (Some j) (Some (j + bk_batch_size s)));
     ndl ← lift (py_index (bk_ndlabel s) (Z.of_nat i));
     label ← lift (_slice ndl (Some j) (Some (j + bk_batch_size s)));
     let data := if bk_major_axis s =? 1 then nd_T data else data in
     let label := if bk_major_axis s =? 1 then nd_T label else label in
     key ← lift (py_index (bk_buckets s) (Z.of_nat i));
     mret (mkBatch [data] [label] 0 None (Some key)
             (Some [mkDesc (bk_data_name s) (nd_shape data) mx_real_t (Some (bk_layout s))])
             (Some [mkDesc (bk_label_name s) (nd_shape label) mx_real_t (Some (bk_layout s))]))).

#[export] Instance BucketSentenceIter_DataIter : DataIter BucketSentenceIter := {
  it_next := BucketSentenceIter_next;
  it_reset := BucketSentenceIter_reset;
  it_provide_data := bk_provide_data;
  it_provide_label := bk_provide_label;
}.
End BucketIter.

(** ** Encoding *)

(** The dictionary that [encode_sentences] builds: the invalid key has the invalid
    label, the other words have distinct labels from [start_label] on, none of them the
    invalid one. *)
Record enc_inv (invalid_label : Z) (invalid_key : string) (start_label : Z) (e : encoder) : Prop := {
  ei_key : e_vocab e !! invalid_key = Some invalid_label;
  ei_range : forall w i, e_vocab e !! w = Some i -> w <> invalid_key ->
    start_label <= i < e_idx e /\ i <> invalid_label;
  ei_inj : forall w w' i, e_vocab e !! w = Some i -> e_vocab e !! w' = Some i -> w = w';
  ei_start : start_label <= e_idx e;
}.

Section NewVocab.
Context (invalid_label : Z) (invalid_key : string) (start_label : Z).
Notation inv := (enc_inv invalid_label invalid_key start_label).
Notation word_step := (encode_word true invalid_label None).

Lemma encode_word_new e w : inv e -> exists i e',
  word_step w e = (Ok i, e') /\ inv e' /\ e_vocab e ⊆ e_vocab e' /\ e_vocab e' !! w = Some i.
Proof.
  intros He. unfold encode_word. rewrite bind_M. cbn [get]. unfold in_dict.
  destruct (e_vocab e !! w) as [i|] eqn:Hw.
  { exists i, e. unfold lift, py_getitem. by rewrite Hw. }
  rewrite bind_M. cbn [massert py_assert orb given default]. rewrite !bind_M. cbn [put].
  rewrite bind_M. cbn [get e_vocab]. unfold lift, py_getitem. rewrite lookup_insert_eq.
  set (i := if e_idx e =? invalid_label then e_idx e + 1 else e_idx e).
  assert (e_idx e <= i /\ i <> invalid_label) as [Hi Hne] by (subst i; destruct (Z.eqb_spec (e_idx e) invalid_label); lia).
  exists i. eexists. split; [reflexivity|]. cbn. destruct He as [Hk Hr Hinj Hs].
  split_and!; [|by apply insert_subseteq|by rewrite lookup_insert_eq].
  assert (forall u k, e_vocab e !! u = Some k -> k <> i) as Hnew.
  { intros u k Hu ->. destruct (decide (u = invalid_key)) as [->|Hu'].
    - congruence.
    - destruct (Hr u i Hu Hu'). lia. }
  split; cbn; [|intros u k|intros u u' k|lia].
  - rewrite lookup_insert_ne; [done|]. intros ->; congruence.
  - destruct (decide (u = w)) as [->|Hu]; [rewrite lookup_insert_eq; intros [= <-]; lia|].
    rewrite lookup_insert_ne by done. intros Hk' Hu'. destruct (Hr u k Hk' Hu'). lia.
  - destruct (decide (u = w)) as [->|Hu], (decide (u' = w)) as [->|Hu']; [done|..];
      rewrite ?lookup_insert_eq, ?lookup_insert_ne by done.
    + intros [= <-] Hc. by destruct (Hnew _ _ Hc).
    + intros Hc [= <-]. by destruct (Hnew _ _ Hc).
    + apply Hinj.
Qed.

(** A loop over steps that keep an invariant and let a monotone relation grow. *)
Lemma mapS_grow {A B} (f : A -> M encoder B) (P : encoder -> A -> B -> Prop) :
  (forall e a, inv e -> exists b e', f a e = (Ok b, e') /\ inv e' /\ e_vocab e ⊆ e_vocab e' /\ P e' a b) ->
  (forall e e' a b, e_vocab e ⊆ e_vocab e' -> P e a b -> P e' a b) ->
  forall l e, inv e -> exists bs e',
    mapS f l e = (Ok bs, e') /\ inv e' /\ e_vocab e ⊆ e_vocab e' /\ Forall2 (P e') l bs.
Proof.
  intros Hf Hmono l. induction l as [|a l IH]; intros e He; cbn [mapS].
  { by exists [], e. }
  rewrite bind_M. destruct (Hf e a He) as (b & e1 & -> & He1 & Hsub1 & Hb).
  rewrite bind_M. destruct (IH e1 He1) as (bs & e2 & -> & He2 & Hsub2 & Hbs).
  exists (b :: bs), e2. split_and!; [done|done|by etrans|]. constructor; [by eapply Hmono|done].
Qed.

Lemma encode_words_new l e : inv e -> exists cs e',
  mapS (mapS word_step) l e = (Ok cs, e') /\ inv e' /\ e_vocab e ⊆ e_vocab e' /\
  Forall2 (Forall2 (fun w c => e_vocab e' !! w = Some c)) l cs.
Proof.
  apply (mapS_grow _ (fun e' => Forall2 (fun w c => e_vocab e' !! w = Some c))).
  - intros e1 a. apply (mapS_grow _ (fun e' w c => e_vocab e' !! w = Some c)).
    + intros. by apply encode_word_new.
    + intros e2 e3 w c Hsub ?. by eapply lookup_weaken.
  - intros e2 e3 ws cs Hsub Hcs. eapply Forall2_impl; [exact Hcs|]. intros w c Hw. exact (lookup_weaken _ _ _ _ Hw Hsub).
Qed.
End NewVocab.

(** Without a vocabulary, [encode_sentences] succeeds and its codes decode to the
    sentences: every word has a code in the dictionary it returns, different words have
    different codes, only the invalid key is coded by the invalid label and the other
    codes start at [start_label]. *)
Theorem encode_decode sentences invalid_label invalid_key start_label :
  exists codes vocab,
    encode_sentences sentences None invalid_label invalid_key start_label None = (Ok codes, vocab) /\
    Forall2 (Forall2 (fun w c => vocab !! w = Some c)) sentences codes /\
    (forall w w' c, vocab !! w = Some c -> vocab !! w' = Some c -> w = w') /\
    vocab !! invalid_key = Some invalid_label /\
    (forall w c, vocab !! w = Some c -> w <> invalid_key -> start_label <= c).
Proof.
  destruct (encode_words_new invalid_label invalid_key start_label sentences
              (mkEnc start_label {[invalid_key := invalid_label]})) as (cs & e & E & He & _ & Hcs).
  { split; cbn.
    - by rewrite lookup_singleton_eq.
    - intros w i Hw. by apply lookup_singleton_Some in Hw as [<- _].
    - intros w w' i [<- _]%lookup_singleton_Some [<- _]%lookup_singleton_Some. done.
    - lia. }
  exists cs, (e_vocab e). split_and!; [|done|apply He|apply He|].
  - unfold encode_sentences. cbn. by rewrite E.
  - intros w c Hw Hne. by destruct (ei_range _ _ _ _ He w c Hw Hne) as [[? _] _].
Qed.

(** With a vocabulary and an unknown token, each unknown word moves the unknown token to
    the next label, counted from [start_label] whatever the vocabulary uses: the two
    unknown words here get the labels of the two known ones. *)
Example encode_unknown_collides :
  encode_sentences [["u"; "v"; "a"; "b"]]%string (Some (list_to_map [("a", 0); ("b", 1)]%string)) (-1) "x"%string 0
    (Some "unk"%string) =
  (Ok [[0; 1; 0; 1]], list_to_map [("a", 0); ("b", 1); ("unk", 1)]%string).
Proof. vm_compute. reflexivity. Qed.

(** ** Distribution to buckets *)

(** The row a sentence becomes: padded to the first bucket that is large enough. *)
Definition padded (buckets : list Z) (invalid_label : Z) (sent : list Z) : option (list Z) :=
  w ← buckets !! bisect_left buckets (py_len sent); Some (pad_to invalid_label w sent).

Lemma bisect_left_large l x w : l !! bisect_left l x = Some w -> x <= w.
Proof.
  induction l as [|b l IH]; cbn; [done|]. destruct (Z.ltb_spec b x); cbn; [done|]. intros [= <-]. lia.
Qed.

Lemma pad_to_len il w sent : py_len sent <= w -> py_len (pad_to il w sent) = w.
Proof. intros. unfold pad_to. rewrite py_len_app. unfold py_len in *. rewrite length_replicate. lia. Qed.

Lemma bisect_left_least l x w w' :
  StronglySorted Z.le l -> l !! bisect_left l x = Some w -> w' ∈ l -> x <= w' -> w <= w'.
Proof.
  induction l as [|c l IH]; cbn; [done|]. intros [Hl Hc]%StronglySorted_inv. rewrite Forall_forall in Hc.
  destruct (Z.ltb_spec c x); cbn.
  - intros Hw [->|Hin]%elem_of_cons Hx; [lia|by apply IH].
  - intros [= <-] [->|Hin]%elem_of_cons Hx; [lia|by apply Hc].
Qed.

Lemma sorted_buckets_sorted sentences bs buckets : StronglySorted Z.le (sorted_buckets sentences bs buckets).
Proof.
  unfold sorted_buckets. set (l := match buckets with None | Some [] => _ | Some l => l end). clearbody l.
  induction l as [|x l IH]; [constructor|]. rewrite py_sort_cons.
  apply insert_by_sorted; [intros ? ? ?; lia| |done]. intros y _. destruct (Z.ltb_spec y x); lia.
Qed.

(** A sentence goes to the smallest bucket that holds it. *)
Lemma padded_smallest sentences bs buckets il sent row w' :
  padded (sorted_buckets sentences bs buckets) il sent = Some row ->
  w' ∈ sorted_buckets sentences bs buckets -> py_len sent <= w' -> py_len sent <= py_len row <= w'.
Proof.
  unfold padded. set (B := sorted_buckets sentences bs buckets). intros Hrow Hin Hle.
  destruct (B !! bisect_left B (py_len sent)) as [w|] eqn:Hw; [|done]. injection Hrow as <-.
  pose proof (bisect_left_large _ _ _ Hw). rewrite pad_to_len by done.
  pose proof (bisect_left_least B (py_len sent) w w' (sorted_buckets_sorted _ _ _) Hw Hin Hle). lia.
Qed.

Lemma concat_alter_snoc {A} (data : list (list A)) i x :
  (i < length data)%nat -> concat (alter (fun rows => rows ++ [x]) i data) ≡ₚ concat data ++ [x].
Proof.
  revert i. induction data as [|rows data IH]; intros [|i] Hi; cbn in *; [lia..| |].
  - rewrite <- !app_assoc. by rewrite (Permutation_app_comm [x]).
  - rewrite IH by lia. by rewrite app_assoc.
Qed.

Definition used_flag (rows : list (list Z)) : Z := match rows with [] => 0 | _ => 1 end.

(** What the distribution loop maintains. *)
Record placed (buckets : list Z) (data : list (list (list Z))) (valid : gmap nat Z) : Prop := {
  pl_rows : Forall2 (fun w rows => Forall (fun r => py_len r = w) rows) buckets data;
  pl_valid : forall i rows, data !! i = Some rows -> valid !! i = Some (used_flag rows);
}.

Lemma place_spec buckets il sentences : forall data valid nd,
  placed buckets data valid -> exists data' valid' nd',
    place buckets il sentences data valid nd = (data', valid', nd') /\ placed buckets data' valid' /\
    concat data' ≡ₚ concat data ++ omap (padded buckets il) sentences.
Proof.
  induction sentences as [|sent sentences IH]; intros data valid nd [Hr Hv]; cbn [place omap list_omap].
  { exists data, valid, nd. rewrite app_nil_r. done. }
  unfold padded at 1. pose proof (bisect_left_large buckets (py_len sent)) as Hbis.
  set (k := bisect_left buckets (py_len sent)) in *. pose proof (Forall2_length _ _ _ Hr) as Hlen.
  destruct (buckets !! k) as [w|] eqn:Hk.
  - cbn. specialize (Hbis w eq_refl). apply lookup_lt_Some in Hk as Hlt.
    destruct (IH (alter (fun rows => rows ++ [pad_to il w sent]) k data) (<[k:=1]> valid) nd)
      as (data' & valid' & nd' & E & Hp & Hperm).
    { split.
      - apply Forall2_alter_r; [done|]. intros w' rows Hw' _ Hrows. assert (w' = w) as -> by congruence.
        apply Forall_app. split; [done|]. repeat constructor. by apply pad_to_len.
      - intros i rows Hi. destruct (decide (i = k)) as [->|Hne].
        + rewrite lookup_insert_eq. rewrite list_lookup_alter_eq in Hi. destruct (data !! k) as [old|]; [|done].
          injection Hi as <-. by destruct old.
        + rewrite lookup_insert_ne by done. rewrite list_lookup_alter_ne in Hi by done. by apply Hv. }
    exists data', valid', nd'. split_and!; [done|done|]. rewrite Hperm, concat_alter_snoc by lia.
    by rewrite <- app_assoc.
  - cbn. destruct (IH data (<[k:=1]> valid) (nd + 1)) as (data' & valid' & nd' & E & Hp & Hperm).
    { split; [done|]. intros i rows Hi. rewrite lookup_insert_ne; [by apply Hv|]. intros ->.
      apply lookup_lt_Some in Hi. apply lookup_ge_None in Hk. lia. }
    eauto 10.
Qed.

(** Dropping the unused buckets and the empty arrays drops the same positions. *)
Lemma used_buckets buckets data valid :
  placed buckets data valid ->
  mapR (fun x => v ← py_getitem valid x.1; Ok (x.2, v)) (imap pair buckets) = Ok (zip buckets (map used_flag data)).
Proof.
  intros [Hr Hv]. rewrite (mapR_ok _ (fun x => (x.2, default 0 (valid !! x.1)))).
  - f_equal. apply list_eq. intros i. rewrite list_lookup_fmap, list_lookup_imap, lookup_zip_with.
    rewrite list_lookup_fmap. destruct (buckets !! i) as [w|] eqn:Hw; [|done].
    destruct (Forall2_lookup_l _ _ _ _ _ Hr Hw) as (rows & Hrows & _). rewrite Hrows. cbn.
    by rewrite (Hv i rows Hrows).
  - intros [i w] Hin. apply elem_of_lookup_imap in Hin as (? & ? & [= <- <-] & Hw).
    destruct (Forall2_lookup_l _ _ _ _ _ Hr Hw) as (rows & Hrows & _). unfold py_getitem. cbn.
    by rewrite (Hv i rows Hrows).
Qed.

Lemma used_filter buckets data :
  Forall2 (fun w rows => Forall (fun r : list Z => py_len r = w) rows) buckets data ->
  Forall2 (fun w rows => rows <> [] /\ Forall (fun r => py_len r = w) rows)
    (map fst (filter (fun x => x.2 = 1) (zip buckets (map used_flag data)))) (filter (fun rows => rows <> []) data).
Proof.
  induction 1 as [|w rows buckets data Hrows _ IH]; [constructor|]. cbn [map zip zip_with].
  destruct rows as [|r rows]; cbn [used_flag].
  - rewrite filter_cons_False by (cbn; lia). rewrite filter_cons_False by (intros Hn; by apply Hn). done.
  - rewrite filter_cons_True by done. rewrite filter_cons_True by done. cbn. by constructor.
Qed.

Lemma concat_filter_nonempty {A} (data : list (list A)) `{!forall rows : list A, Decision (rows <> [])} :
  concat (filter (fun rows => rows <> []) data) = concat data.
Proof.
  induction data as [|rows data IH]; [done|]. destruct (decide (rows <> [])) as [Hr|Hr].
  - rewrite filter_cons_True by done. cbn. by rewrite IH.
  - rewrite filter_cons_False by done. destruct rows; [done|]. by destruct Hr.
Qed.

(** ** Epochs *)

(** The starts of the full batches of every bucket. *)
Definition starts (b : Z) (data : list (list (list Z))) : list (nat * Z) :=
  concat (imap (fun i rows => map (fun k => (i, k * b)) (py_range (py_len rows / b))) data).

(** The rows of the batch at a start. *)
Definition rows_at (b : Z) (data : list (list (list Z))) (ij : nat * Z) : list (list Z) :=
  py_slice (nth ij.1 data []) ij.2 (ij.2 + b).

(** The rows that make up full batches. *)
Definition whole_batches (b : Z) (rows : list (list Z)) : list (list Z) := py_slice rows 0 (py_len rows / b * b).

Lemma range3_starts b n : 0 < b -> 0 <= n ->
  py_range3 0 (n - b + 1) b = Ok (map (fun k => k * b) (py_range (n / b))).
Proof.
  intros Hb Hn. unfold py_range3. rewrite (proj2 (Z.eqb_neq _ _)) by lia. unfold range_count.
  rewrite (proj2 (Z.ltb_lt _ _)) by lia. replace (n - b + 1 - 0 + b - 1) with n by lia.
  unfold py_range, range_from. rewrite map_map. f_equal. apply map_ext. intros k. lia.
Qed.

Lemma batch_starts_spec b data : 0 < b -> batch_starts b data = Ok (starts b data).
Proof.
  intros Hb. unfold batch_starts, starts.
  rewrite (mapR_ok _ (fun x => map (pair x.1) (map (fun k => k * b) (py_range (py_len x.2 / b))))).
  - cbn. do 2 f_equal. change (map ?f (imap ?g data)) with (f <$> imap g data). rewrite fmap_imap.
    apply imap_ext. intros i rows _. cbn. by rewrite map_map.
  - intros [i rows] _. cbn. by rewrite range3_starts by (done || apply py_len_nonneg).
Qed.

Lemma elem_of_starts b data i j : 0 < b ->
  (i, j) ∈ starts b data -> exists rows, data !! i = Some rows /\ 0 <= j /\ j + b <= py_len rows.
Proof.
  intros Hb Hin. unfold starts in Hin. apply list_elem_of_In, in_concat in Hin as (l & Hl%list_elem_of_In & Hj).
  apply elem_of_lookup_imap in Hl as (i' & rows & -> & Hi).
  apply in_map_iff in Hj as (k & [= -> <-] & Hk%list_elem_of_In%elem_of_py_range).
  exists rows. pose proof (Z.mul_div_le (py_len rows) b Hb). split_and!; [done|nia|nia].
Qed.

Lemma imap_nth {A B} (d : A) (F : A -> B) l : imap (fun i _ => F (nth i l d)) l = map F l.
Proof.
  apply list_eq. intros i. rewrite list_lookup_imap, list_lookup_fmap.
  destruct (l !! i) as [a|] eqn:Ha; [|done]. cbn. by rewrite (nth_lookup_Some _ _ _ _ Ha).
Qed.

Lemma concat_concat {A} (ls : list (list (list A))) : concat (concat ls) = concat (map (fun l => concat l) ls).
Proof. induction ls as [|l ls IH]; [done|]. cbn. by rewrite concat_app, IH. Qed.

(** The batches at the starts are the rows of the full batches, each once. *)
Lemma starts_cover b data : 0 < b ->
  concat (map (rows_at b data) (starts b data)) = concat (map (whole_batches b) data).
Proof.
  intros Hb. unfold starts. rewrite concat_map, concat_concat. f_equal. rewrite map_map.
  change (map ?f (imap ?g data)) with (f <$> imap g data). rewrite fmap_imap, <- (imap_nth [] (whole_batches b)).
  apply imap_ext. intros i rows Hi. cbn. rewrite map_map, (nth_lookup_Some _ _ _ _ Hi).
  pose proof (py_len_nonneg rows). pose proof (Z.mul_div_le (py_len rows) b Hb).
  assert (0 <= py_len rows / b) by (apply Z.div_pos; lia).
  unfold whole_batches. rewrite <- batches_concat by nia. unfold batches. f_equal. apply map_ext. intros k.
  unfold rows_at, batch_at. cbn. rewrite (nth_lookup_Some _ _ _ _ Hi). f_equal. lia.
Qed.

Lemma starts_perm b data data' : Forall2 (≡ₚ) data data' -> starts b data = starts b data'.
Proof.
  intros Hp. unfold starts. f_equal. apply list_eq. intros i. rewrite !list_lookup_imap.
  destruct (data !! i) as [rows|] eqn:Hi.
  - destruct (Forall2_lookup_l _ _ _ _ _ Hp Hi) as (rows' & -> & Hrows). cbn. unfold py_len. by rewrite Hrows.
  - apply lookup_ge_None in Hi. rewrite (Forall2_length _ _ _ Hp) in Hi. by apply lookup_ge_None in Hi as ->.
Qed.

Lemma concat_perm {A} (l l' : list (list A)) : l ≡ₚ l' -> concat l ≡ₚ concat l'.
Proof. induction 1; cbn; [done|by f_equiv|by rewrite !app_assoc, (Permutation_app_comm y)|by etrans]. Qed.

Lemma concat_perm_each {A} (l l' : list (list A)) : Forall2 (≡ₚ) l l' -> concat l ≡ₚ concat l'.
Proof. induction 1; cbn; [done|]. by f_equiv. Qed.

Lemma concat_const_nil {A B} (l : list A) : concat (map (const (@nil B)) l) = [].
Proof. by induction l. Qed.

Section Epochs.
Context {Rng : Type} (py_shuffle : Rng -> list (nat * Z) -> list (nat * Z) * Rng)
  (np_shuffle : Rng -> list (list Z) -> list (list Z) * Rng).
Context (py_shuffle_perm : forall r l, (py_shuffle r l).1 ≡ₚ l) (np_shuffle_perm : forall r l, (np_shuffle r l).1 ≡ₚ l).
Notation iter := (BucketSentenceIter (Rng := Rng)).

Lemma shuffle_all_perm data : forall rng, Forall2 (≡ₚ) data (shuffle_all np_shuffle data rng).1.
Proof using np_shuffle_perm.
  induction data as [|buck data IH]; intros rng; cbn; [constructor|].
  pose proof (np_shuffle_perm rng buck) as Hb. destruct (np_shuffle rng buck) as [buck' rng'].
  specialize (IH rng'). destruct (shuffle_all np_shuffle data rng') as [data' rng'']. by constructor.
Qed.

Definition data_array (dtype : string) (rows : list (list Z)) : NDArray := mkND cpu dtype [width_of rows] rows.
Definition label_array (dtype : string) (il : Z) (rows : list (list Z)) : NDArray :=
  mkND cpu dtype [width_of rows] (map (label_row il) rows).

Lemma nd_loop_spec dtype il data : forall nd ndl,
  Forall (fun rows => width_of rows <> 0) data ->
  nd_loop dtype il data nd ndl = (Ok tt, (nd ++ map (data_array dtype) data, ndl ++ map (label_array dtype il) data)).
Proof.
  induction data as [|rows data IH]; intros nd ndl Hw; cbn [nd_loop map]; [by rewrite !app_nil_r|].
  apply Forall_cons in Hw as [Hr Hw]. rewrite (proj2 (Z.eqb_neq _ _)) by done. rewrite IH by done.
  by rewrite <- !app_assoc.
Qed.

Lemma nd_loop_ok dtype il data : forall nd ndl r,
  nd_loop dtype il data nd ndl = (Ok tt, r) -> Forall (fun rows => width_of rows <> 0) data.
Proof.
  induction data as [|rows data IH]; intros nd ndl r; cbn [nd_loop]; [constructor|].
  destruct (Z.eqb_spec (width_of rows) 0); [done|]. intros Hl. constructor; [done|by eapply IH].
Qed.

Section Run.
Context (s0 : iter).
Notation b := (bk_batch_size s0).

(** An iterator in the middle of an epoch. *)
Definition bk_at (data : list (list (list Z))) (idx : list (nat * Z)) (c : Z) (rng : Rng) : iter :=
  mkBucket data b (bk_buckets s0) (bk_data_name s0) (bk_label_name s0) (bk_invalid_label s0)
    (map (data_array (bk_dtype s0)) data) (map (label_array (bk_dtype s0) (bk_invalid_label s0)) data) (bk_major_axis s0) (bk_layout s0)
    (bk_default_bucket_key s0) (bk_provide_data s0) (bk_provide_label s0) idx c (bk_dtype s0) rng.

(** The batch at a start: rows of one bucket, with their labels. *)
Definition bk_batch (data : list (list (list Z))) (ij : nat * Z) : DataBatch :=
  let w := nth ij.1 (bk_buckets s0) 0 in
  let orient a := if bk_major_axis s0 =? 1 then nd_T a else a in
  let x := orient (mkND cpu (bk_dtype s0) [w] (rows_at b data ij)) in
  let y := orient (mkND cpu (bk_dtype s0) [w] (map (label_row (bk_invalid_label s0)) (rows_at b data ij))) in
  mkBatch [x] [y] 0 None (Some w)
    (Some [mkDesc (bk_data_name s0) (nd_shape x) mx_real_t (Some (bk_layout s0))])
    (Some [mkDesc (bk_label_name s0) (nd_shape y) mx_real_t (Some (bk_layout s0))]).

Record bk_ready (data : list (list (list Z))) (idx : list (nat * Z)) : Prop := {
  br_size : 0 < b;
  br_rows : Forall2 (fun w rows => rows <> [] /\ Forall (fun r => py_len r = w) rows) (bk_buckets s0) data;
  br_width : Forall (fun rows => width_of rows <> 0) data;
  br_idx : idx ≡ₚ starts b data;
}.

Lemma ready_bucket data idx i rows :
  bk_ready data idx -> data !! i = Some rows -> bk_buckets s0 !! i = Some (width_of rows).
Proof.
  intros Hr Hi. destruct (Forall2_lookup_r _ _ _ _ _ (br_rows _ _ Hr) Hi) as (w & Hw & Hne & Hall).
  destruct rows as [|r rows]; [done|]. apply Forall_cons in Hall as [Hlen _]. cbn. by rewrite Hlen.
Qed.

Lemma py_slice_map {A B} (f : A -> B) l i j : py_slice (map f l) i j = map f (py_slice l i j).
Proof. unfold py_slice, py_len. rewrite length_map. by rewrite skipn_map, firstn_map. Qed.

Lemma bk_next data idx k ij rng :
  bk_ready data idx -> idx !! k = Some ij ->
  BucketSentenceIter_next (bk_at data idx (Z.of_nat k) rng) =
    (Ok (bk_batch data ij), bk_at data idx (Z.of_nat k + 1) rng).
Proof.
  intros Hr Hk. destruct ij as [i j]. apply lookup_lt_Some in Hk as Hlt.
  assert ((i, j) ∈ starts b data) as Hin by (rewrite <- (br_idx _ _ Hr); by eapply list_elem_of_lookup_2).
  apply elem_of_starts in Hin as (rows & Hi & Hj & Hle); [|apply Hr].
  pose proof (br_size _ _ Hr). pose proof (ready_bucket _ _ _ _ Hr Hi) as Hw.
  unfold BucketSentenceIter_next. rewrite bind_M. cbn [get bk_at bk_curr_idx bk_idx].
  rewrite (proj2 (Z.eqb_neq _ _)) by (unfold py_len; lia).
  rewrite bind_M. unfold lift at 1. rewrite (py_index_lookup _ _ _ Hk). rewrite bind_M. cbn [put].
  rewrite bind_M. unfold lift at 1. cbn [bk_at bk_nddata bk_ndlabel bk_batch_size bk_buckets].
  rewrite (py_index_lookup (map (data_array (bk_dtype s0)) data) i (data_array (bk_dtype s0) rows)) by (by rewrite list_lookup_fmap, Hi).
  rewrite bind_M. unfold lift at 1.
  rewrite slice_in_bounds by (unfold nd_len, data_array; cbn; lia).
  rewrite bind_M. unfold lift at 1.
  rewrite (py_index_lookup (map (label_array (bk_dtype s0) (bk_invalid_label s0)) data) i (label_array (bk_dtype s0) (bk_invalid_label s0) rows)) by (by rewrite list_lookup_fmap, Hi).
  rewrite bind_M. unfold lift at 1.
  rewrite slice_in_bounds by (unfold nd_len, label_array; cbn; unfold py_len in *; rewrite length_map; lia).
  rewrite bind_M. unfold lift at 1. rewrite (py_index_lookup _ _ _ Hw).
  unfold data_array, label_array. cbn [nd_ctx nd_dtype nd_tail nd_rows]. rewrite py_slice_map.
  unfold bk_batch, rows_at. cbn [fst snd]. rewrite (nth_lookup_Some _ _ _ _ Hi), (nth_lookup_Some _ _ _ _ Hw). done.
Qed.

#[local] Instance bk_iter : DataIter iter := BucketSentenceIter_DataIter py_shuffle np_shuffle.

Lemma bk_drain data idx rng : bk_ready data idx -> forall m k, length idx = (k + m)%nat ->
  it_drain (S m) (bk_at data idx (Z.of_nat k) rng) =
    Some (map (bk_batch data) (drop k idx), StopIteration, bk_at data idx (py_len idx) rng).
Proof.
  intros Hr m. induction m as [|m IH]; intros k Hk.
  - cbn. rewrite drop_ge by lia. unfold BucketSentenceIter_next. rewrite bind_M. cbn [get bk_at bk_curr_idx bk_idx].
    rewrite (proj2 (Z.eqb_eq _ _)) by (unfold py_len; lia). cbn. repeat f_equal. unfold py_len. lia.
  - destruct (lookup_lt_is_Some_2 idx k ltac:(lia)) as [ij Hij].
    change (it_drain (S (S m)) ?s) with
      (match BucketSentenceIter_next s with
       | (Raise e, s') => Some ([], e, s')
       | (Ok x, s') => '(bs, e, s'') ← it_drain (S m) s'; Some (x :: bs, e, s'')
       end). rewrite (bk_next data idx k ij rng Hr Hij).
    replace (Z.of_nat k + 1) with (Z.of_nat (S k)) by lia. rewrite IH by lia. cbn.
    by rewrite (drop_S _ _ _ Hij).
Qed.

Lemma ready_perm data data' idx idx' :
  bk_ready data idx -> Forall2 (≡ₚ) data data' -> idx' ≡ₚ idx -> bk_ready data' idx'.
Proof.
  intros [Hb Hrows Hw Hidx] Hp Hi.
  assert (Forall2 (fun w rows => rows <> [] /\ Forall (fun r => py_len r = w) rows) (bk_buckets s0) data') as Hrows'.
  { eapply Forall2_trans; [|exact Hrows|exact Hp]. cbn. intros w rows rows' [Hne Hall] Hr.
    split; [intros ->; by apply Permutation_nil_r in Hr|]. by rewrite <- Hr. }
  split; [done|done| |by rewrite Hi, Hidx, (starts_perm _ _ _ Hp)].
  apply Forall_lookup. intros i rows' Hi'.
  destruct (Forall2_lookup_r _ _ _ _ _ Hp Hi') as (rows & Hrows0 & Hr).
  destruct (Forall2_lookup_r _ _ _ _ _ Hrows Hrows0) as (w & Hw0 & Hne & Hall).
  destruct (Forall2_lookup_r _ _ _ _ _ Hrows' Hi') as (w' & Hw0' & Hne' & Hall').
  assert (w' = w) as -> by congruence. rewrite Forall_lookup in Hw. specialize (Hw i rows Hrows0).
  destruct rows as [|r rows], rows' as [|r' rows']; [done..|]. cbn [width_of] in *.
  apply Forall_cons in Hall as [Hr1 _]. apply Forall_cons in Hall' as [Hr2 _]. lia.
Qed.

Lemma bk_reset_spec data idx c rng :
  bk_ready data idx -> exists data' idx' rng',
    BucketSentenceIter_reset py_shuffle np_shuffle (bk_at data idx c rng) = (Ok tt, bk_at data' idx' 0 rng') /\
    Forall2 (≡ₚ) data data' /\ idx' ≡ₚ idx.
Proof using py_shuffle_perm np_shuffle_perm.
  intros Hr. unfold BucketSentenceIter_reset. cbn [bk_at bk_rng bk_idx bk_data].
  pose proof (py_shuffle_perm rng idx) as Hi. destruct (py_shuffle rng idx) as [idx' rng1]. cbn in Hi.
  pose proof (shuffle_all_perm data rng1) as Hd. destruct (shuffle_all np_shuffle data rng1) as [data' rng2]. cbn in Hd.
  rewrite nd_loop_spec by apply (ready_perm _ _ _ _ Hr Hd Hi). by exists data', idx', rng2.
Qed.

(** One epoch: one batch for every full batch of every bucket, in some order. *)
Definition bk_epoch (data0 : list (list (list Z))) (ep : list DataBatch) : Prop :=
  exists data idx, Forall2 (≡ₚ) data0 data /\ ep = map (bk_batch data) idx /\ idx ≡ₚ starts b data /\
    concat (map (rows_at b data) idx) ≡ₚ concat (map (whole_batches b) data) /\
    Forall (fun ij => py_len (rows_at b data ij) = b /\
                      Forall (fun r => py_len r = nth ij.1 (bk_buckets s0) 0) (rows_at b data ij)) idx.

Lemma ready_shape data idx ij :
  bk_ready data idx -> ij ∈ idx ->
  py_len (rows_at b data ij) = b /\ Forall (fun r => py_len r = nth ij.1 (bk_buckets s0) 0) (rows_at b data ij).
Proof.
  intros Hr Hin. destruct ij as [i j]. rewrite (br_idx _ _ Hr) in Hin. pose proof (br_size _ _ Hr).
  apply elem_of_starts in Hin as (rows & Hi & Hj & Hle); [|done]. unfold rows_at. cbn.
  destruct (Forall2_lookup_r _ _ _ _ _ (br_rows _ _ Hr) Hi) as (w & Hw & _ & Hall).
  rewrite (nth_lookup_Some _ _ _ _ Hi), (nth_lookup_Some _ _ _ _ Hw). split; [rewrite py_slice_len; lia|].
  unfold py_slice. by apply Forall_take, Forall_drop.
Qed.

Lemma ready_epoch data0 data idx : bk_ready data idx -> Forall2 (≡ₚ) data0 data -> bk_epoch data0 (map (bk_batch data) idx).
Proof.
  intros Hr Hp. exists data, idx. split_and!; [done|done|apply Hr| |].
  2: { apply Forall_forall. intros ij Hij. by apply ready_shape with idx. }
  rewrite <- starts_cover by apply Hr. apply concat_perm. by rewrite (br_idx _ _ Hr).
Qed.

Lemma bk_epochs data0 fuel e : forall data idx rng,
  bk_ready data idx -> Forall2 (≡ₚ) data0 data -> (length idx < fuel)%nat ->
  exists eps s', it_epochs e fuel (bk_at data idx 0 rng) = Some (eps, s') /\ length eps = e /\ Forall (bk_epoch data0) eps.
Proof using py_shuffle_perm np_shuffle_perm.
  induction e as [|e IH]; intros data idx rng Hr Hp Hf; [by exists [], (bk_at data idx 0 rng)|].
  pose proof (bk_drain data idx rng Hr (length idx) 0 eq_refl) as Hd.
  destruct (bk_reset_spec data idx (py_len idx) rng Hr) as (data' & idx' & rng' & Hreset & Hp' & Hi).
  destruct (IH data' idx' rng') as (eps & s' & He & Hlen & Hok).
  - by apply (ready_perm data data' idx idx').
  - eapply Forall2_trans; [|exact Hp|exact Hp']. cbn. intros ? ? ? ? ?. by etrans.
  - by rewrite Hi.
  - exists (map (bk_batch data) idx :: eps), s'. split_and!; [|cbn; lia|constructor; [by apply ready_epoch|done]].
    exact (epochs_S e fuel (S (length idx)) _ _ _ _ (eps, s') Hf Hd Hreset He).
Qed.
End Run.

(** *** Construction *)

Lemma placed_initial buckets :
  placed buckets (map (const []) buckets) (list_to_map (map (fun i => (i, 0)) (seq 0 (length buckets)))).
Proof.
  split.
  - apply Forall2_fmap_r, Forall_Forall2_diag, Forall_forall. intros w _. constructor.
  - intros i rows Hi. rewrite list_lookup_fmap in Hi. destruct (buckets !! i) as [w|] eqn:Hw; [|done].
    injection Hi as <-. cbn. apply elem_of_list_to_map_1.
    + rewrite <- list_fmap_compose. change (NoDup (id <$> seq 0 (length buckets))). rewrite list_fmap_id. apply NoDup_seq.
    + apply lookup_lt_Some in Hw. apply list_elem_of_In, in_map_iff. exists i. split; [done|]. apply in_seq. lia.
Qed.

Lemma init_ready sentences bs buckets il dn ln dtype layout rng s :
  BucketSentenceIter_init py_shuffle np_shuffle sentences bs buckets il dn ln dtype layout rng = Ok s -> 0 < bs ->
  bk_batch_size s = bs /\ bk_invalid_label s = il /\
  s = bk_at s (bk_data s) (bk_idx s) 0 (bk_rng s) /\ bk_ready s (bk_data s) (bk_idx s) /\
  concat (bk_data s) ≡ₚ omap (padded (sorted_buckets sentences bs buckets) il) sentences.
Proof using py_shuffle_perm np_shuffle_perm.
  unfold BucketSentenceIter_init. set (B := sorted_buckets sentences bs buckets). intros Hs Hbs.
  destruct (place_spec B il sentences _ _ 0 (placed_initial B)) as (data & valid & nd & E & Hp & Hperm).
  rewrite E in Hs. clear E. rewrite (used_buckets _ _ _ Hp) in Hs.
  apply bind_ok in Hs as (used & [= <-] & Hs). apply bind_ok in Hs as (key & _ & Hs).
  apply bind_ok in Hs as (shape & _ & Hs). rewrite batch_starts_spec in Hs by done.
  apply bind_ok in Hs as (idx & [= <-] & Hs).
  pose proof (used_filter B data (pl_rows _ _ _ Hp)) as Hrows.
  set (B' := map fst _) in Hs, Hrows. set (data' := filter (fun rows => rows <> []) data) in Hs, Hrows.
  unfold BucketSentenceIter_reset in Hs. cbn [bk_rng bk_idx bk_data bk_invalid_label bk_dtype] in Hs.
  pose proof (py_shuffle_perm rng (starts bs data')) as Hi.
  destruct (py_shuffle rng (starts bs data')) as [idx' rng1]. cbn in Hi.
  pose proof (shuffle_all_perm data' rng1) as Hd. destruct (shuffle_all np_shuffle data' rng1) as [data'' rng2]. cbn in Hd.
  destruct (nd_loop dtype il data'' [] []) as [[u|e] arrays] eqn:Hl; [|by destruct arrays].
  destruct u. pose proof (nd_loop_ok _ _ _ _ _ _ Hl) as Hw. rewrite nd_loop_spec in Hl by done.
  injection Hl as <-. injection Hs as <-. cbn. split_and!; [done|done|done| |].
  - split; cbn; [done| |done|].
    + eapply Forall2_trans; [|exact Hrows|exact Hd]. cbn. intros w rows rows' [Hne Hall] Hr.
      split; [intros ->; by apply Permutation_nil_r in Hr|]. by rewrite <- Hr.
    + rewrite Hi. by rewrite (starts_perm bs data' data'').
  - rewrite <- (concat_perm_each data' data'' Hd). unfold data'. rewrite concat_filter_nonempty, Hperm.
    rewrite concat_const_nil. done.
Qed.

(** C16: A [BucketSentenceIter] holds every sentence that fits in a bucket once, padded to
    the first bucket that is large enough, all rows of a bucket of the bucket's size; and
    every epoch, after any number of resets, delivers every full batch of every bucket
    once: [batch_size] rows of one bucket, in a random order, with as labels the
    rows moved by one position.  *)
Theorem bucket_epochs sentences bs buckets il dn ln dtype layout rng s e fuel :
  BucketSentenceIter_init py_shuffle np_shuffle sentences bs buckets il dn ln dtype layout rng = Ok s -> 0 < bs ->
  (length (bk_idx s) < fuel)%nat ->
  concat (bk_data s) ≡ₚ omap (padded (sorted_buckets sentences bs buckets) il) sentences /\
  Forall2 (fun w rows => rows <> [] /\ Forall (fun r => py_len r = w) rows) (bk_buckets s) (bk_data s) /\
  exists eps s', it_epochs (H := BucketSentenceIter_DataIter py_shuffle np_shuffle) e fuel s = Some (eps, s') /\
    length eps = e /\ Forall (bk_epoch s (bk_data s)) eps.
Proof using py_shuffle_perm np_shuffle_perm.
  intros Hs Hbs Hf. destruct (init_ready _ _ _ _ _ _ _ _ _ _ Hs Hbs) as (<- & <- & Heq & Hr & Hp).
  split_and!; [done|apply Hr|]. 
  pose proof (bk_epochs s (bk_data s) fuel e (bk_data s) (bk_idx s) (bk_rng s) Hr ltac:(done) Hf) as He.
  by rewrite <- Heq in He.
Qed.
End Epochs.

(** *** Witness *)

Definition keep {A} (r : unit) (l : list A) : list A * unit := (l, r).

Lemma bucket_epochs_witness :
  exists s eps s', BucketSentenceIter_init keep keep [[1; 2]; [3]; [4; 5; 6]; [7; 8; 9; 10]; [11; 12]] 2 (Some [3; 2]) (-1)
      "data"%string "label"%string "int32"%string "NT"%string tt = Ok s /\
    concat (bk_data s) ≡ₚ [[1; 2]; [3; -1]; [11; 12]; [4; 5; 6]] /\
    it_epochs (H := BucketSentenceIter_DataIter keep keep) 2 2 s = Some (eps, s') /\
    Forall (bk_epoch s (bk_data s)) eps /\ map (map b_data) eps = [[[mkND cpu "int32" [2] [[1; 2]; [3; -1]]]]; [[mkND cpu "int32" [2] [[1; 2]; [3; -1]]]]].
Proof.
  eexists. 
  destruct (bucket_epochs keep keep ltac:(done) ltac:(done) [[1; 2]; [3]; [4; 5; 6]; [7; 8; 9; 10]; [11; 12]] 2
    (Some [3; 2]) (-1) "data"%string "label"%string "int32"%string "NT"%string tt _ 2 2 ltac:(vm_compute; reflexivity) ltac:(lia)
    ltac:(vm_compute; lia)) as (Hc & _ & eps & s' & He & _ & Hall).
  exists eps, s'. split; [vm_compute; reflexivity|]. split; [etrans; [exact Hc|vm_compute; solve_Permutation]|].
  split; [exact He|]. split; [exact Hall|]. vm_compute in He. injection He as <- _. reflexivity.
Defined.
