(* ===== verification/GluonParam.v ===== *)
(** * Gluon parameters

    [gluon/parameter.py], the classes [Parameter] and [Constant]: initialization, its
    deferral until the shape is known, the copies on several contexts and their
    gradients, loading, casting.  An array is its context, shape, type, storage type,
    contents and the gradient request it is marked with; the operators of the C library
    on contents are a class [ArrayOps], the trainer a parameter may belong to is a class
    [TrainerOps]. *)

From S2P Require Import Prelude NDArray.

(** ** Arrays and the operators on them *)

Record arr (V : Type) := mkArr {
  a_ctx : Context;
  a_shape : list Z;
  a_dtype : string;
  a_stype : string;
  a_val : V;
  a_mark : option string;
}.
Arguments mkArr {V} _ _ _ _ _ _.
Arguments a_ctx {V} _.
Arguments a_shape {V} _.
Arguments a_dtype {V} _.
Arguments a_stype {V} _.
Arguments a_val {V} _.
Arguments a_mark {V} _.

(** The operators [Parameter] calls: [zeros], [add_n] divided by the number of
    arguments, [astype], [tostype], [broadcast_to], and running the initializer
    [create(default_init)(InitDesc(name, {'__init__': init}), data)]. *)
Class ArrayOps (V Init : Type) := {
  av_zeros : list Z -> string -> V;
  av_average : list V -> V;
  av_astype : string -> V -> V;
  av_tostype : string -> V -> V;
  av_broadcast : list Z -> list Z -> V -> result V;
  av_initialize : Init -> Init -> string -> list Z -> string -> V -> result V;
}.

(** What a parameter asks of its trainer: whether the copy in the key-value store has to
    be kept in step ([_kv_initialized and _update_on_kvstore] and the parameter is not in
    [_params_to_init]), [_reset_kvstore], and [_row_sparse_pull], which writes to the given
    arrays: it answers with their new contents, of the given rows or of all. *)
Class TrainerOps (V T : Type) := {
  tr_synced : nat -> string -> T -> bool;
  tr_reset_kvstore : nat -> M T unit;
  tr_row_sparse_pull : nat -> string -> list (arr V) -> option V -> M T (list V);
}.

(** ** [Parameter] *)

(** [_ctx_map]: for even and odd device types, the position of each device's copy. *)
Notation ctx_map_t := (list (option nat) * list (option nat))%type.

Record Param (V Init F : Type) := mkParam {
  p_name : string;
  p_data : option (list (arr V));
  p_grad : option (list (arr V));
  p_ctx_list : option (list Context);
  p_ctx_map : option ctx_map_t;
  p_trainer : option nat;
  p_deferred : option (Init * list Context * Init * option (arr V));
  p_differentiable : bool;
  p_allow_deferred : bool;
  p_grad_req : option string;
  p_shape : option (list Z);
  p_dtype : string;
  p_lr_mult : F;
  p_wd_mult : F;
  p_init : option Init;
  p_stype : string;
  p_grad_stype : string;
  (** the value of a [Constant] *)
  p_constant : option (arr V);
}.
Arguments mkParam {V Init F} _ _ _ _ _ _ _ _ _ _ _ _ _ _ _ _ _ _.
Arguments p_name {V Init F} _.
Arguments p_data {V Init F} _.
Arguments p_grad {V Init F} _.
Arguments p_ctx_list {V Init F} _.
Arguments p_ctx_map {V Init F} _.
Arguments p_trainer {V Init F} _.
Arguments p_deferred {V Init F} _.
Arguments p_differentiable {V Init F} _.
Arguments p_allow_deferred {V Init F} _.
Arguments p_grad_req {V Init F} _.
Arguments p_shape {V Init F} _.
Arguments p_dtype {V Init F} _.
Arguments p_lr_mult {V Init F} _.
Arguments p_wd_mult {V Init F} _.
Arguments p_init {V Init F} _.
Arguments p_stype {V Init F} _.
Arguments p_grad_stype {V Init F} _.
Arguments p_constant {V Init F} _.

(** The [ctx] argument of the accessors: [list], [None], or a context. *)
Inductive ctx_arg := AllCtx | DefaultCtx | OnCtx (c : Context).

(** A context argument of [initialize] and the like. *)
Inductive ctxs_arg := NoCtx | OneCtx (c : Context) | ManyCtx (cs : list Context).

Section GluonParam.
Context {V Init F T : Type} `{ArrayOps V Init} `{TrainerOps V T}.
(** [context.current_context()] *)
Context (current : Context).
Notation param := (Param V Init F).

Definition set_arrays (d g : option (list (arr V))) (p : param) : param :=
  mkParam (p_name p) d g (p_ctx_list p) (p_ctx_map p) (p_trainer p) (p_deferred p) (p_differentiable p)
    (p_allow_deferred p) (p_grad_req p) (p_shape p) (p_dtype p) (p_lr_mult p) (p_wd_mult p) (p_init p) (p_stype p)
    (p_grad_stype p) (p_constant p).
Definition set_ctxs (cs : option (list Context)) (m : option ctx_map_t) (p : param) : param :=
  mkParam (p_name p) (p_data p) (p_grad p) cs m (p_trainer p) (p_deferred p) (p_differentiable p)
    (p_allow_deferred p) (p_grad_req p) (p_shape p) (p_dtype p) (p_lr_mult p) (p_wd_mult p) (p_init p) (p_stype p)
    (p_grad_stype p) (p_constant p).
Definition set_deferred (d : option (Init * list Context * Init * option (arr V))) (p : param) : param :=
  mkParam (p_name p) (p_data p) (p_grad p) (p_ctx_list p) (p_ctx_map p) (p_trainer p) d (p_differentiable p)
    (p_allow_deferred p) (p_grad_req p) (p_shape p) (p_dtype p) (p_lr_mult p) (p_wd_mult p) (p_init p) (p_stype p)
    (p_grad_stype p) (p_constant p).
Definition put_grad_req (r : option string) (p : param) : param :=
  mkParam (p_name p) (p_data p) (p_grad p) (p_ctx_list p) (p_ctx_map p) (p_trainer p) (p_deferred p) (p_differentiable p)
    (p_allow_deferred p) r (p_shape p) (p_dtype p) (p_lr_mult p) (p_wd_mult p) (p_init p) (p_stype p)
    (p_grad_stype p) (p_constant p).
Definition put_shape (s : option (list Z)) (p : param) : param :=
  mkParam (p_name p) (p_data p) (p_grad p) (p_ctx_list p) (p_ctx_map p) (p_trainer p) (p_deferred p) (p_differentiable p)
    (p_allow_deferred p) (p_grad_req p) s (p_dtype p) (p_lr_mult p) (p_wd_mult p) (p_init p) (p_stype p)
    (p_grad_stype p) (p_constant p).
Definition put_dtype (t : string) (p : param) : param :=
  mkParam (p_name p) (p_data p) (p_grad p) (p_ctx_list p) (p_ctx_map p) (p_trainer p) (p_deferred p) (p_differentiable p)
    (p_allow_deferred p) (p_grad_req p) (p_shape p) t (p_lr_mult p) (p_wd_mult p) (p_init p) (p_stype p)
    (p_grad_stype p) (p_constant p).
Definition put_trainer (t : option nat) (p : param) : param :=
  mkParam (p_name p) (p_data p) (p_grad p) (p_ctx_list p) (p_ctx_map p) t (p_deferred p) (p_differentiable p)
    (p_allow_deferred p) (p_grad_req p) (p_shape p) (p_dtype p) (p_lr_mult p) (p_wd_mult p) (p_init p) (p_stype p)
    (p_grad_stype p) (p_constant p).
Definition put_mults (lr wd : F) (i : option Init) (p : param) : param :=
  mkParam (p_name p) (p_data p) (p_grad p) (p_ctx_list p) (p_ctx_map p) (p_trainer p) (p_deferred p) (p_differentiable p)
    (p_allow_deferred p) (p_grad_req p) (p_shape p) (p_dtype p) lr wd i (p_stype p) (p_grad_stype p) (p_constant p).

(** The operations of arrays: [copyto] a context, [detach], [zeros] for a gradient,
    [astype], [arr[:] = data]. *)
Definition copyto (a : arr V) (c : Context) : arr V :=
  mkArr c (a_shape a) (a_dtype a) (a_stype a) (a_val a) None.
Definition detach (a : arr V) : arr V :=
  mkArr (a_ctx a) (a_shape a) (a_dtype a) (a_stype a) (a_val a) None.
Definition zeros_grad (stype : string) (a : arr V) : arr V :=
  mkArr (a_ctx a) (a_shape a) (a_dtype a) stype (av_zeros (Init := Init) (a_shape a) (a_dtype a)) None.
Definition astype (t : string) (a : arr V) : arr V :=
  mkArr (a_ctx a) (a_shape a) t (a_stype a) (av_astype (Init := Init) t (a_val a)) None.
Definition mark (req : string) (a : arr V) : arr V :=
  mkArr (a_ctx a) (a_shape a) (a_dtype a) (a_stype a) (a_val a) (Some req).
Definition assign (d a : arr V) : result (arr V) :=
  v ← (if bool_decide (a_shape d = a_shape a) then Ok (a_val d)
       else av_broadcast (Init := Init) (a_shape d) (a_shape a) (a_val d));
  Ok (mkArr (a_ctx a) (a_shape a) (a_dtype a) (a_stype a) (av_astype (Init := Init) (a_dtype a) v) (a_mark a)).

(** The property [grad_req]; a [Constant] answers ['null']. *)
Definition grad_req (p : param) : string :=
  match p_constant p with
  | Some _ => "null"
  | None => default "" (p_grad_req p)
  end.

(** [_init_grad]; [autograd.mark_variables] marks the data arrays. *)
Definition _init_grad (p : param) : param :=
  if str_eqb (grad_req p) "null" then set_arrays (p_data p) None p
  else
    let ds := default [] (p_data p) in
    set_arrays (Some (map (mark (grad_req p)) ds)) (Some (map (zeros_grad (p_grad_stype p)) ds)) p.

Definition valid_req (r : string) : bool := str_eqb r "write" || str_eqb r "add" || str_eqb r "null".

(** The setter of [grad_req], which a [Constant] ignores. *)
Definition set_grad_req (req : string) : M param unit :=
  p ← get;
  match p_constant p with
  | Some _ => mret tt
  | None =>
      _ ← massert (valid_req req);
      let req := if p_differentiable p then req else "null"%string in
      if bool_decide (p_grad_req p = Some req) then mret tt
      else
        (_ ← modify (put_grad_req (Some req));
         match p_grad p with
         | Some _ =>
             if str_eqb req "null"
             then modify (fun p => set_arrays (map detach <$> p_data p) None p)
             else match p_data p with Some _ => modify _init_grad | None => mret tt end
         | None => match p_data p with Some _ => modify _init_grad | None => mret tt end
         end)
  end.

(** The setter of [shape]: unknown dimensions, 0, can be filled in. *)
Definition shape_fits (old new : list Z) : bool :=
  Nat.eqb (length old) (length new) && forallb (fun x => (x.1 =? 0) || (x.1 =? x.2)) (zip old new).
Definition set_shape (new : list Z) : M param unit :=
  p ← get;
  match p_shape p with
  | None => modify (put_shape (Some new))
  | Some old => _ ← massert (shape_fits old new); modify (put_shape (Some new))
  end.

Definition valid_stype (s : string) : bool := str_eqb s "default" || str_eqb s "row_sparse" || str_eqb s "csr".

Definition Param_init (name req : string) (shape : option (list Z)) (dtype : string) (lr wd : F) (init : option Init)
  (allow_deferred differentiable : bool) (stype grad_stype : string) (constant : option (arr V)) : result param :=
  let p := mkParam name None None None None None None differentiable allow_deferred None shape dtype lr wd init
             stype grad_stype constant in
  match set_grad_req req p with
  | (Raise e, _) => Raise e
  | (Ok _, p) =>
      _ ← py_assert (valid_stype grad_stype);
      _ ← py_assert (valid_stype stype);
      Ok p
  end.

Definition _set_trainer (t : option nat) : M param unit :=
  p ← get;
  match p_trainer p, t with
  | Some old, Some new =>
      if negb (str_eqb (p_stype p) "default") && negb (Nat.eqb old new) then raise RuntimeError
      else modify (put_trainer t)
  | _, _ => modify (put_trainer t)
  end.

Definition dev_list (c : Context) (m : ctx_map_t) : list (option nat) :=
  if Z.land (device_typeid c) 1 =? 0 then m.1 else m.2.

(** [_check_and_get]: a list of arrays, of one array unless all are asked for. *)
Definition _check_and_get {A} (p : param) (arr_list : option (list A)) (ctx : ctx_arg) : result (list A) :=
  match arr_list with
  | Some l =>
      let on (c : Context) : result (list A) :=
        match p_ctx_map p with
        | None => Raise TypeError
        | Some m =>
            let ids := dev_list c m in
            if device_id c <? py_len ids then
              slot ← py_index ids (device_id c);
              match slot with
              | Some i => a ← py_index l (Z.of_nat i); Ok [a]
              | None => Raise RuntimeError
              end
            else Raise RuntimeError
        end in
      match ctx with
      | AllCtx => Ok l
      | DefaultCtx => match l with [a] => Ok [a] | _ => on current end
      | OnCtx c => on c
      end
  | None => match p_deferred p with Some _ => Raise DeferredInitializationError | None => Raise RuntimeError end
  end.

(** The loop of [_init_impl] that fills [_ctx_map]. *)
Fixpoint fill_ctx_map (i : nat) (cs : list Context) (m : ctx_map_t) : result unit * ctx_map_t :=
  match cs with
  | [] => (Ok tt, m)
  | c :: cs =>
      let ids := dev_list c m in
      let ids := ids ++ replicate (Z.to_nat (device_id c + 1 - py_len ids)) None in
      match py_setitem ids (device_id c) (Some i) with
      | Ok ids => fill_ctx_map (S i) cs (if Z.land (device_typeid c) 1 =? 0 then (ids, m.2) else (m.1, ids))
      | Raise e => (Raise e, if Z.land (device_typeid c) 1 =? 0 then (ids, m.2) else (m.1, ids))
      end
  end.

Definition _init_impl (data : arr V) (cs : list Context) : M param unit :=
  let '(r, m) := fill_ctx_map 0 cs ([], []) in
  _ ← modify (set_ctxs (Some cs) (Some m));
  _ ← lift r;
  modify (fun p => _init_grad (set_arrays (Some (map (copyto data) cs)) (p_grad p) p)).

(** The shape is known and no dimension is 0: [shape is not None and np.prod(shape) > 0]. *)
Definition complete_shape (s : option (list Z)) : bool :=
  match s with Some s => 0 <? prod_shape s | None => false end.

Definition _finish_deferred_init : M param unit :=
  p ← get;
  match p_deferred p with
  | None => mret tt
  | Some (init, cs, default_init, data) =>
      _ ← modify (set_deferred None);
      _ ← massert (complete_shape (p_shape p));
      let shape := default [] (p_shape p) in
      data ← match data with
             | Some d => mret d
             | None =>
                 v ← lift (av_initialize default_init init (p_name p) shape (p_dtype p)
                             (av_zeros (Init := Init) shape (p_dtype p)));
                 mret (mkArr cpu shape (p_dtype p) (p_stype p) v None)
             end;
      _init_impl data cs
  end.

Definition ctx_list_of (ctx : ctxs_arg) : list Context :=
  match ctx with NoCtx => [current] | OneCtx c => [c] | ManyCtx cs => cs end.

Definition initialize (init : option Init) (ctx : ctxs_arg) (default_init : Init) (force_reinit : bool) : M param unit :=
  p ← get;
  if bool_decide (p_data p ≠ None) && negb force_reinit then mret tt
  else
    (_ ← modify (set_arrays None None);
     let cs := ctx_list_of ctx in
     let i := match init with Some i => i | None => default default_init (p_init p) end in
     if bool_decide (p_shape p = Some []) || negb (complete_shape (p_shape p)) then
       if p_allow_deferred p then modify (set_deferred (Some (i, cs, default_init, None)))
       else raise ValueError
     else
       (_ ← modify (set_deferred (Some (i, cs, default_init, None)));
        _finish_deferred_init)).

(** *** Accessors *)

Definition data (p : param) (ctx : ctx_arg) : result (list (arr V)) :=
  if negb (str_eqb (p_stype p) "default") then Raise RuntimeError else _check_and_get p (p_data p) ctx.

Definition list_data (p : param) : result (list (arr V)) := data p AllCtx.

Definition grad (p : param) (ctx : ctx_arg) : result (list (arr V)) :=
  match p_data p, p_grad p with
  | Some _, None => Raise RuntimeError
  | _, _ => _check_and_get p (p_grad p) ctx
  end.

Definition list_grad (p : param) : result (list (arr V)) := grad p AllCtx.

Definition list_ctx (p : param) : result (list Context) :=
  match p_data p with
  | None => match p_deferred p with Some (_, cs, _, _) => Ok cs | None => Raise RuntimeError end
  | Some _ => Ok (default [] (p_ctx_list p))
  end.

Definition zero_grad : M param unit :=
  p ← get;
  match p_grad p with
  | None => mret tt
  | Some gs =>
      modify (set_arrays (p_data p) (Some (map (fun g =>
        mkArr (a_ctx g) (a_shape g) (a_dtype g) (a_stype g) (av_zeros (Init := Init) (a_shape g) (a_dtype g)) (a_mark g)) gs)))
  end.

Definition cast (t : string) : M param unit :=
  _ ← modify (put_dtype t);
  p ← get;
  match p_data p with
  | None => mret tt
  | Some ds =>
      let ds := map (astype t) ds in
      match p_grad p with
      | None => modify (set_arrays (Some ds) None)
      | Some gs => modify (set_arrays (Some (map (mark (grad_req p)) ds)) (Some (map (astype t) gs)))
      end
  end.

(** *** Operations that involve the trainer *)

Definition on_param {A} (m : M param A) : M (T * param) A := fun s =>
  let '(r, p) := m s.2 in (r, (s.1, p)).
Definition on_trainer {A} (m : M T A) : M (T * param) A := fun s =>
  let '(r, t) := m s.1 in (r, (t, s.2)).

(** New contents for an array, and for the arrays at some places of [_data]. *)
Definition with_val (v : V) (a : arr V) : arr V :=
  mkArr (a_ctx a) (a_shape a) (a_dtype a) (a_stype a) v (a_mark a).
Definition write_vals (ws : list (nat * V)) (ds : list (arr V)) : list (arr V) :=
  fold_left (fun ds w => alter (with_val w.2) w.1 ds) ws ds.

(** [_get_row_sparse] of [_data], for a [row_id] array on context [ctx].  The arrays found
    are those of the parameter: each comes with its place in [_data], because the rows are
    pulled into it. *)
Definition _get_row_sparse (ctx : ctx_arg) (row_id : V) : M (T * param) (list (arr V)) :=
  s ← get;
  match p_trainer s.2 with
  | None => raise RuntimeError
  | Some t =>
      results ← lift (_check_and_get s.2 (imap pair <$> p_data s.2) ctx);
      vs ← on_trainer (tr_row_sparse_pull t (p_name s.2) (map snd results) (Some row_id));
      _ ← on_param (modify (fun p =>
            set_arrays (write_vals (zip (map fst results) vs) <$> p_data p) (p_grad p) p));
      mret (zip_with with_val vs (map snd results))
  end.

Definition row_sparse_data (row_ctx : Context) (row_id : V) : M (T * param) (list (arr V)) :=
  s ← get;
  if negb (str_eqb (p_stype s.2) "row_sparse") then raise RuntimeError
  else _get_row_sparse (OnCtx row_ctx) row_id.

Definition list_row_sparse_data (row_id : V) : M (T * param) (list (arr V)) :=
  s ← get;
  if negb (str_eqb (p_stype s.2) "row_sparse") then raise RuntimeError
  else _get_row_sparse AllCtx row_id.

(** [_reduce]: the average of the copies, or all rows from the key-value store. *)
Definition _reduce : M (T * param) (arr V) :=
  s ← get;
  if str_eqb (p_stype s.2) "default" then
    (block ← lift (list_data s.2);
     match block with
     | [] => raise MXNetError
     | a :: _ =>
         if forallb (fun x => bool_decide (a_shape x = a_shape a)) block
         then mret (mkArr cpu (a_shape a) (a_dtype a) "default" (av_average (Init := Init) (map a_val block)) None)
         else raise MXNetError
     end)
  else
    match p_shape s.2, p_trainer s.2 with
    | None, _ => raise TypeError
    | Some [], _ => raise IndexError
    | Some _, None => raise AttributeError
    | Some shape, Some t =>
        let data := mkArr cpu shape "float32" "row_sparse" (av_zeros (Init := Init) shape "float32") None in
        out ← on_trainer (tr_row_sparse_pull t (p_name s.2) [data] None);
        match out with v :: _ => mret (with_val v data) | [] => raise IndexError end
    end.

Definition reset_ctx (ctx : ctxs_arg) : M (T * param) unit :=
  s ← get;
  let cs := ctx_list_of ctx in
  match p_data s.2, p_deferred s.2 with
  | Some (_ :: _), _ => d ← _reduce; on_param (_init_impl d cs)
  | _, Some (i, _, default_init, d) => on_param (modify (set_deferred (Some (i, cs, default_init, d))))
  | _, None => raise ValueError
  end.

(** [for arr in ...: arr[:] = data], up to the first failure. *)
Fixpoint assign_all (d : arr V) (l : list (arr V)) : result unit * list (arr V) :=
  match l with
  | [] => (Ok tt, [])
  | a :: l =>
      match assign d a with
      | Ok a => let '(r, l) := assign_all d l in (r, a :: l)
      | Raise e => (Raise e, a :: l)
      end
  end.

Definition set_data (d : arr V) : M (T * param) unit :=
  _ ← on_param (set_shape (a_shape d));
  s ← get;
  match p_data s.2 with
  | None =>
      match p_deferred s.2 with
      | None => raise AssertionError
      | Some (i, cs, di, _) => on_param (modify (set_deferred (Some (i, cs, di, Some d))))
      end
  | Some ds =>
      _ ← (match p_trainer s.2 with
           | Some t => if tr_synced (V := V) t (p_name s.2) s.1 then on_trainer (tr_reset_kvstore (V := V) t) else mret tt
           | None => mret tt
           end);
      let '(r, ds) := assign_all d ds in
      _ ← on_param (modify (fun p => set_arrays (Some ds) (p_grad p) p));
      lift r
  end.

Definition same_ctxs (cs ds : list Context) : bool :=
  forallb (fun c => bool_decide (c ∈ ds)) cs && forallb (fun c => bool_decide (c ∈ cs)) ds.

(** [_load_init], with the array and the contexts it is loaded to. *)
Definition _load_init (d : arr V) (ctx : ctxs_arg) : M (T * param) unit :=
  s ← get;
  _ ← match p_shape s.2 with
      | Some ((_ :: _) as shape) =>
          _ ← massert (forallb (fun x => (x.1 =? 0) || (x.1 =? x.2)) (zip shape (a_shape d)));
          on_param (set_shape (map (fun x => if x.1 =? 0 then x.2 else x.1) (zip shape (a_shape d))))
      | _ => mret tt
      end;
  _ ← massert (str_eqb (p_dtype s.2) "" || str_eqb (p_dtype s.2) (a_dtype d));
  let d := if str_eqb (p_stype s.2) (a_stype d) then d
           else mkArr (a_ctx d) (a_shape d) (a_dtype d) (p_stype s.2) (av_tostype (Init := Init) (p_stype s.2) (a_val d)) None in
  let asked (cs : list Context) : bool :=
    match ctx with NoCtx => true | OneCtx c => same_ctxs [c] cs | ManyCtx l => same_ctxs l cs end in
  _ ← match p_data s.2 with
      | None =>
          cs ← match p_deferred s.2 with
               | Some (_, cs, _, _) => _ ← massert (asked cs); mret cs
               | None => mret (match ctx with NoCtx => [cpu] | OneCtx c => [c] | ManyCtx l => l end)
               end;
          on_param (_init_impl d cs)
      | Some _ =>
          _ ← massert (asked (default [] (p_ctx_list s.2)));
          set_data d
      end;
  on_param (modify (set_deferred None)).


(** ** The context map *)

(** Contexts share a slot of the map when the lowest bits of their device types and
    their numbers agree. *)
Definition slot (c : Context) : bool * Z := (Z.land (device_typeid c) 1 =? 0, device_id c).

(** The position the map holds for a context. *)
Definition look (m : ctx_map_t) (c : Context) : option nat :=
  mjoin (dev_list c m !! Z.to_nat (device_id c)).

(** The last position with the slot of [c]. *)
Fixpoint last_slot (i : nat) (cs : list Context) (c : Context) : option nat :=
  match cs with
  | [] => None
  | x :: cs =>
      match last_slot (S i) cs c with
      | Some k => Some k
      | None => if bool_decide (slot x = slot c) then Some i else None
      end
  end.

Notation device_ok := (fun c => 0 <= device_id c).

Lemma padded_insert (ids : list (option nat)) id i k : 0 <= id ->
  mjoin (<[Z.to_nat id := Some i]> (ids ++ replicate (Z.to_nat (id + 1 - py_len ids)) None) !! k) =
    if decide (k = Z.to_nat id) then Some i else mjoin (ids !! k).
Proof.
  intros Hid. destruct (decide (k = Z.to_nat id)) as [->|Hne].
  - rewrite list_lookup_insert_eq; [done|]. rewrite length_app, length_replicate. unfold py_len. lia.
  - rewrite list_lookup_insert_ne by done. destruct (ids !! k) as [x|] eqn:Hk.
    + by rewrite (lookup_app_l_Some _ _ _ _ Hk).
    + apply lookup_ge_None in Hk. rewrite lookup_app_r by done.
      destruct (_ !! _) as [y|] eqn:Hy; [|done]. apply lookup_replicate in Hy as [-> _]. done.
Qed.

Lemma fill_spec cs : forall i m, Forall device_ok cs -> exists m',
  fill_ctx_map i cs m = (Ok tt, m') /\
  forall c, device_ok c -> look m' c = match last_slot i cs c with Some k => Some k | None => look m c end.
Proof.
  induction cs as [|x cs IH]; intros i m Hok; cbn [fill_ctx_map last_slot].
  { exists m. by split. }
  apply Forall_cons in Hok as [Hx Hok]. set (ids := dev_list x m). unfold py_setitem.
  rewrite (proj2 (Z.ltb_ge (device_id x) 0)) by lia.
  rewrite (proj2 (Z.ltb_ge (device_id x) 0)) by lia. cbn [orb].
  rewrite (proj2 (Z.leb_gt _ _)).
  2: { rewrite py_len_app. unfold py_len. rewrite length_replicate. lia. }
  destruct (IH (S i) (if Z.land (device_typeid x) 1 =? 0
    then (<[Z.to_nat (device_id x):=Some i]> (ids ++ replicate (Z.to_nat (device_id x + 1 - py_len ids)) None), m.2)
    else (m.1, <[Z.to_nat (device_id x):=Some i]> (ids ++ replicate (Z.to_nat (device_id x + 1 - py_len ids)) None))) Hok)
    as (m' & -> & Hm').
  exists m'. split; [done|]. intros c Hc. rewrite Hm' by done. destruct (last_slot (S i) cs c); [done|].
  unfold look, dev_list, slot. destruct (Z.land (device_typeid x) 1 =? 0) eqn:Ex, (Z.land (device_typeid c) 1 =? 0) eqn:Ec;
    cbn [fst snd]; rewrite ?padded_insert by done; unfold ids, dev_list; rewrite ?Ex;
    repeat case_decide; case_bool_decide; simplify_eq; try done; try lia;
    match goal with H : (_, _) <> _ |- _ => destruct H; f_equal; lia end.
Qed.

Lemma last_slot_some i cs c k : last_slot i cs c = Some k ->
  exists x, (i <= k)%nat /\ cs !! (k - i)%nat = Some x /\ slot x = slot c.
Proof.
  revert i. induction cs as [|x cs IH]; intros i; cbn; [done|].
  destruct (last_slot (S i) cs c) as [j|] eqn:Hj.
  - intros [= ->]. destruct (IH _ Hj) as (y & Hle & Hy & Hs). exists y. split_and!; [lia| |done].
    by replace (k - i)%nat with (S (k - S i)) by lia.
  - case_bool_decide; [|done]. intros [= ->]. exists x. by rewrite Nat.sub_diag.
Qed.

Lemma last_slot_in i cs c : c ∈ cs -> is_Some (last_slot i cs c).
Proof.
  revert i. induction cs as [|x cs IH]; intros i; [by intros ?%elem_of_nil|]. cbn.
  destruct (last_slot (S i) cs c) eqn:Hl; [eauto|]. intros [->|Hin]%elem_of_cons.
  - rewrite bool_decide_true by done. eauto.
  - destruct (IH (S i) Hin) as [? ?]. congruence.
Qed.

(** ** The invariant *)

Definition mark_of (req : string) : option string := if str_eqb req "null" then None else Some req.

(** Copies of one shape, type and mark on some contexts, with the given contents. *)
Definition copies (sh : list Z) (dt st : string) (mk : option string) (cs : list Context) (vs : list V) : list (arr V) :=
  zip_with (fun c v => mkArr c sh dt st v mk) cs vs.

(** One content per context, and the same on all of them unless the parameter is stored
    sparsely: reading rows of a sparse parameter on one context changes its copy there. *)
Definition contents (p : param) (cs : list Context) (vs : list V) : Prop :=
  length vs = length cs /\ (p_stype p <> "row_sparse"%string -> exists v, Forall (eq v) vs).

(** The arrays of an initialized parameter: one copy per context, all alike, marked with
    the gradient request and with a gradient unless it is ['null']. *)
Record allocated (p : param) (ds : list (arr V)) : Prop := {
  al_ctx : exists cs sh dt st vs, p_ctx_list p = Some cs /\ Forall device_ok cs /\
    p_ctx_map p = Some (fill_ctx_map 0 cs ([], [])).2 /\
    ds = copies sh dt st (mark_of (grad_req p)) cs vs /\ contents p cs vs /\
    match p_grad p with
    | None => grad_req p = "null"%string
    | Some gs => grad_req p <> "null"%string /\
        Forall2 (fun c g => a_ctx g = c /\ a_shape g = sh /\ a_dtype g = dt) cs gs
    end;
}.

Record param_core (p : param) : Prop := {
  pc_req : p_constant p = None -> exists r, p_grad_req p = Some r /\ valid_req r = true;
  pc_deferred : forall i cs di d, p_deferred p = Some (i, cs, di, d) -> Forall device_ok cs;
  pc_fresh : p_data p = None -> p_grad p = None;
  pc_data : forall ds, p_data p = Some ds -> allocated p ds;
}.

(** No parameter is both initialized and waiting to be. *)
Definition param_inv (p : param) : Prop := param_core p /\ (p_data p <> None -> p_deferred p = None).

Lemma copies_map f g sh dt st mk sh' dt' st' mk' cs vs :
  (forall c v, f (mkArr c sh dt st v mk) = mkArr c sh' dt' st' (g v) mk') ->
  map f (copies sh dt st mk cs vs) = copies sh' dt' st' mk' cs (map g vs).
Proof.
  intros Hf. unfold copies. revert vs. induction cs as [|c cs IH]; intros [|v vs]; [done..|]. cbn.
  by rewrite Hf, IH.
Qed.

Lemma copies_same f sh dt st mk sh' dt' st' mk' cs vs :
  (forall c v, f (mkArr c sh dt st v mk) = mkArr c sh' dt' st' v mk') ->
  map f (copies sh dt st mk cs vs) = copies sh' dt' st' mk' cs vs.
Proof. intros Hf. rewrite (copies_map f id _ _ _ _ sh' dt' st' mk') by done. by rewrite map_id. Qed.

Lemma copies_of f sh dt st mk cs (v : V) :
  (forall c, f c = mkArr c sh dt st v mk) -> map f cs = copies sh dt st mk cs (replicate (length cs) v).
Proof. intros Hf. unfold copies. induction cs as [|c cs IH]; [done|]. cbn. by rewrite Hf, IH. Qed.

Lemma copies_ctx sh dt st mk cs vs : length vs = length cs -> map a_ctx (copies sh dt st mk cs vs) = cs.
Proof.
  unfold copies. revert vs. induction cs as [|c cs IH]; intros [|v vs] Hl; try done. cbn. f_equal. apply IH. by injection Hl.
Qed.

Lemma copies_length sh dt st mk cs (vs : list V) : length vs = length cs -> length (copies sh dt st mk cs vs) = length cs.
Proof. intros Hl. unfold copies. rewrite length_zip_with. lia. Qed.

Lemma contents_map g (p q : param) cs vs : p_stype q = p_stype p -> contents p cs vs -> contents q cs (map g vs).
Proof.
  intros Hq [Hl Hv]. split; [by rewrite length_map|]. rewrite Hq. intros (v & Hv')%Hv. exists (g v).
  apply Forall_fmap. eapply Forall_impl; [exact Hv'|]. by intros ? <-.
Qed.

Lemma contents_same (p q : param) cs vs : p_stype q = p_stype p -> contents p cs vs -> contents q cs vs.
Proof. intros Hq Hc. rewrite <- (map_id vs). by apply (contents_map id p). Qed.

Lemma contents_replicate (p : param) cs v : contents p cs (replicate (length cs) v).
Proof. split; [apply length_replicate|]. intros _. exists v. by apply Forall_replicate. Qed.

Lemma copies_grads cs sh dt st mk stype (vs : list V) : length vs = length cs ->
  Forall2 (fun c g => a_ctx g = c /\ a_shape g = sh /\ a_dtype g = dt) cs
    (map (zeros_grad stype) (copies sh dt st mk cs vs)).
Proof.
  unfold copies. revert vs. induction cs as [|c cs IH]; intros [|v vs] Hl; try done; cbn; constructor; [done|].
  apply IH. by injection Hl.
Qed.

Lemma init_grad_core (p : param) cs sh dt st vs :
  (p_constant p = None -> exists r, p_grad_req p = Some r /\ valid_req r = true) ->
  (forall i cs di d, p_deferred p = Some (i, cs, di, d) -> Forall device_ok cs) ->
  p_ctx_list p = Some cs -> Forall device_ok cs -> p_ctx_map p = Some (fill_ctx_map 0 cs ([], [])).2 -> contents p cs vs ->
  (exists mk, p_data p = Some (copies sh dt st mk cs vs)) -> (str_eqb (grad_req p) "null" = true ->
  p_data p = Some (copies sh dt st None cs vs)) ->
  param_core (_init_grad p).
Proof.
  intros Hr Hd Hc Hok Hm Hv (mk & Hdata) Hnull. unfold _init_grad. destruct (str_eqb (grad_req p) "null") eqn:En.
  - split; [done|done|done|]. cbn. rewrite Hnull by done. intros ds [= <-]. split.
    exists cs, sh, dt, st, vs. split_and!; try done.
    + unfold mark_of. change (grad_req (set_arrays _ _ p)) with (grad_req p). by rewrite En.
    + cbn. change (grad_req (set_arrays _ _ p)) with (grad_req p). by apply bool_decide_eq_true in En.
  - split; [done|done|done|]. cbn. intros ds [= <-]. split. exists cs, sh, dt, st, vs. split_and!; try done.
    + change (grad_req (set_arrays _ _ p)) with (grad_req p). unfold mark_of. rewrite En, Hdata. cbn [default].
      by apply copies_same.
    + cbn. change (grad_req (set_arrays _ _ p)) with (grad_req p). rewrite Hdata. cbn. split.
      * by apply bool_decide_eq_false in En.
      * by apply copies_grads, Hv.
Qed.

Lemma init_impl_core d cs (p : param) :
  param_core p -> Forall device_ok cs -> exists p',
    _init_impl d cs p = (Ok tt, p') /\ param_core p' /\ p_deferred p' = p_deferred p /\ p_data p' <> None.
Proof.
  intros Hp Hok. unfold _init_impl. destruct (fill_spec cs 0 ([], []) Hok) as (m & Hm & _). rewrite Hm.
  rewrite !bind_M. cbn [modify]. rewrite bind_M. cbn [lift modify].
  eexists. split; [reflexivity|]. split_and!.
  - assert (map (copyto d) cs = copies (a_shape d) (a_dtype d) (a_stype d) None cs (replicate (length cs) (a_val d)))
      as Hcs by by apply copies_of.
    apply (init_grad_core _ cs (a_shape d) (a_dtype d) (a_stype d) (replicate (length cs) (a_val d))); cbn;
      rewrite ?Hcs; try done.
    + apply Hp.
    + apply Hp.
    + by rewrite Hm.
    + apply contents_replicate.
    + by exists None.
  - unfold _init_grad. by case_match.
  - unfold _init_grad. by case_match.
Qed.

(** Changes of fields the invariant does not mention. *)
Lemma core_same (p q : param) :
  p_constant q = p_constant p -> p_grad_req q = p_grad_req p -> p_deferred q = p_deferred p -> p_data q = p_data p ->
  p_grad q = p_grad p -> p_ctx_list q = p_ctx_list p -> p_ctx_map q = p_ctx_map p ->
  p_stype q = p_stype p -> param_core p -> param_core q.
Proof.
  intros Ec Er Ed Ea Eg El Em Es [H1 H2 H3 H4]. assert (grad_req q = grad_req p) as Egr by (unfold grad_req; by rewrite Ec, Er).
  split; rewrite ?Ec, ?Er, ?Ed, ?Ea, ?Eg; try done. intros ds Hds. destruct (H4 ds Hds) as [(cs & sh & dt & st & vs & Hal)].
  split. exists cs, sh, dt, st, vs. unfold contents. by rewrite El, Em, Eg, Egr, Es.
Qed.

Lemma inv_same (p q : param) :
  p_constant q = p_constant p -> p_grad_req q = p_grad_req p -> p_deferred q = p_deferred p -> p_data q = p_data p ->
  p_grad q = p_grad p -> p_ctx_list q = p_ctx_list p -> p_ctx_map q = p_ctx_map p ->
  p_stype q = p_stype p -> param_inv p -> param_inv q.
Proof.
  intros Ec Er Ed Ea Eg El Em Es [Hc Hx]. split; [by apply (core_same p)|]. by rewrite Ea, Ed.
Qed.

Lemma inv_deferred (p : param) o :
  param_inv p -> p_data p = None -> (forall i cs di d, o = Some (i, cs, di, d) -> Forall device_ok cs) ->
  param_inv (set_deferred o p).
Proof.
  intros [[H1 H2 H3 H4] _] Hd Ho. split; [split; [done|done|done|]|]; cbn; rewrite Hd; done.
Qed.

Lemma set_shape_inv s (p : param) : param_inv p -> param_inv (set_shape s p).2.
Proof.
  intros Hp. unfold set_shape. rewrite bind_M. cbn [get]. destruct (p_shape p).
  - rewrite bind_M. unfold massert, py_assert. destruct (shape_fits _ _); [|done]. by apply (inv_same p).
  - by apply (inv_same p).
Qed.

Lemma grad_req_constant (p : param) : p_constant p <> None -> grad_req p = "null"%string.
Proof. unfold grad_req. by destruct (p_constant p). Qed.

Lemma detach_copies (p : param) cs sh dt st vs mk :
  p_data p = Some (copies sh dt st mk cs vs) ->
  map detach <$> p_data p = Some (copies sh dt st None cs vs).
Proof. intros ->. cbn. f_equal. by apply copies_same. Qed.

Lemma set_grad_req_inv r (p : param) : param_inv p -> param_inv (set_grad_req r p).2.
Proof.
  intros [Hp Hx]. unfold set_grad_req. rewrite bind_M. cbn [get]. destruct (p_constant p) as [k|] eqn:Ek; [done|].
  rewrite bind_M. unfold massert, py_assert. destruct (valid_req r) eqn:Ev; [|done].
  set (r' := if p_differentiable p then r else "null"%string).
  assert (valid_req r' = true) as Hv by (unfold r'; by destruct (p_differentiable p)). clearbody r'. clear Ev. rename Hv into Hvr.
  case_bool_decide as Eq; [done|]. rewrite bind_M. cbn [modify].
  assert (forall q, param_core (_init_grad q) -> p_deferred q = p_deferred p -> p_data p <> None -> param_inv (_init_grad q)) as Hfin.
  { intros q Hq Ed Hd. split; [done|]. intros _. rewrite <- (Hx Hd), <- Ed. unfold _init_grad. by case_match. }
  set (q := put_grad_req (Some r') p).
  assert (forall ds, p_data p = Some ds -> (p_grad p = None \/ str_eqb r' "null" = false) -> param_core (_init_grad q)) as Hinit.
  { intros ds Hds Hor. destruct (pc_data _ Hp ds Hds) as [(cs & sh & dt & st & vs & Hcs & Hok & Hm & -> & Hv & Hg)].
    apply (init_grad_core q cs sh dt st vs); try done.
    - eauto.
    - apply Hp.
    - cbn. eauto.
    - unfold grad_req, q. cbn. rewrite Ek. cbn. intros Hn. destruct Hor as [Hor|]; [|congruence].
      rewrite Hor in Hg. rewrite Hds. unfold mark_of. by rewrite Hg. }
  destruct (p_grad p) as [gs|] eqn:Eg.
  - destruct (p_data p) as [ds|] eqn:Ed; [|by rewrite (pc_fresh _ Hp Ed) in Eg].
    destruct (str_eqb r' "null") eqn:En; cbn [snd].
    + destruct (pc_data _ Hp ds Ed) as [(cs & sh & dt & st & vs & Hcs & Hok & Hm & -> & Hv & Hg)].
      split; [|intros _; by apply Hx]. split; cbn; [eauto|apply Hp|done|].
      intros ds. rewrite (detach_copies p cs sh dt st vs _ Ed). intros [= <-]. split. exists cs, sh, dt, st, vs.
      unfold grad_req. cbn. rewrite Ek. cbn. apply bool_decide_eq_true in En as ->. by split_and!.
    + apply Hfin; [eapply Hinit; eauto|done|done].
  - destruct (p_data p) as [ds|] eqn:Ed; cbn [snd].
    + apply Hfin; [eapply Hinit; eauto|done|done].
    + split; [|by cbn; rewrite Ed]. split; cbn; [eauto|apply Hp|by rewrite Eg|by rewrite Ed].
Qed.

Lemma finish_inv (p : param) : param_core p -> p_data p = None -> param_inv (_finish_deferred_init p).2.
Proof.
  intros Hp Hd. unfold _finish_deferred_init. rewrite bind_M. cbn [get].
  destruct (p_deferred p) as [[[[i cs] di] o]|] eqn:Ed.
  2: { split; [done|]. intros Hn. by destruct Hn. }
  pose proof (pc_deferred _ Hp _ _ _ _ Ed) as Hok.
  assert (param_core (set_deferred None p)) as Hq.
  { destruct Hp as [H1 H2 H3 H4]. split; cbn; try done. rewrite Hd. done. }
  assert (param_inv (set_deferred None p)) as Hqi by (split; [done|done]).
  rewrite bind_M. cbn [modify]. rewrite bind_M. unfold massert, py_assert. destruct (complete_shape (p_shape p)); [|done].
  assert (forall d, param_inv (_init_impl d cs (set_deferred None p)).2) as Hinit.
  { intros d. destruct (init_impl_core d cs _ Hq Hok) as (p' & -> & Hp' & Hdef & _). by split. }
  rewrite bind_M. destruct o as [d|]; [apply Hinit|]. rewrite bind_M. unfold lift.
  destruct (av_initialize _ _ _ _ _ _); [apply Hinit|done].
Qed.

Lemma initialize_inv init ctx di force (p : param) :
  Forall device_ok (ctx_list_of ctx) -> param_inv p -> param_inv (initialize init ctx di force p).2.
Proof.
  intros Hok Hp. unfold initialize. rewrite bind_M. cbn [get]. destruct (_ && _) eqn:Ei; [done|].
  rewrite bind_M. cbn [modify].
  assert (param_inv (set_arrays None None p)) as Hq.
  { destruct Hp as [[H1 H2 H3 H4] _]. split; [|done]. by split. }
  set (i := match init with Some i => i | None => _ end).
  assert (param_inv (set_deferred (Some (i, ctx_list_of ctx, di, None)) (set_arrays None None p))) as Hr.
  { apply inv_deferred; [done|done|]. by intros ? ? ? ? [= <- <- <- <-]. }
  destruct (_ || _); [by destruct (p_allow_deferred p)|]. rewrite bind_M. cbn [modify]. by apply finish_inv; [apply Hr|].
Qed.

Lemma cast_inv t (p : param) : param_inv p -> param_inv (cast t p).2.
Proof.
  intros Hp. unfold cast. rewrite bind_M. cbn [modify]. rewrite bind_M. cbn [get].
  assert (param_inv (put_dtype t p)) as Hq by by apply (inv_same p).
  cbn [p_data put_dtype p_grad]. destruct (p_data p) as [ds|] eqn:Ed; [|done].
  destruct Hp as [Hp Hx]. destruct (pc_data _ Hp ds Ed) as [(cs & sh & dt & st & vs & Hcs & Hok & Hm & -> & Hv & Hg)].
  destruct (p_grad p) as [gs|] eqn:Eg; (split; [split|]); cbn [modify snd set_arrays put_dtype p_constant p_grad_req p_deferred
    p_data p_grad]; try apply Hp; try done; try (intros _; apply Hx; by rewrite Ed).
  - intros ds [= <-]. split. destruct Hg as [Hne Hg]. exists cs, sh, t, st, (map (av_astype (Init := Init) t) vs).
    change (grad_req (set_arrays _ _ _)) with (grad_req p). change (grad_req (put_dtype t p)) with (grad_req p).
    split_and!; try done.
    + unfold mark_of, str_eqb. rewrite (bool_decide_false _ Hne), map_map. by apply copies_map.
    + by apply (contents_map _ p).
    + cbn. split; [done|]. apply Forall2_fmap_r. eapply Forall2_impl; [exact Hg|]. by intros ? ? (? & ? & ?).
  - intros ds [= <-]. split. exists cs, sh, t, st, (map (av_astype (Init := Init) t) vs).
    change (grad_req (set_arrays _ _ _)) with (grad_req p). split_and!; try done.
    + unfold mark_of. rewrite Hg. by apply copies_map.
    + by apply (contents_map _ p).
Qed.

Lemma zero_grad_inv (p : param) : param_inv p -> param_inv (zero_grad p).2.
Proof.
  intros Hp. unfold zero_grad. rewrite bind_M. cbn [get]. destruct (p_grad p) as [gs|] eqn:Eg; [|done].
  destruct Hp as [Hp Hx]. split; [|done]. split; cbn; [apply Hp|apply Hp| |].
  - intros Hd. by rewrite (pc_fresh _ Hp Hd) in Eg.
  - intros ds Hds. destruct (pc_data _ Hp ds Hds) as [(cs & sh & dt & st & vs & Hcs & Hok & Hm & -> & Hv & Hg)].
    rewrite Eg in Hg. destruct Hg as [Hne Hg]. split. exists cs, sh, dt, st, vs. split_and!; try done. cbn. split; [done|].
    eapply Forall2_fmap_r, Forall2_impl; [exact Hg|]. done.
Qed.

(** *** With the trainer *)

Notation state := (T * param)%type.

Lemma on_param_snd {A} (m : M param A) (s : state) : (on_param m s).2.2 = (m s.2).2.
Proof. unfold on_param. by destruct (m s.2). Qed.

Lemma on_trainer_snd {A} (m : M T A) (s : state) : (on_trainer m s).2.2 = s.2.
Proof. unfold on_trainer. by destruct (m s.1). Qed.

(** [_reduce] does not change the parameter: the rows are pulled into a new array. *)
Lemma reduce_param (s : state) : (_reduce s).2.2 = s.2.
Proof.
  unfold _reduce. rewrite bind_M. cbn [get]. destruct (str_eqb _ _).
  - rewrite bind_M. unfold lift. destruct (list_data s.2) as [[|a l]|]; [done| |done]. by destruct (forallb _ _).
  - destruct (p_shape s.2) as [[|z sh]|]; [done| |done]. destruct (p_trainer s.2) as [t|]; [|done].
    rewrite bind_M. pose proof (on_trainer_snd (tr_row_sparse_pull t (p_name s.2)
      [mkArr cpu (z :: sh) "float32" "row_sparse" (av_zeros (Init := Init) (z :: sh) "float32") None] None) s) as Hs.
    destruct (on_trainer _ s) as [[[|a l]|e] s']; done.
Qed.

Lemma alter_copies i v sh dt st mk cs (vs : list V) :
  alter (with_val v) i (copies sh dt st mk cs vs) = copies sh dt st mk cs (<[i:=v]> vs).
Proof.
  unfold copies. revert i vs. induction cs as [|c cs IH]; intros i [|w vs]; [done|done|by destruct i|].
  destruct i as [|i]; cbn; [done|]. f_equal. apply IH.
Qed.

(** Writing contents to some of the copies leaves copies on the same contexts. *)
Lemma write_vals_copies ws sh dt st mk cs (vs : list V) :
  exists vs', write_vals ws (copies sh dt st mk cs vs) = copies sh dt st mk cs vs' /\ length vs' = length vs.
Proof.
  unfold write_vals. revert vs. induction ws as [|[i v] ws IH]; intros vs; [by exists vs|]. cbn.
  rewrite alter_copies. destruct (IH (<[i:=v]> vs)) as (vs' & -> & Hl). exists vs'. split; [done|].
  by rewrite Hl, length_insert.
Qed.

Lemma write_vals_inv ws (p : param) :
  p_stype p = "row_sparse"%string -> param_inv p ->
  param_inv (set_arrays (write_vals ws <$> p_data p) (p_grad p) p).
Proof.
  intros Hst [Hp Hx]. destruct (p_data p) as [ds|] eqn:Ed.
  - destruct (pc_data _ Hp ds Ed) as [(cs & sh & dt & st & vs & Hcs & Hok & Hm & -> & [Hl _] & Hg)].
    destruct (write_vals_copies ws sh dt st (mark_of (grad_req p)) cs vs) as (vs' & Hw & Hl').
    split; [|intros _; by apply Hx]. split; cbn; [apply Hp|apply Hp|done|]. intros ds [= <-].
    split. exists cs, sh, dt, st, vs'. rewrite Hw. split_and!; try done. split; [by rewrite Hl'|done].
  - split; [|done]. split; cbn; [apply Hp|apply Hp| |done]. intros _. by apply (pc_fresh _ Hp).
Qed.

Lemma get_row_sparse_inv c v (s : state) :
  p_stype s.2 = "row_sparse"%string -> param_inv s.2 -> param_inv (_get_row_sparse c v s).2.2.
Proof.
  intros Hst Hp. unfold _get_row_sparse. rewrite bind_M. cbn [get]. destruct (p_trainer s.2) as [t|]; [|done].
  rewrite bind_M. unfold lift. destruct (_check_and_get _ _ _) as [res|e]; [|done].
  rewrite bind_M. pose proof (on_trainer_snd (tr_row_sparse_pull t (p_name s.2) (map snd res) (Some v)) s) as Hs.
  destruct (on_trainer _ s) as [[vs|e] s1]; cbn [snd] in Hs |- *; [|by rewrite Hs].
  rewrite bind_M. unfold on_param. cbn [modify snd fst]. rewrite Hs. by apply write_vals_inv.
Qed.

Lemma row_sparse_data_inv c v (s : state) : param_inv s.2 -> param_inv (row_sparse_data c v s).2.2.
Proof.
  intros Hp. unfold row_sparse_data. rewrite bind_M. cbn [get]. destruct (str_eqb _ _) eqn:E; [|done].
  apply bool_decide_eq_true in E. by apply get_row_sparse_inv.
Qed.

Lemma list_row_sparse_data_inv v (s : state) : param_inv s.2 -> param_inv (list_row_sparse_data v s).2.2.
Proof.
  intros Hp. unfold list_row_sparse_data. rewrite bind_M. cbn [get]. destruct (str_eqb _ _) eqn:E; [|done].
  apply bool_decide_eq_true in E. by apply get_row_sparse_inv.
Qed.

Lemma init_impl_inv d cs (p : param) :
  param_inv p -> Forall device_ok cs -> p_deferred p = None -> param_inv (_init_impl d cs p).2.
Proof.
  intros [Hp Hx] Hok Hd. destruct (init_impl_core d cs p Hp Hok) as (p' & -> & Hp' & Hdef & _). split; [done|].
  intros _. cbn. congruence.
Qed.

Lemma reset_ctx_inv ctx (s : state) :
  Forall device_ok (ctx_list_of ctx) -> param_inv s.2 -> param_inv (reset_ctx ctx s).2.2.
Proof.
  intros Hok Hp. unfold reset_ctx. rewrite bind_M. cbn [get].
  assert (p_data s.2 = None -> forall i di o, param_inv (set_deferred (Some (i, ctx_list_of ctx, di, o)) s.2)) as Hdef.
  { intros Hn i di o. apply inv_deferred; [done|done|]. by intros ? ? ? ? [= <- <- <- <-]. }
  destruct (p_data s.2) as [[|a ds]|] eqn:Ed.
  - destruct Hp as [Hp Hx]. rewrite Hx by (by rewrite Ed). done.
  - rewrite bind_M. pose proof (reduce_param s) as Hr. destruct (_reduce s) as [[d|e] s']; cbn in *; [|by rewrite Hr].
    rewrite on_param_snd, Hr. apply init_impl_inv; [done|done|]. apply Hp. by rewrite Ed.
  - destruct (p_deferred s.2) as [[[[i ?] di] o]|]; [|done]. rewrite on_param_snd. by apply Hdef.
Qed.

(** Assigning to copies gives equal copies, or fails on the first. *)
Lemma assign_all_copies (d : arr V) (p : param) cs sh dt st vs mk :
  contents p cs vs -> exists vs', (assign_all d (copies sh dt st mk cs vs)).2 = copies sh dt st mk cs vs' /\ contents p cs vs'.
Proof.
  intros Hv. destruct (if bool_decide (a_shape d = sh) then Ok (a_val d)
    else av_broadcast (Init := Init) (a_shape d) sh (a_val d)) as [w|e] eqn:Ew.
  - exists (replicate (length cs) (av_astype (Init := Init) dt w)). split; [|apply contents_replicate].
    destruct Hv as [Hl _]. unfold copies. revert vs Hl. induction cs as [|c cs IH]; intros [|v vs] Hl; try done.
    cbn. unfold assign. cbn. rewrite Ew. cbn. injection Hl as Hl. specialize (IH vs Hl).
    destruct (assign_all d _) as [r l]. cbn in *. by rewrite IH.
  - exists vs. split; [|done]. unfold copies. destruct cs as [|c cs], vs as [|v vs]; try done. cbn. unfold assign. cbn.
    by rewrite Ew.
Qed.

Lemma set_data_inv d (s : state) : param_inv s.2 -> param_inv (set_data d s).2.2.
Proof.
  intros Hp0. unfold set_data. rewrite bind_M. pose proof (set_shape_inv (a_shape d) s.2 Hp0) as Hp.
  rewrite <- (on_param_snd (set_shape (a_shape d)) s) in Hp. destruct (on_param _ s) as [[u|e] s1]; cbn in Hp; [|done].
  clear Hp0 s. rename s1 into s. rewrite bind_M. cbn [get]. destruct (p_data s.2) as [ds|] eqn:Ed.
  - rewrite bind_M. set (m := match p_trainer s.2 with Some _ => _ | None => _ end : M state unit).
    assert ((m s).2.2 = s.2) as Hm.
    { subst m. destruct (p_trainer s.2); [|done]. destruct (tr_synced _ _ _); [|done]. apply on_trainer_snd. }
    destruct (m s) as [[u'|e] s1]; cbn in Hm |- *; [|by rewrite Hm].
    destruct Hp as [Hp Hx]. destruct (pc_data _ Hp ds Ed) as [(cs & sh & dt & st & vs & Hcs & Hok & Hmap & -> & Hv & Hg)].
    destruct (assign_all_copies d s.2 cs sh dt st vs (mark_of (grad_req s.2)) Hv) as (vs' & Hvs & Hv').
    destruct (assign_all _ _) as [r l]. cbn in Hvs. subst l. rewrite bind_M. unfold on_param at 1. cbn [modify].
    cbn. rewrite Hm. split; [|intros _; apply Hx; by rewrite Ed].
    split; cbn; [apply Hp|apply Hp|done|]. intros ds [= <-]. split. exists cs, sh, dt, st, vs'. by split_and!.
  - destruct (p_deferred s.2) as [[[[i cs] di] o]|] eqn:Edef; [|done]. rewrite on_param_snd.
    apply inv_deferred; [done|done|]. intros ? ? ? ? [= <- <- <- <-]. destruct Hp as [Hp _]. by eapply pc_deferred.
Qed.

Lemma inv_clear (p : param) : param_core p -> param_inv (set_deferred None p).
Proof.
  intros [H1 H2 H3 H4]. split; [|done]. split; cbn; try done. intros ds Hds. destruct (H4 ds Hds) as [Hal].
  split. exact Hal.
Qed.

Lemma load_init_inv d ctx (s : state) :
  match ctx with NoCtx => True | OneCtx c => device_ok c | ManyCtx l => Forall device_ok l end ->
  param_inv s.2 -> param_inv (_load_init d ctx s).2.2.
Proof.
  intros Hctx Hp. unfold _load_init. rewrite bind_M. cbn [get]. rewrite bind_M.
  set (m := match p_shape s.2 with Some (_ :: _) => _ | _ => _ end : M state unit).
  assert (param_inv (m s).2.2 /\ p_data (m s).2.2 = p_data s.2 /\ p_deferred (m s).2.2 = p_deferred s.2) as Hm.
  { subst m. destruct (p_shape s.2) as [[|z sh]|]; [done| |done]. rewrite bind_M. unfold massert, py_assert.
    destruct (forallb _ _); [|done]. rewrite on_param_snd. split; [by apply set_shape_inv|].
    unfold set_shape. rewrite bind_M. cbn [get]. destruct (p_shape s.2) as [old|]; [|done].
    rewrite bind_M. unfold massert, py_assert. by destruct (shape_fits _ _). }
  destruct (m s) as [[u|e] s1]; cbn in Hm; destruct Hm as (Hp1 & Hd1 & Hf1); [|done]. clear m.
  rewrite bind_M. unfold massert at 1, py_assert at 1. destruct (str_eqb (p_dtype s.2) "" || _); [|done].
  set (d' := if str_eqb _ _ then d else _). clearbody d'. rewrite bind_M.
  set (body := match p_data s.2 with None => _ | Some _ => _ end : M state unit).
  assert (param_core (body s1).2.2 /\ ((body s1).1 <> Ok tt -> param_inv (body s1).2.2)) as [Hb1 Hb2].
  2: { destruct (body s1) as [[[]|e] s2]; cbn in Hb1, Hb2; [by apply inv_clear|by apply Hb2]. }
  subst body. destruct (p_data s.2) as [ds|] eqn:Ed.
  - rewrite bind_M. unfold massert, py_assert. destruct (match ctx with NoCtx => _ | _ => _ end).
    + pose proof (set_data_inv d' s1 Hp1) as Hs. split; [apply Hs|done].
    + cbn. split; [apply Hp1|done].
  - rewrite bind_M. set (cs := match p_deferred s.2 with Some _ => _ | None => _ end : M state (list Context)).
    assert (exists r, cs s1 = (r, s1) /\ forall l, r = Ok l -> Forall device_ok l) as (r & -> & Hr).
    { subst cs. destruct (p_deferred s.2) as [[[[i l] di] o]|] eqn:Edef.
      - rewrite bind_M. unfold massert, py_assert. destruct (match ctx with NoCtx => _ | _ => _ end).
        + exists (Ok l). split; [done|]. intros ? [= <-]. destruct Hp as [Hp _]. by eapply pc_deferred.
        + by exists (Raise AssertionError).
      - eexists. split; [reflexivity|]. intros ? [= <-]. destruct ctx; [by repeat constructor| |done]. by repeat constructor. }
    destruct r as [l|e]; [|cbn; split; [apply Hp1|done]]. rewrite on_param_snd. unfold on_param.
    destruct (init_impl_core d' l s1.2 (proj1 Hp1) (Hr l eq_refl)) as (p' & -> & Hp' & _). by split.
Qed.

(** A call of the interface of a parameter. *)
Inductive param_call :=
  | CInitialize (init : option Init) (ctx : ctxs_arg) (default_init : Init) (force_reinit : bool)
  | CFinishDeferred
  | CSetShape (s : list Z)
  | CSetGradReq (r : string)
  | CSetData (d : arr V)
  | CLoad (d : arr V) (ctx : ctxs_arg)
  | CResetCtx (ctx : ctxs_arg)
  | CCast (t : string)
  | CZeroGrad
  | CReduce
  | CRowSparse (c : Context) (rows : V)
  | CListRowSparse (rows : V)
  | CSetTrainer (t : option nat).

Definition run_call (c : param_call) : M state unit :=
  match c with
  | CInitialize i ctx di f => on_param (initialize i ctx di f)
  | CFinishDeferred => on_param _finish_deferred_init
  | CSetShape s => on_param (set_shape s)
  | CSetGradReq r => on_param (set_grad_req r)
  | CSetData d => set_data d
  | CLoad d ctx => _load_init d ctx
  | CResetCtx ctx => reset_ctx ctx
  | CCast t => on_param (cast t)
  | CZeroGrad => on_param zero_grad
  | CReduce => _ ← _reduce; mret tt
  | CRowSparse c rows => _ ← row_sparse_data c rows; mret tt
  | CListRowSparse rows => _ ← list_row_sparse_data rows; mret tt
  | CSetTrainer t => on_param (_set_trainer t)
  end.

(** Several calls, exceptions caught. *)
Definition run_calls (cs : list param_call) (s : state) : state := fold_left (fun s c => (run_call c s).2) cs s.

(** Devices have non-negative numbers. *)
Definition ctxs_ok (ctx : ctxs_arg) : Prop :=
  match ctx with NoCtx => device_ok current | OneCtx c => device_ok c | ManyCtx l => Forall device_ok l end.
Definition call_ok (c : param_call) : Prop :=
  match c with CInitialize _ ctx _ _ | CLoad _ ctx | CResetCtx ctx => ctxs_ok ctx | _ => True end.

Lemma ctxs_ok_list ctx : ctxs_ok ctx -> Forall device_ok (ctx_list_of ctx).
Proof. destruct ctx; cbn; intros; [by repeat constructor..|done]. Qed.

Lemma finish_deferred_inv (p : param) : param_inv p -> param_inv (_finish_deferred_init p).2.
Proof.
  intros Hp. destruct (p_data p) as [ds|] eqn:Ed; [|by apply finish_inv; [apply Hp|]].
  unfold _finish_deferred_init. rewrite bind_M. cbn [get]. destruct Hp as [Hp Hx]. rewrite Hx by (by rewrite Ed). done.
Qed.

Lemma run_call_inv c (s : state) : call_ok c -> param_inv s.2 -> param_inv (run_call c s).2.2.
Proof.
  intros Hok Hp. destruct c; cbn [run_call]; rewrite ?on_param_snd.
  - by apply initialize_inv; [apply ctxs_ok_list|].
  - by apply finish_deferred_inv.
  - by apply set_shape_inv.
  - by apply set_grad_req_inv.
  - by apply set_data_inv.
  - apply load_init_inv; [|done]. by destruct ctx.
  - by apply reset_ctx_inv; [apply ctxs_ok_list|].
  - by apply cast_inv.
  - by apply zero_grad_inv.
  - rewrite bind_M. pose proof (reduce_param s) as Hr. destruct (_reduce s) as [[]]; cbn in *; by rewrite Hr.
  - rewrite bind_M. pose proof (row_sparse_data_inv c rows s Hp) as Hr. by destruct (row_sparse_data c rows s) as [[]].
  - rewrite bind_M. pose proof (list_row_sparse_data_inv rows s Hp) as Hr. by destruct (list_row_sparse_data rows s) as [[]].
  - unfold _set_trainer. rewrite bind_M. cbn [get].
    assert (forall t, param_inv (put_trainer t s.2)) as Ht by (intros; by apply (inv_same s.2)).
    destruct (p_trainer s.2), t; try apply Ht. destruct (_ && _); [done|apply Ht].
Qed.

Lemma init_inv_param name req shape dtype lr wd init ad df st gst k (p : param) :
  Param_init name req shape dtype lr wd init ad df st gst k = Ok p -> param_inv p.
Proof.
  unfold Param_init. set (p0 := mkParam _ _ _ _ _ _ _ _ _ _ _ _ _ _ _ _ _ _). 
  unfold set_grad_req. rewrite bind_M. cbn [get]. cbn [p_constant p0]. destruct k as [k|].
  - cbn. destruct (valid_stype gst); [|done]. cbn. destruct (valid_stype st); [|done]. intros [= <-]. by repeat split.
  - rewrite bind_M. unfold massert, py_assert at 1. destruct (valid_req req) eqn:Ev; [|done].
    case_bool_decide; [done|]. rewrite bind_M. cbn. destruct (valid_stype gst); [|done]. cbn.
    destruct (valid_stype st); [|done]. intros [= <-]. split; [|done]. split; cbn; try done. intros _. eexists. split; [done|].
    by destruct df.
Qed.

Lemma run_calls_inv calls (s : state) : Forall call_ok calls -> param_inv s.2 -> param_inv (run_calls calls s).2.
Proof.
  intros Hok. unfold run_calls. revert s. induction Hok as [|c calls Hc _ IH]; intros s Hs; [done|]. cbn.
  apply IH. by apply run_call_inv.
Qed.

Lemma set_grad_req_name r (p : param) : p_name (set_grad_req r p).2 = p_name p.
Proof.
  unfold set_grad_req. rewrite bind_M. cbn [get]. destruct (p_constant p); [done|]. rewrite bind_M. unfold massert, py_assert.
  destruct (valid_req r); [|done]. case_bool_decide; [done|]. rewrite bind_M. cbn [modify].
  assert (forall q : param, p_name (_init_grad q) = p_name q) as Hi by (intros; unfold _init_grad; by destruct (str_eqb _ _)).
  destruct (p_grad p), (p_data p); try destruct (str_eqb _ _); cbn [snd modify]; try rewrite Hi; done.
Qed.

Lemma Param_init_name name req shape dtype lr wd init ad df st gst k (p : param) :
  Param_init name req shape dtype lr wd init ad df st gst k = Ok p -> p_name p = name.
Proof.
  unfold Param_init. set (p0 := mkParam _ _ _ _ _ _ _ _ _ _ _ _ _ _ _ _ _ _).
  pose proof (set_grad_req_name req p0) as Hn. destruct (set_grad_req req p0) as [[u|e] q]; [|done].
  unfold py_assert. destruct (valid_stype gst); [|done]. cbn. destruct (valid_stype st); [|done]. by intros [= <-].
Qed.


(** ** Access by context *)

Lemma look_empty c : look ([], []) c = None.
Proof. unfold look, dev_list. by destruct (_ =? 0). Qed.

Lemma check_and_get_on (p : param) cs (l : list (arr V)) c :
  Forall device_ok cs -> device_ok c -> p_ctx_map p = Some (fill_ctx_map 0 cs ([], [])).2 -> length l = length cs ->
  _check_and_get p (Some l) (OnCtx c) =
    match last_slot 0 cs c with
    | Some k => match l !! k with Some a => Ok [a] | None => Raise IndexError end
    | None => Raise RuntimeError
    end.
Proof.
  intros Hok Hc Hm Hlen. cbv beta in Hc. destruct (fill_spec cs 0 ([], []) Hok) as (m & Em & Hlook). rewrite Em in Hm. cbn in Hm.
  specialize (Hlook c Hc). rewrite look_empty in Hlook.
  unfold _check_and_get. rewrite Hm. cbv zeta. unfold look in Hlook.
  set (ids := dev_list c m) in *. destruct (Z.ltb_spec (device_id c) (py_len ids)) as [Hlt|Hge].
  - rewrite py_index_nonneg by done.
    destruct (lookup_lt_is_Some_2 ids (Z.to_nat (device_id c))) as [o Ho]; [unfold py_len in Hlt; lia|].
    rewrite Ho in Hlook |- *. cbn [mbind result_bind mjoin option_join] in *.
    destruct o as [i|], (last_slot 0 cs c) as [k|]; try done. injection Hlook as ->.
    rewrite py_index_nonneg, Nat2Z.id by lia. by destruct (l !! k).
  - rewrite lookup_ge_None_2 in Hlook by (unfold py_len in Hge; lia). by destruct (last_slot 0 cs c).
Qed.

(** Once a parameter is initialized on some contexts, [data(ctx)] is the copy on
    [ctx] when [ctx] is one of them (and no other one has its slot of the map), and
    raises [RuntimeError] on a device of which no slot is filled. *)
Theorem data_on_context (p : param) ds cs c :
  param_inv p -> p_data p = Some ds -> p_ctx_list p = Some cs -> p_stype p = "default"%string -> device_ok c ->
  (c ∈ cs -> NoDup (map slot cs) -> exists a, data p (OnCtx c) = Ok [a] /\ a ∈ ds /\ a_ctx a = c) /\
  (slot c ∉ map slot cs -> data p (OnCtx c) = Raise RuntimeError) /\
  (list_data p = Ok ds /\ map a_ctx ds = cs).
Proof.
  intros [Hp _] Hd Hcs Hst Hc. destruct (pc_data _ Hp ds Hd) as [(cs' & sh & dt & st & vs & Hcs' & Hok & Hm & -> & [Hl Hv] & _)].
  assert (cs' = cs) as -> by congruence. unfold list_data, data. rewrite Hst, Hd. cbn [str_eqb].
  change (negb (str_eqb "default" "default")) with false. cbv iota.
  rewrite (check_and_get_on p cs) by (done || by apply copies_length). split_and!.
  - intros Hin Hnd. destruct (last_slot_in 0 cs c Hin) as [k Hk]. rewrite Hk.
    destruct (last_slot_some _ _ _ _ Hk) as (x & _ & Hx & Hs). rewrite Nat.sub_0_r in Hx.
    assert (x = c) as ->.
    { apply list_elem_of_lookup in Hin as [j Hj]. assert (k = j) as ->; [|congruence].
      apply (NoDup_lookup _ k j (slot c) Hnd); rewrite list_lookup_fmap; [by rewrite Hx, <- Hs|by rewrite Hj]. }
    destruct (lookup_lt_is_Some_2 vs k) as [v Hvk]; [rewrite Hl; by eapply lookup_lt_Some|].
    assert (copies sh dt st (mark_of (grad_req p)) cs vs !! k = Some (mkArr c sh dt st v (mark_of (grad_req p)))) as Ha
      by (apply lookup_zip_with_Some; eauto).
    rewrite Ha. eexists. split; [done|]. split; [by eapply list_elem_of_lookup_2|done].
  - intros Hn. destruct (last_slot 0 cs c) as [k|] eqn:Hk; [|done].
    destruct (last_slot_some _ _ _ _ Hk) as (x & _ & Hx & Hs). destruct Hn. rewrite <- Hs.
    apply (list_elem_of_fmap_2 slot). by eapply list_elem_of_lookup_2.
  - done.
  - by apply copies_ctx.
Qed.

(** ** Loading *)

Definition load_ctxs (ctx : ctxs_arg) : list Context := match ctx with NoCtx => [cpu] | OneCtx c => [c] | ManyCtx l => l end.

Lemma shape_fits_refl s : shape_fits s s = true.
Proof. unfold shape_fits. rewrite Nat.eqb_refl. induction s as [|a s IH]; [done|]. cbn in *. by rewrite Z.eqb_refl, orb_true_r. Qed.

Lemma zip_same_fits s : forallb (fun x : Z * Z => (x.1 =? 0) || (x.1 =? x.2)) (zip s s) = true.
Proof. induction s as [|a s IH]; [done|]. cbn. by rewrite Z.eqb_refl, orb_true_r. Qed.

Lemma zip_same_fill s : map (fun x : Z * Z => if x.1 =? 0 then x.2 else x.1) (zip s s) = s.
Proof. induction s as [|a s IH]; [done|]. cbn. rewrite IH. by destruct (a =? 0). Qed.

(** Loading a matching array into a parameter that is neither initialized nor deferred. *)
Lemma load_fresh (d : arr V) ctx t (p : param) :
  Forall device_ok (load_ctxs ctx) -> p_data p = None -> p_deferred p = None -> p_shape p = Some (a_shape d) ->
  p_dtype p = a_dtype d -> p_stype p = a_stype d ->
  exists p', _load_init d ctx (t, p) = (Ok tt, (t, p')) /\ p_name p' = p_name p /\
    p_data p' = Some (map (fun c => mkArr c (a_shape d) (a_dtype d) (a_stype d) (a_val d) (mark_of (grad_req p)))
                        (load_ctxs ctx)).
Proof.
  intros Hok Hd Hdef Hs Ht Hst. unfold _load_init. rewrite bind_M. cbn [get]. cbn [snd].
  rewrite Hs, Ht, Hst, Hd, Hdef. rewrite bind_M.
  assert ((match a_shape d with
     | [] => mret ()
     | _ :: _ => _ ← massert (forallb (fun x : Z * Z => (x.1 =? 0) || (x.1 =? x.2)) (zip (a_shape d) (a_shape d)));
         on_param (set_shape (map (fun x : Z * Z => if x.1 =? 0 then x.2 else x.1) (zip (a_shape d) (a_shape d))))
     end : M state unit) (t, p) = (Ok tt, (t, put_shape (Some (a_shape d)) p))) as Hshape.
  { destruct (a_shape d) as [|z sh] eqn:Ea; [by rewrite <- Hs; destruct p|].
    rewrite <- Ea in *. rewrite zip_same_fits, zip_same_fill, bind_M. cbn [massert py_assert]. unfold on_param, set_shape.
    rewrite bind_M. cbn [get snd]. rewrite Hs, bind_M. unfold massert, py_assert. by rewrite shape_fits_refl. }
  rewrite Hshape. rewrite bind_M. unfold massert at 1, py_assert, str_eqb. rewrite (bool_decide_true (a_dtype d = a_dtype d)) by done.
  rewrite orb_true_r. rewrite (bool_decide_true (a_stype d = a_stype d)) by done. rewrite bind_M, bind_M.
  change (match ctx with NoCtx => [cpu] | OneCtx c => [c] | ManyCtx l => l end) with (load_ctxs ctx).
  unfold on_param. cbn [mret M_ret snd fst]. unfold _init_impl.
  destruct (fill_spec (load_ctxs ctx) 0 ([], []) Hok) as (m & -> & _). rewrite !bind_M. cbn [modify]. rewrite bind_M. cbn [lift modify].
  eexists. split; [reflexivity|]. unfold _init_grad, mark_of.
  change (grad_req (set_arrays _ _ _)) with (grad_req p). change (grad_req _) with (grad_req p).
  destruct (str_eqb (grad_req p) "null"); [done|]. cbn. by rewrite map_map.
Qed.

(** ** Deferred initialization *)

(** Initialization that waits for the shape has the same effect as initialization
    after the shape is known: [initialize], then filling in the unknown dimensions, then
    [_finish_deferred_init], ends in the same state and with the same result as filling
    them in first. *)
Theorem deferred_initialization (p : param) old new i ctx di force :
  p_shape p = Some old -> complete_shape (Some old) = false -> p_allow_deferred p = true ->
  p_data p = None \/ force = true ->
  shape_fits old new = true -> new <> [] -> complete_shape (Some new) = true ->
  (_ ← initialize i ctx di force; _ ← set_shape new; _finish_deferred_init) p =
  (_ ← set_shape new; initialize i ctx di force) p.
Proof.
  intros Hs Hold Had Hd Hfit Hne Hnew.
  assert (bool_decide (p_data p ≠ None) && negb force = false) as Hgo.
  { destruct Hd as [->| ->]; [done|]. by rewrite andb_false_r. }
  rewrite bind_M. unfold initialize at 1. rewrite bind_M. cbn [get]. rewrite Hgo, bind_M. cbn [modify].
  rewrite Hs, Hold. cbn [negb orb]. rewrite orb_true_r, Had. cbn [modify]. rewrite bind_M.
  unfold set_shape at 1. rewrite bind_M. cbn [get set_deferred set_arrays p_shape]. rewrite Hs, bind_M.
  unfold massert at 1, py_assert. rewrite Hfit. cbn [modify].
  rewrite bind_M. unfold set_shape. rewrite bind_M. cbn [get]. rewrite Hs, bind_M. unfold massert at 1, py_assert.
  rewrite Hfit. cbn [modify]. unfold initialize. rewrite bind_M. cbn [get put_shape p_data p_shape]. rewrite Hgo, bind_M.
  cbn [modify]. rewrite Hnew, bool_decide_false by congruence. cbn [negb orb]. rewrite bind_M. cbn [modify]. reflexivity.
Qed.
End GluonParam.

(** ** Witnesses and edge cases *)

(** Contents are integers, an initializer is the integer it fills with. *)
#[export] Instance Z_ops : ArrayOps Z Z := {
  av_zeros _ _ := 0;
  av_average l := match l with a :: _ => a | [] => 0 end;
  av_astype _ v := v;
  av_tostype _ v := v;
  av_broadcast _ _ v := Ok v;
  av_initialize _ i _ _ _ _ := Ok i;
}.
#[export] Instance no_trainer : TrainerOps Z unit := {
  tr_synced _ _ _ := false;
  tr_reset_kvstore _ := mret tt;
  tr_row_sparse_pull _ _ l _ := mret (map a_val l);
}.

Definition gpu (n : Z) : Context := mkContext 2 n.

Definition weight (shape : list Z) : Param Z Z unit :=
  mkParam "weight" None None None None None None true true (Some "write"%string) (Some shape) "float32" tt tt None
    "default" "default" None.

Definition weight_calls : list (@param_call Z Z) :=
  [CSetShape [3; 4]; CInitialize None (ManyCtx [gpu 0; gpu 1]) 7 false; CSetGradReq "null"; CCast "float16";
   CResetCtx (OneCtx cpu); CSetGradReq "add"].

(** A store that holds one integer, the contents of every pull. *)
#[export] Instance row_store : TrainerOps Z Z := {
  tr_synced _ _ _ := false;
  tr_reset_kvstore _ := mret tt;
  tr_row_sparse_pull _ _ l _ := fun z => (Ok (map (fun _ => z) l), z);
}.

Definition sparse_weight : Param Z Z unit :=
  mkParam "weight" None None None None None None true true (Some "write"%string) (Some [3; 4]) "float32" tt tt None
    "row_sparse" "row_sparse" None.

Definition sparse_calls : list (@param_call Z Z) :=
  [CInitialize None (ManyCtx [gpu 0; gpu 1]) 7 false; CSetTrainer (Some 0%nat); CRowSparse (gpu 1) 2].


(** The copies of a sparse parameter differ after a read of rows on one context. *)
Example sparse_copies_differ :
  a_val <$> default [] (p_data (run_calls cpu sparse_calls (5, sparse_weight)).2) = [7; 5].
Proof. vm_compute. reflexivity. Qed.

Lemma data_on_context_witness :
  exists p : Param Z Z unit, p = (run_calls cpu (take 2 weight_calls) (tt, weight [3; 0])).2 /\
    (exists a, data cpu p (OnCtx (gpu 1)) = Ok [a] /\ a_ctx a = gpu 1) /\
    data cpu p (OnCtx cpu) = Raise RuntimeError.
Proof.
  eexists. split; [reflexivity|].
  destruct (data_on_context cpu (run_calls cpu (take 2 weight_calls) (tt, weight [3; 0])).2
    (map (fun c => mkArr c [3; 4] "float32" "default" 7 (Some "write"%string)) [gpu 0; gpu 1]) [gpu 0; gpu 1] (gpu 1))
    as ((a & Ha & _ & Hc) & _ & _).
  - apply run_calls_inv; [repeat constructor; cbn; lia|].
    apply (init_inv_param "weight" "write" (Some [3; 0]) "float32" tt tt None true true "default" "default" None).
    vm_compute. reflexivity.
  - vm_compute. reflexivity.
  - vm_compute. reflexivity.
  - vm_compute. reflexivity.
  - cbn. lia.
  - apply (bool_decide_unpack _). vm_compute. exact I.
  - apply (bool_decide_unpack _). vm_compute. exact I.
  - split; [by exists a|]. vm_compute. reflexivity.
Defined.

Lemma deferred_initialization_witness :
  (_ ← initialize cpu None (OneCtx (gpu 0)) 7 false; _ ← set_shape [3; 4]; _finish_deferred_init) (weight [3; 0]) =
  (_ ← set_shape [3; 4]; initialize cpu None (OneCtx (gpu 0)) 7 false) (weight [3; 0]).
Proof. apply (deferred_initialization cpu (weight [3; 0]) [3; 0] [3; 4]); vm_compute; auto; discriminate. Defined.

(** [cpu(0)] and [cpu_pinned(0)] have the same slot: [data(cpu(0))] of a parameter that
    is initialized on both is the copy on [cpu_pinned(0)]. *)
Example slots_collide :
  exists a, data cpu (run_calls cpu [CInitialize None (ManyCtx [cpu; cpu_pinned 0]) 7 false] (tt, weight [3; 4])).2 (OnCtx cpu)
    = Ok [a] /\ a_ctx a = cpu_pinned 0.
Proof. eexists. split; [vm_compute; reflexivity|reflexivity]. Qed.

(** [_load_init] compares shapes only up to the shorter one: a parameter of shape [(3,)]
    loads an array of shape [(3, 4)] and keeps its own shape. *)
Example load_ignores_rank :
  let s := (run_calls cpu [CLoad (mkArr cpu [3; 4] "float32" "default" 5 None) NoCtx] (tt, weight [3])).2 in
  p_shape s = Some [3] /\ (a_shape <$> default [] (p_data s)) = [[3; 4]].
Proof. vm_compute. done. Qed.

(** When deferred initialization fails because the shape is still incomplete, the
    parameter is no longer deferred: reading it then fails as if it had never been
    initialized. *)
Example failed_finish_forgets :
  let p := (run_calls cpu [CInitialize None NoCtx 7 false] (tt, weight [3; 0])).2 in
  data cpu p DefaultCtx = Raise DeferredInitializationError /\
  (_finish_deferred_init p).1 = Raise AssertionError /\
  data cpu (_finish_deferred_init p).2 DefaultCtx = Raise RuntimeError.
Proof. vm_compute. done. Qed.
