(* ===== verification/ParamDict.v ===== *)
(** * Parameter dictionaries

    [gluon/parameter.py], the class [ParameterDict]: looking up, sharing and creating
    parameters, and saving and loading them.  Parameters and dictionaries are objects
    that several holders share, so they live in a store and are named by their position
    in it.  A file is the list of named arrays that [ndarray.save] was given. *)

From S2P Require Import Prelude NDArray GluonParam.

(** ** Strings *)

(** [s.startswith(p)] and [s[n:]]. *)
Definition startswith (p s : string) : bool := String.prefix p s.
Fixpoint str_drop (n : nat) (s : string) : string :=
  match n, s with
  | O, _ => s
  | S n, EmptyString => EmptyString
  | S n, String _ s => str_drop n s
  end.

Lemma startswith_app p s : startswith p (p +:+ s) = true.
Proof.
  unfold startswith. induction p as [|c p IH]; [by destruct s|].
  change ((if Ascii.ascii_dec c c then String.prefix p (p +:+ s) else false) = true).
  destruct (Ascii.ascii_dec c c); [exact IH|congruence].
Qed.

Lemma str_drop_app p s : str_drop (String.length p) (p +:+ s) = s.
Proof. by induction p. Qed.

Lemma startswith_drop p s : startswith p s = true -> s = p +:+ str_drop (String.length p) s.
Proof.
  unfold startswith. revert s. induction p as [|c p IH]; intros s; [done|]. destruct s as [|c' s]; [done|].
  change ((if Ascii.ascii_dec c c' then String.prefix p s else false) = true ->
    String c' s = String c (p +:+ str_drop (String.length p) s)).
  destruct (Ascii.ascii_dec c c') as [->|]; [|done]. intros Hp. by rewrite <- (IH s Hp).
Qed.

(** ** The store *)

(** Keyword arguments of [Parameter]. *)
Inductive kwarg (Init F : Type) :=
  | KwGradReq (r : string)
  | KwShape (s : option (list Z))
  | KwDtype (t : string)
  | KwLrMult (x : F)
  | KwWdMult (x : F)
  | KwInit (i : option Init)
  | KwAllowDeferred (b : bool)
  | KwDifferentiable (b : bool)
  | KwStype (s : string)
  | KwGradStype (s : string).
Arguments KwGradReq {Init F} _.
Arguments KwShape {Init F} _.
Arguments KwDtype {Init F} _.
Arguments KwLrMult {Init F} _.
Arguments KwWdMult {Init F} _.
Arguments KwInit {Init F} _.
Arguments KwAllowDeferred {Init F} _.
Arguments KwDifferentiable {Init F} _.
Arguments KwStype {Init F} _.
Arguments KwGradStype {Init F} _.

#[export] Instance kwarg_eq_dec {Init F} `{EqDecision Init} `{EqDecision F} : EqDecision (kwarg Init F).
Proof. solve_decision. Defined.

(** [_params] is an [OrderedDict] from names to parameters. *)
Record pdict := mkDict { d_prefix : string; d_params : list (string * nat); d_shared : option nat }.

(** The attributes that [get] adds to a parameter, by [setattr], are kept beside it. *)
Record world (V Init F T : Type) := mkWorld {
  w_trainer : T;
  w_params : list (Param V Init F);
  w_extra : gmap nat (list (kwarg Init F));
  w_dicts : list pdict;
}.
Arguments mkWorld {V Init F T} _ _ _ _.
Arguments w_trainer {V Init F T} _.
Arguments w_params {V Init F T} _.
Arguments w_extra {V Init F T} _.
Arguments w_dicts {V Init F T} _.

Section ParamDict.
Context {V Init F T : Type} `{ArrayOps V Init} `{TrainerOps V T} `{EqDecision V} `{EqDecision Init} `{EqDecision F}.
Context (current : Context) (one : F) (constant_init : string -> arr V -> Init).
Notation param := (Param V Init F).
Notation W := (world V Init F T).
Notation kw := (kwarg Init F).

(** Run a method of the parameter with the given identity. *)
Definition on_obj {A} (id : nat) (m : M (T * param) A) : M W A := fun w =>
  match w_params w !! id with
  | None => (Raise KeyError, w)
  | Some p => let '(r, (t, p)) := m (w_trainer w, p) in
              (r, mkWorld t (<[id := p]> (w_params w)) (w_extra w) (w_dicts w))
  end.

Definition the_param (id : nat) : M W param :=
  w ← get; match w_params w !! id with Some p => mret p | None => raise KeyError end.
Definition the_dict (d : nat) : M W pdict :=
  w ← get; match w_dicts w !! d with Some x => mret x | None => raise KeyError end.

(** [self._params[name] = param] *)
Definition set_entry (d : nat) (name : string) (id : nat) : M W unit :=
  modify (fun w => mkWorld (w_trainer w) (w_params w) (w_extra w)
    (alter (fun x => mkDict (d_prefix x) (od_set name id (d_params x)) (d_shared x)) d (w_dicts w))).

(** A new parameter object, and [ParameterDict(prefix, shared)]. *)
Definition new_object (p : param) : M W nat := fun w =>
  (Ok (length (w_params w)), mkWorld (w_trainer w) (w_params w ++ [p]) (w_extra w) (w_dicts w)).
Definition ParameterDict_init (prefix : string) (shared : option nat) : M W nat := fun w =>
  (Ok (length (w_dicts w)), mkWorld (w_trainer w) (w_params w) (w_extra w) (w_dicts w ++ [mkDict prefix [] shared])).

Definition _get_impl (d : nat) (name : string) : M W (option nat) :=
  x ← the_dict d;
  match od_get name (d_params x) with
  | Some id => mret (Some id)
  | None =>
      match d_shared x with
      | None => mret None
      | Some sh =>
          y ← the_dict sh;
          match od_get name (d_params y) with
          | Some id => _ ← set_entry d name id; mret (Some id)
          | None => mret None
          end
      end
  end.

(** ** [get] *)

(** The arguments of a new parameter: the defaults and what the call gives. *)
Record pargs := mkArgs {
  k_req : string; k_shape : option (list Z); k_dtype : string; k_lr : F; k_wd : F; k_init : option Init;
  k_defer : bool; k_diff : bool; k_stype : string; k_gstype : string;
}.
Definition apply_kwarg (a : pargs) (k : kw) : pargs :=
  match k with
  | KwGradReq r => mkArgs r (k_shape a) (k_dtype a) (k_lr a) (k_wd a) (k_init a) (k_defer a) (k_diff a) (k_stype a) (k_gstype a)
  | KwShape s => mkArgs (k_req a) s (k_dtype a) (k_lr a) (k_wd a) (k_init a) (k_defer a) (k_diff a) (k_stype a) (k_gstype a)
  | KwDtype t => mkArgs (k_req a) (k_shape a) t (k_lr a) (k_wd a) (k_init a) (k_defer a) (k_diff a) (k_stype a) (k_gstype a)
  | KwLrMult x => mkArgs (k_req a) (k_shape a) (k_dtype a) x (k_wd a) (k_init a) (k_defer a) (k_diff a) (k_stype a) (k_gstype a)
  | KwWdMult x => mkArgs (k_req a) (k_shape a) (k_dtype a) (k_lr a) x (k_init a) (k_defer a) (k_diff a) (k_stype a) (k_gstype a)
  | KwInit i => mkArgs (k_req a) (k_shape a) (k_dtype a) (k_lr a) (k_wd a) i (k_defer a) (k_diff a) (k_stype a) (k_gstype a)
  | KwAllowDeferred b => mkArgs (k_req a) (k_shape a) (k_dtype a) (k_lr a) (k_wd a) (k_init a) b (k_diff a) (k_stype a) (k_gstype a)
  | KwDifferentiable b => mkArgs (k_req a) (k_shape a) (k_dtype a) (k_lr a) (k_wd a) (k_init a) (k_defer a) b (k_stype a) (k_gstype a)
  | KwStype s => mkArgs (k_req a) (k_shape a) (k_dtype a) (k_lr a) (k_wd a) (k_init a) (k_defer a) (k_diff a) s (k_gstype a)
  | KwGradStype s => mkArgs (k_req a) (k_shape a) (k_dtype a) (k_lr a) (k_wd a) (k_init a) (k_defer a) (k_diff a) (k_stype a) s
  end.
Definition new_param (name : string) (kws : list kw) : result param :=
  let a := fold_left apply_kwarg kws (mkArgs "write" None "float32" one one None false true "default" "default") in
  Param_init name (k_req a) (k_shape a) (k_dtype a) (k_lr a) (k_wd a) (k_init a) (k_defer a) (k_diff a) (k_stype a)
    (k_gstype a) None.

(** The loop over two shapes of one length: [None] when a dimension differs and neither
    is 0. *)
Fixpoint inferred_shape (v existing : list Z) : option (list Z) :=
  match v, existing with
  | d1 :: v, d2 :: existing =>
      if negb (d1 =? d2) && negb (d1 * d2 =? 0) then None
      else rest ← inferred_shape v existing;
           Some ((if d1 =? d2 then d1 else if d1 =? 0 then d2 else d1) :: rest)
  | _, _ => Some []
  end.

(** Keywords that are not attributes of a parameter are added to it the first time and
    compared with that value afterwards. *)
Definition same_keyword (a b : kw) : bool :=
  match a, b with
  | KwAllowDeferred _, KwAllowDeferred _ | KwDifferentiable _, KwDifferentiable _
  | KwStype _, KwStype _ | KwGradStype _, KwGradStype _ => true
  | _, _ => false
  end.
Definition extra_attr (id : nat) (k : kw) : M W unit := fun w =>
  let l := default [] (w_extra w !! id) in
  match find (same_keyword k) l with
  | Some old => (py_assert (bool_decide (k = old)), w)
  | None => (Ok tt, mkWorld (w_trainer w) (w_params w) (<[id := k :: l]> (w_extra w)) (w_dicts w))
  end.

(** One keyword argument of [get] against an existing parameter. *)
Definition merge_kwarg (id : nat) (k : kw) : M W unit :=
  p ← the_param id;
  match k with
  | KwShape v =>
      match p_shape p with
      | Some existing =>
          match v with
          | None => raise TypeError
          | Some v =>
              if Nat.eqb (length v) (length existing) then
                match inferred_shape v existing with
                | Some s => on_obj id (on_param (modify (put_shape (Some s))))
                | None => massert (bool_decide (v = existing))
                end
              else massert (bool_decide (v = existing))
          end
      | None => on_obj id (on_param (modify (put_shape v)))
      end
  | KwDtype t => massert (str_eqb t (p_dtype p))
  | KwGradReq r => massert (str_eqb r (grad_req p))
  | KwLrMult x => massert (bool_decide (x = p_lr_mult p))
  | KwWdMult x => massert (bool_decide (x = p_wd_mult p))
  | KwInit i =>
      match p_init p with
      | Some existing => massert (bool_decide (i = None \/ i = Some existing))
      | None => on_obj id (on_param (modify (fun p => put_mults (p_lr_mult p) (p_wd_mult p) i p)))
      end
  | _ => extra_attr id k
  end.

Definition ParameterDict_get (d : nat) (name : string) (kws : list kw) : M W nat :=
  x ← the_dict d;
  let name := d_prefix x +:+ name in
  found ← _get_impl d name;
  match found with
  | None => p ← lift (new_param name kws); id ← new_object p; _ ← set_entry d name id; mret id
  | Some id => _ ← forM (merge_kwarg id) kws; mret id
  end.

Definition get_constant (d : nat) (name : string) (value : option (arr V)) : M W nat :=
  x ← the_dict d;
  let name := d_prefix x +:+ name in
  found ← _get_impl d name;
  match found with
  | None =>
      match value with
      | None => raise KeyError
      | Some v =>
          p ← lift (Param_init name "null" (Some (a_shape v)) (a_dtype v) one one (Some (constant_init name v)) false true
                      "default" "default" (Some v));
          id ← new_object p; _ ← set_entry d name id; mret id
      end
  | Some id =>
      match value with
      | None => mret id
      | Some v =>
          p ← the_param id;
          match p_constant p with
          | None => raise AssertionError
          | Some c =>
              _ ← massert (bool_decide (p_shape p = Some (a_shape v)) && bool_decide (a_val c = a_val v));
              mret id
          end
      end
  end.

(** ** All parameters of a dictionary *)

Definition ParameterDict_update (d : nat) (other : list (string * nat)) : M W unit :=
  x ← the_dict d;
  _ ← massert (forallb (fun kv => match od_get kv.1 (d_params x) with
                                  | Some id => Nat.eqb id kv.2 | None => true end) other);
  forM (fun kv => set_entry d kv.1 kv.2) other.

Definition values (d : nat) : M W (list nat) := x ← the_dict d; mret (map snd (d_params x)).

Definition ParameterDict_initialize (d : nat) (init : Init) (ctx : ctxs_arg) (force : bool) : M W unit :=
  l ← values d; forM (fun id => on_obj id (on_param (initialize current None ctx init force))) l.
Definition ParameterDict_zero_grad (d : nat) : M W unit :=
  l ← values d; forM (fun id => on_obj id (on_param zero_grad)) l.
Definition ParameterDict_reset_ctx (d : nat) (ctx : ctxs_arg) : M W unit :=
  l ← values d; forM (fun id => on_obj id (reset_ctx current ctx)) l.
(** [setattr] of the attributes that are properties with a setter or plain fields. *)
Definition ParameterDict_setattr (d : nat) (k : kw) : M W unit :=
  l ← values d;
  forM (fun id => match k with
    | KwGradReq r => on_obj id (on_param (set_grad_req r))
    | KwShape (Some s) => on_obj id (on_param (set_shape s))
    | KwShape None => on_obj id (on_param (p ← get; match p_shape p with None => mret tt | Some _ => raise TypeError end))
    | KwDtype t => on_obj id (on_param (modify (put_dtype t)))
    | KwLrMult x => on_obj id (on_param (modify (fun p => put_mults x (p_wd_mult p) (p_init p) p)))
    | KwWdMult x => on_obj id (on_param (modify (fun p => put_mults (p_lr_mult p) x (p_init p) p)))
    | KwInit i => on_obj id (on_param (modify (fun p => put_mults (p_lr_mult p) (p_wd_mult p) i p)))
    | k => modify (fun w => mkWorld (w_trainer w) (w_params w)
             (<[id := k :: filter (fun o => same_keyword k o = false) (default [] (w_extra w !! id))]> (w_extra w)) (w_dicts w))
    end) l.

(** *** Files *)

Fixpoint save_loop (strip : string) (ids : list nat) (arg_dict : list (string * arr V)) : M W (list (string * arr V)) :=
  match ids with
  | [] => mret arg_dict
  | id :: ids =>
      weight ← on_obj id (_reduce current);
      p ← the_param id;
      if negb (startswith strip (p_name p)) then raise ValueError
      else save_loop strip ids (od_set (str_drop (String.length strip) (p_name p)) weight arg_dict)
  end.
Definition ParameterDict_save (d : nat) (strip_prefix : string) : M W (list (string * arr V)) :=
  l ← values d; save_loop strip_prefix l [].

(** [k[4:] if k.startswith('arg:') or k.startswith('aux:') else k] *)
Definition drop_tag (k : string) : string := if startswith "arg:" k || startswith "aux:" k then str_drop 4 k else k.

Definition load_dict (restore_prefix : string) (file : list (string * arr V)) : list (string * arr V) :=
  fold_left (fun a kv => od_set (restore_prefix +:+ drop_tag kv.1) kv.2 a) file [].

Definition ParameterDict_load (d : nat) (file : list (string * arr V)) (ctx : ctxs_arg) (allow_missing ignore_extra : bool)
  (restore_prefix : string) : M W unit :=
  x ← the_dict d;
  _ ← massert (str_eqb restore_prefix "" || forallb (fun kv => startswith restore_prefix kv.1) (d_params x));
  let arg_dict := load_dict restore_prefix file in
  _ ← massert (allow_missing || forallb (fun kv => od_mem kv.1 arg_dict) (d_params x));
  forM (fun kv =>
    x ← the_dict d;
    match od_get kv.1 (d_params x) with
    | None => massert ignore_extra
    | Some id => on_obj id (_load_init kv.2 ctx)
    end) arg_dict.

(** ** Looking up *)

(** Every entry of a dictionary is filed under the name of its parameter. *)
Definition w_inv (w : W) : Prop :=
  forall d x, w_dicts w !! d = Some x ->
    NoDup (map fst (d_params x)) /\ forall k id, (k, id) ∈ d_params x -> map p_name (w_params w) !! id = Some k.

(** Two stores with the same dictionaries and the same names. *)
Definition frame (w w' : W) : Prop := w_dicts w' = w_dicts w /\ map p_name (w_params w') = map p_name (w_params w).

Lemma frame_inv w w' : frame w w' -> w_inv w -> w_inv w'.
Proof. intros [Hd Hn] Hw d x. rewrite Hd, Hn. apply Hw. Qed.

Lemma on_obj_frame {A} id (m : M (T * param) A) w :
  (forall t p, p_name (m (t, p)).2.2 = p_name p) -> frame w (on_obj id m w).2.
Proof.
  intros Hm. unfold on_obj. destruct (w_params w !! id) as [p|] eqn:Hp; [|by split].
  specialize (Hm (w_trainer w) p). destruct (m (w_trainer w, p)) as [r [t p']]. cbn in *. split; [done|]. cbn.
  apply list_eq. intros i. rewrite !list_lookup_fmap. destruct (decide (i = id)) as [->|Hne].
  - rewrite list_lookup_insert_eq by (by eapply lookup_lt_Some). rewrite Hp. cbn. by rewrite Hm.
  - by rewrite list_lookup_insert_ne.
Qed.

Lemma merge_kwarg_frame id k w : frame w (merge_kwarg id k w).2.
Proof.
  unfold merge_kwarg, the_param. rewrite bind_M, bind_M. cbn [get].
  destruct (w_params w !! id) as [p|] eqn:Hp; [|by split]. cbn [mret M_ret].
  destruct k; try (by split); try (unfold extra_attr; destruct (find _ _); by split).
  - destruct (p_shape p) as [ex|]; [|by apply on_obj_frame]. destruct s as [v|]; [|by split].
    destruct (Nat.eqb _ _); [|by split]. destruct (inferred_shape v ex); [|by split]. by apply on_obj_frame.
  - destruct (p_init p); [by split|by apply on_obj_frame].
Qed.

Lemma merge_all_frame id kws : forall w, frame w (forM (merge_kwarg id) kws w).2.
Proof.
  induction kws as [|k kws IH]; intros w; [by split|]. cbn [forM]. rewrite bind_M.
  pose proof (merge_kwarg_frame id k w) as [H1 H2]. destruct (merge_kwarg id k w) as [[u|e] w1]; [|by split].
  destruct (IH w1) as [H3 H4]. split; [by rewrite H3|by rewrite H4].
Qed.

Lemma set_entry_inv d k id w :
  w_inv w -> map p_name (w_params w) !! id = Some k -> w_inv (set_entry d k id w).2.
Proof.
  intros Hw Hid d' x. cbn. destruct (decide (d' = d)) as [->|Hne].
  - rewrite list_lookup_alter_eq. destruct (w_dicts w !! d) as [y|] eqn:Hy; [|done]. intros [= <-]. cbn.
    destruct (Hw d y Hy) as [Hnd Hin]. split; [by apply od_set_NoDup|].
    intros k' id' [[= -> ->]|Hx]%od_set_elem; auto.
  - rewrite list_lookup_alter_ne by done. apply Hw.
Qed.

Lemma new_object_inv p w : w_inv w -> w_inv (new_object p w).2.
Proof.
  intros Hw d x Hx. destruct (Hw d x Hx) as [Hnd Hin]. split; [done|]. intros k id Hk. cbn.
  rewrite map_app. apply lookup_app_l_Some. by apply Hin.
Qed.

Lemma set_entry_dict d k id (w : W) x :
  w_dicts w !! d = Some x ->
  w_dicts (set_entry d k id w).2 !! d = Some (mkDict (d_prefix x) (od_set k id (d_params x)) (d_shared x)).
Proof. intros Hx. cbn. by rewrite list_lookup_alter_eq, Hx. Qed.

(** Where [get] finds a parameter. *)
Definition found_in (w : W) (x : pdict) (k : string) : option nat :=
  match od_get k (d_params x) with
  | Some id => Some id
  | None => match d_shared x with
            | Some sh => match w_dicts w !! sh with Some y => od_get k (d_params y) | None => None end
            | None => None
            end
  end.

Lemma get_impl_spec d k (w : W) x :
  w_inv w -> w_dicts w !! d = Some x -> (forall sh, d_shared x = Some sh -> is_Some (w_dicts w !! sh)) ->
  exists w', _get_impl d k w = (Ok (found_in w x k), w') /\ w_inv w' /\ w_params w' = w_params w /\
    exists x', w_dicts w' !! d = Some x' /\ d_prefix x' = d_prefix x /\ d_shared x' = d_shared x /\
      od_get k (d_params x') = found_in w x k /\
      forall k', k' <> k -> od_get k' (d_params x') = od_get k' (d_params x).
Proof.
  intros Hw Hx Hsh. unfold _get_impl, the_dict, found_in. rewrite bind_M, bind_M. cbn [get]. rewrite Hx. cbn [mret M_ret].
  destruct (od_get k (d_params x)) as [id|] eqn:Hk.
  { exists w. split_and!; try done. by exists x. }
  destruct (d_shared x) as [sh|] eqn:Es; [|exists w; split_and!; try done; by exists x].
  destruct (Hsh sh eq_refl) as [y Hy]. rewrite bind_M, bind_M. cbn [get]. rewrite Hy. cbn [mret M_ret].
  destruct (od_get k (d_params y)) as [id|] eqn:Hk'; [|exists w; split_and!; try done; by exists x].
  rewrite bind_M. eexists. split; [reflexivity|]. destruct (Hw sh y Hy) as [_ Hin].
  split_and!; [apply set_entry_inv; [done|apply Hin, od_get_elem; done]|done|].
  eexists. split; [by apply set_entry_dict|]. cbn. split_and!; [done|done|by rewrite od_get_set_eq|].
  intros k' Hne. by rewrite od_get_set_ne.
Qed.

Lemma new_param_name name kws p : new_param name kws = Ok p -> p_name p = name.
Proof. apply Param_init_name. Qed.

Lemma the_dict_ok d (w : W) x : w_dicts w !! d = Some x -> the_dict d w = (Ok x, w).
Proof. intros Hx. unfold the_dict. rewrite bind_M. cbn [get]. by rewrite Hx. Qed.

(** [get] returns the parameter the dictionary has under the prefixed name, else the
    one its shared dictionary has (the same object), else a new one; afterwards the
    dictionary holds that parameter under that name, so that the next [get] returns the
    same object, no other entry has changed, and every entry of every dictionary is
    still filed under its parameter's name. *)
Theorem get_finds d name kws (w : W) x id w' :
  w_inv w -> w_dicts w !! d = Some x -> (forall sh, d_shared x = Some sh -> is_Some (w_dicts w !! sh)) ->
  ParameterDict_get d name kws w = (Ok id, w') ->
  let k := d_prefix x +:+ name in
  id = default (length (w_params w)) (found_in w x k) /\ w_inv w' /\
  (exists x', w_dicts w' !! d = Some x' /\ od_get k (d_params x') = Some id /\
     forall k', k' <> k -> od_get k' (d_params x') = od_get k' (d_params x)) /\
  ParameterDict_get d name [] w' = (Ok id, w').
Proof.
  intros Hw Hx Hsh Hget k. unfold ParameterDict_get in Hget. rewrite bind_M, (the_dict_ok _ _ _ Hx), bind_M in Hget.
  destruct (get_impl_spec d k w x Hw Hx Hsh) as (w1 & E1 & Hw1 & Hp1 & x1 & Hx1 & Hpre & Hsh1 & Hk1 & Hoth).
  fold k in Hget. rewrite E1 in Hget.
  assert (forall w2 x2 i, w_dicts w2 !! d = Some x2 -> d_prefix x2 = d_prefix x -> od_get k (d_params x2) = Some i ->
    ParameterDict_get d name [] w2 = (Ok i, w2)) as Hagain.
  { intros w2 x2 i Hx2 Hpre2 Hi. unfold ParameterDict_get. rewrite bind_M, (the_dict_ok _ _ _ Hx2), bind_M, Hpre2.
    fold k. unfold _get_impl. rewrite bind_M, (the_dict_ok _ _ _ Hx2), Hi. done. }
  destruct (found_in w x k) as [i|].
  - rewrite bind_M in Hget. pose proof (merge_all_frame i kws w1) as Hf.
    destruct (forM (merge_kwarg i) kws w1) as [[u|e] w2]; [|done]. injection Hget as <- <-. cbn in Hf.
    assert (w_dicts w2 !! d = Some x1) as Hx2 by (by rewrite (proj1 Hf)).
    split_and!; [done|by apply (frame_inv w1)|by exists x1|by apply (Hagain w2 x1)].
  - rewrite bind_M in Hget. unfold lift in Hget. destruct (new_param k kws) as [p|e] eqn:Ep; [|done].
    apply new_param_name in Ep. rewrite bind_M in Hget. cbn [new_object] in Hget. rewrite bind_M in Hget.
    set (w2 := mkWorld (w_trainer w1) (w_params w1 ++ [p]) (w_extra w1) (w_dicts w1)) in Hget.
    assert (id = length (w_params w1) /\ w' = (set_entry d k (length (w_params w1)) w2).2) as [-> ->].
    { by injection Hget as <- <-. }
    assert (w_dicts w2 !! d = Some x1) as Hx2 by done.
    pose proof (set_entry_dict d k (length (w_params w1)) w2 x1 Hx2) as Hd.
    split_and!.
    + cbn. by rewrite Hp1.
    + apply set_entry_inv; [by apply (new_object_inv p w1)|]. cbn. rewrite map_app, lookup_app_r by (by rewrite length_map).
      rewrite length_map, Nat.sub_diag. cbn. by rewrite Ep.
    + eexists. split; [exact Hd|]. cbn. rewrite od_get_set_eq. split; [done|]. intros k' Hne. rewrite od_get_set_ne by done. auto.
    + eapply Hagain; [exact Hd|done|]. cbn. by rewrite od_get_set_eq.
Qed.

(** *** Shapes *)

Lemma inferred_shape_spec v ex : length v = length ex ->
  match inferred_shape v ex with
  | Some s => shape_fits v s = true /\ shape_fits ex s = true
  | None => forall s, ~ (shape_fits v s = true /\ shape_fits ex s = true)
  end.
Proof.
  unfold shape_fits. revert ex. induction v as [|a v IH]; intros [|b ex] Hl; cbn in *; try done.
  injection Hl as Hl. specialize (IH ex Hl).
  destruct (Z.eqb_spec a b) as [->|Hab]; cbn.
  - destruct (inferred_shape v ex) as [s|]; cbn.
    + destruct IH as [H1 H2]. apply andb_true_iff in H1 as [H1 H1'], H2 as [H2 H2'].
      rewrite H1, H2, H1', H2', Z.eqb_refl, !orb_true_r. done.
    + intros [|c s]; cbn; [naive_solver|]. intros [H1 H2]. apply (IH s).
      rewrite !andb_true_iff in *. naive_solver.
  - destruct (Z.eqb_spec (a * b) 0) as [Hz|Hz]; cbn.
    + destruct (inferred_shape v ex) as [s|]; cbn.
      * destruct IH as [H1 H2]. apply andb_true_iff in H1 as [H1 H1'], H2 as [H2 H2'].
        destruct (Z.eqb_spec a 0) as [->|Ha]; cbn; rewrite H1, H2, H1', H2', ?Z.eqb_refl, ?orb_true_r; cbn; [done|].
        assert (b = 0) as -> by nia. done.
      * intros [|c s]; cbn; [naive_solver|]. intros [H1 H2]. apply (IH s). rewrite !andb_true_iff in *. naive_solver.
    + intros [|c s]; cbn; [naive_solver|]. rewrite !andb_true_iff, !orb_true_iff, !Z.eqb_eq. nia.
Qed.

Lemma shape_fits_length a b : shape_fits a b = true -> length a = length b.
Proof. unfold shape_fits. intros [H1 _]%andb_true_iff. by apply Nat.eqb_eq. Qed.

(** [get] with a shape, for a parameter that has one: if the two agree where both are
    known the parameter gets a shape that completes both, otherwise [AssertionError] is
    raised and nothing changes. *)
Theorem get_merges_shape id v (w : W) p ex :
  w_params w !! id = Some p -> p_shape p = Some ex ->
  ((exists s, shape_fits v s = true /\ shape_fits ex s = true) ->
   exists s, merge_kwarg id (KwShape (Some v)) w =
     (Ok tt, mkWorld (w_trainer w) (<[id := put_shape (Some s) p]> (w_params w)) (w_extra w) (w_dicts w)) /\
     shape_fits v s = true /\ shape_fits ex s = true) /\
  (~ (exists s, shape_fits v s = true /\ shape_fits ex s = true) ->
   merge_kwarg id (KwShape (Some v)) w = (Raise AssertionError, w)).
Proof.
  intros Hp Hex. unfold merge_kwarg, the_param. rewrite bind_M, bind_M. cbn [get]. rewrite Hp. cbn [mret M_ret]. rewrite Hex.
  assert (~ (exists s, shape_fits v s = true /\ shape_fits ex s = true) -> v <> ex) as Hvex.
  { intros Hn ->. apply Hn. exists ex. by rewrite shape_fits_refl. }
  destruct (Nat.eqb_spec (length v) (length ex)) as [Hl|Hl].
  - pose proof (inferred_shape_spec v ex Hl) as Hs. destruct (inferred_shape v ex) as [s|].
    + split; [|intros Hn; destruct Hn; by exists s]. intros _. exists s. split; [|done].
      unfold on_obj. rewrite Hp. done.
    + split; [intros (s & Hss); by destruct (Hs s)|]. intros Hne%Hvex. unfold massert, py_assert. by rewrite bool_decide_false.
  - split.
    + intros (s & H1%shape_fits_length & H2%shape_fits_length). congruence.
    + intros Hne%Hvex. unfold massert, py_assert. by rewrite bool_decide_false.
Qed.

(** ** Saving and loading *)

(** A dense initialized parameter, and the array [_reduce] makes of it. *)
Definition dense (p : param) (v : arr V) : Prop :=
  p_stype p = "default"%string /\ exists a l, p_data p = Some (a :: l) /\ Forall (fun x => a_shape x = a_shape a) l /\
    v = mkArr cpu (a_shape a) (a_dtype a) "default" (av_average (Init := Init) (map a_val (a :: l))) None.

Lemma reduce_dense t p v : dense p v -> _reduce (T := T) current (t, p) = (Ok v, (t, p)).
Proof.
  intros (Hst & a & l & Hd & Hs & ->). unfold _reduce. rewrite bind_M. cbn [get snd]. rewrite Hst.
  change (str_eqb "default" "default") with true. cbv iota. rewrite bind_M. unfold lift, list_data, data. rewrite Hst, Hd.
  change (negb (str_eqb "default" "default")) with false. cbv iota. cbn [_check_and_get].
  rewrite (proj2 (forallb_forall _ _)); [done|]. intros x [->|Hx%list_elem_of_In]; apply bool_decide_eq_true; [done|].
  rewrite Forall_forall in Hs. by apply Hs.
Qed.

Lemma on_obj_ok {A} id (m : M (T * param) A) (w : W) p r t p' :
  w_params w !! id = Some p -> m (w_trainer w, p) = (r, (t, p')) ->
  on_obj id m w = (r, mkWorld t (<[id := p']> (w_params w)) (w_extra w) (w_dicts w)).
Proof. intros Hp Hm. unfold on_obj. by rewrite Hp, Hm. Qed.

Lemma world_eta (w : W) id p : w_params w !! id = Some p ->
  mkWorld (w_trainer w) (<[id := p]> (w_params w)) (w_extra w) (w_dicts w) = w.
Proof. intros Hp. rewrite list_insert_id by done. by destruct w. Qed.

(** What [save] writes for one entry. *)
Definition saved (w : W) (strip : string) (e : string * nat) (kv : string * arr V) : Prop :=
  startswith strip e.1 = true /\ kv.1 = str_drop (String.length strip) e.1 /\
  exists p, w_params w !! e.2 = Some p /\ p_name p = e.1 /\ dense p kv.2.

Lemma save_loop_spec strip (w : W) es file : Forall2 (saved w strip) es file ->
  forall acc, NoDup (map fst acc ++ map fst file) -> save_loop strip (map snd es) acc w = (Ok (acc ++ file), w).
Proof.
  induction 1 as [|[k id] [k' v] es file (Hst & Hk & p & Hp & Hn & Hd) _ IH]; intros acc Hnd; cbn [map save_loop].
  { by rewrite app_nil_r. }
  cbn [fst snd] in Hst, Hk, Hp, Hn, Hd. rewrite bind_M. cbn [snd].
  rewrite (on_obj_ok id _ w p _ _ _ Hp (reduce_dense (w_trainer w) p v Hd)), (world_eta w id p Hp).
  rewrite bind_M. unfold the_param. rewrite bind_M. cbn [get]. rewrite Hp. cbn [mret M_ret]. rewrite Hn, Hst. cbn [negb].
  rewrite <- Hk, od_set_new.
  - rewrite IH; [by rewrite <- app_assoc|]. by rewrite map_app, <- app_assoc.
  - apply od_get_None. intros Hin. apply NoDup_app in Hnd as (_ & Hnd & _). apply (Hnd k' Hin). left.
Qed.

(** A parameter an array can be loaded into, and one it has been loaded into. *)
Definition awaits (p : param) (v : arr V) : Prop :=
  p_data p = None /\ p_deferred p = None /\ p_shape p = Some (a_shape v) /\ p_dtype p = a_dtype v /\ p_stype p = a_stype v.
Definition holds (ctx : ctxs_arg) (p : param) (v : arr V) : Prop :=
  exists ds, p_data p = Some ds /\ map a_ctx ds = load_ctxs ctx /\
    Forall (fun a => a_shape a = a_shape v /\ a_dtype a = a_dtype v /\ a_val a = a_val v) ds.

Lemma load_awaiting ctx t p v : Forall (fun c => 0 <= device_id c) (load_ctxs ctx) -> awaits p v ->
  exists p', _load_init (T := T) v ctx (t, p) = (Ok tt, (t, p')) /\ holds ctx p' v.
Proof.
  intros Hok (Hd & Hf & Hs & Ht & Hst). destruct (load_fresh v ctx t p Hok Hd Hf Hs Ht Hst) as (p' & E & _ & Hdata).
  exists p'. split; [done|]. eexists. split; [exact Hdata|]. split; [rewrite map_map; apply map_id|].
  apply Forall_fmap, Forall_forall. done.
Qed.

Lemma load_loop d x ctx extra l : Forall (fun c => 0 <= device_id c) (load_ctxs ctx) -> NoDup (map snd (d_params x)) ->
  forall w : W, w_dicts w !! d = Some x -> NoDup (map fst l) ->
  (forall k v, (k, v) ∈ l -> exists id p, od_get k (d_params x) = Some id /\ w_params w !! id = Some p /\ awaits p v) ->
  exists w', forM (fun kv => x ← the_dict d;
      match od_get kv.1 (d_params x) with None => massert extra | Some id => on_obj id (_load_init kv.2 ctx) end) l w = (Ok tt, w') /\
    (forall k v id, (k, v) ∈ l -> od_get k (d_params x) = Some id -> exists p, w_params w' !! id = Some p /\ holds ctx p v) /\
    (forall id, (forall k v, (k, v) ∈ l -> od_get k (d_params x) <> Some id) -> w_params w' !! id = w_params w !! id).
Proof.
  intros Hok Hids. induction l as [|[k v] l IH]; intros w Hx Hnd Hl; cbn [forM].
  { exists w. split_and!; [done|by intros ? ? ? ?%elem_of_nil|done]. }
  cbn in Hnd. apply NoDup_cons in Hnd as [Hk Hnd].
  destruct (Hl k v ltac:(left)) as (id & p & Hid & Hp & Haw).
  destruct (load_awaiting ctx (w_trainer w) p v Hok Haw) as (p' & Eload & Hh).
  rewrite bind_M, bind_M, (the_dict_ok _ _ _ Hx). cbn [fst snd]. rewrite Hid, (on_obj_ok id _ w p _ _ _ Hp Eload).
  set (w1 := mkWorld _ _ _ _).
  assert (forall k' v', (k', v') ∈ l -> od_get k' (d_params x) <> Some id) as Hoth.
  { intros k' v' Hin Heq. assert (k' = k) as -> by (by eapply od_get_inj).
    apply Hk. by apply (list_elem_of_fmap_2 fst) in Hin. }
  destruct (IH w1 Hx Hnd) as (w' & E & Hdone & Hrest).
  { intros k' v' Hin. destruct (Hl k' v' ltac:(by right)) as (id' & q & Hid' & Hq & Hawq). exists id', q.
    split_and!; [done| |done]. cbn. rewrite list_lookup_insert_ne; [done|]. intros <-. by eapply Hoth. }
  exists w'. split_and!; [done| |].
  - intros k' v' id' [[= -> ->]|Hin]%elem_of_cons Hid'; [|by eapply Hdone].
    assert (id' = id) as -> by congruence. exists p'. rewrite Hrest by done. cbn.
    rewrite list_lookup_insert_eq; [done|]. by eapply lookup_lt_Some.
  - intros id' Hn. rewrite Hrest by (intros k' v' Hin; apply (Hn k' v'); by right). cbn.
    rewrite list_lookup_insert_ne; [done|]. intros <-. by apply (Hn k v ltac:(left)).
Qed.

Lemma load_dict_spec strip (w : W) es file : Forall2 (saved w strip) es file ->
  Forall (fun kv => drop_tag kv.1 = kv.1) file -> NoDup (map fst es) ->
  load_dict strip file = zip (map fst es) (map snd file).
Proof.
  intros Hf Ht Hnd. unfold load_dict.
  assert (map (fun kv => (strip +:+ drop_tag kv.1, kv.2)) file = zip (map fst es) (map snd file)) as Hz.
  { clear Hnd. induction Hf as [|[k id] [k' v] es file (Hst & Hk & _) _ IH]; [done|]. apply Forall_cons in Ht as [Ht Hts]. cbn [map zip zip_with fst snd] in *.
    rewrite Ht, IH by done. subst k'. by rewrite <- (startswith_drop _ _ Hst). }
  rewrite <- Hz. assert (NoDup (map fst (map (fun kv => (strip +:+ drop_tag kv.1, kv.2)) file))) as Hnd'.
  { rewrite Hz. clear -Hnd Hf. rewrite fst_zip; [done|]. rewrite !length_map. by rewrite (Forall2_length _ _ _ Hf). }
  etrans; [|exact (od_set_all _ [] Hnd')]. clear. generalize (@nil (string * arr V)).
  induction file as [|kv file IH]; intros acc; [done|]. cbn. apply IH.
Qed.

(** An entry that is saved, and found again under the same name. *)
Definition transfers (w w2 : W) (x2 : pdict) (strip : string) (e : string * nat) (v : arr V) : Prop :=
  saved w strip e (str_drop (String.length strip) e.1, v) /\
  drop_tag (str_drop (String.length strip) e.1) = str_drop (String.length strip) e.1 /\
  exists id p, od_get e.1 (d_params x2) = Some id /\ w_params w2 !! id = Some p /\ awaits p v.

Definition file_of (strip : string) (es : list (string * nat)) (vals : list (arr V)) : list (string * arr V) :=
  zip (map (fun e => str_drop (String.length strip) e.1) es) vals.

Section Transfer.
Context (w w2 : W) (x2 : pdict) (strip : string) (es : list (string * nat)) (vals : list (arr V)).
Context (Hall : Forall2 (transfers w w2 x2 strip) es vals) (Hnd : NoDup (map fst es)).
Notation file := (file_of strip es vals).

Lemma file_saved : Forall2 (saved w strip) es file.
Proof using Hall. unfold file_of. pose proof Hall as Hc. clear Hall Hnd. induction Hc as [|e v es' vs (Hs & _) _ IH]; [done|]. cbn. constructor; auto. Qed.

Lemma file_fst : map fst file = map (fun e => str_drop (String.length strip) e.1) es.
Proof using Hall. apply fst_zip. by rewrite length_map, (Forall2_length _ _ _ Hall). Qed.

Lemma file_snd : map snd file = vals.
Proof using Hall. apply snd_zip. by rewrite length_map, (Forall2_length _ _ _ Hall). Qed.

Lemma key_starts k : k ∈ map fst es -> startswith strip k = true.
Proof using Hall.
  intros (e & -> & [i Hi]%list_elem_of_lookup)%list_elem_of_fmap.
  by destruct (Forall2_lookup_l _ _ _ _ _ Hall Hi) as (? & _ & ((? & _) & _)).
Qed.

Lemma file_NoDup : NoDup (map fst file).
Proof using Hall Hnd.
  rewrite file_fst. change (fun e : string * nat => str_drop (String.length strip) e.1)
    with (str_drop (String.length strip) ∘ @fst string nat).
  rewrite list_fmap_compose. apply NoDup_fmap_2_strong; [|done]. intros k k' Hk Hk' Heq.
  by rewrite (startswith_drop _ _ (key_starts k Hk)), (startswith_drop _ _ (key_starts k' Hk')), Heq.
Qed.

Lemma file_loaded : load_dict strip file = zip (map fst es) vals.
Proof using Hall Hnd.
  etrans; [apply (load_dict_spec strip w es); [apply file_saved| |done]|by rewrite file_snd].
  apply (proj1 (Forall_fmap fst (fun k => drop_tag k = k) file)). change (fst <$> file) with (map fst file). rewrite file_fst.
  apply Forall_fmap. pose proof Hall as Hc. clear Hall Hnd. induction Hc as [|e v es' vs (_ & Ht & _) _ IH]; [done|]. constructor; auto.
Qed.

Lemma loaded_fst : map fst (zip (map fst es) vals) = map fst es.
Proof using Hall. apply fst_zip. by rewrite length_map, (Forall2_length _ _ _ Hall). Qed.

Lemma loaded_awaits k v : (k, v) ∈ zip (map fst es) vals ->
  exists id p, od_get k (d_params x2) = Some id /\ w_params w2 !! id = Some p /\ awaits p v.
Proof using Hall.
  intros [i Hi]%list_elem_of_lookup. rewrite lookup_zip_with, list_lookup_fmap in Hi.
  destruct (es !! i) as [e|] eqn:He; [|done]. destruct (vals !! i) as [v'|] eqn:Hv; [|done]. injection Hi as <- <-.
  by destruct (Forall2_lookup_lr _ _ _ _ _ _ Hall He Hv) as (_ & _ & Haw).
Qed.
End Transfer.

End ParamDict.

(** ** Witnesses *)

Notation zworld := (world Z Z unit unit).
Definition no_constant (n : string) (a : arr Z) : Z := a_val a.

(** A network with a dense layer, and a dictionary that shares its parameters. *)
Definition trained (n : string) (shape : list Z) (v : Z) : Param Z Z unit :=
  (run_calls cpu [CInitialize None (ManyCtx [gpu 0; gpu 1]) v false]
     (tt, mkParam n None None None None None None true true (Some "write"%string) (Some shape) "float32" tt tt None
            "default" "default" None)).2.
Definition fresh (n : string) (shape : list Z) : Param Z Z unit :=
  mkParam n None None None None None None true true (Some "write"%string) (Some shape) "float32" tt tt None
    "default" "default" None.

Definition two_nets : zworld :=
  mkWorld tt [trained "net_w" [2; 3] 7; trained "net_b" [2] 5; fresh "net_w" [2; 3]; fresh "net_b" [2]] ∅
    [mkDict "net_" [("net_w"%string, 0%nat); ("net_b"%string, 1%nat)] None;
     mkDict "net_" [("net_b"%string, 3%nat); ("net_w"%string, 2%nat)] None; mkDict "net_" [] (Some 0%nat)].

Lemma two_nets_inv : w_inv two_nets.
Proof.
  intros [|[|[|d]]] x Hx; cbn in Hx; simplify_eq; (split; [apply (bool_decide_unpack _); vm_compute; exact I|]);
    intros k id Hin; cbn in Hin; repeat (apply elem_of_cons in Hin as [[= -> ->]|Hin]; [reflexivity|]); by apply elem_of_nil in Hin.
Qed.

Lemma get_finds_witness :
  exists w', ParameterDict_get tt 2 "w" [KwShape (Some [2; 0])] two_nets = (Ok 0%nat, w') /\
    ParameterDict_get tt 2 "w" [] w' = (Ok 0%nat, w').
Proof.
  eexists. split; [vm_compute; reflexivity|].
  apply (get_finds tt 2 "w" [KwShape (Some [2; 0])] two_nets (mkDict "net_" [] (Some 0%nat)) 0%nat _ two_nets_inv).
  - reflexivity.
  - cbn. intros sh [= <-]. vm_compute. eauto.
  - vm_compute. reflexivity.
Defined.

Lemma get_merges_shape_witness :
  (exists s, merge_kwarg 2 (KwShape (Some [0; 3])) two_nets =
     (Ok tt, mkWorld tt (<[2%nat := put_shape (Some s) (fresh "net_w" [2; 3])]> (w_params two_nets)) ∅ (w_dicts two_nets)) /\
     shape_fits [0; 3] s = true) /\
  merge_kwarg 2 (KwShape (Some [4; 3])) two_nets = (Raise AssertionError, two_nets).
Proof.
  split.
  - destruct (get_merges_shape 2 [0; 3] two_nets (fresh "net_w" [2; 3]) [2; 3] eq_refl eq_refl) as [Hs _].
    destruct Hs as (s & Hs & Hf & _); [by exists [2; 3]|]. exists s. split; [exact Hs|exact Hf].
  - apply (get_merges_shape 2 [4; 3] two_nets (fresh "net_w" [2; 3]) [2; 3] eq_refl eq_refl).
    intros (s & H1 & H2). unfold shape_fits in H1, H2. destruct s as [|a s]; [discriminate|].
    cbn [length zip zip_with forallb fst snd] in H1, H2. rewrite !andb_true_iff, !orb_true_iff, !Z.eqb_eq in H1, H2. lia.
Defined.


(** The storage type is not an attribute of a parameter under the name [get] uses: asking
    for another one than the parameter has is not noticed. *)
Example get_ignores_stype :
  (ParameterDict_get tt 0 "w" [KwStype "row_sparse"] two_nets).1 = Ok 0%nat.
Proof. vm_compute. reflexivity. Qed.
