(* ===== verification/Block.v ===== *)
(** * Gluon blocks

    [gluon/block.py]: the names a block gives its children, the registration of children
    and parameters, their collection over the tree of blocks, the nested arguments of a
    hybrid block, the cache of its graph, and the common prefix of names.  A block is a
    tree; [hybrid_forward] and the C library's graphs are parameters. *)

From Stdlib Require Import Strings.Ascii Strings.String.
From S2P Require Import Prelude Scope ParamDict.

(** ** Nested arguments *)

(** The arguments of a hybrid block: arrays, symbols, nested lists or tuples, others. *)
Inductive garg (N S : Type) :=
  | GNd (n : N)
  | GSym (s : S)
  | GList (l : list (garg N S))
  | GOther.
Arguments GNd {N S} _.
Arguments GSym {N S} _.
Arguments GList {N S} _.
Arguments GOther {N S}.

(** Induction through the lists. *)
Lemma garg_ind' {N S} (P : garg N S -> Prop) :
  (forall n, P (GNd n)) -> (forall s, P (GSym s)) -> (forall l, Forall P l -> P (GList l)) -> P GOther -> forall a, P a.
Proof.
  intros Hn Hs Hl Ho. fix IH 1. intros [n|s|l|]; [apply Hn|apply Hs| |apply Ho].
  apply Hl. induction l as [|a l IHl]; constructor; [apply IH|apply IHl].
Qed.

(** Formats: an integer, or a list of formats. *)
Inductive fmt := FInt (n : nat) | FList (l : list fmt).

(** What [_regroup] returns: one item, several items, or a list of these. *)
Inductive tree (B : Type) := TItem (b : B) | TItems (l : list B) | TList (l : list (tree B)).
Arguments TItem {B} _.
Arguments TItems {B} _.
Arguments TList {B} _.

Section Nested.
Context {N S B : Type} (n_outputs : S -> nat).

Fixpoint _flatten (args : garg N S) : result (list (N + S) * fmt) :=
  match args with
  | GNd n => Ok ([inl n], FInt 0)
  | GSym s => Ok ([inr s], FInt (if Nat.ltb 1 (n_outputs s) then n_outputs s else 0))
  | GOther => Raise AssertionError
  | GList l =>
      r ← (fix go (l : list (garg N S)) : result (list (N + S) * list fmt) :=
             match l with
             | [] => Ok ([], [])
             | a :: l =>
                 x ← _flatten a;
                 y ← go l;
                 Ok (x.1 ++ y.1, x.2 :: y.2)
             end) l;
      Ok (r.1, FList r.2)
  end.

Fixpoint _regroup (f : fmt) (args : list B) : result (tree B * list B) :=
  match f with
  | FInt O => match args with [] => Raise IndexError | a :: args => Ok (TItem a, args) end
  | FInt n => Ok (TItems (take n args), drop n args)
  | FList l =>
      r ← (fix go (l : list fmt) (args : list B) : result (list (tree B) * list B) :=
             match l with
             | [] => Ok ([], args)
             | f :: l =>
                 x ← _regroup f args;
                 y ← go l x.2;
                 Ok (x.1 :: y.1, y.2)
             end) l args;
      Ok (TList r.1, r.2)
  end.
End Nested.

(** ** Names *)

(** A block's scope: the prefixes of the block and of its parameters, the dictionary its
    parameters are shared with, and the counters of its children. *)
Record bscope := mkBScope {
  bs_prefix : string;
  bs_params_prefix : string;
  bs_shared : option nat;
  bs_counter : gmap string Z;
}.

(** [_BlockScope.create]: the prefix of the new block, and the prefix and the shared
    dictionary of its [ParameterDict]; [params] is a given dictionary's prefix and
    identity. *)
Definition create (current : option bscope) (names : NameManager) (prefix : option string)
  (params : option (string * nat)) (hint : string)
  : string * (string * option nat) * option bscope * NameManager :=
  match current with
  | None =>
      let '(names, prefix) :=
        match prefix with
        | Some p => (names, p)
        | None => let '(names, n) := manager_get None hint names in (names, n +:+ "_")
        end%string in
      (prefix, match params with None => (prefix, None) | Some (p, d) => (p, Some d) end, None, names)
  | Some cur =>
      let '(prefix, cur) :=
        match prefix with
        | Some p => (p, cur)
        | None =>
            let count := default 0 (bs_counter cur !! hint) in
            (hint +:+ dec count +:+ "_",
             mkBScope (bs_prefix cur) (bs_params_prefix cur) (bs_shared cur) (<[hint := count + 1]> (bs_counter cur)))
        end%string in
      (bs_prefix cur +:+ prefix,
       match params with
       | None => (bs_params_prefix cur +:+ prefix, bs_shared cur)
       | Some (p, d) => (p, Some d)
       end, Some cur, names)%string
  end.

(** [Block.name]: the prefix without a final underscore. *)
Fixpoint str_last (s : string) : option ascii :=
  match s with EmptyString => None | String c EmptyString => Some c | String _ s => str_last s end.
Fixpoint str_init (s : string) : string :=
  match s with EmptyString => EmptyString | String c EmptyString => EmptyString | String c s => String c (str_init s) end.
Definition block_name (prefix : string) : string :=
  if bool_decide (str_last prefix = Some "_"%char) then str_init prefix else prefix.

(** ** Blocks and their parameters *)

(** [_params] and [_reg_params] hold the identities of parameters. *)
Inductive block :=
  mkBlock (prefix : string) (params reg_params : list (string * nat)) (children : list (string * block)).

Lemma block_ind' (P : block -> Prop) :
  (forall p ps r cs, Forall (fun x => P x.2) cs -> P (mkBlock p ps r cs)) -> forall b, P b.
Proof.
  intros H. fix IH 1. intros [p ps r cs]. apply H. induction cs as [|[n c] cs IHcs]; constructor; [apply IH|apply IHcs].
Qed.

Definition blk_params (b : block) : list (string * nat) := let '(mkBlock _ p _ _) := b in p.
Definition blk_reg (b : block) : list (string * nat) := let '(mkBlock _ _ r _) := b in r.
Definition blk_children (b : block) : list (string * block) := let '(mkBlock _ _ _ c) := b in c.

(** [ParameterDict.update] of a dictionary that nobody else has. *)
Definition od_update (d other : list (string * nat)) : result (list (string * nat)) :=
  if forallb (fun kv => match od_get kv.1 d with Some i => Nat.eqb i kv.2 | None => true end) other
  then Ok (fold_left (fun d kv => od_set kv.1 kv.2 d) other d)
  else Raise AssertionError.

(** [collect_params(select)]; [select] is the predicate of the compiled pattern. *)
Fixpoint collect_params (select : string -> bool) (b : block) : result (list (string * nat)) :=
  match b with
  | mkBlock _ params _ children =>
      ret ← od_update [] (filter (fun kv => select kv.1 = true) params);
      (fix go (children : list (string * block)) (ret : list (string * nat)) : result (list (string * nat)) :=
         match children with
         | [] => Ok ret
         | (_, cld) :: children =>
             r ← collect_params select cld;
             ret ← od_update ret r;
             go children ret
         end) children ret
  end.

(** [_collect_params_with_prefix]: names by attributes. *)
Fixpoint _collect_params_with_prefix (prefix : string) (b : block) : list (string * nat) :=
  match b with
  | mkBlock _ _ reg children =>
      let prefix := if str_eqb prefix "" then prefix else (prefix +:+ ".")%string in
      let ret := fold_left (fun d kv => od_set (prefix +:+ kv.1)%string kv.2 d) reg [] in
      (fix go (children : list (string * block)) (ret : list (string * nat)) : list (string * nat) :=
         match children with
         | [] => ret
         | (name, child) :: children =>
             go children (fold_left (fun d kv => od_set kv.1 kv.2 d)
                            (_collect_params_with_prefix (prefix +:+ name)%string child) ret)
         end) children ret
  end.

(** [register_child]: under the given name, or the number of children. *)
Definition register_child (b child : block) (name : option string) : block :=
  match b with
  | mkBlock p ps r cs =>
      let name := match name with Some n => n | None => dec (py_len cs) end in
      mkBlock p ps r (od_set name child cs)
  end.

(** What [__setattr__] distinguishes. *)
Inductive attr_value := VBlock (b : block) | VParam (id : nat) | VOther.
Inductive attr_kind := KBlock | KParam | KOther.
Definition kind_of (v : attr_value) : attr_kind := match v with VBlock _ => KBlock | VParam _ => KParam | VOther => KOther end.

#[export] Instance attr_kind_eq_dec : EqDecision attr_kind.
Proof. solve_decision. Defined.

(** [__setattr__], given the kind of the attribute's present value; a value of a
    subclass counts as of the same kind. *)
Definition block_setattr (b : block) (existing : option attr_kind) (name : string) (v : attr_value) : result block :=
  _ ← match existing with
      | Some KOther | None => Ok tt
      | Some k => if bool_decide (k = kind_of v) then Ok tt else Raise TypeError
      end;
  match v, b with
  | VBlock c, _ => Ok (register_child b c (Some name))
  | VParam id, mkBlock p ps r cs =>
      if od_mem name r then Raise AssertionError else Ok (mkBlock p ps (od_set name id r) cs)
  | VOther, _ => Ok b
  end.

(** [apply(fn)]: the children before the block itself. *)
Fixpoint block_apply {A} (fn : A -> block -> A) (b : block) (a : A) : A :=
  match b with
  | mkBlock p ps r cs =>
      fn ((fix go (cs : list (string * block)) (a : A) : A :=
             match cs with [] => a | (_, c) :: cs => go cs (block_apply fn c a) end) cs a) (mkBlock p ps r cs)
  end.

(** ** The inputs of a cached graph *)

(** [_cached_op_args]: for each input of the graph, the position of a data argument or a
    parameter; with the positions of both kinds. *)
Record cached := mkCached {
  c_args : list (nat + nat);
  c_data_indices : list nat;
  c_param_indices : list nat;
}.

Fixpoint cache_loop (data_names params : list (string * nat)) (i : nat) (inputs : list string) (c : cached) : result cached :=
  match inputs with
  | [] => Ok c
  | name :: inputs =>
      match od_get name data_names with
      | Some k => cache_loop data_names params (S i) inputs
                    (mkCached (c_args c ++ [inl k]) (c_data_indices c ++ [i]) (c_param_indices c))
      | None =>
          match od_get name params with
          | None => Raise KeyError
          | Some p => cache_loop data_names params (S i) inputs
                        (mkCached (c_args c ++ [inr p]) (c_data_indices c) (c_param_indices c ++ [i]))
          end
      end
  end.

(** [_build_cache]: the names of the inputs of the graph are those of the data or of
    collected parameters. *)
Definition _build_cache (data : list string) (params : list (string * nat)) (input_names : list string) : result cached :=
  let data_names := fold_left (fun d kv => od_set kv.1 kv.2 d) (imap (fun i n => (n, i)) data) [] in
  _ ← py_assert (forallb (fun n => od_mem n params || od_mem n data_names) input_names);
  cache_loop data_names params 0 input_names (mkCached [] [] []).

(** ** The cache of a hybrid block *)

(** The graph of a block: the block with the graphs of its children. *)
Inductive graph := Graph (id : nat) (children : list graph).

(** Blocks in a store: whether it is a hybrid block, whether active, the children by name,
    the graph it was traced to ([_cached_graph]) and the one its operator runs
    ([_cached_op]).  The forward computation of a block calls its children
    in order, as [Sequential] and [HybridSequential] do. *)
Record hybrid := mkHybrid { h_hybrid : bool; h_active : bool; h_children : list (string * nat);
  h_graph : option graph; h_op : option graph }.
Notation hstore := (list hybrid).
Notation kids s id := (match s !! id with Some h => map snd (h_children h) | None => [] end).

Definition _clear_cached_op (h : hybrid) : hybrid := mkHybrid (h_hybrid h) (h_active h) (h_children h) None None.

(** [register_child], of both classes; the blocks exist. *)
Definition hybrid_register (parent child : nat) (name : option string) (s : hstore) : result hstore :=
  match s !! parent, s !! child with
  | Some h, Some c =>
      if h_hybrid h && negb (h_hybrid c) then Raise ValueError
      else
        let name := match name with Some n => n | None => dec (py_len (h_children h)) end in
        let h' := mkHybrid (h_hybrid h) (h_active h) (od_set name child (h_children h)) (h_graph h) (h_op h) in
        Ok (<[parent := if h_hybrid h then _clear_cached_op h' else h']> s)
  | _, _ => Ok s
  end.

(** [hybridize(active)]: on a hybrid block the switch and the cache, then the children. *)
Definition hybridize_one (active : bool) (h : hybrid) : hybrid :=
  if h_hybrid h then _clear_cached_op (mkHybrid (h_hybrid h) active (h_children h) (h_graph h) (h_op h)) else h.
Definition hybridize_at (active : bool) (id : nat) (s : hstore) : hstore :=
  match s !! id with Some h => <[id := hybridize_one active h]> s | None => s end.
Fixpoint hybridize (fuel : nat) (active : bool) (id : nat) (s : hstore) : hstore :=
  match fuel with
  | O => s
  | S fuel => fold_left (fun s c => hybridize fuel active c s) (kids s id) (hybridize_at active id s)
  end.

(** Tracing the block as it is now: with symbols, the children do not use their caches. *)
Fixpoint trace (fuel : nat) (s : hstore) (id : nat) : graph :=
  match fuel with
  | O => Graph id []
  | S fuel => Graph id (map (trace fuel s) (kids s id))
  end.

(** The calls of the children, one after the other. *)
Fixpoint call_children (call : nat -> hstore -> graph * hstore) (cs : list nat) (s : hstore) : list graph * hstore :=
  match cs with
  | [] => ([], s)
  | c :: cs =>
      let '(g, s) := call c s in
      let '(gs, s) := call_children call cs s in
      (g :: gs, s)
  end.

(** [_get_graph]: the block is traced if it has no graph. *)
Definition _get_graph (fuel : nat) (s : hstore) (id : nat) (h : hybrid) : graph :=
  match h_graph h with Some g => g | None => trace fuel s id end.

(** [infer_shape] and [infer_type] get the graph of a hybrid block, active or not. *)
Definition infer_attrs (id : nat) (s : hstore) : hstore :=
  match s !! id with
  | Some h =>
      if h_hybrid h then <[id := mkHybrid true (h_active h) (h_children h) (Some (_get_graph (S id) s id h)) (h_op h)]> s else s
  | None => s
  end.

(** What a call of the block computes: an active hybrid block runs its operator, which is
    built from its graph if there is none; others call their children. *)
Fixpoint hybrid_call (fuel : nat) (id : nat) (s : hstore) : graph * hstore :=
  match fuel with
  | O => (Graph id [], s)
  | S fuel' =>
      match s !! id with
      | Some h =>
          if h_hybrid h && h_active h then
            match h_op h with
            | Some g => (g, s)
            | None => let g := _get_graph fuel s id h in (g, <[id := mkHybrid true true (h_children h) (Some g) (Some g)]> s)
            end
          else
            let '(gs, s) := call_children (hybrid_call fuel') (map snd (h_children h)) s in
            (Graph id gs, s)
      | None => (Graph id [], s)
      end
  end.

(** ** Common prefixes *)

(** The inner [while] loop, which ends with [prefix[:i]]. *)
Fixpoint meet (a b : string) : string :=
  match a, b with
  | String c a, String d b => if bool_decide (c = d) then String c (meet a b) else EmptyString
  | _, _ => EmptyString
  end.
Definition _common_prefix (names : list string) : string :=
  match names with
  | [] => EmptyString
  | n :: _ => fold_left meet names n
  end.

(** ** Arguments come back as they were given *)

Section Regroup.
Context {N S B : Type} (out_nd : N -> B) (outs : S -> list B).
Notation n_outputs := (fun s => length (outs s)).

(** The outputs that stand for an array or a symbol. *)
Definition expand (x : N + S) : list B := match x with inl n => [out_nd n] | inr s => outs s end.

(** The nested structure with the outputs in place of the arguments. *)
Fixpoint grouped (a : garg N S) : tree B :=
  match a with
  | GNd n => TItem (out_nd n)
  | GSym s => match outs s with [b] => TItem b | l => TItems l end
  | GList l => TList (map grouped l)
  | GOther => TList []
  end.

(** Every symbol has an output. *)
Fixpoint has_outputs (a : garg N S) : bool :=
  match a with
  | GSym s => match outs s with [] => false | _ => true end
  | GList l => forallb has_outputs l
  | _ => true
  end.

Lemma flatten_regroup_gen (a : garg N S) : forall flat f,
  has_outputs a = true -> _flatten n_outputs a = Ok (flat, f) ->
  forall rest, _regroup f (concat (map expand flat) ++ rest) = Ok (grouped a, rest).
Proof.
  induction a as [n|s|l IH|] using garg_ind'; intros flat f Ho Hf rest.
  - injection Hf as <- <-. done.
  - injection Hf as <- <-. cbn in Ho |- *. rewrite app_nil_r. destruct (outs s) as [|b [|b' l]] eqn:Es; [done|done|].
    cbn [length Nat.ltb Nat.leb _regroup]. change (Datatypes.S (Datatypes.S (length l))) with (length (b :: b' :: l)).
    by rewrite take_app_length, drop_app_length.
  - cbn [_flatten] in Hf. apply bind_ok in Hf as ([fl fs] & Hgo & [= <- <-]). cbn [fst snd _regroup grouped].
    cbn [has_outputs] in Ho.
    match goal with |- (?g fs _ ≫= _) = _ => assert (g fs (concat (map expand fl) ++ rest) = Ok (map grouped l, rest)) as -> end;
      [|done].
    revert fl fs Hgo rest. induction l as [|a l IHl]; intros fl fs Hgo rest.
    + injection Hgo as <- <-. done.
    + apply bind_ok in Hgo as ([fa ga] & Ha & (y & Hy & [= <- <-])%bind_ok). destruct y as [fl' fs'].
      cbn in Ho. apply andb_true_iff in Ho as [Ho1 Ho2]. apply Forall_cons in IH as [IHa IH].
      cbn [fst snd]. rewrite map_app, concat_app, <- app_assoc.
      rewrite (IHa fa ga Ho1 Ha). cbn. by rewrite (IHl IH Ho2 fl' fs' Hy).
  - done.
Qed.

(** The structure holds arrays and symbols only. *)
Fixpoint tensors_only (a : garg N S) : bool :=
  match a with GList l => forallb tensors_only l | GOther => false | _ => true end.

(** The loop of [_flatten] over a list. *)
Fixpoint flatten_list (l : list (garg N S)) : result (list (N + S) * list fmt) :=
  match l with
  | [] => Ok ([], [])
  | a :: l => x ← _flatten n_outputs a; y ← flatten_list l; Ok (x.1 ++ y.1, x.2 :: y.2)
  end.

Lemma flatten_GList l : _flatten n_outputs (GList l) = (r ← flatten_list l; Ok (r.1, FList r.2)).
Proof. done. Qed.

Lemma flatten_ok (a : garg N S) :
  if tensors_only a then exists x, _flatten n_outputs a = Ok x
  else _flatten n_outputs a = Raise AssertionError.
Proof.
  induction a as [n|s|l IH|] using garg_ind'; [by eexists..| |done].
  rewrite flatten_GList. cbn [tensors_only].
  assert (if forallb tensors_only l then exists x, flatten_list l = Ok x else flatten_list l = Raise AssertionError) as Hgo.
  { induction IH as [|a l Ha _ IHl]; [by eexists|]. cbn [forallb flatten_list]. destruct (tensors_only a); cbn [andb].
    - destruct Ha as [x ->]. cbn. destruct (forallb tensors_only l); [destruct IHl as [z ->]; by eexists|by rewrite IHl].
    - by rewrite Ha. }
  destruct (forallb tensors_only l); [destruct Hgo as [x ->]; by eexists|by rewrite Hgo].
Qed.

(** Flattening the arguments of a hybrid block and regrouping the outputs that
    correspond to them by the recorded format gives the outputs in the structure of the
    arguments, and leaves what follows untouched; arguments with anything but arrays and
    symbols raise [AssertionError]. *)
Theorem flatten_regroup (a : garg N S) rest :
  has_outputs a = true ->
  if tensors_only a
  then exists flat f, _flatten n_outputs a = Ok (flat, f) /\
         _regroup f (concat (map expand flat) ++ rest) = Ok (grouped a, rest)
  else _flatten n_outputs a = Raise AssertionError.
Proof.
  intros Ho. pose proof (flatten_ok a) as Hf. destruct (tensors_only a); [|done].
  destruct Hf as [[flat f] Hx].
  exists flat, f. split; [done|]. by apply flatten_regroup_gen.
Qed.
End Regroup.

(** ** Collecting parameters *)

(** All parameters of the tree that the pattern selects. *)
Fixpoint all_params (select : string -> bool) (b : block) : list (string * nat) :=
  match b with
  | mkBlock _ ps _ cs =>
      filter (fun kv => select kv.1 = true) ps ++ concat (map (fun x => all_params select x.2) cs)
  end.

(** No name stands for two parameters. *)
Definition unambiguous (l : list (string * nat)) : Prop := forall k i j, (k, i) ∈ l -> (k, j) ∈ l -> i = j.

(** A dictionary with exactly the given items. *)
Definition dict_of (l d : list (string * nat)) : Prop := forall k i, od_get k d = Some i <-> (k, i) ∈ l.

Lemma dict_of_set l d k i :
  dict_of l d -> unambiguous (l ++ [(k, i)]) -> dict_of (l ++ [(k, i)]) (od_set k i d).
Proof.
  intros Hd Hu k' j. rewrite od_get_set, elem_of_app, list_elem_of_singleton. case_decide; subst.
  - split; [intros [= ->]; by right|]. intros [Hin|[= ->]]; [|done]. f_equal.
    apply (Hu k' i j); apply elem_of_app; [right; left|by left].
  - rewrite (Hd k' j). split; [by left|]. by intros [|[= -> ->]].
Qed.

Lemma unambiguous_app_l l m : unambiguous (l ++ m) -> unambiguous l.
Proof. intros Hu k i j Hi Hj. apply (Hu k); apply elem_of_app; by left. Qed.

Lemma dict_of_sets m : forall l d, dict_of l d -> unambiguous (l ++ m) ->
  dict_of (l ++ m) (fold_left (fun d kv => od_set kv.1 kv.2 d) m d).
Proof.
  induction m as [|[k i] m IH]; intros l d Hd Hu; cbn; [by rewrite app_nil_r|].
  replace (l ++ (k, i) :: m) with ((l ++ [(k, i)]) ++ m) in * by (by rewrite <- app_assoc). apply IH; [|done].
  apply dict_of_set; [done|]. by apply unambiguous_app_l in Hu.
Qed.

Lemma dict_of_same l l' d : (forall x, x ∈ l <-> x ∈ l') -> dict_of l d -> dict_of l' d.
Proof. intros Hl Hd k i. by rewrite <- Hl. Qed.

(** The items of a dictionary, in its order. *)
Lemma od_items (d : list (string * nat)) k i : NoDup (map fst d) -> od_get k d = Some i <-> (k, i) ∈ d.
Proof. intros Hnd. split; [apply od_get_elem|by apply od_elem_get]. Qed.

Lemma dict_of_nil : dict_of [] [].
Proof. intros k i. split; [done|]. by intros ?%not_elem_of_nil. Qed.

Lemma od_update_spec l d m :
  dict_of l d -> unambiguous m ->
  match od_update d m with
  | Ok d' => unambiguous (l ++ m) /\ dict_of (l ++ m) d'
  | Raise e => e = AssertionError /\ ~ unambiguous (l ++ m)
  end.
Proof.
  intros Hd Hm. unfold od_update. destruct (forallb _ m) eqn:Ef.
  - rewrite forallb_forall in Ef.
    assert (unambiguous (l ++ m)) as Hu.
    { assert (forall k i j, (k, i) ∈ l -> (k, j) ∈ m -> i = j) as Hx.
      { intros k i j Hi Hj%list_elem_of_In. specialize (Ef _ Hj). cbn in Ef. apply Hd in Hi. rewrite Hi in Ef. by apply Nat.eqb_eq. }
      intros k i j [Hi|Hi]%elem_of_app [Hj|Hj]%elem_of_app; [|by eapply Hx|symmetry; by eapply Hx|by eapply Hm].
      apply Hd in Hi, Hj. congruence. }
    split; [done|]. by apply dict_of_sets.
  - split; [done|]. intros Hu. apply not_true_iff_false in Ef. apply Ef, forallb_forall. intros [k j] Hin%list_elem_of_In. cbn.
    destruct (od_get k d) as [i|] eqn:Ek; [|done]. apply Nat.eqb_eq, (Hu k); apply elem_of_app; [left; by apply Hd|by right].
Qed.

Lemma od_sets_NoDup m : forall d : list (string * nat),
  NoDup (map fst d) -> NoDup (map fst (fold_left (fun d kv => od_set kv.1 kv.2 d) m d)).
Proof. induction m as [|[k i] m IH]; intros d Hd; [done|]. cbn. by apply IH, od_set_NoDup. Qed.

Lemma od_update_NoDup d m d' : NoDup (map fst d) -> od_update d m = Ok d' -> NoDup (map fst d').
Proof. intros Hd. unfold od_update. destruct (forallb _ _); [|done]. intros [= <-]. by apply od_sets_NoDup. Qed.

(** The loop over the children. *)
Fixpoint collect_children (select : string -> bool) (children : list (string * block)) (ret : list (string * nat))
  : result (list (string * nat)) :=
  match children with
  | [] => Ok ret
  | (_, cld) :: children =>
      r ← collect_params select cld; ret ← od_update ret r; collect_children select children ret
  end.

Lemma collect_params_unfold select p ps r cs :
  collect_params select (mkBlock p ps r cs) =
    (ret ← od_update [] (filter (fun kv => select kv.1 = true) ps); collect_children select cs ret).
Proof.
  cbn [collect_params]. destruct (od_update [] _) as [ret|]; [|done]. cbn. revert ret.
  induction cs as [|[n c] cs IH]; intros ret; [done|]. cbn. destruct (collect_params select c) as [x|]; [|done]. cbn.
  destruct (od_update ret x); [|done]. cbn. apply IH.
Qed.

Definition collected (select : string -> bool) (b : block) : Prop :=
  match collect_params select b with
  | Ok d => unambiguous (all_params select b) /\ dict_of (all_params select b) d /\ NoDup (map fst d)
  | Raise e => e = AssertionError /\ ~ unambiguous (all_params select b)
  end.

Lemma collect_children_spec select cs :
  Forall (fun x => collected select x.2) cs -> forall l ret, unambiguous l -> dict_of l ret -> NoDup (map fst ret) ->
  match collect_children select cs ret with
  | Ok d => unambiguous (l ++ concat (map (fun x => all_params select x.2) cs)) /\
            dict_of (l ++ concat (map (fun x => all_params select x.2) cs)) d /\ NoDup (map fst d)
  | Raise e => e = AssertionError /\ ~ unambiguous (l ++ concat (map (fun x => all_params select x.2) cs))
  end.
Proof.
  induction 1 as [|[n c] cs Hc _ IH]; intros l ret Hu Hd Hnd; cbn [collect_children map concat snd]; [by rewrite app_nil_r|].
  unfold collected in Hc. cbn [snd] in Hc. destruct (collect_params select c) as [x|e]; cbn.
  2: { destruct Hc as [-> Hn]. split; [done|]. intros Ha. apply Hn. intros k i j Hi Hj.
       apply (Ha k); rewrite !elem_of_app; auto. }
  destruct Hc as (Huc & Hdc & Hndc).
  assert (forall y, y ∈ x <-> y ∈ all_params select c) as Hx by (intros [k i]; by rewrite <- (od_items x k i Hndc), (Hdc k i)).
  pose proof (od_update_spec l ret x Hd) as Hup. destruct (od_update ret x) as [d'|e] eqn:Ed; cbn.
  - destruct Hup as [Hu' Hd']; [intros k i j Hi Hj; apply (Huc k); by apply Hx|].
    rewrite app_assoc. apply IH; [|apply (dict_of_same (l ++ x)); [|done]|by eapply od_update_NoDup].
    + intros k i j. rewrite !elem_of_app, <- !Hx, <- !elem_of_app. apply Hu'.
    + intros y. by rewrite !elem_of_app, Hx.
  - destruct Hup as [-> Hn]; [intros k i j Hi Hj; apply (Huc k); by apply Hx|]. split; [done|]. intros Ha. apply Hn.
    intros k i j. rewrite !elem_of_app, !Hx. intros Hi Hj. apply (Ha k); rewrite !elem_of_app; tauto.
Qed.

(** Every block's own dictionary has distinct names, as a dictionary does. *)
Fixpoint wf_block (b : block) : Prop :=
  match b with
  | mkBlock _ ps _ cs =>
      NoDup (map fst ps) /\
      (fix go (cs : list (string * block)) : Prop := match cs with [] => True | (_, c) :: cs => wf_block c /\ go cs end) cs
  end.

Lemma collect_params_spec select b : wf_block b -> collected select b.
Proof.
  induction b as [p ps r cs IH] using block_ind'. intros [Hps Hcs].
  unfold collected. rewrite collect_params_unfold. cbn [all_params].
  set (own := filter _ ps).
  assert (unambiguous own) as Hown.
  { intros k i j [_ Hi]%list_elem_of_filter [_ Hj]%list_elem_of_filter.
    apply (od_items ps) in Hi, Hj; [congruence|done..]. }
  pose proof (od_update_spec [] [] own) as Hup. destruct (od_update [] own) as [ret|e] eqn:Er; cbn.
  - destruct Hup as [_ Hret]; [apply dict_of_nil|done|].
    apply collect_children_spec; [|done|done|].
    + clear -IH Hcs. induction IH as [|[n c] cs Hc _ IH']; [constructor|]. destruct Hcs as [Hwc Hcs].
      constructor; [by apply Hc|by apply IH'].
    + eapply od_update_NoDup; [|done]. constructor.
  - destruct Hup as [_ Hn]; [apply dict_of_nil|done|done].
Qed.

(** ** The caches of hybrid blocks *)

(** The store lists children before their parents. *)
Definition ordered (s : hstore) : Prop := forall id c, c ∈ kids s id -> (c < id)%nat.

(** The graph of the block as it is now. *)
Notation current s id := (trace (S id) s id).

(** The graphs a block keeps, and that it keeps none. *)
Definition caches (h : hybrid) (g : graph) : Prop := h_graph h = Some g \/ h_op h = Some g.
Definition uncached (h : hybrid) : Prop := h_graph h = None /\ h_op h = None.

Lemma uncached_caches h g : uncached h -> ~ caches h g.
Proof. intros [E1 E2] [E|E]; congruence. Qed.

(** No cached graph is out of date. *)
Definition fresh (s : hstore) : Prop := forall id h g, s !! id = Some h -> caches h g -> g = current s id.

Lemma trace_fuel s id : ordered s -> forall n m, (id < n)%nat -> (id < m)%nat -> trace n s id = trace m s id.
Proof.
  intros Ho. induction (lt_wf id) as [id _ IH]. intros [|n] [|m] Hn Hm; [lia..|]. cbn. f_equal.
  apply map_ext_in. intros c Hc%list_elem_of_In%Ho. apply IH; lia.
Qed.

(** Stores with the same children. *)
Definition same_kids (s t : hstore) : Prop := forall id, kids s id = kids t id.

Lemma trace_same s t n : same_kids s t -> forall id, trace n s id = trace n t id.
Proof.
  intros Hk. induction n as [|n IH]; intros id; [done|]. cbn. rewrite (Hk id). f_equal. by apply map_ext.
Qed.

Lemma same_kids_ordered s t : same_kids s t -> ordered s -> ordered t.
Proof. intros Hk Ho id c. rewrite <- Hk. apply Ho. Qed.

Lemma same_kids_insert (s : hstore) id h h' :
  s !! id = Some h -> h_children h' = h_children h -> same_kids s (<[id := h']> s).
Proof.
  intros Hs Hc i. destruct (decide (i = id)) as [->|].
  - rewrite Hs, list_lookup_insert_eq by (by eapply lookup_lt_Some). by rewrite Hc.
  - by rewrite list_lookup_insert_ne.
Qed.

Lemma fresh_insert (s : hstore) id h h' :
  s !! id = Some h -> h_children h' = h_children h -> fresh s ->
  (forall g, caches h' g -> g = current s id) -> fresh (<[id := h']> s).
Proof.
  intros Hs Hc Hf Hg i hi g Hi Hgi. rewrite <- (trace_same s); [|by eapply same_kids_insert].
  destruct (decide (i = id)) as [->|].
  - rewrite list_lookup_insert_eq in Hi by (by eapply lookup_lt_Some). injection Hi as <-. by apply Hg.
  - rewrite list_lookup_insert_ne in Hi by done. by eapply Hf.
Qed.

(** What a call keeps and computes. *)
Definition call_ok (s : hstore) (id : nat) (r : graph * hstore) : Prop :=
  r.1 = current s id /\ same_kids s r.2 /\ fresh r.2.

Lemma call_children_current call cs : forall s,
  ordered s -> fresh s ->
  (forall c t, c ∈ cs -> ordered t -> fresh t -> call_ok t c (call c t)) ->
  (call_children call cs s).1 = map (fun c => current s c) cs /\
  same_kids s (call_children call cs s).2 /\ fresh (call_children call cs s).2.
Proof.
  induction cs as [|c cs IH]; intros s Ho Hf Hcall; cbn [call_children map]; [done|].
  destruct (Hcall c s) as (Hg & Hk & Hf'); [by left|done..|]. destruct (call c s) as [g s']. cbn [fst snd] in Hg, Hk, Hf'.
  destruct (IH s') as (Hgs & Hk' & Hf''); [by eapply same_kids_ordered|done|intros; apply Hcall; [by right|done..]|].
  destruct (call_children call cs s') as [gs s'']. cbn [fst snd] in *. subst g gs. split; [|split; [|done]].
  - f_equal. apply map_ext. intros c'. symmetry. by apply trace_same.
  - intros i. by rewrite Hk, Hk'.
Qed.

Lemma get_graph_current fuel s id h : ordered s -> fresh s -> s !! id = Some h -> (id < fuel)%nat ->
  _get_graph fuel s id h = current s id.
Proof.
  intros Ho Hf Eh Hlt. unfold _get_graph. destruct (h_graph h) as [g|] eqn:Eg; [by eapply Hf; [|left]|].
  apply trace_fuel; [done|lia..].
Qed.

Lemma infer_attrs_keeps id s : ordered s -> fresh s -> same_kids s (infer_attrs id s) /\ fresh (infer_attrs id s).
Proof.
  intros Ho Hf. unfold infer_attrs. destruct (s !! id) as [h|] eqn:Eh; [|done]. destruct (h_hybrid h); [|done].
  rewrite (get_graph_current (S id) s id h) by (done || lia).
  split; [by eapply same_kids_insert|]. eapply fresh_insert; [done..|].
  intros g [[= <-]|Hg]; [done|]. eapply Hf; [exact Eh|by right].
Qed.

Lemma hybrid_call_current fuel : forall id s,
  ordered s -> fresh s -> (id < fuel)%nat -> call_ok s id (hybrid_call fuel id s).
Proof.
  induction fuel as [|fuel IH]; intros id s Ho Hf Hlt; [lia|]. cbn [hybrid_call].
  destruct (s !! id) as [h|] eqn:Eh; [|by split; [cbn; rewrite Eh|]].
  destruct (h_hybrid h && h_active h).
  - destruct (h_op h) as [g|] eqn:Eg; [split; [by eapply Hf; [|right]|done]|].
    rewrite (get_graph_current (S fuel) s id h) by (done || lia).
    split; [done|]. split; [by eapply same_kids_insert|]. eapply fresh_insert; [done..|]. by intros g [[= <-]|[= <-]].
  - assert (forall c, c ∈ map snd (h_children h) -> (c < id)%nat) as Hc by (intros c Hc; apply (Ho id); by rewrite Eh).
    pose proof (call_children_current (hybrid_call fuel) (map snd (h_children h)) s Ho Hf) as Hcs.
    destruct (call_children _ _ s) as [gs s']. destruct Hcs as (Hgs & Hk & Hf').
    { intros c t Hin Hot Hft. apply IH; [done..|]. apply Hc in Hin. lia. }
    cbn [fst snd] in *. subst gs. split; [|done]. cbn [fst].
    change (current s id) with (Graph id (map (trace id s) (kids s id))). rewrite Eh. f_equal. apply map_ext_in. intros c Hin%list_elem_of_In%Hc.
    apply trace_fuel; [done|lia..].
Qed.

Lemma hybridize_at_keeps active id s :
  same_kids s (hybridize_at active id s) /\ (fresh s -> fresh (hybridize_at active id s)).
Proof.
  unfold hybridize_at. destruct (s !! id) as [h|] eqn:Eh; [|done].
  assert (h_children (hybridize_one active h) = h_children h) as Hc by (unfold hybridize_one; by destruct (h_hybrid h)).
  split; [by eapply same_kids_insert|]. intros Hf. eapply fresh_insert; [done..|].
  intros g. unfold hybridize_one. destruct (h_hybrid h); [by intros [?|?]|]. intros Hg. by eapply Hf.
Qed.

Lemma hybridize_keeps active fuel : forall id s,
  same_kids s (hybridize fuel active id s) /\ (fresh s -> fresh (hybridize fuel active id s)).
Proof.
  induction fuel as [|fuel IH]; intros id s; [done|]. cbn [hybridize].
  destruct (hybridize_at_keeps active id s) as [Hk Hf]. revert Hk Hf.
  generalize (hybridize_at active id s). generalize (kids s id) as cs.
  induction cs as [|c cs IHcs]; intros t Hk Hf; [done|]. cbn. apply IHcs.
  - intros i. rewrite (Hk i). apply IH.
  - intros Hfs. by apply IH, Hf.
Qed.

(** [b] is [a] or a descendant of it. *)
Inductive reaches (s : hstore) : nat -> nat -> Prop :=
  | reaches_refl a : reaches s a a
  | reaches_step a c b : c ∈ kids s a -> reaches s c b -> reaches s a b.

(** Changing the children of a block does not change the graphs of blocks above which it
    is not. *)
Lemma trace_unreached s t p n :
  (forall id, id <> p -> kids t id = kids s id) -> forall a, ~ reaches s a p -> trace n t a = trace n s a.
Proof.
  intros Hk. induction n as [|n IH]; intros a Ha; [done|]. cbn. rewrite Hk.
  - f_equal. apply map_ext_in. intros c Hc%list_elem_of_In. apply IH. intros Hr. apply Ha. by eapply reaches_step.
  - intros ->. apply Ha. constructor.
Qed.

(** No block above [p] has a cached graph. *)
Definition uncached_above (s : hstore) (p : nat) : Prop :=
  forall a h, s !! a = Some h -> reaches s a p -> a <> p -> uncached h.

(** A block that is not hybrid has no cache. *)
Definition plain_uncached (s : hstore) : Prop :=
  forall id h, s !! id = Some h -> h_hybrid h = false -> uncached h.

Lemma register_fresh s p c name t :
  fresh s -> plain_uncached s -> uncached_above s p -> hybrid_register p c name s = Ok t -> fresh t.
Proof.
  intros Hf Hp Ha. unfold hybrid_register. destruct (s !! p) as [h|] eqn:Eh; [|by intros [= <-]].
  destruct (s !! c) as [hc|]; [|by intros [= <-]]. destruct (h_hybrid h && _); [done|]. intros [= <-].
  set (h' := if h_hybrid h then _ else _).
  assert (uncached h') as Hn by (unfold h'; destruct (h_hybrid h) eqn:Eb; [done|]; exact (Hp p h Eh Eb)).
  intros i hi g Hi Hg. destruct (decide (i = p)) as [->|Hne].
  { rewrite list_lookup_insert_eq in Hi by (by eapply lookup_lt_Some). injection Hi as <-. by apply uncached_caches in Hg. }
  rewrite list_lookup_insert_ne in Hi by done. rewrite (trace_unreached s _ p); [by eapply Hf| |].
  - intros id Hid. by rewrite list_lookup_insert_ne.
  - intros Hr. by apply (uncached_caches _ _ (Ha i hi Hi Hr Hne)) in Hg.
Qed.

(** Calls, the inference of shapes, hybridization, and the registration of a child. *)
Inductive hop := OCall (id : nat) | OInferShape (id : nat) | OHybridize (active : bool) (id : nat) | ORegister (parent child : nat) (name : option string).

Definition run_op (o : hop) (s : hstore) : hstore :=
  match o with
  | OCall id => (hybrid_call (S id) id s).2
  | OInferShape id => infer_attrs id s
  | OHybridize active id => hybridize (S id) active id s
  | ORegister p c name => match hybrid_register p c name s with Ok t => t | Raise _ => s end
  end.

(** Children are added below no block that has been traced. *)
Definition allowed (o : hop) (s : hstore) : Prop :=
  match o with ORegister p c _ => (c < p)%nat /\ uncached_above s p | _ => True end.

Fixpoint all_allowed (os : list hop) (s : hstore) : Prop :=
  match os with [] => True | o :: os => allowed o s /\ all_allowed os (run_op o s) end.

Definition hstore_ok (s : hstore) : Prop := ordered s /\ fresh s /\ plain_uncached s.

(** Relating the blocks of two stores one by one. *)
Definition plain_kept (s t : hstore) : Prop := plain_uncached s -> plain_uncached t.

Lemma plain_insert (s : hstore) id h : (h_hybrid h = false -> uncached h) -> plain_kept s (<[id := h]> s).
Proof.
  intros Hh Hp i hi Hi Hb. apply list_lookup_insert_Some in Hi as [(-> & -> & _)|[_ Hi]]; [by apply Hh|by eapply Hp].
Qed.

Lemma hybridize_plain active fuel : forall id s, plain_uncached s -> plain_uncached (hybridize fuel active id s).
Proof.
  induction fuel as [|fuel IH]; intros id s Hp; [done|]. cbn [hybridize].
  assert (plain_uncached (hybridize_at active id s)) as Hp'.
  { unfold hybridize_at. destruct (s !! id) as [h|] eqn:Eh; [|done]. apply plain_insert; [|done].
    unfold hybridize_one. destruct (h_hybrid h) eqn:Eb; [done|]. by intros _; eapply Hp. }
  revert Hp'. generalize (hybridize_at active id s). induction (kids s id) as [|c cs IHcs]; intros t Ht; [done|].
  cbn. by apply IHcs, IH.
Qed.

Lemma call_plain fuel : forall id s, plain_uncached s -> plain_uncached (hybrid_call fuel id s).2.
Proof.
  induction fuel as [|fuel IH]; intros id s Hp; [done|]. cbn [hybrid_call].
  destruct (s !! id) as [h|]; [|done]. destruct (h_hybrid h && h_active h).
  - destruct (h_op h); [done|]. by apply plain_insert.
  - assert (forall cs t, plain_uncached t -> plain_uncached (call_children (hybrid_call fuel) cs t).2) as Hcs.
    { induction cs as [|c cs IHcs]; intros t Ht; [done|]. cbn. specialize (IH c t Ht).
      destruct (hybrid_call fuel c t) as [g t']. specialize (IHcs t' IH). by destruct (call_children _ cs t'). }
    specialize (Hcs (map snd (h_children h)) s Hp). by destruct (call_children _ _ s).
Qed.

Lemma run_op_ok o s : hstore_ok s -> allowed o s -> hstore_ok (run_op o s).
Proof.
  intros (Ho & Hf & Hp) Ha. destruct o as [id|id|active id|p c name]; cbn [run_op].
  - destruct (hybrid_call_current (S id) id s Ho Hf ltac:(lia)) as (_ & Hk & Hf').
    split; [by eapply same_kids_ordered|]. split; [done|by apply call_plain].
  - destruct (infer_attrs_keeps id s Ho Hf) as [Hk Hf'].
    split; [by eapply same_kids_ordered|]. split; [done|]. unfold infer_attrs. destruct (s !! id) as [h|]; [|done].
    destruct (h_hybrid h); [|done]. by apply plain_insert.
  - destruct (hybridize_keeps active (S id) id s) as [Hk Hf'].
    split; [by eapply same_kids_ordered|]. split; [by apply Hf'|by apply hybridize_plain].
  - destruct Ha as [Hlt Ha]. destruct (hybrid_register p c name s) as [t|] eqn:Er; [|done].
    pose proof (register_fresh s p c name t Hf Hp Ha Er) as Hft. revert Er. unfold hybrid_register.
    destruct (s !! p) as [h|] eqn:Eh; [|by intros [= <-]]. destruct (s !! c) as [hc|]; [|by intros [= <-]].
    destruct (h_hybrid h && _); [done|]. intros [= <-]. split; [|split; [done|]].
    + intros id k. destruct (decide (id = p)) as [->|].
      * rewrite list_lookup_insert_eq by (by eapply lookup_lt_Some). intros Hk.
        assert (k ∈ map snd (od_set (match name with Some n => n | None => dec (py_len (h_children h)) end) c (h_children h)))
          as Hk' by (by destruct (h_hybrid h)).
        apply list_elem_of_fmap in Hk' as ([n k'] & -> & [[= _ ->]|Hin]%od_set_elem); cbn; [done|].
        apply (Ho p). rewrite Eh. apply list_elem_of_fmap. by exists (n, k').
      * rewrite list_lookup_insert_ne by done. apply Ho.
    + apply plain_insert; [|done]. destruct (h_hybrid h) eqn:Eb; [done|]. intros _. exact (Hp p h Eh Eb).
Qed.

(** C5: As long as children are only added below no block that has already been traced,
    whatever the sequence of calls, inferences of shapes, hybridizations and registrations, a call of a block
    computes its structure as it is at the moment of the call: no cached graph is out of
    date. *)
Theorem calls_are_current (os : list hop) (s : hstore) (id : nat) :
  hstore_ok s -> all_allowed os s ->
  let t := fold_left (fun s o => run_op o s) os s in
  (hybrid_call (S id) id t).1 = current t id.
Proof.
  revert s. induction os as [|o os IH]; intros s Hs Ha.
  - destruct Hs as (Ho & Hf & _). by apply hybrid_call_current; [..|lia].
  - destruct Ha as [Ha Has]. cbn. apply IH; [by apply run_op_ok|done].
Qed.

(** Three blocks: 2 contains 1, which contains nothing yet; block 0 is free. *)
Definition three : hstore :=
  [mkHybrid true true [] None None; mkHybrid true true [] None None; mkHybrid true true [("0"%string, 1%nat)] None None].

(** After the outer block has run, a child added to the inner block is not seen by the
    outer block, although the inner block's cache was cleared; after hybridizing again it
    is. *)
Example grandchild_is_not_seen :
  let s := run_op (ORegister 1 0 None) (run_op (OCall 2) three) in
  (hybrid_call 3 2 s).1 = Graph 2 [Graph 1 []] /\
  (hybrid_call 2 1 s).1 = Graph 1 [Graph 0 []] /\
  (hybrid_call 3 2 (run_op (OHybridize true 2) s)).1 = Graph 2 [Graph 1 [Graph 0 []]].
Proof. vm_compute. auto. Qed.

(** ** The inputs of a cached graph *)

Lemma data_names_spec (data : list string) : NoDup data ->
  dict_of (imap (fun i n => (n, i)) data)
    (fold_left (fun d kv => od_set kv.1 kv.2 d) (imap (fun i n => (n, i)) data) []).
Proof.
  intros Hnd. apply (dict_of_sets _ []); [apply dict_of_nil|]. intros k i j Hi Hj. cbn in *.
  apply elem_of_lookup_imap in Hi as (i' & n & [= -> ->] & Hi), Hj as (j' & n' & [= -> ->] & Hj).
  by eapply NoDup_lookup.
Qed.

(** The input at position [i] is resolved: a data argument if there is one of its name,
    otherwise the parameter. *)
Definition resolved (data_names params : list (string * nat)) (name : string) (i : nat) (c : cached) (a : option (nat + nat)) : Prop :=
  match a with
  | Some (inl k) => od_get name data_names = Some k /\ i ∈ c_data_indices c
  | Some (inr p) => od_get name data_names = None /\ od_get name params = Some p /\ i ∈ c_param_indices c
  | None => False
  end.

Lemma cache_loop_spec dn ps inputs : forall i c,
  Forall (fun n => od_mem n ps || od_mem n dn = true) inputs ->
  exists args ds qs, cache_loop dn ps i inputs c = Ok (mkCached (c_args c ++ args) (c_data_indices c ++ ds) (c_param_indices c ++ qs)) /\
    ds ++ qs ≡ₚ seq i (length inputs) /\
    forall j name, inputs !! j = Some name -> resolved dn ps name (i + j) (mkCached args ds qs) (args !! j).
Proof.
  induction inputs as [|name inputs IH]; intros i c Hall; cbn [cache_loop].
  { exists [], [], []. rewrite !app_nil_r. by destruct c. }
  apply Forall_cons in Hall as [Hn Hall]. destruct (od_get name dn) as [k|] eqn:Ek.
  - destruct (IH (S i) (mkCached (c_args c ++ [inl k]) (c_data_indices c ++ [i]) (c_param_indices c)) Hall)
      as (args & ds & qs & -> & Hp & Hr).
    exists (inl k :: args), (i :: ds), qs. cbn. rewrite <- !app_assoc. split; [done|]. split; [by rewrite Hp|].
    intros [|j] n; cbn; [intros [= <-]; rewrite Nat.add_0_r; split; [done|by left]|].
    intros Hj. specialize (Hr j n Hj). rewrite Nat.add_succ_comm in Hr. unfold resolved in *. cbn in *.
    destruct (args !! j) as [[]|]; set_solver.
  - unfold od_mem in Hn. rewrite Ek in Hn. destruct (od_get name ps) as [p|] eqn:Ep; [|done].
    destruct (IH (S i) (mkCached (c_args c ++ [inr p]) (c_data_indices c) (c_param_indices c ++ [i])) Hall)
      as (args & ds & qs & -> & Hp & Hr).
    exists (inr p :: args), ds, (i :: qs). cbn. rewrite <- !app_assoc. split; [done|].
    split; [by rewrite <- Permutation_middle, Hp|].
    intros [|j] n; cbn; [intros [= <-]; rewrite Nat.add_0_r; split_and!; [done..|by left]|].
    intros Hj. specialize (Hr j n Hj). rewrite Nat.add_succ_comm in Hr. unfold resolved in *. cbn in *.
    destruct (args !! j) as [[]|]; set_solver.
Qed.

Lemma forallb_ext {A} (f g : A -> bool) l : (forall x, f x = g x) -> forallb f l = forallb g l.
Proof. intros Hfg. induction l as [|x l IH]; [done|]. cbn. by rewrite Hfg, IH. Qed.

(** The inputs of a cached graph split into data and parameter positions, each exactly
    once; the data input of a name is the argument of that position, whether or not a
    parameter has the same name, and any other input is the collected parameter of its
    name.  An input that is neither raises [AssertionError]. *)
Theorem build_cache_complete (data : list string) (params : list (string * nat)) (inputs : list string) :
  NoDup data ->
  if forallb (fun n => od_mem n params || bool_decide (n ∈ data)) inputs
  then exists c, _build_cache data params inputs = Ok c /\
         c_data_indices c ++ c_param_indices c ≡ₚ seq 0 (length inputs) /\
         forall i name, inputs !! i = Some name ->
           match c_args c !! i with
           | Some (inl k) => data !! k = Some name /\ i ∈ c_data_indices c
           | Some (inr p) => name ∉ data /\ od_get name params = Some p /\ i ∈ c_param_indices c
           | None => False
           end
  else _build_cache data params inputs = Raise AssertionError.
Proof.
  intros Hnd. unfold _build_cache. pose proof (data_names_spec data Hnd) as Hd. set (dn := fold_left _ _ _) in *.
  assert (forall n k, od_get n dn = Some k <-> data !! k = Some n) as Hget.
  { intros n k. rewrite (Hd n k). rewrite elem_of_lookup_imap. split; [by intros (? & ? & [= -> ->] & ?)|eauto]. }
  assert (forall n, od_mem n dn = bool_decide (n ∈ data)) as Hmem.
  { intros n. unfold od_mem. destruct (od_get n dn) as [k|] eqn:Ek.
    - symmetry. apply bool_decide_eq_true. by eapply list_elem_of_lookup_2, Hget.
    - symmetry. apply bool_decide_eq_false. intros [k Hk]%list_elem_of_lookup. apply Hget in Hk. congruence. }
  rewrite (forallb_ext (fun n => od_mem n params || od_mem n dn) (fun n => od_mem n params || bool_decide (n ∈ data))) by (intros n; by rewrite Hmem).
  destruct (forallb _ inputs) eqn:Ef; [|done]. cbn.
  destruct (cache_loop_spec dn params inputs 0 (mkCached [] [] [])) as (args & ds & qs & -> & Hp & Hr).
  { apply Forall_forall. intros n Hn%list_elem_of_In. rewrite forallb_forall in Ef. rewrite Hmem. by apply Ef. }
  eexists. split; [done|]. split; [done|]. intros i name Hi. specialize (Hr i name Hi). cbn in *.
  destruct (args !! i) as [[k|p]|]; cbn in Hr; [by rewrite <- Hget| |done].
  destruct Hr as (Hn & ?). split; [|done]. intros [k Hk]%list_elem_of_lookup. apply Hget in Hk. congruence.
Qed.

Lemma build_cache_complete_witness :
  exists c, _build_cache ["data0"; "data1"]%string [("w", 7%nat); ("data1", 8%nat)]%string ["w"; "data1"; "data0"]%string = Ok c /\
    c_args c = [inr 7%nat; inl 1%nat; inl 0%nat] /\ c_data_indices c ++ c_param_indices c ≡ₚ [0; 1; 2]%nat.
Proof.
  pose proof (build_cache_complete ["data0"; "data1"]%string [("w", 7%nat); ("data1", 8%nat)]%string
    ["w"; "data1"; "data0"]%string ltac:(repeat constructor; set_solver)) as (c & Hc & Hp & _).
  exists c. split; [exact Hc|]. split; [|exact Hp]. vm_compute in Hc. by injection Hc as <-.
Defined.

(** ** Names by attributes *)

(** The attributes from a block to a parameter. *)
Fixpoint paths (b : block) : list (list string * nat) :=
  match b with
  | mkBlock _ _ reg cs =>
      map (fun kv => ([kv.1], kv.2)) reg ++ concat (map (fun x => map (fun y => (x.1 :: y.1, y.2)) (paths x.2)) cs)
  end.

Definition dotted (path : list string) : string := String.concat "." path.

(** Attribute names: not empty, and without a dot. *)
Definition plain_name (n : string) : Prop := n <> EmptyString /\ Forall (fun c => c <> "."%char) (chars n).

Fixpoint plain_block (b : block) : Prop :=
  match b with
  | mkBlock _ _ reg cs =>
      NoDup (map fst reg) /\ Forall plain_name (map fst reg) /\ NoDup (map fst cs) /\ Forall plain_name (map fst cs) /\
      (fix go (cs : list (string * block)) : Prop := match cs with [] => True | x :: cs => plain_block x.2 /\ go cs end) cs
  end.

Lemma plain_children (cs : list (string * block)) :
  (fix go (cs : list (string * block)) : Prop := match cs with [] => True | x :: cs => plain_block x.2 /\ go cs end) cs ->
  Forall (fun x => plain_block x.2) cs.
Proof. induction cs as [|x cs IH]; [done|]. intros [Hx Hcs]. constructor; [done|by apply IH]. Qed.

Lemma dotted_cons a l : l <> [] -> dotted (a :: l) = (a +:+ "." +:+ dotted l)%string.
Proof. by destruct l. Qed.

Lemma dotted_snoc l a : l <> [] -> dotted (l ++ [a]) = (dotted l +:+ "." +:+ a)%string.
Proof.
  induction l as [|b l IH]; [done|]. intros _. destruct l as [|c l]; [done|].
  change ((b :: c :: l) ++ [a]) with (b :: ((c :: l) ++ [a])). rewrite dotted_cons, IH, (dotted_cons b) by done.
  apply chars_inj. by rewrite !chars_app, <- !app_assoc.
Qed.

Lemma dotted_empty l : Forall plain_name l -> dotted l = EmptyString -> l = [].
Proof.
  intros Hl. destruct l as [|a l]; [done|]. apply Forall_cons in Hl as [[Ha _] _]. destruct l as [|b l]; [by intros|].
  rewrite dotted_cons by done. by destruct a.
Qed.

(** Two strings without a dot, each followed by nothing or by a dot. *)
Lemma dot_split (a a' s s' : list ascii) :
  Forall (fun c => c <> "."%char) a -> Forall (fun c => c <> "."%char) a' ->
  (forall c, head s = Some c -> c = "."%char) -> (forall c, head s' = Some c -> c = "."%char) ->
  a ++ s = a' ++ s' -> a = a' /\ s = s'.
Proof.
  intros Ha. revert a'. induction Ha as [|c a Hc _ IH]; intros a' Ha' Hs Hs' E.
  - destruct Ha' as [|c' a' Hc' _]; [done|]. cbn in E. subst s. by specialize (Hs c' eq_refl).
  - destruct Ha' as [|c' a' Hc' Ha']; cbn in E; [subst s'; by specialize (Hs' c eq_refl)|].
    injection E as -> E. destruct (IH a' Ha' Hs Hs' E) as [-> ->]. done.
Qed.

(** A dotted name determines its parts. *)
Lemma dotted_inj l l' : Forall plain_name l -> Forall plain_name l' -> dotted l = dotted l' -> l = l'.
Proof.
  intros Hl. revert l'. induction Hl as [|a l [Hne Ha] Hl IH]; intros l' Hl' E.
  { symmetry. by apply dotted_empty. }
  destruct Hl' as [|a' l' [Hne' Ha'] Hl']; [apply dotted_empty; [by constructor|done]|].
  assert (forall x m, chars (dotted (x :: m)) = chars x ++ match m with [] => [] | _ => "."%char :: chars (dotted m) end) as Hd.
  { intros x [|y m]; [by rewrite app_nil_r|]. rewrite dotted_cons by done. by rewrite !chars_app. }
  apply (f_equal chars) in E. rewrite !Hd in E.
  apply dot_split in E as [Ea Es]; [|done|done|by destruct l; cbn; [|intros c [= <-]]|by destruct l'; cbn; [|intros c [= <-]]].
  apply chars_inj in Ea. subst a'. f_equal.
  destruct l as [|b l], l' as [|b' l']; [done|done|done|]. apply IH; [done|]. injection Es as Es. by apply chars_inj.
Qed.

(** Every path is not empty and has plain names. *)
Lemma paths_plain b : plain_block b -> forall x, x ∈ paths b -> x.1 <> [] /\ Forall plain_name x.1.
Proof.
  induction b as [p ps reg cs IH] using block_ind'. cbn. intros (_ & Hr & _ & Hc & Hcs%plain_children) x [Hx|Hx]%elem_of_app.
  - apply list_elem_of_fmap in Hx as ([k i] & -> & Hin). split; [done|]. constructor; [|done].
    rewrite Forall_forall in Hr. apply Hr, list_elem_of_fmap. by exists (k, i).
  - apply list_elem_of_In, in_concat in Hx as (l & Hl%list_elem_of_In & Hx%list_elem_of_In).
    apply list_elem_of_fmap in Hl as ([n c] & -> & Hin). apply list_elem_of_fmap in Hx as (y & -> & Hy). cbn in *.
    split; [done|]. constructor; [rewrite Forall_forall in Hc; apply Hc, list_elem_of_fmap; by exists (n, c)|].
    rewrite Forall_forall in IH, Hcs. by apply (IH _ Hin (Hcs _ Hin)).
Qed.

Lemma paths_NoDup b : plain_block b -> NoDup (map fst (paths b)).
Proof.
  induction b as [p ps reg cs IH] using block_ind'. cbn. intros (Hr & _ & Hnd & _ & Hcs%plain_children).
  rewrite map_app, !map_map, concat_map, map_map. cbn. apply NoDup_app. split_and!.
  - apply (NoDup_fmap_2_strong (fun kv : string * nat => [kv.1])); [|by eapply NoDup_fmap_1].
    intros [k i] [k' i'] Hi Hi' [= ->]. f_equal. apply (od_items reg) in Hi, Hi'; [congruence|done..].
  - intros x Hx Hx'. apply list_elem_of_fmap in Hx as ([k i] & -> & _).
    apply list_elem_of_In, in_concat in Hx' as (l & Hl%list_elem_of_In & Hx%list_elem_of_In).
    apply list_elem_of_fmap in Hl as ([n c] & -> & Hin). cbn in Hx. rewrite map_map in Hx.
    apply list_elem_of_fmap in Hx as (y & [= -> E] & Hy). cbn in E.
    rewrite Forall_forall in Hcs. by destruct (paths_plain c (Hcs _ Hin) y Hy) as [Hn _].
  - clear Hr. induction cs as [|[n c] cs IHcs]; cbn; [constructor|].
    apply Forall_cons in IH as [Hc IH], Hcs as [Hpc Hcs]. apply NoDup_cons in Hnd as [Hn Hnd].
    apply NoDup_app. split_and!; [|intros x Hx Hx'|by apply IHcs].
    + rewrite map_map. cbn. rewrite <- (map_map fst (cons n)). apply NoDup_fmap_2; [by intros ? ? [= ->]|by apply Hc].
    + rewrite map_map in Hx. apply list_elem_of_fmap in Hx as (y & -> & Hy). cbn in Hx'.
      apply list_elem_of_In, in_concat in Hx' as (l & Hl%list_elem_of_In & Hx%list_elem_of_In).
      apply list_elem_of_fmap in Hl as ([n' c'] & -> & Hin). rewrite map_map in Hx.
      apply list_elem_of_fmap in Hx as (z & [= -> _] & _). apply Hn, list_elem_of_fmap. by exists (n', c').
Qed.

(** An entry of the result: the dotted name under a prefix. *)
Definition entry (pre : list string) (x : list string * nat) : string * nat := (dotted (pre ++ x.1), x.2).

Lemma entries_NoDup b pre : plain_block b -> Forall plain_name pre -> NoDup (map fst (map (entry pre) (paths b))).
Proof.
  intros Hb Hpre. rewrite map_map. cbn. rewrite <- (map_map fst (fun l => dotted (pre ++ l))).
  apply NoDup_fmap_2_strong; [|by apply paths_NoDup]. intros x y Hx Hy E.
  apply list_elem_of_fmap in Hx as (x' & -> & Hx), Hy as (y' & -> & Hy).
  apply dotted_inj in E; [by apply (inj (app pre)) in E|..]; apply Forall_app; (split; [done|]); by apply (paths_plain b Hb).
Qed.

(** The loop over the children. *)
Fixpoint named_children (prefix : string) (cs : list (string * block)) (ret : list (string * nat)) : list (string * nat) :=
  match cs with
  | [] => ret
  | (name, child) :: cs =>
      named_children prefix cs
        (fold_left (fun d kv => od_set kv.1 kv.2 d) (_collect_params_with_prefix (prefix +:+ name)%string child) ret)
  end.

Lemma with_prefix_unfold prefix p ps reg cs :
  _collect_params_with_prefix prefix (mkBlock p ps reg cs) =
    let prefix := if str_eqb prefix "" then prefix else (prefix +:+ ".")%string in
    named_children prefix cs (fold_left (fun d kv => od_set (prefix +:+ kv.1)%string kv.2 d) reg []).
Proof.
  cbn. generalize (if str_eqb prefix "" then prefix else (prefix +:+ ".")%string). intros q.
  generalize (fold_left (fun d kv => od_set (q +:+ kv.1)%string kv.2 d) reg []).
  induction cs as [|[n c] cs IH]; intros ret; [done|]. cbn. apply IH.
Qed.

Lemma named_children_spec pre prefix cs : Forall plain_name pre ->
  (forall n, (prefix +:+ n)%string = dotted (pre ++ [n])) ->
  Forall (fun x => forall pre, Forall plain_name pre -> plain_block x.2 ->
            _collect_params_with_prefix (dotted pre) x.2 = map (entry pre) (paths x.2)) cs ->
  Forall (fun x => plain_block x.2) cs -> Forall plain_name (map fst cs) ->
  let new := concat (map (fun x => map (entry (pre ++ [x.1])) (paths x.2)) cs) in
  forall ret, NoDup (map fst ret ++ map fst new) -> named_children prefix cs ret = ret ++ new.
Proof.
  intros Hpre Hpx. induction cs as [|[n c] cs IH]; intros Hcs Hpl Hn new ret Hnd; cbn [named_children].
  { symmetry. apply app_nil_r. }
  apply Forall_cons in Hcs as [Hc Hcs], Hpl as [Hpc Hpl], Hn as [Hn Hns]. cbn [fst snd] in *.
  rewrite Hpx, (Hc (pre ++ [n])); [|apply Forall_app; by auto|done].
  subst new. cbn [map concat fst snd] in *. rewrite map_app in Hnd. rewrite od_set_all.
  - rewrite (IH Hcs Hpl Hns); [by rewrite <- app_assoc|]. by rewrite map_app, <- app_assoc.
  - rewrite app_assoc in Hnd. by apply NoDup_app in Hnd as [? _].
Qed.

Lemma collect_paths b : forall pre, Forall plain_name pre -> plain_block b ->
  _collect_params_with_prefix (dotted pre) b = map (entry pre) (paths b).
Proof.
  induction b as [p ps reg cs IH] using block_ind'. intros pre Hpre Hb.
  pose proof (entries_NoDup _ pre Hb Hpre) as Hnd. destruct Hb as (_ & _ & _ & Hc & Hcs%plain_children).
  set (prefix := if str_eqb (dotted pre) "" then dotted pre else (dotted pre +:+ ".")%string).
  assert (forall n, (prefix +:+ n)%string = dotted (pre ++ [n])) as Hpx.
  { intros n. subst prefix. unfold str_eqb. case_bool_decide as E.
    - by rewrite (dotted_empty pre Hpre E).
    - rewrite dotted_snoc by (by intros ->). apply chars_inj. by rewrite !chars_app, <- app_assoc. }
  transitivity (named_children prefix cs (fold_left (fun d kv => od_set (prefix +:+ kv.1)%string kv.2 d) reg [])).
  { apply with_prefix_unfold. }
  cbn [paths] in *. rewrite map_app in *. rewrite map_app in Hnd.
  assert (fold_left (fun d kv => od_set (prefix +:+ kv.1)%string kv.2 d) reg [] = map (entry pre) (map (fun kv => ([kv.1], kv.2)) reg)) as ->.
  { destruct (proj1 (NoDup_app _ _) Hnd) as [Hnd1 _]. etrans; [|exact (od_set_all _ [] Hnd1)]. generalize (@nil (string * nat)).
    clear -Hpx. induction reg as [|[k i] reg IHr]; intros d; [done|]. cbn. rewrite Hpx. apply IHr. }
  assert (map (entry pre) (concat (map (fun x => map (fun y => (x.1 :: y.1, y.2)) (paths x.2)) cs)) =
    concat (map (fun x => map (entry (pre ++ [x.1])) (paths x.2)) cs)) as En.
  { rewrite concat_map, map_map. f_equal. apply map_ext. intros x. rewrite map_map. apply map_ext. intros y.
    unfold entry. cbn. by rewrite <- app_assoc. }
  rewrite En in Hnd |- *. by apply named_children_spec.
Qed.

(** The names by attributes that parameters are saved under, with attribute names that
    are distinct in each block and have no dot: every parameter registered in the tree
    occurs, under the dotted path of attributes to it, in the order of the tree, and no two
    registrations share a name. *)
Theorem attribute_names_complete (b : block) :
  plain_block b ->
  _collect_params_with_prefix "" b = map (fun x => (dotted x.1, x.2)) (paths b) /\
  NoDup (map fst (_collect_params_with_prefix "" b)).
Proof.
  intros Hb. change ""%string with (dotted []) at 1 2. rewrite (collect_paths b []) by done. split; [done|].
  by apply entries_NoDup.
Qed.

(** A network of two dense layers, the second with the first one's weight. *)
Definition dense_layer (name : string) (w b : nat) : block :=
  mkBlock name [(name +:+ "weight", w); (name +:+ "bias", b)]%string [("weight", w); ("bias", b)]%string [].
Definition two_layers : block :=
  mkBlock "net_" [] [] [("0", dense_layer "net_dense0_" 0 1); ("1", dense_layer "net_dense1_" 2 3)]%string.

Lemma attribute_names_complete_witness :
  _collect_params_with_prefix "" two_layers = [("0.weight", 0%nat); ("0.bias", 1%nat); ("1.weight", 2%nat); ("1.bias", 3%nat)]%string.
Proof.
  destruct (attribute_names_complete two_layers) as [-> _]; [|reflexivity].
  repeat (split || constructor || set_solver || discriminate).
Defined.

(** [collect_params] returns exactly the selected parameters of the block and of all
    its descendants, each name once; it raises [AssertionError] exactly when one name
    stands for two different parameters somewhere in the tree. *)
Theorem collect_params_complete (select : string -> bool) (b : block) :
  wf_block b ->
  match collect_params select b with
  | Ok d => NoDup (map fst d) /\ forall k i, od_get k d = Some i <-> (k, i) ∈ all_params select b
  | Raise e => e = AssertionError /\ exists k i j, (k, i) ∈ all_params select b /\ (k, j) ∈ all_params select b /\ i <> j
  end.
Proof.
  intros Hb. pose proof (collect_params_spec select b Hb) as Hc. unfold collected in Hc.
  destruct (collect_params select b) as [d|e]; [by destruct Hc as (_ & Hd & Hnd)|]. destruct Hc as [-> Hn]. split; [done|].
  assert (~ Forall (fun x => Forall (fun y => x.1 = y.1 -> x.2 = y.2) (all_params select b)) (all_params select b)) as Hf.
  { intros Hf. apply Hn. intros k i j Hi Hj. rewrite Forall_forall in Hf. specialize (Hf _ Hi). rewrite Forall_forall in Hf.
    by apply (Hf _ Hj). }
  apply not_Forall_Exists, Exists_exists in Hf as ([k i] & Hi & Hf); [|apply _].
  apply not_Forall_Exists, Exists_exists in Hf as ([k' j] & Hj & Hf); [|apply _]. cbn in Hf.
  destruct (decide (k = k')) as [->|]; [|tauto]. exists k', i, j. tauto.
Qed.

Lemma collect_params_complete_witness :
  exists d, collect_params (fun n => str_eqb n "net_dense1_weight") two_layers = Ok d /\
    (forall k i, od_get k d = Some i <-> (k, i) ∈ [("net_dense1_weight"%string, 2%nat)]).
Proof.
  pose proof (collect_params_complete (fun n => str_eqb n "net_dense1_weight") two_layers) as Hc.
  destruct Hc as [_ Hd]; [repeat (split || constructor || set_solver || discriminate)|].
  eexists. split; [reflexivity|]. exact Hd.
Defined.

(** A name in two blocks for two parameters. *)
Example collect_params_clash :
  collect_params (fun _ => true) (mkBlock "a_" [("w", 0%nat)]%string [] [("0"%string, mkBlock "b_" [("w", 1%nat)]%string [] [])])
    = Raise AssertionError.
Proof. reflexivity. Qed.

(** ** Witnesses *)

(** An array, then a list of a symbol with two outputs and an array. *)
Lemma flatten_regroup_witness :
  let outs := fun s : nat => match s with O => [10] | _ => [20; 21] end in
  let a := GList [GNd 1; GList [GSym 1%nat; GNd 2]] in
  exists flat f, _flatten (fun s => length (outs s)) a = Ok (flat, f) /\
    _regroup f (concat (map (expand (fun n : Z => n) outs) flat) ++ [99]) =
      Ok (TList [TItem 1; TList [TItems [20; 21]; TItem 2]], [99]).
Proof.
  intros outs a. exact (flatten_regroup (fun n : Z => n) outs a [99] eq_refl).
Defined.

Lemma three_ok : hstore_ok three.
Proof.
  split; [|split].
  - intros [|[|[|id]]] c; cbn; set_solver by lia.
  - intros [|[|[|id]]] h g; cbn; [intros [= <-] [?|?]; done..|done].
  - intros [|[|[|id]]] h; cbn; [intros [= <-]..|]; done.
Qed.

(** A child added to the inner block before the outer one has been traced. *)
Lemma calls_are_current_witness :
  (hybrid_call 3 2 (fold_left (fun s o => run_op o s) [ORegister 1 0 None; OCall 2; OHybridize false 1; OCall 2] three)).1
    = Graph 2 [Graph 1 [Graph 0 []]].
Proof.
  rewrite (calls_are_current [ORegister 1 0 None; OCall 2; OHybridize false 1; OCall 2] three 2 three_ok); [reflexivity|].
  split; [|done]. split; [lia|]. intros [|[|[|a]]] h; cbn; [intros [= <-]..|]; done.
Defined.

(** ** Common prefixes *)

Lemma prefix_dec_cons c d a b : startswith (String c a) (String d b) = (bool_decide (c = d) && startswith a b).
Proof.
  change (startswith (String c a) (String d b)) with (if ascii_dec c d then startswith a b else false).
  case_bool_decide; destruct (ascii_dec c d); done.
Qed.

(** The strings that both strings start with are those their meet starts with. *)
Lemma meet_spec a : forall b p, startswith p (meet a b) = startswith p a && startswith p b.
Proof.
  induction a as [|c a IH]; intros b p; [destruct p as [|d p], b; done|].
  destruct b as [|d b]; [by destruct p; cbn; rewrite ?andb_false_r|]. cbn [meet].
  destruct p as [|e p]; [by case_bool_decide|]. rewrite !prefix_dec_cons.
  destruct (decide (c = d)) as [->|Hne].
  - rewrite bool_decide_true by done. rewrite prefix_dec_cons, IH. by destruct (bool_decide (e = d)).
  - rewrite (bool_decide_false (c = d)) by done. case_bool_decide; [subst|done]. rewrite bool_decide_false by done.
    by rewrite andb_false_r.
Qed.

Lemma common_prefix_spec names : forall n p,
  startswith p (fold_left meet names n) = startswith p n && forallb (startswith p) names.
Proof.
  induction names as [|m names IH]; intros n p; cbn; [by rewrite andb_true_r|]. rewrite IH, meet_spec. by rewrite andb_assoc.
Qed.

Lemma startswith_refl s : startswith s s = true.
Proof. induction s as [|c s IH]; [done|]. rewrite prefix_dec_cons, bool_decide_true by done. done. Qed.

(** [SymbolBlock.__init__]: the parameters are registered under their names without the
    common prefix of all of them. *)
Definition symbol_reg_params (params : list (string * nat)) : list (string * nat) :=
  let len_prefix := String.length (_common_prefix (map fst params)) in
  fold_left (fun d kv => od_set (str_drop len_prefix kv.1) kv.2 d) params [].

(** The common prefix is the longest one: a string is a prefix of all names exactly
    when it is a prefix of their common prefix.  So a symbol block registers every one of
    its parameters, under the rest of its name. *)
Theorem symbol_block_registers_all (params : list (string * nat)) :
  NoDup (map fst params) ->
  (forall p, params <> [] ->
     startswith p (_common_prefix (map fst params)) = forallb (startswith p) (map fst params)) /\
  symbol_reg_params params =
    map (fun kv => (str_drop (String.length (_common_prefix (map fst params))) kv.1, kv.2)) params /\
  NoDup (map fst (symbol_reg_params params)).
Proof.
  intros Hnd. set (pre := _common_prefix (map fst params)).
  assert (forall p, params <> [] -> startswith p pre = forallb (startswith p) (map fst params)) as Hpre.
  { intros p Hne. subst pre. destruct params as [|[k v] params]; [done|]. cbn [_common_prefix map fst].
    rewrite common_prefix_spec. cbn. by destruct (startswith p k). }
  assert (forall k, k ∈ map fst params -> k = pre +:+ str_drop (String.length pre) k) as Hk.
  { intros k Hin. apply startswith_drop. assert (params <> []) as Hne by (by intros ->; apply not_elem_of_nil in Hin).
    specialize (Hpre pre Hne). rewrite startswith_refl in Hpre. symmetry in Hpre. rewrite forallb_forall in Hpre.
    by apply Hpre, list_elem_of_In. }
  assert (NoDup (map fst (map (fun kv => (str_drop (String.length pre) kv.1, kv.2)) params))) as Hnd'.
  { rewrite map_map. cbn. rewrite <- (map_map fst (str_drop (String.length pre))). apply NoDup_fmap_2_strong; [|done].
    intros x y Hx Hy E. rewrite (Hk x Hx), (Hk y Hy). by f_equal. }
  assert (symbol_reg_params params = map (fun kv => (str_drop (String.length pre) kv.1, kv.2)) params) as ->.
  { etrans; [|exact (od_set_all _ [] Hnd')]. unfold symbol_reg_params. fold pre. clearbody pre.
    generalize (@nil (string * nat)). clear. induction params as [|kv params IH]; intros d; [done|]. apply IH. }
  done.
Qed.

Lemma symbol_block_registers_all_witness :
  symbol_reg_params [("net_conv0_weight", 0%nat); ("net_conv1_weight", 1%nat); ("net_dense0_bias", 2%nat)]%string
    = [("conv0_weight", 0%nat); ("conv1_weight", 1%nat); ("dense0_bias", 2%nat)]%string.
Proof.
  pose proof (symbol_block_registers_all
    [("net_conv0_weight", 0%nat); ("net_conv1_weight", 1%nat); ("net_dense0_bias", 2%nat)]%string) as H.
  destruct H as (_ & -> & _); [repeat constructor; set_solver|reflexivity].
Defined.

(** ** Prefixes of children *)

(** Creating children one after the other in a block's scope, without explicit prefixes. *)
Fixpoint creates (hints : list string) (cur : bscope) (names : NameManager) : list string :=
  match hints with
  | [] => []
  | h :: hints =>
      let '(prefix, _, cur', names) := create (Some cur) names None None h in
      prefix :: creates hints (default cur cur') names
  end.

Definition bcount (cur : bscope) (h : string) : Z := default 0 (bs_counter cur !! h).

Lemma creates_elem hints : forall cur names x, x ∈ creates hints cur names ->
  exists h n, h ∈ hints /\ bcount cur h <= n /\ x = (bs_prefix cur +:+ h +:+ dec n +:+ "_")%string.
Proof.
  induction hints as [|h hints IH]; intros cur names x; cbn; [by intros ?%not_elem_of_nil|].
  intros [->|Hx]%elem_of_cons; [exists h, (bcount cur h); split_and!; [by left|done|done]|].
  apply IH in Hx as (h' & n & Hin & Hn & ->). exists h', n. split_and!; [by right| |done].
  unfold bcount in *. cbn in Hn. destruct (decide (h' = h)) as [->|]; [rewrite lookup_insert_eq in Hn; cbn in Hn; lia|].
  by rewrite lookup_insert_ne in Hn.
Qed.

Lemma append_inj_l p a b : (p +:+ a = p +:+ b)%string -> a = b.
Proof. intros E. apply (f_equal chars) in E. rewrite !chars_app in E. apply (inj (app _)) in E. by apply chars_inj. Qed.
Lemma append_inj_r p a b : (a +:+ p = b +:+ p)%string -> a = b.
Proof. intros E. apply (f_equal chars) in E. rewrite !chars_app in E. apply (inj (fun l => l ++ chars p)) in E. by apply chars_inj. Qed.

(** The children created in the scope of a block without explicit prefixes all get
    different prefixes, whatever the order of their classes, as long as no class name ends
    in a digit. *)
Theorem child_prefixes_distinct (hints : list string) (cur : bscope) (names : NameManager) :
  Forall plain_hint hints -> (forall h, 0 <= bcount cur h) -> NoDup (creates hints cur names).
Proof.
  revert cur names. induction hints as [|h hints IH]; intros cur names Hh Hc; cbn; [constructor|].
  apply Forall_cons in Hh as [Hh Hhs]. constructor.
  - intros Hin. apply creates_elem in Hin as (h' & n & Hin & Hn & E). cbn in E. apply append_inj_l in E.
    assert ((h +:+ dec (bcount cur h)) +:+ "_" = (h' +:+ dec n) +:+ "_")%string as E'
      by (apply chars_inj; apply (f_equal chars) in E; rewrite !chars_app in *; by rewrite <- !app_assoc).
    apply append_inj_r, name_inj in E' as [-> En]; [|done|by eapply Forall_forall|apply Hc|].
    + unfold bcount in *. cbn in Hn. rewrite lookup_insert_eq in Hn. cbn in Hn. lia.
    + unfold bcount in Hn. cbn in Hn. specialize (Hc h'). unfold bcount in Hc.
      destruct (decide (h' = h)) as [->|]; [rewrite lookup_insert_eq in Hn; cbn in Hn; lia|].
      rewrite lookup_insert_ne in Hn by done. lia.
  - apply IH; [done|]. intros h'. unfold bcount. cbn. pose proof (Hc h) as Hc1. pose proof (Hc h') as Hc0. unfold bcount in Hc0, Hc1.
    destruct (decide (h' = h)) as [->|Hne]; [rewrite lookup_insert_eq; cbn; lia|].
    rewrite lookup_insert_ne by done. apply Hc0.
Qed.

Lemma child_prefixes_distinct_witness :
  creates ["dense"; "conv2d_"; "dense"]%string (mkBScope "net_" "net_" None ∅) NameManager_new
    = ["net_dense0_"; "net_conv2d_0_"; "net_dense1_"]%string /\
  NoDup (creates ["dense"; "conv2d_"; "dense"]%string (mkBScope "net_" "net_" None ∅) NameManager_new).
Proof.
  split; [reflexivity|]. apply child_prefixes_distinct; [by repeat constructor|]. intros h. done.
Defined.
