(* ===== verification/Optimizer.v ===== *)
(** * The optimizer base class and the updater

    [optimizer/optimizer.py]: the class [Optimizer] (update counts, learning rates and
    weight decays with their multipliers, mixed precision) and the class [Updater], which
    keeps the optimizer's states by index, creates them on first use, saves and restores
    them, and passes the weights to the optimizer one by one or in groups.

    An index is an integer or a string.  Floating-point numbers are those of
    [LRScheduler]; a scheduler is an object with a call that may change it ([Scheduler]).
    Weights, gradients and states are tensors whose elements are a list; an update returns
    their new contents. *)

From Stdlib Require Import QArith.
From S2P Require Import Prelude NDArray LRScheduler.
Open Scope Z_scope.

(** ** Keys and schedulers *)

Inductive key := KInt (i : Z) | KStr (s : string).
#[export] Instance key_eq_dec : EqDecision key.
Proof. solve_decision. Defined.
#[export] Instance key_countable : Countable key.
Proof.
  refine (inj_countable' (fun k => match k with KInt i => inl i | KStr s => inr s end)
    (fun x => match x with inl i => KInt i | inr s => KStr s end) _). by intros [].
Defined.

(** What an optimizer uses of its scheduler: the call, and the assignment of [base_lr]. *)
Class Scheduler (F S : Type) := {
  sched_call : Z -> M S F;
  sched_set_base : F -> S -> S;
}.

(** The optimizers without a scheduler. *)
#[export] Instance no_scheduler {F} : Scheduler F Empty_set := {
  sched_call _ s := match s with end;
  sched_set_base _ s := s;
}.

(** [FactorScheduler] as a scheduler. *)
#[export] Instance factor_scheduler {F} `{Float F} : Scheduler F (FactorScheduler F) := {
  sched_call n s := match FactorScheduler_call n s with Some r => r | None => (Raise RuntimeError, s) end;
  sched_set_base lr s := mkFactor (set_base_lr lr (f_super s)) (f_step s) (f_factor s) (f_stop s) (f_count s);
}.

(** ** [Optimizer] *)

(** [lr_mult] and [wd_mult] of a gluon parameter. *)
Record mults (F : Type) := mkMults { pm_lr : F; pm_wd : F }.
Arguments mkMults {F} _ _.
Arguments pm_lr {F} _.
Arguments pm_wd {F} _.

(** [sym_info]: the attributes of the symbol by name, and its arguments. *)
Definition syminfo : Type := gmap string (gmap string string) * list string.

Record Optimizer (F S : Type) := mkOptimizer {
  rescale_grad : F;
  lr : F;
  lr_scheduler : option S;
  wd : F;
  lr_mult : gmap key F;
  wd_mult : gmap key F;
  begin_num_update : Z;
  num_update : Z;
  _index_update_count : gmap key Z;
  clip_gradient : option F;
  multi_precision : bool;
  aggregate_num : Z;
  idx2name : gmap key string;
  sym_info : option syminfo;
  param_dict : gmap key (mults F);
}.
Arguments mkOptimizer {F S} _ _ _ _ _ _ _ _ _ _ _ _ _ _ _.
Arguments rescale_grad {F S} _.
Arguments lr {F S} _.
Arguments lr_scheduler {F S} _.
Arguments wd {F S} _.
Arguments lr_mult {F S} _.
Arguments wd_mult {F S} _.
Arguments begin_num_update {F S} _.
Arguments num_update {F S} _.
Arguments _index_update_count {F S} _.
Arguments clip_gradient {F S} _.
Arguments multi_precision {F S} _.
Arguments aggregate_num {F S} _.
Arguments idx2name {F S} _.
Arguments sym_info {F S} _.
Arguments param_dict {F S} _.

Section Base.
Context {F S : Type} `{Float F} `{Scheduler F S} (float_of : string -> result F).
Notation Opt := (Optimizer F S).

(** Assignments to attributes. *)
Definition put_rates (r : F) (s : option S) (o : Opt) : Opt :=
  mkOptimizer (rescale_grad o) r s (wd o) (lr_mult o) (wd_mult o) (begin_num_update o) (num_update o)
    (_index_update_count o) (clip_gradient o) (multi_precision o) (aggregate_num o) (idx2name o) (sym_info o) (param_dict o).
Definition put_opt_mults (l w : gmap key F) (o : Opt) : Opt :=
  mkOptimizer (rescale_grad o) (lr o) (lr_scheduler o) (wd o) l w (begin_num_update o) (num_update o)
    (_index_update_count o) (clip_gradient o) (multi_precision o) (aggregate_num o) (idx2name o) (sym_info o) (param_dict o).
Definition put_counts (n : Z) (c : gmap key Z) (o : Opt) : Opt :=
  mkOptimizer (rescale_grad o) (lr o) (lr_scheduler o) (wd o) (lr_mult o) (wd_mult o) (begin_num_update o) n c
    (clip_gradient o) (multi_precision o) (aggregate_num o) (idx2name o) (sym_info o) (param_dict o).
Definition put_params (p : gmap key (mults F)) (o : Opt) : Opt :=
  mkOptimizer (rescale_grad o) (lr o) (lr_scheduler o) (wd o) (lr_mult o) (wd_mult o) (begin_num_update o) (num_update o)
    (_index_update_count o) (clip_gradient o) (multi_precision o) (aggregate_num o) (idx2name o) (sym_info o) p.
Definition put_aggregate (n : Z) (o : Opt) : Opt :=
  mkOptimizer (rescale_grad o) (lr o) (lr_scheduler o) (wd o) (lr_mult o) (wd_mult o) (begin_num_update o) (num_update o)
    (_index_update_count o) (clip_gradient o) (multi_precision o) n (idx2name o) (sym_info o) (param_dict o).

(** [s.endswith(suffix)] *)
Definition endswith (suffix s : string) : bool :=
  (String.length suffix <=? String.length s)%nat &&
  str_eqb (String.substring (String.length s - String.length suffix) (String.length suffix) s) suffix.

(** The multipliers that the attributes of the symbol give. *)
Definition symbol_mults (field : string) (set : string -> F -> Opt -> Opt) : M Opt unit :=
  o ← get;
  match sym_info o with
  | None => mret tt
  | Some (attr, arg_names) =>
      forM (fun name => match attr !! name ≫= lookup field with
                        | Some v => x ← lift (float_of v); modify (set name x)
                        | None => mret tt
                        end) arg_names
  end.

Definition set_lr_mult (args_lr_mult : gmap key F) : M Opt unit :=
  _ ← modify (fun o => put_opt_mults ∅ (wd_mult o) o);
  _ ← symbol_mults "__lr_mult__" (fun n x o => put_opt_mults (<[KStr n := x]> (lr_mult o)) (wd_mult o) o);
  modify (fun o => put_opt_mults (args_lr_mult ∪ lr_mult o) (wd_mult o) o).

(** The names that take no weight decay by default. *)
Definition undecayed (o : Opt) : gmap key F :=
  list_to_map (map (fun n => (KStr n, fof 0))
    (filter (fun n => negb (endswith "_weight" n || endswith "_gamma" n) = true) (map snd (map_to_list (idx2name o))))).

Definition set_wd_mult (args_wd_mult : gmap key F) : M Opt unit :=
  _ ← modify (fun o => put_opt_mults (lr_mult o) (undecayed o) o);
  _ ← symbol_mults "__wd_mult__" (fun n x o => put_opt_mults (lr_mult o) (<[KStr n := x]> (wd_mult o)) o);
  modify (fun o => put_opt_mults (lr_mult o) (args_wd_mult ∪ wd_mult o) o).

Definition Optimizer_init (rescale : F) (param_idx2name : gmap key string) (wd0 : F) (clip : option F)
  (learning_rate : F) (scheduler : option S) (sym : option syminfo) (begin : Z) (mp : bool)
  (params : gmap key (mults F)) : result Opt :=
  let scheduler := sched_set_base learning_rate <$> scheduler in
  let o := mkOptimizer rescale learning_rate scheduler wd0 ∅ ∅ begin begin ∅ clip mp 0 param_idx2name sym params in
  match (_ ← set_lr_mult ∅; set_wd_mult ∅) o with (Ok _, o) => Ok o | (Raise e, _) => Raise e end.

(** [learning_rate]: the scheduler's for the number of updates so far, or [lr]. *)
Definition learning_rate : M Opt F := fun o =>
  match lr_scheduler o with
  | Some s => let '(r, s) := sched_call (num_update o) s in (r, put_rates (lr o) (Some s) o)
  | None => (Ok (lr o), o)
  end.

Definition set_learning_rate (r : F) : M Opt unit := fun o =>
  match lr_scheduler o with
  | Some _ => (Raise UserWarning, o)
  | None => (Ok tt, put_rates r None o)
  end.

Definition count_one (idx : key) (o : Opt) : Opt :=
  let c := default (begin_num_update o) (_index_update_count o !! idx) + 1 in
  put_counts (Z.max c (num_update o)) (<[idx := c]> (_index_update_count o)) o.
Definition _update_count (index : list key) (o : Opt) : Opt := fold_left (fun o i => count_one i o) index o.

(** The multiplier of an index: of the parameter, of the index, of the name, in this order. *)
Definition scale_by (pm : mults F -> F) (mult : gmap key F) (o : Opt) (index : key) (x : F) : F :=
  match param_dict o !! index with
  | Some p => fmul x (pm p)
  | None =>
      match mult !! index with
      | Some m => fmul x m
      | None => match idx2name o !! index with
                | Some n => fmul x (default (fof 1) (mult !! KStr n))
                | None => x
                end
      end
  end.

Definition _get_lrs (indices : list key) : M Opt (list F) :=
  r ← learning_rate; o ← get; mret (map (fun i => scale_by pm_lr (lr_mult o) o i r) indices).
Definition _get_lr (index : key) : M Opt F :=
  l ← _get_lrs [index]; lift (py_index l 0).
Definition _get_wds (indices : list key) (o : Opt) : list F :=
  map (fun i => scale_by pm_wd (wd_mult o) o i (wd o)) indices.
Definition _get_wd (index : key) (o : Opt) : F := scale_by pm_wd (wd_mult o) o index (wd o).

(** [__getstate__] then [__setstate__]: everything but [param_dict]. *)
Definition pickled (o : Opt) : Opt := put_params ∅ o.
End Base.

(** ** Update counts *)

Section Counts.
Context {F S : Type} `{Float F} `{Scheduler F S}.
Notation Opt := (Optimizer F S).

Definition times (i : key) (l : list key) : Z := py_len (filter (fun j => j = i) l).

Lemma times_cons i j l : times i (j :: l) = (if decide (j = i) then 1 else 0) + times i l.
Proof. unfold times. rewrite filter_cons. case_decide; [by rewrite py_len_cons|done]. Qed.
Lemma times_app i l m : times i (l ++ m) = times i l + times i m.
Proof. unfold times. by rewrite filter_app, py_len_app. Qed.
Lemma times_nonneg i l : 0 <= times i l.
Proof. apply py_len_nonneg. Qed.

(** The counts after the updates of the indices [l]. *)
Definition counted (begin : Z) (l : list key) (o : Opt) : Prop :=
  begin_num_update o = begin /\
  (forall i, _index_update_count o !! i = if decide (i ∈ l) then Some (begin + times i l) else None) /\
  (forall i, begin + times i l <= num_update o) /\
  (num_update o = begin \/ exists i, i ∈ l /\ num_update o = begin + times i l).

Lemma times_notin i l : i ∉ l -> times i l = 0.
Proof. intros Hi. induction l as [|j l IH]; [done|]. rewrite times_cons, (decide_False (P := j = i)) by set_solver. rewrite IH; set_solver. Qed.

Lemma count_one_counted begin l o j : counted begin l o -> counted begin (l ++ [j]) (count_one j o).
Proof.
  intros (Hb & Hc & Hle & Hmax). unfold count_one.
  set (c := default (begin_num_update o) (_index_update_count o !! j) + 1).
  assert (c = begin + times j l + 1) as Ec.
  { subst c. rewrite Hc, Hb. case_decide; cbn; [done|]. by rewrite times_notin, Z.add_0_r. }
  assert (forall i, times i (l ++ [j]) = times i l + (if decide (j = i) then 1 else 0)) as Ht.
  { intros i. rewrite times_app, times_cons. change (times i []) with 0. lia. }
  split; [done|]. cbn. split_and!.
  - intros i. destruct (decide (i = j)) as [->|Hne].
    + rewrite lookup_insert_eq, decide_True by set_solver. rewrite Ht, decide_True by done. f_equal. lia.
    + rewrite lookup_insert_ne by done. rewrite Hc, Ht, (decide_False (P := j = i)) by done. rewrite Z.add_0_r.
      destruct (decide (i ∈ l)); [rewrite decide_True by set_solver; done|]. by rewrite decide_False by set_solver.
  - intros i. rewrite Ht. specialize (Hle i). case_decide; subst; lia.
  - destruct (Z.max_spec c (num_update o)) as [[Hlt ->]|[Hge ->]].
    + destruct Hmax as [|(i & Hi & Ei)]; [by left|]. right. exists i. split; [set_solver|]. rewrite Ht.
      case_decide; [subst; lia|lia].
    + right. exists j. split; [set_solver|]. rewrite Ht, decide_True by done. lia.
Qed.

Lemma update_count_counted begin l o index : counted begin l o -> counted begin (l ++ index) (_update_count index o).
Proof.
  revert l o. induction index as [|j index IH]; intros l o Hc; cbn; [by rewrite app_nil_r|].
  replace (l ++ j :: index) with ((l ++ [j]) ++ index) by (by rewrite <- app_assoc). by apply IH, count_one_counted.
Qed.

(** However the updates are grouped into calls, after them the count of an index is
    the initial count plus the number of its updates, an index without updates has none,
    and [num_update] is the largest of the counts (the initial count when there are no
    updates). *)
Theorem update_counts (calls : list (list key)) (o : Opt) :
  num_update o = begin_num_update o -> _index_update_count o = ∅ ->
  let o' := fold_left (fun o index => _update_count index o) calls o in
  (forall i, _index_update_count o' !! i =
     if decide (i ∈ concat calls) then Some (begin_num_update o + times i (concat calls)) else None) /\
  (forall i, begin_num_update o + times i (concat calls) <= num_update o') /\
  (num_update o' = begin_num_update o \/
   exists i, i ∈ concat calls /\ num_update o' = begin_num_update o + times i (concat calls)).
Proof.
  intros Hn Hc.
  assert (counted (begin_num_update o) [] o) as Hz.
  { split; [done|]. rewrite Hc. split_and!; [intros i; rewrite (decide_False (P := i ∈ [])) by set_solver; done|intros i; change (times i []) with 0; lia|by left]. }
  assert (forall l o1, counted (begin_num_update o) l o1 ->
            counted (begin_num_update o) (l ++ concat calls) (fold_left (fun o index => _update_count index o) calls o1)) as Hf.
  { clear Hn Hc Hz. induction calls as [|c calls IH]; intros l o1 Ho; cbn; [by rewrite app_nil_r|].
    rewrite app_assoc. by apply IH, update_count_counted. }
  by destruct (Hf [] o Hz) as (_ & ? & ? & ?).
Qed.

(** What counting leaves alone. *)
Lemma update_count_keeps index (o : Opt) :
  lr_scheduler (_update_count index o) = lr_scheduler o /\ lr_mult (_update_count index o) = lr_mult o /\
  param_dict (_update_count index o) = param_dict o /\ idx2name (_update_count index o) = idx2name o /\
  lr (_update_count index o) = lr o /\ num_update o <= num_update (_update_count index o).
Proof.
  revert o. induction index as [|j index IH]; intros o; [split_and!; done || lia|].
  change (_update_count (j :: index) o) with (_update_count index (count_one j o)).
  destruct (IH (count_one j o)) as (-> & -> & -> & -> & -> & Hn). split_and!; [done..|].
  etrans; [|exact Hn]. unfold count_one. cbn. lia.
Qed.
End Counts.

(** ** Learning rates under a scheduler *)

Section Rates.
Context {F : Type} `{Float F}.
Notation Opt := (Optimizer F (FactorScheduler F)).

(** What every update begins with: counting the indices and asking for their rates. *)
Definition rate_step (indices : list key) : M Opt (list F) :=
  _ ← modify (_update_count indices); _get_lrs indices.

Fixpoint rate_steps (calls : list (list key)) (o : Opt) : Opt :=
  match calls with
  | [] => o
  | c :: calls => rate_steps calls (rate_step c o).2
  end.

(** The scheduler has made no more decays than are due. *)
Definition in_step (s1 : FactorScheduler F) (o : Opt) : Prop :=
  exists k, lr_scheduler o = Some (decayed s1 k) /\ (k <= due s1 (num_update o))%nat.

Lemma learning_rate_step s1 (o : Opt) : 1 <= f_step s1 -> in_step s1 o ->
  (learning_rate o).1 =
    (if num_update o <? warmup_steps (f_super s1)
     then (learning_rate o).1 else Ok (Nat.iter (due s1 (num_update o)) (decay s1) (base_lr (f_super s1)))) /\
  in_step s1 (learning_rate o).2 /\ num_update (learning_rate o).2 = num_update o /\
  param_dict (learning_rate o).2 = param_dict o /\ lr_mult (learning_rate o).2 = lr_mult o /\
  idx2name (learning_rate o).2 = idx2name o.
Proof.
  intros Hs (k & Hk & Hle). unfold learning_rate. rewrite Hk. cbn [sched_call factor_scheduler].
  rewrite factor_call_spec by done. destruct (num_update o <? _); cbn.
  - split; [done|]. split; [|done]. by exists k.
  - rewrite Nat.max_r by done. split; [done|]. split; [|done]. by exists (due s1 (num_update o)).
Qed.

Lemma rate_step_in_step s1 c (o : Opt) : 1 <= f_step s1 -> in_step s1 o ->
  in_step s1 (rate_step c o).2 /\ num_update (rate_step c o).2 = num_update (_update_count c o) /\
  param_dict (rate_step c o).2 = param_dict o /\ lr_mult (rate_step c o).2 = lr_mult o /\
  idx2name (rate_step c o).2 = idx2name o.
Proof.
  intros Hs (k & Hk & Hle). destruct (update_count_keeps c o) as (Es & Em & Ep & Ei & _ & Hn).
  assert (in_step s1 (_update_count c o)) as Hin.
  { exists k. split; [by rewrite Es|]. pose proof (due_mono s1 Hs _ _ Hn). lia. }
  destruct (learning_rate_step s1 (_update_count c o) Hs Hin) as (_ & H1 & H2 & H3 & H4 & H5).
  assert ((rate_step c o).2 = (learning_rate (_update_count c o)).2) as ->.
  { unfold rate_step, _get_lrs. rewrite !bind_M. cbn [modify]. rewrite bind_M.
    by destruct (learning_rate (_update_count c o)) as [[r|e] o']. }
  split; [done|]. by rewrite H2, H3, H4, H5, Em, Ep, Ei.
Qed.

(** An optimizer with a [FactorScheduler]: whatever updates were done before, in
    whatever groups, the rate that an update uses for an index is the learning rate given
    to the optimizer, decayed [(num_update - 1) / step] times, with the multiplier of the
    index, where [num_update] is the largest number of updates of any index so far. *)
Theorem scheduled_rates step factor stop base ws begin_lr mode (s0 : FactorScheduler F) float_of
    rescale names wd0 clip rate mp params calls indices (o : Opt) :
  FactorScheduler_init step factor stop base ws begin_lr mode = Ok s0 ->
  Optimizer_init float_of rescale names wd0 clip rate (Some s0) None 0 mp params = Ok o ->
  let o' := rate_steps calls o in
  let n := num_update (_update_count indices o') in
  ws <= n ->
  (rate_step indices o').1 =
    Ok (map (fun i => scale_by pm_lr ∅ o i (Nat.iter (Z.to_nat ((n - 1) / step)) (decay s0) rate)) indices).
Proof.
  intros Hi Ho o' n Hws. destruct (factor_init_inv _ _ _ _ _ _ _ _ Hi) as (Hs & Es & El & Ew & E0).
  set (s1 := sched_set_base rate s0).
  assert (1 <= f_step s1) as Hs1 by (cbn; lia).
  assert (in_step s1 o /\ param_dict o = params /\ lr_mult o = ∅ /\ idx2name o = names) as Hinit.
  { unfold Optimizer_init in Ho. cbn in Ho. injection Ho as <-. split; [|done]. exists 0%nat. split; [|lia]. cbn. f_equal.
    unfold s1. rewrite E0. done. }
  assert (in_step s1 o' /\ param_dict o' = param_dict o /\ lr_mult o' = lr_mult o /\ idx2name o' = idx2name o) as Ho'.
  { subst o' n. destruct Hinit as (Hin & _). clear -Hs1 Hin. revert o Hin.
    induction calls as [|c calls IH]; intros o Hin; [done|]. cbn.
    destruct (rate_step_in_step s1 c o Hs1 Hin) as (Hin' & _ & Hp & Hm & Hn).
    destruct (IH _ Hin') as (? & -> & -> & ->). done. }
  destruct Hinit as (_ & Hp & Hm & Hn), Ho' as ((k & Hk & Hle) & Hp' & Hm' & Hn').
  destruct (update_count_keeps indices o') as (Es' & Em' & Ep' & Ei' & _ & Hnn).
  destruct (learning_rate_step s1 (_update_count indices o') Hs1) as (Hr & _ & _ & Hp3 & Hm3 & Hn3).
  { exists k. split; [by rewrite Es'|]. pose proof (due_mono s1 Hs1 _ _ Hnn). lia. }
  unfold rate_step, _get_lrs. rewrite !bind_M. cbn [modify]. rewrite bind_M.
  rewrite (proj2 (Z.ltb_ge _ _)) in Hr by (cbn; fold n; lia).
  destruct (learning_rate (_update_count indices o')) as [[r|e] o'']; cbn in Hr, Hp3, Hm3, Hn3; [|done]. injection Hr as ->.
  change (Ok (map (fun i => scale_by pm_lr (lr_mult o'') o'' i (Nat.iter (due s1 n) (decay s0) rate)) indices) =
    Ok (map (fun i => scale_by pm_lr ∅ o i (Nat.iter (Z.to_nat ((n - 1) / step)) (decay s0) rate)) indices)).
  f_equal. apply map_ext. intros i. unfold scale_by. rewrite Hp3, Hm3, Hn3, Ep', Em', Ei', Hp', Hm', Hn', Hm.
  unfold due. cbn. by rewrite Es.
Qed.
End Rates.

(** [PolyScheduler] and [CosineScheduler] as schedulers. *)
Definition decay_scheduler {F} `{Float F} (rate : Z -> DecayScheduler F -> result F) : Scheduler F (DecayScheduler F) := {|
  sched_call := decay_call rate;
  sched_set_base lr s := mkDecay (set_base_lr lr (d_super s)) (d_power s) (d_base_lr_orig s) (d_max_update s)
                           (d_final_lr s) (d_max_steps s);
|}.

(** Both compute from the rate they were constructed with: up to [max_update], the
    learning rate that the optimizer assigns to [base_lr] has no effect. *)
Lemma decay_ignores_learning_rate {F} `{Float F} (pol : bool) (r : F) (s : DecayScheduler F) n :
  let rate := if pol then PolyScheduler_rate else CosineScheduler_rate in
  n <= d_max_update s ->
  (sched_call (Scheduler := decay_scheduler rate) n (sched_set_base (Scheduler := decay_scheduler rate) r s)).1 =
  (sched_call (Scheduler := decay_scheduler rate) n s).1.
Proof.
  intros rate Hn. cbn. unfold decay_call. cbn. rewrite (proj2 (Z.leb_le n (d_max_update s))) by done.
  destruct (n <? _); [done|]. unfold rate. by destruct pol; unfold PolyScheduler_rate, CosineScheduler_rate, py_fdiv; cbn;
    destruct (fzero _).
Qed.

(** ** Default weight decay *)

Section Decay.
Context {F S : Type} `{Float F} `{Scheduler F S} (float_of : string -> result F).
Notation Opt := (Optimizer F S).

Lemma undecayed_lookup (o : Opt) k :
  undecayed o !! k =
    match k with
    | KStr n => if decide (n ∈ map snd (map_to_list (idx2name o))) then
                  if endswith "_weight" n || endswith "_gamma" n then None else Some (fof 0)
                else None
    | KInt _ => None
    end.
Proof.
  unfold undecayed. set (names := filter _ _).
  assert (forall n, n ∈ names <-> n ∈ map snd (map_to_list (idx2name o)) /\ endswith "_weight" n || endswith "_gamma" n = false) as Hn.
  { intros n. subst names. rewrite list_elem_of_filter, negb_true_iff. tauto. }
  destruct (list_to_map (map (fun n => (KStr n, fof 0)) names) !! k) as [v|] eqn:Ev.
  - apply elem_of_list_to_map_2, list_elem_of_fmap in Ev as (n & [= -> ->] & Hin). apply Hn in Hin as [Hex He].
    by rewrite decide_True, He.
  - apply not_elem_of_list_to_map in Ev. destruct k as [|n]; [done|]. case_decide as Hex; [|done].
    destruct (endswith "_weight" n || endswith "_gamma" n) eqn:He; [done|]. destruct Ev.
    rewrite map_map. cbn. apply (list_elem_of_fmap_2 KStr). by apply Hn.
Qed.

(** The names of an optimizer without a symbol. *)
Lemma set_wd_mult_nosym args (o : Opt) : sym_info o = None ->
  set_wd_mult float_of args o = (Ok tt, put_opt_mults (lr_mult o) (args ∪ undecayed o) o).
Proof.
  intros Hs. unfold set_wd_mult, symbol_mults. rewrite bind_M. cbn [modify]. rewrite !bind_M. cbn [get].
  change (sym_info (put_opt_mults (lr_mult o) (undecayed o) o)) with (sym_info o). by rewrite Hs.
Qed.

(** The weight decay of a parameter given by its index, in an optimizer without a
    symbol, after any setting of multipliers: the parameter's own multiplier if it is a
    gluon parameter, else the one set for the index, else the one set for its name, else 1
    for names in [_weight] and [_gamma] and 0 for all others; without a name, the decay
    itself. *)
Theorem default_decay (args : gmap key F) (o : Opt) (i : Z) :
  sym_info o = None ->
  _get_wd (KInt i) (set_wd_mult float_of args o).2 =
    match param_dict o !! KInt i with
    | Some p => fmul (wd o) (pm_wd p)
    | None =>
        match args !! KInt i, idx2name o !! KInt i with
        | Some m, _ => fmul (wd o) m
        | None, Some n =>
            fmul (wd o) (match args !! KStr n with
                         | Some m => m
                         | None => if endswith "_weight" n || endswith "_gamma" n then fof 1 else fof 0
                         end)
        | None, None => wd o
        end
    end.
Proof.
  intros Hs. rewrite set_wd_mult_nosym by done. unfold _get_wd, scale_by. cbn.
  destruct (param_dict o !! KInt i); [done|]. rewrite lookup_union, undecayed_lookup.
  destruct (args !! KInt i) as [m|]; [done|]. cbn. destruct (idx2name o !! KInt i) as [n|] eqn:En; [|done].
  rewrite lookup_union, undecayed_lookup. rewrite decide_True.
  - f_equal. destruct (args !! KStr n); [by rewrite union_Some_l|]. by destruct (_ || _).
  - apply list_elem_of_fmap. exists (KInt i, n). split; [done|]. by apply elem_of_map_to_list.
Qed.
End Decay.

(** ** Tensors and states *)

Record tensor (F : Type) := mkTensor { t_ctx : Context; t_dtype : string; t_stype : string; t_data : list F }.
Arguments mkTensor {F} _ _ _ _.
Arguments t_ctx {F} _.
Arguments t_dtype {F} _.
Arguments t_stype {F} _.
Arguments t_data {F} _.

(** A state: nothing, an array, or a tuple of states. *)
Inductive ostate (F : Type) := SNone | SArr (a : tensor F) | STup (l : list (ostate F)).
Arguments SNone {F}.
Arguments SArr {F} _.
Arguments STup {F} _.

Definition with_data {F} (d : list F) (t : tensor F) : tensor F := mkTensor (t_ctx t) (t_dtype t) (t_stype t) d.

(** [sync_state_context] *)
Fixpoint sync_state_context {F} (ctx : Context) (s : ostate F) : ostate F :=
  match s with
  | SNone => SNone
  | SArr a => SArr (mkTensor ctx (t_dtype a) (t_stype a) (t_data a))
  | STup l => STup (map (sync_state_context ctx) l)
  end.

Section Mixed.
Context {F O S : Type} (base : O -> Optimizer F S) (cast : string -> F -> F).
Context (create_state : key -> tensor F -> O -> ostate F).
Context (update : key -> tensor F -> tensor F -> ostate F -> M O (tensor F * tensor F * ostate F)).

(** [a.astype(dtype)], with the conversion of single numbers as a parameter. *)
Definition astype (dtype : string) (t : tensor F) : tensor F :=
  mkTensor (t_ctx t) dtype (t_stype t) (map (cast dtype) (t_data t)).

Definition uses_master (weight : tensor F) (o : O) : bool :=
  multi_precision (base o) && str_eqb (t_dtype weight) "float16".

Definition create_state_multi_precision (index : key) (weight : tensor F) (o : O) : ostate F :=
  if uses_master weight o then
    let weight_master_copy := astype "float32" weight in
    STup [SArr weight_master_copy; create_state index weight_master_copy o]
  else create_state index weight o.

(** The new contents of weight, gradient and state. *)
Definition update_multi_precision (index : key) (weight grad : tensor F) (state : ostate F) : M O (tensor F * tensor F * ostate F) :=
  o ← get;
  if uses_master weight o then
    match state with
    | STup (SArr weight_master_copy :: original_state :: _) =>
        '(m, _, s) ← update index weight_master_copy (astype "float32" grad) original_state;
        mret (with_data (map (cast (t_dtype weight)) (t_data m)) weight, grad, STup [SArr m; s])
    | _ => raise TypeError
    end
  else update index weight grad state.

Lemma update_mp_master index w g m s o : uses_master w o = true ->
  update_multi_precision index w g (STup [SArr m; s]) o =
    match update index m (astype "float32" g) s o with
    | (Ok (m', _, s'), o') => (Ok (with_data (map (cast (t_dtype w)) (t_data m')) w, g, STup [SArr m'; s']), o')
    | (Raise e, o') => (Raise e, o')
    end.
Proof.
  intros Hu. unfold update_multi_precision. rewrite bind_M. cbn [get]. rewrite Hu, bind_M.
  by destruct (update index m (astype "float32" g) s o) as [[[[? ?] ?]|] ?].
Qed.

(** A sequence of updates of one weight. *)
Fixpoint updates (upd : tensor F -> tensor F -> ostate F -> M O (tensor F * tensor F * ostate F))
  (grads : list (tensor F)) (weight : tensor F) (state : ostate F) : M O (tensor F * ostate F) :=
  match grads with
  | [] => mret (weight, state)
  | g :: grads => '(w, _, s) ← upd weight g state; updates upd grads w s
  end.

(** C27: Mixed precision follows full precision, for every optimizer that leaves the switch
    alone: any sequence of updates of a half-precision weight with the mixed-precision
    state runs the same updates on a single-precision copy, changes the optimizer in the
    same way and raises the same exceptions, and after at least one update the weight is
    that copy rounded.  The rounded weights never enter the computation. *)
Theorem mixed_precision_refines (index : key) (w : tensor F) (o : O) (grads : list (tensor F)) :
  multi_precision (base o) = true -> t_dtype w = "float16"%string -> grads <> [] ->
  (forall i x g s o, multi_precision (base o) = true -> multi_precision (base (update i x g s o).2) = true) ->
  updates (update_multi_precision index) grads w (create_state_multi_precision index w o) o =
    match updates (update index) (map (astype "float32") grads) (astype "float32" w)
            (create_state index (astype "float32" w) o) o with
    | (Ok (m, s), o') => (Ok (with_data (map (cast "float16") (t_data m)) w, STup [SArr m; s]), o')
    | (Raise e, o') => (Raise e, o')
    end.
Proof.
  intros Hmp Hw Hne Hkeep. unfold create_state_multi_precision, uses_master. rewrite Hmp, Hw. cbn [andb].
  change (str_eqb "float16" "float16") with true. cbv iota.
  generalize (create_state index (astype "float32" w) o) as s. generalize (astype "float32" w) as m.
  assert (forall w' m s o, multi_precision (base o) = true -> (exists d, w' = with_data d w) ->
    grads <> [] \/ w' = with_data (map (cast "float16") (t_data m)) w ->
    updates (update_multi_precision index) grads w' (STup [SArr m; s]) o =
    match updates (update index) (map (astype "float32") grads) m s o with
    | (Ok (m, s), o') => (Ok (with_data (map (cast "float16") (t_data m)) w, STup [SArr m; s]), o')
    | (Raise e, o') => (Raise e, o')
    end) as Hgen.
  { clear Hne Hmp. induction grads as [|g grads IH]; intros w' m s o1 Hmp [d ->] Hor.
    - destruct Hor as [|Hor]; [done|]. by cbn; rewrite Hor.
    - cbn [updates map]. rewrite !bind_M, update_mp_master by (unfold uses_master; rewrite Hmp; cbn; by rewrite Hw).
      specialize (Hkeep index m (astype "float32" g) s o1 Hmp).
      destruct (update index m (astype "float32" g) s o1) as [[[[m' g'] s']|e] o2]; [|done]. cbn in Hkeep.
      apply IH; [done|by eexists|]. right. cbn. by rewrite Hw. }
  intros m s. apply Hgen; [done|by exists (t_data w); destruct w|by left].
Qed.
End Mixed.

(** ** [Updater] *)

(** What the updater uses of an optimizer: [aggregate_num], the two methods for mixed
    precision, the second one on lists, and the copy that a pickle restores. *)
Class OptimizerClass (F O : Type) := {
  oc_aggregate : O -> Z;
  oc_create_state : key -> tensor F -> O -> ostate F;
  oc_update : key -> tensor F -> tensor F -> ostate F -> M O (tensor F * tensor F * ostate F);
  oc_update_list : list key -> list (tensor F) -> list (tensor F) -> list (ostate F) -> M O (list (tensor F * tensor F * ostate F));
  oc_pickled : O -> O;
}.

Record Updater (F O : Type) := mkUpdater {
  u_optimizer : O;
  u_states : gmap key (ostate F);
  u_synced : gmap key bool;
  u_aggregate : bool;
}.
Arguments mkUpdater {F O} _ _ _ _.
Arguments u_optimizer {F O} _.
Arguments u_states {F O} _.
Arguments u_synced {F O} _.
Arguments u_aggregate {F O} _.

Section Updaters.
Context {F O : Type} `{OptimizerClass F O}.
Notation U := (Updater F O).

Definition Updater_init (o : O) : U := mkUpdater o ∅ ∅ (0 <? oc_aggregate o).

(** An index with its weight and gradient. *)
Notation item := (key * (tensor F * tensor F))%type.

(** The state of an index is created on its first use, or moved to the weight's device
    after it was restored. *)
Definition prepare_one (x : item) : M U unit := fun u =>
  let '(idx, (w, _)) := x in
  match u_states u !! idx with
  | None => (Ok tt, mkUpdater (u_optimizer u) (<[idx := oc_create_state idx w (u_optimizer u)]> (u_states u))
                      (<[idx := true]> (u_synced u)) (u_aggregate u))
  | Some s =>
      match u_synced u !! idx with
      | None => (Raise KeyError, u)
      | Some true => (Ok tt, u)
      | Some false => (Ok tt, mkUpdater (u_optimizer u) (<[idx := sync_state_context (t_ctx w) s]> (u_states u))
                                (<[idx := true]> (u_synced u)) (u_aggregate u))
      end
  end.

Definition put_states (o : O) (l : list (key * ostate F)) (u : U) : U :=
  mkUpdater o (fold_left (fun m x => <[x.1 := x.2]> m) l (u_states u)) (u_synced u) (u_aggregate u).

Definition state_of (idx : key) (u : U) : result (ostate F) := py_getitem (u_states u) idx.

(** One weight. *)
Definition step_one (x : item) : M U (tensor F * tensor F) := fun u =>
  let '(idx, (w, g)) := x in
  match state_of idx u with
  | Raise e => (Raise e, u)
  | Ok s => match oc_update idx w g s (u_optimizer u) with
            | (Ok (w, g, s), o) => (Ok (w, g), put_states o [(idx, s)] u)
            | (Raise e, o) => (Raise e, put_states o [] u)
            end
  end.

Fixpoint mapMM {St A B} (f : A -> M St B) (l : list A) : M St (list B) :=
  match l with
  | [] => mret []
  | a :: l => b ← f a; bs ← mapMM f l; mret (b :: bs)
  end.

(** Several weights at once. *)
Definition step_chunk (xs : list item) : M U (list (tensor F * tensor F)) := fun u =>
  match mapR (fun x => state_of x.1 u) xs with
  | Raise e => (Raise e, u)
  | Ok ss =>
      match oc_update_list (map fst xs) (map (fun x => x.2.1) xs) (map (fun x => x.2.2) xs) ss (u_optimizer u) with
      | (Ok rs, o) => (Ok (map fst rs), put_states o (zip (map fst xs) (map snd rs)) u)
      | (Raise e, o) => (Raise e, put_states o [] u)
      end
  end.

(** The [while] loop over one group; [None] when [fuel] rounds are not enough. *)
Fixpoint agg_loop (fuel : nat) (xs : list item) (u : U) : option (result (list (tensor F * tensor F)) * U) :=
  match xs, fuel with
  | [], _ => Some (Ok [], u)
  | _, 0%nat => None
  | _, S fuel =>
      let n := Z.to_nat (oc_aggregate (u_optimizer u)) in
      match step_chunk (take n xs) u with
      | (Raise e, u) => Some (Raise e, u)
      | (Ok rs, u) =>
          match agg_loop fuel (drop n xs) u with
          | Some (Ok rs', u) => Some (Ok (rs ++ rs'), u)
          | r => r
          end
      end
  end.

(** [type_map]: positions and items by the type of the weight, in order of appearance. *)
Definition type_map (xs : list item) : list (string * list (nat * item)) :=
  fold_left (fun m x => let dt := t_dtype x.2.2.1 in
                        od_set dt (default [] (od_get dt m) ++ [x]) m) (imap pair xs) [].

(** All groups; the results with the positions of their items. *)
Fixpoint agg_groups (gs : list (list (nat * item))) (u : U) : option (result (list (nat * (tensor F * tensor F))) * U) :=
  match gs with
  | [] => Some (Ok [], u)
  | g :: gs =>
      match agg_loop (length g) (map snd g) u with
      | Some (Ok rs, u) =>
          match agg_groups gs u with
          | Some (Ok rs', u) => Some (Ok (zip (map fst g) rs ++ rs'), u)
          | r => r
          end
      | Some (Raise e, u) => Some (Raise e, u)
      | None => None
      end
  end.

(** [__call__] on lists: the new weights and gradients, in the order given. *)
Definition Updater_call (xs : list item) (u : U) : option (result (list (tensor F * tensor F)) * U) :=
  match forM prepare_one xs u with
  | (Raise e, u) => Some (Raise e, u)
  | (Ok _, u) =>
      if u_aggregate u then
        match agg_groups (map snd (type_map xs)) u with
        | Some (Ok rs, u) => Some (Ok (omap (fun p => od_get p rs) (seq 0 (length xs))), u)
        | Some (Raise e, u) => Some (Raise e, u)
        | None => None
        end
      else Some (mapMM step_one xs u)
  end.

(** [get_states] and [set_states]: what the pickle holds. *)
Definition get_states (dump_optimizer : bool) (u : U) : gmap key (ostate F) * option O :=
  (u_states u, if dump_optimizer then Some (oc_pickled (u_optimizer u)) else None).
Definition set_states (p : gmap key (ostate F) * option O) (u : U) : U :=
  mkUpdater (default (u_optimizer u) p.2) p.1 ((fun _ => false) <$> p.1) (u_aggregate u).
End Updaters.

(** ** Updating in groups *)

(** An optimizer whose updates of different weights do not influence each other: an update
    is a function of the optimizer's settings, of the index and of the arrays, the counts
    apart; the update of a list of weights of one type does the same to each of them. *)
Class Pointwise (F O : Type) `{OptimizerClass F O} := {
  pw_fun : O -> key -> tensor F -> tensor F -> ostate F -> tensor F * tensor F * ostate F;
  pw_valid : O -> tensor F -> tensor F -> ostate F -> Prop;
  pw_count : list key -> O -> O;
  pw_update o i w g s : pw_valid o w g s -> oc_update i w g s o = (Ok (pw_fun o i w g s), pw_count [i] o);
  pw_list o dt (xs : list (key * (tensor F * tensor F) * ostate F)) :
    Forall (fun x => t_dtype x.1.2.1 = dt /\ pw_valid o x.1.2.1 x.1.2.2 x.2) xs -> xs <> [] ->
    oc_update_list (map (fun x => x.1.1) xs) (map (fun x => x.1.2.1) xs) (map (fun x => x.1.2.2) xs) (map snd xs) o =
      (Ok (map (fun x => pw_fun o x.1.1 x.1.2.1 x.1.2.2 x.2) xs), pw_count (map (fun x => x.1.1) xs) o);
  pw_count_fun l o i w g s : pw_fun (pw_count l o) i w g s = pw_fun o i w g s;
  pw_count_valid l o w g s : pw_valid (pw_count l o) w g s <-> pw_valid o w g s;
  pw_count_aggregate l o : oc_aggregate (pw_count l o) = oc_aggregate o;
  pw_count_create l o i w : oc_create_state i w (pw_count l o) = oc_create_state i w o;
}.

Section Groups.
Context {F O : Type} `{Pointwise F O}.
Notation U := (Updater F O).
Notation item := (key * (tensor F * tensor F))%type.

Definition ready (u : U) (x : item) : Prop :=
  exists s, u_states u !! x.1 = Some s /\ pw_valid (u_optimizer u) x.2.1 x.2.2 s.

(** What the update of an item gives. *)
Definition outcome (u : U) (x : item) : tensor F * tensor F * ostate F :=
  pw_fun (u_optimizer u) x.1 x.2.1 x.2.2 (default SNone (u_states u !! x.1)).

Definition new_states (u : U) (ys : list item) : gmap key (ostate F) :=
  fold_left (fun m y => <[y.1 := (outcome u y).2]> m) ys (u_states u).

(** Optimizers that differ in their counts only. *)
Definition like (o o' : O) : Prop :=
  (forall i w g s, pw_fun o i w g s = pw_fun o' i w g s) /\ (forall w g s, pw_valid o w g s <-> pw_valid o' w g s) /\
  oc_aggregate o = oc_aggregate o' /\ (forall i w, oc_create_state i w o = oc_create_state i w o').

Lemma like_refl o : like o o.
Proof. by split_and!. Qed.

Lemma like_trans o1 o2 o3 : like o1 o2 -> like o2 o3 -> like o1 o3.
Proof.
  intros (Hf & Hv & Ha & Hc) (Hf' & Hv' & Ha' & Hc').
  split_and!; intros; [by rewrite Hf|by rewrite Hv|by rewrite Ha|by rewrite Hc].
Qed.

Lemma like_count l o : like (pw_count l o) o.
Proof. split_and!; intros; [apply pw_count_fun|apply pw_count_valid|apply pw_count_aggregate|apply pw_count_create]. Qed.

(** [v] is [u] after the update of the items [ys], with the given results. *)
Definition ran (ys : list item) (u v : U) (rs : list (tensor F * tensor F)) : Prop :=
  rs = map (fun y => (outcome u y).1) ys /\ u_states v = new_states u ys /\ u_synced v = u_synced u /\
  u_aggregate v = u_aggregate u /\ like (u_optimizer v) (u_optimizer u).

Lemma inserts_notin {A} (f : A -> key) (g : A -> ostate F) (ys : list A) : forall (m : gmap key (ostate F)) k,
  k ∉ map f ys -> fold_left (fun m y => <[f y := g y]> m) ys m !! k = m !! k.
Proof.
  induction ys as [|y ys IH]; intros m k Hk; [done|]. cbn. rewrite IH by set_solver.
  rewrite lookup_insert_ne; [done|]. intros <-. apply Hk. left.
Qed.

Lemma ran_nil u : ran [] u u [].
Proof. by split_and!. Qed.

Lemma ran_app ys zs u v w rs rs' :
  NoDup (map fst (ys ++ zs)) -> ran ys u v rs -> ran zs v w rs' -> ran (ys ++ zs) u w (rs ++ rs').
Proof.
  intros Hnd (-> & Hs & Hy & Hg & Hl) (-> & Hs' & Hy' & Hg' & Hl'). pose proof Hl as (Hf & _).
  assert (forall z, z ∈ zs -> outcome v z = outcome u z) as Ho.
  { intros z Hz. unfold outcome. rewrite Hf, Hs. f_equal. f_equal. apply (inserts_notin fst).
    rewrite map_app in Hnd. apply NoDup_app in Hnd as (_ & Hd & _). intros Hin. apply (Hd _ Hin).
    apply list_elem_of_fmap. by exists z. }
  split_and!.
  - rewrite map_app. f_equal. apply map_ext_in. intros z Hz%list_elem_of_In. by rewrite Ho.
  - rewrite Hs'. unfold new_states. rewrite Hs. rewrite fold_left_app. fold (new_states u ys).
    generalize (new_states u ys). clear -Ho. induction zs as [|z zs IH]; intros m; [done|]. cbn.
    rewrite Ho by left. apply IH. intros y Hy. apply Ho. by right.
  - by rewrite Hy'.
  - by rewrite Hg'.
  - by eapply like_trans.
Qed.

Lemma ran_ready ys u v rs x : ran ys u v rs -> x.1 ∉ map fst ys -> ready u x -> ready v x.
Proof.
  intros (_ & Hs & _ & _ & (_ & Hv & _)) Hx (s & Hl & Hok). exists s. rewrite Hs, Hv. split; [|done].
  etrans; [|exact Hl]. by apply (inserts_notin fst).
Qed.

Lemma step_one_ran x u : ready u x -> exists v r, step_one x u = (Ok r, v) /\ ran [x] u v [r].
Proof.
  destruct x as [i [w g]]. intros (s & Hl & Hok). cbn in *. unfold state_of, py_getitem. rewrite Hl.
  rewrite pw_update by done. destruct (pw_fun (u_optimizer u) i w g s) as [[w' g'] s'] eqn:Ef.
  do 2 eexists. split; [done|].
  assert (outcome u (i, (w, g)) = (w', g', s')) as Eo by (unfold outcome; cbn; by rewrite Hl).
  split_and!; cbn; [by rewrite Eo|unfold new_states; cbn; by rewrite Eo|done|done|apply like_count].
Qed.

Lemma mapMM_ran xs : forall u, NoDup (map fst xs) -> Forall (ready u) xs ->
  exists v rs, mapMM step_one xs u = (Ok rs, v) /\ ran xs u v rs.
Proof.
  induction xs as [|x xs IH]; intros u Hnd Hr; [exists u, []; split; [done|apply ran_nil]|].
  apply Forall_cons in Hr as [Hx Hr]. pose proof Hnd as Hnd'. apply NoDup_cons in Hnd' as [Hnx Hnd'].
  destruct (step_one_ran x u Hx) as (v & r & E & Hran). destruct (IH v Hnd') as (w & rs & E' & Hran').
  { rewrite Forall_forall in Hr |- *. intros y Hy. eapply ran_ready; [done| |by apply Hr].
    intros Hin%list_elem_of_singleton. apply Hnx. rewrite <- Hin. apply list_elem_of_fmap. by exists y. }
  exists w, (r :: rs). cbn. rewrite bind_M, E, bind_M, E'. split; [done|].
  by apply (ran_app [x] xs u v w [r] rs).
Qed.

Lemma step_chunk_ran dt xs u : xs <> [] -> NoDup (map fst xs) ->
  Forall (fun x => ready u x /\ t_dtype x.2.1 = dt) xs ->
  exists v rs, step_chunk xs u = (Ok rs, v) /\ ran xs u v rs.
Proof.
  intros Hne Hnd Hr. unfold step_chunk.
  set (zs := map (fun x => (x, default SNone (u_states u !! x.1))) xs).
  assert (mapR (fun x => state_of x.1 u) xs = Ok (map snd zs)) as ->.
  { unfold zs. rewrite map_map. cbn. apply mapR_ok. intros x Hx. rewrite Forall_forall in Hr.
    destruct (Hr x Hx) as ((s & Hl & _) & _). unfold state_of, py_getitem. by rewrite Hl. }
  assert (map fst xs = map (fun z => z.1.1) zs /\ map (fun x => x.2.1) xs = map (fun z => z.1.2.1) zs /\
    map (fun x => x.2.2) xs = map (fun z => z.1.2.2) zs) as (-> & -> & ->) by (unfold zs; by rewrite !map_map).
  rewrite (pw_list _ dt); [|..].
  2: { unfold zs. apply Forall_map. eapply Forall_impl; [exact Hr|]. intros x ((s & Hl & Hok) & Hd). cbn. by rewrite Hl. }
  2: { unfold zs. by destruct xs. }
  do 2 eexists. split; [done|]. split_and!.
  - unfold zs. by rewrite !map_map.
  - cbn. unfold zs. rewrite !map_map. cbn. unfold new_states. generalize (u_states u) at 2 3. clear.
    induction xs as [|x xs IH]; intros m; [done|]. cbn. apply IH.
  - done.
  - done.
  - apply like_count.
Qed.

Lemma agg_loop_ran dt fuel : forall xs u, (length xs <= fuel)%nat -> 0 < oc_aggregate (u_optimizer u) ->
  NoDup (map fst xs) -> Forall (fun x => ready u x /\ t_dtype x.2.1 = dt) xs ->
  exists v rs, agg_loop fuel xs u = Some (Ok rs, v) /\ ran xs u v rs.
Proof.
  induction fuel as [|fuel IH]; intros xs u Hlen Hpos Hnd Hr.
  { destruct xs; [|cbn in Hlen; lia]. exists u, []. split; [done|apply ran_nil]. }
  destruct xs as [|x xs]; [exists u, []; split; [done|apply ran_nil]|].
  cbn [agg_loop]. set (n := Z.to_nat (oc_aggregate (u_optimizer u))). assert (1 <= n)%nat as Hn by lia.
  set (ys := x :: xs) in *. pose proof Hnd as Hnd'. rewrite <- (take_drop n ys) in Hnd', Hr.
  apply Forall_app in Hr as [Hr1 Hr2]. rewrite map_app in Hnd'. pose proof Hnd' as (Hnd1 & Hdis & Hnd2)%NoDup_app.
  destruct (step_chunk_ran dt (take n ys) u) as (v & rs & E & Hran); [subst ys; by destruct n; [lia|]|done..|].
  rewrite E. destruct (IH (drop n ys) v) as (w & rs' & E' & Hran'); [|..].
  - rewrite length_drop. subst ys. cbn in *. lia.
  - by destruct Hran as (_ & _ & _ & _ & (_ & _ & -> & _)).
  - done.
  - rewrite Forall_forall in Hr2 |- *. intros y Hy. destruct (Hr2 y Hy) as [Hry Hdt]. split; [|done].
    eapply ran_ready; [done| |done]. intros Hin. apply (Hdis _ Hin). apply list_elem_of_fmap. by exists y.
  - rewrite E'. do 2 eexists. split; [done|]. rewrite <- (take_drop n ys). eapply ran_app; [|done..].
    by rewrite take_drop.
Qed.

(** The groups of [type_map] hold the items with their positions, each group of one type. *)
Definition grouped_by_type (m : list (string * list (nat * item))) (zs : list (nat * item)) : Prop :=
  concat (map snd m) ≡ₚ zs /\ NoDup (map fst m) /\ Forall (fun g => Forall (fun x => t_dtype x.2.2.1 = g.1) g.2) m.

Lemma od_append_perm (m : list (string * list (nat * item))) k x : NoDup (map fst m) ->
  concat (map snd (od_set k (default [] (od_get k m) ++ [x]) m)) ≡ₚ concat (map snd m) ++ [x].
Proof.
  induction m as [|[k' l] m IH]; intros Hnd; [done|]. cbn. apply NoDup_cons in Hnd as [Hk Hnd].
  destruct (decide (k' = k)) as [->|Hne]; cbn.
  - rewrite <- !app_assoc. by rewrite (Permutation_app_comm [x]).
  - by rewrite IH, app_assoc.
Qed.

Lemma type_map_grouped xs : grouped_by_type (type_map xs) (imap pair xs).
Proof.
  unfold type_map. generalize (imap (@pair nat item) xs) as zs.
  assert (forall zs m done, grouped_by_type m done ->
    grouped_by_type (fold_left (fun m x => od_set (t_dtype x.2.2.1) (default [] (od_get (t_dtype x.2.2.1) m) ++ [x]) m) zs m)
      (done ++ zs)) as Hgen.
  { induction zs as [|x zs IH]; intros m done Hm; cbn; [by rewrite app_nil_r|].
    replace (done ++ x :: zs) with ((done ++ [x]) ++ zs) by (by rewrite <- app_assoc). apply IH.
    destruct Hm as (Hp & Hnd & Hf). split_and!.
    - rewrite od_append_perm by done. by rewrite Hp.
    - by apply od_set_NoDup.
    - rewrite Forall_forall in Hf |- *. intros g [->|Hg]%od_set_elem; [|by apply Hf]. cbn. apply Forall_app. split; [|by repeat constructor].
      destruct (od_get (t_dtype x.2.2.1) m) as [l|] eqn:El; [|constructor]. apply od_get_elem in El. exact (Hf _ El). }
  intros zs. apply (Hgen zs [] []). split_and!; [done|constructor|constructor].
Qed.

(** The results with their positions. *)
Definition placed (u : U) (zs : list (nat * item)) : list (nat * (tensor F * tensor F)) :=
  map (fun z => (z.1, (outcome u z.2).1)) zs.

Lemma agg_groups_ran gs : forall u, 0 < oc_aggregate (u_optimizer u) ->
  NoDup (map fst (map snd (concat gs))) -> Forall (ready u) (map snd (concat gs)) ->
  Forall (fun g => exists dt, Forall (fun z => t_dtype z.2.2.1 = dt) g) gs ->
  exists v, agg_groups gs u = Some (Ok (placed u (concat gs)), v) /\
    ran (map snd (concat gs)) u v (map snd (placed u (concat gs))).
Proof.
  induction gs as [|g gs IH]; intros u Hpos Hnd Hr Hdt; [exists u; split; [done|apply ran_nil]|].
  cbn [concat] in *. rewrite map_app in Hr. pose proof Hnd as Hnd'. rewrite !map_app in Hnd'.
  apply NoDup_app in Hnd' as (Hnd1 & Hdis & Hnd2). apply Forall_app in Hr as [Hr1 Hr2].
  apply Forall_cons in Hdt as [[dt Hdt] Hdts]. cbn [agg_groups].
  destruct (agg_loop_ran dt (length g) (map snd g) u) as (v & rs & E & Hran); [by rewrite length_map|done|done| |].
  { rewrite Forall_forall in Hr1 |- *. intros x Hx. split; [by apply Hr1|]. apply list_elem_of_fmap in Hx as (z & -> & Hz).
    rewrite Forall_forall in Hdt. by apply Hdt. }
  rewrite E. destruct (IH v) as (w & E' & Hran'); [by destruct Hran as (_ & _ & _ & _ & (_ & _ & -> & _))|done| |done|].
  { rewrite Forall_forall in Hr2 |- *. intros x Hx. eapply ran_ready; [done| |by apply Hr2]. intros Hin. apply (Hdis _ Hin).
    apply list_elem_of_fmap. by exists x. }
  rewrite E'. exists w.
  assert (ran (map snd g ++ map snd (concat gs)) u w (rs ++ map snd (placed v (concat gs)))) as Hall.
  { eapply ran_app; [by rewrite <- map_app|done..]. }
  assert (placed u (g ++ concat gs) = zip (map fst g) rs ++ placed v (concat gs)) as ->.
  { destruct Hall as (Hrs & _), Hran as (-> & _). rewrite map_app in Hrs. apply app_inv_head in Hrs.
    unfold placed in *. rewrite map_app. f_equal.
    - rewrite map_map. clear. induction g as [|z g IH]; [done|]. cbn. by f_equal.
    - clear -Hrs. rewrite !map_map in Hrs. cbn in Hrs. revert Hrs. induction (concat gs) as [|z l IH]; [done|]. cbn.
      intros [= -> Hl]. f_equal. by apply IH. }
  split; [done|]. rewrite map_app. replace (map snd (zip (map fst g) rs ++ placed v (concat gs))) with (rs ++ map snd (placed v (concat gs))); [done|].
  rewrite map_app. f_equal. destruct Hran as (-> & _). clear. induction g as [|z g IH]; [done|]. cbn. by f_equal.
Qed.

Lemma new_states_lookup u ys y : NoDup (map fst ys) -> y ∈ ys -> new_states u ys !! y.1 = Some (outcome u y).2.
Proof.
  unfold new_states. generalize (u_states u). induction ys as [|z ys IH]; intros m Hnd Hy; [by apply not_elem_of_nil in Hy|].
  apply NoDup_cons in Hnd as [Hz Hnd]. cbn. apply elem_of_cons in Hy as [->|Hy]; [|by apply IH].
  rewrite (inserts_notin fst) by done. apply lookup_insert_eq.
Qed.

Lemma new_states_perm u ys zs : ys ≡ₚ zs -> NoDup (map fst ys) -> new_states u ys = new_states u zs.
Proof.
  intros Hp Hnd. assert (NoDup (map fst zs)) as Hnd' by (by rewrite <- Hp). apply map_eq. intros k.
  destruct (decide (k ∈ map fst ys)) as [(y & -> & Hy)%list_elem_of_fmap|Hk].
  - rewrite !new_states_lookup by (done || by rewrite <- Hp). done.
  - unfold new_states. rewrite !(inserts_notin fst) by (by rewrite <- ?Hp). done.
Qed.

Definition with_aggregate (b : bool) (u : U) : U := mkUpdater (u_optimizer u) (u_states u) (u_synced u) b.

Lemma prepare_aggregate b xs : forall u,
  forM prepare_one xs (with_aggregate b u) = ((forM prepare_one xs u).1, with_aggregate b (forM prepare_one xs u).2) /\
  u_optimizer (forM prepare_one xs u).2 = u_optimizer u.
Proof.
  induction xs as [|[i [w g]] xs IH]; intros u; [done|]. cbn [forM]. rewrite !bind_M. unfold prepare_one at 1 3 5 7. cbn.
  destruct (u_states u !! i) as [s|]; [|apply (IH (mkUpdater _ _ _ _))].
  destruct (u_synced u !! i) as [[]|]; [apply IH|apply (IH (mkUpdater _ _ _ _))|done].
Qed.

(** Looking the results up by position gives them in the order of the items. *)
Lemma placed_in_order u xs zs : zs ≡ₚ imap pair xs ->
  omap (fun p => od_get p (placed u zs)) (seq 0 (length xs)) = map (fun x => (outcome u x).1) xs.
Proof.
  intros Hp. assert (map fst (imap (@pair nat item) xs) = seq 0 (length xs)) as Hseq.
  { apply list_eq. intros i. rewrite list_lookup_fmap, list_lookup_imap.
    destruct (xs !! i) eqn:Ei; cbn; [rewrite lookup_seq_lt; [done|by eapply lookup_lt_Some]|].
    symmetry. apply lookup_seq_ge. by apply lookup_ge_None. }
  assert (NoDup (map fst (placed u zs))) as Hnd.
  { unfold placed. rewrite map_map. cbn. rewrite Hp. rewrite <- (map_ext fst); [rewrite Hseq; apply NoDup_seq|done]. }
  assert (forall p x, xs !! p = Some x -> od_get p (placed u zs) = Some (outcome u x).1) as Hget.
  { intros p x Hx. apply od_elem_get; [done|]. apply (list_elem_of_fmap_2 (fun z : nat * item => (z.1, (outcome u z.2).1)) zs (p, x)).
    rewrite Hp. apply elem_of_lookup_imap. eauto. }
  clear -Hget. enough (forall n, (n <= length xs)%nat ->
    omap (fun p => od_get p (placed u zs)) (seq (length xs - n) n) = map (fun x => (outcome u x).1) (drop (length xs - n) xs)) as Hn.
  { specialize (Hn (length xs) ltac:(lia)). by rewrite Nat.sub_diag in Hn. }
  induction n as [|n IH]; intros Hn; [rewrite drop_ge; [done|lia]|].
  destruct (lookup_lt_is_Some_2 xs (length xs - S n)) as [x Hx]; [lia|].
  cbn [seq omap list_omap]. rewrite (Hget _ _ Hx). rewrite (drop_S _ _ _ Hx). cbn. f_equal.
  replace (S (length xs - S n)) with (length xs - n)%nat by lia. apply IH. lia.
Qed.

(** A call on items whose states are ready, in groups or one by one. *)
Lemma call_ran (xs : list item) (u u0 : U) :
  NoDup (map fst xs) -> (u_aggregate u0 = true -> 0 < oc_aggregate (u_optimizer u0)) ->
  forM prepare_one xs u = (Ok tt, u0) -> Forall (ready u0) xs ->
  exists v, Updater_call xs u = Some (Ok (map (fun x => (outcome u0 x).1) xs), v) /\
    ran xs u0 v (map (fun x => (outcome u0 x).1) xs).
Proof.
  intros Hnd Hpos Hprep Hr. unfold Updater_call. rewrite Hprep. destruct (u_aggregate u0).
  - destruct (type_map_grouped xs) as (Hp & _ & Hdt).
    assert (map snd (imap (@pair nat item) xs) = xs) as Hsnd.
    { apply list_eq. intros i. rewrite list_lookup_fmap, list_lookup_imap. by destruct (xs !! i). }
    assert (map snd (concat (map snd (type_map xs))) ≡ₚ xs) as Hp' by (by rewrite Hp, Hsnd).
    destruct (agg_groups_ran (map snd (type_map xs)) u0) as (v & E & (_ & Hs & Hran)); [by apply Hpos|by rewrite Hp'|by rewrite Hp'| |].
    { apply Forall_map. eapply Forall_impl; [exact Hdt|]. intros g Hg. by exists g.1. }
    exists v. rewrite E, placed_in_order by done. split; [done|]. split; [done|]. split; [|done].
    rewrite Hs. apply new_states_perm; [done|by rewrite Hp'].
  - destruct (mapMM_ran xs u0 Hnd Hr) as (v & rs & E & Hran). exists v. rewrite E. pose proof Hran as (-> & _). done.
Qed.

(** C13: Whether the updater passes the weights to the optimizer in groups, by type and at
    most [aggregate_num] at a time, or one by one makes no difference to the new weights,
    gradients and states, for any optimizer whose updates of different weights do not
    influence each other; the loop over the groups ends. *)
Theorem grouping_is_invisible (xs : list item) (u u0 : U) :
  NoDup (map fst xs) -> 0 < oc_aggregate (u_optimizer u) ->
  forM prepare_one xs u = (Ok tt, u0) -> Forall (ready u0) xs ->
  exists rs v v',
    Updater_call xs (with_aggregate true u) = Some (Ok rs, v) /\
    Updater_call xs (with_aggregate false u) = Some (Ok rs, v') /\
    u_states v = u_states v'.
Proof.
  intros Hnd Hpos Hprep Hr.
  assert (forall b, exists v, Updater_call xs (with_aggregate b u) = Some (Ok (map (fun x => (outcome u0 x).1) xs), v) /\
    u_states v = new_states u0 xs) as Hcall.
  { intros b. destruct (prepare_aggregate b xs u) as [Eb Eo]. rewrite Hprep in *. cbn in *.
    destruct (call_ran xs (with_aggregate b u) (with_aggregate b u0)) as (v & E & (_ & Hs & _)); [done|by rewrite <- Eo in Hpos|done|done|].
    by exists v. }
  destruct (Hcall true) as (v & E & Hs), (Hcall false) as (v' & E' & Hs'). do 3 eexists. split; [exact E|]. split; [exact E'|].
  by rewrite Hs, Hs'.
Qed.
End Groups.

(** ** Saving and restoring *)

Section Restore.
Context {F O : Type} `{OptimizerClass F O}.
Notation U := (Updater F O).
Notation item := (key * (tensor F * tensor F))%type.

Definition with_synced (m : gmap key bool) (u : U) : U := mkUpdater (u_optimizer u) (u_states u) m (u_aggregate u).

(** After the preparation, nothing looks at [states_synced]. *)
Lemma step_one_synced m x u :
  step_one x (with_synced m u) = ((step_one x u).1, with_synced m (step_one x u).2).
Proof.
  destruct x as [i [w g]]. unfold step_one, state_of. cbn. destruct (py_getitem (u_states u) i) as [s|]; [|done].
  by destruct (oc_update i w g s (u_optimizer u)) as [[[[? ?] ?]|] ?].
Qed.

Lemma mapMM_synced m xs : forall u,
  mapMM step_one xs (with_synced m u) = ((mapMM step_one xs u).1, with_synced m (mapMM step_one xs u).2).
Proof.
  induction xs as [|x xs IH]; intros u; [done|]. cbn [mapMM]. rewrite !bind_M, step_one_synced.
  destruct (step_one x u) as [[r|e] u1]; [|done]. cbn [fst snd]. rewrite !bind_M, IH. by destruct (mapMM step_one xs u1) as [[]].
Qed.

Lemma step_chunk_synced m xs u :
  step_chunk xs (with_synced m u) = ((step_chunk xs u).1, with_synced m (step_chunk xs u).2).
Proof.
  unfold step_chunk, state_of. cbn. destruct (mapR _ xs) as [ss|]; [|done].
  by destruct (oc_update_list _ _ _ ss (u_optimizer u)) as [[]].
Qed.

(** The same result with another [states_synced]. *)
Definition resync {A} (m : gmap key bool) (r : option (result A * U)) : option (result A * U) :=
  match r with Some (x, u) => Some (x, with_synced m u) | None => None end.

Lemma agg_loop_synced m fuel : forall xs u, agg_loop fuel xs (with_synced m u) = resync m (agg_loop fuel xs u).
Proof.
  induction fuel as [|fuel IH]; intros [|x xs] u; [done..|]. cbn [agg_loop]. rewrite step_chunk_synced.
  change (u_optimizer (with_synced m u)) with (u_optimizer u).
  destruct (step_chunk _ u) as [[rs|e] u1]; [|done]. cbn [fst snd]. rewrite IH.
  by destruct (agg_loop fuel _ u1) as [[[] ?]|].
Qed.

Lemma agg_groups_synced m gs : forall u, agg_groups gs (with_synced m u) = resync m (agg_groups gs u).
Proof.
  induction gs as [|g gs IH]; intros u; [done|]. cbn [agg_groups]. rewrite agg_loop_synced.
  destruct (agg_loop _ _ u) as [[[rs|e] u1]|]; [|done..]. cbn [resync]. rewrite IH. by destruct (agg_groups gs u1) as [[[] ?]|].
Qed.

(** A restored updater next to the original: the states are those of the original, to be
    moved to the devices where they already are. *)
Definition restored (xs : list item) (u v : U) : Prop :=
  u_optimizer v = u_optimizer u /\ u_states v = u_states u /\ u_aggregate v = u_aggregate u /\
  (forall i s, u_states u !! i = Some s -> u_synced u !! i = Some true) /\
  (forall i s, u_states u !! i = Some s -> exists b, u_synced v !! i = Some b) /\
  (forall i w g s, (i, (w, g)) ∈ xs -> u_states u !! i = Some s -> u_synced v !! i = Some false ->
     sync_state_context (t_ctx w) s = s).

Lemma prepare_restored xs : forall ys u v, (forall x, x ∈ ys -> x ∈ xs) -> restored xs u v ->
  exists u' v', forM prepare_one ys u = (Ok tt, u') /\ forM prepare_one ys v = (Ok tt, v') /\ restored xs u' v'.
Proof.
  induction ys as [|[i [w g]] ys IH]; intros u v Hsub Hres; [by exists u, v|].
  pose proof Hres as (Ho & Hs & Ha & Hu & Hv & Hsync). cbn [forM]. rewrite !bind_M. unfold prepare_one at 1 3. rewrite Hs.
  assert (forall x, x ∈ ys -> x ∈ xs) as Hsub' by (intros; apply Hsub; by right).
  destruct (u_states u !! i) as [s|] eqn:Es.
  - rewrite (Hu i s Es). destruct (Hv i s Es) as [[] Hb]; rewrite Hb; [by apply IH|].
    rewrite (Hsync i w g s) by (done || apply Hsub; left). rewrite insert_id by done. apply IH; [done|].
    split_and!; [done..| |]; cbn.
    + intros j sj Hj. destruct (decide (j = i)) as [->|]; [rewrite lookup_insert_eq; by eexists|].
      rewrite lookup_insert_ne by done. by eapply Hv.
    + intros j w' g' s' Hin Hj. destruct (decide (j = i)) as [->|]; [by rewrite lookup_insert_eq|].
      rewrite lookup_insert_ne by done. by eapply Hsync.
  - rewrite Ho, Ha. apply IH; [done|]. split_and!; [done..| | |]; cbn.
    + intros j sj. destruct (decide (j = i)) as [->|]; [by rewrite !lookup_insert_eq|]. rewrite !lookup_insert_ne by done. apply Hu.
    + intros j sj. destruct (decide (j = i)) as [->|]; [rewrite !lookup_insert_eq; by eexists|].
      rewrite !lookup_insert_ne by done. apply Hv.
    + intros j w' g' s' Hin. destruct (decide (j = i)) as [->|]; [by rewrite !lookup_insert_eq|].
      rewrite !lookup_insert_ne by done. by apply (Hsync j w' g').
Qed.

(** What an update leaves alone: the states of other indices and the marks. *)
Definition only_states (l : list key) (u u' : U) : Prop :=
  u_synced u' = u_synced u /\ u_aggregate u' = u_aggregate u /\ forall i, i ∉ l -> u_states u' !! i = u_states u !! i.

Lemma only_refl l u : only_states l u u.
Proof. done. Qed.
Lemma only_trans l u1 u2 u3 : only_states l u1 u2 -> only_states l u2 u3 -> only_states l u1 u3.
Proof. intros (A1 & A2 & A3) (B1 & B2 & B3). split_and!; [congruence..|]. intros i Hi. by rewrite B3, A3. Qed.
Lemma only_mono l l' u u' : (forall i, i ∈ l -> i ∈ l') -> only_states l u u' -> only_states l' u u'.
Proof. intros Hs (A1 & A2 & A3). split_and!; [done..|]. intros i Hi. apply A3. naive_solver. Qed.

Lemma put_states_only o (zs : list (key * ostate F)) l u : (forall x, x ∈ zs -> x.1 ∈ l) -> only_states l u (put_states o zs u).
Proof.
  intros Hz. split_and!; [done..|]. intros i Hi. cbn. revert Hz. generalize (u_states u). induction zs as [|[k v] zs IH]; intros m Hz; [done|].
  cbn. rewrite IH by (intros x Hx; apply Hz; by right). apply lookup_insert_ne. intros <-. apply Hi. apply (Hz (k, v)). left.
Qed.

Lemma step_one_only x u : only_states [x.1] u (step_one x u).2.
Proof.
  destruct x as [i [w g]]. unfold step_one. destruct (state_of i u) as [st|]; [|apply only_refl].
  destruct (oc_update i w g st (u_optimizer u)) as [[[[? ?] ?]|] ?]; apply put_states_only; cbn; [|by intros ? ?%elem_of_nil].
  intros x ->%list_elem_of_singleton. left.
Qed.
Lemma mapMM_only xs : forall u, only_states (map fst xs) u (mapMM step_one xs u).2.
Proof.
  induction xs as [|x xs IH]; intros u; [apply only_refl|]. cbn [mapMM map]. rewrite bind_M.
  pose proof (step_one_only x u) as Hx. destruct (step_one x u) as [[r|e] u1]; cbn [snd] in Hx |- *.
  - rewrite bind_M. specialize (IH u1). destruct (mapMM step_one xs u1) as [[rs|e] u2]; cbn [snd] in IH |- *;
      (eapply only_trans; eapply only_mono; [..|exact Hx| |exact IH]); set_solver.
  - eapply only_mono; [|exact Hx]. set_solver.
Qed.
Lemma step_chunk_only xs u : only_states (map fst xs) u (step_chunk xs u).2.
Proof.
  unfold step_chunk. destruct (mapR _ xs) as [ss|]; [|apply only_refl].
  destruct (oc_update_list _ _ _ ss (u_optimizer u)) as [[rs|] o]; apply put_states_only; [|by intros ? ?%elem_of_nil].
  intros [k v] Hx. by apply elem_of_zip_l in Hx.
Qed.
Lemma agg_loop_only fuel : forall xs u r u', agg_loop fuel xs u = Some (r, u') -> only_states (map fst xs) u u'.
Proof.
  induction fuel as [|fuel IH]; intros [|x xs] u r u'; cbn [agg_loop]; [by intros [= _ <-]|done|by intros [= _ <-]|].
  set (n := Z.to_nat _). pose proof (step_chunk_only (take n (x :: xs)) u) as Hc.
  assert (forall i, i ∈ map fst (take n (x :: xs)) -> i ∈ map fst (x :: xs)) as Ht
    by (intros i (y & -> & Hy)%list_elem_of_fmap; apply list_elem_of_fmap; exists y; split; [done|rewrite <- (take_drop n (x :: xs)); apply elem_of_app; by left]).
  assert (forall i, i ∈ map fst (drop n (x :: xs)) -> i ∈ map fst (x :: xs)) as Hd
    by (intros i (y & -> & Hy)%list_elem_of_fmap; apply list_elem_of_fmap; exists y; split; [done|rewrite <- (take_drop n (x :: xs)); apply elem_of_app; by right]).
  destruct (step_chunk _ u) as [[rs|e] u1]; cbn [snd] in Hc; [|intros [= _ <-]; eapply only_mono; [exact Ht|exact Hc]].
  destruct (agg_loop fuel (drop n (x :: xs)) u1) as [[r2 u2]|] eqn:E; [|done]. apply IH in E.
  intros E2. assert (u' = u2) as -> by (destruct r2; congruence). eapply only_trans; eapply only_mono; [exact Ht|exact Hc|exact Hd|exact E].
Qed.
Lemma agg_groups_only gs : forall u r u', agg_groups gs u = Some (r, u') -> only_states (map fst (map snd (concat gs))) u u'.
Proof.
  induction gs as [|g gs IH]; intros u r u'; cbn [agg_groups]; [by intros [= _ <-]|]. cbn [concat]. rewrite !map_app.
  destruct (agg_loop _ _ u) as [[[rs|e] u1]|] eqn:E; [| |done]; apply agg_loop_only in E.
  - destruct (agg_groups gs u1) as [[r2 u2]|] eqn:E2; [|done]. apply IH in E2.
    intros E3. assert (u' = u2) as -> by (destruct r2; congruence).
    eapply only_trans; eapply only_mono; [|exact E| |exact E2]; set_solver.
  - intros [= _ <-]. eapply only_mono; [|exact E]. set_solver.
Qed.

Lemma prepare_marks ys : forall u u', forM prepare_one ys u = (Ok tt, u') ->
  (forall i, u_synced u !! i = Some true -> u_synced u' !! i = Some true) /\ forall x, x ∈ ys -> u_synced u' !! x.1 = Some true.
Proof.
  induction ys as [|[i [w g]] ys IH]; intros u u'; cbn [forM]; [intros [= <-]; split; [done|by intros ? ?%elem_of_nil]|].
  rewrite bind_M. intros E.
  assert (exists u1, prepare_one (i, (w, g)) u = (Ok tt, u1) /\ u_synced u1 !! i = Some true /\
    (forall j, u_synced u !! j = Some true -> u_synced u1 !! j = Some true)) as (u1 & E1 & Hi & Hk).
  { unfold prepare_one in E |- *. destruct (u_states u !! i); [destruct (u_synced u !! i) as [[]|] eqn:Es; [..|done]|];
      eexists; (split; [done|]); cbn; rewrite ?lookup_insert_eq; (split; [done|]); intros j Hj; try done;
      (destruct (decide (j = i)) as [->|]; [by rewrite lookup_insert_eq|by rewrite lookup_insert_ne]). }
  rewrite E1 in E. destruct (IH _ _ E) as [H1 H2]. split; [auto|]. intros x [->|Hx]%elem_of_cons; [by apply H1|by apply H2].
Qed.

(** One call on the original and on the restored updater. *)
Lemma restored_call zs xs u v : (forall x, x ∈ xs -> x ∈ zs) -> restored zs u v ->
  match Updater_call xs u, Updater_call xs v with
  | Some (r, u'), Some (r', v') => r' = r /\ restored zs u' v'
  | None, None => True
  | _, _ => False
  end.
Proof.
  intros Hsub Hres. destruct (prepare_restored zs xs u v Hsub Hres) as (u1 & v1 & E & E' & Hres1).
  destruct (prepare_marks _ _ _ E) as [_ Mu]. destruct (prepare_marks _ _ _ E') as [_ Mv].
  destruct Hres1 as (Ho & Hs & Ha & Hu & Hv & Hy).
  assert (forall u2, only_states (map fst xs) u1 u2 -> restored zs u2 (with_synced (u_synced v1) u2)) as Hend.
  { intros u2 (S1 & S2 & S3). assert (forall i, (i ∈ map fst xs -> u_synced u1 !! i = Some true /\ u_synced v1 !! i = Some true) /\
      (i ∉ map fst xs -> u_states u2 !! i = u_states u1 !! i)) as Hi.
    { intros i. split; [|apply S3]. intros (x & -> & Hx)%list_elem_of_fmap. split; [by apply Mu|by apply Mv]. }
    split_and!; [done..| | |]; cbn.
    - intros i st Hst. rewrite S1. destruct (decide (i ∈ map fst xs)) as [Hin|Hout]; [by apply Hi|]. rewrite S3 in Hst by done. by eapply Hu.
    - intros i st Hst. destruct (decide (i ∈ map fst xs)) as [Hin|Hout]; [exists true; by apply Hi|]. rewrite S3 in Hst by done. by eapply Hv.
    - intros i w g st Hin Hst Hf. destruct (decide (i ∈ map fst xs)) as [Hk|Hout]; [destruct (proj1 (Hi i) Hk); congruence|].
      rewrite S3 in Hst by done. by eapply Hy. }
  unfold Updater_call. rewrite E, E'. assert (v1 = with_synced (u_synced v1) u1) as -> by (destruct v1, u1; unfold with_synced; cbn in *; by subst).
  cbn [with_synced u_synced] in *. change (u_aggregate (with_synced (u_synced v1) u1)) with (u_aggregate u1). destruct (u_aggregate u1).
  - rewrite agg_groups_synced. destruct (type_map_grouped xs) as (Hp & _).
    destruct (agg_groups (map snd (type_map xs)) u1) as [[r u2]|] eqn:Eg; [|done]. apply agg_groups_only in Eg.
    assert (only_states (map fst xs) u1 u2) as Honly.
    { eapply only_mono; [|exact Eg]. intros i Hi. rewrite Hp in Hi. apply list_elem_of_fmap in Hi as (x & -> & Hx).
      apply list_elem_of_fmap in Hx as ([k y] & -> & Hx). apply list_elem_of_fmap. exists y. split; [done|].
      apply list_elem_of_lookup in Hx as [n Hn]. rewrite list_lookup_imap in Hn. destruct (xs !! n) as [z|] eqn:Ez; [|done].
      injection Hn as _ <-. by eapply list_elem_of_lookup_2. }
    cbn [resync]. destruct r; (split; [done|by apply Hend]).
  - rewrite mapMM_synced. pose proof (mapMM_only xs u1) as Hm. destruct (mapMM step_one xs u1) as [r u2]. split; [done|by apply Hend].
Qed.

(** Several calls, exceptions caught, with their results. *)
Fixpoint Updater_calls (cs : list (list item)) (u : U) : option (list (result (list (tensor F * tensor F))) * U) :=
  match cs with
  | [] => Some ([], u)
  | xs :: cs =>
      match Updater_call xs u with
      | Some (r, u) => match Updater_calls cs u with Some (rs, u) => Some (r :: rs, u) | None => None end
      | None => None
      end
  end.

Lemma restored_calls zs cs : forall u v, (forall x, x ∈ concat cs -> x ∈ zs) -> restored zs u v ->
  match Updater_calls cs u, Updater_calls cs v with
  | Some (rs, u'), Some (rs', v') => rs' = rs /\ restored zs u' v'
  | None, None => True
  | _, _ => False
  end.
Proof.
  induction cs as [|xs cs IH]; intros u v Hsub Hres; cbn [Updater_calls]; [done|]. cbn [concat] in Hsub.
  assert (forall x, x ∈ xs -> x ∈ zs) as H1 by (intros; apply Hsub, elem_of_app; by left).
  assert (forall x, x ∈ concat cs -> x ∈ zs) as H2 by (intros; apply Hsub, elem_of_app; by right).
  pose proof (restored_call zs xs u v H1 Hres) as Hc.
  destruct (Updater_call xs u) as [[r u1]|], (Updater_call xs v) as [[r' v1]|]; try done. destruct Hc as [-> Hres1].
  specialize (IH u1 v1 H2 Hres1). destruct (Updater_calls cs u1) as [[rs u2]|], (Updater_calls cs v1) as [[rs' v2]|]; try done.
  by destruct IH as [-> ?].
Qed.

(** C28: Restoring an updater from its saved states, with the optimizer in the file
    ([get_states(dump_optimizer=True)]; without it the update counts are those of the new
    optimizer), and going on with any number of further calls gives the same weights, gradients,
    exceptions, states and optimizer as going on with the updater that was saved.  The optimizer
    is the same after pickling (it has no gluon parameters, which the file leaves out), the new
    updater was created with the same setting of aggregation, and the saved states are
    on the devices of the weights they are used for. *)
Theorem restored_updater_resumes (calls : list (list item)) (u : U) (o' : O) :
  oc_pickled (u_optimizer u) = u_optimizer u ->
  (0 <? oc_aggregate o') = u_aggregate u ->
  (forall i s, u_states u !! i = Some s -> u_synced u !! i = Some true) ->
  (forall i w g s, (i, (w, g)) ∈ concat calls -> u_states u !! i = Some s -> sync_state_context (t_ctx w) s = s) ->
  let v := set_states (get_states true u) (Updater_init o') in
  match Updater_calls calls u, Updater_calls calls v with
  | Some (rs, u'), Some (rs', v') => rs' = rs /\ u_states v' = u_states u' /\ u_optimizer v' = u_optimizer u'
  | None, None => True
  | _, _ => False
  end.
Proof.
  intros Hp Hag Hu Hsync v. assert (restored (concat calls) u v) as Hres.
  { split_and!; [done..| |by eauto]. intros i s Hi. cbn. exists false. by rewrite lookup_fmap, Hi. }
  pose proof (restored_calls (concat calls) calls u v ltac:(done) Hres) as Hc.
  destruct (Updater_calls calls u) as [[rs u']|], (Updater_calls calls v) as [[rs' v']|]; try done. by destruct Hc as [-> (? & ? & _)].
Qed.
End Restore.

(** ** Witnesses *)

#[local] Existing Instance Q_Float.

(** An optimizer on rational numbers with four named parameters. *)
Definition q_float_of (s : string) : result Q := Raise ValueError.
Definition four_names : gmap key string :=
  {[KInt 0 := "fc_weight"; KInt 1 := "fc_bias"; KInt 2 := "bn_gamma"; KInt 3 := "bn_beta"]}%string.
Definition plain_opt : Optimizer Q Empty_set :=
  mkOptimizer 1%Q (1 # 10)%Q None (1 # 100)%Q ∅ ∅ 0 0 ∅ None false 0 four_names None ∅.

Lemma update_counts_witness :
  let o := fold_left (fun o index => _update_count index o) [[KInt 0; KInt 1]; [KInt 1]; [KInt 1; KStr "w"]] plain_opt in
  _index_update_count o !! KInt 1 = Some 3 /\ _index_update_count o !! KInt 2 = None /\ 3 <= num_update o.
Proof.
  destruct (update_counts [[KInt 0; KInt 1]; [KInt 1]; [KInt 1; KStr "w"]] plain_opt eq_refl eq_refl) as (Hc & Hle & _).
  intros o. split; [exact (Hc (KInt 1))|]. split; [exact (Hc (KInt 2))|exact (Hle (KInt 1))].
Defined.

Definition halved : FactorScheduler Q := mkFactor (mkLR 1%Q 0 1%Q 0%Q "linear") 2 (1 # 2) (1 # 100) 0.

(** The third update of a weight, after a step of two: the rate 1/10 is halved once. *)
Lemma scheduled_rates_witness :
  exists o, Optimizer_init q_float_of 1%Q four_names 0%Q None (1 # 10)%Q (Some halved) None 0 false ∅ = Ok o /\
    (rate_step [KInt 0; KInt 7] (rate_steps [[KInt 0]; [KInt 0; KInt 1]] o)).1 = Ok [(1 # 20)%Q; (1 # 20)%Q].
Proof.
  eexists. split; [reflexivity|].
  etrans; [refine (scheduled_rates 2 (1 # 2) (1 # 100) 1%Q 0 0%Q "linear" halved q_float_of 1%Q four_names 0%Q None (1 # 10)%Q
    false ∅ [[KInt 0]; [KInt 0; KInt 1]] [KInt 0; KInt 7] _ eq_refl eq_refl _)|vm_compute; reflexivity].
  vm_compute. discriminate.
Defined.

Lemma default_decay_witness :
  _get_wd (KInt 1) (set_wd_mult q_float_of {[KStr "bn_beta" := 3%Q]} plain_opt).2 = 0%Q /\
  _get_wd (KInt 3) (set_wd_mult q_float_of {[KStr "bn_beta" := 3%Q]} plain_opt).2 = (3 # 100)%Q.
Proof.
  rewrite !(default_decay q_float_of {[KStr "bn_beta" := 3%Q]} plain_opt) by reflexivity. split; vm_compute; reflexivity.
Defined.

(** A rule that subtracts the gradient, with halves of even numbers as the rounding. *)
Definition sub_update (i : key) (w g : tensor Q) (s : ostate Q) : M (Optimizer Q Empty_set) (tensor Q * tensor Q * ostate Q) :=
  mret (with_data (zip_with Qminus (t_data w) (t_data g)) w, g, s).
Definition half_tensor (l : list Q) : tensor Q := mkTensor cpu "float16" "default" l.
Definition floor16 (dtype : string) (x : Q) : Q := if str_eqb dtype "float16" then inject_Z (Qnum x / Zpos (Qden x)) else x.

Lemma mixed_precision_refines_witness :
  let o := mkOptimizer 1%Q (1 # 10)%Q None 0%Q ∅ ∅ 0 0 ∅ None true 0 ∅ None ∅ in
  exists s, updates (update_multi_precision (fun o => o) floor16 sub_update (KInt 0)) [half_tensor [1 # 2]; half_tensor [1 # 4]]%Q
      (half_tensor [3%Q]) (create_state_multi_precision (fun o => o) floor16 (fun _ _ _ => SNone) (KInt 0) (half_tensor [3%Q]) o) o
    = (Ok (half_tensor [2%Q], s), o).
Proof.
  intros o. rewrite (mixed_precision_refines (fun o => o) floor16 (fun _ _ _ => SNone) sub_update (KInt 0) (half_tensor [3%Q]) o
    [half_tensor [1 # 2]; half_tensor [1 # 4]]%Q eq_refl eq_refl) by (discriminate || auto).
  eexists. vm_compute. reflexivity.
Defined.
