(* ===== verification/SGD.v ===== *)
(** * Gradient descent and its variants

    [optimizer/optimizer.py]: the classes [SGD], [Signum], [LBSGD], [DCASGD], [NAG] and [SGLD],
    with the dense kernels of [src/operator/optimizer_op-inl.h] that they call, one element
    at a time.  A number is any type with the operations used ([Float], [FloatMath]); the
    conversions of scalars to the type of the arrays are not modelled.  Kernels on sparse
    arrays and random numbers are parameters. *)

From Stdlib Require Import QArith.
From S2P Require Import Prelude NDArray LRScheduler Optimizer.
Open Scope Z_scope.

Class FloatMath (F : Type) := {
  fneg : F -> F;
  fsqrt : F -> F;
  fabs : F -> F;
}.

(** Arithmetic in the numbers of the arrays. *)
Declare Scope float_scope.
Delimit Scope float_scope with F.
Notation "0" := (fof 0%Z) : float_scope.
Notation "1" := (fof 1%Z) : float_scope.
Infix "+" := fadd : float_scope.
Infix "-" := fsub : float_scope.
Infix "*" := fmul : float_scope.
Infix "/" := fdiv : float_scope.
Notation "- x" := (fneg x) : float_scope.
Infix "<?" := fltb : float_scope.

(** An optimizer: the attributes of the base class and its own. *)
Record sub (F S A : Type) := mkSub { super : Optimizer F S; own : A }.
Arguments mkSub {F S A} _ _.
Arguments super {F S A} _.
Arguments own {F S A} _.

Section Rules.
Context {F S : Type} `{Float F} `{FloatMath F} `{Scheduler F S}.
Definition on_super {A B} (m : M (Optimizer F S) B) : M (sub F S A) B := fun o =>
  let '(r, s) := m (super o) in (r, mkSub s (own o)).

(** The first lines of most updates: the count, the rate and the decay of the index. *)
Definition begin_update {A} (index : key) : M (sub F S A) (F * F) :=
  _ ← on_super (modify (_update_count [index]));
  r ← on_super (_get_lr index);
  o ← get;
  mret (r, _get_wd index (super o)).

(** [clip(x, lo, hi)], and the kernels' [clip::Map(x, bound)]. *)
Definition clip_between (lo hi x : F) : F := if fltb hi x then hi else if fltb x lo then lo else x.
Definition clip (bound x : F) : F := clip_between (fneg bound) bound x.

(** [if self.clip_gradient is not None: grad = clip(grad, ...)] *)
Definition clip_opt (c : option F) (x : F) : F := match c with Some c => clip c x | None => x end.

(** The kernels' clipping: the default bound is -1, and it is passed only when it is
    neither [None] nor zero. *)
Definition kernel_clip (c : option F) : F := match c with Some c => if fzero c then fneg (fof 1) else c | None => fneg (fof 1) end.
Definition clip_pos (bound x : F) : F := if (bound <? 0)%F then x else clip bound x.

Definition zeros (t : tensor F) (stype : string) : tensor F :=
  mkTensor (t_ctx t) (t_dtype t) stype (map (fun _ => fof 0) (t_data t)).

(** Elementwise updates of a weight, with a gradient and up to three states. *)
Definition ew (f : F -> F -> F) (w g : tensor F) : tensor F := with_data (zip_with f (t_data w) (t_data g)) w.
Definition ew1 (f : F -> F -> F -> F * F) (w g a : tensor F) : tensor F * tensor F :=
  let r := zip_with (fun wg x => f wg.1 wg.2 x) (zip (t_data w) (t_data g)) (t_data a) in
  (with_data (map fst r) w, with_data (map snd r) a).

(** ** [SGD] *)

Record sgd_attrs := mkSGD { momentum : F; lazy_update : bool }.
Notation SGD := (sub F S sgd_attrs).

Definition SGD_create_state (index : key) (weight : tensor F) (o : SGD) : ostate F :=
  if fzero (momentum (own o)) then SNone
  else SArr (zeros weight (if lazy_update (own o) then t_stype weight else "default"%string)).

(** Kernels. [SGDKernel] and [SGDMomKernel], which [MP_SGDKernel] and [MP_SGDMomKernel]
    repeat on the master copy, and [MultiSGDKernel]. *)
Definition sgd_kernel (bound r d rescale w g : F) : F :=
  (if bound <? 0 then (1 - r * d) * w - (r * rescale) * g
   else (1 - r * d) * w - r * clip bound (rescale * g))%F.
Definition sgd_mom_kernel (mu bound r d rescale w g m : F) : F * F :=
  (let m := if bound <? 0 then mu * m - r * d * w - r * rescale * g
            else mu * m - r * d * w - r * clip bound (rescale * g) in
   (w + m, m))%F.
Definition multi_sgd_kernel (bound r d rescale w g : F) : F :=
  (sgd_mom_kernel (fof 0) bound r d rescale w g (fof 0)).1.

Context (cast : string -> F -> F).
(** The sparse kernels, by [lazy_update], bound, rate, decay and rescaling. *)
Context (sparse_sgd : bool -> F -> F -> F -> F -> tensor F -> tensor F -> tensor F).
Context (sparse_sgd_mom : bool -> F -> F -> F -> F -> F -> tensor F -> tensor F -> tensor F -> tensor F * tensor F).

Definition SGD_create_state_multi_precision (index : key) (weight : tensor F) (o : SGD) : ostate F :=
  if uses_master super weight o then
    let weight_master_copy := astype cast "float32" weight in
    STup [SGD_create_state index weight_master_copy o; SArr weight_master_copy]
  else SGD_create_state index weight o.

Definition dense (t : tensor F) : bool := str_eqb (t_stype t) "default".

(** The new contents of the arrays after the kernels in [_update_impl]. *)
Notation out := (tensor F * tensor F * ostate F)%type.

(** One weight of an aggregated update. *)
Definition sgd_aggregated (o : SGD) (mp : bool) (r d : F) (w g : tensor F) (s : ostate F) : result out :=
  let bound := kernel_clip (clip_gradient (super o)) in
  let rescale := rescale_grad (super o) in
  let has_momentum := fltb (fof 0) (momentum (own o)) in
  if negb mp then
    if has_momentum then
      match s with
      | SArr m => let '(w, m) := ew1 (sgd_mom_kernel (momentum (own o)) bound r d rescale) w g m in Ok (w, g, SArr m)
      | _ => Raise AssertionError
      end
    else Ok (ew (multi_sgd_kernel bound r d rescale) w g, g, s)
  else
    match s with
    | STup [s0; SArr master] =>
        let g32 := astype cast "float32" g in
        if has_momentum then
          match s0 with
          | SArr m =>
              let '(master, m) := ew1 (sgd_mom_kernel (momentum (own o)) bound r d rescale) master g32 m in
              Ok (with_data (map (cast (t_dtype w)) (t_data master)) w, g, STup [SArr m; SArr master])
          | _ => Raise AssertionError
          end
        else
          let master := ew (multi_sgd_kernel bound r d rescale) master g32 in
          Ok (with_data (map (cast (t_dtype w)) (t_data master)) w, g, STup [s0; SArr master])
    | _ => Raise TypeError
    end.

(** One weight of the loop over the others. *)
Definition sgd_single (o : SGD) (mp : bool) (r d : F) (w g : tensor F) (s : ostate F) : result out :=
  let bound := kernel_clip (clip_gradient (super o)) in
  let rescale := rescale_grad (super o) in
  let mu := if fltb (fof 0) (momentum (own o)) then momentum (own o) else fof 0 in
  if negb mp then
    match s with
    | SArr m =>
        let '(w, m) := if dense w && dense g then ew1 (sgd_mom_kernel mu bound r d rescale) w g m
                       else sparse_sgd_mom (lazy_update (own o)) mu bound r d rescale w g m in
        Ok (w, g, SArr m)
    | SNone => Ok (if dense w && dense g then ew (sgd_kernel bound r d rescale) w g
                   else sparse_sgd (lazy_update (own o)) bound r d rescale w g, g, SNone)
    | STup _ => Raise AssertionError
    end
  else
    match s with
    | STup [s0; SArr master] =>
        let g32 := astype cast "float32" g in
        match s0 with
        | SArr m =>
            let '(master, m) := ew1 (sgd_mom_kernel mu bound r d rescale) master g32 m in
            Ok (with_data (map (cast (t_dtype w)) (t_data master)) w, g, STup [SArr m; SArr master])
        | _ =>
            let master := ew (sgd_kernel bound r d rescale) master g32 in
            Ok (with_data (map (cast (t_dtype w)) (t_data master)) w, g, STup [s0; SArr master])
        end
    | _ => Raise TypeError
    end.

(** Five lists side by side. *)
Fixpoint zip5 (rs ds : list F) (ws gs : list (tensor F)) (ss : list (ostate F)) : list (F * F * tensor F * tensor F * ostate F) :=
  match rs, ds, ws, gs, ss with
  | r :: rs, d :: ds, w :: ws, g :: gs, s :: ss => (r, d, w, g, s) :: zip5 rs ds ws gs ss
  | _, _, _, _, _ => []
  end.

Definition SGD_update_impl (indices : list key) (weights grads : list (tensor F)) (states : list (ostate F)) (mp : bool)
  : M SGD (list out) :=
  let aggregate := forallb (fun wg => dense wg.1 && dense wg.2) (zip weights grads) in
  _ ← on_super (modify (_update_count indices));
  rs ← on_super (_get_lrs indices);
  o ← get;
  let ds := _get_wds indices (super o) in
  let one := if aggregate then sgd_aggregated o mp else sgd_single o mp in
  lift (mapR (fun '(r, d, w, g, s) => one r d w g s) (zip5 rs ds weights grads states)).

Definition SGD_update_multi_precision (index : key) (weight grad : tensor F) (state : ostate F) : M SGD out :=
  o ← get;
  l ← SGD_update_impl [index] [weight] [grad] [state] (uses_master super weight o);
  lift (py_index l 0).

(** On lists the type of the first weight decides; an empty list has none. *)
Definition SGD_update_multi_precision_list (indices : list key) (weights grads : list (tensor F)) (states : list (ostate F))
  : M SGD (list out) :=
  o ← get;
  mp ← (if multi_precision (super o) then
          match weights with
          | w :: _ => mret (str_eqb (t_dtype w) "float16")
          | [] => raise IndexError
          end
        else mret false);
  SGD_update_impl indices weights grads states mp.
End Rules.

(** ** Groups of weights under [SGD] *)

Section SGDGroups.
Context {F S : Type} `{Float F} `{FloatMath F} `{Scheduler F S}.
Context (cast : string -> F -> F).
Context (sparse_sgd : bool -> F -> F -> F -> F -> tensor F -> tensor F -> tensor F).
Context (sparse_sgd_mom : bool -> F -> F -> F -> F -> F -> tensor F -> tensor F -> tensor F -> tensor F * tensor F).
Notation SGD := (sub F S (sgd_attrs (F := F))).

#[export] Instance SGD_class : OptimizerClass F SGD := {
  oc_aggregate o := aggregate_num (super o);
  oc_create_state := SGD_create_state_multi_precision cast;
  oc_update := SGD_update_multi_precision cast sparse_sgd sparse_sgd_mom;
  oc_update_list := SGD_update_multi_precision_list cast sparse_sgd sparse_sgd_mom;
  oc_pickled o := mkSub (pickled (super o)) (own o);
}.

(** The state has the form that [create_state_multi_precision] gives it. *)
Definition sgd_state_ok (o : SGD) (w : tensor F) (s : ostate F) : Prop :=
  let has_momentum := fltb (fof 0) (momentum (own o)) in
  if uses_master super w o
  then exists s0 master, s = STup [s0; SArr master] /\ (has_momentum = true -> exists m, s0 = SArr m)
  else has_momentum = true -> exists m, s = SArr m.

Definition sgd_valid (o : SGD) (w g : tensor F) (s : ostate F) : Prop :=
  lr_scheduler (super o) = None /\ dense w = true /\ dense g = true /\ sgd_state_ok o w s.

Definition sgd_count (l : list key) (o : SGD) : SGD := mkSub (_update_count l (super o)) (own o).

Definition sgd_fun (o : SGD) (i : key) (w g : tensor F) (s : ostate F) : tensor F * tensor F * ostate F :=
  match sgd_aggregated cast o (uses_master super w o) (scale_by pm_lr (lr_mult (super o)) (super o) i (lr (super o)))
          (_get_wd i (super o)) w g s with
  | Ok r => r
  | Raise _ => (w, g, s)
  end.

Lemma update_count_same l (o : Optimizer F S) :
  _update_count l o = put_counts (num_update (_update_count l o)) (_index_update_count (_update_count l o)) o.
Proof.
  revert o. induction l as [|i l IH]; intros o; [by destruct o|].
  change (_update_count (i :: l) o) with (_update_count l (count_one i o)). by rewrite IH at 1.
Qed.

(** Nothing that an update looks at depends on the counts. *)
Lemma sgd_fun_count l o i w g s : sgd_fun (sgd_count l o) i w g s = sgd_fun o i w g s.
Proof. unfold sgd_fun, sgd_count. cbn. by rewrite update_count_same. Qed.

Lemma sgd_valid_count l o w g s : sgd_valid (sgd_count l o) w g s <-> sgd_valid o w g s.
Proof. unfold sgd_valid, sgd_state_ok, sgd_count, uses_master. cbn. by rewrite update_count_same. Qed.

Lemma sgd_aggregated_ok o r d w g s : sgd_state_ok o w s ->
  exists x, sgd_aggregated cast o (uses_master super w o) r d w g s = Ok x.
Proof.
  unfold sgd_state_ok, sgd_aggregated. destruct (uses_master super w o); cbn.
  - intros (s0 & master & -> & Hm). destruct (fltb _ _); [|by eexists]. destruct (Hm eq_refl) as [m ->].
    by eexists.
  - intros Hm. destruct (fltb _ _); [|by eexists]. destruct (Hm eq_refl) as [m ->]. by eexists.
Qed.

(** The update of a list of valid weights of one type. *)
Lemma sgd_impl_spec o mp (xs : list (key * (tensor F * tensor F) * ostate F)) :
  Forall (fun x => sgd_valid o x.1.2.1 x.1.2.2 x.2 /\ uses_master super x.1.2.1 o = mp) xs -> lr_scheduler (super o) = None ->
  SGD_update_impl cast sparse_sgd sparse_sgd_mom (map (fun x => x.1.1) xs) (map (fun x => x.1.2.1) xs)
    (map (fun x => x.1.2.2) xs) (map snd xs) mp o =
  (Ok (map (fun x => sgd_fun o x.1.1 x.1.2.1 x.1.2.2 x.2) xs), sgd_count (map (fun x => x.1.1) xs) o).
Proof.
  intros Hxs Hs. unfold SGD_update_impl. rewrite bind_M. cbn [on_super modify].
  assert (forallb (fun wg => dense wg.1 && dense wg.2) (zip (map (fun x => x.1.2.1) xs) (map (fun x => x.1.2.2) xs)) = true) as ->.
  { clear -Hxs. induction Hxs as [|x xs ((_ & Hw & Hg & _) & _) _ IH]; [done|]. cbn. rewrite Hw, Hg. apply IH. }
  set (l := map (fun x => x.1.1) xs) at 1 2 3 4. set (c := _update_count l (super o)).
  assert (lr_scheduler c = None) as Hc by (subst c; by rewrite update_count_same).
  rewrite bind_M. unfold on_super at 1. cbn [super own]. unfold _get_lrs, learning_rate. rewrite bind_M, Hc, bind_M.
  cbn [get mret M_ret]. rewrite bind_M. cbn [get lift super own].
  change (mkSub c (own o)) with (sgd_count l o). f_equal.
  transitivity (mapR (fun x => Ok (sgd_fun o x.1.1 x.1.2.1 x.1.2.2 x.2)) xs); [|by apply mapR_ok].
  unfold _get_wds. subst l. clear Hs.
  assert (forall i x, scale_by pm_lr (lr_mult c) c i x = scale_by pm_lr (lr_mult (super o)) (super o) i x) as Hlr
    by (intros; subst c; by rewrite update_count_same).
  assert (forall i, scale_by pm_wd (wd_mult c) c i (wd c) = _get_wd i (super o)) as Hwd
    by (intros; subst c; by rewrite update_count_same).
  assert (lr c = lr (super o)) as -> by (subst c; by rewrite update_count_same).
  assert (forall b r d w g s, sgd_aggregated cast (mkSub c (own o)) b r d w g s = sgd_aggregated cast o b r d w g s) as Hag
    by (intros; subst c; rewrite update_count_same; done).
  change (sgd_count (map (fun x => x.1.1) xs) o) with (mkSub c (own o)). clearbody c.
  induction Hxs as [|[[i [w g]] s] xs ((_ & _ & _ & Hok) & Hmp) _ IH]; [done|]. cbn in *.
  rewrite Hlr, Hwd, Hag. unfold sgd_fun at 1. cbn. rewrite <- Hmp at 1.
  destruct (sgd_aggregated_ok o (scale_by pm_lr (lr_mult (super o)) (super o) i (lr (super o))) (_get_wd i (super o)) w g s Hok) as [x ->].
  cbn. by rewrite IH.
Qed.

Lemma sgd_update_spec o i w g s : sgd_valid o w g s ->
  SGD_update_multi_precision cast sparse_sgd sparse_sgd_mom i w g s o = (Ok (sgd_fun o i w g s), sgd_count [i] o).
Proof.
  intros Hv. unfold SGD_update_multi_precision. rewrite bind_M. cbn [get]. rewrite bind_M.
  pose proof (sgd_impl_spec o (uses_master super w o) [(i, (w, g), s)]) as Hspec. cbn in Hspec. rewrite Hspec; [done| |apply Hv].
  by apply Forall_singleton.
Qed.

Lemma sgd_list_spec o dt (xs : list (key * (tensor F * tensor F) * ostate F)) :
  Forall (fun x => t_dtype x.1.2.1 = dt /\ sgd_valid o x.1.2.1 x.1.2.2 x.2) xs -> xs <> [] ->
  SGD_update_multi_precision_list cast sparse_sgd sparse_sgd_mom (map (fun x => x.1.1) xs) (map (fun x => x.1.2.1) xs)
    (map (fun x => x.1.2.2) xs) (map snd xs) o =
  (Ok (map (fun x => sgd_fun o x.1.1 x.1.2.1 x.1.2.2 x.2) xs), sgd_count (map (fun x => x.1.1) xs) o).
Proof.
  intros Hxs Hne. unfold SGD_update_multi_precision_list. rewrite bind_M. cbn [get]. rewrite bind_M.
  set (mp := multi_precision (super o) && str_eqb dt "float16").
  assert (forall A (k : bool -> M SGD A), match
      (if multi_precision (super o)
       then match map (fun x => x.1.2.1) xs with w :: _ => mret (str_eqb (t_dtype w) "float16") | [] => raise IndexError end
       else mret false) o with (Ok a, s') => k a s' | (Raise e, s') => (Raise e, s') end = k mp o) as ->.
  { intros A k. subst mp. destruct (multi_precision (super o)); [|done]. destruct xs as [|x xs]; [done|].
    apply Forall_cons in Hxs as [[Hd _] _]. cbn in *. by rewrite Hd. }
  apply sgd_impl_spec.
  - eapply Forall_impl; [exact Hxs|]. intros x [Hd Hv]. split; [done|]. unfold uses_master. by rewrite Hd.
  - destruct xs as [|x xs]; [done|]. by apply Forall_cons in Hxs as [[_ (Hs & _)] _].
Qed.

Lemma sgd_create_count l o i w :
  SGD_create_state_multi_precision cast i w (sgd_count l o) = SGD_create_state_multi_precision cast i w o.
Proof. unfold SGD_create_state_multi_precision, uses_master, sgd_count. cbn. by rewrite update_count_same. Qed.

#[export] Instance SGD_pointwise : Pointwise F SGD := {
  pw_fun := sgd_fun;
  pw_valid := sgd_valid;
  pw_count := sgd_count;
  pw_update := sgd_update_spec;
  pw_list := sgd_list_spec;
  pw_count_fun := sgd_fun_count;
  pw_count_valid := sgd_valid_count;
  pw_count_aggregate l o := f_equal aggregate_num (update_count_same l (super o));
  pw_count_create := sgd_create_count;
}.
End SGDGroups.

(** ** Other variants *)

Section Variants.
Context {F S : Type} `{Float F} `{FloatMath F} `{Scheduler F S}.
Notation out := (tensor F * tensor F * ostate F)%type.

(** [Signum], with [SignSGDKernel] and [SignumKernel]. *)
Record signum_attrs := mkSignum { sg_momentum : F; wd_lh : F }.

Definition Signum_create_state (index : key) (weight : tensor F) (o : sub F S signum_attrs) : ostate F :=
  if fzero (sg_momentum (own o)) then SNone else SArr (zeros weight (t_stype weight)).

Definition fsign (x : F) : F := (if 0 <? x then 1 else if x <? 0 then fneg 1 else 0)%F.
Definition signsgd_kernel (r d w g : F) : F := ((1 - r * d) * w - r * fsign g)%F.
Definition signum_kernel (mu bound r d rescale lh w g m : F) : F * F :=
  (let m := if bound <? 0 then mu * m - (1 - mu) * d * w - (1 - mu) * rescale * g
            else mu * m - (1 - mu) * d * w - (1 - mu) * clip bound (rescale * g) in
   ((1 - r * lh) * w + r * fsign m, m))%F.

Definition Signum_update (index : key) (weight grad : tensor F) (state : ostate F) : M (sub F S signum_attrs) out :=
  '(r, d) ← begin_update index;
  o ← get;
  let mu := if fltb (fof 0) (sg_momentum (own o)) then sg_momentum (own o) else fof 0 in
  match state with
  | SArr m =>
      let '(w, m) := ew1 (signum_kernel mu (kernel_clip (clip_gradient (super o))) r d (rescale_grad (super o)) (wd_lh (own o)))
                       weight grad m in
      mret (w, grad, SArr m)
  | SNone => mret (ew (signsgd_kernel r d) weight grad, grad, SNone)
  | STup _ => raise AssertionError
  end.

(** [DCASGD] *)
Record dcasgd_attrs := mkDCASGD { dc_momentum : F; lamda : F }.

Definition DCASGD_create_state (index : key) (weight : tensor F) (o : sub F S dcasgd_attrs) : ostate F :=
  if fzero (dc_momentum (own o)) then STup [SNone; SArr weight]
  else STup [SArr (zeros weight "default"); SArr weight].

(** [bool(array)] *)
Definition tensor_bool (t : tensor F) : result bool :=
  match t_data t with
  | [] => Ok false
  | [x] => Ok (negb (fzero x))
  | _ => Raise ValueError
  end.

Definition dcasgd_step (lam r d w g p : F) : F := (fneg r * (g + d * w + lam * g * g * (w - p)))%F.

Definition DCASGD_update (index : key) (weight grad : tensor F) (state : ostate F) : M (sub F S dcasgd_attrs) out :=
  '(r, d) ← begin_update index;
  o ← get;
  let g := map (fun x => clip_opt (clip_gradient (super o)) (fmul x (rescale_grad (super o)))) (t_data grad) in
  match state with
  | STup [mom; SArr previous_weight] =>
      truth ← lift (match mom with
                    | SNone => Ok false
                    | SArr m => tensor_bool m
                    | STup l => Ok (bool_decide (l <> []))
                    end);
      let step := zip_with (fun wg p => dcasgd_step (lamda (own o)) r d wg.1 wg.2 p) (zip (t_data weight) g) (t_data previous_weight) in
      match mom, truth with
      | SArr m, true =>
          let m' := zip_with (fun a b => fadd (fmul a (dc_momentum (own o))) b) (t_data m) step in
          mret (with_data (zip_with fadd (t_data weight) m') weight, grad,
                STup [SArr (with_data m' m); SArr (with_data (t_data weight) previous_weight)])
      | _, _ =>
          _ ← massert (fzero (dc_momentum (own o)));
          mret (with_data (zip_with fadd (t_data weight) step) weight, grad,
                STup [mom; SArr (with_data (t_data weight) previous_weight)])
      end
  | _ => raise TypeError
  end.

(** [NAG] *)
Record nag_attrs := mkNAG { nag_momentum : F }.

Definition NAG_create_state (index : key) (weight : tensor F) (o : sub F S nag_attrs) : ostate F :=
  if fzero (nag_momentum (own o)) then SNone else SArr (zeros weight "default").

Definition nag_step (mu r d w g m : F) : F * F :=
  (let m := m * mu in let m := m + g in let m := m + d * w in
   let g := g + mu * m in (w - r * g, m))%F.

Definition NAG_update (index : key) (weight grad : tensor F) (state : ostate F) : M (sub F S nag_attrs) out :=
  '(r, d) ← begin_update index;
  o ← get;
  let g := with_data (map (fun x => clip_opt (clip_gradient (super o)) (fmul x (rescale_grad (super o)))) (t_data grad)) grad in
  match state with
  | SArr m => let '(w, m) := ew1 (nag_step (nag_momentum (own o)) r d) weight g m in mret (w, grad, SArr m)
  | SNone =>
      _ ← massert (fzero (nag_momentum (own o)));
      mret (ew (fun w g => (w + fneg r * (g + d * w))%F) weight g, grad, SNone)
  | STup _ => raise TypeError
  end.

(** [SGLD]; [noise] are the normal random numbers for a standard deviation.  A negative
    rate makes [math.sqrt] raise. *)
Definition SGLD_update (noise : F -> list F) (index : key) (weight grad : tensor F) (state : ostate F)
  : M (sub F S unit) out :=
  '(r, d) ← begin_update index;
  o ← get;
  let g := map (fun x => clip_opt (clip_gradient (super o)) (fmul x (rescale_grad (super o)))) (t_data grad) in
  let w := zip_with (fun w g => (w + fneg r / fof 2 * (g + d * w))%F) (t_data weight) g in
  _ ← (if fltb r (fof 0) then raise ValueError else mret tt);
  mret (with_data (zip_with fadd w (noise (fsqrt r))) weight, grad, state).
End Variants.

(** ** [LBSGD] *)

Section LargeBatch.
Context {F S : Type} `{Float F} `{FloatMath F} `{Scheduler F S} (cast : string -> F -> F).
Notation out := (tensor F * tensor F * ostate F)%type.

(** [cum_grad] is an array, or the integer 0 after a reset. *)
Inductive cum := CumZero | CumArr (l : list F).

Record lbsgd_attrs := mkLBSGD {
  lb_momentum : F;
  warmup_strategy : string;
  warmup_epochs : Z;
  batch_scale : Z;
  updates_per_epoch : Z;
  init_updates : Z;
  cumgrads : gmap key (cum * Z);
}.
Notation LBSGD := (sub F S lbsgd_attrs).

Definition put_cumgrads (c : gmap key (cum * Z)) (o : LBSGD) : LBSGD :=
  mkSub (super o) (mkLBSGD (lb_momentum (own o)) (warmup_strategy (own o)) (warmup_epochs (own o)) (batch_scale (own o))
    (updates_per_epoch (own o)) (init_updates (own o)) c).

Definition LBSGD_create_state (index : key) (weight : tensor F) (o : LBSGD) : ostate F :=
  let momentum := fun w : tensor F => if fzero (lb_momentum (own o)) then SNone else SArr (zeros w (t_stype weight)) in
  if uses_master super weight o then
    let weight_master_copy := mkTensor (t_ctx weight) "float32" "default" (map (cast "float32") (t_data weight)) in
    STup [momentum weight_master_copy; SArr weight_master_copy]
  else momentum weight.

Definition _get_lbmult (nup : Z) (a : lbsgd_attrs) : F :=
  let nwup := warmup_epochs a * updates_per_epoch a in
  let maxmult := fof (batch_scale a) in
  if nwup <=? nup then maxmult
  else if nwup <=? 1 then fof 1
  else if str_eqb (warmup_strategy a) "linear" then (1 + (maxmult - 1) * fof nup / fof nwup)%F
  else if str_eqb (warmup_strategy a) "power2" then (1 + (maxmult - 1) * fof (nup * nup)%Z / fof (nwup * nwup)%Z)%F
  else if str_eqb (warmup_strategy a) "sqrt" then (1 + (maxmult - 1) * fsqrt (fof nup / fof nwup))%F
  else fof 1.

Definition _l2norm (v : list F) : F := fold_left fadd (map (fun x => fmul x x) v) (fof 0).

Definition _get_lars (weight g : list F) (d : F) : F :=
  let weight2 := _l2norm weight in
  let grad2 := _l2norm g in
  let lars := fsqrt (weight2 / (grad2 + d * weight2 + fof 1 / fof (10 ^ 18)%Z))%F in
  if fltb lars (fdiv (fof 1) (fof 100)) then fdiv (fof 1) (fof 100)
  else if fltb (fof 100) lars then fof 100
  else lars.

(** [_cumulate_gradient], with [_get_cum_gradient] and [_put_cum_gradient]: the accumulated
    gradient and the number of accumulations. *)
Definition _cumulate_gradient (grad : list F) (index : key) (o : LBSGD) : list F * Z * LBSGD :=
  let '(cum_grad, num_cums) :=
    match cumgrads (own o) !! index with
    | Some (c, n) =>
        if 0 <? n then
          (match c with CumZero => map (fun g => fadd g (fof 0)) grad | CumArr l => zip_with fadd l grad end, n + 1)
        else (grad, init_updates (own o) + 1)
    | None => (grad, init_updates (own o) + 1)
    end in
  (cum_grad, num_cums, put_cumgrads (<[index := (CumArr cum_grad, num_cums)]> (cumgrads (own o))) o).

Definition _reset_cum_gradient (index : key) (o : LBSGD) : LBSGD :=
  match cumgrads (own o) !! index with
  | Some (_, n) => put_cumgrads (<[index := (CumZero, n)]> (cumgrads (own o))) o
  | None => o
  end.

(** The regular update. *)
Definition lbsgd_regular (o : LBSGD) (r d : F) (weight : tensor F) (grad : tensor F) (state : ostate F) : result (tensor F * ostate F) :=
  let bound := kernel_clip (clip_gradient (super o)) in
  let rescale := rescale_grad (super o) in
  let mu := if fltb (fof 0) (lb_momentum (own o)) then lb_momentum (own o) else fof 0 in
  match state with
  | SArr m => let '(w, m) := ew1 (sgd_mom_kernel mu bound r d rescale) weight grad m in Ok (w, SArr m)
  | SNone => Ok (ew (sgd_kernel bound r d rescale) weight grad, SNone)
  | STup [s0; SArr master] =>
      let g32 := astype cast "float32" grad in
      match s0 with
      | SArr m =>
          let '(master, m) := ew1 (sgd_mom_kernel mu bound r d rescale) master g32 m in
          Ok (with_data (map (cast (t_dtype weight)) (t_data master)) weight, STup [SArr m; SArr master])
      | _ =>
          let master := ew (sgd_kernel bound r d rescale) master g32 in
          Ok (with_data (map (cast (t_dtype weight)) (t_data master)) weight, STup [s0; SArr master])
      end
  | STup _ => Raise IndexError
  end.

Definition LBSGD_update (index : key) (weight grad : tensor F) (state : ostate F) : M LBSGD out :=
  r ← on_super (_get_lr index);
  o ← get;
  let d := _get_wd index (super o) in
  _ ← on_super (modify (_update_count [index]));
  o ← get;
  let '(cum_grad, num_cums, o) := _cumulate_gradient (t_data grad) index o in
  _ ← put o;
  if batch_scale (own o) =? 0 then raise ZeroDivisionError
  else if num_cums mod batch_scale (own o) =? 0 then
    let g := map (fun x => fdiv x (fof (batch_scale (own o)))) cum_grad in
    let lbmult := if str_eqb (warmup_strategy (own o)) "lars" then _get_lars (t_data weight) g d
                  else _get_lbmult num_cums (own o) in
    '(w, s) ← lift (lbsgd_regular o (fmul r lbmult) d weight (with_data g grad) state);
    _ ← modify (_reset_cum_gradient index);
    mret (w, grad, s)
  else mret (ew (sgd_kernel (fneg (fof 1)) (fof 0) d (fof 1)) weight grad, grad, state).
End LargeBatch.

(** The update of [LBSGD] without a scheduler. *)
Lemma LBSGD_update_unfold {F S : Type} `{Float F} `{FloatMath F} `{Scheduler F S} (cast : string -> F -> F)
    (i : key) (w g : tensor F) (s : ostate F) (o : sub F S lbsgd_attrs) :
  lr_scheduler (super o) = None ->
  LBSGD_update cast i w g s o =
    let r := scale_by pm_lr (lr_mult (super o)) (super o) i (lr (super o)) in
    let d := _get_wd i (super o) in
    let '(cum_grad, num_cums, o2) := _cumulate_gradient (t_data g) i (mkSub (_update_count [i] (super o)) (own o)) in
    if batch_scale (own o2) =? 0 then (Raise ZeroDivisionError, o2)
    else if num_cums mod batch_scale (own o2) =? 0 then
      let avg := map (fun x => fdiv x (fof (batch_scale (own o2)))) cum_grad in
      let lbmult := if str_eqb (warmup_strategy (own o2)) "lars" then _get_lars (t_data w) avg d
                    else _get_lbmult num_cums (own o2) in
      match lbsgd_regular cast o2 (fmul r lbmult) d w (with_data avg g) s with
      | Ok (w', s') => (Ok (w', g, s'), _reset_cum_gradient i o2)
      | Raise e => (Raise e, o2)
      end
    else (Ok (ew (sgd_kernel (fneg (fof 1)) (fof 0) d (fof 1)) w g, g, s), o2).
Proof.
  intros Hs. unfold LBSGD_update. rewrite bind_M.
  assert (on_super (_get_lr i) o = (Ok (scale_by pm_lr (lr_mult (super o)) (super o) i (lr (super o))), o)) as ->.
  { unfold on_super, _get_lr, _get_lrs, learning_rate. rewrite bind_M, bind_M, Hs. by destruct o. }
  rewrite bind_M. cbn [get]. rewrite bind_M. cbn [on_super modify]. rewrite bind_M. cbn [get super own]. cbv zeta.
  destruct (_cumulate_gradient _ i _) as [[cum_grad num_cums] o2]. rewrite bind_M. cbn [put].
  destruct (batch_scale (own o2) =? 0); [done|]. destruct (_ =? 0); [|done]. rewrite bind_M. unfold lift.
  by destruct (lbsgd_regular _ _ _ _ _ _ _) as [[w' s']|].
Qed.

(** ** [DCASGD] does not work with momentum *)

Section DelayCompensation.
Context {F S : Type} `{Float F} `{FloatMath F} `{Scheduler F S}.

Lemma begin_update_ok {A} (i : key) (o : sub F S A) : lr_scheduler (super o) = None ->
  begin_update i o = (Ok (scale_by pm_lr (lr_mult (super o)) (super o) i (lr (super o)), _get_wd i (super o)),
                      mkSub (_update_count [i] (super o)) (own o)).
Proof.
  intros Hs. unfold begin_update. rewrite bind_M. cbn [on_super modify]. rewrite bind_M.
  unfold on_super at 1, _get_lr, _get_lrs, learning_rate. rewrite !bind_M. cbn [super own lr_scheduler].
  assert (lr_scheduler (_update_count [i] (super o)) = None) as Hc by (by rewrite update_count_same). rewrite Hc. done.
Qed.

(** With a momentum, the first update of any weight raises: the state is an array of
    zeros, and testing it as a condition raises [ValueError] for more than one element and
    is false otherwise, after which the assertion that there is no momentum fails. *)
Theorem dcasgd_momentum_fails (i : key) (weight grad : tensor F) (o : sub F S dcasgd_attrs) :
  lr_scheduler (super o) = None -> fzero (F := F) (fof 0) = true -> fzero (dc_momentum (own o)) = false ->
  (DCASGD_update i weight grad (DCASGD_create_state i weight o) o).1 =
    Raise (if (length (t_data weight) <=? 1)%nat then AssertionError else ValueError).
Proof.
  intros Hs Hz Hm. unfold DCASGD_update, DCASGD_create_state. rewrite bind_M, begin_update_ok, Hm by done.
  cbv beta iota. rewrite bind_M. cbn [get]. cbv beta iota. rewrite bind_M. unfold lift, tensor_bool, zeros. cbn [t_data own].
  destruct (t_data weight) as [|x [|y l]]; cbn [map length Nat.leb]; [| |done]; cbv beta iota; rewrite ?Hz; cbn [negb];
    rewrite bind_M; unfold massert, py_assert; by rewrite Hm.
Qed.
End DelayCompensation.

(** ** Witnesses *)

#[local] Existing Instance Q_Float.
#[local] Instance Q_FloatMath : FloatMath Q := { fneg := Qopp; fsqrt x := x; fabs x := x }.

Definition q_sgd (aggregate : Z) : sub Q Empty_set (sgd_attrs (F := Q)) :=
  mkSub (mkOptimizer 1%Q (1 # 10)%Q None 0%Q ∅ ∅ 0 0 ∅ None false aggregate ∅ None ∅) (mkSGD (1 # 2)%Q true).
Definition same (dtype : string) (x : Q) : Q := x.
Definition no_sparse (lazy : bool) (a b c d : Q) (w g : tensor Q) : tensor Q := w.
Definition no_sparse_mom (lazy : bool) (a b c d e : Q) (w g m : tensor Q) : tensor Q * tensor Q := (w, m).
#[local] Instance q_sgd_class : OptimizerClass Q (sub Q Empty_set (sgd_attrs (F := Q))) := SGD_class same no_sparse no_sparse_mom.
#[local] Instance q_sgd_pointwise : Pointwise Q (sub Q Empty_set (sgd_attrs (F := Q))) := SGD_pointwise same no_sparse no_sparse_mom.

Definition dense_tensor (dtype : string) (l : list Q) : tensor Q := mkTensor cpu dtype "default" l.

(** Three weights of two types, in groups of at most two. *)
Definition three_items : list (key * (tensor Q * tensor Q)) :=
  [(KInt 0, (dense_tensor "float32" [1; 2], dense_tensor "float32" [10; 20]));
   (KInt 1, (dense_tensor "float64" [3], dense_tensor "float64" [30]));
   (KInt 2, (dense_tensor "float32" [4], dense_tensor "float32" [40]))]%Q.

Lemma grouping_is_invisible_witness :
  exists rs v v',
    Updater_call three_items (with_aggregate true (Updater_init (q_sgd 2))) = Some (Ok rs, v) /\
    Updater_call three_items (with_aggregate false (Updater_init (q_sgd 2))) = Some (Ok rs, v') /\
    u_states v = u_states v'.
Proof.
  refine (grouping_is_invisible three_items (Updater_init (q_sgd 2)) _ _ _ eq_refl _).
  - repeat constructor; set_solver.
  - reflexivity.
  - repeat constructor; eexists; (split; [reflexivity|]); split_and!; try reflexivity; intros _; eexists; reflexivity.
Defined.

(** Going on after the states were saved and restored in a new updater. *)
Definition trained_updater : Updater Q (sub Q Empty_set (sgd_attrs (F := Q))) :=
  Eval vm_compute in match Updater_call three_items (Updater_init (q_sgd 2)) with Some (_, u) => u | None => Updater_init (q_sgd 2) end.

Lemma restored_updater_resumes_witness :
  let v := set_states (get_states true trained_updater) (Updater_init (q_sgd 4)) in
  match Updater_calls [three_items; take 2 three_items] trained_updater, Updater_calls [three_items; take 2 three_items] v with
  | Some (rs, u'), Some (rs', v') => rs' = rs /\ u_states v' = u_states u' /\ u_optimizer v' = u_optimizer u'
  | None, None => True
  | _, _ => False
  end.
Proof.
  apply (restored_updater_resumes [three_items; take 2 three_items] trained_updater (q_sgd 4)).
  - reflexivity.
  - reflexivity.
  - intros i s Hi. vm_compute in Hi. repeat (destruct i as [[|[?|[?|?|]|]|]|]; try discriminate Hi); reflexivity.
  - intros i w g s Hin Hi. unfold three_items in Hin. cbn in Hin. set_unfold in Hin.
    destruct Hin as [[= -> -> ->]|[[= -> -> ->]|[[= -> -> ->]|[[= -> -> ->]|[[= -> -> ->]|[]]]]]]; vm_compute in Hi; injection Hi as <-; reflexivity.
Defined.

Definition q_dcasgd : sub Q Empty_set (dcasgd_attrs (F := Q)) :=
  mkSub (mkOptimizer 1%Q (1 # 10)%Q None 0%Q ∅ ∅ 0 0 ∅ None false 0 ∅ None ∅) (mkDCASGD (1 # 2)%Q (1 # 25)%Q).

Lemma dcasgd_momentum_fails_witness :
  (DCASGD_update (KInt 0) (dense_tensor "float32" [1; 2]%Q) (dense_tensor "float32" [1; 1]%Q)
     (DCASGD_create_state (KInt 0) (dense_tensor "float32" [1; 2]%Q) q_dcasgd) q_dcasgd).1 = Raise ValueError.
Proof. exact (dcasgd_momentum_fails (KInt 0) _ (dense_tensor "float32" [1; 1]%Q) q_dcasgd eq_refl eq_refl eq_refl). Defined.
