(* ===== verification/Adaptive.v ===== *)
(** * Adaptive optimization rules

    [optimizer/optimizer.py]: the classes [FTML], [Adam], [AdaGrad], [RMSProp], [AdaDelta],
    [Ftrl], [Adamax], [Nadam] and [Test], with the dense kernels of
    [src/operator/optimizer_op-inl.h] that they call, one element at a time.  The kernels of
    [Adam], [RMSProp] and [Ftrl] overwrite the gradient, and so does [AdaDelta]. *)

From S2P Require Import Prelude NDArray LRScheduler Optimizer SGD.

Section Adaptive.
Context {F S : Type} `{Float F} `{FloatMath F} `{Scheduler F S}.
Notation out := (tensor F * tensor F * ostate F)%type.

(** Elementwise updates of weight, gradient and states. *)
Definition kern1 (f : F -> F -> F -> F * F * F) (w g a : tensor F) : out :=
  let r := zip_with (fun wg x => f wg.1 wg.2 x) (zip (t_data w) (t_data g)) (t_data a) in
  (with_data (map (fun x => x.1.1) r) w, with_data (map (fun x => x.1.2) r) g, SArr (with_data (map snd r) a)).
Definition kern2 (f : F -> F -> F -> F -> F * F * F * F) (w g a b : tensor F) : out :=
  let r := zip_with (fun wg ab => f wg.1 wg.2 ab.1 ab.2) (zip (t_data w) (t_data g)) (zip (t_data a) (t_data b)) in
  (with_data (map (fun x => x.1.1.1) r) w, with_data (map (fun x => x.1.1.2) r) g,
   STup [SArr (with_data (map (fun x => x.1.2) r) a); SArr (with_data (map snd r) b)]).
Definition kern3 (f : F -> F -> F -> F -> F -> F * F * F * F * F) (w g a b c : tensor F) : out :=
  let r := zip_with (fun wg abc => f wg.1 wg.2 abc.1.1 abc.1.2 abc.2) (zip (t_data w) (t_data g))
             (zip (zip (t_data a) (t_data b)) (t_data c)) in
  (with_data (map (fun x => x.1.1.1.1) r) w, with_data (map (fun x => x.1.1.1.2) r) g,
   STup [SArr (with_data (map (fun x => x.1.1.2) r) a); SArr (with_data (map (fun x => x.1.2) r) b); SArr (with_data (map snd r) c)]).

Definition zeros32 (t : tensor F) (stype : string) : tensor F :=
  mkTensor (t_ctx t) "float32" stype (map (fun _ => fof 0) (t_data t)).

(** [self._index_update_count[index]] *)
Definition count_of {A} (index : key) : M (sub F S A) Z := o ← get; lift (py_getitem (_index_update_count (super o)) index).

(** ** [FTML] *)

Record ftml_attrs := mkFTML { ft_beta1 : F; ft_beta2 : F; ft_epsilon : F }.
Definition FTML_create_state (index : key) (weight : tensor F) (o : sub F S ftml_attrs) : ostate F :=
  let z := zeros weight "default" in STup [SArr z; SArr z; SArr z].

(** [FTMLKernel] *)
Definition ftml_kernel (b1 b2 eps bound r d rescale t w g d0 v z : F) : F * F * F * F * F :=
  (let gi := clip_pos bound (rescale * g + d * w) in
   let v := b2 * v + (1 - b2) * (gi * gi) in
   let dt := (1 - fpow b1 t) / r * (fsqrt (v / (1 - fpow b2 t)) + eps) in
   let z := b1 * z + (1 - b1) * gi - (dt - b1 * d0) * w in
   (fneg z / dt, g, dt, v, z))%F.

Definition FTML_update (index : key) (weight grad : tensor F) (state : ostate F) : M (sub F S ftml_attrs) out :=
  '(r, d) ← begin_update index;
  t ← count_of index;
  o ← get;
  match state with
  | STup [SArr prev_d; SArr prev_v; SArr prev_z] =>
      mret (kern3 (ftml_kernel (ft_beta1 (own o)) (ft_beta2 (own o)) (ft_epsilon (own o)) (kernel_clip (clip_gradient (super o)))
                     r d (rescale_grad (super o)) (fof t)) weight grad prev_d prev_v prev_z)
  | _ => raise TypeError
  end.

(** ** [Adam] *)

Record adam_attrs := mkAdam { beta1 : F; beta2 : F; epsilon : F; ad_lazy_update : bool }.
Definition Adam_create_state (index : key) (weight : tensor F) (o : sub F S adam_attrs) : ostate F :=
  let z := zeros weight (if ad_lazy_update (own o) then t_stype weight else "default"%string) in STup [SArr z; SArr z].

(** [AdamUpdate] *)
Definition adam_kernel (b1 b2 eps bound r d rescale w g m v : F) : F * F * F * F :=
  (let g := rescale * g + d * w in
   let m := b1 * m + (1 - b1) * clip_pos bound g in
   let v := b2 * v + (1 - b2) * (clip_pos bound g * clip_pos bound g) in
   (w - r * m / (fsqrt v + eps), g, m, v))%F.

(** The rate with the correction of the bias; [math.sqrt] raises on negative numbers, and
    the division on zero. *)
Definition adam_rate (a : adam_attrs) (r : F) (t : Z) : result F :=
  let coef1 := (1 - fpow (beta1 a) (fof t))%F in
  let coef2 := (1 - fpow (beta2 a) (fof t))%F in
  if fltb coef2 (fof 0) then Raise ValueError
  else q ← py_fdiv (fsqrt coef2) coef1; Ok (fmul r q).

Definition Adam_update (index : key) (weight grad : tensor F) (state : ostate F) : M (sub F S adam_attrs) out :=
  '(r, d) ← begin_update index;
  t ← count_of index;
  o ← get;
  r ← lift (adam_rate (own o) r t);
  match state with
  | STup [SArr mean; SArr var] =>
      mret (kern2 (adam_kernel (beta1 (own o)) (beta2 (own o)) (epsilon (own o)) (kernel_clip (clip_gradient (super o)))
                     r d (rescale_grad (super o))) weight grad mean var)
  | _ => raise TypeError
  end.

(** ** [AdaGrad] *)

Record adagrad_attrs := mkAdaGrad { float_stable_eps : F }.
Definition AdaGrad_create_state (index : key) (weight : tensor F) (o : sub F S adagrad_attrs) : ostate F :=
  SArr (zeros32 weight (t_stype weight)).

Definition adagrad_step (eps : F) (c : option F) (r d rescale w g h : F) : F * F * F :=
  (let g0 := g in
   let g := clip_opt c (g * rescale) in
   let h := h + g * g in
   let div := g / fsqrt (h + eps) in
   (w + (div + w * d) * fneg r, g0, h))%F.

(** The kernel on [row_sparse] gradients is a parameter. *)
Definition AdaGrad_update (sparse_adagrad : F -> F -> F -> F -> F -> tensor F -> tensor F -> tensor F -> tensor F * tensor F)
  (index : key) (weight grad : tensor F) (state : ostate F) : M (sub F S adagrad_attrs) out :=
  '(r, d) ← begin_update index;
  o ← get;
  match state with
  | SArr history =>
      if str_eqb (t_stype grad) "row_sparse" then
        let '(w, h) := sparse_adagrad (float_stable_eps (own o)) (kernel_clip (clip_gradient (super o))) r d
                         (rescale_grad (super o)) weight grad history in
        mret (w, grad, SArr h)
      else mret (kern1 (adagrad_step (float_stable_eps (own o)) (clip_gradient (super o)) r d (rescale_grad (super o)))
                   weight grad history)
  | _ => raise TypeError
  end.

(** ** [RMSProp] *)

Record rmsprop_attrs := mkRMSProp { gamma1 : F; gamma2 : F; rms_epsilon : F; centered : bool; clip_weights : option F }.
Definition RMSProp_create_state (index : key) (weight : tensor F) (o : sub F S rmsprop_attrs) : ostate F :=
  let z := zeros32 weight (t_stype weight) in if centered (own o) then STup [SArr z; SArr z; SArr z] else STup [SArr z].

(** [RMSPropUpdate] and [RMSPropAlexUpdate] *)
Definition rmsprop_kernel (g1 eps bound wbound r d rescale w g n : F) : F * F * F :=
  (let g := rescale * g + d * w in
   let gc := clip_pos bound g in
   let n := (if bound <? 0 then (1 - g1) * (gc * gc) else (1 - g1) * gc * gc) + g1 * n in
   (clip_pos wbound (w - r * (gc / fsqrt (n + eps))), g, n))%F.
Definition rmspropalex_kernel (g1 g2 eps bound wbound r d rescale w g n sg delta : F) : F * F * F * F * F :=
  (let g := rescale * g + d * w in
   let gc := clip_pos bound g in
   let n := (if bound <? 0 then (1 - g1) * (gc * gc) else (1 - g1) * gc * gc) + g1 * n in
   let sg := (1 - g1) * gc + g1 * sg in
   let delta := g2 * delta - r * (gc / fsqrt (n - sg * sg + eps)) in
   (clip_pos wbound (w + delta), g, n, sg, delta))%F.

Definition RMSProp_update (index : key) (weight grad : tensor F) (state : ostate F) : M (sub F S rmsprop_attrs) out :=
  '(r, d) ← begin_update index;
  o ← get;
  let bound := kernel_clip (clip_gradient (super o)) in
  let wbound := kernel_clip (clip_weights (own o)) in
  let rescale := rescale_grad (super o) in
  match centered (own o), state with
  | false, STup [SArr n] =>
      let '(w, g, s) := kern1 (rmsprop_kernel (gamma1 (own o)) (rms_epsilon (own o)) bound wbound r d rescale) weight grad n in
      mret (w, g, STup [s])
  | true, STup [SArr n; SArr g; SArr delta] =>
      mret (kern3 (rmspropalex_kernel (gamma1 (own o)) (gamma2 (own o)) (rms_epsilon (own o)) bound wbound r d rescale)
              weight grad n g delta)
  | _, _ => raise ValueError
  end.

(** ** [AdaDelta] *)

Record adadelta_attrs := mkAdaDelta { rho : F; dl_epsilon : F }.
Definition AdaDelta_create_state (index : key) (weight : tensor F) (o : sub F S adadelta_attrs) : ostate F :=
  let z := zeros32 weight "default" in STup [SArr z; SArr z].

Definition adadelta_step (ro eps : F) (c : option F) (d rescale w g acc_g acc_delta : F) : F * F * F * F :=
  (let g0 := g * rescale in
   let g := clip_opt c g0 in
   let acc_g := acc_g * ro in
   let acc_g := acc_g + (1 - ro) * g * g in
   let delta := fsqrt (acc_delta + eps) / fsqrt (acc_g + eps) * g in
   let acc_delta := acc_delta * ro in
   let acc_delta := acc_delta + (1 - ro) * delta * delta in
   (w - (delta + d * w), g0, acc_g, acc_delta))%F.

Definition AdaDelta_update (index : key) (weight grad : tensor F) (state : ostate F) : M (sub F S adadelta_attrs) out :=
  o ← get;
  let d := _get_wd index (super o) in
  _ ← on_super (modify (_update_count [index]));
  match state with
  | STup [SArr acc_g; SArr acc_delta] =>
      mret (kern2 (adadelta_step (rho (own o)) (dl_epsilon (own o)) (clip_gradient (super o)) d (rescale_grad (super o)))
              weight grad acc_g acc_delta)
  | _ => raise TypeError
  end.

(** ** [Ftrl] *)

Record ftrl_attrs := mkFtrl { lamda1 : F; ftrl_beta : F }.
Definition Ftrl_create_state (index : key) (weight : tensor F) (o : sub F S ftrl_attrs) : ostate F :=
  let z := zeros32 weight (t_stype weight) in STup [SArr z; SArr z].

(** [Ftrl.__init__]: the base class is initialized without the learning rate, so with its
    own default, and [lr] is assigned afterwards. *)
Definition Ftrl_init (float_of : string -> result F) (l1 rate beta rescale : F) (names : gmap key string) (wd0 : F) (c : option F)
  (scheduler : option S) : result (sub F S ftrl_attrs) :=
  o ← Optimizer_init float_of rescale names wd0 c (fdiv (fof 1) (fof 100)) scheduler None 0 false ∅;
  Ok (mkSub (put_rates rate (lr_scheduler o) o) (mkFtrl l1 beta)).

(** [FtrlUpdate] *)
Definition ftrl_kernel (l1 beta bound r d rescale w g z n : F) : F * F * F * F :=
  (let g := rescale * g in
   let gc := clip_pos bound g in
   let z := z + (gc - (fsqrt (n + gc * gc) - fsqrt n) * w / r) in
   let n := n + gc * gc in
   ((fsign z * l1 - z) / ((beta + fsqrt n) / r + d) * (if l1 <? fabs z then 1 else 0), g, z, n))%F.

Definition Ftrl_update (index : key) (weight grad : tensor F) (state : ostate F) : M (sub F S ftrl_attrs) out :=
  _ ← on_super (modify (_update_count [index]));
  o ← get;
  let d := _get_wd index (super o) in
  r ← on_super (_get_lr index);
  match state with
  | STup [SArr z; SArr n] =>
      mret (kern2 (ftrl_kernel (lamda1 (own o)) (ftrl_beta (own o)) (kernel_clip (clip_gradient (super o))) r d (rescale_grad (super o)))
              weight grad z n)
  | _ => raise TypeError
  end.

(** ** [Adamax] *)

Record adamax_attrs := mkAdamax { ax_beta1 : F; ax_beta2 : F }.
Definition Adamax_create_state (index : key) (weight : tensor F) (o : sub F S adamax_attrs) : ostate F :=
  let z := zeros weight "default" in STup [SArr z; SArr z].

Definition fmaximum (a b : F) : F := if fltb b a then a else b.
Definition adamax_step (b1 b2 : F) (c : option F) (r d rescale w g m u : F) : F * F * F * F :=
  (let g0 := g in
   let g := clip_opt c (g * rescale + d * w) in
   let m := m * b1 in
   let m := m + (1 - b1) * g in
   let u := fmaximum (b2 * u) (fabs g) in
   (w - r * m / u, g0, m, u))%F.

Definition Adamax_update (index : key) (weight grad : tensor F) (state : ostate F) : M (sub F S adamax_attrs) out :=
  '(r, d) ← begin_update index;
  t ← count_of index;
  o ← get;
  r ← lift (py_fdiv r (1 - fpow (ax_beta1 (own o)) (fof t))%F);
  match state with
  | STup [SArr m; SArr u] =>
      mret (kern2 (adamax_step (ax_beta1 (own o)) (ax_beta2 (own o)) (clip_gradient (super o)) r d (rescale_grad (super o)))
              weight grad m u)
  | _ => raise TypeError
  end.

(** ** [Nadam] *)

Record nadam_attrs := mkNadam { nd_beta1 : F; nd_beta2 : F; nd_epsilon : F; schedule_decay : F; m_schedule : F }.
Definition Nadam_create_state (index : key) (weight : tensor F) (o : sub F S nadam_attrs) : ostate F :=
  let z := zeros weight "default" in STup [SArr z; SArr z].

(** The momentum at step [t]. *)
Definition momentum_at (a : nadam_attrs) (t : Z) : F :=
  (nd_beta1 a * (1 - fof 1 / fof 2 * fpow (fof 96 / fof 100) (fof t * schedule_decay a)))%F.

Definition nadam_step (a : nadam_attrs) (c : option F) (mt mt1 sched next : F) (t : Z) (r d rescale w g m v : F) : F * F * F * F :=
  (let g0 := g in
   let g := clip_opt c (g * rescale + d * w) in
   let m := m * nd_beta1 a in
   let m := m + (1 - nd_beta1 a) * g in
   let v := v * nd_beta2 a in
   let v := v + (1 - nd_beta2 a) * g * g in
   let grad_prime := g / (1 - sched) in
   let m_t_prime := m / (1 - next) in
   let v_t_prime := v / (1 - fpow (nd_beta2 a) (fof t)) in
   let m_t_bar := (1 - mt) * grad_prime + mt1 * m_t_prime in
   (w - r * m_t_bar / (fsqrt v_t_prime + nd_epsilon a), g0, m, v))%F.

Definition Nadam_update (index : key) (weight grad : tensor F) (state : ostate F) : M (sub F S nadam_attrs) out :=
  '(r, d) ← begin_update index;
  t ← count_of index;
  o ← get;
  let a := own o in
  let momentum_t := momentum_at a t in
  let momentum_t_1 := momentum_at a (t + 1) in
  let sched := fmul (m_schedule a) momentum_t in
  _ ← put (mkSub (super o) (mkNadam (nd_beta1 a) (nd_beta2 a) (nd_epsilon a) (schedule_decay a) sched));
  match state with
  | STup [SArr m; SArr v] =>
      mret (kern2 (nadam_step a (clip_gradient (super o)) momentum_t momentum_t_1 sched (fmul sched momentum_t_1) t r d
                     (rescale_grad (super o))) weight grad m v)
  | _ => raise TypeError
  end.

(** ** [Test] *)

Definition Test_create_state (index : key) (weight : tensor F) (o : sub F S unit) : ostate F := SArr (zeros32 weight "default").
Definition Test_update (index : key) (weight grad : tensor F) (state : ostate F) : M (sub F S unit) out :=
  o ← get;
  match state with
  | SArr s => let w := ew (fun w g => (w + g * rescale_grad (super o))%F) weight grad in
              mret (w, grad, SArr (with_data (t_data w) s))
  | _ => raise TypeError
  end.
End Adaptive.

(** ** What the rules do to more than the weight *)

Section Surprises.
Context {F S : Type} `{Float F} `{FloatMath F} `{Scheduler F S}.

Lemma kern2_gradient (f : F -> F -> F -> F -> F * F * F * F) (h : F -> F) (w g a b : tensor F) :
  (forall x y u v, (f x y u v).1.1.2 = h y) ->
  length (t_data g) = length (t_data w) -> length (t_data a) = length (t_data w) -> length (t_data b) = length (t_data w) ->
  (kern2 f w g a b).1.2 = with_data (map h (t_data g)) g.
Proof.
  intros Hf Hg Ha Hb. unfold kern2. cbn. f_equal. revert Hg Ha Hb. generalize (t_data w) (t_data g) (t_data a) (t_data b).
  intros lw. induction lw as [|x lw IH]; intros [|y lg] [|u la] [|v lb]; try done. cbn. intros [= ?] [= ?] [= ?].
  rewrite Hf. f_equal. by apply IH.
Qed.

(** [AdaDelta] multiplies the caller's gradient by [rescale_grad], so a gradient that is
    kept for another update is rescaled again. *)
Lemma adadelta_rescales_gradient i (w g a b : tensor F) (o : sub F S adadelta_attrs) :
  length (t_data g) = length (t_data w) -> length (t_data a) = length (t_data w) -> length (t_data b) = length (t_data w) ->
  exists w' s o', AdaDelta_update i w g (STup [SArr a; SArr b]) o =
    (Ok (w', with_data (map (fun x => fmul x (rescale_grad (super o))) (t_data g)) g, s), o').
Proof.
  intros Hg Ha Hb. unfold AdaDelta_update. rewrite bind_M. cbn [get]. rewrite bind_M. cbn [on_super modify].
  match goal with |- context [kern2 ?f w g a b] =>
    pose proof (kern2_gradient f (fun x => fmul x (rescale_grad (super o))) w g a b ltac:(done) Hg Ha Hb) as Hk;
    destruct (kern2 f w g a b) as [[w' g'] s'] end.
  cbn in Hk. subst g'. by eexists _, _, _.
Qed.

(** [Nadam] keeps one momentum schedule for all weights: the first updates of two weights
    multiply it by the momentum of step 1 twice. *)
Lemma nadam_schedule_shared i j (w g a b w' g' a' b' : tensor F) (o : sub F S nadam_attrs) :
  i <> j -> lr_scheduler (super o) = None -> _index_update_count (super o) = ∅ -> begin_num_update (super o) = 0 ->
  let o1 := (Nadam_update i w g (STup [SArr a; SArr b]) o).2 in
  let o2 := (Nadam_update j w' g' (STup [SArr a'; SArr b']) o1).2 in
  m_schedule (own o2) = fmul (fmul (m_schedule (own o)) (momentum_at (own o) 1)) (momentum_at (own o) 1).
Proof.
  assert (forall k w g a b (o : sub F S nadam_attrs), lr_scheduler (super o) = None ->
    default (begin_num_update (super o)) (_index_update_count (super o) !! k) = 0 ->
    (Nadam_update k w g (STup [SArr a; SArr b]) o).2 =
      mkSub (_update_count [k] (super o)) (mkNadam (nd_beta1 (own o)) (nd_beta2 (own o)) (nd_epsilon (own o)) (schedule_decay (own o))
        (fmul (m_schedule (own o)) (momentum_at (own o) 1)))) as Hstep.
  { clear. intros k w g a b o Hs Hc. unfold Nadam_update. rewrite bind_M, begin_update_ok by done. cbv beta iota.
    rewrite bind_M. unfold count_of. rewrite bind_M. cbn [get lift super own].
    assert (py_getitem (_index_update_count (_update_count [k] (super o))) k = Ok 1) as ->.
    { cbn. unfold py_getitem. rewrite lookup_insert_eq, Hc. done. }
    cbv beta iota. rewrite bind_M. cbn [get super own]. rewrite bind_M. cbn [put]. done. }
  intros Hne Hs Hc Hb. cbv zeta. rewrite (Hstep j), (Hstep i); [done|done|by rewrite Hc, Hb|..]; rewrite ?(Hstep i); cbn; try done;
    try (by rewrite Hc, Hb). rewrite lookup_insert_ne, Hc by done. cbn. done.
Qed.

(** [Ftrl] gives its scheduler the default learning rate of the base class instead of its
    own. *)
Lemma ftrl_scheduler_rate float_of l1 rate beta rescale names wd0 c s (o : sub F S ftrl_attrs) :
  Ftrl_init float_of l1 rate beta rescale names wd0 c (Some s) = Ok o ->
  lr (super o) = rate /\ lr_scheduler (super o) = Some (sched_set_base (fdiv (fof 1) (fof 100)) s).
Proof. unfold Ftrl_init, Optimizer_init. cbn. intros [= <-]. done. Qed.
End Surprises.
