(* ===== verification/OptReal.v ===== *)
(** * The optimization rules in exact arithmetic

    The rules of [SGD] and [Adaptive] with the real numbers for the numbers of the arrays:
    what the formulas compute when rounding is left aside. *)

From Stdlib Require Import Reals Lra.
From S2P Require Import Prelude NDArray LRScheduler Optimizer SGD Adaptive.
Open Scope R_scope.

#[export] Instance R_Float : Float R := {
  fadd := Rplus;
  fsub := Rminus;
  fmul := Rmult;
  fdiv := Rdiv;
  fof := IZR;
  fltb a b := if Rlt_dec a b then true else false;
  fzero a := if Req_dec_T a 0 then true else false;
  fpow a b := if Rlt_dec 0 a then Rpower a b else if Req_dec_T b 0 then 1 else 0;
  fcos := cos;
  fpi := PI;
}.
#[export] Instance R_FloatMath : FloatMath R := { fneg := Ropp; fsqrt := sqrt; fabs := Rabs }.

(** The operations of the class are those of the real numbers. *)
Ltac to_R := cbn [fadd fsub fmul fdiv fof fneg fsqrt fabs R_Float R_FloatMath] in *.

Lemma fltb_spec (a b : R) : fltb a b = true <-> a < b.
Proof. cbn. destruct (Rlt_dec a b); split; intros; try done; lra. Qed.
Lemma fltb_false (a b : R) : fltb a b = false <-> b <= a.
Proof. cbn. destruct (Rlt_dec a b); split; intros; try done; lra. Qed.

(** Case analysis on a comparison. *)
Ltac fcase :=
  match goal with
  | |- context [fltb ?a ?b] =>
      let E := fresh "E" in destruct (fltb a b) eqn:E; [apply fltb_spec in E|apply fltb_false in E]
  end.

(** ** Clipping *)

Lemma clip_range (c x : R) : 0 <= c -> - c <= clip c x <= c.
Proof. intros Hc. unfold clip, clip_between. repeat fcase; to_R; lra. Qed.

Lemma clip_small (c x : R) : - c <= x <= c -> clip c x = x.
Proof. intros Hc. unfold clip, clip_between. repeat fcase; to_R; lra. Qed.

Lemma fsign_range (x : R) : -1 <= fsign x <= 1.
Proof. unfold fsign. repeat fcase; to_R; lra. Qed.

(** ** Large-batch multipliers *)

(** The multiplier of the learning rate for large batches stays between 1 and the
    batch scale, for every warm-up strategy and any number of accumulated updates; the
    multiplier of the [lars] strategy stays between 1/100 and 100. *)
Theorem large_batch_multipliers (a : lbsgd_attrs (F := R)) (nup : Z) (w g : list R) (d : R) :
  (1 <= batch_scale a)%Z -> (0 <= nup)%Z ->
  1 <= _get_lbmult nup a <= IZR (batch_scale a) /\ 1 / 100 <= _get_lars w g d <= 100.
Proof.
  intros Hb Hn. split.
  - unfold _get_lbmult. set (nw := (warmup_epochs a * updates_per_epoch a)%Z). apply IZR_le in Hb.
    destruct (Z.leb_spec nw nup); [to_R; lra|]. destruct (Z.leb_spec nw 1); [to_R; lra|].
    assert (0 <= IZR nup) as Hn' by (by apply IZR_le). assert (IZR nup < IZR nw) as Hlt by (by apply IZR_lt).
    assert (forall q, 0 <= q <= 1 -> 1 <= 1 + (IZR (batch_scale a) - 1) * q <= IZR (batch_scale a)) as Hq by (intros; nra).
    assert (0 <= IZR nup / IZR nw <= 1) as Hr.
    { split; [apply Rle_mult_inv_pos; lra|]. apply (Rmult_le_reg_r (IZR nw)); [lra|]. field_simplify; lra. }
    repeat destruct (str_eqb _ _); to_R; unfold Rdiv; rewrite ?Rmult_assoc; try lra.
    + apply Hq, Hr.
    + apply Hq. rewrite !mult_IZR, Rinv_mult. replace (IZR nup * IZR nup * (/ IZR nw * / IZR nw)) with ((IZR nup / IZR nw) * (IZR nup / IZR nw)) by (unfold Rdiv; ring).
      nra.
    + apply Hq. split; [apply sqrt_pos|]. rewrite <- sqrt_1. apply sqrt_le_1; [apply Hr|lra|apply Hr].
  - unfold _get_lars. repeat fcase; to_R; lra.
Qed.

(** ** Bounded steps *)

(** A step by a sign. *)
Lemma sign_step (r w x : R) : 0 <= r -> Rabs (w + r * fsign x - w) <= r.
Proof.
  intros Hr. pose proof (fsign_range x) as Hs. replace (w + r * fsign x - w) with (r * fsign x) by ring.
  rewrite Rabs_mult, (Rabs_pos_eq r) by done. assert (Rabs (fsign x) <= 1) by (apply Rabs_le; lra).
  pose proof (Rabs_pos (fsign x)). nra.
Qed.

(** The history of [AdaGrad] includes the gradient of the step. *)
Lemma adagrad_ratio (h x eps : R) : 0 <= h -> 0 < eps -> Rabs (x / sqrt (h + x * x + eps)) <= 1.
Proof.
  intros Hh He. assert (0 < h + x * x + eps) as Hp by nra. assert (0 < sqrt (h + x * x + eps)) as Hs by (by apply sqrt_lt_R0).
  unfold Rdiv. rewrite Rabs_mult, (Rabs_pos_eq (/ _)) by (left; by apply Rinv_0_lt_compat).
  apply (Rmult_le_reg_r (sqrt (h + x * x + eps))); [done|]. rewrite Rmult_assoc, Rinv_l, Rmult_1_r, Rmult_1_l by lra.
  rewrite <- sqrt_Rsqr_abs. apply sqrt_le_1; unfold Rsqr; nra.
Qed.

(** Momentum stays in the interval that the geometric series gives. *)
Lemma momentum_range (mu m x y : R) : 0 <= mu < 1 -> Rabs m <= x / (1 - mu) -> - x <= y <= x -> Rabs (mu * m - y) <= x / (1 - mu).
Proof.
  intros Hmu Hm Hy. pose proof (Rle_abs m). pose proof (Rle_abs (- m)) as Hn. rewrite Rabs_Ropp in Hn. set (B := x / (1 - mu)) in *.
  assert (x = B * (1 - mu)) as Ex by (unfold B; field; lra). apply Rabs_le. split; nra.
Qed.

(** C36: in exact arithmetic, one update moves a weight by at most the learning rate under [AdaGrad] without
    weight decay (whatever the history of gradients, which never decreases), under [Signum] with momentum
    without [wd_lh] (whatever the decay and the clipping) and under [Signum] without momentum and weight decay;
    by at most the learning rate times the bound under [SGD] without momentum and weight decay when gradients are clipped;
    and by at most that divided by [1 - momentum] under [SGD] with momentum, clipped gradients and no weight
    decay, as long as the state is in that range, in which it stays. *)
Theorem bounded_steps (r w g h eps bound sb rescale mu d m : R) (c : option R) :
  0 <= r -> 0 <= h -> 0 < eps -> 0 <= bound -> 0 <= mu < 1 ->
  (let '(w', _, h') := adagrad_step eps c r 0 rescale w g h in Rabs (w' - w) <= r /\ h <= h') /\
  Rabs ((signum_kernel mu sb r d rescale 0 w g m).1 - w) <= r /\
  Rabs (signsgd_kernel r 0 w g - w) <= r /\
  Rabs (sgd_kernel bound r 0 rescale w g - w) <= r * bound /\
  (Rabs m <= r * bound / (1 - mu) ->
   let '(w', m') := sgd_mom_kernel mu bound r 0 rescale w g m in
   Rabs (w' - w) <= r * bound / (1 - mu) /\ Rabs m' <= r * bound / (1 - mu)).
Proof.
  intros Hr Hh He Hb Hmu. assert (fltb bound (fof 0%Z) = false) as Hp by (apply fltb_false; to_R; lra).
  pose proof (clip_range bound (rescale * g) Hb) as Hc. split_and!.
  - unfold adagrad_step. to_R. set (x := clip_opt c (g * rescale)). split; [|nra].
    replace (w + (x / sqrt (h + x * x + eps) + w * 0) * - r - w) with (- (r * (x / sqrt (h + x * x + eps)))) by ring.
    rewrite Rabs_Ropp, Rabs_mult, (Rabs_pos_eq r) by done. pose proof (adagrad_ratio h x eps Hh He).
    pose proof (Rabs_pos (x / sqrt (h + x * x + eps))). nra.
  - unfold signum_kernel. to_R. cbn [fst]. match goal with |- context [fsign ?x] => set (y := x) end.
    replace ((1 - r * 0) * w) with w by ring. by apply sign_step.
  - unfold signsgd_kernel. to_R. pose proof (sign_step r w g Hr) as Hs. rewrite <- Rabs_Ropp.
    replace (- ((1 - r * 0) * w - r * fsign g - w)) with (w + r * fsign g - w) by ring. done.
  - unfold sgd_kernel. rewrite Hp. to_R. set (x := clip bound (rescale * g)) in *.
    replace ((1 - r * 0) * w - r * x - w) with (- (r * x)) by ring. rewrite Rabs_Ropp, Rabs_mult, (Rabs_pos_eq r) by done.
    apply Rmult_le_compat_l; [done|]. apply Rabs_le. lra.
  - intros Hm. unfold sgd_mom_kernel. rewrite Hp. to_R. set (x := clip bound (rescale * g)) in *.
    pose proof (momentum_range mu m (r * bound) (r * x) Hmu Hm ltac:(split; nra)) as Hm'.
    replace (mu * m - r * 0 * w - r * x) with (mu * m - r * x) by ring.
    split; [|done]. by replace (w + (mu * m - r * x) - w) with (mu * m - r * x) by ring.
Qed.

(** ** The documented rule of [SGD] *)

(** The rule in the documentation of the class, without clipping. *)
Definition documented_sgd (mu r d rescale : R) (ws : R * R) (g : R) : R * R :=
  let rescaled_grad := r * (rescale * g + d * ws.1) in
  let state := mu * ws.2 + rescaled_grad in
  (ws.1 - state, state).

(** Over any sequence of gradients the kernel with momentum computes the weights of the
    documented rule, and keeps its state with the opposite sign; the kernel of aggregated
    updates without momentum agrees with the one for single updates, with and without
    clipping. *)
Theorem sgd_documented (mu r d rescale w s : R) (gs : list R) :
  fold_left (fun wm g => sgd_mom_kernel mu (-1) r d rescale wm.1 g wm.2) gs (w, - s) =
    (let '(w', s') := fold_left (documented_sgd mu r d rescale) gs (w, s) in (w', - s')) /\
  (forall bound g, multi_sgd_kernel bound r d rescale w g = sgd_kernel bound r d rescale w g).
Proof.
  split.
  - revert w s. induction gs as [|g gs IH]; intros w s; [done|]. cbn [fold_left]. unfold documented_sgd at 2. cbn [fst snd].
    rewrite <- IH. f_equal. unfold sgd_mom_kernel. cbn [fst snd].
    assert (fltb (-1) (fof 0%Z) = true) as -> by (apply fltb_spec; to_R; lra). to_R. f_equal; ring.
  - intros bound g. unfold multi_sgd_kernel, sgd_mom_kernel, sgd_kernel. fcase; to_R; cbn [fst]; ring.
Qed.

(** ** The bias correction of [Adam] *)

(** [n] updates of a weight with the same gradient, from fresh moments. *)
Fixpoint adam_run (a : adam_attrs (F := R)) (r g w : R) (n : nat) : result (R * R * R) :=
  match n with
  | O => Ok (w, 0, 0)
  | S n =>
      '(w, m, v) ← adam_run a r g w n;
      r ← adam_rate a r (Z.of_nat (S n));
      let '(w, _, m, v) := adam_kernel (beta1 a) (beta2 a) (epsilon a) (-1) r 0 1 w g m v in
      Ok (w, m, v)
  end.

Lemma fpow_nat (b : R) n : 0 < b -> fpow b (fof (Z.of_nat n)) = b ^ n.
Proof. intros Hb. cbn. destruct (Rlt_dec 0 b); [|lra]. by rewrite <- INR_IZR_INZ, Rpower_pow. Qed.

Lemma pow_lt_one (b : R) n : 0 < b < 1 -> 0 < b ^ S n < 1.
Proof.
  intros Hb. split; [apply pow_lt; lra|]. apply pow_lt_1_compat; [lra|lia].
Qed.

(** Under a constant gradient [g] the moments after [n] updates are [(1 - beta1^n) g]
    and [(1 - beta2^n) g^2], no division by zero occurs, and the corrected step is
    [lr g / (|g| + epsilon / sqrt (1 - beta2^n))]: the bias of the moments cancels (the
    documentation of the class has the two decay rates exchanged). *)
Theorem adam_bias_correction (a : adam_attrs (F := R)) (r g w : R) (n : nat) :
  0 < beta1 a < 1 -> 0 < beta2 a < 1 -> 0 < epsilon a ->
  exists w0 w1, 
    adam_run a r g w n = Ok (w0, (1 - beta1 a ^ n) * g, (1 - beta2 a ^ n) * (g * g)) /\
    adam_run a r g w (S n) = Ok (w1, (1 - beta1 a ^ S n) * g, (1 - beta2 a ^ S n) * (g * g)) /\
    w1 = w0 - r * (g / (Rabs g + epsilon a / sqrt (1 - beta2 a ^ S n))).
Proof.
  intros H1 H2 He.
  assert (forall n w0, adam_run a r g w n = Ok (w0, (1 - beta1 a ^ n) * g, (1 - beta2 a ^ n) * (g * g)) ->
    exists w1, adam_run a r g w (S n) = Ok (w1, (1 - beta1 a ^ S n) * g, (1 - beta2 a ^ S n) * (g * g)) /\
      w1 = w0 - r * (g / (Rabs g + epsilon a / sqrt (1 - beta2 a ^ S n)))) as Hstep.
  { clear n. intros n w0 E. cbn [adam_run]. rewrite E. cbn [mbind result_bind].
    pose proof (pow_lt_one _ n H1) as Hp1. pose proof (pow_lt_one _ n H2) as Hp2.
    unfold adam_rate. rewrite !fpow_nat by lra.
    assert (fltb (fsub (fof 1%Z) (beta2 a ^ S n)) (fof 0%Z) = false) as -> by (apply fltb_false; to_R; lra).
    unfold py_fdiv. assert (fzero (fsub (fof 1%Z) (beta1 a ^ S n)) = false) as -> by (cbn [fzero R_Float]; to_R; destruct (Req_dec_T _ _); [lra|done]).
    cbn [mbind result_bind]. unfold adam_kernel, clip_pos. assert (fltb (-1) (fof 0%Z) = true) as -> by (apply fltb_spec; to_R; lra).
    to_R. eexists. split; [f_equal; f_equal; [f_equal|]|].
    - rewrite <- (tech_pow_Rmult (beta1 a) n). ring.
    - rewrite <- (tech_pow_Rmult (beta2 a) n). ring.
    - set (c1 := 1 - beta1 a ^ S n). set (c2 := 1 - beta2 a ^ S n) in *.
      assert (beta1 a * ((1 - beta1 a ^ n) * g) + (1 - beta1 a) * (1 * g + 0 * w0) = c1 * g) as -> by (subst c1; rewrite <- (tech_pow_Rmult (beta1 a) n); ring).
      assert (beta2 a * ((1 - beta2 a ^ n) * (g * g)) + (1 - beta2 a) * ((1 * g + 0 * w0) * (1 * g + 0 * w0)) = c2 * Rsqr g) as ->
        by (subst c2; unfold Rsqr; rewrite <- (tech_pow_Rmult (beta2 a) n); ring).
      assert (0 < c2) as Hc2 by (subst c2; lra). assert (0 < c1) as Hc1 by (subst c1; lra).
      rewrite sqrt_mult_alt, sqrt_Rsqr_abs by lra. assert (0 < sqrt c2) as Hs by (by apply sqrt_lt_R0).
      pose proof (Rabs_pos g). assert (0 < epsilon a / sqrt c2) as Hq by (by apply Rdiv_lt_0_compat).
      field. split_and!; nra. }
  assert (exists w0, adam_run a r g w n = Ok (w0, (1 - beta1 a ^ n) * g, (1 - beta2 a ^ n) * (g * g))) as [w0 E].
  { induction n as [|n [w0 E]]; [exists w; cbn; f_equal; f_equal; [f_equal|]; ring|]. destruct (Hstep n w0 E) as (w1 & E1 & _). by exists w1. }
  destruct (Hstep n w0 E) as (w1 & E1 & Hw). by exists w0, w1.
Qed.

(** ** Large batches *)

Section LargeBatches.
Context {S : Type} `{Scheduler R S} (cast : string -> R -> R) (i : key).
Notation LBSGD := (sub R S (lbsgd_attrs (F := R))).

(** The gradient accumulated so far, if any, and the number of accumulations. *)
Definition pending (o : LBSGD) (acc : option (list R)) (m : Z) : Prop :=
  match acc with
  | None => (m = 0%Z /\ cumgrads (own o) !! i = None) \/ ((0 < m)%Z /\ cumgrads (own o) !! i = Some (CumZero, m))
  | Some l => (0 < m)%Z /\ cumgrads (own o) !! i = Some (CumArr l, m)
  end.

Definition accumulate (acc : option (list R)) (g : list R) : list R :=
  match acc with None => g | Some l => zip_with Rplus l g end.

Lemma cumulate_spec (o : LBSGD) acc m g : init_updates (own o) = 0%Z -> pending o acc m ->
  _cumulate_gradient g i o =
    (accumulate acc g, (m + 1)%Z, put_cumgrads (<[i := (CumArr (accumulate acc g), (m + 1)%Z)]> (cumgrads (own o))) o).
Proof.
  intros Hi Hp. unfold _cumulate_gradient. destruct acc as [l|]; cbn [pending accumulate] in *.
  - destruct Hp as [Hm ->]. by rewrite (proj2 (Z.ltb_lt 0 m)) by lia.
  - destruct Hp as [[-> ->]|[Hm ->]]; [by rewrite Hi|]. rewrite (proj2 (Z.ltb_lt 0 m)) by lia.
    assert (map (fun x => fadd x (fof 0%Z)) g = g) as ->; [|done].
    rewrite <- (map_id g) at 2. apply map_ext. intros x. to_R. ring.
Qed.

(** Two optimizers that differ in their counts and gradients only. *)
Definition same_settings (o o' : LBSGD) : Prop :=
  (exists n c, super o' = put_counts n c (super o)) /\ exists c, own o' = own (put_cumgrads c o).

Lemma same_settings_refl (o : LBSGD) : same_settings o o.
Proof.
  split; [exists (num_update (super o)), (_index_update_count (super o)); by destruct o as [[] ?]|].
  exists (cumgrads (own o)). by destruct o as [? []].
Qed.

(** An update with a rate of zero. *)
Lemma zero_rate_update (d : R) (w g : tensor R) : length (t_data g) = length (t_data w) ->
  ew (sgd_kernel (fneg (fof 1%Z)) (fof 0%Z) d (fof 1%Z)) w g = w.
Proof.
  intros Hl. unfold ew. destruct w as [c t st l]. unfold with_data. cbn in *. f_equal. revert Hl. generalize (t_data g).
  induction l as [|x l IH]; intros [|y k] Hl; try done. cbn. f_equal; [|by apply IH; injection Hl].
  unfold sgd_kernel. fcase; to_R; [|lra]. ring.
Qed.

Section Batch.
Context (o0 : LBSGD) (w : tensor R) (s : ostate R).
Hypothesis no_sched : lr_scheduler (super o0) = None.
Hypothesis from_zero : init_updates (own o0) = 0%Z.
Hypothesis scale_pos : (1 <= batch_scale (own o0))%Z.
Notation n := (batch_scale (own o0)).

Definition lb_decay : R := _get_wd i (super o0).
Definition lb_rate : R := scale_by pm_lr (lr_mult (super o0)) (super o0) i (lr (super o0)).

(** The regular update with the average of an accumulated gradient. *)
Definition batch_update (sum : list R) (count : Z) (g : tensor R) : result (tensor R * ostate R) :=
  let avg := map (fun x => x / IZR n) sum in
  let mult := if str_eqb (warmup_strategy (own o0)) "lars" then _get_lars (t_data w) avg lb_decay else _get_lbmult count (own o0) in
  lbsgd_regular cast o0 (lb_rate * mult) lb_decay w (with_data avg g) s.

Lemma lbsgd_update_spec o acc m g : same_settings o0 o -> pending o acc m -> length (t_data g) = length (t_data w) ->
  if ((m + 1) mod n =? 0)%Z then
    forall w' s', batch_update (accumulate acc (t_data g)) (m + 1)%Z g = Ok (w', s') ->
      exists o', LBSGD_update cast i w g s o = (Ok (w', g, s'), o') /\ same_settings o0 o' /\ pending o' None (m + 1)%Z
  else exists o', LBSGD_update cast i w g s o = (Ok (w, g, s), o') /\ same_settings o0 o' /\
         pending o' (Some (accumulate acc (t_data g))) (m + 1)%Z.
Proof.
  intros [(k & c & Es) (cg & Eo)] Hp Hl. assert (0 <= m)%Z as Hm by (destruct acc; cbn in Hp; lia).
  rewrite LBSGD_update_unfold by (by rewrite Es). cbv zeta.
  assert (scale_by pm_lr (lr_mult (super o)) (super o) i (lr (super o)) = lb_rate) as -> by (unfold lb_rate; by rewrite Es).
  assert (_get_wd i (super o) = lb_decay) as -> by (unfold lb_decay; by rewrite Es).
  set (o1 := mkSub (_update_count [i] (super o)) (own o)).
  rewrite (cumulate_spec o1 acc m) by (done || (cbn; by rewrite Eo)).
  set (o2 := put_cumgrads _ o1).
  assert (same_settings o0 o2) as Hs2.
  { split; [|by exists (cumgrads (own o2)); subst o2 o1; cbn; rewrite Eo]. change (super o2) with (_update_count [i] (super o)).
    rewrite update_count_same, Es. by eexists _, _. }
  assert (own o2 = own (put_cumgrads (cumgrads (own o2)) o0)) as Eown by (subst o2 o1; cbn; by rewrite Eo).
  assert (batch_scale (own o2) = n) as -> by (by rewrite Eown).
  rewrite (proj2 (Z.eqb_neq n 0)) by lia.
  assert (cumgrads (own o2) !! i = Some (CumArr (accumulate acc (t_data g)), (m + 1)%Z)) as Hcg by apply lookup_insert_eq.
  destruct (Z.eqb_spec ((m + 1) mod n) 0) as [E|E].
  - intros w' s' Hb. unfold batch_update in Hb.
    assert (warmup_strategy (own o2) = warmup_strategy (own o0)) as -> by (by rewrite Eown).
    assert (_get_lbmult (m + 1) (own o2) = _get_lbmult (m + 1) (own o0)) as -> by (by rewrite Eown).
    assert (forall r d ww g s, lbsgd_regular cast o2 r d ww g s = lbsgd_regular cast o0 r d ww g s) as ->.
    { intros. unfold lbsgd_regular. rewrite Eown. destruct Hs2 as [(k2 & c2 & ->) _]. done. }
    to_R. rewrite Hb. eexists. split; [done|]. unfold _reset_cum_gradient. rewrite Hcg. split.
    + destruct Hs2 as [Hsup (c2 & E2)]. split; [exact Hsup|]. eexists. unfold put_cumgrads. cbn [own]. by rewrite E2.
    + right. split; [lia|]. cbn. apply lookup_insert_eq.
  - exists o2. split; [by rewrite zero_rate_update|]. split; [done|]. by split; [lia|].
Qed.

(** Large-batch gradient descent: from a state between two batches, the next
    [batch_scale] updates of a weight leave it alone except the last, which makes one
    regular update with the average of their gradients and the rate of the warm-up, and
    ends between two batches again. *)
Theorem large_batch_averages o m gs g w' s' :
  same_settings o0 o -> pending o None m -> (m mod n = 0)%Z ->
  Z.of_nat (length (gs ++ [g])) = n -> Forall (fun g => length (t_data g) = length (t_data w)) (gs ++ [g]) ->
  let sum := match gs ++ [g] with [] => [] | g1 :: rest => fold_left (fun acc g => zip_with Rplus acc (t_data g)) rest (t_data g1) end in
  batch_update sum (m + n)%Z g = Ok (w', s') ->
  exists o', updates (LBSGD_update cast i) (gs ++ [g]) w s o = (Ok (w', s'), o') /\ same_settings o0 o' /\ pending o' None (m + n)%Z.
Proof.
  intros Hs Hp Hm Hlen Hl sum Hb.
  assert (forall gs acc k o, same_settings o0 o -> pending o acc k -> (0 <= k)%Z -> ((k + Z.of_nat (length (gs ++ [g]))) mod n = 0)%Z ->
    (Z.of_nat (length (gs ++ [g])) <= n)%Z -> Forall (fun g => length (t_data g) = length (t_data w)) (gs ++ [g]) ->
    (match acc, gs ++ [g] with
     | None, [] => [] | Some l, rest => fold_left (fun acc g => zip_with Rplus acc (t_data g)) rest l
     | None, g1 :: rest => fold_left (fun acc g => zip_with Rplus acc (t_data g)) rest (t_data g1) end) = sum ->
    (k + Z.of_nat (length (gs ++ [g])) = m + n)%Z ->
    exists o', updates (LBSGD_update cast i) (gs ++ [g]) w s o = (Ok (w', s'), o') /\ same_settings o0 o' /\ pending o' None (m + n)%Z) as Hgen.
  { clearbody sum. clear gs Hlen Hl o Hs Hp. induction gs as [|x gs IH]; intros acc k o Hs Hp Hk Hmod Hle Hl Hsum Hend.
    - cbn [app] in *. apply Forall_cons in Hl as [Hl _]. cbn in Hmod, Hend, Hle. pose proof (lbsgd_update_spec o acc k g Hs Hp Hl) as Hu.
      assert (k + 1 = m + n)%Z as Ek by lia. rewrite Ek in Hu.
      rewrite (proj2 (Z.eqb_eq ((m + n) mod n) 0)) in Hu by (rewrite <- Hmod; f_equal; lia).
      destruct (Hu w' s') as (o' & E & Hs' & Hp'); [rewrite <- Hb; f_equal; by destruct acc|].
      exists o'. cbn. rewrite bind_M, E. done.
    - cbn [app length] in *. apply Forall_cons in Hl as [Hx Hl]. pose proof (lbsgd_update_spec o acc k x Hs Hp Hx) as Hu.
      rewrite length_app in *. cbn [length] in *.
      assert ((k + 1) mod n <> 0)%Z as Hne.
      { intros Hz. apply Z.mod_divide in Hz as [q Hq]; [|lia]. apply Z.mod_divide in Hmod as [q' Hq']; [|lia]. assert ((q' - q) * n = Z.of_nat (length gs) + 1)%Z as Hd by lia. destruct (Z.le_gt_cases q' q); nia. }
      rewrite (proj2 (Z.eqb_neq _ _)) in Hu by done. destruct Hu as (o' & E & Hs' & Hp').
      destruct (IH (Some (accumulate acc (t_data x))) (k + 1)%Z o' Hs' Hp') as (o'' & E' & Hfin); [lia| |lia|done| |lia|].
      + rewrite <- Hmod. f_equal. lia.
      + rewrite <- Hsum. by destruct acc.
      + exists o''. cbn. rewrite bind_M, E. done. }
  destruct (Z.eq_dec n 0) as [|]; [lia|]. apply (Hgen gs None m o); try done.
  - destruct Hp as [[-> _]|[? _]]; lia.
  - rewrite Hlen. rewrite <- Z.add_mod_idemp_l, Hm by lia. by rewrite Z.add_0_l, Z.mod_same by lia.
  - lia.
  - lia.
Qed.
End Batch.
End LargeBatches.

(** ** Witnesses *)

Definition linear_warmup : lbsgd_attrs (F := R) := mkLBSGD 0 "linear" 5 2 32 0 ∅.

Lemma large_batch_multipliers_witness :
  1 <= _get_lbmult 80 linear_warmup <= 2 /\ 1 / 100 <= _get_lars [1; 2] [0; 0] 0 <= 100.
Proof. apply (large_batch_multipliers linear_warmup 80 [1; 2] [0; 0] 0); cbn; lia. Defined.

Lemma bounded_steps_witness :
  (let '(w', _, h') := adagrad_step (1 / 10000000) (Some 2) (1 / 10) 0 1 5 300 4 in Rabs (w' - 5) <= 1 / 10 /\ 4 <= h') /\
  Rabs ((signum_kernel (9 / 10) (-1) (1 / 10) (1 / 100) 1 0 5 300 (1 / 2)).1 - 5) <= 1 / 10 /\
  Rabs (signsgd_kernel (1 / 10) 0 5 300 - 5) <= 1 / 10 /\
  Rabs (sgd_kernel 2 (1 / 10) 0 1 5 300 - 5) <= 1 / 10 * 2 /\
  (let '(w', m') := sgd_mom_kernel (9 / 10) 2 (1 / 10) 0 1 5 300 (1 / 2) in Rabs (w' - 5) <= 2 /\ Rabs m' <= 2).
Proof.
  destruct (bounded_steps (1 / 10) 5 300 4 (1 / 10000000) 2 (-1) 1 (9 / 10) (1 / 100) (1 / 2) (Some 2)) as (H1 & H2 & H3 & H4 & H5); [lra..|].
  split; [exact H1|]. split; [exact H2|]. split; [exact H3|]. split; [exact H4|].
  assert (1 / 10 * 2 / (1 - 9 / 10) = 2) as E by field. rewrite E in H5. apply H5. rewrite Rabs_pos_eq by lra. lra.
Defined.

Definition default_adam : adam_attrs (F := R) := mkAdam (9 / 10) (999 / 1000) (1 / 100000000) true.

Lemma adam_bias_correction_witness :
  exists w0 w1, adam_run default_adam (1 / 1000) 7 0 3 = Ok (w0, (1 - (9 / 10) ^ 3) * 7, (1 - (999 / 1000) ^ 3) * (7 * 7)) /\
    w1 = w0 - 1 / 1000 * (7 / (Rabs 7 + 1 / 100000000 / sqrt (1 - (999 / 1000) ^ 4))).
Proof.
  destruct (adam_bias_correction default_adam (1 / 1000) 7 0 3) as (w0 & w1 & E & _ & Hw); cbn; [lra..|].
  exists w0, w1. split; [exact E|exact Hw].
Defined.

(** Two gradients, 2 and 4, averaged. *)
Definition lb_two : sub R Empty_set (lbsgd_attrs (F := R)) :=
  mkSub (mkOptimizer 1 (1 / 10) None 0 ∅ ∅ 0%Z 0%Z ∅ None false 0%Z ∅ None ∅) (mkLBSGD 0 "linear" 0 2 32 0 ∅).
Definition r_tensor (l : list R) : tensor R := mkTensor cpu "float32" "default" l.

Lemma large_batch_averages_witness :
  exists o', updates (LBSGD_update (fun _ x => x) (KInt 0)) [r_tensor [2]; r_tensor [4]] (r_tensor [1]) SNone lb_two =
    (Ok (r_tensor [sgd_kernel (-1) (1 / 10 * 2) 0 1 1 ((2 + 4) / 2)], SNone), o') /\ pending (KInt 0) o' None 2.
Proof.
  destruct (large_batch_averages (fun _ x => x) (KInt 0) lb_two (r_tensor [1]) SNone eq_refl eq_refl ltac:(cbn; lia) lb_two 0
    [r_tensor [2]] (r_tensor [4]) (r_tensor [sgd_kernel (-1) (1 / 10 * 2) 0 1 1 ((2 + 4) / 2)]) SNone) as (o' & E & _ & Hp).
  - apply same_settings_refl.
  - left. split; reflexivity.
  - reflexivity.
  - reflexivity.
  - repeat constructor.
  - reflexivity.
  - exists o'. split; [exact E|exact Hp].
Defined.
