(* ===== verification/Trainer.v ===== *)
(** * The gluon trainer

    [gluon/trainer.py]: the trainer initializes a key-value store for the parameters,
    exchanges gradients between devices and updates the parameters, on the store or with
    one updater per device.  All updaters share one optimizer object.

    The trainer sees of a parameter what it uses ([tparam]): the copies on the devices, each
    with the mark that its gradient is fresh, and the gradients.  The key-value store is an
    interface ([KVStoreOps]) whose calls may change the optimizer it was given; the
    environment variable [MXNET_UPDATE_ON_KVSTORE] is a parameter. *)

From S2P Require Import Prelude NDArray LRScheduler Optimizer.

Record tparam (F : Type) := mkTP {
  tp_name : string;
  tp_stype : string;
  tp_grad_stype : string;
  tp_trains : bool;
  tp_deferred : bool;
  tp_ctxs : list Context;
  tp_data : option (list (tensor F * bool));
  tp_grads : list (tensor F);
  tp_mults : mults F;
}.
Arguments mkTP {F} _ _ _ _ _ _ _ _ _.
Arguments tp_name {F} _.
Arguments tp_stype {F} _.
Arguments tp_grad_stype {F} _.
Arguments tp_trains {F} _.
Arguments tp_deferred {F} _.
Arguments tp_ctxs {F} _.
Arguments tp_data {F} _.
Arguments tp_grads {F} _.
Arguments tp_mults {F} _.

(** What the trainer uses of the optimizer. *)
Class TrainerOpt (F O : Type) := {
  to_learning_rate : O -> result F * O;
  to_set_learning_rate : F -> O -> result unit * O;
  to_rescale : O -> F;
  to_set_rescale : F -> O -> O;
  to_scheduled : O -> bool;
  to_set_params : gmap key (mults F) -> O -> O;
}.

(** Key-value stores: their type, initialization of a key, push of gradients, pull into
    arrays (with [ignore_sparse]), the optimizer and compression, and the states of the
    optimizer; loading them replaces the optimizer. *)
Class KVStoreOps (F O K : Type) := {
  kv_create : string -> result K;
  kv_type : K -> string;
  kv_init : nat -> tensor F -> M (O * K) unit;
  kv_push : nat -> list (tensor F) -> M (O * K) unit;
  kv_pull : nat -> bool -> list (tensor F) -> M (O * K) (list (tensor F));
  kv_row_sparse_pull : nat -> tensor F -> list Z -> M (O * K) (tensor F);
  kv_set_optimizer : M (O * K) unit;
  kv_set_compression : M (O * K) unit;
  kv_save_states : M (O * K) (gmap key (ostate F) * option O);
  kv_load_states : gmap key (ostate F) * option O -> M (O * K) unit;
}.

(** The argument [kvstore]. *)
Inductive kvarg (K : Type) := KVNone | KVName (s : string) | KVStore (k : K) | KVOther.
Arguments KVNone {K}.
Arguments KVName {K} _.
Arguments KVStore {K} _.
Arguments KVOther {K}.

Record Trainer (F O K : Type) := mkTrainer {
  t_params : list (tparam F);
  t_sparse_weight : bool;
  t_sparse_grad : bool;
  t_scale : F;
  t_contexts : list Context;
  t_optimizer : O;
  t_updaters : list (Updater F O);
  t_kv_arg : kvarg K;
  t_uok_arg : option bool;
  t_compression : bool;
  t_kv_initialized : bool;
  t_kvstore : option K;
  t_update_on_kvstore : option bool;
  t_distributed : option bool;
  t_params_to_init : list nat;
}.
Arguments mkTrainer {F O K} _ _ _ _ _ _ _ _ _ _ _ _ _ _ _.
Arguments t_params {F O K} _.
Arguments t_sparse_weight {F O K} _.
Arguments t_sparse_grad {F O K} _.
Arguments t_scale {F O K} _.
Arguments t_contexts {F O K} _.
Arguments t_optimizer {F O K} _.
Arguments t_updaters {F O K} _.
Arguments t_kv_arg {F O K} _.
Arguments t_uok_arg {F O K} _.
Arguments t_compression {F O K} _.
Arguments t_kv_initialized {F O K} _.
Arguments t_kvstore {F O K} _.
Arguments t_update_on_kvstore {F O K} _.
Arguments t_distributed {F O K} _.
Arguments t_params_to_init {F O K} _.

(** [sub in s] for strings *)
Fixpoint str_contains (sub s : string) : bool :=
  String.prefix sub s || match s with EmptyString => false | String _ s => str_contains sub s end.

Section Trainers.
Context {F O K : Type} `{Float F} `{OptimizerClass F O} `{TrainerOpt F O} `{KVStoreOps F O K}.
(** [MXNET_UPDATE_ON_KVSTORE], and whether a parameter has more than 16M elements. *)
Context (env_update_on_kvstore : bool) (large : tensor F -> bool).
Notation T := (Trainer F O K).

(** Assignments to attributes. *)
Definition put_tparams (ps : list (tparam F)) (t : T) : T :=
  mkTrainer ps (t_sparse_weight t) (t_sparse_grad t) (t_scale t) (t_contexts t) (t_optimizer t) (t_updaters t) (t_kv_arg t)
    (t_uok_arg t) (t_compression t) (t_kv_initialized t) (t_kvstore t) (t_update_on_kvstore t) (t_distributed t) (t_params_to_init t).
Definition put_opt (o : O) (us : list (Updater F O)) (t : T) : T :=
  mkTrainer (t_params t) (t_sparse_weight t) (t_sparse_grad t) (t_scale t) (t_contexts t) o us (t_kv_arg t)
    (t_uok_arg t) (t_compression t) (t_kv_initialized t) (t_kvstore t) (t_update_on_kvstore t) (t_distributed t) (t_params_to_init t).
Definition put_kv (init : bool) (k : option K) (uok dist : option bool) (todo : list nat) (t : T) : T :=
  mkTrainer (t_params t) (t_sparse_weight t) (t_sparse_grad t) (t_scale t) (t_contexts t) (t_optimizer t) (t_updaters t) (t_kv_arg t)
    (t_uok_arg t) (t_compression t) init k uok dist todo.

Definition _reset_kvstore : M T unit := fun t =>
  match t_kvstore t with
  | Some k => if str_contains "dist" (kv_type k) then (Raise RuntimeError, t)
              else (Ok tt, put_kv false None None None (seq 0 (length (t_params t))) t)
  | None => (Ok tt, put_kv false None None None (seq 0 (length (t_params t))) t)
  end.

(** All parameters are on the same contexts. *)
Fixpoint _check_contexts (contexts : option (list Context)) (ps : list (tparam F)) : result (option (list Context)) :=
  match ps with
  | [] => Ok contexts
  | p :: ps =>
      if match contexts with None => true | Some c => bool_decide (c = tp_ctxs p) end
      then _check_contexts (Some (tp_ctxs p)) ps
      else Raise AssertionError
  end.

(** [self._param2idx]: the last parameter of a name. *)
Definition param2idx (ps : list (tparam F)) (name : string) : result nat :=
  match last (filter (fun i => tp_name <$> ps !! i = Some name) (seq 0 (length ps))) with Some i => Ok i | None => Raise KeyError end.

(** [__init__] with an optimizer object; [taken] are the names of the parameters that have
    another trainer, and iterating over no contexts at all raises. *)
Definition Trainer_init (taken : string -> bool) (params : list (tparam F)) (o : O) (scale : F) (kv : kvarg K) (uok : option bool) (compression : bool)
  : result T :=
  _ ← mapR (fun p => if negb (str_eqb (tp_stype p) "default") && taken (tp_name p) then Raise RuntimeError else Ok tt) params;
  contexts ← _check_contexts None params;
  match contexts with
  | None => Raise TypeError
  | Some contexts =>
      let o := to_set_params (list_to_map (imap (fun i p => (KInt (Z.of_nat i), tp_mults p)) params)) o in
      Ok (mkTrainer params (existsb (fun p => negb (str_eqb (tp_stype p) "default")) params)
            (existsb (fun p => negb (str_eqb (tp_grad_stype p) "default")) params) scale contexts o
            (map (fun _ => Updater_init o) contexts) kv uok compression false None None None (seq 0 (length params)))
  end.

(** Calls of the key-value store, which share the trainer's optimizer. *)
Definition on_kv {A} (m : M (O * K) A) : M T A := fun t =>
  match t_kvstore t with
  | None => (Raise AttributeError, t)
  | Some k =>
      let '(r, (o, k)) := m (t_optimizer t, k) in
      (r, put_kv (t_kv_initialized t) (Some k) (t_update_on_kvstore t) (t_distributed t) (t_params_to_init t)
            (put_opt o (t_updaters t) t))
  end.

(** [param._check_and_get(param._data, list)] *)
Definition check_data (p : tparam F) : result (list (tensor F * bool)) :=
  match tp_data p with
  | Some l => Ok l
  | None => if tp_deferred p then Raise DeferredInitializationError else Raise RuntimeError
  end.
Definition the_tparam (i : nat) : M T (tparam F) := t ← get; lift (match t_params t !! i with Some p => Ok p | None => Raise IndexError end).
Definition set_tparam (i : nat) (p : tparam F) : M T unit := modify (fun t => put_tparams (<[i := p]> (t_params t)) t).

(** The copies with new contents, and with the marks kept. *)
Definition put_data (l : list (tensor F)) (p : tparam F) : tparam F :=
  mkTP (tp_name p) (tp_stype p) (tp_grad_stype p) (tp_trains p) (tp_deferred p) (tp_ctxs p)
    ((fun old => zip l (map snd old)) <$> tp_data p) (tp_grads p) (tp_mults p).
Definition put_grads (l : list (tensor F)) (p : tparam F) : tparam F :=
  mkTP (tp_name p) (tp_stype p) (tp_grad_stype p) (tp_trains p) (tp_deferred p) (tp_ctxs p) (tp_data p) l (tp_mults p).

Definition put_todo (l : list nat) (t : T) : T :=
  put_kv (t_kv_initialized t) (t_kvstore t) (t_update_on_kvstore t) (t_distributed t) l t.

(** One parameter: kept for later when its initialization is deferred. *)
Definition init_param (i : nat) : M T (list nat) :=
  p ← the_tparam i;
  if tp_deferred p then mret [i]
  else
    l ← lift (check_data p);
    match l with
    | [] => raise IndexError
    | (first, _) :: _ =>
        t ← get;
        idx ← lift (param2idx (t_params t) (tp_name p));
        _ ← on_kv (kv_init idx first);
        if str_eqb (tp_stype p) "default" then
          l' ← on_kv (kv_pull idx true (map fst l));
          _ ← set_tparam i (put_data l' p);
          mret []
        else mret []
    end.
Definition _init_params : M T unit :=
  t ← get;
  _ ← massert (t_kv_initialized t);
  todo ← (match t_kvstore t with
          | Some _ => ls ← mapMM init_param (t_params_to_init t); mret (concat ls)
          | None => mret []
          end);
  modify (put_todo todo).

(** [_create_sparse_kvstore] and [_create_kvstore] of [model.py]. *)
Definition _create_sparse_kvstore (kvstore : kvarg K) : result (K * bool) :=
  match kvstore with
  | KVStore k => Ok (k, true)
  | KVName s => k ← kv_create s; Ok (k, true)
  | _ => Raise TypeError
  end.
Definition _create_kvstore (kvstore : kvarg K) (num_device : Z) (arg_params : list (tensor F)) : result (option K * bool) :=
  kv ← (match kvstore with
        | KVNone => Ok (None, env_update_on_kvstore)
        | KVStore k => Ok (Some k, env_update_on_kvstore)
        | KVName s =>
            if (num_device =? 1) && negb (str_contains "dist" s) then Ok (None, env_update_on_kvstore)
            else
              k ← kv_create s;
              if str_eqb s "local" then
                match arg_params with
                | [] => Raise ValueError
                | _ => Ok (Some k, if existsb large arg_params then false else env_update_on_kvstore)
                end
              else Ok (Some k, env_update_on_kvstore)
        | KVOther => Raise TypeError
        end);
  Ok (kv.1, match kv.1 with None => false | Some _ => kv.2 end).

(** [{param.name: param.data(self._contexts[0]) for param in self._params}]: the first
    copies by name. *)
Definition first_copies (ps : list (tparam F)) : result (list (tensor F)) :=
  l ← mapR (fun p => l ← check_data p; match l with (x, _) :: _ => Ok (tp_name p, x) | [] => Raise RuntimeError end) ps;
  Ok (map snd (fold_left (fun d kx => od_set kx.1 kx.2 d) l [])).

Definition put_dist (d : bool) (t : T) : T := put_kv (t_kv_initialized t) (t_kvstore t) (t_update_on_kvstore t) (Some d) (t_params_to_init t) t.

(** The choice of the store and of where to update, by the storage types. *)
Definition choose_kvstore : M T (option K * bool) :=
  t ← get;
  if t_sparse_weight t then
    '(k, uok) ← lift (_create_sparse_kvstore (t_kv_arg t));
    _ ← modify (put_dist (str_contains "dist" (kv_type k)));
    if bool_decide (t_uok_arg t = Some false) then raise ValueError else mret (Some k, uok)
  else
    arrays ← lift (first_copies (t_params t));
    '(k, uok) ← lift (_create_kvstore (t_kv_arg t) (py_len (t_contexts t)) arrays);
    let dist := match k with Some k => str_contains "dist" (kv_type k) | None => false end in
    _ ← modify (put_dist dist);
    if t_sparse_grad t then
      if bool_decide (t_uok_arg t = Some false) && dist then raise ValueError
      else mret (k, default dist (t_uok_arg t))
    else
      let async := dist && match k with Some k => str_contains "async" (kv_type k) | None => false end in
      if async && bool_decide (t_uok_arg t = Some false) then raise ValueError
      else mret (k, default (if async then true else uok) (t_uok_arg t)).

(** A call of a store that is not yet the trainer's. *)
Definition kv_call (m : M (O * K) unit) (k : K) : M T K := fun t =>
  let '(r, (o, k)) := m (t_optimizer t, k) in
  (match r with Ok _ => Ok k | Raise e => Raise e end, put_opt o (t_updaters t) t).

Definition _init_kvstore : M T unit :=
  '(k, uok) ← choose_kvstore;
  t ← get;
  match k with
  | Some k =>
      k ← (if t_compression t then kv_call kv_set_compression k else mret k);
      k ← (if uok then kv_call kv_set_optimizer k else mret k);
      _ ← modify (fun t => put_kv (t_kv_initialized t) (Some k) (Some uok) (t_distributed t) (t_params_to_init t) t);
      t ← get;
      if to_scheduled (t_optimizer t) && negb uok then raise ValueError
      else modify (fun t => put_kv true (t_kvstore t) (t_update_on_kvstore t) (t_distributed t) (t_params_to_init t) t)
  | None => modify (fun t => put_kv true None None (t_distributed t) (t_params_to_init t) t)
  end.

(** The initialization that every operation begins with. *)
Definition ensure_kv : M T unit :=
  t ← get;
  _ ← (if t_kv_initialized t then mret tt else _init_kvstore);
  t ← get;
  match t_params_to_init t with [] => mret tt | _ => _init_params end.

(** [learning_rate] and [set_learning_rate]. *)
Definition on_opt {A} (f : O -> result A * O) : M T A := fun t => let '(r, o) := f (t_optimizer t) in (r, put_opt o (t_updaters t) t).
Definition learning_rate : M T F := on_opt to_learning_rate.
Definition set_learning_rate (lr : F) : M T unit := on_opt (to_set_learning_rate lr).

(** [_row_sparse_pull] of the parameter of a name into an array with [rows] rows. *)
Definition _row_sparse_pull (name : string) (out : tensor F) (rows : Z) (row_id : list Z) (full_idx : bool) : M T (tensor F) :=
  _ ← ensure_kv;
  t ← get;
  i ← lift (param2idx (t_params t) name);
  let pull_rows := on_kv (kv_row_sparse_pull i out row_id) in
  if full_idx then
    match t_kvstore t with
    | None => raise AttributeError
    | Some k =>
        if str_contains "dist" (kv_type k) then pull_rows
        else
          _ ← massert (py_len row_id =? rows);
          l ← on_kv (kv_pull i false [out]);
          lift (match l with x :: _ => Ok x | [] => Raise IndexError end)
    end
  else pull_rows.

Definition on_store (t : T) : bool :=
  match t_kvstore t, t_update_on_kvstore t with Some _, Some true => true | _, _ => false end.

Definition _check_and_rescale_grad (eqb : F -> F -> bool) (scale : F) : M T unit := fun t =>
  if bool_decide (t_update_on_kvstore t = Some true) && bool_decide (t_distributed t = Some true) && t_kv_initialized t && negb (eqb (to_rescale (t_optimizer t)) scale)
  then (Raise UserWarning, t)
  else
    let o := to_set_rescale scale (t_optimizer t) in
    (Ok tt, put_opt o (t_updaters t) t).

(** [list_grad] of a parameter that is trained. *)
Definition grads_of (p : tparam F) : result (list (tensor F)) := _ ← check_data p; Ok (tp_grads p).

(** [_allreduce_grads] *)
Definition allreduce_one (i : nat) : M T unit :=
  p ← the_tparam i;
  if tp_trains p then
    gs ← lift (grads_of p);
    _ ← on_kv (kv_push i gs);
    t ← get;
    if on_store t then mret tt
    else
      l ← on_kv (kv_pull i (default false (t_distributed t)) gs);
      set_tparam i (put_grads l p)
  else mret tt.
Definition _allreduce_grads : M T unit :=
  t ← get;
  match t_kvstore t with
  | None => mret tt
  | Some _ => forM allreduce_one (seq 0 (length (t_params t)))
  end.

(** The first loop of [_update]: the state is the trainer and the updates collected for
    each device. *)
Notation item := (key * (tensor F * tensor F))%type.
Notation TU := (T * list (list item))%type.
Definition of_trainer {A} (m : M T A) : M TU A := fun s => let '(r, t) := m s.1 in (r, (t, s.2)).

(** One copy: appended to its device's updates, and marked stale. *)
Definition collect_copies (ignore_stale : bool) (i : nat) (us : list (list item)) (data : list (tensor F * bool)) (grads : list (tensor F))
  : list (list item) * list (tensor F * bool) :=
  let takes := fun x : tensor F * bool => negb ignore_stale || x.2 in
  let n := Nat.min (length us) (Nat.min (length data) (length grads)) in
  (imap (fun d u => match data !! d, grads !! d with
                    | Some x, Some g => if (d <? n)%nat && takes x then u ++ [(KInt (Z.of_nat i), (x.1, g))] else u
                    | _, _ => u
                    end) us,
   imap (fun d x => if (d <? n)%nat && takes x then (x.1, false) else x) data).

Definition collect_one (ignore_stale : bool) (i : nat) : M TU unit :=
  p ← of_trainer (the_tparam i);
  if negb (tp_trains p) then mret tt
  else
    _ ← (if ignore_stale then mret tt
         else l ← lift (check_data p); if forallb snd l then mret tt else raise UserWarning);
    s ← get;
    if on_store s.1 then
      if str_eqb (tp_stype p) "default" then
        l ← lift (check_data p);
        l' ← of_trainer (on_kv (kv_pull i true (map fst l)));
        of_trainer (set_tparam i (put_data l' p))
      else mret tt
    else
      l ← lift (check_data p);
      let '(us, l) := collect_copies ignore_stale i s.2 l (tp_grads p) in
      _ ← of_trainer (set_tparam i (mkTP (tp_name p) (tp_stype p) (tp_grad_stype p) (tp_trains p) (tp_deferred p) (tp_ctxs p)
            (Some l) (tp_grads p) (tp_mults p)));
      modify (fun s => (s.1, us)).

(** The copy of device [d] with new contents. *)
Definition upd_copy (d : nat) (r : tensor F * tensor F) (p : tparam F) : tparam F :=
  mkTP (tp_name p) (tp_stype p) (tp_grad_stype p) (tp_trains p) (tp_deferred p) (tp_ctxs p)
    ((fun l : list (tensor F * bool) => match l !! d with Some (_, b) => <[d := (r.1, b)]> l | None => l end) <$> tp_data p)
    (<[d := r.2]> (tp_grads p)) (tp_mults p).

(** Writing the results of the updater of device [d] back. *)
Definition write_one (d : nat) (x : item) (r : tensor F * tensor F) (ps : list (tparam F)) : list (tparam F) :=
  match x.1 with
  | KInt i => match ps !! Z.to_nat i with Some p => <[Z.to_nat i := upd_copy d r p]> ps | None => ps end
  | KStr _ => ps
  end.
Definition write_back (d : nat) (xs : list item) (rs : list (tensor F * tensor F)) (ps : list (tparam F)) : list (tparam F) :=
  fold_left (fun ps y => write_one d y.1 y.2 ps) (zip xs rs) ps.

(** The updater of device [d], with the shared optimizer.  Its loop ends when
    [aggregate_num] is positive or not used. *)
Definition run_updater (d : nat) (xs : list item) : M T unit := fun t =>
  match xs, t_updaters t !! d with
  | [], _ | _, None => (Ok tt, t)
  | _, Some u =>
      match Updater_call xs (mkUpdater (t_optimizer t) (u_states u) (u_synced u) (u_aggregate u)) with
      | Some (Ok rs, u) => (Ok tt, put_tparams (write_back d xs rs (t_params t)) (put_opt (u_optimizer u) (<[d := u]> (t_updaters t)) t))
      | Some (Raise e, u) => (Raise e, put_opt (u_optimizer u) (<[d := u]> (t_updaters t)) t)
      | None => (Raise RuntimeError, t)
      end
  end.

Definition _update (ignore_stale : bool) : M T unit := fun t =>
  let '(r, (t, us)) := forM (collect_one ignore_stale) (seq 0 (length (t_params t))) (t, map (fun _ => []) (t_updaters t)) in
  match r with
  | Raise e => (Raise e, t)
  | Ok _ => if on_store t then (Ok tt, t) else forM (fun x => run_updater x.1 x.2) (imap pair us) t
  end.

(** [step], [allreduce_grads] and [update]; dividing by a batch size of zero raises. *)
Definition step (eqb : F -> F -> bool) (batch_size : Z) (ignore_stale : bool) : M T unit :=
  t ← get;
  scale ← lift (py_fdiv (t_scale t) (fof batch_size));
  _ ← _check_and_rescale_grad eqb scale;
  _ ← ensure_kv;
  _ ← _allreduce_grads;
  _update ignore_stale.
Definition allreduce_grads : M T unit :=
  _ ← ensure_kv;
  t ← get;
  _ ← massert (negb (on_store t));
  _allreduce_grads.
Definition update (eqb : F -> F -> bool) (batch_size : Z) (ignore_stale : bool) : M T unit :=
  _ ← ensure_kv;
  t ← get;
  _ ← massert (negb (on_store t));
  scale ← lift (py_fdiv (t_scale t) (fof batch_size));
  _ ← _check_and_rescale_grad eqb scale;
  _update ignore_stale.

(** [save_states] and [load_states]; without updates on the store, the states of the first
    device are saved, and restored on all. *)
Definition save_states : M T (gmap key (ostate F) * option O) :=
  _ ← ensure_kv;
  t ← get;
  if bool_decide (t_update_on_kvstore t = Some true) then
    _ ← massert (bool_decide (t_params_to_init t = []));
    on_kv kv_save_states
  else
    match t_updaters t with
    | u :: _ => mret (get_states true (mkUpdater (t_optimizer t) (u_states u) (u_synced u) (u_aggregate u)))
    | [] => raise IndexError
    end.

Definition params_of (t : T) : gmap key (mults F) := list_to_map (imap (fun i p => (KInt (Z.of_nat i), tp_mults p)) (t_params t)).
Definition load_states (p : gmap key (ostate F) * option O) : M T unit :=
  _ ← ensure_kv;
  t ← get;
  if bool_decide (t_update_on_kvstore t = Some true) then
    _ ← on_kv (kv_load_states p);
    modify (fun t => put_opt (to_set_params (params_of t) (t_optimizer t)) (t_updaters t) t)
  else
    let us := map (set_states p) (t_updaters t) in
    match us with
    | [] => raise IndexError
    | u :: _ => put (put_opt (to_set_params (params_of t) (u_optimizer u)) us t)
    end.
(** ** Where updates happen *)

Definition is_dist (k : K) : bool := str_contains "dist" (kv_type k).
Definition is_async (k : K) : bool := is_dist k && str_contains "async" (kv_type k).

(** The requirements on a choice. *)
Definition supported (t : T) (k : option K) (uok : bool) : Prop :=
  (t_sparse_weight t = true -> is_Some k /\ uok = true) /\
  (forall k0, k = Some k0 -> (t_sparse_grad t = true /\ is_dist k0 = true) \/ is_async k0 = true -> uok = true) /\
  (forall b, t_uok_arg t = Some b -> is_Some k -> uok = b).

Lemma choose_supported t k uok t' : choose_kvstore t = (Ok (k, uok), t') ->
  supported t k uok /\ exists d, t' = put_dist d t.
Proof.
  unfold choose_kvstore. rewrite bind_M. cbn [get]. destruct (t_sparse_weight t) eqn:Ew.
  - rewrite bind_M. cbn [lift]. destruct (_create_sparse_kvstore (t_kv_arg t)) as [[k0 u0]|e] eqn:Ec; [|done].
    assert (u0 = true) as -> by (unfold _create_sparse_kvstore in Ec; destruct (t_kv_arg t) as [|n| |]; try destruct (kv_create n); cbn in Ec; congruence).
    cbv beta iota. rewrite bind_M. cbn [modify]. destruct (bool_decide_reflect (t_uok_arg t = Some false)) as [|Hne]; [done|].
    intros [= <- <- <-]. split; [|eauto]. unfold supported. rewrite Ew. split_and!; [eauto|done|]. by intros [] Hb _.
  - rewrite bind_M. cbn [lift]. destruct (first_copies (t_params t)) as [arrays|]; [|done]. rewrite bind_M. unfold lift.
    destruct (_create_kvstore _ _ _) as [[k0 u0]|]; [|done]. cbv beta iota. rewrite bind_M. cbn [modify].
    destruct (t_sparse_grad t) eqn:Eg; (destruct (bool_decide_reflect (t_uok_arg t = Some false)) as [Hf|Hf];
      [rewrite Hf|]; destruct k0 as [k0|]; cbn [andb];
      unfold supported, is_async, is_dist; rewrite Ew, Eg; try (destruct (str_contains "dist" (kv_type k0)) eqn:Ed);
      try (destruct (str_contains "async" (kv_type k0)) eqn:Ea); cbn [andb]; try done;
      intros [= <- <- <-]; (split; [|eauto]); (split; [done|]); (split; [|by destruct (t_uok_arg t) as [[]|]; naive_solver]);
      intros k1 [= <-]; rewrite ?Ed, ?Ea; destruct (t_uok_arg t) as [[]|]; naive_solver).
Qed.

Lemma kv_call_type (b : bool) (m : M (O * K) unit) (k k' : K) (t t' : T) : (forall o k, kv_type (m (o, k)).2.2 = kv_type k) ->
  (if b then kv_call m k else mret k) t = (Ok k', t') -> kv_type k' = kv_type k /\ exists us o, t' = put_opt o us t.
Proof.
  intros Hm. destruct b; unfold kv_call; [|intros [= <- <-]; split; [done|]; exists (t_updaters t), (t_optimizer t); by destruct t].
  specialize (Hm (t_optimizer t) k). destruct (m (t_optimizer t, k)) as [[?|] [o k1]]; intros [= <- <-]; eauto.
Qed.

(** When the trainer's store is set up without an error, updates happen on the store in
    all cases in which they must: with sparse weights, with sparse gradients on a distributed
    store, on an asynchronous store, and when the optimizer has a scheduler and there is a
    store; and otherwise where the user asked for.  Without a store they are local. *)
Theorem updates_happen_where_supported (t t' : T) :
  (forall o k, kv_type (kv_set_compression (o, k)).2.2 = kv_type k) -> (forall o k, kv_type (kv_set_optimizer (o, k)).2.2 = kv_type k) ->
  _init_kvstore t = (Ok tt, t') ->
  t_kv_initialized t' = true /\
  (t_sparse_weight t = true -> on_store t' = true) /\
  (t_kvstore t' = None -> on_store t' = false) /\
  forall k, t_kvstore t' = Some k ->
    (to_scheduled (t_optimizer t') = true -> on_store t' = true) /\
    (is_dist k = true -> t_sparse_grad t = true -> on_store t' = true) /\
    (is_async k = true -> on_store t' = true) /\
    (forall b, t_uok_arg t = Some b -> on_store t' = b).
Proof.
  intros Hcomp Hopt. unfold _init_kvstore. rewrite bind_M.
  destruct (choose_kvstore t) as [[[k uok]|e] t1] eqn:Ec; [|done]. apply choose_supported in Ec as [(Hsw & Hdist & Huser) [d ->]].
  cbv beta iota. rewrite bind_M. cbn [get]. destruct k as [k|]; [|intros [= <-]; cbn; split_and!; try done; intros Hw; by destruct (Hsw Hw) as [[? ?] _]].
  rewrite bind_M. destruct ((if t_compression (put_dist d t) then kv_call kv_set_compression k else mret k) (put_dist d t))
    as [[k1|] t1] eqn:E1; [|done]. rewrite bind_M.
  apply (kv_call_type _ _ _ _ _ _ Hcomp) in E1 as (Hk1 & us1 & o1 & ->).
  destruct ((if uok then kv_call kv_set_optimizer k1 else mret k1) (put_opt o1 us1 (put_dist d t))) as [[k2|] t2] eqn:E2; [|done].
  apply (kv_call_type _ _ _ _ _ _ Hopt) in E2 as (Hk2 & us2 & o2 & ->).
  rewrite bind_M. cbn [modify]. rewrite bind_M. cbn [get t_optimizer put_kv put_opt].
  destruct (to_scheduled o2 && negb uok) eqn:Es; [done|]. intros [= <-]. unfold on_store. cbn.
  specialize (Hdist k eq_refl). unfold is_async, is_dist in *. rewrite <- Hk1, <- Hk2 in Hdist.
  split_and!; [done|by intros Hw; destruct (Hsw Hw) as [_ ->]|done|]. intros k0 [= <-].
  assert (forall b, t_uok_arg t = Some b -> uok = b) as Hu by (intros b Hb; apply Huser; eauto).
  destruct uok; [by split_and!|]. rewrite andb_true_r in Es. rewrite Es.
  split_and!; [done|intros Hd Hg; apply Hdist; by left|intros Ha; apply Hdist; by right|exact Hu].
Qed.
End Trainers.

(** ** Copies on several devices *)

Definition at_ctx {F} (c : Context) (t : tensor F) : tensor F := mkTensor c (t_dtype t) (t_stype t) (t_data t).

(** The updates of an optimizer do not depend on the device. *)
Class Replicable (F O : Type) `{Pointwise F O} := {
  rp_create c i w o : oc_create_state i (at_ctx c w) o = sync_state_context c (oc_create_state i w o);
  rp_valid c o w g s : pw_valid o w g s -> pw_valid o (at_ctx c w) (at_ctx c g) (sync_state_context c s);
  rp_fun c o i w g s : pw_valid o w g s ->
    pw_fun o i (at_ctx c w) (at_ctx c g) (sync_state_context c s) =
      (at_ctx c (pw_fun o i w g s).1.1, at_ctx c (pw_fun o i w g s).1.2, sync_state_context c (pw_fun o i w g s).2);
}.

Section Replicas.
Context {F O : Type} `{Replicable F O}.
Notation U := (Updater F O).
Notation item := (key * (tensor F * tensor F))%type.

Lemma sync_sync c c' (s : ostate F) : sync_state_context c (sync_state_context c' s) = sync_state_context c s.
Proof.
  revert s. fix IH 1. intros [|a|l]; [done|done|]. cbn. f_equal. rewrite map_map.
  induction l as [|s l IHl]; [done|]. cbn. rewrite IH. f_equal. apply IHl.
Qed.

(** An updater and an item on a device. *)
Definition move (c : Context) (u : U) : U :=
  mkUpdater (u_optimizer u) (sync_state_context c <$> u_states u) (u_synced u) (u_aggregate u).
Definition move_item (c : Context) (x : item) : item := (x.1, (at_ctx c x.2.1, at_ctx c x.2.2)).

Lemma prepare_move c xs : forall u,
  forM prepare_one (map (move_item c) xs) (move c u) =
    ((forM prepare_one xs u).1, move c (forM prepare_one xs u).2).
Proof.
  induction xs as [|[i [w g]] xs IH]; intros u; [done|]. cbn [map forM]. rewrite !bind_M.
  assert (prepare_one (move_item c (i, (w, g))) (move c u) = ((prepare_one (i, (w, g)) u).1, move c (prepare_one (i, (w, g)) u).2)) as ->.
  { unfold prepare_one, move_item. cbn [fst snd move u_states u_synced u_optimizer u_aggregate t_ctx at_ctx]. rewrite lookup_fmap.
    destruct (u_states u !! i) as [s|]; cbn.
    - destruct (u_synced u !! i) as [[]|]; [done| |done]. cbn. unfold move. cbn. rewrite fmap_insert, !sync_sync. done.
    - unfold move. cbn. by rewrite fmap_insert, rp_create. }
  destruct (prepare_one (i, (w, g)) u) as [[[]|e] u']; [|done]. cbn [fst snd]. apply IH.
Qed.

Lemma ready_move c u x : ready u x -> ready (move c u) (move_item c x).
Proof.
  intros (s & Hs & Hv). exists (sync_state_context c s). cbn. rewrite lookup_fmap, Hs. split; [done|]. by apply rp_valid.
Qed.

Lemma outcome_move c u x : ready u x ->
  outcome (move c u) (move_item c x) =
    (at_ctx c (outcome u x).1.1, at_ctx c (outcome u x).1.2, sync_state_context c (outcome u x).2).
Proof.
  intros (s & Hs & Hv). unfold outcome. cbn. rewrite lookup_fmap, Hs. cbn. by apply rp_fun.
Qed.

Lemma new_states_move c u xs : Forall (ready u) xs ->
  new_states (move c u) (map (move_item c) xs) = sync_state_context c <$> new_states u xs.
Proof.
  intros Hr. unfold new_states at 1. cbn [move u_states].
  assert (forall ys (m : gmap key (ostate F)), (forall y, y ∈ ys -> ready u y) ->
    fold_left (fun m y => <[y.1 := (outcome (move c u) y).2]> m) (map (move_item c) ys) (sync_state_context c <$> m) =
    sync_state_context c <$> fold_left (fun m y => <[y.1 := (outcome u y).2]> m) ys m) as Hgen.
  { induction ys as [|y ys IH]; intros m Hy; [done|]. cbn. rewrite outcome_move by (apply Hy; left). cbn.
    rewrite <- fmap_insert. apply IH. intros z Hz. apply Hy. by right. }
  apply Hgen. by apply Forall_forall.
Qed.
End Replicas.

(** ** One step on several devices *)

(** A key-value store without an optimizer reduces what is pushed for a key that it holds,
    and copies the result to the arrays that it is pulled into. *)
Class AllReduce (F O K : Type) `{KVStoreOps F O K} := {
  kv_reduce : list (tensor F) -> tensor F;
  kv_holds : K -> nat -> Prop;
  ar_exchange o k i gs ignore_sparse : kv_holds k i ->
    exists k1 k2, kv_push i gs (o, k) = (Ok tt, (o, k1)) /\
      kv_pull i ignore_sparse gs (o, k1) = (Ok (map (fun g => at_ctx (t_ctx g) (kv_reduce gs)) gs), (o, k2)) /\
      forall j, kv_holds k j -> kv_holds k2 j;
}.

Section DataParallel.
Context {F O K : Type} `{Float F} `{Replicable F O} `{TrainerOpt F O} `{KVStoreOps F O K} `{!AllReduce F O K}.
Notation T := (Trainer F O K).
Notation item := (key * (tensor F * tensor F))%type.
Context (cs : list Context).

(** The items of the trained parameters, with given weights and gradients. *)
Definition trained_ids (ps : list (tparam F)) : list nat :=
  filter (fun i => match ps !! i with Some p => tp_trains p | None => false end = true) (seq 0 (length ps)).
Definition items_of (W G : nat -> tensor F) (l : list nat) : list item :=
  map (fun i => (KInt (Z.of_nat i), (W i, G i))) l.

(** The trained parameters have the same weight on all devices, and gradients for all. *)
Definition replicated (W : nat -> tensor F) (fresh : bool) (ps : list (tparam F)) : Prop :=
  forall i p, ps !! i = Some p -> tp_trains p = true ->
    tp_data p = Some (map (fun c => (at_ctx c (W i), fresh)) cs) /\ map t_ctx (tp_grads p) = cs.
Definition same_grads (G : nat -> tensor F) (ps : list (tparam F)) : Prop :=
  forall i p, ps !! i = Some p -> tp_trains p = true -> tp_grads p = map (fun c => at_ctx c (G i)) cs.

(** An updater with the states of [u], on the device [c]. *)
Definition placed (u : Updater F O) (c : Context) (v : Updater F O) : Prop :=
  u_states v = sync_state_context c <$> u_states u /\ u_synced v = u_synced u /\ u_aggregate v = u_aggregate u.

(** The updaters of the devices have the same states. *)
Definition placed_updaters (u : Updater F O) (us : list (Updater F O)) : Prop := Forall2 (placed u) cs us.

(** *** Collecting the updates *)

Definition mark_stale (p : tparam F) (W : tensor F) : tparam F :=
  mkTP (tp_name p) (tp_stype p) (tp_grad_stype p) (tp_trains p) (tp_deferred p) (tp_ctxs p)
    (Some (map (fun c => (at_ctx c W, false)) cs)) (tp_grads p) (tp_mults p).

Lemma collect_copies_replicated i (xs : list item) (w g : tensor F) :
  collect_copies false i (map (fun c => map (move_item c) xs) cs) (map (fun c => (at_ctx c w, true)) cs) (map (fun c => at_ctx c g) cs) =
    (map (fun c => map (move_item c) (xs ++ [(KInt (Z.of_nat i), (w, g))])) cs, map (fun c => (at_ctx c w, false)) cs).
Proof.
  unfold collect_copies. rewrite !length_map, !Nat.min_id. f_equal.
  - apply list_eq. intros d. rewrite list_lookup_imap, !list_lookup_fmap. destruct (cs !! d) as [c|] eqn:Ed; [|done].
    assert ((d <? length cs)%nat = true) as Hlt by (apply Nat.ltb_lt; by eapply lookup_lt_Some).
    cbn [fmap option_fmap option_map]. rewrite Hlt. cbn. by rewrite map_app.
  - apply list_eq. intros d. rewrite list_lookup_imap, !list_lookup_fmap. destruct (cs !! d) as [c|] eqn:Ed; [|done].
    assert ((d <? length cs)%nat = true) as Hlt by (apply Nat.ltb_lt; by eapply lookup_lt_Some).
    cbn [fmap option_fmap option_map]. by rewrite Hlt.
Qed.

(** One parameter. *)
Lemma collect_one_replicated W G (t : T) xs i p :
  on_store t = false -> t_params t !! i = Some p ->
  (tp_trains p = true -> tp_data p = Some (map (fun c => (at_ctx c (W i), true)) cs) /\ tp_grads p = map (fun c => at_ctx c (G i)) cs) ->
  collect_one false i (t, map (fun c => map (move_item c) xs) cs) =
    (Ok tt, if tp_trains p
            then (put_tparams (<[i := mark_stale p (W i)]> (t_params t)) t,
                  map (fun c => map (move_item c) (xs ++ items_of W G [i])) cs)
            else (t, map (fun c => map (move_item c) xs) cs)).
Proof.
  intros Hst Hp Hrep. unfold collect_one. rewrite bind_M. unfold of_trainer, the_tparam. rewrite bind_M. cbn [get lift fst].
  rewrite Hp. cbn [fst snd]. destruct (tp_trains p) eqn:Et; [|done]. cbn [negb]. destruct (Hrep eq_refl) as [Hd Hg].
  rewrite !bind_M. unfold check_data. rewrite Hd. cbn [lift].
  assert (forallb snd (map (fun c => (at_ctx c (W i), true)) cs) = true) as -> by (apply forallb_forall; intros x Hx; apply in_map_iff in Hx as (c & <- & _); done).
  cbn [mret M_ret]. rewrite bind_M. cbn [get fst snd]. rewrite Hst. rewrite bind_M. cbn [lift].
  rewrite Hg, collect_copies_replicated. rewrite bind_M. unfold mark_stale. by rewrite Hg, Et.
Qed.

(** The params after the first [n] have been collected. *)
Definition staled (W : nat -> tensor F) (n : nat) (ps : list (tparam F)) : list (tparam F) :=
  imap (fun i p => if (i <? n)%nat && tp_trains p then mark_stale p (W i) else p) ps.

Lemma staled_lookup W n ps i :
  staled W n ps !! i = (fun p => if (i <? n)%nat && tp_trains p then mark_stale p (W i) else p) <$> ps !! i.
Proof. unfold staled. by rewrite list_lookup_imap. Qed.

Lemma staled_0 W (t : T) : put_tparams (staled W 0 (t_params t)) t = t.
Proof.
  assert (staled W 0 (t_params t) = t_params t) as ->; [|by destruct t].
  apply list_eq. intros i. rewrite staled_lookup. by destruct (t_params t !! i).
Qed.

Definition trained_before (n : nat) (ps : list (tparam F)) : list nat :=
  filter (fun i => match ps !! i with Some p => tp_trains p | None => false end = true) (seq 0 n).

Lemma staled_S W n ps p : ps !! n = Some p ->
  staled W (S n) ps = if tp_trains p then <[n := mark_stale p (W n)]> (staled W n ps) else staled W n ps.
Proof.
  intros Hp. apply list_eq. intros j. rewrite staled_lookup. destruct (decide (j = n)) as [->|Hne].
  - rewrite Hp. cbn [fmap option_fmap option_map]. rewrite (proj2 (Nat.ltb_lt n (S n))) by lia. cbn [andb].
    destruct (tp_trains p) eqn:Et.
    + rewrite list_lookup_insert_eq; [done|]. unfold staled. rewrite length_imap. by eapply lookup_lt_Some.
    + rewrite staled_lookup, Hp. cbn [fmap option_fmap option_map]. by rewrite Et, andb_false_r.
  - assert ((j <? S n)%nat = (j <? n)%nat) as -> by (destruct (Nat.ltb_spec j (S n)), (Nat.ltb_spec j n); lia || done).
    destruct (tp_trains p); [rewrite list_lookup_insert_ne by done|]; by rewrite staled_lookup.
Qed.

Lemma staled_at W n ps p : ps !! n = Some p -> staled W n ps !! n = Some p.
Proof. intros Hp. rewrite staled_lookup, Hp. cbn [fmap option_fmap option_map]. by rewrite (proj2 (Nat.ltb_ge n n)) by lia. Qed.

Lemma collect_prefix W G (t : T) m : on_store t = false -> (m <= length (t_params t))%nat ->
  replicated W true (take m (t_params t)) -> same_grads G (take m (t_params t)) ->
  forall k n, (n + k)%nat = m ->
  forM (collect_one false) (seq n k)
    (put_tparams (staled W n (t_params t)) t, map (fun c => map (move_item c) (items_of W G (trained_before n (t_params t)))) cs) =
  (Ok tt, (put_tparams (staled W m (t_params t)) t, map (fun c => map (move_item c) (items_of W G (trained_before m (t_params t)))) cs)).
Proof.
  intros Hst Hm Hrep Hgr. induction k as [|k IH]; intros n Hn.
  - by rewrite <- Hn, !Nat.add_0_r.
  - cbn [seq forM]. rewrite bind_M. destruct (lookup_lt_is_Some_2 (t_params t) n) as [p Hp]; [lia|].
    assert (take m (t_params t) !! n = Some p) as Htake by (rewrite lookup_take_lt by lia; done).
    rewrite (collect_one_replicated W G _ _ n p); [|done|by apply staled_at|].
    2: { intros Ht. split; [by apply (Hrep n p)|by apply Hgr]. }
    rewrite <- (IH (S n)) by lia. rewrite (staled_S W n _ p Hp). unfold trained_before. rewrite seq_S, filter_app. cbn [Nat.add].
    rewrite filter_cons, Hp, filter_nil. unfold items_of. rewrite map_app. destruct (tp_trains p); [done|].
    rewrite decide_False by done. by rewrite !app_nil_r.
Qed.

Lemma collect_all W G (t : T) : on_store t = false -> replicated W true (t_params t) -> same_grads G (t_params t) ->
  forM (collect_one false) (seq 0 (length (t_params t))) (t, map (fun _ => []) cs) =
  (Ok tt, (put_tparams (staled W (length (t_params t)) (t_params t)) t, map (fun c => map (move_item c) (items_of W G (trained_ids (t_params t)))) cs)).
Proof.
  intros Hst Hrep Hgr.
  assert (take (length (t_params t)) (t_params t) = t_params t) as Htake by (by apply take_ge).
  pose proof (collect_prefix W G t (length (t_params t)) Hst (le_n _)) as E. rewrite Htake in E.
  specialize (E Hrep Hgr (length (t_params t)) 0%nat eq_refl). by rewrite staled_0 in E.
Qed.

(** *** Running the updaters *)

Lemma write_back_lookup d (l : list nat) (R : nat -> tensor F * tensor F) : forall (xs : list item) ps i,
  NoDup l -> map fst xs = map (fun j => KInt (Z.of_nat j)) l ->
  write_back d xs (map R l) ps !! i = if decide (i ∈ l) then upd_copy d (R i) <$> ps !! i else ps !! i.
Proof.
  induction l as [|j l IH]; intros [|x xs] ps i Hnd Hx; try done.
  apply NoDup_cons in Hnd as [Hj Hnd]. injection Hx as Hk Hx.
  change (write_back d (x :: xs) (map R (j :: l)) ps) with (write_back d xs (map R l) (write_one d x (R j) ps)).
  rewrite IH by done. unfold write_one. rewrite Hk, Nat2Z.id. destruct (decide (i = j)) as [->|Hne].
  - rewrite (decide_False (P := j ∈ l)) by done. rewrite decide_True by left.
    destruct (ps !! j) as [p|] eqn:Ep; [|by rewrite Ep]. rewrite list_lookup_insert_eq by (by eapply lookup_lt_Some). done.
  - assert (i ∈ j :: l <-> i ∈ l) as Hiff by (rewrite elem_of_cons; tauto).
    destruct (ps !! j) eqn:Ep; [rewrite list_lookup_insert_ne by done|];
      (destruct (decide (i ∈ l)); [rewrite decide_True by tauto|rewrite decide_False by tauto]; done).
Qed.

Notation with_opt o u := (mkUpdater o (u_states u) (u_synced u) (u_aggregate u)).

Lemma prepare_like (o o' : O) (xs : list item) : like o' o -> forall u : Updater F O,
  forM prepare_one xs (with_opt o' u) =
    ((forM prepare_one xs (with_opt o u)).1, with_opt o' (forM prepare_one xs (with_opt o u)).2).
Proof.
  intros (_ & _ & _ & Hc). induction xs as [|[i [w g]] xs IH]; intros u; [done|]. cbn [forM]. rewrite !bind_M.
  unfold prepare_one at 1 3 5. cbn. destruct (u_states u !! i) as [s|].
  - destruct (u_synced u !! i) as [[]|]; [apply IH|apply (IH (mkUpdater o _ _ _))|done].
  - rewrite Hc. apply (IH (mkUpdater o _ _ _)).
Qed.

(** The updater of one device, on a prepared virtual updater [u1]. *)
Lemma run_updater_spec (o0 : O) (u u1 v : Updater F O) (xs : list item) c d (t : T) :
  NoDup (map fst xs) -> forM prepare_one xs (with_opt o0 u) = (Ok tt, u1) -> Forall (ready u1) xs ->
  (u_aggregate u1 = true -> 0 < oc_aggregate o0) -> u_optimizer u1 = o0 -> like (t_optimizer t) o0 ->
  t_updaters t !! d = Some v ->
  u_states v = sync_state_context c <$> u_states u -> u_synced v = u_synced u -> u_aggregate v = u_aggregate u ->
  exists o' v', run_updater d (map (move_item c) xs) t =
      (Ok tt, put_tparams (write_back d (map (move_item c) xs) (map (fun x => (at_ctx c (outcome u1 x).1.1, at_ctx c (outcome u1 x).1.2)) xs) (t_params t))
                (put_opt o' (<[d := v']> (t_updaters t)) t)) /\
    like o' o0 /\ u_states v' = sync_state_context c <$> new_states u1 xs /\ u_synced v' = u_synced u1 /\
    u_aggregate v' = u_aggregate u1.
Proof.
  intros Hnd Hprep Hr Hpos Ho Hlike Hv Hst Hsy Hag. unfold run_updater. rewrite Hv.
  destruct (decide (xs = [])) as [->|Hne].
  { injection Hprep as <-. exists (t_optimizer t), v. split_and!; try done. cbn. rewrite list_insert_id by done. by destruct t. }
  set (o := t_optimizer t) in *.
  assert (with_opt o v = move c (with_opt o u)) as -> by (unfold move; cbn; by rewrite Hst, Hsy, Hag).
  set (u1o := with_opt o u1).
  assert (forM prepare_one (map (move_item c) xs) (move c (with_opt o u)) = (Ok tt, move c u1o)) as Hp.
  { rewrite prepare_move, (prepare_like o0) by done. by rewrite Hprep. }
  assert (forall x, outcome u1o x = outcome u1 x) as Hout.
  { intros x. unfold outcome. cbn. rewrite Ho. apply Hlike. }
  assert (Forall (ready u1o) xs) as Hr1.
  { eapply Forall_impl; [exact Hr|]. intros x (s & Hs & Hok). exists s. split; [done|]. cbn. apply Hlike. by rewrite <- Ho. }
  destruct (call_ran (map (move_item c) xs) (move c (with_opt o u)) (move c u1o)) as (v' & E & (_ & Hs & Hsy' & Hag' & Hl)).
  - rewrite map_map. exact Hnd.
  - cbn. intros Hag1. destruct Hlike as (_ & _ & -> & _). by apply Hpos.
  - done.
  - apply Forall_map. eapply Forall_impl; [exact Hr1|]. intros x. apply ready_move.
  - exists (u_optimizer v'), v'. split; [|split_and!].
    + destruct (map (move_item c) xs) as [|y ys] eqn:Em; [by destruct xs|]. rewrite E, <- Em. f_equal. f_equal. f_equal.
      rewrite map_map. apply map_ext_in. intros x Hx%list_elem_of_In. rewrite Forall_forall in Hr1.
      rewrite outcome_move by (by apply Hr1). by rewrite Hout.
    + eapply like_trans; [exact Hl|done].
    + rewrite Hs, new_states_move by done. f_equal. unfold new_states. cbn [u1o u_states].
      clear -Hout. generalize (u_states u1). induction xs as [|y ys IH]; intros m; [done|]. cbn. rewrite Hout. apply IH.
    + by rewrite Hsy'.
    + by rewrite Hag'.
Qed.
(** A parameter of which the devices [cs1] are updated and [cs2] are not. *)
Definition halfway (W G : nat -> tensor F) (R : nat -> tensor F * tensor F) (cs1 cs2 : list Context) (i : nat) (p : tparam F) : tparam F :=
  if tp_trains p then
    mkTP (tp_name p) (tp_stype p) (tp_grad_stype p) (tp_trains p) (tp_deferred p) (tp_ctxs p)
      (Some (map (fun c => (at_ctx c (R i).1, false)) cs1 ++ map (fun c => (at_ctx c (W i), false)) cs2))
      (map (fun c => at_ctx c (R i).2) cs1 ++ map (fun c => at_ctx c (G i)) cs2) (tp_mults p)
  else p.

Lemma upd_copy_halfway W G R cs1 c cs2 i p : tp_trains p = true ->
  upd_copy (length cs1) (at_ctx c (R i).1, at_ctx c (R i).2) (halfway W G R cs1 (c :: cs2) i p) = halfway W G R (cs1 ++ [c]) cs2 i p.
Proof.
  intros Ht. unfold halfway, upd_copy. rewrite Ht. cbn.
  set (a := map (fun c0 => (at_ctx c0 (R i).1, false)) cs1). set (b := map (fun c0 => at_ctx c0 (R i).2) cs1).
  assert (length cs1 = (length a + 0)%nat) as Ha by (unfold a; rewrite length_map; lia).
  assert (length cs1 = (length b + 0)%nat) as Hb by (unfold b; rewrite length_map; lia).
  rewrite Ha at 1. rewrite lookup_app_r by lia. replace (length a + 0 - length a)%nat with 0%nat by lia. cbn.
  rewrite Ha at 1. rewrite insert_app_r. rewrite Hb. rewrite insert_app_r. cbn.
  unfold a, b. by rewrite !map_app, <- !app_assoc.
Qed.

Lemma elem_of_trained_ids ps i : i ∈ trained_ids ps <-> exists p, ps !! i = Some p /\ tp_trains p = true.
Proof.
  unfold trained_ids. rewrite list_elem_of_filter, elem_of_seq. split.
  - intros [Ht _]. destruct (ps !! i) as [p|]; [eauto|done].
  - intros (p & Hp & Ht). rewrite Hp. split; [done|]. apply lookup_lt_Some in Hp. lia.
Qed.

Lemma write_back_halfway W G R cs1 c cs2 ps (xs : list item) :
  map fst xs = map (fun j => KInt (Z.of_nat j)) (trained_ids ps) ->
  write_back (length cs1) xs (map (fun i => (at_ctx c (R i).1, at_ctx c (R i).2)) (trained_ids ps)) (imap (halfway W G R cs1 (c :: cs2)) ps) =
    imap (halfway W G R (cs1 ++ [c]) cs2) ps.
Proof.
  intros Hx. apply list_eq. intros i. rewrite write_back_lookup; [|apply NoDup_filter, NoDup_seq|done].
  rewrite !list_lookup_imap. destruct (ps !! i) as [p|] eqn:Ep; cbn; [|by destruct decide].
  destruct (tp_trains p) eqn:Et.
  - rewrite decide_True by (apply elem_of_trained_ids; eauto). by rewrite upd_copy_halfway.
  - rewrite decide_False by (intros (q & Hq & Ht)%elem_of_trained_ids; congruence). unfold halfway. by rewrite Et.
Qed.

(** All devices: [u1] is the prepared virtual updater. *)
Lemma run_all (o0 : O) (u u1 u2 : Updater F O) W G R ps :
  let xs := items_of W G (trained_ids ps) in
  forM prepare_one xs (with_opt o0 u) = (Ok tt, u1) -> Forall (ready u1) xs ->
  (u_aggregate u1 = true -> 0 < oc_aggregate o0) -> u_optimizer u1 = o0 ->
  (forall i, i ∈ trained_ids ps -> R i = (outcome u1 (KInt (Z.of_nat i), (W i, G i))).1) ->
  u_states u2 = new_states u1 xs -> u_synced u2 = u_synced u1 -> u_aggregate u2 = u_aggregate u1 ->
  forall cs2 cs1 us1 us2 (t : T), t_updaters t = us1 ++ us2 -> Forall2 (placed u2) cs1 us1 -> Forall2 (placed u) cs2 us2 ->
  like (t_optimizer t) o0 -> t_params t = imap (halfway W G R cs1 cs2) ps ->
  exists o us, forM (fun x => run_updater x.1 x.2) (imap (fun k l => ((length cs1 + k)%nat, l)) (map (fun c => map (move_item c) xs) cs2)) t =
      (Ok tt, put_tparams (imap (halfway W G R (cs1 ++ cs2) []) ps) (put_opt o us t)) /\
    like o o0 /\ Forall2 (placed u2) (cs1 ++ cs2) us.
Proof.
  intros xs Hprep Hr Hpos Ho HR Hst2 Hsy2 Hag2. induction cs2 as [|c cs2 IH]; intros cs1 us1 us2 t Hus Hd He Hlike Hps.
  - apply Forall2_nil_inv_l in He as ->. rewrite !app_nil_r in *. exists (t_optimizer t), us1. split_and!; [|done|done].
    rewrite <- Hus. cbn. rewrite <- Hps. by destruct t.
  - apply Forall2_cons_inv_l in He as (v & us2' & (Hs & Hsy & Hag) & He & ->). pose proof (Forall2_length _ _ _ Hd) as Hl.
    assert (t_updaters t !! length cs1 = Some v) as Hv by (rewrite Hus, lookup_app_r, Hl, Nat.sub_diag by lia; done).
    destruct (run_updater_spec o0 u u1 v xs c (length cs1) t) as (o' & v' & E & Hl' & Hs' & Hsy' & Hag'); try done.
    { unfold xs, items_of. rewrite map_map. cbn. apply NoDup_fmap; [|apply NoDup_filter, NoDup_seq].
      intros a b Hab. injection Hab. lia. }
    cbn [imap map forM]. rewrite bind_M, Nat.add_0_r. cbn [fst snd]. rewrite E.
    assert (map (fun x => (at_ctx c (outcome u1 x).1.1, at_ctx c (outcome u1 x).1.2)) xs =
            map (fun i => (at_ctx c (R i).1, at_ctx c (R i).2)) (trained_ids ps)) as ->.
    { unfold xs, items_of. rewrite map_map. apply map_ext_in. intros i Hi%list_elem_of_In. by rewrite HR. }
    rewrite Hps, write_back_halfway by (unfold xs, items_of; rewrite !map_map; done).
    edestruct (IH (cs1 ++ [c]) (us1 ++ [v']) us2') as (o & us & E' & Hlo & Hall); [| | | | |exists o, us; split_and!].
    6: { erewrite imap_ext; [rewrite E'; rewrite <- app_assoc; done|]. intros k l _. rewrite length_app. cbn. f_equal. lia. }
    + cbn. rewrite Hus, Hl. rewrite <- (Nat.add_0_r (length us1)) at 1. rewrite insert_app_r. cbn. by rewrite <- app_assoc.
    + apply Forall2_app; [done|]. constructor; [|done]. split_and!; congruence.
    + done.
    + done.
    + done.
    + done.
    + by rewrite <- app_assoc in Hall.
Qed.
(** *** The whole update *)

Lemma map_const_length {A B C} (x : C) (l : list A) : forall k : list B, length k = length l -> map (fun _ => x) k = map (fun _ => x) l.
Proof. induction l as [|a l IH]; intros [|b k] Hlen; try done. cbn in *. f_equal. apply IH. lia. Qed.

Lemma prepare_optimizer (xs : list item) (u : Updater F O) : u_optimizer (forM prepare_one xs u).2 = u_optimizer u.
Proof. by destruct (prepare_aggregate true xs u). Qed.

Lemma imap_halfway_replicated W G R ps :
  replicated (fun i => (R i).1) false (imap (halfway W G R cs []) ps) /\ same_grads (fun i => (R i).2) (imap (halfway W G R cs []) ps).
Proof.
  split; intros i p Hp Ht; rewrite list_lookup_imap in Hp; destruct (ps !! i) as [q|]; try done; injection Hp as <-;
    unfold halfway in Ht |- *; destruct (tp_trains q) eqn:Eq; try congruence; cbn; rewrite !app_nil_r; [|done].
  split; [done|]. rewrite map_map. cbn. apply map_id.
Qed.

Lemma update_on_devices W G (t : T) (u u1 : Updater F O) :
  let xs := items_of W G (trained_ids (t_params t)) in
  on_store t = false -> replicated W true (t_params t) -> same_grads G (t_params t) -> placed_updaters u (t_updaters t) ->
  forM prepare_one xs (with_opt (t_optimizer t) u) = (Ok tt, u1) -> Forall (ready u1) xs ->
  (u_aggregate u1 = true -> 0 < oc_aggregate (t_optimizer t)) ->
  exists R u2 t', Updater_call xs (with_opt (t_optimizer t) u) = Some (Ok (map R (trained_ids (t_params t))), u2) /\
    _update false t = (Ok tt, t') /\ replicated (fun i => (R i).1) false (t_params t') /\ same_grads (fun i => (R i).2) (t_params t') /\
    placed_updaters u2 (t_updaters t') /\ like (t_optimizer t') (t_optimizer t) /\ t_kvstore t' = t_kvstore t.
Proof.
  intros xs Hst Hrep Hgr Hpl Hprep Hr Hpos.
  set (R := fun i => (outcome u1 (KInt (Z.of_nat i), (W i, G i))).1).
  assert (u_optimizer u1 = t_optimizer t) as Ho1 by (pose proof (prepare_optimizer xs (with_opt (t_optimizer t) u)) as E; by rewrite Hprep in E).
  assert (NoDup (map fst xs)) as Hnd.
  { unfold xs, items_of. rewrite map_map. apply NoDup_fmap; [|apply NoDup_filter, NoDup_seq]. intros a b Hab. injection Hab. lia. }
  destruct (call_ran xs (with_opt (t_optimizer t) u) u1) as (u2 & Ecall & (_ & Hs2 & Hsy2 & Hag2 & _)); try done; [by rewrite Ho1|].
  exists R, u2. unfold _update.
  rewrite (map_const_length [] cs) by (symmetry; by eapply Forall2_length). rewrite (collect_all W G t) by done. fold xs.
  assert (staled W (length (t_params t)) (t_params t) = imap (halfway W G R [] cs) (t_params t)) as Hhw.
  { apply list_eq. intros i. rewrite staled_lookup, list_lookup_imap. destruct (t_params t !! i) as [p|] eqn:Ep; [|done].
    cbn [fmap option_fmap option_map]. rewrite (proj2 (Nat.ltb_lt i _)) by (by eapply lookup_lt_Some). unfold halfway, mark_stale. cbn.
    destruct (tp_trains p) eqn:Et; [by rewrite (Hgr i p)|done]. }
  change (on_store (put_tparams _ t)) with (on_store t). rewrite Hst, Hhw.
  edestruct (run_all (t_optimizer t) u u1 u2 W G R (t_params t)) with (cs1 := @nil Context) (cs2 := cs) (us1 := @nil (Updater F O))
    (us2 := t_updaters t) (t := put_tparams (imap (halfway W G R [] cs) (t_params t)) t) as (o & us & E & Hlike & Hus); try done.
  eexists. split_and!; [|unfold imap at 1; exact E|apply imap_halfway_replicated|apply imap_halfway_replicated|exact Hus|exact Hlike|done].
  rewrite Ecall. do 3 f_equal. unfold xs, items_of. by rewrite map_map.
Qed.
(** C33: When the trainer updates on the devices (not on the store, [store_forgets_staleness]),
    a stale gradient stops an update before any weight, gradient or state changes; but
    the gradients of the parameters before it are marked as used. *)
Theorem stale_gradient_stops_update W G (t : T) i p l :
  on_store t = false -> length (t_updaters t) = length cs -> replicated W true (take i (t_params t)) -> same_grads G (take i (t_params t)) ->
  t_params t !! i = Some p -> tp_trains p = true -> tp_data p = Some l -> forallb snd l = false ->
  _update false t = (Raise UserWarning, put_tparams (staled W i (t_params t)) t).
Proof.
  intros Hst Hus Hrep Hgr Hp Ht Hd Hl. unfold _update. pose proof (lookup_lt_Some _ _ _ Hp) as Hlt.
  replace (length (t_params t)) with (i + S (length (t_params t) - S i))%nat by lia. rewrite seq_app, forM_app.
  rewrite (map_const_length [] cs) by done.
  pose proof (collect_prefix W G t i Hst ltac:(lia) Hrep Hgr i 0 eq_refl) as E. rewrite staled_0 in E.
  change (map _ cs) with (map (fun _ : Context => @nil item) cs) in E at 1. rewrite E.
  cbn [seq forM Nat.add]. rewrite bind_M. unfold collect_one at 1. rewrite bind_M. unfold of_trainer at 1, the_tparam. rewrite bind_M.
  cbn [get fst snd t_params put_tparams]. rewrite (staled_at W i _ p Hp). cbn [lift]. rewrite Ht. cbn [negb].
  rewrite !bind_M. unfold check_data. rewrite Hd. cbn [lift]. by rewrite Hl.
Qed.

(** *** Exchanging gradients *)

(** The reduced gradient of a parameter, and the parameters of which the first [n] have
    received it. *)
Definition reduced (ps : list (tparam F)) (i : nat) : tensor F :=
  kv_reduce (match ps !! i with Some p => tp_grads p | None => [] end).
Definition exchanged (n : nat) (ps : list (tparam F)) : list (tparam F) :=
  imap (fun i p => if (i <? n)%nat && tp_trains p then put_grads (map (fun c => at_ctx c (kv_reduce (tp_grads p))) cs) p else p) ps.
Definition with_store (k : K) (t : T) : T :=
  put_kv (t_kv_initialized t) (Some k) (t_update_on_kvstore t) (t_distributed t) (t_params_to_init t) t.

Lemma exchanged_lookup n ps i : exchanged n ps !! i =
  (fun p => if (i <? n)%nat && tp_trains p then put_grads (map (fun c => at_ctx c (kv_reduce (tp_grads p))) cs) p else p) <$> ps !! i.
Proof. unfold exchanged. by rewrite list_lookup_imap. Qed.

Lemma exchanged_S n ps p : ps !! n = Some p ->
  exchanged (S n) ps = if tp_trains p then <[n := put_grads (map (fun c => at_ctx c (kv_reduce (tp_grads p))) cs) p]> (exchanged n ps)
                       else exchanged n ps.
Proof.
  intros Hp. apply list_eq. intros j. rewrite exchanged_lookup. destruct (decide (j = n)) as [->|Hne].
  - rewrite Hp. cbn [fmap option_fmap option_map]. rewrite (proj2 (Nat.ltb_lt n (S n))) by lia. cbn [andb].
    destruct (tp_trains p) eqn:Et.
    + rewrite list_lookup_insert_eq; [done|]. unfold exchanged. rewrite length_imap. by eapply lookup_lt_Some.
    + rewrite exchanged_lookup, Hp. cbn [fmap option_fmap option_map]. by rewrite Et, andb_false_r.
  - assert ((j <? S n)%nat = (j <? n)%nat) as -> by (destruct (Nat.ltb_spec j (S n)), (Nat.ltb_spec j n); lia || done).
    destruct (tp_trains p); [rewrite list_lookup_insert_ne by done|]; by rewrite exchanged_lookup.
Qed.

Lemma allreduce_all W (t : T) : t_update_on_kvstore t = Some false -> replicated W true (t_params t) ->
  forall m n k, (n + m)%nat = length (t_params t) -> (forall i, i ∈ trained_ids (t_params t) -> kv_holds k i) ->
  exists k', forM allreduce_one (seq n m) (with_store k (put_tparams (exchanged n (t_params t)) t)) =
      (Ok tt, with_store k' (put_tparams (exchanged (n + m) (t_params t)) t)) /\
    (forall i, i ∈ trained_ids (t_params t) -> kv_holds k' i).
Proof.
  intros Huok Hrep. induction m as [|m IH]; intros n k Hn Hk.
  - exists k. by rewrite Nat.add_0_r.
  - cbn [seq forM]. destruct (lookup_lt_is_Some_2 (t_params t) n) as [p Hp]; [lia|].
    replace (n + S m)%nat with (S n + m)%nat by lia.
    assert (exchanged n (t_params t) !! n = Some p) as Hp'.
    { rewrite exchanged_lookup, Hp. cbn [fmap option_fmap option_map]. by rewrite (proj2 (Nat.ltb_ge n n)) by lia. }
    rewrite bind_M. unfold allreduce_one at 1. rewrite bind_M. unfold the_tparam. rewrite bind_M. cbn [get].
    cbn [with_store put_kv put_tparams t_params]. rewrite Hp'. cbn [lift]. destruct (tp_trains p) eqn:Et.
    + destruct (Hrep n p Hp Et) as [Hd Hg]. rewrite bind_M. unfold grads_of, check_data. rewrite Hd. cbn [mbind result_bind lift].
      destruct (ar_exchange (t_optimizer t) k n (tp_grads p) (default false (t_distributed t))) as (k1 & k2 & E1 & E2 & Hk2).
      { apply Hk, elem_of_trained_ids. eauto. }
      rewrite bind_M. unfold on_kv at 1. cbn [t_kvstore with_store put_kv t_optimizer put_tparams]. rewrite E1. rewrite bind_M. cbn [get].
      unfold on_store. cbn. rewrite Huok. rewrite bind_M. unfold on_kv at 1. cbn. rewrite E2.
      destruct (IH (S n) k2) as (k' & E & Hk'); [lia|by eauto|]. exists k'. split; [|done].
      etrans; [|exact E]. rewrite (exchanged_S n _ p Hp), Et. rewrite <- Hg, map_map.
      unfold with_store. cbn [put_tparams t_update_on_kvstore]. by rewrite Huok.
    + destruct (IH (S n) k) as (k' & E & Hk'); [lia|done|]. exists k'. split; [|done].
      etrans; [|exact E]. by rewrite (exchanged_S n _ p Hp), Et.
Qed.
Lemma exchanged_replicated W ps : replicated W true ps ->
  replicated W true (exchanged (length ps) ps) /\ same_grads (reduced ps) (exchanged (length ps) ps) /\
  trained_ids (exchanged (length ps) ps) = trained_ids ps.
Proof.
  intros Hrep.
  assert (forall i p, ps !! i = Some p -> exchanged (length ps) ps !! i =
    Some (if tp_trains p then put_grads (map (fun c => at_ctx c (kv_reduce (tp_grads p))) cs) p else p)) as Hl.
  { intros i p Hp. rewrite exchanged_lookup, Hp. cbn [fmap option_fmap option_map].
    by rewrite (proj2 (Nat.ltb_lt i (length ps))) by (by eapply lookup_lt_Some). }
  assert (forall i q, exchanged (length ps) ps !! i = Some q -> tp_trains q = true -> exists p, ps !! i = Some p /\
    tp_trains p = true /\ q = put_grads (map (fun c => at_ctx c (kv_reduce (tp_grads p))) cs) p) as Hinv.
  { intros i q Hq Ht. destruct (ps !! i) as [p|] eqn:Ep; [|by rewrite exchanged_lookup, Ep in Hq].
    rewrite (Hl i p Ep) in Hq. injection Hq as <-. exists p. destruct (tp_trains p) eqn:Et; [done|congruence]. }
  split_and!.
  - intros i q Hq Ht. destruct (Hinv i q Hq Ht) as (p & Hp & Htp & ->). destruct (Hrep i p Hp Htp) as [Hd _]. split; [exact Hd|].
    cbn. rewrite map_map. apply map_id.
  - intros i q Hq Ht. destruct (Hinv i q Hq Ht) as (p & Hp & Htp & ->). cbn. unfold reduced. by rewrite Hp.
  - unfold trained_ids. assert (length (exchanged (length ps) ps) = length ps) as -> by (unfold exchanged; apply length_imap).
    apply list_filter_iff. intros i. destruct (ps !! i) as [p|] eqn:Ep; [|by rewrite exchanged_lookup, Ep].
    rewrite (Hl i p Ep). by destruct (tp_trains p) eqn:Et; [|rewrite Et].
Qed.

(** C3: Data parallel training is training on one device.  A step of a trainer whose store
    exchanges gradients, for an optimizer whose updates do not depend on the device, leaves
    on every device the weights that one updater computes from the old weights and the
    reduced gradients, and the states of that updater. *)
Theorem step_is_data_parallel (env : bool) (large : tensor F -> bool) (eqb : F -> F -> bool) (batch : Z) (scale : F) W (t : T) k (u u1 : Updater F O) :
  let o := to_set_rescale scale (t_optimizer t) in
  let ids := trained_ids (t_params t) in
  let xs := items_of W (reduced (t_params t)) ids in
  t_kv_initialized t = true -> t_params_to_init t = [] -> t_kvstore t = Some k -> t_update_on_kvstore t = Some false ->
  Forall (kv_holds k) ids -> replicated W true (t_params t) -> placed_updaters u (t_updaters t) ->
  py_fdiv (t_scale t) (fof batch) = Ok scale ->
  forM prepare_one xs (with_opt o u) = (Ok tt, u1) -> Forall (ready u1) xs -> (u_aggregate u1 = true -> 0 < oc_aggregate o) ->
  exists R u2 t' k', Updater_call xs (with_opt o u) = Some (Ok (map R ids), u2) /\
    step env large eqb batch false t = (Ok tt, t') /\
    replicated (fun i => (R i).1) false (t_params t') /\ placed_updaters u2 (t_updaters t') /\ like (t_optimizer t') o /\
    t_kvstore t' = Some k' /\ Forall (kv_holds k') ids.
Proof.
  intros o ids xs Hinit Htodo Hkv Huok Hholds Hrep Hpl Hscale Hprep Hr Hpos.
  unfold step. rewrite bind_M. cbn [get]. rewrite bind_M, Hscale. cbn [lift]. rewrite bind_M. unfold _check_and_rescale_grad. rewrite Huok.
  rewrite (bool_decide_eq_false_2 (Some false = Some true)) by done. cbn [andb]. rewrite bind_M. fold o. set (t0 := put_opt o (t_updaters t) t).
  assert (ensure_kv env large t0 = (Ok tt, t0)) as ->.
  { unfold ensure_kv. rewrite bind_M. cbn [get]. change (t_kv_initialized t0) with (t_kv_initialized t). rewrite Hinit, bind_M.
    cbn [mret M_ret]. rewrite bind_M. cbn [get]. change (t_params_to_init t0) with (t_params_to_init t). by rewrite Htodo. }
  rewrite bind_M. unfold _allreduce_grads. rewrite bind_M. cbn [get].
  change (t_kvstore t0) with (t_kvstore t). rewrite Hkv. change (t_params t0) with (t_params t).
  destruct (allreduce_all W t0 Huok Hrep (length (t_params t)) 0 k eq_refl) as (k' & E & Hk').
  { intros i Hi. rewrite Forall_forall in Hholds. by apply Hholds. }
  assert (with_store k (put_tparams (exchanged 0 (t_params t0)) t0) = t0) as Ht0.
  { assert (exchanged 0 (t_params t0) = t_params t0) as -> by (apply list_eq; intros i; rewrite exchanged_lookup; by destruct (t_params t0 !! i)).
    unfold with_store, t0. destruct t; cbn in *. by subst. }
  rewrite Ht0 in E. rewrite E. cbn [Nat.add].
  destruct (exchanged_replicated W (t_params t) Hrep) as (Hrep' & Hgr' & Hids).
  set (t1 := with_store k' _). change (trained_ids (t_params t1) = ids) in Hids.
  destruct (update_on_devices W (reduced (t_params t)) t1 u u1) as (R & u2 & t' & Ecall & Eup & HR & _ & Hu2 & Hlike & Hkv');
    try done; [unfold on_store; cbn; by rewrite Huok|by rewrite Hids|by rewrite Hids|].
  exists R, u2, t', k'. rewrite Hids in Ecall. split_and!; try done. by apply Forall_forall.
Qed.
End DataParallel.
