(* ===== verification/DataParallel.v ===== *)
(** * Training on several devices

    Runs of the gluon trainer with concrete optimizers and a concrete key-value store:
    stochastic gradient descent updates all devices alike, so that training on several
    devices is training on one; [Adam] does not, because the updaters of all devices count
    their updates on one shared optimizer; and what happens to gradients when a stale one
    is met. *)

From Stdlib Require Import QArith.
From S2P Require Import Prelude NDArray LRScheduler Optimizer SGD Adaptive Trainer.

(** What the trainer uses of an optimizer of [optimizer.py]. *)
Definition put_rescale {F S} (r : F) (o : Optimizer F S) : Optimizer F S :=
  mkOptimizer r (lr o) (lr_scheduler o) (wd o) (lr_mult o) (wd_mult o) (begin_num_update o) (num_update o)
    (_index_update_count o) (clip_gradient o) (multi_precision o) (aggregate_num o) (idx2name o) (sym_info o) (param_dict o).

#[export] Instance sub_trainer_opt {F S A} `{Scheduler F S} : TrainerOpt F (sub F S A) := {
  to_learning_rate := on_super Optimizer.learning_rate;
  to_set_learning_rate r := on_super (Optimizer.set_learning_rate r);
  to_rescale o := rescale_grad (super o);
  to_set_rescale r o := mkSub (put_rescale r (super o)) (own o);
  to_scheduled o := match lr_scheduler (super o) with Some _ => true | None => false end;
  to_set_params p o := mkSub (put_params p (super o)) (own o);
}.

(** ** [SGD] updates all devices alike *)

Section SGDReplicas.
Context {F S : Type} `{Float F} `{FloatMath F} `{Scheduler F S}.
Context (cast : string -> F -> F).
Context (sparse_sgd : bool -> F -> F -> F -> F -> tensor F -> tensor F -> tensor F).
Context (sparse_sgd_mom : bool -> F -> F -> F -> F -> F -> tensor F -> tensor F -> tensor F -> tensor F * tensor F).
Notation SGD := (sub F S (sgd_attrs (F := F))).

Lemma sgd_create_moves c i w (o : SGD) :
  SGD_create_state_multi_precision cast i (at_ctx c w) o = sync_state_context c (SGD_create_state_multi_precision cast i w o).
Proof.
  unfold SGD_create_state_multi_precision. change (uses_master super (at_ctx c w) o) with (uses_master super w o).
  destruct (uses_master super w o); cbn; unfold SGD_create_state; by destruct (fzero _).
Qed.

Lemma sgd_valid_moves c (o : SGD) w g s : sgd_valid o w g s -> sgd_valid o (at_ctx c w) (at_ctx c g) (sync_state_context c s).
Proof.
  intros (Hs & Hw & Hg & Hok). split_and!; [done|done|done|]. unfold sgd_state_ok in *.
  change (uses_master super (at_ctx c w) o) with (uses_master super w o). destruct (uses_master super w o).
  - destruct Hok as (s0 & master & -> & Hm). cbn. do 2 eexists. split; [done|]. intros E. destruct (Hm E) as [m ->]. by eexists.
  - intros E. destruct (Hok E) as [m ->]. by eexists.
Qed.

Lemma sgd_fun_moves c (o : SGD) i w g s : sgd_valid o w g s ->
  sgd_fun cast o i (at_ctx c w) (at_ctx c g) (sync_state_context c s) =
    (at_ctx c (sgd_fun cast o i w g s).1.1, at_ctx c (sgd_fun cast o i w g s).1.2, sync_state_context c (sgd_fun cast o i w g s).2).
Proof.
  intros (_ & _ & _ & Hok). unfold sgd_fun, sgd_aggregated, sgd_state_ok in *.
  change (uses_master super (at_ctx c w) o) with (uses_master super w o). destruct (uses_master super w o); cbn [negb].
  - destruct Hok as (s0 & master & -> & Hm). cbn. destruct (fltb _ _); [|done]. by destruct (Hm eq_refl) as [m ->].
  - destruct (fltb _ _); [|done]. by destruct (Hok eq_refl) as [m ->].
Qed.

#[export] Instance SGD_replicable : @Replicable F SGD (SGD_class cast sparse_sgd sparse_sgd_mom) (SGD_pointwise cast sparse_sgd sparse_sgd_mom) := {
  rp_create := sgd_create_moves;
  rp_valid := sgd_valid_moves;
  rp_fun := sgd_fun_moves;
}.
End SGDReplicas.

(** ** A local key-value store *)

#[local] Existing Instance Q_Float.

Notation qstore := (gmap nat (tensor Q)).

(** The sum of the arrays that were pushed, on the context of the first. *)
Definition qsum (l : list (tensor Q)) : tensor Q :=
  match l with
  | [] => mkTensor cpu "float32" "default" []
  | g :: l => fold_left (fun a b => mkTensor (t_ctx a) (t_dtype a) (t_stype a) (zip_with Qplus (t_data a) (t_data b))) l g
  end.

#[local] Instance local_store {O} : KVStoreOps Q O qstore := {
  kv_create _ := Ok ∅;
  kv_type _ := "local"%string;
  kv_init i x s := (Ok tt, (s.1, <[i := x]> s.2));
  kv_push i gs s := match s.2 !! i with Some _ => (Ok tt, (s.1, <[i := qsum gs]> s.2)) | None => (Raise MXNetError, s) end;
  kv_pull i ignore_sparse out s :=
    match s.2 !! i with Some x => (Ok (map (fun g => at_ctx (t_ctx g) x) out), s) | None => (Raise MXNetError, s) end;
  kv_row_sparse_pull i out rows s := (Raise NotImplementedError, s);
  kv_set_optimizer s := (Ok tt, s);
  kv_set_compression s := (Ok tt, s);
  kv_save_states s := (Raise NotImplementedError, s);
  kv_load_states _ s := (Raise NotImplementedError, s);
}.

#[local] Program Instance local_allreduce {O} : AllReduce Q O qstore := {
  kv_reduce := qsum;
  kv_holds k i := is_Some (k !! i);
}.
Next Obligation.
  intros ? o k i gs ign [x Hx]. exists (<[i := qsum gs]> k), (<[i := qsum gs]> k). cbn. rewrite Hx, lookup_insert_eq. split_and!; [done|done|].
  intros j [y Hy]. destruct (decide (i = j)) as [->|]; [rewrite lookup_insert_eq|rewrite lookup_insert_ne by done]; eauto.
Qed.

(** ** A trainer on two devices *)

#[local] Existing Instances Q_FloatMath q_sgd_class q_sgd_pointwise.
#[local] Instance q_sgd_replicable : Replicable Q (sub Q Empty_set (sgd_attrs (F := Q))) := SGD_replicable same no_sparse no_sparse_mom.

Definition gpu (n : Z) : Context := mkContext 2 n.
Definition two_gpus : list Context := [gpu 0; gpu 1].
Definition on_gpu (n : Z) (l : list Q) : tensor Q := mkTensor (gpu n) "float32" "default" l.

(** A weight with the same contents on both devices, and its gradients. *)
Definition weight_param (name : string) (trains fresh : bool) (w g0 g1 : list Q) : tparam Q :=
  mkTP name "default" "default" trains false two_gpus (Some [(on_gpu 0 w, fresh); (on_gpu 1 w, fresh)])
    [on_gpu 0 g0; on_gpu 1 g1] (mkMults 1%Q 1%Q).

(** The parameters, and the trainer after its initialization. *)
Definition two_params : list (tparam Q) :=
  [weight_param "w0" true true [1; 2]%Q [10; 20]%Q [30; 40]%Q; weight_param "w1" false true [5]%Q [] []; weight_param "w2" true true [3]%Q [1]%Q [2]%Q].
Definition ready_trainer : Trainer Q (sub Q Empty_set (sgd_attrs (F := Q))) qstore :=
  Eval vm_compute in
    match Trainer_init (fun _ => false) two_params (q_sgd 2) 1%Q (KVName "local") (Some false) false with
    | Ok t => (ensure_kv true (fun _ => false) t).2
    | Raise _ => mkTrainer [] false false 1%Q [] (q_sgd 2) [] KVNone None false false None None None []
    end.
Definition weights_at_start (i : nat) : tensor Q :=
  match two_params !! i with Some (mkTP _ _ _ _ _ _ (Some ((w, _) :: _)) _ _) => w | _ => on_gpu 0 [] end.

Lemma step_is_data_parallel_witness :
  exists t', step true (fun _ => false) Qeq_bool 2 false ready_trainer = (Ok tt, t') /\
    exists R : nat -> tensor Q * tensor Q, replicated two_gpus (fun i => (R i).1) false (t_params t') /\ t_data (R 0%nat).1 = [-1; -1]%Q.
Proof.
  destruct (step_is_data_parallel two_gpus true (fun _ => false) Qeq_bool 2 (1 # 2)%Q weights_at_start ready_trainer
    (default ∅ (t_kvstore ready_trainer)) (Updater_init (q_sgd 2))
    (forM prepare_one (items_of weights_at_start (reduced (O := sub Q Empty_set (sgd_attrs (F := Q))) (K := qstore) (t_params ready_trainer)) (trained_ids (t_params ready_trainer)))
       (mkUpdater (to_set_rescale (1 # 2)%Q (t_optimizer ready_trainer)) ∅ ∅ true)).2)
    as (R & u2 & t' & k' & Ecall & Estep & HR & _).
  - reflexivity.
  - reflexivity.
  - reflexivity.
  - reflexivity.
  - repeat constructor; eexists; vm_compute; reflexivity.
  - intros [|[|[|i]]] p [= <-]; try discriminate; split; reflexivity.
  - repeat constructor.
  - reflexivity.
  - vm_compute. reflexivity.
  - change (trained_ids (t_params ready_trainer)) with [0; 2]%nat.
    apply Forall_cons_2; [|apply Forall_cons_2; [|apply Forall_nil_2]]; eexists; (split; [vm_compute; reflexivity|]); (split_and!; [reflexivity|reflexivity|reflexivity|vm_compute; intros _; eexists; reflexivity]).
  - reflexivity.
  - exists t'. split; [done|]. exists R. split; [done|].
    apply (f_equal (fun x => match x with Some (Ok l, _) => map (fun r => t_data r.1) l | _ => [] end)) in Ecall.
    vm_compute in Ecall. injection Ecall as E _. symmetry. exact E.
Defined.

(** The requested place of the updates is respected on the local store. *)
Lemma updates_happen_where_supported_witness :
  match Trainer_init (fun _ => false) two_params (q_sgd 2) 1%Q (KVName "local") (Some true) false with
  | Ok t => on_store (_init_kvstore (K := qstore) false (fun _ => false) t).2 = true
  | Raise _ => False
  end.
Proof.
  set (t := match Trainer_init (K := qstore) (fun _ => false) two_params (q_sgd 2) 1%Q (KVName "local") (Some true) false with Ok t => t | Raise _ => ready_trainer end).
  destruct (updates_happen_where_supported false (fun _ => false) t (_init_kvstore false (fun _ => false) t).2) as (_ & _ & _ & Hk).
  - reflexivity.
  - reflexivity.
  - vm_compute. reflexivity.
  - destruct (Hk ∅) as (_ & _ & _ & Hu); [vm_compute; reflexivity|]. exact (Hu true eq_refl).
Defined.

(** ** Stale gradients *)

(** The first parameter has a fresh gradient and the third a stale one. *)
Definition stale_trainer : Trainer Q (sub Q Empty_set (sgd_attrs (F := Q))) qstore :=
  put_tparams [weight_param "w0" true true [1; 2]%Q [40; 60]%Q [40; 60]%Q; weight_param "w1" false true [5]%Q [] [];
               weight_param "w2" true false [3]%Q [3]%Q [3]%Q] ready_trainer.

Lemma stale_gradient_stops_update_witness :
  _update false stale_trainer = (Raise UserWarning, put_tparams (staled two_gpus weights_at_start 2 (t_params stale_trainer)) stale_trainer).
Proof.
  refine (stale_gradient_stops_update two_gpus weights_at_start (fun _ => on_gpu 0 [40; 60]%Q) stale_trainer 2 _ _ _ _ _ _ eq_refl eq_refl eq_refl _).
  - reflexivity.
  - reflexivity.
  - intros [|[|i]] p [= <-]; try discriminate; split; reflexivity.
  - intros [|[|i]] p [= <-]; try discriminate; reflexivity.
  - reflexivity.
Defined.

Definition first_weight {O} (t : Trainer Q O qstore) : option (list (list Q)) :=
  p ← t_params t !! 0%nat; l ← tp_data p; Some (map (fun x => t_data x.1) l).

(** Trying again while ignoring stale gradients then skips the first parameter too, so that
    its gradient is lost; without the failed attempt it would have been used. *)
Example retry_loses_gradients :
  let t1 := (_update false stale_trainer).2 in
  (_update true t1).1 = Ok tt /\ first_weight (_update true t1).2 = first_weight stale_trainer /\
  first_weight (_update true stale_trainer).2 <> first_weight stale_trainer.
Proof. vm_compute. split_and!; [reflexivity|reflexivity|discriminate]. Qed.

(** When the store updates the weights, the marks stay: a second step with the same
    gradients is not noticed. *)
Example store_forgets_staleness :
  let local := ready_trainer in
  let store := put_kv true (t_kvstore local) (Some true) (t_distributed local) [] local in
  (step true (fun _ => false) Qeq_bool 2 false (step true (fun _ => false) Qeq_bool 2 false local).2).1 = Raise UserWarning /\
  (step true (fun _ => false) Qeq_bool 2 false (step true (fun _ => false) Qeq_bool 2 false store).2).1 = Ok tt.
Proof. vm_compute. split; reflexivity. Qed.

(** ** [Adam] on two devices *)

(** Rational numbers with powers; the only square roots below are of 0 and 1. *)
#[local] Instance Q_power : Float Q := {
  fadd a b := Qred (a + b)%Q;
  fsub a b := Qred (a - b)%Q;
  fmul a b := Qred (a * b)%Q;
  fdiv a b := Qred (a / b)%Q;
  fof := inject_Z;
  fltb a b := negb (Qle_bool b a);
  fzero a := Qeq_bool a 0;
  fpow a b := Qred (Qpower a (Qnum b));
  fcos a := a;
  fpi := 3%Q;
}.
Definition q_adam : sub Q Empty_set (adam_attrs (F := Q)) :=
  mkSub (mkOptimizer 1%Q (1 # 10)%Q None 0%Q ∅ ∅ 0 0 ∅ None false 0 ∅ None ∅) (mkAdam (1 # 2)%Q 0%Q 0%Q true).
#[local] Instance q_adam_class : OptimizerClass Q (sub Q Empty_set (adam_attrs (F := Q))) := {
  oc_aggregate o := aggregate_num (super o);
  oc_create_state := Adam_create_state;
  oc_update := Adam_update;
  oc_update_list _ _ _ _ := raise NotImplementedError;
  oc_pickled o := mkSub (pickled (super o)) (own o);
}.

(** Two devices with the same weight and the same gradient, updated locally, have different
    weights after one step: the updaters count on one optimizer, so that the second device's
    update is the second for the correction of the bias. *)
Example adam_replicas_diverge :
  match Trainer_init (K := qstore) (fun _ => false) [weight_param "w0" true true [1]%Q [1]%Q [1]%Q] q_adam 1%Q KVNone None false with
  | Ok t => first_weight (step true (fun _ => false) Qeq_bool 1 false t).2 = Some [[9 # 10]; [14 # 15]]%Q
  | Raise _ => False
  end.
Proof. vm_compute. reflexivity. Qed.
