(* ===== verification/Metric.v ===== *)
(** * Evaluation metrics

    [metric.py]: the base class with its local and global statistics, the composite metric,
    and the classes for classification, regression, losses and user functions.

    Arrays are a shape with the elements in row-major order over any type of numbers;
    operators of the library and of [numpy] that the updates call are defined on them, except
    [argpartition] and [corrcoef], which are parameters.  Statistics are numbers of that type
    (Python's integers and floats).  A composite metric owns its children: the same metric
    object is not in it twice. *)

From S2P Require Import Prelude NDArray Array LRScheduler Optimizer SGD Vocab.

Class MetricMath (F : Type) := {
  fexp : F -> F;
  flog : F -> F;
  fnan : F;
  to_int : F -> Z;
}.

(** ** The base class *)

Section Metrics.
Context {F : Type} `{Float F} `{FloatMath F} `{MetricMath F}.
(** [numpy.argpartition] of one row by an element counted from the end, and
    [numpy.corrcoef(x, y)[0, 1]]. *)
Context (argpartition : list F -> nat -> list nat) (corrcoef : list F -> list F -> F).

Record stats := mkStats { num_inst : F; sum_metric : F; global_num_inst : F; global_sum_metric : F }.
Definition zero_stats : stats := mkStats (fof 0) (fof 0) (fof 0) (fof 0).
Definition local_zero (s : stats) : stats := mkStats (fof 0) (fof 0) (global_num_inst s) (global_sum_metric s).
(** [self.sum_metric += x; self.global_sum_metric += x; self.num_inst += n; ...] *)
Definition add_stats (x n : F) (s : stats) : stats :=
  mkStats (fadd (num_inst s) n) (fadd (sum_metric s) x) (fadd (global_num_inst s) n) (fadd (global_sum_metric s) x).

(** [_BinaryClassificationMetrics] *)
Record counts := mkCounts { tp : Z; fn : Z; fp : Z; tn : Z }.
Definition zero_counts : counts := mkCounts 0 0 0 0.
Definition add_counts (a b : counts) : counts := mkCounts (tp a + tp b) (fn a + fn b) (fp a + fp b) (tn a + tn b).
Definition total_examples (c : counts) : Z := fn c + fp c + tn c + tp c.
Record bstats := mkB { b_local : counts; b_global : counts }.

(** The classes with their own attributes; [Torch] and [Caffe] are [Loss]. *)
Inductive loss_class := LossC | TorchC | CaffeC.
Inductive kind :=
  | Accuracy (axis : Z)
  | TopKAccuracy (top_k : Z)
  | F1 (average : string) (b : bstats)
  | MCC (average : string) (b : bstats)
  | Perplexity (ignore_label : option Z) (axis : Z)
  | MAE
  | MSE
  | RMSE
  | CrossEntropy (eps : F)
  | NegativeLogLikelihood (eps : F)
  | PearsonCorrelation
  | Loss (c : loss_class)
  | CustomMetric (feval : nda F -> nda F -> result (F + F * F)) (allow_extra_outputs : bool).

Record metric_attrs := mkAttrs { m_name : string; output_names : option (list string); label_names : option (list string) }.

Inductive metric :=
  | Plain (a : metric_attrs) (k : kind) (s : stats)
  | Composite (a : metric_attrs) (metrics : list metric).

(** The argument of [update]: one array, or a list of arrays. *)
Inductive arrays := One (a : nda F) | Many (l : list (nda F)).

Definition arrays_len (x : arrays) : result Z :=
  match x with
  | Many l => Ok (py_len l)
  | One a => match a_shape a with d :: _ => Ok (Z.of_nat d) | [] => Raise IndexError end
  end.
Definition wrapped (x : arrays) : list (nda F) := match x with One a => [a] | Many l => l end.

(** [check_label_shapes] *)
Definition same_len (l p : Z) : result unit := if l =? p then Ok tt else Raise ValueError.
Definition check_label_shapes (labels preds : arrays) : result (list (nda F) * list (nda F)) :=
  l ← arrays_len labels;
  p ← arrays_len preds;
  _ ← same_len l p;
  Ok (wrapped labels, wrapped preds).

(** ** Values of one label and prediction *)

Definition fsum (l : list F) : F := fold_left fadd l (fof 0).
Definition mean (l : list F) : F := fdiv (fsum l) (fof (py_len l)).

(** The position of the first largest element. *)
Definition argmax (l : list F) : nat :=
  (fold_left (fun '(i, best, top) x => match top with
                                      | Some y => if fltb y x then (S i, i, Some x) else (S i, best, top)
                                      | None => (S i, i, Some x)
                                      end) l (0, 0, None)).1.2%nat.

Definition count_true (l : list bool) : Z := py_len (filter (fun b => b = true) l).

(** [Accuracy]: predictions of another shape than the labels are scores. *)
Definition accuracy_value (axis : Z) (label pred : nda F) : result (F * F) :=
  ps ← (if bool_decide (a_shape pred = a_shape label) then Ok (map to_int (a_flat pred))
        else match norm_axis (length (a_shape pred)) axis with
             | Some a => Ok (map (fun l => to_int (fof (Z.of_nat (argmax l)))) (axis_lanes a pred))
             | None => Raise MXNetError
             end);
  let ls := map to_int (a_flat label) in
  _ ← same_len (py_len ls) (py_len ps);
  Ok (fof (count_true (zip_with Z.eqb ps ls)), fof (py_len ps)).

(** Labels and predictions of a regression are columns. *)
Definition as_column (a : nda F) : nda F := match a_shape a with [n] => mkNda [n; 1%nat] (a_flat a) | _ => a end.
Definition regression (f : F -> F) (g : F -> F) (label pred : nda F) : result (F * F) :=
  l ← broadcast (as_column label) (as_column pred);
  Ok (g (mean (map (fun '(x, y) => f (fsub x y)) l)), fof 1).

Definition MAE_value : nda F -> nda F -> result (F * F) := regression fabs id.
Definition MSE_value : nda F -> nda F -> result (F * F) := regression (fun x => fpow x (fof 2)) id.
Definition RMSE_value : nda F -> nda F -> result (F * F) := regression (fun x => fpow x (fof 2)) fsqrt.

(** [pred[arange(n), int64(label)]] for the labels [ls], all elements in order. *)
Definition pick_rows (pred : nda F) (ls : list Z) : result (list F) :=
  match a_shape pred with
  | n :: d :: s =>
      rows ← mapR (fun '(i, l) => py_index (blocks (size s) d (chunk (d * size s) i (a_flat pred))) l) (imap pair ls);
      Ok (concat rows)
  | _ => Raise IndexError
  end.
Definition entropy_value (eps : F) (label pred : nda F) : result (F * F) :=
  let ls := a_flat label in
  n ← (match a_shape pred with n :: _ => Ok (Z.of_nat n) | [] => Raise IndexError end);
  _ ← py_assert (py_len ls =? n);
  prob ← pick_rows pred (map to_int ls);
  Ok (fsum (map (fun p => fneg (flog (fadd p eps))) prob), fof n).

Definition nll_value (eps : F) (label pred : nda F) : result (F * F) :=
  let ls := a_flat label in
  num_examples ← (match a_shape pred with n :: _ => Ok (Z.of_nat n) | [] => Raise IndexError end);
  _ ← py_assert (py_len ls =? num_examples);
  prob ← pick_rows pred (map to_int ls);
  Ok (fsum (map (fun p => fneg (flog (fadd p eps))) prob), fof num_examples).

Definition pearson_value (label pred : nda F) : result (F * F) :=
  if bool_decide (a_shape label = a_shape pred) then Ok (corrcoef (a_flat pred) (a_flat label), fof 1) else Raise ValueError.

(** The classes whose updates add one value for each label and prediction. *)
Definition pair_value (k : kind) (label pred : nda F) : option (result (F * F)) :=
  match k with
  | Accuracy axis => Some (accuracy_value axis label pred)
  | MAE => Some (MAE_value label pred)
  | MSE => Some (MSE_value label pred)
  | RMSE => Some (RMSE_value label pred)
  | CrossEntropy eps => Some (entropy_value eps label pred)
  | NegativeLogLikelihood eps => Some (nll_value eps label pred)
  | PearsonCorrelation => Some (pearson_value label pred)
  | _ => None
  end.

(** ** Updates *)

Definition pairs_of (p : list (nda F) * list (nda F)) : list (nda F * nda F) := zip p.1 p.2.

(** Iterating over an argument without wrapping it. *)
Definition iterated (x : arrays) : result (list (nda F)) := match x with Many l => Ok l | One a => a_rows a end.

Definition update_pairs (value : nda F -> nda F -> result (F * F)) (l : list (nda F * nda F)) : M stats unit :=
  forM (fun x => '(v, n) ← lift (value x.1 x.2); modify (add_stats v n)) l.

(** [TopKAccuracy] *)
Definition add_sums (x : F) (s : stats) : stats := mkStats (num_inst s) (fadd (sum_metric s) x) (global_num_inst s) (fadd (global_sum_metric s) x).
Definition add_local_sum (x : F) (s : stats) : stats := mkStats (num_inst s) (fadd (sum_metric s) x) (global_num_inst s) (global_sum_metric s).
Definition add_nums (n : F) (s : stats) : stats := mkStats (fadd (num_inst s) n) (sum_metric s) (fadd (global_num_inst s) n) (global_sum_metric s).

(** [(a.flat == b.flat).sum()] *)
Definition matches (ps ls : list Z) : result F :=
  if (length ps =? length ls)%nat then Ok (fof (count_true (zip_with Z.eqb ps ls))) else Raise AttributeError.

Definition topk_one (top_k : Z) (label pred : nda F) : M stats unit :=
  _ ← massert (length (a_shape pred) <=? 2)%nat;
  let ls := map to_int (a_flat label) in
  let k := Z.to_nat top_k in
  match a_shape pred with
  | [n] =>
      if (n <? k)%nat then raise ValueError
      else
        l ← lift (a_len label);
        _ ← lift (same_len l (Z.of_nat n));
        c ← lift (matches (map Z.of_nat (argpartition (a_flat pred) k)) ls);
        _ ← modify (add_local_sum c);
        modify (add_nums (fof (Z.of_nat n)))
  | [n; c] =>
      if (c <? k)%nat then raise ValueError
      else
        let rows := map (fun row => map Z.of_nat (argpartition row k)) (blocks c n (a_flat pred)) in
        l ← lift (a_len label);
        _ ← lift (same_len l (Z.of_nat n));
        _ ← forM (fun j => x ← lift (matches (map (fun r => default 0 (r !! (c - 1 - j)%nat)) rows) ls); modify (add_sums x))
              (seq 0 (Nat.min c k));
        modify (add_nums (fof (Z.of_nat n)))
  | _ => raise ValueError
  end.

(** [update_binary_stats] *)
Definition classify (p : Z * Z) : counts :=
  let '(pred, label) := p in
  match pred =? 1, label =? 1 with
  | true, true => mkCounts 1 0 0 0
  | false, true => mkCounts 0 1 0 0
  | true, false => mkCounts 0 0 1 0
  | false, false => mkCounts 0 0 0 1
  end.
Definition counts_of (l : list (Z * Z)) : counts := fold_left (fun c p => add_counts c (classify p)) l zero_counts.

Definition binary_counts (label pred : nda F) : result counts :=
  pl ← (match a_shape pred with
        | n :: S d :: s => Ok (mkNda (n :: s) (map (fun l => Z.of_nat (argmax l)) (axis_lanes 1 pred)))
        | _ => Raise ValueError
        end);
  l ← a_len label;
  p ← a_len pred;
  _ ← same_len l p;
  let ls := map to_int (a_flat label) in
  if 2 <? py_len (nodup Z.eq_dec ls) then Raise ValueError
  else prs ← broadcast pl (mkNda (a_shape label) ls); Ok (counts_of prs).

Definition update_binary_stats (label pred : nda F) : M bstats unit :=
  c ← lift (binary_counts label pred);
  modify (fun b => mkB (add_counts (b_local b) c) (add_counts (b_global b) c)).

Definition precision (c : counts) : F := if 0 <? tp c + fp c then fdiv (fof (tp c)) (fof (tp c + fp c)) else fof 0.
Definition recall (c : counts) : F := if 0 <? tp c + fn c then fdiv (fof (tp c)) (fof (tp c + fn c)) else fof 0.
Definition fscore (c : counts) : F :=
  if fltb (fof 0) (fadd (precision c) (recall c))
  then fdiv (fmul (fmul (fof 2) (precision c)) (recall c)) (fadd (precision c) (recall c)) else fof 0.
Definition matthewscc (c : counts) : F :=
  if total_examples c =? 0 then fof 0
  else
    let terms := [tp c + fp c; tp c + fn c; tn c + fp c; tn c + fn c] in
    let denom := fold_left (fun d t => fmul d (fof t)) (filter (fun t => t <> 0) terms) (fof 1) in
    fdiv (fsub (fmul (fof (tp c)) (fof (tn c))) (fmul (fof (fp c)) (fof (fn c)))) (fsqrt denom).

(** [update] of [F1] and [MCC], by their score. *)
Definition binary_update (score : counts -> F) (average : string) (l : list (nda F * nda F)) : M (bstats * stats) unit := fun bs =>
  let '(r, b) := forM (fun x => update_binary_stats x.1 x.2) l bs.1 in
  let s := bs.2 in
  match r with
  | Raise e => (Raise e, (b, s))
  | Ok _ =>
      if str_eqb average "macro" then
        (Ok tt, (mkB zero_counts zero_counts,
                 mkStats (fadd (num_inst s) (fof 1)) (fadd (sum_metric s) (score (b_local b)))
                   (fadd (global_num_inst s) (fof 1)) (fadd (global_sum_metric s) (score (b_global b)))))
      else
        (Ok tt, (b, mkStats (fof (total_examples (b_local b))) (fmul (score (b_local b)) (fof (total_examples (b_local b))))
                      (fof (total_examples (b_global b))) (fmul (score (b_global b)) (fof (total_examples (b_global b))))))
  end.

(** [Perplexity]: [pick] along an axis with clipped indices, and the loss and number of one
    prediction. *)
Definition pick (axis : Z) (pred : nda F) (ls : list Z) : result (list F) :=
  let s := a_shape pred in
  match norm_axis (length s) axis with
  | None => Raise MXNetError
  | Some a =>
      let want := if (length s =? 1)%nat then [1%nat] else take a s ++ drop (S a) s in
      if bool_decide (want = [length ls])
      then Ok (zip_with (fun l i => default fnan (l !! Nat.min (Z.to_nat i) (length l - 1))) (axis_lanes a pred) ls)
      else Raise MXNetError
  end.

Definition tiny : F := fdiv (fof 1) (fof (10 ^ 10)).
Definition perplexity_one (ignore_label : option Z) (axis : Z) (label pred : nda F) (acc : F * F) : result (F * F) :=
  match last (a_shape pred) with
  | None => Raise IndexError
  | Some 0%nat => Raise ZeroDivisionError
  | Some d =>
      _ ← py_assert (size (a_shape label) * d =? size (a_shape pred))%nat;
      p ← pick axis pred (map to_int (a_flat label));
      let '(loss, num) := acc in
      let '(p, num) :=
        match ignore_label with
        | Some i =>
            let ignore := map (fun l => if fzero (fsub l (fof i)) then fof 1 else fof 0) (a_flat label) in
            (zip_with (fun x g => fadd (fmul x (fsub (fof 1) g)) g) p ignore, fsub num (fsum ignore))
        | None => (p, num)
        end in
      let logs := map (fun x => flog (if fltb x tiny then tiny else x)) p in
      Ok (fsub loss (fsum logs), fadd num (fof (py_len p)))
  end.
Fixpoint perplexity_all (ignore_label : option Z) (axis : Z) (l : list (nda F * nda F)) (acc : F * F) : result (F * F) :=
  match l with
  | [] => Ok acc
  | (label, pred) :: l => acc ← perplexity_one ignore_label axis label pred acc; perplexity_all ignore_label axis l acc
  end.

Definition custom_one (feval : nda F -> nda F -> result (F + F * F)) (label pred : nda F) : result (F * F) :=
  r ← feval label pred; Ok (match r with inl x => (x, fof 1) | inr xn => xn end).

(** [Loss]: the elements of the predictions. *)
Definition Loss_update (preds : arrays) : M stats unit :=
  forM (fun p => modify (add_stats (fsum (a_flat p)) (fof (py_len (a_flat p))))) (wrapped preds).

(** [update] of every class but the composite. *)
Definition on_stats {B} (m : M stats unit) : M (B * stats) unit := fun s => let '(r, t) := m s.2 in (r, (s.1, t)).
Definition plain_update (labels preds : arrays) : M (kind * stats) unit := fun ks =>
  let binary score average b mk :=
    match check_label_shapes labels preds with
    | Raise e => (Raise e, ks)
    | Ok lp => let '(r, (b, s)) := binary_update score average (pairs_of lp) (b, ks.2) in (r, (mk b, s))
    end in
  match ks.1 with
  | TopKAccuracy k =>
      (lp ← lift (check_label_shapes labels preds); on_stats (forM (fun x => topk_one k x.1 x.2) (pairs_of lp))) ks
  | F1 average b => binary fscore average b (F1 average)
  | MCC average b => binary matthewscc average b (MCC average)
  | Perplexity ignore axis =>
      (l ← lift (arrays_len labels);
       p ← lift (arrays_len preds);
       _ ← massert (l =? p);
       ls ← lift (iterated labels);
       ps ← lift (iterated preds);
       '(loss, num) ← lift (perplexity_all ignore axis (zip ls ps) (fof 0, fof 0));
       on_stats (modify (add_stats loss num))) ks
  | Loss _ => on_stats (Loss_update preds) ks
  | CustomMetric feval allow =>
      (lp ← lift (if allow then ps ← iterated preds; ls ← iterated labels; Ok (ls, ps) else check_label_shapes labels preds);
       on_stats (update_pairs (custom_one feval) (pairs_of lp))) ks
  | k =>
      (lp ← lift (check_label_shapes labels preds);
       on_stats (update_pairs (fun l p => default (Raise NotImplementedError) (pair_value k l p)) (pairs_of lp))) ks
  end.

(** The loop over the children of a composite: the first that raises stops it. *)
Definition children (f : metric -> result unit * metric) : list metric -> result unit * list metric :=
  fix go l :=
    match l with
    | [] => (Ok tt, [])
    | m :: l =>
        match f m with
        | (Raise e, m) => (Raise e, m :: l)
        | (Ok _, m) => let '(r, l) := go l in (r, m :: l)
        end
    end.

Fixpoint update (labels preds : arrays) (m : metric) : result unit * metric :=
  match m with
  | Plain a k s => let '(r, (k, s)) := plain_update labels preds (k, s) in (r, Plain a k s)
  | Composite a l => let '(r, l) := children (update labels preds) l in (r, Composite a l)
  end.

(** [update_dict]: the arrays by name, and all in order without names. *)
Definition named (names : option (list string)) (d : list (string * nda F)) : result (list (nda F)) :=
  match names with
  | Some ns => mapR (fun n => match od_get n d with Some a => Ok a | None => Raise KeyError end) ns
  | None => Ok (map snd d)
  end.
Definition restrict (names : option (list string)) (d : list (string * nda F)) : list (string * nda F) :=
  match names with
  | Some ns => filter (fun x => x.1 ∈ ns) d
  | None => d
  end.
Fixpoint update_dict (label pred : list (string * nda F)) (m : metric) : result unit * metric :=
  match m with
  | Plain a k s =>
      match named (output_names a) pred with
      | Raise e => (Raise e, m)
      | Ok ps =>
          match named (label_names a) label with
          | Raise e => (Raise e, m)
          | Ok ls => update (Many ls) (Many ps) m
          end
      end
  | Composite a l =>
      let '(r, l) := children (update_dict (restrict (label_names a) label) (restrict (output_names a) pred)) l in (r, Composite a l)
  end.

(** [reset] and [reset_local] *)
Definition reset_kind (k : kind) : kind :=
  match k with
  | F1 av _ => F1 av (mkB zero_counts zero_counts)
  | MCC av _ => MCC av (mkB zero_counts zero_counts)
  | k => k
  end.
Definition reset_local_kind (k : kind) : kind :=
  match k with
  | F1 av b => F1 av (mkB zero_counts (b_global b))
  | MCC av b => MCC av (mkB zero_counts (b_global b))
  | k => k
  end.
Fixpoint reset (m : metric) : metric :=
  match m with
  | Plain a k _ => Plain a (reset_kind k) zero_stats
  | Composite a l => Composite a (map reset l)
  end.
Fixpoint reset_local (m : metric) : metric :=
  match m with
  | Plain a k s => Plain a (reset_local_kind k) (local_zero s)
  | Composite a l => Composite a (map reset_local l)
  end.

(** [get] and [get_global], as [get_name_value] pairs them. *)
Definition ratio (k : kind) (x n : F) : F :=
  if fzero n then fnan else match k with Perplexity _ _ => fexp (fdiv x n) | _ => fdiv x n end.
Fixpoint get_name_value (m : metric) : list (string * F) :=
  match m with
  | Plain a k s => [(m_name a, ratio k (sum_metric s) (num_inst s))]
  | Composite _ l => concat (map get_name_value l)
  end.
Fixpoint get_global_name_value (m : metric) : list (string * F) :=
  match m with
  | Plain a k s => [(m_name a, ratio k (global_sum_metric s) (global_num_inst s))]
  | Composite _ l => concat (map get_global_name_value l)
  end.
End Metrics.

(** ** Local and global results *)

Section Global.
Context {F : Type} `{Float F} `{FloatMath F} `{MetricMath F}.
Context (argpartition : list F -> nat -> list nat) (corrcoef : list F -> list F -> F).
Notation metric := (metric (F := F)).
Notation arrays := (arrays (F := F)).

(** Uses of a metric between two calls of [reset]. *)
Inductive mop :=
  | OUpdate (labels preds : arrays)
  | OUpdateDict (label pred : list (string * nda F))
  | OResetLocal.
Definition run_op (op : mop) (m : metric) : result unit * metric :=
  match op with
  | OUpdate l p => update argpartition corrcoef l p m
  | OUpdateDict l p => update_dict argpartition corrcoef l p m
  | OResetLocal => (Ok tt, reset_local m)
  end.
Definition run_ops (ops : list mop) (m : metric) : metric := fold_left (fun m op => (run_op op m).2) ops m.

Definition is_update (op : mop) : bool := match op with OResetLocal => false | _ => true end.

(** Predictions that are not plain vectors. *)
Definition not_vector (a : nda F) : Prop := length (a_shape a) <> 1%nat.
Definition op_matrices (op : mop) : Prop :=
  match op with
  | OUpdate _ p => Forall not_vector (wrapped p)
  | OUpdateDict _ p => Forall (fun x => not_vector x.2) p
  | OResetLocal => True
  end.
Fixpoint has_topk (m : metric) : bool :=
  match m with
  | Plain _ (TopKAccuracy _) _ => true
  | Plain _ _ _ => false
  | Composite _ l => existsb has_topk l
  end.

(** [s] is [s'] with local resets: its global statistics are all of those of [s']. *)
Definition tw (s s' : stats (F := F)) : Prop :=
  global_num_inst s = num_inst s' /\ global_sum_metric s = sum_metric s' /\
  global_num_inst s = global_num_inst s' /\ global_sum_metric s = global_sum_metric s'.
Definition twb (b b' : bstats) : Prop := b_global b = b_local b' /\ b_global b = b_global b'.
Definition twk (k k' : kind (F := F)) : Prop :=
  match k, k' with
  | F1 a b, F1 a' b' | MCC a b, MCC a' b' => a = a' /\ twb b b'
  | F1 _ _, _ | MCC _ _, _ => False
  | k, k' => k = k'
  end.
Inductive twin : metric -> metric -> Prop :=
  | twin_plain a k k' s s' : twk k k' -> tw s s' -> twin (Plain a k s) (Plain a k' s')
  | twin_composite a l l' : Forall2 twin l l' -> twin (Composite a l) (Composite a l').

Lemma tw_add v n s s' : tw s s' -> tw (add_stats v n s) (add_stats v n s').
Proof. intros (E1 & E2 & E3 & E4). unfold tw. cbn. split_and!; congruence. Qed.
Lemma tw_sums v s s' : tw s s' -> tw (add_sums v s) (add_sums v s').
Proof. intros (E1 & E2 & E3 & E4). unfold tw. cbn. split_and!; congruence. Qed.
Lemma tw_nums v s s' : tw s s' -> tw (add_nums v s) (add_nums v s').
Proof. intros (E1 & E2 & E3 & E4). unfold tw. cbn. split_and!; congruence. Qed.
Hint Resolve tw_add tw_sums tw_nums sim_modify : sim.

Lemma update_pairs_sim value l : sim tw (update_pairs value l) (update_pairs value l).
Proof. apply sim_forM. intros x _. apply sim_bind; [auto with sim|]. intros [v n]. auto with sim. Qed.

Lemma topk_sim k label pred : not_vector pred -> sim tw (topk_one argpartition k label pred) (topk_one argpartition k label pred).
Proof.
  intros Hv. unfold topk_one. apply sim_bind; [by intros s s' Hs|]. intros _. unfold not_vector in Hv.
  destruct (a_shape pred) as [|n [|c [|]]]; try done; try apply sim_raise. destruct (c <? _)%nat; [apply sim_raise|].
  repeat (apply sim_bind; [auto with sim|intros ?]); [|auto with sim]. apply sim_forM. intros j _. auto with sim.
Qed.
Lemma binary_sim l : sim twb (forM (fun x : nda F * nda F => update_binary_stats x.1 x.2) l) (forM (fun x => update_binary_stats x.1 x.2) l).
Proof.
  apply sim_forM. intros x _. apply sim_bind; [auto with sim|]. intros c. apply sim_modify. intros s s' [-> E]. split; cbn; congruence.
Qed.

Lemma binary_update_sim score average l b b' s s' : twb b b' -> tw s s' ->
  let x := binary_update score average l (b, s) in
  let y := binary_update score average l (b', s') in
  x.1 = y.1 /\ twb x.2.1 y.2.1 /\ tw x.2.2 y.2.2.
Proof.
  intros Hb Hs. unfold binary_update. cbn [fst snd]. destruct (binary_sim l b b' Hb) as [Hr Ht].
  destruct (forM _ l b) as [r t], (forM _ l b') as [r' t']. cbn in *. subst r'. destruct r; [|by split_and!].
  destruct Ht as [Hl Hg]. destruct Hs as (En & Es & Egn & Egs).
  destruct (str_eqb average "macro"); cbn; (split; [done|]); split; try done; unfold tw, twb; cbn; rewrite <- ?Hl, <- ?Hg; split_and!; congruence.
Qed.

Definition twp (x y : kind (F := F) * stats (F := F)) : Prop := twk x.1 y.1 /\ tw x.2 y.2.
Lemma on_stats_sim m m' : sim tw m m' -> sim twp (on_stats m) (on_stats m').
Proof.
  intros Hm [k s] [k' s'] [Hk Hs]. unfold on_stats. cbn [fst snd] in *. destruct (Hm s s' Hs) as [Hr Ht].
  destruct (m s), (m' s'). by cbn in *.
Qed.
Hint Resolve on_stats_sim update_pairs_sim : sim.

Definition is_topk (k : kind (F := F)) : bool := match k with TopKAccuracy _ => true | _ => false end.

Lemma check_wraps (labels preds : arrays) lp : check_label_shapes labels preds = Ok lp -> lp = (wrapped labels, wrapped preds).
Proof.
  unfold check_label_shapes, same_len. destruct (arrays_len labels) as [l|], (arrays_len preds) as [p|]; cbn; try done.
  destruct (l =? p); cbn; congruence.
Qed.

Lemma plain_update_sim labels preds (k k' : kind (F := F)) s s' :
  twk k k' -> tw s s' -> is_topk k = false \/ Forall not_vector (wrapped preds) ->
  let x := plain_update argpartition corrcoef labels preds (k, s) in
  let y := plain_update argpartition corrcoef labels preds (k', s') in
  x.1 = y.1 /\ twp x.2 y.2.
Proof.
  intros Hk Hs Hv.
  assert (forall m : M (kind * stats) unit, k = k' -> sim twp m m -> (m (k, s)).1 = (m (k', s')).1 /\ twp (m (k, s)).2 (m (k', s')).2) as Hsim.
  { intros m -> Hm. by apply Hm. }
  destruct k; cbn in Hk; try subst k'; unfold plain_update; cbn [fst snd];
    try (apply (Hsim _ eq_refl); repeat (apply sim_bind; [auto with sim|intros ?]); by auto with sim).
  - destruct Hv as [|Hv]; [done|]. destruct (check_label_shapes labels preds) as [lp|] eqn:Elp; [|by split].
    apply check_wraps in Elp as ->. apply (Hsim (on_stats (forM (fun x => topk_one argpartition top_k x.1 x.2) _)) eq_refl).
    apply on_stats_sim, sim_forM. intros [l p] Hx. apply topk_sim. rewrite Forall_forall in Hv. by apply Hv, (elem_of_zip_r l _ (wrapped labels)).
  - destruct k'; try done. destruct Hk as [<- Hb]. destruct (check_label_shapes labels preds) as [lp|]; [|by split].
    pose proof (binary_update_sim fscore average (pairs_of lp) b b0 s s' Hb Hs) as (Hr & Hb' & Hs').
    destruct (binary_update _ _ _ (b, s)) as [r [b1 s1]], (binary_update _ _ _ (b0, s')) as [r' [b1' s1']]. by cbn in *.
  - destruct k'; try done. destruct Hk as [<- Hb]. destruct (check_label_shapes labels preds) as [lp|]; [|by split].
    pose proof (binary_update_sim matthewscc average (pairs_of lp) b b0 s s' Hb Hs) as (Hr & Hb' & Hs').
    destruct (binary_update _ _ _ (b, s)) as [r [b1 s1]], (binary_update _ _ _ (b0, s')) as [r' [b1' s1']]. by cbn in *.
  - apply (Hsim _ eq_refl). do 5 (apply sim_bind; [by intros ? ? ?|intros ?]). apply sim_bind; [auto with sim|]. intros [loss num]. auto with sim.
  - apply (Hsim _ eq_refl), on_stats_sim, sim_forM. intros p _. auto with sim.
Qed.

(** Induction over a metric and its children. *)
Definition metric_children_ind (P : metric -> Prop) (Hp : forall a k s, P (Plain a k s))
    (Hc : forall a l, Forall P l -> P (Composite a l)) : forall m, P m :=
  fix go m :=
    match m with
    | Plain a k s => Hp a k s
    | Composite a l => Hc a l ((fix all l : Forall P l := match l with [] => Forall_nil_2 P | m :: l => Forall_cons_2 P m l (go m) (all l) end) l)
    end.

Lemma children_twin (f : metric -> result unit * metric) l : forall l', Forall2 twin l l' ->
  Forall (fun m => forall m', twin m m' -> (f m).1 = (f m').1 /\ twin (f m).2 (f m').2) l ->
  (children f l).1 = (children f l').1 /\ Forall2 twin (children f l).2 (children f l').2.
Proof.
  induction l as [|m l IH]; intros l' Hl Hf; [by apply Forall2_nil_inv_l in Hl as ->|].
  apply Forall2_cons_inv_l in Hl as (m' & l1 & Hm & Hl & ->). apply Forall_cons in Hf as [Hfm Hf]. cbn.
  destruct (Hfm m' Hm) as [Hr Ht], (IH l1 Hl Hf) as [Hr' Ht'].
  destruct (f m) as [[]], (f m') as [[]]; cbn in *; try done; [|split; [done|by constructor]].
  destruct (children f l), (children f l1). cbn in *. split; [done|by constructor].
Qed.

Lemma update_twin labels preds m : forall m', twin m m' -> has_topk m = false \/ Forall not_vector (wrapped preds) ->
  (update argpartition corrcoef labels preds m).1 = (update argpartition corrcoef labels preds m').1 /\
  twin (update argpartition corrcoef labels preds m).2 (update argpartition corrcoef labels preds m').2.
Proof.
  induction m as [a k s|a l IH] using metric_children_ind; intros m' Hm Hv; inversion_clear Hm as [? ? k' ? s' Hk Hs|? ? l' Hl]; cbn.
  - destruct (plain_update_sim labels preds k k' s s' Hk Hs) as [Hr [Hk' Hs']]; [by destruct k|].
    destruct (plain_update _ _ _ _ (k, s)) as [r [k1 s1]], (plain_update _ _ _ _ (k', s')) as [r' [k1' s1']]. cbn in *.
    split; [done|by constructor].
  - destruct (children_twin (update argpartition corrcoef labels preds) l l' Hl) as [Hr Ht].
    + cbn in Hv. rewrite Forall_forall in IH |- *. intros m0 Hm0 m1 Htw. apply IH; [done|done|]. destruct Hv as [Hv|]; [left|by right].
      rewrite <- not_true_iff_false in Hv |- *. intros Ht. apply Hv, existsb_exists. exists m0. by rewrite <- list_elem_of_In.
    + destruct (children _ l), (children _ l'). cbn in *. split; [done|by constructor].
Qed.
(** Updates keep the class. *)
Definition keeps (m : M (kind (F := F) * stats (F := F)) unit) : Prop := forall x, (m x).2.1 = x.1.
Lemma metric_keeps_lift {A} (r : result A) f : (forall a, keeps (f a)) -> keeps (lift r ≫= f).
Proof. intros Hf x. rewrite bind_M. destruct r; [apply Hf|done]. Qed.
Lemma keeps_on_stats m : keeps (on_stats m).
Proof. intros x. unfold on_stats. by destruct (m x.2). Qed.

Lemma plain_update_topk labels preds k s : is_topk (plain_update argpartition corrcoef labels preds (k, s)).2.1 = is_topk k.
Proof.
  assert (forall m : M (kind * stats) unit, keeps m -> is_topk (m (k, s)).2.1 = is_topk k) as Hk by (intros m Hm; by rewrite Hm).
  destruct k; unfold plain_update; cbn [fst snd];
    try (apply Hk; repeat (apply metric_keeps_lift; intros ?); repeat case_match; apply keeps_on_stats);
    destruct (check_label_shapes labels preds); try done; by destruct (binary_update _ _ _ _) as [? []].
Qed.

Lemma children_topk f l : Forall (fun m => has_topk (f m).2 = has_topk m) l -> existsb has_topk (children f l).2 = existsb has_topk l.
Proof.
  induction 1 as [|m l Hm _ IH]; [done|]. cbn. destruct (f m) as [[] m1]; cbn in *; [|by rewrite Hm].
  destruct (children f l). cbn in *. by rewrite Hm, IH.
Qed.

Lemma update_topk labels preds m : has_topk (update argpartition corrcoef labels preds m).2 = has_topk m.
Proof.
  induction m as [a k s|a l IH] using metric_children_ind; cbn.
  - pose proof (plain_update_topk labels preds k s) as Hk. destruct (plain_update _ _ _ _ _) as [r [k1 s1]]. cbn in *.
    by destruct k1, k.
  - pose proof (children_topk _ _ IH) as Hl. by destruct (children _ l).
Qed.

Lemma update_dict_topk m : forall label pred, has_topk (update_dict argpartition corrcoef label pred m).2 = has_topk m.
Proof.
  induction m as [a k s|a l IH] using metric_children_ind; intros label pred; cbn -[update].
  - destruct (named _ _); [|done]. destruct (named _ _); [apply update_topk|done].
  - match goal with |- context [children ?f l] => pose proof (children_topk f l) as Hl; destruct (children f l) end.
    apply Hl. eapply Forall_impl; [exact IH|]. intros m Hm. apply Hm.
Qed.

Lemma reset_local_topk m : has_topk (reset_local m) = has_topk m.
Proof.
  induction m as [a k s|a l IH] using metric_children_ind; cbn; [by destruct k|]. induction IH as [|m l Hm _ IH]; [done|]. cbn in *. by rewrite Hm, IH.
Qed.

Lemma named_sub (P : nda F -> Prop) names d l : Forall (fun x => P x.2) d -> named names d = Ok l -> Forall P l.
Proof.
  intros Hd. unfold named. destruct names as [ns|]; [|intros [= <-]; by apply Forall_map].
  revert l. induction ns as [|n ns IH]; intros l; cbn; [by intros [= <-]|]. destruct (od_get n d) as [a|] eqn:Ea; [|done]. cbn.
  destruct (mapR _ ns) as [bs|]; [|done]. intros [= <-]. constructor; [|by apply IH].
  apply od_get_elem in Ea. rewrite Forall_forall in Hd. exact (Hd (n, a) Ea).
Qed.

Lemma update_dict_twin m : forall label pred m', twin m m' -> has_topk m = false \/ Forall (fun x => not_vector x.2) pred ->
  (update_dict argpartition corrcoef label pred m).1 = (update_dict argpartition corrcoef label pred m').1 /\
  twin (update_dict argpartition corrcoef label pred m).2 (update_dict argpartition corrcoef label pred m').2.
Proof.
  induction m as [a k s|a l IH] using metric_children_ind; intros label pred m' Hm Hv;
    inversion Hm as [? ? k' ? s' Hk Hs|? ? l' Hl]; subst; cbn -[update].
  - destruct (named (output_names a) pred) as [ps|] eqn:Ep; [|done]. destruct (named (label_names a) label) as [ls|]; [|done].
    apply update_twin; [done|]. destruct Hv as [|Hv]; [by left|right]. by eapply named_sub.
  - match goal with |- context [children ?f l] => destruct (children_twin f l l' Hl) as [Hr Ht]; [|destruct (children f l), (children f l'); cbn in *; split; [done|by constructor]] end.
    cbn in Hv. rewrite Forall_forall in IH |- *. intros m0 Hm0 m1 Htw. apply IH; [done|done|]. destruct Hv as [Hv|Hv]; [left|right].
    + rewrite <- not_true_iff_false in Hv |- *. intros Ht. apply Hv, existsb_exists. exists m0. by rewrite <- list_elem_of_In.
    + unfold restrict. destruct (output_names a); [|done]. rewrite Forall_forall in Hv |- *.
      intros x [_ Hx]%list_elem_of_filter. by apply Hv.
Qed.

Lemma reset_local_twin m : forall m', twin m m' -> twin (reset_local m) m'.
Proof.
  induction m as [a k s|a l IH] using metric_children_ind; intros m' Hm; inversion_clear Hm as [? ? k' ? s' Hk Hs|? ? l' Hl]; cbn; constructor.
  - destruct k, k'; cbn in *; try done; by destruct Hk as [-> [? ?]].
  - by destruct Hs as (? & ? & ? & ?).
  - revert l' Hl. induction IH as [|m l Hm _ IHl]; intros l' Hl; [by apply Forall2_nil_inv_l in Hl as ->|].
    apply Forall2_cons_inv_l in Hl as (m1 & l1 & Hmm & Hl & ->). cbn. constructor; [by apply Hm|by apply IHl].
Qed.
Lemma reset_twin m : twin (reset m) (reset m).
Proof.
  induction m as [a k s|a l IH] using metric_children_ind; cbn; constructor; [by destruct k|by split_and!|].
  induction IH; cbn; by constructor.
Qed.
Lemma reset_topk m : has_topk (reset m) = has_topk m.
Proof.
  induction m as [a k s|a l IH] using metric_children_ind; cbn; [by destruct k|]. induction IH as [|m l Hm _ IH]; [done|]. cbn in *. by rewrite Hm, IH.
Qed.

Lemma twin_values m : forall m', twin m m' -> get_global_name_value m = get_name_value m'.
Proof.
  induction m as [a k s|a l IH] using metric_children_ind; intros m' Hm; inversion_clear Hm as [? ? k' ? s' Hk Hs|? ? l' Hl]; cbn.
  - destruct Hs as (-> & -> & _). destruct k, k'; cbn in *; by simplify_eq.
  - revert l' Hl. induction IH as [|m l Hm _ IHl]; intros l' Hl; [by apply Forall2_nil_inv_l in Hl as ->|].
    apply Forall2_cons_inv_l in Hl as (m1 & l1 & Hmm & Hl & ->). cbn. rewrite (Hm m1 Hmm). f_equal. by apply IHl.
Qed.

Lemma run_op_topk op m : has_topk (run_op op m).2 = has_topk m.
Proof. destruct op; cbn; [apply update_topk|apply update_dict_topk|apply reset_local_topk]. Qed.

Lemma run_ops_twin ops : forall m m', twin m m' -> has_topk m = false \/ Forall op_matrices ops ->
  twin (run_ops ops m) (run_ops (filter (fun op => is_update op = true) ops) m').
Proof.
  induction ops as [|op ops IH]; intros m m' Hm Hv; [done|]. rewrite filter_cons. cbn.
  assert (has_topk (run_op op m).2 = false \/ Forall op_matrices ops) as Hv'.
  { rewrite run_op_topk. destruct Hv as [|Hv]; [by left|right]. by apply Forall_cons in Hv as [_ ?]. }
  destruct op as [l p|l p|]; cbn -[run_op]; (apply IH; [|done]); cbn.
  - apply update_twin; [done|]. destruct Hv as [|Hv]; [by left|right]. by apply Forall_cons in Hv as [? _].
  - apply update_dict_twin; [done|]. destruct Hv as [|Hv]; [by left|right]. by apply Forall_cons in Hv as [? _].
  - by apply reset_local_twin.
Qed.

(** C25: Resetting the local statistics of a metric any number of times, between updates that
    may fail, does not change its global result: it is the result of the same updates
    without resets.  This holds for all classes and their compositions, except that
    [TopKAccuracy] needs predictions that are not vectors. *)
Theorem global_ignores_local_resets (ops : list mop) (m : metric) :
  has_topk m = false \/ Forall op_matrices ops ->
  get_global_name_value (run_ops ops (reset m)) =
    get_name_value (run_ops (filter (fun op => is_update op = true) ops) (reset m)).
Proof. intros Hv. apply twin_values, run_ops_twin; [apply reset_twin|by rewrite reset_topk]. Qed.
End Global.
