(* ===== verification/MetricConfig.v ===== *)
(** * Configurations of metrics

    [get_config] of the metrics ([metric.py]) and the creation of a metric from a name or a
    configuration: the registry of classes ([registry.py]) and the constructors with their
    keyword arguments.  Configurations are dictionaries, as association lists; a value of a
    kind that the constructor does not use is refused here. *)

From Stdlib Require Import QArith.
From S2P Require Import Prelude NDArray Array LRScheduler Scope Optimizer SGD Vocab Metric.
Open Scope Z_scope.

(** ** The registry *)

Section Registry.
Context {C : Type}.
(** [register(klass, name)]: a later class takes the name over, with a warning. *)
Definition register (klass : C) (name : string) (r : gmap string C) : gmap string C := <[lower name := klass]> r.
Definition alias (klass : C) (names : list string) (r : gmap string C) : gmap string C :=
  fold_left (fun r n => register klass n r) names r.
(** [name.lower()] in the registry. *)
Definition find (r : gmap string C) (name : string) : result C :=
  match r !! lower name with Some k => Ok k | None => Raise AssertionError end.
End Registry.

(** The classes, with their names and aliases in the order of the file. *)
Inductive klass :=
  | KComposite | KAccuracy | KTopK | KF1 | KMCC | KPerplexity | KMAE | KMSE | KRMSE | KCrossEntropy | KNLL | KPearson
  | KLoss (c : loss_class) | KCustom.

Definition class_name (k : klass) : string :=
  match k with
  | KComposite => "CompositeEvalMetric" | KAccuracy => "Accuracy" | KTopK => "TopKAccuracy" | KF1 => "F1" | KMCC => "MCC"
  | KPerplexity => "Perplexity" | KMAE => "MAE" | KMSE => "MSE" | KRMSE => "RMSE" | KCrossEntropy => "CrossEntropy"
  | KNLL => "NegativeLogLikelihood" | KPearson => "PearsonCorrelation" | KLoss LossC => "Loss" | KLoss TorchC => "Torch"
  | KLoss CaffeC => "Caffe" | KCustom => "CustomMetric"
  end.
Definition aliases (k : klass) : list string :=
  match k with
  | KComposite => ["composite"] | KAccuracy => ["acc"] | KTopK => ["top_k_accuracy"; "top_k_acc"] | KCrossEntropy => ["ce"]
  | KNLL => ["nll_loss"] | KPearson => ["pearsonr"] | _ => []
  end%string.
Definition classes : list klass :=
  [KComposite; KAccuracy; KTopK; KF1; KMCC; KPerplexity; KMAE; KMSE; KRMSE; KCrossEntropy; KNLL; KPearson;
   KLoss LossC; KLoss TorchC; KLoss CaffeC; KCustom].
Definition metric_registry : gmap string klass :=
  fold_left (fun r k => register k (class_name k) (alias k (aliases k) r)) classes ∅.

Section Configs.
Context {F : Type} `{Float F}.
Context (default_eps : F).
Notation metric := (metric (F := F)).

(** ** Keyword arguments *)

Inductive cval :=
  | VNone
  | VStr (s : string)
  | VInt (z : Z)
  | VNum (x : F)
  | VNames (l : list string)
  | VConfigs (l : list (list (string * cval))).
Notation config := (list (string * cval)).

Definition vopt (o : option (list string)) : cval := match o with Some l => VNames l | None => VNone end.

(** The class of a metric, and the arguments it saves. *)
Definition kind_class (k : kind (F := F)) : klass :=
  match k with
  | Accuracy _ => KAccuracy | TopKAccuracy _ => KTopK | F1 _ _ => KF1 | MCC _ _ => KMCC | Perplexity _ _ => KPerplexity
  | MAE => KMAE | MSE => KMSE | RMSE => KRMSE | CrossEntropy _ => KCrossEntropy | NegativeLogLikelihood _ => KNLL
  | PearsonCorrelation => KPearson | Loss c => KLoss c | CustomMetric _ _ => KCustom
  end.
Definition saved_args (k : kind (F := F)) : config :=
  match k with
  | Accuracy axis => [("axis", VInt axis)]
  | TopKAccuracy n => [("top_k", VInt n)]
  | Perplexity i _ => [("ignore_label", match i with Some i => VInt i | None => VNone end)]
  | CrossEntropy eps | NegativeLogLikelihood eps => [("eps", VNum eps)]
  | _ => []
  end%string.
Definition common (k : klass) (a : metric_attrs) : config :=
  [("metric", VStr (class_name k)); ("name", VStr (m_name a)); ("output_names", vopt (output_names a));
   ("label_names", vopt (label_names a))]%string.

Fixpoint get_config (m : metric) : result config :=
  match m with
  | Plain _ (CustomMetric _ _) _ => Raise NotImplementedError
  | Plain a k _ => Ok (saved_args k ++ common (kind_class k) a)
  | Composite a l =>
      cs ← (fix go l := match l with [] => Ok [] | m :: l => c ← get_config m; cs ← go l; Ok (c :: cs) end) l;
      Ok (common KComposite a ++ [("metrics"%string, VConfigs cs)])
  end.

(** ** Constructors *)

(** An argument by keyword, converted, or its default. *)
Definition kw_value {A} (kw : config) (key : string) (conv : cval -> option A) (default : option A) : result A :=
  match od_get key kw with
  | Some v => match conv v with Some a => Ok a | None => Raise TypeError end
  | None => match default with Some a => Ok a | None => Raise TypeError end
  end.
Definition as_str (v : cval) : option string := match v with VStr s => Some s | _ => None end.
Definition as_int (v : cval) : option Z := match v with VInt z => Some z | _ => None end.
Definition as_num (v : cval) : option F := match v with VNum x => Some x | _ => None end.
Definition as_label (v : cval) : option (option Z) := match v with VInt z => Some (Some z) | VNone => Some None | _ => None end.
Definition as_names (v : cval) : option (option (list string)) := match v with VNames l => Some (Some l) | VNone => Some None | _ => None end.
Definition as_configs (v : cval) : option (list config) := match v with VConfigs l => Some l | VNone => Some [] | _ => None end.

(** Unexpected keywords are refused. *)
Definition only (keys : list string) (kw : config) : result unit :=
  if forallb (fun p => bool_decide (p.1 ∈ (["name"; "output_names"; "label_names"]%string ++ keys))) kw then Ok tt else Raise TypeError.
Definition base_args (kw : config) (name : string) : result metric_attrs :=
  name ← kw_value kw "name" as_str (Some name);
  o ← kw_value kw "output_names" as_names (Some None);
  l ← kw_value kw "label_names" as_names (Some None);
  Ok (mkAttrs name o l).

Definition digits_suffix (n : Z) : string := "_" +:+ dec n.
Definition no_counts : bstats := mkB zero_counts zero_counts.

Definition plain_init (k : klass) (kw : config) : result metric :=
  let with_kind keys name (mk : result (kind (F := F))) :=
    _ ← only keys kw; k ← mk; a ← base_args kw name; Ok (Plain a k zero_stats) in
  match k with
  | KAccuracy => with_kind ["axis"] "accuracy" (x ← kw_value kw "axis" as_int (Some 1); Ok (Accuracy x))
  | KTopK =>
      _ ← only ["top_k"] kw;
      n ← kw_value kw "top_k" as_int (Some 1);
      a ← base_args kw "top_k_accuracy";
      _ ← py_assert (1 <? n)%Z;
      Ok (Plain (mkAttrs (m_name a +:+ digits_suffix n) (output_names a) (label_names a)) (TopKAccuracy n) zero_stats)
  | KF1 => with_kind ["average"] "f1" (x ← kw_value kw "average" as_str (Some "macro"); Ok (F1 x no_counts))
  | KMCC => with_kind ["average"] "mcc" (x ← kw_value kw "average" as_str (Some "macro"); Ok (MCC x no_counts))
  | KPerplexity => with_kind ["ignore_label"; "axis"] "perplexity"
      (i ← kw_value kw "ignore_label" as_label None; x ← kw_value kw "axis" as_int (Some (-1)); Ok (Perplexity i x))
  | KMAE => with_kind [] "mae" (Ok MAE)
  | KMSE => with_kind [] "mse" (Ok MSE)
  | KRMSE => with_kind [] "rmse" (Ok RMSE)
  | KCrossEntropy => with_kind ["eps"] "cross-entropy" (x ← kw_value kw "eps" as_num (Some default_eps); Ok (CrossEntropy x))
  | KNLL => with_kind ["eps"] "nll-loss" (x ← kw_value kw "eps" as_num (Some default_eps); Ok (NegativeLogLikelihood x))
  | KPearson => with_kind [] "pearsonr" (Ok PearsonCorrelation)
  | KLoss LossC => with_kind [] "loss" (Ok (Loss LossC))
  | KLoss TorchC => with_kind [] "torch" (Ok (Loss TorchC))
  | KLoss CaffeC => with_kind [] "caffe" (Ok (Loss CaffeC))
  | KComposite | KCustom => Raise TypeError
  end%string.

(** [kwargs.pop('metric')] *)
Definition pop_metric (kw : config) : result (cval * config) :=
  match od_get "metric"%string kw with
  | Some v => Ok (v, filter (fun p => p.1 <> "metric"%string) kw)
  | None => Raise KeyError
  end.

(** [json.loads] of a string with a name and its arguments, and of one with a dictionary. *)
Context (json_pair : string -> result (string * list (string * cval))) (json_dict : string -> result (list (string * cval))).

(** [create] on a name with keyword arguments, and on a dictionary; a composite creates its
    children.  The fuel bounds the nesting. *)
Fixpoint create_metric (fuel : nat) (name : string) (kw : config) : option (result metric) :=
  match fuel with
  | O => None
  | S fuel =>
      let create_dict kw :=
        match pop_metric kw with
        | Ok (VStr n, kw) => create_metric fuel n kw
        | Ok _ => Some (Raise AssertionError)
        | Raise e => Some (Raise e)
        end in
      if String.prefix "[" name then
        match (_ ← py_assert (bool_decide (length kw = 0%nat)); json_pair name) with
        | Ok (n, kw) => create_metric fuel n kw
        | Raise e => Some (Raise e)
        end
      else if String.prefix "{" name then
        match (_ ← py_assert (bool_decide (length kw = 0%nat)); json_dict name) with
        | Ok kw => create_dict kw
        | Raise e => Some (Raise e)
        end
      else
      match find metric_registry name with
      | Raise e => Some (Raise e)
      | Ok KComposite =>
          match (_ ← only ["metrics"%string] kw; a ← base_args kw "composite"; cs ← kw_value kw "metrics" as_configs (Some []); Ok (a, cs)) with
          | Raise e => Some (Raise e)
          | Ok (a, cs) =>
              (fix go (cs : list config) (acc : list metric) : option (result metric) :=
                 match cs with
                 | [] => Some (Ok (Composite a acc))
                 | c :: cs => match create_dict c with
                              | Some (Ok m) => go cs (acc ++ [m])
                              | r => r
                              end
                 end) cs []
          end
      | Ok k => Some (plain_init k kw)
      end
  end.
Definition create_config (fuel : nat) (c : config) : option (result metric) :=
  match pop_metric c with
  | Ok (VStr n, kw) => create_metric fuel n kw
  | Ok _ => Some (Raise AssertionError)
  | Raise e => Some (Raise e)
  end.

(** ** Round trips *)

(** What a configuration keeps. *)
Definition savable_kind (k : kind (F := F)) : bool :=
  match k with
  | TopKAccuracy _ | CustomMetric _ _ => false
  | F1 average _ | MCC average _ => str_eqb average "macro"
  | Perplexity _ axis => axis =? -1
  | _ => true
  end.
Fixpoint savable (m : metric) : bool :=
  match m with
  | Plain _ k _ => savable_kind k
  | Composite _ l => forallb savable l
  end.
Fixpoint height (m : metric) : nat :=
  match m with
  | Plain _ _ _ => 1
  | Composite _ l => S (foldr (fun m n => Nat.max (height m) n) 0%nat l)
  end.

Lemma find_class k : find metric_registry (class_name k) = Ok k.
Proof. by destruct k as [| | | | | | | | | | | |[]|]. Qed.

Lemma pop_plain (k : kind (F := F)) a :
  pop_metric (saved_args k ++ common (kind_class k) a) =
    Ok (VStr (class_name (kind_class k)), saved_args k ++ [("name"%string, VStr (m_name a)); ("output_names"%string, vopt (output_names a)); ("label_names"%string, vopt (label_names a))]).
Proof. by destruct k. Qed.

Lemma plain_round_trip a (k : kind (F := F)) s fuel : savable_kind k = true ->
  create_config (S fuel) (saved_args k ++ common (kind_class k) a) = Some (Ok (reset (Plain a k s))).
Proof.
  intros Hk. unfold create_config. rewrite pop_plain. cbn [create_metric].
  assert (String.prefix "[" (class_name (kind_class k)) = false /\ String.prefix "{" (class_name (kind_class k)) = false) as [-> ->]
    by (by destruct k as [| | | | | | | | | | |[]|]).
  rewrite find_class.
  destruct k as [x|n|av b|av b|i x| | | |e|e| |[]|f al]; cbn in Hk; try done;
    try (apply bool_decide_eq_true in Hk as ->); try (apply Z.eqb_eq in Hk as ->); destruct a as [n [o|] [l|]]; try reflexivity;
    by destruct i.
Qed.

(** The configurations of a list of metrics. *)
Definition get_configs : list metric -> result (list (list (string * cval))) :=
  fix go l := match l with [] => Ok [] | m :: l => c ← get_config m; cs ← go l; Ok (c :: cs) end.
Definition create_all (fuel : nat) (a : metric_attrs) : list (list (string * cval)) -> list metric -> option (result metric) :=
  fix go cs acc :=
    match cs with
    | [] => Some (Ok (Composite a acc))
    | c :: cs => match create_config fuel c with Some (Ok m) => go cs (acc ++ [m]) | r => r end
    end.

Lemma composite_created a fuel cs :
  create_config (S fuel) (common KComposite a ++ [("metrics"%string, VConfigs cs)]) = create_all fuel a cs [].
Proof. unfold create_config. destruct a as [n [o|] [l|]]; reflexivity. Qed.

(** Creating a metric from its configuration gives the metric after a reset, for
    compositions of all classes whose attributes are saved: all but user functions,
    [TopKAccuracy], [F1] and [MCC] with another average than "macro", and [Perplexity] with
    another axis than -1. *)
Theorem config_round_trip (m : metric) : savable m = true ->
  exists c, get_config m = Ok c /\ forall fuel, (height m <= fuel)%nat -> create_config fuel c = Some (Ok (reset m)).
Proof.
  induction m as [a k s|a l IH] using (metric_children_ind (F := F)); intros Hs.
  - exists (saved_args k ++ common (kind_class k) a). split; [by destruct k|]. intros [|fuel] Hf; [cbn in Hf; lia|]. by apply plain_round_trip.
  - assert (exists cs, get_configs l = Ok cs /\ forall fuel acc, Forall (fun m => height m <= fuel)%nat l ->
      create_all fuel a cs acc = Some (Ok (Composite a (acc ++ map reset l)))) as (cs & Hc & Hall).
    { cbn in Hs. clear -IH Hs. induction IH as [|m l Hm _ IH]; [exists []; split; [done|]; intros; cbn; by rewrite app_nil_r|].
      cbn in Hs. apply andb_true_iff in Hs as [Hs1 Hs]. destruct (Hm Hs1) as (c & Hc & Hcr), (IH Hs) as (cs & Hcs & Hall).
      exists (c :: cs). split; [cbn; by rewrite Hc; cbn; rewrite Hcs|]. intros fuel acc [Hf1 Hf]%Forall_cons. cbn.
      rewrite Hcr by done. rewrite Hall by done. by rewrite <- app_assoc. }
    exists (common KComposite a ++ [("metrics"%string, VConfigs cs)]). split; [cbn -[common]; fold get_configs; by rewrite Hc|].
    intros [|fuel] Hf; [cbn in Hf; lia|]. rewrite composite_created, Hall; [done|]. cbn in Hf. clear -Hf.
    induction l as [|m l IH]; constructor; cbn in Hf; [lia|]. apply IH. lia.
Qed.
End Configs.

(** ** Examples *)

#[local] Existing Instances Q_Float Q_FloatMath.
#[local] Instance Q_MetricMath : MetricMath Q := { fexp x := x; flog x := x; fnan := (-1)%Q; to_int q := Qnum q / Zpos (Qden q) }.

Definition no_pair (s : string) : result (string * list (string * cval (F := Q))) := Raise ValueError.
Definition no_dict (s : string) : result (list (string * cval (F := Q))) := Raise ValueError.
Definition unnamed (n : string) : metric_attrs := mkAttrs n None None.
Definition three_metrics : metric (F := Q) :=
  Composite (unnamed "composite")
    [Plain (unnamed "accuracy") (Accuracy 1) zero_stats; Plain (mkAttrs "f1" (Some ["out"%string]) None) (F1 "macro" no_counts) zero_stats;
     Composite (unnamed "inner") [Plain (unnamed "perplexity") (Perplexity (Some 0) (-1)) zero_stats]].

Lemma config_round_trip_witness :
  exists c, get_config three_metrics = Ok c /\ create_config (1 # 10)%Q no_pair no_dict 3 c = Some (Ok three_metrics).
Proof.
  destruct (config_round_trip (1 # 10)%Q no_pair no_dict three_metrics eq_refl) as (c & Hc & Hcr).
  exists c. split; [exact Hc|]. exact (Hcr 3%nat (le_n 3)).
Defined.

(** Attributes that configurations lose: the name of [TopKAccuracy] gets its suffix again,
    the average of [F1] and the axis of [Perplexity] fall back to their defaults. *)
Definition name_of (r : option (result (metric (F := Q)))) : option string :=
  match r with Some (Ok (Plain a _ _)) | Some (Ok (Composite a _)) => Some (m_name a) | _ => None end.
Definition recreated (r : option (result (metric (F := Q)))) : option (result metric) :=
  match r with
  | Some (Ok m) => match get_config m with Ok c => create_config (1 # 10)%Q no_pair no_dict 1 c | Raise e => Some (Raise e) end
  | r => r
  end.
Example topk_name_grows :
  let m := create_metric (1 # 10)%Q no_pair no_dict 1 "top_k_acc" [("top_k"%string, VInt 3)] in
  name_of m = Some "top_k_accuracy_3"%string /\ name_of (recreated m) = Some "top_k_accuracy_3_3"%string.
Proof. vm_compute. by split. Qed.
Example configs_lose_attributes :
  (c ← get_config (Plain (unnamed "f1") (F1 "micro" no_counts) zero_stats); Ok (create_config (1 # 10)%Q no_pair no_dict 1 c)) =
    Ok (Some (Ok (Plain (unnamed "f1") (F1 "macro" no_counts) zero_stats))) /\
  (c ← get_config (Plain (unnamed "p") (Perplexity None 1) zero_stats); Ok (create_config (1 # 10)%Q no_pair no_dict 1 c)) =
    Ok (Some (Ok (Plain (unnamed "p") (Perplexity None (-1)) zero_stats))).
Proof. vm_compute. by split. Qed.

(** Two updates with a local reset between them. *)
Definition vec (l : list Q) : nda Q := mkNda [length l] l.
Definition scores (l : list (list Q)) : nda Q := mkNda [length l; 2%nat] (concat l).
Definition first_batch : mop (F := Q) := OUpdate (Many [vec [0; 1]%Q]) (Many [scores [[3 # 10; 7 # 10]; [0; 1]]%Q]).
Definition second_batch : mop (F := Q) := OUpdate (Many [vec [1]%Q]) (Many [scores [[4 # 10; 6 # 10]]%Q]).
Definition first_positions (l : list Q) (k : nat) : list nat := seq 0 (length l).
Definition no_corr (a b : list Q) : Q := 0%Q.

Definition two_scores : metric (F := Q) :=
  Composite (unnamed "composite")
    [Plain (unnamed "accuracy") (Accuracy 1) zero_stats; Plain (unnamed "f1") (F1 "micro" no_counts) zero_stats].

Lemma global_ignores_local_resets_witness :
  let run ops := run_ops first_positions no_corr ops (reset two_scores) in
  get_global_name_value (run [first_batch; OResetLocal; second_batch]) = get_name_value (run [first_batch; second_batch]) /\
  get_global_name_value (run [first_batch; OResetLocal; second_batch]) = [("accuracy"%string, 2 # 3); ("f1"%string, 4 # 5)]%Q.
Proof.
  split; [|vm_compute; reflexivity].
  exact (global_ignores_local_resets first_positions no_corr [first_batch; OResetLocal; second_batch] two_scores (or_introl eq_refl)).
Defined.

(** On a vector of predictions, [TopKAccuracy] counts the samples but not the hits in its
    global statistics. *)
Example topk_vector_global :
  let m := run_ops first_positions no_corr [OUpdate (Many [vec [0; 1]%Q]) (Many [vec [3; 4]%Q])] (Plain (unnamed "top") (TopKAccuracy 2) zero_stats) in
  get_name_value m = [("top"%string, 1%Q)] /\ get_global_name_value m = [("top"%string, 0%Q)].
Proof. vm_compute. by split. Qed.
