(* ===== verification/MetricReal.v ===== *)
(** * What the metrics measure

    The metrics of [Metric] with the real numbers: the accuracy over any number of batches,
    and the scores of binary classification, in exact arithmetic. *)

From Stdlib Require Import Reals Lra.
From S2P Require Import Prelude NDArray Array LRScheduler Optimizer SGD OptReal Metric.
Open Scope Z_scope.

(** [astype('int32')] truncates. *)
Definition trunc (x : R) : Z := if Rlt_dec x 0 then - Int_part (- x) else Int_part x.

Lemma Int_part_IZR n : Int_part (IZR n) = n.
Proof. symmetry. apply Int_part_spec. pose proof (IZR_lt (n - 1) n) as Hn. rewrite minus_IZR in *. lra. Qed.

Lemma trunc_IZR n : trunc (IZR n) = n.
Proof.
  unfold trunc. destruct (Rlt_dec _ _); [|apply Int_part_IZR]. rewrite <- opp_IZR, Int_part_IZR. lia.
Qed.

Section Exact.
(** The value for "not a number". *)
Context (nan : R).
#[local] Instance R_MetricMath : MetricMath R := { fexp := exp; flog := ln; fnan := nan; to_int := trunc }.
Context (argpartition : list R -> nat -> list nat) (corrcoef : list R -> list R -> R).

(** ** Rows *)

Lemma lanes_blocks_concat {A} (c : nat) (rows : list (list A)) : Forall (fun r => length r = c) rows ->
  blocks c (length rows) (concat rows) = rows.
Proof.
  intros Hr. unfold blocks, chunk. apply list_eq. intros i. rewrite list_lookup_fmap.
  destruct (decide (i < length rows)%nat) as [Hi|Hi].
  - rewrite lookup_seq_lt by done. cbn. destruct (lookup_lt_is_Some_2 rows i Hi) as [r Er]. rewrite Er. f_equal.
    revert i Hi Er. induction Hr as [|r0 rows Hr0 Hr IH]; intros [|i] Hi Er; cbn in *; simplify_eq.
    + by rewrite drop_0, take_app_length' by done.
    + rewrite drop_app_ge by lia. replace (length r0 + i * length r0 - length r0)%nat with (i * length r0)%nat by lia. apply IH; [lia|done].
  - rewrite lookup_seq_ge by lia. rewrite lookup_ge_None_2; [done|lia].
Qed.

Lemma axis_lanes_rows (c : nat) (rows : list (list R)) : Forall (fun r => length r = c) rows ->
  axis_lanes 1 (mkNda [length rows; c] (concat rows)) = rows.
Proof.
  intros Hr. unfold axis_lanes, lanes. cbn [a_shape a_flat take drop size foldr lookup list_lookup default seq map]. change (Datatypes.id c) with c. rewrite !Nat.mul_1_r, lanes_blocks_concat by done.
  induction Hr as [|r rows Hl Hr IH]; [done|]. cbn. rewrite IH. f_equal. rewrite <- Hl. clear.
  assert (forall k, omap (fun j => r !! (j * 1 + 0)%nat) (seq k (length r - k)) = drop k r) as Hk; [|specialize (Hk 0%nat); by rewrite Nat.sub_0_r in Hk].
  intros k. remember (length r - k)%nat as n eqn:En. revert k En. induction n as [|n IH]; intros k En; cbn.
  - by rewrite drop_ge by lia.
  - rewrite Nat.mul_1_r, Nat.add_0_r. destruct (lookup_lt_is_Some_2 r k) as [x Ex]; [lia|]. rewrite Ex, IH by lia.
    by rewrite (drop_S r x k).
Qed.

(** The position of the largest score, and of the first one if there are several. *)
Lemma argmax_fold (l : list R) : forall i b y, (b < i)%nat ->
  let '(n, best, top) := fold_left (fun '(i, best, top) x => match top with
                                      | Some y => if fltb y x then (S i, i, Some x) else (S i, best, top)
                                      | None => (S i, i, Some x)
                                      end) l (i, b, Some y) in
  exists z, top = Some z /\ (y <= z)%R /\
    ((best = b /\ z = y /\ Forall (fun x => (x <= y)%R) l) \/
     (i <= best)%nat /\ l !! (best - i)%nat = Some z /\ (y < z)%R /\ (forall j x, l !! j = Some x -> (x <= z)%R) /\
       (forall j x, (j < best - i)%nat -> l !! j = Some x -> (x < z)%R)).
Proof.
  induction l as [|x l IH]; intros i b y Hb; cbn [fold_left].
  - exists y. split_and!; [done|lra|by left].
  - destruct (fltb y x) eqn:E; [apply fltb_spec in E|apply fltb_false in E].
    + specialize (IH (S i) i x ltac:(lia)). destruct (fold_left _ l _) as [[n best] top]. destruct IH as (z & -> & Hz & IH).
      exists z. split_and!; [done|lra|]. right. destruct IH as [(-> & -> & Hl)|(Hi & Hz' & Hlt & Hle & Hs)].
      * rewrite Nat.sub_diag. split_and!; [lia|done|done| |intros; lia].
        intros [|j] w Hw; cbn in Hw; [injection Hw as <-; lra|]. rewrite Forall_lookup in Hl. eauto.
      * replace (best - i)%nat with (S (best - S i)) by lia. split_and!; [lia|done|lra| |].
        -- intros [|j] w Hw; cbn in Hw; [injection Hw as <-; lra|eauto].
        -- intros [|j] w Hj Hw; cbn in Hw; [injection Hw as <-; lra|]. apply (Hs j); [lia|done].
    + specialize (IH (S i) b y ltac:(lia)). destruct (fold_left _ l _) as [[n best] top]. destruct IH as (z & -> & Hz & IH).
      exists z. split_and!; [done|lra|]. destruct IH as [(-> & -> & Hl)|(Hi & Hz' & Hlt & Hle & Hs)]; [left; auto|right].
      replace (best - i)%nat with (S (best - S i)) by lia. split_and!; [lia|done|lra| |].
      -- intros [|j] w Hw; cbn in Hw; [injection Hw as <-; lra|eauto].
      -- intros [|j] w Hj Hw; cbn in Hw; [injection Hw as <-; lra|]. apply (Hs j); [lia|done].
Qed.

Lemma argmax_first (l : list R) : l <> [] -> exists z, l !! argmax l = Some z /\
  (forall j x, l !! j = Some x -> (x <= z)%R) /\ (forall j x, (j < argmax l)%nat -> l !! j = Some x -> (x < z)%R).
Proof.
  destruct l as [|x l]; [done|]. intros _. unfold argmax. cbn [fold_left]. pose proof (argmax_fold l 1 0 x ltac:(lia)) as Hf.
  destruct (fold_left _ l _) as [[n best] top]. cbn. destruct Hf as (z & -> & Hz & [(-> & -> & Hl)|(Hi & Hz' & Hlt & Hle & Hs)]).
  - exists x. split_and!; [done| |intros; lia]. intros [|j] w Hw; cbn in Hw; [injection Hw as <-; lra|]. rewrite Forall_lookup in Hl. eauto.
  - exists z. destruct best as [|best]; [lia|]. replace (S best - 1)%nat with best in * by lia. split_and!; [done| |].
    + intros [|j] w Hw; cbn in Hw; [injection Hw as <-; lra|eauto].
    + intros [|j] w Hj Hw; cbn in Hw; [injection Hw as <-; lra|]. apply (Hs j); [lia|done].
Qed.

(** ** Batches of scores *)

(** A batch: the labels, and the scores of the classes for each sample. *)
Definition batch : Type := list Z * list (list R).
Definition ok_batch (c : nat) (b : batch) : Prop := length b.1 = length b.2 /\ Forall (fun r => length r = c) b.2.
Definition label_array (b : batch) : nda R := mkNda [length b.1] (map IZR b.1).
Definition score_array (c : nat) (b : batch) : nda R := mkNda [length b.2; c] (concat b.2).
Definition batch_op (c : nat) (b : batch) : mop := OUpdate (Many [label_array b]) (Many [score_array c b]).

(** The predicted classes with the labels. *)
Definition predictions (b : batch) : list (Z * Z) := zip (map (fun r => Z.of_nat (argmax r)) b.2) b.1.

Lemma map_trunc_IZR (l : list Z) : map (to_int (F := R)) (map IZR l) = l.
Proof. rewrite map_map. rewrite <- (map_id l) at 2. apply map_ext. intros n. apply trunc_IZR. Qed.

Lemma length_predictions c b : ok_batch c b -> length (predictions b) = length b.2.
Proof. intros [Hl _]. unfold predictions. rewrite length_zip_with, length_map. lia. Qed.

Definition correct (l : list (Z * Z)) : Z := count_true (map (fun p => p.1 =? p.2) l).

Lemma accuracy_batch c b : ok_batch c b ->
  accuracy_value 1 (label_array b) (score_array c b) = Ok (IZR (correct (predictions b)), IZR (py_len (predictions b))).
Proof.
  intros [Hl Hr]. unfold accuracy_value, label_array, score_array. cbn [a_shape a_flat].
  rewrite bool_decide_eq_false_2 by done. change (norm_axis (length [length b.2; c]) 1) with (Some 1%nat). cbn [mbind result_bind to_int fof R_MetricMath R_Float].
  rewrite axis_lanes_rows, map_trunc_IZR by done.
  assert (map (fun l => trunc (IZR (Z.of_nat (argmax l)))) b.2 = map (fun r => Z.of_nat (argmax r)) b.2) as ->
    by (apply map_ext; intros r; apply trunc_IZR).
  unfold same_len, py_len. rewrite length_map, Hl, Z.eqb_refl. cbn. do 3 f_equal.
  - unfold correct, predictions. clear. generalize (map (fun r => Z.of_nat (argmax r)) b.2) b.1. unfold count_true. intros ps ls. do 2 f_equal.
    revert ls. induction ps as [|p ps IH]; intros [|l ls]; cbn; try done. by rewrite IH.
  - rewrite (length_predictions c) by done. done.
Qed.

Lemma correct_app l l' : correct (l ++ l') = correct l + correct l'.
Proof. unfold correct, count_true, py_len. rewrite map_app, filter_app, length_app. lia. Qed.
Lemma correct_range l : 0 <= correct l <= py_len l.
Proof.
  unfold correct, count_true, py_len. pose proof (length_filter (fun b => b = true) (map (fun p : Z * Z => p.1 =? p.2) l)) as Hl.
  rewrite length_map in Hl. lia.
Qed.

Lemma fraction_range (x n : R) : (0 <= x)%R -> (x <= n)%R -> (0 < n)%R -> (0 <= x / n <= 1)%R.
Proof.
  intros Hx Hn Hp. split; [unfold Rdiv; apply Rmult_le_pos; [done|left; by apply Rinv_0_lt_compat]|].
  apply (Rmult_le_reg_r n); [done|]. unfold Rdiv. rewrite Rmult_assoc, Rinv_l by lra. lra.
Qed.

Lemma one_pair (f : nda R -> nda R -> result (R * R)) l p (k : kind (F := R)) s :
  (lp ← lift (Ok ([l], [p])); on_stats (update_pairs f (pairs_of lp))) (k, s) =
    match f l p with Ok (v, n) => (Ok tt, (k, add_stats v n s)) | Raise e => (Raise e, (k, s)) end.
Proof. rewrite bind_M. unfold on_stats, update_pairs, pairs_of. cbn. rewrite !bind_M. unfold lift. by destruct (f l p) as [[]|]. Qed.

Lemma accuracy_step a x n c b : ok_batch c b ->
  run_op argpartition corrcoef (batch_op c b) (Plain a (Accuracy 1) (mkStats (IZR n) (IZR x) (IZR n) (IZR x))) =
    (Ok tt, let n := n + py_len (predictions b) in let x := x + correct (predictions b) in
            Plain a (Accuracy 1) (mkStats (IZR n) (IZR x) (IZR n) (IZR x))).
Proof.
  intros Hb. unfold run_op, batch_op, update, plain_update. cbn [fst snd].
  change (check_label_shapes (Many [label_array b]) (Many [score_array c b])) with (Ok ([label_array b], [score_array c b])).
  rewrite one_pair. change (default _ _) with (accuracy_value 1 (label_array b) (score_array c b)). rewrite (accuracy_batch c b Hb).
  unfold add_stats. cbn -[predictions correct]. by rewrite !plus_IZR.
Qed.

(** C38: The accuracy after any number of batches, not the average over the batches, is the
    fraction of all samples whose label is the class with the largest score (the first one,
    if there are several); it lies between 0 and 1. *)
Theorem accuracy_is_fraction (a : metric_attrs) (s : stats (F := R)) (c : nat) (bs : list batch) :
  Forall (ok_batch c) bs ->
  let m := run_ops argpartition corrcoef (map (batch_op c) bs) (reset (Plain a (Accuracy 1) s)) in
  let all := concat (map predictions bs) in
  get_name_value m = [(m_name a, if py_len all =? 0 then nan else IZR (correct all) / IZR (py_len all))%R] /\
  (all <> [] -> 0 <= IZR (correct all) / IZR (py_len all) <= 1)%R.
Proof.
  intros Hbs m all. split.
  - assert (forall n x, run_ops argpartition corrcoef (map (batch_op c) bs) (Plain a (Accuracy 1) (mkStats (IZR n) (IZR x) (IZR n) (IZR x))) =
      let n := n + py_len all in let x := x + correct all in Plain a (Accuracy 1) (mkStats (IZR n) (IZR x) (IZR n) (IZR x))) as Hrun.
    { subst m all. induction Hbs as [|b bs Hb _ IH]; intros n x; cbn -[run_op predictions]; [by rewrite !Z.add_0_r|].
      rewrite accuracy_step by done. unfold run_ops in IH. cbn -[predictions]. rewrite IH. rewrite correct_app. unfold py_len. rewrite length_app.
      cbv zeta. by rewrite !Nat2Z.inj_add, !Z.add_assoc. }
    specialize (Hrun 0 0). subst m. cbn [reset reset_kind]. unfold zero_stats. cbn [fof R_Float]. rewrite Hrun. cbn -[correct py_len]. rewrite !Z.add_0_l.
    unfold ratio. cbn [fzero R_Float]. destruct (Req_dec_T _ _) as [E|E].
    + apply eq_IZR in E. by rewrite E, Z.eqb_refl.
    + rewrite (proj2 (Z.eqb_neq (py_len all) 0)); [done|]. intros E'. apply E. by rewrite E'.
  - intros Hne. pose proof (correct_range all) as [Hlo Hhi]. apply IZR_le in Hlo, Hhi.
    assert (0 < IZR (py_len all))%R as Hpos by (apply IZR_lt; unfold py_len; destruct all; [done|cbn; lia]).
    by apply fraction_range.
Qed.

(** ** Binary classification *)

Lemma zip_blocks {A B} (l : list A) : forall (l' : list B) (n : nat), length l = n -> length l' = n ->
  concat (map (fun i => zip (chunk 1 i l) (chunk 1 i l')) (seq 0 n)) = zip l l'.
Proof.
  induction l as [|x l IH]; intros [|y l'] [|n] Hl Hl'; try done. cbn [seq map concat]. cbn in Hl, Hl'. cbn [chunk take drop Nat.mul zip zip_with app].
  f_equal. rewrite <- seq_shift, map_map. by rewrite <- (IH l' n) by lia.
Qed.

Lemma broadcast_vectors {A B} (l : list A) (l' : list B) (n : nat) : length l = n -> length l' = n ->
  broadcast (mkNda [n] l) (mkNda [n] l') = Ok (zip l l').
Proof.
  intros Hl Hl'. unfold broadcast. cbn -[seq]. rewrite Nat.eqb_refl.
  assert (forall k, mapM (fun i => Some (zip (chunk 1 (Datatypes.id i) l) (chunk 1 (Datatypes.id i) l'))) k = Some (map (fun i => zip (chunk 1 i l) (chunk 1 i l')) k)) as Hm.
  { induction k as [|i k IH]; [done|]. cbn in IH |- *. by rewrite IH. }
  rewrite Hm. cbn -[seq]. by rewrite zip_blocks.
Qed.

Lemma add_counts_assoc a b c : add_counts (add_counts a b) c = add_counts a (add_counts b c).
Proof. unfold add_counts. cbn. f_equal; lia. Qed.
Lemma add_counts_0 c : add_counts zero_counts c = c.
Proof. by destruct c. Qed.

Lemma counts_of_from l : forall c, fold_left (fun c p => add_counts c (classify p)) l c = add_counts c (counts_of l).
Proof.
  unfold counts_of. induction l as [|p l IH]; intros c; cbn; [destruct c; unfold add_counts; cbn; f_equal; lia|].
  rewrite IH, (IH (add_counts zero_counts (classify p))), add_counts_0. apply add_counts_assoc.
Qed.
Lemma counts_of_app l l' : counts_of (l ++ l') = add_counts (counts_of l) (counts_of l').
Proof. unfold counts_of at 1. rewrite fold_left_app. apply counts_of_from. Qed.

Lemma counts_nonneg l : 0 <= tp (counts_of l) /\ 0 <= fn (counts_of l) /\ 0 <= fp (counts_of l) /\ 0 <= tn (counts_of l) /\
  total_examples (counts_of l) = py_len l.
Proof.
  induction l as [|p l IH]; [by cbn|]. change (p :: l) with ([p] ++ l). rewrite counts_of_app. unfold py_len in *. rewrite length_app.
  destruct p as [x y]. unfold total_examples in *. cbn. destruct (x =? 1), (y =? 1); cbn; lia.
Qed.

Definition binary (b : batch) : Prop := Forall (fun y => y = 0 \/ y = 1) b.1.

Lemma binary_counts_batch d b : ok_batch (S d) b -> binary b ->
  binary_counts (label_array b) (score_array (S d) b) = Ok (counts_of (predictions b)).
Proof.
  intros [Hl Hr] Hb. unfold binary_counts, label_array, score_array. cbn [a_shape a_flat a_len mbind result_bind].
  rewrite map_trunc_IZR, axis_lanes_rows by done. unfold same_len. rewrite Hl, Z.eqb_refl. cbn [mbind result_bind].
  assert ((length (nodup Z.eq_dec b.1) <= 2)%nat) as Hu.
  { apply (NoDup_incl_length (l' := [0; 1])); [apply List.NoDup_nodup|]. intros y Hy%nodup_In.
    unfold binary in Hb. rewrite List.Forall_forall in Hb. destruct (Hb y Hy) as [->| ->]; cbn; auto. }
  unfold py_len. rewrite (proj2 (Z.ltb_ge 2 _)) by lia. rewrite broadcast_vectors; [done|by rewrite length_map|done].
Qed.

(** The statistics of the samples counted so far. *)
Definition micro_stats (score : counts -> R) (c : counts) : stats (F := R) :=
  let n := IZR (total_examples c) in mkStats n (score c * n)%R n (score c * n)%R.

Lemma binary_update_batch score average d b c : ok_batch (S d) b -> binary b -> str_eqb average "macro" = false ->
  let c' := add_counts c (counts_of (predictions b)) in
  binary_update score average [(label_array b, score_array (S d) b)] (mkB c c, micro_stats score c) = (Ok tt, (mkB c' c', micro_stats score c')).
Proof.
  intros Hok Hb Hav. unfold binary_update. cbn [fst snd forM]. rewrite bind_M. unfold update_binary_stats. rewrite bind_M, (binary_counts_batch d b Hok Hb).
  cbn [lift modify mret M_ret b_local b_global]. by rewrite Hav.
Qed.

Lemma micro_run score average (mk : bstats -> kind (F := R)) d a bs :
  (forall l p b s, plain_update argpartition corrcoef (Many [l]) (Many [p]) (mk b, s) =
     let '(r, (b, s)) := binary_update score average [(l, p)] (b, s) in (r, (mk b, s))) ->
  Forall (ok_batch (S d)) bs -> Forall binary bs -> str_eqb average "macro" = false -> forall c,
  run_ops argpartition corrcoef (map (batch_op (S d)) bs) (Plain a (mk (mkB c c)) (micro_stats score c)) =
    let c' := add_counts c (counts_of (concat (map predictions bs))) in Plain a (mk (mkB c' c')) (micro_stats score c').
Proof.
  intros Hmk Hok Hb Hav. revert Hb. induction Hok as [|b bs Hok1 _ IH]; intros Hb c.
  - cbn [map concat]. assert (add_counts c (counts_of []) = c) as -> by (destruct c; unfold add_counts; cbn; f_equal; lia). done.
  - apply Forall_cons in Hb as [Hb1 Hb]. cbn [map concat]. rewrite counts_of_app, <- add_counts_assoc. cbv zeta. rewrite <- IH by done.
    unfold run_ops. cbn [fold_left]. f_equal. unfold run_op, batch_op, update. by rewrite Hmk, binary_update_batch.
Qed.

Lemma ratio_micro k score c : (match k with Perplexity _ _ => False | _ => True end) ->
  ratio k (sum_metric (micro_stats score c)) (num_inst (micro_stats score c)) = if total_examples c =? 0 then nan else score c.
Proof.
  intros Hk. unfold ratio, micro_stats. cbn [sum_metric num_inst fzero fdiv R_Float fnan R_MetricMath]. destruct (Req_dec_T _ _) as [E|E].
  - apply eq_IZR in E. by rewrite E.
  - rewrite (proj2 (Z.eqb_neq _ 0)) by (intros E'; apply E; by rewrite E'). destruct k; try done; field; done.
Qed.

(** The F1 score from the counts. *)
Lemma fscore_exact (c : counts) : 0 <= tp c -> 0 <= fp c -> 0 <= fn c ->
  fscore (F := R) c = if tp c =? 0 then 0%R else (2 * IZR (tp c) / IZR (2 * tp c + fp c + fn c))%R.
Proof.
  intros Htp Hfp Hfn. unfold fscore, precision, recall. cbn [fdiv fof fadd fmul R_Float]. destruct (Z.eqb_spec (tp c) 0) as [E|E].
  - rewrite E. assert (forall x, (if 0 <? x then 0 / IZR x else 0)%R = 0%R) as H0 by (intros x; destruct (0 <? x); [unfold Rdiv; lra|done]).
    rewrite !H0. destruct (fltb _ _) eqn:El; [|done]. apply fltb_spec in El. cbn in El. lra.
  - rewrite !(proj2 (Z.ltb_lt 0 _)) by lia.
    assert (0 < IZR (tp c))%R as Ht by (apply IZR_lt; lia).
    assert (0 <= IZR (fp c))%R as Hp by (apply IZR_le; lia). assert (0 <= IZR (fn c))%R as Hn by (apply IZR_le; lia).
    rewrite !plus_IZR, mult_IZR.
    assert (0 < IZR (tp c) / (IZR (tp c) + IZR (fp c)))%R as H1 by (apply Rdiv_lt_0_compat; lra).
    assert (0 < IZR (tp c) / (IZR (tp c) + IZR (fn c)))%R as H2 by (apply Rdiv_lt_0_compat; lra).
    rewrite (proj2 (fltb_spec _ _)) by lra. field. split_and!; nra.
Qed.

Lemma mcc_bound (a b c d : R) : (0 <= a -> 0 <= b -> 0 <= c -> 0 <= d ->
  (a * d - b * c) * (a * d - b * c) <= (a + b) * (a + c) * (d + b) * (d + c))%R.
Proof.
  intros Ha Hb Hc Hd.
  assert ((a + b) * (a + c) * (d + b) * (d + c) - (a * d - b * c) * (a * d - b * c) =
    a * a * b * d + a * a * c * d + a * a * b * c + a * b * b * d + a * b * b * c + a * c * c * d + a * b * c * c + a * b * d * d + a * c * d * d +
    b * b * c * d + b * c * c * d + b * c * d * d + 4 * (a * b * c * d))%R as E by ring.
  enough (0 <= a * a * b * d + a * a * c * d + a * a * b * c + a * b * b * d + a * b * b * c + a * c * c * d + a * b * c * c + a * b * d * d + a * c * d * d +
    b * b * c * d + b * c * c * d + b * c * d * d + 4 * (a * b * c * d))%R by lra.
  repeat apply Rplus_le_le_0_compat; repeat apply Rmult_le_pos; lra.
Qed.

Lemma matthewscc_range (c : counts) : 0 <= tp c -> 0 <= fp c -> 0 <= fn c -> 0 <= tn c -> (-1 <= matthewscc (F := R) c <= 1)%R.
Proof.
  intros Htp Hfp Hfn Htn. unfold matthewscc. destruct (total_examples c =? 0); [cbn; lra|].
  set (terms := [tp c + fp c; tp c + fn c; tn c + fp c; tn c + fn c]). cbn [fof fdiv fsub fmul fsqrt R_Float R_FloatMath].
  assert (0 <= IZR (tp c) /\ 0 <= IZR (fp c) /\ 0 <= IZR (fn c) /\ 0 <= IZR (tn c))%R as (H1 & H2 & H3 & H4) by (split_and!; by apply IZR_le).
  destruct (decide (0 ∈ terms)) as [Hz|Hz].
  - assert (IZR (tp c) * IZR (tn c) - IZR (fp c) * IZR (fn c) = 0)%R as ->; [|unfold Rdiv; lra].
    subst terms. set_unfold in Hz. rewrite <- !mult_IZR, <- minus_IZR. apply (f_equal IZR (y := 0)). destruct Hz as [Hz|[Hz|[Hz|[Hz|[]]]]]; nia.
  - assert (filter (fun t => t <> 0) terms = terms) as ->.
    { clear -Hz. induction terms as [|t l IH]; [done|]. rewrite filter_cons_True by (intros ->; apply Hz; left). f_equal. apply IH. set_solver. }
    subst terms. cbn [fold_left]. rewrite Rmult_1_l, !plus_IZR.
    set (D := ((IZR (tp c) + IZR (fp c)) * (IZR (tp c) + IZR (fn c)) * (IZR (tn c) + IZR (fp c)) * (IZR (tn c) + IZR (fn c)))%R).
    set (N := (IZR (tp c) * IZR (tn c) - IZR (fp c) * IZR (fn c))%R).
    assert (N * N <= D)%R as HND by (unfold N, D; pose proof (mcc_bound _ _ _ _ H1 H2 H3 H4); lra).
    assert (0 < D)%R as HD.
    { unfold D. assert (forall x y, (0 <= IZR x)%R -> (0 <= IZR y)%R -> x + y <> 0 -> (0 < IZR x + IZR y)%R) as Hp.
      { intros x y Hx Hy Hxy. rewrite <- plus_IZR. apply le_IZR in Hx, Hy. apply IZR_lt. lia. }
      set_unfold in Hz. repeat apply Rmult_lt_0_compat; apply Hp; try done; intros E; apply Hz; rewrite E; tauto. }
    pose proof (sqrt_lt_R0 D HD) as HS. pose proof (sqrt_sqrt D (Rlt_le _ _ HD)) as HSS.
    assert (- sqrt D <= N <= sqrt D)%R as [Hlo Hhi] by (split; nra).
    split; apply (Rmult_le_reg_r (sqrt D)); try done; unfold Rdiv; rewrite Rmult_assoc, Rinv_l by lra; lra.
Qed.

(** With the average over all samples ("micro"), after any number of batches with labels 0
    and 1, the F1 score is 2 TP / (2 TP + FP + FN) and the Matthews coefficient that of the
    counts over all samples, which lies between -1 and 1. *)
Theorem micro_scores (a : metric_attrs) (s s' : stats (F := R)) (b0 b0' : bstats) (average : string) (d : nat) (bs : list batch) :
  Forall (ok_batch (S d)) bs -> Forall binary bs -> str_eqb average "macro" = false ->
  let c := counts_of (concat (map predictions bs)) in
  let run := run_ops argpartition corrcoef (map (batch_op (S d)) bs) in
  get_name_value (run (reset (Plain a (F1 average b0) s))) =
    [(m_name a, if total_examples c =? 0 then nan else if tp c =? 0 then 0%R else (2 * IZR (tp c) / IZR (2 * tp c + fp c + fn c))%R)] /\
  get_name_value (run (reset (Plain a (MCC average b0') s'))) =
    [(m_name a, if total_examples c =? 0 then nan else matthewscc c)] /\
  (-1 <= matthewscc (F := R) c <= 1)%R.
Proof.
  intros Hok Hb Hav c run. destruct (counts_nonneg (concat (map predictions bs))) as (Htp & Hfn & Hfp & Htn & _).
  assert (forall score, zero_stats = micro_stats score zero_counts) as Hz.
  { intros score. unfold zero_stats, micro_stats. cbn. by rewrite Rmult_0_r. }
  subst run. cbn [reset reset_kind]. split; [|split; [|by apply matthewscc_range]].
  - rewrite (Hz fscore), (micro_run fscore average (F1 average)) by done. rewrite add_counts_0. cbn [get_name_value].
    rewrite ratio_micro by done. by rewrite fscore_exact.
  - rewrite (Hz matthewscc), (micro_run matthewscc average (MCC average)) by done. rewrite add_counts_0. cbn [get_name_value].
    by rewrite ratio_micro.
Qed.
End Exact.

(** ** Witnesses *)

Definition two_batches : list batch := [([0; 1], [[3 / 10; 7 / 10]; [0; 1]]%R); ([1], [[4 / 10; 6 / 10]]%R)].
Definition positions (l : list R) (k : nat) : list nat := seq 0 (length l).

Lemma two_batches_ok : Forall (ok_batch 2) two_batches /\ Forall binary two_batches.
Proof.
  split; [repeat constructor|]. repeat apply Forall_cons_2; try apply Forall_nil_2; unfold binary; cbn [fst]; repeat apply Forall_cons_2;
    try apply Forall_nil_2; lia.
Defined.

Lemma accuracy_is_fraction_witness :
  let m := run_ops (H1 := R_MetricMath 0) positions (fun _ _ => 0%R) (map (batch_op 2) two_batches) (reset (Plain (mkAttrs "accuracy" None None) (Accuracy 1) zero_stats)) in
  let all := concat (map predictions two_batches) in
  py_len all = 3 /\ get_name_value (H1 := R_MetricMath 0) m = [("accuracy"%string, IZR (correct all) / 3)%R] /\ (0 <= IZR (correct all) / 3 <= 1)%R.
Proof.
  destruct (accuracy_is_fraction 0 positions (fun _ _ => 0%R) (mkAttrs "accuracy" None None) zero_stats 2 two_batches (proj1 two_batches_ok)) as [Hv Hr].
  split; [reflexivity|]. split; [exact Hv|]. apply Hr. discriminate.
Defined.

Lemma micro_scores_witness :
  let c := counts_of (concat (map predictions two_batches)) in
  get_name_value (H1 := R_MetricMath 0)
    (run_ops (H1 := R_MetricMath 0) positions (fun _ _ => 0%R) (map (batch_op 2) two_batches)
       (reset (Plain (mkAttrs "mcc" None None) (MCC "micro" (mkB zero_counts zero_counts)) zero_stats))) = [("mcc"%string, matthewscc c)] /\
  (-1 <= matthewscc (F := R) c <= 1)%R.
Proof.
  destruct (micro_scores 0 positions (fun _ _ => 0%R) (mkAttrs "mcc" None None) zero_stats zero_stats (mkB zero_counts zero_counts)
    (mkB zero_counts zero_counts) "micro" 1 two_batches (proj1 two_batches_ok) (proj2 two_batches_ok) eq_refl) as (_ & Hm & Hr).
  split; [|exact Hr]. rewrite Hm. destruct (counts_nonneg (concat (map predictions two_batches))) as (_ & _ & _ & _ & ->). reflexivity.
Defined.
