(* ===== verification/RNNCell.v ===== *)
(** * Recurrent cells: graphs, construction, steps

    The cells of [rnn/rnn_cell.py]: their construction and the sharing of their parameters,
    [state_info], [reset], [begin_state], the step [__call__] of every class.  A cell is an
    object: what changes after its construction (its counters, [_modified], [_own_params], a
    zoneout cell's previous output) is kept in a store under the cell's identity, so that one
    object that occurs twice in a stack is one entry of the store.  Symbols are graphs: a
    node has its operator, name, attributes, number of outputs and inputs.  Names that the
    name manager chooses are kept abstract.  Finite floats are rationals. *)

From Stdlib Require Import QArith Ascii String.
From stdpp Require Import strings.
From S2P Require Import Prelude Scope.
Close Scope Q_scope.
Open Scope Z_scope.

(** ** Symbols *)

(** The name of a node: the one given, or the manager's choice with a suffix. *)
Inductive nname := Given (s : string) | Auto (suffix : string).
Definition name_app (n : nname) (x : string) : nname :=
  match n with Given s => Given (s +:+ x) | Auto s => Auto (s +:+ x) end.

Inductive pval :=
  | PInt (z : Z)
  | PStr (s : string)
  | PBool (b : bool)
  | PNum (q : Q)
  | PTuple (l : list Z)
  | PInit (klass : string) (args : list pval).
Definition kwargs := list (string * pval).

Inductive Sym :=
  | Var (name : string) (attrs : kwargs)
  | Node (op : string) (name : nname) (attrs : kwargs) (nout : nat) (inputs : list Sym)
  | Out (s : Sym) (i : nat)
  | Grp (l : list Sym).

(** [len(s.list_outputs())], [s.name] and [list(s)]. *)
Fixpoint n_outputs (s : Sym) : nat :=
  match s with
  | Var _ _ => 1
  | Node _ _ _ n _ => n
  | Out _ _ => 1
  | Grp l => foldr (fun x n => n_outputs x + n)%nat 0%nat l
  end.
Fixpoint sym_name (s : Sym) : nname :=
  match s with
  | Var n _ => Given n
  | Node _ n _ _ _ => n
  | Out s _ => sym_name s
  | Grp _ => Given "None"
  end.
Definition outs (s : Sym) : list Sym := map (Out s) (seq 0 (n_outputs s)).

(** The operators used. *)
Definition op1 (op : string) (name : nname) (attrs : kwargs) (inputs : list Sym) : Sym := Node op name attrs 1 inputs.
Definition auto (op : string) (attrs : kwargs) (inputs : list Sym) : Sym := op1 op (Auto "") attrs inputs.
Definition named (op name : string) (attrs : kwargs) (inputs : list Sym) : Sym := op1 op (Given name) attrs inputs.
Definition FullyConnected (data weight bias : Sym) (num_hidden : Z) (name : string) : Sym :=
  named "FullyConnected" name [("num_hidden", PInt num_hidden)] [data; weight; bias].
Definition Activation (x : Sym) (act_type : string) (name : nname) : Sym :=
  op1 "Activation" name [("act_type", PStr act_type)] [x].
Definition sym_add (a b : Sym) : Sym := auto "_Plus" [] [a; b].
Definition sym_mul (a b : Sym) : Sym := auto "_Mul" [] [a; b].
Definition sym_rsub (q : Q) (a : Sym) : Sym := auto "_RMinusScalar" [("scalar", PNum q)] [a].

(** An operator with a list of inputs, or with a number of outputs, asks for one at least. *)
Definition Concat (l : list Sym) (dim : Z) (name : nname) : result Sym :=
  match l with [] => Raise MXNetError | _ => Ok (op1 "Concat" name [("dim", PInt dim)] l) end.
Definition SliceChannel (x : Sym) (num_outputs : nat) (attrs : kwargs) (name : nname) : result Sym :=
  match num_outputs with
  | O => Raise MXNetError
  | S _ => Ok (Node "SliceChannel" name (("num_outputs", PInt (Z.of_nat num_outputs)) :: attrs) num_outputs [x])
  end.

(** States are nested lists of symbols. *)
Inductive st := SSym (s : Sym) | SList (l : list st).
(** A state as an argument of an operator, and as an operand. *)
Definition as_arg (x : st) : result Sym := match x with SSym s => Ok s | SList _ => Raise AssertionError end.
Definition as_operand (x : st) : result Sym := match x with SSym s => Ok s | SList _ => Raise TypeError end.

(** ** Cells *)

(** [BaseRNNCell._get_activation]: a string, or a callable that takes a name. *)
Inductive activation := ActStr (s : string) | ActFun (f : Sym -> nname -> Sym).
Definition _get_activation (x : Sym) (a : activation) (name : nname) : Sym :=
  match a with ActStr s => Activation x s name | ActFun f => f x name end.

(** The settings of a convolutional cell; [cv_state_shape] is [_state_shape]. *)
Record conv := mkConv {
  cv_num_hidden : nat;
  cv_i2h : kwargs;
  cv_h2h : kwargs;
  cv_layout : string;
  cv_state_shape : list Z;
  cv_activation : activation;
}.

Inductive leaf :=
  | RNNCell (num_hidden : nat) (act : activation)
  | LSTMCell (num_hidden : nat)
  | GRUCell (num_hidden : nat)
  | ConvRNNCell (c : conv)
  | ConvLSTMCell (c : conv)
  | ConvGRUCell (c : conv).

Inductive mode := rnn_relu | rnn_tanh | lstm | gru.
#[export] Instance mode_eq_dec : EqDecision mode.
Proof. solve_decision. Defined.

Record weights := mkW { iW : Sym; iB : Sym; hW : Sym; hB : Sym }.

(** What a cell keeps from its construction: its identity, prefix and parameters. *)
Record hdr := mkHdr { oid : nat; _prefix : string; pid : nat }.

Record fused := mkFused {
  f_hidden : nat;
  f_layers : nat;
  f_mode : mode;
  f_bidirectional : bool;
  f_dropout : Q;
  f_get_next_state : bool;
}.

Inductive cell :=
  | Leaf (h : hdr) (k : leaf) (w : weights)
  | FusedRNNCell (h : hdr) (f : fused) (parameter : Sym)
  | SequentialRNNCell (h : hdr) (override : bool) (cells : list cell)
  | DropoutCell (h : hdr) (p : Q)
  | ZoneoutCell (h : hdr) (base : cell) (p_outputs p_states : Q)
  | ResidualCell (h : hdr) (base : cell)
  | BidirectionalCell (h : hdr) (override : bool) (output_prefix : string) (l r : cell).

Definition hdr_of (c : cell) : hdr :=
  match c with
  | Leaf h _ _ | FusedRNNCell h _ _ | SequentialRNNCell h _ _ | DropoutCell h _
  | ZoneoutCell h _ _ _ | ResidualCell h _ | BidirectionalCell h _ _ _ _ => h
  end.
Definition id_of (c : cell) : nat := oid (hdr_of c).

(** What changes. *)
Record dyn := mkDyn {
  own_params : bool;
  modified : bool;
  init_counter : Z;
  counter : Z;
  prev_output : option Sym;
}.
Definition fresh_dyn : dyn := mkDyn true false (-1) (-1) None.
Notation cstore := (gmap nat dyn).

Definition dyn_at (s : cstore) (i : nat) : dyn := default fresh_dyn (s !! i).
Definition read (i : nat) : M cstore dyn := fun s => (Ok (dyn_at s i), s).
Definition write (i : nat) (f : dyn -> dyn) : M cstore unit :=
  fun s => (Ok tt, partial_alter (fun o => Some (f (default fresh_dyn o))) i s).
Definition set_counters (a b : Z) (d : dyn) : dyn := mkDyn (own_params d) (modified d) a b (prev_output d).
Definition set_modified (b : bool) (d : dyn) : dyn := mkDyn (own_params d) b (init_counter d) (counter d) (prev_output d).
Definition set_prev (o : option Sym) (d : dyn) : dyn := mkDyn (own_params d) (modified d) (init_counter d) (counter d) o.
Definition set_own (b : bool) (d : dyn) : dyn := mkDyn b (modified d) (init_counter d) (counter d) (prev_output d).

(** ** Gates and states *)

Definition mode_gates (m : mode) : list string :=
  match m with
  | rnn_relu | rnn_tanh => [""]
  | lstm => ["_i"; "_f"; "_c"; "_o"]
  | gru => ["_r"; "_z"; "_o"]
  end%string.
Definition leaf_gates (k : leaf) : list string :=
  match k with
  | RNNCell _ _ | ConvRNNCell _ => mode_gates rnn_tanh
  | LSTMCell _ | ConvLSTMCell _ => mode_gates lstm
  | GRUCell _ | ConvGRUCell _ => mode_gates gru
  end.
Definition leaf_hidden (k : leaf) : nat :=
  match k with
  | RNNCell h _ | LSTMCell h | GRUCell h => h
  | ConvRNNCell c | ConvLSTMCell c | ConvGRUCell c => cv_num_hidden c
  end.

(** A state's shape and layout. *)
Definition info := (list Z * string)%type.
Definition leaf_state_info (k : leaf) : list info :=
  match k with
  | RNNCell h _ | GRUCell h => [([0; Z.of_nat h], "NC")]
  | LSTMCell h => [([0; Z.of_nat h], "NC"); ([0; Z.of_nat h], "NC")]
  | ConvRNNCell c | ConvGRUCell c => [(cv_state_shape c, cv_layout c)]
  | ConvLSTMCell c => [(cv_state_shape c, cv_layout c); (cv_state_shape c, cv_layout c)]
  end%string.
Fixpoint state_info (c : cell) : list info :=
  match c with
  | Leaf _ k _ => leaf_state_info k
  | FusedRNNCell _ f _ =>
      let b := if f_bidirectional f then 2 else 1 in
      replicate (if decide (f_mode f = lstm) then 2 else 1) ([b * Z.of_nat (f_layers f); 0; Z.of_nat (f_hidden f)], "LNC"%string)
  | SequentialRNNCell _ _ cells => foldr (fun c l => state_info c ++ l) [] cells
  | DropoutCell _ _ => []
  | ZoneoutCell _ base _ _ | ResidualCell _ base => state_info base
  | BidirectionalCell _ _ _ l r => state_info l ++ state_info r ++ []
  end.

(** ** [reset] and [begin_state] *)

(** [BaseRNNCell.reset] reaches the cells of [_cells], which a modifier does not have;
    [ZoneoutCell.reset]. *)
Fixpoint reset (c : cell) : M cstore unit :=
  match c with
  | SequentialRNNCell h _ cells =>
      _ ← write (oid h) (set_counters (-1) (-1));
      forM reset cells
  | BidirectionalCell h _ _ l r =>
      _ ← write (oid h) (set_counters (-1) (-1)); _ ← reset l; reset r
  | ZoneoutCell h _ _ _ =>
      _ ← write (oid h) (set_counters (-1) (-1)); write (oid h) (set_prev None)
  | _ => write (id_of c) (set_counters (-1) (-1))
  end.

(** The function that creates a state, from its name and its [info]. *)
Definition statefun := string -> info -> Sym.
(** [symbol.zeros]. *)
Definition zeros : statefun := fun name i =>
  named "_zeros" name [("shape", PTuple i.1); ("dtype", PStr "float32"); ("__layout__", PStr i.2)] [].

(** [BaseRNNCell.begin_state(func, **kwargs)]: [pos] and [kw] are the function given by
    position and as [func=]. *)
Fixpoint begin_states (h : hdr) (f : statefun) (infos : list info) : M cstore (list st) :=
  match infos with
  | [] => mret []
  | i :: infos =>
      _ ← write (oid h) (fun d => set_counters (init_counter d + 1) (counter d) d);
      d ← read (oid h);
      l ← begin_states h f infos;
      mret (SSym (f (_prefix h +:+ "begin_state_" +:+ dec (init_counter d))%string i) :: l)
  end.
Definition base_begin (h : hdr) (infos : list info) (pos kw : option statefun) : M cstore (list st) :=
  match pos, kw with
  | Some _, Some _ => raise TypeError
  | _, _ =>
      d ← read (oid h); _ ← massert (negb (modified d));
      begin_states h (match pos, kw with Some f, _ | None, Some f => f | _, _ => zeros end) infos
  end.

(** [sum([f(c) for c in cells], [])] *)
Definition concatM {A B} (f : A -> M cstore (list B)) :=
  fix go (l : list A) : M cstore (list B) :=
    match l with [] => mret [] | a :: l => x ← f a; y ← go l; mret (x ++ y) end.

(** [SequentialRNNCell.begin_state] takes keywords only. *)
Definition seq_begin (rec : cell -> option statefun -> option statefun -> M cstore (list st)) (h : hdr) (cells : list cell) (pos kw : option statefun)
  : M cstore (list st) :=
  match pos with
  | Some _ => raise TypeError
  | None => d ← read (oid h); _ ← massert (negb (modified d)); concatM (fun c => rec c None kw) cells
  end.
(** [BidirectionalCell.begin_state] *)
Definition bi_begin (recl recr : option statefun -> option statefun -> M cstore (list st)) (h : hdr) (pos kw : option statefun) : M cstore (list st) :=
  match pos with
  | Some _ => raise TypeError
  | None => d ← read (oid h); _ ← massert (negb (modified d)); x ← recl None kw; y ← recr None kw; mret (x ++ y)
  end.
(** [ModifierCell.begin_state] passes its [init_sym] by position. *)
Definition modifier_begin (rec : option statefun -> option statefun -> M cstore (list st)) (h : hdr) (base : cell) (pos kw : option statefun)
  : M cstore (list st) :=
  d ← read (oid h); _ ← massert (negb (modified d));
  _ ← write (id_of base) (set_modified false);
  begin ← rec (Some (default zeros pos)) kw;
  _ ← write (id_of base) (set_modified true);
  mret begin.
Fixpoint begin_state (c : cell) (pos kw : option statefun) : M cstore (list st) :=
  match c with
  | SequentialRNNCell h _ cells => seq_begin begin_state h cells pos kw
  | BidirectionalCell h _ _ l r => bi_begin (begin_state l) (begin_state r) h pos kw
  | ZoneoutCell h base _ _ | ResidualCell h base => modifier_begin (begin_state base) h base pos kw
  | _ => base_begin (hdr_of c) (state_info c) pos kw
  end.

(** ** Steps *)

(** [SliceChannel] with a number of outputs of the code's. *)
Definition slice_gates (x : Sym) (n : nat) (attrs : kwargs) (name : string) : Sym :=
  Node "SliceChannel" (Given name) (("num_outputs", PInt (Z.of_nat n)) :: attrs) n [x].

Definition rnn_step (h : nat) (act : activation) (w : weights) (name : string) (x : Sym) (states : list st) : result (Sym * list st) :=
  let i2h := FullyConnected x (iW w) (iB w) (Z.of_nat h) (name +:+ "i2h") in
  s0 ← py_index states 0; s0 ← as_arg s0;
  let h2h := FullyConnected s0 (hW w) (hB w) (Z.of_nat h) (name +:+ "h2h") in
  let output := _get_activation (sym_add i2h h2h) act (Given (name +:+ "out")) in
  Ok (output, [SSym output]).

(** The end of an LSTM step, from its sliced gates. *)
Definition lstm_gates (act : activation) (gates : Sym) (name : string) (states : list st) : result (Sym * list st) :=
  let in_gate := Activation (Out gates 0) "sigmoid" (Given (name +:+ "i")) in
  let forget_gate := Activation (Out gates 1) "sigmoid" (Given (name +:+ "f")) in
  let in_transform := _get_activation (Out gates 2) act (Given (name +:+ "c")) in
  let out_gate := Activation (Out gates 3) "sigmoid" (Given (name +:+ "o")) in
  s1 ← py_index states 1; s1 ← as_operand s1;
  let next_c := named "_plus" (name +:+ "state") [] [sym_mul forget_gate s1; sym_mul in_gate in_transform] in
  let next_h := named "_mul" (name +:+ "out") [] [out_gate; _get_activation next_c act (Auto "")] in
  Ok (next_h, [SSym next_h; SSym next_c]).
Definition lstm_step (h : nat) (w : weights) (name : string) (x : Sym) (states : list st) : result (Sym * list st) :=
  let i2h := FullyConnected x (iW w) (iB w) (Z.of_nat h * 4) (name +:+ "i2h") in
  s0 ← py_index states 0; s0 ← as_arg s0;
  let h2h := FullyConnected s0 (hW w) (hB w) (Z.of_nat h * 4) (name +:+ "h2h") in
  lstm_gates (ActStr "tanh") (slice_gates (sym_add i2h h2h) 4 [] (name +:+ "slice")) name states.

(** The end of a GRU step, from the two products. *)
Definition gru_gates (act : activation) (i2h h2h prev : Sym) (name : string) : Sym * list st :=
  let i := slice_gates i2h 3 [] (name +:+ "_i2h_slice") in
  let h := slice_gates h2h 3 [] (name +:+ "_h2h_slice") in
  let reset_gate := Activation (sym_add (Out i 0) (Out h 0)) "sigmoid" (Given (name +:+ "_r_act")) in
  let update_gate := Activation (sym_add (Out i 1) (Out h 1)) "sigmoid" (Given (name +:+ "_z_act")) in
  let next_h_tmp := _get_activation (sym_add (Out i 2) (sym_mul reset_gate (Out h 2))) act (Given (name +:+ "_h_act")) in
  let next_h := named "_plus" (name +:+ "out") [] [sym_mul (sym_rsub 1%Q update_gate) next_h_tmp; sym_mul update_gate prev] in
  (next_h, [SSym next_h]).
Definition gru_step (h : nat) (w : weights) (name : string) (x : Sym) (states : list st) : result (Sym * list st) :=
  prev ← py_index states 0;
  let i2h := FullyConnected x (iW w) (iB w) (Z.of_nat h * 3) (name +:+ "_i2h") in
  prev ← as_arg prev;
  let h2h := FullyConnected prev (hW w) (hB w) (Z.of_nat h * 3) (name +:+ "_h2h") in
  Ok (gru_gates (ActStr "tanh") i2h h2h prev name).

(** [BaseConvRNNCell._conv_forward] for [gates] gates. *)
Definition _conv_forward (c : conv) (gates : nat) (w : weights) (name : string) (x : Sym) (states : list st) : result (Sym * Sym) :=
  let nf := ("num_filter"%string, PInt (Z.of_nat (cv_num_hidden c * gates))) in
  let layout := ("layout"%string, PStr (cv_layout c)) in
  let i2h := named "Convolution" (name +:+ "i2h") (nf :: cv_i2h c ++ [layout]) [x; iW w; iB w] in
  s0 ← py_index states 0; s0 ← as_arg s0;
  let h2h := named "Convolution" (name +:+ "h2h") (nf :: cv_h2h c ++ [("stride", PTuple [1; 1]); layout]) [s0; hW w; hB w] in
  Ok (i2h, h2h).

(** [str.find] for one character. *)
Fixpoint find_char (ch : ascii) (s : string) (i : Z) : Z :=
  match s with
  | EmptyString => -1
  | String c s => if bool_decide (c = ch) then i else find_char ch s (i + 1)
  end.

Definition conv_rnn_step (c : conv) (w : weights) (name : string) (x : Sym) (states : list st) : result (Sym * list st) :=
  '(i2h, h2h) ← _conv_forward c 1 w name x states;
  let output := _get_activation (sym_add i2h h2h) (cv_activation c) (Given (name +:+ "out")) in
  Ok (output, [SSym output]).
Definition conv_lstm_step (c : conv) (w : weights) (name : string) (x : Sym) (states : list st) : result (Sym * list st) :=
  '(i2h, h2h) ← _conv_forward c 4 w name x states;
  lstm_gates (cv_activation c)
    (slice_gates (sym_add i2h h2h) 4 [("axis"%string, PInt (find_char "C" (cv_layout c) 0))] (name +:+ "slice")) name states.
Definition conv_gru_step (c : conv) (w : weights) (name : string) (x : Sym) (states : list st) : result (Sym * list st) :=
  '(i2h, h2h) ← _conv_forward c 3 w name x states;
  s0 ← py_index states 0; s0 ← as_operand s0;
  Ok (gru_gates (cv_activation c) i2h h2h s0 name).

Definition leaf_step (k : leaf) (w : weights) (name : string) (x : Sym) (states : list st) : result (Sym * list st) :=
  match k with
  | RNNCell h act => rnn_step h act w name x states
  | LSTMCell h => lstm_step h w name x states
  | GRUCell h => gru_step h w name x states
  | ConvRNNCell c => conv_rnn_step c w name x states
  | ConvLSTMCell c => conv_lstm_step c w name x states
  | ConvGRUCell c => conv_gru_step c w name x states
  end.

(** The mask and the choice of a zoneout cell. *)
Definition zone (p : Q) (new old : Sym) : Sym :=
  auto "where" [] [auto "Dropout" [("p", PNum p)] [auto "ones_like" [] [new]]; new; old].
Definition zone_states (p : Q) (new old : list st) : result (list st) :=
  mapR (fun '(n, o) => n ← as_arg n; o ← as_arg o; Ok (SSym (zone p n o))) (zip new old).
Definition gt0 (q : Q) : bool := negb (Qle_bool q 0).
Definition ne0 (q : Q) : bool := negb (Qeq_bool q 0).
Definition zeros00 : Sym := auto "_zeros" [("shape", PTuple [0; 0]); ("dtype", PStr "float32")] [].
Definition plus_residual (a b : Sym) : Sym := op1 "elemwise_add" (name_app (sym_name a) "_plus_residual") [] [a; b].

Definition is_bidirectional (c : cell) : bool := match c with BidirectionalCell _ _ _ _ _ => true | _ => false end.

(** The loop over the cells of a stack, each with its part of the states and with the output
    of the one before as its input; the flag tells the last cell. *)
Definition for_cells {X} (f : cell -> bool -> X -> list st -> M cstore (X * list st)) (states : list st) :=
  fix go (l : list cell) (x : X) (p : nat) (next : list st) : M cstore (X * list st) :=
    match l with
    | [] => mret (x, next)
    | c :: l =>
        let n := length (state_info c) in
        '(x, s) ← f c (match l with [] => true | _ => false end) x (take n (drop p states));
        go l x (p + n)%nat (next ++ s)
    end.

(** [SequentialRNNCell.__call__] *)
Definition seq_call (rec : cell -> Sym -> list st -> M cstore (Sym * list st)) (h : hdr) (cells : list cell) (x : Sym) (states : list st)
  : M cstore (Sym * list st) :=
  _ ← write (oid h) (fun d => set_counters (init_counter d) (counter d + 1) d);
  for_cells (fun c _ x s => _ ← massert (negb (is_bidirectional c)); rec c x s) states cells x 0 [].
(** [DropoutCell.__call__] *)
Definition dropout_call (p : Q) (x : Sym) (states : list st) : M cstore (Sym * list st) :=
  mret (if gt0 p then auto "Dropout" [("p", PNum p)] [x] else x, states).
(** [ZoneoutCell.__call__] *)
Definition zoneout_call (rec : Sym -> list st -> M cstore (Sym * list st)) (h : hdr) (po ps : Q) (x : Sym) (states : list st)
  : M cstore (Sym * list st) :=
  '(next_output, next_states) ← rec x states;
  d ← read (oid h);
  let output := if ne0 po then zone po next_output (default zeros00 (prev_output d)) else next_output in
  new_states ← (if ne0 ps then lift (zone_states ps next_states states) else mret next_states);
  _ ← write (oid h) (set_prev (Some output));
  mret (output, new_states).
(** [ResidualCell.__call__] *)
Definition residual_call (rec : Sym -> list st -> M cstore (Sym * list st)) (x : Sym) (states : list st) : M cstore (Sym * list st) :=
  '(output, new_states) ← rec x states; mret (plus_residual output x, new_states).
(** The step of a cell with weights, under the name of its next step. *)
Definition leaf_call (h : hdr) (k : leaf) (w : weights) (x : Sym) (states : list st) : M cstore (Sym * list st) :=
  _ ← write (oid h) (fun d => set_counters (init_counter d) (counter d + 1) d);
  d ← read (oid h);
  lift (leaf_step k w (_prefix h +:+ "t" +:+ dec (counter d) +:+ "_")%string x states).

(** [__call__(inputs, states)]; fused and bidirectional cells cannot be stepped. *)
Fixpoint call (c : cell) (x : Sym) (states : list st) : M cstore (Sym * list st) :=
  match c with
  | Leaf h k w => leaf_call h k w x states
  | FusedRNNCell _ _ _ | BidirectionalCell _ _ _ _ _ => raise NotImplementedError
  | SequentialRNNCell h _ cells => seq_call call h cells x states
  | DropoutCell _ p => dropout_call p x states
  | ZoneoutCell h base po ps => zoneout_call (call base) h po ps x states
  | ResidualCell h base => residual_call (call base) x states
  end.
