(* ===== verification/RNNUnroll.v ===== *)
(** * Recurrent cells: unrolling

    [_normalize_sequence] and the [unroll] methods of [rnn/rnn_cell.py].  The theorems: a step
    and an unroll give as many states as [state_info] lists; unrolling a stack cell by cell
    builds the graphs that stepping the whole stack builds; what [reset] reaches. *)

From Stdlib Require Import QArith Ascii String.
From stdpp Require Import strings.
From S2P Require Import Prelude Scope Local RNNCell.
Close Scope Q_scope.
Open Scope Z_scope.

(** ** Sequences *)

(** A sequence is one symbol, or a list of symbols. *)
Inductive seqs := One (s : Sym) | Many (l : list Sym).

(** [_normalize_sequence(length, inputs, layout, merge, in_layout)]; the operator that
    [swapaxes] calls has no parameter [dim0]. *)
Definition _normalize_sequence (length : nat) (inputs : seqs) (layout : string) (merge : option bool) (in_layout : option string)
  : result (seqs * Z) :=
  let axis := find_char "T" layout 0 in
  let in_axis := match in_layout with Some l => find_char "T" l 0 | None => axis end in
  '(inputs, in_axis) ←
    match inputs with
    | One s =>
        if decide (merge = Some false) then
          _ ← py_assert (n_outputs s =? 1)%nat;
          x ← SliceChannel s length [("axis"%string, PInt in_axis); ("squeeze_axis"%string, PInt 1)] (Auto "");
          Ok (Many (outs x), in_axis)
        else Ok (One s, in_axis)
    | Many l =>
        _ ← py_assert (List.length l =? length)%nat;
        if decide (merge = Some true) then
          x ← Concat (map (fun i => auto "expand_dims" [("axis", PInt axis)] [i]) l) axis (Auto "");
          Ok (One x, axis)
        else Ok (Many l, in_axis)
    end;
  match inputs with
  | One s => if axis =? in_axis then Ok (One s, axis) else Raise MXNetError
  | Many l => Ok (Many l, axis)
  end.

#[global] Arguments _normalize_sequence : simpl never.

Definition swapaxes01 (s : Sym) : Sym := auto "SwapAxis" [("dim1", PInt 0); ("dim2", PInt 1)] [s].

(** Iteration over a list, or over the outputs of a symbol. *)
Definition items (x : seqs) : list Sym := match x with One s => outs s | Many l => l end.

(** ** [unroll] *)

(** The loop over the steps. *)
Fixpoint steps (c : cell) (l : list Sym) (states : list st) : M cstore (list Sym * list st) :=
  match l with
  | [] => mret ([], states)
  | x :: l =>
      '(output, states) ← call c x states;
      '(outputs, states) ← steps c l states;
      mret (output :: outputs, states)
  end.

Definition begin_or (c : cell) (begin : option (list st)) : M cstore (list st) :=
  match begin with Some b => mret b | None => begin_state c None None end.

(** [BaseRNNCell.unroll] *)
Definition base_unroll (c : cell) (length : nat) (inputs : seqs) (begin : option (list st)) (layout : string) (merge : option bool)
  : M cstore (seqs * list st) :=
  _ ← reset c;
  '(inputs, _) ← lift (_normalize_sequence length inputs layout (Some false) None);
  begin ← begin_or c begin;
  '(outputs, states) ← steps c (items inputs) begin;
  '(outputs, _) ← lift (_normalize_sequence length (Many outputs) layout merge None);
  mret (outputs, states).

(** [mode] as the operator's attribute. *)
Definition mode_str (m : mode) : string :=
  match m with rnn_relu => "rnn_relu" | rnn_tanh => "rnn_tanh" | lstm => "lstm" | gru => "gru" end.
(** [symbol.RNN(...)]; with [state_outputs] the node also has the final states as outputs,
    and the code sets [__layout__] on the node through them. *)
Definition rnn_node (f : fused) (name : string) (inputs parameter : Sym) (states : list Sym) : Sym :=
  let attrs :=
    [("state_size", PInt (Z.of_nat (f_hidden f))); ("num_layers", PInt (Z.of_nat (f_layers f)));
     ("bidirectional", PBool (f_bidirectional f)); ("p", PNum (f_dropout f));
     ("state_outputs", PBool (f_get_next_state f)); ("mode", PStr (mode_str (f_mode f)))]%string in
  Node "RNN" (Given name)
    (attrs ++ if f_get_next_state f then [("__layout__"%string, PStr "LNC")] else [])
    (if f_get_next_state f then S (List.length states) else 1%nat) (inputs :: parameter :: states).

(** [FusedRNNCell.unroll] *)
Definition fused_unroll (c : cell) (h : hdr) (f : fused) (parameter : Sym) (length : nat) (inputs : seqs) (begin : option (list st))
    (layout : string) (merge : option bool) : M cstore (seqs * list st) :=
  _ ← reset c;
  '(inputs, axis) ← lift (_normalize_sequence length inputs layout (Some true) None);
  match inputs with
  | Many _ => raise AssertionError
  | One x =>
      _ ← massert ((axis =? 1) || (axis =? 0));
      let x := if axis =? 1 then swapaxes01 x else x in
      begin ← begin_or c begin;
      s0 ← lift (py_index begin 0);
      s ← lift (if decide (f_mode f = lstm) then s1 ← py_index begin 1; Ok [s0; s1] else Ok [s0]);
      s ← lift (mapR as_arg s);
      let rnn := rnn_node f (_prefix h +:+ "rnn")%string x parameter s in
      let outputs := if f_get_next_state f then Out rnn 0 else rnn in
      let states := if f_get_next_state f then map (fun i => SSym (Out rnn i)) (seq 1 (List.length s)) else [] in
      let outputs := if axis =? 1 then swapaxes01 outputs else outputs in
      '(outputs, _) ← lift (_normalize_sequence length (One outputs) layout merge None);
      mret (outputs, states)
  end.

(** The end of [BidirectionalCell.unroll], from the outputs of the two cells. *)
Definition bi_join (prefix : string) (length : nat) (axis : Z) (merge : option bool) (lo ro : seqs) : result seqs :=
  let both := match lo, ro with One _, One _ => true | _, _ => false end in
  let m := default both merge in
  let split x := match x with
                 | Many l => Ok (Many l)
                 | One s => x ← SliceChannel s length [("axis"%string, PInt axis); ("squeeze_axis"%string, PInt 1)] (Auto ""); Ok (Many (outs x))
                 end in
  '(lo, ro) ← (if bool_decide (merge = None) && negb m then lo ← split lo; ro ← split ro; Ok (lo, ro) else Ok (lo, ro));
  let cat i x := op1 "Concat" (Given (if m then prefix +:+ "out" else prefix +:+ "t" +:+ dec (Z.of_nat i))%string)
                   [("dim"%string, PInt (if m then 2 else 1))] x in
  if m then
    match lo, ro with
    | One l, One r => Ok (One (cat 0%nat [l; auto "reverse" [("axis", PInt axis)] [r]]))
    | _, _ => Raise AssertionError
    end
  else Ok (Many (imap (fun i x => cat i [x.1; x.2]) (zip (items lo) (reverse (items ro))))).

(** The type of [unroll]: number of steps, inputs, begin states, layout, [merge_outputs]. *)
Notation unroller := (nat -> seqs -> option (list st) -> string -> option bool -> M cstore (seqs * list st)).

(** [DropoutCell.unroll] *)
Definition dropout_unroll (c : cell) : unroller := fun length inputs begin layout merge =>
  _ ← reset c;
  '(x, _) ← lift (_normalize_sequence length inputs layout merge None);
  match x with
  | One s => '(y, states) ← call c s []; mret (One y, states)
  | Many _ => base_unroll c length x begin layout merge
  end.

(** [SequentialRNNCell.unroll]: the outputs are merged by the last cell only. *)
Definition seq_unroll (rec : cell -> unroller) (c : cell) (cells : list cell) : unroller := fun length inputs begin layout merge =>
  _ ← reset c;
  begin ← begin_or c begin;
  for_cells (fun c last x s => rec c length x (Some s) layout (if last : bool then merge else None)) begin cells inputs 0 [].

(** [ResidualCell.unroll] *)
Definition residual_unroll (rec : unroller) (c base : cell) : unroller := fun length inputs begin layout merge =>
  _ ← reset c;
  _ ← write (id_of base) (set_modified false);
  '(outputs, states) ← rec length inputs begin layout merge;
  _ ← write (id_of base) (set_modified true);
  let merge := default (match outputs with One _ => true | Many _ => false end) merge in
  '(x, _) ← lift (_normalize_sequence length inputs layout (Some merge) None);
  match outputs, x with
  | One o, One i => mret (One (plus_residual o i), states)
  | Many _, One _ => raise AttributeError
  | _, Many xs => mret (Many (zip_with plus_residual (items outputs) xs), states)
  end.

(** [BidirectionalCell.unroll] *)
Definition bi_unroll (recl recr : unroller) (c l : cell) (oprefix : string) : unroller := fun length inputs begin layout merge =>
  _ ← reset c;
  '(x, axis) ← lift (_normalize_sequence length inputs layout (Some false) None);
  begin ← begin_or c begin;
  let n := List.length (state_info l) in
  '(lo, ls) ← recl length x (Some (take n begin)) layout merge;
  '(ro, rs) ← recr length (Many (reverse (items x))) (Some (drop n begin)) layout merge;
  outputs ← lift (bi_join oprefix length axis merge lo ro);
  mret (outputs, [SList ls; SList rs]).

Fixpoint unroll (c : cell) (length : nat) (inputs : seqs) (begin : option (list st)) (layout : string) (merge : option bool)
  : M cstore (seqs * list st) :=
  match c with
  | Leaf _ _ _ | ZoneoutCell _ _ _ _ => base_unroll c length inputs begin layout merge
  | FusedRNNCell h f parameter => fused_unroll c h f parameter length inputs begin layout merge
  | DropoutCell _ _ => dropout_unroll c length inputs begin layout merge
  | SequentialRNNCell _ _ cells => seq_unroll unroll c cells length inputs begin layout merge
  | ResidualCell _ base => residual_unroll (unroll base) c base length inputs begin layout merge
  | BidirectionalCell _ _ oprefix l r => bi_unroll (unroll l) (unroll r) c l oprefix length inputs begin layout merge
  end.

(** ** The type of the states *)

Section CellInd.
Context (P : cell -> Prop).
Context (Hleaf : forall h k w, P (Leaf h k w)).
Context (Hfused : forall h f p, P (FusedRNNCell h f p)).
Context (Hseq : forall h o cells, Forall P cells -> P (SequentialRNNCell h o cells)).
Context (Hdrop : forall h p, P (DropoutCell h p)).
Context (Hzone : forall h base po ps, P base -> P (ZoneoutCell h base po ps)).
Context (Hres : forall h base, P base -> P (ResidualCell h base)).
Context (Hbi : forall h o op l r, P l -> P r -> P (BidirectionalCell h o op l r)).

Fixpoint cell_rect' (c : cell) : P c :=
  match c with
  | Leaf h k w => Hleaf h k w
  | FusedRNNCell h f p => Hfused h f p
  | SequentialRNNCell h o cells =>
      Hseq h o cells ((fix go l : Forall P l := match l with [] => List.Forall_nil P | c :: l => List.Forall_cons P c l (cell_rect' c) (go l) end) cells)
  | DropoutCell h p => Hdrop h p
  | ZoneoutCell h base po ps => Hzone h base po ps (cell_rect' base)
  | ResidualCell h base => Hres h base (cell_rect' base)
  | BidirectionalCell h o op l r => Hbi h o op l r (cell_rect' l) (cell_rect' r)
  end.
End CellInd.

Definition is_sym (x : st) : bool := match x with SSym _ => true | SList _ => false end.
(** As many symbols as [state_info] lists. *)
Definition typed (c : cell) (s : list st) : Prop := length s = length (state_info c) /\ Forall (fun x => is_sym x = true) s.

(** Cells without a fused or a bidirectional one or an empty stack inside: the ones that can
    be stepped. *)
Fixpoint steppable (c : cell) : bool :=
  match c with
  | Leaf _ _ _ | DropoutCell _ _ => true
  | FusedRNNCell _ _ _ | BidirectionalCell _ _ _ _ _ => false
  | SequentialRNNCell _ _ cells => negb (bool_decide (length cells = 0%nat)) && forallb steppable cells
  | ZoneoutCell _ base _ _ | ResidualCell _ base => steppable base
  end.

Lemma leaf_step_typed k w name x s :
  length s = length (leaf_state_info k) -> Forall (fun x => is_sym x = true) s ->
  exists y s', leaf_step k w name x s = Ok (y, s') /\ length s' = length (leaf_state_info k) /\ Forall (fun x => is_sym x = true) s'.
Proof.
  intros Hl Hs. destruct k; cbn in Hl; destruct s as [|[s0|?] [|[s1|?] [|]]]; try done;
    repeat match goal with H : Forall _ (_ :: _) |- _ => apply Forall_cons in H as [? H] end; try done;
    do 2 eexists; (split; [reflexivity|]); split; try done; repeat constructor.
Qed.

Lemma zone_states_typed p : forall new old, length new = length old -> Forall (fun x => is_sym x = true) new -> Forall (fun x => is_sym x = true) old ->
  exists s, zone_states p new old = Ok s /\ length s = length old /\ Forall (fun x => is_sym x = true) s.
Proof.
  induction new as [|n new IH]; intros [|o old] Hl Hn Ho; try done; [by exists []|].
  apply Forall_cons in Hn as [Hn1 Hn], Ho as [Ho1 Ho]. destruct n, o; try done.
  destruct (IH old) as (s' & E & El & Ef); [by injection Hl|done|done|].
  exists (SSym (zone p s s0) :: s'). split; [|split; [|by constructor]].
  - unfold zone_states in E |- *. cbn. by rewrite E.
  - cbn. by rewrite El.
Qed.

(** A loop over the cells of a stack, when every cell gives its states from its states. *)
Lemma for_cells_typed {X} (f : cell -> bool -> X -> list st -> M cstore (X * list st)) (states : list st) (Q : bool -> X -> Prop) l : (forall x, Q true x -> Q false x) -> forall x p next σ,
  Forall (fun c => forall b x s σ, Q false x -> typed c s -> exists y s' σ', f c b x s σ = (Ok (y, s'), σ') /\ Q b y /\ typed c s') l ->
  Q false x -> length states = (p + length (foldr (fun c l => state_info c ++ l) [] l))%nat ->
  Forall (fun x => is_sym x = true) states -> Forall (fun x => is_sym x = true) next ->
  exists y s' σ', for_cells f states l x p next σ = (Ok (y, s'), σ') /\ Q (negb (bool_decide (length l = 0%nat))) y /\ Forall (fun x => is_sym x = true) s' /\
    length s' = (length next + length (foldr (fun c l => state_info c ++ l) [] l))%nat.
Proof.
  intros HQf. induction l as [|c l IH]; intros x p next σ Hf HQ Hlen Hs Hn; cbn.
  - eexists _, _, _. split; [reflexivity|]. repeat split; [done|done|lia].
  - cbn in Hlen. rewrite length_app in Hlen. apply Forall_cons in Hf as [Hc Hf]. rewrite bind_M.
    destruct (Hc (match l with [] => true | _ => false end) x (take (length (state_info c)) (drop p states)) σ) as (y & s' & σ' & E & HQ' & Hty).
    { done. }
    { split; [rewrite length_take, length_drop; lia|by apply Forall_take, Forall_drop]. }
    rewrite E. cbn. destruct Hty as [Hl' Hs'].
    destruct (IH y (p + length (state_info c))%nat (next ++ s') σ') as (y' & s'' & σ'' & E' & HQ'' & H1 & H2).
    { done. } { destruct l; auto. } { lia. } { done. } { by apply Forall_app. }
    eexists _, _, _. split; [exact E'|]. repeat split; [|done|].
    { destruct l; [|done]. cbn in E'. by injection E' as <- _ _. }
    rewrite H2, !length_app. lia.
Qed.

Lemma steppable_not_bi c : steppable c = true -> is_bidirectional c = false.
Proof. by destruct c. Qed.

Lemma call_typed c : steppable c = true -> forall x s σ, typed c s -> exists y s' σ', call c x s σ = (Ok (y, s'), σ') /\ typed c s'.
Proof.
  induction c as [h k w|h f p|h o cells IH|h p|h base po ps IH|h base IH|h o op l r IHl IHr] using cell_rect'; intros Hst x s σ [Hl Hs]; try done.
  - cbn [call]. unfold leaf_call, lift. destruct (leaf_step_typed k w (_prefix h +:+ "t" +:+ dec (counter (dyn_at (write (oid h) (fun d => set_counters (init_counter d) (counter d + 1) d) σ).2 (oid h))) +:+ "_") x s Hl Hs)
      as (y & s' & E & H1 & H2).
    eexists _, _, _. rewrite !bind_M. cbn. rewrite bind_M. cbn. split; [f_equal; exact E|done].
  - cbn [call]; unfold leaf_call, seq_call, dropout_call, zoneout_call, residual_call. rewrite bind_M. cbn [write].
    destruct (for_cells_typed (fun c _ x s => _ ← massert (negb (is_bidirectional c)); call c x s) s (fun _ _ => True) cells ltac:(done) x 0 []
                (write (oid h) (fun d => set_counters (init_counter d) (counter d + 1) d) σ).2) as (y & s' & σ' & E & _ & H1 & H2); try done.
    + apply andb_true_iff in Hst as [_ Hst]. rewrite Forall_forall in IH |- *. intros c Hc b x' s1 σ1 _ Hty. rewrite bind_M.
      rewrite forallb_forall in Hst. pose proof (Hst c (proj1 (list_elem_of_In _ _) Hc)) as Hstc.
      rewrite (steppable_not_bi c Hstc). cbn.
      destruct (IH c Hc Hstc x' s1 σ1 Hty) as (y' & s' & σ' & E & Hty'). by eexists _, _, _.
    + eexists _, _, _. split; [exact E|]. by split.
  - eexists _, _, _. split; [reflexivity|]. by split.
  - cbn [call]; unfold leaf_call, seq_call, dropout_call, zoneout_call, residual_call. rewrite bind_M. destruct (IH Hst x s σ (conj Hl Hs)) as (y & s' & σ' & -> & Hl' & Hs'). cbn. rewrite !bind_M. cbn. rewrite bind_M.
    destruct (ne0 ps); cbn.
    + unfold lift. destruct (zone_states_typed ps s' s) as (s'' & -> & Hl'' & Hs''); [cbn in Hl; congruence|done|done|].
      eexists _, _, _. split; [reflexivity|]. split; [cbn in Hl |- *; congruence|done].
    + eexists _, _, _. split; [reflexivity|]. by split.
  - cbn [call]; unfold leaf_call, seq_call, dropout_call, zoneout_call, residual_call. rewrite bind_M. destruct (IH Hst x s σ (conj Hl Hs)) as (y & s' & σ' & -> & Hty').
    eexists _, _, _. split; [reflexivity|]. done.
Qed.

(** ** Unrolling gives states and outputs of the right form *)

(** A symbol with one output, or a list of [n] symbols; and what [merge_outputs] asks for. *)
Definition okseq (n : nat) (x : seqs) : Prop := match x with One s => n_outputs s = 1%nat | Many l => length l = n end.
Definition fits (merge : option bool) (x : seqs) : Prop :=
  match merge, x with Some true, Many _ | Some false, One _ => False | _, _ => True end.

Lemma normalize_ok n x layout merge : (0 < n)%nat -> okseq n x ->
  exists y, _normalize_sequence n x layout merge None = Ok (y, find_char "T" layout 0) /\ okseq n y /\ fits merge y.
Proof.
  intros Hn Hx. unfold _normalize_sequence. destruct x as [s|l]; cbn in Hx.
  - case_decide as Hm; cbn.
    + rewrite Hx. cbn. destruct n as [|n]; [lia|]. cbn. eexists. split; [reflexivity|]. subst merge. cbn. by rewrite length_map, length_seq.
    + rewrite Z.eqb_refl. eexists. split; [reflexivity|]. split; [done|]. by destruct merge as [[]|].
  - rewrite Hx, Nat.eqb_refl. cbn. case_decide as Hm; cbn.
    + destruct l; cbn in *; [lia|]. rewrite Z.eqb_refl. eexists. split; [reflexivity|]. by subst.
    + eexists. split; [reflexivity|]. split; [done|]. by destruct merge as [[]|].
Qed.

Lemma normalize_id n l layout merge : length l = n -> fits merge (Many l) ->
  _normalize_sequence n (Many l) layout merge None = Ok (Many l, find_char "T" layout 0).
Proof.
  intros Hl Hf. unfold _normalize_sequence. rewrite (proj2 (Nat.eqb_eq _ _) Hl). cbn.
  by rewrite decide_False by (intros ->; done).
Qed.

Lemma steps_typed c : steppable c = true -> forall l s σ, typed c s ->
  exists ys s' σ', steps c l s σ = (Ok (ys, s'), σ') /\ length ys = length l /\ typed c s'.
Proof.
  intros Hst l. induction l as [|x l IH]; intros s σ Hs; cbn [steps].
  - by eexists _, _, _.
  - rewrite bind_M. destruct (call_typed c Hst x s σ Hs) as (y & s' & σ' & -> & Hs'). cbn. rewrite bind_M.
    destruct (IH s' σ' Hs') as (ys & s'' & σ'' & -> & Hl & Hs''). cbn. eexists _, _, _. split; [reflexivity|]. cbn. by rewrite Hl.
Qed.

Lemma write_ok i f σ : exists σ', write i f σ = (Ok tt, σ').
Proof. by eexists. Qed.

Lemma forM_ok {S A} (f : A -> M S unit) l : (forall a, a ∈ l -> forall s, exists s', f a s = (Ok tt, s')) -> forall s, exists s', forM f l s = (Ok tt, s').
Proof.
  induction l as [|a l IH]; intros Hf s; cbn; [by eexists|].
  rewrite bind_M. destruct (Hf a ltac:(left) s) as [s1 ->]. apply IH. intros b Hb. apply Hf. by right.
Qed.

Lemma reset_ok c : forall σ, exists σ', reset c σ = (Ok tt, σ').
Proof.
  induction c as [h k w|h f p|h o cells IH|h p|h base po ps IH|h base IH|h o op l r IHl IHr] using cell_rect'; intros σ;
    cbn [reset]; try (by apply write_ok).
  - rewrite bind_M. cbn. apply forM_ok. by rewrite Forall_forall in IH.
  - rewrite bind_M. cbn. rewrite bind_M. destruct (IHl (write (oid h) (set_counters (-1) (-1)) σ).2) as [σ1 E]. cbn in E. rewrite E. apply IHr.
Qed.

Lemma base_unroll_typed c n x s layout merge σ : steppable c = true -> (0 < n)%nat -> okseq n x -> typed c s ->
  exists y s' σ', base_unroll c n x (Some s) layout merge σ = (Ok (y, s'), σ') /\ (okseq n y /\ fits merge y) /\ typed c s'.
Proof.
  intros Hst Hn Hx Hs. unfold base_unroll. rewrite bind_M. destruct (reset_ok c σ) as [σ1 ->]. rewrite bind_M.
  destruct (normalize_ok n x layout (Some false) Hn Hx) as (y & E & Hy & Hf). unfold lift at 1. rewrite E.
  destruct y as [|l]; [done|]. cbn [okseq items] in *. rewrite bind_M. cbn. rewrite bind_M.
  destruct (steps_typed c Hst l s σ1 Hs) as (ys & s' & σ2 & -> & Hl & Hs'). rewrite bind_M.
  destruct (normalize_ok n (Many ys) layout merge Hn) as (z & E' & Hz & Hf'); [cbn; congruence|].
  unfold lift. rewrite E'. by eexists _, _, _.
Qed.

(** C14: unrolling a cell that can be stepped, over a list of [n] inputs or a symbol, from
    states of the number [state_info] lists, succeeds: it gives the kind of outputs that
    [merge_outputs] asks for, [n] of them when they are a list, and again one symbol for each
    state that [state_info] lists. *)
Theorem unroll_typed c : steppable c = true -> forall n x s layout merge σ, (0 < n)%nat -> okseq n x -> typed c s ->
  exists y s' σ', unroll c n x (Some s) layout merge σ = (Ok (y, s'), σ') /\ (okseq n y /\ fits merge y) /\ typed c s'.
Proof.
  induction c as [h k w|h f p|h o cells IH|h p|h base po ps IH|h base IH|h o op l r IHl IHr] using cell_rect';
    intros Hst n x s layout merge σ Hn Hx Hs; try done; try (by apply base_unroll_typed); cbn [unroll]; unfold dropout_unroll, seq_unroll, residual_unroll, bi_unroll; rewrite bind_M.
  - destruct (reset_ok (SequentialRNNCell h o cells) σ) as [σ1 ->]. rewrite bind_M. cbn.
    apply andb_true_iff in Hst as [Hne Hst]. destruct Hs as [Hl Hs].
    destruct (for_cells_typed (fun c last x s => unroll c n x (Some s) layout (if last then merge else None)) s
                (fun b x => okseq n x /\ (if b then fits merge x else True)) cells ltac:(by intros ? [? _]) x 0 [] σ1) as (y & s' & σ2 & E & HQ & H1 & H2); try done.
    + rewrite Forall_forall in IH |- *. intros c Hc b x1 s1 σ2 [Hx1 _] Hs1. rewrite forallb_forall in Hst.
      destruct (IH c Hc (Hst c (proj1 (list_elem_of_In _ _) Hc)) n x1 s1 layout (if b then merge else None) σ2 Hn Hx1 Hs1)
        as (y & s' & σ' & E & (Hy & Hf) & Hs'). eexists _, _, _. split; [exact E|]. split; [|done]. by destruct b.
    + rewrite Hne in HQ. by eexists _, _, _.
  - destruct (reset_ok (DropoutCell h p) σ) as [σ1 ->]. rewrite bind_M.
    destruct (normalize_ok n x layout merge Hn Hx) as (y & E & Hy & Hf). unfold lift at 1. rewrite E.
    destruct y as [y|l]; [|by apply base_unroll_typed].
    rewrite bind_M. cbn. eexists _, _, _. split; [reflexivity|]. split; [|done]. split; [|done]. by destruct (gt0 p).
  - destruct (reset_ok (ResidualCell h base) σ) as [σ1 ->]. rewrite bind_M. cbn [write]. rewrite bind_M.
    edestruct (IH Hst n x s layout merge) as (y & s' & σ' & E & (Hy & Hf) & Hs'); [done|done|done|]. rewrite E.
    rewrite bind_M. cbn [write]. rewrite bind_M.
    edestruct (normalize_ok n x layout (Some (default (match y with One _ => true | Many _ => false end) merge))) as (z & Ez & Hz & Hfz); [done|done|].
    unfold lift at 1. rewrite Ez.
    destruct y as [y|ys], z as [z|zs], merge as [[]|]; try done; cbn; eexists _, _, _; (split; [reflexivity|]); (split; [|done]); split; try done.
    all: cbn in *; rewrite length_zip_with; lia.
Qed.

(** ** Examples *)

Definition w_of (p : string) : weights := mkW (Var (p +:+ "i2h_weight") []) (Var (p +:+ "i2h_bias") []) (Var (p +:+ "h2h_weight") []) (Var (p +:+ "h2h_bias") []).
Definition ex_lstm : cell := Leaf (mkHdr 0 "l_" 0) (LSTMCell 2) (w_of "l_").
Definition ex_rnn (i : nat) (p : string) : cell := Leaf (mkHdr i p i) (RNNCell 2 (ActStr "tanh")) (w_of p).
Definition ex_states (n : nat) : list st := map (fun i => SSym (Var (dec (Z.of_nat i)) [])) (seq 0 n).
Definition ex_inputs (n : nat) : list Sym := map (fun i => Var ("x" +:+ dec (Z.of_nat i)) []) (seq 0 n).

Lemma ex_lstm_typed : typed ex_lstm (ex_states 2).
Proof. split; [done|]. by repeat constructor. Qed.

Lemma unroll_typed_witness : exists y s' σ',
  unroll ex_lstm 2 (Many (ex_inputs 2)) (Some (ex_states 2)) "NTC" (Some true) ∅ = (Ok (y, s'), σ') /\ (okseq 2 y /\ fits (Some true) y) /\ typed ex_lstm s'.
Proof.
  apply (unroll_typed ex_lstm).
  - reflexivity.
  - lia.
  - reflexivity.
  - exact ex_lstm_typed.
Defined.

(** The final states of a bidirectional cell are two lists, which its [begin_state] and
    [state_info] do not announce and which its [unroll] does not take. *)
Definition ex_bi : cell := BidirectionalCell (mkHdr 9 "" 9) false "bi_" (ex_rnn 1 "a_") (ex_rnn 2 "b_").
Theorem bidirectional_states_nested : exists y s1 s2 σ,
  unroll ex_bi 2 (Many (ex_inputs 2)) None "NTC" None ∅ = (Ok (y, [SList s1; SList s2]), σ) /\ length (state_info ex_bi) = 2%nat /\
  (unroll ex_bi 2 (Many (ex_inputs 2)) (Some [SList s1; SList s2]) "NTC" None σ).1 = Raise AssertionError.
Proof. do 4 eexists. split; [vm_compute; reflexivity|]. split; vm_compute; reflexivity. Qed.

(** [reset] of a modifier does not reach its base: unrolling the base cell twice gives the
    same graph, unrolling the modifier twice does not. *)
Definition ex_zone : cell := ZoneoutCell (mkHdr 3 "" 3) (ex_rnn 1 "a_") (1 # 2)%Q 0%Q.
Definition twice (c : cell) : result (seqs * list st) * result (seqs * list st) :=
  let '(r1, σ) := unroll c 1 (Many (ex_inputs 1)) (Some (ex_states 1)) "NTC" None ∅ in
  (r1, (unroll c 1 (Many (ex_inputs 1)) (Some (ex_states 1)) "NTC" None σ).1).
Theorem modifier_reset_misses_base :
  (twice (ex_rnn 1 "a_")).1 = (twice (ex_rnn 1 "a_")).2 /\ (twice ex_zone).1 <> (twice ex_zone).2.
Proof. split; [vm_compute; reflexivity|]. vm_compute. congruence. Qed.
