(* ===== verification/RNNStack.v ===== *)
(** * Recurrent cells: stacks

    A stack of cells can be unrolled in two ways: cell by cell, each over all steps, as
    [SequentialRNNCell.unroll] does, or step by step, each through all cells, as
    [BaseRNNCell.unroll] would.  The two loops are interchanged here: they build the same
    graphs. *)

From Stdlib Require Import QArith Ascii String.
From stdpp Require Import strings.
From S2P Require Import Prelude Scope Local RNNCell RNNUnroll.
Close Scope Q_scope.
Open Scope Z_scope.

(** ** Footprints *)

(** The objects of a cell, its own first. *)
Fixpoint ids (c : cell) : list nat :=
  id_of c ::
    match c with
    | Leaf _ _ _ | FusedRNNCell _ _ _ | DropoutCell _ _ => []
    | SequentialRNNCell _ _ cells => concat (map ids cells)
    | ZoneoutCell _ base _ _ | ResidualCell _ base => ids base
    | BidirectionalCell _ _ _ l r => ids l ++ ids r
    end.
Notation foot c := (list_to_set (ids c) : gset nat).

Lemma local_rd D i : i ∈ D -> local D (read i).
Proof. intros Hi. apply (local_read D i (default fresh_dyn) Hi). Qed.
Lemma local_wr D i f : i ∈ D -> local D (write i f).
Proof. intros Hi. apply (local_alter D i (fun o => Some (f (default fresh_dyn o))) Hi). Qed.
#[export] Hint Resolve local_rd local_wr : local.

Lemma id_in_ids c : id_of c ∈ ids c.
Proof. destruct c; left. Qed.
Lemma base_ids c i l : i ∈ ids c -> i ∈ (list_to_set (l :: ids c) : gset nat).
Proof. set_solver. Qed.

Lemma local_for_cells {X} D (f : cell -> bool -> X -> list st -> M cstore (X * list st)) states l :
  (forall c, c ∈ l -> forall b x s, local D (f c b x s)) -> forall x p next, local D (for_cells f states l x p next).
Proof.
  intros Hf. induction l as [|c l IH]; intros x p next; cbn; [apply local_ret|].
  apply local_bind; [apply Hf; left|]. intros [y s]. apply IH. intros c' Hc'. apply Hf. by right.
Qed.

Lemma call_local c : forall x s, local (foot c) (call c x s).
Proof.
  induction c as [h k w|h f p|h o cells IH|h p|h base po ps IH|h base IH|h o op l r IHl IHr] using cell_rect';
    intros x s; cbn [call]; unfold leaf_call, seq_call, dropout_call, zoneout_call, residual_call; try (by eauto with local).
  - apply local_bind; [apply local_wr; set_solver|]. intros _. apply local_bind; [apply local_rd; set_solver|]. eauto with local.
  - apply local_bind; [apply local_wr; set_solver|]. intros _. apply local_for_cells. intros c Hc b y s'.
    apply local_bind; [apply local_massert|]. intros _. rewrite Forall_forall in IH.
    eapply local_mono; [|apply (IH c Hc)]. intros i Hi. apply elem_of_list_to_set in Hi. apply elem_of_list_to_set.
    right. apply list_elem_of_In, in_concat. exists (ids c). split; [apply in_map|]; by apply list_elem_of_In.
  - apply local_bind; [eapply local_mono; [|apply IH]; set_solver|]. intros [y s'].
    apply local_bind; [apply local_rd; set_solver|]. intros d.
    apply local_bind; [destruct (ne0 ps); eauto with local|]. intros s''.
    apply local_bind; [apply local_wr; set_solver|]. eauto with local.
  - apply local_bind; [eapply local_mono; [|apply IH]; set_solver|]. intros [y s']. eauto with local.
Qed.

Lemma steps_local c l : forall s, local (foot c) (steps c l s).
Proof.
  induction l as [|x l IH]; intros s; cbn; [eauto with local|].
  apply local_bind; [apply call_local|]. intros [y s']. apply local_bind; [apply IH|]. intros [ys s'']. eauto with local.
Qed.

(** ** Rows and columns *)

(** A loop over cells with their states given one list per cell. *)
Definition forL {X} (f : cell -> bool -> X -> list st -> M cstore (X * list st)) :=
  fix go (l : list cell) (x : X) (ss : list (list st)) : M cstore (X * list (list st)) :=
    match l, ss with
    | c :: l, s :: ss =>
        '(y, s) ← f c (match l with [] => true | _ => false end) x s;
        '(z, ss) ← go l y ss;
        mret (z, s :: ss)
    | _, _ => mret (x, [])
    end.

Lemma forL_cons {X} (f : cell -> bool -> X -> list st -> M cstore (X * list st)) c l x s ss :
  forL f (c :: l) x (s :: ss) =
    ('(y, s) ← f c (match l with [] => true | _ => false end) x s; '(z, ss) ← forL f l y ss; mret (z, s :: ss)).
Proof. done. Qed.

Fixpoint splits (l : list cell) (s : list st) : list (list st) :=
  match l with
  | [] => []
  | c :: l => take (length (state_info c)) s :: splits l (drop (length (state_info c)) s)
  end.

Lemma for_cells_forL {X} (f : cell -> bool -> X -> list st -> M cstore (X * list st)) states l : forall x p next σ,
  for_cells f states l x p next σ =
    match forL f l x (splits l (drop p states)) σ with
    | (Ok (y, ss), σ') => (Ok (y, next ++ concat ss), σ')
    | (Raise e, σ') => (Raise e, σ')
    end.
Proof.
  induction l as [|c l IH]; intros x p next σ; cbn; [by rewrite app_nil_r|].
  rewrite !bind_M. destruct (f c _ x _ σ) as [[[y s]|e] σ1]; [|done].
  rewrite IH, bind_M, drop_drop. destruct (forL f l y _ σ1) as [[[z ss]|e] σ2]; [|done].
  cbn. by rewrite <- app_assoc.
Qed.

Lemma splits_concat l ss : Forall2 typed l ss -> splits l (concat ss) = ss.
Proof.
  induction 1 as [|c s l ss [Hc _] _ IH]; [done|]. cbn. rewrite <- Hc, take_app_length, drop_app_length. by rewrite IH.
Qed.

Lemma splits_typed l : forall s, length s = length (foldr (fun c l => state_info c ++ l) [] l) -> Forall (fun x => is_sym x = true) s ->
  Forall2 typed l (splits l s) /\ concat (splits l s) = s.
Proof.
  induction l as [|c l IH]; intros s Hl Hs; cbn in *.
  - destruct s; [|done]. by split; [constructor|].
  - rewrite length_app in Hl. destruct (IH (drop (length (state_info c)) s)) as [H1 H2].
    + rewrite length_drop. lia.
    + by apply Forall_drop.
    + split; [constructor; [split|done]|].
      * rewrite length_take. lia.
      * by apply Forall_take.
      * by rewrite H2, take_drop.
Qed.

(** One step through all cells, and all steps. *)
Definition row : list cell -> Sym -> list (list st) -> M cstore (Sym * list (list st)) := forL (fun c _ x s => call c x s).
Fixpoint rows (l : list cell) (xs : list Sym) (ss : list (list st)) : M cstore (list Sym * list (list st)) :=
  match xs with
  | [] => mret ([], ss)
  | x :: xs => '(y, ss) ← row l x ss; '(ys, ss) ← rows l xs ss; mret (y :: ys, ss)
  end.
(** All steps of one cell, then of the next. *)
Definition cols : list cell -> list Sym -> list (list st) -> M cstore (list Sym * list (list st)) := forL (fun c _ xs s => steps c xs s).

Lemma row_local l : forall x ss, local (list_to_set (concat (map ids l))) (row l x ss).
Proof.
  induction l as [|c l IH]; intros x ss; [destruct ss; apply local_ret|]. destruct ss as [|s ss]; [apply local_ret|].
  cbn. apply local_bind.
  - eapply local_mono; [|apply call_local]. set_solver.
  - intros [y s']. apply local_bind.
    + eapply local_mono; [|apply IH]. set_solver.
    + intros [z ss']. apply local_ret.
Qed.

Lemma rows_cons c l : ids c ## concat (map ids l) -> forall xs s ss σ ys ss' σ',
  rows (c :: l) xs (s :: ss) σ = (Ok (ys, ss'), σ') ->
  exists zs s1 ss1 σ1, steps c xs s σ = (Ok (zs, s1), σ1) /\ rows l zs ss σ1 = (Ok (ys, ss1), σ') /\ ss' = s1 :: ss1.
Proof.
  intros HD. induction xs as [|x xs IH]; intros s ss σ ys ss' σ' E; cbn [rows steps] in *.
  { injection E as <- <- <-. by eexists _, _, _, _. }
  rewrite bind_M in E. cbn in E. rewrite bind_M in E. rewrite bind_M.
  destruct (call c x s σ) as [[[y s1]|e] σ1]; [|done]. rewrite bind_M in E. fold (row l y ss) in E.
  destruct (row l y ss σ1) as [[[z ss1]|e] σ2] eqn:Er; [|done]. cbn in E. rewrite bind_M in E.
  destruct (rows (c :: l) xs (s1 :: ss1) σ2) as [[[ys1 ss2]|e] σ3] eqn:Ers; [|done]. cbn in E. injection E as <- <- <-.
  destruct (IH _ _ _ _ _ _ Ers) as (zs & s2 & ss3 & σ4 & Es & Erl & ->).
  destruct (local_swap _ _ _ _ _ _ _ _ _ (row_local l y ss) (steps_local c xs s1) ltac:(set_solver) Er Es) as (σ5 & Es' & Er').
  eexists (y :: zs), s2, ss3, σ5. rewrite bind_M, Es'. split; [done|]. split; [|done].
  cbn [rows]. rewrite bind_M, Er', bind_M, Erl. done.
Qed.

Lemma rows_nil xs : forall ss σ, exists ss', rows [] xs ss σ = (Ok (xs, ss'), σ).
Proof.
  induction xs as [|x xs IH]; intros ss σ; [by eexists|]. cbn [rows]. rewrite bind_M.
  assert (row [] x ss σ = (Ok (x, []), σ)) as -> by (by destruct ss). rewrite bind_M. destruct (IH [] σ) as [ss' ->]. by eexists.
Qed.

(** The interchange. *)
Lemma rows_cols l : NoDup (concat (map ids l)) -> forall xs ss σ ys ss' σ', length ss = length l ->
  rows l xs ss σ = (Ok (ys, ss'), σ') -> exists ss'', cols l xs ss σ = (Ok (ys, ss''), σ') /\ (length ss' = length l -> ss'' = ss').
Proof.
  induction l as [|c l IH]; intros Hnd xs ss σ ys ss' σ' Hl E.
  - destruct ss; [|done]. destruct (rows_nil xs [] σ) as [ss1 E1]. rewrite E1 in E. injection E as <- <- <-.
    exists []. split; [done|]. by destruct ss1.
  - destruct ss as [|s ss]; [done|]. cbn in Hnd. apply NoDup_app in Hnd as (_ & Hd & Hnd).
    destruct (rows_cons c l ltac:(set_solver) _ _ _ _ _ _ _ E) as (zs & s1 & ss1 & σ1 & Es & Er & ->).
    destruct (IH Hnd _ _ _ _ _ _ ltac:(by injection Hl) Er) as (ss2 & Ec & Hss).
    exists (s1 :: ss2). split.
    + unfold cols in *. rewrite forL_cons, bind_M, Es, bind_M. by rewrite Ec.
    + intros Hl'. rewrite Hss; [done|]. by injection Hl'.
Qed.

(** ** Cells at rest *)

(** The counters are at their start; for a zoneout cell there is no previous output; a base
    cell is marked as modified. *)
Definition settled (σ : cstore) (i : nat) : bool :=
  match σ !! i with Some d => (init_counter d =? -1) && (counter d =? -1) | None => false end.
Fixpoint rested (c : cell) (σ : cstore) : bool :=
  match c with
  | Leaf h _ _ | DropoutCell h _ => settled σ (oid h)
  | ZoneoutCell h _ _ _ => settled σ (oid h) && match prev_output (dyn_at σ (oid h)) with None => true | Some _ => false end
  | ResidualCell h base => settled σ (oid h) && modified (dyn_at σ (id_of base)) && settled σ (id_of base) && rested base σ
  | _ => false
  end.

Lemma write_id i f σ d : σ !! i = Some d -> f d = d -> write i f σ = (Ok tt, σ).
Proof.
  intros E Ef. unfold write. f_equal. apply map_eq. intros k.
  destruct (decide (i = k)) as [<-|Hn]; [|by rewrite lookup_partial_alter_ne].
  rewrite lookup_partial_alter_eq. rewrite E. cbn. by rewrite Ef.
Qed.

Lemma settled_spec σ i : settled σ i = true -> exists d, σ !! i = Some d /\ set_counters (-1) (-1) d = d.
Proof.
  unfold settled. destruct (σ !! i) as [[o m a b p]|]; [|done]. cbn. intros [->%Z.eqb_eq ->%Z.eqb_eq]%andb_true_iff. by eexists.
Qed.

Lemma rested_reset c σ : rested c σ = true -> reset c σ = (Ok tt, σ).
Proof.
  destruct c; try done; cbn [rested reset id_of hdr_of]; intros Hr.
  - destruct (settled_spec _ _ Hr) as (d & E & Ed). by eapply write_id.
  - destruct (settled_spec _ _ Hr) as (d & E & Ed). by eapply write_id.
  - apply andb_true_iff in Hr as [Hs Hp]. destruct (settled_spec _ _ Hs) as (d & E & Ed).
    rewrite bind_M. rewrite (write_id _ _ _ d E Ed). unfold dyn_at in Hp. rewrite E in Hp. cbn in Hp.
    apply (write_id _ _ _ d E). destruct d as [? ? ? ? []]; done.
  - rewrite !andb_true_iff in Hr. destruct Hr as [[[Hs _] _] _]. destruct (settled_spec _ _ Hs) as (d & E & Ed). by eapply write_id.
Qed.

(** ** [_modified] plays no part in a step *)

Definition wm (j : nat) (b : bool) (σ : cstore) : cstore := (write j (set_modified b) σ).2.
Definition modfree {A} (m : M cstore A) : Prop := forall j b σ, m (wm j b σ) = ((m σ).1, wm j b (m σ).2).

Lemma modfree_bind {A B} (m : M cstore A) (f : A -> M cstore B) : modfree m -> (forall a, modfree (f a)) -> modfree (m ≫= f).
Proof.
  intros Hm Hf j b σ. rewrite !bind_M, Hm. destruct (m σ) as [[a|e] σ']; cbn; [apply Hf|done].
Qed.
Lemma modfree_ret {A} (a : A) : modfree (mret a).
Proof. by intros j b σ. Qed.
Lemma modfree_lift {A} (r : result A) : modfree (lift r).
Proof. by intros j b σ. Qed.
Lemma modfree_raise {A} e : modfree (raise e : M cstore A).
Proof. by intros j b σ. Qed.
Lemma modfree_write i f : (forall b d, f (set_modified b d) = set_modified b (f d)) -> modfree (write i f).
Proof.
  intros Hf j b σ. unfold wm, write. cbn. f_equal. apply map_eq. intros k.
  destruct (decide (i = k)) as [<-|Hi], (decide (j = i)) as [->|Hj]; rewrite ?lookup_partial_alter_eq; cbn.
  - by rewrite Hf.
  - rewrite !lookup_partial_alter_ne, lookup_partial_alter_eq by done. done.
  - destruct (decide (i = k)) as [->|]; [done|]. by rewrite !lookup_partial_alter_ne by done.
  - rewrite lookup_partial_alter_ne by done. destruct (decide (j = k)) as [->|Hk].
    + rewrite !lookup_partial_alter_eq, lookup_partial_alter_ne by done. done.
    + by rewrite !lookup_partial_alter_ne by done.
Qed.
(** Reading fields other than [_modified]. *)
Lemma modfree_read {A} i (k : dyn -> M cstore A) :
  (forall b d, k (set_modified b d) = k d) -> (forall d, modfree (k d)) -> modfree (read i ≫= k).
Proof.
  intros Hk Hm j b σ. rewrite !bind_M. cbn [read].
  assert (k (dyn_at (wm j b σ) i) = k (dyn_at σ i)) as ->; [|apply Hm].
  unfold dyn_at, wm, write. cbn. destruct (decide (j = i)) as [->|Hn].
  - rewrite lookup_partial_alter_eq. cbn. apply Hk.
  - by rewrite lookup_partial_alter_ne.
Qed.

Lemma call_modfree c : forall x s, modfree (call c x s).
Proof.
  induction c as [h k w|h f p|h o cells IH|h p|h base po ps IH|h base IH|h o op l r IHl IHr] using cell_rect';
    intros x s; cbn [call]; unfold leaf_call, seq_call, dropout_call, zoneout_call, residual_call; try (by apply modfree_raise).
  - apply modfree_bind; [by apply modfree_write|]. intros _. apply modfree_read; [done|]. intros d. apply modfree_lift.
  - apply modfree_bind; [by apply modfree_write|]. intros _. generalize 0%nat (@nil st). revert x.
    induction IH as [|c l Hc _ IHl]; intros x p next; cbn; [apply modfree_ret|].
    apply modfree_bind; [apply modfree_bind; [apply modfree_lift|intros _; apply Hc]|]. intros [y s']. apply IHl.
  - apply modfree_ret.
  - apply modfree_bind; [apply IH|]. intros [y s']. apply modfree_read; [done|]. intros d.
    apply modfree_bind; [destruct (ne0 ps); [apply modfree_lift|apply modfree_ret]|]. intros s''.
    apply modfree_bind; [by apply modfree_write|]. intros _. apply modfree_ret.
  - apply modfree_bind; [apply IH|]. intros [y s']. apply modfree_ret.
Qed.

Lemma steps_modfree c l : forall s, modfree (steps c l s).
Proof.
  induction l as [|x l IH]; intros s; cbn; [apply modfree_ret|].
  apply modfree_bind; [apply call_modfree|]. intros [y s']. apply modfree_bind; [apply IH|]. intros [ys s'']. apply modfree_ret.
Qed.

(** ** Unrolling a cell at rest is stepping it *)

Lemma steps_length c : forall l s σ ys s' σ', steps c l s σ = (Ok (ys, s'), σ') -> length ys = length l.
Proof.
  induction l as [|x l IH]; intros s σ ys s' σ' E; cbn in E; [by injection E as <- _ _|].
  rewrite bind_M in E. destruct (call c x s σ) as [[[y s1]|e] σ1]; [|done]. rewrite bind_M in E.
  destruct (steps c l s1 σ1) as [[[ys1 s2]|e] σ2] eqn:Es; [|done]. cbn in E. injection E as <- <- <-. cbn. by rewrite (IH _ _ _ _ _ Es).
Qed.

Lemma base_unroll_steps c n l s layout σ ys s' σ' : reset c σ = (Ok tt, σ) -> length l = n ->
  steps c l s σ = (Ok (ys, s'), σ') -> base_unroll c n (Many l) (Some s) layout None σ = (Ok (Many ys, s'), σ').
Proof.
  intros Hr Hl E. unfold base_unroll. rewrite bind_M, Hr, bind_M. unfold lift. rewrite normalize_id by done. cbn.
  rewrite bind_M. cbn. rewrite bind_M, E, bind_M. cbn. rewrite normalize_id; [done| |done].
  by rewrite (steps_length _ _ _ _ _ _ _ E).
Qed.

Lemma steps_residual h base : forall l s σ zs s' σ', steps (ResidualCell h base) l s σ = (Ok (zs, s'), σ') ->
  exists ys, steps base l s σ = (Ok (ys, s'), σ') /\ zs = zip_with plus_residual ys l.
Proof.
  induction l as [|x l IH]; intros s σ zs s' σ' E; cbn [steps] in *; [injection E as <- <- <-; by eexists|].
  rewrite bind_M in E |- *. cbn [call] in E; unfold residual_call in E. rewrite bind_M in E.
  destruct (call base x s σ) as [[[y s1]|e] σ1]; [|done]. cbn in E. rewrite bind_M in E |- *.
  destruct (steps (ResidualCell h base) l s1 σ1) as [[[zs1 s2]|e] σ2] eqn:Es; [|done]. cbn in E. injection E as <- <- <-.
  destruct (IH _ _ _ _ _ Es) as (ys & -> & ->). by eexists.
Qed.

Lemma wm_lookup_ne j b σ i : i <> j -> wm j b σ !! i = σ !! i.
Proof. intros Hn. unfold wm, write. cbn. by rewrite lookup_partial_alter_ne. Qed.
Lemma wm_settled j b σ i : settled σ i = true -> settled (wm j b σ) i = true.
Proof.
  unfold settled. destruct (decide (i = j)) as [->|Hn]; [|by rewrite wm_lookup_ne].
  unfold wm, write. cbn. rewrite lookup_partial_alter_eq. by destruct (σ !! j).
Qed.

Lemma rested_wm c : forall j b σ, j ∉ tail (ids c) -> rested c σ = true -> rested c (wm j b σ) = true.
Proof.
  induction c as [h k w|h f p|h o cells IH|h p|h base po ps IH|h base IH|h o op l r IHl IHr] using cell_rect';
    intros j b σ Hj Hr; try done; cbn [rested] in *; rewrite ?andb_true_iff in *.
  - by apply wm_settled.
  - by apply wm_settled.
  - destruct Hr as [Hs Hp]. split; [by apply wm_settled|]. unfold dyn_at, wm, write in *. cbn.
    rewrite lookup_partial_alter. case_decide as E; [|done]. by subst.
  - destruct Hr as [[[Hs Hm] Hb] Hr]. cbn in Hj. pose proof (id_in_ids base) as Hid.
    repeat split; [by apply wm_settled| |by apply wm_settled|].
    + unfold dyn_at in *. rewrite wm_lookup_ne; [done|]. intros E. by rewrite E in Hid.
    + apply IH; [|done]. intros Hin. apply Hj. destruct (ids base); [done|]. by right.
Qed.

Lemma wm_true σ i : modified (dyn_at σ i) = true -> settled σ i = true -> wm i true σ = σ.
Proof.
  unfold dyn_at, settled. destruct (σ !! i) as [d|] eqn:E; [|done]. intros Hm _. unfold wm.
  rewrite (write_id i (set_modified true) σ d E); [done|]. destruct d; cbn in *. by subst.
Qed.
Lemma wm_wm i b b' σ : wm i b (wm i b' σ) = wm i b σ.
Proof.
  unfold wm, write. cbn. apply map_eq. intros k. rewrite !lookup_partial_alter. case_decide; [|done]. by rewrite decide_True.
Qed.

Lemma unroll_steps c : forall n l s layout σ ys s' σ', rested c σ = true -> NoDup (ids c) -> length l = n ->
  steps c l s σ = (Ok (ys, s'), σ') -> unroll c n (Many l) (Some s) layout None σ = (Ok (Many ys, s'), σ').
Proof.
  induction c as [h k w|h f p|h o cells IH|h p|h base po ps IH|h base IH|h o op l r IHl IHr] using cell_rect';
    intros n xs s layout σ ys s' σ' Hr Hnd Hl E; try done; cbn [unroll]; unfold dropout_unroll, seq_unroll, residual_unroll, bi_unroll.
  - apply base_unroll_steps; [by apply rested_reset|done|done].
  - rewrite bind_M, (rested_reset _ _ Hr), bind_M. unfold lift. rewrite normalize_id by done. cbn beta iota.
    apply base_unroll_steps; [by apply rested_reset|done|done].
  - apply base_unroll_steps; [by apply rested_reset|done|done].
  - rewrite bind_M, (rested_reset _ _ Hr), bind_M. cbn [rested] in Hr. rewrite !andb_true_iff in Hr. destruct Hr as [[[_ Hm] Hb] Hr].
    destruct (steps_residual _ _ _ _ _ _ _ _ E) as (ys' & E' & ->). cbn [ids] in Hnd. apply NoDup_cons in Hnd as [_ Hnd].
    change (write (id_of base) (set_modified false) σ) with (Ok tt, wm (id_of base) false σ). cbn beta iota. rewrite bind_M.
    rewrite (IH n xs s layout (wm (id_of base) false σ) ys' s' (wm (id_of base) false σ')); [| |done|done|].
    + rewrite bind_M. change (write (id_of base) (set_modified true) ?x) with (Ok tt, wm (id_of base) true x). cbn beta iota.
      rewrite bind_M. unfold lift. cbn [default]. rewrite normalize_id by done. cbn beta iota. unfold mret, M_ret. rewrite wm_wm. f_equal.
      pose proof (steps_modfree base xs s (id_of base) true σ) as Hf. rewrite wm_true in Hf by done. rewrite E' in Hf.
      cbn in Hf. by injection Hf.
    + apply rested_wm; [|done]. destruct base; by apply NoDup_cons in Hnd as [Hnd _].
    + rewrite steps_modfree, E'. done.
Qed.

Lemma rested_agree c : forall σ τ, (forall i, i ∈ ids c -> σ !! i = τ !! i) -> rested c σ = true -> rested c τ = true.
Proof.
  induction c as [h k w|h f p|h o cells IH|h p|h base po ps IH|h base IH|h o op l r IHl IHr] using cell_rect';
    intros σ τ Ha Hr; try done; cbn [rested ids id_of hdr_of] in *; unfold settled, dyn_at in *;
    rewrite <- ?(Ha (oid h)) by left; try done.
  rewrite <- (Ha (id_of base)) by (right; apply id_in_ids). rewrite !andb_true_iff in *. destruct Hr as [? Hr].
  split; [done|]. eapply IH; [|exact Hr]. intros i Hi. apply Ha. by right.
Qed.

(** Stepping one cell after the other is what the loop over [unroll] does. *)
Lemma cols_unroll n layout l : forall xs ss σ ys ss' σ', Forall (fun c => rested c σ = true) l -> NoDup (concat (map ids l)) -> length xs = n ->
  cols l xs ss σ = (Ok (ys, ss'), σ') ->
  forL (fun c (last : bool) x s => unroll c n x (Some s) layout (if last then None else None)) l (Many xs) ss σ = (Ok (Many ys, ss'), σ').
Proof.
  induction l as [|c l IH]; intros xs ss σ ys ss' σ' Hr Hnd Hl E.
  { destruct ss; cbn in *; by injection E as <- <- <-. }
  destruct ss as [|s ss]; [cbn in *; by injection E as <- <- <-|].
  unfold cols in E.
  rewrite forL_cons in E. rewrite forL_cons. rewrite bind_M in E. rewrite bind_M.
  cbn in Hnd. apply NoDup_app in Hnd as (Hnc & Hd & Hnd). apply Forall_cons in Hr as [Hrc Hr].
  destruct (steps c xs s σ) as [[[zs s1]|e] σ1] eqn:Es; [|done].
  replace (if match l with [] => true | _ => false end then None else None) with (@None bool) by (by destruct l).
  rewrite (unroll_steps c n xs s layout σ zs s1 σ1 Hrc Hnc Hl Es). rewrite bind_M in E. rewrite bind_M. fold (cols l zs ss) in E.
  destruct (cols l zs ss σ1) as [[[ys1 ss1]|e] σ2] eqn:Ec; [|done]. cbn in E. injection E as <- <- <-.
  rewrite (IH zs ss σ1 ys1 ss1 σ2); [done| |done|by rewrite (steps_length _ _ _ _ _ _ _ Es)|done].
  apply Forall_forall. intros c' Hc'. eapply rested_agree; [|by eapply Forall_forall in Hr].
  intros i Hi. pose proof (local_writes _ _ (steps_local c xs s) σ i) as W. rewrite Es in W. symmetry. apply W.
  intros Hic. apply elem_of_list_to_set in Hic. apply (Hd i Hic). apply list_elem_of_In, in_concat. exists (ids c').
  split; [apply in_map|]; by apply list_elem_of_In.
Qed.

(** ** Steps of a stack *)

(** Computations that do not touch an entry do not see it either. *)
Lemma local_delete {A} D (m : M cstore A) i σ τ : local D m -> i ∉ D -> delete i σ = delete i τ ->
  (m σ).1 = (m τ).1 /\ delete i (m σ).2 = delete i (m τ).2.
Proof.
  intros L Hi E. assert (forall k, k <> i -> σ !! k = τ !! k) as Ha.
  { intros k Hk. by rewrite <- (lookup_delete_ne σ i k), E, lookup_delete_ne by done. }
  destruct (local_reads _ _ L σ τ) as [E1 E2]; [intros k Hk; apply Ha; by intros ->|]. split; [done|].
  apply map_eq. intros k. destruct (decide (k = i)) as [->|Hk]; [by rewrite !lookup_delete_eq|].
  rewrite !lookup_delete_ne by done. destruct (decide (k ∈ D)) as [Hd|Hd]; [by apply E2|].
  rewrite !(local_writes _ _ L) by done. by apply Ha.
Qed.

Lemma row_typed l : Forall (fun c => steppable c = true) l -> forall x ss σ, Forall2 typed l ss ->
  exists y ss' σ', row l x ss σ = (Ok (y, ss'), σ') /\ Forall2 typed l ss'.
Proof.
  induction 1 as [|c l Hc _ IH]; intros x ss σ Hs; inversion Hs as [|? s ? ss0 Hs1 Hs2]; subst; [by eexists _, _, _|].
  unfold row. rewrite forL_cons, bind_M. destruct (call_typed c Hc x s σ Hs1) as (y & s' & σ1 & -> & Hs').
  rewrite bind_M. destruct (IH y ss0 σ1 Hs2) as (z & ss' & σ2 & E & Hss). unfold row in E. rewrite E.
  eexists _, _, _. split; [reflexivity|]. by constructor.
Qed.

Lemma forL_ext {X} (f g : cell -> bool -> X -> list st -> M cstore (X * list st)) l :
  Forall (fun c => forall b x s σ, f c b x s σ = g c b x s σ) l -> forall x ss σ, forL f l x ss σ = forL g l x ss σ.
Proof.
  induction 1 as [|c l Hc _ IH]; intros x ss σ; [by destruct ss|]. destruct ss as [|s ss]; [done|].
  rewrite !forL_cons, !bind_M, Hc. destruct (g c _ x s σ) as [[[y s']|e] σ']; [|done]. rewrite !bind_M. by rewrite IH.
Qed.

(** A step of the stack: its own counter, and the row. *)
Lemma call_row h o cells x ss σ : Forall (fun c => steppable c = true) cells -> Forall2 typed cells ss ->
  call (SequentialRNNCell h o cells) x (concat ss) σ =
    match row cells x ss (write (oid h) (fun d => set_counters (init_counter d) (counter d + 1) d) σ).2 with
    | (Ok (y, ss'), σ') => (Ok (y, concat ss'), σ')
    | (Raise e, σ') => (Raise e, σ')
    end.
Proof.
  intros Hst Hty. cbn [call]; unfold leaf_call, seq_call, dropout_call, zoneout_call, residual_call. rewrite bind_M. cbn [write]. rewrite for_cells_forL, drop_0, splits_concat by done.
  rewrite (forL_ext _ (fun c _ x s => call c x s)); [done|].
  eapply Forall_impl; [exact Hst|]. intros c Hc b y s τ. by rewrite bind_M, (steppable_not_bi c Hc).
Qed.

Lemma steps_rows h o cells : Forall (fun c => steppable c = true) cells -> oid h ∉ concat (map ids cells) ->
  forall xs ss σ τ, Forall2 typed cells ss -> delete (oid h) σ = delete (oid h) τ ->
  exists ys ss' σ' τ', steps (SequentialRNNCell h o cells) xs (concat ss) σ = (Ok (ys, concat ss'), σ') /\
    rows cells xs ss τ = (Ok (ys, ss'), τ') /\ Forall2 typed cells ss' /\ delete (oid h) σ' = delete (oid h) τ'.
Proof.
  intros Hst Hh. induction xs as [|x xs IH]; intros ss σ τ Hty E; [by eexists _, _, _, _|].
  cbn [steps rows]. rewrite !bind_M, call_row by done.
  set (σ0 := (write (oid h) _ σ).2).
  assert (delete (oid h) σ0 = delete (oid h) τ) as E0.
  { rewrite <- E. unfold σ0, write. cbn. apply map_eq. intros k. rewrite !lookup_delete. case_decide; [done|]. by rewrite lookup_partial_alter_ne. }
  destruct (row_typed cells Hst x ss σ0 Hty) as (y & ss1 & σ1 & Er & Hty1).
  destruct (local_delete _ _ (oid h) σ0 τ (row_local cells x ss)) as [Eq Ed]; [set_solver|done|].
  rewrite Er in Eq, Ed |- *. destruct (row cells x ss τ) as [r τ1]. cbn in Eq, Ed. subst r.
  destruct (IH ss1 σ1 τ1 Hty1 Ed) as (ys & ss' & σ' & τ' & Hst' & Hrs & Hty' & Hd').
  exists (y :: ys), ss', σ', τ'. cbn beta iota. by rewrite !bind_M, Hst', Hrs.
Qed.

(** ** The interchange for the code *)

Lemma bind_ret_M {S A B} (a : A) (f : A -> M S B) s : (mret a ≫= f) s = f a s.
Proof. done. Qed.

Lemma resets_rested l σ : Forall (fun c => rested c σ = true) l -> forM reset l σ = (Ok tt, σ).
Proof. induction 1 as [|c l Hc _ IH]; [done|]. cbn [forM]. by rewrite bind_M, (rested_reset _ _ Hc). Qed.

Lemma reset_stack h o cells σ : Forall (fun c => rested c σ = true) cells -> oid h ∉ concat (map ids cells) ->
  exists σ0, reset (SequentialRNNCell h o cells) σ = (Ok tt, σ0) /\ delete (oid h) σ0 = delete (oid h) σ /\
    Forall (fun c => rested c σ0 = true) cells.
Proof.
  intros Hr Hh. cbn [reset]. rewrite bind_M. set (σ0 := (write (oid h) (set_counters (-1) (-1)) σ).2).
  assert (Forall (fun c => rested c σ0 = true) cells) as Hr0.
  { apply Forall_forall. intros c Hc. eapply rested_agree; [|by eapply Forall_forall in Hr]. intros i Hi. symmetry.
    unfold σ0, write. cbn. apply lookup_partial_alter_ne. intros <-. apply Hh. apply list_elem_of_In, in_concat. exists (ids c).
    split; [apply in_map|]; by apply list_elem_of_In. }
  exists σ0. split; [|split; [|done]].
  - change (write (oid h) (set_counters (-1) (-1)) σ) with (Ok tt, σ0). cbn beta iota. by apply resets_rested.
  - unfold σ0, write. cbn. apply map_eq. intros k. rewrite !lookup_delete. case_decide; [done|]. by rewrite lookup_partial_alter_ne.
Qed.

(** C11: [SequentialRNNCell.unroll], which unrolls one cell after the other over all steps,
    builds the outputs and final states that [BaseRNNCell.unroll] builds by stepping the whole
    stack, and leaves the cells in the same condition, for stacks of distinct cells at rest that
    can be stepped (cells with gates, dropout, zoneout and residual cells; no fused, bidirectional
    or stacked ones), a list of inputs, given states of the right number and [merge_outputs=None]
    (the stack's own step counter apart, which only stepping moves). *)
Theorem sequential_unroll_stepwise h o cells n xs s layout σ :
  Forall (fun c => steppable c = true) cells -> Forall (fun c => rested c σ = true) cells ->
  NoDup (oid h :: concat (map ids cells)) -> length xs = n -> typed (SequentialRNNCell h o cells) s ->
  exists ys s' σ1 σ2,
    base_unroll (SequentialRNNCell h o cells) n (Many xs) (Some s) layout None σ = (Ok (Many ys, s'), σ1) /\
    unroll (SequentialRNNCell h o cells) n (Many xs) (Some s) layout None σ = (Ok (Many ys, s'), σ2) /\
    delete (oid h) σ1 = delete (oid h) σ2.
Proof.
  intros Hst Hr Hnd Hl [Hlen Hs]. apply NoDup_cons in Hnd as [Hh Hnd].
  destruct (reset_stack h o cells σ Hr Hh) as (σ0 & Er & Ed & Hr0).
  destruct (splits_typed cells s Hlen Hs) as [Hty Hcat].
  destruct (steps_rows h o cells Hst Hh xs (splits cells s) σ0 σ0 Hty eq_refl) as (ys & ss' & σ1 & σ2 & Es & Ers & Hty' & Hd).
  rewrite Hcat in Es. exists ys, (concat ss'), σ1, σ2. split; [|split; [|done]].
  - unfold base_unroll. rewrite bind_M, Er, bind_M. unfold lift. rewrite normalize_id by done. cbn [items begin_or].
    rewrite bind_ret_M, bind_M, Es, bind_M, normalize_id; [done| |done].
    by rewrite (steps_length _ _ _ _ _ _ _ Es).
  - cbn [unroll]; unfold dropout_unroll, seq_unroll, residual_unroll, bi_unroll. rewrite bind_M, Er. cbn [begin_or]. rewrite bind_ret_M, for_cells_forL, drop_0.
    destruct (rows_cols cells Hnd _ _ _ _ _ _ (eq_sym (Forall2_length _ _ _ Hty)) Ers) as (ss'' & Ec & Hss).
    rewrite Hss in Ec by (by rewrite (Forall2_length _ _ _ Hty')).
    by rewrite (cols_unroll n layout cells xs _ σ0 ys ss' σ2 Hr0 Hnd Hl Ec).
Qed.

Definition ex_stack : list cell := [ex_rnn 1 "a_"; ResidualCell (mkHdr 2 "" 2) (ex_rnn 3 "b_")].
Definition ex_store : cstore :=
  list_to_map [(1%nat, fresh_dyn); (2%nat, fresh_dyn); (3%nat, set_modified true fresh_dyn)].
Lemma sequential_unroll_stepwise_witness : exists ys s' σ1 σ2,
  base_unroll (SequentialRNNCell (mkHdr 0 "" 0) false ex_stack) 2 (Many (ex_inputs 2)) (Some (ex_states 2)) "NTC" None ex_store = (Ok (Many ys, s'), σ1) /\
  unroll (SequentialRNNCell (mkHdr 0 "" 0) false ex_stack) 2 (Many (ex_inputs 2)) (Some (ex_states 2)) "NTC" None ex_store = (Ok (Many ys, s'), σ2) /\
  delete (oid (mkHdr 0 "" 0)) σ1 = delete (oid (mkHdr 0 "" 0)) σ2.
Proof.
  apply (sequential_unroll_stepwise (mkHdr 0 "" 0) false ex_stack).
  - by repeat constructor.
  - by repeat constructor.
  - apply (bool_decide_unpack _). vm_compute. exact I.
  - reflexivity.
  - split; [reflexivity|by repeat constructor].
Defined.
