(* ===== verification/RNNNew.v ===== *)
(** * Recurrent cells: construction

    The constructors of the cells of [rnn/rnn_cell.py], [RNNParams] with its sharing between
    cells, [SequentialRNNCell.add] and [FusedRNNCell.unfuse].  Parameter containers are
    objects: they live in a store and cells refer to them. *)

From Stdlib Require Import QArith Ascii String.
From stdpp Require Import strings.
From S2P Require Import Prelude Scope RNNCell RNNUnroll.
Close Scope Q_scope.
Open Scope Z_scope.

(** [RNNParams] *)
Record RNNParams := mkParams { pp_prefix : string; pp_vars : gmap string Sym }.

Record world := mkWorld { w_cells : cstore; w_params : gmap nat RNNParams; w_next : nat }.

Definition new_id : M world nat := fun w => (Ok (w_next w), mkWorld (w_cells w) (w_params w) (S (w_next w))).
Definition set_cell (i : nat) (d : dyn) : M world unit := modify (fun w => mkWorld (<[i := d]> (w_cells w)) (w_params w) (w_next w)).
Definition set_params (i : nat) (p : RNNParams) : M world unit := modify (fun w => mkWorld (w_cells w) (<[i := p]> (w_params w)) (w_next w)).
Definition cells_op {A} (m : M cstore A) : M world A :=
  fun w => let '(r, s) := m (w_cells w) in (r, mkWorld s (w_params w) (w_next w)).
Definition params_at (w : world) (i : nat) : RNNParams := default (mkParams "" ∅) (w_params w !! i).

(** [RNNParams.get(name, **kwargs)] *)
Definition params_get (p : nat) (name : string) (kw : kwargs) : M world Sym :=
  w ← get;
  let P := params_at w p in
  let n := (pp_prefix P +:+ name)%string in
  match pp_vars P !! n with
  | Some v => mret v
  | None => _ ← set_params p (mkParams (pp_prefix P) (<[n := Var n kw]> (pp_vars P))); mret (Var n kw)
  end.

(** [BaseRNNCell.__init__(prefix, params)] *)
Definition base_new (pre : string) (params : option nat) : M world hdr :=
  p ← match params with
      | Some p => mret p
      | None => p ← new_id; _ ← set_params p (mkParams pre ∅); mret p
      end;
  i ← new_id;
  _ ← set_cell i (mkDyn (match params with None => true | Some _ => false end) false (-1) (-1) None);
  mret (mkHdr i pre p).

(** The property [params]: after it is read the cell no longer owns its parameters; that of a
    modifier is that of its base. *)
Fixpoint params_of (c : cell) : M world nat :=
  _ ← cells_op (write (id_of c) (set_own false));
  match c with
  | ZoneoutCell _ base _ _ | ResidualCell _ base => params_of base
  | _ => mret (pid (hdr_of c))
  end.
Definition own_get (h : hdr) (name : string) (kw : kwargs) : M world Sym :=
  _ ← cells_op (write (oid h) (set_own false)); params_get (pid h) name kw.

(** [__init__] of the cells with weights. *)
Definition RNNCell_new (num_hidden : nat) (act : activation) (pre : string) (params : option nat) : M world cell :=
  h ← base_new pre params;
  iw ← own_get h "i2h_weight" []; ib ← own_get h "i2h_bias" []; hw ← own_get h "h2h_weight" []; hb ← own_get h "h2h_bias" [];
  mret (Leaf h (RNNCell num_hidden act) (mkW iw ib hw hb)).
Definition LSTMCell_new (num_hidden : nat) (pre : string) (params : option nat) (forget_bias : Q) : M world cell :=
  h ← base_new pre params;
  iw ← own_get h "i2h_weight" []; hw ← own_get h "h2h_weight" [];
  ib ← own_get h "i2h_bias" [("init"%string, PInit "lstmbias" [PNum forget_bias])]; hb ← own_get h "h2h_bias" [];
  mret (Leaf h (LSTMCell num_hidden) (mkW iw ib hw hb)).
Definition GRUCell_new (num_hidden : nat) (pre : string) (params : option nat) : M world cell :=
  h ← base_new pre params;
  iw ← own_get h "i2h_weight" []; ib ← own_get h "i2h_bias" []; hw ← own_get h "h2h_weight" []; hb ← own_get h "h2h_bias" [];
  mret (Leaf h (GRUCell num_hidden) (mkW iw ib hw hb)).

(** [BaseConvRNNCell.__init__]: the shape inference of the convolution is a parameter. *)
Record conv_args := mkConvArgs {
  ca_input_shape : list Z; ca_num_hidden : nat;
  ca_h2h_kernel : Z * Z; ca_h2h_dilate : Z * Z;
  ca_i2h_kernel : list Z; ca_i2h_stride : list Z; ca_i2h_pad : list Z; ca_i2h_dilate : list Z;
  ca_iW_init : pval; ca_hW_init : pval; ca_iB_init : pval; ca_hB_init : pval;
  ca_activation : activation; ca_layout : string;
}.
Definition conv_new (infer_shape : kwargs -> list Z -> result (list Z)) (mk : conv -> leaf) (a : conv_args) (pre : string) (params : option nat)
  : M world cell :=
  h ← base_new pre params;
  let '(k0, k1) := ca_h2h_kernel a in
  let '(d0, d1) := ca_h2h_dilate a in
  _ ← massert ((k0 mod 2 =? 1) && (k1 mod 2 =? 1));
  let pad := [d0 * (k0 - 1) / 2; d1 * (k1 - 1) / 2] in
  let i2h := [("kernel", PTuple (ca_i2h_kernel a)); ("stride", PTuple (ca_i2h_stride a)); ("pad", PTuple (ca_i2h_pad a)); ("dilate", PTuple (ca_i2h_dilate a))]%string in
  let h2h := [("kernel", PTuple [k0; k1]); ("dilate", PTuple [d0; d1]); ("pad", PTuple pad)]%string in
  out ← lift (infer_shape (("num_filter"%string, PInt (Z.of_nat (ca_num_hidden a))) :: i2h ++ [("layout"%string, PStr (ca_layout a))]) (ca_input_shape a));
  iw ← own_get h "i2h_weight" [("init"%string, ca_iW_init a)]; hw ← own_get h "h2h_weight" [("init"%string, ca_hW_init a)];
  ib ← own_get h "i2h_bias" [("init"%string, ca_iB_init a)]; hb ← own_get h "h2h_bias" [("init"%string, ca_hB_init a)];
  mret (Leaf h (mk (mkConv (ca_num_hidden a) i2h h2h (ca_layout a) (0 :: tail out) (ca_activation a))) (mkW iw ib hw hb)).

(** [FusedRNNCell.__init__] *)
Definition FusedRNNCell_new (f : fused) (forget_bias : Q) (pre : option string) (params : option nat) : M world cell :=
  h ← base_new (default (mode_str (f_mode f) +:+ "_")%string pre) params;
  p ← own_get h "parameters" [("init"%string, PInit "fusedrnn" [PInt (Z.of_nat (f_hidden f)); PInt (Z.of_nat (f_layers f)); PStr (mode_str (f_mode f)); PBool (f_bidirectional f); PNum forget_bias])];
  mret (FusedRNNCell h f p).

Definition is_some {A} (o : option A) : bool := match o with Some _ => true | None => false end.
Definition SequentialRNNCell_new (params : option nat) : M world cell :=
  h ← base_new "" params; mret (SequentialRNNCell h (is_some params) []).

(** [p._params.update(q._params)] *)
Definition params_update (p q : nat) : M world unit :=
  w ← get; set_params p (mkParams (pp_prefix (params_at w p)) (pp_vars (params_at w q) ∪ pp_vars (params_at w p))).

(** [SequentialRNNCell.add]: the cell is in the list also when the assertion fails. *)
Definition seq_add (stack c : cell) : M world (cell * result unit) :=
  match stack with
  | SequentialRNNCell h override cells =>
      let stack' := SequentialRNNCell h override (cells ++ [c]) in
      w ← get;
      if override && negb (own_params (dyn_at (w_cells w) (id_of c))) then mret (stack', Raise AssertionError)
      else
        _ ← (if override then p ← params_of c; q ← params_of stack'; params_update p q else mret tt);
        q ← params_of stack'; p ← params_of c;
        _ ← params_update q p;
        mret (stack', Ok tt)
  | _ => raise AttributeError
  end.

Definition DropoutCell_new (p : Q) (pre : string) (params : option nat) : M world cell :=
  h ← base_new pre params; mret (DropoutCell h p).
(** [ModifierCell.__init__] *)
Definition modifier_new (base : cell) : M world hdr :=
  h ← base_new "" None; _ ← cells_op (write (id_of base) (set_modified true)); mret h.
(** [ZoneoutCell.__init__]: a [SequentialRNNCell] has no attribute [_bidirectional]. *)
Definition ZoneoutCell_new (base : cell) (zoneout_outputs zoneout_states : Q) : M world cell :=
  _ ← massert (match base with FusedRNNCell _ _ _ => false | _ => true end);
  _ ← massert (negb (is_bidirectional base));
  _ ← match base with SequentialRNNCell _ _ _ => raise AttributeError | _ => mret tt end;
  h ← modifier_new base; mret (ZoneoutCell h base zoneout_outputs zoneout_states).
Definition ResidualCell_new (base : cell) : M world cell := h ← modifier_new base; mret (ResidualCell h base).
Definition BidirectionalCell_new (l r : cell) (params : option nat) (output_prefix : string) : M world cell :=
  h ← base_new "" params;
  let c := BidirectionalCell h (is_some params) output_prefix l r in
  _ ← (if is_some params then
         w ← get;
         _ ← massert (own_params (dyn_at (w_cells w) (id_of l)) && own_params (dyn_at (w_cells w) (id_of r)));
         p ← params_of l; q ← params_of c; _ ← params_update p q;
         p ← params_of r; q ← params_of c; params_update p q
       else mret tt);
  q ← params_of c; p ← params_of l; _ ← params_update q p;
  q ← params_of c; p ← params_of r; _ ← params_update q p;
  mret c.

(** [FusedRNNCell.unfuse] *)
Definition get_cell (f : fused) (cell_prefix : string) : M world cell :=
  match f_mode f with
  | rnn_relu => RNNCell_new (f_hidden f) (ActStr "relu") cell_prefix None
  | rnn_tanh => RNNCell_new (f_hidden f) (ActStr "tanh") cell_prefix None
  | lstm => LSTMCell_new (f_hidden f) cell_prefix None 1%Q
  | gru => GRUCell_new (f_hidden f) cell_prefix None
  end.
Definition add_or_raise (stack c : cell) : M world cell :=
  '(stack, r) ← seq_add stack c; _ ← lift r; mret stack.
Definition unfuse_layer (pre : string) (f : fused) (stack : cell) (i : nat) : M world cell :=
  let n := dec (Z.of_nat i) in
  c ← (if f_bidirectional f then
         l ← get_cell f (pre +:+ "l" +:+ n +:+ "_")%string; r ← get_cell f (pre +:+ "r" +:+ n +:+ "_")%string;
         BidirectionalCell_new l r None (pre +:+ "bi_l" +:+ n +:+ "_")%string
       else get_cell f (pre +:+ "l" +:+ n +:+ "_")%string);
  stack ← add_or_raise stack c;
  if gt0 (f_dropout f) && negb (i =? f_layers f - 1)%nat then
    d ← DropoutCell_new (f_dropout f) (pre +:+ "_dropout" +:+ n +:+ "_")%string None;
    add_or_raise stack d
  else mret stack.
Fixpoint foldM {S A B} (f : B -> A -> M S B) (b : B) (l : list A) : M S B :=
  match l with [] => mret b | a :: l => b ← f b a; foldM f b l end.
Definition unfuse (pre : string) (f : fused) : M world cell :=
  stack ← SequentialRNNCell_new None; foldM (unfuse_layer pre f) stack (seq 0 (f_layers f)).

(** ** Owned parameters *)

Lemma own_get_disowns h name kw w s w' : own_get h name kw w = (Ok s, w') -> own_params (dyn_at (w_cells w') (oid h)) = false.
Proof.
  unfold own_get. rewrite bind_M. cbn. unfold params_get. rewrite bind_M. cbn. unfold dyn_at.
  destruct (pp_vars _ !! _); intros [= _ <-]; cbn; by rewrite lookup_partial_alter_eq.
Qed.

Lemma last_get {A} (P : A -> nat) h name kw (k : Sym -> A) w a w' :
  (s ← own_get h name kw; mret (k s)) w = (Ok a, w') -> (forall s, P (k s) = oid h) -> own_params (dyn_at (w_cells w') (P a)) = false.
Proof.
  rewrite bind_M. destruct (own_get h name kw w) as [[s|e] w1] eqn:E; [|done]. intros [= <- <-] HP. rewrite HP. by eapply own_get_disowns.
Qed.

Ltac through := rewrite bind_M; match goal with |- context [match ?m ?w with _ => _ end] => destruct (m w) as [[?|?] ?] end; [|done].

(** A cell with weights has read [params] in its constructor, so that a stack or a
    bidirectional cell with parameters of its own refuses every such cell. *)
Theorem override_refuses_weights n pre params fb w c w' h cells : LSTMCell_new n pre params fb w = (Ok c, w') ->
  seq_add (SequentialRNNCell h true cells) c w' = (Ok (SequentialRNNCell h true (cells ++ [c]), Raise AssertionError), w').
Proof.
  intros E. assert (own_params (dyn_at (w_cells w') (id_of c)) = false) as Ho.
  { revert E. unfold LSTMCell_new. do 4 through. intros E. eapply (last_get id_of); [exact E|done]. }
  unfold seq_add. rewrite bind_M. cbn [get]. by rewrite Ho.
Qed.

(** A modifier passes the function by position, which a stack does not take: its base is left
    unmarked. *)
Theorem modifier_begin_stack h hs o cells σ : modified (dyn_at σ (oid h)) = false ->
  begin_state (ResidualCell h (SequentialRNNCell hs o cells)) None None σ = (Raise TypeError, (write (oid hs) (set_modified false) σ).2).
Proof. intros Hm. cbn [begin_state]; unfold modifier_begin, seq_begin. rewrite bind_M. cbn [read]. rewrite bind_M, Hm. done. Qed.
