(* ===== verification/RNNWeights.v ===== *)
(** * Recurrent cells: packing and unpacking weights

    [unpack_weights] and [pack_weights] of the classes of [rnn/rnn_cell.py], on dicts of
    arrays.  A cell with gates has its weights packed, one array for all gates; a fused cell
    has all weights of all layers in one vector.  Both unpack to one array per gate, so that
    the weights of a fused cell can be packed for the stack that [unfuse] makes. *)

From Stdlib Require Import QArith Ascii String.
From stdpp Require Import strings.
From S2P Require Import Prelude NDArray Array Local Scope RNNCell.
Close Scope Q_scope.
Open Scope Z_scope.

Section Weights.
Context {F : Type}.
Notation args := (gmap string (nda F)).

(** [args.pop(name)] and [args[name] = a] *)
Definition pop (name : string) : M args (nda F) :=
  fun d => match d !! name with Some a => (Ok a, delete name d) | None => (Raise KeyError, d) end.
Definition put_item (name : string) (a : nda F) : M args unit := fun d => (Ok tt, <[name := a]> d).

(** ** Cells with gates *)

Definition wname (pre group gate : string) : string := pre +:+ group +:+ gate +:+ "_weight".
Definition bname (pre group gate : string) : string := pre +:+ group +:+ gate +:+ "_bias".

Definition unpack_gate (pre group : string) (h : nat) (weight bias : nda F) (x : nat * string) : M args unit :=
  let '(j, gate) := x in
  w ← lift (a_slice (Z.of_nat j * Z.of_nat h) ((Z.of_nat j + 1) * Z.of_nat h) weight);
  _ ← put_item (wname pre group gate) w;
  b ← lift (a_slice (Z.of_nat j * Z.of_nat h) ((Z.of_nat j + 1) * Z.of_nat h) bias);
  put_item (bname pre group gate) b.
Definition unpack_group (pre : string) (h : nat) (gates : list string) (group : string) : M args unit :=
  weight ← pop (wname pre group "");
  bias ← pop (bname pre group "");
  forM (unpack_gate pre group h weight bias) (imap pair gates).

Fixpoint pop_gates (pre group : string) (gates : list string) : M args (list (nda F) * list (nda F)) :=
  match gates with
  | [] => mret ([], [])
  | gate :: gates =>
      w ← pop (wname pre group gate);
      b ← pop (bname pre group gate);
      '(ws, bs) ← pop_gates pre group gates;
      mret (w :: ws, b :: bs)
  end.
Definition pack_group (pre : string) (gates : list string) (group : string) : M args unit :=
  '(weight, bias) ← pop_gates pre group gates;
  w ← lift (a_concat weight);
  _ ← put_item (wname pre group "") w;
  b ← lift (a_concat bias);
  put_item (bname pre group "") b.

Definition groups : list string := ["i2h"; "h2h"]%string.
(** [BaseRNNCell.unpack_weights] and [pack_weights]: a cell without gates has nothing to do. *)
Definition base_unpack (pre : string) (h : nat) (gates : list string) : M args unit :=
  match gates with [] => mret tt | _ => forM (unpack_group pre h gates) groups end.
Definition base_pack (pre : string) (gates : list string) : M args unit :=
  match gates with [] => mret tt | _ => forM (pack_group pre gates) groups end.

(** ** Fused cells *)

Definition directions (f : fused) : list string := if f_bidirectional f then ["l"; "r"]%string else ["l"]%string.

(** A weight of a fused cell: its name, its size, and the shape it is given, if any. *)
Definition slot := (string * Z * option (list Z))%type.
Definition slot_name (pre dir : string) (layer : nat) (group gate suffix : string) : string :=
  pre +:+ dir +:+ dec (Z.of_nat layer) +:+ "_" +:+ group +:+ gate +:+ suffix.
Definition weight_slots (pre : string) (f : fused) (li lh : Z) (layer : nat) (dir : string) : list slot :=
  let b := py_len (directions f) in
  let gates := mode_gates (f_mode f) in
  map (fun gate =>
         if (0 <? layer)%nat then (slot_name pre dir layer "i2h" gate "_weight", b * lh * lh, Some [lh; b * lh])
         else (slot_name pre dir layer "i2h" gate "_weight", li * lh, Some [lh; li])) gates
  ++ map (fun gate => (slot_name pre dir layer "h2h" gate "_weight", lh ^ 2, Some [lh; lh])) gates.
Definition bias_slots (pre : string) (f : fused) (lh : Z) (layer : nat) (dir : string) : list slot :=
  let gates := mode_gates (f_mode f) in
  map (fun gate => (slot_name pre dir layer "i2h" gate "_bias", lh, None)) gates
  ++ map (fun gate => (slot_name pre dir layer "h2h" gate "_bias", lh, None)) gates.
(** The slots in the order of the two loops over layers and directions. *)
Definition over_layers {A} (f : fused) (g : nat -> string -> list A) : list A :=
  concat (map (fun layer => concat (map (g layer) (directions f))) (seq 0 (f_layers f))).
Definition slots (pre : string) (f : fused) (li lh : Z) : list slot :=
  over_layers f (weight_slots pre f li lh) ++ over_layers f (bias_slots pre f lh).

(** The loop of [FusedRNNCell._slice_weights], with its position [p] and the dict of views. *)
Fixpoint slice_loop (v : view) (l : list slot) (p : Z) (d : list (string * view)) : result (Z * list (string * view)) :=
  match l with
  | [] => Ok (p, d)
  | (name, sz, shape) :: l =>
      w ← view_slice v p (p + sz);
      w ← match shape with Some s => view_reshape w s | None => Ok w end;
      slice_loop v l (p + sz) (od_set name w d)
  end.
Definition _slice_weights (pre : string) (f : fused) (v : view) (li lh : Z) : result (list (string * view)) :=
  '(p, d) ← slice_loop v (slots pre f li lh) 0 [];
  _ ← py_assert (p =? Z.of_nat (size (v_shape v)));
  Ok d.

(** [num_input] as [unpack_weights] computes it, and the size [pack_weights] allocates. *)
Definition num_input_of (f : fused) (sz : Z) : result Z :=
  let b := py_len (directions f) in
  let m := py_len (mode_gates (f_mode f)) in
  let h := Z.of_nat (f_hidden f) in
  x ← py_floordiv sz b; x ← py_floordiv x h; x ← py_floordiv x m;
  Ok (x - (Z.of_nat (f_layers f) - 1) * (h + b * h + 2) - h - 2).
Definition total_size (f : fused) (num_input : Z) : Z :=
  let b := if f_bidirectional f then 2 else 1 in
  let m := py_len (mode_gates (f_mode f)) in
  let h := Z.of_nat (f_hidden f) in
  (num_input + h + 2) * h * m * b + (Z.of_nat (f_layers f) - 1) * m * h * (h + b * h + 2) * b.

(** [FusedRNNCell.unpack_weights] *)
Definition fused_unpack (pre pname : string) (f : fused) : M args unit :=
  arr ← pop pname;
  num_input ← lift (num_input_of f (Z.of_nat (size (a_shape arr))));
  nargs ← lift (_slice_weights pre f (view_of arr) num_input (Z.of_nat (f_hidden f)));
  forM (fun '(name, v) => put_item name (view_array arr v)) nargs.

(** [FusedRNNCell.pack_weights]: the loop that assigns each weight through its view. *)
Fixpoint assign_loop (l : list (string * view)) (arr : list F) : M args (list F) :=
  match l with
  | [] => mret arr
  | (name, v) :: l =>
      a ← pop name;
      x ← lift (a_assigned (v_shape v) a);
      assign_loop l (view_set arr v x)
  end.
Definition fused_pack (zero : F) (pre pname : string) (f : fused) : M args unit :=
  args ← get;
  w0 ← lift (py_getitem args (pre +:+ "l0_i2h" +:+ default "" (head (mode_gates (f_mode f))) +:+ "_weight")%string);
  num_input ← lift (py_index (a_shape w0) 1);
  let total := total_size f (Z.of_nat num_input) in
  if total <=? 0 then raise MXNetError
  else
    nargs ← lift (_slice_weights pre f (mkView 0 [Z.to_nat total]) (Z.of_nat num_input) (Z.of_nat (f_hidden f)));
    arr ← assign_loop nargs (replicate (Z.to_nat total) zero);
    put_item pname (mkNda [Z.to_nat total] arr).

(** ** All cells *)

Definition sym_str (s : Sym) : string := match sym_name s with Given n => n | Auto x => x end.

(** [unpack_weights] and [pack_weights]: stacks and bidirectional cells go through their cells
    in order, modifiers to their base; a dropout cell has no gates. *)
Fixpoint unpack (c : cell) : M args unit :=
  match c with
  | Leaf h k _ => base_unpack (_prefix h) (leaf_hidden k) (leaf_gates k)
  | FusedRNNCell h f parameter => fused_unpack (_prefix h) (sym_str parameter) f
  | SequentialRNNCell _ _ cells => forM unpack cells
  | DropoutCell _ _ => mret tt
  | ZoneoutCell _ base _ _ | ResidualCell _ base => unpack base
  | BidirectionalCell _ _ _ l r => forM unpack [l; r]
  end.
Fixpoint pack (zero : F) (c : cell) : M args unit :=
  match c with
  | Leaf h k _ => base_pack (_prefix h) (leaf_gates k)
  | FusedRNNCell h f parameter => fused_pack zero (_prefix h) (sym_str parameter) f
  | SequentialRNNCell _ _ cells => forM (pack zero) cells
  | DropoutCell _ _ => mret tt
  | ZoneoutCell _ base _ _ | ResidualCell _ base => pack zero base
  | BidirectionalCell _ _ _ l r => forM (pack zero) [l; r]
  end.

(** The methods return a new dict, and leave the given one alone also when they raise. *)
Definition run_dict (m : M args unit) (d : args) : result args :=
  match m d with (Ok _, d') => Ok d' | (Raise e, _) => Raise e end.
Definition unpack_weights (c : cell) (d : args) : result args := run_dict (unpack c) d.
Definition pack_weights (zero : F) (c : cell) (d : args) : result args := run_dict (pack zero c) d.
End Weights.
