(* ===== verification/RNNRoundtrip.v ===== *)
(** * Recurrent cells: the round trips of weights

    [pack_weights] undoes [unpack_weights] and the other way round, for every cell with gates,
    for stacks of them, and for fused cells; the weights of a fused cell go through the stack
    that [unfuse] makes and back. *)

From Stdlib Require Import QArith Ascii String.
From stdpp Require Import strings.
From S2P Require Import Prelude NDArray Array Local Scope RNNCell RNNUnroll RNNWeights.
Close Scope Q_scope.
Open Scope Z_scope.

(** ** Inserting and popping a list of entries *)

Section Entries.
Context {F : Type}.
Notation args := (gmap string (nda F)).

Fixpoint ins (kvs : list (string * nda F)) (d : args) : args :=
  match kvs with [] => d | (k, v) :: kvs => ins kvs (<[k := v]> d) end.

Lemma ins_lookup_ne kvs : forall d k, k ∉ kvs.*1 -> ins kvs d !! k = d !! k.
Proof.
  induction kvs as [|[k0 v] kvs IH]; intros d k Hk; [done|]. cbn in *. apply not_elem_of_cons in Hk as [Hn Hk].
  rewrite IH by done. by rewrite lookup_insert_ne.
Qed.

Lemma ins_insert kvs : forall d k v, k ∉ kvs.*1 -> ins kvs (<[k := v]> d) = <[k := v]> (ins kvs d).
Proof.
  induction kvs as [|[k0 v0] kvs IH]; intros d k v Hk; [done|]. cbn in *. apply not_elem_of_cons in Hk as [Hn Hk].
  rewrite <- IH by done. f_equal. by apply insert_insert_ne.
Qed.

Lemma put_run name (a : nda F) (d : args) : put_item name a d = (Ok tt, <[name := a]> d).
Proof. done. Qed.

(** Popping keys in order. *)
Fixpoint pops (ks : list string) : M args (list (nda F)) :=
  match ks with [] => mret [] | k :: ks => a ← pop k; l ← pops ks; mret (a :: l) end.

Lemma pops_ins kvs : forall d, NoDup kvs.*1 -> (forall k, k ∈ kvs.*1 -> d !! k = None) -> pops kvs.*1 (ins kvs d) = (Ok kvs.*2, d).
Proof.
  induction kvs as [|[k v] kvs IH]; intros d Hnd Hd; [done|]. cbn in Hnd |- *. apply NoDup_cons in Hnd as [Hk Hnd].
  rewrite bind_M. unfold pop at 1. rewrite ins_insert, lookup_insert_eq by done.
  rewrite delete_insert_id by (rewrite ins_lookup_ne by done; apply Hd; left).
  rewrite bind_M, IH; [done|done|]. intros k' Hk'. apply Hd. by right.
Qed.

Lemma ins_pops ks : forall d vs d', NoDup ks -> pops ks d = (Ok vs, d') -> ins (zip ks vs) d' = d /\ length vs = length ks /\ (forall k, k ∈ ks -> d' !! k = None).
Proof.
  induction ks as [|k ks IH]; intros d vs d' Hnd E; cbn in E.
  - injection E as <- <-. split_and!; [done|done|]. intros k Hk. by apply elem_of_nil in Hk.
  - apply NoDup_cons in Hnd as [Hk Hnd]. rewrite bind_M in E. unfold pop at 1 in E. destruct (d !! k) as [a|] eqn:Ea; [|done].
    rewrite bind_M in E. destruct (pops ks (delete k d)) as [[l|e] d1] eqn:Ep; [|done]. injection E as <- <-.
    destruct (IH _ _ _ Hnd Ep) as (Hi & Hl & Hn).
    assert (k ∉ (zip ks l).*1) as Hkz by (rewrite fst_zip by lia; done).
    assert (d1 !! k = None) as Hd1 by (rewrite <- (ins_lookup_ne (zip ks l) d1 k Hkz), Hi; apply lookup_delete_eq).
    split_and!; [|cbn; lia|].
    + cbn. rewrite ins_insert, Hi by done. by apply insert_delete_id.
    + intros k' [->|Hk']%elem_of_cons; [done|by apply Hn].
Qed.
Lemma pops_present ks : forall vs d, NoDup ks -> Forall2 (fun k v => d !! k = Some v) ks vs -> exists d', pops ks d = (Ok vs, d').
Proof.
  induction ks as [|k ks IH]; intros vs d Hnd H2; inversion H2 as [|? v ? vs' Hv H2']; subst; [by eexists|].
  apply NoDup_cons in Hnd as [Hk Hnd]. cbn. rewrite bind_M. unfold pop at 1. rewrite Hv, bind_M.
  destruct (IH vs' (delete k d) Hnd) as [d' ->]; [|by eexists].
  apply Forall2_same_length_lookup. split; [by eapply Forall2_length|].
  intros i k' v' Hk' Hv'. rewrite lookup_delete_ne; [by eapply (Forall2_lookup_lr _ _ _ i) in H2'|].
  intros <-. apply Hk. by eapply list_elem_of_lookup_2.
Qed.
End Entries.

(** ** Names *)

Lemma app_inv_head_str (p a b : string) : (p +:+ a = p +:+ b)%string -> a = b.
Proof. intros E. apply (f_equal chars) in E. rewrite !chars_app in E. apply (inj (app _)) in E. by apply chars_inj. Qed.
Lemma app_inv_tail_str (p a b : string) : (a +:+ p = b +:+ p)%string -> a = b.
Proof. intros E. apply (f_equal chars) in E. rewrite !chars_app in E. apply app_inv_tail in E. by apply chars_inj. Qed.
Lemma app_assoc_str (a b c : string) : ((a +:+ b) +:+ c = a +:+ (b +:+ c))%string.
Proof. apply chars_inj. by rewrite !chars_app, app_assoc. Qed.

Lemma wname_inj pre group g g' : wname pre group g = wname pre group g' -> g = g'.
Proof. unfold wname. intros E. by repeat apply app_inv_head_str in E; apply app_inv_tail_str in E. Qed.
Lemma bname_inj pre group g g' : bname pre group g = bname pre group g' -> g = g'.
Proof. unfold bname. intros E. by repeat apply app_inv_head_str in E; apply app_inv_tail_str in E. Qed.

Lemma last_differs (a b : string) x y c d : last (chars a) = Some c -> last (chars b) = Some d -> c <> d -> (x +:+ a)%string <> (y +:+ b)%string.
Proof.
  intros Ha Hb Hn E. apply (f_equal chars), (f_equal last) in E. rewrite !chars_app, !last_app, Ha, Hb in E. by injection E.
Qed.
Lemma weight_not_bias (x y : string) : (x +:+ "_weight")%string <> (y +:+ "_bias")%string.
Proof. by eapply last_differs. Qed.
Lemma wname_bname pre group g pre' group' g' : wname pre group g <> bname pre' group' g'.
Proof. unfold wname, bname. rewrite <- !app_assoc_str. apply weight_not_bias. Qed.

(** The names of the arrays of the gates. *)
Definition gate_keys (pre group : string) (gates : list string) : list string :=
  concat (map (fun g => [wname pre group g; bname pre group g]) gates).

Lemma elem_gate_keys pre group gates k : k ∈ gate_keys pre group gates <-> exists g, g ∈ gates /\ (k = wname pre group g \/ k = bname pre group g).
Proof.
  unfold gate_keys. induction gates as [|g gates IH]; cbn; [set_solver|]. rewrite !elem_of_cons, IH. set_solver.
Qed.

Lemma gate_keys_NoDup pre group gates : NoDup gates -> NoDup (gate_keys pre group gates).
Proof.
  induction 1 as [|g gates Hg _ IH]; cbn; [constructor|]. repeat constructor; [| |done].
  - rewrite elem_of_cons, (elem_gate_keys pre group gates). intros [E|(g' & Hg' & [E|E])].
    + by apply wname_bname in E.
    + by apply wname_inj in E as ->.
    + by apply wname_bname in E.
  - rewrite (elem_gate_keys pre group gates). intros (g' & Hg' & [E|E]).
    + symmetry in E. by apply wname_bname in E.
    + by apply bname_inj in E as ->.
Qed.

(** ** A group of a cell with gates *)

Section Group.
Context {F : Type} (pre group : string) (h : nat) (gates : list string).
Notation args := (gmap string (nda F)).
Notation W := (wname pre group "").
Notation B := (bname pre group "").
Notation keys := (gate_keys pre group gates).

Fixpoint inter {A} (l1 l2 : list A) : list A :=
  match l1, l2 with a :: l1, b :: l2 => a :: b :: inter l1 l2 | _, _ => [] end.

Lemma pops_pop_gates gs : forall d : args, pops (gate_keys pre group gs) d =
  match pop_gates pre group gs d with (Ok (ws, bs), d') => (Ok (inter ws bs), d') | (Raise e, d') => (Raise e, d') end.
Proof.
  induction gs as [|g gs IH]; intros d; [done|]. change (gate_keys pre group (g :: gs)) with (wname pre group g :: bname pre group g :: gate_keys pre group gs).
  cbn [pops pop_gates]. rewrite !bind_M. destruct (pop (wname pre group g) d) as [[w|e] d1]; [|done].
  rewrite !bind_M. destruct (pop (bname pre group g) d1) as [[b|e] d2]; [|done].
  rewrite !bind_M, IH. by destruct (pop_gates pre group gs d2) as [[[ws bs]|e] d3].
Qed.

Lemma pop_gates_length gs : forall (d : args) ws bs d', pop_gates pre group gs d = (Ok (ws, bs), d') -> length ws = length gs /\ length bs = length gs.
Proof.
  induction gs as [|g gs IH]; intros d ws bs d' E; cbn in E; [by injection E as <- <- _|].
  rewrite bind_M in E. destruct (pop (wname pre group g) d) as [[w|e] d1]; [|done].
  rewrite bind_M in E. destruct (pop (bname pre group g) d1) as [[b|e] d2]; [|done].
  rewrite bind_M in E. destruct (pop_gates pre group gs d2) as [[[ws1 bs1]|e] d3] eqn:Ep; [|done].
  injection E as <- <- _. destruct (IH _ _ _ _ Ep). cbn. by split; f_equal.
Qed.

Lemma inter_length {A} gs : forall ws bs : list A, length ws = length gs -> length bs = length gs -> length (inter ws bs) = length (gate_keys pre group gs).
Proof.
  induction gs as [|g gs IH]; intros [|w ws] [|b bs] Hw Hb; try done. cbn in *. do 2 f_equal. by apply IH; lia.
Qed.

(** Inverse of [inter]. *)
Lemma pops_gates gs ws bs (d d' : args) : length ws = length gs -> length bs = length gs ->
  pops (gate_keys pre group gs) d = (Ok (inter ws bs), d') -> pop_gates pre group gs d = (Ok (ws, bs), d').
Proof.
  intros Hw Hb E. rewrite pops_pop_gates in E. destruct (pop_gates pre group gs d) as [[[ws1 bs1]|e] d1] eqn:Ep; [|done].
  destruct (pop_gates_length _ _ _ _ _ Ep) as [Hw1 Hb1]. injection E as Ei <-. do 2 f_equal. clear Ep.
  revert ws bs ws1 bs1 Hw Hb Hw1 Hb1 Ei. induction gs as [|g gs IH]; intros [|w ws] [|b bs] [|w1 ws1] [|b1 bs1]; cbn; intros; try done.
  injection Ei as <- <- Ei. assert ((ws1, bs1) = (ws, bs)) as [= -> ->]; [|done]. apply IH; try done; lia.
Qed.

Lemma unpack_gates_ins (weight bias : nda F) gs : forall i ws bs d,
  length ws = length gs -> length bs = length gs ->
  (forall j w, ws !! j = Some w -> a_slice (Z.of_nat (i + j) * Z.of_nat h) ((Z.of_nat (i + j) + 1) * Z.of_nat h) weight = Ok w) ->
  (forall j b, bs !! j = Some b -> a_slice (Z.of_nat (i + j) * Z.of_nat h) ((Z.of_nat (i + j) + 1) * Z.of_nat h) bias = Ok b) ->
  forM (unpack_gate pre group h weight bias) (imap (fun j g => ((i + j)%nat, g)) gs) d =
    (Ok tt, ins (zip (gate_keys pre group gs) (inter ws bs)) d).
Proof.
  induction gs as [|g gs IH]; intros i [|w ws] [|b bs] d Hw Hb Sw Sb; try done. rewrite imap_cons. cbn [forM]. rewrite bind_M. unfold unpack_gate at 1.
  rewrite bind_M. unfold lift. rewrite (Sw 0%nat w eq_refl), bind_M. cbn [put_item]. rewrite bind_M. rewrite (Sb 0%nat b eq_refl).
  cbn beta iota. unfold put_item at 1.
  erewrite (imap_ext _ (fun j g => ((S i + j)%nat, g))) by (intros; cbn; f_equal; lia).
  rewrite (IH (S i) ws bs); [done|by injection Hw|by injection Hb| |].
  - intros j x Hj. specialize (Sw (S j) x Hj). by replace (S i + j)%nat with (i + S j)%nat by lia.
  - intros j x Hj. specialize (Sb (S j) x Hj). by replace (S i + j)%nat with (i + S j)%nat by lia.
Qed.

(** The packed arrays are there, with a row of blocks per gate, and no array of a gate is. *)
Definition packed (d : args) : Prop :=
  (exists s l s' l', d !! W = Some (mkNda ((length gates * h)%nat :: s) l) /\ length l = (length gates * (h * size s))%nat /\
                     d !! B = Some (mkNda ((length gates * h)%nat :: s') l') /\ length l' = (length gates * (h * size s'))%nat) /\
  (forall k, k ∈ keys -> k <> W -> k <> B -> d !! k = None).
(** The arrays of the gates are there, with one shape, and no other packed array is. *)
Definition unpacked (d : args) : Prop :=
  (exists s L s' L', Forall (fun x => length x = (h * size s)%nat) L /\ Forall (fun x => length x = (h * size s')%nat) L' /\
     Forall2 (fun g x => d !! wname pre group g = Some (mkNda (h :: s) x)) gates L /\
     Forall2 (fun g x => d !! bname pre group g = Some (mkNda (h :: s') x)) gates L') /\
  (forall k, k = W \/ k = B -> k ∉ keys -> d !! k = None).

Lemma WB : W <> B.
Proof. apply wname_bname. Qed.

Lemma unpack_group_run s l s' l' (d : args) : (0 < h)%nat ->
  d !! W = Some (mkNda ((length gates * h)%nat :: s) l) -> d !! B = Some (mkNda ((length gates * h)%nat :: s') l') ->
  unpack_group pre h gates group d =
    (Ok tt, ins (zip keys (inter (map (mkNda (h :: s)) (blocks (h * size s) (length gates) l))
                                 (map (mkNda (h :: s')) (blocks (h * size s') (length gates) l')))) (delete B (delete W d))).
Proof.
  intros Hh HW HB. unfold unpack_group. rewrite bind_M. unfold pop at 1. rewrite HW, bind_M. unfold pop at 1.
  rewrite lookup_delete_ne by apply WB. rewrite HB.
  apply (unpack_gates_ins _ _ gates 0); try (by rewrite length_map; unfold blocks; rewrite length_map, length_seq).
  all: intros j x Hj; apply list_lookup_fmap_Some_1 in Hj as (y & -> & Hy); unfold blocks in Hy;
    apply list_lookup_fmap_Some_1 in Hy as (i & -> & [-> Hi]%lookup_seq); by apply a_slice_block.
Qed.

Lemma blocks_arrays s (l : list F) : length l = (length gates * (h * size s))%nat -> gates <> [] ->
  a_concat (map (mkNda (h :: s)) (blocks (h * size s) (length gates) l)) = Ok (mkNda ((length gates * h)%nat :: s) l).
Proof.
  intros Hl Hg. assert (length (blocks (h * size s) (length gates) l) = length gates) as Hb by (unfold blocks; by rewrite length_map, length_seq).
  rewrite a_concat_blocks; [by rewrite Hb, blocks_concat|]. intros E. rewrite E in Hb. destruct gates; done.
Qed.

Lemma group_pack_unpack d : NoDup gates -> gates <> [] -> (0 < h)%nat -> packed d ->
  exists d', unpack_group pre h gates group d = (Ok tt, d') /\ pack_group pre gates group d' = (Ok tt, d).
Proof.
  intros Hnd Hg Hh [(s & l & s' & l' & HW & Hl & HB & Hl') Hf]. eexists. split; [by apply unpack_group_run|].
  unfold pack_group. rewrite bind_M.
  set (ws := map _ (blocks (h * size s) _ l)). set (bs := map _ (blocks (h * size s') _ l')).
  assert (length ws = length gates /\ length bs = length gates) as [Hws Hbs] by (unfold ws, bs, blocks; by rewrite !length_map, !length_seq).
  pose proof (inter_length gates ws bs Hws Hbs) as Hi.
  rewrite (pops_gates gates ws bs _ (delete B (delete W d))); [|done|done|].
  - rewrite bind_M. unfold lift. unfold ws at 1. rewrite blocks_arrays, bind_M by done. rewrite put_run, bind_M. unfold bs.
    rewrite blocks_arrays by done. rewrite put_run. f_equal.
    apply map_eq. intros k. rewrite !lookup_insert, !lookup_delete. pose proof WB. repeat case_decide; subst; congruence.
  - rewrite <- (fst_zip keys (inter ws bs)) at 1 by lia. rewrite pops_ins.
    + by rewrite snd_zip by lia.
    + rewrite fst_zip by lia. by apply gate_keys_NoDup.
    + intros k. rewrite fst_zip by lia. intros Hk. rewrite !lookup_delete. repeat case_decide; try done. by apply Hf.
Qed.

Lemma inter_Forall2 (d : args) gs : forall ws bs,
  Forall2 (fun g x => d !! wname pre group g = Some x) gs ws -> Forall2 (fun g x => d !! bname pre group g = Some x) gs bs ->
  Forall2 (fun k v => d !! k = Some v) (gate_keys pre group gs) (inter ws bs).
Proof.
  induction gs as [|g gs IH]; intros ws bs Hw Hb; inversion Hw; inversion Hb; subst; cbn; [constructor|].
  constructor; [done|]. constructor; [done|]. by apply IH.
Qed.

Lemma group_unpack_pack d : NoDup gates -> gates <> [] -> (0 < h)%nat -> unpacked d ->
  exists d', pack_group pre gates group d = (Ok tt, d') /\ unpack_group pre h gates group d' = (Ok tt, d).
Proof.
  intros Hnd Hg Hh [(s & L & s' & L' & HL & HL' & HW & HB) Hf].
  set (ws := map (mkNda (h :: s)) L). set (bs := map (mkNda (h :: s')) L').
  assert (length L = length gates /\ length L' = length gates) as [HlL HlL'] by (split; symmetry; by eapply Forall2_length).
  pose proof (gate_keys_NoDup pre group gates Hnd) as Hk.
  destruct (pops_present keys (inter ws bs) d Hk) as [d1 Ep].
  { apply inter_Forall2; unfold ws, bs; by apply Forall2_fmap_r. }
  destruct (ins_pops _ _ _ _ Hk Ep) as (Hins & Hlen & Hnone).
  assert (pop_gates pre group gates d = (Ok (ws, bs), d1)) as Epg by (apply pops_gates; [by unfold ws; rewrite length_map|by unfold bs; rewrite length_map|done]).
  assert (forall k, k = W \/ k = B -> d1 !! k = None) as HWB.
  { intros k HkWB. destruct (decide (k ∈ keys)) as [Hin|Hin]; [by apply Hnone|].
    rewrite <- (ins_lookup_ne (zip keys (inter ws bs)) d1 k), Hins by (by rewrite fst_zip by lia). by apply Hf. }
  unfold pack_group. rewrite bind_M, Epg, bind_M. unfold lift, ws, bs.
  rewrite a_concat_blocks by (intros ->; by destruct gates). rewrite bind_M, put_run, bind_M.
  rewrite a_concat_blocks by (intros ->; by destruct gates). rewrite put_run, HlL, HlL'. eexists. split; [done|].
  rewrite (unpack_group_run s (concat L) s' (concat L')); [|done| |].
  - f_equal. rewrite <- Hins. rewrite <- HlL at 1. rewrite blocks_of by done. rewrite <- HlL' at 1. rewrite blocks_of by done. f_equal.

    apply map_eq. intros k. rewrite !lookup_delete, !lookup_insert. repeat case_decide; subst; try congruence; symmetry; apply HWB; auto.
  - by rewrite lookup_insert_ne, lookup_insert_eq by apply not_eq_sym, WB.
  - by rewrite lookup_insert_eq.
Qed.
End Group.

(** ** Loops over groups and cells *)

Section Cells.
Context {F : Type}.
Notation args := (gmap string (nda F)).

Lemma local_pop D name : name ∈ D -> local D (pop name : M args _).
Proof.
  intros Hn. split.
  - intros s t Hst. unfold pop. rewrite (Hst name Hn). destruct (t !! name) as [a|]; [|done]. split; [done|].
    intros k Hk. cbn. rewrite !lookup_delete. case_decide; [done|]. by apply Hst.
  - intros s k Hk. unfold pop. destruct (s !! name); cbn; [|done]. apply lookup_delete_ne. by intros ->.
Qed.
Lemma local_put D name (a : nda F) : name ∈ D -> local D (put_item name a).
Proof. intros Hn. apply (local_alter D name (fun _ => Some a) Hn). Qed.

(** A group of weights of a cell: prefix, number of hidden units, gates, and [i2h] or [h2h]. *)
Record wgroup := mkGroup { g_pre : string; g_hidden : nat; g_gates : list string; g_group : string }.
Definition group_keys (g : wgroup) : list string :=
  remove_dups (wname (g_pre g) (g_group g) "" :: bname (g_pre g) (g_group g) "" :: gate_keys (g_pre g) (g_group g) (g_gates g)).
Definition unpack_g (g : wgroup) : M args unit := unpack_group (g_pre g) (g_hidden g) (g_gates g) (g_group g).
Definition pack_g (g : wgroup) : M args unit := pack_group (g_pre g) (g_gates g) (g_group g).
Definition g_packed (g : wgroup) : args -> Prop := packed (g_pre g) (g_group g) (g_hidden g) (g_gates g).
Definition g_unpacked (g : wgroup) : args -> Prop := unpacked (g_pre g) (g_group g) (g_hidden g) (g_gates g).
Definition g_wf (g : wgroup) : Prop := NoDup (g_gates g) /\ g_gates g <> [] /\ (0 < g_hidden g)%nat.
Notation gfoot g := (list_to_set (group_keys g) : gset string).

Lemma in_gfoot g k : k ∈ gfoot g <-> k = wname (g_pre g) (g_group g) "" \/ k = bname (g_pre g) (g_group g) "" \/ k ∈ gate_keys (g_pre g) (g_group g) (g_gates g).
Proof. unfold group_keys. rewrite elem_of_list_to_set, elem_of_remove_dups, !elem_of_cons. done. Qed.

Lemma unpack_g_local g : local (gfoot g) (unpack_g g).
Proof.
  unfold unpack_g, unpack_group. apply local_bind; [apply local_pop, in_gfoot; by left|]. intros w.
  apply local_bind; [apply local_pop, in_gfoot; by right; left|]. intros b. apply local_forM. intros [j gate] Hj.
  assert (gate ∈ g_gates g) as Hg by (apply elem_of_lookup_imap in Hj as (i & y & [= -> ->] & Hy); by eapply list_elem_of_lookup_2).
  unfold unpack_gate. repeat (apply local_bind; [apply local_lift || apply local_put, in_gfoot; right; right; apply elem_gate_keys; by eauto|intros ?]).
  apply local_put, in_gfoot. right; right. apply elem_gate_keys. by eauto.
Qed.

Lemma pop_gates_local g : forall gs, (forall x, x ∈ gs -> x ∈ g_gates g) -> local (gfoot g) (pop_gates (g_pre g) (g_group g) gs : M args _).
Proof.
  induction gs as [|x gs IH]; intros Hgs; cbn; [apply local_ret|].
  apply local_bind; [apply local_pop, in_gfoot; right; right; apply elem_gate_keys; exists x; split; [apply Hgs; left|by left]|]. intros w.
  apply local_bind; [apply local_pop, in_gfoot; right; right; apply elem_gate_keys; exists x; split; [apply Hgs; left|by right]|]. intros b.
  apply local_bind; [apply IH; intros y Hy; apply Hgs; by right|]. intros [ws bs]. apply local_ret.
Qed.

Lemma pack_g_local g : local (gfoot g) (pack_g g).
Proof.
  unfold pack_g, pack_group. apply local_bind; [by apply pop_gates_local|]. intros [ws bs].
  apply local_bind; [apply local_lift|]. intros w. apply local_bind; [apply local_put, in_gfoot; by left|]. intros _.
  apply local_bind; [apply local_lift|]. intros b. apply local_put, in_gfoot. by right; left.
Qed.

Lemma Forall2_elem_impl {A B} (P Q : A -> B -> Prop) l k : Forall2 P l k -> (forall x y, x ∈ l -> P x y -> Q x y) -> Forall2 Q l k.
Proof. induction 1 as [|x y l k Hxy _ IH]; intros HQ; constructor; [apply HQ; [left|done]|]. apply IH. intros; apply HQ; [by right|done]. Qed.

Lemma g_packed_agree g d d' : agree (gfoot g) d d' -> g_packed g d -> g_packed g d'.
Proof.
  intros Ha [(s & l & s' & l' & HW & Hl & HB & Hl') Hf]. split.
  - exists s, l, s', l'. rewrite <- !Ha by (apply in_gfoot; auto). done.
  - intros k Hk H1 H2. rewrite <- Ha by (apply in_gfoot; auto). by apply Hf.
Qed.
Lemma g_unpacked_agree g d d' : agree (gfoot g) d d' -> g_unpacked g d -> g_unpacked g d'.
Proof.
  intros Ha [(s & L & s' & L' & HL & HL' & HW & HB) Hf]. split.
  - exists s, L, s', L'. split_and!; try done.
    + eapply Forall2_elem_impl; [exact HW|]. intros x y Hx E. rewrite <- Ha; [done|]. apply in_gfoot. right; right. apply elem_gate_keys. eauto.
    + eapply Forall2_elem_impl; [exact HB|]. intros x y Hx E. rewrite <- Ha; [done|]. apply in_gfoot. right; right. apply elem_gate_keys. eauto.
  - intros k Hk Hn. rewrite <- Ha by (apply in_gfoot; naive_solver). by apply Hf.
Qed.

(** All groups: packing undoes unpacking, and unpacking undoes packing. *)
Lemma groups_pack_unpack gs d : Forall g_wf gs -> NoDup (concat (map group_keys gs)) -> (forall g, g ∈ gs -> g_packed g d) ->
  exists d', forM unpack_g gs d = (Ok tt, d') /\ forM pack_g gs d' = (Ok tt, d).
Proof.
  intros Hwf Hnd Hok. apply (loop_roundtrip unpack_g pack_g group_keys g_packed gs); try done.
  - intros g _. split; [apply unpack_g_local|apply pack_g_local].
  - intros g s t _. apply g_packed_agree.
  - intros g s Hg Hp. rewrite Forall_forall in Hwf. destruct (Hwf g Hg) as (? & ? & ?). by apply group_pack_unpack.
Qed.
Lemma groups_unpack_pack gs d : Forall g_wf gs -> NoDup (concat (map group_keys gs)) -> (forall g, g ∈ gs -> g_unpacked g d) ->
  exists d', forM pack_g gs d = (Ok tt, d') /\ forM unpack_g gs d' = (Ok tt, d).
Proof.
  intros Hwf Hnd Hok. apply (loop_roundtrip pack_g unpack_g group_keys g_unpacked gs); try done.
  - intros g _. split; [apply pack_g_local|apply unpack_g_local].
  - intros g s t _. apply g_unpacked_agree.
  - intros g s Hg Hp. rewrite Forall_forall in Hwf. destruct (Hwf g Hg) as (? & ? & ?). by apply group_unpack_pack.
Qed.

(** ** Cells *)

(** The groups of a cell, in the order in which the methods go through them. *)
Fixpoint groups_of (c : cell) : list wgroup :=
  match c with
  | Leaf h k _ => map (mkGroup (_prefix h) (leaf_hidden k) (leaf_gates k)) groups
  | SequentialRNNCell _ _ cells => concat (map groups_of cells)
  | FusedRNNCell _ _ _ | DropoutCell _ _ => []
  | ZoneoutCell _ base _ _ | ResidualCell _ base => groups_of base
  | BidirectionalCell _ _ _ l r => groups_of l ++ groups_of r ++ []
  end.
(** No fused cell inside. *)
Fixpoint unfused (c : cell) : bool :=
  match c with
  | Leaf _ _ _ | DropoutCell _ _ => true
  | FusedRNNCell _ _ _ => false
  | SequentialRNNCell _ _ cells => forallb unfused cells
  | ZoneoutCell _ base _ _ | ResidualCell _ base => unfused base
  | BidirectionalCell _ _ _ l r => unfused l && unfused r
  end.

Lemma forM_map {S A B} (f : B -> M S unit) (g : A -> B) l s : forM f (map g l) s = forM (fun a => f (g a)) l s.
Proof. revert s. induction l as [|a l IH]; intros s; [done|]. cbn. rewrite !bind_M. destruct (f (g a) s) as [[u|e] s']; [|done]. apply IH. Qed.

(** Going through cells, each through its groups, is going through all groups. *)
Lemma forM_groups (f : cell -> M args unit) (g : wgroup -> M args unit) cells :
  Forall (fun c => unfused c = true -> forall d, f c d = forM g (groups_of c) d) cells -> forallb unfused cells = true ->
  forall d, forM f cells d = forM g (concat (map groups_of cells)) d.
Proof.
  induction 1 as [|c l Hc _ IH]; intros Hu d; [done|]. cbn in Hu. apply andb_true_iff in Hu as [Hu1 Hu2].
  cbn [forM map concat]. rewrite forM_app, !bind_M, Hc by done. destruct (forM g (groups_of c) d) as [[u|e] d']; [|done]. by apply IH.
Qed.

Lemma leaf_gates_nonempty k : leaf_gates k <> [].
Proof. by destruct k. Qed.
Lemma base_unpack_eq pre h gates (d : args) : gates <> [] -> base_unpack pre h gates d = forM (unpack_group pre h gates) groups d.
Proof. by destruct gates. Qed.
Lemma base_pack_eq pre gates (d : args) : gates <> [] -> base_pack pre gates d = forM (pack_group pre gates) groups d.
Proof. by destruct gates. Qed.

Lemma unpack_groups c : unfused c = true -> forall d : args, unpack c d = forM unpack_g (groups_of c) d.
Proof.
  induction c as [h k w|h f p|h o cells IH|h p|h base po ps IH|h base IH|h o op l r IHl IHr] using cell_rect'; intros Hu d; try done;
    cbn [unpack groups_of]; try (by apply IH).
  - by rewrite base_unpack_eq, forM_map by apply leaf_gates_nonempty.
  - by apply forM_groups.
  - apply (forM_groups unpack unpack_g [l; r]); [by repeat constructor|]. cbn in Hu |- *. by rewrite andb_true_r.
Qed.
Lemma pack_groups zero c : unfused c = true -> forall d : args, pack zero c d = forM pack_g (groups_of c) d.
Proof.
  induction c as [h k w|h f p|h o cells IH|h p|h base po ps IH|h base IH|h o op l r IHl IHr] using cell_rect'; intros Hu d; try done;
    cbn [pack groups_of]; try (by apply IH).
  - by rewrite base_pack_eq, forM_map by apply leaf_gates_nonempty.
  - by apply forM_groups.
  - apply (forM_groups (pack zero) pack_g [l; r]); [by repeat constructor|]. cbn in Hu |- *. by rewrite andb_true_r.
Qed.

Lemma leaf_gates_NoDup k : NoDup (leaf_gates k).
Proof. destruct k; cbn; repeat constructor; set_solver. Qed.
Lemma groups_wf c : Forall (fun g => (0 < g_hidden g)%nat) (groups_of c) -> Forall g_wf (groups_of c).
Proof.
  induction c as [h k w|h f p|h o cells IH|h p|h base po ps IH|h base IH|h o op l r IHl IHr] using cell_rect'; cbn [groups_of]; intros Hh; try done;
    try (by apply IH).
  - cbn in *. repeat (apply Forall_cons in Hh as [? Hh]). repeat constructor; try done; apply leaf_gates_NoDup || apply leaf_gates_nonempty.
  - induction IH as [|c l Hc _ IHl]; cbn in *; [done|]. apply Forall_app in Hh as [H1 H2]. apply Forall_app. auto.
  - rewrite !Forall_app in *. naive_solver.
Qed.

(** [unpack_weights] succeeds on packed weights and [pack_weights] restores the dict,
    for cells with gates and for stacks, bidirectional cells and modifiers of them. *)
Theorem pack_unpack_weights zero c (d : args) : unfused c = true ->
  Forall (fun g => (0 < g_hidden g)%nat) (groups_of c) -> NoDup (concat (map group_keys (groups_of c))) ->
  (forall g, g ∈ groups_of c -> g_packed g d) ->
  exists d', unpack_weights c d = Ok d' /\ pack_weights zero c d' = Ok d.
Proof.
  intros Hu Hh Hnd Hok. destruct (groups_pack_unpack (groups_of c) d (groups_wf c Hh) Hnd Hok) as (d' & E1 & E2).
  exists d'. unfold unpack_weights, pack_weights, run_dict. by rewrite unpack_groups, pack_groups, E1, E2 by done.
Qed.
End Cells.

Definition ex_cell : cell := Leaf (mkHdr 0 "g_" 0) (GRUCell 1) (w_of "g_").
Definition ex_weights : gmap string (nda Z) :=
  list_to_map [("g_i2h_weight", mkNda [3; 2]%nat [1; 2; 3; 4; 5; 6]); ("g_i2h_bias", mkNda [3]%nat [7; 8; 9]);
               ("g_h2h_weight", mkNda [3; 1]%nat [10; 11; 12]); ("g_h2h_bias", mkNda [3]%nat [13; 14; 15]); ("fc_weight", mkNda [1]%nat [0])]%string.
Lemma ex_packed g : g ∈ groups_of ex_cell -> g_packed g ex_weights.
Proof.
  cbn. intros Hg. apply elem_of_cons in Hg as [->|Hg]; [|apply list_elem_of_singleton in Hg as ->]; (split; [do 4 eexists; split_and!; reflexivity|]);
    (intros k Hk _ _; revert k Hk; rewrite <- Forall_forall; repeat constructor; reflexivity).
Qed.
Lemma pack_unpack_weights_witness : exists d', unpack_weights ex_cell ex_weights = Ok d' /\ pack_weights 0 ex_cell d' = Ok ex_weights.
Proof.
  apply (pack_unpack_weights 0 ex_cell).
  - reflexivity.
  - repeat constructor.
  - apply (bool_decide_unpack _). vm_compute. exact I.
  - exact ex_packed.
Defined.
