(* ===== verification/RNNFused.v ===== *)
(** * Fused recurrent cells: the round trips of weights

    The one vector of a fused cell is cut into the weights of all layers, directions and
    gates, and put together again; its size determines the size of the input.  The weights go
    through the stack of cells that [unfuse] makes, and back. *)

From Stdlib Require Import QArith Ascii String.
From stdpp Require Import strings pretty.
From S2P Require Import Prelude NDArray Array Local Scope RNNCell RNNUnroll RNNWeights RNNRoundtrip.
Close Scope Q_scope.
Open Scope Z_scope.

(** ** Reshaping with positive dimensions *)

Lemma infer_positive shape : forall tmp src i inf, Forall (fun d => 0 < d) shape -> infer_dims shape tmp src i inf = Ok (tmp ++ shape, inf).
Proof.
  induction shape as [|d shape IH]; intros tmp src i inf Hp; cbn [infer_dims]; [by rewrite app_nil_r|].
  apply Forall_cons in Hp as [Hd Hp]. rewrite !(proj2 (Z.eqb_neq _ _)) by lia. rewrite IH by done. by rewrite <- app_assoc.
Qed.

Lemma sizeZ_nat s : Forall (fun d => 0 < d) s -> sizeZ s = Z.of_nat (size (map Z.to_nat s)).
Proof.
  induction 1 as [|d s Hd _ IH]; [done|]. unfold sizeZ, size in *. cbn [foldr map]. rewrite IH. lia.
Qed.

Lemma reshape_ok v s : Forall (fun d => 0 < d) s -> sizeZ s = Z.of_nat (size (v_shape v)) ->
  view_reshape v s = Ok (mkView (v_off v) (map Z.to_nat s)).
Proof.
  intros Hp Hs. unfold view_reshape. assert (0 < sizeZ s) as Hpos.
  { clear -Hp. induction Hp as [|d s Hd _ IH]; [done|]. unfold sizeZ in *. cbn [foldr]. nia. }
  rewrite (proj2 (Nat.eqb_neq _ _)) by lia. unfold InferReshapeShape. rewrite infer_positive by done.
  cbn -[sizeZ Z.leb]. rewrite (proj2 (forallb_forall _ _)) by (intros d Hd; rewrite Forall_forall in Hp; apply Z.leb_le; specialize (Hp d (proj2 (list_elem_of_In _ _) Hd)); lia).
  by rewrite (proj2 (Z.leb_le _ _)) by lia.
Qed.

(** ** Cutting a vector into slots *)

Definition slot_ok (x : slot) : Prop :=
  let '(_, sz, shape) := x in 0 < sz /\ match shape with Some s => Forall (fun d => 0 < d) s /\ sizeZ s = sz | None => True end.
Definition slot_dims (x : slot) : list nat := match x.2 with Some s => map Z.to_nat s | None => [Z.to_nat x.1.2] end.
Fixpoint slot_sum (l : list slot) : Z := match l with [] => 0 | x :: l => x.1.2 + slot_sum l end.
Definition slot_names (l : list slot) : list string := map (fun x => x.1.1) l.
Fixpoint views (p : nat) (l : list slot) : list (string * view) :=
  match l with [] => [] | x :: l => (x.1.1, mkView p (slot_dims x)) :: views (p + Z.to_nat x.1.2) l end.

Lemma slot_sum_nonneg l : Forall slot_ok l -> 0 <= slot_sum l.
Proof. induction 1 as [|[[n sz] s] l [Hs _] _ IH]; cbn; [done|]. lia. Qed.
Lemma slot_sum_app l k : slot_sum (l ++ k) = slot_sum l + slot_sum k.
Proof. induction l as [|x l IH]; [done|]. cbn. lia. Qed.

Lemma slot_dims_size x : slot_ok x -> size (slot_dims x) = Z.to_nat x.1.2.
Proof.
  destruct x as [[n sz] [s|]]; unfold slot_dims; cbn [fst snd]; intros [Hs Hx]; [|unfold size; cbn [foldr]; lia].
  destruct Hx as [Hp <-]. rewrite sizeZ_nat by done. lia.
Qed.

Lemma views_names p l : map fst (views p l) = slot_names l.
Proof. revert p. induction l as [|x l IH]; intros p; [done|]. cbn. by rewrite IH. Qed.

Lemma slice_loop_ok T l : Forall slot_ok l -> forall p d, Z.of_nat p + slot_sum l = Z.of_nat T -> NoDup (map fst d ++ slot_names l) ->
  slice_loop (mkView 0 [T]) l (Z.of_nat p) d = Ok (Z.of_nat T, d ++ views p l).
Proof.
  induction 1 as [|[[n sz] s] l Hx Hl IH]; intros p d Hp Hnd; cbn [slice_loop views].
  - cbn in Hp. rewrite app_nil_r. do 2 f_equal. lia.
  - pose proof (slot_sum_nonneg l Hl). cbn in Hp, Hx. destruct Hx as [Hsz Hs].
    replace (Z.of_nat p + sz) with (Z.of_nat (p + Z.to_nat sz)) by lia. rewrite view_slice_ok by lia.
    cbn [mbind result_bind size foldr]. replace (p + Z.to_nat sz - p)%nat with (Z.to_nat sz) by lia. rewrite Nat.mul_1_r, Nat.add_0_l.
    assert ((match s with Some s => view_reshape (mkView p [Z.to_nat sz]) s | None => Ok (mkView p [Z.to_nat sz]) end)
              = Ok (mkView p (slot_dims (n, sz, s)))) as ->.
    { destruct s as [s|]; [|done]. destruct Hs as [Hp1 Hs]. rewrite reshape_ok; [done|done|]. unfold size. cbn [v_shape foldr]. lia. }
    cbn [mbind result_bind]. rewrite od_set_new.
    + rewrite IH; [by rewrite <- app_assoc| lia|]. rewrite map_app, <- app_assoc. exact Hnd.
    + apply od_get_None. cbn in Hnd. intros Hin. apply NoDup_app in Hnd as (_ & Hd & _). apply (Hd n Hin). left.
Qed.

Lemma view_gets {F} (l : list F) sl : Forall slot_ok sl -> forall p,
  concat (map (fun x => view_get l x.2) (views p sl)) = take (Z.to_nat (slot_sum sl)) (drop p l).
Proof.
  induction 1 as [|x sl Hx Hl IH]; intros p; [done|]. cbn [views map concat]. rewrite IH. unfold view_get at 1. cbn [v_shape v_off snd].
  rewrite slot_dims_size by done. cbn [slot_sum].
  pose proof (slot_sum_nonneg sl Hl). assert (0 < x.1.2) by (destruct x as [[? ?] ?]; apply Hx).
  rewrite Z2Nat.inj_add by lia. rewrite <- drop_drop. generalize (drop p l). intros k.
  by rewrite take_take_drop.
Qed.

(** ** The sizes of the slots *)

Lemma slot_sum_map {A} (g : A -> slot) l c : (forall a, a ∈ l -> (g a).1.2 = c) -> slot_sum (map g l) = Z.of_nat (length l) * c.
Proof.
  induction l as [|a l IH]; intros Hg; [done|]. cbn [map slot_sum length]. rewrite Hg by left. rewrite IH by (intros; apply Hg; by right). lia.
Qed.
Lemma slot_sum_concat {A} (g : A -> list slot) l c : (forall a, a ∈ l -> slot_sum (g a) = c) -> slot_sum (concat (map g l)) = Z.of_nat (length l) * c.
Proof.
  induction l as [|a l IH]; intros Hg; [done|]. cbn [map concat length]. rewrite slot_sum_app, Hg by left. rewrite IH by (intros; apply Hg; by right). lia.
Qed.

Definition nb (f : fused) : Z := py_len (directions f).
Definition ng (f : fused) : Z := py_len (mode_gates (f_mode f)).

Lemma weight_slots_sum pre f li lh layer dir :
  slot_sum (weight_slots pre f li lh layer dir) = ng f * (if (0 <? layer)%nat then nb f * lh * lh else li * lh) + ng f * lh ^ 2.
Proof.
  unfold weight_slots. rewrite slot_sum_app.
  rewrite (slot_sum_map _ _ (if (0 <? layer)%nat then nb f * lh * lh else li * lh)) by (intros a _; by destruct (0 <? layer)%nat).
  by rewrite (slot_sum_map _ _ (lh ^ 2)) by done.
Qed.
Lemma bias_slots_sum pre f lh layer dir : slot_sum (bias_slots pre f lh layer dir) = ng f * lh + ng f * lh.
Proof. unfold bias_slots. rewrite slot_sum_app. by rewrite !(slot_sum_map _ _ lh) by done. Qed.

Lemma nb_eq f : nb f = (if f_bidirectional f then 2 else 1).
Proof. unfold nb, directions. by destruct (f_bidirectional f). Qed.

Lemma slots_sum pre f li : (0 < f_layers f)%nat -> slot_sum (slots pre f li (Z.of_nat (f_hidden f))) = total_size f li.
Proof.
  intros HL. unfold slots, over_layers. rewrite slot_sum_app. set (h := Z.of_nat (f_hidden f)).
  rewrite (slot_sum_concat (fun layer => concat (map (bias_slots pre f h layer) (directions f))) (seq 0 (f_layers f)) (nb f * (ng f * h + ng f * h))).
  2:{ intros layer _. apply slot_sum_concat. intros dir _. apply bias_slots_sum. }
  rewrite length_seq. destruct (f_layers f) as [|L] eqn:EL; [lia|]. cbn [seq map concat]. rewrite slot_sum_app.
  rewrite (slot_sum_concat _ (seq 1 L) (nb f * (ng f * (nb f * h * h) + ng f * h ^ 2))).
  2:{ intros layer [Hl _]%elem_of_seq. apply slot_sum_concat. intros dir _. rewrite weight_slots_sum.
      by rewrite (proj2 (Nat.ltb_lt 0 layer)) by lia. }
  rewrite (slot_sum_concat _ (directions f) (ng f * (li * h) + ng f * h ^ 2)) by (intros dir _; apply weight_slots_sum).
  rewrite length_seq. unfold total_size. fold (ng f). rewrite <- nb_eq, EL. unfold nb, py_len. fold h.
  replace (Z.of_nat (S L) - 1) with (Z.of_nat L) by lia. rewrite Nat2Z.inj_succ. rewrite !Z.pow_2_r. ring.
Qed.

Lemma slots_ok pre f li lh : 0 < li -> 0 < lh -> Forall slot_ok (slots pre f li lh).
Proof.
  intros Hli Hlh. assert (0 < nb f) as Hb by (rewrite nb_eq; by destruct (f_bidirectional f)).
  unfold slots, over_layers. apply Forall_app. split; apply Forall_concat, Forall_fmap, Forall_forall; intros layer _; cbn;
    apply Forall_concat, Forall_fmap, Forall_forall; intros dir _; cbn.
  - unfold weight_slots. apply Forall_app. split; apply Forall_fmap, Forall_forall; intros gate _; cbn.
    + fold (nb f). destruct layer; cbn; (split; [nia|]); split; try (by repeat constructor; nia); ring.
    + rewrite Z.pow_2_r. split; [nia|]. split; [by repeat constructor|ring].
  - unfold bias_slots. apply Forall_app. split; apply Forall_fmap, Forall_forall; intros gate _; cbn; done.
Qed.

(** The size of the vector gives back the size of the input. *)
Lemma num_input_total f li : (0 < f_hidden f)%nat -> num_input_of f (total_size f li) = Ok li.
Proof.
  intros Hh. unfold num_input_of, total_size. fold (nb f) (ng f). rewrite <- nb_eq.
  assert (0 < nb f) as Hb by (rewrite nb_eq; by destruct (f_bidirectional f)).
  assert (0 < ng f) as Hm by (unfold ng, py_len; by destruct (f_mode f)).
  set (h := Z.of_nat (f_hidden f)). assert (0 < h) by lia. unfold py_floordiv.
  rewrite !(proj2 (Z.eqb_neq _ 0)) by lia. cbn [mbind result_bind].
  replace ((li + h + 2) * h * ng f * nb f + (Z.of_nat (f_layers f) - 1) * ng f * h * (h + nb f * h + 2) * nb f)
    with ((li + h + 2 + (Z.of_nat (f_layers f) - 1) * (h + nb f * h + 2)) * ng f * h * nb f) by ring.
  rewrite !Z.div_mul by lia. f_equal. ring.
Qed.

(** ** The names of the slots *)

(** A layer, a direction and the rest of the name. *)
Definition tname (pre : string) (t : nat * string * string) : string := pre +:+ t.1.2 +:+ dec (Z.of_nat t.1.1) +:+ "_" +:+ t.2.
Definition triples (f : fused) (R : list string) : list (nat * string * string) :=
  over_layers f (fun layer dir => map (fun r => (layer, dir, r)) R).

Lemma digits_split a b r r' : Forall (fun c => is_digit c = true) a -> Forall (fun c => is_digit c = true) b ->
  a ++ "_"%char :: r = b ++ "_"%char :: r' -> a = b /\ r = r'.
Proof.
  revert b. induction a as [|x a IH]; intros [|y b] Ha Hb E; cbn in E.
  - by injection E as ->.
  - apply Forall_cons in Hb as [Hy _]. injection E as <- _. done.
  - apply Forall_cons in Ha as [Hx _]. injection E as -> _. done.
  - injection E as -> E. apply Forall_cons in Ha as [_ Ha], Hb as [_ Hb]. destruct (IH b Ha Hb E) as [-> ->]. done.
Qed.

Lemma tname_inj pre t t' : t.1.2 ∈ ["l"; "r"]%string -> t'.1.2 ∈ ["l"; "r"]%string -> tname pre t = tname pre t' -> t = t'.
Proof.
  destruct t as [[k d] r], t' as [[k' d'] r']. cbn. intros Hd Hd' E. unfold tname in E. cbn in E. apply app_inv_head_str in E.
  assert (exists c, chars d = [c]) as [c Hc] by (apply elem_of_cons in Hd as [->|Hx]; [|apply list_elem_of_singleton in Hx as ->]; by eexists).
  assert (exists c, chars d' = [c]) as [c' Hc'] by (apply elem_of_cons in Hd' as [->|Hx]; [|apply list_elem_of_singleton in Hx as ->]; by eexists).
  apply (f_equal chars) in E. rewrite !chars_app, Hc, Hc' in E. injection E as <- E.
  apply digits_split in E as [E1 E2]; [|apply dec_digits|apply dec_digits].
  apply chars_inj in E2 as ->. assert (d = d') as -> by (apply chars_inj; congruence). do 2 f_equal.
  apply chars_inj in E1. unfold dec in E1. apply (inj pretty) in E1. lia.
Qed.

Lemma directions_lr f d : d ∈ directions f -> d ∈ ["l"; "r"]%string.
Proof. unfold directions. destruct (f_bidirectional f); set_solver. Qed.

Lemma elem_over_layers {A} f (g : nat -> string -> list A) a :
  a ∈ over_layers f g <-> exists layer dir, (layer < f_layers f)%nat /\ dir ∈ directions f /\ a ∈ g layer dir.
Proof.
  unfold over_layers. rewrite list_elem_of_In, in_concat. split.
  - intros (l & (layer & <- & Hl)%in_map_iff & Ha). apply in_concat in Ha as (l' & (dir & <- & Hd)%in_map_iff & Ha).
    apply list_elem_of_In in Hd, Ha, Hl. apply elem_of_seq in Hl as [_ Hl]. eauto with lia.
  - intros (layer & dir & Hl & Hd & Ha). eexists. split; [apply in_map, list_elem_of_In, elem_of_seq; split; [lia|exact Hl]|].
    apply in_concat. eexists. split; [by apply in_map, list_elem_of_In|by apply list_elem_of_In].
Qed.

Lemma elem_triples f R k d r : (k, d, r) ∈ triples f R <-> (k < f_layers f)%nat /\ d ∈ directions f /\ r ∈ R.
Proof.
  unfold triples. rewrite elem_over_layers. split.
  - intros (layer & dir & Hl & Hd & (r' & [= -> -> ->] & Hr)%list_elem_of_fmap). done.
  - intros (Hl & Hd & Hr). exists k, d. split_and!; [done|done|]. apply list_elem_of_fmap. by exists r.
Qed.

Lemma NoDup_concat_map {A B} (g : A -> list B) l : NoDup l -> (forall a, a ∈ l -> NoDup (g a)) ->
  (forall a a' b, b ∈ g a -> b ∈ g a' -> a = a') -> NoDup (concat (map g l)).
Proof.
  intros Hl Hg Hd. induction Hl as [|a l Ha _ IH]; cbn; [constructor|]. apply NoDup_app. split_and!.
  - apply Hg. left.
  - intros b Hb Hin. apply list_elem_of_In, in_concat in Hin as (k & (a' & <- & Ha')%in_map_iff & Hb').
    apply list_elem_of_In in Ha', Hb'. by rewrite (Hd a a' b Hb Hb') in Ha.
  - apply IH. intros a' Ha'. apply Hg. by right.
Qed.

Lemma triples_NoDup f R : NoDup R -> NoDup (triples f R).
Proof.
  intros HR. apply NoDup_concat_map.
  - apply NoDup_seq.
  - intros layer _. apply NoDup_concat_map.
    + unfold directions. destruct (f_bidirectional f); repeat constructor; set_solver.
    + intros dir _. apply NoDup_fmap_2; [by intros ?? [=]|done].
    + intros a a' b (r & -> & _)%list_elem_of_fmap (r' & [= ->] & _)%list_elem_of_fmap. done.
  - intros a a' b Hb Hb'. apply list_elem_of_In, in_concat in Hb as (k & (d & <- & _)%in_map_iff & Hb).
    apply list_elem_of_In, in_concat in Hb' as (k' & (d' & <- & _)%in_map_iff & Hb').
    apply in_map_iff in Hb as (r & <- & _), Hb' as (r' & [= ->] & _). done.
Qed.

Lemma tnames_NoDup pre f R : NoDup R -> NoDup (map (tname pre) (triples f R)).
Proof.
  intros HR. apply NoDup_fmap_2_strong; [|by apply triples_NoDup].
  intros [[k d] r] [[k' d'] r'] (_ & Hd & _)%elem_triples (_ & Hd' & _)%elem_triples. apply tname_inj; by eapply directions_lr.
Qed.

Definition rests (f : fused) (suffix : string) : list string :=
  map (fun g => "i2h" +:+ g +:+ suffix) (mode_gates (f_mode f)) ++ map (fun g => "h2h" +:+ g +:+ suffix) (mode_gates (f_mode f)).

Lemma map_over_layers {A B} f (g : nat -> string -> list A) (m : A -> B) :
  map m (over_layers f g) = over_layers f (fun layer dir => map m (g layer dir)).
Proof.
  unfold over_layers. rewrite concat_map, map_map. f_equal. apply map_ext. intros layer. by rewrite concat_map, map_map.
Qed.

Lemma slots_names pre f li lh :
  slot_names (slots pre f li lh) = map (tname pre) (triples f (rests f "_weight")) ++ map (tname pre) (triples f (rests f "_bias")).
Proof.
  unfold slots, slot_names, triples. rewrite map_app, !map_over_layers. f_equal; unfold over_layers; f_equal; apply map_ext; intros layer; f_equal; apply map_ext; intros dir;
    unfold weight_slots, bias_slots, rests; rewrite ?map_app, ?map_map; f_equal; apply map_ext; intros g; by destruct layer.
Qed.

Lemma rests_NoDup f : NoDup (rests f "_weight" ++ rests f "_bias").
Proof. unfold rests. destruct (f_mode f); cbn; apply (bool_decide_unpack _); vm_compute; exact I. Qed.

Lemma slots_NoDup pre f li lh : NoDup (slot_names (slots pre f li lh)).
Proof.
  rewrite slots_names. destruct (proj1 (NoDup_app _ _) (rests_NoDup f)) as (H1 & H2 & H3). apply NoDup_app. split_and!; try (by apply tnames_NoDup).
  intros n ([[k d] r] & -> & Ht)%list_elem_of_fmap ([[k' d'] r'] & E & Ht')%list_elem_of_fmap.
  apply elem_triples in Ht as (_ & Hd & Hr), Ht' as (_ & Hd' & Hr'). apply tname_inj in E; [|by eapply directions_lr..].
  injection E as <- <- <-. by apply (H2 r).
Qed.

(** ** The round trips *)

Section FusedTrips.
Context {F : Type} (zero : F) (pre pname : string) (f : fused).
Notation args := (gmap string (nda F)).
Notation h := (f_hidden f).

Lemma puts_ins (l : list (string * view)) (arr : nda F) : forall d : args,
  forM (fun '(name, v) => put_item name (view_array arr v)) l d = (Ok tt, ins (map (fun x => (x.1, view_array arr x.2)) l) d).
Proof. induction l as [|[n v] l IH]; intros d; [done|]. cbn [forM map]. by rewrite bind_M, put_run. Qed.

Definition the_slots (li : nat) : list slot := slots pre f (Z.of_nat li) (Z.of_nat h).

Lemma slice_weights_ok li : (0 < f_layers f)%nat -> (0 < h)%nat -> (0 < li)%nat ->
  _slice_weights pre f (mkView 0 [Z.to_nat (total_size f (Z.of_nat li))]) (Z.of_nat li) (Z.of_nat h) = Ok (views 0 (the_slots li)) /\
  Z.of_nat (Z.to_nat (total_size f (Z.of_nat li))) = slot_sum (the_slots li).
Proof.
  intros HL Hh Hli. assert (Forall slot_ok (the_slots li)) as Hok by (apply slots_ok; lia).
  assert (slot_sum (the_slots li) = total_size f (Z.of_nat li)) as Hs by (by apply slots_sum).
  pose proof (slot_sum_nonneg _ Hok). split; [|lia]. unfold _slice_weights. fold (the_slots li).
  rewrite (slice_loop_ok _ (the_slots li) Hok 0 []); [|lia|apply slots_NoDup]. cbn [mbind result_bind v_shape size foldr].
  rewrite Nat.mul_1_r, Z.eqb_refl. done.
Qed.

(** The vector is there, with a size for inputs of size [li], and no weight is. *)
Definition fused_packed (li : nat) (d : args) : Prop :=
  (exists l, d !! pname = Some (mkNda [Z.to_nat (total_size f (Z.of_nat li))] l) /\ length l = Z.to_nat (total_size f (Z.of_nat li))) /\
  (forall n, n ∈ slot_names (the_slots li) -> n <> pname /\ d !! n = None).
(** Every weight is there with the shape of its slot, and the vector is not. *)
Definition fused_unpacked (li : nat) (d : args) : Prop :=
  (exists L, Forall2 (fun x y => d !! x.1.1 = Some (mkNda (slot_dims x) y) /\ length y = size (slot_dims x)) (the_slots li) L) /\
  pname ∉ slot_names (the_slots li) /\ d !! pname = None.

(** The entries that unpacking a vector gives. *)
Definition slot_entries (li : nat) (l : list F) : list (string * nda F) :=
  map (fun x => (x.1, mkNda (v_shape x.2) (view_get l x.2))) (views 0 (the_slots li)).

Lemma entries_keys li l : (slot_entries li l).*1 = slot_names (the_slots li).
Proof. unfold slot_entries. rewrite <- (views_names 0). change (@fmap list _) with (@map). by rewrite map_map. Qed.

Lemma fused_unpack_run li l (d : args) : (0 < f_layers f)%nat -> (0 < h)%nat -> (0 < li)%nat ->
  d !! pname = Some (mkNda [Z.to_nat (total_size f (Z.of_nat li))] l) ->
  fused_unpack pre pname f d = (Ok tt, ins (slot_entries li l) (delete pname d)).
Proof.
  intros HL Hh Hli Hd. destruct (slice_weights_ok li HL Hh Hli) as [Hsl Hsz].
  pose proof (slot_sum_nonneg (the_slots li) ltac:(apply slots_ok; lia)).
  unfold fused_unpack. rewrite bind_M. unfold pop at 1. rewrite Hd, bind_M. unfold lift. cbn [a_shape size foldr]. rewrite Nat.mul_1_r.
  rewrite Z2Nat.id by (rewrite <- (slots_sum pre f) by done; done).
  rewrite num_input_total, bind_M by done. unfold view_of. cbn [a_shape]. rewrite Hsl. apply puts_ins.
Qed.

(** Assigning to consecutive views. *)
Lemma assign_ok sl : Forall slot_ok sl -> forall vs p (arr : list F) (d d' : args),
  pops (slot_names sl) d = (Ok vs, d') -> Forall2 (fun x a => a_shape a = slot_dims x /\ length (a_flat a) = size (slot_dims x)) sl vs ->
  (p + Z.to_nat (slot_sum sl) <= length arr)%nat ->
  assign_loop (views p sl) arr d = (Ok (take p arr ++ concat (map a_flat vs) ++ drop (p + Z.to_nat (slot_sum sl)) arr), d').
Proof.
  induction 1 as [|x sl Hx Hl IH]; intros vs p arr d d' Ep H2 Hlen; inversion H2 as [|? a ? vs' [Ha Hla] H2']; subst; cbn [views assign_loop slot_sum] in *.
  - injection Ep as <-. cbn. rewrite Nat.add_0_r, take_drop. done.
  - change (slot_names (x :: sl)) with (x.1.1 :: slot_names sl) in Ep. cbn [pops] in Ep. rewrite bind_M in Ep. rewrite bind_M.
    destruct (pop x.1.1 d) as [[a0|e] d1]; [|done]. rewrite bind_M in Ep. destruct (pops (slot_names sl) d1) as [[l|e] d2] eqn:Ep'; [|done].
    injection Ep as -> -> ->. rewrite bind_M. unfold lift, a_assigned. cbn [v_shape]. rewrite bool_decide_eq_true_2 by done.
    assert (0 < x.1.2) by (destruct x as [[? ?] ?]; apply Hx). pose proof (slot_sum_nonneg sl Hl). rewrite Z2Nat.inj_add in Hlen |- * by lia.
    rewrite slot_dims_size in Hla by done. set (n := Z.to_nat x.1.2) in *. unfold view_set. cbn [v_off]. rewrite Hla.
    rewrite (IH vs' (p + n)%nat _ d1 d' Ep' H2').
    + f_equal. f_equal. cbn [map concat]. rewrite take_app_ge by (rewrite length_take; lia). rewrite length_take, Nat.min_l by lia.
      replace (p + n - p)%nat with n by lia. rewrite take_app_le by lia. rewrite (take_ge (a_flat a)) by lia.
      rewrite !app_assoc. f_equal. rewrite drop_app_ge by (rewrite length_app, length_take; lia). rewrite length_app, length_take, Nat.min_l by lia.
      rewrite drop_drop. f_equal. lia.
    + rewrite !length_app, length_take, length_drop. lia.
Qed.

Lemma first_slot li : (0 < f_layers f)%nat -> exists rest,
  the_slots li = ((pre +:+ "l0_i2h" +:+ default "" (head (mode_gates (f_mode f))) +:+ "_weight")%string, Z.of_nat li * Z.of_nat h, Some [Z.of_nat h; Z.of_nat li]) :: rest.
Proof.
  intros HL. unfold the_slots, slots, over_layers. destruct (f_layers f); [lia|]. cbn [seq map concat].
  unfold directions. destruct (f_bidirectional f); cbn [map concat]; unfold weight_slots; destruct (f_mode f); by eexists.
Qed.

(** Packing, from the weights that are popped. *)
Lemma fused_pack_run li vs (d d' : args) : (0 < f_layers f)%nat -> (0 < h)%nat -> (0 < li)%nat ->
  pops (slot_names (the_slots li)) d = (Ok vs, d') ->
  Forall2 (fun x a => a_shape a = slot_dims x /\ length (a_flat a) = size (slot_dims x)) (the_slots li) vs ->
  fused_pack zero pre pname f d = (Ok tt, <[pname := mkNda [Z.to_nat (total_size f (Z.of_nat li))] (concat (map a_flat vs))]> d').
Proof.
  intros HL Hh Hli Ep H2. destruct (slice_weights_ok li HL Hh Hli) as [Hsl Hsz].
  pose proof (slots_ok pre f (Z.of_nat li) (Z.of_nat h) ltac:(lia) ltac:(lia)) as Hok. fold (the_slots li) in Hok.
  assert (exists w0, d !! (pre +:+ "l0_i2h" +:+ default "" (head (mode_gates (f_mode f))) +:+ "_weight")%string = Some w0 /\ a_shape w0 = [h; li]) as (w0 & Hw0 & Hsh).
  { destruct (first_slot li HL) as [rest Er]. rewrite Er in Ep, H2. inversion H2 as [|? a ? ? [Ha _] _]; subst. exists a.
    cbn [slot_names map pops fst] in Ep. rewrite bind_M in Ep. unfold pop at 1 in Ep. destruct (d !! _) as [a0|]; [|done].
    rewrite bind_M in Ep. destruct (pops _ _) as [[l|e] d2]; [|done]. injection Ep as -> _. split; [done|]. rewrite Ha. unfold slot_dims. cbn [map snd]. by rewrite !Nat2Z.id. }
  unfold fused_pack. rewrite bind_M. cbn [get]. rewrite bind_M. unfold lift, py_getitem. rewrite Hw0, bind_M, Hsh. cbn [py_index].
  change (py_index [h; li] 1) with (Ok li). cbn beta iota.
  assert (0 < total_size f (Z.of_nat li)) as Hpos.
  { destruct (first_slot li HL) as [rest Er]. rewrite Er in Hsz, Hok. apply Forall_cons in Hok as [[Hp _] Hr]. pose proof (slot_sum_nonneg _ Hr). cbn [slot_sum fst snd] in Hsz. lia. }
  rewrite (proj2 (Z.leb_gt _ _)) by lia. rewrite bind_M, Hsl, bind_M.
  rewrite (assign_ok (the_slots li) Hok vs 0 _ d d' Ep H2) by (rewrite length_replicate; lia). rewrite put_run. do 4 f_equal.
  rewrite take_0. cbn [app]. rewrite drop_ge by (rewrite length_replicate; lia). apply app_nil_r.
Qed.

Lemma entries_shapes li l : (0 < h)%nat -> (0 < li)%nat -> Z.of_nat (length l) = slot_sum (the_slots li) ->
  Forall2 (fun x a => a_shape a = slot_dims x /\ length (a_flat a) = size (slot_dims x)) (the_slots li) (slot_entries li l).*2.
Proof.
  intros Hh Hli Hl. pose proof (slots_ok pre f (Z.of_nat li) (Z.of_nat h) ltac:(lia) ltac:(lia)) as Hok. fold (the_slots li) in Hok.
  unfold slot_entries. revert Hl. assert (forall p, (p + Z.to_nat (slot_sum (the_slots li)) <= length l)%nat ->
    Forall2 (fun x a => a_shape a = slot_dims x /\ length (a_flat a) = size (slot_dims x)) (the_slots li)
      (map (fun x => (x.1, mkNda (v_shape x.2) (view_get l x.2))) (views p (the_slots li))).*2) as Hg; [|intros; apply Hg; lia].
  induction Hok as [|x sl Hx Hl IH]; intros p Hp; cbn [views map fmap list_fmap]; constructor.
  - cbn [snd a_shape v_shape a_flat]. split; [done|]. unfold view_get. cbn [v_shape v_off snd]. rewrite length_take, length_drop.
    pose proof (slot_sum_nonneg sl Hl). assert (0 < x.1.2) by (destruct x as [[? ?] ?]; apply Hx).
    rewrite slot_dims_size by done. cbn [slot_sum] in Hp. lia.
  - apply IH. pose proof (slot_sum_nonneg sl Hl). assert (0 < x.1.2) by (destruct x as [[? ?] ?]; apply Hx). cbn [slot_sum] in Hp. lia.
Qed.

Lemma fused_pack_unpack li d : (0 < f_layers f)%nat -> (0 < h)%nat -> (0 < li)%nat -> fused_packed li d ->
  exists d', fused_unpack pre pname f d = (Ok tt, d') /\ fused_pack zero pre pname f d' = (Ok tt, d).
Proof.
  intros HL Hh Hli [(l & Hd & Hl) Hf]. eexists. split; [by apply (fused_unpack_run li l)|].
  destruct (slice_weights_ok li HL Hh Hli) as [_ Hsz]. rewrite <- Hl in Hsz.
  pose proof (slots_ok pre f (Z.of_nat li) (Z.of_nat h) ltac:(lia) ltac:(lia)) as Hok. fold (the_slots li) in Hok.
  rewrite (fused_pack_run li (slot_entries li l).*2 _ (delete pname d)); [|done..| |by apply entries_shapes].
  - f_equal. replace (concat (map a_flat (slot_entries li l).*2)) with l.
    + by apply insert_delete_id.
    + unfold slot_entries. change (@fmap list _) with (@map). rewrite !map_map. cbn [a_flat snd]. rewrite view_gets by done.
      rewrite drop_0. symmetry. apply take_ge. lia.
  - rewrite <- (entries_keys li l). apply pops_ins; rewrite entries_keys.
    + apply slots_NoDup.
    + intros n Hn. destruct (Hf n Hn) as [Hne Hnone]. by rewrite lookup_delete_ne by done.
Qed.

Lemma entries_concat li L : (0 < h)%nat -> (0 < li)%nat -> Forall2 (fun x y => length y = size (slot_dims x)) (the_slots li) L ->
  slot_entries li (concat L) = zip (slot_names (the_slots li)) (zip_with (fun x y => mkNda (slot_dims x) y) (the_slots li) L).
Proof.
  intros Hh Hli H2. pose proof (slots_ok pre f (Z.of_nat li) (Z.of_nat h) ltac:(lia) ltac:(lia)) as Hok. fold (the_slots li) in Hok.
  unfold slot_entries. assert (forall k : list F, map (fun x => (x.1, mkNda (v_shape x.2) (view_get (k ++ concat L) x.2))) (views (length k) (the_slots li))
    = zip (slot_names (the_slots li)) (zip_with (fun x y => mkNda (slot_dims x) y) (the_slots li) L)) as Hg; [|apply (Hg [])].
  induction H2 as [|x y sl L Hy H2 IH]; intros k; [done|]. apply Forall_cons in Hok as [Hx Hok].
  cbn [views map slot_names zip_with concat fst snd v_shape]. rewrite slot_dims_size in Hy by done. f_equal.
  - unfold view_get. cbn [v_shape v_off]. rewrite slot_dims_size, drop_app_length by done. rewrite take_app_le by lia. by rewrite take_ge by lia.
  - rewrite app_assoc. rewrite <- Hy. rewrite <- length_app. by apply IH.
Qed.

Lemma fused_unpack_pack li d : (0 < f_layers f)%nat -> (0 < h)%nat -> (0 < li)%nat -> fused_unpacked li d ->
  exists d', fused_pack zero pre pname f d = (Ok tt, d') /\ fused_unpack pre pname f d' = (Ok tt, d).
Proof.
  intros HL Hh Hli [(L & H2) [Hpn Hnone]]. set (vs := zip_with (fun x y => mkNda (slot_dims x) y) (the_slots li) L).
  pose proof (slots_NoDup pre f (Z.of_nat li) (Z.of_nat h)) as Hnd. fold (the_slots li) in Hnd.
  assert (Forall2 (fun k v => d !! k = Some v) (slot_names (the_slots li)) vs /\
          Forall2 (fun x a => a_shape a = slot_dims x /\ length (a_flat a) = size (slot_dims x)) (the_slots li) vs /\
          Forall2 (fun x y => length y = size (slot_dims x)) (the_slots li) L /\ map a_flat vs = L) as (Hv & Hs & HL2 & Hfl).
  { unfold vs. clear -H2. induction H2 as [|x y sl L [H1 H1'] _ (I1 & I2 & I3 & I4)]; cbn; split_and!; try constructor; try done. by f_equal. }
  destruct (pops_present _ vs d Hnd Hv) as [d1 Ep]. destruct (ins_pops _ _ _ _ Hnd Ep) as (Hins & Hlen & _).
  eexists. split; [by apply (fused_pack_run li vs d d1)|]. rewrite Hfl.
  rewrite (fused_unpack_run li (concat L)) by (done || by rewrite lookup_insert_eq). f_equal. rewrite entries_concat by done. fold vs.
  rewrite delete_insert_id; [done|]. rewrite <- (ins_lookup_ne (zip (slot_names (the_slots li)) vs)); [by rewrite Hins|].
  rewrite fst_zip; [done|]. rewrite Hlen. done.
Qed.
End FusedTrips.
