(* ===== verification/RNNUnfuse.v ===== *)
(** * Fused cells and the stacks that [unfuse] makes

    What [FusedRNNCell.unfuse] builds, and the exchange of weights between a fused cell and
    its stack: unpacking the vector and packing for the stack succeeds, and the way back
    restores the vector. *)

From Stdlib Require Import QArith Ascii String.
From stdpp Require Import strings.
From S2P Require Import Prelude NDArray Array Local Scope RNNCell RNNUnroll RNNNew RNNWeights RNNRoundtrip RNNFused.
Close Scope Q_scope.
Open Scope Z_scope.

(** ** The stack *)

(** A construction always succeeds, with a cell that satisfies [P]. *)
Definition yields {A} (m : M world A) (P : A -> Prop) : Prop := forall w, exists a w', m w = (Ok a, w') /\ P a.

Lemma yields_bind {A B} (m : M world A) (f : A -> M world B) P Q : yields m P -> (forall a, P a -> yields (f a) Q) -> yields (m ≫= f) Q.
Proof. intros Hm Hf w. rewrite bind_M. destruct (Hm w) as (a & w' & -> & Ha). by apply Hf. Qed.
Lemma yields_ret {A} (a : A) (P : A -> Prop) : P a -> yields (mret a) P.
Proof. intros Ha w. by eexists _, _. Qed.
Lemma yields_any {A} (m : M world A) : (forall w, exists a w', m w = (Ok a, w')) -> yields m (fun _ => True).
Proof. intros Hm w. destruct (Hm w) as (a & w' & E). by eexists _, _. Qed.
Lemma yields_impl {A} (m : M world A) (P Q : A -> Prop) : yields m P -> (forall a, P a -> Q a) -> yields m Q.
Proof. intros Hm HPQ w. destruct (Hm w) as (a & w' & E & Ha). eauto 10. Qed.

Lemma base_new_yields pre params : yields (base_new pre params) (fun h => _prefix h = pre).
Proof. intros w. destruct params; by eexists _, _. Qed.
Lemma own_get_yields h name kw : yields (own_get h name kw) (fun _ => True).
Proof.
  apply yields_any. intros w. unfold own_get. rewrite bind_M. cbn. unfold params_get. rewrite bind_M. cbn.
  destruct (pp_vars _ !! _); by eexists _, _.
Qed.
Lemma params_of_yields c : yields (params_of c) (fun _ => True).
Proof.
  induction c as [| | | |h base po ps IH|h base IH|] using cell_rect'; intros w0; cbn [params_of]; rewrite bind_M; cbn; try (by eexists _, _); apply IH.
Qed.
Lemma params_update_yields p q : yields (params_update p q) (fun _ => True).
Proof. intros w. by eexists _, _. Qed.

Ltac yield := repeat (eapply yields_bind; [first [apply base_new_yields | apply own_get_yields | apply params_of_yields | apply params_update_yields]|intros ? ?]).

Lemma get_cell_yields f p : yields (get_cell f p)
  (fun c => groups_of c = map (mkGroup p (f_hidden f) (mode_gates (f_mode f))) groups /\ unfused c = true).
Proof.
  unfold get_cell. destruct (f_mode f); unfold RNNCell_new, LSTMCell_new, GRUCell_new; yield; apply yields_ret; cbn in *; by subst.
Qed.

Lemma bi_new_yields l r op : yields (BidirectionalCell_new l r None op) (fun c => groups_of c = groups_of l ++ groups_of r /\ unfused c = unfused l && unfused r).
Proof.
  unfold BidirectionalCell_new. eapply yields_bind; [apply base_new_yields|]. intros h _. cbn [is_some].
  eapply yields_bind; [by apply (yields_ret tt (fun _ => True))|]. intros _ _. yield. apply yields_ret. cbn. by rewrite app_nil_r.
Qed.

(** What the loop of [unfuse] keeps. *)
Definition stack_of (gs : list wgroup) (c : cell) : Prop :=
  exists h cells, c = SequentialRNNCell h false cells /\ unfused c = true /\ groups_of c = gs.

Lemma add_yields gs stack c : stack_of gs stack -> unfused c = true -> yields (add_or_raise stack c) (stack_of (gs ++ groups_of c)).
Proof.
  intros (h & cells & -> & Hu & Hg) Hc. unfold add_or_raise.
  apply (yields_bind _ _ (fun x => x.2 = Ok tt /\ stack_of (gs ++ groups_of c) x.1)).
  - unfold seq_add. eapply (yields_bind _ _ (fun _ => True)); [intros w; by eexists _, _|]. intros w _. cbn [andb].
    eapply yields_bind; [by apply (yields_ret tt (fun _ => True))|]. intros _ _. yield. apply yields_ret. split; [done|].
    exists h, (cells ++ [c]). split; [done|]. cbn in *. rewrite forallb_app, map_app, concat_app. cbn. rewrite Hu, Hc, app_nil_r. by subst.
  - intros [s r] [Hr Hs]. cbn in Hr, Hs. subst r. eapply (yields_bind _ _ (fun _ => True)); [intros w; by eexists _, _|]. intros _ _. by apply yields_ret.
Qed.

Definition layer_groups (pre : string) (f : fused) (i : nat) (dir : string) : list wgroup :=
  map (mkGroup (pre +:+ dir +:+ dec (Z.of_nat i) +:+ "_") (f_hidden f) (mode_gates (f_mode f))) groups.

Lemma unfuse_layer_yields pre f gs stack i : stack_of gs stack ->
  yields (unfuse_layer pre f stack i) (stack_of (gs ++ concat (map (layer_groups pre f i) (directions f)))).
Proof.
  intros Hs. unfold unfuse_layer.
  apply (yields_bind _ _ (fun c => unfused c = true /\ groups_of c = concat (map (layer_groups pre f i) (directions f)))).
  { unfold directions. destruct (f_bidirectional f).
    - eapply yields_bind; [apply get_cell_yields|]. intros l [Hl Hul]. eapply yields_bind; [apply get_cell_yields|]. intros r [Hr Hur].
      eapply yields_impl; [apply bi_new_yields|]. intros c [Hg Hu]. rewrite Hu, Hul, Hur, Hg, Hl, Hr. done.
    - eapply yields_impl; [apply get_cell_yields|]. intros c [Hg Hu]. rewrite Hu, Hg. done. }
  intros c [Hu Hg]. eapply yields_bind; [by apply (add_yields gs)|]. intros stack' Hs'. rewrite Hg in Hs'.
  destruct (gt0 _ && _); [|by apply yields_ret]. unfold DropoutCell_new. rewrite <- (app_nil_r (gs ++ _)).
  eapply (yields_bind _ _ (fun d => unfused d = true /\ groups_of d = [])).
  { eapply yields_bind; [apply base_new_yields|]. intros h _. by apply yields_ret. }
  intros d [Hud Hgd]. rewrite <- Hgd. by apply add_yields.
Qed.

Lemma unfuse_yields pre f : yields (unfuse pre f) (stack_of (over_layers f (layer_groups pre f))).
Proof.
  unfold unfuse, over_layers. eapply (yields_bind _ _ (stack_of [])).
  { unfold SequentialRNNCell_new. yield. apply yields_ret. by eexists _, _. }
  intros stack Hs. rewrite <- (app_nil_l (concat _)). revert stack Hs. generalize (@nil wgroup).
  induction (seq 0 (f_layers f)) as [|i l IH]; intros gs stack Hs; cbn [foldM map concat]; [rewrite app_nil_r; by apply yields_ret|].
  eapply yields_bind; [by apply unfuse_layer_yields|]. intros stack' Hs'. rewrite app_assoc. by apply IH.
Qed.

(** ** The weights *)

(** The rest of a name, for the arrays of a group and its packed arrays. *)
Definition group_rests (f : fused) (group : string) : list string :=
  remove_dups ((group +:+ "" +:+ "_weight") :: (group +:+ "" +:+ "_bias")
    :: concat (map (fun g => [group +:+ g +:+ "_weight"; group +:+ g +:+ "_bias"]) (mode_gates (f_mode f)))).

Lemma remove_dups_map {A B} `{EqDecision A, EqDecision B} (g : A -> B) l : (forall x y, g x = g y -> x = y) -> remove_dups (map g l) = map g (remove_dups l).
Proof.
  intros Hg. induction l as [|x l IH]; [done|]. cbn [map remove_dups]. rewrite IH.
  case_decide as H1; case_decide as H2; try done; exfalso.
  - apply list_elem_of_fmap in H1 as (y & E & Hy). apply Hg in E as ->. done.
  - apply H1. apply list_elem_of_fmap. eauto.
Qed.

Lemma group_keys_rests pre f k dir group :
  group_keys (mkGroup (pre +:+ dir +:+ dec (Z.of_nat k) +:+ "_") (f_hidden f) (mode_gates (f_mode f)) group)
    = map (fun r => tname pre (k, dir, r)) (group_rests f group).
Proof.
  unfold group_keys, group_rests. cbn [g_pre g_group g_gates].
  rewrite <- (remove_dups_map (fun r => tname pre (k, dir, r))).
  - f_equal. unfold wname, bname, tname. cbn [map fst snd]. rewrite !app_assoc_str. do 2 f_equal.
    unfold gate_keys, wname, bname. rewrite concat_map, map_map. f_equal. apply map_ext. intros g. cbn [map]. by rewrite !app_assoc_str.
  - intros r r' E. unfold tname in E. cbn [fst snd] in E. by repeat apply app_inv_head_str in E.
Qed.

Lemma group_rests_NoDup f : NoDup (group_rests f "i2h" ++ group_rests f "h2h").
Proof. unfold group_rests. destruct (f_mode f); apply (bool_decide_unpack _); vm_compute; exact I. Qed.

Lemma layers_keys pre f : concat (map group_keys (over_layers f (layer_groups pre f))) = map (tname pre) (triples f (group_rests f "i2h" ++ group_rests f "h2h")).
Proof.
  unfold triples, over_layers. rewrite !concat_map, !map_map.
  induction (seq 0 (f_layers f)) as [|k l IH]; cbn [map concat]; [done|]. rewrite concat_app, IH. f_equal. clear IH.
  rewrite !concat_map, !map_map. induction (directions f) as [|dir ds IH]; cbn [map concat]; [done|]. rewrite concat_app, IH. f_equal. clear IH.
  unfold layer_groups, groups. cbn [map concat]. rewrite !group_keys_rests, app_nil_r, !map_map, map_app. done.
Qed.

Section Exchange.
Context {F : Type} (zero : F) (pre pname : string) (f : fused) (li : nat).
Notation args := (gmap string (nda F)).
Notation h := (f_hidden f).
Context (HL : (0 < f_layers f)%nat) (Hh : (0 < h)%nat) (Hli : (0 < li)%nat).

Lemma ins_elem (kvs : list (string * nda F)) : forall d k v, NoDup kvs.*1 -> (k, v) ∈ kvs -> ins kvs d !! k = Some v.
Proof.
  induction kvs as [|[k0 v0] kvs IH]; intros d k v Hnd Hin; [by apply elem_of_nil in Hin|]. cbn in *. apply NoDup_cons in Hnd as [Hk Hnd].
  apply elem_of_cons in Hin as [[= <- <-]|Hin]; [|by apply IH]. by rewrite ins_insert, lookup_insert_eq.
Qed.

(** What unpacking the vector gives: the array of every slot, and nothing else changes. *)
Lemma fused_unpack_slots (d : args) : fused_packed pre pname f li d ->
  exists d1, fused_unpack pre pname f d = (Ok tt, d1) /\
    (forall x, x ∈ the_slots pre f li -> exists y, d1 !! x.1.1 = Some (mkNda (slot_dims x) y) /\ length y = size (slot_dims x)) /\
    (forall k, k ∉ slot_names (the_slots pre f li) -> k <> pname -> d1 !! k = d !! k).
Proof.
  intros [(l & Hd & Hl) Hf]. eexists. split; [by apply (fused_unpack_run pre pname f li l)|]. split.
  - intros x Hx. apply list_elem_of_lookup in Hx as [i Hi].
    pose proof (entries_shapes pre f li l Hh Hli) as He. destruct (slice_weights_ok pre f li HL Hh Hli) as [_ Hsz]. rewrite <- Hl in Hsz.
    destruct (Forall2_lookup_l _ _ _ _ _ (He Hsz) Hi) as ([s y] & Ha & Hs & Hy). cbn in Hs, Hy. subst s. exists y. split; [|done].
    apply ins_elem; [rewrite entries_keys; apply slots_NoDup|].
    assert ((slot_entries pre f li l).*1 !! i = Some x.1.1) as Hk by (rewrite entries_keys; unfold slot_names; by rewrite list_lookup_fmap, Hi).
    apply list_elem_of_lookup_2 with i. rewrite list_lookup_fmap in Ha. rewrite list_lookup_fmap in Hk. destruct (slot_entries pre f li l !! i) as [[k v]|]; [|done].
    cbn in Ha, Hk. by injection Ha as <-; injection Hk as <-.
  - intros k Hk Hn. rewrite ins_lookup_ne by (by rewrite entries_keys). by rewrite lookup_delete_ne.
Qed.

Lemma choice_list {A B} (P : A -> B -> Prop) l : (forall a, a ∈ l -> exists b, P a b) -> exists k, Forall2 P l k.
Proof.
  induction l as [|a l IH]; intros HP; [by exists []|]. destruct (HP a ltac:(left)) as [b Hb].
  destruct IH as [k Hk]; [intros a' Ha'; apply HP; by right|]. exists (b :: k). by constructor.
Qed.

(** The slots of a group. *)
Definition in_dim (group : string) (k : nat) : Z :=
  if str_eqb group "i2h" then (if (0 <? k)%nat then nb f * Z.of_nat h else Z.of_nat li) else Z.of_nat h.
Lemma group_slots k dir group g : (k < f_layers f)%nat -> dir ∈ directions f -> group ∈ groups -> g ∈ mode_gates (f_mode f) ->
  (exists sz, (slot_name pre dir k group g "_weight", sz, Some [Z.of_nat h; in_dim group k]) ∈ the_slots pre f li) /\
  (exists sz, (slot_name pre dir k group g "_bias", sz, None) ∈ the_slots pre f li /\ sz = Z.of_nat h).
Proof.
  intros Hk Hd Hg Hga. unfold the_slots, slots. split.
  - assert (exists sz, (slot_name pre dir k group g "_weight", sz, Some [Z.of_nat h; in_dim group k]) ∈ weight_slots pre f (Z.of_nat li) (Z.of_nat h) k dir) as [sz Hs].
    { unfold weight_slots, groups in *. fold (nb f). apply elem_of_cons in Hg as [->|Hg]; [|apply list_elem_of_singleton in Hg as ->].
      - exists (if (0 <? k)%nat then nb f * Z.of_nat h * Z.of_nat h else Z.of_nat li * Z.of_nat h). apply elem_of_app. left.
        apply list_elem_of_fmap. exists g. split; [|done]. unfold in_dim. cbn. by destruct k.
      - eexists. apply elem_of_app. right. apply list_elem_of_fmap. exists g. split; [|done]. reflexivity. }
    exists sz. apply elem_of_app. left. apply elem_over_layers. eauto.
  - exists (Z.of_nat h). split; [|done]. apply elem_of_app. right. apply elem_over_layers. exists k, dir. split_and!; [done|done|].
    unfold bias_slots, groups in *. apply elem_of_cons in Hg as [->|Hg]; [|apply list_elem_of_singleton in Hg as ->]; apply elem_of_app; [left|right];
      apply list_elem_of_fmap; exists g; done.
Qed.

(** The names of the arrays of all groups, packed or not. *)
Definition stack_names : list string := map (tname pre) (triples f (group_rests f "i2h" ++ group_rests f "h2h")).

Lemma slot_names_stack n : n ∈ slot_names (the_slots pre f li) -> n ∈ stack_names.
Proof.
  unfold the_slots. rewrite slots_names. intros Hn.
  assert (exists suffix, (suffix = "_weight" \/ suffix = "_bias")%string /\ n ∈ map (tname pre) (triples f (rests f suffix))) as (sf & Hsf & Hn').
  { apply elem_of_app in Hn as [Hn|Hn]; eauto. }
  apply list_elem_of_fmap in Hn' as ([[k d] r] & -> & (Hk & Hd & Hr)%elem_triples).
  apply list_elem_of_fmap. exists (k, d, r). split; [done|]. apply elem_triples. split_and!; [done|done|].
  unfold rests in Hr. unfold group_rests. rewrite elem_of_app, !elem_of_remove_dups, !elem_of_cons.
  apply elem_of_app in Hr as [(g & -> & Hg)%list_elem_of_fmap|(g & -> & Hg)%list_elem_of_fmap]; [left|right]; right; right;
    apply list_elem_of_In, in_concat; eexists; (split; [apply in_map; by apply list_elem_of_In|]); destruct Hsf as [-> | ->]; cbn; auto.
Qed.

(** A packed name that is the name of a slot is the name of an array of a gate. *)
Lemma packed_slot k dir group suffix : (k < f_layers f)%nat -> dir ∈ directions f -> group ∈ groups -> (suffix = "_weight" \/ suffix = "_bias")%string ->
  tname pre (k, dir, group +:+ "" +:+ suffix)%string ∈ slot_names (the_slots pre f li) -> ""%string ∈ mode_gates (f_mode f).
Proof.
  intros Hk Hd Hg Hs. unfold the_slots. rewrite slots_names. intros Hin.
  assert (exists r, r ∈ rests f "_weight" ++ rests f "_bias" /\ (group +:+ "" +:+ suffix)%string = r) as (r & Hr & Er).
  { apply elem_of_app in Hin as [([[k' d'] r] & E & (_ & Hd' & Hr)%elem_triples)%list_elem_of_fmap|([[k' d'] r] & E & (_ & Hd' & Hr)%elem_triples)%list_elem_of_fmap];
      apply tname_inj in E; try (by eapply directions_lr); injection E as _ _ E; exists r; (split; [apply elem_of_app; auto|done]). }
  subst r. revert Hr. unfold groups in Hg. apply elem_of_cons in Hg as [->|Hg]; [|apply list_elem_of_singleton in Hg as ->]; destruct Hs as [-> | ->];
    unfold rests; destruct (f_mode f); cbn; set_solver.
Qed.

Lemma stack_unpacked (d d1 : args) : (forall k, k ∈ stack_names -> k <> pname /\ d !! k = None) ->
  (forall x, x ∈ the_slots pre f li -> exists y, d1 !! x.1.1 = Some (mkNda (slot_dims x) y) /\ length y = size (slot_dims x)) ->
  (forall k, k ∉ slot_names (the_slots pre f li) -> k <> pname -> d1 !! k = d !! k) ->
  forall g, g ∈ over_layers f (layer_groups pre f) -> g_unpacked g d1.
Proof.
  intros Hn Hsl Hrest g Hg. apply elem_over_layers in Hg as (k & dir & Hk & Hd & (group & -> & Hgr)%list_elem_of_fmap).
  unfold g_unpacked. cbn [g_pre g_group g_hidden g_gates].
  assert (forall group g suffix, (pre +:+ dir +:+ dec (Z.of_nat k) +:+ "_") +:+ group +:+ g +:+ suffix = slot_name pre dir k group g suffix)%string as Hname
    by (intros; unfold slot_name; by rewrite !app_assoc_str).
  split.
  - exists [Z.to_nat (in_dim group k)].
    destruct (choice_list (fun g y => d1 !! wname (pre +:+ dir +:+ dec (Z.of_nat k) +:+ "_") group g = Some (mkNda [h; Z.to_nat (in_dim group k)] y)
                /\ length y = (h * size [Z.to_nat (in_dim group k)])%nat) (mode_gates (f_mode f))) as [L HLs].
    { intros g Hg. destruct (group_slots k dir group g Hk Hd Hgr Hg) as [[sz Hs] _]. destruct (Hsl _ Hs) as (y & Hy & Hly).
      exists y. unfold wname. rewrite Hname. unfold slot_dims in *. cbn [fst snd map] in *. rewrite Nat2Z.id in *. done. }
    destruct (choice_list (fun g y => d1 !! bname (pre +:+ dir +:+ dec (Z.of_nat k) +:+ "_") group g = Some (mkNda [h] y)
                /\ length y = (h * size [])%nat) (mode_gates (f_mode f))) as [L' HLs'].
    { intros g Hg. destruct (group_slots k dir group g Hk Hd Hgr Hg) as [_ (sz & Hs & ->)]. destruct (Hsl _ Hs) as (y & Hy & Hly).
      exists y. unfold bname. rewrite Hname. unfold slot_dims in *. cbn [fst snd map] in *. rewrite Nat2Z.id in *. done. }
    exists L, [], L'. split_and!.
    + clear -HLs. induction HLs as [|? ? ? ? [? ?]]; by constructor.
    + clear -HLs'. induction HLs' as [|? ? ? ? [? ?]]; by constructor.
    + eapply Forall2_impl; [exact HLs|]. by intros ? ? [? _].
    + eapply Forall2_impl; [exact HLs'|]. by intros ? ? [? _].
  - intros n HnWB Hnk.
    assert (exists suffix, (suffix = "_weight" \/ suffix = "_bias")%string /\ n = tname pre (k, dir, group +:+ "" +:+ suffix)%string) as (sf & Hsf & En).
    { destruct HnWB as [-> | ->]; [exists "_weight"%string|exists "_bias"%string]; (split; [auto|]); unfold wname, bname; rewrite Hname; done. }
    assert (n ∈ stack_names) as Hst.
    { subst n. apply list_elem_of_fmap. eexists. split; [reflexivity|]. apply elem_triples. split_and!; [done|done|].
      unfold groups in Hgr. unfold group_rests. rewrite elem_of_app, !elem_of_remove_dups, !elem_of_cons.
      apply elem_of_cons in Hgr as [->|Hgr]; [|apply list_elem_of_singleton in Hgr as ->]; destruct Hsf as [-> | ->]; auto. }
    destruct (Hn n Hst) as [Hne Hnone]. rewrite Hrest; [done| |done]. intros Hin. apply Hnk. subst n.
    apply (packed_slot k dir group sf Hk Hd Hgr Hsf) in Hin. apply elem_gate_keys. exists ""%string. split; [done|]. naive_solver.
Qed.
End Exchange.

(** C10: the stack that [unfuse] makes can take over the weights of the fused cell: unpacking
    the vector and packing for the stack succeeds, and unpacking and packing back restores the
    vector, for every mode, number of layers and directions. *)
Theorem unfuse_exchange {F} (zero : F) hd param f li (d : gmap string (nda F)) w :
  (0 < f_layers f)%nat -> (0 < f_hidden f)%nat -> (0 < li)%nat ->
  (exists l, d !! sym_str param = Some (mkNda [Z.to_nat (total_size f (Z.of_nat li))] l) /\ length l = Z.to_nat (total_size f (Z.of_nat li))) ->
  (forall k, k ∈ stack_names (_prefix hd) f -> k <> sym_str param /\ d !! k = None) ->
  exists stack w' d1 d2, unfuse (_prefix hd) f w = (Ok stack, w') /\
    unpack_weights (FusedRNNCell hd f param) d = Ok d1 /\ pack_weights zero stack d1 = Ok d2 /\
    unpack_weights stack d2 = Ok d1 /\ pack_weights zero (FusedRNNCell hd f param) d1 = Ok d.
Proof.
  intros HL Hh Hli Hv Hn. destruct (unfuse_yields (_prefix hd) f w) as (stack & w' & Eu & (sh & cells & Est & Hunf & Hgs)).
  assert (fused_packed (_prefix hd) (sym_str param) f li d) as Hpk.
  { split; [done|]. intros n Hin. by apply Hn, slot_names_stack with li. }
  destruct (fused_unpack_slots (_prefix hd) (sym_str param) f li HL Hh Hli d Hpk) as (d1 & E1 & Hsl & Hrest).
  destruct (fused_pack_unpack zero (_prefix hd) (sym_str param) f li d HL Hh Hli Hpk) as (d1' & E1' & E4).
  rewrite E1 in E1'. injection E1' as <-.
  destruct (groups_unpack_pack (groups_of stack) d1) as (d2 & E2 & E3).
  - apply groups_wf. rewrite Hgs. apply Forall_forall. intros g (k & dir & _ & _ & (x & -> & _)%list_elem_of_fmap)%elem_over_layers. done.
  - rewrite Hgs, layers_keys. apply tnames_NoDup, group_rests_NoDup.
  - rewrite Hgs. by eapply stack_unpacked.
  - exists stack, w', d1, d2. unfold unpack_weights, pack_weights, run_dict. cbn [unpack pack].
    rewrite Eu, E1, (pack_groups zero stack Hunf), E2, (unpack_groups stack Hunf), E3, E4. done.
Qed.

Definition ex_fused : fused := mkFused 1 2 gru true (1 # 2)%Q false.
Definition ex_total : nat := Z.to_nat (total_size ex_fused 3).
Definition ex_vector : gmap string (nda Z) := {[ "f_parameters"%string := mkNda [ex_total] (map Z.of_nat (seq 0 ex_total)) ]}.
Lemma ex_fresh : Forall (fun k => k <> "f_parameters"%string /\ ex_vector !! k = None) (stack_names "f_" ex_fused).
Proof. apply (bool_decide_unpack _). vm_compute. exact I. Qed.
Lemma unfuse_exchange_witness : exists stack w' d1 d2, unfuse "f_" ex_fused (mkWorld ∅ ∅ 0) = (Ok stack, w') /\
    unpack_weights (FusedRNNCell (mkHdr 0 "f_" 0) ex_fused (Var "f_parameters" [])) ex_vector = Ok d1 /\ pack_weights 0 stack d1 = Ok d2 /\
    unpack_weights stack d2 = Ok d1 /\ pack_weights 0 (FusedRNNCell (mkHdr 0 "f_" 0) ex_fused (Var "f_parameters" [])) d1 = Ok ex_vector.
Proof.
  apply (unfuse_exchange 0 (mkHdr 0 "f_" 0) (Var "f_parameters" []) ex_fused 3).
  - cbn. lia.
  - cbn. lia.
  - lia.
  - exists (map Z.of_nat (seq 0 ex_total)). split; [apply lookup_singleton_eq|]. vm_compute. reflexivity.
  - apply Forall_forall. exact ex_fresh.
Defined.
