(* ===== verification/Checkpoint.v ===== *)
(** * Checkpoints

    [save_checkpoint] and [load_checkpoint] of [model.py], the versions for recurrent cells of
    [rnn/rnn.py], which unpack the weights before saving and pack them after loading, and the
    callbacks that checkpoint every few epochs ([callback.py], [rnn/rnn.py]).  Files are a
    store by name; [nd.save], [nd.load], [Symbol.save] and [sym.load] write and read whole
    files, and a dict without entries is read back as a list. *)

From Stdlib Require Import Ascii String.
From stdpp Require Import strings pretty.
From S2P Require Import Prelude Array Scope RNNCell RNNUnroll RNNWeights RNNRoundtrip.
Open Scope Z_scope.

Section Checkpoint.
Context {F Symbol : Type} (zero : F).
Notation args := (gmap string (nda F)).

Inductive file := FParams (d : args) | FSymbol (s : Symbol).
Notation files := (gmap string file).

(** ['%04d' % n] *)
Definition pad4 (n : Z) : string := string_of_list_ascii (replicate (4 - String.length (dec n)) "0"%char ++ chars (dec n)).
Definition symbol_file (prefix : string) : string := prefix +:+ "-symbol.json".
Definition params_file (prefix : string) (epoch : Z) : string := prefix +:+ "-" +:+ pad4 epoch +:+ ".params".

Definition write_file (name : string) (f : file) : M files unit := modify (<[name := f]>).

(** [save_checkpoint]: the arguments and the auxiliary states with a prefix each, in one file. *)
Definition save_dict (arg aux : args) : args :=
  kmap (fun k => "aux:" +:+ k)%string aux ∪ kmap (fun k => "arg:" +:+ k)%string arg.
Definition save_checkpoint (prefix : string) (epoch : Z) (symbol : option Symbol) (arg aux : args) : M files unit :=
  _ ← match symbol with Some s => write_file (symbol_file prefix) (FSymbol s) | None => mret tt end;
  write_file (params_file prefix epoch) (FParams (save_dict arg aux)).

(** [k.split(':', 1)] into two parts. *)
Fixpoint split1 (s : list ascii) (acc : list ascii) : result (string * string) :=
  match s with
  | [] => Raise ValueError
  | c :: s =>
      if bool_decide (c = ":"%char) then Ok (string_of_list_ascii (reverse acc), string_of_list_ascii s)
      else split1 s (c :: acc)
  end.
Definition split_entry (x : string * nda F) : result (string * string * nda F) :=
  '(tp, name) ← split1 (chars x.1) []; Ok (tp, name, x.2).
(** The entries of one kind. *)
Definition entries_of (kind : string) (l : list (string * string * nda F)) : args :=
  list_to_map (omap (fun x => if str_eqb x.1.1 kind then Some (x.1.2, x.2) else None) l).

(** [load_checkpoint] *)
Definition load_checkpoint (prefix : string) (epoch : Z) (fs : files) : result (Symbol * args * args) :=
  s ← match fs !! symbol_file prefix with Some (FSymbol s) => Ok s | _ => Raise MXNetError end;
  d ← match fs !! params_file prefix epoch with Some (FParams d) => Ok d | _ => Raise MXNetError end;
  if bool_decide (d = ∅) then Raise AttributeError
  else
    l ← mapR split_entry (map_to_list d);
    Ok (s, entries_of "arg" l, entries_of "aux" l).

(** [save_rnn_checkpoint] and [load_rnn_checkpoint] for a list of cells. *)
Definition unpack_all (cells : list cell) (arg : args) : result args := foldl (fun r c => d ← r; unpack_weights c d) (Ok arg) cells.
Definition pack_all (cells : list cell) (arg : args) : result args := foldl (fun r c => d ← r; pack_weights zero c d) (Ok arg) cells.
Definition save_rnn_checkpoint (cells : list cell) (prefix : string) (epoch : Z) (symbol : option Symbol) (arg aux : args) : M files unit :=
  arg ← lift (unpack_all cells arg); save_checkpoint prefix epoch symbol arg aux.
Definition load_rnn_checkpoint (cells : list cell) (prefix : string) (epoch : Z) (fs : files) : result (Symbol * args * args) :=
  '(s, arg, aux) ← load_checkpoint prefix epoch fs;
  arg ← pack_all cells arg;
  Ok (s, arg, aux).

(** The callbacks of [do_checkpoint] and [do_rnn_checkpoint]. *)
Definition every (period : Z) (save : Z -> M files unit) (iter_no : Z) : M files unit :=
  let period := Z.max 1 period in
  if (iter_no + 1) mod period =? 0 then save (iter_no + 1) else mret tt.
Definition do_checkpoint (prefix : string) (period : Z) (iter_no : Z) (sym : option Symbol) (arg aux : args) : M files unit :=
  every period (fun epoch => save_checkpoint prefix epoch sym arg aux) iter_no.
Definition do_rnn_checkpoint (cells : list cell) (prefix : string) (period : Z) (iter_no : Z) (sym : option Symbol) (arg aux : args) : M files unit :=
  every period (fun epoch => save_rnn_checkpoint cells prefix epoch sym arg aux) iter_no.

(** ** Names of files *)

(** The number a string of digits stands for. *)
Definition val (l : list ascii) (n : N) : N := foldl (fun a c => a * 10 + (N_of_ascii c - 48))%N n l.

Lemma val_go x : forall s, val (chars (pretty_N_go x s)) 0 = val (chars s) x.
Proof.
  induction (N.lt_wf_0 x) as [x _ IH]. intros s. destruct (decide (x = 0)%N) as [->|Hx]; [by rewrite pretty_N_go_0|].
  rewrite pretty_N_go_step by lia. rewrite IH by (apply N.div_lt; lia). unfold val. cbn [list_ascii_of_string foldl].
  f_equal. pose proof (N.div_mod x 10 ltac:(lia)) as Hd. pose proof (N.mod_lt x 10 ltac:(lia)) as Hm.
  assert (N_of_ascii (pretty_N_char (x mod 10)) - 48 = x mod 10)%N as ->; [|lia].
  revert Hm. generalize (x mod 10)%N. intros d Hd'.
  assert (d = 0 \/ d = 1 \/ d = 2 \/ d = 3 \/ d = 4 \/ d = 5 \/ d = 6 \/ d = 7 \/ d = 8 \/ d = 9)%N as Hc by lia.
  repeat (destruct Hc as [->|Hc]; [done|]). by subst.
Qed.

Lemma val_pad4 n : val (chars (pad4 n)) 0 = Z.to_N n.
Proof.
  unfold pad4. rewrite list_ascii_of_string_of_list_ascii. unfold val at 1. rewrite foldl_app.
  assert (forall k, foldl (fun a c => a * 10 + (N_of_ascii c - 48))%N 0%N (replicate k "0"%char) = 0%N) as -> by (induction k; done).
  change (val (chars (dec n)) 0 = Z.to_N n). unfold dec, pretty, pretty_N. case_decide as Hz; [by rewrite Hz|].
  by rewrite val_go.
Qed.

Lemma params_file_inj prefix e e' : 0 <= e -> 0 <= e' -> params_file prefix e = params_file prefix e' -> e = e'.
Proof.
  intros He He' E. unfold params_file in E. do 2 apply app_inv_head_str in E. apply app_inv_tail_str in E.
  apply (f_equal (fun s => val (chars s) 0)) in E. rewrite !val_pad4 in E. lia.
Qed.
Lemma params_not_symbol prefix e : params_file prefix e <> symbol_file prefix.
Proof. unfold params_file, symbol_file. rewrite <- !app_assoc_str. by eapply last_differs. Qed.

(** ** Loading what was saved *)

Lemma split_arg n : split1 (chars ("arg:" +:+ n)) [] = Ok ("arg", n)%string.
Proof. change (Ok ("arg"%string, string_of_list_ascii (chars n)) = Ok ("arg"%string, n)). by rewrite string_of_list_ascii_of_string. Qed.
Lemma split_aux n : split1 (chars ("aux:" +:+ n)) [] = Ok ("aux", n)%string.
Proof. change (Ok ("aux"%string, string_of_list_ascii (chars n)) = Ok ("aux"%string, n)). by rewrite string_of_list_ascii_of_string. Qed.

Lemma elem_save_dict (arg aux : args) k v :
  (k, v) ∈ map_to_list (save_dict arg aux) <-> (exists n, k = ("arg:" +:+ n)%string /\ arg !! n = Some v) \/ (exists n, k = ("aux:" +:+ n)%string /\ aux !! n = Some v).
Proof.
  rewrite elem_of_map_to_list. unfold save_dict.
  assert ((kmap (fun k => "aux:" +:+ k)%string aux : args) ##ₘ kmap (fun k => "arg:" +:+ k)%string arg) as Hdis.
  { apply map_disjoint_spec. intros i x y (n & -> & _)%lookup_kmap_Some (m & E & _)%lookup_kmap_Some; [|apply _..]. done. }
  rewrite (lookup_union_Some _ _ _ _ Hdis), !lookup_kmap_Some by apply _. naive_solver.
Qed.

Definition cut (x : string * nda F) : string * string * nda F :=
  (string_of_list_ascii (take 3 (chars x.1)), string_of_list_ascii (drop 4 (chars x.1)), x.2).

Lemma drop_arg n : string_of_list_ascii (drop 4 (chars ("arg:" +:+ n))) = n.
Proof. change (string_of_list_ascii (chars n) = n). apply string_of_list_ascii_of_string. Qed.
Lemma drop_aux n : string_of_list_ascii (drop 4 (chars ("aux:" +:+ n))) = n.
Proof. change (string_of_list_ascii (chars n) = n). apply string_of_list_ascii_of_string. Qed.

Lemma split_entries (arg aux : args) : mapR split_entry (map_to_list (save_dict arg aux)) =
  Ok (map cut (map_to_list (save_dict arg aux))).
Proof.
  apply mapR_ok. intros [k v] [(n & -> & _)|(n & -> & _)]%elem_save_dict; unfold split_entry, cut; cbn [fst snd];
    rewrite ?split_arg, ?split_aux, ?drop_arg, ?drop_aux; done.
Qed.

Lemma entries_back (l : list (string * nda F)) kind (d : args) :
  (forall n v, d !! n = Some v <-> exists k, (k, v) ∈ l /\ string_of_list_ascii (take 3 (chars k)) = kind /\ string_of_list_ascii (drop 4 (chars k)) = n) ->
  entries_of kind (map cut l) = d.
Proof.
  intros Hd. unfold entries_of. set (e := omap _ _).
  assert (forall n v, (n, v) ∈ e <-> d !! n = Some v) as He.
  { intros n v. rewrite Hd. unfold e. rewrite list_elem_of_omap. split.
    - intros (x & ([k y] & -> & Hk)%list_elem_of_fmap & E). cbn in E. unfold str_eqb in E. case_bool_decide as Hb; [|done]. injection E as <- <-. eauto.
    - intros (k & Hk & <- & <-). exists (cut (k, v)). split; [apply list_elem_of_fmap; eauto|]. cbn. unfold str_eqb. by rewrite bool_decide_eq_true_2. }
  apply map_eq. intros n. destruct (d !! n) as [v|] eqn:E.
  - apply elem_of_list_to_map_1'; [|by apply He]. intros y Hy. apply He in Hy. congruence.
  - apply not_elem_of_list_to_map_1. intros ([n' v] & -> & Hv)%list_elem_of_fmap. apply He in Hv. cbn in E. congruence.
Qed.

Lemma load_entries (arg aux : args) kind d : (kind = "arg"%string /\ d = arg) \/ (kind = "aux"%string /\ d = aux) ->
  entries_of kind (map cut (map_to_list (save_dict arg aux))) = d.
Proof.
  intros Hk. apply entries_back. intros n v. setoid_rewrite elem_save_dict. split.
  - intros Hv. exists (kind +:+ ":" +:+ n)%string. destruct Hk as [[-> ->]|[-> ->]]; (split; [eauto|]);
      (split; [done|]); apply drop_arg || apply drop_aux.
  - intros (k & [(m & -> & Hm)|(m & -> & Hm)] & Et & En); rewrite ?drop_arg, ?drop_aux in En; subst m;
      destruct Hk as [[-> ->]|[-> ->]]; done.
Qed.

Lemma load_saved prefix epoch s (arg aux : args) fs :
  fs !! symbol_file prefix = Some (FSymbol s) -> fs !! params_file prefix epoch = Some (FParams (save_dict arg aux)) -> save_dict arg aux <> ∅ ->
  load_checkpoint prefix epoch fs = Ok (s, arg, aux).
Proof.
  intros Hs Hp Hne. unfold load_checkpoint. rewrite Hs. cbn [mbind result_bind]. rewrite Hp. cbn [mbind result_bind].
  rewrite bool_decide_eq_false_2 by done. rewrite split_entries. cbn [mbind result_bind]. by rewrite !(load_entries _ _ _ arg), !(load_entries _ _ _ aux) by eauto.
Qed.

Lemma save_run prefix epoch s (arg aux : args) fs :
  save_checkpoint prefix epoch (Some s) arg aux fs =
    (Ok tt, <[params_file prefix epoch := FParams (save_dict arg aux)]> (<[symbol_file prefix := FSymbol s]> fs)).
Proof. done. Qed.

(** ** Checkpoints of several epochs *)

(** Epochs 0 to [n-1] with the callback, the parameters of each epoch given. *)
Definition run_epochs (prefix : string) (period : Z) (s : Symbol) (arg aux : nat -> args) (n : nat) : M files unit :=
  forM (fun i => do_checkpoint prefix period (Z.of_nat i) (Some s) (arg i) (aux i)) (seq 0 n).

Lemma run_epochs_S prefix period s arg aux n fs :
  run_epochs prefix period s arg aux (S n) fs =
    (_ ← run_epochs prefix period s arg aux n; do_checkpoint prefix period (Z.of_nat n) (Some s) (arg n) (aux n)) fs.
Proof.
  unfold run_epochs. rewrite seq_S, forM_app, !bind_M. destruct (forM _ (seq 0 n) fs) as [[u|e] fs']; [|done].
  cbn [forM]. rewrite bind_M. by destruct (do_checkpoint _ _ _ _ _ _ fs') as [[[]|e] fs''].
Qed.

Lemma run_epochs_files prefix period s arg aux n fs : 0 < period -> exists fs', run_epochs prefix period s arg aux n fs = (Ok tt, fs') /\
  (forall e, 0 < e <= Z.of_nat n -> e mod period = 0 ->
     fs' !! symbol_file prefix = Some (FSymbol s) /\
     fs' !! params_file prefix e = Some (FParams (save_dict (arg (Z.to_nat (e - 1))) (aux (Z.to_nat (e - 1)))))) /\
  (forall e, 0 <= e -> e mod period <> 0 \/ Z.of_nat n < e \/ e = 0 -> fs' !! params_file prefix e = fs !! params_file prefix e).
Proof.
  intros Hp. induction n as [|n (fs1 & E & Hin & Hout)].
  { exists fs. split; [done|]. split; [intros; lia|done]. }
  rewrite run_epochs_S, bind_M, E. unfold do_checkpoint, every. rewrite Z.max_r by lia.
  destruct (Z.eqb_spec ((Z.of_nat n + 1) mod period) 0) as [Hz|Hz].
  - rewrite save_run. eexists. split; [done|]. split.
    + intros e He Hm. rewrite lookup_insert_ne, lookup_insert_eq by apply params_not_symbol. split; [done|].
      destruct (decide (e = Z.of_nat n + 1)) as [->|Hne].
      * rewrite lookup_insert_eq. by replace (Z.to_nat (Z.of_nat n + 1 - 1)) with n by lia.
      * rewrite lookup_insert_ne by (intros E'; apply params_file_inj in E'; lia).
        rewrite lookup_insert_ne by (intros E'; symmetry in E'; by apply params_not_symbol in E'). apply Hin; [lia|done].
    + intros e He Hout'. rewrite lookup_insert_ne by (intros E'; apply params_file_inj in E'; [|lia|done]; subst e; destruct Hout' as [?|[?|?]]; [done|lia|lia]).
      rewrite lookup_insert_ne by (intros E'; symmetry in E'; by apply params_not_symbol in E'). apply Hout; [done|]. destruct Hout' as [?|[?|?]]; [auto|lia|auto].
  - exists fs1. split; [done|]. split.
    + intros e He Hm. apply Hin; [|done]. destruct (decide (e = Z.of_nat n + 1)) as [->|]; [done|lia].
    + intros e He Hout'. apply Hout; [done|]. destruct Hout' as [?|[?|?]]; [auto|lia|auto].
Qed.

(** C18: after [n] epochs with the callback of [do_checkpoint], every epoch that is a multiple
    of the period loads with the symbol and the parameters it had, not overwritten by later
    ones, and no other checkpoint file has been touched. *)
Theorem checkpoints_kept prefix period s arg aux n fs : 0 < period -> (forall i, save_dict (arg i) (aux i) <> ∅) ->
  exists fs', run_epochs prefix period s arg aux n fs = (Ok tt, fs') /\
  (forall e, 0 < e <= Z.of_nat n -> e mod period = 0 ->
     load_checkpoint prefix e fs' = Ok (s, arg (Z.to_nat (e - 1)), aux (Z.to_nat (e - 1)))) /\
  (forall e, 0 <= e -> e mod period <> 0 \/ Z.of_nat n < e -> fs' !! params_file prefix e = fs !! params_file prefix e).
Proof.
  intros Hp Hne. destruct (run_epochs_files prefix period s arg aux n fs Hp) as (fs' & E & Hin & Hout).
  exists fs'. split; [done|]. split.
  - intros e He Hm. destruct (Hin e He Hm) as [Hs Hf]. by apply load_saved.
  - intros e He Ho. apply Hout; [done|]. naive_solver.
Qed.

(** ** Recurrent cells *)

Lemma fold_raise {A} (f : A -> args -> result args) l e : foldl (fun r c => d ← r; f c d) (Raise e) l = Raise e.
Proof. by induction l. Qed.
(** Loops of methods that return dicts, and loops of computations on one dict. *)
Lemma fold_forM {A} (m : A -> M args unit) l : forall d, foldl (fun r c => d ← r; run_dict (m c) d) (Ok d) l = run_dict (forM m l) d.
Proof.
  induction l as [|c l IH]; intros d; [done|]. cbn [foldl forM mbind result_bind].
  assert (run_dict (_ ← m c; forM m l) d = match m c d with (Ok _, d1) => run_dict (forM m l) d1 | (Raise e, _) => Raise e end) as ->
    by (unfold run_dict; rewrite bind_M; by destruct (m c d) as [[?|?] ?]).
  assert (run_dict (m c) d = match m c d with (Ok _, d1) => Ok d1 | (Raise e, _) => Raise e end) as -> by done.
  destruct (m c d) as [[u|e] d1]; [by apply IH|by rewrite fold_raise].
Qed.

(** Packing an empty dict gives nothing. *)
Lemma pack_empty gs (d : args) : Forall g_wf gs -> forM pack_g gs ∅ = (Ok tt, d) -> d = ∅.
Proof.
  intros Hwf E. destruct Hwf as [|g gs (_ & Hg & _) _]; [by injection E|]. cbn [forM] in E. rewrite bind_M in E.
  unfold pack_g at 1, pack_group in E. rewrite bind_M in E. by destruct (g_gates g).
Qed.
Lemma save_dict_empty (arg aux : args) : save_dict arg aux = ∅ -> arg = ∅.
Proof.
  intros E. apply map_empty. intros n. destruct (arg !! n) as [v|] eqn:Ev; [|done].
  assert (("arg:" +:+ n, v)%string ∈ map_to_list (save_dict arg aux)) as Hin by (apply elem_save_dict; eauto).
  rewrite E, map_to_list_empty in Hin. by apply elem_of_nil in Hin.
Qed.

(** [load_rnn_checkpoint] gives back the symbol and the packed parameters that
    [save_rnn_checkpoint] was given, for any list of cells with packed weights. *)
Theorem rnn_checkpoint_roundtrip cells prefix epoch s (arg aux : args) fs :
  forallb unfused cells = true -> Forall (fun g => (0 < g_hidden g)%nat) (concat (map groups_of cells)) ->
  NoDup (concat (map group_keys (concat (map groups_of cells)))) -> (forall g, g ∈ concat (map groups_of cells) -> g_packed g arg) ->
  (exists n, arg !! n <> None) ->
  exists fs', save_rnn_checkpoint cells prefix epoch (Some s) arg aux fs = (Ok tt, fs') /\
    load_rnn_checkpoint cells prefix epoch fs' = Ok (s, arg, aux).
Proof.
  intros Hu Hh Hnd Hok [n Hn]. set (stack := SequentialRNNCell (mkHdr 0 "" 0) false cells).
  destruct (groups_pack_unpack (groups_of stack) arg (groups_wf stack Hh) Hnd Hok) as (d & E1 & E2).
  assert (save_dict d aux <> ∅) as Hne.
  { intros Hd%save_dict_empty. subst d. apply Hn. rewrite (pack_empty (groups_of stack) arg (groups_wf stack Hh) E2). done. }
  rewrite <- (unpack_groups stack Hu) in E1. rewrite <- (pack_groups zero stack Hu) in E2. cbn [unpack pack stack] in E1, E2.
  assert (unpack_all cells arg = Ok d) as Eu by (unfold unpack_all; rewrite (fold_forM unpack); unfold run_dict; by rewrite E1).
  assert (pack_all cells d = Ok arg) as Ep by (unfold pack_all; rewrite (fold_forM (pack zero)); unfold run_dict; by rewrite E2).
  unfold save_rnn_checkpoint. rewrite bind_M. unfold lift. rewrite Eu, save_run. eexists. split; [done|].
  unfold load_rnn_checkpoint. rewrite (load_saved prefix epoch s d aux).
  - cbn [mbind result_bind]. by rewrite Ep.
  - rewrite lookup_insert_ne by apply params_not_symbol. apply lookup_insert_eq.
  - apply lookup_insert_eq.
  - exact Hne.
Qed.
End Checkpoint.

Definition ex_arg (i : nat) : gmap string (nda Z) := {[ "w"%string := mkNda [1%nat] [Z.of_nat i] ]}.
Lemma ex_arg_nonempty i : save_dict (ex_arg i) ∅ <> ∅.
Proof. intros E%save_dict_empty. apply (f_equal (fun m : gmap string (nda Z) => m !! "w"%string)) in E. done. Qed.
Lemma checkpoints_kept_witness : exists fs', run_epochs "m" 2 tt ex_arg (fun _ => ∅) 5 ∅ = (Ok tt, fs') /\
  (forall e, 0 < e <= 5 -> e mod 2 = 0 -> load_checkpoint "m" e fs' = Ok (tt, ex_arg (Z.to_nat (e - 1)), ∅)) /\
  (forall e, 0 <= e -> e mod 2 <> 0 \/ 5 < e -> fs' !! params_file "m" e = (∅ : gmap string (@file Z unit)) !! params_file "m" e).
Proof. apply (checkpoints_kept "m" 2 tt ex_arg (fun _ => ∅) 5 ∅); [lia|exact ex_arg_nonempty]. Defined.

Lemma rnn_checkpoint_roundtrip_witness : exists fs', save_rnn_checkpoint [ex_cell] "m" 3 (Some tt) ex_weights ∅ ∅ = (Ok tt, fs') /\
    load_rnn_checkpoint 0 [ex_cell] "m" 3 fs' = Ok (tt, ex_weights, ∅).
Proof.
  apply (rnn_checkpoint_roundtrip 0 [ex_cell]).
  - reflexivity.
  - repeat constructor.
  - apply (bool_decide_unpack _). vm_compute. exact I.
  - exact ex_packed.
  - exists "fc_weight"%string. done.
Defined.
