(* ===== verification/ModuleDef.v ===== *)
(** * Modules

    [module/module.py] and the parts of [module/base_module.py] and [model.py] it calls: a
    [Module] keeps the parameters on the host and on the devices of an executor group, and
    brings the two together only when it has to.

    Objects that modules share are in a [memory] and modules hold references to them: the two
    dicts of host parameters, the devices of an executor group, updaters and key-value stores.
    The key-value store and the creation of optimizers are parameters; storage types are
    dense, so that the pulls of sparse rows do not arise. *)

From Stdlib Require Import Ascii String.
From stdpp Require Import strings.
From S2P Require Import Prelude NDArray Array Split Axis DataIter LRScheduler Optimizer Trainer Scope RNNCell Checkpoint ExecGroup.
Open Scope Z_scope.

(** Key-value stores as modules use them: keys are names. *)
Class ModuleKV (F O K : Type) := {
  mk_create : string -> result K;
  mk_type : K -> string;
  mk_num_workers : K -> Z;
  mk_init : string -> nda F -> M K unit;
  mk_push : string -> list (nda F) -> M K unit;
  mk_pull : string -> list (nda F) -> M K (list (nda F));
  mk_set_optimizer : O -> M K unit;
  mk_set_compression : M K unit;
  mk_save_states : M K (gmap key (ostate F) * option O);
  mk_load_states : gmap key (ostate F) * option O -> M K unit;
}.

(** Files: parameters, symbols and states of optimizers. *)
Inductive mfile (F O : Type) :=
  | MParams (d : gmap string (nda F))
  | MSymbol (s : symbol F)
  | MStates (p : gmap key (ostate F) * option O).
Arguments MParams {F O} _.
Arguments MSymbol {F O} _.
Arguments MStates {F O} _.

Record memory (F O K : Type) := mkMemory {
  mm_hosts : list (gmap string (nda F) * gmap string (nda F));
  mm_devs : list (list (device F));
  mm_updaters : list (Updater F O);
  mm_kvs : list K;
  mm_files : gmap string (mfile F O);
}.
Arguments mkMemory {F O K} _ _ _ _ _.
Arguments mm_hosts {F O K} _.
Arguments mm_devs {F O K} _.
Arguments mm_updaters {F O K} _.
Arguments mm_kvs {F O K} _.
Arguments mm_files {F O K} _.

(** The attributes of a module.  [m_names]: data, label, state and fixed parameter names. *)
Record mnames := mkMNames { mn_data : list string; mn_label : list string; mn_state : list string; mn_fixed : list string }.

Record module (F : Type) := mkModule {
  m_symbol : symbol F;
  m_context : list Context;
  m_workload : list Z;
  m_names : mnames;
  m_compression : bool;
  m_binded : bool;
  m_for_training : bool;
  m_inputs_need_grad : bool;
  m_params_initialized : bool;
  m_optimizer_initialized : bool;
  m_host : option nat;
  m_dirty : bool;
  m_group : option (group F * nat);
  m_data_shapes : list DataDesc;
  m_label_shapes : option (list DataDesc);
  m_kv : option nat;
  m_update_on_kv : bool;
  m_updater : option nat;
  m_preload : option string;
}.
Arguments mkModule {F} _ _ _ _ _ _ _ _ _ _ _ _ _ _ _ _ _ _ _.
Arguments m_symbol {F} _.
Arguments m_context {F} _.
Arguments m_workload {F} _.
Arguments m_names {F} _.
Arguments m_compression {F} _.
Arguments m_binded {F} _.
Arguments m_for_training {F} _.
Arguments m_inputs_need_grad {F} _.
Arguments m_params_initialized {F} _.
Arguments m_optimizer_initialized {F} _.
Arguments m_host {F} _.
Arguments m_dirty {F} _.
Arguments m_group {F} _.
Arguments m_data_shapes {F} _.
Arguments m_label_shapes {F} _.
Arguments m_kv {F} _.
Arguments m_update_on_kv {F} _.
Arguments m_updater {F} _.
Arguments m_preload {F} _.

(** The argument [optimizer]: a name (with the information whether [rescale_grad] is among the
    parameters), or an optimizer. *)
Inductive opt_arg (O : Type) := OptName (name : string) (rescale_given : bool) | OptObject (o : O).
Arguments OptName {O} _ _.
Arguments OptObject {O} _.

Section Module.
Context {F O K : Type} `{Float F} `{OptimizerClass F O} `{ModuleKV F O K}.
Context (unset : string -> list nat -> list F).
(** [opt.create] with the factor for gradients, when it is not given, and the names of the indices. *)
Context (create_opt : string -> option F -> gmap key string -> result O).
(** [MXNET_UPDATE_ON_KVSTORE], and whether an array has more than 16M elements. *)
Context (env_update_on_kvstore : bool) (large : nda F -> bool).
Notation arr := (nda F).
Notation host := (gmap string arr * gmap string arr)%type.
Notation mem := (memory F O K).
Notation md := (module F).
Notation S := (memory F O K * module F)%type.

(** ** Assignments to attributes *)

Definition set_flags (binded params opt : bool) (m : md) : md :=
  mkModule (m_symbol m) (m_context m) (m_workload m) (m_names m) (m_compression m) binded (m_for_training m) (m_inputs_need_grad m) params opt
    (m_host m) (m_dirty m) (m_group m) (m_data_shapes m) (m_label_shapes m) (m_kv m) (m_update_on_kv m) (m_updater m) (m_preload m).
Definition set_training (t i : bool) (m : md) : md :=
  mkModule (m_symbol m) (m_context m) (m_workload m) (m_names m) (m_compression m) (m_binded m) t i (m_params_initialized m) (m_optimizer_initialized m)
    (m_host m) (m_dirty m) (m_group m) (m_data_shapes m) (m_label_shapes m) (m_kv m) (m_update_on_kv m) (m_updater m) (m_preload m).
Definition set_host (h : option nat) (dirty : bool) (m : md) : md :=
  mkModule (m_symbol m) (m_context m) (m_workload m) (m_names m) (m_compression m) (m_binded m) (m_for_training m) (m_inputs_need_grad m)
    (m_params_initialized m) (m_optimizer_initialized m) h dirty (m_group m) (m_data_shapes m) (m_label_shapes m) (m_kv m) (m_update_on_kv m) (m_updater m) (m_preload m).
Definition set_group (g : option (group F * nat)) (ds : list DataDesc) (ls : option (list DataDesc)) (m : md) : md :=
  mkModule (m_symbol m) (m_context m) (m_workload m) (m_names m) (m_compression m) (m_binded m) (m_for_training m) (m_inputs_need_grad m)
    (m_params_initialized m) (m_optimizer_initialized m) (m_host m) (m_dirty m) g ds ls (m_kv m) (m_update_on_kv m) (m_updater m) (m_preload m).
Definition set_opt (kv : option nat) (uok : bool) (u : option nat) (m : md) : md :=
  mkModule (m_symbol m) (m_context m) (m_workload m) (m_names m) (m_compression m) (m_binded m) (m_for_training m) (m_inputs_need_grad m)
    (m_params_initialized m) (m_optimizer_initialized m) (m_host m) (m_dirty m) (m_group m) (m_data_shapes m) (m_label_shapes m) kv uok u (m_preload m).
Definition set_preload (p : option string) (m : md) : md :=
  mkModule (m_symbol m) (m_context m) (m_workload m) (m_names m) (m_compression m) (m_binded m) (m_for_training m) (m_inputs_need_grad m)
    (m_params_initialized m) (m_optimizer_initialized m) (m_host m) (m_dirty m) (m_group m) (m_data_shapes m) (m_label_shapes m) (m_kv m) (m_update_on_kv m) (m_updater m) p.

Definition on_m (f : md -> md) : M S unit := modify (fun s => (s.1, f s.2)).
Definition put_hosts (l : list host) (x : mem) : mem := mkMemory l (mm_devs x) (mm_updaters x) (mm_kvs x) (mm_files x).
Definition put_devs (l : list (list (device F))) (x : mem) : mem := mkMemory (mm_hosts x) l (mm_updaters x) (mm_kvs x) (mm_files x).
Definition put_updaters (l : list (Updater F O)) (x : mem) : mem := mkMemory (mm_hosts x) (mm_devs x) l (mm_kvs x) (mm_files x).
Definition put_kvs (l : list K) (x : mem) : mem := mkMemory (mm_hosts x) (mm_devs x) (mm_updaters x) l (mm_files x).
Definition put_file (n : string) (f : mfile F O) (x : mem) : mem := mkMemory (mm_hosts x) (mm_devs x) (mm_updaters x) (mm_kvs x) (<[n := f]> (mm_files x)).

(** An attribute of [None] is an [AttributeError]. *)
Definition deref {A} (r : option nat) (l : list A) : result A :=
  match r with None => Raise AttributeError | Some i => match l !! i with Some a => Ok a | None => Raise AttributeError end end.

(** A computation on the executor group, on the host parameters, on a store and on an updater. *)
Definition on_grp {A} (f : M (group F * list (device F)) A) : M S A := fun s =>
  match m_group s.2 with
  | None => (Raise AttributeError, s)
  | Some (g, r) =>
      match mm_devs s.1 !! r with
      | None => (Raise AttributeError, s)
      | Some ds => let '(a, (g, ds)) := f (g, ds) in
                   (a, (put_devs (<[r := ds]> (mm_devs s.1)) s.1, set_group (Some (g, r)) (m_data_shapes s.2) (m_label_shapes s.2) s.2))
      end
  end.
Definition on_host {A} (f : M host A) : M S A := fun s =>
  match m_host s.2 with
  | None => (Raise AttributeError, s)
  | Some r =>
      match mm_hosts s.1 !! r with
      | None => (Raise AttributeError, s)
      | Some h => let '(a, h) := f h in (a, (put_hosts (<[r := h]> (mm_hosts s.1)) s.1, s.2))
      end
  end.
Definition on_kv {A} (f : M K A) : M S A := fun s =>
  match m_kv s.2 with
  | None => (Raise AttributeError, s)
  | Some r =>
      match mm_kvs s.1 !! r with
      | None => (Raise AttributeError, s)
      | Some k => let '(a, k) := f k in (a, (put_kvs (<[r := k]> (mm_kvs s.1)) s.1, s.2))
      end
  end.
Definition the_group : M S (group F * list (device F)) := on_grp get.

(** ** Construction *)

(** [_check_input_names]: a name that is no argument of the symbol, with or without [throw]. *)
Definition _check_input_names (sym : symbol F) (names : list string) (throw : bool) : result unit :=
  _ ← mapR (fun n => if bool_decide (n ∈ s_arguments sym) then Ok tt else if throw then Raise ValueError else Ok tt) names; Ok tt.

Definition Module_new (sym : symbol F) (names : mnames) (context : list Context) (workload : option (list Z)) (compression : bool) : result md :=
  let w := match workload with Some w => w | None => map (fun _ => 1) context end in
  _ ← py_assert (length w =? length context)%nat;
  _ ← _check_input_names sym (mn_data names) true;
  _ ← _check_input_names sym (mn_label names) false;
  _ ← _check_input_names sym (mn_state names) true;
  _ ← _check_input_names sym (mn_fixed names) true;
  Ok (mkModule sym context w names compression false false false false false None false None [] None None false None None).

(** [self._param_names] and [self._aux_names] *)
Definition m_param_names (m : md) : list string :=
  filter (fun x => x ∉ mn_data (m_names m) ++ mn_label (m_names m) ++ mn_state (m_names m)) (s_arguments (m_symbol m)).
Definition m_aux_names (m : md) : list string := s_auxiliary (m_symbol m).

(** [_check_names_match] and [_parse_data_desc] *)
Definition sort_names (l : list string) : list string := py_sort String.leb l.
Definition _check_names_match (names : list string) (shapes : list DataDesc) (throw : bool) : result unit :=
  if bool_decide (sort_names names = sort_names (map desc_name shapes)) then Ok tt else if throw then Raise ValueError else Ok tt.
Definition _parse_data_desc (data_names label_names : list string) (data_shapes : list DataDesc) (label_shapes : option (list DataDesc)) : result unit :=
  _ ← _check_names_match data_names data_shapes true;
  _check_names_match label_names (default [] label_shapes) false.

(** ** Parameters *)

Definition _reset_bind : M S unit := on_m (fun m => set_flags false (m_params_initialized m) (m_optimizer_initialized m) (set_group None [] None m)).

(** [assert self.binded and self.params_initialized] *)
Definition assert_ready : M S unit := s ← get; massert (m_binded s.2 && m_params_initialized s.2).

Definition set_dirty (b : bool) : M S unit := on_m (fun m => set_host (m_host m) b m).

Definition _sync_params_from_devices : M S unit :=
  gs ← the_group;
  _ ← on_host (group_get_params gs);
  set_dirty false.

Definition get_params : M S host :=
  _ ← assert_ready;
  s ← get;
  _ ← (if m_dirty s.2 then _sync_params_from_devices else mret tt);
  on_host get.

(** [_impl] of [init_params]: the new contents of one array. *)
Definition init_array (initializer : option (string -> arr -> result arr)) (cache : option (gmap string arr)) (allow_missing : bool) (x : string * arr) : result arr :=
  match cache with
  | Some c =>
      match c !! x.1 with
      | Some v => copyto v x.2
      | None => if negb allow_missing then Raise RuntimeError else match initializer with Some f => f x.1 x.2 | None => Ok x.2 end
      end
  | None => match initializer with Some f => f x.1 x.2 | None => Raise TypeError end
  end.
Definition sorted_items (d : gmap string arr) : list (string * arr) := py_sort (fun x y => String.leb x.1 y.1) (map_to_list d).
Definition init_arg (f : string * arr -> result arr) (x : string * arr) : M host unit := v ← lift (f x); modify (fun h => (<[x.1 := v]> h.1, h.2)).
Definition init_aux (f : string * arr -> result arr) (x : string * arr) : M host unit := v ← lift (f x); modify (fun h => (h.1, <[x.1 := v]> h.2)).
Definition init_host (initializer : option (string -> arr -> result arr)) (arg aux : option (gmap string arr)) (allow_missing : bool) : M host unit :=
  h ← get;
  _ ← forM (init_arg (init_array initializer arg allow_missing)) (sorted_items h.1);
  forM (init_aux (init_array initializer aux allow_missing)) (sorted_items h.2).

Definition init_params (initializer : option (string -> arr -> result arr)) (arg aux : option (gmap string arr)) (allow_missing force_init allow_extra : bool) : M S unit :=
  s ← get;
  if m_params_initialized s.2 && negb force_init then mret tt
  else
    _ ← massert (m_binded s.2);
    _ ← on_host (init_host initializer arg aux allow_missing);
    _ ← on_m (fun m => set_host (m_host m) false (set_flags (m_binded m) true (m_optimizer_initialized m) m));
    h ← on_host get;
    on_grp (group_set_params h allow_extra).

Definition set_params (arg aux : gmap string arr) (allow_missing force_init allow_extra : bool) : M S unit :=
  if negb allow_missing then init_params None (Some arg) (Some aux) allow_missing force_init allow_extra
  else
    s ← get;
    if m_params_initialized s.2 && negb force_init then mret tt
    else
      _ ← on_grp (group_set_params (arg, aux) allow_extra);
      on_m (fun m => set_host (m_host m) true (set_flags (m_binded m) true (m_optimizer_initialized m) m)).

(** ** Binding *)

Definition borrow_optimizer (shared : md) : M S unit :=
  _ ← massert (m_optimizer_initialized shared);
  on_m (fun m => set_flags (m_binded m) (m_params_initialized m) true (set_opt (m_kv shared) (m_update_on_kv shared) (m_updater shared) m)).

Definition new_devs (ds : list (device F)) : M S nat := fun s => (Ok (length (mm_devs s.1)), (put_devs (mm_devs s.1 ++ [ds]) s.1, s.2)).
Definition new_host (h : host) : M S nat := fun s => (Ok (length (mm_hosts s.1)), (put_hosts (mm_hosts s.1 ++ [h]) s.1, s.2)).

(** The zeros with the shapes of the arrays on the first device. *)
Definition zero_like (names srcs : list string) (m : gmap string arr) : result (gmap string arr) :=
  l ← mapR (fun n => a ← py_getitem m n; Ok (zeros (a_shape a))) srcs; Ok (list_to_map (reverse (zip names l))).

(** The executor group of [bind]: with the devices of the shared module, or with new ones. *)
Definition bind_group (ds : list DataDesc) (ls : option (list DataDesc)) (for_training ing : bool) (shared : option md) (grad_req : greq) : M S unit :=
  s ← get;
  sh ← lift (match shared with
             | None => Ok None
             | Some m' =>
                 _ ← py_assert (m_binded m' && m_params_initialized m');
                 match m_group m' with
                 | None => Raise AttributeError
                 | Some (g', r) =>
                     d ← deref (Some r) (mm_devs s.1);
                     _ ← py_assert (length (m_context s.2) <=? length (g_execs g'))%nat;
                     Ok (Some (d, r))
                 end
             end);
  '(g, devs) ← lift (group_new unset (m_symbol s.2) (m_workload s.2) ds ls (m_param_names s.2) for_training ing (fst <$> sh) (mn_fixed (m_names s.2))
                       grad_req (mn_state (m_names s.2)));
  r ← match sh with Some (_, r) => mret r | None => new_devs devs end;
  on_m (set_group (Some (g, r)) ds ls).

Definition bind (ds : list DataDesc) (ls : option (list DataDesc)) (for_training ing force_rebind : bool) (shared : option md) (grad_req : greq) : M S unit :=
  _ ← (if force_rebind then _reset_bind else mret tt);
  s ← get;
  if m_binded s.2 then mret tt
  else
    _ ← on_m (set_training for_training ing);
    _ ← (if for_training then mret tt else massert (negb ing));
    _ ← lift (_parse_data_desc (mn_data (m_names s.2)) (mn_label (m_names s.2)) ds ls);
    _ ← on_m (fun m => set_group (m_group m) ds ls m);
    _ ← bind_group ds ls for_training ing shared grad_req;
    _ ← match shared with
        | Some m' => on_m (fun m => set_host (m_host m') (m_dirty m) (set_flags (m_binded m) true (m_optimizer_initialized m) m))
        | None =>
            if m_params_initialized s.2 then h ← on_host get; on_grp (group_set_params h false)
            else
              _ ← massert (match m_host s.2 with None => true | Some _ => false end);
              '(g, devs) ← the_group;
              d ← lift (py_index devs 0);
              arg ← lift (zero_like (m_param_names s.2) (own_params g) (d_args d));
              aux ← lift (zero_like (m_aux_names s.2) (s_auxiliary (g_symbol g)) (d_aux d));
              r ← new_host (arg, aux);
              on_m (set_host (Some r) (m_dirty s.2))
        end;
    _ ← match shared with
        | Some m' => if m_optimizer_initialized m' then borrow_optimizer m' else mret tt
        | None => mret tt
        end;
    on_m (fun m => set_flags true (m_params_initialized m) (m_optimizer_initialized m) m).

Definition m_reshape (ds : list DataDesc) (ls : option (list DataDesc)) : M S unit :=
  s ← get;
  _ ← massert (m_binded s.2);
  _ ← lift (_parse_data_desc (mn_data (m_names s.2)) (mn_label (m_names s.2)) ds ls);
  _ ← on_m (fun m => set_group (m_group m) ds ls m);
  on_grp (group_reshape unset ds ls).

(** ** Computing *)

(** The shapes of the data of a batch; a list of batches is one batch of the first axis. *)
Definition new_data_shapes (b : mbatches F) : result (list (list Z)) :=
  match b with
  | OneBatch b => Ok (map (fun a => map Z.of_nat (a_shape a)) (mb_data b))
  | ManyBatches l =>
      b0 ← py_index l 0;
      mapR (fun i =>
              a ← py_index (mb_data b0) (Z.of_nat i);
              _ ← mapR (fun b => x ← py_index (mb_data b) (Z.of_nat i); py_assert (bool_decide (a_shape a = a_shape x))) l;
              match map Z.of_nat (a_shape a) with
              | [] => Raise IndexError
              | d :: s => Ok (py_len l * d :: s)
              end) (seq 0 (length (mb_data b0)))
  end.

(** The descriptions for new shapes; a list of batches has no attributes. *)
Definition with_shape (x : DataDesc * list Z) : DataDesc := mkDesc (desc_name x.1) x.2 (desc_dtype x.1) (desc_layout x.1).
Definition provided (l : option (list DataDesc)) : option (list DataDesc) := match l with Some (x :: l) => Some (x :: l) | _ => None end.
Definition new_dshape (b : mbatches F) (old : list DataDesc) (shapes : list (list Z)) : list DataDesc :=
  match b with
  | OneBatch b => default (map with_shape (zip old shapes)) (provided (mb_provide_data b))
  | ManyBatches _ => map with_shape (zip old shapes)
  end.
Definition new_lshape (b : mbatches F) (old : option (list DataDesc)) : result (option (list DataDesc)) :=
  match b with
  | OneBatch b =>
      match provided (mb_provide_label b) with
      | Some l => Ok (Some l)
      | None =>
          match mb_label b with
          | [] => Ok None
          | ls => match old with
                  | None => Raise TypeError
                  | Some old => Ok (Some (map with_shape (zip old (map (fun a => map Z.of_nat (a_shape a)) ls))))
                  end
          end
      end
  | ManyBatches _ => Ok None
  end.

Definition forward (b : mbatches F) (is_train : option bool) : M S unit :=
  _ ← assert_ready;
  s ← get;
  shapes ← lift (new_data_shapes b);
  _ ← (if bool_decide (map desc_shape (m_data_shapes s.2) = shapes) then mret tt
       else
         ls ← lift (new_lshape b (m_label_shapes s.2));
         m_reshape (new_dshape b (m_data_shapes s.2) shapes) ls);
  on_grp (group_forward b is_train).

Definition backward (out_grads : list arr) : M S unit := _ ← assert_ready; on_grp (group_backward out_grads).
Definition forward_backward (b : mbatches F) : M S unit := _ ← forward b (Some true); backward [].

Definition get_outputs : M S (list arr) := _ ← assert_ready; gs ← the_group; lift (group_get_outputs gs.1).
Definition output_shapes : M S (list (string * list Z)) := s ← get; _ ← massert (m_binded s.2); gs ← the_group; lift (get_output_shapes gs.1).
Definition get_input_grads : M S (list arr) :=
  s ← get;
  _ ← massert (m_binded s.2 && m_params_initialized s.2 && m_inputs_need_grad s.2);
  gs ← the_group; lift (group_get_input_grads gs.1).
Definition m_get_states (merge : bool) : M S (list (list arr)) := _ ← assert_ready; gs ← the_group; lift (group_get_states merge gs.1).
Definition m_set_states (states : option (list (list arr))) (value : option F) : M S unit := _ ← assert_ready; on_grp (group_set_states states value).

(** ** Optimizers *)

(** The arrays of a parameter on the devices of the group. *)
Definition read_all (read : device F -> gmap string arr) (n : string) : M (group F * list (device F)) (list arr) :=
  s ← get; lift (mapR (fun d => py_getitem (read d) n) (own_devices s)).
(** New elements for an array. *)
Definition put_flat (l : list F) (m : gmap string arr) (n : string) : gmap string arr := alter (fun a => mkNda (a_shape a) l) n m.
Definition write_args (n : string) (l : list arr) : M (group F * list (device F)) unit :=
  modify (fun s => (s.1, zip_with (fun d a => mkDevice (put_flat (a_flat a) (d_args d) n) (d_aux d) (d_grads d)) s.2 l ++ drop (length l) s.2)).
Definition write_grads (n : string) (l : list arr) : M (group F * list (device F)) unit :=
  modify (fun s => (s.1, zip_with (fun d a => mkDevice (d_args d) (d_aux d) (put_flat (a_flat a) (d_grads d) n)) s.2 l ++ drop (length l) s.2)).

(** The index of a parameter, its name and the argument whose arrays are meant. *)
Definition indexed_params (g : group F) : list (nat * (string * string)) := imap pair (zip (g_param_names g) (own_params g)).
Definition has_grad (devs : list (device F)) (n : string) : bool :=
  match devs with d :: _ => match d_grads d !! n with Some _ => true | None => false end | [] => false end.

(** [_create_kvstore] of [model.py] *)
Definition create_kvstore (kvstore : kvarg K) (num_device : Z) (arg_params : list arr) : result (option K * bool) :=
  kv ← (match kvstore with
        | KVNone => Ok (None, env_update_on_kvstore)
        | KVStore k => Ok (Some k, env_update_on_kvstore)
        | KVName s =>
            if (num_device =? 1) && negb (str_contains "dist" s) then Ok (None, env_update_on_kvstore)
            else
              k ← mk_create s;
              if str_eqb s "local" then
                match arg_params with
                | [] => Raise ValueError
                | _ => Ok (Some k, if existsb large arg_params then false else env_update_on_kvstore)
                end
              else Ok (Some k, env_update_on_kvstore)
        | KVOther => Raise TypeError
        end);
  Ok (kv.1, match kv.1 with None => false | Some _ => kv.2 end).

(** [_initialize_kvstore], one parameter. *)
Definition init_kv_param (arg_params : gmap string arr) (uok : bool) (x : nat * (string * string)) : M S unit :=
  a ← lift (py_getitem arg_params x.2.1);
  _ ← on_kv (mk_init x.2.1 a);
  if uok then
    ws ← on_grp (read_all d_args x.2.2); ws' ← on_kv (mk_pull x.2.1 ws); on_grp (write_args x.2.2 ws')
  else mret tt.

(** The names of the indices that the optimizer sees. *)
Definition idx2name_on_kv (names : list string) : gmap key string := list_to_map (imap (fun i n => (KInt (Z.of_nat i), n)) names).
Definition idx2name_on_dev (num_device : nat) (names : list string) : gmap key string :=
  list_to_map (concat (map (fun k => imap (fun i n => (KInt (Z.of_nat (i * num_device + k)), n)) names) (seq 0 num_device))).

(** [1.0 / batch_size], with the workers of a synchronous store. *)
Definition rescale_of (g : group F) (kv : option K) : result F :=
  match g_batch_size g with
  | None => Raise TypeError
  | Some n =>
      let n := match kv with
               | Some k => if str_contains "dist" (mk_type k) && str_contains "_sync" (mk_type k) then n * mk_num_workers k else n
               | None => n
               end in
      py_fdiv (fof 1) (fof n)
  end.

Definition save_optimizer_states (fname : string) : M S unit :=
  s ← get;
  _ ← massert (m_optimizer_initialized s.2);
  p ← (if m_update_on_kv s.2 then on_kv mk_save_states else u ← lift (deref (m_updater s.2) (mm_updaters s.1)); mret (get_states false u));
  modify (fun s => (put_file fname (MStates p) s.1, s.2)).
Definition load_optimizer_states (fname : string) : M S unit :=
  s ← get;
  _ ← massert (m_optimizer_initialized s.2);
  p ← lift (match mm_files s.1 !! fname with Some (MStates p) => Ok p | _ => Raise IOError end);
  if m_update_on_kv s.2 then on_kv (mk_load_states p)
  else
    u ← lift (deref (m_updater s.2) (mm_updaters s.1));
    match m_updater s.2 with
    | Some r => modify (fun s => (put_updaters (<[r := set_states p u]> (mm_updaters s.1)) s.1, s.2))
    | None => mret tt
    end.

Definition new_kv (k : K) : M S nat := fun s => (Ok (length (mm_kvs s.1)), (put_kvs (mm_kvs s.1 ++ [k]) s.1, s.2)).
Definition new_updater (u : Updater F O) : M S nat := fun s => (Ok (length (mm_updaters s.1)), (put_updaters (mm_updaters s.1 ++ [u]) s.1, s.2)).

(** The steps of [init_optimizer] before and after the parameters go to the store. *)
Definition open_store (kv : option K) (uok compression : bool) (o : O) : M S (option nat) :=
  r ← match kv with None => mret None | Some k => r ← new_kv k; mret (Some r) end;
  _ ← on_m (set_opt r uok None);
  _ ← match kv with
      | None => mret tt
      | Some _ => _ ← (if compression then on_kv mk_set_compression else mret tt); if uok then on_kv (mk_set_optimizer o) else mret tt
      end;
  mret r.
Definition finish_optimizer (r : option nat) (uok : bool) (o : O) (preload : option string) : M S unit :=
  _ ← (if uok then mret tt else u ← new_updater (Updater_init o); on_m (set_opt r uok (Some u)));
  _ ← on_m (fun m => set_flags (m_binded m) (m_params_initialized m) true m);
  match preload with
  | None => mret tt
  | Some f => _ ← load_optimizer_states f; on_m (set_preload None)
  end.
Definition init_optimizer (kvstore : kvarg K) (optimizer : opt_arg O) (force_init : bool) : M S unit :=
  _ ← assert_ready;
  s ← get;
  if m_optimizer_initialized s.2 && negb force_init then mret tt
  else
    _ ← (if m_dirty s.2 then _sync_params_from_devices else mret tt);
    h ← on_host get;
    '(g, _) ← the_group;
    lift (create_kvstore kvstore (py_len (m_context s.2)) (map snd (map_to_list h.1))) ≫= fun x : option K * bool =>
    let '(kv, uok) := x in
    rescale ← lift (rescale_of g kv);
    o ← lift (match optimizer with
              | OptName name given =>
                  create_opt name (if given then None else Some rescale)
                    (if uok then idx2name_on_kv (g_param_names g) else idx2name_on_dev (length (m_context s.2)) (g_param_names g))
              | OptObject o => Ok o
              end);
    r ← open_store kv uok (m_compression s.2) o;
    _ ← match kv with None => mret tt | Some _ => forM (init_kv_param h.1 uok) (indexed_params g) end;
    finish_optimizer r uok o (m_preload s.2).

(** [_update_params_on_kvstore], one parameter. *)
Definition push_pull (x : nat * (string * string)) : M S unit :=
  the_group ≫= fun gs : group F * list (device F) =>
  if has_grad gs.2 x.2.2 then
    grads ← on_grp (read_all d_grads x.2.2);
    _ ← on_kv (mk_push x.2.1 grads);
    ws ← on_grp (read_all d_args x.2.2); ws' ← on_kv (mk_pull x.2.1 ws); on_grp (write_args x.2.2 ws')
  else mret tt.

(** [_update_params]: the gradients are summed over the devices by the store, if there is one. *)
Definition exchange_grads (x : nat * (string * string)) : M S unit :=
  gs ← the_group;
  s ← get;
  match m_kv s.2 with
  | None => mret tt
  | Some _ =>
      if has_grad gs.2 x.2.2 then
        grads ← on_grp (read_all d_grads x.2.2);
        _ ← on_kv (mk_push x.2.1 grads);
        grads' ← on_kv (mk_pull x.2.1 grads); on_grp (write_grads x.2.2 grads')
      else mret tt
  end.

Definition to_tensor (c : Context) (a : arr) : tensor F := mkTensor c mx_real_t "default" (a_flat a).
Definition update_item (num_device : nat) (k : nat) (c : Context) (d : device F) (x : nat * (string * string)) : result (key * (tensor F * tensor F)) :=
  w ← py_getitem (d_args d) x.2.2;
  g ← py_getitem (d_grads d) x.2.2;
  Ok (KInt (Z.of_nat (x.1 * num_device + k)), (to_tensor c w, to_tensor c g)).

(** What the updater of one device returns is written to its arrays. *)
Definition put_results (xs : list (nat * (string * string))) (rs : list (tensor F * tensor F)) (d : device F) : device F :=
  foldl (fun d '(x, r) => mkDevice (put_flat (t_data r.1) (d_args d) x.2.2) (d_aux d) (put_flat (t_data r.2) (d_grads d) x.2.2)) d (zip xs rs).

(** The updater on the arrays of device [k]. *)
Definition update_device (num_device : nat) (xs : list (nat * (string * string))) (k : nat) : M S unit :=
  gs ← the_group;
  s ← get;
  d ← lift (py_index gs.2 (Z.of_nat k));
  c ← lift (py_index (m_context s.2) (Z.of_nat k));
  items ← lift (mapR (update_item num_device k c d) xs);
  match items, m_updater s.2 with
  | [], _ => mret tt
  | _, None => raise TypeError
  | _, Some r =>
      u ← lift (deref (Some r) (mm_updaters s.1));
      match Updater_call items u with
      | None => raise RuntimeError
      | Some (res, u') =>
          _ ← modify (fun s => (put_updaters (<[r := u']> (mm_updaters s.1)) s.1, s.2));
          rs ← lift res;
          on_grp (modify (fun gs => (gs.1, alter (put_results xs rs) k gs.2)))
      end
  end.

Definition _update_params : M S unit :=
  gs ← the_group;
  s ← get;
  let xs := filter (fun x => has_grad gs.2 x.2.2 = true) (indexed_params gs.1) in
  _ ← forM exchange_grads xs;
  forM (update_device (length (m_context s.2)) xs) (seq 0 (length (m_context s.2))).

Definition m_update : M S unit :=
  s ← get;
  _ ← massert (m_binded s.2 && m_params_initialized s.2 && m_optimizer_initialized s.2);
  _ ← set_dirty true;
  the_group ≫= fun gs : group F * list (device F) =>
  if g_for_training gs.1 then
    if m_update_on_kv s.2 then forM push_pull (indexed_params gs.1) else _update_params
  else raise TypeError.

(** ** Metrics, files *)

Definition update_metric {Met} (update_dict : list (string * arr) -> list (string * arr) -> M Met unit) (labels : list arr + list (list arr)) : M (S * Met) unit := fun x =>
  match the_group x.1 with
  | (Raise e, s) => (Raise e, (s, x.2))
  | (Ok gs, s) => let '(r, met) := group_update_metric update_dict gs.1 labels x.2 in (r, (s, met))
  end.

Definition save_params (fname : string) : M S unit :=
  h ← get_params; modify (fun s => (put_file fname (MParams (save_dict h.1 h.2)) s.1, s.2)).
Definition load_params (fname : string) : M S unit :=
  s ← get;
  d ← lift (match mm_files s.1 !! fname with Some (MParams d) => Ok d | _ => Raise MXNetError end);
  if bool_decide (d = ∅) then raise AttributeError
  else
    l ← lift (mapR split_entry (map_to_list d));
    _ ← lift (if forallb (fun x => str_eqb x.1.1 "arg" || str_eqb x.1.1 "aux") l then Ok tt else Raise ValueError);
    set_params (entries_of "arg" l) (entries_of "aux" l) false true false.

Definition states_file (prefix : string) (epoch : Z) : string := prefix +:+ "-" +:+ pad4 epoch +:+ ".states".
Definition m_save_checkpoint (prefix : string) (epoch : Z) (save_states : bool) : M S unit :=
  s ← get;
  _ ← modify (fun s => (put_file (symbol_file prefix) (MSymbol (m_symbol s.2)) s.1, s.2));
  _ ← save_params (params_file prefix epoch);
  if save_states then save_optimizer_states (states_file prefix epoch) else mret tt.

(** [Module.load]: the host parameters are set before any binding. *)
Definition Module_load (prefix : string) (epoch : Z) (load_states : bool) (names : mnames) (context : list Context) (workload : option (list Z)) (compression : bool) (x : mem)
  : result S :=
  sym ← match mm_files x !! symbol_file prefix with Some (MSymbol s) => Ok s | _ => Raise MXNetError end;
  d ← match mm_files x !! params_file prefix epoch with Some (MParams d) => Ok d | _ => Raise MXNetError end;
  if bool_decide (d = ∅) then Raise AttributeError
  else
    l ← mapR split_entry (map_to_list d);
    m ← Module_new sym names context workload compression;
    let r := length (mm_hosts x) in
    Ok (put_hosts (mm_hosts x ++ [(entries_of "arg" l, entries_of "aux" l)]) x,
        set_preload (if load_states then Some (states_file prefix epoch) else None) (set_flags false true false (set_host (Some r) false m))).
End Module.
