(* ===== verification/ModuleSync.v ===== *)
(** * The parameters of a module on the host and on the devices

    A module changes the parameters on the devices and marks the copy on the host as dirty;
    [get_params] brings them back when they are needed.  The theorem says that this laziness
    cannot be seen: after any sequence of initializations, assignments, training steps and
    predictions, [get_params] returns the parameters that the devices hold (their average). *)

From Stdlib Require Import Ascii String.
From stdpp Require Import strings.
From S2P Require Import Prelude NDArray Array Split Axis DataIter LRScheduler Optimizer Trainer Scope RNNCell Checkpoint ExecGroup ExecParallel ModuleDef.
Open Scope Z_scope.

(** The average of equal numbers is that number. *)
Fixpoint add_copies {F} `{Float F} (x t : F) (k : nat) : F := match k with O => t | S k => add_copies x (fadd t x) k end.
Class Averages (F : Type) `{Float F} := {
  average_same : forall x k, fdiv (add_copies x (fadd x (fof 0)) k) (fof (Z.of_nat (S k))) = x;
}.

Section Sync.
Context {F : Type} `{Averages F}.
Notation arr := (nda F).
Notation host := (gmap string arr * gmap string arr)%type.
Notation G := (group F * list (device F))%type.

(** ** The parameters that the devices hold *)

Definition shown (read : device F -> gmap string arr) (devs : list (device F)) (n : string) : arr :=
  match collect read devs n with Ok a => a | Raise _ => mkNda [] [] end.
Definition view (s : G) : host :=
  (list_to_map (map (fun n => (n, shown d_args (own_devices s) n)) (own_params s.1)),
   list_to_map (map (fun n => (n, shown d_aux (own_devices s) n)) (s_auxiliary (g_symbol s.1)))).

(** All devices have an array of the right shape for every parameter. *)
Definition holds (read : device F -> gmap string arr) (names : list string) (sh : string -> list nat) (devs : list (device F)) : Prop :=
  forall d n, d ∈ devs -> n ∈ names -> exists a, read d !! n = Some a /\ a_shape a = sh n.
Definition covers (names : list string) (sh : string -> list nat) (m : gmap string arr) : Prop :=
  (forall n, n ∈ names -> exists a, m !! n = Some a /\ a_shape a = sh n) /\ (forall n a, m !! n = Some a -> n ∈ names).

Record typed (SA SX : string -> list nat) (s : G) : Prop := {
  ty_len : length (g_execs s.1) = length s.2;
  ty_ne : s.2 <> [];
  ty_names : own_params s.1 = g_param_names s.1;
  ty_args : holds d_args (own_params s.1) SA s.2;
  ty_aux : holds d_aux (s_auxiliary (g_symbol s.1)) SX s.2;
}.
Definition host_typed (SA SX : string -> list nat) (s : G) (h : host) : Prop :=
  covers (own_params s.1) SA h.1 /\ covers (s_auxiliary (g_symbol s.1)) SX h.2.

Lemma own_all SA SX s : typed SA SX s -> own_devices s = s.2.
Proof. intros Ht. unfold own_devices. rewrite (ty_len _ _ _ Ht). by rewrite take_ge. Qed.

(** ** Averages *)

Lemma fold_add_shape sh l : forall t, a_shape t = sh -> Forall (fun a => a_shape a = sh) l ->
  exists t', foldl (fun r b => x ← r; arr_add x b) (Ok t) l = Ok t' /\ a_shape t' = sh.
Proof.
  induction l as [|b l IH]; intros t Ht Hl; [by exists t|]. apply Forall_cons in Hl as [Hb Hl]. cbn [foldl mbind result_bind].
  unfold arr_add at 2. rewrite bool_decide_eq_true_2 by congruence. by apply IH.
Qed.

Lemma average_ok sh l : l <> [] -> Forall (fun a => a_shape a = sh) l -> exists a, average l = Ok a /\ a_shape a = sh.
Proof.
  destruct l as [|a l]; intros Hne Hl; [done|]. apply Forall_cons in Hl as [Ha Hl]. unfold average.
  destruct (fold_add_shape sh l (mkNda (a_shape a) (map (fun x => fadd x (fof 0)) (a_flat a))) Ha Hl) as (t & -> & Ht).
  cbn [mbind result_bind]. eexists. by split.
Qed.

Lemma zip_self {A B C} (f : A -> B) (g : B -> A -> C) (l : list A) : zip_with g (map f l) l = map (fun x => g (f x) x) l.
Proof. induction l as [|x l IH]; [done|]. cbn. by f_equal. Qed.

Lemma fold_add_copies (a : arr) k : forall h : F -> F,
  foldl (fun r b => x ← r; arr_add x b) (Ok (mkNda (a_shape a) (map h (a_flat a)))) (replicate k a)
    = Ok (mkNda (a_shape a) (map (fun x => add_copies x (h x) k) (a_flat a))).
Proof.
  induction k as [|k IH]; intros h; [done|]. cbn [replicate foldl mbind result_bind]. unfold arr_add at 2. cbn [a_shape a_flat].
  rewrite bool_decide_eq_true_2 by done. rewrite zip_self. exact (IH (fun x => fadd (h x) x)).
Qed.

Lemma average_copies a k : average (replicate (S k) a) = Ok a.
Proof.
  cbn [replicate]. unfold average. rewrite fold_add_copies. cbn [mbind result_bind a_shape a_flat].
  change (py_len (a :: replicate k a)) with (Z.of_nat (length (replicate (S k) a))). rewrite length_replicate, map_map.
  rewrite (map_ext _ id), map_id by (intros x; apply average_same). by destruct a.
Qed.

Lemma collect_ok read names sh devs n : devs <> [] -> holds read names sh devs -> n ∈ names ->
  collect read devs n = Ok (shown read devs n) /\ a_shape (shown read devs n) = sh n.
Proof.
  intros Hne Hh Hn. assert (exists a, collect read devs n = Ok a /\ a_shape a = sh n) as (a & E & Hs); [|unfold shown; by rewrite E].
  unfold collect. assert (exists block, mapR (fun d => py_getitem (read d) n) devs = Ok block /\ Forall (fun a => a_shape a = sh n) block /\ length block = length devs) as (block & -> & Hb & Hl).
  { clear Hne. induction devs as [|d devs IH]; [by exists []|]. destruct IH as (block & E & Hb & Hl); [intros d' n' Hd; apply Hh; by right|].
    destruct (Hh d n ltac:(by left) Hn) as (a & Ha & Hs). exists (a :: block). cbn. assert (py_getitem (read d) n = Ok a) as -> by (unfold py_getitem; by rewrite Ha). cbn. rewrite E. cbn. split_and!; [done|by constructor|by rewrite Hl]. }
  cbn [mbind result_bind]. apply average_ok; [|done]. intros ->. by destruct devs.
Qed.

Lemma shown_copies read devs n a : devs <> [] -> (forall d, d ∈ devs -> read d !! n = Some a) -> shown read devs n = a.
Proof.
  intros Hne Hd. unfold shown, collect. assert (mapR (fun d => py_getitem (read d) n) devs = Ok (replicate (length devs) a)) as ->.
  { clear Hne. induction devs as [|d devs IH]; [done|]. cbn. assert (py_getitem (read d) n = Ok a) as -> by (unfold py_getitem; by rewrite (Hd d) by by left).
    cbn. rewrite IH; [done|]. intros; apply Hd; by right. }
  cbn [mbind result_bind]. destruct devs as [|d devs]; [done|]. cbn [length]. by rewrite average_copies.
Qed.

(** ** Reading the parameters from the devices *)

Lemma lookup_names (f : string -> arr) l k : (list_to_map (map (fun n => (n, f n)) l) : gmap string arr) !! k = if decide (k ∈ l) then Some (f k) else None.
Proof.
  induction l as [|n l IH]; cbn [map list_to_map foldr]; [by rewrite lookup_empty, decide_False by set_solver|]. cbn [fst snd uncurry].
  destruct (decide (k = n)) as [->|Hne]; [rewrite lookup_insert_eq, decide_True by set_solver; done|].
  rewrite lookup_insert_ne, IH by done. destruct (decide (k ∈ l)); [by rewrite decide_True by set_solver|by rewrite decide_False by set_solver].
Qed.

Lemma names_step (f : string -> arr) n l (m : gmap string arr) :
  list_to_map (map (fun n => (n, f n)) l) ∪ <[n := f n]> m = list_to_map (map (fun n => (n, f n)) (n :: l)) ∪ m.
Proof.
  apply map_eq. intros k. rewrite !lookup_union, !lookup_names. destruct (decide (k = n)) as [->|Hne].
  - rewrite lookup_insert_eq, (decide_True (P := n ∈ n :: l)) by set_solver. destruct (decide (n ∈ l)); destruct (m !! n); done.
  - rewrite lookup_insert_ne by done. destruct (decide (k ∈ l)); [by rewrite decide_True by set_solver|by rewrite decide_False by set_solver].
Qed.

Lemma get_arg_run devs sh n (h : host) a : collect d_args devs n = Ok (shown d_args devs n) -> a_shape (shown d_args devs n) = sh -> h.1 !! n = Some a -> a_shape a = sh ->
  get_arg devs (n, n) h = (Ok tt, (<[n := shown d_args devs n]> h.1, h.2)).
Proof.
  intros Hc Hs Ha Hsa. unfold get_arg. cbn [fst snd]. rewrite Hc, bind_lift, bind_get. unfold py_getitem. rewrite Ha, bind_lift. unfold copyto.
  rewrite bool_decide_eq_true_2 by congruence. by rewrite bind_lift.
Qed.
Lemma get_aux_run devs sh n (h : host) a : collect d_aux devs n = Ok (shown d_aux devs n) -> a_shape (shown d_aux devs n) = sh -> h.2 !! n = Some a -> a_shape a = sh ->
  get_aux devs n h = (Ok tt, (h.1, <[n := shown d_aux devs n]> h.2)).
Proof.
  intros Hc Hs Ha Hsa. unfold get_aux. rewrite Hc, bind_lift, bind_get. unfold py_getitem. rewrite Ha, bind_lift. unfold copyto.
  rewrite bool_decide_eq_true_2 by congruence. by rewrite bind_lift.
Qed.

Lemma get_args_run devs names sh : devs <> [] -> holds d_args names sh devs -> forall l (h : host), (forall n, n ∈ l -> n ∈ names /\ exists a, h.1 !! n = Some a /\ a_shape a = sh n) ->
  forM (get_arg devs) (zip l l) h = (Ok tt, (list_to_map (map (fun n => (n, shown d_args devs n)) l) ∪ h.1, h.2)).
Proof.
  intros Hne Hh. induction l as [|n l IH]; intros h Hl; cbn [zip_with forM map list_to_map foldr]; [rewrite (left_id_L ∅ (∪)); by destruct h|].
  destruct (Hl n ltac:(by left)) as (Hn & a & Ha & Hs). destruct (collect_ok _ _ _ _ n Hne Hh Hn) as [Hc Hcs].
  rewrite (bind_run _ _ _ _ _ (get_arg_run _ _ _ _ _ Hc Hcs Ha Hs)). rewrite IH.
  - cbn [fst snd]. do 2 f_equal. apply (names_step (shown d_args devs)).
  - intros k Hk. destruct (Hl k ltac:(by right)) as (Hkn & b & Hb & Hbs). split; [done|]. cbn [fst].
    destruct (decide (k = n)) as [->|Hkne]; [rewrite lookup_insert_eq; eauto|rewrite lookup_insert_ne by done; eauto].
Qed.
Lemma get_auxs_run devs names sh : devs <> [] -> holds d_aux names sh devs -> forall l (h : host), (forall n, n ∈ l -> n ∈ names /\ exists a, h.2 !! n = Some a /\ a_shape a = sh n) ->
  forM (get_aux devs) l h = (Ok tt, (h.1, list_to_map (map (fun n => (n, shown d_aux devs n)) l) ∪ h.2)).
Proof.
  intros Hne Hh. induction l as [|n l IH]; intros h Hl; cbn [forM map list_to_map foldr]; [rewrite (left_id_L ∅ (∪)); by destruct h|].
  destruct (Hl n ltac:(by left)) as (Hn & a & Ha & Hs). destruct (collect_ok _ _ _ _ n Hne Hh Hn) as [Hc Hcs].
  rewrite (bind_run _ _ _ _ _ (get_aux_run _ _ _ _ _ Hc Hcs Ha Hs)). rewrite IH.
  - cbn [fst snd]. do 2 f_equal. apply (names_step (shown d_aux devs)).
  - intros k Hk. destruct (Hl k ltac:(by right)) as (Hkn & b & Hb & Hbs). split; [done|]. cbn [snd].
    destruct (decide (k = n)) as [->|Hkne]; [rewrite lookup_insert_eq; eauto|rewrite lookup_insert_ne by done; eauto].
Qed.

Lemma names_cover (f : string -> arr) l sh m : covers l sh m -> list_to_map (map (fun n => (n, f n)) l) ∪ m = list_to_map (map (fun n => (n, f n)) l).
Proof.
  intros [_ Hm]. apply map_eq. intros k. rewrite lookup_union, lookup_names. destruct (decide (k ∈ l)) as [Hk|Hk]; [by destruct (m !! k)|].
  destruct (m !! k) as [a|] eqn:E; [by apply Hm in E|done].
Qed.

(** Reading succeeds and gives the view of the devices. *)
Lemma sync_run SA SX s h : typed SA SX s -> host_typed SA SX s h -> group_get_params s h = (Ok tt, view s).
Proof.
  intros Ht [Ha Hx]. unfold group_get_params, view. rewrite (own_all _ _ _ Ht), <- (ty_names _ _ _ Ht).
  erewrite bind_run; [|apply (get_args_run s.2 (own_params s.1) SA); [apply Ht|apply Ht|]; intros n Hn; split; [done|by apply Ha]].
  rewrite (get_auxs_run s.2 (s_auxiliary (g_symbol s.1)) SX); [|apply Ht|apply Ht|intros n Hn; split; [done|by apply Hx]].
  cbn [fst snd]. by rewrite (names_cover _ _ _ _ Ha), (names_cover _ _ _ _ Hx).
Qed.

Lemma view_typed SA SX s : typed SA SX s -> host_typed SA SX s (view s).
Proof.
  intros Ht. unfold view. rewrite (own_all _ _ _ Ht). split; cbn [fst snd]; split.
  - intros n Hn. rewrite lookup_names, decide_True by done. eexists. split; [done|]. by eapply (collect_ok _ (own_params s.1)); [apply Ht|apply Ht|].
  - intros n a Hn. rewrite lookup_names in Hn. by destruct (decide _).
  - intros n Hn. rewrite lookup_names, decide_True by done. eexists. split; [done|]. by eapply (collect_ok _ (s_auxiliary (g_symbol s.1))); [apply Ht|apply Ht|].
  - intros n a Hn. rewrite lookup_names in Hn. by destruct (decide _).
Qed.

(** Devices that all hold the parameters [h]. *)
Lemma view_equal SA SX s h : typed SA SX s -> host_typed SA SX s h ->
  (forall d n a, d ∈ s.2 -> h.1 !! n = Some a -> d_args d !! n = Some a) -> (forall d n a, d ∈ s.2 -> h.2 !! n = Some a -> d_aux d !! n = Some a) -> view s = h.
Proof.
  intros Ht [[Ha Ha'] [Hx Hx']] H1 H2. unfold view. rewrite (own_all _ _ _ Ht). destruct h as [hA hX]; cbn [fst snd] in *. f_equal; apply map_eq; intros n; rewrite lookup_names.
  - destruct (decide (n ∈ own_params s.1)) as [Hn|Hn].
    + destruct (Ha n Hn) as (a & E & _). rewrite E. f_equal. apply shown_copies; [apply Ht|]. intros d Hd. by apply H1.
    + destruct (hA !! n) as [a|] eqn:E; [by apply Ha' in E|done].
  - destruct (decide (n ∈ s_auxiliary (g_symbol s.1))) as [Hn|Hn].
    + destruct (Hx n Hn) as (a & E & _). rewrite E. f_equal. apply shown_copies; [apply Ht|]. intros d Hd. by apply H2.
    + destruct (hX !! n) as [a|] eqn:E; [by apply Hx' in E|done].
Qed.

(** ** Writing the parameters to the devices *)

Definition put_arg (d : device F) (x : string * arr) : device F := mkDevice (<[x.1 := x.2]> (d_args d)) (d_aux d) (d_grads d).
Definition put_aux (d : device F) (x : string * arr) : device F := mkDevice (d_args d) (<[x.1 := x.2]> (d_aux d)) (d_grads d).

(** An array of the shape of [v] under the name [n]. *)
Definition fits_in (m : gmap string arr) (x : string * arr) : Prop := exists dst, m !! x.1 = Some dst /\ a_shape dst = a_shape x.2.

Lemma own_param_arg (g : group F) n : n ∈ own_params g -> is_param g n = true /\ n ∈ s_arguments (g_symbol g).
Proof. unfold own_params. intros Hn. by apply list_elem_of_filter in Hn. Qed.

Lemma fits_insert m x y : fits_in m x -> fits_in m y -> fits_in (<[x.1 := x.2]> m) y.
Proof.
  intros (d1 & H1 & S1) (d2 & H2 & S2). unfold fits_in. destruct (decide (y.1 = x.1)) as [E|E].
  - rewrite E, lookup_insert_eq. exists x.2. split; [done|]. rewrite E, H1 in H2. injection H2 as ->. congruence.
  - rewrite lookup_insert_ne by done. eauto.
Qed.

Lemma copy_arg_st ae g X i x y : X !! i = Some x -> y.1 ∈ own_params g -> fits_in (d_args x.2) y ->
  copy_arg ae i y (st g X) = (Ok tt, st g (<[i := (x.1, put_arg x.2 y)]> X)).
Proof.
  intros Hi Hn (dst & Hd & Hs). unfold copy_arg. rewrite bind_get, (bind_run _ _ _ _ _ (exec_at_st g X i x Hi)). destruct x as [e d]. cbn [fst snd] in *.
  destruct (own_param_arg _ _ Hn) as [Hp Ha]. change (is_param (st g X).1 y.1) with (is_param g y.1). change (g_symbol (st g X).1) with (g_symbol g).
  rewrite Hp, (bool_decide_eq_true_2 _ Ha). cbn [andb]. unfold py_getitem. rewrite Hd, bind_lift. unfold copyto.
  rewrite bool_decide_eq_true_2, bind_lift by done. by rewrite (set_device_st _ _ _ (e, d)).
Qed.
Lemma copy_aux_st ae g X i x y : X !! i = Some x -> y.1 ∈ s_auxiliary (g_symbol g) -> fits_in (d_aux x.2) y ->
  copy_aux ae i y (st g X) = (Ok tt, st g (<[i := (x.1, put_aux x.2 y)]> X)).
Proof.
  intros Hi Hn (dst & Hd & Hs). unfold copy_aux. rewrite bind_get, (bind_run _ _ _ _ _ (exec_at_st g X i x Hi)). destruct x as [e d]. cbn [fst snd] in *.
  change (g_symbol (st g X).1) with (g_symbol g). rewrite (bool_decide_eq_true_2 _ Hn). unfold py_getitem. rewrite Hd, bind_lift. unfold copyto.
  rewrite bool_decide_eq_true_2, bind_lift by done. by rewrite (set_device_st _ _ _ (e, d)).
Qed.

Lemma copy_args_st ae g i l : forall X x, X !! i = Some x -> (forall y, y ∈ l -> y.1 ∈ own_params g /\ fits_in (d_args x.2) y) ->
  forM (copy_arg ae i) l (st g X) = (Ok tt, st g (<[i := (x.1, foldl put_arg x.2 l)]> X)).
Proof.
  induction l as [|y l IH]; intros X x Hi Hl; cbn [forM foldl].
  { rewrite <- surjective_pairing, list_insert_id by done. done. }
  destruct (Hl y ltac:(by left)) as [Hn Hf]. rewrite (bind_run _ _ _ _ _ (copy_arg_st ae g X i x y Hi Hn Hf)).
  rewrite (IH _ (x.1, put_arg x.2 y)); [by rewrite list_insert_insert_eq|apply list_lookup_insert_eq; by eapply lookup_lt_Some|].
  intros z Hz. destruct (Hl z ltac:(by right)) as [Hzn Hzf]. split; [done|]. cbn [snd put_arg d_args]. by apply fits_insert.
Qed.
Lemma copy_auxs_st ae g i l : forall X x, X !! i = Some x -> (forall y, y ∈ l -> y.1 ∈ s_auxiliary (g_symbol g) /\ fits_in (d_aux x.2) y) ->
  forM (copy_aux ae i) l (st g X) = (Ok tt, st g (<[i := (x.1, foldl put_aux x.2 l)]> X)).
Proof.
  induction l as [|y l IH]; intros X x Hi Hl; cbn [forM foldl].
  { rewrite <- surjective_pairing, list_insert_id by done. done. }
  destruct (Hl y ltac:(by left)) as [Hn Hf]. rewrite (bind_run _ _ _ _ _ (copy_aux_st ae g X i x y Hi Hn Hf)).
  rewrite (IH _ (x.1, put_aux x.2 y)); [by rewrite list_insert_insert_eq|apply list_lookup_insert_eq; by eapply lookup_lt_Some|].
  intros z Hz. destruct (Hl z ltac:(by right)) as [Hzn Hzf]. split; [done|]. cbn [snd put_aux d_aux]. by apply fits_insert.
Qed.

(** A device after all parameters were written. *)
Definition put_host (h : host) (d : device F) : device F := foldl put_aux (foldl put_arg d (map_to_list h.1)) (map_to_list h.2).

Lemma foldl_put_arg l : forall d, d_aux (foldl put_arg d l) = d_aux d /\
  (NoDup (map fst l) -> forall n, d_args (foldl put_arg d l) !! n = match (list_to_map l : gmap string arr) !! n with Some a => Some a | None => d_args d !! n end).
Proof.
  induction l as [|[k v] l IH]; intros d; [done|]. cbn [foldl]. destruct (IH (put_arg d (k, v))) as [H1 H2]. split; [by rewrite H1|].
  cbn [map fst]. intros Hnd n. apply NoDup_cons in Hnd as [Hk Hnd]. rewrite H2 by done. cbn [list_to_map foldr put_arg d_args fst snd uncurry].
  destruct (decide (n = k)) as [->|Hne].
  - rewrite lookup_insert_eq. rewrite (not_elem_of_list_to_map_1 l k Hk). by rewrite lookup_insert_eq.
  - by rewrite !lookup_insert_ne by done.
Qed.
Lemma foldl_put_aux l : forall d, d_args (foldl put_aux d l) = d_args d /\
  (NoDup (map fst l) -> forall n, d_aux (foldl put_aux d l) !! n = match (list_to_map l : gmap string arr) !! n with Some a => Some a | None => d_aux d !! n end).
Proof.
  induction l as [|[k v] l IH]; intros d; [done|]. cbn [foldl]. destruct (IH (put_aux d (k, v))) as [H1 H2]. split; [by rewrite H1|].
  cbn [map fst]. intros Hnd n. apply NoDup_cons in Hnd as [Hk Hnd]. rewrite H2 by done. cbn [list_to_map foldr put_aux d_aux fst snd uncurry].
  destruct (decide (n = k)) as [->|Hne].
  - rewrite lookup_insert_eq. rewrite (not_elem_of_list_to_map_1 l k Hk). by rewrite lookup_insert_eq.
  - by rewrite !lookup_insert_ne by done.
Qed.

Lemma put_host_args h d n : d_args (put_host h d) !! n = match h.1 !! n with Some a => Some a | None => d_args d !! n end.
Proof.
  unfold put_host. rewrite (proj1 (foldl_put_aux _ _)), (proj2 (foldl_put_arg _ _)) by apply NoDup_fst_map_to_list. by rewrite list_to_map_to_list.
Qed.
Lemma put_host_aux h d n : d_aux (put_host h d) !! n = match h.2 !! n with Some a => Some a | None => d_aux d !! n end.
Proof.
  unfold put_host. rewrite (proj2 (foldl_put_aux _ _)) by apply NoDup_fst_map_to_list. rewrite (proj1 (foldl_put_arg _ _)). by rewrite list_to_map_to_list.
Qed.

Lemma covers_fits names sh m m' x : covers names sh m -> (forall n, n ∈ names -> exists a, m' !! n = Some a /\ a_shape a = sh n) -> x ∈ map_to_list m ->
  x.1 ∈ names /\ fits_in m' x.
Proof.
  intros [H1 H2] Hm' Hx. destruct x as [n v]. apply elem_of_map_to_list in Hx. pose proof (H2 _ _ Hx) as Hn. split; [done|].
  destruct (H1 n Hn) as (a & Ha & Hs). destruct (Hm' n Hn) as (b & Hb & Hbs). exists b. rewrite Hx in Ha. injection Ha as <-. cbn [fst snd]. split; [done|congruence].
Qed.

Lemma st_self (s : G) : length (g_execs s.1) = length s.2 -> s = st s.1 (zip (g_execs s.1) s.2).
Proof.
  intros Hl. unfold st. rewrite fst_zip, snd_zip by lia. destruct s as [g devs]. cbn [fst snd]. f_equal. by destruct g.
Qed.

Lemma imap_map {A B} (f : A -> B) l : imap (fun _ => f) l = map f l.
Proof. apply list_eq. intros i. rewrite list_lookup_imap, list_lookup_fmap. done. Qed.

(** Writing succeeds, and then the devices show what was written. *)
Lemma set_run SA SX s h ae : typed SA SX s -> host_typed SA SX s h ->
  group_set_params h ae s = (Ok tt, (s.1, map (put_host h) s.2)).
Proof.
  intros Ht [Ha Hx]. unfold group_set_params. rewrite bind_get. pose proof (st_self s (ty_len _ _ _ Ht)) as Es.
  set (X := zip (g_execs s.1) s.2) in Es.
  assert (length X = length (g_execs s.1)) as HlX by (unfold X; rewrite length_zip_with, (ty_len _ _ _ Ht); lia).
  rewrite Es at 2. rewrite <- HlX.
  rewrite (forM_execs _ (fun _ x => (x.1, put_host h x.2)) (fun _ x => x.2 ∈ s.2)).
  - unfold st. rewrite (imap_map (fun x : exec F * device F => (x.1, put_host h x.2))), !map_map. cbn [fst snd].
    rewrite <- (map_map snd (put_host h)).
    assert (map (fun x : exec F * device F => x.1) X = g_execs s.1) as -> by (apply fst_zip; by rewrite (ty_len _ _ _ Ht)).
    assert (map snd X = s.2) as -> by (apply snd_zip; by rewrite (ty_len _ _ _ Ht)). by destruct (s.1).
  - intros i x Y Hi Hd. unfold copy_params_from.
    erewrite bind_run by (apply (copy_args_st ae s.1 i (map_to_list h.1) Y x Hi); intros y Hy;
      eapply covers_fits; [exact Ha|intros n Hn; by apply (ty_args _ _ _ Ht)|done]).
    rewrite (copy_auxs_st ae s.1 i (map_to_list h.2) _ (x.1, foldl put_arg x.2 (map_to_list h.1))).
    + by rewrite list_insert_insert_eq.
    + apply list_lookup_insert_eq. by eapply lookup_lt_Some.
    + intros y Hy. eapply covers_fits; [exact Hx|intros n Hn; cbn [snd]; rewrite (proj1 (foldl_put_arg _ _)); by apply (ty_aux _ _ _ Ht)|done].
  - intros i x Hi. unfold X in Hi. apply lookup_zip_with_Some in Hi as (e & d & -> & _ & Hd). by eapply list_elem_of_lookup_2.
Qed.

Lemma set_typed SA SX s h : typed SA SX s -> host_typed SA SX s h ->
  typed SA SX (s.1, map (put_host h) s.2) /\ view (s.1, map (put_host h) s.2) = h.
Proof.
  intros Ht [Ha Hx].
  assert (typed SA SX (s.1, map (put_host h) s.2)) as Ht'.
  { split; cbn [fst snd]; [by rewrite length_map, (ty_len _ _ _ Ht)|intros E; apply (ty_ne _ _ _ Ht); by destruct s.2|apply Ht| |].
    - intros d n Hd Hn. apply list_elem_of_fmap in Hd as (d0 & -> & Hd). rewrite put_host_args. destruct (proj1 Ha n Hn) as (a & -> & ?). eauto.
    - intros d n Hd Hn. apply list_elem_of_fmap in Hd as (d0 & -> & Hd). rewrite put_host_aux. destruct (proj1 Hx n Hn) as (a & -> & ?). eauto. }
  split; [done|]. apply (view_equal SA SX); [done|done| |]; cbn [fst snd]; intros d n a Hd Hn; apply list_elem_of_fmap in Hd as (d0 & -> & Hd).
  - by rewrite put_host_args, Hn.
  - by rewrite put_host_aux, Hn.
Qed.
End Sync.
