(* ===== verification/ModuleKeeps.v ===== *)
(** * What the operations of a module leave alone

    Every operation of an executor group keeps its symbol, its parameters and the number of
    its executors, and changes every device in a way that a relation describes; the relations
    compose along the sequences and loops of the code.  The same for the operations of a
    module, which also keep the host parameters and the flags. *)

From Stdlib Require Import Ascii String.
From stdpp Require Import strings.
From S2P Require Import Prelude NDArray Array Split Axis DataIter LRScheduler Optimizer Trainer Scope RNNCell Checkpoint ExecGroup ExecParallel ModuleDef ModuleSync.
Open Scope Z_scope.

Create HintDb keeps.

Section Keeps.
Context {F : Type} `{Float F}.
Notation arr := (nda F).
Notation G := (group F * list (device F))%type.

(** Arrays keep their shapes; parameters keep their values. *)
Definition shape_le (m m' : gmap string arr) : Prop := forall n a, m !! n = Some a -> exists a', m' !! n = Some a' /\ a_shape a' = a_shape a.
Definition same_shapes (d d' : device F) : Prop := shape_le (d_args d) (d_args d') /\ shape_le (d_aux d) (d_aux d').
Definition same_params (d d' : device F) : Prop := d_args d' = d_args d /\ d_aux d' = d_aux d.

Lemma shape_le_refl m : shape_le m m.
Proof. intros n a Ha. eauto. Qed.
Lemma shape_le_trans m1 m2 m3 : shape_le m1 m2 -> shape_le m2 m3 -> shape_le m1 m3.
Proof. intros H1 H2 n a Ha. destruct (H1 _ _ Ha) as (b & Hb & E). destruct (H2 _ _ Hb) as (c & Hc & E'). exists c. split; [done|congruence]. Qed.
Lemma shape_le_insert m n a b : m !! n = Some a -> a_shape b = a_shape a -> shape_le m (<[n := b]> m).
Proof.
  intros Ha Hs k c Hc. destruct (decide (k = n)) as [->|Hne]; [rewrite lookup_insert_eq; exists b; split; [done|congruence]|rewrite lookup_insert_ne by done; eauto].
Qed.
#[export] Instance same_shapes_preorder : PreOrder same_shapes.
Proof.
  split.
  - intros d. split; apply shape_le_refl.
  - intros d1 d2 d3 [H1 H2] [H3 H4]. split; by eapply shape_le_trans.
Qed.
#[export] Instance same_params_preorder : PreOrder same_params.
Proof. split; [done|]. intros d1 d2 d3 [H1 H2] [H3 H4]. split; congruence. Qed.
Lemma params_shapes d d' : same_params d d' -> same_shapes d d'.
Proof. intros [H1 H2]. unfold same_shapes. rewrite H1, H2. split; apply shape_le_refl. Qed.

(** ** Executor groups *)

Definition gframe (R : device F -> device F -> Prop) (s s' : G) : Prop :=
  g_symbol s'.1 = g_symbol s.1 /\ g_param_names s'.1 = g_param_names s.1 /\ length (g_execs s'.1) = length (g_execs s.1) /\ Forall2 R s.2 s'.2.

(** The groups of one symbol. *)
Context (sym : symbol F) (unset : string -> list nat -> list F).
Definition keeps (R : device F -> device F -> Prop) {A} (m : M G A) : Prop := forall s, g_symbol s.1 = sym -> gframe R s (m s).2.

Section Compose.
Context (R : device F -> device F -> Prop) `{!PreOrder R}.

Lemma gframe_refl s : gframe R s s.
Proof. by split_and!. Qed.
Lemma gframe_trans s1 s2 s3 : gframe R s1 s2 -> gframe R s2 s3 -> gframe R s1 s3.
Proof. intros (A1 & A2 & A3 & A4) (B1 & B2 & B3 & B4). split_and!; [congruence|congruence|congruence|]. by transitivity s2.2. Qed.

Lemma keeps_pure {A} (m : M G A) : (forall s, (m s).2 = s) -> keeps R m.
Proof. intros Hm s _. rewrite Hm. apply gframe_refl. Qed.
Lemma keeps_lift {A} (r : result A) : keeps R (lift r).
Proof. by apply keeps_pure. Qed.
Lemma keeps_ret {A} (a : A) : keeps R (mret a : M G A).
Proof. by apply keeps_pure. Qed.
Lemma keeps_raise {A} e : keeps R (raise e : M G A).
Proof. by apply keeps_pure. Qed.
Lemma keeps_assert b : keeps R (massert b : M G unit).
Proof. by apply keeps_pure. Qed.
Lemma keeps_here : keeps R (get : M G G).
Proof. by apply keeps_pure. Qed.
Lemma keeps_bind {A B} (m : M G A) (f : A -> M G B) : keeps R m -> (forall a, keeps R (f a)) -> keeps R (m ≫= f).
Proof.
  intros Hm Hf s Hs. rewrite bind_M. specialize (Hm s Hs). destruct (m s) as [[a|e] s1]; [|done]. cbn [snd] in Hm.
  eapply gframe_trans; [done|]. apply Hf. by rewrite (proj1 Hm).
Qed.
(** The state is at hand in what follows. *)
Lemma keeps_get {B} (f : G -> M G B) : (forall s, g_symbol s.1 = sym -> gframe R s (f s s).2) -> keeps R (get ≫= f).
Proof. intros Hf s Hs. rewrite bind_get. by apply Hf. Qed.
Lemma keeps_forM {A} (f : A -> M G unit) l : (forall a, keeps R (f a)) -> keeps R (forM f l).
Proof. intros Hf. induction l as [|a l IH]; [by apply keeps_pure|]. cbn [forM]. by apply keeps_bind. Qed.
Lemma keeps_on_group f : (forall g, g_symbol (f g) = g_symbol g /\ g_param_names (f g) = g_param_names g /\ length (g_execs (f g)) = length (g_execs g)) -> keeps R (on_group f).
Proof. intros Hf [g devs] _. cbn. destruct (Hf g) as (A1 & A2 & A3). by split_and!. Qed.
Lemma keeps_set_exec i e : keeps R (set_exec i e).
Proof. intros [g devs] _. split_and!; try done. apply length_insert. Qed.

Lemma exec_at_cases i (s : G) : (exists e, exec_at i s = (Raise e, s)) \/ (exists e d, exec_at i s = (Ok (e, d), s) /\ g_execs s.1 !! i = Some e /\ s.2 !! i = Some d).
Proof.
  unfold exec_at. rewrite bind_get. unfold py_index. rewrite (proj2 (Z.ltb_ge (Z.of_nat i) 0)) by lia. rewrite (proj2 (Z.ltb_ge (Z.of_nat i) 0)) by lia. rewrite Nat2Z.id.
  rewrite bind_M. cbn [lift]. destruct (g_execs s.1 !! i) as [e|]; [|left; by eexists]. rewrite bind_M. cbn [lift]. destruct (s.2 !! i) as [d|]; [|left; by eexists].
  right. by exists e, d.
Qed.
Lemma keeps_exec_at i : keeps R (exec_at i).
Proof. intros s _. destruct (exec_at_cases i s) as [(e & ->)|(e & d & -> & _)]; apply gframe_refl. Qed.
Lemma frame_device i d d' (s : G) : s.2 !! i = Some d -> R d d' -> gframe R s (set_device i d' s).2.
Proof.
  intros Hd HR. destruct s as [g devs]. cbn in *. split_and!; try done. cbn. apply Forall2_same_length_lookup_2; [by rewrite length_insert|].
  intros j x y Hx Hy. destruct (decide (i = j)) as [->|Hne].
  - rewrite list_lookup_insert_eq in Hy by by eapply lookup_lt_Some. congruence.
  - rewrite list_lookup_insert_ne in Hy by done. rewrite Hx in Hy. injection Hy as <-. reflexivity.
Qed.
(** A step that reads an executor and its device, may change the executor, and changes the device. *)
Lemma keeps_at {B} i (f : exec F * device F -> M G B) :
  (forall e d s, g_symbol s.1 = sym -> s.2 !! i = Some d -> gframe R s (f (e, d) s).2) -> keeps R (exec_at i ≫= f).
Proof.
  intros Hf s Hs. rewrite bind_M. destruct (exec_at_cases i s) as [(e & ->)|(e & d & -> & _ & Hd)]; [apply gframe_refl|]. by apply Hf.
Qed.
End Compose.

Lemma keeps_mono (R R' : device F -> device F -> Prop) {A} (m : M G A) : (forall d d', R d d' -> R' d d') -> keeps R m -> keeps R' m.
Proof. intros HR Hm s Hs. destruct (Hm s Hs) as (A1 & A2 & A3 & A4). split_and!; try done. by eapply Forall2_impl. Qed.

#[local] Hint Resolve keeps_lift keeps_ret keeps_raise keeps_assert keeps_here keeps_exec_at keeps_set_exec : keeps.
#[local] Hint Extern 1 (keeps _ (on_group _)) => apply keeps_on_group; [apply _|done] : keeps.
Ltac keep := repeat first
  [ solve [eauto with keeps typeclass_instances]
  | apply keeps_forM; [apply _|intros ?]
  | apply keeps_bind; [apply _| |intros ?]
  | match goal with |- keeps _ (if ?b then _ else _) => destruct b | |- keeps _ (match ?x with _ => _ end) => destruct x end ].

(** ** The operations of a group *)

Lemma load_into_keeps i n f : keeps same_params (load_into i n f).
Proof. unfold load_into. keep. Qed.
#[local] Hint Resolve load_into_keeps : keeps.

Lemma load_inputs_keeps of_batch b names axes : keeps same_params (load_inputs of_batch b names axes).
Proof. unfold load_inputs, load_general, load_list, load_one. keep. Qed.
#[local] Hint Resolve load_inputs_keeps : keeps.

(** What is used of the auxiliary states that the symbol computes. *)
Class AuxLaws := {
  aux_shapes : forall tr args aux, shape_le aux ((s_forward sym tr args aux).2 ∪ aux);
  aux_predict : forall args aux, (s_forward sym false args aux).2 ∪ aux = aux;
}.
Context `{!AuxLaws}.

Lemma exec_forward_frame (R : device F -> device F -> Prop) `{!PreOrder R} tr i :
  (forall e d, R d (mkDevice (d_args d) ((s_forward sym tr (e_inputs e ∪ d_args d) (d_aux d)).2 ∪ d_aux d) (d_grads d))) -> keeps R (exec_forward tr i).
Proof.
  intros HR. apply keeps_get. intros s Hs. apply (keeps_at R i); [|done]. intros e d s' Hs' Hd.
  rewrite Hs. specialize (HR e d). destruct (s_forward sym tr (e_inputs e ∪ d_args d) (d_aux d)) as [outs aux]. rewrite bind_M.
  pose proof (keeps_set_exec R i (mkExec (e_inputs e) (e_igrads e) outs) s' Hs') as H1. cbn [set_exec modify snd fst] in *.
  eapply gframe_trans; [done|exact H1|]. by apply (frame_device _ i d).
Qed.
Lemma exec_forward_shapes tr i : keeps same_shapes (exec_forward tr i).
Proof. apply exec_forward_frame; [apply _|]. intros e d. split; [apply shape_le_refl|apply aux_shapes]. Qed.
Lemma exec_forward_params i : keeps same_params (exec_forward false i).
Proof. apply exec_forward_frame; [apply _|]. intros e d. split; [done|apply aux_predict]. Qed.
#[local] Hint Resolve exec_forward_shapes exec_forward_params : keeps.

Lemma load_inputs_shapes of_batch b names axes : keeps same_shapes (load_inputs of_batch b names axes).
Proof. eapply keeps_mono; [apply params_shapes|apply load_inputs_keeps]. Qed.
#[local] Hint Resolve load_inputs_shapes : keeps.

Lemma group_forward_shapes b tr : keeps same_shapes (group_forward b (Some tr)).
Proof. unfold group_forward. cbn [default]. keep. Qed.
Lemma group_forward_params b : keeps same_params (group_forward b (Some false)).
Proof. unfold group_forward. keep. Qed.

Lemma exec_backward_keeps gs i : keeps same_params (exec_backward gs i).
Proof.
  apply keeps_get. intros s Hs. apply (keeps_at same_params i); [|done]. intros e d s' Hs' Hd. cbn zeta. rewrite bind_M.
  match goal with |- context [set_exec i ?x s'] => pose proof (keeps_set_exec same_params i x s' Hs') as H1 end. cbn [set_exec modify snd fst] in *.
  eapply gframe_trans; [apply _|exact H1|]. by apply (frame_device _ i d).
Qed.
#[local] Hint Resolve exec_backward_keeps : keeps.
Lemma group_backward_keeps gs : keeps same_params (group_backward gs).
Proof. unfold group_backward. keep. Qed.

(** Writing parameters keeps shapes, since copies need equal shapes. *)
Lemma copy_arg_keeps ae i x : keeps same_shapes (copy_arg ae i x).
Proof.
  apply keeps_get. intros s Hs. apply (keeps_at same_shapes i); [|done]. intros e d s' Hs' Hd. destruct (_ && _).
  - unfold py_getitem. destruct (d_args d !! x.1) as [dst|] eqn:E; [|by apply gframe_refl; apply _]. rewrite bind_lift. unfold copyto.
    case_bool_decide as Hsh; [|by apply gframe_refl; apply _]. rewrite bind_lift. apply (frame_device _ i d); [done|]. split; [|apply shape_le_refl].
    cbn [d_args]. by apply (shape_le_insert _ _ dst).
  - assert (keeps same_shapes (if bool_decide (x.1 ∈ s_arguments (g_symbol s.1)) then
      dst ← lift (py_getitem (e_inputs e) x.1); v ← lift (copyto x.2 dst); set_exec i (mkExec (<[x.1 := v]> (e_inputs e)) (e_igrads e) (e_outputs e))
      else if ae then mret tt else raise ValueError)) as Hk by keep. by apply Hk.
Qed.
Lemma copy_aux_keeps ae i x : keeps same_shapes (copy_aux ae i x).
Proof.
  apply keeps_get. intros s Hs. apply (keeps_at same_shapes i); [|done]. intros e d s' Hs' Hd. case_bool_decide.
  - unfold py_getitem. destruct (d_aux d !! x.1) as [dst|] eqn:E; [|by apply gframe_refl; apply _]. rewrite bind_lift. unfold copyto.
    case_bool_decide as Hsh; [|by apply gframe_refl; apply _]. rewrite bind_lift. apply (frame_device _ i d); [done|]. split; [apply shape_le_refl|].
    cbn [d_aux]. by apply (shape_le_insert _ _ dst).
  - destruct ae; by apply gframe_refl; apply _.
Qed.
#[local] Hint Resolve copy_arg_keeps copy_aux_keeps : keeps.
Lemma group_set_params_keeps h ae : keeps same_shapes (group_set_params h ae).
Proof. unfold group_set_params, copy_params_from. keep. Qed.

(** Reshaping keeps the devices. *)
Lemma decide_loop_keeps l : keeps same_params (decide_loop l).
Proof.
  induction l as [|[d axis] l IH]; cbn [decide_loop]; [keep|]. destruct (axis =? -1); [done|]. keep.
Qed.
#[local] Hint Resolve decide_loop_keeps : keeps.
Lemma decide_slices_keeps l : keeps same_params (decide_slices l).
Proof. unfold decide_slices. keep. Qed.
#[local] Hint Resolve decide_slices_keeps : keeps.

Lemma bind_ith_keeps ds ls sh i : keeps same_params (bind_ith unset ds ls sh true i).
Proof.
  apply keeps_get. intros s Hs.
  assert (forall e, gframe same_params s (on_group (set_execs (<[i := e]> (g_execs s.1))) s).2) as Hset.
  { intros e. destruct s as [g devs]. split_and!; try done. apply length_insert. }
  rewrite bind_M. cbn [lift]. destruct (_sliced_shape _ _ _ _) as [a|]; [|apply gframe_refl; apply _].
  rewrite bind_M. cbn [lift]. destruct (match ls with Some _ => _ | None => _ end) as [b|]; [|apply gframe_refl; apply _]. cbn zeta.
  rewrite bind_M. cbn [lift]. destruct (py_index s.2 _) as [d|]; [|apply gframe_refl; apply _].
  rewrite bind_M. cbn [lift]. destruct (py_index (g_execs s.1) _) as [e|]; [|apply gframe_refl; apply _].
  rewrite bind_M. cbn [lift]. destruct (match g_default_execs s.1 with Some _ => _ | None => _ end) as [e0|]; [|apply gframe_refl; apply _].
  rewrite bind_M. cbn [lift]. destruct (exec_reshape _ _ _ _ _) as [e'|]; [|apply gframe_refl; apply _]. apply Hset.
Qed.
#[local] Hint Resolve bind_ith_keeps : keeps.

Lemma group_reshape_keeps ds ls : keeps same_params (group_reshape unset ds ls).
Proof.
  unfold group_reshape. apply keeps_bind; [apply _|keep|]. intros s. destruct (_ && _); [keep|]. unfold bind_exec. keep.
Qed.
End Keeps.

(** ** Modules *)

Section MKeeps.
Context {F O K : Type} `{Float F} `{OptimizerClass F O} `{ModuleKV F O K}.
Context (sym : symbol F) (unset : string -> list nat -> list F).
Notation arr := (nda F).
Notation S := (memory F O K * module F)%type.

(** Where the executor group and its devices are. *)
Definition at_group (s : S) (g : group F) (rd : nat) (devs : list (device F)) : Prop := m_group s.2 = Some (g, rd) /\ mm_devs s.1 !! rd = Some devs.
Definition ready_sym (s : S) : Prop := exists g rd devs, at_group s g rd devs /\ g_symbol g = sym.

Definition mframe (R : device F -> device F -> Prop) (s s' : S) : Prop :=
  m_host s'.2 = m_host s.2 /\ mm_hosts s'.1 = mm_hosts s.1 /\ m_binded s'.2 = m_binded s.2 /\ m_params_initialized s'.2 = m_params_initialized s.2 /\
  m_dirty s'.2 = m_dirty s.2 /\
  forall g rd devs, at_group s g rd devs -> exists g' devs', at_group s' g' rd devs' /\ gframe R (g, devs) (g', devs').
Definition keepsM (R : device F -> device F -> Prop) {A} (m : M S A) : Prop := forall s, ready_sym s -> mframe R s (m s).2.

Section Compose.
Context (R : device F -> device F -> Prop) `{!PreOrder R}.

Lemma mframe_refl s : mframe R s s.
Proof. split_and!; try done. intros g rd devs Hg. exists g, devs. split; [done|by apply gframe_refl]. Qed.
Lemma mframe_trans s1 s2 s3 : mframe R s1 s2 -> mframe R s2 s3 -> mframe R s1 s3.
Proof.
  intros (A1 & A2 & A3 & A4 & A5 & A6) (B1 & B2 & B3 & B4 & B5 & B6). split_and!; try congruence.
  intros g rd devs Hg. destruct (A6 _ _ _ Hg) as (g' & devs' & Hg' & Hf). destruct (B6 _ _ _ Hg') as (g'' & devs'' & Hg'' & Hf').
  exists g'', devs''. split; [done|]. by eapply gframe_trans.
Qed.
Lemma mframe_ready s s' : mframe R s s' -> ready_sym s -> ready_sym s'.
Proof.
  intros (_ & _ & _ & _ & _ & Hg) (g & rd & devs & Ha & Hs). destruct (Hg _ _ _ Ha) as (g' & devs' & Ha' & (E & _)). exists g', rd, devs'. split; [done|]. cbn [fst] in E. congruence.
Qed.

Lemma keepsM_pure {A} (m : M S A) : (forall s, (m s).2 = s) -> keepsM R m.
Proof. intros Hm s _. rewrite Hm. apply mframe_refl. Qed.
Lemma keepsM_lift {A} (r : result A) : keepsM R (lift r).
Proof. by apply keepsM_pure. Qed.
Lemma keepsM_ret {A} (a : A) : keepsM R (mret a : M S A).
Proof. by apply keepsM_pure. Qed.
Lemma keepsM_raise {A} e : keepsM R (raise e : M S A).
Proof. by apply keepsM_pure. Qed.
Lemma keepsM_assert b : keepsM R (massert b : M S unit).
Proof. by apply keepsM_pure. Qed.
Lemma keepsM_here : keepsM R (get : M S S).
Proof. by apply keepsM_pure. Qed.
Lemma keepsM_bind {A B} (m : M S A) (f : A -> M S B) : keepsM R m -> (forall a, keepsM R (f a)) -> keepsM R (m ≫= f).
Proof.
  intros Hm Hf s Hs. rewrite bind_M. specialize (Hm s Hs). destruct (m s) as [[a|e] s1]; [|done]. cbn [snd] in Hm.
  eapply mframe_trans; [done|]. apply Hf. by eapply mframe_ready.
Qed.
Lemma keepsM_forM {A} (f : A -> M S unit) l : (forall a, keepsM R (f a)) -> keepsM R (forM f l).
Proof. intros Hf. induction l as [|a l IH]; [by apply keepsM_pure|]. cbn [forM]. by apply keepsM_bind. Qed.

(** A computation on the group, on the store and on the updaters. *)
Lemma keepsM_on_grp {A} (f : M (group F * list (device F)) A) : keeps sym R f -> keepsM R (on_grp f).
Proof.
  intros Hf s (g & rd & devs & [Hg Hd] & Hs). unfold on_grp. rewrite Hg, Hd. specialize (Hf (g, devs) Hs). destruct (f (g, devs)) as [a [g' devs']].
  cbn [snd] in *. split_and!; try done. intros g0 rd0 devs0 [Hg0 Hd0]. rewrite Hg in Hg0. injection Hg0 as <- <-. rewrite Hd in Hd0. injection Hd0 as <-.
  exists g', devs'. split; [|done]. split; [done|]. cbn [fst put_devs mm_devs]. apply list_lookup_insert_eq. by eapply lookup_lt_Some.
Qed.
Lemma keepsM_group : keepsM R the_group.
Proof. apply keepsM_on_grp. by apply keeps_here. Qed.
Lemma keepsM_on_kv {A} (f : M K A) : keepsM R (on_kv f).
Proof.
  intros s Hs. unfold on_kv. destruct (m_kv s.2) as [r|]; [|apply mframe_refl]. destruct (mm_kvs s.1 !! r) as [k|]; [|apply mframe_refl].
  destruct (f k) as [a k']. cbn [snd]. split_and!; try done. intros g rd devs Hg. exists g, devs. split; [exact Hg|by apply gframe_refl].
Qed.
(** Changes of the memory and of the module that do not touch what is kept. *)
Lemma keepsM_modify (f : S -> S) : (forall s, m_host (f s).2 = m_host s.2 /\ mm_hosts (f s).1 = mm_hosts s.1 /\ m_binded (f s).2 = m_binded s.2 /\
  m_params_initialized (f s).2 = m_params_initialized s.2 /\ m_dirty (f s).2 = m_dirty s.2 /\ m_group (f s).2 = m_group s.2 /\ mm_devs (f s).1 = mm_devs s.1) -> keepsM R (modify f).
Proof.
  intros Hf s _. destruct (Hf s) as (A1 & A2 & A3 & A4 & A5 & A6 & A7). cbn. split_and!; try done. intros g rd devs [Hg Hd]. exists g, devs.
  split; [split; congruence|by apply gframe_refl].
Qed.
End Compose.

Lemma keepsM_mono (R R' : device F -> device F -> Prop) {A} (m : M S A) : (forall d d', R d d' -> R' d d') -> keepsM R m -> keepsM R' m.
Proof.
  intros HR Hm s Hs. destruct (Hm s Hs) as (A1 & A2 & A3 & A4 & A5 & A6). split_and!; try done. intros g rd devs Hg.
  destruct (A6 _ _ _ Hg) as (g' & devs' & Hg' & (B1 & B2 & B3 & B4)). exists g', devs'. split; [done|]. split_and!; try done. by eapply Forall2_impl.
Qed.

#[local] Hint Resolve keepsM_lift keepsM_ret keepsM_raise keepsM_assert keepsM_here keepsM_group keepsM_on_kv : keeps.
Ltac keepM := repeat first
  [ solve [eauto with keeps typeclass_instances]
  | apply keepsM_forM; [apply _|intros ?]
  | apply keepsM_bind; [apply _| |intros ?]
  | match goal with |- keepsM _ (if ?b then _ else _) => destruct b | |- keepsM _ (match ?x with _ => _ end) => destruct x end ].

Lemma assert_ready_keeps (R : device F -> device F -> Prop) `{!PreOrder R} : keepsM R (assert_ready : M S unit).
Proof. unfold assert_ready. keepM. Qed.
#[local] Hint Resolve assert_ready_keeps : keeps.

Lemma reshape_keeps ds ls : keepsM same_params (m_reshape unset ds ls).
Proof.
  unfold m_reshape. keepM.
  apply keepsM_on_grp. apply group_reshape_keeps.
Qed.
Lemma reshape_shapes ds ls : keepsM same_shapes (m_reshape unset ds ls).
Proof. eapply keepsM_mono; [apply params_shapes|apply reshape_keeps]. Qed.
#[local] Hint Resolve reshape_keeps reshape_shapes : keeps.

Context `{!AuxLaws sym}.
Lemma forward_shapes b tr : keepsM same_shapes (forward unset b (Some tr)).
Proof.
  unfold forward. keepM.
  apply keepsM_on_grp, group_forward_shapes; apply _.
Qed.
Lemma forward_params b : keepsM same_params (forward unset b (Some false)).
Proof. unfold forward. keepM. apply keepsM_on_grp, group_forward_params; apply _. Qed.
Lemma backward_keeps gs : keepsM same_params (backward gs).
Proof. unfold backward. keepM. apply keepsM_on_grp. apply group_backward_keeps. Qed.
Lemma forward_backward_shapes b : keepsM same_shapes (forward_backward unset b).
Proof.
  unfold forward_backward. apply keepsM_bind; [apply _|apply forward_shapes|]. intros _. eapply keepsM_mono; [apply params_shapes|apply backward_keeps].
Qed.

(** ** Updates *)

Lemma put_flat_shapes l (m : gmap string arr) n : shape_le m (put_flat l m n).
Proof.
  intros k a Ha. unfold put_flat. destruct (decide (k = n)) as [->|Hne].
  - exists (mkNda (a_shape a) l). by rewrite lookup_alter_eq, Ha.
  - exists a. by rewrite lookup_alter_ne by done.
Qed.

Lemma zip_write (R : device F -> device F -> Prop) `{!PreOrder R} (f : device F -> arr -> device F) : (forall d a, R d (f d a)) -> forall l k, Forall2 R l (zip_with f l k ++ drop (length k) l).
Proof.
  intros Hf l. induction l as [|d l IH]; intros k; [by rewrite drop_nil|]. destruct k as [|a k]; [by cbn|]. cbn. constructor; [done|apply IH].
Qed.

Lemma write_args_keeps n l : keeps sym same_shapes (write_args n l : M (group F * list (device F)) unit).
Proof. intros [g devs] _. split_and!; try done. cbn. apply zip_write; [apply _|]. intros d a. split; [apply put_flat_shapes|apply shape_le_refl]. Qed.
Lemma write_grads_keeps n l : keeps sym same_shapes (write_grads n l : M (group F * list (device F)) unit).
Proof. intros [g devs] _. split_and!; try done. cbn. apply zip_write; [apply _|]. intros d a. split; apply shape_le_refl. Qed.
Lemma read_all_keeps (R : device F -> device F -> Prop) `{!PreOrder R} read n : keeps sym R (read_all read n).
Proof. by apply keeps_pure. Qed.

Lemma put_results_shapes xs rs : forall d : device F, same_shapes d (put_results xs rs d).
Proof.
  unfold put_results. induction (zip xs rs) as [|[x r] l IH]; intros d; [reflexivity|]. cbn [foldl]. etransitivity; [|apply IH].
  split; [apply put_flat_shapes|apply shape_le_refl].
Qed.
Lemma put_device_keeps xs rs k : keeps sym same_shapes (modify (fun gs : group F * list (device F) => (gs.1, alter (put_results xs rs) k gs.2))).
Proof.
  intros [g devs] _. split_and!; try done. cbn. apply Forall2_same_length_lookup_2; [by rewrite length_alter|]. intros j x y Hx Hy.
  destruct (decide (k = j)) as [->|Hne].
  - rewrite list_lookup_alter_eq, Hx in Hy. injection Hy as <-. apply put_results_shapes.
  - rewrite list_lookup_alter_ne, Hx in Hy by done. injection Hy as <-. reflexivity.
Qed.
#[local] Hint Resolve write_args_keeps write_grads_keeps read_all_keeps put_device_keeps : keeps.
#[local] Hint Extern 2 (keepsM _ (on_grp _)) => apply keepsM_on_grp : keeps.
#[local] Hint Extern 2 (keepsM _ (modify _)) => by apply keepsM_modify : keeps.

Lemma push_pull_keeps x : keepsM same_shapes (push_pull x).
Proof. unfold push_pull. keepM. Qed.
Lemma exchange_keeps x : keepsM same_shapes (exchange_grads x).
Proof. unfold exchange_grads. keepM. Qed.
Lemma update_device_keeps n xs k : keepsM same_shapes (update_device n xs k).
Proof. unfold update_device. keepM. Qed.
#[local] Hint Resolve push_pull_keeps exchange_keeps update_device_keeps : keeps.
Lemma update_params_keeps : keepsM same_shapes _update_params.
Proof. unfold _update_params. keepM. Qed.
#[local] Hint Resolve update_params_keeps : keeps.

(** What [update] does after it marked the host parameters. *)
Definition update_devices : M S unit :=
  s ← get;
  the_group ≫= fun gs : group F * list (device F) =>
  if g_for_training gs.1 then (if m_update_on_kv s.2 then forM push_pull (indexed_params gs.1) else _update_params) else raise TypeError.
Lemma update_devices_keeps : keepsM same_shapes update_devices.
Proof. unfold update_devices. keepM. Qed.

Lemma update_split s : m_binded s.2 && m_params_initialized s.2 && m_optimizer_initialized s.2 = true ->
  m_update s = update_devices (s.1, set_host (m_host s.2) true s.2).
Proof. intros E. unfold m_update. rewrite bind_get, bind_massert by done. reflexivity. Qed.

(** ** The optimizer *)

Lemma flags_keeps (R : device F -> device F -> Prop) `{!PreOrder R} f : (forall m : module F, m_host (f m) = m_host m /\ m_binded (f m) = m_binded m /\
  m_params_initialized (f m) = m_params_initialized m /\ m_dirty (f m) = m_dirty m /\ m_group (f m) = m_group m) -> keepsM R (on_m f : M S unit).
Proof. intros Hf. apply keepsM_modify; [apply _|]. intros s. destruct (Hf s.2) as (A1 & A2 & A3 & A4 & A5). done. Qed.

Lemma load_states_keeps (R : device F -> device F -> Prop) `{!PreOrder R} fname : keepsM R (load_optimizer_states fname : M S unit).
Proof. unfold load_optimizer_states. keepM. Qed.
Lemma new_kv_keeps (R : device F -> device F -> Prop) `{!PreOrder R} k : keepsM R (new_kv k : M S nat).
Proof. intros s _. split_and!; try done. intros g rd devs Hg. exists g, devs. split; [done|by apply gframe_refl]. Qed.
Lemma new_updater_keeps (R : device F -> device F -> Prop) `{!PreOrder R} u : keepsM R (new_updater u : M S nat).
Proof. intros s _. split_and!; try done. intros g rd devs Hg. exists g, devs. split; [done|by apply gframe_refl]. Qed.
#[local] Hint Resolve load_states_keeps new_kv_keeps new_updater_keeps : keeps.

Lemma open_store_keeps kv uok c o : keepsM same_params (open_store kv uok c o).
Proof. unfold open_store. keepM. Qed.
Lemma finish_optimizer_keeps r uok o p : keepsM same_params (finish_optimizer r uok o p).
Proof. unfold finish_optimizer. keepM. Qed.
End MKeeps.
