(* ===== verification/ModuleCoherent.v ===== *)
(** * Lazy synchronisation cannot be seen

    From binding on, through any sequence of successful initializations, assignments, training
    steps, predictions, reshapes and initializations of the optimizer, [get_params] returns
    what the devices hold.  The exceptions that the code has are at the end: binding again
    while the host parameters are dirty forgets the updates, and the auxiliary states that a
    training pass changed without an update are not seen. *)

From Stdlib Require Import Ascii String.
From stdpp Require Import strings.
From S2P Require Import Prelude NDArray Array Split Axis DataIter LRScheduler Optimizer Trainer Scope RNNCell Checkpoint ExecGroup ExecParallel ModuleDef ModuleSync ModuleKeeps.
Open Scope Z_scope.

Section Coherent.
Context {F O K : Type} `{Averages F} `{OptimizerClass F O} `{ModuleKV F O K}.
Context (unset : string -> list nat -> list F) (create_opt : string -> option F -> gmap key string -> result O).
Context (env_update_on_kvstore : bool) (large : nda F -> bool).
Context (sym : symbol F) `{!AuxLaws sym}.
Notation arr := (nda F).
Notation host := (gmap string arr * gmap string arr)%type.
Notation G := (group F * list (device F))%type.
Notation S := (memory F O K * module F)%type.

(** ** The invariant *)

Record inv_at (s : S) (g : group F) (rd : nat) (devs : list (device F)) (r : nat) (h : host) (SA SX : string -> list nat) : Prop := {
  iv_group : at_group s g rd devs;
  iv_symbol : g_symbol g = sym;
  iv_binded : m_binded s.2 = true;
  iv_host : m_host s.2 = Some r;
  iv_h : mm_hosts s.1 !! r = Some h;
  iv_typed : typed SA SX (g, devs);
  iv_htyped : host_typed SA SX (g, devs) h;
}.
Definition inv (s : S) : Prop := exists g rd devs r h SA SX, inv_at s g rd devs r h SA SX /\
  (m_params_initialized s.2 = true -> m_dirty s.2 = false -> h = view (g, devs)).

Lemma own_params_frame R (s s' : G) : gframe R s s' -> own_params s'.1 = own_params s.1.
Proof. intros (E1 & E2 & _). unfold own_params, is_param. by rewrite E1, E2. Qed.

Lemma holds_shapes (read : device F -> gmap string arr) names sh l l' : Forall2 (fun d d' => shape_le (read d) (read d')) l l' -> holds read names sh l -> holds read names sh l'.
Proof.
  intros HF Hh d' n Hd Hn. apply list_elem_of_lookup in Hd as [i Hi]. destruct (Forall2_lookup_r _ _ _ _ _ HF Hi) as (d & Hd & Hle).
  destruct (Hh d n (list_elem_of_lookup_2 _ _ _ Hd) Hn) as (a & Ha & Hs). destruct (Hle _ _ Ha) as (a' & Ha' & Hs'). exists a'. split; [done|congruence].
Qed.

Lemma typed_frame SA SX (s : G) s' : typed SA SX s -> gframe same_shapes s s' -> typed SA SX s'.
Proof.
  intros Ht Hf. pose proof (own_params_frame _ _ _ Hf) as Eo. destruct Hf as (E1 & E2 & E3 & E4). split.
  - by rewrite E3, (ty_len _ _ _ Ht), (Forall2_length _ _ _ E4).
  - intros E. rewrite E in E4. apply Forall2_nil_inv_r in E4. by apply (ty_ne _ _ _ Ht).
  - rewrite Eo, E2. apply Ht.
  - rewrite Eo. eapply holds_shapes; [|apply (ty_args _ _ _ Ht)]. eapply Forall2_impl; [exact E4|by intros ? ? []].
  - rewrite E1. eapply holds_shapes; [|apply (ty_aux _ _ _ Ht)]. eapply Forall2_impl; [exact E4|by intros ? ? []].
Qed.

Lemma host_typed_frame R SA SX (s : G) s' h : host_typed SA SX s h -> gframe R s s' -> host_typed SA SX s' h.
Proof. intros Hh Hf. unfold host_typed. rewrite (own_params_frame _ _ _ Hf), (proj1 Hf). exact Hh. Qed.

Lemma shown_frame (read : device F -> gmap string arr) l l' n : Forall2 (fun d d' => read d' = read d) l l' -> shown read l' n = shown read l n.
Proof.
  intros HF. unfold shown, collect. assert (mapR (fun d => py_getitem (read d) n) l' = mapR (fun d => py_getitem (read d) n) l) as ->; [|done].
  induction HF as [|d d' l l' E _ IH]; [done|]. cbn. by rewrite E, IH.
Qed.
Lemma view_frame SA SX (s : G) s' : typed SA SX s -> gframe same_params s s' -> view s' = view s.
Proof.
  intros Ht Hf. assert (gframe same_shapes s s') as Hf' by (destruct Hf as (A1 & A2 & A3 & A4); split_and!; try done; eapply Forall2_impl; [done|apply params_shapes]).
  unfold view. rewrite (own_all _ _ _ Ht), (own_all _ _ _ (typed_frame _ _ _ _ Ht Hf')), (own_params_frame _ _ _ Hf). destruct Hf as (E1 & _ & _ & E4).
  rewrite E1. f_equal; f_equal; apply map_ext; intros n; f_equal; apply shown_frame; (eapply Forall2_impl; [exact E4|by intros ? ? []]).
Qed.

Lemma inv_ready s g rd devs r h SA SX : inv_at s g rd devs r h SA SX -> ready_sym sym s.
Proof. intros Hi. exists g, rd, devs. split; [apply Hi|apply Hi]. Qed.

(** Operations that keep shapes keep the typing, and those that keep parameters the view. *)
Lemma inv_at_frame s s' g rd devs r h SA SX : inv_at s g rd devs r h SA SX -> mframe same_shapes s s' ->
  exists g' devs', inv_at s' g' rd devs' r h SA SX /\ gframe same_shapes (g, devs) (g', devs').
Proof.
  intros Hi (A1 & A2 & A3 & A4 & A5 & A6). destruct (A6 _ _ _ (iv_group _ _ _ _ _ _ _ _ Hi)) as (g' & devs' & Hg' & Hf). exists g', devs'. split; [|done].
  split; [done|rewrite (proj1 Hf : g_symbol g' = g_symbol g); apply Hi|rewrite A3; apply Hi|rewrite A1; apply Hi|rewrite A2; apply Hi| |].
  - eapply typed_frame; [apply Hi|done].
  - eapply host_typed_frame; [apply Hi|done].
Qed.

Lemma mframe_shapes (s s' : S) : mframe same_params s s' -> mframe same_shapes s s'.
Proof.
  intros (A1 & A2 & A3 & A4 & A5 & A6). split_and!; try done. intros g0 rd0 d0 Hg. destruct (A6 _ _ _ Hg) as (g' & devs' & Hg' & (B1 & B2 & B3 & B4)).
  exists g', devs'. split; [done|]. split_and!; try done. eapply Forall2_impl; [done|apply params_shapes].
Qed.

Lemma inv_at_params s s' g rd devs r h SA SX : inv_at s g rd devs r h SA SX -> mframe same_params s s' ->
  exists g' devs', inv_at s' g' rd devs' r h SA SX /\ own_params g' = own_params g /\ view (g', devs') = view (g, devs).
Proof.
  intros Hi Hf. destruct (inv_at_frame _ _ _ _ _ _ _ _ _ Hi (mframe_shapes _ _ Hf)) as (g' & devs' & Hi' & Hgf). exists g', devs'.
  split_and!; [done|exact (own_params_frame _ _ _ Hgf)|].
  destruct Hf as (_ & _ & _ & _ & _ & A6). destruct (A6 _ _ _ (iv_group _ _ _ _ _ _ _ _ Hi)) as (g2 & devs2 & Hg2 & Hf2).
  destruct (iv_group _ _ _ _ _ _ _ _ Hi') as [E1 E2]. destruct Hg2 as [E3 E4]. rewrite E1 in E3. injection E3 as <-. rewrite E2 in E4. injection E4 as <-.
  eapply view_frame; [apply Hi|done].
Qed.

Lemma inv_params s s' : inv s -> mframe same_params s s' -> inv s'.
Proof.
  intros (g & rd & devs & r & h & SA & SX & Hi & Hv) Hf. destruct (inv_at_params _ _ _ _ _ _ _ _ _ Hi Hf) as (g' & devs' & Hi' & _ & Ev).
  exists g', rd, devs', r, h, SA, SX. split; [done|]. destruct Hf as (_ & _ & _ & A4 & A5 & _). rewrite A4, A5, Ev. done.
Qed.

(** ** Reading *)

(** The module after [_sync_params_from_devices]. *)
Definition synced (s : S) (r : nat) (v : host) (g : group F) (rd : nat) (devs : list (device F)) : S :=
  (put_hosts (<[r := v]> (mm_hosts s.1)) (put_devs (<[rd := devs]> (mm_devs s.1)) s.1),
   set_host (m_host s.2) false (set_group (Some (g, rd)) (m_data_shapes s.2) (m_label_shapes s.2) s.2)).

Lemma the_group_run (s : S) g rd devs : at_group s g rd devs ->
  the_group s = (Ok (g, devs), (put_devs (<[rd := devs]> (mm_devs s.1)) s.1, set_group (Some (g, rd)) (m_data_shapes s.2) (m_label_shapes s.2) s.2)).
Proof. intros [Hg Hd]. unfold the_group, on_grp. by rewrite Hg, Hd. Qed.

Lemma on_host_run {A} (f : M host A) (s : S) r h : m_host s.2 = Some r -> mm_hosts s.1 !! r = Some h ->
  on_host f s = ((f h).1, (put_hosts (<[r := (f h).2]> (mm_hosts s.1)) s.1, s.2)).
Proof. intros Hr Hh. unfold on_host. rewrite Hr, Hh. by destruct (f h). Qed.

Lemma sync_module s g rd devs r h SA SX : inv_at s g rd devs r h SA SX -> _sync_params_from_devices s = (Ok tt, synced s r (view (g, devs)) g rd devs).
Proof.
  intros Hi. unfold _sync_params_from_devices. rewrite (bind_run _ _ _ _ _ (the_group_run _ _ _ _ (iv_group _ _ _ _ _ _ _ _ Hi))).
  erewrite bind_run; [|rewrite (on_host_run _ _ r h); [|apply Hi|apply Hi]; rewrite (sync_run SA SX); [done|apply Hi|apply Hi]]. done.
Qed.

Lemma synced_inv s g rd devs r h SA SX : inv_at s g rd devs r h SA SX -> inv_at (synced s r (view (g, devs)) g rd devs) g rd devs r (view (g, devs)) SA SX.
Proof.
  intros Hi. destruct (iv_group _ _ _ _ _ _ _ _ Hi) as [Hg Hd]. split; try apply Hi.
  - split; [done|]. cbn. by rewrite list_lookup_insert_eq by by eapply lookup_lt_Some.
  - cbn. rewrite list_lookup_insert_eq; [done|]. eapply lookup_lt_Some. apply Hi.
  - apply view_typed. apply Hi.
Qed.

Lemma get_params_run s : inv s -> m_params_initialized s.2 = true ->
  exists g rd devs s', at_group s g rd devs /\ get_params s = (Ok (view (g, devs)), s') /\ at_group s' g rd devs /\ inv s'.
Proof.
  intros (g & rd & devs & r & h & SA & SX & Hi & Hv) Hini. unfold get_params, assert_ready.
  assert ((get ≫= fun s : S => massert (m_binded s.2 && m_params_initialized s.2)) s = (Ok tt, s)) as Ea.
  { rewrite bind_get, (iv_binded _ _ _ _ _ _ _ _ Hi), Hini. done. }
  rewrite (bind_run _ _ _ _ _ Ea), bind_get. destruct (m_dirty s.2) eqn:Ed.
  - rewrite (bind_run _ _ _ _ _ (sync_module _ _ _ _ _ _ _ _ Hi)). pose proof (synced_inv _ _ _ _ _ _ _ _ Hi) as Hi'.
    rewrite (on_host_run _ _ r (view (g, devs))); [|apply Hi'|apply Hi']. cbn [fst snd get].
    eexists g, rd, devs, _. split_and!; [apply Hi|done|apply Hi'|]. exists g, rd, devs, r, (view (g, devs)), SA, SX. split; [|done].
    destruct Hi'. split; try done. cbn. rewrite list_lookup_insert_eq; [done|]. rewrite length_insert. eapply lookup_lt_Some. apply Hi.
  - rewrite (bind_run (mret tt) _ s s tt eq_refl). rewrite (on_host_run _ _ r h); [|apply Hi|apply Hi]. cbn [fst snd get].
    rewrite (Hv Hini eq_refl). eexists g, rd, devs, _. split_and!; [apply Hi|done|apply Hi|]. exists g, rd, devs, r, (view (g, devs)), SA, SX. split; [|done].
    pose proof (Hv Hini eq_refl) as ->. destruct Hi. split; try done. cbn. rewrite list_lookup_insert_eq; [done|]. by eapply lookup_lt_Some.
Qed.

(** ** Writing *)

(** An initializer fills an array and does not change its shape. *)
Definition shape_safe (f : option (string -> arr -> result arr)) : Prop := forall i n a v, f = Some i -> i n a = Ok v -> a_shape v = a_shape a.

Lemma init_array_shape f cache am x v : shape_safe f -> init_array f cache am x = Ok v -> a_shape v = a_shape x.2.
Proof.
  intros Hf. unfold init_array. destruct cache as [c|].
  - destruct (c !! x.1) as [w|]; [unfold copyto; case_bool_decide; naive_solver|]. destruct (negb am); [done|]. destruct f as [i|]; [|naive_solver]. by apply Hf.
  - destruct f as [i|]; [|done]. by apply Hf.
Qed.

Lemma covers_insert names sh (m : gmap string arr) n v : covers names sh m -> n ∈ names -> a_shape v = sh n -> covers names sh (<[n := v]> m : gmap string arr).
Proof.
  intros [C1 C2] Hn Hs. split.
  - intros k Hk. destruct (decide (k = n)) as [->|Hne]; [rewrite lookup_insert_eq; eauto|rewrite lookup_insert_ne by done; by apply C1].
  - intros k a Hk. destruct (decide (k = n)) as [->|Hne]; [done|rewrite lookup_insert_ne in Hk by done; by eapply C2].
Qed.

Lemma init_args_ok (f : string * arr -> result arr) names sh : (forall x v, f x = Ok v -> a_shape v = a_shape x.2) -> forall l (h h' : host) u, covers names sh h.1 ->
  (forall x, x ∈ l -> x.1 ∈ names /\ a_shape x.2 = sh x.1) -> forM (init_arg f) l h = (Ok u, h') -> covers names sh h'.1 /\ h'.2 = h.2.
Proof.
  intros Hf. induction l as [|x l IH]; intros h h' u Hc Hl E; cbn [forM] in E; [by injection E as _ <-|]. inv_step E. unfold init_arg in E0. inv_step E0.
  apply lift_ok in E1 as [Ev ->]. injection E0 as _ <-. destruct (Hl x ltac:(by left)) as [Hn Hs].
  apply IH in E as [Hc' E']; [by rewrite E'| |intros y Hy; apply Hl; by right]. cbn [fst]. apply covers_insert; [done|done|]. rewrite (Hf _ _ Ev). done.
Qed.
Lemma init_auxs_ok (f : string * arr -> result arr) names sh : (forall x v, f x = Ok v -> a_shape v = a_shape x.2) -> forall l (h h' : host) u, covers names sh h.2 ->
  (forall x, x ∈ l -> x.1 ∈ names /\ a_shape x.2 = sh x.1) -> forM (init_aux f) l h = (Ok u, h') -> covers names sh h'.2 /\ h'.1 = h.1.
Proof.
  intros Hf. induction l as [|x l IH]; intros h h' u Hc Hl E; cbn [forM] in E; [by injection E as _ <-|]. inv_step E. unfold init_aux in E0. inv_step E0.
  apply lift_ok in E1 as [Ev ->]. injection E0 as _ <-. destruct (Hl x ltac:(by left)) as [Hn Hs].
  apply IH in E as [Hc' E']; [by rewrite E'| |intros y Hy; apply Hl; by right]. cbn [snd]. apply covers_insert; [done|done|]. rewrite (Hf _ _ Ev). done.
Qed.

Lemma sorted_covers names sh (m : gmap string arr) x : covers names sh m -> x ∈ sorted_items m -> x.1 ∈ names /\ a_shape x.2 = sh x.1.
Proof.
  intros [C1 C2] Hx. unfold sorted_items in Hx. rewrite py_sort_perm in Hx. destruct x as [n v]. apply elem_of_map_to_list in Hx. pose proof (C2 _ _ Hx) as Hn.
  destruct (C1 n Hn) as (a & Ha & Hs). rewrite Hx in Ha. injection Ha as <-. done.
Qed.

Lemma init_host_ok f arg aux am SA SX (s : G) h h' u : shape_safe f -> host_typed SA SX s h -> init_host f arg aux am h = (Ok u, h') -> host_typed SA SX s h'.
Proof.
  intros Hf [Ha Hx] E. unfold init_host in E. rewrite bind_get in E. inv_step E.
  destruct (init_args_ok _ _ SA (fun x v => init_array_shape f arg am x v Hf) _ _ _ _ Ha (fun x Hi => sorted_covers _ _ _ x Ha Hi) E0) as [Hc1 E2].
  assert (covers (s_auxiliary (g_symbol s.1)) SX s0.2) as Hx' by by rewrite E2.
  destruct (init_auxs_ok _ _ SX (fun x v => init_array_shape f aux am x v Hf) _ _ _ _ Hx' (fun x Hi => sorted_covers _ _ _ x Hx Hi) E) as [Hc2 E1].
  split; [by rewrite E1|done].
Qed.

Lemma init_params_inv f arg aux am fi ae s s' u : shape_safe f -> inv s -> init_params f arg aux am fi ae s = (Ok u, s') -> inv s'.
Proof.
  intros Hf Hinv E. unfold init_params in E. rewrite bind_get in E. destruct (m_params_initialized s.2 && negb fi); [by injection E as _ <-|].
  inv_step E. apply massert_ok in E0 as [_ ->]. destruct Hinv as (g & rd & devs & r & h & SA & SX & Hi & _).
  inv_step E. rewrite (on_host_run _ _ r h) in E0 by apply Hi. destruct (init_host f arg aux am h) as [res h'] eqn:Eh. injection E0 as -> <-.
  pose proof (init_host_ok _ _ _ _ _ _ _ _ _ _ Hf (iv_htyped _ _ _ _ _ _ _ _ Hi) Eh) as Hh'. cbn [fst snd] in *.
  unfold on_m in E. rewrite bind_modify in E. cbn [fst snd] in E. destruct (iv_group _ _ _ _ _ _ _ _ Hi) as [Hg Hd].
  assert (r < length (mm_hosts s.1))%nat as Hr by (eapply lookup_lt_Some; apply Hi).
  inv_step E. rewrite (on_host_run _ _ r h') in E0; [|apply Hi|cbn; by rewrite list_lookup_insert_eq]. injection E0 as <- <-. cbn [fst snd get] in E.
  unfold on_grp in E. cbn [fst snd set_host set_flags m_group put_hosts mm_devs] in E. rewrite Hg, Hd in E.
  rewrite (set_run SA SX (g, devs) h' ae (iv_typed _ _ _ _ _ _ _ _ Hi) Hh') in E. injection E as _ <-. cbn [fst snd].
  destruct (set_typed SA SX (g, devs) h' (iv_typed _ _ _ _ _ _ _ _ Hi) Hh') as [Ht Hv]. cbn [fst snd] in Ht, Hv.
  exists g, rd, (map (put_host h') devs), r, h', SA, SX. split; [|by rewrite Hv]. split; try apply Hi; try done.
  - split; [done|]. cbn. by rewrite list_lookup_insert_eq by by eapply lookup_lt_Some.
  - cbn. by rewrite list_lookup_insert_eq by by rewrite length_insert.
Qed.

Lemma dirty_inv s g rd devs r h SA SX : inv_at s g rd devs r h SA SX -> m_dirty s.2 = true -> inv s.
Proof. intros Hi Hd. exists g, rd, devs, r, h, SA, SX. split; [done|]. by rewrite Hd. Qed.

Lemma set_params_inv arg aux am fi ae s s' u : inv s -> set_params arg aux am fi ae s = (Ok u, s') -> inv s'.
Proof.
  intros Hinv E. unfold set_params in E. destruct (negb am); [eapply init_params_inv; [|done|exact E]; by intros ????|].
  rewrite bind_get in E. destruct (m_params_initialized s.2 && negb fi); [by injection E as _ <-|]. inv_step E.
  destruct Hinv as (g & rd & devs & r & h & SA & SX & Hi & _).
  pose proof (keepsM_on_grp sym same_shapes _ (group_set_params_keeps sym (arg, aux) ae) s (inv_ready _ _ _ _ _ _ _ _ Hi)) as Hf. rewrite E0 in Hf. cbn [snd] in Hf.
  destruct (inv_at_frame _ _ _ _ _ _ _ _ _ Hi Hf) as (g' & devs' & Hi' & _). injection E as _ <-.
  eapply (dirty_inv _ g' rd devs' r h SA SX); [|done]. destruct Hi'. by split.
Qed.

(** ** Training and predicting *)

Lemma train_inv b s s' u u' s1 : inv s -> forward_backward unset b s = (Ok u, s1) -> m_update s1 = (Ok u', s') -> inv s'.
Proof.
  intros (g & rd & devs & r & h & SA & SX & Hi & _) E1 E2.
  pose proof (forward_backward_shapes sym unset b s (inv_ready _ _ _ _ _ _ _ _ Hi)) as Hf. rewrite E1 in Hf. cbn [snd] in Hf.
  destruct (inv_at_frame _ _ _ _ _ _ _ _ _ Hi Hf) as (g1 & devs1 & Hi1 & _).
  destruct (m_binded s1.2 && m_params_initialized s1.2 && m_optimizer_initialized s1.2) eqn:Eb;
    [|unfold m_update in E2; rewrite bind_get, Eb in E2; done].
  rewrite update_split in E2 by done. set (s2 := (s1.1, set_host (m_host s1.2) true s1.2)) in E2.
  assert (inv_at s2 g1 rd devs1 r h SA SX) as Hi2 by (destruct Hi1; by split).
  pose proof (update_devices_keeps sym s2 (inv_ready _ _ _ _ _ _ _ _ Hi2)) as Hf2. rewrite E2 in Hf2. cbn [snd] in Hf2.
  destruct (inv_at_frame _ _ _ _ _ _ _ _ _ Hi2 Hf2) as (g3 & devs3 & Hi3 & _). apply (dirty_inv _ _ _ _ _ _ _ _ Hi3). destruct Hf2 as (_ & _ & _ & _ & -> & _). done.
Qed.

Lemma kept_inv {A} (m : M S A) s r s' : keepsM sym same_params m -> inv s -> m s = (r, s') -> inv s'.
Proof.
  intros Hk Hinv E. pose proof Hinv as (g & rd & devs & r0 & h & SA & SX & Hi & _). pose proof (Hk s (inv_ready _ _ _ _ _ _ _ _ Hi)) as Hf.
  rewrite E in Hf. by eapply inv_params.
Qed.

(** ** The optimizer *)

(** A store that was given an array returns it. *)
Class KVInit := {
  kv_init_pull : forall n (a : arr) (k k' : K) u, mk_init n a k = (Ok u, k') -> forall l, exists k2, mk_pull n l k' = (Ok (map (fun _ => a) l), k2);
}.
Context `{!KVInit}.

(** The host parameters are those of the devices. *)
Definition clean (names : list string) (h : host) (s : S) : Prop :=
  exists g rd devs r SA SX, inv_at s g rd devs r h SA SX /\ own_params g = names /\ h = view (g, devs).

Lemma clean_keeps {A} (m : M S A) names h s : keepsM sym same_params m -> clean names h s -> clean names h (m s).2.
Proof.
  intros Hk (g & rd & devs & r & SA & SX & Hi & Hn & Hv). destruct (inv_at_params _ _ _ _ _ _ _ _ _ Hi (Hk s (inv_ready _ _ _ _ _ _ _ _ Hi))) as (g' & devs' & Hi' & Ho & Ev).
  exists g', rd, devs', r, SA, SX. split_and!; [done|congruence|congruence].
Qed.

(** Writing the shown value of one parameter to all devices. *)
Definition write_dev (n : string) (l : list F) (d : device F) : device F := mkDevice (put_flat l (d_args d) n) (d_aux d) (d_grads d).

Lemma view_write SA SX (g : group F) devs n a : typed SA SX (g, devs) -> n ∈ own_params g -> (view (g, devs)).1 !! n = Some a ->
  typed SA SX (g, map (write_dev n (a_flat a)) devs) /\ view (g, map (write_dev n (a_flat a)) devs) = view (g, devs).
Proof.
  intros Ht Hn Ha.
  assert (gframe same_shapes (g, devs) (g, map (write_dev n (a_flat a)) devs)) as Hf.
  { split_and!; try done. cbn [snd]. apply Forall2_fmap_r, Forall_Forall2_diag, Forall_true. intros d. split; [apply put_flat_shapes|apply shape_le_refl]. }
  pose proof (typed_frame _ _ _ _ Ht Hf) as Ht'. split; [done|]. unfold view. rewrite (own_all _ _ _ Ht), (own_all _ _ _ Ht'). cbn [fst snd].
  assert (a_shape a = SA n /\ shown d_args devs n = a) as [Hs Hsh].
  { unfold view in Ha. rewrite (own_all _ _ _ Ht) in Ha. cbn [fst snd] in Ha. rewrite lookup_names, decide_True in Ha by done. injection Ha as <-.
    split; [|done]. by apply (collect_ok d_args (own_params g) SA devs n (ty_ne _ _ _ Ht) (ty_args _ _ _ Ht)). }
  f_equal.
  - f_equal. apply map_ext. intros k. f_equal. destruct (decide (k = n)) as [->|Hne].
    + rewrite Hsh. apply shown_copies; [intros E; apply (ty_ne _ _ _ Ht); by destruct devs|]. intros d Hd. apply list_elem_of_fmap in Hd as (d0 & -> & Hd).
      destruct (ty_args _ _ _ Ht d0 n Hd Hn) as (x & Hx & Hxs). cbn [write_dev d_args]. unfold put_flat. rewrite lookup_alter_eq, Hx. cbn. f_equal. rewrite Hxs, <- Hs. by destruct a.
    + unfold shown, collect. assert (mapR (fun d => py_getitem (d_args d) k) (map (write_dev n (a_flat a)) devs) = mapR (fun d => py_getitem (d_args d) k) devs) as ->; [|done].
      clear -Hne. induction devs as [|d devs IH]; [done|]. cbn. rewrite IH. unfold py_getitem, put_flat. by rewrite lookup_alter_ne by done.
  - f_equal. apply map_ext. intros k. f_equal. apply shown_frame. apply Forall2_fmap_r, Forall_Forall2_diag, Forall_true. done.
Qed.

Lemma write_same n (a : arr) (devs : list (device F)) (g : group F) k : length k = length devs ->
  write_args n (map (fun _ : arr => a) k) (g, devs) = (Ok tt, (g, map (write_dev n (a_flat a)) devs)).
Proof.
  intros Hl. unfold write_args, modify. cbn [fst snd]. do 2 f_equal. rewrite length_map, Hl, drop_all, app_nil_r. revert k Hl.
  induction devs as [|d devs IH]; intros [|x k] Hl; try done. cbn. f_equal. apply IH. by injection Hl.
Qed.

Lemma on_grp_run {A} (f : M G A) (s : S) g rd devs : at_group s g rd devs ->
  on_grp f s = ((f (g, devs)).1, (put_devs (<[rd := (f (g, devs)).2.2]> (mm_devs s.1)) s.1,
                                  set_group (Some ((f (g, devs)).2.1, rd)) (m_data_shapes s.2) (m_label_shapes s.2) s.2)).
Proof. intros [Hg Hd]. unfold on_grp. rewrite Hg, Hd. by destruct (f (g, devs)) as [a [g' devs']]. Qed.

Lemma read_ok names sh devs n : holds d_args names sh devs -> n ∈ names -> exists ws : list arr, mapR (fun d => py_getitem (d_args d) n) devs = Ok ws.
Proof.
  intros Hh Hn. induction devs as [|d devs IH]; [by exists []|]. destruct IH as [ws E]; [intros d' n' Hd; apply Hh; by right|].
  destruct (Hh d n ltac:(by left) Hn) as (a & Ha & _). exists (a :: ws). cbn. assert (py_getitem (d_args d) n = Ok a) as -> by (unfold py_getitem; by rewrite Ha).
  cbn. by rewrite E.
Qed.

Lemma init_kv_param_clean h names uok x s s' u : clean names h s -> x.2.1 = x.2.2 -> x.2.2 ∈ names -> init_kv_param h.1 uok x s = (Ok u, s') -> clean names h s'.
Proof.
  intros Hc Hx Hn E. unfold init_kv_param in E. inv_step E. apply lift_ok in E0 as [Ea ->]. inv_step E.
  pose proof (clean_keeps (on_kv (mk_init x.2.1 a)) _ _ _ (keepsM_on_kv sym same_params _) Hc) as Hc1. rewrite E0 in Hc1. cbn [snd] in Hc1.
  destruct uok; [|by injection E as _ <-]. destruct Hc1 as (g & rd & devs & r & SA & SX & Hi & Hnames & Hv).
  unfold on_kv in E0. destruct (m_kv s.2) as [rk|] eqn:Ek; [|done]. destruct (mm_kvs s.1 !! rk) as [k|] eqn:Ekk; [|done].
  destruct (mk_init x.2.1 a k) as [ri k'] eqn:Ei. injection E0 as -> <-. cbn [fst snd put_kvs mm_kvs] in *.
  destruct (read_ok _ _ _ x.2.2 (ty_args _ _ _ (iv_typed _ _ _ _ _ _ _ _ Hi) : holds d_args (own_params g) SA devs)) as [ws Er]; [by rewrite Hnames|].
  pose proof (mapR_length _ _ _ Er) as El. destruct (kv_init_pull _ _ _ _ _ Ei ws) as (k2 & Ep).
  inv_step E. rewrite (on_grp_run _ _ g rd devs (iv_group _ _ _ _ _ _ _ _ Hi)) in E0. unfold read_all in E0. rewrite bind_get in E0.
  rewrite (own_all SA SX (g, devs) (iv_typed _ _ _ _ _ _ _ _ Hi)) in E0. cbn [snd] in E0. rewrite Er in E0. cbn [lift fst snd] in E0. injection E0 as <- <-.
  inv_step E. unfold on_kv in E0. cbn [fst snd set_group m_kv put_devs put_kvs mm_kvs] in E0. rewrite Ek in E0. rewrite list_lookup_insert_eq in E0 by by eapply lookup_lt_Some.
  rewrite Ep in E0. injection E0 as <- <-.
  match type of E with on_grp _ ?s2 = _ => assert (at_group s2 g rd devs) as Hg2 end.
  { split; [done|]. cbn. rewrite list_lookup_insert_eq; [done|]. destruct (iv_group _ _ _ _ _ _ _ _ Hi) as [_ Hd]. by eapply lookup_lt_Some. }
  rewrite (on_grp_run _ _ g rd devs Hg2), (write_same _ _ _ _ _ El) in E. injection E as _ <-. cbn [fst snd].
  assert ((view (g, devs)).1 !! x.2.2 = Some a) as Hva by (rewrite <- Hv, <- Hx; unfold py_getitem in Ea; by destruct (h.1 !! x.2.1); [injection Ea as ->|]).
  destruct (view_write SA SX g devs x.2.2 a (iv_typed _ _ _ _ _ _ _ _ Hi) ltac:(by rewrite Hnames) Hva) as [Ht' Hv'].
  exists g, rd, (map (write_dev x.2.2 (a_flat a)) devs), r, SA, SX. split_and!; [|done|by rewrite Hv']. destruct Hi as [[_ Hd] ? ? ? ? ? ?]. split; try done.
  split; [done|]. cbn. rewrite list_lookup_insert_eq; [done|]. rewrite length_insert. by eapply lookup_lt_Some.
Qed.

Lemma init_kv_params_clean h names uok l : (forall x, x ∈ l -> x.2.1 = x.2.2 /\ x.2.2 ∈ names) -> forall s s' u, clean names h s ->
  forM (init_kv_param h.1 uok) l s = (Ok u, s') -> clean names h s'.
Proof.
  intros Hl. induction l as [|x l IH]; intros s s' u Hc E; cbn [forM] in E; [by injection E as _ <-|]. inv_step E. destruct (Hl x ltac:(by left)) as [Hx Hn].
  eapply IH; [intros y Hy; apply Hl; by right| |exact E]. by eapply init_kv_param_clean.
Qed.

Lemma indexed_names SA SX (g : group F) devs x : typed SA SX (g, devs) -> x ∈ indexed_params g -> x.2.1 = x.2.2 /\ x.2.2 ∈ own_params g.
Proof.
  intros Ht Hx. unfold indexed_params in Hx. pose proof (ty_names _ _ _ Ht) as En. cbn [fst] in En. rewrite <- En in Hx. apply list_elem_of_lookup in Hx as [i Hi].
  rewrite list_lookup_imap in Hi. apply fmap_Some in Hi as ([n m] & Hz & ->). apply lookup_zip_with_Some in Hz as (a & b & [= -> ->] & Ha & Hb). cbn [snd fst].
  rewrite Ha in Hb. injection Hb as <-. split; [done|]. by eapply list_elem_of_lookup_2.
Qed.

Lemma clean_inv names h s : clean names h s -> inv s.
Proof. intros (g & rd & devs & r & SA & SX & Hi & _ & Hv). exists g, rd, devs, r, h, SA, SX. done. Qed.

Lemma the_group_id (s : S) g rd devs : at_group s g rd devs -> the_group s = (Ok (g, devs), s).
Proof.
  intros [Hg Hd]. unfold the_group, on_grp. rewrite Hg, Hd. cbn. rewrite list_insert_id by done. destruct s as [m md]. f_equal. f_equal; [by destruct m|].
  destruct md. cbn in *. by rewrite Hg.
Qed.
Lemma host_get_id (s : S) r h : m_host s.2 = Some r -> mm_hosts s.1 !! r = Some h -> on_host get s = (Ok h, s).
Proof. intros Hr Hh. rewrite (on_host_run _ _ _ _ Hr Hh). cbn. rewrite list_insert_id by done. by destruct s as [[] ?]. Qed.

(** [init_optimizer] makes the host parameters clean before it gives them to the store. *)
Lemma sync_clean s : inv s -> m_params_initialized s.2 = true -> forall s' u,
  (if m_dirty s.2 then _sync_params_from_devices else mret tt) s = (Ok u, s') -> exists names h, clean names h s'.
Proof.
  intros (g & rd & devs & r & h & SA & SX & Hi & Hv) Hini s' u E. destruct (m_dirty s.2) eqn:Ed.
  - rewrite (sync_module _ _ _ _ _ _ _ _ Hi) in E. injection E as _ <-. exists (own_params g), (view (g, devs)), g, rd, devs, r, SA, SX.
    split_and!; [by eapply synced_inv|done|done].
  - injection E as _ <-. exists (own_params g), h, g, rd, devs, r, SA, SX. split_and!; [done|done|by apply Hv].
Qed.


Lemma init_optimizer_inv kv o fi s s' u : inv s -> init_optimizer create_opt env_update_on_kvstore large kv o fi s = (Ok u, s') -> inv s'.
Proof.
  intros Hinv E. unfold init_optimizer in E. inv_step E. unfold assert_ready in E0. rewrite bind_get in E0. apply massert_ok in E0 as [Hr ->].
  apply andb_true_iff in Hr as [_ Hini]. rewrite bind_get in E. destruct (m_optimizer_initialized s.2 && negb fi); [by injection E as _ <-|].
  inv_step E. destruct (sync_clean s Hinv Hini _ _ E0) as (names & h & Hc). pose proof Hc as (g & rd & devs & r & SA & SX & Hi & Hn & Hv).
  rewrite (bind_run _ _ _ _ _ (host_get_id _ _ _ (iv_host _ _ _ _ _ _ _ _ Hi) (iv_h _ _ _ _ _ _ _ _ Hi))) in E.
  rewrite (bind_run _ _ _ _ _ (the_group_id _ _ _ _ (iv_group _ _ _ _ _ _ _ _ Hi))) in E.
  inv_step E. apply lift_ok in E1 as [_ ->]. destruct a1 as [kvs uok]. inv_step E. apply lift_ok in E1 as [_ ->]. inv_step E. apply lift_ok in E1 as [_ ->].
  inv_step E. pose proof (clean_keeps _ _ _ _ (open_store_keeps sym kvs uok (m_compression s.2) a2) Hc) as Hc1. rewrite E1 in Hc1. cbn [snd] in Hc1.
  inv_step E.
  assert (clean names h s2) as Hc2.
  { destruct kvs as [k|]; [|by injection E2 as _ <-]. eapply init_kv_params_clean; [|exact Hc1|exact E2]. intros x Hx. rewrite <- Hn.
    eapply indexed_names; [apply Hi|exact Hx]. }
  pose proof (clean_keeps _ _ _ _ (finish_optimizer_keeps sym a3 uok a2 (m_preload s.2)) Hc2) as Hc3. rewrite E in Hc3. by eapply clean_inv.
Qed.

(** ** Sequences of operations *)

Inductive mop :=
  | OpInit (f : option (string -> arr -> result arr)) (arg aux : option (gmap string arr)) (allow_missing force_init allow_extra : bool)
  | OpSet (arg aux : gmap string arr) (allow_missing force_init allow_extra : bool)
  | OpGet
  | OpTrain (b : mbatches F)
  | OpPredict (b : mbatches F)
  | OpReshape (ds : list DataDesc) (ls : option (list DataDesc))
  | OpOptimizer (kv : kvarg K) (o : opt_arg O) (force_init : bool).
Definition run_mop (op : mop) : M S unit :=
  match op with
  | OpInit f arg aux am fi ae => init_params f arg aux am fi ae
  | OpSet arg aux am fi ae => set_params arg aux am fi ae
  | OpGet => _ ← get_params; mret tt
  | OpTrain b => _ ← forward_backward unset b; m_update
  | OpPredict b => forward unset b (Some false)
  | OpReshape ds ls => m_reshape unset ds ls
  | OpOptimizer kv o fi => init_optimizer create_opt env_update_on_kvstore large kv o fi
  end.
Definition op_safe (op : mop) : Prop := match op with OpInit f _ _ _ _ _ => shape_safe f | _ => True end.

Lemma mop_inv op s s' u : op_safe op -> inv s -> run_mop op s = (Ok u, s') -> inv s'.
Proof.
  intros Hs Hinv E. destruct op; cbn [run_mop op_safe] in *.
  - by eapply init_params_inv.
  - by eapply set_params_inv.
  - inv_step E. injection E as _ <-. unfold get_params in E0. inv_step E0. pose proof E as E1. unfold assert_ready in E1. rewrite bind_get in E1.
    apply massert_ok in E1 as [Hr ->]. apply andb_true_iff in Hr as [_ Hini].
    destruct (get_params_run _ Hinv Hini) as (g & rd & devs & s2 & _ & Eg & _ & Hi2). unfold get_params in Eg. rewrite (bind_run _ _ _ _ _ E), E0 in Eg. by injection Eg as _ ->.
  - inv_step E. by eapply train_inv.
  - eapply kept_inv; [|exact Hinv|exact E]. by apply forward_params.
  - eapply kept_inv; [|exact Hinv|exact E]. apply reshape_keeps.
  - by eapply init_optimizer_inv.
Qed.
Lemma mops_inv ops : forall s s' u, Forall op_safe ops -> inv s -> forM run_mop ops s = (Ok u, s') -> inv s'.
Proof.
  induction ops as [|op ops IH]; intros s s' u Hs Hi E; cbn [forM] in E; [by injection E as _ <-|]. apply Forall_cons in Hs as [Ho Hs]. inv_step E.
  eapply IH; [done| |exact E]. by eapply mop_inv.
Qed.

(** ** Binding *)

(** The shapes of parameters and auxiliary states do not depend on the shapes of the inputs. *)
Class ParamShapes (inputs : list string) := {
  ps_args : forall sh sh' args auxs outs args' auxs' outs' n, s_infer sym sh = Ok (args, auxs, outs) -> s_infer sym sh' = Ok (args', auxs', outs') ->
    n ∈ s_arguments sym -> n ∉ inputs -> args !! n = args' !! n;
  ps_aux : forall sh sh' args auxs outs args' auxs' outs' n, s_infer sym sh = Ok (args, auxs, outs) -> s_infer sym sh' = Ok (args', auxs', outs') ->
    n ∈ s_auxiliary sym -> auxs !! n = auxs' !! n;
}.

Lemma new_arrays_ok shapes names : forall m : gmap string arr, new_arrays shapes names = Ok m -> forall n, n ∈ names -> exists s, shapes !! n = Some s /\ m !! n = Some (zeros s).
Proof.
  unfold new_arrays. induction names as [|k names IH]; intros m E; cbn in E; [by intros n ?%elem_of_nil|].
  apply bind_ok in E as (l & E & [= <-]). apply bind_ok in E as (p & Ep & E). apply bind_ok in E as (l2 & El & [= <-]).
  apply bind_ok in Ep as (s & Es & [= <-]). unfold lib_get in Es. destruct (shapes !! k) as [s'|] eqn:Ek; [injection Es as ->|done].
  intros n Hn. cbn [list_to_map foldr fst snd uncurry]. destruct (decide (n = k)) as [->|Hne]; [exists s; by rewrite lookup_insert_eq|].
  rewrite lookup_insert_ne by done. apply (IH (list_to_map l2)); [by rewrite El|set_solver].
Qed.

Lemma bind_device (g : group F) sh e d : g_symbol g = sym -> simple_bind unset g sh None = Ok (e, d) -> exists args auxs outs, s_infer sym sh = Ok (args, auxs, outs) /\
  (forall n, n ∈ own_params g -> exists s, args !! n = Some s /\ d_args d !! n = Some (zeros s)) /\
  (forall n, n ∈ s_auxiliary sym -> exists s, auxs !! n = Some s /\ d_aux d !! n = Some (zeros s)).
Proof.
  intros Hs E. unfold simple_bind in E. rewrite Hs in E. apply bind_ok in E as ([[args auxs] outs] & Einf & E). apply bind_ok in E as (inputs & _ & E).
  apply bind_ok in E as (igrads & _ & E). apply bind_ok in E as (d0 & Ed & E). injection E as _ <-. apply bind_ok in Ed as (ps & Eps & Ed). apply bind_ok in Ed as (xs & Exs & Ed).
  apply bind_ok in Ed as (gs & _ & [= <-]). exists args, auxs, outs. split_and!; [done|exact (new_arrays_ok _ _ _ Eps)|exact (new_arrays_ok _ _ _ Exs)].
Qed.

Lemma filter_own (P : string -> Prop) `{!forall x, Decision (P x)} (l : list string) : filter (fun n => bool_decide (n ∈ filter P l) = true) l = filter P l.
Proof.
  assert (forall k : list string, (forall x, x ∈ k -> x ∈ l) -> filter (fun n => bool_decide (n ∈ filter P l) = true) k = filter P k) as Hk; [|by apply Hk].
  induction k as [|x k IH]; intros Hk; [done|]. rewrite !filter_cons, IH by (intros; apply Hk; by right).
  destruct (decide (P x)) as [Hp|Hp].
  - rewrite decide_True; [done|]. apply bool_decide_eq_true_2, list_elem_of_filter. split; [done|]. apply Hk. by left.
  - rewrite decide_False; [done|]. intros E%bool_decide_eq_true_1. by apply list_elem_of_filter in E as [? _].
Qed.

Lemma zero_like_covers names sh (m h : gmap string arr) : (forall n, n ∈ names -> exists a, m !! n = Some a /\ a_shape a = sh n) -> zero_like names names m = Ok h -> covers names sh h.
Proof.
  intros Hm E. unfold zero_like in E. apply bind_ok in E as (l & El & [= <-]).
  assert (l = map (fun n => zeros (sh n)) names) as ->.
  { clear -El Hm. revert l El. induction names as [|n names IH]; intros l El; cbn in El; [by injection El as <-|].
    apply bind_ok in El as (z & Ez & El). apply bind_ok in El as (l' & El' & [= <-]). cbn. f_equal; [|apply IH; [intros; apply Hm; by right|done]].
    destruct (Hm n ltac:(by left)) as (a & Ha & Hs). unfold py_getitem in Ez. rewrite Ha in Ez. cbn in Ez. injection Ez as <-. by rewrite Hs. }
  assert (reverse (zip names (map (fun n => zeros (sh n)) names)) = map (fun n => (n, zeros (sh n))) (reverse names)) as ->.
  { rewrite <- (map_id names) at 1. rewrite zip_map_same. symmetry. apply (fmap_reverse (fun n => (n, zeros (sh n)))). }
  split.
  - intros n Hn. rewrite (lookup_names (fun n => zeros (sh n))), decide_True by by apply elem_of_reverse. by eexists.
  - intros n a Hn. rewrite (lookup_names (fun n => zeros (sh n))) in Hn. destruct (decide (n ∈ reverse names)) as [Hin|]; [by apply elem_of_reverse|done].
Qed.

Lemma group_typed inputs `{!ParamShapes inputs} workload ds ls tr ing fixed req states g devs :
  group_new unset sym workload ds ls (filter (fun x => x ∉ inputs) (s_arguments sym)) tr ing None fixed req states = Ok (g, devs) -> workload <> [] ->
  exists SA SX, typed SA SX (g, devs) /\ g_symbol g = sym /\ own_params g = filter (fun x => x ∉ inputs) (s_arguments sym).
Proof.
  intros E Hw. destruct (group_new_bound _ _ _ _ _ _ _ _ _ _ _ _ E) as (g1 & X & [= -> ->] & Hb).
  assert (own_params g1 = filter (fun x => x ∉ inputs) (s_arguments sym)) as Hown.
  { unfold own_params, is_param. rewrite (bd_symbol _ _ _ _ _ _ _ _ Hb), (bd_params _ _ _ _ _ _ _ _ Hb). apply filter_own. }
  assert (exists x0, x0 ∈ X) as [x0 Hx0].
  { pose proof (bd_len _ _ _ _ _ _ _ _ Hb) as El. destruct X as [|x0 X]; [by destruct workload|]. exists x0. by left. }
  assert (forall x, x ∈ X -> exists sh, simple_bind unset g1 sh None = Ok x) as Hx.
  { intros x Hx. apply list_elem_of_lookup in Hx as [j Hj]. destruct (bd_exec _ _ _ _ _ _ _ _ Hb _ _ Hj) as (sh & _ & Es). eauto. }
  destruct (Hx x0 Hx0) as (sh0 & E0). destruct x0 as [e0 d0].
  destruct (bind_device _ _ _ _ (bd_symbol _ _ _ _ _ _ _ _ Hb) E0) as (args & auxs & outs & Einf & _ & _).
  exists (fun n => default [] (args !! n)), (fun n => default [] (auxs !! n)). split_and!; [|apply (bd_symbol _ _ _ _ _ _ _ _ Hb)|exact Hown].
  split; cbn [fst snd].
  - cbn. by rewrite !length_map.
  - intros En. destruct X; [by apply elem_of_nil in Hx0|done].
  - change (own_params (set_execs (map fst X) g1)) with (own_params g1). by rewrite Hown, <- (bd_params _ _ _ _ _ _ _ _ Hb).
  - intros d n Hd Hn. change (own_params (set_execs (map fst X) g1)) with (own_params g1) in Hn. apply list_elem_of_fmap in Hd as ([e d'] & -> & Hd).
    destruct (Hx _ Hd) as (sh & Es). destruct (bind_device _ _ _ _ (bd_symbol _ _ _ _ _ _ _ _ Hb) Es) as (args' & auxs' & outs' & Einf' & Ha & _).
    destruct (Ha n Hn) as (s & Hs & Hz). exists (zeros s). split; [done|]. rewrite Hown in Hn. apply list_elem_of_filter in Hn as [Hni Hna].
    by rewrite (ps_args _ _ _ _ _ _ _ _ _ Einf Einf' Hna Hni), Hs.
  - intros d n Hd Hn. change (g_symbol (set_execs (map fst X) g1)) with (g_symbol g1) in Hn. rewrite (bd_symbol _ _ _ _ _ _ _ _ Hb) in Hn.
    apply list_elem_of_fmap in Hd as ([e d'] & -> & Hd).
    destruct (Hx _ Hd) as (sh & Es). destruct (bind_device _ _ _ _ (bd_symbol _ _ _ _ _ _ _ _ Hb) Es) as (args' & auxs' & outs' & Einf' & _ & Ha).
    destruct (Ha n Hn) as (s & Hs & Hz). exists (zeros s). split; [done|]. by rewrite (ps_aux _ _ _ _ _ _ _ _ _ Einf Einf' Hn), Hs.
Qed.

Lemma bind_inv names context workload comp m `{!ParamShapes (mn_data names ++ mn_label names ++ mn_state names)} ds ls tr ing req x s u :
  Module_new sym names context workload comp = Ok m -> context <> [] -> bind unset ds ls tr ing false None req (x, m) = (Ok u, s) ->
  inv s /\ m_params_initialized s.2 = false.
Proof.
  intros Em Hctx E. unfold Module_new in Em. set (w := match workload with Some w => w | None => map (fun _ => 1) context end) in Em.
  apply bind_ok in Em as (u0 & Hlen & Em). do 4 (apply bind_ok in Em as (? & _ & Em)). injection Em as <-.
  unfold py_assert in Hlen. destruct (Nat.eqb_spec (length w) (length context)) as [Hl|]; [|done]. clear Hlen.
  assert (w <> []) as Hw by (intros Ew; rewrite Ew in Hl; by destruct context). clearbody w.
  unfold bind in E. rewrite (bind_run (mret tt) _ _ _ tt eq_refl), bind_get in E. cbn [fst snd m_binded] in E. unfold on_m in E. rewrite bind_modify in E.
  inv_step E. assert (s0 = (x, set_training tr ing (mkModule sym context w names comp false false false false false None false None [] None None false None None))) as ->.
  { destruct tr; [by injection E0 as _ <-|]. apply massert_ok in E0 as [_ ->]. done. }
  clear E0. inv_step E. apply lift_ok in E0 as [_ ->]. rewrite bind_modify in E. inv_step E. unfold bind_group in E0. rewrite bind_get, bind_lift in E0.
  inv_step E0. apply lift_ok in E1 as [Eg ->]. destruct a2 as [g devs]. unfold new_devs in E0. inv_step E0. injection E1 as <- <-. injection E0 as _ <-.
  destruct (group_typed (mn_data names ++ mn_label names ++ mn_state names) _ _ _ _ _ _ _ _ _ _ Eg Hw) as (SA & SX & Ht & Hs & Hown).
  cbn [fst snd m_symbol m_params_initialized m_host set_training set_group m_names] in E. inv_step E.
  match type of E0 with (_ ≫= _) ?st = _ => set (s1 := st) in E0; assert (at_group s1 g (length (mm_devs x)) devs) as Hg end.
  { split; [done|]. cbn. by rewrite list_lookup_middle. }
  rewrite bind_massert in E0 by done. rewrite (bind_run _ _ _ _ _ (the_group_id _ _ _ _ Hg)) in E0. inv_step E0. apply lift_ok in E1 as [Ed ->].
  inv_step E0. apply lift_ok in E1 as [Ea ->]. inv_step E0. apply lift_ok in E1 as [Ex ->]. unfold new_host in E0. inv_step E0. injection E1 as <- <-. injection E0 as _ <-.
  rewrite (bind_run (mret tt) _ _ _ tt eq_refl) in E. injection E as _ <-. split; [|done].
  exists g, (length (mm_devs x)), devs, (length (mm_hosts x)), (a4, a5), SA, SX. split; [|done].
  assert (a3 ∈ devs) as Hin by (rewrite py_index_nonneg in Ed by done; destruct (devs !! Z.to_nat 0) eqn:E0; [injection Ed as <-; by eapply list_elem_of_lookup_2|done]).
  split; try done.
  - cbn. by rewrite list_lookup_middle.
  - split; cbn [fst snd].
    + rewrite Hown. apply (zero_like_covers _ SA (d_args a3)); [intros n Hn; rewrite <- Hown in Hn; by apply (ty_args _ _ _ Ht)|]. rewrite Hown in Ea. exact Ea.
    + apply (zero_like_covers _ SX (d_aux a3)); [intros n Hn; by apply (ty_aux _ _ _ Ht)|]. rewrite Hs in *. exact Ex.
Qed.

End Coherent.

(** ** A module with two devices *)

Section Example.
#[local] Instance Z_Float : Float Z := {
  fadd := Z.add; fsub := Z.sub; fmul := Z.mul; fdiv := Z.div; fof x := x; fltb := Z.ltb; fzero := Z.eqb 0; fpow := Z.pow; fcos x := x; fpi := 3 }.
Lemma add_copies_Z x k : forall t, add_copies x t k = t + Z.of_nat k * x.
Proof. induction k as [|k IH]; intros t; cbn [add_copies]; [lia|]. rewrite IH. cbn [fadd Z_Float]. lia. Qed.
#[local] Instance Z_Averages : Averages Z.
Proof.
  split. intros x k. rewrite add_copies_Z. cbn [fadd fof fdiv Z_Float]. replace (x + 0 + Z.of_nat k * x) with (x * Z.of_nat (S k)) by lia. apply Z.div_mul. lia.
Qed.

(** An optimizer that subtracts the gradient, and a store of named arrays. *)
#[local] Instance sub_optimizer : OptimizerClass Z unit := {
  oc_aggregate _ := 0; oc_create_state _ _ _ := SNone;
  oc_update _ w g s := mret (with_data (zip_with Z.sub (t_data w) (t_data g)) w, g, s);
  oc_update_list _ _ _ _ := raise NotImplementedError; oc_pickled o := o }.
#[local] Instance named_store : ModuleKV Z unit (gmap string (nda Z)) := {
  mk_create _ := Ok ∅; mk_type _ := "local"%string; mk_num_workers _ := 1;
  mk_init n a := modify (<[n := a]>);
  mk_push n l := modify (fun k => match l with a :: _ => <[n := a]> k | [] => k end);
  mk_pull n l := fun k => (match k !! n with Some a => Ok (map (fun _ => a) l) | None => Raise MXNetError end, k);
  mk_set_optimizer _ := mret tt; mk_set_compression := mret tt; mk_save_states := mret (∅, None); mk_load_states _ := mret tt }.
#[local] Instance named_store_init : KVInit.
Proof. split. intros n a k k' u [= <- <-] l. exists (<[n := a]> k). cbn. by rewrite lookup_insert_eq. Qed.

(** [data * w] with a counter of training passes as auxiliary state. *)
Definition counting_forward (tr : bool) (args aux : gmap string (nda Z)) : list (nda Z) * gmap string (nda Z) :=
  (match args !! "data"%string, args !! "w"%string with
   | Some d, Some w => [mkNda (a_shape d) (map (Z.mul (default 0 (head (a_flat w)))) (a_flat d))]
   | _, _ => []
   end,
   if tr then match aux !! "count"%string with Some c => {["count"%string := mkNda (a_shape c) (map (Z.add 1) (a_flat c))]} | None => ∅ end else ∅).
Definition counting_symbol : symbol Z := {|
  s_arguments := ["data"; "w"]%string; s_auxiliary := ["count"%string]; s_outputs := ["out"%string]; s_layout _ := None;
  s_infer shapes := Ok (<["w"%string := [1%nat]]> shapes, {["count"%string := [1%nat]]}, [default [] (shapes !! "data"%string)]);
  s_forward := counting_forward; s_backward _ _ _ := {["w"%string := mkNda [1%nat] [1]]} |}.
#[local] Instance counting_aux : AuxLaws counting_symbol.
Proof.
  split.
  - intros tr args aux n a Ha. cbn. rewrite lookup_union, Ha. destruct tr; [|rewrite lookup_empty; eauto].
    destruct (aux !! "count"%string) as [c|] eqn:Ec; [|rewrite lookup_empty; eauto]. destruct (decide (n = "count"%string)) as [->|Hne].
    + rewrite lookup_singleton_eq. cbn. eexists. split; [done|]. cbn. congruence.
    + rewrite lookup_singleton_ne by done. eauto.
  - intros args aux. cbn. apply (left_id_L ∅ (∪)).
Qed.
#[local] Instance counting_shapes : ParamShapes counting_symbol ["data"%string].
Proof.
  split.
  - intros sh sh' args auxs outs args' auxs' outs' n [= <- <- <-] [= <- <- <-] Hn Hd. assert (n = "w"%string) as -> by set_solver. by rewrite !lookup_insert_eq.
  - intros sh sh' args auxs outs args' auxs' outs' n [= <- <- <-] [= <- <- <-] Hn. done.
Qed.

Notation mem := (memory Z unit (gmap string (nda Z))).
Definition ex_names : mnames := mkMNames ["data"%string] [] [] [].
Definition ex_unset (n : string) (s : list nat) : list Z := replicate (size s) 0.
Definition ex_create (n : string) (r : option Z) (m : gmap key string) : result unit := Ok tt.
Definition ex_data (n : nat) : DataDesc := mkDesc "data" [Z.of_nat n; 1] "float32" None.
Definition ex_mbatch (n : nat) : mbatches Z := OneBatch (mkMBatch [mkNda [n; 1]%nat (map Z.of_nat (seq 1 n))] [] 0 None None None).
Definition ex_module : module Z := match Module_new counting_symbol ex_names [cpu; cpu] None false with Ok m => m | Raise _ => mkModule counting_symbol [] [] ex_names false false false false false false None false None [] None None false None None end.
Definition ex_bind (force : bool) : M (mem * module Z) unit := bind ex_unset [ex_data 4] None true false force None (GStr "write").
Definition ex_bound : mem * module Z := (ex_bind false (mkMemory [] [] [] [] ∅, ex_module)).2.
Definition fives (n : string) (a : nda Z) : result (nda Z) := Ok (mkNda (a_shape a) (map (fun _ => 5) (a_flat a))).
Definition ex_start : list (mop (F := Z) (O := unit) (K := gmap string (nda Z))) := [OpInit (Some fives) None None false false false; OpOptimizer KVNone (OptObject tt) false].
Definition ex_ops : list (mop (F := Z) (O := unit) (K := gmap string (nda Z))) := ex_start ++ [OpTrain (ex_mbatch 4); OpPredict (ex_mbatch 3); OpGet; OpTrain (ex_mbatch 4)].
Definition ex_run (ops : list (mop (F := Z) (O := unit) (K := gmap string (nda Z)))) : result unit * (mem * module Z) := forM (run_mop ex_unset ex_create true (fun _ => false)) ops ex_bound.

Lemma ex_bound_ok : bind ex_unset [ex_data 4] None true false false None (GStr "write") (mkMemory [] [] [] [] ∅, ex_module) = (Ok tt, ex_bound).
Proof.
  unfold ex_bound, ex_bind. match goal with |- ?t = _ => assert (t.1 = Ok tt) as E by (vm_compute; reflexivity); revert E; generalize t end.
  intros [r s] E. cbn in E. by rewrite E.
Qed.
Lemma ex_run_ok : forM (run_mop ex_unset ex_create true (fun _ => false)) ex_ops ex_bound = (Ok tt, (ex_run ex_ops).2).
Proof.
  unfold ex_run. match goal with |- ?t = _ => assert (t.1 = Ok tt) as E by (vm_compute; reflexivity); revert E; generalize t end.
  intros [r s] E. cbn in E. by rewrite E.
Qed.
Lemma ex_initialized : m_params_initialized (ex_run ex_ops).2.2 = true.
Proof. vm_compute. reflexivity. Qed.


(** Two training steps of size one: [5 - 1 - 1], and two passes counted on top of the five. *)
Example ex_params_read : (get_params (ex_run ex_ops).2).1 = Ok ({["w"%string := mkNda [1%nat] [3]]}, {["count"%string := mkNda [1%nat] [7]]}).
Proof. vm_compute. reflexivity. Qed.

(** Binding again writes the host parameters to the new devices: a training step that was not
    read back before is lost. *)
Lemma rebind_forgets_updates :
  (get_params (ex_run (ex_start ++ [OpTrain (ex_mbatch 4)])).2).1 = Ok ({["w"%string := mkNda [1%nat] [4]]}, {["count"%string := mkNda [1%nat] [6]]}) /\
  (get_params (ex_bind true (ex_run (ex_start ++ [OpTrain (ex_mbatch 4)])).2).2).1 = Ok ({["w"%string := mkNda [1%nat] [5]]}, {["count"%string := mkNda [1%nat] [5]]}).
Proof. vm_compute. split; reflexivity. Qed.

(** A training pass that no update follows changes the auxiliary states on the devices, and
    [get_params] does not see it. *)
Lemma pass_leaves_stale_states :
  let s := (forward_backward ex_unset (ex_mbatch 4) (ex_run ex_start).2).2 in
  (get_params s).1 = Ok ({["w"%string := mkNda [1%nat] [5]]}, {["count"%string := mkNda [1%nat] [5]]}) /\
  (get_params (set_dirty true s).2).1 = Ok ({["w"%string := mkNda [1%nat] [5]]}, {["count"%string := mkNda [1%nat] [6]]}).
Proof. vm_compute. split; reflexivity. Qed.

(** Binding a second time before the parameters were initialized fails. *)
Lemma rebind_before_init_fails : (ex_bind true ex_bound).1 = Raise AssertionError.
Proof. vm_compute. reflexivity. Qed.
End Example.
