(* ===== verification/Bucketing.v ===== *)
(** * Modules with buckets

    [BucketingModule] of [module/bucketing_module.py]: one [Module] for every bucket key, made by
    [sym_gen] when it is first needed and bound to the arrays of the default bucket.  The
    theorem says that all buckets work on the same parameters with the same optimizer, through
    any sequence of calls.  [sym_gen] is a parameter; it is called with a name manager of its
    own, so that its result does not depend on earlier calls.  A key may be [None]. *)

From Stdlib Require Import Ascii String.
From stdpp Require Import strings.
From S2P Require Import Prelude NDArray Array Split Axis DataIter LRScheduler Optimizer Trainer Scope RNNCell Checkpoint ExecGroup ModuleDef.
Open Scope Z_scope.

Notation bkey := (option Z).

Record bmodule (F : Type) := mkBucketing {
  bk_default : bkey;
  bk_context : list Context;
  bk_workload : option (list Z);
  bk_fixed : list string;
  bk_states : list string;
  bk_compression : bool;
  bk_binded : bool;
  bk_for_training : bool;
  bk_inputs_need_grad : bool;
  bk_params_initialized : bool;
  bk_optimizer_initialized : bool;
  bk_buckets : gmap bkey (module F);
  bk_curr : option bkey;
  bk_dirty : bool;
  bk_grad_req : option greq;
}.
Arguments mkBucketing {F} _ _ _ _ _ _ _ _ _ _ _ _ _ _ _.
Arguments bk_default {F} _.
Arguments bk_context {F} _.
Arguments bk_workload {F} _.
Arguments bk_fixed {F} _.
Arguments bk_states {F} _.
Arguments bk_compression {F} _.
Arguments bk_binded {F} _.
Arguments bk_for_training {F} _.
Arguments bk_inputs_need_grad {F} _.
Arguments bk_params_initialized {F} _.
Arguments bk_optimizer_initialized {F} _.
Arguments bk_buckets {F} _.
Arguments bk_curr {F} _.
Arguments bk_dirty {F} _.
Arguments bk_grad_req {F} _.

Section Bucketing.
Context {F O K : Type} `{Float F} `{OptimizerClass F O} `{ModuleKV F O K}.
Context (unset : string -> list nat -> list F) (create_opt : string -> option F -> gmap key string -> result O).
Context (env_update_on_kvstore : bool) (large : nda F -> bool).
(** [sym_gen]: the symbol of a bucket with the names of its data and of its labels. *)
Context (sym_gen : bkey -> result (symbol F * list string * list string)).
Notation arr := (nda F).
Notation host := (gmap string arr * gmap string arr)%type.
Notation md := (module F).
Notation S := (memory F O K * module F)%type.
Notation B := (memory F O K * bmodule F)%type.

(** ** Assignments to attributes *)

Definition b_flags (binded params opt dirty : bool) (b : bmodule F) : bmodule F :=
  mkBucketing (bk_default b) (bk_context b) (bk_workload b) (bk_fixed b) (bk_states b) (bk_compression b) binded (bk_for_training b)
    (bk_inputs_need_grad b) params opt (bk_buckets b) (bk_curr b) dirty (bk_grad_req b).
Definition b_training (tr ing : bool) (req : greq) (b : bmodule F) : bmodule F :=
  mkBucketing (bk_default b) (bk_context b) (bk_workload b) (bk_fixed b) (bk_states b) (bk_compression b) true tr
    ing (bk_params_initialized b) (bk_optimizer_initialized b) (bk_buckets b) (bk_curr b) (bk_dirty b) (Some req).
Definition b_modules (l : gmap bkey md) (c : option bkey) (b : bmodule F) : bmodule F :=
  mkBucketing (bk_default b) (bk_context b) (bk_workload b) (bk_fixed b) (bk_states b) (bk_compression b) (bk_binded b) (bk_for_training b)
    (bk_inputs_need_grad b) (bk_params_initialized b) (bk_optimizer_initialized b) l c (bk_dirty b) (bk_grad_req b).
Definition on_b (f : bmodule F -> bmodule F) : M B unit := modify (fun s => (s.1, f s.2)).
Definition b_dirty (d : bool) : M B unit := on_b (fun b => b_flags (bk_binded b) (bk_params_initialized b) (bk_optimizer_initialized b) d b).
Definition b_initialized : M B unit := on_b (fun b => b_flags (bk_binded b) true (bk_optimizer_initialized b) (bk_dirty b) b).

(** A call on the module of one bucket, and on [self._curr_module]. *)
Definition on_bucket {A} (k : bkey) (f : M S A) : M B A := fun s =>
  match bk_buckets s.2 !! k with
  | None => (Raise AttributeError, s)
  | Some m => let '(r, (x, m)) := f (s.1, m) in (r, (x, b_modules (<[k := m]> (bk_buckets s.2)) (bk_curr s.2) s.2))
  end.
Definition on_curr {A} (f : M S A) : M B A := fun s =>
  match bk_curr s.2 with None => (Raise AttributeError, s) | Some k => on_bucket k f s end.

(** ** Construction *)

Definition BucketingModule_new (default : bkey) (context : list Context) (workload : option (list Z)) (fixed states : list string) (compression : bool)
  : result (bmodule F) :=
  _ ← py_assert (match default with Some _ => true | None => false end);
  '(sym, data, label) ← sym_gen default;
  _ ← _check_input_names sym data true;
  _ ← _check_input_names sym label false;
  _ ← _check_input_names sym states true;
  _ ← _check_input_names sym fixed true;
  Ok (mkBucketing default context workload fixed states compression false false false false false ∅ None false None).

Definition b_reset_bind : M B unit :=
  _ ← on_b (fun b => b_flags false (bk_params_initialized b) (bk_optimizer_initialized b) (bk_dirty b) b);
  on_b (b_modules ∅ None).

(** [Module(symbol, data_names, label_names, ...)] for a key. *)
Definition make_module (b : bmodule F) (k : bkey) : result md :=
  '(sym, data, label) ← sym_gen k;
  Module_new sym (mkMNames data label (bk_states b) (bk_fixed b)) (bk_context b) (bk_workload b) (bk_compression b).

(** ** Parameters *)

Definition b_ready : M B unit := s ← get; massert (bk_binded s.2 && bk_params_initialized s.2).

Definition b_get_params : M B host :=
  _ ← b_ready;
  s ← get;
  _ ← on_curr (set_dirty (bk_dirty s.2));
  h ← on_curr get_params;
  _ ← b_dirty false;
  mret h.

Definition b_init_params (initializer : option (string -> arr -> result arr)) (arg aux : option (gmap string arr)) (allow_missing force_init allow_extra : bool) : M B unit :=
  s ← get;
  if bk_params_initialized s.2 && negb force_init then mret tt
  else
    _ ← massert (bk_binded s.2);
    _ ← on_curr (init_params initializer arg aux allow_missing force_init allow_extra);
    _ ← b_dirty false;
    b_initialized.

(** Without [allow_missing], [allow_extra] is not passed on. *)
Definition b_set_params (arg aux : gmap string arr) (allow_missing force_init allow_extra : bool) : M B unit :=
  if negb allow_missing then b_init_params None (Some arg) (Some aux) allow_missing force_init false
  else
    s ← get;
    if bk_params_initialized s.2 && negb force_init then mret tt
    else
      _ ← on_curr (set_params arg aux allow_missing force_init allow_extra);
      _ ← b_dirty true;
      b_initialized.

(** ** Binding and switching *)

(** The default bucket is bound, and gets the parameters saved before. *)
Definition bind_default (ds : list DataDesc) (ls : option (list DataDesc)) (for_training ing : bool) (grad_req : greq) (saved : option host) : M B unit :=
  s ← get;
  _ ← on_b (b_training for_training ing grad_req);
  m ← lift (make_module s.2 (bk_default s.2));
  '(r, (x, m)) ← (fun s => let y := bind unset ds ls for_training ing false None grad_req (s.1, m) in (Ok y, (y.2.1, s.2)));
  _ ← lift r;
  _ ← on_b (fun b => b_modules (<[bk_default b := m]> (bk_buckets b)) (Some (bk_default b)) b);
  match saved with
  | Some h => b_set_params h.1 h.2 false true false
  | None => mret tt
  end.
Definition b_bind (ds : list DataDesc) (ls : option (list DataDesc)) (for_training ing force_rebind : bool) (grad_req : greq) : M B unit :=
  s ← get;
  saved ← (if bk_params_initialized s.2 then h ← b_get_params; mret (Some h) else mret None);
  _ ← (if force_rebind then b_reset_bind else mret tt);
  s ← get;
  if bk_binded s.2 then mret tt else bind_default ds ls for_training ing grad_req saved.

Definition switch_bucket (k : bkey) (ds : option (list DataDesc)) (ls : option (list DataDesc)) : M B unit :=
  s ← get;
  _ ← massert (bk_binded s.2);
  _ ← match bk_buckets s.2 !! k with
      | Some _ => mret tt
      | None =>
          m ← lift (make_module s.2 k);
          c ← on_curr get;
          sh ← lift (match bk_buckets s.2 !! bk_default s.2 with Some m' => Ok m' | None => Raise KeyError end);
          ds ← lift (match ds with Some l => Ok l | None => Raise TypeError end);
          req ← lift (match bk_grad_req s.2 with Some r => Ok r | None => Raise ValueError end);
          '(r, (x, m)) ← (fun s => let y := bind unset ds ls (m_for_training c.2) (m_inputs_need_grad c.2) false (Some sh) req (s.1, m) in (Ok y, (y.2.1, s.2)));
          _ ← lift r;
          on_b (fun b => b_modules (<[k := m]> (bk_buckets b)) (bk_curr b) b)
      end;
  on_b (fun b => b_modules (bk_buckets b) (Some k) b).

(** ** Optimizers *)

Definition b_init_optimizer (kvstore : kvarg K) (optimizer : opt_arg O) (force_init : bool) : M B unit :=
  _ ← b_ready;
  s ← get;
  if bk_optimizer_initialized s.2 && negb force_init then mret tt
  else
    _ ← on_curr (init_optimizer create_opt env_update_on_kvstore large kvstore optimizer force_init);
    c ← on_curr get;
    s ← get;
    _ ← forM (fun k => on_bucket k (borrow_optimizer c.2)) (filter (fun k => Some k ≠ bk_curr s.2) (map fst (map_to_list (bk_buckets s.2))));
    on_b (fun b => b_flags (bk_binded b) (bk_params_initialized b) true (bk_dirty b) b).

(** ** Computing *)

(** [Module.prepare] without [sparse_row_id_fn]. *)
Definition m_prepare : M S unit := s ← get; massert (m_binded s.2).

(** A list of batches has no attribute [bucket_key]. *)
Definition one_batch (b : mbatches F) : result (mbatch F) := match b with OneBatch b => Ok b | ManyBatches _ => Raise AttributeError end.

Definition b_prepare (b : mbatches F) : M B unit :=
  _ ← b_ready;
  x ← lift (one_batch b);
  s ← get;
  _ ← switch_bucket (mb_bucket_key x) (mb_provide_data x) (mb_provide_label x);
  _ ← on_curr m_prepare;
  k ← lift (match bk_curr s.2 with Some k => Ok k | None => Raise KeyError end);
  switch_bucket k None None.

Definition b_forward (b : mbatches F) (is_train : option bool) : M B unit :=
  _ ← b_ready;
  x ← lift (one_batch b);
  _ ← switch_bucket (mb_bucket_key x) (mb_provide_data x) (mb_provide_label x);
  on_curr (forward unset b is_train).

Definition b_backward (out_grads : list arr) : M B unit := _ ← b_ready; on_curr (backward out_grads).

Definition b_update : M B unit :=
  s ← get;
  _ ← massert (bk_binded s.2 && bk_params_initialized s.2 && bk_optimizer_initialized s.2);
  _ ← b_dirty true;
  on_curr m_update.

Definition b_get_outputs : M B (list arr) := _ ← b_ready; on_curr get_outputs.
Definition b_get_input_grads : M B (list arr) :=
  s ← get;
  _ ← massert (bk_binded s.2 && bk_params_initialized s.2 && bk_inputs_need_grad s.2);
  on_curr get_input_grads.
Definition b_get_states (merge : bool) : M B (list (list arr)) := _ ← b_ready; on_curr (m_get_states merge).
Definition b_set_states (states : option (list (list arr))) (value : option F) : M B unit := _ ← b_ready; on_curr (m_set_states states value).
Definition b_output_shapes : M B (list (string * list Z)) := s ← get; _ ← massert (bk_binded s.2); on_curr output_shapes.

(** The names of the data: those of the current bucket, or of the default one before binding. *)
Definition b_data_names (b : bmodule F) : result (list string) :=
  if bk_binded b then
    match bk_curr b with
    | Some k => match bk_buckets b !! k with Some m => Ok (mn_data (m_names m)) | None => Raise AttributeError end
    | None => Raise AttributeError
    end
  else '(_, data, _) ← sym_gen (bk_default b); Ok data.

(** ** What all buckets share *)

(** The host parameters and the device arrays a module refers to, and its optimizer. *)
Definition array_refs (m : md) : option nat * option nat := (m_host m, snd <$> m_group m).
Definition opt_refs (m : md) : option (option nat * bool * option nat) :=
  if m_optimizer_initialized m then Some (m_kv m, m_update_on_kv m, m_updater m) else None.
Definition refs (m : md) : option nat * option nat * option (option nat * bool * option nat) := (array_refs m, opt_refs m).

Section Keeps.
Context {X : Type} (p : md -> X).
Hypothesis p_group : forall m g g' r ds ls, m_group m = Some (g, r) -> p (set_group (Some (g', r)) ds ls m) = p m.

(** An attribute that a computation does not change, whether it raises or not. *)
Definition fixes {A} (f : M S A) : Prop := forall s, p (f s).2.2 = p s.2.

Lemma fixes_bind {A C} (f : M S A) (g : A -> M S C) : fixes f -> (forall a, fixes (g a)) -> fixes (f ≫= g).
Proof.
  intros Hf Hg s. rewrite bind_M. pose proof (Hf s) as E. destruct (f s) as [[a|e] s1]; cbn in *; [|done].
  by rewrite Hg.
Qed.
Lemma fixes_ret {A} (a : A) : fixes (mret a).
Proof. by intros s. Qed.
Lemma fixes_lift {A} (r : result A) : fixes (lift r).
Proof. by intros s. Qed.
Lemma fixes_raise {A} e : fixes (raise e : M S A).
Proof. by intros s. Qed.
Lemma fixes_get : fixes (get : M S S).
Proof. by intros s. Qed.
Lemma fixes_assert c : fixes (massert c : M S unit).
Proof. intros s. by destruct c. Qed.
Lemma fixes_forM {A} (f : A -> M S unit) l : (forall a, fixes (f a)) -> fixes (forM f l).
Proof. intros Hf. induction l as [|a l IH]; [apply fixes_ret|]. cbn. apply fixes_bind; [apply Hf|by intros]. Qed.
Lemma fixes_modify (f : S -> S) : (forall s, p (f s).2 = p s.2) -> fixes (modify f).
Proof. intros Hf s. apply Hf. Qed.
Lemma fixes_on_grp {A} (f : M (group F * list (device F)) A) : fixes (on_grp f).
Proof.
  intros s. unfold on_grp. destruct (m_group s.2) as [[g r]|] eqn:Eg; [|done]. destruct (mm_devs s.1 !! r); [|done].
  destruct (f _) as [a [g' ds]]. cbn. by eapply p_group.
Qed.
Lemma fixes_on_host {A} (f : M host A) : fixes (on_host f).
Proof. intros s. unfold on_host. destruct (m_host s.2); [|done]. destruct (_ !! _); [|done]. by destruct (f _). Qed.
Lemma fixes_on_kv {A} (f : M K A) : fixes (on_kv f).
Proof. intros s. unfold on_kv. destruct (m_kv s.2); [|done]. destruct (_ !! _); [|done]. by destruct (f _). Qed.
End Keeps.

Lemma refs_group m g g' r ds ls : m_group m = Some (g, r) -> refs (set_group (Some (g', r)) ds ls m) = refs m.
Proof. intros E. unfold refs, array_refs, opt_refs. cbn. by rewrite E. Qed.
Lemma array_refs_group m g g' r ds ls : m_group m = Some (g, r) -> array_refs (set_group (Some (g', r)) ds ls m) = array_refs m.
Proof. intros E. unfold array_refs. cbn. by rewrite E. Qed.

Ltac head_of t := lazymatch t with ?f _ => head_of f | _ => t end.
(** One step through a computation whose parts fix an attribute. *)
Ltac fix_step :=
  lazymatch goal with
  | |- fixes _ (mbind _ _) => apply fixes_bind; [|intros ?]
  | |- fixes _ (mret _) => apply fixes_ret
  | |- fixes _ (lift _) => apply fixes_lift
  | |- fixes _ (raise _) => apply fixes_raise
  | |- fixes _ get => apply fixes_get
  | |- fixes _ (massert _) => apply fixes_assert
  | |- fixes _ (forM _ _) => apply fixes_forM; intros ?
  | |- fixes refs (on_grp _) => apply fixes_on_grp, refs_group
  | |- fixes array_refs (on_grp _) => apply fixes_on_grp, array_refs_group
  | |- fixes _ (on_host _) => apply fixes_on_host
  | |- fixes _ (on_kv _) => apply fixes_on_kv
  | |- fixes _ (modify _) => apply fixes_modify; intros ?; reflexivity
  | |- fixes _ (fun _ => _) => intros ?; reflexivity
  | |- fixes _ (match ?x with _ => _ end) => destruct x
  | |- fixes _ ?t => let h := head_of t in unfold h
  end.

Lemma get_params_fixes : fixes refs (get_params : M S host).
Proof. repeat fix_step. Qed.
Lemma set_dirty_fixes c : fixes refs (set_dirty c : M S unit).
Proof. repeat fix_step. Qed.
Lemma init_params_fixes f arg aux am fi ae : fixes refs (init_params f arg aux am fi ae : M S unit).
Proof. repeat fix_step. Qed.
Lemma set_params_fixes arg aux am fi ae : fixes refs (set_params arg aux am fi ae : M S unit).
Proof. unfold set_params. destruct am; cbn [negb]; [repeat fix_step|apply init_params_fixes]. Qed.
Lemma forward_fixes b tr : fixes refs (forward unset b tr : M S unit).
Proof. repeat fix_step. Qed.
Lemma backward_fixes gs : fixes refs (backward gs : M S unit).
Proof. repeat fix_step. Qed.
Lemma m_update_fixes : fixes refs (m_update : M S unit).
Proof. repeat fix_step. Qed.
Lemma m_set_states_fixes st v : fixes refs (m_set_states st v : M S unit).
Proof. repeat fix_step. Qed.
Lemma m_prepare_fixes : fixes refs m_prepare.
Proof. repeat fix_step. Qed.
Lemma init_optimizer_fixes kv o fi : fixes array_refs (init_optimizer create_opt env_update_on_kvstore large kv o fi : M S unit).
Proof. repeat fix_step. Qed.

(** A new module bound to the arrays of a bucket refers to what that bucket refers to. *)
Lemma bind_shared_refs ds ls tr ing sh req x m u (s : S) : m_binded m = false -> m_optimizer_initialized m = false ->
  bind unset ds ls tr ing false (Some sh) req (x, m) = (Ok u, s) -> refs s.2 = refs sh.
Proof.
  intros Hb Ho E. unfold bind in E. rewrite (bind_run (mret tt) _ _ _ tt eq_refl), bind_get in E. cbn [fst snd] in E. rewrite Hb in E.
  unfold on_m in E. rewrite bind_modify in E. inv_step E.
  assert (s0.2 = set_training tr ing m) as E1 by (destruct tr; [by injection E0 as _ <-|apply massert_ok in E0 as [_ ->]; done]).
  clear E0. inv_step E. apply lift_ok in E0 as [_ ->]. rewrite bind_modify in E. inv_step E. unfold bind_group in E0. rewrite bind_get in E0.
  inv_step E0. apply lift_ok in E2 as [Esh ->]. apply bind_ok in Esh as (? & _ & Esh). destruct (m_group sh) as [[g' r]|] eqn:Eg; [|done].
  apply bind_ok in Esh as (d & _ & Esh). apply bind_ok in Esh as (? & _ & Esh). injection Esh as <-.
  inv_step E0. apply lift_ok in E2 as [_ ->]. match goal with p : (group F * list (device F))%type |- _ => destruct p as [g devs] end. rewrite (bind_run (mret r) _ _ _ r eq_refl) in E0.
  unfold on_m in E0. injection E0 as _ <-. rewrite bind_modify in E. cbn [fst snd] in E. rewrite E1 in E.
  destruct (m_optimizer_initialized sh) eqn:Eo.
  - unfold borrow_optimizer in E. rewrite Eo in E. cbn in E. injection E as _ <-. unfold refs, array_refs, opt_refs. cbn. by rewrite Eg, Eo.
  - cbn in E. injection E as _ <-. unfold refs, array_refs, opt_refs. cbn. by rewrite Eg, Eo, Ho.
Qed.

(** All buckets refer to the same arrays and to the same optimizer. *)
Definition shares (b : bmodule F) : Prop :=
  forall j k m n, bk_buckets b !! j = Some m -> bk_buckets b !! k = Some n -> refs m = refs n.

(** Successful computations that keep it. *)
Definition keeps_shares {A} (f : M B A) : Prop := forall s r s', shares s.2 -> f s = (Ok r, s') -> shares s'.2.

Lemma shares_bind {A C} (f : M B A) (g : A -> M B C) : keeps_shares f -> (forall a, keeps_shares (g a)) -> keeps_shares (f ≫= g).
Proof. intros Hf Hg s r s' Hs E. inv_step E. eapply Hg; [|done]. by eapply Hf. Qed.
Lemma shares_pure {A} (f : M B A) : (forall s, (f s).2 = s) -> keeps_shares f.
Proof. intros Hf s r s' Hs E. specialize (Hf s). rewrite E in Hf. cbn in Hf. by subst s'. Qed.
Lemma shares_assert c : keeps_shares (massert c : M B unit).
Proof. apply shares_pure. intros s. by destruct c. Qed.
Lemma shares_on_b f : (forall b, bk_buckets (f b) = bk_buckets b) -> keeps_shares (on_b f).
Proof. intros Hf s r s' Hs [= _ <-]. cbn. unfold shares. by rewrite (Hf s.2). Qed.

Lemma shares_insert b k m m' c : shares b -> bk_buckets b !! k = Some m -> refs m' = refs m -> shares (b_modules (<[k := m']> (bk_buckets b)) c b).
Proof.
  intros Hs Hk Hr. assert (forall j n, <[k := m']> (bk_buckets b) !! j = Some n -> refs n = refs m) as Hall.
  { intros j n. rewrite lookup_insert. case_decide; [by intros [= <-]|]. intros Hj. by apply (Hs j k). }
  intros i j n1 n2 H1' H2'. by rewrite (Hall i n1 H1'), (Hall j n2 H2').
Qed.
Lemma shares_on_bucket {A} k (f : M S A) : fixes refs f -> keeps_shares (on_bucket k f).
Proof.
  intros Hf s r s' Hs E. unfold on_bucket in E. destruct (bk_buckets s.2 !! k) as [m|] eqn:Ek; [|done].
  pose proof (Hf (s.1, m)) as Hr. destruct (f (s.1, m)) as [r0 [x m']]. injection E as _ <-. by eapply shares_insert.
Qed.
Lemma shares_on_curr {A} (f : M S A) : fixes refs f -> keeps_shares (on_curr f).
Proof.
  intros Hf s r s' Hs E. unfold on_curr in E. destruct (bk_curr s.2); [|done]. by eapply shares_on_bucket.
Qed.

Ltac share_step :=
  lazymatch goal with
  | |- keeps_shares (mbind _ _) => apply shares_bind; [|intros ?]
  | |- keeps_shares (mret _) => apply shares_pure; reflexivity
  | |- keeps_shares (lift _) => apply shares_pure; reflexivity
  | |- keeps_shares get => apply shares_pure; reflexivity
  | |- keeps_shares (massert _) => apply shares_assert
  | |- keeps_shares (on_b _) => apply shares_on_b; intros ?; reflexivity
  | |- keeps_shares (on_curr _) => apply shares_on_curr
  | |- keeps_shares (match ?x with _ => _ end) => destruct x
  | |- keeps_shares ?t => let h := head_of t in unfold h
  end.

Lemma b_get_params_shares : keeps_shares b_get_params.
Proof. repeat share_step; [apply set_dirty_fixes|apply get_params_fixes]. Qed.
Lemma b_init_params_shares f arg aux am fi ae : keeps_shares (b_init_params f arg aux am fi ae).
Proof. repeat share_step. apply init_params_fixes. Qed.
Lemma b_set_params_shares arg aux am fi ae : keeps_shares (b_set_params arg aux am fi ae).
Proof. unfold b_set_params. destruct am; cbn [negb]; [repeat share_step; apply set_params_fixes|apply b_init_params_shares]. Qed.
Lemma b_update_shares : keeps_shares b_update.
Proof. repeat share_step. apply m_update_fixes. Qed.
Lemma b_backward_shares gs : keeps_shares (b_backward gs).
Proof. repeat share_step. apply backward_fixes. Qed.
Lemma b_set_states_shares st v : keeps_shares (b_set_states st v).
Proof. repeat share_step. apply m_set_states_fixes. Qed.

Lemma make_module_fresh b k m : make_module b k = Ok m -> m_binded m = false /\ m_optimizer_initialized m = false.
Proof.
  intros E. apply bind_ok in E as ([[sy d] l] & _ & E). unfold Module_new in E. do 5 (apply bind_ok in E as (? & _ & E)). by injection E as <-.
Qed.

Lemma switch_bucket_shares k ds ls : keeps_shares (switch_bucket k ds ls).
Proof.
  unfold switch_bucket. intros s r s' Hs E. rewrite bind_get in E. inv_step E. apply massert_ok in E0 as [_ ->]. inv_step E.
  assert (shares s0.2) as Hs0; [|injection E as _ <-; exact Hs0]. clear E.
  destruct (bk_buckets s.2 !! k) eqn:Ek; [by injection E0 as _ <-|].
  inv_step E0. apply lift_ok in E as [Em ->]. inv_step E0. assert (s1 = s /\ True) as [-> _].
  { unfold on_curr, on_bucket in E. destruct (bk_curr s.2) as [c|] eqn:Ec; [|done]. destruct (bk_buckets s.2 !! c) eqn:Eb; [|done]. injection E as _ <-.
    split; [|done]. rewrite insert_id by done. destruct s as [x []]. cbn in Ec. by subst. }
  inv_step E0. apply lift_ok in E1 as [Esh ->]. inv_step E0. apply lift_ok in E1 as [_ ->]. inv_step E0. apply lift_ok in E1 as [_ ->].
  inv_step E0. injection E1 as <- <-. destruct (bind _ _ _ _ _ _ _ _ _) as [r1 [x1 m1]] eqn:Eb. inv_step E0. apply lift_ok in E1 as [-> ->]. injection E0 as _ <-.
  destruct (make_module_fresh _ _ _ Em) as [Hb Ho]. apply bind_shared_refs in Eb; [|done|done]. cbn in Eb |- *.
  destruct (bk_buckets s.2 !! bk_default s.2) as [d|] eqn:Ed; [|done]. injection Esh as <-.
  assert (forall j n, <[k := m1]> (bk_buckets s.2) !! j = Some n -> refs n = refs d) as Hall.
  { intros j n. rewrite lookup_insert. case_decide; [by intros [= <-]|]. intros Hj. by apply (Hs j (bk_default s.2)). }
  intros i j n1 n2 Hi Hj. by rewrite (Hall i n1 Hi), (Hall j n2 Hj).
Qed.

Lemma b_forward_shares b tr : keeps_shares (b_forward b tr).
Proof.
  unfold b_forward. apply shares_bind; [repeat share_step|intros _]. apply shares_bind; [repeat share_step|intros x].
  apply shares_bind; [apply switch_bucket_shares|intros _]. apply shares_on_curr, forward_fixes.
Qed.
Lemma b_prepare_shares b : keeps_shares (b_prepare b).
Proof.
  unfold b_prepare. apply shares_bind; [repeat share_step|intros _]. apply shares_bind; [repeat share_step|intros x].
  apply shares_bind; [repeat share_step|intros s]. apply shares_bind; [apply switch_bucket_shares|intros _].
  apply shares_bind; [apply shares_on_curr, m_prepare_fixes|intros _]. apply shares_bind; [repeat share_step|intros k]. apply switch_bucket_shares.
Qed.

(** Borrowing an optimizer for a list of buckets. *)
Lemma borrow_all c keys : forall s u s', forM (fun k => on_bucket k (borrow_optimizer c)) keys s = (Ok u, s') ->
  forall k m', bk_buckets s'.2 !! k = Some m' -> exists m, bk_buckets s.2 !! k = Some m /\ array_refs m' = array_refs m /\
    if decide (k ∈ keys) then opt_refs m' = opt_refs c else m' = m.
Proof.
  induction keys as [|j keys IH]; intros s u s' E; cbn [forM] in E.
  - injection E as _ <-. intros k m' Hk. exists m'. split_and!; [done|done|]. destruct (decide (k ∈ [])) as [i|]; [by apply elem_of_nil in i|done].
  - inv_step E. pose proof (IH _ _ _ E) as D3. unfold on_bucket in E0. destruct (bk_buckets s.2 !! j) as [m|] eqn:Ej; [|done].
    unfold borrow_optimizer in E0. destruct (m_optimizer_initialized c) eqn:Eo; [|done]. cbn in E0. injection E0 as _ <-. cbn in D3.
    intros k m' Hk. destruct (D3 k m' Hk) as (m1 & Hm1 & Ha & Hor). destruct (decide (k = j)) as [->|].
    + rewrite lookup_insert_eq in Hm1. injection Hm1 as <-. exists m. split_and!; [done|done|].
      destruct (decide (j ∈ j :: keys)) as [|n]; [|by destruct n; left]. unfold opt_refs. rewrite Eo.
      destruct (decide (j ∈ keys)); [unfold opt_refs in Hor; by rewrite Eo in Hor|by rewrite Hor].
    + rewrite lookup_insert_ne in Hm1 by done. exists m1. split_and!; [done|done|].
      destruct (decide (k ∈ keys)) as [i|n0]; destruct (decide (k ∈ j :: keys)) as [i'|n1]; try done; [by destruct n1; right|].
      by apply elem_of_cons in i' as [|].
Qed.

Lemma b_init_optimizer_shares kv o fi : keeps_shares (b_init_optimizer kv o fi).
Proof.
  unfold b_init_optimizer. intros s r s' Hs E. inv_step E. assert (s0 = s) as ->.
  { unfold b_ready in E0. rewrite bind_get in E0. by apply massert_ok in E0 as [_ ->]. }
  rewrite bind_get in E. destruct (_ && _); [by injection E as _ <-|]. inv_step E. unfold on_curr, on_bucket in E1.
  destruct (bk_curr s.2) as [c|] eqn:Ec; [|done]. destruct (bk_buckets s.2 !! c) as [m|] eqn:Em; [|done].
  pose proof (init_optimizer_fixes kv o fi (s.1, m)) as Hf. destruct (init_optimizer _ _ _ _ _ _ _) as [r1 [x1 m1]]. injection E1 as _ <-. cbn in Hf.
  inv_step E. unfold on_curr, on_bucket in E1. cbn [snd b_modules bk_curr bk_buckets] in E1. rewrite lookup_insert_eq in E1. injection E1 as <- <-.
  rewrite bind_get in E. cbn [snd fst b_modules bk_curr bk_buckets] in E. inv_step E. injection E as _ <-.
  pose proof (borrow_all _ _ _ _ _ E1) as D3. cbn [snd fst b_modules bk_curr bk_buckets bk_default b_flags] in D3 |- *.
  assert (forall k n, bk_buckets s0.2 !! k = Some n -> refs n = (array_refs m, opt_refs m1)) as Hall.
  { intros k n Hk. destruct (D3 k n Hk) as (n1 & Hn1 & Ha & Hor). rewrite insert_insert_eq in Hn1. destruct (decide (k = c)) as [->|Hne].
    - rewrite lookup_insert_eq in Hn1. injection Hn1 as <-. destruct (decide (c ∈ _)) as [i|_]; [by apply list_elem_of_filter in i as [[] _]|]. subst n.
      unfold refs. by rewrite Hf.
    - rewrite lookup_insert_ne in Hn1 by done. destruct (decide (k ∈ _)) as [_|n0].
      + pose proof (Hs k c n1 m Hn1 Em) as Er. unfold refs in *. rewrite Hor, Ha. f_equal. congruence.
      + destruct n0. apply list_elem_of_filter. split; [congruence|]. apply list_elem_of_fmap. exists (k, n1). split; [done|].
        apply elem_of_map_to_list. by rewrite insert_insert_eq, lookup_insert_ne. }
  intros i j n1 n2 Hi Hj. by rewrite (Hall i n1 Hi), (Hall j n2 Hj).
Qed.

(** Binding leaves the default bucket alone. *)
Lemma bind_default_shares ds ls tr ing req saved s r s' : bk_buckets s.2 = ∅ -> bind_default ds ls tr ing req saved s = (Ok r, s') -> shares s'.2.
Proof.
  intros He E. unfold bind_default, on_b in E. rewrite bind_get, bind_modify in E. inv_step E. apply lift_ok in E0 as [_ ->]. inv_step E. injection E0 as <- <-.
  destruct (bind _ _ _ _ _ _ _ _ _) as [r1 [x1 m1]]. inv_step E. apply lift_ok in E0 as [_ ->]. rewrite bind_modify in E. cbn [fst snd] in E.
  match type of E with _ ?st = _ => assert (shares st.2) as Hs end.
  { intros j k n1 n2. cbn. rewrite He, !lookup_insert. do 2 case_decide; try done. by intros [= <-] [= <-]. }
  destruct saved as [h|]; [by eapply b_set_params_shares|by injection E as _ <-].
Qed.

Lemma b_bind_shares ds ls tr ing force req s r s' : shares s.2 -> force = true \/ bk_buckets s.2 = ∅ /\ bk_params_initialized s.2 = false ->
  b_bind ds ls tr ing force req s = (Ok r, s') -> shares s'.2.
Proof.
  intros Hs Hc E. unfold b_bind in E. rewrite bind_get in E. inv_step E. inv_step E. rewrite bind_get in E.
  assert (shares s1.2 /\ (bk_binded s1.2 = false -> bk_buckets s1.2 = ∅)) as [Hs1 He1].
  { destruct Hc as [->|[He Hp]].
    - unfold b_reset_bind, on_b in E1. rewrite bind_modify in E1. injection E1 as _ <-. split; [by intros ? ? ? ?|done].
    - rewrite Hp in E0. injection E0 as _ <-. destruct force.
      + unfold b_reset_bind, on_b in E1. rewrite bind_modify in E1. injection E1 as _ <-. split; [by intros ? ? ? ?|done].
      + injection E1 as _ <-. by split. }
  destruct (bk_binded s1.2); [by injection E as _ <-|]. eapply bind_default_shares; [by apply He1|exact E].
Qed.

(** ** Any sequence of calls *)

Inductive bop :=
  | BRebind (ds : list DataDesc) (ls : option (list DataDesc)) (for_training ing : bool) (req : greq)
  | BInit (f : option (string -> arr -> result arr)) (arg aux : option (gmap string arr)) (allow_missing force_init allow_extra : bool)
  | BSet (arg aux : gmap string arr) (allow_missing force_init allow_extra : bool)
  | BGet
  | BSwitch (k : bkey) (ds ls : option (list DataDesc))
  | BOptimizer (kv : kvarg K) (o : opt_arg O) (force_init : bool)
  | BPrepare (b : mbatches F)
  | BForward (b : mbatches F) (is_train : option bool)
  | BBackward (out_grads : list arr)
  | BUpdate
  | BSetStates (states : option (list (list arr))) (value : option F).
Definition run_bop (op : bop) : M B unit :=
  match op with
  | BRebind ds ls tr ing req => b_bind ds ls tr ing true req
  | BInit f arg aux am fi ae => b_init_params f arg aux am fi ae
  | BSet arg aux am fi ae => b_set_params arg aux am fi ae
  | BGet => _ ← b_get_params; mret tt
  | BSwitch k ds ls => switch_bucket k ds ls
  | BOptimizer kv o fi => b_init_optimizer kv o fi
  | BPrepare b => b_prepare b
  | BForward b tr => b_forward b tr
  | BBackward gs => b_backward gs
  | BUpdate => b_update
  | BSetStates st v => b_set_states st v
  end.

Lemma bop_shares op : keeps_shares (run_bop op).
Proof.
  destruct op; cbn [run_bop].
  - intros s r s' Hs E. eapply b_bind_shares; [done| |done]. by left.
  - apply b_init_params_shares.
  - apply b_set_params_shares.
  - apply shares_bind; [apply b_get_params_shares|intros h]. repeat share_step.
  - apply switch_bucket_shares.
  - apply b_init_optimizer_shares.
  - apply b_prepare_shares.
  - apply b_forward_shares.
  - apply b_backward_shares.
  - apply b_update_shares.
  - apply b_set_states_shares.
Qed.

Lemma bops_shares ops : keeps_shares (forM run_bop ops).
Proof. induction ops as [|op ops IH]; cbn [forM]; [repeat share_step|]. apply shares_bind; [apply bop_shares|by intros]. Qed.

(** C24: All buckets of a [BucketingModule] work on the same parameters with the same optimizer.
    After any sequence of successful calls that starts with a binding (bindings anew,
    initializations, assignments, switches, training on batches of any buckets), the modules of
    any two buckets refer to the same host parameters, to the same arrays on the devices, and
    to the same key-value store and updater, or both have no optimizer yet. *)
Theorem buckets_share default context workload fixed states comp b ds ls tr ing req x ops u v s0 s :
  BucketingModule_new default context workload fixed states comp = Ok b ->
  b_bind ds ls tr ing false req (x, b) = (Ok u, s0) -> forM run_bop ops s0 = (Ok v, s) ->
  forall j k m n, bk_buckets s.2 !! j = Some m -> bk_buckets s.2 !! k = Some n ->
    m_host m = m_host n /\ snd <$> m_group m = snd <$> m_group n /\ opt_refs m = opt_refs n.
Proof.
  intros Eb Ebind Eops j k m n Hj Hk. assert (bk_buckets b = ∅ /\ bk_params_initialized b = false) as [He Hp].
  { unfold BucketingModule_new in Eb. apply bind_ok in Eb as (? & _ & Eb). apply bind_ok in Eb as ([[sy d] l] & _ & Eb).
    do 4 (apply bind_ok in Eb as (? & _ & Eb)). by injection Eb as <-. }
  assert (shares s0.2) as Hs0 by (refine (b_bind_shares _ _ _ _ _ _ (x, b) _ _ _ (or_intror (conj He Hp)) Ebind); intros ? ? ? ?; cbn; by rewrite He, lookup_empty).
  pose proof (bops_shares ops s0 v s Hs0 Eops j k m n Hj Hk) as E. unfold refs, array_refs in E. injection E as E1 E2 E3. by split_and!.
Qed.
End Bucketing.

(** ** Two buckets *)

Section Example.
#[local] Instance bk_Float : Float Z := {
  fadd := Z.add; fsub := Z.sub; fmul := Z.mul; fdiv := Z.div; fof x := x; fltb := Z.ltb; fzero := Z.eqb 0; fpow := Z.pow; fcos x := x; fpi := 3 }.

(** Momentum: the state adds up the gradients. *)
Definition add_up (s : ostate Z) (g : list Z) : list Z := match s with SArr t => zip_with Z.add (t_data t) g | _ => g end.
#[local] Instance momentum : OptimizerClass Z unit := {
  oc_aggregate _ := 0; oc_create_state _ w _ := SArr (with_data (map (fun _ => 0) (t_data w)) w);
  oc_update _ w g s := let m := add_up s (t_data g) in mret (with_data (zip_with Z.sub (t_data w) m) w, g, SArr (with_data m w));
  oc_update_list _ _ _ _ := raise NotImplementedError; oc_pickled o := o }.
#[local] Instance no_store : ModuleKV Z unit unit := {
  mk_create _ := Raise NotImplementedError; mk_type _ := "local"%string; mk_num_workers _ := 1;
  mk_init n a := mret tt; mk_push n l := mret tt; mk_pull n l := mret l;
  mk_set_optimizer _ := mret tt; mk_set_compression := mret tt; mk_save_states := mret (∅, None); mk_load_states _ := mret tt }.

(** A symbol with some of the parameters [w] and [v], whose gradients are 1 and 10. *)
Definition params_symbol (params : list string) : symbol Z := {|
  s_arguments := "data"%string :: params; s_auxiliary := []; s_outputs := ["out"%string]; s_layout _ := None;
  s_infer shapes := Ok (list_to_map (map (fun n => (n, [1%nat])) params) ∪ shapes, ∅, [default [] (shapes !! "data"%string)]);
  s_forward _ args aux := (match args !! "data"%string with Some d => [d] | None => [] end, ∅);
  s_backward _ _ _ := {["w"%string := mkNda [1%nat] [1]; "v"%string := mkNda [1%nat] [10]]} |}.

(** Key 1 is the default; key 2 has its parameters in another order, key 3 has one only. *)
Definition ex_gen (k : bkey) : result (symbol Z * list string * list string) :=
  match k with
  | Some 1 => Ok (params_symbol ["w"; "v"]%string, ["data"%string], [])
  | Some 2 => Ok (params_symbol ["v"; "w"]%string, ["data"%string], [])
  | Some 3 => Ok (params_symbol ["w"%string], ["data"%string], [])
  | _ => Raise ValueError
  end.
Definition bk_unset (n : string) (s : list nat) : list Z := replicate (size s) 0.
Definition bk_create (n : string) (r : option Z) (m : gmap key string) : result unit := Ok tt.
Definition bk_desc : DataDesc := mkDesc "data" [2; 1] "float32" None.
Definition bk_batch (k : Z) : mbatches Z := OneBatch (mkMBatch [mkNda [2; 1]%nat [1; 2]] [] 0 (Some k) (Some [bk_desc]) None).
Definition bk_fives (n : string) (a : nda Z) : result (nda Z) := Ok (mkNda (a_shape a) (map (fun _ => 5) (a_flat a))).
Definition bk_new : bmodule Z := match BucketingModule_new ex_gen (Some 1) [cpu] None [] [] false with Ok b => b | Raise _ => mkBucketing None [] None [] [] false false false false false false ∅ None false None end.
Notation mem := (memory Z unit unit).
Definition bk_bound : mem * bmodule Z := (b_bind bk_unset ex_gen [bk_desc] None true false false (GStr "write") (mkMemory [] [] [] [] ∅, bk_new)).2.
Definition bk_train (k : Z) : list (bop (F := Z) (O := unit) (K := unit)) := [BForward (bk_batch k) (Some true); BBackward []; BUpdate].
Definition bk_start : list (bop (F := Z) (O := unit) (K := unit)) := [BInit (Some bk_fives) None None false false false; BOptimizer KVNone (OptObject tt) false].
Definition bk_run (ops : list (bop (F := Z) (O := unit) (K := unit))) : result unit * (mem * bmodule Z) :=
  forM (run_bop bk_unset bk_create true (fun _ => false) ex_gen) ops bk_bound.
Definition bk_params (ops : list (bop (F := Z) (O := unit) (K := unit))) : result (option (nda Z) * option (nda Z)) :=
  h ← (b_get_params (bk_run ops).2).1; Ok (h.1 !! "w"%string, h.1 !! "v"%string).

Definition bk_ops : list (bop (F := Z) (O := unit) (K := unit)) := bk_start ++ bk_train 1 ++ bk_train 2.
Lemma bk_bound_ok : b_bind bk_unset ex_gen [bk_desc] None true false false (GStr "write") (mkMemory [] [] [] [] ∅, bk_new) = (Ok tt, bk_bound).
Proof.
  unfold bk_bound. match goal with |- ?t = _ => assert (t.1 = Ok tt) as E by (vm_compute; reflexivity); revert E; generalize t end.
  intros [r s] E. cbn in E. by rewrite E.
Qed.
Lemma bk_run_ok : forM (run_bop bk_unset bk_create true (fun _ => false) ex_gen) bk_ops bk_bound = (Ok tt, (bk_run bk_ops).2).
Proof.
  unfold bk_run. match goal with |- ?t = _ => assert (t.1 = Ok tt) as E by (vm_compute; reflexivity); revert E; generalize t end.
  intros [r s] E. cbn in E. by rewrite E.
Qed.
Lemma bk_has k : k = 1 \/ k = 2 -> exists m, bk_buckets (bk_run bk_ops).2.2 !! Some k = Some m.
Proof.
  intros Hk. assert (match bk_buckets (bk_run bk_ops).2.2 !! Some k with Some _ => true | None => false end = true) as E
    by (destruct Hk as [->| ->]; vm_compute; reflexivity).
  destruct (_ !! _); [eauto|done].
Qed.

Example buckets_share_witness :
  exists m n, bk_buckets (bk_run bk_ops).2.2 !! Some 1 = Some m /\ bk_buckets (bk_run bk_ops).2.2 !! Some 2 = Some n /\
    m_host m = m_host n /\ snd <$> m_group m = snd <$> m_group n /\ opt_refs m = opt_refs n.
Proof.
  destruct (bk_has 1 ltac:(by left)) as [m Hm]. destruct (bk_has 2 ltac:(by right)) as [n Hn]. exists m, n. split; [exact Hm|split; [exact Hn|]].
  exact (buckets_share bk_unset bk_create true (fun _ => false) ex_gen (Some 1) [cpu] None [] [] false bk_new [bk_desc] None true false (GStr "write")
    (mkMemory [] [] [] [] ∅) bk_ops tt tt bk_bound (bk_run bk_ops).2 eq_refl bk_bound_ok bk_run_ok (Some 1) (Some 2) m n Hm Hn).
Defined.

(** Two steps on the default bucket: [w] is [5 - 1 - 2] and [v] is [5 - 10 - 20].  When the second
    step goes through a bucket that lists its parameters in another order, the updater, which
    knows them by their position, takes the momentum of the one for the other. *)
Lemma buckets_mix_states :
  bk_params (bk_start ++ bk_train 1 ++ bk_train 1) = Ok (Some (mkNda [1%nat] [2]), Some (mkNda [1%nat] [-25])) /\
  bk_params (bk_start ++ bk_train 1 ++ bk_train 2) = Ok (Some (mkNda [1%nat] [-7]), Some (mkNda [1%nat] [-16])).
Proof. vm_compute. split; reflexivity. Qed.

(** After a step on the default bucket [v] is [-5]; read through a bucket without [v] it is still
    [5], and the module takes its host parameters for current from then on. *)
Lemma smaller_bucket_reads_stale :
  bk_params (bk_start ++ bk_train 1) = Ok (Some (mkNda [1%nat] [4]), Some (mkNda [1%nat] [-5])) /\
  bk_params (bk_start ++ bk_train 1 ++ [BForward (bk_batch 3) (Some false)]) = Ok (Some (mkNda [1%nat] [4]), Some (mkNda [1%nat] [5])) /\
  bk_params (bk_start ++ bk_train 1 ++ [BForward (bk_batch 3) (Some false); BGet; BForward (bk_batch 1) (Some false)]) = Ok (Some (mkNda [1%nat] [4]), Some (mkNda [1%nat] [5])).
Proof. vm_compute. split_and!; reflexivity. Qed.
End Example.
