(* ===== verification/Sequential.v ===== *)
(** * Chains of modules

    [SequentialModule] of [module/sequential_module.py] over any modules ([ModuleOps]), which may
    share memory ([Mem]).  The theorem says that the forward pass of a chain is the composition
    of the functions of its layers, and the backward pass their chain rule. *)

From Stdlib Require Import Ascii String.
From stdpp Require Import strings.
From S2P Require Import Prelude NDArray Array Split Axis DataIter LRScheduler Optimizer Trainer Scope RNNCell Checkpoint ExecGroup ModuleDef Bucketing.
Open Scope Z_scope.

(** What a chain uses of its modules. *)
Class ModuleOps (F O K Mem X : Type) := {
  mo_data_names : X -> result (list string);
  mo_output_shapes : M (Mem * X) (list (string * list Z));
  mo_bind : list DataDesc -> option (list DataDesc) -> bool -> bool -> bool -> greq -> M (Mem * X) unit;
  mo_get_params : M (Mem * X) (gmap string (nda F) * gmap string (nda F));
  mo_init_params : option (string -> nda F -> result (nda F)) -> option (gmap string (nda F)) -> option (gmap string (nda F)) -> bool -> bool -> bool -> M (Mem * X) unit;
  mo_init_optimizer : kvarg K -> opt_arg O -> bool -> M (Mem * X) unit;
  mo_forward : mbatches F -> option bool -> M (Mem * X) unit;
  mo_backward : list (nda F) -> M (Mem * X) unit;
  mo_update : M (Mem * X) unit;
  mo_get_outputs : M (Mem * X) (list (nda F));
  mo_get_input_grads : M (Mem * X) (list (nda F));
}.

Record smodule (X : Type) := mkSequential {
  sq_modules : list X;
  sq_metas : list (list (string * bool));
  sq_binded : bool;
  sq_params_initialized : bool;
  sq_optimizer_initialized : bool;
  sq_inputs_need_grad : bool;
  sq_label_shapes : option (list DataDesc);
}.
Arguments mkSequential {X} _ _ _ _ _ _ _.
Arguments sq_modules {X} _.
Arguments sq_metas {X} _.
Arguments sq_binded {X} _.
Arguments sq_params_initialized {X} _.
Arguments sq_optimizer_initialized {X} _.
Arguments sq_inputs_need_grad {X} _.
Arguments sq_label_shapes {X} _.

Section Sequential.
Context {F O K Mem X : Type} `{ModuleOps F O K Mem X}.
Notation arr := (nda F).
Notation host := (gmap string arr * gmap string arr)%type.
Notation Q := (Mem * smodule X)%type.

Definition SequentialModule_new : smodule X := mkSequential [] [] false false false false None.

(** ** Assignments to attributes *)

Definition q_flags (binded params opt : bool) (q : smodule X) : smodule X :=
  mkSequential (sq_modules q) (sq_metas q) binded params opt (sq_inputs_need_grad q) (sq_label_shapes q).
Definition q_lists (l : list X) (metas : list (list (string * bool))) (q : smodule X) : smodule X :=
  mkSequential l metas (sq_binded q) (sq_params_initialized q) (sq_optimizer_initialized q) (sq_inputs_need_grad q) (sq_label_shapes q).
Definition q_labels (ls : option (list DataDesc)) (q : smodule X) : smodule X :=
  mkSequential (sq_modules q) (sq_metas q) (sq_binded q) (sq_params_initialized q) (sq_optimizer_initialized q) (sq_inputs_need_grad q) ls.
Definition on_q (f : smodule X -> smodule X) : M Q unit := modify (fun s => (s.1, f s.2)).

(** A call on the module of layer [i]. *)
Definition on_layer {A} (i : nat) (f : M (Mem * X) A) : M Q A := fun s =>
  match sq_modules s.2 !! i with
  | None => (Raise IndexError, s)
  | Some x => let '(r, (mem, x)) := f (s.1, x) in (r, (mem, q_lists (<[i := x]> (sq_modules s.2)) (sq_metas s.2) s.2))
  end.
Definition layers (q : smodule X) : list nat := seq 0 (length (sq_modules q)).

(** ** [add] *)

Definition meta_keys : list string := ["take_labels"; "auto_wiring"]%string.
Definition add (x : X) (kwargs : list (string * bool)) : M Q unit :=
  _ ← on_q (fun q => q_lists (sq_modules q ++ [x]) (sq_metas q) q);
  _ ← massert (forallb (fun k => bool_decide (k.1 ∈ meta_keys)) kwargs);
  _ ← on_q (fun q => q_lists (sq_modules q) (sq_metas q ++ [kwargs]) q);
  on_q (q_flags false false false).
Definition has_meta (k : string) (meta : list (string * bool)) : bool := existsb (fun x => str_eqb x.1 k && x.2) meta.

(** ** Information *)

Definition q_data_names (q : smodule X) : result (list string) := match sq_modules q with [] => Ok [] | x :: _ => mo_data_names x end.
Definition q_output_shapes : M Q (list (string * list Z)) :=
  s ← get; _ ← massert (sq_binded s.2); on_layer (length (sq_modules s.2) - 1) mo_output_shapes.
Definition q_ready : M Q unit := s ← get; massert (sq_binded s.2 && sq_params_initialized s.2).

(** ** Parameters *)

Fixpoint q_collect (l : list nat) (h : host) : M Q host :=
  match l with
  | [] => mret h
  | i :: l => h' ← on_layer i mo_get_params; q_collect l (h'.1 ∪ h.1, h'.2 ∪ h.2)
  end.
Definition q_get_params : M Q host := _ ← q_ready; s ← get; q_collect (layers s.2) (∅, ∅).

(** [_check_name]: no name is known from an earlier layer. *)
Definition check_names (known names : gset string) : result (gset string) :=
  _ ← py_assert (bool_decide (known ∩ names = ∅)); Ok (known ∪ names).
Fixpoint check_layers (l : list nat) (args auxs : gset string) : M Q unit :=
  match l with
  | [] => mret tt
  | i :: l =>
      h ← on_layer i mo_get_params;
      args ← lift (check_names args (dom h.1));
      auxs ← lift (check_names auxs (dom h.2));
      check_layers l args auxs
  end.
Definition q_init_params (initializer : option (string -> arr -> result arr)) (arg aux : option (gmap string arr)) (allow_missing force_init allow_extra : bool) : M Q unit :=
  s ← get;
  if sq_params_initialized s.2 && negb force_init then mret tt
  else
    _ ← massert (sq_binded s.2);
    _ ← forM (fun i => on_layer i (mo_init_params initializer arg aux allow_missing force_init allow_extra)) (layers s.2);
    _ ← check_layers (layers s.2) ∅ ∅;
    on_q (fun q => q_flags (sq_binded q) true (sq_optimizer_initialized q) q).

(** ** Binding *)

(** [DataDesc( *x)] of a name and a shape *)
Definition as_desc (x : string * list Z) : DataDesc := DataDesc_new x.1 x.2 None.

(** The data of layer [i], renamed when its wiring is automatic. *)
Definition wire (meta : list (string * bool)) (x : X) (ds : list DataDesc) : result (list DataDesc) :=
  if has_meta "auto_wiring" meta then
    names ← mo_data_names x;
    _ ← py_assert (length names =? length ds)%nat;
    Ok (map (fun y => as_desc (y.1, desc_shape y.2)) (zip names ds))
  else Ok ds.
Fixpoint bind_layers (label_shapes : option (list DataDesc)) (for_training ing force : bool) (req : greq) (l : list nat) (ds : list DataDesc) (any : bool) : M Q bool :=
  match l with
  | [] => mret any
  | i :: l =>
      s ← get;
      meta ← lift (py_index (sq_metas s.2) (Z.of_nat i));
      x ← lift (py_index (sq_modules s.2) (Z.of_nat i));
      let takes := has_meta "take_labels" meta in
      ds ← lift (wire meta x ds);
      _ ← on_layer i (mo_bind ds (if takes then label_shapes else None) for_training (ing || (for_training && negb (i =? 0)%nat)) force req);
      outs ← on_layer i mo_output_shapes;
      bind_layers label_shapes for_training ing force req l (map as_desc outs) (any || takes)
  end.
(** [self.for_training] and [self.inputs_need_grad] are not assigned. *)
Definition q_bind (ds : list DataDesc) (ls : option (list DataDesc)) (for_training ing force_rebind : bool) (req : greq) : M Q unit :=
  s ← get;
  if sq_binded s.2 && negb force_rebind then mret tt
  else
    _ ← (if ing then massert for_training else mret tt);
    _ ← massert (negb (length (sq_modules s.2) =? 0)%nat);
    _ ← on_q (fun q => q_labels ls (q_flags true (sq_params_initialized q) (sq_optimizer_initialized q) q));
    bind_layers ls for_training ing force_rebind req (layers s.2) ds false ≫= fun any : bool =>
    if any then mret tt else on_q (q_labels None).

Definition q_init_optimizer (kv : kvarg K) (o : opt_arg O) (force_init : bool) : M Q unit :=
  _ ← q_ready;
  s ← get;
  if sq_optimizer_initialized s.2 && negb force_init then mret tt
  else
    _ ← forM (fun i => on_layer i (mo_init_optimizer kv o force_init)) (layers s.2);
    on_q (fun q => q_flags (sq_binded q) (sq_params_initialized q) true q).

(** ** Computing *)

(** The batch for the next layer: the outputs of this one, described by their names. *)
Definition next_batch (b : mbatches F) (data : list arr) (shapes : list (string * list Z)) : result (mbatches F) :=
  match b with
  | OneBatch b =>
      _ ← py_assert (length shapes =? length data)%nat;
      Ok (OneBatch (mkMBatch data (mb_label b) (mb_pad b) (mb_bucket_key b)
            (Some (map (fun x => as_desc (x.1.1, map Z.of_nat (a_shape x.2))) (zip shapes data))) (mb_provide_label b)))
  | ManyBatches _ => Raise AttributeError
  end.
Fixpoint forward_layers (l : list nat) (b : mbatches F) (is_train : option bool) : M Q unit :=
  match l with
  | [] => mret tt
  | i :: l =>
      _ ← on_layer i (mo_forward b is_train);
      match l with
      | [] => mret tt
      | _ =>
          data ← on_layer i mo_get_outputs;
          shapes ← (match b with OneBatch _ => on_layer i mo_output_shapes | ManyBatches _ => raise AttributeError end);
          b ← lift (next_batch b data shapes);
          forward_layers l b is_train
      end
  end.
Definition q_forward (b : mbatches F) (is_train : option bool) : M Q unit := _ ← q_ready; s ← get; forward_layers (layers s.2) b is_train.

Fixpoint backward_layers (l : list nat) (out_grads : list arr) : M Q unit :=
  match l with
  | [] => mret tt
  | i :: l =>
      _ ← on_layer i (mo_backward out_grads);
      match l with
      | [] => mret tt
      | _ => gs ← on_layer i mo_get_input_grads; backward_layers l gs
      end
  end.
Definition q_backward (out_grads : list arr) : M Q unit := _ ← q_ready; s ← get; backward_layers (reverse (layers s.2)) out_grads.

Definition q_update : M Q unit :=
  s ← get;
  _ ← massert (sq_binded s.2 && sq_params_initialized s.2 && sq_optimizer_initialized s.2);
  forM (fun i => on_layer i mo_update) (layers s.2).
Definition q_get_outputs : M Q (list arr) := _ ← q_ready; s ← get; on_layer (length (sq_modules s.2) - 1) mo_get_outputs.
Definition q_get_input_grads : M Q (list arr) :=
  s ← get;
  _ ← massert (sq_binded s.2 && sq_params_initialized s.2 && sq_inputs_need_grad s.2);
  on_layer 0 mo_get_input_grads.
End Sequential.

(** ** The chain rule *)

(** What a layer computes: its outputs, and the gradients of its data from those of its outputs. *)
Record layer (F : Type) := mkLayer { ly_fwd : list (nda F) -> list (nda F); ly_bwd : list (nda F) -> list (nda F) -> list (nda F) }.
Arguments mkLayer {F} _ _.
Arguments ly_fwd {F} _ _.
Arguments ly_bwd {F} _ _ _.

Section Chain.
Context {F O K Mem X : Type} `{ModuleOps F O K Mem X}.
Notation arr := (nda F).
Notation Q := (Mem * smodule X)%type.

(** A module that computes a layer, as long as the memory stays [ok]: before a pass, after a
    forward pass on some data, and after a backward pass with some gradients. *)
Class ChainLaws (ok : Mem -> Prop) (fits : layer F -> list arr -> Prop) (idle : layer F -> X -> Prop) (ran : layer F -> list arr -> X -> Prop)
  (back : layer F -> list arr -> list arr -> X -> Prop) := {
  cl_forward : forall l x mem b tr, ok mem -> idle l x -> fits l (mb_data b) ->
    exists mem' x', mo_forward (OneBatch b) tr (mem, x) = (Ok tt, (mem', x')) /\ ok mem' /\ ran l (mb_data b) x';
  cl_outputs : forall l d x mem, ok mem -> ran l d x -> mo_get_outputs (mem, x) = (Ok (ly_fwd l d), (mem, x));
  cl_shapes : forall l d x mem, ok mem -> ran l d x ->
    exists shapes, mo_output_shapes (mem, x) = (Ok shapes, (mem, x)) /\ length shapes = length (ly_fwd l d);
  cl_backward : forall l d x mem g, ok mem -> ran l d x ->
    exists mem' x', mo_backward g (mem, x) = (Ok tt, (mem', x')) /\ ok mem' /\ back l d g x';
  cl_grads : forall l d g x mem, ok mem -> back l d g x -> mo_get_input_grads (mem, x) = (Ok (ly_bwd l d g), (mem, x));
}.

Fixpoint chain_fwd (ls : list (layer F)) (d : list arr) : list arr := match ls with [] => d | l :: ls => chain_fwd ls (ly_fwd l d) end.
Fixpoint chain_bwd (ls : list (layer F)) (d g : list arr) : list arr := match ls with [] => g | l :: ls => ly_bwd l d (chain_bwd ls (ly_fwd l d) g) end.

Context {ok fits idle ran back} `{!ChainLaws ok fits idle ran back}.

(** All data along the chain have the shapes the layers are bound to. *)
Fixpoint chain_fits (ls : list (layer F)) (d : list arr) : Prop := match ls with [] => True | l :: ls => fits l d /\ chain_fits ls (ly_fwd l d) end.
Inductive ran_all : list (layer F) -> list arr -> list X -> Prop :=
  | ran_nil d : ran_all [] d []
  | ran_cons l ls d x xs : ran l d x -> ran_all ls (ly_fwd l d) xs -> ran_all (l :: ls) d (x :: xs).

Lemma ran_all_length ls d xs : ran_all ls d xs -> length ls = length xs.
Proof. induction 1; cbn; congruence. Qed.
Lemma chain_fwd_snoc ls l d : chain_fwd (ls ++ [l]) d = ly_fwd l (chain_fwd ls d).
Proof. revert d. induction ls as [|l0 ls IH]; intros d; [done|apply IH]. Qed.
Lemma chain_bwd_snoc ls l d g : chain_bwd (ls ++ [l]) d g = chain_bwd ls d (ly_bwd l (chain_fwd ls d) g).
Proof. revert d. induction ls as [|l0 ls IH]; intros d; [done|]. cbn. by rewrite IH. Qed.
Lemma ran_all_snoc ls l d xs : ran_all (ls ++ [l]) d xs -> exists xs0 x, xs = xs0 ++ [x] /\ ran_all ls d xs0 /\ ran l (chain_fwd ls d) x.
Proof.
  revert d xs. induction ls as [|l0 ls IH]; intros d xs Hr; inversion Hr as [|? ? ? x xs1 Hx Hxs]; subst.
  - inversion Hxs; subst. exists [], x. by split_and!; [|constructor|].
  - destruct (IH _ _ Hxs) as (xs0 & y & -> & Hr0 & Hy). exists (x :: xs0), y. by split_and!; [|constructor|].
Qed.

(** A call on one layer of a chain. *)
Lemma on_layer_run {A} (f : M (Mem * X) A) mem q pre x post r mem' x' :
  f (mem, x) = (r, (mem', x')) ->
  on_layer (length pre) f (mem, q_lists (pre ++ x :: post) (sq_metas q) q) = (r, (mem', q_lists (pre ++ x' :: post) (sq_metas q) q)).
Proof.
  intros E. unfold on_layer. cbn [snd sq_modules q_lists fst]. rewrite list_lookup_middle by done. rewrite E.
  unfold q_lists. cbn. by rewrite insert_app_r_alt, Nat.sub_diag by lia.
Qed.

Lemma forward_layers_run tr ls : forall xs pre mem q b, ok mem -> Forall2 idle ls xs -> chain_fits ls (mb_data b) ->
  exists mem' xs', forward_layers (seq (length pre) (length xs)) (OneBatch b) tr (mem, q_lists (pre ++ xs) (sq_metas q) q) =
    (Ok tt, (mem', q_lists (pre ++ xs') (sq_metas q) q)) /\ ok mem' /\ ran_all ls (mb_data b) xs'.
Proof.
  induction ls as [|l ls IH]; intros xs pre mem q b Hok Hi Hf.
  - apply Forall2_nil_inv_l in Hi as ->. exists mem, []. split_and!; [done|done|constructor].
  - apply Forall2_cons_inv_l in Hi as (x & xs0 & Hx & Hxs & ->). destruct Hf as [Hf Hfs]. cbn [length seq forward_layers].
    destruct (cl_forward l x mem b tr Hok Hx Hf) as (mem1 & x1 & E1 & Hok1 & Hr1).
    rewrite (bind_run _ _ _ _ _ (on_layer_run _ mem q pre x xs0 _ _ _ E1)).
    destruct xs0 as [|y xs0]; cbn [length seq].
    { apply Forall2_nil_inv_r in Hxs as ->. exists mem1, [x1]. split_and!; [done|done|]. by constructor; [|constructor]. }
    rewrite (bind_run _ _ _ _ _ (on_layer_run _ mem1 q pre x1 (y :: xs0) _ _ _ (cl_outputs l _ x1 mem1 Hok1 Hr1))).
    destruct (cl_shapes l _ x1 mem1 Hok1 Hr1) as (sh & E2 & Hl2).
    rewrite (bind_run _ _ _ _ _ (on_layer_run _ mem1 q pre x1 (y :: xs0) _ _ _ E2)). unfold next_batch. rewrite Hl2, Nat.eqb_refl.
    cbn [py_assert]. change (lift (_ ≫= _)) with (lift (S := Q) (Ok (OneBatch (mkMBatch (ly_fwd l (mb_data b)) (mb_label b) (mb_pad b) (mb_bucket_key b)
      (Some (map (fun x => as_desc (x.1.1, map Z.of_nat (a_shape x.2))) (zip sh (ly_fwd l (mb_data b))))) (mb_provide_label b))))).
    rewrite bind_lift. replace (S (length pre)) with (length (pre ++ [x1])) by (rewrite length_app; cbn; lia).
    replace (pre ++ x1 :: y :: xs0) with ((pre ++ [x1]) ++ y :: xs0) by (by rewrite <- app_assoc).
    match goal with |- context [forward_layers _ (OneBatch ?b1)] => destruct (IH (y :: xs0) (pre ++ [x1]) mem1 q b1 Hok1 Hxs Hfs) as (mem2 & xs2 & E3 & Hok2 & Hr2) end.
    exists mem2, (x1 :: xs2). split_and!; [|done|by constructor].
    replace (pre ++ x1 :: xs2) with ((pre ++ [x1]) ++ xs2) by (by rewrite <- app_assoc). exact E3.
Qed.

Lemma backward_layers_run ls d : forall xs post mem q g, ls <> [] -> ok mem -> ran_all ls d xs ->
  exists mem' x' xs' l g0, backward_layers (reverse (seq 0 (length xs))) g (mem, q_lists (xs ++ post) (sq_metas q) q) =
    (Ok tt, (mem', q_lists (x' :: xs' ++ post) (sq_metas q) q)) /\ ok mem' /\ back l d g0 x' /\ ly_bwd l d g0 = chain_bwd ls d g.
Proof.
  induction ls as [|l ls IH] using rev_ind; intros xs post mem q g Hne Hok Hr; [done|].
  destruct (ran_all_snoc _ _ _ _ Hr) as (xs0 & x & -> & Hr0 & Hx). pose proof (ran_all_length _ _ _ Hr0) as Hl.
  rewrite length_app. cbn [length]. rewrite Nat.add_1_r, seq_S, reverse_snoc. cbn [plus backward_layers].
  destruct (cl_backward l _ x mem g Hok Hx) as (mem1 & x1 & E1 & Hok1 & Hb1). rewrite <- (app_assoc xs0). cbn [app].
  rewrite (bind_run _ _ _ _ _ (on_layer_run _ mem q xs0 x post _ _ _ E1)). rewrite chain_bwd_snoc. destruct ls as [|l0 ls].
  - destruct xs0; [|done]. cbn. exists mem1, x1, [], l, g. by split_and!.
  - destruct xs0 as [|y xs0]; [done|].
    destruct (IH (y :: xs0) (x1 :: post) mem1 q (ly_bwd l (chain_fwd (l0 :: ls) d) g) ltac:(done) Hok1 Hr0) as (mem2 & x2 & xs2 & l2 & g2 & E2 & Hok2 & Hb2 & Hg2).
    exists mem2, x2, (xs2 ++ [x1]), l2, g2. split_and!; [|done|done|done]. rewrite <- app_assoc. cbn [app].
    destruct (reverse (seq 0 (length (y :: xs0)))) as [|i js] eqn:Er.
    { apply (f_equal length) in Er. by rewrite length_reverse, length_seq in Er. }
    rewrite (bind_run _ _ _ _ _ (on_layer_run _ mem1 q (y :: xs0) x1 post _ _ _ (cl_grads l _ g x1 mem1 Hok1 Hb1))). exact E2.
Qed.

(** A [SequentialModule] composes its layers.  Over modules that each compute a function of
    their data and its gradient, a forward pass on a batch succeeds and leaves the composition
    of the functions of the layers as outputs, whatever the number of layers; a backward pass
    then leaves, as gradients of the data of the first layer, those that the chain rule gives. *)
Theorem sequential_chain_rule ls q mem b tr g :
  ok mem -> ls <> [] -> Forall2 idle ls (sq_modules q) -> chain_fits ls (mb_data b) -> sq_binded q = true -> sq_params_initialized q = true ->
  exists s1 s2, q_forward (OneBatch b) tr (mem, q) = (Ok tt, s1) /\ q_get_outputs s1 = (Ok (chain_fwd ls (mb_data b)), s1) /\
    q_backward g s1 = (Ok tt, s2) /\ on_layer 0 mo_get_input_grads s2 = (Ok (chain_bwd ls (mb_data b) g), s2).
Proof.
  intros Hok Hne Hi Hf Hb Hp. assert (q = q_lists ([] ++ sq_modules q) (sq_metas q) q) as Eq by (by destruct q).
  destruct (forward_layers_run tr ls (sq_modules q) [] mem q b Hok Hi Hf) as (mem1 & xs1 & E1 & Hok1 & Hr1).
  destruct (backward_layers_run ls (mb_data b) xs1 [] mem1 q g Hne Hok1 Hr1) as (mem2 & x2 & xs2 & l2 & g2 & E2 & Hok2 & Hb2 & Hg2).
  cbn [app] in E1. rewrite !app_nil_r in E2.
  assert (forall l, q_ready (mem1, q_lists l (sq_metas q) q) = (Ok tt, (mem1, q_lists l (sq_metas q) q))) as Hq
    by (intros l; unfold q_ready; rewrite bind_get; cbn; by rewrite Hb, Hp).
  exists (mem1, q_lists xs1 (sq_metas q) q), (mem2, q_lists (x2 :: xs2) (sq_metas q) q). split_and!.
  - unfold q_forward. erewrite bind_run; [|unfold q_ready; rewrite bind_get; cbn [snd]; by rewrite Hb, Hp]. rewrite bind_get. rewrite Eq at 2. exact E1.
  - unfold q_get_outputs. rewrite (bind_run _ _ _ _ _ (Hq _)), bind_get. cbn [snd sq_modules q_lists].
    destruct (exists_last Hne) as (ls0 & l & El). rewrite El in *. destruct (ran_all_snoc _ _ _ _ Hr1) as (xs0 & x & -> & _ & Hx).
    rewrite length_app. cbn [length]. rewrite Nat.add_sub, chain_fwd_snoc. exact (on_layer_run _ mem1 q xs0 x [] _ _ _ (cl_outputs l _ x mem1 Hok1 Hx)).
  - unfold q_backward. rewrite (bind_run _ _ _ _ _ (Hq _)), bind_get. exact E2.
  - rewrite <- Hg2. exact (on_layer_run _ mem2 q [] x2 xs2 _ _ _ (cl_grads l2 _ g2 x2 mem2 Hok2 Hb2)).
Qed.

(** [get_input_grads] fails on every chain: no method assigns [inputs_need_grad], [bind] neither. *)
Definition keeps_flag {A} (f : M Q A) : Prop := forall s, sq_inputs_need_grad (f s).2.2 = sq_inputs_need_grad s.2.
Lemma keeps_flag_bind {A B} (f : M Q A) (g : A -> M Q B) : keeps_flag f -> (forall a, keeps_flag (g a)) -> keeps_flag (f ≫= g).
Proof.
  intros Hf Hg s. rewrite bind_M. pose proof (Hf s) as E. destruct (f s) as [[a|e] s1]; cbn in *; [|done]. by rewrite Hg.
Qed.
Lemma keeps_flag_layer {A} i (f : M (Mem * X) A) : keeps_flag (on_layer i f).
Proof. intros s. unfold on_layer. destruct (_ !! i) as [x|]; [|done]. by destruct (f _) as [r [mem y]]. Qed.
Lemma bind_layers_flag ls tr ing force req l : forall ds any, keeps_flag (bind_layers ls tr ing force req l ds any).
Proof.
  induction l as [|i l IH]; intros ds any; cbn [bind_layers]; [done|].
  repeat (apply keeps_flag_bind; [first [apply keeps_flag_layer|done]|intros ?]). apply IH.
Qed.
Lemma sequential_input_grads_fail ds ls tr ing force req mem q :
  sq_inputs_need_grad q = false -> (q_get_input_grads (q_bind ds ls tr ing force req (mem, q)).2).1 = Raise AssertionError.
Proof.
  intros Hq. assert (keeps_flag (q_bind ds ls tr ing force req)) as Hk.
  { unfold q_bind. apply keeps_flag_bind; [done|intros s]. destruct (_ && _); [done|].
    apply keeps_flag_bind; [destruct ing; [by destruct tr|done]|intros _]. apply keeps_flag_bind; [by destruct (length (sq_modules s.2))|intros _].
    apply keeps_flag_bind; [done|intros _]. apply keeps_flag_bind; [apply bind_layers_flag|intros []]; done. }
  specialize (Hk (mem, q)). cbn [snd] in Hk. rewrite Hq in Hk. unfold q_get_input_grads. rewrite bind_get, Hk, andb_false_r. done.
Qed.
End Chain.

(** ** Modules and bucketing modules in a chain *)

Section Instances.
Context {F O K : Type} `{Float F} `{OptimizerClass F O} `{ModuleKV F O K}.
Context (unset : string -> list nat -> list F) (create_opt : string -> option F -> gmap key string -> result O).
Context (env_update_on_kvstore : bool) (large : nda F -> bool) (sym_gen : bkey -> result (symbol F * list string * list string)).

Definition Module_ops : ModuleOps F O K (memory F O K) (module F) := {|
  mo_data_names m := Ok (mn_data (m_names m));
  mo_output_shapes := output_shapes;
  mo_bind ds ls tr ing force req := bind unset ds ls tr ing force None req;
  mo_get_params := get_params;
  mo_init_params := init_params;
  mo_init_optimizer := init_optimizer create_opt env_update_on_kvstore large;
  mo_forward := forward unset;
  mo_backward := backward;
  mo_update := m_update;
  mo_get_outputs := get_outputs;
  mo_get_input_grads := get_input_grads |}.
Definition Bucketing_ops : ModuleOps F O K (memory F O K) (bmodule F) := {|
  mo_data_names := b_data_names sym_gen;
  mo_output_shapes := b_output_shapes;
  mo_bind ds ls tr ing force req := b_bind unset sym_gen ds ls tr ing force req;
  mo_get_params := b_get_params;
  mo_init_params := b_init_params;
  mo_init_optimizer := b_init_optimizer create_opt env_update_on_kvstore large;
  mo_forward := b_forward unset sym_gen;
  mo_backward := b_backward;
  mo_update := b_update;
  mo_get_outputs := b_get_outputs;
  mo_get_input_grads := b_get_input_grads |}.
End Instances.

(** ** Witness: layers that multiply by a number *)

Record scaler := mkScaler { sc_by : Z; sc_data : list (nda Z); sc_grads : list (nda Z) }.
Definition scale_all (z : Z) (l : list (nda Z)) : list (nda Z) := map (fun a => mkNda (a_shape a) (map (Z.mul z) (a_flat a))) l.
#[local] Instance scaler_ops : ModuleOps Z unit unit unit scaler := {
  mo_data_names _ := Ok ["data"%string];
  mo_output_shapes := s ← get; mret (map (fun a => ("out"%string, map Z.of_nat (a_shape a))) (sc_data s.2));
  mo_bind _ _ _ _ _ _ := mret tt;
  mo_get_params := mret (∅, ∅);
  mo_init_params _ _ _ _ _ _ := mret tt;
  mo_init_optimizer _ _ _ := mret tt;
  mo_forward b _ := match b with OneBatch b => modify (fun s => (s.1, mkScaler (sc_by s.2) (mb_data b) [])) | ManyBatches _ => raise AttributeError end;
  mo_backward g := modify (fun s => (s.1, mkScaler (sc_by s.2) (sc_data s.2) g));
  mo_update := mret tt;
  mo_get_outputs := s ← get; mret (scale_all (sc_by s.2) (sc_data s.2));
  mo_get_input_grads := s ← get; mret (scale_all (sc_by s.2) (sc_grads s.2)) }.
Definition scaling (z : Z) : layer Z := mkLayer (scale_all z) (fun _ => scale_all z).

#[local] Instance scaler_laws : ChainLaws (fun _ : unit => True) (fun _ _ => True) (fun l x => l = scaling (sc_by x)) (fun l d x => l = scaling (sc_by x) /\ sc_data x = d)
  (fun l d g x => l = scaling (sc_by x) /\ sc_grads x = g).
Proof.
  split.
  - intros l x mem b tr _ -> _. by eexists _, _.
  - intros l d x mem _ [-> <-]. done.
  - intros l d x mem _ [-> <-]. eexists. split; [done|]. cbn. unfold scale_all. by rewrite !length_map.
  - intros l d x mem g _ [-> <-]. by eexists _, _.
  - intros l d g x mem _ [-> <-]. done.
Qed.

(** Data and gradients go through the factors 2, 3 and 5. *)
Example sequential_chain_rule_witness :
  exists s1 s2, q_forward (OneBatch (mkMBatch [mkNda [2%nat] [1; 4]] [] 0 None None None)) None
      (tt, mkSequential [mkScaler 2 [] []; mkScaler 3 [] []; mkScaler 5 [] []] [[]; []; []] true true false false None) = (Ok tt, s1) /\
    q_get_outputs s1 = (Ok [mkNda [2%nat] [30; 120]], s1) /\ q_backward [mkNda [2%nat] [1; 1]] s1 = (Ok tt, s2) /\
    on_layer 0 mo_get_input_grads s2 = (Ok [mkNda [2%nat] [30; 30]], s2).
Proof.
  apply (sequential_chain_rule [scaling 2; scaling 3; scaling 5]
    (mkSequential [mkScaler 2 [] []; mkScaler 3 [] []; mkScaler 5 [] []] [[]; []; []] true true false false None) tt
    (mkMBatch [mkNda [2%nat] [1; 4]] [] 0 None None None)); [done|done| |done|done|done]. by repeat constructor.
Defined.

(** ** Two modules in a chain *)

Section Example.
#[local] Existing Instance bk_Float.
#[local] Existing Instance momentum.
#[local] Existing Instance no_store.
Notation mem := (memory Z unit unit).
#[local] Instance real_ops : ModuleOps Z unit unit mem (module Z) := Module_ops bk_unset bk_create true (fun _ => false).

Definition one_module (params : list string) : module Z :=
  match Module_new (params_symbol params) (mkMNames ["data"%string] [] [] []) [cpu] None false with
  | Ok m => m
  | Raise _ => mkModule (params_symbol params) [] [] (mkMNames [] [] [] []) false false false false false false None false None [] None None false None None
  end.
Definition two_layers : M (mem * smodule (module Z)) unit :=
  _ ← add (one_module ["w"%string]) [];
  _ ← add (one_module ["v"%string]) [("auto_wiring"%string, true)];
  _ ← q_bind [mkDesc "data" [2; 1] "float32" None] None true false false (GStr "write");
  q_init_params (Some bk_fives) None None false false false.
Definition rows (n : nat) : mbatches Z := OneBatch (mkMBatch [mkNda [n; 1]%nat (map Z.of_nat (seq 1 n))] [] 0 None None None).
Definition chain_outputs (n : nat) : result (list (nda Z)) :=
  ((_ ← two_layers; _ ← q_forward (rows n) (Some false); q_get_outputs) (mkMemory [] [] [] [] ∅, SequentialModule_new)).1.

(** With automatic wiring the second layer takes the output of the first one for its data, as long
    as the size of the batches does not change: [forward] describes the data of the next layer by
    the names of the outputs, without the renaming of [bind], and the reshape refuses them. *)
Lemma auto_wiring_breaks_on_reshape :
  chain_outputs 2 = Ok [mkNda [2; 1]%nat [1; 2]] /\ chain_outputs 3 = Raise ValueError.
Proof. vm_compute. split; reflexivity. Qed.

(** The parameters of both layers are read, and names that occur twice are refused. *)
Lemma chain_parameters :
  ((_ ← two_layers; h ← q_get_params; mret (h.1 !! "w"%string, h.1 !! "v"%string)) (mkMemory [] [] [] [] ∅, SequentialModule_new)).1 =
    Ok (Some (mkNda [1%nat] [5]), Some (mkNda [1%nat] [5])) /\
  ((_ ← two_layers; _ ← add (one_module ["w"%string]) [("auto_wiring"%string, true)];
    _ ← q_bind [mkDesc "data" [2; 1] "float32" None] None true false false (GStr "write"); q_init_params (Some bk_fives) None None false false false)
     (mkMemory [] [] [] [] ∅, SequentialModule_new)).1 = Raise AssertionError.
Proof. vm_compute. split; reflexivity. Qed.
End Example.
