(* ===== verification/Initializer.v ===== *)
(** * Initializers

    [initializer.py]: the classes of initializers with their constructors, their descriptions
    ([dumps]) and their creation from a name or a description ([registry.py]), the choice of a
    method by the name of the array, for descriptors ([InitDesc]) and for plain names, the
    rules for weights, [Load] and [Mixed].  An array is changed in place, so the state of a
    run is the random number generator and the array, also when the run raises.  Numbers are
    those of the arrays ([Float]); the generators, the singular value decomposition and
    regular expressions are parameters.  Dimensions are positive.  Logging is left out. *)

From Stdlib Require Import QArith String.
From stdpp Require Import strings.
From S2P Require Import Prelude NDArray Array LRScheduler Scope Optimizer SGD Vocab ParamDict Metric MetricConfig.
From S2P Require Import RNNCell RNNUnroll RNNWeights.
Close Scope Q_scope.
Open Scope Z_scope.

Section Initializers.
Context {F : Type} `{Float F} `{FloatMath F}.

(** ** Classes, descriptions, creation *)

Inductive init :=
  | Initializer
  | Zero
  | One
  | Constant (value : F + nda F)
  | Uniform (scale : F)
  | Normal (sigma : F)
  | Orthogonal (scale : F) (rand_type : string)
  | Xavier (rnd_type factor_type : string) (magnitude : F)
  | MSRAPrelu (factor_type : string) (slope : F)
  | Bilinear
  | LSTMBias (forget_bias : F)
  | FusedRNN (inner : option init) (num_hidden num_layers : nat) (mode : string) (bidirectional : bool) (forget_bias : F).

(** The values in a description (JSON); [JDump] is a string that holds a description. *)
Inductive jval :=
  | JNull
  | JNum (x : F)
  | JInt (z : Z)
  | JBool (b : bool)
  | JStr (s : string)
  | JDump (name : string) (kwargs : list (string * jval)).
Notation jargs := (list (string * jval)).

(** What [create] is given: a name, or a description. *)
Inductive itext := TName (s : string) | TDump (name : string) (kwargs : jargs).

(** The registered classes, with their aliases. *)
Inductive iclass := CZero | COne | CConstant | CUniform | CNormal | COrthogonal | CXavier | CMSRAPrelu | CBilinear | CLSTMBias | CFusedRNN.
Definition iclass_name (c : iclass) : string :=
  match c with
  | CZero => "Zero" | COne => "One" | CConstant => "Constant" | CUniform => "Uniform" | CNormal => "Normal"
  | COrthogonal => "Orthogonal" | CXavier => "Xavier" | CMSRAPrelu => "MSRAPrelu" | CBilinear => "Bilinear"
  | CLSTMBias => "LSTMBias" | CFusedRNN => "FusedRNN"
  end.
Definition ialiases (c : iclass) : list string :=
  match c with CZero => ["zeros"] | COne => ["ones"] | _ => [] end%string.
Definition init_registry : gmap string iclass :=
  fold_left (fun r k => register k (iclass_name k) (alias k (ialiases k) r))
    [CZero; COne; CConstant; CUniform; CNormal; COrthogonal; CXavier; CMSRAPrelu; CBilinear; CLSTMBias; CFusedRNN] ∅.

(** [self.__class__.__name__.lower()] and [self._kwargs]; an array cannot be written as JSON. *)
Definition init_class (i : init) : string :=
  match i with
  | Initializer => "Initializer"
  | Zero => "Zero" | One => "One" | Constant _ => "Constant" | Uniform _ => "Uniform" | Normal _ => "Normal"
  | Orthogonal _ _ => "Orthogonal" | Xavier _ _ _ => "Xavier" | MSRAPrelu _ _ => "MSRAPrelu" | Bilinear => "Bilinear"
  | LSTMBias _ => "LSTMBias" | FusedRNN _ _ _ _ _ _ => "FusedRNN"
  end.
Fixpoint init_kwargs (i : init) : result jargs :=
  match i with
  | Initializer | Zero | One | Bilinear => Ok []
  | Constant (inl x) => Ok [("value", JNum x)]
  | Constant (inr _) => Raise TypeError
  | Uniform x => Ok [("scale", JNum x)]
  | Normal x => Ok [("sigma", JNum x)]
  | Orthogonal x t => Ok [("scale", JNum x); ("rand_type", JStr t)]
  | Xavier r f m => Ok [("rnd_type", JStr r); ("factor_type", JStr f); ("magnitude", JNum m)]
  | MSRAPrelu f s => Ok [("factor_type", JStr f); ("slope", JNum s)]
  | LSTMBias b => Ok [("forget_bias", JNum b)]
  | FusedRNN j h l m b fb =>
      d ← match j with None => Ok JNull | Some j => kw ← init_kwargs j; Ok (JDump (lower (init_class j)) kw) end;
      Ok [("init", d); ("num_hidden", JInt (Z.of_nat h)); ("num_layers", JInt (Z.of_nat l)); ("mode", JStr m);
          ("bidirectional", JBool b); ("forget_bias", JNum fb)]
  end%string.
Definition dumps (i : init) : result itext := kw ← init_kwargs i; Ok (TDump (lower (init_class i)) kw).

(** Keyword arguments with a conversion and a default; a value of a kind that the class does
    not use is refused at once. *)
Definition jkw {A} (kw : jargs) (key : string) (conv : jval -> option A) (default : option A) : result A :=
  match od_get key kw with
  | Some v => match conv v with Some a => Ok a | None => Raise TypeError end
  | None => match default with Some a => Ok a | None => Raise TypeError end
  end.
Definition j_num (v : jval) : option F := match v with JNum x => Some x | JInt z => Some (fof z) | _ => None end.
Definition j_str (v : jval) : option string := match v with JStr s => Some s | _ => None end.
Definition j_bool (v : jval) : option bool := match v with JBool b => Some b | _ => None end.
Definition j_nat (v : jval) : option nat := match v with JInt z => if 0 <=? z then Some (Z.to_nat z) else None | _ => None end.
Definition j_only (keys : list string) (kw : jargs) : result unit :=
  if forallb (fun x => bool_decide (x.1 ∈ keys)) kw then Ok tt else Raise TypeError.

(** The constructors.  The first argument of [FusedRNN], when it is a description, is looked
    up in the registry of all kinds of objects, whose keys are classes; a string that is not
    JSON cannot be decoded. *)
Definition new_fused (inner : option init) (h l : nat) (m : string) (b : bool) (fb : F) : result init :=
  _ ← match inner with None => Ok tt | Some j => _ ← dumps j; Ok tt end;
  Ok (FusedRNN inner h l m b fb).
Definition construct (c : iclass) (kw : jargs) : result init :=
  match c with
  | CZero => _ ← j_only [] kw; Ok Zero
  | COne => _ ← j_only [] kw; Ok One
  | CBilinear => _ ← j_only [] kw; Ok Bilinear
  | CConstant => _ ← j_only ["value"] kw; v ← jkw kw "value" j_num None; Ok (Constant (inl v))
  | CUniform => _ ← j_only ["scale"] kw; x ← jkw kw "scale" j_num (Some (fdiv (fof 7) (fof 100))); Ok (Uniform x)
  | CNormal => _ ← j_only ["sigma"] kw; x ← jkw kw "sigma" j_num (Some (fdiv (fof 1) (fof 100))); Ok (Normal x)
  | COrthogonal =>
      _ ← j_only ["scale"; "rand_type"] kw;
      x ← jkw kw "scale" j_num (Some (fdiv (fof 1414) (fof 1000)));
      t ← jkw kw "rand_type" j_str (Some "uniform"); Ok (Orthogonal x t)
  | CXavier =>
      _ ← j_only ["rnd_type"; "factor_type"; "magnitude"] kw;
      r ← jkw kw "rnd_type" j_str (Some "uniform"); t ← jkw kw "factor_type" j_str (Some "avg");
      m ← jkw kw "magnitude" j_num (Some (fof 3)); Ok (Xavier r t m)
  | CMSRAPrelu =>
      _ ← j_only ["factor_type"; "slope"] kw;
      t ← jkw kw "factor_type" j_str (Some "avg");
      s ← jkw kw "slope" j_num (Some (fdiv (fof 1) (fof 4))); Ok (MSRAPrelu t s)
  | CLSTMBias => _ ← j_only ["forget_bias"] kw; x ← jkw kw "forget_bias" j_num (Some (fof 1)); Ok (LSTMBias x)
  | CFusedRNN =>
      _ ← j_only ["init"; "num_hidden"; "num_layers"; "mode"; "bidirectional"; "forget_bias"] kw;
      i ← jkw kw "init" Some None;
      h ← jkw kw "num_hidden" j_nat None; l ← jkw kw "num_layers" j_nat None; m ← jkw kw "mode" j_str None;
      b ← jkw kw "bidirectional" j_bool (Some false); fb ← jkw kw "forget_bias" j_num (Some (fof 1));
      match i with
      | JNull => new_fused None h l m b fb
      | JDump _ _ => Raise KeyError
      | JStr _ => Raise ValueError
      | _ => Raise AttributeError
      end
  end%string.
(** [create(name, **kwargs)] *)
Definition create (t : itext) : result init :=
  match t with
  | TName s => c ← find init_registry s; construct c []
  | TDump s kw => c ← find init_registry s; construct c kw
  end.

(** ** Changing an array in place *)

Context {R : Type}.
(** [random.uniform(low, high)], [random.normal(loc, scale)] for so many elements,
    [np.linalg.svd(a, full_matrices=False)] of a matrix of so many rows and columns, and
    [re.compile(pattern).match(name)]. *)
Context (uniform normal : F -> F -> nat -> M R (list F)).
Context (svd : nat -> nat -> list F -> result (list F * list F)).
Context (matches : string -> string -> bool).

Notation st := (R * nda F)%type.

Definition arr_shape : M st (list nat) := s ← get; mret (a_shape s.2).
Definition assign_flat (l : list F) : M st unit := modify (fun s => (s.1, mkNda (a_shape s.2) l)).
(** [arr[:] = v], for a number and for an array. *)
Definition fill (v : F) : M st unit := s ← arr_shape; assign_flat (replicate (size s) v).
Definition assign (a : nda F) : M st unit := s ← arr_shape; l ← lift (a_assigned s a); assign_flat l.
(** [arr[b:e] = v]: [_set_nd_basic_indexing] for a slice and a number. *)
Definition fill_rows (b e : Z) (v : F) : M st unit :=
  s ← arr_shape;
  match s with
  | [] => raise IndexError
  | d :: rest =>
      if (b =? 0) && (e =? Z.of_nat d) then fill v
      else
        '(b, e, step) ← lift (_get_index_range (Some b) (Some e) (Z.of_nat d) None);
        n ← lift (_get_dim_size b e step);
        let r := (Z.to_nat n * size rest)%nat in
        modify (fun s => (s.1, mkNda (a_shape s.2) (view_set (a_flat s.2) (mkView (Z.to_nat b * size rest) [r]) (replicate r v))))
  end.
Definition on_rng {A} (m : M R A) : M st A := fun s => let '(r, g) := m s.1 in (r, (g, s.2)).
(** [random.uniform(low, high, out=arr)] and the same for [normal]. *)
Definition draw (gen : nat -> M R (list F)) : M st unit := s ← arr_shape; l ← on_rng (gen (size s)); assign_flat l.

(** ** The rules for weights *)

Local Open Scope float_scope.

(** [Initializer._init_bilinear] and [Bilinear._init_weight] *)
Definition bilinear_at (h w : nat) (i : nat) : F :=
  let f := ((Z.of_nat w + 1) / 2)%Z in
  let c := fof (2 * f - 1 - f mod 2)%Z / fof (2 * f)%Z in
  let x := (i mod w)%nat in
  let y := ((i / w) mod h)%nat in
  (1 - fabs (fof (Z.of_nat x) / fof f - c)) * (1 - fabs (fof (Z.of_nat y) / fof f - c)).
Definition _init_bilinear : M st unit :=
  s ← arr_shape;
  w ← lift (py_index s 3);
  h ← lift (py_index s 2);
  assign_flat (map (bilinear_at h w) (seq 0 (size s))).

Definition _init_loc_bias : M st unit :=
  s ← arr_shape;
  d ← lift (py_index s 0);
  _ ← massert (d =? 6)%nat;
  assign (mkNda [6%nat] [1; 0; 0; 0; 1; 0]).

(** [Orthogonal._init_weight]: the product of no dimensions is a float, which is no dimension. *)
Definition orthogonal_weight (scale : F) (rand_type : string) : M st unit :=
  s ← arr_shape;
  match s with
  | [] => raise IndexError
  | nout :: rest =>
      let nin := size rest in
      let gen g := match rest with [] => raise MXNetError | _ => on_rng (g (nout * nin)%nat) end in
      tmp ← (if str_eqb rand_type "uniform" then gen (uniform (fneg 1) 1)
             else if str_eqb rand_type "normal" then gen (normal 0 1)
             else raise UnboundLocalError);
      '(u, v) ← lift (svd nout nin tmp);
      let res := if (nin <=? nout)%nat then u else v in
      assign_flat (map (fmul scale) res)
  end.

(** [Xavier._init_weight] *)
Definition xavier_factor (factor_type : string) (fan_in fan_out : F) : result F :=
  if str_eqb factor_type "avg" then Ok ((fan_in + fan_out) / fof 2)
  else if str_eqb factor_type "in" then Ok fan_in
  else if str_eqb factor_type "out" then Ok fan_out
  else Raise ValueError.
Definition xavier_weight (rnd_type factor_type : string) (magnitude : F) : M st unit :=
  s ← arr_shape;
  match s with
  | d0 :: d1 :: rest =>
      let hw_scale := fof (Z.of_nat (size rest)) in
      factor ← lift (xavier_factor factor_type (fof (Z.of_nat d1) * hw_scale) (fof (Z.of_nat d0) * hw_scale));
      let scale := fsqrt (magnitude / factor) in
      if str_eqb rnd_type "uniform" then draw (uniform (fneg scale) scale)
      else if str_eqb rnd_type "gaussian" then draw (normal 0 scale)
      else raise ValueError
  | _ => raise ValueError
  end.

(** [LSTMBias._init_weight] *)
Definition lstm_bias_weight (forget_bias : F) : M st unit :=
  _ ← fill 0;
  s ← arr_shape;
  d ← lift (py_index s 0);
  let num_hidden := (Z.of_nat d / 4)%Z in
  fill_rows num_hidden (2 * num_hidden)%Z forget_bias.

(** [InitDesc(name, attrs, global_init)], with the attribute [__init__] if it is not empty. *)
Record desc := mkDesc { d_name : string; d_init : option itext; d_global : option init }.
(** The first argument of an initializer: a name or a descriptor. *)
Inductive target := PlainName (s : string) | Desc (d : desc).
Definition t_name (t : target) : string := match t with PlainName s => s | Desc d => d_name d end.
(** [desc.global_init] *)
Definition global_of (t : target) : result (option init) := match t with PlainName _ => Raise AttributeError | Desc d => Ok (d_global d) end.

Definition mode_named (s : string) : result RNNCell.mode :=
  match s with
  | "rnn_relu" => Ok rnn_relu | "rnn_tanh" => Ok rnn_tanh | "lstm" => Ok lstm | "gru" => Ok gru
  | _ => Raise KeyError
  end%string.

(** [FusedRNN._init_weight], with the call of an initializer as an argument: the loop over the
    unpacked weights has the generator and the dict as its state. *)
Definition fused_piece (call : init -> target -> M st unit) (inner : option init) (m : RNNCell.mode) (fb : F) (t : target)
    (name : string) : M (R * gmap string (nda F)) unit :=
  g ← lift (global_of t);
  s ← get;
  a ← lift (py_getitem s.2 name);
  let run (c : M st unit) : M (R * gmap string (nda F)) unit :=
    fun s => let '(r, (rng, a)) := c (s.1, a) in (r, (rng, <[name := a]> s.2)) in
  if bool_decide (m = lstm) && endswith "_f_bias" name then run (fill fb)
  else
    match inner with
    | Some j => run (call j (Desc (mkDesc name None g)))
    | None => match g with Some j => run (call j (Desc (mkDesc name None g))) | None => raise TypeError end
    end.
Definition fused_weight (call : init -> target -> M st unit) (inner : option init) (h l : nat) (mode : string) (b : bool) (fb : F)
    (t : target) : M st unit :=
  m ← lift (mode_named mode);
  let f := mkFused h l m b 0%Q false in
  s ← get;
  num_input ← lift (num_input_of f (Z.of_nat (size (a_shape s.2))));
  nargs ← lift (_slice_weights "" f (view_of s.2) num_input (Z.of_nat h));
  args ← lift (run_dict (fused_unpack "" "parameters" f) {[ "parameters" := s.2 ]}%string);
  let '(r, (rng, args)) := forM (fused_piece call inner m fb t) (map fst nargs) (s.1, args) in
  _ ← put (rng, s.2);
  _ ← lift r;
  args ← lift (run_dict (fused_pack 0 "" "parameters" f) args);
  a ← lift (py_getitem args "parameters"%string);
  assign a.

(** [_init_weight] of every class. *)
Definition _init_weight (call : init -> target -> M st unit) (i : init) (t : target) : M st unit :=
  match i with
  | Initializer => raise NotImplementedError
  | Zero => fill 0
  | One => fill 1
  | Constant (inl v) => fill v
  | Constant (inr a) => assign a
  | Uniform scale => draw (uniform (fneg scale) scale)
  | Normal sigma => draw (normal 0 sigma)
  | Orthogonal scale rand_type => orthogonal_weight scale rand_type
  | Xavier rnd_type factor_type magnitude => xavier_weight rnd_type factor_type magnitude
  | MSRAPrelu factor_type slope => xavier_weight "gaussian" factor_type (fof 2 / (1 + slope * slope))
  | Bilinear => _init_bilinear
  | LSTMBias fb => lstm_bias_weight fb
  | FusedRNN inner h l mode b fb => fused_weight call inner h l mode b fb t
  end.

(** ** Calling an initializer *)

Definition _legacy_init (call : init -> target -> M st unit) (i : init) (name : string) : M st unit :=
  if startswith "upsampling" name then _init_bilinear
  else if startswith "stn_loc" name && endswith "weight" name then fill 0
  else if startswith "stn_loc" name && endswith "bias" name then _init_loc_bias
  else if endswith "bias" name then fill 0
  else if endswith "gamma" name then fill 1
  else if endswith "beta" name then fill 0
  else if endswith "weight" name then _init_weight call i (PlainName name)
  else if endswith "moving_mean" name then fill 0
  else if endswith "moving_var" name then fill 1
  else if endswith "moving_inv_var" name then fill 0
  else if endswith "moving_avg" name then fill 0
  else if endswith "min" name then fill 0
  else if endswith "max" name then fill 1
  else raise ValueError.

(** [Initializer.__call__] *)
Definition call_step (call : init -> target -> M st unit) (i : init) (t : target) : M st unit :=
  match t with
  | PlainName name => _legacy_init call i name
  | Desc d =>
      let d := mkDesc (d_name d) (d_init d) (Some (default i (d_global d))) in
      let name := d_name d in
      match d_init d with
      | Some text => j ← lift (create text); _init_weight call j (Desc d)
      | None =>
          if endswith "weight" name then _init_weight call i (Desc d)
          else if endswith "bias" name then fill 0
          else if endswith "gamma" name then fill 1
          else if endswith "beta" name then fill 0
          else if endswith "min" name then fill 0
          else if endswith "max" name then fill 1
          else raise ValueError
      end
  end.
(** The calls nest through [FusedRNN]; Python limits the depth. *)
Fixpoint call (depth : nat) (i : init) (t : target) : M st unit :=
  match depth with
  | O => raise RuntimeError
  | S n => call_step (call n) i t
  end.

(** ** [Load] and [Mixed] *)

Inductive callable :=
  | CInit (i : init)
  | CLoad (param : list (string * nda F)) (default_init : option callable)
  | CMixed (l : list (string * callable)).

(** [Load.__init__]: the names without [arg:] and [aux:]. *)
Definition load_name (n : string) : string :=
  if startswith "arg:" n || startswith "aux:" n then String.substring 4 (String.length n - 4) n else n.
(** What [nd.load] gives: a dict, or a list when the file has no names. *)
Inductive loaded := LDict (d : list (string * nda F)) | LList (l : list (nda F)).
Definition read_back (l : list (string * nda F)) : loaded := match l with [] => LList [] | _ => LDict l end.
(** [param] is the name of a file, read by [load], or what was read from one. *)
Definition new_load (load : string -> result loaded) (param : string + loaded) (default_init : option callable) : result callable :=
  p ← match param with inl f => load f | inr p => Ok p end;
  match p with
  | LList _ => Raise AssertionError
  | LDict d => Ok (CLoad (fold_left (fun d x => od_set (load_name x.1) x.2 d) d []) default_init)
  end.
(** [Mixed.__init__] *)
Definition new_mixed (patterns : list string) (l : list callable) : result callable :=
  _ ← py_assert (length patterns =? length l)%nat; Ok (CMixed (zip patterns l)).

Fixpoint call_any (depth : nat) (c : callable) (t : target) : M st unit :=
  match c with
  | CInit i => call depth i t
  | CLoad param default_init =>
      match od_get (t_name t) param with
      | Some a => s ← arr_shape; _ ← massert (bool_decide (s = a_shape a)); assign a
      | None => match default_init with Some c => call_any depth c t | None => raise AssertionError end
      end
  | CMixed l =>
      (fix go l :=
         match l with
         | [] => raise ValueError
         | (p, c) :: l => if matches p (t_name t) then call_any depth c t else go l
         end) l
  end.
End Initializers.
