(* ===== verification/InitFacts.v ===== *)
(** * Initializers: descriptions, shapes, checkpoints

    A description creates the initializer it was made from, except for a fused initializer with
    an inner one.  Whatever an initializer does, also when it raises, it leaves the array with
    its shape and as many elements.  [Load] with the parameters of a checkpoint gives every
    array its saved value. *)

From Stdlib Require Import QArith String.
From stdpp Require Import strings.
From S2P Require Import Prelude NDArray Array LRScheduler Scope Optimizer SGD Vocab ParamDict Metric MetricConfig.
From S2P Require Import RNNCell RNNUnroll RNNWeights Checkpoint Initializer.
Close Scope Q_scope.
Open Scope Z_scope.

Section Dumps.
Context {F : Type} `{Float F}.

Lemma find_iclass c : find init_registry (lower (iclass_name c)) = Ok c.
Proof. destruct c; vm_compute; reflexivity. Qed.

Lemma nat_back n : j_nat (F := F) (JInt (Z.of_nat n)) = Some n.
Proof. unfold j_nat. rewrite (proj2 (Z.leb_le _ _)) by lia. by rewrite Nat2Z.id. Qed.

(** What a description creates. *)
Definition created (i : init (F := F)) : result init :=
  match i with
  | Initializer => Raise AssertionError
  | FusedRNN (Some _) _ _ _ _ _ => Raise KeyError
  | i => Ok i
  end.

(** The keyword arguments in a description of a fused initializer. *)
Lemma fused_kw (i h l m b fb : jval (F := F)) kw :
  kw = [("init", i); ("num_hidden", h); ("num_layers", l); ("mode", m); ("bidirectional", b); ("forget_bias", fb)]%string ->
  j_only ["init"; "num_hidden"; "num_layers"; "mode"; "bidirectional"; "forget_bias"]%string kw = Ok tt /\
  od_get "init"%string kw = Some i /\ od_get "num_hidden"%string kw = Some h /\ od_get "num_layers"%string kw = Some l /\
  od_get "mode"%string kw = Some m /\ od_get "bidirectional"%string kw = Some b /\ od_get "forget_bias"%string kw = Some fb.
Proof. intros ->. split_and!; vm_compute; reflexivity. Qed.

Lemma create_fused j d h l m b fb : init_kwargs (FusedRNN j h l m b fb) = Ok d ->
  create (TDump (lower "FusedRNN") d) = created (FusedRNN j h l m b fb).
Proof.
  cbn [init_kwargs]. intros (v & Hv & [= E])%bind_ok. unfold create. change "FusedRNN"%string with (iclass_name CFusedRNN).
  rewrite find_iclass. cbn [mbind result_bind construct]. unfold jkw.
  destruct (fused_kw _ _ _ _ _ _ d (eq_sym E)) as (-> & -> & -> & -> & -> & -> & ->). cbn [mbind result_bind j_str j_bool j_num].
  rewrite !nat_back. cbn [mbind result_bind]. destruct j as [j|]; [|by injection Hv as <-].
  apply bind_ok in Hv as (kw & _ & [= <-]). done.
Qed.

(** Creating an initializer from its description gives it back; a base initializer is not registered, and a
    description of a fused initializer with an inner one is refused. *)
Theorem create_dumps (i : init (F := F)) t : dumps i = Ok t -> create t = created i.
Proof.
  unfold dumps. intros (d & Hd & [= <-])%bind_ok.
  destruct i as [| | |[x|a]|x|x|x r|r f m|f x| |x|j h l m b fb]; [by injection Hd as <-|..|by apply create_fused];
    try discriminate Hd; injection Hd as <-; done.
Qed.
End Dumps.

(** ** Assigned values have the size of the array *)

Lemma concat_length_const {A} n (L : list (list A)) : Forall (fun x => length x = n) L -> length (concat L) = (length L * n)%nat.
Proof. induction 1 as [|x L Hx _ IH]; [done|]. cbn [concat length Nat.mul]. by rewrite length_app, Hx, IH. Qed.

Lemma bzip_length {A B} s : forall t (l1 : list A) (l2 : list B) l, Forall2 (fun d e => e = d \/ e = 1%nat) s t ->
  length l1 = size s -> length l2 = size t -> bzip s t l1 l2 = Some l -> length l = size s.
Proof.
  induction s as [|d s IH]; intros t l1 l2 l H2 H1 Ht E; inversion H2 as [|? e ? t' Hde H2']; subst; cbn [bzip] in E.
  - injection E as <-. cbn in *. by rewrite length_zip_with_l_eq by lia.
  - cbn [size foldr] in H1, Ht |- *. fold (size s) in *. fold (size t') in Ht.
    assert (forall c i1 i2, (forall i, (i < c)%nat -> (i1 i < d)%nat /\ (i2 i < e)%nat) ->
      (@concat _) <$> mapM (fun i => bzip s t' (chunk (size s) (i1 i) l1) (chunk (size t') (i2 i) l2)) (seq 0 c) = Some l -> length l = (c * size s)%nat) as Hsub.
    { clear E. intros c i1 i2 Hi (L & HL%mapM_Some & ->)%fmap_Some. rewrite (concat_length_const (size s)).
      - by rewrite <- (Forall2_length _ _ _ HL), length_seq.
      - apply Forall_forall. intros x Hx. apply list_elem_of_lookup in Hx as [k Hk].
        destruct (Forall2_lookup_r _ _ _ _ _ HL Hk) as (i & Hs & Eb). apply lookup_seq in Hs as [-> Hs]. destruct (Hi _ Hs) as [Hi1 Hi2].
        eapply IH; [exact H2'| | |exact Eb]; eapply chunk_length; eauto. }
    destruct (d =? e)%nat eqn:Ede; [apply Nat.eqb_eq in Ede as <-; by eapply Hsub; [|exact E]|].
    apply Nat.eqb_neq in Ede. destruct Hde as [->| ->]; [done|]. rewrite (proj2 (Nat.eqb_neq d 1)) in E by lia.
    cbn in E. eapply Hsub; [|exact E]. intros i Hi. cbn. lia.
Qed.

Lemma size_ones n s : size (replicate n 1%nat ++ s) = size s.
Proof. induction n as [|n IH]; [done|]. unfold size in *. cbn [replicate app foldr]. lia. Qed.

Lemma assigned_length {F} s (a : nda F) l : wf_nda a -> a_assigned s a = Ok l -> length l = size s.
Proof.
  unfold a_assigned, wf_nda. intros Hw. case_bool_decide as Hs; [intros [= <-]; by rewrite Hw, Hs|].
  destruct (length s <? length (a_shape a))%nat eqn:El; [done|]. apply Nat.ltb_ge in El.
  set (t := replicate _ _ ++ _). destruct (forallb _ _) eqn:Ef; [|done]. destruct (bzip _ _ _ _) as [l'|] eqn:E; [|done].
  intros [= <-]. rewrite length_map. eapply bzip_length; [| | |exact E].
  - apply Forall2_same_length_lookup_2; [unfold t; rewrite length_app, length_replicate; lia|]. intros i d e Hd He.
    rewrite forallb_forall in Ef. specialize (Ef (d, e)). cbn in Ef. destruct (orb_prop _ _ (Ef ltac:(apply list_elem_of_In, (list_elem_of_lookup_2 _ i), lookup_zip_with_Some; eauto 6))) as [?%Nat.eqb_eq|?%Nat.eqb_eq]; lia.
  - apply length_replicate.
  - unfold t. by rewrite size_ones.
Qed.

(** ** Views stay inside the array *)

Definition in_view (T : nat) (v : view) : Prop := (v_off v + size (v_shape v) <= T)%nat.

Lemma index_range_bounds b e n st b' e' st' : _get_index_range (Some b) (Some e) n st = Ok (b', e', st') ->
  0 <= b' < n /\ 0 <= e' <= n /\ st' = default 1 st.
Proof.
  unfold _get_index_range. case_bool_decide; [done|]. destruct (n <? 0) eqn:En; [done|]. apply Z.ltb_ge in En.
  intros (x & Hx & (y & Hy & [= <- <- <-])%bind_ok)%bind_ok. split_and!; [..|by destruct st].
  - revert Hx. cbn. repeat case_match; intros [= <-]; lia.
  - revert Hx. cbn. repeat case_match; intros [= <-]; lia.
  - revert Hy. cbn. repeat case_match; intros [= <-]; lia.
  - revert Hy. cbn. repeat case_match; intros [= <-]; lia.
Qed.

Lemma view_slice_bounds T v b e w : in_view T v -> view_slice v b e = Ok w -> in_view T w.
Proof.
  unfold view_slice, in_view. destruct (v_shape v) as [|d s] eqn:Ev; [done|].
  intros Hin ([[x y] z] & (Hx & Hy & _)%index_range_bounds & E)%bind_ok. destruct ((x <=? y) && _) eqn:Ec; [|done].
  apply andb_true_iff in Ec as [Hxy%Z.leb_le _]. injection E as <-. cbn [v_off v_shape size foldr] in *. fold (size s) in *. nia.
Qed.

Lemma sizeZ_to_nat s : forallb (fun d => 0 <=? d) s = true -> sizeZ s = Z.of_nat (size (map Z.to_nat s)).
Proof.
  induction s as [|d s IH]; [done|]. cbn [forallb]. intros [Hd%Z.leb_le Hs]%andb_true_iff. unfold sizeZ, size in *. cbn [foldr map].
  rewrite IH by done. lia.
Qed.

Lemma view_reshape_bounds T v s w : in_view T v -> view_reshape v s = Ok w -> in_view T w.
Proof.
  unfold view_reshape, in_view. intros Hin. destruct (_ =? 0)%nat; [done|]. intros (s' & _ & E)%bind_ok.
  destruct (forallb _ _ && _) eqn:Ec; [|done]. apply andb_true_iff in Ec as [Hf Hs%Z.leb_le]. injection E as <-. cbn [v_off v_shape].
  rewrite sizeZ_to_nat in Hs by done. lia.
Qed.

Lemma slice_loop_bounds T v l : forall p d p' d', in_view T v -> (forall x, x ∈ d -> in_view T x.2) -> slice_loop v l p d = Ok (p', d') ->
  forall x, x ∈ d' -> in_view T x.2.
Proof.
  induction l as [|[[n sz] s] l IH]; intros p d p' d' Hv Hd; cbn [slice_loop]; [by intros [= <- <-]|].
  intros (w & Hw & (w' & Hw' & E)%bind_ok)%bind_ok. revert E. apply IH; [done|].
  intros x [->|Hx]%od_set_elem; [|by apply Hd]. cbn. eapply view_slice_bounds in Hw; [|done].
  destruct s; [by eapply view_reshape_bounds|]. by injection Hw' as <-.
Qed.

Lemma slice_weights_bounds pre f v li lh d : _slice_weights pre f v li lh = Ok d -> v_off v = 0%nat ->
  forall x, x ∈ d -> in_view (size (v_shape v)) x.2.
Proof.
  unfold _slice_weights. intros ([p l] & E & (_ & _ & [= <-])%bind_ok)%bind_ok H0. eapply slice_loop_bounds; [|by intros ? ?%not_elem_of_nil|exact E].
  unfold in_view. lia.
Qed.

Lemma view_get_length {F} (l : list F) v : in_view (length l) v -> length (view_get l v) = size (v_shape v).
Proof. unfold in_view, view_get. intros Hv. rewrite length_take, length_drop. lia. Qed.
Lemma view_set_length {F} (l x : list F) v : in_view (length l) v -> length x = size (v_shape v) -> length (view_set l v x) = length l.
Proof. unfold in_view, view_set. intros Hv Hx. rewrite !length_app, length_take, length_drop. lia. Qed.

(** ** The weights of a fused cell have as many elements as their shapes say *)

Section Pieces.
Context {F : Type} (zero : F).
Notation args := (gmap string (nda F)).
Definition dict_wf (d : args) : Prop := map_Forall (fun _ a => wf_nda a) d.

Lemma puts_wf (a : nda F) l : wf_nda a -> (forall x, x ∈ l -> in_view (size (a_shape a)) x.2) -> forall d d' : args, dict_wf d ->
  forM (fun '(name, v) => put_item name (view_array a v)) l d = (Ok tt, d') -> dict_wf d'.
Proof.
  intros Ha. induction l as [|[n v] l IH]; intros Hl d d' Hd E; cbn [forM] in E; [by injection E as <-|].
  inv_step E. injection E0 as <- <-. eapply IH in E; [done|by intros x Hx; apply Hl; right|].
  apply map_Forall_insert_2; [|done]. unfold wf_nda, view_array. cbn. apply view_get_length. rewrite Ha. apply (Hl (n, v)). left.
Qed.

Lemma fused_unpack_wf pre pname f (d d' : args) : dict_wf d -> fused_unpack pre pname f d = (Ok tt, d') -> dict_wf d'.
Proof.
  unfold fused_unpack. intros Hd E. inv_step E. unfold pop in E0. destruct (d !! pname) as [x|] eqn:Ex; [|done]. injection E0 as <- <-.
  inv_step E. apply lift_ok in E0 as [_ ->]. inv_step E. apply lift_ok in E0 as [Es ->]. eapply puts_wf; [..|exact E].
  - by eapply Hd.
  - intros y Hy. by apply (slice_weights_bounds _ _ _ _ _ _ Es).
  - by apply map_Forall_delete.
Qed.

Lemma assign_loop_length l : forall arr (d : args) arr' d', dict_wf d -> (forall x, x ∈ l -> in_view (length arr) x.2) ->
  assign_loop l arr d = (Ok arr', d') -> length arr' = length arr /\ dict_wf d'.
Proof.
  induction l as [|[n v] l IH]; intros arr d arr' d' Hd Hl E; cbn [assign_loop] in E; [by injection E as <- <-|].
  inv_step E. unfold pop in E0. destruct (d !! n) as [x|] eqn:Ex; [|done]. injection E0 as <- <-.
  inv_step E. apply lift_ok in E0 as [Ea ->]. apply assigned_length in Ea; [|by eapply Hd].
  assert (length (view_set arr v a) = length arr) as Hlen by (apply view_set_length; [apply (Hl (n, v)); left|done]).
  apply IH in E as [E1 E2]; [|by apply map_Forall_delete|intros y Hy; rewrite Hlen; apply Hl; by right]. split; [lia|done].
Qed.

Lemma fused_pack_wf pre pname f (d d' : args) a : dict_wf d -> fused_pack zero pre pname f d = (Ok tt, d') -> d' !! pname = Some a -> wf_nda a.
Proof.
  unfold fused_pack. intros Hd E Ha. inv_step E. injection E0 as <- <-. inv_step E. apply lift_ok in E0 as [_ ->].
  inv_step E. apply lift_ok in E0 as [_ ->]. destruct (_ <=? 0); [done|]. inv_step E. apply lift_ok in E0 as [Es ->].
  inv_step E. injection E as <-. rewrite lookup_insert_eq in Ha. injection Ha as <-.
  apply assign_loop_length in E0 as [El _]; [|done|].
  - unfold wf_nda. cbn. rewrite El, length_replicate. lia.
  - intros x Hx. rewrite length_replicate. pose proof (slice_weights_bounds _ _ _ _ _ _ Es eq_refl x Hx) as Hb.
    unfold in_view in *. cbn in Hb. lia.
Qed.
End Pieces.

(** ** Every initializer leaves the shape and the number of elements *)

Section Shapes.
Context {F : Type} `{Float F} `{FloatMath F} {R : Type}.
Context (uniform normal : F -> F -> nat -> M R (list F)) (svd : nat -> nat -> list F -> result (list F * list F)).
Hypothesis uniform_length : forall a b n r l r', uniform a b n r = (Ok l, r') -> length l = n.
Hypothesis normal_length : forall a b n r l r', normal a b n r = (Ok l, r') -> length l = n.
(** The reduced decomposition: [u] has as many rows as the matrix and [v] as many columns. *)
Hypothesis svd_length : forall m n a u v, svd m n a = Ok (u, v) -> length u = (m * Nat.min m n)%nat /\ length v = (Nat.min m n * n)%nat.
Notation st := (R * nda F)%type.

Definition keeps {A} (m : M st A) : Prop :=
  forall s, wf_nda s.2 -> a_shape (m s).2.2 = a_shape s.2 /\ wf_nda (m s).2.2.

Lemma shape_bind {A B} (m : M st A) (f : A -> M st B) : keeps m -> (forall a, keeps (f a)) -> keeps (m ≫= f).
Proof.
  intros Hm Hf s Hs. rewrite bind_M. destruct (Hm s Hs) as [E Hw]. destruct (m s) as [[a|e] s']; cbn in *; [|done].
  destruct (Hf a s' Hw) as [E' Hw']. split; [congruence|done].
Qed.
Lemma shape_lift {A} (r : result A) : keeps (lift r).
Proof. by intros s. Qed.
Lemma shape_ret {A} (a : A) : keeps (mret a).
Proof. by intros s. Qed.
Lemma shape_raise {A} e : keeps (raise e : M st A).
Proof. by intros s. Qed.
Lemma shape_massert c : keeps (massert c).
Proof. by intros s. Qed.

(** Computing new elements from the shape. *)
Lemma shape_shape {B} (f : list nat -> M st B) :
  (forall s, wf_nda s.2 -> a_shape (f (a_shape s.2) s).2.2 = a_shape s.2 /\ wf_nda (f (a_shape s.2) s).2.2) -> keeps (s ← arr_shape; f s).
Proof. intros Hf s Hs. apply Hf, Hs. Qed.
Lemma flat_keeps l s : length l = size (a_shape s.2) ->
  a_shape (assign_flat (F := F) (R := R) l s).2.2 = a_shape s.2 /\ wf_nda (assign_flat (F := F) (R := R) l s).2.2.
Proof. intros Hl. by split. Qed.

Lemma shape_fill v : keeps (fill v).
Proof. apply shape_shape. intros s _. apply flat_keeps, length_replicate. Qed.
Lemma shape_assign a : wf_nda a -> keeps (assign a).
Proof.
  intros Ha. apply shape_shape. intros s Hs. rewrite bind_M. unfold lift. destruct (a_assigned _ _) as [l|e] eqn:E; [|done].
  by apply flat_keeps, (assigned_length _ a).
Qed.
Lemma shape_draw gen : (forall n r l r', gen n r = (Ok l, r') -> length l = n) -> keeps (draw gen).
Proof.
  intros Hg. apply shape_shape. intros s Hs. rewrite bind_M. unfold on_rng. destruct (gen _ _) as [[l|e] r'] eqn:E; [|done].
  by apply (flat_keeps l (r', s.2)), (Hg _ _ _ _ E).
Qed.
Lemma shape_rows b e v : keeps (fill_rows b e v).
Proof.
  apply shape_shape. intros s Hs. destruct (a_shape s.2) as [|d rest] eqn:Es; [done|].
  destruct ((b =? 0) && _); [rewrite <- Es; by apply shape_fill|]. rewrite bind_M. unfold lift at 1.
  destruct (_get_index_range _ _ _ _) as [[[b' e'] st']|x] eqn:E; [|by rewrite <- Es].
  apply index_range_bounds in E as (Hb & He & ->). unfold lift.
  destruct (_get_dim_size _ _ _) as [n|x] eqn:En; [|by rewrite <- Es]. rewrite bind_M. unfold wf_nda in *. cbn -[size view_set Nat.mul Z.to_nat replicate]. split; [done|].
  rewrite view_set_length; [done| |].
  - rewrite Hs, Es. unfold _get_dim_size in En. cbn in En. destruct (b' <? e') eqn:Hbe; [|done]. apply Z.ltb_lt in Hbe. cbn in En. unfold py_floordiv in En. cbn in En.
    rewrite Z.div_1_r in En. injection En as <-. unfold in_view. cbn [v_off v_shape size foldr]. fold (size rest). nia.
  - rewrite length_replicate. cbn. lia.
Qed.

(** The arrays that an initializer holds fit their shapes. *)
Fixpoint init_wf (i : init (F := F)) : Prop :=
  match i with
  | Constant (inr a) => wf_nda a
  | FusedRNN (Some j) _ _ _ _ _ => init_wf j
  | _ => True
  end.
Definition target_wf (t : target (F := F)) : Prop :=
  match t with Desc d => match d_global d with Some j => init_wf j | None => True end | PlainName _ => True end.

Lemma construct_wf c kw j : construct c kw = Ok j -> init_wf j.
Proof.
  destruct c; unfold construct; intros E; repeat (apply bind_ok in E as (? & _ & E)); try by injection E as <-.
  destruct x0; try done. by injection E as <-.
Qed.
Lemma create_wf t j : create t = Ok j -> init_wf j.
Proof. destruct t; intros (c & _ & E)%bind_ok; by eapply construct_wf. Qed.

Lemma shape_bilinear : keeps _init_bilinear.
Proof.
  apply shape_shape. intros s Hs. rewrite bind_M. unfold lift. destruct (py_index _ 3); [|done]. rewrite bind_M.
  destruct (py_index _ 2); [|done]. apply flat_keeps. by rewrite length_map, length_seq.
Qed.
Lemma shape_loc_bias : keeps _init_loc_bias.
Proof.
  apply shape_bind; [by intros s|]. intros s. apply shape_bind; [apply shape_lift|]. intros d. apply shape_bind; [apply shape_massert|].
  intros _. by apply shape_assign.
Qed.
Lemma shape_xavier r f m : keeps (xavier_weight uniform normal r f m).
Proof.
  apply shape_bind; [by intros s|]. intros [|d0 [|d1 rest]]; [apply shape_raise..|]. apply shape_bind; [apply shape_lift|]. intros x.
  destruct (str_eqb r _); [by apply shape_draw; eauto|]. destruct (str_eqb r _); [by apply shape_draw; eauto|apply shape_raise].
Qed.
Lemma shape_orthogonal x r : keeps (orthogonal_weight uniform normal svd x r).
Proof.
  apply shape_shape. intros s Hs. destruct (a_shape s.2) as [|nout rest] eqn:Es; [by split|]. rewrite bind_M.
  match goal with |- context [match ?m s with _ => _ end] => assert ((m s).2.2 = s.2) as Hm; [|destruct (m s) as [[a|e] s']] end.
  { destruct rest; repeat case_match; try done; unfold on_rng; by case_match. }
  2:{ cbn in *. by rewrite Hm, Es. }
  cbn [snd] in Hm. rewrite bind_M. unfold lift. destruct (svd _ _ _) as [[u v]|e] eqn:Ed; [|cbn in *; by rewrite Hm, Es].
  apply svd_length in Ed as [Hu Hv]. cbn [fst snd]. rewrite <- Es, <- Hm. apply flat_keeps. rewrite length_map, Hm, Es. cbn [size foldr]. fold (size rest).
  destruct (size rest <=? nout)%nat eqn:El; [apply Nat.leb_le in El|apply Nat.leb_gt in El]; rewrite ?Hu, ?Hv; f_equal; lia.
Qed.
Lemma shape_lstm_bias x : keeps (lstm_bias_weight x).
Proof.
  apply shape_bind; [apply shape_fill|]. intros _. apply shape_bind; [by intros s|]. intros s. apply shape_bind; [apply shape_lift|].
  intros d. apply shape_rows.
Qed.

(** One piece, all pieces, and the whole vector of a fused cell. *)
Section FusedWeight.
Context (call : init (F := F) -> target (F := F) -> M st unit).
Hypothesis call_keeps : forall i t, init_wf i -> target_wf t -> keeps (call i t).

Lemma fused_piece_wf inner m fb t n s : match inner with Some j => init_wf j | None => True end -> target_wf t -> dict_wf s.2 ->
  dict_wf (fused_piece call inner m fb t n s).2.2.
Proof.
  intros Hi Ht Hd. unfold fused_piece. rewrite bind_M. unfold lift at 1. destruct (global_of t) as [g|e] eqn:Eg; [|done].
  rewrite bind_get, bind_M. unfold lift, py_getitem. destruct (s.2 !! n) as [a|] eqn:Ea; [|done].
  assert (match g with Some j => init_wf j | None => True end) as Hg by (destruct t; [done|]; injection Eg as <-; exact Ht).
  assert (forall c : M st unit, keeps c -> dict_wf (let '(r, (rng, a)) := c (s.1, a) in (r, (rng, <[n := a]> s.2))).2.2) as Hrun.
  { intros c Hc. destruct (Hc (s.1, a)) as [_ Hw]; [by eapply Hd|]. destruct (c _) as [r [rng a']]. cbn in *. by apply map_Forall_insert_2. }
  destruct (_ && _); [apply Hrun, shape_fill|].
  destruct inner as [j|]; [by apply Hrun, call_keeps|]. destruct g as [j|]; [by apply Hrun, call_keeps|done].
Qed.

Lemma pieces_wf inner m fb t l : match inner with Some j => init_wf j | None => True end -> target_wf t -> forall s, dict_wf s.2 ->
  dict_wf (forM (fused_piece call inner m fb t) l s).2.2.
Proof.
  intros Hi Ht. induction l as [|n l IH]; intros s Hs; [done|]. cbn [forM]. rewrite bind_M. pose proof (fused_piece_wf inner m fb t n s Hi Ht Hs) as Hp.
  destruct (fused_piece _ _ _ _ _ _ s) as [[u|e] s']; [by apply IH|done].
Qed.

Lemma run_dict_wf (m : M (gmap string (nda F)) unit) d d' : run_dict m d = Ok d' -> m d = (Ok tt, d').
Proof. unfold run_dict. destruct (m d) as [[[]|e] x]; [by intros [= ->]|done]. Qed.

Lemma shape_fused inner h l mode b fb t : match inner with Some j => init_wf j | None => True end -> target_wf t ->
  keeps (fused_weight call inner h l mode b fb t).
Proof.
  intros Hi Ht. apply shape_bind; [apply shape_lift|]. intros m s Hs. rewrite bind_get. unfold lift.
  rewrite bind_M. destruct (num_input_of _ _) as [li|e]; [|done]. rewrite bind_M. destruct (_slice_weights _ _ _ _ _) as [nargs|e]; [|done].
  rewrite bind_M. destruct (run_dict (fused_unpack _ _ _) _) as [args|e] eqn:Eu; [|done].
  apply run_dict_wf, fused_unpack_wf in Eu; [|by apply map_Forall_singleton].
  pose proof (pieces_wf inner m fb t (map fst nargs) Hi Ht (s.1, args) Eu) as Hp.
  destruct (forM _ _ _) as [r [rng args']]. cbn [fst snd] in Hp. rewrite bind_M. cbn [put]. rewrite bind_M. destruct r as [u|e]; [|done].
  rewrite bind_M. destruct (run_dict (fused_pack _ _ _ _) _) as [args2|e] eqn:Ep; [|done]. apply run_dict_wf in Ep.
  rewrite bind_M. unfold py_getitem. destruct (args2 !! _) as [a|] eqn:Ea; [|done].
  apply (shape_assign a (fused_pack_wf _ _ _ _ _ _ _ Hp Ep Ea) (rng, s.2) Hs).
Qed.

Lemma shape_weight i t : init_wf i -> target_wf t -> keeps (_init_weight uniform normal svd call i t).
Proof.
  intros Hi Ht. destruct i as [| | |[x|a]|x|x|x r|r f m|f x| |x|j h l m b fb]; cbn [_init_weight];
    eauto using shape_raise, shape_fill, shape_assign, shape_draw, shape_xavier, shape_orthogonal, shape_bilinear, shape_lstm_bias, shape_fused.
Qed.
End FusedWeight.

(** whatever an initializer does with an array, also when it raises, the array keeps its shape and has as
    many elements as the shape says. *)
Theorem init_keeps_shape depth i t (s : st) : init_wf i -> target_wf t -> wf_nda s.2 ->
  a_shape (call uniform normal svd depth i t s).2.2 = a_shape s.2 /\ wf_nda (call uniform normal svd depth i t s).2.2.
Proof.
  intros Hi Ht. revert s. change (keeps (call uniform normal svd depth i t)). revert i t Hi Ht.
  induction depth as [|n IH]; intros i t Hi Ht; [apply shape_raise|]. cbn [call]. destruct t as [name|[name txt g]]; cbn [call_step].
  - unfold _legacy_init. repeat case_match; eauto using shape_raise, shape_fill, shape_bilinear, shape_loc_bias, shape_weight.
  - assert (init_wf (default i g)) as Hg by (by destruct g). cbn [d_init d_name d_global]. destruct txt as [txt|].
    + intros s Hs. rewrite bind_M. unfold lift. destruct (create txt) as [j|e] eqn:Ec; [|done]. apply create_wf in Ec. by apply shape_weight.
    + repeat case_match; eauto using shape_raise, shape_fill, shape_weight.
Qed.
End Shapes.

(** ** The bias of an LSTM cell *)

Section LSTMBias.
Context {F : Type} `{Float F} {R : Type}.

Lemma bind_shape {B} (f : list nat -> M (R * nda F) B) s : (arr_shape ≫= f) s = f (a_shape s.2) s.
Proof. reflexivity. Qed.

Lemma fill_rows_run (b e : nat) v (s : R * nda F) d rest : a_shape s.2 = d :: rest -> (0 < b)%nat -> (b < e)%nat -> (e <= d)%nat ->
  fill_rows (Z.of_nat b) (Z.of_nat e) v s = (Ok tt, (s.1, mkNda (a_shape s.2)
    (view_set (a_flat s.2) (mkView (b * size rest) [((e - b) * size rest)%nat]) (replicate ((e - b) * size rest) v)))).
Proof.
  intros Hs Hb Hbe He. unfold fill_rows. rewrite bind_shape, Hs. rewrite (proj2 (Z.eqb_neq _ 0)) by lia. cbn [andb].
  assert (_get_index_range (Some (Z.of_nat b)) (Some (Z.of_nat e)) (Z.of_nat d) None = Ok (Z.of_nat b, Z.of_nat e, 1)) as ->.
  { unfold _get_index_range. rewrite bool_decide_eq_false_2 by done. rewrite !(proj2 (Z.ltb_ge _ 0)) by lia.
    rewrite (proj2 (Z.leb_gt _ _)) by lia. cbn [mbind result_bind]. by rewrite (proj2 (Z.ltb_ge _ _)) by lia. }
  rewrite bind_lift. assert (_get_dim_size (Z.of_nat b) (Z.of_nat e) 1 = Ok (Z.of_nat (e - b))) as ->.
  { unfold _get_dim_size. cbn. rewrite (proj2 (Z.ltb_lt _ _)) by lia. cbn. unfold py_floordiv. cbn. rewrite Z.div_1_r. f_equal. lia. }
  rewrite bind_lift. unfold modify. by rewrite !Nat2Z.id, Hs.
Qed.

(** [LSTMBias] gives the second of the four gates the forget bias, and zero to the others. *)
Lemma lstm_bias_quarter fb h (s : R * nda F) : (0 < h)%nat -> a_shape s.2 = [(4 * h)%nat] ->
  lstm_bias_weight fb s = (Ok tt, (s.1, mkNda [(4 * h)%nat] (replicate h (fof 0) ++ replicate h fb ++ replicate (2 * h) (fof 0)))).
Proof.
  intros Hh Hs. unfold lstm_bias_weight. rewrite bind_M. unfold fill. rewrite bind_shape, Hs. unfold assign_flat, modify. rewrite bind_shape.
  cbn [fst snd a_shape]. rewrite Hs. change (py_index [(4 * h)%nat] 0) with (Ok (4 * h)%nat). rewrite bind_lift.
  replace (Z.of_nat (4 * h) / 4) with (Z.of_nat h) by (rewrite Nat2Z.inj_mul, Z.mul_comm, Z.div_mul; lia).
  replace (2 * Z.of_nat h) with (Z.of_nat (2 * h)) by lia. rewrite (fill_rows_run h (2 * h) fb _ (4 * h) []) by (done || lia).
  cbn [fst snd a_shape a_flat size foldr]. rewrite !Nat.mul_1_r. do 3 f_equal. unfold view_set. cbn [v_off]. rewrite length_replicate.
  rewrite take_replicate, drop_replicate. f_equal; [f_equal; lia|]. f_equal; f_equal; lia.
Qed.
End LSTMBias.

(** ** Loading the parameters of a checkpoint *)

Section Loading.
Context {F Symbol : Type} `{Float F} `{FloatMath F} {R : Type}.
Context (uniform normal : F -> F -> nat -> M R (list F)) (svd : nat -> nat -> list F -> result (list F * list F)) (matches : string -> string -> bool).
Notation args := (gmap string (nda F)).
Implicit Types (arg aux : args).

Lemma substring_all s : String.substring 0 (String.length s) s = s.
Proof. induction s as [|c s IH]; [done|]. cbn. by rewrite IH. Qed.
Lemma load_name_arg n : load_name ("arg:" +:+ n) = n.
Proof.
  unfold load_name. assert (startswith "arg:" ("arg:" +:+ n) = true) as -> by (by destruct n). rewrite ?orb_true_r.
  change (String.substring 0 (String.length n - 0) n = n). rewrite Nat.sub_0_r. apply substring_all.
Qed.
Lemma load_name_aux n : load_name ("aux:" +:+ n) = n.
Proof.
  unfold load_name. assert (startswith "aux:" ("aux:" +:+ n) = true) as -> by (by destruct n). rewrite ?orb_true_r.
  change (String.substring 0 (String.length n - 0) n = n). rewrite Nat.sub_0_r. apply substring_all.
Qed.

(** The entries by their names without prefixes. *)
Lemma loaded_entries arg aux n a : (exists k, load_name k = n /\ (k, a) ∈ map_to_list (save_dict arg aux)) <-> arg !! n = Some a \/ aux !! n = Some a.
Proof.
  split.
  - intros (k & <- & [(m & -> & Hm)|(m & -> & Hm)]%elem_save_dict); rewrite ?load_name_arg, ?load_name_aux; auto.
  - intros [Hn|Hn]; eexists; (split; [|apply elem_save_dict; eauto]); by rewrite ?load_name_arg, ?load_name_aux.
Qed.

Lemma loaded_NoDup arg aux l : arg ##ₘ aux -> l ≡ₚ map_to_list (save_dict arg aux) -> NoDup (map (fun x => load_name x.1) l).
Proof.
  intros Hd Hl. apply (NoDup_fmap_2_strong (fun x : string * nda F => load_name x.1)).
  - intros [k a] [k' a']. rewrite Hl. intros [(m & -> & Hm)|(m & -> & Hm)]%elem_save_dict [(m' & -> & Hm')|(m' & -> & Hm')]%elem_save_dict; cbn [fst];
      rewrite ?load_name_arg, ?load_name_aux; intros ->; try congruence; destruct (map_disjoint_spec arg aux) as [Hx _]; destruct (Hx Hd m' _ _ ltac:(eassumption) ltac:(eassumption)).
  - rewrite Hl. apply NoDup_map_to_list.
Qed.

Lemma loaded_get arg aux l n : arg ##ₘ aux -> l ≡ₚ map_to_list (save_dict arg aux) ->
  od_get n (fold_left (fun d x => od_set (load_name x.1) x.2 d) l []) = (arg ∪ aux) !! n.
Proof.
  intros Hd Hl. set (l' := map (fun x => (load_name x.1, x.2)) l).
  assert (forall d : list (string * nda F), fold_left (fun d x => od_set (load_name x.1) x.2 d) l d = fold_left (fun d kv => od_set kv.1 kv.2 d) l' d) as ->.
  { unfold l'. clear. induction l as [|x l IH]; intros d; [done|]. cbn. apply IH. }
  assert (map fst l' = map (fun x => load_name x.1) l) as Ek by (unfold l'; by rewrite map_map).
  pose proof (loaded_NoDup arg aux l Hd Hl) as Hnd. rewrite <- Ek in Hnd. rewrite od_set_all by done. cbn [app].
  assert (forall a, (n, a) ∈ l' <-> (arg ∪ aux) !! n = Some a) as Hin.
  { intros a. rewrite (lookup_union_Some _ _ _ _ Hd), <- loaded_entries. unfold l'. split.
    - intros ([k v] & [= -> ->] & Hx)%list_elem_of_fmap. rewrite Hl in Hx. eauto.
    - intros (k & <- & Hk). apply list_elem_of_fmap. exists (k, a). by rewrite Hl. }
  destruct ((arg ∪ aux) !! n) as [a|] eqn:E; [by apply od_elem_get, Hin|]. apply od_get_None. intros ([k a] & -> & Ha)%list_elem_of_fmap.
  apply Hin in Ha. congruence.
Qed.

(** [nd.load] of a file with named arrays, in any order; a file without names gives a list. *)
Definition nd_load (order : gmap string (nda F) -> list (string * nda F)) (fs : gmap string (@file F Symbol)) (fname : string) : result loaded :=
  match fs !! fname with Some (FParams d) => Ok (read_back (order d)) | _ => Raise MXNetError end.

Lemma read_back_order (order : gmap string (nda F) -> list (string * nda F)) d : (forall d, order d ≡ₚ map_to_list d) -> d <> ∅ ->
  read_back (order d) = LDict (order d).
Proof.
  intros Ho Hne. destruct (order d) as [|x l] eqn:E; [|done]. destruct Hne. specialize (Ho d). rewrite E in Ho.
  by apply map_to_list_empty_iff, Permutation_nil.
Qed.

(** C37: [Load] with the file of a checkpoint, read in any order, gives every argument and auxiliary state its saved
    value when the shapes agree and fails an assertion when they do not, and leaves other names to its default
    initializer (without one it fails an assertion).  Arguments and auxiliary states have different names; the
    checkpoint has at least one array, since an empty file is read back as a list and refused by the constructor
    (the last part). *)
Theorem load_restores_checkpoint depth prefix epoch (sym : option Symbol) arg aux fs fs' order dflt t (s : R * nda F) : arg ##ₘ aux ->
  (forall d, order d ≡ₚ map_to_list d) -> save_checkpoint prefix epoch sym arg aux fs = (Ok tt, fs') ->
  let made := new_load (nd_load order fs') (inl (params_file prefix epoch)) dflt in
  (save_dict arg aux <> ∅ -> exists c, made = Ok c /\
    call_any uniform normal svd matches depth c t s =
      match (arg ∪ aux) !! t_name t with
      | Some a => if bool_decide (a_shape s.2 = a_shape a) then (Ok tt, (s.1, a)) else (Raise AssertionError, s)
      | None => match dflt with Some c => call_any uniform normal svd matches depth c t s | None => (Raise AssertionError, s) end
      end) /\
  (save_dict arg aux = ∅ -> made = Raise AssertionError).
Proof.
  intros Hd Ho Hs made.
  assert (made = new_load (fun _ => Ok (read_back (order (save_dict arg aux)))) (inl "") dflt) as ->.
  { unfold save_checkpoint in Hs. apply bindM_ok in Hs as (u & fs1 & _ & [= <-]). unfold made, new_load, nd_load. by rewrite lookup_insert_eq. }
  split; intros He.
  - rewrite read_back_order by done. eexists. split; [reflexivity|]. cbn [call_any].
    rewrite loaded_get with (arg := arg) (aux := aux) by done.
    destruct ((arg ∪ aux) !! t_name t) as [a|]; [|by destruct dflt]. unfold arr_shape. rewrite bind_M, bind_get. cbn [mret M_ret]. rewrite bind_M. unfold massert.
    case_bool_decide as Hsh; [|done]. cbn [py_assert]. unfold assign, arr_shape. rewrite bind_M, bind_get. cbn [mret M_ret]. rewrite bind_M.
    unfold lift, a_assigned. rewrite bool_decide_eq_true_2 by done. unfold assign_flat, modify. rewrite Hsh. by destruct a.
  - specialize (Ho (save_dict arg aux)). rewrite He, map_to_list_empty in Ho. apply Permutation_nil_r in Ho. by rewrite He, Ho.
Qed.
End Loading.

(** ** Examples *)

#[local] Existing Instances Q_Float Q_FloatMath.

(** A description with an inner initializer cannot be read back. *)
Example fused_dump_refused :
  (t ← dumps (FusedRNN (Some (Uniform 1%Q)) 2 1 "lstm" false 1%Q); create t) = Raise KeyError.
Proof. vm_compute. reflexivity. Qed.

(** A constant array cannot be described. *)
Example constant_array_not_dumped : dumps (F := Q) (Constant (inr (mkNda [1%nat] [1%Q]))) = Raise TypeError.
Proof. reflexivity. Qed.

Definition counting (lo hi : Q) (n : nat) : M nat (list Q) := fun k => (Ok (replicate n hi), (k + n)%nat).
Definition plain_svd (m n : nat) (a : list Q) : result (list Q * list Q) :=
  Ok (replicate (m * Nat.min m n) 1%Q, replicate (Nat.min m n * n) 1%Q).
Notation q_call := (call counting counting plain_svd).

(** An unknown distribution is noticed only when a variable without a value is read. *)
Example orthogonal_unknown_type :
  (q_call 1 (Orthogonal 1%Q "gaussian") (PlainName "w_weight") (0%nat, mkNda [2; 2]%nat [0; 0; 0; 0]%Q)).1 = Raise UnboundLocalError.
Proof. vm_compute. reflexivity. Qed.

Lemma create_dumps_witness : exists t, dumps (F := Q) (Xavier "gaussian" "in" 2%Q) = Ok t /\ create t = Ok (Xavier "gaussian" "in" 2%Q).
Proof. eexists. split; [reflexivity|]. apply (create_dumps (Xavier "gaussian" "in" 2%Q)). reflexivity. Defined.

Lemma init_keeps_shape_witness :
  let s := (0%nat, mkNda [2; 3]%nat [0; 0; 0; 0; 0; 0]%Q) in
  a_shape (q_call 3 (Orthogonal 2%Q "normal") (Desc (mkDesc "fc_weight" None None)) s).2.2 = [2; 3]%nat.
Proof.
  cbn zeta. apply (init_keeps_shape counting counting plain_svd).
  - by intros a b n r l r' [= <- _]; rewrite length_replicate.
  - by intros a b n r l r' [= <- _]; rewrite length_replicate.
  - intros m n a u v [= <- <-]. by rewrite !length_replicate.
  - exact I.
  - exact I.
  - reflexivity.
Defined.

Lemma load_restores_checkpoint_witness :
  exists fs' c, save_checkpoint "net" 1 (None : option unit) {["w"%string := mkNda [1%nat] [5%Q]]} ∅ ∅ = (Ok tt, fs') /\
  new_load (nd_load map_to_list fs') (inl (params_file "net" 1)) None = Ok c /\
  call_any counting counting plain_svd (fun _ _ => false) 1 c (PlainName "w") (0%nat, mkNda [1%nat] [0%Q])
    = (Ok tt, (0%nat, mkNda [1%nat] [5%Q])).
Proof.
  destruct (load_restores_checkpoint counting counting plain_svd (fun _ _ => false) 1 "net" 1 (None : option unit)
    {["w"%string := mkNda [1%nat] [5%Q]]} ∅ ∅ _ map_to_list None (PlainName "w") (0%nat, mkNda [1%nat] [0%Q])
    ltac:(apply map_disjoint_empty_r) ltac:(reflexivity) eq_refl) as [Hl _].
  destruct Hl as (c & Hc & Hr).
  - intros E%save_dict_empty. apply (f_equal (fun m : gmap string (nda Q) => m !! "w"%string)) in E. done.
  - eexists. exists c. split; [reflexivity|]. split; [exact Hc|]. rewrite Hr. reflexivity.
Defined.
