(* ===== verification/InitFused.v ===== *)
(** * Initializing the vector of a fused recurrent cell

    A parameter with a [FusedRNN] attribute is cut into the weights of all layers, directions
    and gates; the biases of the forget gates get the forget bias, the other biases zero, and
    every weight what the global initializer does with a matrix of its shape. *)

From Stdlib Require Import QArith Ascii String.
From stdpp Require Import strings.
From S2P Require Import Prelude NDArray Array LRScheduler Scope Optimizer SGD Vocab ParamDict Metric MetricConfig.
From S2P Require Import RNNCell RNNUnroll RNNWeights RNNRoundtrip RNNFused Checkpoint Initializer InitFacts.
Close Scope Q_scope.
Open Scope Z_scope.

(** ** Suffixes *)

Lemma str_length_app a b : String.length (a +:+ b) = (String.length a + String.length b)%nat.
Proof. induction a as [|c a IH]; [done|]. change (S (String.length (a +:+ b)) = S (String.length a + String.length b)). by rewrite IH. Qed.

Lemma substring_app p s : String.substring (String.length p) (String.length s) (p +:+ s) = s.
Proof. induction p as [|c p IH]; [apply substring_all|exact IH]. Qed.

Lemma substring_suffix s : forall n m, String.length s = (n + m)%nat -> exists p, s = p +:+ String.substring n m s.
Proof.
  induction s as [|c s IH]; intros [|n] m E; cbn in E.
  - exists EmptyString. by destruct m.
  - lia.
  - exists EmptyString. rewrite <- E. change (Datatypes.S (String.length s)) with (String.length (String c s)). by rewrite substring_all.
  - destruct (IH n m ltac:(lia)) as [p Hp]. exists (String c p). change (String c s = String c (p +:+ String.substring n m s)). by f_equal.
Qed.

Lemma endswith_spec suf s : endswith suf s = true <-> exists p, s = p +:+ suf.
Proof.
  unfold endswith. rewrite andb_true_iff, Nat.leb_le. unfold str_eqb. rewrite bool_decide_eq_true. split.
  - intros [Hl E]. destruct (substring_suffix s (String.length s - String.length suf) (String.length suf) ltac:(lia)) as [p Hp].
    exists p. by rewrite Hp, E at 1.
  - intros [p ->]. rewrite str_length_app. split; [lia|]. replace (String.length p + String.length suf - String.length suf)%nat with (String.length p) by lia.
    apply substring_app.
Qed.

Lemma endswith_app p suf : endswith suf (p +:+ suf) = true.
Proof. apply endswith_spec. by exists p. Qed.
Lemma endswith_other p a suf c d : last (chars a) = Some c -> last (chars suf) = Some d -> c <> d -> endswith suf (p +:+ a) = false.
Proof.
  intros Ha Hs Hcd. apply not_true_iff_false. intros [q E]%endswith_spec. by apply (last_differs a suf p q c d).
Qed.

Lemma slot_name_suffix pre dir layer group gate suf : exists p, slot_name pre dir layer group gate suf = p +:+ suf.
Proof. exists (pre +:+ dir +:+ dec (Z.of_nat layer) +:+ "_" +:+ group +:+ gate). unfold slot_name. by rewrite !app_assoc_str. Qed.

Lemma ins_zip_get {F} ks : forall (vs : list (nda F)) d, NoDup ks -> length vs = length ks -> Forall2 (fun k v => ins (zip ks vs) d !! k = Some v) ks vs.
Proof.
  induction ks as [|k ks IH]; intros [|v vs] d Hnd Hl; try done. apply NoDup_cons in Hnd as [Hk Hnd]. injection Hl as Hl. constructor.
  - cbn. rewrite ins_insert, lookup_insert_eq; [done|]. by rewrite fst_zip by lia.
  - cbn. by apply IH.
Qed.

(** The entries of an unpacked vector are there, with the shapes of the slots. *)
Lemma unpacked_entries {F} pre fu li (l : list F) (d : gmap string (nda F)) : (0 < f_hidden fu)%nat -> (0 < li)%nat ->
  Z.of_nat (length l) = slot_sum (the_slots pre fu li) -> forall x, x ∈ the_slots pre fu li ->
  exists old, ins (slot_entries pre fu li l) d !! x.1.1 = Some (mkNda (slot_dims x) old) /\ length old = size (slot_dims x).
Proof.
  intros Hh Hli Hl x Hx. pose proof (entries_shapes pre fu li l Hh Hli Hl) as Hs.
  pose proof (slots_NoDup pre fu (Z.of_nat li) (Z.of_nat (f_hidden fu))) as Hnd. fold (the_slots pre fu li) in Hnd.
  pose proof (ins_zip_get (slot_names (the_slots pre fu li)) (slot_entries pre fu li l).*2 d Hnd) as Hz.
  rewrite <- (Forall2_length _ _ _ Hs) in Hz. unfold slot_names in Hz at 1. rewrite length_map in Hz. specialize (Hz eq_refl).
  rewrite <- (entries_keys pre fu li l), zip_fst_snd in Hz. rewrite entries_keys in Hz.
  apply list_elem_of_lookup in Hx as [i Hi]. destruct (Forall2_lookup_l _ _ _ _ _ Hs Hi) as (a & Ha & Hsh & Hla).
  assert (slot_names (the_slots pre fu li) !! i = Some x.1.1) as Hn by (unfold slot_names; by rewrite list_lookup_fmap, Hi).
  destruct (Forall2_lookup_l _ _ _ _ _ Hz Hn) as (a' & Ha' & E). rewrite Ha in Ha'. injection Ha' as <-. exists (a_flat a).
  rewrite E. split; [|done]. rewrite <- Hsh. by destruct a.
Qed.

(** Packing the pieces that a dict holds. *)
Lemma pack_pieces {F} (zero : F) pre pname fu li (d : gmap string (nda F)) L : (0 < f_layers fu)%nat -> (0 < f_hidden fu)%nat -> (0 < li)%nat ->
  Forall2 (fun x y => d !! x.1.1 = Some (mkNda (slot_dims x) y) /\ length y = size (slot_dims x)) (the_slots pre fu li) L ->
  exists d', fused_pack zero pre pname fu d = (Ok tt, <[pname := mkNda [Z.to_nat (total_size fu (Z.of_nat li))] (concat L)]> d').
Proof.
  intros HL Hh Hli H2. set (vs := zip_with (fun x y => mkNda (slot_dims x) y) (the_slots pre fu li) L).
  assert (Forall2 (fun k v => d !! k = Some v) (slot_names (the_slots pre fu li)) vs /\
          Forall2 (fun x a => a_shape a = slot_dims x /\ length (a_flat a) = size (slot_dims x)) (the_slots pre fu li) vs /\ map a_flat vs = L) as (Hv & Hs & Hfl).
  { unfold vs. clear -H2. induction H2 as [|x y sl L [H1 H1'] _ (I1 & I2 & I3)]; cbn; split_and!; try constructor; try done. by f_equal. }
  destruct (pops_present _ vs d (slots_NoDup pre fu (Z.of_nat li) (Z.of_nat (f_hidden fu))) Hv) as [d1 Ep].
  exists d1. by rewrite (fused_pack_run zero pre pname fu li vs d d1 HL Hh Hli Ep Hs), Hfl.
Qed.

Section FusedInit.
Context {F : Type} `{Float F} `{FloatMath F} {R : Type}.
Context (uniform normal : F -> F -> nat -> M R (list F)) (svd : nat -> nat -> list F -> result (list F * list F)).
(** The global initializer, the number of nested calls it may make, and the settings of the cell. *)
Context (g : init (F := F)) (n : nat) (mode : string) (m : RNNCell.mode) (hidden layers : nat) (b : bool) (fb : F).
Notation weight name := (_init_weight uniform normal svd (call uniform normal svd n) g (Desc (mkDesc name None (Some g)))).
Notation f := (mkFused hidden layers m b 0%Q false).

(** The global initializer can do a matrix. *)
Definition matrices_ok : Prop := forall name r rows cols old, (0 < rows)%nat -> (0 < cols)%nat -> length old = (rows * cols)%nat ->
  exists r' y, weight name (r, mkNda [rows; cols] old) = (Ok tt, (r', mkNda [rows; cols] y)) /\ length y = (rows * cols)%nat.

(** What the elements of one piece are afterwards. *)
Definition piece_spec (x : slot) (y : list F) : Prop :=
  length y = size (slot_dims x) /\
  if endswith "bias" x.1.1 then y = replicate (size (slot_dims x)) (if bool_decide (m = lstm) && endswith "_f_bias" x.1.1 then fb else fof 0)
  else exists r r' old, length old = size (slot_dims x) /\ weight x.1.1 (r, mkNda (slot_dims x) old) = (Ok tt, (r', mkNda (slot_dims x) y)).

(** A slot is a matrix of weights or a vector of biases. *)
Definition slot_kind (x : slot) : Prop :=
  (exists p, x.1.1 = p +:+ "_weight" /\ exists rows cols, slot_dims x = [rows; cols] /\ (0 < rows)%nat /\ (0 < cols)%nat) \/
  (exists p, x.1.1 = p +:+ "_bias").

Lemma slots_kind li lh : 0 < li -> 0 < lh -> Forall slot_kind (slots "" f li lh).
Proof.
  intros Hli Hlh. assert (0 < nb f) as Hb by (rewrite nb_eq; by destruct b).
  unfold slots, over_layers. apply Forall_app. split; apply Forall_concat, Forall_fmap, Forall_forall; intros layer _; cbn;
    apply Forall_concat, Forall_fmap, Forall_forall; intros dir _; cbn.
  - unfold weight_slots. apply Forall_app. split; apply Forall_fmap, Forall_forall; intros gate _; left; cbn -[slot_name].
    + destruct (slot_name_suffix "" dir layer "i2h" gate "_weight") as [p Hp]. fold (nb f).
      destruct layer; cbn -[slot_name]; exists p; (split; [exact Hp|]); do 2 eexists; (split; [reflexivity|]); nia.
    + destruct (slot_name_suffix "" dir layer "h2h" gate "_weight") as [p Hp]. exists p. split; [exact Hp|]. do 2 eexists. split; [reflexivity|]. lia.
  - unfold bias_slots. apply Forall_app. split; apply Forall_fmap, Forall_forall; intros gate _; right; apply slot_name_suffix.
Qed.

Hypothesis matrices : matrices_ok.
Notation args := (gmap string (nda F)).
(** The descriptor of the whole vector, when its pieces are initialized. *)
Context (t : desc (F := F)).
Hypothesis t_global : d_global t = Some g.

Lemma piece_run x (r : R) (d : args) old : slot_kind x -> d !! x.1.1 = Some (mkNda (slot_dims x) old) -> length old = size (slot_dims x) ->
  exists r' y, fused_piece (call uniform normal svd (S n)) None m fb (Desc t) x.1.1 (r, d) = (Ok tt, (r', <[x.1.1 := mkNda (slot_dims x) y]> d)) /\ piece_spec x y.
Proof.
  intros Hk Hd Ho. unfold fused_piece. cbn [global_of]. rewrite t_global, bind_lift, bind_get. cbn [fst snd]. unfold py_getitem. rewrite Hd, bind_lift.
  unfold piece_spec. destruct Hk as [(p & Hp & rows & cols & Hs & Hr & Hc)|(p & Hp)]; rewrite Hp in *.
  - rewrite (endswith_other p "_weight" "_f_bias" "t"%char "s"%char) by done. rewrite (endswith_other p "_weight" "bias" "t"%char "s"%char) by done.
    rewrite andb_false_r. rewrite Hs in *. cbn [call call_step d_init d_name d_global default].
    assert (endswith "weight" (p +:+ "_weight") = true) as ->.
    { replace (p +:+ "_weight")%string with ((p +:+ "_") +:+ "weight")%string by apply app_assoc_str. apply endswith_app. }
    destruct (matrices (p +:+ "_weight") r rows cols old Hr Hc) as (r' & y & E & Hy); [rewrite Ho; cbn; lia|]. cbn [fst snd]. unfold id. rewrite E.
    exists r', y. split; [done|]. split; [cbn; lia|]. by exists r, r', old.
  - assert (endswith "bias" (p +:+ "_bias") = true) as Eb.
    { replace (p +:+ "_bias")%string with ((p +:+ "_") +:+ "bias")%string by apply app_assoc_str. apply endswith_app. }
    rewrite Eb. destruct (bool_decide (m = lstm) && endswith "_f_bias" (p +:+ "_bias")) eqn:Ef; cbn -[fof endswith size replicate].
    + exists r. eexists. split; [reflexivity|]. by rewrite length_replicate.
    + rewrite (endswith_other p "_bias" "weight" "s"%char "t"%char) by done. rewrite Eb. cbn -[fof size replicate]. exists r. eexists. split; [reflexivity|]. by rewrite length_replicate.
Qed.

Lemma pieces_run sl : Forall slot_kind sl -> NoDup (slot_names sl) -> forall (r : R) (d : args),
  (forall x, x ∈ sl -> exists old, d !! x.1.1 = Some (mkNda (slot_dims x) old) /\ length old = size (slot_dims x)) ->
  exists r' d' L, forM (fused_piece (call uniform normal svd (S n)) None m fb (Desc t)) (slot_names sl) (r, d) = (Ok tt, (r', d')) /\
    (forall k, k ∉ slot_names sl -> d' !! k = d !! k) /\
    Forall2 (fun x y => d' !! x.1.1 = Some (mkNda (slot_dims x) y) /\ piece_spec x y) sl L.
Proof.
  induction 1 as [|x sl Hx _ IH]; intros Hnd r d Hd; [by exists r, d, []|]. cbn [slot_names map] in Hnd |- *. apply NoDup_cons in Hnd as [Hn Hnd].
  destruct (Hd x ltac:(left)) as (old & Ho & Hl). destruct (piece_run x r d old Hx Ho Hl) as (r1 & y & E & Hy).
  destruct (IH Hnd r1 (<[x.1.1 := mkNda (slot_dims x) y]> d)) as (r' & d' & L & E' & Hk & H2).
  - intros z Hz. rewrite lookup_insert_ne; [apply Hd; by right|]. intros Ez. apply Hn. rewrite Ez. by apply (list_elem_of_fmap_2 (fun x : slot => x.1.1)).
  - exists r', d', (y :: L). cbn [forM]. rewrite bind_M, E. split_and!; [exact E'| |].
    + intros k [Hk1 Hk2]%not_elem_of_cons. rewrite Hk by done. by rewrite lookup_insert_ne by done.
    + constructor; [|done]. split; [|done]. rewrite Hk by done. by rewrite lookup_insert_eq.
Qed.

(** The whole vector, from the pieces. *)
Lemma fused_run li (r : R) l : mode_named mode = Ok m -> (0 < layers)%nat -> (0 < hidden)%nat -> (0 < li)%nat ->
  length l = Z.to_nat (total_size f (Z.of_nat li)) ->
  exists r' L, Forall2 piece_spec (the_slots "" f li) L /\
    fused_weight (call uniform normal svd (S n)) None hidden layers mode b fb (Desc t) (r, mkNda [Z.to_nat (total_size f (Z.of_nat li))] l)
      = (Ok tt, (r', mkNda [Z.to_nat (total_size f (Z.of_nat li))] (concat L))).
Proof.
  intros Hm HL Hh Hli Hl. set (T := Z.to_nat _) in *. destruct (slice_weights_ok "" f li HL Hh Hli) as [Hsl Hsz]. fold T in Hsl, Hsz. cbn [f_hidden] in Hsl, Hsz.
  pose proof (slots_NoDup "" f (Z.of_nat li) (Z.of_nat hidden)) as Hnd. fold (the_slots "" f li) in Hnd.
  pose proof (slots_ok "" f (Z.of_nat li) (Z.of_nat hidden) ltac:(lia) ltac:(lia)) as Hok. fold (the_slots "" f li) in Hok.
  pose proof (slot_sum_nonneg _ Hok) as Hnn.
  unfold fused_weight. rewrite Hm, bind_lift, bind_get. cbn [fst snd a_shape size foldr]. rewrite Nat.mul_1_r.
  assert (num_input_of f (Z.of_nat T) = Ok (Z.of_nat li)) as ->.
  { unfold T. rewrite Z2Nat.id by (rewrite <- (slots_sum "" f) by done; done). by apply num_input_total. }
  rewrite bind_lift. unfold view_of. cbn [a_shape]. rewrite Hsl, bind_lift.
  set (d0 := {["parameters"%string := mkNda [T] l]} : gmap string (nda F)).
  assert (run_dict (fused_unpack "" "parameters" f) d0 = Ok (ins (slot_entries "" f li l) (delete "parameters"%string d0))) as ->.
  { unfold run_dict. by rewrite (fused_unpack_run "" "parameters" f li l) by (done || by rewrite lookup_singleton_eq). }
  rewrite bind_lift, views_names.
  destruct (pieces_run (the_slots "" f li) ltac:(apply slots_kind; cbn; lia) Hnd r (ins (slot_entries "" f li l) (delete "parameters"%string d0))) as (r' & d' & L & E & Hk & H2).
  { intros x Hx. apply unpacked_entries; [done|done|lia|done]. }
  rewrite E, bind_M. cbn [put]. rewrite bind_lift. cbn [snd].
  destruct (pack_pieces (fof 0) "" "parameters" f li d' L) as [d1 Ep]; [done..|eapply Forall2_impl; [exact H2|]; by intros x y (? & ? & _)|].
  unfold run_dict. rewrite Ep, bind_lift. unfold py_getitem. rewrite lookup_insert_eq, bind_lift.
  exists r', L. split; [eapply Forall2_impl; [exact H2|]; by intros x y (? & ?)|]. unfold assign, arr_shape. rewrite bind_M, bind_get.
  cbn [mret M_ret snd a_shape]. rewrite bind_M. unfold lift, a_assigned. by rewrite bool_decide_eq_true_2.
Qed.
End FusedInit.

Section FusedParameter.
Context {F : Type} `{Float F} `{FloatMath F} {R : Type}.
Context (uniform normal : F -> F -> nat -> M R (list F)) (svd : nat -> nat -> list F -> result (list F * list F)).
Context (g : init (F := F)) (n : nat) (mode : string) (m : RNNCell.mode) (hidden layers : nat) (b : bool) (fb : F).
Notation f := (mkFused hidden layers m b 0%Q false).

(** C22: a parameter whose attribute is the description of a [FusedRNN] initializer without an inner one, of the size
    that a fused cell with inputs of size [li] has, is initialized piece by piece: unpacked, the biases of the forget
    gates of an LSTM hold the forget bias, the other biases zero, and every weight what the global initializer makes of
    a matrix of its shape. *)
Theorem fused_initialization name text li (r : R) l : matrices_ok uniform normal svd g n -> mode_named mode = Ok m ->
  dumps (FusedRNN None hidden layers mode b fb) = Ok text -> (0 < layers)%nat -> (0 < hidden)%nat -> (0 < li)%nat ->
  length l = Z.to_nat (total_size f (Z.of_nat li)) ->
  exists r' a d L,
    call uniform normal svd (S (S n)) g (Desc (mkDesc name (Some text) None)) (r, mkNda [Z.to_nat (total_size f (Z.of_nat li))] l) = (Ok tt, (r', a)) /\
    fused_unpack "" "parameters" f {["parameters"%string := a]} = (Ok tt, d) /\
    Forall2 (fun x y => d !! x.1.1 = Some (mkNda (slot_dims x) y) /\ piece_spec uniform normal svd g n m fb x y) (the_slots "" f li) L.
Proof.
  intros Hg Hm Ht HL Hh Hli Hl. assert (create text = Ok (FusedRNN None hidden layers mode b fb)) as Hc.
  { unfold dumps in Ht. apply bind_ok in Ht as (kw & Hkw & [= <-]). by apply create_fused in Hkw. }
  cbn [call call_step d_init d_name d_global default]. rewrite Hc, bind_lift. cbn [_init_weight].
  destruct (fused_run uniform normal svd g n mode m hidden layers b fb Hg (mkDesc name (Some text) (Some g)) eq_refl li r l) as (r' & L & H2 & E); [done..|].
  exists r', (mkNda [Z.to_nat (total_size f (Z.of_nat li))] (concat L)). eexists. exists L. split; [exact E|].
  split; [apply (fused_unpack_run "" "parameters" f li (concat L)); [done..|apply lookup_singleton_eq]|].
  rewrite entries_concat; [|done|done|eapply Forall2_impl; [exact H2|]; by intros x y [? _]].
  pose proof (ins_zip_get (slot_names (the_slots "" f li)) (zip_with (fun x y => mkNda (slot_dims x) y) (the_slots "" f li) L)
    (delete "parameters"%string {["parameters"%string := mkNda [Z.to_nat (total_size f (Z.of_nat li))] (concat L)]}) (slots_NoDup _ _ _ _)) as Hz.
  unfold slot_names in Hz at 1. rewrite length_zip_with, length_map, <- (Forall2_length _ _ _ H2), Nat.min_id in Hz. specialize (Hz eq_refl).
  apply Forall2_same_length_lookup_2; [by apply Forall2_length in H2|]. intros i x y Hx Hy. split; [|by eapply Forall2_lookup_lr].
  eapply Forall2_lookup_lr in Hz; [exact Hz| |].
  - unfold slot_names. by rewrite list_lookup_fmap, Hx.
  - apply lookup_zip_with_Some. by exists x, y.
Qed.
End FusedParameter.

(** ** Examples *)

#[local] Existing Instances Q_Float Q_FloatMath.

Lemma uniform_matrices n : matrices_ok counting counting plain_svd (Uniform 1%Q) n.
Proof.
  intros name r rows cols old _ _ _. eexists _, _. split; [reflexivity|]. rewrite length_replicate. cbn. lia.
Qed.

Definition lstm_text : itext := TDump "fusedrnn"
  [("init", JNull); ("num_hidden", JInt 1); ("num_layers", JInt 1); ("mode", JStr "lstm"); ("bidirectional", JBool false); ("forget_bias", JNum 1%Q)]%string.

(** The forget gate of a fused LSTM gets its bias twice, for the input and for the state; the bias of an [LSTMCell], to
    which the cell unfuses, is zero for the state. *)
Example forget_bias_twice :
  let run := q_call 3 (Uniform 1%Q) (Desc (mkDesc "lstm_parameters" (Some lstm_text) None)) (0%nat, mkNda [20%nat] (replicate 20 7%Q)) in
  (run.1 = Ok tt) /\ (a_flat run.2.2 = replicate 12 1 ++ [0; 1; 0; 0; 0; 1; 0; 0])%Q.
Proof. vm_compute. split; reflexivity. Qed.

Lemma fused_initialization_witness : exists r' a d L,
  q_call 2 (Uniform 1%Q) (Desc (mkDesc "lstm_parameters" (Some lstm_text) None)) (0%nat, mkNda [20%nat] (replicate 20 7%Q)) = (Ok tt, (r', a)) /\
  fused_unpack "" "parameters" (mkFused 1 1 lstm false 0%Q false) {["parameters"%string := a]} = (Ok tt, d) /\
  Forall2 (fun x y => d !! x.1.1 = Some (mkNda (slot_dims x) y) /\ piece_spec counting counting plain_svd (Uniform 1%Q) 0 lstm 1%Q x y)
    (the_slots "" (mkFused 1 1 lstm false 0%Q false) 2) L.
Proof.
  exact (fused_initialization counting counting plain_svd (Uniform 1%Q) 0 "lstm" lstm 1 1 false 1%Q "lstm_parameters" lstm_text 2 0%nat (replicate 20 7%Q)
    (uniform_matrices 0) eq_refl eq_refl (Nat.lt_0_1) (Nat.lt_0_1) (Nat.lt_0_2) eq_refl).
Defined.
