(* ===== verification/Loss.v ===== *)
(** * Losses

    [gluon/loss.py], computed on arrays (the imperative mode): [_apply_weighting],
    [_reshape_like] and [hybrid_forward] of every class.  The operators of the C library that
    the losses use are written out: broadcasting binary operators, reductions along an axis or
    along all others, [log_softmax], [pick] (which clips its indices) and [reshape], which
    takes the beginning of a longer array unless the operations are recorded for gradients.
    The operator for the CTC loss is a parameter. *)

From S2P Require Import Prelude NDArray Array LRScheduler Optimizer SGD Metric Axis.
Open Scope Z_scope.

Section Losses.
Context {F : Type} `{Float F} `{FloatMath F} `{MetricMath F}.
(** [autograd.is_recording()] *)
Context (recording : bool).
Notation arr := (nda F).

(** ** Operators *)

(** [relu], [square], [softrelu] and comparisons with a number, on one element. *)
Definition frelu (x : F) : F := if fltb (fof 0) x then x else fof 0.
Definition fsquare (x : F) : F := fmul x x.
Definition fsoftrelu (x : F) : F := if fltb (fof 20) x then x else flog (fadd (fof 1) (fexp x)).
Definition fmax2 (x y : F) : F := if fltb x y then y else x.
Definition fequal (x y : F) : bool := negb (fltb x y) && negb (fltb y x).
Definition indicator (b : bool) : F := if b then fof 1 else fof 0.

Definition amap (f : F -> F) (a : arr) : arr := mkNda (a_shape a) (map f (a_flat a)).

(** The shape of a broadcasting operation, [BinaryBroadcastShape]. *)
Fixpoint bdims (s t : list nat) : option (list nat) :=
  match s, t with
  | [], [] => Some []
  | d :: s, e :: t =>
      if (d =? e)%nat || (d =? 1)%nat || (e =? 1)%nat then cons (Nat.max d e) <$> bdims s t else None
  | _, _ => None
  end.
Definition bop (f : F -> F -> F) (a b : arr) : result arr :=
  let n := Nat.max (length (a_shape a)) (length (a_shape b)) in
  let pad s := replicate (n - length s) 1%nat ++ s in
  match bdims (pad (a_shape a)) (pad (a_shape b)), broadcast a b with
  | Some s, Ok l => Ok (mkNda s (map (fun '(x, y) => f x y) l))
  | _, _ => Raise MXNetError
  end.

(** The elements at every position of an axis, and the reductions along all other axes
    ([axis=k, exclude=True]). *)
Definition by_axis (k : nat) (a : arr) : list (list F) :=
  let s := a_shape a in
  let d := default 1%nat (s !! k) in
  map (fun i => concat (map (fun blk => chunk (after k s) i blk) (blocks (d * after k s) (before k s) (a_flat a)))) (seq 0 d).
Definition reduce_exclude (g : list F -> F) (axis : Z) (a : arr) : result arr :=
  match norm_axis (length (a_shape a)) axis with
  | Some k => Ok (mkNda [default 1%nat (a_shape a !! k)] (map g (by_axis k a)))
  | None => Raise MXNetError
  end.
Definition mean_exclude : Z -> arr -> result arr := reduce_exclude mean.
Definition sum_exclude : Z -> arr -> result arr := reduce_exclude fsum.

(** A reduction along an axis that keeps the axis. *)
Definition reduce_keep (g : list F -> F) (axis : Z) (a : arr) : result arr :=
  match norm_axis (length (a_shape a)) axis with
  | Some k => Ok (mkNda (<[k := 1%nat]> (a_shape a)) (map g (axis_lanes k a)))
  | None => Raise MXNetError
  end.

(** Changing every lane along an axis. *)
Definition unlanes (bef d aft : nat) (L : list (list F)) : list F :=
  concat (map (fun Lb => concat (map (fun j => omap (fun lane : list F => lane !! j) Lb) (seq 0 d))) (blocks aft bef L)).
Definition map_lanes (g : list F -> list F) (axis : Z) (a : arr) : result arr :=
  match norm_axis (length (a_shape a)) axis with
  | Some k =>
      Ok (mkNda (a_shape a)
            (unlanes (before k (a_shape a)) (default 1%nat (a_shape a !! k)) (after k (a_shape a)) (map g (axis_lanes k a))))
  | None => Raise MXNetError
  end.

(** [log_softmax] of one lane: the largest element is subtracted first. *)
Definition lane_max (l : list F) : F := match l with [] => fof 0 | x :: l => fold_left fmax2 l x end.
Definition log_softmax_lane (l : list F) : list F :=
  let m := lane_max l in
  let s := fsum (map (fun x => fexp (fsub x m)) l) in
  map (fun x => fsub (fsub x m) (flog s)) l.
Definition log_softmax (a : arr) (axis : Z) : result arr := map_lanes log_softmax_lane axis a.

(** [pick(data, index, axis, keepdims=True)]: the index has the shape of the data without the
    axis, or with 1 for it. *)
Definition clip_index (d : nat) (j : Z) : nat := if j <=? 0 then 0%nat else if Z.of_nat d <=? j then (d - 1)%nat else Z.to_nat j.
Definition pick_shapes (k : nat) (s t : list nat) : bool :=
  if (length t =? length s)%nat then bool_decide (t = <[k := 1%nat]> s) else bool_decide (t = delete k s).
Definition pick (data index : arr) (axis : Z) : result arr :=
  match norm_axis (length (a_shape data)) axis with
  | Some k =>
      if pick_shapes k (a_shape data) (a_shape index)
      then Ok (mkNda (<[k := 1%nat]> (a_shape data))
                 (omap id (zip_with (fun lane y => lane !! clip_index (length lane) (to_int y)) (axis_lanes k data) (a_flat index))))
      else Raise MXNetError
  | None => Raise MXNetError
  end.

(** [x.reshape(shape)] *)
Definition reshape (x : arr) (shape : list Z) : result arr :=
  v ← view_reshape (view_of x) shape;
  if recording && negb (size (v_shape v) =? size (a_shape x))%nat then Raise MXNetError else Ok (view_array x v).

(** [swapaxes(x, 0, 1)] *)
Definition swap01 (x : arr) : result arr :=
  match a_shape x with
  | n :: t :: s =>
      let w := size s in
      Ok (mkNda (t :: n :: s)
            (concat (map (fun j => concat (map (fun row => chunk w j row) (blocks (t * w) n (a_flat x)))) (seq 0 t))))
  | _ => Raise MXNetError
  end.

(** ** The parts all losses share *)

Definition _apply_weighting (loss : arr) (weight : option F) (sample_weight : option arr) : result arr :=
  loss ← match sample_weight with Some w => bop fmul loss w | None => Ok loss end;
  Ok match weight with Some w => amap (fun x => fmul x w) loss | None => loss end.

Definition _reshape_like (x y : arr) : result arr := reshape x (map Z.of_nat (a_shape y)).

Notation wt := (option F).
Notation sw := (option arr).

(** ** The classes *)

Definition L2Loss (weight : wt) (batch_axis : Z) (pred label : arr) (sample_weight : sw) : result arr :=
  label ← _reshape_like label pred;
  loss ← bop fsub label pred;
  let loss := amap fsquare loss in
  w ← match weight with Some w => Ok (fdiv w (fof 2)) | None => Raise TypeError end;
  loss ← _apply_weighting loss (Some w) sample_weight;
  mean_exclude batch_axis loss.

Definition L1Loss (weight : wt) (batch_axis : Z) (pred label : arr) (sample_weight : sw) : result arr :=
  label ← _reshape_like label pred;
  loss ← bop fsub label pred;
  loss ← _apply_weighting (amap fabs loss) weight sample_weight;
  mean_exclude batch_axis loss.

Definition eps12 : F := fdiv (fof 1) (fof 1000000000000).
(** [relu(pred) - pred * label + Activation(-abs(pred), act_type='softrelu')] *)
Definition stable_bce (pred label : arr) : result arr :=
  pl ← bop fmul pred label;
  d ← bop fsub (amap frelu pred) pl;
  bop fadd d (amap (fun x => fsoftrelu (fneg (fabs x))) pred).
Definition SigmoidBinaryCrossEntropyLoss (from_sigmoid : bool) (weight : wt) (batch_axis : Z) (pred label : arr) (sample_weight : sw) : result arr :=
  label ← _reshape_like label pred;
  loss ← (if from_sigmoid then
            a ← bop fmul (amap (fun p => flog (fadd p eps12)) pred) label;
            b ← bop fmul (amap (fun p => flog (fadd (fsub (fof 1) p) eps12)) pred) (amap (fun y => fsub (fof 1) y) label);
            s ← bop fadd a b;
            Ok (amap fneg s)
          else stable_bce pred label);
  loss ← _apply_weighting loss weight sample_weight;
  mean_exclude batch_axis loss.

Definition SoftmaxCrossEntropyLoss (axis : Z) (sparse_label from_logits : bool) (weight : wt) (batch_axis : Z)
    (pred label : arr) (sample_weight : sw) : result arr :=
  pred ← (if from_logits then Ok pred else log_softmax pred axis);
  loss ← (if sparse_label then pick pred label axis
          else
            label ← _reshape_like label pred;
            pl ← bop fmul pred label;
            reduce_keep fsum axis pl);
  loss ← _apply_weighting (amap fneg loss) weight sample_weight;
  mean_exclude batch_axis loss.

Definition KLDivLoss (from_logits : bool) (axis : Z) (weight : wt) (batch_axis : Z) (pred label : arr) (sample_weight : sw) : result arr :=
  pred ← (if from_logits then Ok pred else log_softmax pred axis);
  d ← bop fsub (amap (fun y => flog (fadd y eps12)) label) pred;
  loss ← bop fmul label d;
  loss ← _apply_weighting loss weight sample_weight;
  mean_exclude batch_axis loss.

(** [CTCLoss]: the layouts are checked when the loss is made. *)
Record ctc_attrs := mkCTC { ctc_layout : string; ctc_batch_axis : Z; ctc_weight : wt }.
Definition CTCLoss_new (layout label_layout : string) (weight : wt) : result ctc_attrs :=
  _ ← py_assert (str_eqb layout "NTC" || str_eqb layout "TNC");
  _ ← py_assert (str_eqb label_layout "NT" || str_eqb label_layout "TN");
  Ok (mkCTC layout (if str_eqb label_layout "NT" then 0 else 1) weight).
Definition CTCLoss (ctc : arr -> arr -> option arr -> option arr -> result arr) (self : ctc_attrs)
    (pred label : arr) (pred_lengths label_lengths : option arr) (sample_weight : sw) : result arr :=
  pred ← (if str_eqb (ctc_layout self) "NTC" then swap01 pred else Ok pred);
  label ← (if ctc_batch_axis self =? 1 then swap01 label else Ok label);
  loss ← ctc pred label pred_lengths label_lengths;
  _apply_weighting loss (ctc_weight self) sample_weight.

Definition half : F := fdiv (fof 1) (fof 2).
Definition huber_point (rho x : F) : F :=
  if fltb rho x then fsub x (fmul half rho) else fmul (fdiv half rho) (fsquare x).
Definition HuberLoss (rho : F) (weight : wt) (batch_axis : Z) (pred label : arr) (sample_weight : sw) : result arr :=
  label ← _reshape_like label pred;
  loss ← bop fsub label pred;
  loss ← _apply_weighting (amap (huber_point rho) (amap fabs loss)) weight sample_weight;
  mean_exclude batch_axis loss.

Definition HingeLoss (margin : F) (weight : wt) (batch_axis : Z) (pred label : arr) (sample_weight : sw) : result arr :=
  label ← _reshape_like label pred;
  pl ← bop fmul pred label;
  loss ← _apply_weighting (amap (fun x => frelu (fsub margin x)) pl) weight sample_weight;
  mean_exclude batch_axis loss.
Definition SquaredHingeLoss (margin : F) (weight : wt) (batch_axis : Z) (pred label : arr) (sample_weight : sw) : result arr :=
  label ← _reshape_like label pred;
  pl ← bop fmul pred label;
  loss ← _apply_weighting (amap (fun x => fsquare (frelu (fsub margin x))) pl) weight sample_weight;
  mean_exclude batch_axis loss.

Definition LogisticLoss_new (label_format : string) : result bool :=
  if str_eqb label_format "signed" then Ok true else if str_eqb label_format "binary" then Ok false else Raise ValueError.
Definition LogisticLoss (signed : bool) (weight : wt) (batch_axis : Z) (pred label : arr) (sample_weight : sw) : result arr :=
  label ← _reshape_like label pred;
  let label := if signed then amap (fun y => fdiv (fadd y (fof 1)) (fof 2)) label else label in
  loss ← stable_bce pred label;
  loss ← _apply_weighting loss weight sample_weight;
  mean_exclude batch_axis loss.

Definition TripletLoss (margin : F) (weight : wt) (batch_axis : Z) (pred positive negative : arr) : result arr :=
  positive ← _reshape_like positive pred;
  negative ← _reshape_like negative pred;
  p ← bop fsub positive pred;
  n ← bop fsub negative pred;
  d ← bop fsub (amap fsquare p) (amap fsquare n);
  loss ← sum_exclude batch_axis d;
  _apply_weighting (amap (fun x => frelu (fadd x margin)) loss) weight None.

Definition stirling (t : F) : F :=
  fadd (fsub (fmul t (flog t)) t) (fmul half (flog (fmul (fmul (fof 2) t) fpi))).
Definition PoissonNLLLoss (from_logits compute_full : bool) (weight : wt) (pred target : arr) (sample_weight : sw) (epsilon : F) : result arr :=
  target ← _reshape_like target pred;
  loss ← (if from_logits then tp ← bop fmul target pred; bop fsub (amap fexp pred) tp
          else tl ← bop fmul target (amap (fun p => flog (fadd p epsilon)) pred); bop fsub pred tl);
  loss ← (if compute_full then bop fadd loss (amap (fun t => fmul (stirling t) (indicator (fltb (fof 1) t))) target) else Ok loss);
  loss ← _apply_weighting loss weight sample_weight;
  Ok (mkNda [1%nat] [mean (a_flat loss)]).

(** [CosineEmbeddingLoss]: columns of norms and products along the last axis. *)
Definition last_lanes (x : arr) : result (list (list F)) :=
  match norm_axis (length (a_shape x)) (-1) with Some k => Ok (axis_lanes k x) | None => Raise MXNetError end.
Definition column (l : list F) : arr := mkNda [length l; 1%nat] l.
Definition norm2 (l : list F) : F := fsqrt (fsum (map fsquare l)).
Definition _cosine_similarity (x y : arr) : result arr :=
  xl ← last_lanes x;
  yl ← last_lanes y;
  xy ← bop fmul x y;
  xyl ← last_lanes xy;
  n ← bop fmul (column (map norm2 xl)) (column (map norm2 yl));
  bop fdiv (column (map fsum xyl)) (amap (fun z => fmax2 z eps12) n).
Definition CosineEmbeddingLoss (weight : wt) (margin : F) (input1 input2 label : arr) (sample_weight : sw) : result arr :=
  input1 ← _reshape_like input1 input2;
  label ← reshape label [-1; 1];
  cos_sim ← _cosine_similarity input1 input2;
  let y_1 := amap (fun y => indicator (fequal y (fof 1))) label in
  let y_minus_1 := amap (fun y => indicator (fequal y (fof (-1)))) label in
  cos_sim_a ← bop fmul (amap (fun c => fsub (fof 1) c) cos_sim) y_1;
  b ← bop fmul y_minus_1 (amap (fun c => fsub c margin) cos_sim);
  let cos_sim_b := amap (fun z => fmax2 (fof 0) z) b in
  loss ← bop fadd cos_sim_a cos_sim_b;
  _apply_weighting loss weight sample_weight.
End Losses.
