(* ===== verification/LossFacts.v ===== *)
(** * Losses: one value for every sample

    The loss of a batch is, sample by sample, the mean of the point losses of its elements:
    it does not depend on the rest of the batch, nor on the shape of the labels, so that the
    losses of the parts of a batch on several devices are the parts of its loss. *)

From Stdlib Require Import QArith.
From S2P Require Import Prelude NDArray Array LRScheduler Optimizer SGD Metric Axis Loss.
From S2P Require Import RNNFused.
Close Scope Q_scope.
Open Scope Z_scope.

(** ** Operations on arrays of one shape *)

Lemma bdims_same s : bdims s s = Some s.
Proof. induction s as [|d s IH]; [done|]. cbn. by rewrite Nat.eqb_refl, Nat.max_id, IH. Qed.

Lemma zip_of_blocks {A B} n k (l1 : list A) (l2 : list B) : length l1 = (k * n)%nat -> length l2 = (k * n)%nat ->
  concat (zip_with zip (blocks n k l1) (blocks n k l2)) = zip l1 l2.
Proof.
  revert l1 l2. induction k as [|k IH]; intros l1 l2 H1 H2; [by destruct l1, l2|].
  assert (forall X (l : list X), blocks n (S k) l = take n l :: blocks n k (drop n l)) as Hb.
  { intros X l. unfold blocks. cbn [seq map]. f_equal. rewrite <- seq_shift, map_map. apply map_ext. intros i. unfold chunk. by rewrite drop_drop. }
  rewrite !Hb. cbn [zip_with concat]. rewrite IH by (rewrite length_drop; lia).
  rewrite <- (take_drop n l1) at 3. rewrite <- (take_drop n l2) at 3. by rewrite zip_with_app by (rewrite !length_take; lia).
Qed.

Lemma bzip_same {A B} s : forall (l1 : list A) (l2 : list B), length l1 = size s -> length l2 = size s -> bzip s s l1 l2 = Some (zip l1 l2).
Proof.
  induction s as [|d s IH]; intros l1 l2 H1 H2; [done|]. cbn [bzip]. rewrite Nat.eqb_refl. cbn [size foldr] in H1, H2. fold (size s) in H1, H2.
  assert (mapM (fun i => bzip s s (chunk (size s) (id i) l1) (chunk (size s) (id i) l2)) (seq 0 d)
    = Some (map (fun i => zip (chunk (size s) i l1) (chunk (size s) i l2)) (seq 0 d))) as ->.
  { apply mapM_Some_2, Forall2_fmap_r, Forall_Forall2_diag, Forall_forall. intros i [_ Hi]%elem_of_seq. unfold id. apply IH; eapply chunk_length; eauto. }
  cbn. f_equal. rewrite <- (zip_of_blocks (size s) d) by done. f_equal. unfold blocks. by rewrite zip_with_fmap_l, zip_with_fmap_r, zip_with_diag.
Qed.

Section Samples.
Context {F : Type} {FF : Float F} {FM : FloatMath F} {MM : MetricMath F} (recording : bool).
Notation arr := (nda F).

Lemma bop_same f (s : list nat) (l1 l2 : list F) : length l1 = size s -> length l2 = size s ->
  bop f (mkNda s l1) (mkNda s l2) = Ok (mkNda s (zip_with f l1 l2)).
Proof.
  intros H1 H2. unfold bop, broadcast. cbn [a_shape a_flat]. rewrite Nat.max_id, Nat.sub_diag. cbn [replicate app].
  rewrite bdims_same, bzip_same by done. do 2 f_equal. clear. revert l2. induction l1 as [|x l1 IH]; intros [|y l2]; try done. cbn. by rewrite IH.
Qed.

Lemma zip_with_length {A B C} (f : A -> B -> C) l1 l2 n : length l1 = n -> length l2 = n -> length (zip_with f l1 l2) = n.
Proof. intros H1 H2. rewrite length_zip_with. lia. Qed.

(** The labels are reshaped to the shape of the predictions. *)
Lemma reshape_like_ok (s t : list nat) (p y : list F) : Forall (fun d => (0 < d)%nat) s -> size t = size s -> length y = size t ->
  _reshape_like recording (mkNda t y) (mkNda s p) = Ok (mkNda s y).
Proof.
  intros Hp Hst Hy. unfold _reshape_like, reshape, view_of. cbn [a_shape a_flat].
  assert (Forall (fun d => 0 < d) (map Z.of_nat s)) as Hz by (apply Forall_fmap; eapply Forall_impl; [exact Hp|]; cbn; lia).
  assert (map Z.to_nat (map Z.of_nat s) = s) as Hid.
  { rewrite map_map. rewrite <- (map_id s) at 2. apply map_ext. intros d. apply Nat2Z.id. }
  rewrite reshape_ok; [|done|rewrite sizeZ_nat, Hid by done; cbn [v_shape]; by rewrite Hst].
  cbn [mbind result_bind v_shape v_off]. rewrite Hid, Hst, Nat.eqb_refl, andb_false_r. unfold view_array, view_get. cbn [a_flat v_off v_shape].
  rewrite drop_0, take_ge by lia. done.
Qed.

Lemma rows_length n (P : list (list F)) : Forall (fun r => length r = n) P -> length (concat P) = (length P * n)%nat.
Proof. induction 1 as [|r P Hr _ IH]; [done|]. cbn [concat length Nat.mul]. rewrite length_app. lia. Qed.

(** Means of the rows. *)
Lemma mean_rows d (s : list nat) (P : list (list F)) : length P = d -> Forall (fun r => length r = size s) P ->
  mean_exclude 0 (mkNda (d :: s) (concat P)) = Ok (mkNda [d] (map mean P)).
Proof.
  intros Hd Hr. unfold mean_exclude, reduce_exclude. cbn [a_shape length].
  assert (norm_axis (S (length s)) 0 = Some 0%nat) as ->.
  { unfold norm_axis. cbn [Z.ltb Z.leb Z.compare]. by rewrite (proj2 (Z.ltb_lt 0 _)) by lia. }
  cbn [lookup list_lookup default]. do 3 f_equal. unfold by_axis, before, after. cbn [a_shape a_flat lookup list_lookup default take drop].
  change (Datatypes.id d) with d. change (size []) with 1%nat. unfold blocks. cbn [seq map]. unfold chunk at 2. rewrite Nat.mul_0_l, drop_0, take_ge.
  - cbn [concat]. rewrite <- Hd. transitivity (blocks (size s) (length P) (concat P)); [apply map_ext; intros i; apply app_nil_r|by apply blocks_of].
  - rewrite ?drop_0, (rows_length (size s)) by done. subst d. lia.
Qed.

(** Point by point on rows. *)
Lemma zip_rows (f : F -> F -> F) n (P Y : list (list F)) : Forall (fun r => length r = n) P -> Forall (fun r => length r = n) Y ->
  zip_with f (concat P) (concat Y) = concat (zip_with (zip_with f) P Y).
Proof.
  intros HP. revert Y. induction HP as [|p P Hp _ IH]; intros [|y Y] HY; cbn [concat zip_with]; try done.
  - by destruct (p ++ _).
  - apply Forall_cons in HY as [Hy HY]. rewrite zip_with_app by lia. by rewrite IH.
Qed.
Lemma zip_rows_length (f : F -> F -> F) n (P Y : list (list F)) : Forall (fun r => length r = n) P -> Forall (fun r => length r = n) Y ->
  Forall (fun r => length r = n) (zip_with (zip_with f) P Y).
Proof.
  intros HP. revert Y. induction HP as [|p P Hp _ IH]; intros [|y Y] HY; cbn; try constructor.
  - apply Forall_cons in HY as [Hy _]. by apply zip_with_length.
  - apply Forall_cons in HY as [_ HY]. by apply IH.
Qed.

(** ** The losses of points *)

(** The losses that compare predictions and labels element by element. *)
Inductive ploss :=
  | PL2 (w : F)
  | PL1 (w : option F)
  | PBCE (from_sigmoid : bool) (w : option F)
  | PHuber (rho : F) (w : option F)
  | PHinge (margin : F) (w : option F)
  | PSquaredHinge (margin : F) (w : option F)
  | PLogistic (signed : bool) (w : option F).
Definition ploss_forward (k : ploss) (pred label : arr) (sample_weight : option arr) : result arr :=
  match k with
  | PL2 w => L2Loss recording (Some w) 0 pred label sample_weight
  | PL1 w => L1Loss recording w 0 pred label sample_weight
  | PBCE b w => SigmoidBinaryCrossEntropyLoss recording b w 0 pred label sample_weight
  | PHuber rho w => HuberLoss recording rho w 0 pred label sample_weight
  | PHinge m w => HingeLoss recording m w 0 pred label sample_weight
  | PSquaredHinge m w => SquaredHingeLoss recording m w 0 pred label sample_weight
  | PLogistic b w => LogisticLoss recording b w 0 pred label sample_weight
  end.

Definition bce_point (x y : F) : F := fadd (fsub (frelu x) (fmul x y)) (fsoftrelu (fneg (fabs x))).
Definition prob_bce_point (p y : F) : F :=
  fneg (fadd (fmul (flog (fadd p eps12)) y) (fmul (flog (fadd (fsub (fof 1) p) eps12)) (fsub (fof 1) y))).
Definition raw_point (k : ploss) (x y : F) : F :=
  match k with
  | PL2 _ => fsquare (fsub y x)
  | PL1 _ => fabs (fsub y x)
  | PBCE false _ => bce_point x y
  | PBCE true _ => prob_bce_point x y
  | PHuber rho _ => huber_point rho (fabs (fsub y x))
  | PHinge m _ => frelu (fsub m (fmul x y))
  | PSquaredHinge m _ => fsquare (frelu (fsub m (fmul x y)))
  | PLogistic true _ => bce_point x (fdiv (fadd y (fof 1)) (fof 2))
  | PLogistic false _ => bce_point x y
  end.
Definition loss_weight (k : ploss) : option F :=
  match k with
  | PL2 w => Some (fdiv w (fof 2))
  | PL1 w | PBCE _ w | PHuber _ w | PHinge _ w | PSquaredHinge _ w | PLogistic _ w => w
  end.
Definition point (k : ploss) (x y : F) : F :=
  match loss_weight k with Some w => fmul (raw_point k x y) w | None => raw_point k x y end.

Lemma zip_flip (o : F -> F -> F) (l1 l2 : list F) : zip_with o l2 l1 = zip_with (fun x y => o y x) l1 l2.
Proof. apply zip_with_flip. Qed.
Lemma map_zip (h : F -> F) (o : F -> F -> F) (l1 l2 : list F) : map h (zip_with o l1 l2) = zip_with (fun x y => h (o x y)) l1 l2.
Proof. revert l2. induction l1 as [|x l1 IH]; intros [|y l2]; try done. cbn. by f_equal. Qed.

Lemma zip_two (h f g k : F -> F) (o : F -> F -> F) (l1 l2 : list F) :
  zip_with (fun a b => h (fadd a b)) (zip_with o (map f l1) l2) (zip_with o (map g l1) (map k l2)) = zip_with (fun x y => h (fadd (o (f x) y) (o (g x) (k y)))) l1 l2.
Proof. revert l2. induction l1 as [|x l1 IH]; intros [|y l2]; try done. cbn. by f_equal. Qed.

Lemma stable_bce_same (s : list nat) (p y : list F) : length p = size s -> length y = size s ->
  stable_bce (mkNda s p) (mkNda s y) = Ok (mkNda s (zip_with bce_point p y)).
Proof.
  intros Hp Hy. unfold stable_bce, amap. cbn [a_shape a_flat]. rewrite bop_same by done. cbn [mbind result_bind].
  rewrite bop_same by (rewrite ?length_map; try apply zip_with_length; done). cbn [mbind result_bind].
  rewrite bop_same by (rewrite ?length_map; try apply zip_with_length; rewrite ?length_map; try apply zip_with_length; done).
  do 2 f_equal. assert (length p = length y) as Hl by lia. clear -Hl. revert y Hl.
  induction p as [|x p IH]; intros [|z y] Hl; try done. cbn. f_equal. apply IH. by injection Hl.
Qed.

(** The loss before the mean. *)
Lemma raw_loss k (s t : list nat) (p y : list F) : Forall (fun d => (0 < d)%nat) s -> size t = size s -> length p = size s -> length y = size s ->
  ploss_forward k (mkNda s p) (mkNda t y) None = mean_exclude 0 (mkNda s (zip_with (point k) p y)).
Proof.
  intros Hs Ht Hp Hy. assert (length y = size t) as Hyt by lia.
  destruct k as [w|w|[] w|rho w|m w|m w|[] w]; cbn [ploss_forward];
    unfold L2Loss, L1Loss, SigmoidBinaryCrossEntropyLoss, HuberLoss, HingeLoss, SquaredHingeLoss, LogisticLoss, _apply_weighting, amap;
    rewrite (reshape_like_ok s t p y Hs Ht Hyt); cbn [mbind result_bind a_shape a_flat];
    rewrite ?bop_same, ?stable_bce_same by (rewrite ?length_map; done); cbn [mbind result_bind a_shape a_flat]; unfold point; cbn [loss_weight raw_point];
    rewrite ?bop_same by (apply zip_with_length; rewrite ?length_map; done); cbn [mbind result_bind a_shape a_flat];
    try (destruct w as [w|]); cbn [a_shape a_flat]; f_equal; f_equal; rewrite ?map_map, ?(zip_flip _ p y), ?map_zip; try done.
  - apply (zip_two (fun z => fmul (fneg z) w)).
  - apply zip_two.
  - by rewrite zip_with_fmap_r.
  - by rewrite zip_with_fmap_r.
Qed.

(** One value for every sample. *)
Lemma losses_samples k d (s t : list nat) (P Y : list (list F)) : (0 < d)%nat -> Forall (fun n => (0 < n)%nat) s -> size t = (d * size s)%nat ->
  length P = d -> length Y = d -> Forall (fun r => length r = size s) P -> Forall (fun r => length r = size s) Y ->
  ploss_forward k (mkNda (d :: s) (concat P)) (mkNda t (concat Y)) None
    = Ok (mkNda [d] (zip_with (fun p y => mean (zip_with (point k) p y)) P Y)).
Proof.
  intros Hd Hs Ht HP HY HrP HrY.
  rewrite raw_loss; [|by constructor|done|by rewrite (rows_length (size s)), HP by done|by rewrite (rows_length (size s)), HY by done].
  rewrite (zip_rows _ (size s)) by done. rewrite mean_rows; [|by apply zip_with_length|by apply zip_rows_length].
  do 2 f_equal. clear. revert Y. induction P as [|p P IH]; intros [|y Y]; try done. cbn. by f_equal.
Qed.

(** A batch, as the rows of predictions and the rows of labels, in arrays. *)
Definition rows_ok (s : list nat) (b : list (list F) * list (list F)) : Prop :=
  b.1 <> [] /\ length b.1 = length b.2 /\ Forall (fun r => length r = size s) b.1 /\ Forall (fun r => length r = size s) b.2.
Definition stacked (s : list nat) (rows : list (list F)) : arr := mkNda (length rows :: s) (concat rows).

(** C39: the loss of a batch (L2, L1, Huber, hinge, squared hinge, logistic, binary cross-entropy) that is put together
    from parts, such as the parts on several devices, is the losses of the parts put together. *)
Theorem loss_of_parts k (s : list nat) (parts : list (list (list F) * list (list F))) :
  Forall (fun n => (0 < n)%nat) s -> parts <> [] -> Forall (rows_ok s) parts ->
  exists losses,
    Forall2 (fun b l => ploss_forward k (stacked s b.1) (stacked s b.2) None = Ok (mkNda [length b.1] l)) parts losses /\
    ploss_forward k (stacked s (concat (map fst parts))) (stacked s (concat (map snd parts))) None
      = Ok (mkNda [length (concat (map fst parts))] (concat losses)).
Proof.
  intros Hs Hne Hok. set (row := fun p y => mean (zip_with (point k) p y)).
  assert (forall b, rows_ok s b -> ploss_forward k (stacked s b.1) (stacked s b.2) None = Ok (mkNda [length b.1] (zip_with row b.1 b.2))) as Hone.
  { intros b (Hb & Hl & H1 & H2). unfold stacked. rewrite <- Hl. apply losses_samples; try done. by destruct b.1; cbn; [|lia]. }
  exists (map (fun b => zip_with row b.1 b.2) parts). split.
  - apply Forall2_fmap_r, Forall_Forall2_diag. eapply Forall_impl; [exact Hok|]. apply Hone.
  - etransitivity; [apply (Hone (concat (map fst parts), concat (map snd parts)))|].
    + unfold rows_ok. cbn [fst snd]. split_and!.
      * destruct Hok as [|b parts (Hb & _) _]; [done|]. cbn [map concat]. intros [? _]%app_eq_nil. done.
      * clear Hne. induction Hok as [|b parts (_ & Hl & _) _ IH]; [done|]. cbn [map concat]. rewrite !length_app. lia.
      * apply Forall_concat, Forall_fmap. eapply Forall_impl; [exact Hok|]. by intros b (_ & _ & ? & _).
      * apply Forall_concat, Forall_fmap. eapply Forall_impl; [exact Hok|]. by intros b (_ & _ & _ & ?).
    + cbn [fst snd]. do 2 f_equal. clear Hne. induction Hok as [|b parts (_ & Hl & _) _ IH]; [done|]. cbn [map concat]. rewrite zip_with_app by done. by rewrite IH.
Qed.
End Samples.

(** ** Examples, on rational numbers *)

#[local] Existing Instances Q_Float Q_FloatMath.
#[local] Instance Q_LossMath : MetricMath Q := { fexp x := x; flog x := x; fnan := 0%Q; to_int q := Qnum q / Zpos (Qden q) }.
Notation qarr s l := (mkNda s%nat l%Q).

(** Without a weight the L2 loss fails. *)
Example l2_needs_weight : L2Loss false None 0 (qarr [1] [1]) (qarr [1] [2]) None = Raise TypeError.
Proof. vm_compute. reflexivity. Qed.

(** More labels than predictions: only when gradients are recorded are they refused. *)
Example long_labels_ignored :
  L1Loss false None 0 (qarr [2; 1] [1; 1]) (qarr [2; 2] [2; 3; 9; 9]) None = Ok (qarr [2] [1; 2]) /\
  L1Loss true None 0 (qarr [2; 1] [1; 1]) (qarr [2; 2] [2; 3; 9; 9]) None = Raise MXNetError.
Proof. vm_compute. split; reflexivity. Qed.

(** The labels of the Kullback-Leibler loss are not reshaped: a vector of labels meets every prediction of a column. *)
Example kl_labels_broadcast :
  KLDivLoss true (-1) None 0 (qarr [2; 1] [0; 1]) (qarr [2] [1; 3]) None <> KLDivLoss true (-1) None 0 (qarr [2; 1] [0; 1]) (qarr [2; 1] [1; 3]) None.
Proof. vm_compute. congruence. Qed.

Lemma loss_of_parts_witness : exists losses,
  Forall2 (fun b l => ploss_forward false (PL2 1%Q) (stacked [1%nat] b.1) (stacked [1%nat] b.2) None = Ok (mkNda [length b.1] l))
    [([[1%Q]], [[3%Q]]); ([[0%Q]; [2%Q]], [[1%Q]; [2%Q]])] losses /\
  ploss_forward false (PL2 1%Q) (stacked [1%nat] [[1%Q]; [0%Q]; [2%Q]]) (stacked [1%nat] [[3%Q]; [1%Q]; [2%Q]]) None = Ok (mkNda [3%nat] (concat losses)).
Proof.
  apply (loss_of_parts false (PL2 1%Q) [1%nat] [([[1%Q]], [[3%Q]]); ([[0%Q]; [2%Q]], [[1%Q]; [2%Q]])]).
  - repeat constructor.
  - done.
  - repeat constructor; done.
Defined.
