(* ===== verification/LossReal.v ===== *)
(** * Losses in exact arithmetic

    With the real numbers for the numbers of the arrays, the stable formulas for the binary
    and the softmax cross-entropy are the cross-entropies they stand for, integer labels mean
    the same as the distributions that put everything on one class, and the Huber loss is the
    function of its documentation. *)

From Stdlib Require Import Reals Lra.
From S2P Require Import Prelude NDArray Array LRScheduler Optimizer SGD OptReal Metric MetricReal Axis Loss LossFacts.
Open Scope R_scope.

#[local] Instance loss_math : MetricMath R := { fexp := exp; flog := ln; fnan := 0; to_int := trunc }.
Ltac loss_R := cbn [fadd fsub fmul fdiv fof fneg fsqrt fabs fexp flog R_Float R_FloatMath loss_math] in *.

(** ** Binary cross-entropy *)

Definition sigmoid (x : R) : R := / (1 + exp (- x)).
Definition cross_entropy (x y : R) : R := - (y * ln (sigmoid x) + (1 - y) * ln (1 - sigmoid x)).

Lemma exp_pos1 x : 0 < 1 + exp x.
Proof. pose proof (exp_pos x). lra. Qed.

Lemma ln_sigmoid x : ln (sigmoid x) = - ln (1 + exp (- x)).
Proof. apply ln_Rinv, exp_pos1. Qed.
Lemma ln_1_sigmoid x : ln (1 - sigmoid x) = - x - ln (1 + exp (- x)).
Proof.
  unfold sigmoid. pose proof (exp_pos1 (- x)). replace (1 - / (1 + exp (- x))) with (exp (- x) * / (1 + exp (- x))) by (field; lra).
  rewrite ln_mult, ln_exp, ln_Rinv; [lra|done|apply exp_pos|by apply Rinv_0_lt_compat].
Qed.
Lemma softplus_flip x : ln (1 + exp (- x)) = - x + ln (1 + exp x).
Proof.
  replace (1 + exp (- x)) with (exp (- x) * (1 + exp x)).
  - rewrite ln_mult, ln_exp; [lra|apply exp_pos|apply exp_pos1].
  - rewrite Rmult_plus_distr_l, <- exp_plus. replace (- x + x) with 0 by lra. rewrite exp_0. lra.
Qed.

Lemma bce_stable x y : bce_point x y = cross_entropy x y.
Proof.
  unfold bce_point, cross_entropy, frelu, fsoftrelu. rewrite ln_sigmoid, ln_1_sigmoid.
  assert (fltb (fof 20) (fneg (fabs x)) = false) as ->.
  { apply fltb_false. loss_R. pose proof (Rabs_pos x). lra. }
  fcase; loss_R.
  - rewrite Rabs_pos_eq by lra. lra.
  - rewrite Rabs_left1 by lra. rewrite Ropp_involutive. rewrite softplus_flip. lra.
Qed.

(** The logistic loss of a label 1 or -1. *)
Lemma logistic_signed x y : y = 1 \/ y = -1 -> bce_point x ((y + 1) / 2) = ln (1 + exp (- (x * y))).
Proof.
  intros Hy. rewrite bce_stable. unfold cross_entropy. rewrite ln_sigmoid, ln_1_sigmoid. destruct Hy as [->| ->].
  - rewrite Rmult_1_r. lra.
  - replace (- (x * -1)) with x by lra. rewrite softplus_flip. lra.
Qed.

(** The Huber loss as documented. *)
Definition huber (rho d : R) : R := if Rlt_dec (Rabs d) rho then / (2 * rho) * d ^ 2 else Rabs d - rho / 2.
Lemma huber_documented rho d : 0 < rho -> huber_point rho (Rabs d) = huber rho d.
Proof.
  intros Hr. unfold huber_point, huber, half, fsquare. assert (Rabs d * Rabs d = d * d) as Hd by (rewrite <- Rabs_mult; apply Rabs_pos_eq; nra).
  fcase; destruct (Rlt_dec (Rabs d) rho) as [Hl|Hl]; loss_R; try lra.
  - rewrite Hd. field. lra.
  - assert (Rabs d = rho) as -> by lra. field. lra.
Qed.

(** The losses for binary classification are what they are documented to be: without [from_sigmoid], the binary
    cross-entropy between the labels and the sigmoid of the predictions; with labels 1 and -1, the logarithm of
    1 + exp(- prediction * label); and the Huber loss is quadratic below its threshold and linear above. *)
Theorem binary_losses_documented recording d (s t : list nat) (P Y : list (list R)) rho :
  (0 < d)%nat -> Forall (fun n => (0 < n)%nat) s -> size t = (d * size s)%nat ->
  length P = d -> length Y = d -> Forall (fun r => length r = size s) P -> Forall (fun r => length r = size s) Y -> 0 < rho ->
  let pred := mkNda (d :: s) (concat P) in
  let label := mkNda t (concat Y) in
  let means g := Ok (mkNda [d] (zip_with (fun p y => mean (zip_with g p y)) P Y)) in
  SigmoidBinaryCrossEntropyLoss recording false None 0 pred label None = means cross_entropy /\
  (Forall (Forall (fun y => y = 1 \/ y = -1)) Y ->
   LogisticLoss recording true None 0 pred label None = means (fun x y => ln (1 + exp (- (x * y))))) /\
  HuberLoss recording rho None 0 pred label None = means (fun x y => huber rho (y - x)).
Proof.
  intros Hd Hs Ht HP HY HrP HrY Hrho. cbn zeta.
  pose proof (fun k => losses_samples recording k d s t P Y Hd Hs Ht HP HY HrP HrY) as Hk. split_and!.
  - etransitivity; [apply (Hk (PBCE false None))|]. do 2 f_equal. apply zip_with_ext; [|done|done]. intros p y. f_equal. by apply zip_with_ext; [intros; apply bce_stable|..].
  - intros Hy. etransitivity; [apply (Hk (PLogistic true None))|]. do 2 f_equal. clear -Hy. revert P. induction Hy as [|y Y Hy _ IH]; intros [|p P]; try done. cbn [zip_with].
    f_equal; [|apply IH]. f_equal. clear -Hy. revert p. induction Hy as [|z y Hz _ IH]; intros [|x p]; try done. cbn [zip_with]. f_equal; [|apply IH].
    by apply logistic_signed.
  - etransitivity; [apply (Hk (PHuber rho None))|]. do 2 f_equal. apply zip_with_ext; [|done|done]. intros p y. f_equal. apply zip_with_ext; [|done|done].
    intros x z. by apply huber_documented.
Qed.

(** ** Softmax cross-entropy *)

Definition Rsum (l : list R) : R := foldr Rplus 0 l.
Lemma fsum_Rsum (l : list R) : fsum l = Rsum l.
Proof.
  unfold fsum. assert (forall a, fold_left fadd l a = a + Rsum l) as ->; [|loss_R; lra].
  induction l as [|x l IH]; intros a; cbn [fold_left Rsum foldr]; [lra|]. rewrite IH. loss_R. unfold Rsum. lra.
Qed.
Lemma Rsum_scale c l : Rsum (map (fun x => c * x) l) = c * Rsum l.
Proof. induction l as [|x l IH]; cbn; [lra|]. unfold Rsum in IH. rewrite IH. lra. Qed.
Lemma Rsum_exp_pos l : l <> [] -> 0 < Rsum (map exp l).
Proof.
  intros Hl. assert (forall l, 0 <= Rsum (map exp l)) as Hn.
  { induction l0 as [|x l0 IH]; cbn; [lra|]. pose proof (exp_pos x). unfold Rsum in IH. lra. }
  destruct l as [|x l]; [done|]. cbn. pose proof (exp_pos x). specialize (Hn l). unfold Rsum in Hn. lra.
Qed.

(** The logarithms of the softmax. *)
Definition log_prob (l : list R) (x : R) : R := ln (exp x / Rsum (map exp l)).
Lemma log_softmax_exact l : l <> [] -> log_softmax_lane l = map (log_prob l) l.
Proof.
  intros Hl. unfold log_softmax_lane. set (m := lane_max l). apply map_ext. intros x. rewrite fsum_Rsum. loss_R.
  assert (Rsum (map (fun x => exp (x - m)) l) = exp (- m) * Rsum (map exp l)) as ->.
  { rewrite <- Rsum_scale, map_map. f_equal. apply map_ext. intros y. rewrite <- exp_plus. f_equal. lra. }
  pose proof (Rsum_exp_pos l Hl). rewrite ln_mult, ln_exp by (done || apply exp_pos). unfold log_prob. unfold Rdiv.
  rewrite ln_mult, ln_exp, ln_Rinv; [lra|done|apply exp_pos|by apply Rinv_0_lt_compat].
Qed.

Lemma unlanes_rows c (L : list (list R)) : Forall (fun r => length r = c) L -> unlanes (length L) c 1 L = concat L.
Proof.
  intros Hr. unfold unlanes. f_equal. transitivity (map (fun x => concat (map (fun j => omap (fun lane : list R => lane !! j) x) (seq 0 c))) (map (fun x => [x]) L)).
  { f_equal. rewrite <- (blocks_of 1 (map (fun x => [x]) L)) by (apply Forall_fmap, Forall_forall; done). rewrite length_map. f_equal.
    induction L as [|x L IH]; [done|]. apply Forall_cons in Hr as [_ Hr]. cbn. f_equal. by apply IH. }
  rewrite map_map. rewrite <- (map_id L) at 2. apply map_ext_Forall. eapply Forall_impl; [exact Hr|]. intros r <-. cbn.
  assert (forall k : list R, concat (map (fun j => match (k ++ r) !! j with Some x => [x] | None => [] end) (seq (length k) (length r))) = r) as Hg; [|by apply (Hg [])].
  clear. induction r as [|x r IH]; intros k; [done|]. cbn [seq length map concat]. rewrite lookup_app_r, Nat.sub_diag by lia. cbn [lookup list_lookup app]. f_equal.
  specialize (IH (k ++ [x])). rewrite <- app_assoc, length_app in IH. cbn in IH. by rewrite Nat.add_1_r in IH.
Qed.

Lemma log_softmax_rows c (P : list (list R)) : (0 < c)%nat -> Forall (fun r => length r = c) P ->
  log_softmax (mkNda [length P; c] (concat P)) (-1) = Ok (mkNda [length P; c] (concat (map (fun p => map (log_prob p) p) P))).
Proof.
  intros Hc Hr. unfold log_softmax, map_lanes. change (norm_axis (length (a_shape (mkNda [length P; c] (concat P)))) (-1)) with (Some 1%nat).
  cbv beta iota. rewrite axis_lanes_rows by done. unfold before, after. cbn [a_shape lookup list_lookup default take drop size foldr]. rewrite Nat.mul_1_r. change (Datatypes.id c) with c.
  assert (map log_softmax_lane P = map (fun p => map (log_prob p) p) P) as ->.
  { apply map_ext_Forall. eapply Forall_impl; [exact Hr|]. intros p Hp. apply log_softmax_exact. destruct p; [cbn in Hp; lia|done]. }
  do 2 f_equal. rewrite <- (length_map (fun p => map (log_prob p) p) P). apply unlanes_rows. apply Forall_fmap. eapply Forall_impl; [exact Hr|].
  intros p <-. apply length_map.
Qed.

Lemma mean_one (x : R) : mean [x] = x.
Proof. unfold mean. rewrite fsum_Rsum. change (py_len [x]) with 1%Z. loss_R. unfold Rsum. cbn. lra. Qed.
Lemma mean_column (l : list R) : mean_exclude 0 (mkNda [length l; 1%nat] l) = Ok (mkNda [length l] l).
Proof.
  assert (l = concat (map (fun x => [x]) l)) as E by (induction l as [|x l IH]; [done|]; cbn; by f_equal).
  rewrite E at 2. rewrite mean_rows; [|by rewrite length_map|by apply Forall_fmap, Forall_forall].
  do 2 f_equal. rewrite map_map. rewrite <- (map_id l) at 2. apply map_ext. apply mean_one.
Qed.

(** The loss of one sample with an integer label. *)
Definition class_loss (p : list R) (j : nat) : R := - ln (exp (nth j p 0) / Rsum (map exp p)).

Lemma clip_index_in c j : (j < c)%nat -> clip_index c (Z.of_nat j) = j.
Proof.
  intros Hj. unfold clip_index. destruct (Z.of_nat j <=? 0)%Z eqn:E; [apply Z.leb_le in E; lia|]. rewrite (proj2 (Z.leb_gt _ _)) by lia. apply Nat2Z.id.
Qed.
Lemma picked c (P : list (list R)) (js : list nat) : Forall (fun r => length r = c) P -> length js = length P -> Forall (fun j => (j < c)%nat) js ->
  omap Datatypes.id (zip_with (fun (lane : list R) y => lane !! clip_index (length lane) (to_int y)) (map (fun p => map (log_prob p) p) P) (map (fun j => IZR (Z.of_nat j)) js))
    = map Ropp (zip_with class_loss P js).
Proof.
  intros Hr Hl Hj. revert js Hl Hj. induction Hr as [|p P Hp _ IH]; intros [|j js] Hl Hj; try done. apply Forall_cons in Hj as [Hj Hjs].
  cbn [map zip_with omap list_omap]. cbn [to_int loss_math]. rewrite trunc_IZR, length_map, Hp, clip_index_in by done.
  change (@map R R) with (@fmap list _ R R). destruct (nth_lookup_or_length p j 0) as [Hn|Hn]; [|lia]. rewrite list_lookup_fmap, Hn. cbn. f_equal; [|apply IH; [by injection Hl|done]].
  unfold class_loss, log_prob. lra.
Qed.

Definition one_hot (c j : nat) : list R := map (fun i => if (i =? j)%nat then 1 else 0) (seq 0 c).
Lemma dot_zero (l : list R) t : forall k, (t < k)%nat -> Rsum (zip_with Rmult l (map (fun i => if (i =? t)%nat then 1 else 0) (seq k (length l)))) = 0.
Proof.
  induction l as [|x l IH]; intros k Hk; [done|]. cbn [length seq map zip_with]. rewrite (proj2 (Nat.eqb_neq k t)) by lia.
  specialize (IH (S k) ltac:(lia)). unfold Rsum in *. cbn [foldr]. rewrite IH. lra.
Qed.
Lemma dot_shifted (l : list R) : forall j k, (j < length l)%nat ->
  Rsum (zip_with Rmult l (map (fun i => if (i =? k + j)%nat then 1 else 0) (seq k (length l)))) = nth j l 0.
Proof.
  induction l as [|x l IH]; intros j k Hj; cbn [length] in Hj; [lia|]. cbn [length seq map zip_with]. destruct j as [|j].
  - rewrite Nat.add_0_r, Nat.eqb_refl. pose proof (dot_zero l k (S k) ltac:(lia)) as Hz. unfold Rsum in *. cbn [foldr nth]. rewrite Hz. lra.
  - rewrite (proj2 (Nat.eqb_neq k _)) by lia. specialize (IH j (S k) ltac:(lia)). rewrite Nat.add_succ_r. cbn [plus] in IH. unfold Rsum in *. cbn [foldr nth]. rewrite IH. lra.
Qed.
Lemma dot_one_hot (l : list R) j : (j < length l)%nat -> fsum (zip_with fmul l (one_hot (length l) j)) = nth j l 0.
Proof. intros Hj. rewrite fsum_Rsum. apply (dot_shifted l j 0 Hj). Qed.

Lemma dotted c (P : list (list R)) (js : list nat) : Forall (fun r => length r = c) P -> length js = length P -> Forall (fun j => (j < c)%nat) js ->
  map fsum (zip_with (zip_with fmul) (map (fun p => map (log_prob p) p) P) (map (one_hot c) js)) = map Ropp (zip_with class_loss P js).
Proof.
  intros Hr. revert js. induction Hr as [|p P Hp _ IH]; intros [|j js] Hl Hj; try done. apply Forall_cons in Hj as [Hj Hjs].
  cbn [map zip_with]. f_equal; [|apply IH; [by injection Hl|done]]. rewrite <- Hp, <- (length_map (log_prob p) p), dot_one_hot by (rewrite length_map; lia).
  rewrite (nth_indep _ 0 (log_prob p 0)) by (rewrite length_map; lia). rewrite map_nth. unfold class_loss, log_prob. lra.
Qed.

Lemma class_loss_nonneg (p : list R) j : (j < length p)%nat -> 0 <= class_loss p j.
Proof.
  intros Hj. assert (forall l : list R, 0 <= Rsum (map exp l)) as Hn.
  { induction l as [|x l IH]; cbn; [lra|]. pose proof (exp_pos x). unfold Rsum in IH. lra. }
  assert (forall l j, (j < length l)%nat -> exp (nth j l 0) <= Rsum (map exp l)) as Hle.
  { clear p j Hj. induction l as [|x l IH]; intros j Hj; cbn [length] in Hj; [lia|]. unfold Rsum in *. cbn [map foldr]. destruct j as [|j]; cbn [nth].
    - specialize (Hn l). lra.
    - pose proof (exp_pos x). specialize (IH j ltac:(lia)). lra. }
  specialize (Hle p j Hj). unfold class_loss. pose proof (exp_pos (nth j p 0)). set (e := exp _) in *. set (S := Rsum _) in *.
  assert (0 < e / S <= 1) as [H0 H1].
  { split; [apply Rdiv_lt_0_compat; lra|]. apply Rmult_le_reg_r with S; [lra|]. unfold Rdiv. rewrite Rmult_assoc, Rinv_l by lra. lra. }
  destruct (Rle_lt_or_eq_dec _ _ H1) as [Hl| ->]; [apply ln_increasing in Hl; [rewrite ln_1 in Hl; lra|done]|rewrite ln_1; lra].
Qed.

Lemma map_opp2 l : map Ropp (map Ropp l) = l.
Proof. induction l as [|x l IH]; [done|]. cbn. by rewrite IH, Ropp_involutive. Qed.

(** Negating the picked values, and averaging each over its single element. *)
Lemma column_loss n (l : list R) : length l = n ->
  (loss ← _apply_weighting (amap fneg (mkNda [n; 1%nat] (map Ropp l))) None None; mean_exclude 0 loss) = Ok (mkNda [n] l).
Proof.
  intros <-. cbn [mbind result_bind _apply_weighting]. unfold amap. cbn [a_shape a_flat]. change (map fneg) with (map Ropp). rewrite map_opp2. apply mean_column.
Qed.

(** C34: the loss for classification is the cross-entropy of the softmax, computed without overflow: with integer labels
    it is, for every sample, minus the logarithm of the probability of its class, which is not negative; the label as a
    distribution on that class gives the same. *)
Theorem softmax_cross_entropy recording c (P : list (list R)) (js : list nat) :
  (0 < c)%nat -> P <> [] -> Forall (fun r => length r = c) P -> length js = length P -> Forall (fun j => (j < c)%nat) js ->
  let pred := mkNda [length P; c] (concat P) in
  let loss := zip_with class_loss P js in
  SoftmaxCrossEntropyLoss recording (-1) true false None 0 pred (mkNda [length P] (map (fun j => IZR (Z.of_nat j)) js)) None = Ok (mkNda [length P] loss) /\
  SoftmaxCrossEntropyLoss recording (-1) false false None 0 pred (mkNda [length P; c] (concat (map (one_hot c) js))) None = Ok (mkNda [length P] loss) /\
  Forall (fun x => 0 <= x) loss.
Proof.
  intros Hc HP Hr Hl Hj. cbn zeta. set (L := map (fun p => map (log_prob p) p) P).
  assert (Forall (fun r => length r = c) L) as HL by (apply Forall_fmap; eapply Forall_impl; [exact Hr|]; intros p <-; apply length_map).
  assert (length L = length P) as HLl by apply length_map.
  assert (length (zip_with class_loss P js) = length L) as Hz by (rewrite length_zip_with; lia).
  unfold SoftmaxCrossEntropyLoss. rewrite log_softmax_rows by done. fold L. cbn [mbind result_bind]. rewrite <- HLl. split_and!.
  - unfold pick. change (norm_axis (length (a_shape (mkNda [length L; c] (concat L)))) (-1)) with (Some 1%nat). cbv beta iota.
    assert (pick_shapes 1 [length L; c] [length L] = true) as Hps by (unfold pick_shapes; cbn; by apply bool_decide_eq_true).
    cbn [a_shape a_flat]. rewrite Hps, axis_lanes_rows by done. unfold L at 2. rewrite (picked c) by done. by apply column_loss.
  - assert (Forall (fun r => length r = c) (map (one_hot c) js)) as Ho.
    { apply Forall_fmap, Forall_forall. intros j _. unfold one_hot. cbn. by rewrite length_map, length_seq. }
    assert (length (concat (map (one_hot c) js)) = (length L * c)%nat) as Hco by (rewrite (rows_length c) by done; rewrite length_map; lia).
    rewrite reshape_like_ok; [|repeat constructor; [destruct P; [done|]; cbn; lia|done]|done|rewrite Hco; cbn; lia]. cbn [mbind result_bind].
    rewrite bop_same by (rewrite ?Hco, ?(rows_length c) by done; cbn; lia). cbn [mbind result_bind]. rewrite (zip_rows _ c) by done.
    unfold reduce_keep. change (norm_axis (length (a_shape (mkNda [length L; c] (concat (zip_with (zip_with fmul) L (map (one_hot c) js)))))) (-1)) with (Some 1%nat). cbv beta iota.
    assert (length L = length (zip_with (zip_with fmul) L (map (one_hot c) js))) as E by (rewrite length_zip_with, length_map; lia).
    rewrite E at 1 2. rewrite axis_lanes_rows by (by apply zip_rows_length). rewrite <- E. unfold L at 3. rewrite (dotted c) by done. by apply column_loss.
  - clear -Hr Hl Hj. revert js Hl Hj. induction Hr as [|p P Hp _ IH]; intros [|j js] Hl Hj; cbn [zip_with]; constructor; apply Forall_cons in Hj as [Hj Hjs].
    + apply class_loss_nonneg. lia.
    + apply IH; [by injection Hl|done].
Qed.

(** ** Witnesses *)

Lemma binary_losses_documented_witness :
  SigmoidBinaryCrossEntropyLoss true false None 0 (mkNda [1%nat; 2%nat] [3; -1]) (mkNda [2%nat] [1; 0]) None
    = Ok (mkNda [1%nat] [mean [cross_entropy 3 1; cross_entropy (-1) 0]]).
Proof.
  destruct (binary_losses_documented true 1 [2%nat] [2%nat] [[3; -1]] [[1; 0]] 1) as [E _];
    [lia|repeat constructor; lia|reflexivity|reflexivity|reflexivity|by repeat constructor|by repeat constructor|lra|exact E].
Defined.

Lemma softmax_cross_entropy_witness :
  SoftmaxCrossEntropyLoss true (-1) true false None 0 (mkNda [1%nat; 2%nat] [3; -1]) (mkNda [1%nat] [1]) None
    = Ok (mkNda [1%nat] [class_loss [3; -1] 1]).
Proof.
  destruct (softmax_cross_entropy true 2 [[3; -1]] [1%nat]) as (E & _ & _); [lia|done|by repeat constructor|reflexivity|by repeat constructor; lia|exact E].
Defined.
