(* ===== verification/Detection.v ===== *)
(** * Images with bounding boxes

    The augmenters of [image/detection.py] and the labels of [ImageDetIter]: random crops and
    paddings with their proposals and the new labels, flips, the random choice of an
    augmenter, parsing and checking labels.  A label is a list of boxes: a class, two corners
    in fractions of the image, and further numbers.  Images and what OpenCV does with them are
    parameters, and so is the random generator; numbers are those of the arrays ([Float]) with
    [round] and [int]. *)

From S2P Require Import Prelude NDArray Array LRScheduler Optimizer SGD.
Open Scope Z_scope.

(** [int(round(x))] and [int(x)]. *)
Class RoundMath (F : Type) := {
  fround : F -> Z;
  ftrunc : F -> Z;
}.

Section Detection.
Context {F : Type} `{Float F} `{FloatMath F} `{RoundMath F}.
Local Open Scope float_scope.

(** ** Labels *)

Record box := mkBox { b_id : F; b_x1 : F; b_y1 : F; b_x2 : F; b_y2 : F; b_rest : list F }.
Definition set_corners (x1 y1 x2 y2 : F) (b : box) : box := mkBox (b_id b) x1 y1 x2 y2 (b_rest b).
Notation label := (list box).

Definition fle (a b : F) : bool := negb (fltb b a).
Definition fmaximum (a b : F) : F := if fltb a b then b else a.
Definition fminimum (a b : F) : F := if fltb b a then b else a.
Definition fofz (z : Z) : F := fof z.

(** [_calculate_areas] *)
Definition area (x1 y1 x2 y2 : F) : F := fmaximum 0 (y2 - y1) * fmaximum 0 (x2 - x1).
Definition box_area (b : box) : F := area (b_x1 b) (b_y1 b) (b_x2 b) (b_y2 b).

(** ** Flips *)

(** [DetHorizontalFlipAug._flip_label] *)
Definition flip_box (b : box) : box := set_corners (1 - b_x2 b) (b_y1 b) (1 - b_x1 b) (b_y2 b) b.
Definition _flip_label (l : label) : label := map flip_box l.

(** ** Random crops *)

Record crop_attrs := mkCropAug {
  min_object_covered : F;
  min_eject_coverage : F;
  max_attempts : nat;
  aspect_ratio_range : F * F;
  area_range : F * F;
  crop_enabled : bool;
}.
(** [DetRandomCropAug.__init__] *)
Definition DetRandomCropAug (moc : F) (ratio area : F * F) (mec : F) (attempts : nat) : crop_attrs :=
  mkCropAug moc mec attempts ratio area
    (negb (fle (snd area) 0 || fltb (snd area) (fst area)) && negb (fltb (snd ratio) (fst ratio) || fle (fst ratio) 0)).

(** [_intersect]: the part of a box inside another, or zeros. *)
Definition intersect (b : box) (xmin ymin xmax ymax : F) : F * F * F * F :=
  let left := fmaximum (b_x1 b) xmin in
  let right := fminimum (b_x2 b) xmax in
  let top := fmaximum (b_y1 b) ymin in
  let bot := fminimum (b_y2 b) ymax in
  if fle right left || fle bot top then (0, 0, 0, 0) else (left, top, right, bot).

(** [_check_satisfy_constraints] *)
Definition _check_satisfy_constraints (self : crop_attrs) (l : label) (xmin ymin xmax ymax width height : Z) : bool :=
  if ((xmax - xmin) * (ymax - ymin) <? 2)%Z then false
  else
    let x1 := fofz xmin / fofz width in
    let y1 := fofz ymin / fofz height in
    let x2 := fofz xmax / fofz width in
    let y2 := fofz ymax / fofz height in
    let valid := filter (fun b => fltb (fof 2) (box_area b * fofz width * fofz height) = true) l in
    match valid with
    | [] => false
    | _ =>
        let coverages := map (fun b => let '(a, b', c, d) := intersect b x1 y1 x2 y2 in area a b' c d / box_area b) valid in
        let coverages := filter (fun c => fltb 0 c = true) coverages in
        match coverages with
        | [] => false
        | c :: cs => fltb (min_object_covered self) (fold_left fminimum cs c)
        end
    end.

(** [_update_labels] of a crop: positions in the crop, cut to it; boxes that are empty or of
    which too little is left are dropped. *)
Definition clip01 (x : F) : F := fminimum 1 (fmaximum 0 x).
Definition crop_box (x y w h : F) (b : box) : box :=
  set_corners (clip01 ((b_x1 b - x) / w)) (clip01 ((b_y1 b - y) / h)) (clip01 ((b_x2 b - x) / w)) (clip01 ((b_y2 b - y) / h)) b.
Definition crop_keeps (mec w h : F) (old new : box) : bool :=
  let coverage := box_area new * w * h / box_area old in
  fltb (b_x1 new) (b_x2 new) && fltb (b_y1 new) (b_y2 new) && fltb mec coverage.
Definition crop_update_labels (self : crop_attrs) (l : label) (x y w h height width : Z) : option label :=
  let xmin := fofz x / fofz width in
  let ymin := fofz y / fofz height in
  let w := fofz w / fofz width in
  let h := fofz h / fofz height in
  let out := omap (fun b => let b' := crop_box xmin ymin w h b in if crop_keeps (min_eject_coverage self) w h b b' then Some b' else None) l in
  match out with [] => None | _ => Some out end.

(** ** The random generator *)

Context {G : Type}.
(** [random.uniform(a, b)], [random.randint(a, b)] and [random.random()]. *)
Context (uniform : F -> F -> M G F) (randint : Z -> Z -> M G Z) (random : M G F).

Definition py_sqrt (x : F) : result F := if fltb x 0 then Raise ValueError else Ok (fsqrt x).

(** One attempt of [_random_crop_proposal]; [None] is [continue]. *)
Definition crop_attempt (self : crop_attrs) (l : label) (height width : Z) : M G (option (Z * Z * Z * Z * label)) :=
  let min_area := fst (area_range self) * fofz height * fofz width in
  let max_area := snd (area_range self) * fofz height * fofz width in
  ratio ← uniform (fst (aspect_ratio_range self)) (snd (aspect_ratio_range self));
  if fle ratio 0 then mret None
  else
    s ← lift (py_sqrt (min_area / ratio));
    let h := fround s in
    s ← lift (py_sqrt (max_area / ratio));
    let max_h := fround s in
    let max_h := if (width <? fround (fofz max_h * ratio)%F)%Z
                 then ftrunc ((fofz width + fof 4999999 / fof 10000000) / ratio) else max_h in
    let max_h := if (height <? max_h)%Z then height else max_h in
    let h := if (max_h <? h)%Z then max_h else h in
    h ← (if (h <? max_h)%Z then randint h max_h else mret h);
    let w := fround (fofz h * ratio) in
    _ ← massert (w <=? width)%Z;
    let '(w, h) := if fltb (fofz (w * h)%Z) min_area then (fround (fofz (h + 1)%Z * ratio), (h + 1)%Z) else (w, h) in
    let '(w, h) := if fltb max_area (fofz (w * h)%Z) then (fround (fofz (h - 1)%Z * ratio), (h - 1)%Z) else (w, h) in
    if negb (fle min_area (fofz (w * h)%Z) && fle (fofz (w * h)%Z) max_area && (0 <=? w)%Z && (w <=? width)%Z && (0 <=? h)%Z && (h <=? height)%Z)
    then mret None
    else
      y ← randint 0%Z (Z.max 0 (height - h));
      x ← randint 0%Z (Z.max 0 (width - w));
      if _check_satisfy_constraints self l x y (x + w)%Z (y + h)%Z width height
      then mret (match crop_update_labels self l x y w h height width with Some l' => Some (x, y, w, h, l') | None => None end)
      else mret None.

(** [for _ in range(max_attempts)]: the first attempt that proposes something. *)
Fixpoint attempts {A} (n : nat) (m : M G (option A)) : M G (option A) :=
  match n with
  | O => mret None
  | S n => r ← m; match r with Some a => mret (Some a) | None => attempts n m end
  end.
Definition _random_crop_proposal (self : crop_attrs) (l : label) (height width : Z) : M G (option (Z * Z * Z * Z * label)) :=
  if negb (crop_enabled self) || (height <=? 0)%Z || (width <=? 0)%Z then mret None
  else attempts (max_attempts self) (crop_attempt self l height width).

(** ** Random paddings *)

Record pad_attrs := mkPadAug { pad_ratio_range : F * F; pad_area_range : F * F; pad_max_attempts : nat; pad_enabled : bool }.
Definition DetRandomPadAug (ratio area : F * F) (n : nat) : pad_attrs :=
  mkPadAug ratio area n (negb (fle (snd area) 1 || fltb (snd area) (fst area)) && negb (fle (fst ratio) 0 || fltb (snd ratio) (fst ratio))).

(** [_update_labels] of a padding. *)
Definition pad_box (x y w h : Z) (height width : Z) (b : box) : box :=
  set_corners ((b_x1 b * fofz width + fofz x) / fofz w) ((b_y1 b * fofz height + fofz y) / fofz h)
    ((b_x2 b * fofz width + fofz x) / fofz w) ((b_y2 b * fofz height + fofz y) / fofz h) b.
Definition pad_update_labels (l : label) (x y w h : Z) (height width : Z) : label := map (pad_box x y w h height width) l.

Definition pad_attempt (self : pad_attrs) (l : label) (height width : Z) : M G (option (Z * Z * Z * Z * label)) :=
  let min_area := fst (pad_area_range self) * fofz height * fofz width in
  let max_area := snd (pad_area_range self) * fofz height * fofz width in
  ratio ← uniform (fst (pad_ratio_range self)) (snd (pad_ratio_range self));
  if fle ratio 0 then mret None
  else
    s ← lift (py_sqrt (min_area / ratio));
    let h := fround s in
    s ← lift (py_sqrt (max_area / ratio));
    let max_h := fround s in
    let h := if (fround (fofz h * ratio)%F <? width)%Z then ftrunc ((fofz width + fof 499999 / fof 1000000) / ratio) else h in
    let h := if (h <? height)%Z then height else h in
    let h := if (max_h <? h)%Z then max_h else h in
    h ← (if (h <? max_h)%Z then randint h max_h else mret h);
    let w := fround (fofz h * ratio) in
    if (h - height <? 2)%Z || (w - width <? 2)%Z then mret None
    else
      y ← randint 0%Z (Z.max 0 (h - height));
      x ← randint 0%Z (Z.max 0 (w - width));
      mret (Some (x, y, w, h, pad_update_labels l x y w h height width)).
Definition _random_pad_proposal (self : pad_attrs) (l : label) (height width : Z) : M G (option (Z * Z * Z * Z * label)) :=
  if negb (pad_enabled self) || (height <=? 0)%Z || (width <=? 0)%Z then mret None
  else attempts (pad_max_attempts self) (pad_attempt self l height width).

(** ** Augmenters *)

(** Images: their height and width, [fixed_crop(src, x, y, w, h)], [copyMakeBorder] with its
    four margins, [nd.flip(src, axis=1)]. *)
Context {I : Type} (im_size : I -> Z * Z) (im_crop : I -> Z -> Z -> Z -> Z -> result I) (im_pad : I -> Z -> Z -> Z -> Z -> result I) (im_flip : I -> I).
(** [random.shuffle(list)], which changes the list in place. *)
Context (shuffle : forall {A}, list A -> M G (list A)).

(** [DetRandomSelectAug] holds a list, or the tuple it was given. *)
Inductive det_aug :=
  | DetBorrowAug (f : I -> M G I)
  | DetRandomSelectAug (is_tuple : bool) (aug_list : list det_aug) (skip_prob : F)
  | DetHorizontalFlipAug (p : F)
  | CropAug (a : crop_attrs)
  | PadAug (a : pad_attrs).
(** [DetRandomSelectAug.__init__]: without augmenters it always skips. *)
Definition new_select (is_tuple : bool) (aug_list : list det_aug) (skip_prob : F) : det_aug :=
  DetRandomSelectAug is_tuple aug_list (match aug_list with [] => 1 | _ => skip_prob end).
(** [random.shuffle(aug_list)]: a tuple of two or more refuses the first exchange. *)
Definition shuffle_augs (is_tuple : bool) (aug_list : list det_aug) : M G (list det_aug) :=
  if is_tuple && (2 <=? length aug_list)%nat then raise TypeError else shuffle det_aug aug_list.

(** [__call__]; the augmenter is returned too, since a choice reorders its list.  The depth
    bounds the nesting of choices. *)
Fixpoint aug_call (depth : nat) (a : det_aug) (src : I) (l : label) : M G (det_aug * I * label) :=
  match depth with
  | O => raise RuntimeError
  | S n =>
      match a with
      | DetBorrowAug f => src ← f src; mret (a, src, l)
      | DetRandomSelectAug is_tuple aug_list skip =>
          r ← random;
          if fltb r skip then mret (a, src, l)
          else
            aug_list ← shuffle_augs is_tuple aug_list;
            match aug_list with
            | [] => raise IndexError
            | b :: rest => '(b, src, l) ← aug_call n b src l; mret (DetRandomSelectAug is_tuple (b :: rest) skip, src, l)
            end
      | DetHorizontalFlipAug p =>
          r ← random;
          mret (if fltb r p then (a, im_flip src, _flip_label l) else (a, src, l))
      | CropAug c =>
          let '(height, width) := im_size src in
          p ← _random_crop_proposal c l height width;
          match p with
          | Some (x, y, w, h, l') => src ← lift (im_crop src x y w h); mret (a, src, l')
          | None => mret (a, src, l)
          end
      | PadAug p =>
          let '(height, width) := im_size src in
          r ← _random_pad_proposal p l height width;
          match r with
          | Some (x, y, w, h, l') =>
              src ← lift (im_pad src y (h - y - height)%Z x (w - x - width)%Z); mret (a, src, l')
          | None => mret (a, src, l)
          end
      end
  end.
(** [augmentation_transform] *)
Fixpoint augmentation_transform (depth : nat) (augs : list det_aug) (src : I) (l : label) : M G (list det_aug * I * label) :=
  match augs with
  | [] => mret ([], src, l)
  | a :: augs =>
      '(a, src, l) ← aug_call depth a src l;
      '(augs, src, l) ← augmentation_transform depth augs src l;
      mret (a :: augs, src, l)
  end.

(** ** Parsing and checking *)

(** [ImageDetIter._parse_label] *)
Definition row_box (r : list F) : result box :=
  match r with
  | i :: x1 :: y1 :: x2 :: y2 :: rest => Ok (mkBox i x1 y1 x2 y2 rest)
  | _ => Raise IndexError
  end.
Definition sane_box (b : box) : bool := fltb (b_x1 b) (b_x2 b) && fltb (b_y1 b) (b_y2 b).
Definition _parse_label (raw : list F) : result label :=
  if (py_len raw <? 7)%Z then Raise RuntimeError
  else
    header_width ← (x ← py_index raw 0; Ok (ftrunc x));
    obj_width ← (x ← py_index raw 1; Ok (ftrunc x));
    if (obj_width =? 0)%Z then Raise ZeroDivisionError
    else if negb ((py_len raw - header_width) mod obj_width =? 0)%Z then Raise RuntimeError
    else if (obj_width <? 0)%Z then Raise ValueError
    else
      let body := py_slice raw header_width (py_len raw) in
      let w := Z.to_nat obj_width in
      if negb (py_len body mod obj_width =? 0)%Z then Raise ValueError
      else if (w <? 5)%nat then Raise IndexError
      else
        rows ← mapR row_box (blocks w (length body / w) body);
        match filter (fun b => sane_box b = true) rows with [] => Raise RuntimeError | l => Ok l end.

(** [ImageDetIter._check_valid_label]: the third argument of [np.logical_and] is where the
    result goes, so that the heights are not tested. *)
Definition _check_valid_label (l : label) : result unit :=
  match filter (fun b => fle 0 (b_id b) && fltb (b_x1 b) (b_x2 b) = true) l with
  | [] => Raise RuntimeError
  | _ => Ok tt
  end.
End Detection.
