(* ===== verification/DetectFacts.v ===== *)
(** * Images with bounding boxes: the boxes stay valid

    In exact arithmetic: a proposed crop lies inside the image, its size is in the range asked
    for, and the assertion on its width never fails; flips, crops and paddings turn boxes
    inside the image with an extent into such boxes, and cropping a padded image to its
    original gives back its boxes. *)

From Stdlib Require Import Reals Lra.
From S2P Require Import Prelude NDArray Array LRScheduler Optimizer SGD OptReal Metric MetricReal Detection.
Open Scope R_scope.

(** ** Rounding to the nearest integer, halves to the even one *)

Definition Rround (x : R) : Z :=
  let k := Int_part (x + / 2) in
  if Req_dec_T (IZR k) (x + / 2) then (if Z.even k then k else (k - 1)%Z) else k.

#[local] Instance R_Round : RoundMath R := { fround := Rround; ftrunc := trunc }.
Ltac det_R := cbn [fadd fsub fmul fdiv fof fneg fsqrt fabs fround ftrunc R_Float R_FloatMath R_Round] in *; unfold fofz in *; cbn [fof R_Float] in *.

Lemma Int_part_bounds x : IZR (Int_part x) <= x < IZR (Int_part x) + 1.
Proof. pose proof (base_Int_part x) as [H1 H2]. lra. Qed.
Lemma Int_part_mono x y : x <= y -> (Int_part x <= Int_part y)%Z.
Proof.
  intros Hxy. pose proof (Int_part_bounds x). pose proof (Int_part_bounds y).
  destruct (Z.le_gt_cases (Int_part x) (Int_part y)) as [?|Hgt]; [done|]. apply Z.lt_gt, Z.gt_lt, Zlt_le_succ, IZR_le in Hgt. rewrite succ_IZR in Hgt. lra.
Qed.
Lemma Rround_bounds x : IZR (Rround x) <= x + / 2 /\ x - / 2 <= IZR (Rround x).
Proof.
  unfold Rround. pose proof (Int_part_bounds (x + / 2)). destruct (Req_dec_T _ _) as [E|E]; [destruct (Z.even _)|]; rewrite ?minus_IZR; lra.
Qed.
Lemma Rround_mono x y : x <= y -> (Rround x <= Rround y)%Z.
Proof.
  intros Hxy. unfold Rround. pose proof (Int_part_mono (x + / 2) (y + / 2) ltac:(lra)) as Hm.
  pose proof (Int_part_bounds (x + / 2)). pose proof (Int_part_bounds (y + / 2)).
  destruct (Z.eq_dec (Int_part (x + / 2)) (Int_part (y + / 2))) as [E|E].
  - rewrite E in *. destruct (Req_dec_T _ (y + / 2)) as [E1|E1].
    + assert (x = y) as -> by lra. rewrite E1. destruct (Req_dec_T _ _); [lia|done].
    + destruct (Req_dec_T _ (x + / 2)); [destruct (Z.even _)|]; lia.
  - destruct (Req_dec_T _ (x + / 2)); destruct (Req_dec_T _ (y + / 2)); repeat destruct (Z.even _); lia.
Qed.
(** Less than a half above an integer rounds down. *)
Lemma Rround_below x n : x < IZR n + / 2 -> (Rround x <= n)%Z.
Proof.
  intros Hx. pose proof (Rround_bounds x) as [H1 _]. assert (IZR (Rround x) < IZR (n + 1)) as Hl by (rewrite plus_IZR; lra). apply lt_IZR in Hl. lia.
Qed.

(** ** Boxes *)

Notation box := (box (F := R)).
(** A box inside the image, with an extent. *)
Definition valid_box (b : box) : Prop := 0 <= b_x1 b < b_x2 b /\ b_x2 b <= 1 /\ 0 <= b_y1 b < b_y2 b /\ b_y2 b <= 1.

Lemma fle_spec (a b : R) : fle a b = true <-> a <= b.
Proof. unfold fle. rewrite negb_true_iff. apply fltb_false. Qed.
Lemma fle_false (a b : R) : fle a b = false <-> b < a.
Proof. unfold fle. rewrite negb_false_iff. apply fltb_spec. Qed.

Lemma flip_valid b : valid_box b -> valid_box (flip_box b).
Proof. unfold valid_box, flip_box, set_corners. cbn. det_R. lra. Qed.
(** Flipping twice gives the label back. *)
Lemma flip_flip (l : list box) : _flip_label (_flip_label l) = l.
Proof.
  unfold _flip_label. rewrite map_map. rewrite <- (map_id l) at 2. apply map_ext. intros [i x1 y1 x2 y2 r]. unfold flip_box, set_corners. cbn.
  f_equal; lra.
Qed.

Lemma clip01_range (x : R) : 0 <= clip01 x <= 1.
Proof. unfold clip01, fminimum, fmaximum. repeat fcase; det_R; lra. Qed.
Lemma clip01_id (x : R) : 0 <= x <= 1 -> clip01 x = x.
Proof. intros Hx. unfold clip01, fmaximum. fcase; unfold fminimum; fcase; det_R; lra. Qed.

Lemma crop_labels_ok self (l : list box) x y w h height width l' : crop_update_labels self l x y w h height width = Some l' ->
  l' <> [] /\ Forall valid_box l' /\ (length l' <= length l)%nat.
Proof.
  unfold crop_update_labels. set (c := crop_box _ _ _ _). set (g := fun b => _). intros E.
  assert (l' <> [] /\ l' = omap g l) as [Hn ->].
  { destruct (omap g l) as [|b k] eqn:Eo; [done|]. injection E as <-. done. }
  split; [done|]. split; [|clear; induction l as [|b l IH]; [done|]; cbn; destruct (g b); cbn; lia].
  apply Forall_forall. intros b' (b & Hb & Hg)%list_elem_of_omap. unfold g in Hg. destruct (crop_keeps _ _ _ _ _) eqn:Ek; [|done].
  injection Hg as <-. unfold crop_keeps in Ek. apply andb_true_iff in Ek as [Ek _]. apply andb_true_iff in Ek as [Hx%fltb_spec Hy%fltb_spec].
  unfold c, crop_box, set_corners in *. unfold valid_box. cbn [b_x1 b_x2 b_y1 b_y2] in *.
  repeat match goal with |- context [clip01 ?t] => lazymatch goal with H : 0 <= clip01 t <= 1 |- _ => fail | _ => pose proof (clip01_range t) end end. lra.
Qed.

(** Positions in a padded image. *)
Lemma pad_coordinate (u : R) (x w width : Z) : (0 <= x)%Z -> (0 < width)%Z -> (x + width <= w)%Z -> 0 <= u <= 1 ->
  0 <= (u * IZR width + IZR x) / IZR w <= 1.
Proof.
  intros Hx Hwd Hw Hu. apply IZR_le in Hx, Hw. apply IZR_lt in Hwd. rewrite plus_IZR in Hw. split.
  - apply Rmult_le_pos; [nra|]. left. apply Rinv_0_lt_compat. lra.
  - apply Rmult_le_reg_r with (IZR w); [lra|]. unfold Rdiv. rewrite Rmult_assoc, Rinv_l by lra. nra.
Qed.
Lemma pad_order (u v : R) (x w width : Z) : (0 < width)%Z -> (0 < w)%Z -> u < v ->
  (u * IZR width + IZR x) / IZR w < (v * IZR width + IZR x) / IZR w.
Proof.
  intros Hwd Hw Huv. apply IZR_lt in Hwd, Hw. unfold Rdiv. apply Rmult_lt_compat_r; [by apply Rinv_0_lt_compat|]. nra.
Qed.
Lemma pad_valid x y w h height width b : (0 <= x)%Z -> (0 <= y)%Z -> (0 < width)%Z -> (0 < height)%Z -> (x + width <= w)%Z -> (y + height <= h)%Z ->
  valid_box b -> valid_box (pad_box x y w h height width b).
Proof.
  intros Hx Hy Hwd Hht Hw Hh (H1 & H2 & H3 & H4). unfold valid_box, pad_box, set_corners. det_R. cbn [b_x1 b_x2 b_y1 b_y2].
  pose proof (pad_coordinate (b_x1 b) x w width Hx Hwd Hw ltac:(lra)). pose proof (pad_coordinate (b_x2 b) x w width Hx Hwd Hw ltac:(lra)).
  pose proof (pad_coordinate (b_y1 b) y h height Hy Hht Hh ltac:(lra)). pose proof (pad_coordinate (b_y2 b) y h height Hy Hht Hh ltac:(lra)).
  pose proof (pad_order (b_x1 b) (b_x2 b) x w width Hwd ltac:(lia) ltac:(lra)). pose proof (pad_order (b_y1 b) (b_y2 b) y h height Hht ltac:(lia) ltac:(lra)).
  lra.
Qed.

(** Cropping the padded image to the original. *)
Lemma unpad_coordinate (u : R) (x w width : Z) : (0 < width)%Z -> (0 < w)%Z -> ((u * IZR width + IZR x) / IZR w - IZR x / IZR w) / (IZR width / IZR w) = u.
Proof. intros Hwd Hw. apply IZR_lt in Hwd, Hw. field. lra. Qed.

(** Padding an image and cropping it back leaves a valid box as it was. *)
Lemma pad_crop_back x y w h height width b : (0 <= x)%Z -> (0 <= y)%Z -> (0 < width)%Z -> (0 < height)%Z -> (x + width <= w)%Z -> (y + height <= h)%Z ->
  valid_box b ->
  crop_box (fofz x / fofz w)%F (fofz y / fofz h)%F (fofz width / fofz w)%F (fofz height / fofz h)%F (pad_box x y w h height width b) = b.
Proof.
  intros Hx Hy Hwd Hht Hw Hh (H1 & H2 & H3 & H4). destruct b as [i x1 y1 x2 y2 r]. unfold crop_box, pad_box, set_corners. det_R. cbn in *.
  rewrite !unpad_coordinate by lia. rewrite !clip01_id by lra. done.
Qed.

(** ** Proposals *)

Section Augment.
Context {G : Type} (uniform : R -> R -> M G R) (randint : Z -> Z -> M G Z) (random : M G R).
(** The generators give numbers in the range they are asked for. *)
Hypothesis uniform_range : forall a b g, a <= b -> exists x g', uniform a b g = (Ok x, g') /\ a <= x <= b.
Hypothesis randint_range : forall a b g, (a <= b)%Z -> exists k g', randint a b g = (Ok k, g') /\ (a <= k <= b)%Z.
Hypothesis random_range : forall g, exists x g', random g = (Ok x, g') /\ 0 <= x < 1.

Lemma py_sqrt_ok (x : R) : 0 <= x -> py_sqrt x = Ok (sqrt x).
Proof. intros Hx. unfold py_sqrt. rewrite (proj2 (fltb_false _ _)); [done|]. det_R. done. Qed.
Lemma Rround_nonneg x : 0 <= x -> (0 <= Rround x)%Z.
Proof. intros Hx. pose proof (Rround_bounds x) as [_ Hr]. assert (IZR (-1) < IZR (Rround x)) as Hl by lra. apply lt_IZR in Hl. lia. Qed.
Lemma trunc_le (x : R) : 0 <= x -> IZR (trunc x) <= x.
Proof. intros Hx. unfold trunc. destruct (Rlt_dec x 0); [lra|]. apply Int_part_bounds. Qed.
Lemma trunc_nonneg (x : R) : 0 <= x -> (0 <= trunc x)%Z.
Proof.
  intros Hx. unfold trunc. destruct (Rlt_dec x 0); [lra|]. pose proof (Int_part_bounds x).
  assert (IZR (-1) < IZR (Int_part x)) as Hl by lra. apply lt_IZR in Hl. lia.
Qed.

(** A height below the largest one gives a width that fits. *)
Lemma width_fits (ratio : R) (h max0 width height : Z) : 0 < ratio -> (0 <= width)%Z -> (0 <= h)%Z ->
  let max1 := if (width <? Rround (IZR max0 * ratio))%Z then trunc ((IZR width + 4999999 / 10000000) / ratio) else max0 in
  (h <= (if height <? max1 then height else max1))%Z -> (Rround (IZR h * ratio) <= width)%Z.
Proof.
  intros Hr Hw Hh max1 Hle. assert (h <= max1)%Z as Hm by (destruct (Z.ltb_spec height max1); lia).
  apply IZR_le in Hm. unfold max1 in Hm. destruct (Z.ltb_spec width (Rround (IZR max0 * ratio))) as [Hlt|Hge].
  - apply Rround_below. apply IZR_le in Hw. pose proof (trunc_le ((IZR width + 4999999 / 10000000) / ratio)) as Ht.
    assert (0 <= (IZR width + 4999999 / 10000000) / ratio) as H0 by (apply Rmult_le_pos; [lra|left; by apply Rinv_0_lt_compat]).
    specialize (Ht H0). apply Rle_lt_trans with (IZR width + 4999999 / 10000000); [|lra].
    apply Rle_trans with ((IZR width + 4999999 / 10000000) / ratio * ratio); [apply Rmult_le_compat_r; lra|]. right. field. lra.
  - etransitivity; [|exact Hge]. apply Rround_mono. apply Rmult_le_compat_r; lra.
Qed.

(** What a proposal promises. *)
Definition crop_inside (self : crop_attrs) (l : list box) (height width : Z) (p : Z * Z * Z * Z * list box) : Prop :=
  let '(x, y, w, h, l') := p in
  (0 <= x /\ 0 <= y /\ 0 < w /\ 0 < h /\ x + w <= width /\ y + h <= height)%Z /\
  fst (area_range self) * IZR height * IZR width <= IZR (w * h) <= snd (area_range self) * IZR height * IZR width /\
  l' <> [] /\ Forall valid_box l' /\ (length l' <= length l)%nat.
Definition pad_outside (l : list box) (height width : Z) (p : Z * Z * Z * Z * list box) : Prop :=
  let '(x, y, w, h, l') := p in
  (0 <= x /\ 0 <= y /\ x + width <= w /\ y + height <= h)%Z /\ l' = pad_update_labels l x y w h height width.

(** A crop that is accepted has at least two pixels. *)
Lemma constraints_size self (l : list box) x1 y1 x2 y2 width height :
  _check_satisfy_constraints self l x1 y1 x2 y2 width height = true -> (2 <= (x2 - x1) * (y2 - y1))%Z.
Proof. unfold _check_satisfy_constraints. by destruct (Z.ltb_spec ((x2 - x1) * (y2 - y1)) 2). Qed.

(** The last steps of an attempt: the size is tested, a place is drawn. *)
Lemma crop_place self (l : list box) height width (w h : Z) g : (0 < height)%Z -> (0 < width)%Z ->
  let min_area := (fst (area_range self) * fofz height * fofz width)%F in
  let max_area := (snd (area_range self) * fofz height * fofz width)%F in
  exists r g',
    (if negb (fle min_area (fofz (w * h)%Z) && fle (fofz (w * h)%Z) max_area && (0 <=? w)%Z && (w <=? width)%Z && (0 <=? h)%Z && (h <=? height)%Z)
     then mret None
     else
       y ← randint 0%Z (Z.max 0 (height - h));
       x ← randint 0%Z (Z.max 0 (width - w));
       if _check_satisfy_constraints self l x y (x + w)%Z (y + h)%Z width height
       then mret (match crop_update_labels self l x y w h height width with Some l' => Some (x, y, w, h, l') | None => None end)
       else mret None) g = (Ok r, g') /\
    match r with Some p => crop_inside self l height width p | None => True end.
Proof.
  intros Hht Hwd min_area max_area.
  destruct (fle min_area _ && fle _ max_area && (0 <=? w)%Z && (w <=? width)%Z && (0 <=? h)%Z && (h <=? height)%Z) eqn:Ec; cbn [negb]; [|by eexists _, _].
  rewrite !andb_true_iff in Ec. destruct Ec as [[[[[Ha%fle_spec Hb%fle_spec] Hw0%Z.leb_le] Hw1%Z.leb_le] Hh0%Z.leb_le] Hh1%Z.leb_le].
  destruct (randint_range 0 (Z.max 0 (height - h)) g ltac:(lia)) as (y & g1 & E1 & Hy). rewrite (bind_run _ _ _ _ _ E1).
  destruct (randint_range 0 (Z.max 0 (width - w)) g1 ltac:(lia)) as (x & g2 & E2 & Hx). rewrite (bind_run _ _ _ _ _ E2).
  destruct (_check_satisfy_constraints _ _ _ _ _ _ _ _) eqn:Es; [|by eexists _, _]. apply constraints_size in Es.
  eexists _, _. split; [reflexivity|].
  destruct (crop_update_labels _ _ _ _ _ _ _ _) as [l'|] eqn:El; [|done]. split; [nia|]. split; [by det_R|]. by eapply crop_labels_ok.
Qed.

Lemma crop_attempt_ok self (l : list box) height width g : (0 < height)%Z -> (0 < width)%Z ->
  0 <= fst (area_range self) <= snd (area_range self) -> fst (aspect_ratio_range self) <= snd (aspect_ratio_range self) ->
  exists r g', crop_attempt uniform randint self l height width g = (Ok r, g') /\ match r with Some p => crop_inside self l height width p | None => True end.
Proof.
  intros Hht Hwd Har Hrr. unfold crop_attempt. destruct (uniform_range _ _ g Hrr) as (ratio & g1 & E1 & _). rewrite (bind_run _ _ _ _ _ E1). clear E1.
  destruct (fle ratio _) eqn:Er; [by eexists _, _|]. apply fle_false in Er. det_R.
  assert (0 < IZR height * IZR width) as Hp by (apply IZR_lt in Hht, Hwd; nra).
  rewrite !py_sqrt_ok, bind_lift, bind_lift by (apply Rmult_le_pos; [nra|left; by apply Rinv_0_lt_compat]).
  set (h0 := Rround (sqrt (fst (area_range self) * IZR height * IZR width / ratio))).
  set (m0 := Rround (sqrt (snd (area_range self) * IZR height * IZR width / ratio))).
  set (m1 := if (width <? Rround (IZR m0 * ratio))%Z then trunc ((IZR width + 4999999 / 10000000) / ratio) else m0). set (m2 := if (height <? m1)%Z then height else m1).
  assert (0 <= h0)%Z as Hh0 by (apply Rround_nonneg, sqrt_pos). assert (0 <= m0)%Z as Hm0 by (apply Rround_nonneg, sqrt_pos).
  assert (0 <= m1)%Z as Hm1.
  { unfold m1. destruct (width <? _)%Z; [|done]. apply trunc_nonneg. apply IZR_lt in Hwd. apply Rmult_le_pos; [lra|left; by apply Rinv_0_lt_compat]. }
  assert (0 <= m2)%Z as Hm2 by (unfold m2; destruct (height <? m1)%Z; lia).
  set (h1 := if (m2 <? h0)%Z then m2 else h0). assert (0 <= h1 <= m2)%Z as Hh1 by (unfold h1; destruct (Z.ltb_spec m2 h0); lia).
  assert (exists h g2, (if (h1 <? m2)%Z then randint h1 m2 else mret h1) g1 = (Ok h, g2) /\ (0 <= h <= m2)%Z) as (h & g2 & E2 & Hh).
  { destruct (Z.ltb_spec h1 m2) as [Hl|Hl]; [|eexists _, _; split; [reflexivity|lia]].
    destruct (randint_range h1 m2 g1 ltac:(lia)) as (k & g2 & E2 & Hk). exists k, g2. split; [done|lia]. }
  rewrite (bind_run _ _ _ _ _ E2). clear E2.
  assert (Rround (IZR h * ratio) <= width)%Z as Hw by (apply (width_fits ratio h m0 width height); [done|lia|lia|exact (proj2 Hh)]).
  rewrite bind_massert by (by apply Z.leb_le). cbv zeta.
  repeat match goal with |- context [let '(_, _) := ?t in _] => destruct t as [? ?] end.
  by apply crop_place.
Qed.

Lemma attempts_ok {A} (P : A -> Prop) (m : M G (option A)) n :
  (forall g, exists r g', m g = (Ok r, g') /\ match r with Some a => P a | None => True end) ->
  forall g, exists r g', attempts n m g = (Ok r, g') /\ match r with Some a => P a | None => True end.
Proof.
  intros Hm. induction n as [|n IH]; intros g; cbn [attempts]; [by eexists _, _|].
  destruct (Hm g) as ([a|] & g1 & E & Ha); rewrite (bind_run _ _ _ _ _ E); [by eexists _, _|apply IH].
Qed.

(** The settings of a crop and of a padding that are not disabled. *)
Definition crop_ok (self : crop_attrs) : Prop :=
  crop_enabled self = true -> 0 <= fst (area_range self) <= snd (area_range self) /\ fst (aspect_ratio_range self) <= snd (aspect_ratio_range self).
Definition pad_ok (self : pad_attrs) : Prop :=
  pad_enabled self = true -> 0 <= fst (pad_area_range self) <= snd (pad_area_range self) /\ fst (pad_ratio_range self) <= snd (pad_ratio_range self).

Lemma crop_proposal_ok self (l : list box) height width g : crop_ok self ->
  exists r g', _random_crop_proposal uniform randint self l height width g = (Ok r, g') /\ match r with Some p => crop_inside self l height width p | None => True end.
Proof.
  intros Hok. unfold _random_crop_proposal. destruct (crop_enabled self) eqn:Ee; [|by eexists _, _]. destruct (Hok Ee) as [Ha Hr]. cbn [negb orb].
  destruct (Z.leb_spec height 0); [by eexists _, _|]. destruct (Z.leb_spec width 0); [by eexists _, _|]. cbn [orb].
  apply attempts_ok. intros g'. by apply crop_attempt_ok.
Qed.

Lemma pad_attempt_ok self (l : list box) height width g : (0 < height)%Z -> (0 < width)%Z ->
  0 <= fst (pad_area_range self) <= snd (pad_area_range self) -> fst (pad_ratio_range self) <= snd (pad_ratio_range self) ->
  exists r g', pad_attempt uniform randint self l height width g = (Ok r, g') /\ match r with Some p => pad_outside l height width p | None => True end.
Proof.
  intros Hht Hwd Har Hrr. unfold pad_attempt. destruct (uniform_range _ _ g Hrr) as (ratio & g1 & E1 & _). rewrite (bind_run _ _ _ _ _ E1). clear E1.
  destruct (fle ratio _) eqn:Er; [by eexists _, _|]. apply fle_false in Er. det_R.
  assert (0 < IZR height * IZR width) as Hp by (apply IZR_lt in Hht, Hwd; nra).
  rewrite !py_sqrt_ok, bind_lift, bind_lift by (apply Rmult_le_pos; [nra|left; by apply Rinv_0_lt_compat]). cbv zeta.
  match goal with |- context [(if (?a <? ?b)%Z then randint ?a ?b else mret ?a) ≫= _] => set (h1 := a); set (m := b) end.
  assert (exists h g2, (if (h1 <? m)%Z then randint h1 m else mret h1) g1 = (Ok h, g2)) as (h & g2 & E2).
  { destruct (Z.ltb_spec h1 m); [|by eexists _, _]. destruct (randint_range h1 m g1 ltac:(lia)) as (k & g2 & E2 & _). eauto. }
  rewrite (bind_run _ _ _ _ _ E2). clear E2. set (w := Rround _).
  destruct (Z.ltb_spec (h - height) 2); [by eexists _, _|]. destruct (Z.ltb_spec (w - width) 2); [by eexists _, _|]. cbn [orb].
  destruct (randint_range 0 (Z.max 0 (h - height)) g2 ltac:(lia)) as (y & g3 & E3 & Hy). rewrite (bind_run _ _ _ _ _ E3).
  destruct (randint_range 0 (Z.max 0 (w - width)) g3 ltac:(lia)) as (x & g4 & E4 & Hx). rewrite (bind_run _ _ _ _ _ E4).
  eexists _, _. split; [reflexivity|]. split; [lia|done].
Qed.
Lemma pad_proposal_ok self (l : list box) height width g : pad_ok self ->
  exists r g', _random_pad_proposal uniform randint self l height width g = (Ok r, g') /\
    match r with Some p => pad_outside l height width p /\ (0 < height)%Z /\ (0 < width)%Z | None => True end.
Proof.
  intros Hok. unfold _random_pad_proposal. destruct (pad_enabled self) eqn:Ee; [|by eexists _, _]. destruct (Hok Ee) as [Ha Hr]. cbn [negb orb].
  destruct (Z.leb_spec height 0); [by eexists _, _|]. destruct (Z.leb_spec width 0); [by eexists _, _|]. cbn [orb].
  apply (attempts_ok (fun p => pad_outside l height width p /\ (0 < height)%Z /\ (0 < width)%Z)). intros g'.
  destruct (pad_attempt_ok self l height width g') as (r & g2 & E & Hr2); [done..|]. exists r, g2. split; [done|]. by destruct r.
Qed.

(** ** Augmenters *)

Context {I : Type} (im_size : I -> Z * Z) (im_crop im_pad : I -> Z -> Z -> Z -> Z -> result I) (im_flip : I -> I).
Context (shuffle : forall A, list A -> M G (list A)).
(** Cropping works for a part of an image that is not empty, and padding with margins that are not negative. *)
Hypothesis crop_works : forall src x y w h,
  (0 <= x /\ 0 <= y /\ 0 < w /\ 0 < h /\ x + w <= snd (im_size src) /\ y + h <= fst (im_size src))%Z -> exists src', im_crop src x y w h = Ok src'.
Hypothesis pad_works : forall src top bot left right, (0 <= top /\ 0 <= bot /\ 0 <= left /\ 0 <= right)%Z -> exists src', im_pad src top bot left right = Ok src'.
Hypothesis shuffle_perm : forall A (l : list A) g, exists l' g', shuffle A l g = (Ok l', g') /\ l' ≡ₚ l.

(** An augmenter whose parts work, with choices nested at most [n] deep. *)
Fixpoint aug_fits (n : nat) (a : det_aug (F := R) (G := G) (I := I)) : Prop :=
  match n with
  | O => False
  | S n =>
      match a with
      | DetBorrowAug f => forall src g, exists src' g', f src g = (Ok src', g')
      | DetRandomSelectAug tuple l skip => Forall (aug_fits n) l /\ (l = [] -> 1 <= skip) /\ (tuple = true -> (length l < 2)%nat)
      | DetHorizontalFlipAug _ => True
      | CropAug c => crop_ok c
      | PadAug p => pad_ok p
      end
  end.
Definition good_label (k : nat) (l : list box) : Prop := l <> [] /\ Forall valid_box l /\ (length l <= k)%nat.

Lemma flip_good k l : good_label k l -> good_label k (_flip_label l).
Proof.
  intros (Hn & Hv & Hk). unfold good_label, _flip_label. rewrite length_map. split_and!; [by destruct l| |done].
  apply Forall_fmap. eapply Forall_impl; [exact Hv|]. apply flip_valid.
Qed.
Lemma pad_good k l height width x y w h l' : good_label k l -> pad_outside l height width (x, y, w, h, l') -> (0 < height)%Z -> (0 < width)%Z -> good_label k l'.
Proof.
  intros (Hn & Hv & Hk) [Hp ->] Hht Hwd. unfold good_label, pad_update_labels. rewrite length_map. split_and!; [by destruct l| |done].
  apply Forall_fmap. eapply Forall_impl; [exact Hv|]. intros b Hb. apply pad_valid; (done || lia).
Qed.

Notation run := (aug_call uniform randint random im_size im_crop im_pad im_flip shuffle).
Lemma aug_call_good n : forall a src l k g, aug_fits n a -> good_label k l ->
  exists a' src' l' g', run n a src l g = (Ok (a', src', l'), g') /\ aug_fits n a' /\ good_label k l'.
Proof.
  induction n as [|n IH]; intros a src l k g Ha Hl; [done|]. destruct a as [f|tuple al skip|p|c|p]; cbn [aug_call].
  - destruct (Ha src g) as (src' & g' & E). rewrite (bind_run _ _ _ _ _ E). eexists _, _, _, _. split; [reflexivity|]. done.
  - destruct (random_range g) as (r & g1 & E & Hr). rewrite (bind_run _ _ _ _ _ E). clear E. destruct (fltb r skip) eqn:Es; [by eexists _, _, _, _|].
    apply fltb_false in Es. destruct Ha as (Hal & Hne & Htup).
    assert (shuffle_augs shuffle tuple al = shuffle _ al) as Esh.
    { unfold shuffle_augs. destruct tuple; [|done]. by rewrite (proj2 (Nat.leb_gt _ _) (Htup eq_refl)). }
    destruct (shuffle_perm _ al g1) as (al' & g2 & E & Hp). rewrite <- Esh in E. rewrite (bind_run _ _ _ _ _ E). clear E Esh.
    assert (Forall (aug_fits n) al') as Hal' by (by rewrite Hp). destruct al' as [|b rest].
    { apply Permutation_nil in Hp as ->. specialize (Hne eq_refl). lra. }
    apply Forall_cons in Hal' as [Hb Hrest]. destruct (IH b src l k g2 Hb Hl) as (b' & src' & l' & g' & E & Hb' & Hl').
    rewrite (bind_run _ _ _ _ _ E). eexists _, _, _, _. split; [reflexivity|]. split; [|done].
    split; [by constructor|]. split; [done|]. intros Ht. rewrite <- (Permutation_length Hp) in Htup. by apply Htup.
  - destruct (random_range g) as (r & g1 & E & Hr). rewrite (bind_run _ _ _ _ _ E). clear E.
    destruct (fltb r p); eexists _, _, _, _; (split; [reflexivity|]); split; [done|by apply flip_good|done|done].
  - destruct (im_size src) as [height width] eqn:Esz. destruct (crop_proposal_ok c l height width g Ha) as (r & g1 & E & Hr). rewrite (bind_run _ _ _ _ _ E). clear E.
    destruct r as [[[[[x y] w] h] l']|]; [|by eexists _, _, _, _]. destruct Hr as (Hin & _ & Hn & Hv & Hlen).
    destruct (crop_works src x y w h) as [src' E]; [rewrite Esz; cbn; lia|]. rewrite E, bind_lift. eexists _, _, _, _. split; [reflexivity|].
    split; [done|]. split_and!; [done|done|]. destruct Hl as (_ & _ & ?). lia.
  - destruct (im_size src) as [height width] eqn:Esz. destruct (pad_proposal_ok p l height width g Ha) as (r & g1 & E & Hr). rewrite (bind_run _ _ _ _ _ E). clear E.
    destruct r as [[[[[x y] w] h] l']|]; [|by eexists _, _, _, _]. destruct Hr as (Hout & Hht & Hwd). pose proof Hout as [Hin _].
    destruct (pad_works src y (h - y - height) x (w - x - width)) as [src' E]; [lia|]. rewrite E, bind_lift. eexists _, _, _, _. split; [reflexivity|].
    split; [done|]. by eapply pad_good.
Qed.

(** C35: in exact arithmetic, a list of augmenters (borrowed ones, flips, crops, paddings and random choices of such,
    nested at most as deep as the calls go) succeeds when its settings make sense ([aug_fits]): the areas of an enabled crop or
    padding are an interval that starts at 0 or above and the aspect ratios an interval, a random choice is made from a list
    (or from a tuple of at most one augmenter) and skips when it is empty, and borrowed augmenters succeed.  Then no
    assertion fails, every crop is a part of its image that is not empty, and a label whose boxes lie inside the image with
    an extent is turned into such a label, with at least one box and no more boxes than before. *)
Theorem augmented_labels_valid n augs src (l : list box) g : Forall (aug_fits n) augs -> l <> [] -> Forall valid_box l ->
  exists augs' src' l' g',
    augmentation_transform uniform randint random im_size im_crop im_pad im_flip shuffle n augs src l g = (Ok (augs', src', l'), g') /\
    Forall (aug_fits n) augs' /\ l' <> [] /\ Forall valid_box l' /\ (length l' <= length l)%nat.
Proof.
  intros Ha Hn Hv. assert (good_label (length l) l) as Hl by done. revert Hl. generalize (length l). clear Hn Hv. intros k. revert src l g.
  induction Ha as [|a augs Ha _ IH]; intros src l g Hl; cbn [augmentation_transform]; [by eexists _, _, _, _|].
  destruct (aug_call_good n a src l k g Ha Hl) as (a' & src1 & l1 & g1 & E & Ha' & Hl1). rewrite (bind_run _ _ _ _ _ E). clear E.
  destruct (IH src1 l1 g1 Hl1) as (augs' & src2 & l2 & g2 & E & Hs & H2). rewrite (bind_run _ _ _ _ _ E). eexists _, _, _, _. split; [reflexivity|].
  split; [by constructor|done].
Qed.
End Augment.

(** The area of a valid box, and of the box after padding. *)
Lemma valid_area b : valid_box b -> box_area b = (b_y2 b - b_y1 b) * (b_x2 b - b_x1 b).
Proof. intros Hb. unfold valid_box in Hb. unfold box_area, area, fmaximum. det_R. rewrite !(proj2 (fltb_spec _ _)) by lra. done. Qed.
Lemma pad_area x y w h height width b : (0 < w)%Z -> (0 < h)%Z -> valid_box b -> valid_box (pad_box x y w h height width b) ->
  box_area (pad_box x y w h height width b) = box_area b * (IZR width / IZR w) * (IZR height / IZR h).
Proof.
  intros Hw Hh Hb Hp. rewrite !valid_area by done. unfold pad_box, set_corners. det_R. cbn [b_x1 b_x2 b_y1 b_y2]. apply IZR_lt in Hw, Hh. field. lra.
Qed.

Lemma pad_crop_keeps x y w h height width b mec : (0 <= x)%Z -> (0 <= y)%Z -> (0 < width)%Z -> (0 < height)%Z ->
  (x + width <= w)%Z -> (y + height <= h)%Z -> valid_box b -> mec < 1 ->
  crop_keeps mec (fofz width / fofz w)%F (fofz height / fofz h)%F (pad_box x y w h height width b) b = true.
Proof.
  intros Hx Hy Hwd Hht Hw Hh Hb Hm. assert (valid_box (pad_box x y w h height width b)) as Hp by (by apply pad_valid).
  unfold crop_keeps. rewrite pad_area by (lia || done). pose proof Hb as (H1 & H2 & H3 & H4). rewrite !andb_true_iff. split; [split; apply fltb_spec; lra|].
  apply fltb_spec. det_R. assert (0 < box_area b) as Ha by (rewrite valid_area by done; nra).
  assert (0 < IZR w /\ 0 < IZR h /\ 0 < IZR width /\ 0 < IZR height) as (I1 & I2 & I3 & I4) by (split_and!; apply IZR_lt; lia).
  match goal with |- _ < ?t => replace t with 1; [done|] end. field. split_and!; lra.
Qed.

(** Padding is undone by cropping: the boxes of a padded image, cropped to where the original lies, are those of the
    original. *)
Theorem pad_then_crop x y w h height width (l : list box) self : (0 <= x)%Z -> (0 <= y)%Z -> (0 < width)%Z -> (0 < height)%Z ->
  (x + width <= w)%Z -> (y + height <= h)%Z -> l <> [] -> Forall valid_box l -> min_eject_coverage self < 1 ->
  crop_update_labels self (pad_update_labels l x y w h height width) x y width height h w = Some l.
Proof.
  intros Hx Hy Hwd Hht Hw Hh Hn Hv Hm. unfold crop_update_labels, pad_update_labels.
  match goal with |- match ?t with _ => _ end = _ => assert (t = l) as ->; [|by destruct l] end.
  clear Hn. induction Hv as [|b l Hb Hv IH]; [done|]. cbn [map omap list_omap]. rewrite pad_crop_back, pad_crop_keeps by done. by f_equal.
Qed.

(** ** Concrete generators and images *)

(** A generator that always draws the lower end. *)
Definition low_uniform : R -> R -> M unit R := fun a b g => (Ok a, g).
Definition low_randint : Z -> Z -> M unit Z := fun a b g => (Ok a, g).
Definition low_random : M unit R := fun g => (Ok 0, g).
Lemma low_uniform_range a b g : a <= b -> exists x g', low_uniform a b g = (Ok x, g') /\ a <= x <= b.
Proof. intros Hab. exists a, g. split; [done|lra]. Qed.
Lemma low_randint_range a b g : (a <= b)%Z -> exists k g', low_randint a b g = (Ok k, g') /\ (a <= k <= b)%Z.
Proof. intros Hab. exists a, g. split; [done|lia]. Qed.
Lemma low_random_range g : exists x g', low_random g = (Ok x, g') /\ 0 <= x < 1.
Proof. exists 0, g. split; [done|lra]. Qed.

(** Images as their sizes. *)
Definition size_crop (i : Z * Z) (x y w h : Z) : result (Z * Z) := Ok (h, w).
Definition size_pad (i : Z * Z) (top bot left right : Z) : result (Z * Z) := Ok (fst i + top + bot, snd i + left + right)%Z.
Definition unit_box : box := mkBox 0 0 0 1 1 [].
Lemma unit_box_valid : valid_box unit_box.
Proof. unfold valid_box. cbn. lra. Qed.
Definition some_crop : crop_attrs (F := R) := mkCropAug (1 / 10) (1 / 10) 50 (1, 1) (1 / 2, 1) true.
Definition some_pad : pad_attrs (F := R) := mkPadAug (1, 1) (1, 3) 50 true.

Lemma augmented_labels_valid_witness : exists augs' src' l' g',
  augmentation_transform low_uniform low_randint low_random (fun i => i) size_crop size_pad (fun i => i) (fun A l g => (Ok (rev l), g)) 2
    [DetHorizontalFlipAug (1 / 2); DetRandomSelectAug false [CropAug some_crop; PadAug some_pad] 0] (4, 6)%Z [unit_box] tt = (Ok (augs', src', l'), g') /\
  Forall (aug_fits 2) augs' /\ l' <> [] /\ Forall valid_box l' /\ (length l' <= 1)%nat.
Proof.
  apply (augmented_labels_valid low_uniform low_randint low_random low_uniform_range low_randint_range low_random_range
    (fun i => i) size_crop size_pad (fun i => i) (fun A l g => (Ok (rev l), g))
    (fun src x y w h _ => ex_intro _ (h, w) eq_refl) (fun src a b c d _ => ex_intro _ _ eq_refl)
    (fun A l g => ex_intro _ (rev l) (ex_intro _ g (conj eq_refl (Permutation_sym (Permutation_rev l)))))
    2 [DetHorizontalFlipAug (1 / 2); DetRandomSelectAug false [CropAug some_crop; PadAug some_pad] 0] (4, 6)%Z [unit_box] tt).
  - repeat constructor; cbn; try lra; done.
  - done.
  - constructor; [exact unit_box_valid|constructor].
Defined.

Lemma pad_then_crop_witness :
  crop_update_labels some_crop (pad_update_labels [unit_box] 1 2 10 12 4 6) 1 2 6 4 12 10 = Some [unit_box].
Proof.
  apply (pad_then_crop 1 2 10 12 4 6 [unit_box] some_crop); try lia; try done.
  - constructor; [exact unit_box_valid|constructor].
  - cbn. lra.
Defined.

(** A choice from a tuple of two augmenters fails when it does not skip. *)
Example tuple_not_shuffled :
  (aug_call low_uniform low_randint low_random (fun i => i) size_crop size_pad (fun i => i) (fun A l g => (Ok (rev l), g)) 2
    (new_select true [DetHorizontalFlipAug (1 / 2); DetHorizontalFlipAug 0] 0) (4, 6)%Z [unit_box] tt).1 = Raise TypeError.
Proof. cbn [new_select aug_call]. rewrite bind_M. cbn [low_random]. rewrite (proj2 (fltb_false _ _)) by (det_R; lra). done. Qed.

(** A label whose only box has a positive width and a negative height passes [_check_valid_label]. *)
Example negative_height_accepted : _check_valid_label [mkBox 0 0 1 1 0 [] : box] = Ok tt.
Proof.
  unfold _check_valid_label. cbn [filter list_filter b_id b_x1 b_x2]. rewrite (proj2 (fle_spec _ _)), (proj2 (fltb_spec _ _)) by (det_R; lra). done.
Qed.
