(* ===== verification/Image.v ===== *)
(** * Images: regions of crops, and the image iterator

    [image/image.py]: the sizes and positions that [scale_down], [resize_short],
    [random_crop], [center_crop] and [random_size_crop] compute, and [ImageIter]: the partition
    of the samples, reading them in order or from a record file, skipping invalid images,
    batches, and the three ways to handle the last batch.  Decoding and augmenting an image
    are parameters, as are random numbers.  [ImageDetIter] has the same methods with labels
    prepared as in [Detection]. *)

From S2P Require Import Prelude NDArray Array LRScheduler Optimizer SGD Detection.
Open Scope Z_scope.

(** ** Sizes and positions *)

Section Crops.
Context {F : Type} `{Float F} `{FloatMath F} `{RoundMath F}.
Context {G : Type} (uniform : F -> F -> M G F) (randint : Z -> Z -> M G Z) (random : M G F).
Local Open Scope float_scope.

Definition scale_down (src_size size : Z * Z) : Z * Z :=
  let '(w, h) := size in
  let '(sw, sh) := src_size in
  let '(w, h) := if (sh <? h)%Z then (fof (w * sh)%Z / fof h, fof sh) else (fof w, fof h) in
  let '(w, h) := if fltb (fof sw) w then (fof sw, h * fof sw / w) else (w, h) in
  (ftrunc w, ftrunc h).

Definition _get_interp_method (interp : Z) (sizes : option (Z * Z * Z * Z)) : M G Z :=
  if (interp =? 9)%Z then
    match sizes with
    | Some (oh, ow, nh, nw) =>
        mret (if ((oh <? nh) && (ow <? nw))%Z then 2%Z else if ((nh <? oh) && (nw <? ow))%Z then 3%Z else 1%Z)
    | None => mret 2%Z
    end
  else if (interp =? 10)%Z then randint 0%Z 4%Z
  else if ((interp <? 0) || (4 <? interp))%Z then raise ValueError
  else mret interp.

(** The size of [resize_short], as height and width. *)
Definition resize_short (h w size : Z) : result (Z * Z) :=
  if (w <? h)%Z then x ← py_floordiv (size * h) w; Ok (x, size) else x ← py_floordiv (size * w) h; Ok (size, x).

(** The region (x, y, width, height) that is cropped. *)
Definition random_crop (h w : Z) (size : Z * Z) : M G (Z * Z * Z * Z) :=
  let '(new_w, new_h) := scale_down (w, h) size in
  x0 ← randint 0%Z (w - new_w)%Z;
  y0 ← randint 0%Z (h - new_h)%Z;
  mret (x0, y0, new_w, new_h).
Definition center_crop (h w : Z) (size : Z * Z) : Z * Z * Z * Z :=
  let '(new_w, new_h) := scale_down (w, h) size in
  (Z.quot (w - new_w) 2, Z.quot (h - new_h) 2, new_w, new_h).

Definition size_attempt (h w : Z) (area ratio : F * F) : M G (option (Z * Z * Z * Z)) :=
  u ← uniform (fst area) (snd area);
  let target_area := u * fof (h * w)%Z in
  new_ratio ← uniform (fst ratio) (snd ratio);
  let new_w := fround (fsqrt (target_area * new_ratio)) in
  let new_h := fround (fsqrt (target_area / new_ratio)) in
  r ← random;
  let '(new_h, new_w) := if fltb r (1 / fof 2) then (new_w, new_h) else (new_h, new_w) in
  if ((new_w <=? w) && (new_h <=? h))%Z then
    x0 ← randint 0%Z (w - new_w)%Z;
    y0 ← randint 0%Z (h - new_h)%Z;
    mret (Some (x0, y0, new_w, new_h))
  else mret None.
Definition random_size_crop (h w : Z) (size : Z * Z) (area ratio : F * F) : M G (Z * Z * Z * Z) :=
  r ← attempts 10 (size_attempt h w area ratio);
  mret (match r with Some p => p | None => center_crop h w size end).
End Crops.

(** ** The iterator *)

Section ImageIter.
(** Keys, what is read for a key, samples (an image and its label, ready for the batch), and
    the random generator. *)
Context {K raw S G : Type}.
Context (fetch : K -> result raw).
(** [imdecode], [check_valid_image], the augmenters and [postprocess_data]; [None] for an image
    that is skipped. *)
Context (prepare : raw -> M G (option S)).
Context (shuffle_seq : list K -> M G (list K)).
(** The records of a file that is read without an index. *)
Context (records : list raw).

Record image_iter := mkIter {
  ii_batch_size : nat;
  ii_handle : string;
  ii_shuffle : bool;
  ii_has_rec : bool;
  ii_seq : option (list K);
  ii_cur : nat;
  ii_pos : nat;
  ii_allow_read : bool;
  ii_cache : option (list (option S) * nat);
}.
Notation st := (image_iter * G)%type.

Definition ii_place (cur pos : nat) (allow : bool) (s : image_iter) : image_iter :=
  mkIter (ii_batch_size s) (ii_handle s) (ii_shuffle s) (ii_has_rec s) (ii_seq s) cur pos allow (ii_cache s).
Definition ii_set_seq (seq : option (list K)) (s : image_iter) : image_iter :=
  mkIter (ii_batch_size s) (ii_handle s) (ii_shuffle s) (ii_has_rec s) seq (ii_cur s) (ii_pos s) (ii_allow_read s) (ii_cache s).
Definition ii_set_cache (c : option (list (option S) * nat)) (s : image_iter) : image_iter :=
  mkIter (ii_batch_size s) (ii_handle s) (ii_shuffle s) (ii_has_rec s) (ii_seq s) (ii_cur s) (ii_pos s) (ii_allow_read s) c.

Definition on_gen {A} (m : M G A) : M st A := fun s => let '(r, g) := m s.2 in (r, (s.1, g)).
Definition on_iter (f : image_iter -> image_iter) : M st unit := modify (fun s => (f s.1, s.2)).

(** The part of the keys for one of several workers. *)
Definition part_of (seq : list K) (part_index num_parts : Z) : result (list K) :=
  if 1 <? num_parts then
    _ ← py_assert (part_index <? num_parts);
    let c := py_len seq / num_parts in
    Ok (py_slice seq (part_index * c) ((part_index + 1) * c))
  else Ok seq.

(** [random.shuffle(self.seq)] at every reset. *)
Definition reshuffle : M st unit :=
  s ← get;
  match ii_seq s.1 with
  | Some l => if ii_shuffle s.1 then l ← on_gen (shuffle_seq l); on_iter (ii_set_seq (Some l)) else mret tt
  | None => mret tt
  end.
Definition record_rewind (s : image_iter) : nat := if ii_has_rec s then 0%nat else ii_pos s.

Definition image_reset : M st unit :=
  _ ← reshuffle;
  s ← get;
  if negb (str_eqb (ii_handle s.1) "roll_over") || bool_decide (ii_cache s.1 = None)
  then on_iter (fun i => ii_place 0 (record_rewind i) true i)
  else mret tt.
Definition hard_reset : M st unit :=
  _ ← reshuffle;
  on_iter (fun i => ii_set_cache None (ii_place 0 (record_rewind i) true i)).

(** [__init__], after the keys have been listed ([imgkeys], or the keys of the index). *)
Definition ImageIter_new (batch_size : nat) (handle : string) (shuffle has_rec : bool) (keys : option (list K))
    (part_index num_parts : Z) (g : G) : result unit * st :=
  let make seq := mkIter batch_size handle shuffle has_rec seq 0 0 true None in
  match keys with
  | Some l =>
      match part_of l part_index num_parts with
      | Ok l => image_reset (make (Some l), g)
      | Raise e => (Raise e, (make None, g))
      end
  | None => if shuffle || (1 <? num_parts) then (Raise AssertionError, (make None, g)) else image_reset (make None, g)
  end.

Definition next_sample : M st raw :=
  s ← get;
  if negb (ii_allow_read s.1) then raise StopIteration
  else
    let discard := str_eqb (ii_handle s.1) "discard" in
    match ii_seq s.1 with
    | Some seq =>
        match seq !! ii_cur s.1 with
        | Some idx => _ ← on_iter (fun i => ii_place (Datatypes.S (ii_cur i)) (ii_pos i) (ii_allow_read i) i); lift (fetch idx)
        | None =>
            _ ← on_iter (fun i => if discard then i else ii_place 0 (ii_pos i) (ii_allow_read i) i);
            raise StopIteration
        end
    | None =>
        match records !! ii_pos s.1 with
        | Some r => _ ← on_iter (fun i => ii_place (ii_cur i) (Datatypes.S (ii_pos i)) (ii_allow_read i) i); mret r
        | None =>
            _ ← on_iter (fun i => if discard then i else ii_place (ii_cur i) 0 (ii_allow_read i) i);
            raise StopIteration
        end
    end.

(** [_batchify]: the loop, with the number of samples so far and the batch.  [None] in the
    result: out of fuel. *)
Notation batch := (list (option S)).
Fixpoint batch_loop (fuel : nat) (i : nat) (b : batch) : st -> option (result nat * batch * st) := fun s =>
  match fuel with
  | O => None
  | Datatypes.S fuel =>
      if (i <? ii_batch_size s.1)%nat then
        match next_sample s with
        | (Ok r, s) =>
            match on_gen (prepare r) s with
            | (Ok (Some x), s) => batch_loop fuel (Datatypes.S i) (<[i := Some x]> b) s
            | (Ok None, s) => batch_loop fuel i b s
            | (Raise StopIteration, s) => Some (if (i =? 0)%nat then Raise StopIteration else Ok i, b, s)
            | (Raise e, s) => Some (Raise e, b, s)
            end
        | (Raise StopIteration, s) => Some (if (i =? 0)%nat then Raise StopIteration else Ok i, b, s)
        | (Raise e, s) => Some (Raise e, b, s)
        end
      else Some (Ok i, b, s)
  end.
(** Enough for every sample that is left, and the end. *)
Definition loop_fuel (s : image_iter) : nat :=
  Datatypes.S (Datatypes.S (match ii_seq s with Some l => length l - ii_cur s | None => length records - ii_pos s end)).

(** [next]: a batch and its padding. *)
Definition next_batch : st -> option (result (batch * Z) * st) := fun s =>
  let b := ii_batch_size s.1 in
  let cached := ii_cache s.1 in
  match (match cached with
         | Some (buf, i) => Some (Ok i, buf, s)
         | None => batch_loop (loop_fuel s.1) 0 (replicate b None) s
         end) with
  | None => None
  | Some (Raise e, _, s) => Some (Raise e, s)
  | Some (Ok i, buf, s) =>
      let pad := Z.of_nat b - Z.of_nat i in
      if pad =? 0 then Some (Ok (buf, pad), s)
      else if str_eqb (ii_handle s.1) "discard" then Some (Raise StopIteration, s)
      else if str_eqb (ii_handle s.1) "roll_over" && bool_decide (cached = None)
      then Some (Raise StopIteration, (ii_set_cache (Some (buf, i)) s.1, s.2))
      else
        match batch_loop (loop_fuel s.1) i buf s with
        | None => None
        | Some (Raise e, buf, s) => Some (Raise e, (match cached with Some (_, i) => ii_set_cache (Some (buf, i)) s.1 | None => s.1 end, s.2))
        | Some (Ok _, buf, s) =>
            let s1 := if str_eqb (ii_handle s.1) "pad" then ii_place (ii_cur s.1) (ii_pos s.1) false s.1 else ii_set_cache None s.1 in
            Some (Ok (buf, pad), (s1, s.2))
        end
  end.
End ImageIter.
