(* ===== verification/ImageFacts.v ===== *)
(** * Images: epochs of the iterator, and crops inside the image

    An epoch of [ImageIter] with padding delivers every valid image once, in order, in batches
    of the same size, the last one filled from the beginning; the parts of several workers
    are disjoint pieces of the keys; and the regions of all crops lie inside the image. *)

From Stdlib Require Import Reals Lra.
From S2P Require Import Prelude NDArray Array LRScheduler Optimizer SGD OptReal Metric MetricReal Detection DetectFacts Image.
Open Scope Z_scope.

Section Epochs.
Context {K raw S G : Type} (fetch : K -> result raw) (prepare : raw -> M G (option S)) (shuffle_seq : list K -> M G (list K)) (records : list raw).
(** Reading works, and preparing an image does not depend on the generator. *)
Context (value : K -> raw) (prep : raw -> option S).
Hypothesis fetch_value : forall k, fetch k = Ok (value k).
Hypothesis prepare_prep : forall r g, prepare r g = (Ok (prep r), g).
Notation st := (image_iter (K := K) (S := S) * G)%type.
Notation valid l := (omap (fun k => prep (value k)) l).
Notation loop := (batch_loop fetch prepare records).
Notation next := (next_batch fetch prepare records).

(** What a run of the loop reads: the samples, and the keys that are left unless the end was met. *)
Fixpoint take_valid (need : nat) (l : list K) : list S * option (list K) :=
  match need, l with
  | O, _ => ([], Some l)
  | Datatypes.S n, [] => ([], None)
  | Datatypes.S n, k :: l => match prep (value k) with Some x => let '(xs, r) := take_valid n l in (x :: xs, r) | None => take_valid (Datatypes.S n) l end
  end.

Lemma take_valid_spec l : forall need,
  (take_valid need l).1 = take need (valid l) /\
  match (take_valid need l).2 with
  | Some rest => valid rest = drop need (valid l) /\ (need <= length (valid l))%nat /\ (exists pre, l = pre ++ rest)
  | None => (length (valid l) < need)%nat
  end.
Proof.
  induction l as [|k l IH]; intros [|n]; cbn [take_valid].
  - split; [done|]. split_and!; [done|lia|by exists []].
  - split; [done|]. cbn. lia.
  - split; [done|]. split_and!; [done|lia|by exists []].
  - cbn [omap list_omap]. destruct (prep (value k)) as [x|].
    + specialize (IH n). destruct (take_valid n l) as [xs r]. cbn [fst snd] in *. destruct IH as [-> Hr]. split; [done|].
      destruct r as [rest|]; [|cbn; lia]. destruct Hr as (Hv & Hn & pre & ->). split_and!; [done|cbn; lia|by exists (k :: pre)].
    + specialize (IH (Datatypes.S n)). destruct IH as [E Hr]. split; [done|]. destruct (take_valid (Datatypes.S n) l).2; [|done].
      destruct Hr as (Hv & Hn & pre & ->). split_and!; [done|done|by exists (k :: pre)].
Qed.

Definition fill_from (i : nat) (xs : list S) (buf : list (option S)) : list (option S) := take i buf ++ map Some xs ++ drop (i + length xs) buf.
Lemma fill_from_cons i x xs buf : (i < length buf)%nat -> fill_from (Datatypes.S i) xs (<[i := Some x]> buf) = fill_from i (x :: xs) buf.
Proof.
  intros Hi. unfold fill_from. rewrite (take_S_r _ i (Some x)) by (by apply list_lookup_insert_eq). rewrite take_insert_ge by lia. rewrite <- app_assoc. cbn.
  do 2 f_equal. f_equal. rewrite drop_insert_lt by lia. f_equal. lia.
Qed.

(** The state at a place of the keys. *)
Definition at_keys (seq l : list K) (s : st) : Prop :=
  ii_seq s.1 = Some seq /\ ii_allow_read s.1 = true /\ exists pre, seq = pre ++ l /\ ii_cur s.1 = length pre.

Lemma sample_here seq k l s : at_keys seq (k :: l) s ->
  next_sample fetch records s = (Ok (value k), (ii_place (Datatypes.S (ii_cur s.1)) (ii_pos s.1) (ii_allow_read s.1) s.1, s.2)) /\
  at_keys seq l (ii_place (Datatypes.S (ii_cur s.1)) (ii_pos s.1) (ii_allow_read s.1) s.1, s.2).
Proof.
  intros (Hs & Ha & pre & -> & Hc). split.
  - unfold next_sample. rewrite bind_get, Ha. cbn [negb]. rewrite Hs, Hc, list_lookup_middle by done. unfold on_iter. rewrite bind_modify, fetch_value. cbn [fst snd]. by rewrite Hc, Ha.
  - split; [done|]. split; [done|]. exists (pre ++ [k]). rewrite <- app_assoc. split; [done|]. cbn. rewrite length_app. cbn. lia.
Qed.
Lemma sample_end seq s : at_keys seq [] s -> str_eqb (ii_handle s.1) "discard" = false ->
  next_sample fetch records s = (Raise StopIteration, (ii_place 0 (ii_pos s.1) (ii_allow_read s.1) s.1, s.2)) /\
  at_keys seq seq (ii_place 0 (ii_pos s.1) (ii_allow_read s.1) s.1, s.2).
Proof.
  intros (Hs & Ha & pre & -> & Hc) Hd. split.
  - unfold next_sample. rewrite bind_get, Ha. cbn [negb]. rewrite Hs, Hc, Hd, lookup_ge_None_2 by (rewrite app_nil_r; lia). unfold on_iter. rewrite bind_modify. cbn [fst snd]. by rewrite Ha.
  - split; [done|]. split; [done|]. by exists [].
Qed.

(** Only the place changes. *)
Definition moved (s s' : st) : Prop := exists cur, s' = (ii_place cur (ii_pos s.1) (ii_allow_read s.1) s.1, s.2).
Lemma moved_to cur s : moved s (ii_place cur (ii_pos s.1) (ii_allow_read s.1) s.1, s.2).
Proof. by exists cur. Qed.
Lemma moved_trans s1 s2 s3 : moved s1 s2 -> moved s2 s3 -> moved s1 s3.
Proof. intros [c ->] [d ->]. by exists d. Qed.
Lemma moved_refl s : moved s s.
Proof. exists (ii_cur s.1). by destruct s as [[] ?]. Qed.
Lemma moved_same s s' : moved s s' -> ii_batch_size s'.1 = ii_batch_size s.1 /\ ii_handle s'.1 = ii_handle s.1 /\ ii_cache s'.1 = ii_cache s.1 /\ ii_shuffle s'.1 = ii_shuffle s.1.
Proof. by intros [c ->]. Qed.
Local Hint Resolve moved_to moved_refl : core.

(** What a run of the loop ends with. *)
Definition loop_result (seq : list K) (i : nat) (buf : list (option S)) (xs : list S) (r : option (list K)) (s : st) (o : option (result nat * list (option S) * st)) : Prop :=
  exists s', moved s s' /\ at_keys seq (default seq r) s' /\
    o = Some (if bool_decide (r = None) && (i + length xs =? 0)%nat then Raise StopIteration else Ok (i + length xs)%nat, fill_from i xs buf, s').

Lemma batch_loop_reads seq l : forall fuel i buf s, at_keys seq l s -> str_eqb (ii_handle s.1) "discard" = false ->
  (i <= ii_batch_size s.1)%nat -> length buf = ii_batch_size s.1 -> (length l < fuel)%nat ->
  loop_result seq i buf (take_valid (ii_batch_size s.1 - i) l).1 (take_valid (ii_batch_size s.1 - i) l).2 s (loop fuel i buf s).
Proof.
  induction l as [|k l IH]; intros [|fuel] i buf s Hs Hd Hi Hb Hf; cbn [length] in Hf; try lia; cbn [batch_loop]; destruct (Nat.ltb_spec i (ii_batch_size s.1)) as [Hlt|Hge].
  - destruct (ii_batch_size s.1 - i)%nat eqn:E; [lia|]. cbn [take_valid fst snd]. destruct (sample_end _ _ Hs Hd) as [Es Hs']. rewrite Es.
    eexists. split; [apply moved_to|]. split; [exact Hs'|]. cbn [length]. rewrite Nat.add_0_r. unfold fill_from. cbn [length map app]. by rewrite Nat.add_0_r, take_drop.
  - replace (ii_batch_size s.1 - i)%nat with 0%nat by lia. cbn [take_valid fst snd]. exists s. split; [done|]. split; [done|]. cbn [length]. rewrite Nat.add_0_r, bool_decide_eq_false_2 by done.
    unfold fill_from. cbn [length map app]. by rewrite Nat.add_0_r, take_drop.
  - destruct (ii_batch_size s.1 - i)%nat as [|n] eqn:E; [lia|]. cbn [take_valid]. destruct (sample_here _ _ _ _ Hs) as [Es Hs']. rewrite Es. unfold on_gen. rewrite prepare_prep. cbn [fst snd].
    set (s1 := (ii_place _ _ _ _, _)) in *. destruct (prep (value k)) as [x|].
    + destruct (IH fuel (Datatypes.S i) (<[i := Some x]> buf) s1 Hs' Hd) as (s' & Hm & Hk & Ho); [cbn; lia|rewrite length_insert; done|lia|].
      assert (ii_batch_size s1.1 - Datatypes.S i = n)%nat as En by (cbn; lia). rewrite En in *. destruct (take_valid n l) as [xs r]. cbn [fst snd] in *.
      exists s'. split; [exact (moved_trans _ _ _ (moved_to _ _) Hm)|]. split; [done|]. rewrite Ho, fill_from_cons by lia. cbn [length]. by rewrite <- Nat.add_succ_comm.
    + destruct (IH fuel i buf s1 Hs' Hd) as (s' & Hm & Hk & Ho); [cbn; lia|done|lia|]. assert (ii_batch_size s1.1 - i = Datatypes.S n)%nat as En by (cbn; lia). rewrite En in *.
      exists s'. split; [exact (moved_trans _ _ _ (moved_to _ _) Hm)|]. by split.
  - replace (ii_batch_size s.1 - i)%nat with 0%nat by lia. cbn [take_valid fst snd]. exists s. split; [done|]. split; [done|]. cbn [length]. rewrite Nat.add_0_r, bool_decide_eq_false_2 by done.
    unfold fill_from. cbn [length map app]. by rewrite Nat.add_0_r, take_drop.
Qed.

Lemma fill_first b xs : (length xs <= b)%nat -> fill_from 0 xs (replicate b None) = map Some xs ++ replicate (b - length xs) None.
Proof. intros Hl. unfold fill_from. cbn [take Nat.add app]. by rewrite drop_replicate. Qed.
Lemma fill_second b xs ys : (length xs + length ys <= b)%nat ->
  fill_from (length xs) ys (map Some xs ++ replicate (b - length xs) None) = map Some xs ++ map Some ys ++ replicate (b - length xs - length ys) None.
Proof.
  intros Hl. unfold fill_from. rewrite take_app_length' by (by rewrite length_map). f_equal. f_equal.
  rewrite drop_app_ge by (rewrite length_map; lia). rewrite length_map, drop_replicate. f_equal. lia.
Qed.

Definition pads (s : st) : Prop := str_eqb (ii_handle s.1) "discard" = false /\ str_eqb (ii_handle s.1) "roll_over" = false /\ str_eqb (ii_handle s.1) "pad" = true.
Lemma moved_pads s s' : moved s s' -> pads s -> pads s'.
Proof. by intros [c ->]. Qed.
Lemma fuel_enough seq l s : at_keys seq l s -> (length l < loop_fuel records s.1)%nat.
Proof. intros (Hs & _ & pre & -> & Hc). unfold loop_fuel. rewrite Hs, Hc, length_app. lia. Qed.

(** The rows of the padded batch: the samples that are left, then those from the beginning. *)
Definition padded (b : nat) (xs all : list S) : list (option S) :=
  map Some xs ++ map Some (take (b - length xs) all) ++ replicate (b - length xs - length (take (b - length xs) all)) None.

Lemma image_next_full seq l s : at_keys seq l s -> pads s -> ii_cache s.1 = None -> (0 < ii_batch_size s.1 <= length (valid l))%nat ->
  exists s' l', next s = Some (Ok (map Some (take (ii_batch_size s.1) (valid l)), 0), s') /\ moved s s' /\ at_keys seq l' s' /\ valid l' = drop (ii_batch_size s.1) (valid l).
Proof.
  intros Hs (Hd & Hr & Hp) Hc [Hb Hl]. unfold next_batch. rewrite Hc.
  destruct (batch_loop_reads seq l (loop_fuel records s.1) 0 (replicate (ii_batch_size s.1) None) s Hs Hd) as (s' & Hm & Hk & ->); [lia|apply length_replicate|by eapply fuel_enough|].
  rewrite Nat.sub_0_r in *. destruct (take_valid_spec l (ii_batch_size s.1)) as [E1 E2]. destruct (take_valid _ l) as [xs r]. cbn [fst snd] in *. subst xs.
  destruct r as [rest|]; [|lia]. destruct E2 as (Ev & _ & _). rewrite bool_decide_eq_false_2 by done. cbn [andb]. rewrite length_take_le by lia. cbn [Nat.add].
  rewrite Z.sub_diag, Z.eqb_refl, fill_first by (rewrite length_take_le by lia; done). rewrite length_take_le, Nat.sub_diag, app_nil_r by lia. eauto 10.
Qed.

Lemma image_next_last seq l s : at_keys seq l s -> pads s -> ii_cache s.1 = None -> (0 < length (valid l) < ii_batch_size s.1)%nat ->
  exists s', next s = Some (Ok (padded (ii_batch_size s.1) (valid l) (valid seq), Z.of_nat (ii_batch_size s.1) - Z.of_nat (length (valid l))),
    (ii_place (ii_cur s'.1) (ii_pos s'.1) false s'.1, s'.2)) /\ moved s s' /\ ii_seq s'.1 = Some seq.
Proof.
  intros Hs (Hd & Hr & Hp) Hc [Hb Hl]. unfold next_batch. rewrite Hc.
  destruct (batch_loop_reads seq l (loop_fuel records s.1) 0 (replicate (ii_batch_size s.1) None) s Hs Hd) as (s1 & Hm & Hk & ->); [lia|apply length_replicate|by eapply fuel_enough|].
  rewrite Nat.sub_0_r in *. destruct (take_valid_spec l (ii_batch_size s.1)) as [E1 E2]. destruct (take_valid _ l) as [xs r]. cbn [fst snd] in *.
  rewrite take_ge in E1 by lia. subst xs. destruct r as [rest|]; [lia|]. rewrite bool_decide_eq_true_2 by done. cbn [andb Nat.add default] in *.
  destruct (Nat.eqb_spec (length (valid l)) 0); [lia|]. destruct (Z.eqb_spec (Z.of_nat (ii_batch_size s.1) - Z.of_nat (length (valid l))) 0); [lia|].
  destruct (moved_same _ _ Hm) as (Mb & Mh & Mc & _). rewrite Mh, Hd, Hr. cbn [andb]. rewrite fill_first by lia.
  destruct (batch_loop_reads seq seq (loop_fuel records s1.1) (length (valid l)) (map Some (valid l) ++ replicate (ii_batch_size s.1 - length (valid l)) None) s1 Hk)
    as (s2 & Hm2 & Hk2 & ->); [by rewrite Mh|lia|rewrite length_app, length_map, length_replicate; lia|by eapply fuel_enough|].
  destruct (take_valid_spec seq (ii_batch_size s1.1 - length (valid l))) as [E3 E4]. destruct (take_valid _ seq) as [ys r]. cbn [fst snd] in *. subst ys.
  destruct (Nat.eqb_spec (length (valid l) + length (take (ii_batch_size s1.1 - length (valid l)) (valid seq))) 0); [lia|]. rewrite andb_false_r.
  destruct (moved_same _ _ Hm2) as (Mb2 & Mh2 & _). rewrite Mh2, Mh, Hp. rewrite fill_second by (rewrite length_take; lia). rewrite Mb.
  exists s2. split; [done|]. split; [by eapply moved_trans|]. apply Hk2.
Qed.

Lemma image_next_end seq l s : at_keys seq l s -> pads s -> ii_cache s.1 = None -> (0 < ii_batch_size s.1)%nat -> valid l = [] ->
  exists s', next s = Some (Raise StopIteration, s') /\ moved s s' /\ ii_seq s'.1 = Some seq.
Proof.
  intros Hs (Hd & Hr & Hp) Hc Hb Hl. unfold next_batch. rewrite Hc.
  destruct (batch_loop_reads seq l (loop_fuel records s.1) 0 (replicate (ii_batch_size s.1) None) s Hs Hd) as (s1 & Hm & Hk & ->); [lia|apply length_replicate|by eapply fuel_enough|].
  rewrite Nat.sub_0_r in *. destruct (take_valid_spec l (ii_batch_size s.1)) as [E1 E2]. destruct (take_valid _ l) as [xs r]. cbn [fst snd] in *.
  rewrite Hl in *. cbn in E2. rewrite take_nil in E1. subst xs. destruct r as [rest|]; [lia|]. exists s1. split; [done|]. split; [done|apply Hk].
Qed.
Lemma image_next_stopped s : ii_allow_read s.1 = false -> ii_cache s.1 = None -> (0 < ii_batch_size s.1)%nat -> next s = Some (Raise StopIteration, s).
Proof.
  intros Ha Hc Hb. unfold next_batch. rewrite Hc. unfold loop_fuel. cbn [batch_loop]. rewrite (proj2 (Nat.ltb_lt _ _)) by done.
  unfold next_sample. rewrite bind_get, Ha. done.
Qed.

(** [for batch in it]: batches until the end; [None] if there are more than the fuel. *)
Fixpoint image_epoch (fuel : nat) (s : st) : option (result (list (list (option S) * Z)) * st) :=
  match fuel with
  | O => None
  | Datatypes.S fuel =>
      match next s with
      | None => None
      | Some (Raise StopIteration, s) => Some (Ok [], s)
      | Some (Raise e, s) => Some (Raise e, s)
      | Some (Ok b, s) => match image_epoch fuel s with Some (Ok bs, s) => Some (Ok (b :: bs), s) | o => o end
      end
  end.

Lemma image_epoch_S fuel s : image_epoch (Datatypes.S fuel) s =
  match next s with
  | None => None
  | Some (Raise StopIteration, s) => Some (Ok [], s)
  | Some (Raise e, s) => Some (Raise e, s)
  | Some (Ok b, s) => match image_epoch fuel s with Some (Ok bs, s) => Some (Ok (b :: bs), s) | o => o end
  end.
Proof. done. Qed.

(** A batch of [b] rows: samples, then padding from the beginning. *)
Definition batch_ok (b : nat) (all : list S) (x : list (option S) * Z) : Prop :=
  0 <= x.2 < Z.of_nat b /\ length x.1 = b /\ drop (b - Z.to_nat x.2) x.1 = take (Z.to_nat x.2) (map Some all ++ replicate b None).
(** The rows that are not padding. *)
Definition real_rows (b : nat) (x : list (option S) * Z) : list (option S) := take (b - Z.to_nat x.2) x.1.

Lemma padded_ok b xs all : (0 < length xs < b)%nat ->
  batch_ok b all (padded b xs all, Z.of_nat b - Z.of_nat (length xs)) /\ real_rows b (padded b xs all, Z.of_nat b - Z.of_nat (length xs)) = map Some xs.
Proof.
  intros Hl. unfold batch_ok, real_rows, padded. cbn [fst snd]. replace (b - Z.to_nat (Z.of_nat b - Z.of_nat (length xs)))%nat with (length xs) by lia.
  replace (Z.to_nat (Z.of_nat b - Z.of_nat (length xs))) with (b - length xs)%nat by lia.
  split; [|by rewrite take_app_length' by (by rewrite length_map)]. split; [lia|]. split; [rewrite !length_app, !length_map, length_replicate, length_take; lia|].
  rewrite drop_app_length' by (by rewrite length_map). rewrite take_app, length_map, take_replicate, firstn_map, length_take. f_equal. f_equal. lia.
Qed.

(** What is known at the end of an epoch. *)
Definition stopped (seq : list K) (s s' : st) : Prop :=
  ii_seq s'.1 = Some seq /\ ii_batch_size s'.1 = ii_batch_size s.1 /\ ii_handle s'.1 = ii_handle s.1 /\ ii_cache s'.1 = ii_cache s.1 /\ ii_shuffle s'.1 = ii_shuffle s.1.

Lemma epoch_from seq n : forall l s, at_keys seq l s -> pads s -> ii_cache s.1 = None -> (0 < ii_batch_size s.1)%nat -> (length (valid l) <= n)%nat ->
  exists bs s', image_epoch (Datatypes.S (Datatypes.S n)) s = Some (Ok bs, s') /\ stopped seq s s' /\
    Forall (batch_ok (ii_batch_size s.1) (valid seq)) bs /\ concat (map (real_rows (ii_batch_size s.1)) bs) = map Some (valid l).
Proof.
  induction n as [n IH] using lt_wf_ind. intros l s Hs Hp Hc Hb Hl. rewrite image_epoch_S.
  destruct (Nat.eq_dec (length (valid l)) 0) as [E0|E0].
  { apply length_zero_iff_nil in E0. destruct (image_next_end seq l s Hs Hp Hc Hb E0) as (s' & -> & Hm & Hq). eexists _, _. split; [reflexivity|]. rewrite E0. split_and!; [|done|done].
    split; [done|]. by destruct Hm as [c ->]. }
  destruct (Nat.lt_ge_cases (length (valid l)) (ii_batch_size s.1)) as [Hlt|Hge].
  - destruct (image_next_last seq l s Hs Hp Hc) as (s' & -> & Hm & Hq); [lia|]. destruct (moved_same _ _ Hm) as (Mb & Mh & Mc & Ms).
    rewrite image_epoch_S, image_next_stopped by (cbn; (congruence || lia)). eexists _, _. split; [reflexivity|]. destruct (padded_ok (ii_batch_size s.1) (valid l) (valid seq)) as [Hok Hre]; [lia|].
    split_and!; [by split_and!|by constructor|]. cbn [map concat]. by rewrite Hre, app_nil_r.
  - destruct (image_next_full seq l s Hs Hp Hc) as (s' & l' & -> & Hm & Hk & Hv); [lia|]. destruct (moved_same _ _ Hm) as (Mb & Mh & Mc & Ms).
    destruct n as [|m]; [lia|]. destruct (IH m ltac:(lia) l' s' Hk (moved_pads _ _ Hm Hp)) as (bs & s2 & E & (Q1 & Q2 & Q3 & Q4 & Q5) & Hf & Hcc); [congruence|lia|rewrite Hv, length_drop; lia|].
    rewrite E, Mb, Hv in *. eexists _, _. split; [reflexivity|]. split; [split_and!; congruence|]. split.
    + constructor; [|done]. split; [cbn; lia|]. cbn [fst snd]. rewrite length_map, length_take_le by done. split; [done|]. by rewrite Z2Nat.inj_0, Nat.sub_0_r, drop_ge by (rewrite length_map, length_take; lia).
    + cbn [map concat]. rewrite Hcc. unfold real_rows at 1. cbn [fst snd]. rewrite Z2Nat.inj_0, Nat.sub_0_r, take_ge by (rewrite length_map, length_take; lia). by rewrite <- map_app, take_drop.
Qed.

Hypothesis shuffle_perm : forall l g, exists l' g', shuffle_seq l g = (Ok l', g') /\ l' ≡ₚ l.
(** [reset] starts again, with the keys in a new order. *)
Lemma reset_ready seq s s0 : stopped seq s0 s -> pads s0 -> exists seq' s', image_reset shuffle_seq s = (Ok tt, s') /\ seq' ≡ₚ seq /\ at_keys seq' seq' s' /\ stopped seq' s0 s'.
Proof.
  intros (Q1 & Q2 & Q3 & Q4 & Q5) (Hd & Hr & Hp). unfold image_reset.
  assert (exists seq' s1, reshuffle shuffle_seq s = (Ok tt, s1) /\ seq' ≡ₚ seq /\ stopped seq' s0 s1) as (seq' & s1 & E & Hperm & (P1 & P2 & P3 & P4 & P5)).
  { unfold reshuffle. rewrite bind_get, Q1. destruct (ii_shuffle s.1) eqn:Eb; [|exists seq, s; unfold stopped; split_and!; (done || congruence)].
    destruct (shuffle_perm seq s.2) as (l' & g' & E & Hl). exists l', (ii_set_seq (Some l') s.1, g'). unfold on_gen. rewrite (bind_run _ _ s (s.1, g') l') by (by rewrite E). unfold stopped; split_and!; (done || cbn; congruence). }
  rewrite (bind_run _ _ _ _ _ E), bind_get. rewrite P3, Hr. cbn [negb orb]. eexists seq', _. split; [reflexivity|]. split; [done|].
  split; [split_and!; [done|done|by exists []]|done].
Qed.

(** Several epochs, with [reset] after each. *)
Fixpoint image_epochs (n fuel : nat) (s : st) : option (list (list (list (option S) * Z)) * st) :=
  match n with
  | O => Some ([], s)
  | Datatypes.S n =>
      match image_epoch fuel s with
      | Some (Ok bs, s) =>
          match image_reset shuffle_seq s with
          | (Ok _, s) => match image_epochs n fuel s with Some (es, s) => Some (bs :: es, s) | None => None end
          | _ => None
          end
      | _ => None
      end
  end.
Definition epoch_ok (b : nat) (seq : list K) (bs : list (list (option S) * Z)) : Prop :=
  exists order, order ≡ₚ seq /\ Forall (batch_ok b (valid order)) bs /\ concat (map (real_rows b) bs) = map Some (valid order).

Lemma valid_length l : (length (valid l) <= length l)%nat.
Proof. induction l as [|k l IH]; [done|]. cbn. destruct (prep (value k)); cbn; lia. Qed.
Lemma epochs_from n : forall seq s, at_keys seq seq s -> pads s -> ii_cache s.1 = None -> (0 < ii_batch_size s.1)%nat ->
  exists es s', image_epochs n (Datatypes.S (Datatypes.S (length seq))) s = Some (es, s') /\ length es = n /\ Forall (epoch_ok (ii_batch_size s.1) seq) es.
Proof.
  induction n as [|n IH]; intros seq s Hs Hp Hc Hb; cbn [image_epochs]; [by eexists _, _|].
  destruct (epoch_from seq (length seq) seq s Hs Hp Hc Hb (valid_length seq)) as (bs & s1 & -> & Hst & Hf & Hcc).
  destruct (reset_ready seq s1 s Hst Hp) as (seq' & s2 & -> & Hperm & Hk & (Q1 & Q2 & Q3 & Q4 & Q5)).
  destruct (IH seq' s2 Hk) as (es & s3 & E & Hlen & Hes); [unfold pads; by rewrite Q3|congruence|lia|].
  rewrite (Permutation_length Hperm) in E. rewrite E. eexists _, _. split; [reflexivity|]. split; [cbn; lia|]. constructor; [by exists seq|].
  rewrite Q2 in Hes. eapply Forall_impl; [exact Hes|]. intros x (o & Ho & Hx). exists o. split; [by etrans|done].
Qed.

(** C17: an [ImageIter] that pads, over keys of which some images may be invalid: in every epoch, after every number of resets and
    whether it shuffles or not, it delivers every valid image of its part exactly once, in the order of
    the keys, in batches of the batch size; the padding reported for a batch is what follows its samples, and
    consists of the first images of the epoch again. *)
Theorem image_epochs_complete n b shuffle has_rec keys part_index num_parts g seq : (0 < b)%nat -> part_of keys part_index num_parts = Ok seq ->
  exists s es s', ImageIter_new shuffle_seq b "pad" shuffle has_rec (Some keys) part_index num_parts g = (Ok tt, s) /\
    image_epochs n (Datatypes.S (Datatypes.S (length seq))) s = Some (es, s') /\ length es = n /\ Forall (epoch_ok b seq) es.
Proof.
  intros Hb Hpart. unfold ImageIter_new. rewrite Hpart.
  set (s0 := (mkIter _ _ _ _ _ _ _ _ _, g)). assert (stopped seq s0 s0) as Hst by done. assert (pads s0) as Hp by done.
  destruct (reset_ready seq s0 s0 Hst Hp) as (seq' & s & E & Hperm & Hk & (Q1 & Q2 & Q3 & Q4 & Q5)). exists s.
  destruct (epochs_from n seq' s Hk) as (es & s' & E2 & Hlen & Hes); [unfold pads; by rewrite Q3|by rewrite Q4|by rewrite Q2|].
  rewrite (Permutation_length Hperm) in E2. exists es, s'. split_and!; [done..|]. rewrite Q2 in Hes. eapply Forall_impl; [exact Hes|].
  intros x (o & Ho & Hx). exists o. split; [by etrans|done].
Qed.
End Epochs.

(** Three images of five keys, one of them invalid, with a batch size of two. *)
Lemma image_epochs_complete_witness : exists s es s',
  ImageIter_new (fun l g => (Ok (rev l), g)) 2 "pad" true false (Some [1; 2; 3; 4; 5; 6]) 0 2 tt = (Ok tt, s) /\
  image_epochs (G := unit) (fun k => Ok k) (fun r g => (Ok (if r =? 2 then None else Some r), g)) (fun l g => (Ok (rev l), g)) [] 3 5 s = Some (es, s') /\
  length es = 3%nat /\ Forall (epoch_ok (fun k => k) (fun r => if r =? 2 then None else Some r) 2 [1; 2; 3]) es.
Proof.
  apply (image_epochs_complete (fun k => Ok k) (fun r g => (Ok (if r =? 2 then None else Some r), g)) (fun l g => (Ok (rev l), g)) [] (fun k => k)
    (fun r => if r =? 2 then None else Some r) (fun k => eq_refl) (fun r g => eq_refl)
    (fun l g => ex_intro _ (rev l) (ex_intro _ g (conj eq_refl (Permutation_sym (Permutation_rev l))))) 3 2 true false [1; 2; 3; 4; 5; 6] 0 2 tt [1; 2; 3]).
  - lia.
  - reflexivity.
Defined.

(** With "roll_over", the batch kept from the epoch before is reported with the padding it would have had then, though all
    its rows are samples that were not delivered before. *)
Example roll_over_reports_padding :
  let it := mkIter 2 "roll_over" false false (Some [1; 2; 3]) 0 0 true None in
  let nexts := next_batch (G := unit) (fun k => Ok k) (fun r g => (Ok (Some r), g)) [] in
  (match nexts (it, tt) with
   | Some (r1, s1) =>
       match nexts s1 with
       | Some (r2, s2) => match nexts (image_reset (fun l g => (Ok l, g)) s2).2 with Some (r3, _) => Some [r1; r2; r3] | None => None end
       | None => None
       end
   | None => None
   end) = Some [Ok ([Some 1; Some 2], 0); Raise StopIteration; Ok ([Some 3; Some 1], 1)].
Proof. vm_compute. reflexivity. Qed.

(** ** Parts *)

(** The parts of [num_parts] workers are consecutive pieces of the keys; the last [N mod num_parts] keys are in none. *)
Lemma parts_prefix {K} (keys : list K) (num_parts : Z) : 1 < num_parts ->
  exists parts, mapR (fun p => part_of keys p num_parts) (seqZ 0 num_parts) = Ok parts /\
    Forall (fun l => py_len l = py_len keys / num_parts) parts /\ concat parts = py_slice keys 0 (py_len keys / num_parts * num_parts).
Proof.
  intros Hn. set (c := py_len keys / num_parts). assert (0 <= c) as Hc by (apply Z.div_pos; unfold py_len; lia).
  assert (c * num_parts <= py_len keys) as Hcn by (pose proof (Z.mul_div_le (py_len keys) num_parts); lia).
  exists (map (fun p => py_slice keys (p * c) ((p + 1) * c)) (seqZ 0 num_parts)). split; [|split].
  - apply mapR_ok. intros p Hp%elem_of_seqZ. unfold part_of. rewrite (proj2 (Z.ltb_lt _ _) Hn). rewrite (proj2 (Z.ltb_lt _ _)) by lia. done.
  - apply Forall_fmap, Forall_forall. intros p Hp%elem_of_seqZ. cbn. rewrite py_slice_len by nia. lia.
  - assert (forall n, (n <= Z.to_nat num_parts)%nat -> concat (map (fun p => py_slice keys (p * c) ((p + 1) * c)) (seqZ 0 (Z.of_nat n))) = py_slice keys 0 (c * Z.of_nat n)) as Hk.
    { induction n as [|n IH]; intros Hle.
      - rewrite Z.mul_0_r. cbn. by rewrite py_slice_in by (unfold py_len; lia).
      - rewrite Nat2Z.inj_succ, <- Z.add_1_r, seqZ_app, map_app, concat_app, IH by lia. rewrite (seqZ_cons _ 1), seqZ_nil by lia. cbn [map concat]. rewrite app_nil_r, Z.add_0_l.
        replace (Z.of_nat n * c) with (c * Z.of_nat n) by lia. rewrite py_slice_app by nia. f_equal. lia. }
    specialize (Hk (Z.to_nat num_parts) (le_n _)). by rewrite Z2Nat.id in Hk by lia.
Qed.

(** ** Crops *)

#[local] Existing Instance R_Round.

Lemma IZR_trunc_le (x : R) (n : Z) : (0 <= x)%R -> (x <= IZR n)%R -> 0 <= trunc x <= n.
Proof.
  intros H0 Hn. split; [by apply trunc_nonneg|]. apply le_IZR. pose proof (trunc_le x H0). lra.
Qed.
(** [y * a / b] is between 0 and [y] for a ratio below one. *)
Lemma scaled_range (y a b : R) : (0 <= y)%R -> (0 <= a <= b)%R -> (0 < b)%R -> (0 <= y * a / b <= y)%R.
Proof.
  intros Hy Ha Hb. split; [apply Rmult_le_pos; [nra|left; by apply Rinv_0_lt_compat]|].
  apply Rmult_le_reg_r with b; [done|]. unfold Rdiv. rewrite Rmult_assoc, Rinv_l by lra. nra.
Qed.

(** [scale_down] fits both the image and the size asked for, and leaves a size that fits as it is. *)
Lemma scale_down_fits sw sh w h : 0 <= sw -> 0 <= sh -> 0 < w -> 0 < h ->
  let '(w', h') := scale_down (F := R) (sw, sh) (w, h) in
  0 <= w' <= Z.min w sw /\ 0 <= h' <= Z.min h sh /\ (w <= sw -> h <= sh -> (w', h') = (w, h)).
Proof.
  intros Hsw Hsh Hw Hh. unfold scale_down. det_R. apply IZR_le in Hsw, Hsh. apply IZR_lt in Hw, Hh. rewrite !mult_IZR.
  assert (exists (x y : R), (if sh <? h then (IZR w * IZR sh / IZR h, IZR sh) else (IZR w, IZR h))%R = (x, y) /\
    (0 <= x <= IZR w)%R /\ (0 <= y <= IZR h)%R /\ (y <= IZR sh)%R /\ (h <= sh -> (x, y) = (IZR w, IZR h))) as (x & y & -> & Hx & Hy & Hys & Heq).
  { destruct (Z.ltb_spec sh h) as [Hlt|Hge]; eexists _, _; (split; [reflexivity|]).
    - apply IZR_lt in Hlt. pose proof (scaled_range (IZR w) (IZR sh) (IZR h)). split; [lra|]. split; [lra|]. split; [lra|]. intros Hle%IZR_le. lra.
    - apply IZR_le in Hge. split_and!; (lra || done). }
  destruct (fltb (IZR sw) x) eqn:Ef.
  - apply fltb_spec in Ef. pose proof (scaled_range y (IZR sw) x ltac:(lra) ltac:(lra) ltac:(lra)) as Hs.
    pose proof (IZR_trunc_le (y * IZR sw / x) h ltac:(lra) ltac:(lra)). pose proof (IZR_trunc_le (y * IZR sw / x) sh ltac:(lra) ltac:(lra)).
    rewrite trunc_IZR. split; [split; [apply le_IZR; lra|apply Z.min_glb; [apply le_IZR; lra|lia]]|]. split; [lia|]. intros Hle%IZR_le Hle2. specialize (Heq Hle2). injection Heq as -> ->. lra.
  - apply fltb_false in Ef. pose proof (IZR_trunc_le x w ltac:(lra) ltac:(lra)). pose proof (IZR_trunc_le x sw ltac:(lra) ltac:(lra)).
    pose proof (IZR_trunc_le y h ltac:(lra) ltac:(lra)). pose proof (IZR_trunc_le y sh ltac:(lra) ltac:(lra)).
    split; [lia|]. split; [lia|]. intros _ Hle2. specialize (Heq Hle2). injection Heq as -> ->. by rewrite !trunc_IZR.
Qed.

(** A region of an image. *)
Definition inside (h w : Z) (r : Z * Z * Z * Z) : Prop :=
  let '(x, y, w', h') := r in 0 <= x /\ 0 <= y /\ 0 <= w' /\ 0 <= h' /\ x + w' <= w /\ y + h' <= h.

Lemma center_inside h w size : 0 <= h -> 0 <= w -> 0 < fst size -> 0 < snd size -> inside h w (center_crop (F := R) h w size).
Proof.
  intros Hh Hw H1 H2. unfold center_crop. destruct size as [sw sh]. pose proof (scale_down_fits w h sw sh Hw Hh H1 H2) as Hf.
  destruct (scale_down (w, h) (sw, sh)) as [nw nh]. destruct Hf as (F1 & F2 & _). unfold inside.
  rewrite !Z.quot_div_nonneg by lia. pose proof (Z.div_pos (w - nw) 2). pose proof (Z.div_pos (h - nh) 2).
  pose proof (Z.mul_div_le (w - nw) 2). pose proof (Z.mul_div_le (h - nh) 2). lia.
Qed.

Section RandomCrops.
Context {G : Type} (uniform : R -> R -> M G R) (randint : Z -> Z -> M G Z) (random : M G R).
Hypothesis uniform_range : forall a b g, (a <= b)%R -> exists x g', uniform a b g = (Ok x, g') /\ (a <= x <= b)%R.
Hypothesis randint_range : forall a b g, a <= b -> exists k g', randint a b g = (Ok k, g') /\ a <= k <= b.
Hypothesis random_range : forall g, exists x g', random g = (Ok x, g') /\ (0 <= x < 1)%R.

(** A random place for a region that fits. *)
Lemma place_inside {A} (f : Z * Z * Z * Z -> A) h w nw nh g : 0 <= nw <= w -> 0 <= nh <= h ->
  exists r g', (x0 ← randint 0 (w - nw); y0 ← randint 0 (h - nh); mret (f (x0, y0, nw, nh))) g = (Ok (f r), g') /\ inside h w r.
Proof.
  intros Hw Hh. destruct (randint_range 0 (w - nw) g ltac:(lia)) as (x & g1 & E1 & Hx). rewrite (bind_run _ _ _ _ _ E1).
  destruct (randint_range 0 (h - nh) g1 ltac:(lia)) as (y & g2 & E2 & Hy). rewrite (bind_run _ _ _ _ _ E2). eexists (x, y, nw, nh), g2. split; [done|]. unfold inside. lia.
Qed.

Lemma random_inside h w size g : 0 <= h -> 0 <= w -> 0 < fst size -> 0 < snd size ->
  exists r g', random_crop (F := R) randint h w size g = (Ok r, g') /\ inside h w r.
Proof.
  intros Hh Hw H1 H2. unfold random_crop. destruct size as [sw sh]. pose proof (scale_down_fits w h sw sh Hw Hh H1 H2) as Hf.
  destruct (scale_down (w, h) (sw, sh)) as [nw nh]. destruct Hf as (F1 & F2 & _). apply (place_inside (fun r => r)); lia.
Qed.

Lemma size_attempt_inside h w area ratio g : 0 <= h -> 0 <= w -> (0 <= fst area <= snd area)%R -> (0 < fst ratio <= snd ratio)%R ->
  exists r g', size_attempt uniform randint random h w area ratio g = (Ok r, g') /\ match r with Some p => inside h w p | None => True end.
Proof.
  intros Hh Hw Ha Hr. unfold size_attempt. destruct (uniform_range (fst area) (snd area) g ltac:(lra)) as (u & g1 & E & Hu). rewrite (bind_run _ _ _ _ _ E).
  destruct (uniform_range (fst ratio) (snd ratio) g1 ltac:(lra)) as (q & g2 & E2 & Hq). rewrite (bind_run _ _ _ _ _ E2).
  destruct (random_range g2) as (p & g3 & E3 & _). rewrite (bind_run _ _ _ _ _ E3). det_R.
  set (a := Rround (sqrt (u * IZR (h * w) * q))). set (b := Rround (sqrt (u * IZR (h * w) / q))).
  assert (0 <= a) by (apply Rround_nonneg, sqrt_pos). assert (0 <= b) by (apply Rround_nonneg, sqrt_pos).
  destruct (fltb p _); match goal with |- context [(?x <=? w) && (?y <=? h)] => destruct (Z.leb_spec x w), (Z.leb_spec y h); cbn [andb]; try by eexists _, _ end.
  - destruct (place_inside Some h w b a g3) as (r & g' & -> & Hin); [lia..|]. by eexists _, _.
  - destruct (place_inside Some h w a b g3) as (r & g' & -> & Hin); [lia..|]. by eexists _, _.
Qed.

(** C32: the regions that [center_crop], [random_crop] and [random_size_crop] cut out lie inside the image, whatever the generator draws
    in its ranges: nothing raises, positions and sizes are not negative and do not pass the borders. *)
Theorem crops_inside h w size area ratio g : 0 <= h -> 0 <= w -> 0 < fst size -> 0 < snd size ->
  (0 <= fst area <= snd area)%R -> (0 < fst ratio <= snd ratio)%R ->
  inside h w (center_crop (F := R) h w size) /\
  (exists r g', random_crop (F := R) randint h w size g = (Ok r, g') /\ inside h w r) /\
  (exists r g', random_size_crop uniform randint random h w size area ratio g = (Ok r, g') /\ inside h w r).
Proof.
  intros Hh Hw H1 H2 Ha Hr. split_and!; [by apply center_inside|by apply random_inside|]. unfold random_size_crop.
  destruct (attempts_ok (inside h w) (size_attempt uniform randint random h w area ratio) 10 (fun g => size_attempt_inside h w area ratio g Hh Hw Ha Hr) g) as (r & g' & E & Hin).
  rewrite (bind_run _ _ _ _ _ E). destruct r as [r|]; eexists _, _; (split; [reflexivity|]); [done|by apply center_inside].
Qed.
End RandomCrops.

Lemma crops_inside_witness :
  inside 10 8 (center_crop (F := R) 10 8 (20, 5)) /\
  (exists r g', random_crop (F := R) low_randint 10 8 (20, 5) tt = (Ok r, g') /\ inside 10 8 r) /\
  (exists r g', random_size_crop low_uniform low_randint low_random 10 8 (20, 5) (1 / 2, 1)%R (1, 2)%R tt = (Ok r, g') /\ inside 10 8 r).
Proof.
  apply (crops_inside low_uniform low_randint low_random low_uniform_range low_randint_range low_random_range 10 8 (20, 5) (1 / 2, 1)%R (1, 2)%R tt); cbn; (lia || lra).
Defined.
