(* ===== verification/Tables.v ===== *)
(** * Tables

    Lists written as tables of functions of the index, and what the operations on lists make of
    them. *)

From S2P Require Import Prelude.
Open Scope nat_scope.

Definition tab {A} (n : nat) (f : nat -> A) : list A := map f (seq 0 n).
Section Tables.
Context {A : Type}.
Implicit Types f g : nat -> A.

Lemma tab_length n f : length (tab n f) = n.
Proof. unfold tab. by rewrite length_map, length_seq. Qed.
Lemma tab_lookup n f i : i < n -> tab n f !! i = Some (f i).
Proof. intros Hi. unfold tab. rewrite list_lookup_fmap, lookup_seq_lt by done. done. Qed.
Lemma tab_lookup_total `{Inhabited A} n f i : i < n -> tab n f !!! i = f i.
Proof. intros Hi. by rewrite list_lookup_total_alt, tab_lookup. Qed.
(** A list is determined by its length and its elements. *)
Lemma tab_of n f (l : list A) : length l = n -> (forall i, i < n -> l !! i = Some (f i)) -> l = tab n f.
Proof.
  intros Hl Hi. apply list_eq. intros i. destruct (Nat.lt_ge_cases i n) as [Hlt|Hge]; [by rewrite Hi, tab_lookup|].
  rewrite !lookup_ge_None_2; rewrite ?tab_length; (done || lia).
Qed.
Lemma tab_ext n f g : (forall i, i < n -> f i = g i) -> tab n f = tab n g.
Proof. intros Hfg. apply tab_of; [apply tab_length|]. intros i Hi. by rewrite tab_lookup, Hfg. Qed.
Lemma tab_eta `{Inhabited A} n (l : list A) : length l = n -> l = tab n (fun i => l !!! i).
Proof. intros Hl. apply tab_of; [done|]. intros i Hi. apply list_lookup_lookup_total_lt. lia. Qed.
Lemma tab_S n f : tab (S n) f = f 0 :: tab n (fun i => f (S i)).
Proof. unfold tab. cbn [seq map]. f_equal. by rewrite <- seq_shift, map_map. Qed.
End Tables.

Section TableMaps.
Context {A B C : Type}.
Implicit Types f : nat -> A.
Lemma map_tab (h : A -> B) n f : map h (tab n f) = tab n (fun i => h (f i)).
Proof. unfold tab. by rewrite map_map. Qed.
Lemma zip_tab (h : A -> B -> C) n f (g : nat -> B) : zip_with h (tab n f) (tab n g) = tab n (fun i => h (f i) (g i)).
Proof. unfold tab. generalize (seq 0 n). induction l as [|x l IH]; [done|]. cbn. by rewrite IH. Qed.
Lemma imap_tab (h : nat -> A -> B) n f : imap h (tab n f) = tab n (fun i => h i (f i)).
Proof. apply tab_of; [by rewrite length_imap, tab_length|]. intros i Hi. rewrite list_lookup_imap, tab_lookup by done. done. Qed.
Lemma take_tab k n f : k <= n -> take k (tab n f) = tab k f.
Proof. intros Hk. apply tab_of; [rewrite length_take, tab_length; lia|]. intros i Hi. rewrite lookup_take_lt, tab_lookup by lia. done. Qed.
Lemma reverse_tab n f : reverse (tab n f) = tab n (fun i => f (n - 1 - i)).
Proof.
  apply tab_of; [by rewrite length_reverse, tab_length|]. intros i Hi. rewrite reverse_lookup, tab_length, tab_lookup by (rewrite ?tab_length; lia).
  f_equal. f_equal. lia.
Qed.
Lemma reverse_part_tab k n f : k <= n -> reverse (take k (tab n f)) ++ drop k (tab n f) = tab n (fun i => if i <? k then f (k - 1 - i) else f i).
Proof.
  intros Hk. rewrite take_tab, reverse_tab by done. apply tab_of; [rewrite length_app, length_drop, !tab_length; lia|].
  intros i Hi. destruct (Nat.ltb_spec i k) as [Hlt|Hge].
  - rewrite lookup_app_l, tab_lookup by (rewrite ?tab_length; lia). done.
  - rewrite lookup_app_r, tab_length, lookup_drop, tab_lookup by (rewrite ?tab_length; lia). f_equal. f_equal. lia.
Qed.
Lemma forallb_tab (p : A -> bool) n f : (forall i, i < n -> p (f i) = true) -> forallb p (tab n f) = true.
Proof. intros Hp. apply forallb_forall. intros x. unfold tab. rewrite in_map_iff. intros (i & <- & Hi%in_seq). apply Hp. lia. Qed.
Lemma mapR_tab (h : A -> result B) (g : nat -> B) n f : (forall i, i < n -> h (f i) = Ok (g i)) -> mapR h (tab n f) = Ok (tab n g).
Proof.
  revert f g. induction n as [|n IH]; intros f g Hh; [done|]. rewrite !tab_S. cbn [mapR]. rewrite Hh by lia. cbn [mbind result_bind].
  rewrite (IH (fun i => f (S i)) (fun i => g (S i))) by (intros i Hi; apply Hh; lia). done.
Qed.
Lemma Forall_tab (P : A -> Prop) n f : (forall i, i < n -> P (f i)) -> Forall P (tab n f).
Proof. intros HP. apply Forall_forall. intros x (i & Hx)%list_elem_of_lookup. assert (i < n) as Hi by (apply lookup_lt_Some in Hx; by rewrite tab_length in Hx). rewrite tab_lookup in Hx by done. injection Hx as <-. auto. Qed.
End TableMaps.

(** Tables of tables. *)
Notation tab2 m n x := (tab m (fun i => tab n (x i))).
