(* ===== verification/GluonRNN.v ===== *)
(** * Recurrent cells of gluon, on arrays

    [gluon/rnn/rnn_cell.py] in imperative mode: [state_info], [begin_state], [reset], one step
    of every cell, and [unroll] of every cell in both layouts, with lists of arrays or one
    array for the inputs and outputs, and with the lengths of the sequences of a batch.

    An array of a step has a row per sequence of the batch; an array of a whole sequence has
    two axes before the elements of a row, in the order of its layout.  Names of operators
    have no effect in this mode.  A cell is a tree with its mutable attributes, and a call
    gives the cell back; the cells of a tree are distinct objects.  Dropout is a parameter. *)

From S2P Require Import Prelude NDArray Array LRScheduler Optimizer SGD Metric Loss.
Open Scope Z_scope.

(** [tanh] of the numbers of the arrays. *)
Class TanhMath (F : Type) := { ftanh : F -> F }.

Section GluonRNN.
Context {F : Type} `{Float F} `{FloatMath F} `{MetricMath F} `{TanhMath F}.
Notation row := (list F).
Notation mat := (list (list F)).
Local Open Scope float_scope.

(** ** Arrays *)

(** An array with two leading axes: the length of the second, and the parts along the first. *)
Record gtensor := mkTensor { t_d1 : nat; t_data : list mat }.
Inductive layout := NTC | TNC.
Definition time_axis (l : layout) : nat := match l with NTC => 1 | TNC => 0 end.
(** The inputs or outputs of [unroll]: a list of arrays, or one array. *)
Inductive gseq := Steps (l : list mat) | Merged (t : gtensor).

Definition widths (m : mat) : list nat := map length m.
Definition transpose {A} (n : nat) (l : list (list A)) : list (list A) := map (fun i => omap (fun r => r !! i) l) (seq 0 n).
Definition stack (axis : nat) (l : list mat) : result gtensor :=
  match l with
  | [] => Raise MXNetError
  | m :: _ =>
      if forallb (fun x => bool_decide (widths x = widths m)) l
      then Ok (match axis with O => mkTensor (length m) l | _ => mkTensor (length l) (transpose (length m) l) end)
      else Raise MXNetError
  end.
Definition t_dim (axis : nat) (t : gtensor) : nat := match axis with O => length (t_data t) | _ => t_d1 t end.
(** [split(t, axis, num_outputs, squeeze_axis=1)] *)
Definition split (axis : nat) (num_outputs : nat) (t : gtensor) : result (list mat) :=
  if bool_decide (t_dim axis t = num_outputs) && (0 <? num_outputs)%nat
  then Ok (match axis with O => t_data t | _ => transpose (t_d1 t) (t_data t) end)
  else Raise MXNetError.

(** Operators on every element, on two arrays of one shape, and along rows. *)
Definition mmap (f : F -> F) (m : mat) : mat := map (map f) m.
Definition g_ew (f : F -> F -> F) (a b : mat) : result mat :=
  if bool_decide (widths a = widths b) then Ok (zip_with (zip_with f) a b) else Raise MXNetError.
Definition t_ew (f : F -> F -> F) (a b : gtensor) : result gtensor :=
  if bool_decide (t_d1 a = t_d1 b) && bool_decide (map widths (t_data a) = map widths (t_data b))
  then Ok (mkTensor (t_d1 a) (zip_with (zip_with (zip_with f)) (t_data a) (t_data b))) else Raise MXNetError.
(** [concat(a, b, dim=1)], and [dim=2] for whole sequences. *)
Definition concat1 (a b : mat) : result mat :=
  if bool_decide (length a = length b) then Ok (zip_with app a b) else Raise MXNetError.
Definition concat2 (a b : gtensor) : result gtensor :=
  if bool_decide (t_d1 a = t_d1 b) && bool_decide (map length (t_data a) = map length (t_data b))
  then Ok (mkTensor (t_d1 a) (zip_with (zip_with app) (t_data a) (t_data b))) else Raise MXNetError.

Definition dot (x w : row) : F := foldl fadd 0 (zip_with fmul x w).
Definition fc_row (W : mat) (b : row) (x : row) : row := zip_with (fun w c => dot x w + c) W b.
Definition fully_connected (W : mat) (b : row) (num_hidden : nat) (x : mat) : result mat :=
  if bool_decide (length W = num_hidden) && bool_decide (length b = num_hidden)
     && forallb (fun r => forallb (fun w => bool_decide (length w = length r)) W) x
  then Ok (map (fc_row W b) x) else Raise MXNetError.
(** [SliceChannel]: part [i] of [n] of every row. *)
Definition part_row (n i : nat) (r : row) : row := let k := (length r / n)%nat in take k (drop (i * k) r).
Definition slice_channel (n : nat) (x : mat) : result (list mat) :=
  if forallb (fun r => (length r mod n =? 0)%nat) x then Ok (map (fun i => map (part_row n i) x) (seq 0 n)) else Raise MXNetError.

(** [l[i]] *)
Definition state_at (l : list mat) (i : nat) : result mat := match l !! i with Some m => Ok m | None => Raise IndexError end.

(** ** Sequences of different lengths *)

Definition zero_row (r : row) : row := map (fun _ => 0) r.
Definition mask_at (t l : nat) (r : row) : row := if (l <=? t)%nat then zero_row r else r.
(** [SequenceMask]: the rows from the length of their sequence on are g_zeros. *)
Definition sequence_mask (axis : nat) (vl : list nat) (t : gtensor) : result gtensor :=
  match axis with
  | O =>
      if bool_decide (t_d1 t = length vl)
      then Ok (mkTensor (t_d1 t) (imap (fun k m => zip_with (mask_at k) vl m) (t_data t))) else Raise MXNetError
  | _ =>
      if bool_decide (length (t_data t) = length vl)
      then Ok (mkTensor (t_d1 t) (zip_with (fun l s => imap (fun k r => mask_at k l r) s) vl (t_data t))) else Raise MXNetError
  end.
(** [SequenceLast] along the first axis; a length that is 0 or too large reads outside the array. *)
Definition sequence_last (vl : list nat) (t : gtensor) : result mat :=
  if bool_decide (t_d1 t = length vl) then
    mapR (fun '(n, l) =>
      match l with
      | O => Raise UndefinedBehaviour
      | S k => match t_data t !! k with Some m => match m !! n with Some r => Ok r | None => Raise UndefinedBehaviour end | None => Raise UndefinedBehaviour end
      end) (imap pair vl)
  else Raise MXNetError.
(** [SequenceReverse] along the first axis: the beginning of every sequence is reversed. *)
Definition sequence_reverse (vl : list nat) (t : gtensor) : result gtensor :=
  if bool_decide (t_d1 t = length vl)
  then Ok (mkTensor (t_d1 t) (transpose (length (t_data t))
         (zip_with (fun l s => reverse (take l s) ++ drop l s) vl (transpose (t_d1 t) (t_data t))))) else Raise MXNetError.

Definition _format_sequence (len : option nat) (inputs : gseq) (lay : layout) (merge : option bool) : result (gseq * nat * nat) :=
  let axis := time_axis lay in
  match inputs with
  | Merged t =>
      let batch_size := t_dim (1 - axis) t in
      match merge with
      | Some false =>
          _ ← py_assert (match len with Some n => (n =? t_dim axis t)%nat | None => true end);
          l ← split axis (t_dim axis t) t;
          Ok (Steps l, axis, batch_size)
      | _ => Ok (Merged t, axis, batch_size)
      end
  | Steps l =>
      _ ← py_assert (match len with Some n => (length l =? n)%nat | None => true end);
      match l with
      | [] => Raise IndexError
      | m :: _ =>
          match merge with
          | Some true => t ← stack axis l; Ok (Merged t, axis, length m)
          | _ => Ok (Steps l, axis, length m)
          end
      end
  end.

Definition _mask_sequence_variable_length (data : gseq) (len : nat) (vl : list nat) (axis : nat) (merge : bool) : result gseq :=
  t ← match data with Merged t => Ok t | Steps l => stack axis l end;
  t ← sequence_mask axis vl t;
  if merge then Ok (Merged t) else l ← split axis len t; Ok (Steps l).

(** Iterating over an array gives its parts along the first axis; a row is then a column of numbers. *)
Definition columns (m : mat) : list mat := map (map (fun x => [x])) m.
(** With lengths, the result of [split] is not put in a list: for one step it is an array, and is iterated. *)
Definition _reverse_sequences (l : list mat) (unroll_step : nat) (vl : option (list nat)) : result (list mat) :=
  match vl with
  | None => _ ← state_at l 0; Ok (reverse l)
  | Some vl =>
      _ ← state_at l 0;
      t ← stack 0 l;
      t ← sequence_reverse vl t;
      l ← split 0 unroll_step t;
      Ok (match l with [m] => columns m | _ => l end)
  end.

(** ** Cells *)

Inductive gact := GStr (s : string) | GLeaky (alpha : F) | GFun (f : mat -> result mat).
Definition activation_op (act_type : string) (m : mat) : result mat :=
  if str_eqb act_type "relu" then Ok (mmap frelu m)
  else if str_eqb act_type "sigmoid" then Ok (mmap (fun a => 1 / (1 + fexp (fneg a))) m)
  else if str_eqb act_type "tanh" then Ok (mmap ftanh m)
  else if str_eqb act_type "softrelu" then Ok (mmap fsoftrelu m)
  else if str_eqb act_type "softsign" then Ok (mmap (fun a => a / (1 + fabs a)) m)
  else Raise MXNetError.
Definition get_activation (a : gact) (m : mat) : result mat :=
  match a with
  | GStr s => activation_op s m
  | GLeaky alpha => Ok (mmap (fun x => if fltb 0 x then x else alpha * x) m)
  | GFun f => f m
  end.

Record gweights := mkGW { gw_i2h : mat; gw_h2h : mat; gb_i2h : row; gb_h2h : row }.
(** The first argument of every class is [_modified]. *)
Inductive gcell :=
  | GRNN (modified : bool) (hidden : nat) (act : gact) (w : gweights)
  | GLSTM (modified : bool) (hidden : nat) (act rec_act : gact) (w : gweights)
  | GGRU (modified : bool) (hidden : nat) (w : gweights)
  | GSeq (modified : bool) (cells : list gcell)
  | GDropout (modified : bool) (rate : F) (axes : list nat)
  | GZoneout (modified : bool) (p_out p_state : F) (prev : option mat) (base : gcell)
  | GResidual (modified : bool) (base : gcell)
  | GBi (modified : bool) (l r : gcell).
Definition g_modified (c : gcell) : bool :=
  match c with GRNN b _ _ _ | GLSTM b _ _ _ _ | GGRU b _ _ | GSeq b _ | GDropout b _ _ | GZoneout b _ _ _ _ | GResidual b _ | GBi b _ _ => b end.
Definition g_set_modified (b : bool) (c : gcell) : gcell :=
  match c with
  | GRNN _ h a w => GRNN b h a w
  | GLSTM _ h a r w => GLSTM b h a r w
  | GGRU _ h w => GGRU b h w
  | GSeq _ l => GSeq b l
  | GDropout _ p ax => GDropout b p ax
  | GZoneout _ po ps prev c => GZoneout b po ps prev c
  | GResidual _ c => GResidual b c
  | GBi _ l r => GBi b l r
  end.
Definition g_is_bi (c : gcell) : bool := match c with GBi _ _ _ => true | _ => false end.
Definition g_is_seq (c : gcell) : bool := match c with GSeq _ _ => true | _ => false end.

(** [ModifierCell.__init__], [ZoneoutCell.__init__] and [ResidualCell.__init__].  [SequentialRNNCell] has no attribute
    [_bidirectional]. *)
Definition new_modifier (make : gcell -> gcell) (base : gcell) : result gcell :=
  _ ← py_assert (negb (g_modified base));
  Ok (make (g_set_modified true base)).
Definition new_zoneout (base : gcell) (p_out p_state : F) : result gcell :=
  _ ← py_assert (negb (g_is_bi base));
  if g_is_seq base then Raise AttributeError else new_modifier (GZoneout false p_out p_state None) base.
Definition new_residual (base : gcell) : result gcell := new_modifier (GResidual false) base.

(** The widths of the states. *)
Fixpoint g_state_info (c : gcell) : list nat :=
  match c with
  | GRNN _ h _ _ | GGRU _ h _ => [h]
  | GLSTM _ h _ _ _ => [h; h]
  | GSeq _ l => concat (map g_state_info l)
  | GDropout _ _ _ => []
  | GZoneout _ _ _ _ c | GResidual _ c => g_state_info c
  | GBi _ l r => g_state_info l ++ g_state_info r
  end.

Fixpoint g_reset (c : gcell) : gcell :=
  match c with
  | GSeq b l => GSeq b (map g_reset l)
  | GZoneout b po ps _ c => GZoneout b po ps None (g_reset c)
  | GResidual b c => GResidual b (g_reset c)
  | GBi b l r => GBi b (g_reset l) (g_reset r)
  | _ => c
  end.

(** [begin_state(func=g_zeros, batch_size)]; a modifier clears [_modified] of its base around the call. *)
Definition g_zeros (n w : nat) : mat := replicate n (replicate w 0).
Fixpoint begin_parts (batch_size : nat) (c : gcell) : result (list mat) :=
  match c with
  | GSeq _ l => s ← mapR (fun c => _ ← py_assert (negb (g_modified c)); begin_parts batch_size c) l; Ok (concat s)
  | GBi _ l r =>
      _ ← py_assert (negb (g_modified l));
      a ← begin_parts batch_size l;
      _ ← py_assert (negb (g_modified r));
      b ← begin_parts batch_size r;
      Ok (a ++ b)
  | GZoneout _ _ _ _ c | GResidual _ c => begin_parts batch_size c
  | _ => Ok (map (g_zeros batch_size) (g_state_info c))
  end.
Definition g_begin_state (batch_size : nat) (c : gcell) : result (list mat) :=
  _ ← py_assert (negb (g_modified c));
  begin_parts batch_size c.

(** ** One step *)

Definition rnn_forward (h : nat) (act : gact) (w : gweights) (x : mat) (states : list mat) : result (mat * list mat) :=
  i2h ← fully_connected (gw_i2h w) (gb_i2h w) h x;
  s0 ← state_at states 0;
  h2h ← fully_connected (gw_h2h w) (gb_h2h w) h s0;
  p ← g_ew fadd i2h h2h;
  o ← get_activation act p;
  Ok (o, [o]).
Definition lstm_forward (h : nat) (act rec_act : gact) (w : gweights) (x : mat) (states : list mat) : result (mat * list mat) :=
  i2h ← fully_connected (gw_i2h w) (gb_i2h w) (h * 4)%nat x;
  s0 ← state_at states 0;
  h2h ← fully_connected (gw_h2h w) (gb_h2h w) (h * 4)%nat s0;
  gates ← g_ew fadd i2h h2h;
  slices ← slice_channel 4 gates;
  in_gate ← (s ← state_at slices 0; get_activation rec_act s);
  forget_gate ← (s ← state_at slices 1; get_activation rec_act s);
  in_transform ← (s ← state_at slices 2; get_activation act s);
  out_gate ← (s ← state_at slices 3; get_activation rec_act s);
  s1 ← state_at states 1;
  a ← g_ew fmul forget_gate s1;
  b ← g_ew fmul in_gate in_transform;
  next_c ← g_ew fadd a b;
  (** [F.Activation] takes the name of an activation only *)
  t ← match act with GStr s => activation_op s next_c | _ => Raise MXNetError end;
  next_h ← g_ew fmul out_gate t;
  Ok (next_h, [next_h; next_c]).
Definition gru_forward (h : nat) (w : gweights) (x : mat) (states : list mat) : result (mat * list mat) :=
  prev ← state_at states 0;
  i2h ← fully_connected (gw_i2h w) (gb_i2h w) (h * 3)%nat x;
  h2h ← fully_connected (gw_h2h w) (gb_h2h w) (h * 3)%nat prev;
  i ← slice_channel 3 i2h;
  hs ← slice_channel 3 h2h;
  i2h_r ← state_at i 0; i2h_z ← state_at i 1; i2h ← state_at i 2;
  h2h_r ← state_at hs 0; h2h_z ← state_at hs 1; h2h ← state_at hs 2;
  reset_gate ← (s ← g_ew fadd i2h_r h2h_r; activation_op "sigmoid" s);
  update_gate ← (s ← g_ew fadd i2h_z h2h_z; activation_op "sigmoid" s);
  next_h_tmp ← (m ← g_ew fmul reset_gate h2h; s ← g_ew fadd i2h m; activation_op "tanh" s);
  a ← (o ← g_ew fsub (mmap (fun _ => 1) update_gate) update_gate; g_ew fmul o next_h_tmp);
  b ← g_ew fmul update_gate prev;
  next_h ← g_ew fadd a b;
  Ok (next_h, [next_h]).

Context {G : Type} (dropout : F -> list nat -> mat -> M G mat) (dropout_seq : F -> list nat -> gtensor -> M G gtensor).

(** [F.where(cond, a, b)] *)
Definition where_op (c a b : mat) : result mat :=
  if bool_decide (widths c = widths a) && bool_decide (widths a = widths b)
  then Ok (zip_with (fun c '(a, b) => zip_with (fun c '(a, b) => if fzero c then b else a) c (zip a b)) c (zip a b)) else Raise MXNetError.
(** [F.where(F.Dropout(F.ones_like(new), p), new, old)], if the rate is not 0. *)
Definition zone_out (p : F) (new old : mat) : M G mat :=
  if fzero p then mret new
  else mask ← dropout p [] (mmap (fun _ => 1) new); lift (where_op mask new old).
Fixpoint g_zone_states (p : F) (new old : list mat) : M G (list mat) :=
  match new, old with
  | n :: new, o :: old => s ← zone_out p n o; l ← g_zone_states p new old; mret (s :: l)
  | _, _ => mret []
  end.

(** The cells of a stack one after the other, each with its part of the states. *)
Definition for_parts {X} (f : gcell -> bool -> X -> list mat -> M G (X * list mat * gcell)) :=
  fix go (cells : list gcell) (x : X) (states : list mat) : M G (X * list mat * list gcell) :=
    match cells with
    | [] => mret (x, [], [])
    | c :: cells =>
        let n := length (g_state_info c) in
        '(x, s, c) ← f c (match cells with [] => true | _ => false end) x (take n states);
        '(x, ss, cs) ← go cells x (drop n states);
        mret (x, s ++ ss, c :: cs)
    end.

Fixpoint g_call (c : gcell) (x : mat) (states : list mat) {struct c} : M G (mat * list mat * gcell) :=
  match c with
  | GRNN _ h a w => '(o, s) ← lift (rnn_forward h a w x states); mret (o, s, c)
  | GLSTM _ h a r w => '(o, s) ← lift (lstm_forward h a r w x states); mret (o, s, c)
  | GGRU _ h w => '(o, s) ← lift (gru_forward h w x states); mret (o, s, c)
  | GSeq b l =>
      _ ← massert (forallb (fun c => negb (g_is_bi c)) l);
      '(o, s, l) ← for_parts (fun c _ x s => g_call c x s) l x states;
      mret (o, s, GSeq b l)
  | GDropout _ p ax =>
      o ← (if fltb 0 p then dropout p ax x else mret x);
      mret (o, states, c)
  | GZoneout b po ps prev base =>
      '(no, ns, base) ← g_call base x states;
      let prev_output := match prev with Some m => m | None => mmap (fun _ => 0) no end in
      output ← zone_out po no prev_output;
      s ← (if fzero ps then mret ns else g_zone_states ps ns states);
      mret (output, s, GZoneout b po ps (Some output) base)
  | GResidual b base =>
      '(o, s, base) ← g_call base x states;
      o ← lift (g_ew fadd o x);
      mret (o, s, GResidual b base)
  | GBi _ _ _ => raise NotImplementedError
  end.

(** ** Unrolling *)

Definition _get_begin_state (c : gcell) (begin : option (list mat)) (batch_size : nat) : result (list mat) :=
  match begin with Some s => Ok s | None => g_begin_state batch_size c end.

(** [for i in range(length)]: the outputs, the states after every step, the last states. *)
Fixpoint step_loop (c : gcell) (xs : list mat) (states : list mat) : M G (list mat * list (list mat) * list mat * gcell) :=
  match xs with
  | [] => mret ([], [], states, c)
  | x :: xs =>
      '(o, s, c) ← g_call c x states;
      '(os, ss, s', c) ← step_loop c xs s;
      mret (o :: os, s :: ss, s', c)
  end.
(** [zip] of the lists. *)
Definition zip_star {A} (l : list (list A)) : list (list A) :=
  match l with
  | [] => []
  | x :: r => transpose (foldr (fun y n => Nat.min (length y) n) (length x) r) l
  end.

Notation unroller := (nat -> gseq -> option (list mat) -> layout -> option bool -> option (list nat) -> M G (gseq * list mat * gcell)).

(** [RecurrentCell.unroll] *)
Definition g_base_unroll (c : gcell) : unroller := fun len inputs begin lay merge vl =>
  let c := g_reset c in
  '(x, axis, batch_size) ← lift (_format_sequence (Some len) inputs lay (Some false));
  begin ← lift (_get_begin_state c begin batch_size);
  let l := match x with Steps l => l | Merged _ => [] end in
  '(os, all_states, states, c) ← step_loop c l begin;
  '(outputs, states) ← lift (match vl with
    | None => Ok (Steps os, states)
    | Some vl =>
        states ← mapR (fun ele => t ← stack 0 ele; sequence_last vl t) (zip_star all_states);
        o ← _mask_sequence_variable_length (Steps os) len vl axis true;
        Ok (o, states)
    end);
  '(outputs, _, _) ← lift (_format_sequence (Some len) outputs lay merge);
  mret (outputs, states, c).

Definition g_dropout_unroll (b : bool) (p : F) (ax : list nat) : unroller := fun len inputs begin lay merge vl =>
  '(x, _, _) ← lift (_format_sequence (Some len) inputs lay merge);
  match x with
  | Merged t =>
      o ← (if fltb 0 p then dropout_seq p ax t else mret t);
      mret (Merged o, match begin with Some s => s | None => [] end, GDropout b p ax)
  | Steps _ => g_base_unroll (GDropout b p ax) len x begin lay merge None
  end.

Definition g_seq_unroll (rec : gcell -> unroller) (b : bool) (cells : list gcell) : unroller := fun len inputs begin lay merge vl =>
  '(x, _, batch_size) ← lift (_format_sequence (Some len) inputs lay None);
  begin ← lift (_get_begin_state (GSeq b cells) begin batch_size);
  '(x, s, cells) ← for_parts (fun c last x s => rec c len x (Some s) lay (if last : bool then merge else None) vl) cells x begin;
  mret (x, s, GSeq b cells).

(** Sums of the outputs and the inputs. *)
Definition add_inputs (merge : bool) (outputs inputs : gseq) : result gseq :=
  match outputs, inputs with
  | Merged a, Merged b => t ← t_ew fadd a b; Ok (Merged t)
  | Steps a, Steps b => l ← mapR (fun '(i, j) => g_ew fadd i j) (zip a b); Ok (Steps l)
  | _, _ => Raise TypeError
  end.
Definition g_residual_unroll (rec : unroller) (b : bool) : unroller := fun len inputs begin lay merge vl =>
  '(outputs, states, base) ← rec len inputs begin lay merge vl;
  let base := g_set_modified true base in
  let merge := match merge with Some m => m | None => match outputs with Merged _ => true | Steps _ => false end end in
  r ← lift (
    '(x, axis, _) ← _format_sequence (Some len) inputs lay (Some merge);
    x ← match vl with Some vl => _mask_sequence_variable_length x len vl axis merge | None => Ok x end;
    add_inputs merge outputs x);
  mret (r, states, GResidual b base).

(** The last part of [BidirectionalCell.unroll]: the outputs of both cells side by side. *)
Definition iterate (x : gseq) : list mat := match x with Steps l => l | Merged t => t_data t end.
Definition bi_format (lay : layout) (merge : option bool) (lo : gseq) (ro : list mat) : result (bool * gseq * gseq) :=
  match merge with
  | Some m => Ok (m, lo, Steps ro)
  | None =>
      let m := match lo with Merged _ => true | Steps _ => false end in
      '(lo, _, _) ← _format_sequence None lo lay (Some m);
      '(ro, _, _) ← _format_sequence None (Steps ro) lay (Some m);
      Ok (m, lo, ro)
  end.
Definition bi_concat (axis : nat) (merge : bool) (lo : gseq) (ro : list mat) : result gseq :=
  if merge then
    rt ← stack axis ro;
    match lo with Merged lt => t ← concat2 lt rt; Ok (Merged t) | Steps _ => Raise TypeError end
  else l ← mapR (fun '(a, b) => concat1 a b) (zip (iterate lo) ro); Ok (Steps l).
Definition g_bi_join (len : nat) (lay : layout) (merge : option bool) (vl : option (list nat)) (lo : gseq) (ro : list mat) : result gseq :=
  let axis := time_axis lay in
  '(merge, lo, ro) ← bi_format lay merge lo ro;
  o ← bi_concat axis merge lo (iterate ro);
  match vl with Some vl => _mask_sequence_variable_length o len vl axis merge | None => Ok o end.
Definition g_bi_unroll (recl recr : unroller) (b : bool) (l r : gcell) : unroller := fun len inputs begin lay merge vl =>
  '(x, axis, batch_size) ← lift (_format_sequence (Some len) inputs lay (Some false));
  rx ← lift (_reverse_sequences (iterate x) len vl);
  begin ← lift (_get_begin_state (GBi b l r) begin batch_size);
  let n := length (g_state_info l) in
  '(lo, ls, l) ← recl len x (Some (take n begin)) lay merge vl;
  '(ro, rs, r) ← recr len (Steps rx) (Some (drop n begin)) lay (Some false) vl;
  rr ← lift (_reverse_sequences (iterate ro) len vl);
  o ← lift (g_bi_join len lay merge vl lo rr);
  mret (o, ls ++ rs, GBi b l r).

(** [unroll], on a cell that has been reset. *)
Fixpoint unroll_cell (c : gcell) : unroller :=
  match c with
  | GSeq b l => g_seq_unroll unroll_cell b l
  | GDropout b p ax => g_dropout_unroll b p ax
  | GResidual b base => g_residual_unroll (fun len x begin lay merge vl =>
      match begin with
      | Some _ => unroll_cell base len x begin lay merge vl
      | None =>
          (** the base is not modified during the call *)
          '(_, _, n) ← lift (_format_sequence (Some len) x lay None);
          s ← lift (begin_parts n base);
          unroll_cell base len x (Some s) lay merge vl
      end) b
  | GBi b l r => g_bi_unroll (unroll_cell l) (unroll_cell r) b l r
  | c => g_base_unroll c
  end.
Definition g_unroll (c : gcell) : unroller := unroll_cell (g_reset c).
End GluonRNN.
