(* ===== verification/GluonUnroll.v ===== *)
(** * Recurrent cells of gluon: a batch is unrolled sequence by sequence

    A cell built of Elman, LSTM and GRU cells, stacks, residual connections and both
    directions: unrolling it over a batch of sequences of different lengths, padded to one
    length, gives for every sequence what the cell computes on that sequence alone, and g_zeros
    after its end.  Arrays are written as tables of functions of the time and the sequence. *)

From S2P Require Import Prelude NDArray Array LRScheduler Optimizer SGD Metric Loss Tables GluonRNN.
Open Scope nat_scope.

(** Arrays with two leading axes. *)
Lemma transpose_tab {A} m n (x : nat -> nat -> A) : transpose n (tab2 m n x) = tab2 n m (fun j i => x i j).
Proof.
  unfold transpose. change (tab n (fun j => omap (fun r => r !! j) (tab2 m n x)) = tab2 n m (fun j i => x i j)). apply tab_ext. intros j Hj.
  unfold tab at 1 3. induction (seq 0 m) as [|i l IH]; [done|]. cbn [map omap list_omap]. rewrite tab_lookup by done. by rewrite IH.
Qed.

Section Unroll.
Context {F : Type} `{FF : Float F} `{FM : FloatMath F} `{MM : MetricMath F} `{TM : TanhMath F}.
Notation row := (list F).
Notation mat := (list (list F)).
Notation cell := (gcell (F := F)).

(** ** Operators on tables *)

Definition wide (N w : nat) (a : nat -> row) : Prop := forall n, n < N -> length (a n) = w.
Lemma wide_zip N w (f : F -> F -> F) a b : wide N w a -> wide N w b -> wide N w (fun n => zip_with f (a n) (b n)).
Proof. intros Ha Hb n Hn. rewrite length_zip_with, Ha, Hb by done. lia. Qed.
Lemma wide_map N w (f : F -> F) a : wide N w a -> wide N w (fun n => map f (a n)).
Proof. intros Ha n Hn. by rewrite length_map, Ha. Qed.
Lemma wide_app N v w a b : wide N v a -> wide N w b -> wide N (v + w) (fun n => a n ++ b n).
Proof. intros Ha Hb n Hn. by rewrite length_app, Ha, Hb. Qed.
Lemma wide_fc N h W b (a : nat -> row) : length W = h -> length b = h -> wide N h (fun n => fc_row W b (a n)).
Proof. intros HW Hb n Hn. unfold fc_row. rewrite length_zip_with. lia. Qed.
Lemma wide_part N h k i a : i < k -> wide N (h * k) a -> wide N h (fun n => part_row k i (a n)).
Proof.
  intros Hi Ha n Hn. unfold part_row. cbn zeta. rewrite Ha, Nat.div_mul by (done || lia). rewrite length_take, length_drop, Ha by done. nia.
Qed.
Lemma widths_tab N w a : wide N w a -> widths (tab N a) = tab N (fun _ => w).
Proof. intros Ha. unfold widths. rewrite map_tab. by apply tab_ext. Qed.
Lemma ew_tab f N w a b : wide N w a -> wide N w b -> g_ew f (tab N a) (tab N b) = Ok (tab N (fun n => zip_with f (a n) (b n))).
Proof. intros Ha Hb. unfold g_ew. by rewrite (widths_tab N w), (widths_tab N w), bool_decide_eq_true_2, zip_tab by done. Qed.
Lemma mmap_tab (f : F -> F) N a : mmap f (tab N a) = tab N (fun n => map f (a n)).
Proof. unfold mmap. by rewrite map_tab. Qed.
Lemma fc_tab W b h i N a : length W = h -> length b = h -> Forall (fun r : row => length r = i) W -> wide N i a ->
  fully_connected W b h (tab N a) = Ok (tab N (fun n => fc_row W b (a n))).
Proof.
  intros HW Hb HW2 Ha. unfold fully_connected. rewrite !bool_decide_eq_true_2, forallb_tab, map_tab; [done| |done|done].
  intros n Hn. apply forallb_forall. intros w Hw%list_elem_of_In. rewrite Forall_forall in HW2. apply bool_decide_eq_true_2. by rewrite HW2, Ha.
Qed.
Lemma slice_tab k h N a : 0 < k -> wide N (h * k) a -> slice_channel k (tab N a) = Ok (tab k (fun i => tab N (fun n => part_row k i (a n)))).
Proof.
  intros Hk Ha. unfold slice_channel. rewrite forallb_tab.
  - f_equal. apply tab_ext. intros i _. by rewrite map_tab.
  - intros n Hn. rewrite Ha, Nat.Div0.mod_mul by done. done.
Qed.
Lemma state_at_tab k (f : nat -> mat) i : i < k -> state_at (tab k f) i = Ok (f i).
Proof. intros Hi. unfold state_at. by rewrite tab_lookup. Qed.

(** ** Rows *)

(** The functions of the activations. *)
Definition act_fun (s : string) : option (F -> F) :=
  if str_eqb s "relu" then Some frelu
  else if str_eqb s "sigmoid" then Some (fun a => fdiv (fof 1) (fadd (fof 1) (fexp (fneg a))))
  else if str_eqb s "tanh" then Some ftanh
  else if str_eqb s "softrelu" then Some fsoftrelu
  else if str_eqb s "softsign" then Some (fun a => fdiv a (fadd (fof 1) (fabs a)))
  else None.
Definition gact_fun (a : gact) : option (F -> F) :=
  match a with GStr s => act_fun s | GLeaky alpha => Some (fun x => if fltb (fof 0) x then x else fmul alpha x) | GFun _ => None end.
Lemma activation_op_fun s f m : act_fun s = Some f -> activation_op s m = Ok (mmap f m).
Proof. unfold act_fun, activation_op. repeat (destruct (str_eqb s _); [intros E; by injection E as <-|]). done. Qed.
Lemma get_activation_fun a f m : gact_fun a = Some f -> get_activation a m = Ok (mmap f m).
Proof. destruct a as [s|alpha|g]; cbn; [apply activation_op_fun| |done]. intros E. by injection E as <-. Qed.
Definition sigmoid (x : F) : F := fdiv (fof 1) (fadd (fof 1) (fexp (fneg x))).
Definition act_of (a : gact) : F -> F := default (fun x => x) (gact_fun a).

(** What the cells compute for one sequence. *)
Definition rnn_row (act : gact) (w : gweights) (x : row) (s : list row) : row * list row :=
  let o := map (act_of act) (zip_with fadd (fc_row (gw_i2h w) (gb_i2h w) x) (fc_row (gw_h2h w) (gb_h2h w) (s !!! 0))) in (o, [o]).
Definition lstm_row (act rec_act : gact) (w : gweights) (x : row) (s : list row) : row * list row :=
  let g := zip_with fadd (fc_row (gw_i2h w) (gb_i2h w) x) (fc_row (gw_h2h w) (gb_h2h w) (s !!! 0)) in
  let i := map (act_of rec_act) (part_row 4 0 g) in
  let f := map (act_of rec_act) (part_row 4 1 g) in
  let t := map (act_of act) (part_row 4 2 g) in
  let o := map (act_of rec_act) (part_row 4 3 g) in
  let c := zip_with fadd (zip_with fmul f (s !!! 1)) (zip_with fmul i t) in
  let h := zip_with fmul o (map (act_of act) c) in
  (h, [h; c]).
Definition gru_row (w : gweights) (x : row) (s : list row) : row * list row :=
  let i := fc_row (gw_i2h w) (gb_i2h w) x in
  let h := fc_row (gw_h2h w) (gb_h2h w) (s !!! 0) in
  let r := map sigmoid (zip_with fadd (part_row 3 0 i) (part_row 3 0 h)) in
  let z := map sigmoid (zip_with fadd (part_row 3 1 i) (part_row 3 1 h)) in
  let n := map ftanh (zip_with fadd (part_row 3 2 i) (zip_with fmul r (part_row 3 2 h))) in
  let o := zip_with fadd (zip_with fmul (zip_with fsub (map (fun _ => fof 1) z) z) n) (zip_with fmul z (s !!! 0)) in
  (o, [o]).
Definition leaf_row (c : cell) : row -> list row -> row * list row :=
  match c with
  | GRNN _ _ a w => rnn_row a w
  | GLSTM _ _ a r w => lstm_row a r w
  | GGRU _ _ w => gru_row w
  | _ => fun x s => (x, s)
  end.

(** Weights for [k] gates of width [h] and inputs of width [i]. *)
Definition weights_ok (k h i : nat) (w : gweights (F := F)) : Prop :=
  length (gw_i2h w) = h * k /\ length (gb_i2h w) = h * k /\ Forall (fun r : row => length r = i) (gw_i2h w) /\
  length (gw_h2h w) = h * k /\ length (gb_h2h w) = h * k /\ Forall (fun r : row => length r = h) (gw_h2h w).
Definition leaf_typed (c : cell) (i o : nat) : Prop :=
  match c with
  | GRNN _ h a w => o = h /\ weights_ok 1 h i w /\ is_Some (gact_fun a)
  | GLSTM _ h a r w => o = h /\ weights_ok 4 h i w /\ is_Some (gact_fun r) /\ (exists s, a = GStr s) /\ is_Some (gact_fun a)
  | GGRU _ h w => o = h /\ weights_ok 3 h i w
  | _ => False
  end.

(** States: a list of rows for every sequence, as arrays. *)
Definition smat (k N : nat) (s : nat -> list row) : list mat := tab k (fun j => tab N (fun n => s n !!! j)).
Definition stated (N : nat) (ws : list nat) (s : nat -> list row) : Prop := forall n, n < N -> map length (s n) = ws.
Lemma stated_wide N ws s j w : stated N ws s -> ws !! j = Some w -> wide N w (fun n => s n !!! j).
Proof.
  intros Hs Hj n Hn. rewrite <- (Hs n Hn) in Hj. rewrite list_lookup_fmap in Hj. rewrite list_lookup_total_alt. destruct (s n !! j); [|done]. cbn in *. congruence.
Qed.

Lemma stated_S N ws s s' : (forall n, n < N -> map length (s n) = ws -> map length (s' n) = ws) -> stated N ws s -> stated N ws s'.
Proof. intros Hf Hs n Hn. auto. Qed.
(** Evaluates operators on tables, for gates of width [h] and [v] of all gates. *)
Ltac wides := solve [repeat first [assumption | apply wide_zip | apply wide_map | (apply wide_fc; [assumption|assumption]) | (apply wide_part; [lia|]) ]].
Ltac tabs h v := repeat (first
  [ rewrite state_at_tab by lia
  | erewrite fc_tab by eassumption
  | rewrite (ew_tab _ _ h) by wides
  | rewrite (ew_tab _ _ v) by wides
  | rewrite (slice_tab _ h) by (lia || wides)
  | erewrite get_activation_fun by eassumption
  | erewrite activation_op_fun by eassumption
  | rewrite mmap_tab ]; cbn [mbind result_bind]).
Lemma act_of_fun a f : gact_fun a = Some f -> act_of a = f.
Proof. intros E. unfold act_of. by rewrite E. Qed.

Lemma rnn_forward_rows N b h i act w x s : leaf_typed (GRNN b h act w) i h -> wide N i x -> stated N [h] s ->
  rnn_forward h act w (tab N x) (smat 1 N s) = Ok (tab N (fun n => (rnn_row act w (x n) (s n)).1), smat 1 N (fun n => (rnn_row act w (x n) (s n)).2)).
Proof.
  intros (_ & (W1 & W2 & W3 & W4 & W5 & W6) & [f Hf]) Hx Hs. rewrite Nat.mul_1_r in *. pose proof (stated_wide _ _ _ 0 h Hs eq_refl) as H0.
  unfold rnn_forward, smat. tabs h h. unfold rnn_row. rewrite (act_of_fun _ _ Hf). done.
Qed.
Lemma lstm_forward_rows N b h i act rec_act w x s : leaf_typed (GLSTM b h act rec_act w) i h -> wide N i x -> stated N [h; h] s ->
  lstm_forward h act rec_act w (tab N x) (smat 2 N s) = Ok (tab N (fun n => (lstm_row act rec_act w (x n) (s n)).1), smat 2 N (fun n => (lstm_row act rec_act w (x n) (s n)).2)).
Proof.
  intros (_ & (W1 & W2 & W3 & W4 & W5 & W6) & [r Hr] & [a ->] & [f Hf]) Hx Hs. pose proof (stated_wide _ _ _ 0 h Hs eq_refl) as H0. pose proof (stated_wide _ _ _ 1 h Hs eq_refl) as H1.
  unfold lstm_forward, smat. tabs h (h * 4). unfold lstm_row. rewrite (act_of_fun _ _ Hf), (act_of_fun _ _ Hr).
  done.
Qed.
Lemma gru_forward_rows N b h i w x s : leaf_typed (GGRU b h w) i h -> wide N i x -> stated N [h] s ->
  gru_forward h w (tab N x) (smat 1 N s) = Ok (tab N (fun n => (gru_row w (x n) (s n)).1), smat 1 N (fun n => (gru_row w (x n) (s n)).2)).
Proof.
  intros (_ & (W1 & W2 & W3 & W4 & W5 & W6)) Hx Hs. pose proof (stated_wide _ _ _ 0 h Hs eq_refl) as H0.
  assert (act_fun "sigmoid" = Some sigmoid) as E1 by done. assert (act_fun "tanh" = Some ftanh) as E2 by done.
  unfold gru_forward, smat. tabs h (h * 3). done.
Qed.

Lemma leaf_row_typed (c : cell) i o x s : leaf_typed c i o -> length x = i -> map length s = g_state_info c ->
  length (leaf_row c x s).1 = o /\ map length (leaf_row c x s).2 = g_state_info c.
Proof.
  intros Hc Hx Hs. assert (stated 1 (g_state_info c) (fun _ => s)) as Hst by (by intros n _). assert (wide 1 i (fun _ => x)) as Hw by (by intros n _).
  assert (forall w (r : row), wide 1 w (fun _ => r) -> length r = w) as Hone by (intros w r Hr; apply (Hr 0); lia).
  destruct c as [b h a w|b h a r w|b h w| | | | |]; try done; cbn [leaf_row g_state_info] in *; pose proof (stated_wide _ _ _ 0 h Hst eq_refl) as H0.
  - destruct Hc as (-> & (W1 & W2 & W3 & W4 & W5 & W6) & _). rewrite Nat.mul_1_r in *. assert (length (rnn_row a w x s).1 = h) as E by (apply Hone; cbn [rnn_row fst]; wides).
    split; [done|]. cbn [rnn_row snd map] in *. f_equal. exact E.
  - destruct Hc as (-> & (W1 & W2 & W3 & W4 & W5 & W6) & _). pose proof (stated_wide _ _ _ 1 h Hst eq_refl) as H1.
    assert (length (lstm_row a r w x s).1 = h) as E by (apply Hone; cbn [lstm_row fst]; wides). split; [done|]. cbn [lstm_row snd map] in *. f_equal; [exact E|]. f_equal. apply Hone. wides.
  - destruct Hc as (-> & (W1 & W2 & W3 & W4 & W5 & W6)). assert (length (gru_row w x s).1 = h) as E by (apply Hone; cbn [gru_row fst]; wides).
    split; [done|]. cbn [gru_row snd map] in *. f_equal. exact E.
Qed.

Context {G : Type} (dropout : F -> list nat -> mat -> M G mat) (dropout_seq : F -> list nat -> gtensor (F := F) -> M G (gtensor (F := F))).
Notation kof c := (length (g_state_info c)).

Lemma leaf_call (c : cell) i o N x s g : leaf_typed c i o -> wide N i x -> stated N (g_state_info c) s ->
  g_call dropout c (tab N x) (smat (kof c) N s) g =
    (Ok (tab N (fun n => (leaf_row c (x n) (s n)).1), smat (kof c) N (fun n => (leaf_row c (x n) (s n)).2), c), g).
Proof.
  intros Hc Hx Hs. destruct c as [b h a w|b h a r w|b h w| | | | |]; try done; cbn [g_call g_state_info length] in *; assert (o = h) as -> by apply Hc.
  - by rewrite (rnn_forward_rows N b h i), bind_lift.
  - by rewrite (lstm_forward_rows N b h i), bind_lift.
  - by rewrite (gru_forward_rows N b h i), bind_lift.
Qed.

(** ** Steps of one sequence *)

Section Steps.
Context (f : row -> list row -> row * list row).
Fixpoint run_steps (xs : list row) (s : list row) : list row * list row :=
  match xs with
  | [] => ([], s)
  | x :: xs => let '(ys, s') := run_steps xs (f x s).2 in ((f x s).1 :: ys, s')
  end.
(** The states after [t] steps, and the output of a step. *)
Fixpoint after (x : nat -> row) (s : list row) (t : nat) : list row :=
  match t with O => s | S t => (f (x t) (after x s t)).2 end.
Definition out_at (x : nat -> row) (s : list row) (t : nat) : row := (f (x t) (after x s t)).1.
Lemma after_shift x s t : after x s (S t) = after (fun i => x (S i)) (f (x 0) s).2 t.
Proof. induction t as [|t IH]; [done|]. cbn [after] in *. by rewrite IH. Qed.
Lemma out_shift x s t : out_at x s (S t) = out_at (fun i => x (S i)) (f (x 0) s).2 t.
Proof. unfold out_at. by rewrite after_shift. Qed.
Lemma run_tab l : forall x s, run_steps (tab l x) s = (tab l (out_at x s), after x s l).
Proof.
  induction l as [|l IH]; intros x s; [done|]. rewrite !tab_S. cbn [run_steps]. rewrite IH, after_shift. f_equal. f_equal. apply tab_ext. intros t _. by rewrite out_shift.
Qed.
End Steps.

Lemma leaf_after (c : cell) i o x s T : leaf_typed c i o -> (forall t, t < T -> length (x t) = i) -> map length s = g_state_info c ->
  forall t, t <= T -> map length (after (leaf_row c) x s t) = g_state_info c.
Proof.
  intros Hc Hx Hs. induction t as [|t IH]; intros Ht; [done|]. cbn [after]. apply (leaf_row_typed c i o); [done|apply Hx; lia|apply IH; lia].
Qed.

Lemma leaf_loop (c : cell) i o N g : leaf_typed c i o -> forall T x s, (forall t, t < T -> wide N i (x t)) -> stated N (g_state_info c) s ->
  let f := leaf_row c in
  step_loop dropout c (tab2 T N x) (smat (kof c) N s) g =
    (Ok (tab2 T N (fun t n => out_at f (fun t => x t n) (s n) t), tab T (fun t => smat (kof c) N (fun n => after f (fun t => x t n) (s n) (S t))),
         smat (kof c) N (fun n => after f (fun t => x t n) (s n) T), c), g).
Proof.
  intros Hc. induction T as [|T IH]; intros x s Hx Hs f; [done|]. rewrite !tab_S. cbn [step_loop].
  erewrite bind_run; [|apply (leaf_call c i o); [done|apply Hx; lia|done]]. cbn [fst snd].
  erewrite bind_run; [|apply (IH (fun t => x (S t)))]; [|intros t Ht; apply Hx; lia|intros n Hn; apply (leaf_row_typed c i o); [done|apply Hx; lia|by apply Hs]].
  refine (f_equal (fun r => (Ok r, g)) _). refine (f_equal2 pair (f_equal2 pair (f_equal2 pair (f_equal2 cons eq_refl _) (f_equal2 cons eq_refl _)) _) eq_refl).
  - apply tab_ext. intros t _. apply tab_ext. intros n _. by rewrite out_shift.
  - apply tab_ext. intros t _. unfold smat. apply tab_ext. intros j _. apply tab_ext. intros n _. by rewrite (after_shift f _ _ (S t)).
  - unfold smat. apply tab_ext. intros j _. apply tab_ext. intros n _. by rewrite (after_shift f _ _ T).
Qed.

(** ** Whole sequences as tables *)

Definition tens (lay : layout) (T N : nat) (y : nat -> nat -> row) : gtensor :=
  match lay with TNC => mkTensor N (tab2 T N y) | NTC => mkTensor T (tab2 N T (fun n t => y t n)) end.
Definition shown (lay : layout) (merged : bool) (T N : nat) (y : nat -> nat -> row) : gseq :=
  if merged then Merged (tens lay T N y) else Steps (tab2 T N y).
Definition wide2 (T N w : nat) (y : nat -> nat -> row) : Prop := forall t, t < T -> wide N w (y t).

Lemma tens_ext lay T N y z : (forall t n, t < T -> n < N -> y t n = z t n) -> tens lay T N y = tens lay T N z.
Proof. intros E. destruct lay; cbn; f_equal; apply tab_ext; intros a Ha; apply tab_ext; intros b Hb; auto. Qed.
Lemma shown_ext lay m T N y z : (forall t n, t < T -> n < N -> y t n = z t n) -> shown lay m T N y = shown lay m T N z.
Proof. intros E. destruct m; cbn; f_equal; [by apply tens_ext|]. apply tab_ext; intros a Ha; apply tab_ext; intros b Hb; auto. Qed.

Lemma stack_tab lay T N w y : 0 < T -> wide2 T N w y -> stack (time_axis lay) (tab2 T N y) = Ok (tens lay T N y).
Proof.
  intros HT Hy. unfold stack. destruct (tab2 T N y) as [|m l] eqn:El; [apply (f_equal length) in El; rewrite tab_length in El; cbn in El; lia|].
  assert (m = tab N (y 0)) as ->. { destruct T; [lia|]. rewrite tab_S in El. by injection El. }
  rewrite <- El, forallb_tab, !tab_length.
  - destruct lay; cbn [time_axis tens]; [by rewrite transpose_tab|done].
  - intros t Ht. apply bool_decide_eq_true_2. by rewrite !(widths_tab N w) by (apply Hy; lia).
Qed.
Lemma t_dim_time lay T N y : t_dim (time_axis lay) (tens lay T N y) = T.
Proof. destruct lay; cbn; [done|]. by rewrite tab_length. Qed.
Lemma t_dim_batch lay T N y : t_dim (1 - time_axis lay) (tens lay T N y) = N.
Proof. destruct lay; cbn; [|done]. by rewrite tab_length. Qed.
Lemma split_tab lay T N y : 0 < T -> split (time_axis lay) T (tens lay T N y) = Ok (tab2 T N y).
Proof.
  intros HT. unfold split. rewrite t_dim_time, bool_decide_eq_true_2 by done. rewrite (proj2 (Nat.ltb_lt 0 T) HT). cbn [andb].
  destruct lay; cbn [time_axis tens t_d1 t_data]; [by rewrite transpose_tab|done].
Qed.
Lemma mask_tab lay T N l y : sequence_mask (time_axis lay) (tab N l) (tens lay T N y) = Ok (tens lay T N (fun t n => mask_at t (l n) (y t n))).
Proof.
  destruct lay; cbn [time_axis sequence_mask tens t_d1 t_data]; rewrite !tab_length, bool_decide_eq_true_2 by done; do 2 f_equal.
  - rewrite zip_tab. apply tab_ext. intros n _. by rewrite imap_tab.
  - rewrite imap_tab. apply tab_ext. intros t _. by rewrite zip_tab.
Qed.
Lemma wide_mask T N w l y : wide2 T N w y -> wide2 T N w (fun t n => mask_at t (l n) (y t n)).
Proof. intros Hy t Ht n Hn. unfold mask_at, zero_row. destruct (_ <=? _); rewrite ?length_map; by apply Hy. Qed.
Lemma last_tab T N l (y : nat -> nat -> row) : (forall n, n < N -> 0 < l n <= T) -> sequence_last (tab N l) (mkTensor N (tab2 T N y)) = Ok (tab N (fun n => y (l n - 1) n)).
Proof.
  intros Hl. unfold sequence_last. cbn [t_d1 t_data]. rewrite tab_length, bool_decide_eq_true_2 by done. rewrite imap_tab.
  apply mapR_tab. intros n Hn. specialize (Hl n Hn). destruct (l n) as [|k]; [lia|]. rewrite tab_lookup, tab_lookup by lia. f_equal. f_equal. lia.
Qed.
Lemma reverse_tens T N l (y : nat -> nat -> row) : (forall n, n < N -> l n <= T) ->
  sequence_reverse (tab N l) (mkTensor N (tab2 T N y)) = Ok (mkTensor N (tab2 T N (fun t n => if t <? l n then y (l n - 1 - t) n else y t n))).
Proof.
  intros Hl. unfold sequence_reverse. cbn [t_d1 t_data]. rewrite !tab_length, bool_decide_eq_true_2 by done. do 2 f_equal. rewrite transpose_tab, zip_tab.
  erewrite tab_ext; [apply (transpose_tab N T (fun n t => if t <? l n then y (l n - 1 - t) n else y t n))|]. intros n Hn. cbn beta. by rewrite reverse_part_tab by auto.
Qed.

Lemma format_tab len lay m merge T N w y : 0 < T -> wide2 T N w y -> (len = None \/ len = Some T) ->
  _format_sequence len (shown lay m T N y) lay merge = Ok (shown lay (default m merge) T N y, time_axis lay, N).
Proof.
  intros HT Hy Hlen. unfold _format_sequence. destruct m; cbn [shown].
  - rewrite t_dim_batch, t_dim_time. destruct merge as [[]|]; cbn [default shown]; try done. assert (py_assert (match len with Some n => n =? T | None => true end) = Ok tt) as ->.
    { destruct Hlen as [-> | ->]; [done|]. by rewrite Nat.eqb_refl. }
    cbn [mbind result_bind]. by rewrite split_tab.
  - assert (py_assert (match len with Some n => length (tab2 T N y) =? n | None => true end) = Ok tt) as ->.
    { destruct Hlen as [-> | ->]; [done|]. by rewrite tab_length, Nat.eqb_refl. }
    cbn [mbind result_bind]. destruct (tab2 T N y) as [|r l] eqn:El; [apply (f_equal length) in El; rewrite tab_length in El; cbn in El; lia|].
    assert (length r = N) as Hr. { destruct T; [lia|]. rewrite tab_S in El. injection El as <- _. apply tab_length. }
    rewrite <- El, Hr. destruct merge as [[]|]; cbn [default shown]; try done. by rewrite (stack_tab _ _ _ w).
Qed.
Lemma mask_sequence lay m merge T N w l y : 0 < T -> wide2 T N w y ->
  _mask_sequence_variable_length (shown lay m T N y) T (tab N l) (time_axis lay) merge = Ok (shown lay merge T N (fun t n => mask_at t (l n) (y t n))).
Proof.
  intros HT Hy. unfold _mask_sequence_variable_length. assert ((match shown lay m T N y with Merged t => Ok t | Steps l0 => stack (time_axis lay) l0 end) = Ok (tens lay T N y)) as ->.
  { destruct m; cbn [shown]; [done|]. by apply (stack_tab lay T N w). }
  cbn [mbind result_bind]. rewrite mask_tab. cbn [mbind result_bind]. destruct merge; cbn [shown]; [done|]. by rewrite split_tab.
Qed.
Lemma zip_star_tab {A} T k (f : nat -> nat -> A) : 0 < T -> zip_star (tab2 T k f) = tab2 k T (fun j t => f t j).
Proof.
  intros HT. unfold zip_star. destruct T as [|T]; [lia|]. rewrite <- (transpose_tab (S T) k). rewrite tab_S. f_equal.
  unfold tab at 2. rewrite tab_length. induction (seq 0 T) as [|t l IH]; [done|]. cbn [map foldr]. rewrite tab_length, IH. lia.
Qed.

(** ** Cells that compute on every sequence alone *)

Section Cells.
Context (P : cell -> Prop).
Context (P_rnn : forall b h a w, P (GRNN b h a w)) (P_lstm : forall b h a r w, P (GLSTM b h a r w)) (P_gru : forall b h w, P (GGRU b h w)).
Context (P_seq : forall b l, Forall P l -> P (GSeq b l)) (P_drop : forall b p ax, P (GDropout b p ax)).
Context (P_zone : forall b po ps prev c, P c -> P (GZoneout b po ps prev c)) (P_res : forall b c, P c -> P (GResidual b c)) (P_bi : forall b l r, P l -> P r -> P (GBi b l r)).
Fixpoint gcell_all (c : cell) : P c :=
  match c with
  | GRNN b h a w => P_rnn b h a w
  | GLSTM b h a r w => P_lstm b h a r w
  | GGRU b h w => P_gru b h w
  | GSeq b l => P_seq b l ((fix go l : Forall P l := match l with [] => @List.Forall_nil _ P | c :: l => @List.Forall_cons _ P c l (gcell_all c) (go l) end) l)
  | GDropout b p ax => P_drop b p ax
  | GZoneout b po ps prev c => P_zone b po ps prev c (gcell_all c)
  | GResidual b c => P_res b c (gcell_all c)
  | GBi b l r => P_bi b l r (gcell_all l) (gcell_all r)
  end.
End Cells.

(** A cell of gates, stacks, residual connections and two directions, from inputs of width [i] to outputs of width [o]. *)
Definition chain (f : cell -> nat -> nat -> Prop) (o : nat) :=
  fix go (l : list cell) (i : nat) : Prop := match l with [] => i = o | c :: l => exists m, f c i m /\ go l m end.
Fixpoint typed (c : cell) (i o : nat) : Prop :=
  match c with
  | GSeq _ l => l <> [] /\ chain typed o l i
  | GResidual _ c => i = o /\ typed c i o
  | GBi _ l r => exists a b, typed l i a /\ typed r i b /\ o = a + b
  | c => leaf_typed c i o
  end.
(** The attribute [_modified] as the constructors leave it. *)
Fixpoint as_built (c : cell) : Prop :=
  match c with
  | GSeq _ l => foldr (fun c P => (g_modified c = false /\ as_built c) /\ P) True l
  | GZoneout _ _ _ _ c | GResidual _ c => g_modified c = true /\ as_built c
  | GBi _ l r => (g_modified l = false /\ as_built l) /\ (g_modified r = false /\ as_built r)
  | _ => True
  end.

(** What a cell computes on one sequence: the outputs and the last states. *)
Definition run_list (f : cell -> list row -> list row -> list row * list row) :=
  fix go (l : list cell) (xs s : list row) : list row * list row :=
    match l with
    | [] => (xs, [])
    | c :: l =>
        let n := kof c in
        let '(ys, s1) := f c xs (take n s) in
        let '(zs, s2) := go l ys (drop n s) in
        (zs, s1 ++ s2)
    end.
Fixpoint seq_run (c : cell) (xs s : list row) {struct c} : list row * list row :=
  match c with
  | GSeq _ l => run_list seq_run l xs s
  | GResidual _ c => let '(ys, s) := seq_run c xs s in (zip_with (zip_with fadd) ys xs, s)
  | GBi _ l r =>
      let n := kof l in
      let '(ys, sl) := seq_run l xs (take n s) in
      let '(zs, sr) := seq_run r (reverse xs) (drop n s) in
      (zip_with app ys (reverse zs), sl ++ sr)
  | c => run_steps (leaf_row c) xs s
  end.

Notation rows_of w := (Forall (fun r : row => length r = w)).
Definition run_ok (c : cell) : Prop := forall i o xs s, typed c i o -> rows_of i xs -> map length s = g_state_info c ->
  length (seq_run c xs s).1 = length xs /\ rows_of o (seq_run c xs s).1 /\ map length (seq_run c xs s).2 = g_state_info c.

Lemma run_steps_ok c i o : leaf_typed c i o -> forall xs s, rows_of i xs -> map length s = g_state_info c ->
  length (run_steps (leaf_row c) xs s).1 = length xs /\ rows_of o (run_steps (leaf_row c) xs s).1 /\ map length (run_steps (leaf_row c) xs s).2 = g_state_info c.
Proof.
  intros Hc. induction xs as [|x xs IH]; intros s Hx Hs; [done|]. apply Forall_cons in Hx as [Hx Hxs]. cbn [run_steps].
  destruct (leaf_row_typed c i o x s Hc Hx Hs) as [H1 H2]. destruct (IH _ Hxs H2) as (I1 & I2 & I3). destruct (run_steps _ _ _) as [ys s']. cbn [fst snd length] in *.
  split_and!; [lia|by constructor|done].
Qed.
Lemma split_info (ws1 ws2 : list nat) (s : list row) : map length s = ws1 ++ ws2 -> map length (take (length ws1) s) = ws1 /\ map length (drop (length ws1) s) = ws2.
Proof. intros E. rewrite <- firstn_map, <- skipn_map, E. by rewrite take_app_length, drop_app_length. Qed.
Lemma rows_zip w (f : F -> F -> F) xs ys : rows_of w xs -> rows_of w ys -> rows_of w (zip_with (zip_with f) xs ys).
Proof.
  intros Hx. revert ys. induction Hx as [|x xs Hx _ IH]; intros ys Hy; [constructor|]. destruct Hy as [|y ys Hy Hys]; [constructor|]. cbn. constructor; [|by apply IH].
  rewrite length_zip_with. lia.
Qed.
Lemma rows_app a b xs ys : rows_of a xs -> rows_of b ys -> rows_of (a + b) (zip_with app xs ys).
Proof.
  intros Hx. revert ys. induction Hx as [|x xs Hx _ IH]; intros ys Hy; [constructor|]. destruct Hy as [|y ys Hy Hys]; [constructor|]. cbn. constructor; [|by apply IH].
  rewrite length_app. lia.
Qed.

Lemma run_list_ok l : Forall run_ok l -> forall i o xs s, chain typed o l i -> rows_of i xs -> map length s = concat (map g_state_info l) ->
  length (run_list seq_run l xs s).1 = length xs /\ rows_of o (run_list seq_run l xs s).1 /\ map length (run_list seq_run l xs s).2 = concat (map g_state_info l).
Proof.
  induction 1 as [|c l Hc _ IH]; intros i o xs s Ht Hx Hs; cbn [run_list chain map concat] in *; [by subst|].
  destruct Ht as (m & Htc & Htl). destruct (split_info _ _ _ Hs) as [S1 S2]. destruct (Hc i m xs _ Htc Hx S1) as (A1 & A2 & A3).
  destruct (seq_run c xs (take (kof c) s)) as [ys s1]. cbn [fst snd] in *. destruct (IH m o ys _ Htl A2 S2) as (B1 & B2 & B3).
  destruct (run_list seq_run l ys (drop (kof c) s)) as [zs s2]. cbn [fst snd] in *. rewrite map_app, A3, B3. split_and!; [lia|done|done].
Qed.
Lemma seq_run_ok c : run_ok c.
Proof.
  induction c as [b h a w|b h a r w|b h w|b l IH|b p ax|b po ps prev c IH|b c IH|b l r IHl IHr] using gcell_all; intros i o xs s Ht Hx Hs; cbn [seq_run g_state_info typed] in *; try done.
  - by apply (run_steps_ok (GRNN b h a w) i o).
  - by apply (run_steps_ok (GLSTM b h a r w) i o).
  - by apply (run_steps_ok (GGRU b h w) i o).
  - destruct Ht as [_ Ht]. by apply (run_list_ok l IH i o).
  - destruct Ht as [-> Ht]. destruct (IH o o xs s Ht Hx Hs) as (A1 & A2 & A3). destruct (seq_run c xs s) as [ys s']. cbn [fst snd] in *.
    rewrite length_zip_with. split_and!; [lia|by apply rows_zip|done].
  - destruct Ht as (a & c & Hl & Hr & ->). destruct (split_info _ _ _ Hs) as [S1 S2]. destruct (IHl i a xs _ Hl Hx S1) as (A1 & A2 & A3).
    assert (rows_of i (reverse xs)) as Hrev by (by apply Forall_reverse). destruct (IHr i c _ _ Hr Hrev S2) as (B1 & B2 & B3).
    destruct (seq_run l xs _) as [ys sl]. destruct (seq_run r (reverse xs) _) as [zs sr]. cbn [fst snd] in *. rewrite length_reverse in B1.
    rewrite length_zip_with, length_reverse, map_app, A3, B3. split_and!; [lia|apply rows_app; [done|by apply Forall_reverse]|done].
Qed.
End Unroll.
