(* ===== verification/GluonBatch.v ===== *)
(** * Recurrent cells of gluon: the theorem on batches

    [unroll] of a cell over a padded batch, with or without the lengths of its sequences, in
    either layout, computes for every sequence what the cell computes on it alone. *)

From S2P Require Import Prelude NDArray Array LRScheduler Optimizer SGD Metric Loss Tables GluonRNN GluonUnroll.
Open Scope nat_scope.

Section Batch.
Context {F : Type} `{FF : Float F} `{FM : FloatMath F} `{MM : MetricMath F} `{TM : TanhMath F}.
Context {G : Type} (dropout : F -> list nat -> list (list F) -> M G (list (list F))) (dropout_seq : F -> list nat -> gtensor (F := F) -> M G (gtensor (F := F))).
(** The sum of two g_zeros is zero. *)
Hypothesis add_zero : fadd (fof 0) (fof 0) = fof 0 :> F.
Notation row := (list F).
Notation mat := (list (list F)).
Notation cell := (gcell (F := F)).
Notation kof c := (length (g_state_info c)).
Notation zeros_row w := (replicate w (fof 0 : F)).
Notation unroll := (unroll_cell dropout dropout_seq).

(** The length of a sequence, what the cell computes on it, and the padded outputs. *)
Definition len_of (vl : option (nat -> nat)) (T n : nat) : nat := match vl with Some l => l n | None => T end.
Definition alone (c : cell) (vl : option (nat -> nat)) (T : nat) (x : nat -> nat -> row) (s : nat -> list row) (n : nat) : list row * list row :=
  seq_run c (tab (len_of vl T n) (fun t => x t n)) (s n).
Definition padded_out (c : cell) (vl : option (nat -> nat)) (T o : nat) (x : nat -> nat -> row) (s : nat -> list row) (t n : nat) : row :=
  if t <? len_of vl T n then (alone c vl T x s n).1 !!! t else zeros_row o.
Definition has_lengths (vl : option (nat -> nat)) : bool := match vl with Some _ => true | None => false end.
Definition form (merge : option bool) (vl : option (nat -> nat)) : bool := default (has_lengths vl) merge.

(** The settings for which outputs of both directions are joined along the right axis. *)
Definition fine_list (f : option bool -> cell -> Prop) (merge : option bool) :=
  fix go (l : list cell) : Prop := match l with [] => True | c :: l => f (match l with [] => merge | _ => None end) c /\ go l end.
Fixpoint fine (lay : layout) (T : nat) (lengths : bool) (merge : option bool) (c : cell) : Prop :=
  match c with
  | GSeq _ l => fine_list (fun m c => fine lay T lengths m c) merge l
  | GResidual _ c => fine lay T lengths merge c
  | GBi _ l r => (lengths = true -> 2 <= T /\ (lay = TNC \/ merge <> None)) /\ fine lay T lengths merge l /\ fine lay T lengths (Some false) r
  | _ => True
  end.

Definition lengths_ok (vl : option (nat -> nat)) (T N : nat) : Prop := 0 < T /\ forall n, n < N -> 0 < len_of vl T n <= T.
Definition unrolls (c : cell) : Prop := forall i o lay T N vl m merge x s g,
  typed c i o -> as_built c -> lengths_ok vl T N -> fine lay T (has_lengths vl) merge c -> wide2 T N i x -> stated N (g_state_info c) s ->
  unroll c T (shown lay m T N x) (Some (smat (kof c) N s)) lay merge (tab N <$> vl) g =
    (Ok (shown lay (form merge vl) T N (padded_out c vl T o x s), smat (kof c) N (fun n => (alone c vl T x s n).2), c), g).

Lemma smat_ext k N (s s' : nat -> list row) : (forall n, n < N -> s n = s' n) -> smat k N s = smat k N s'.
Proof. intros E. unfold smat. apply tab_ext. intros j _. apply tab_ext. intros n Hn. by rewrite E. Qed.
Lemma zero_row_length (r : row) w : length r = w -> zero_row r = zeros_row w.
Proof. intros <-. unfold zero_row. induction r as [|y r IH]; [done|]. cbn. by rewrite IH. Qed.

(** The inputs of one sequence. *)
Lemma rows_tab T N w (x : nat -> nat -> row) n l : wide2 T N w x -> n < N -> l <= T -> Forall (fun r : row => length r = w) (tab l (fun t => x t n)).
Proof. intros Hx Hn Hl. apply Forall_tab. intros t Ht. apply Hx; lia. Qed.
Lemma alone_ok c i o vl T N x s n : typed c i o -> lengths_ok vl T N -> wide2 T N i x -> stated N (g_state_info c) s -> n < N ->
  length (alone c vl T x s n).1 = len_of vl T n /\ Forall (fun r : row => length r = o) (alone c vl T x s n).1 /\ map length (alone c vl T x s n).2 = g_state_info c.
Proof.
  intros Ht [HT Hl] Hx Hs Hn. unfold alone. destruct (seq_run_ok c i o (tab (len_of vl T n) (fun t => x t n)) (s n) Ht) as (A & B & C); [|by apply Hs|].
  { eapply rows_tab; [done|done|apply Hl; done]. }
  rewrite tab_length in A. done.
Qed.
Lemma padded_wide c i o vl T N x s : typed c i o -> lengths_ok vl T N -> wide2 T N i x -> stated N (g_state_info c) s -> wide2 T N o (padded_out c vl T o x s).
Proof.
  intros Ht Hl Hx Hs t HT n Hn. destruct (alone_ok c i o vl T N x s n Ht Hl Hx Hs Hn) as (A & B & _). unfold padded_out.
  destruct (Nat.ltb_spec t (len_of vl T n)); [|apply length_replicate]. rewrite Forall_forall in B. apply B. apply list_elem_of_lookup_total_2. lia.
Qed.
(** The outputs before the end of the sequence. *)
Lemma padded_tab c i o vl T N x s n : typed c i o -> lengths_ok vl T N -> wide2 T N i x -> stated N (g_state_info c) s -> n < N ->
  tab (len_of vl T n) (fun t => padded_out c vl T o x s t n) = (alone c vl T x s n).1.
Proof.
  intros Ht Hl Hx Hs Hn. destruct (alone_ok c i o vl T N x s n Ht Hl Hx Hs Hn) as (A & _). symmetry. rewrite (tab_eta (len_of vl T n)) at 1 by done.
  apply tab_ext. intros t Hlt. unfold padded_out. by rewrite (proj2 (Nat.ltb_lt _ _)).
Qed.

(** ** Cells with gates *)

Lemma leaf_states c i o T N l x s : leaf_typed c i o -> 0 < T -> (forall n, n < N -> 0 < l n <= T) -> wide2 T N i x -> stated N (g_state_info c) s ->
  mapR (fun ele => t ← stack 0 ele; sequence_last (tab N l) t) (zip_star (tab T (fun t => smat (kof c) N (fun n => after (leaf_row c) (fun t => x t n) (s n) (S t))))) =
    Ok (smat (kof c) N (fun n => after (leaf_row c) (fun t => x t n) (s n) (l n))).
Proof.
  intros Hc HT Hl Hx Hs. unfold smat at 1. rewrite zip_star_tab by done. apply mapR_tab. intros j Hj.
  destruct (g_state_info c !! j) as [w|] eqn:Ew; [|apply lookup_ge_None_1 in Ew; lia].
  rewrite (stack_tab TNC T N w) by (done || (intros t Ht; apply (stated_wide N (g_state_info c) (fun n => after (leaf_row c) (fun t => x t n) (s n) (S t)) j); [|done];
    intros n Hn; apply (leaf_after c i o _ _ T); [done|intros u Hu; by apply Hx|by apply Hs|lia])).
  cbn [mbind result_bind tens]. rewrite last_tab by done. f_equal. apply tab_ext. intros n Hn. destruct (Hl n Hn). by replace (S (l n - 1)) with (l n) by lia.
Qed.

Lemma leaf_alone c vl T x s n : (forall xs r, seq_run c xs r = run_steps (leaf_row c) xs r) ->
  alone c vl T x s n = (tab (len_of vl T n) (out_at (leaf_row c) (fun t => x t n) (s n)), after (leaf_row c) (fun t => x t n) (s n) (len_of vl T n)).
Proof. intros E. unfold alone. by rewrite E, run_tab. Qed.

Lemma leaf_out_wide c i o T N x s : leaf_typed c i o -> wide2 T N i x -> stated N (g_state_info c) s ->
  wide2 T N o (fun t n => out_at (leaf_row c) (fun t => x t n) (s n) t).
Proof.
  intros Hc Hx Hs t Ht n Hn. unfold out_at. apply (leaf_row_typed c i o); [done|by apply Hx|]. apply (leaf_after c i o _ _ T); [done|intros u Hu; by apply Hx|by apply Hs|lia].
Qed.

Lemma leaf_unrolls c : g_reset c = c -> (forall i o, typed c i o -> leaf_typed c i o) -> (forall xs r, seq_run c xs r = run_steps (leaf_row c) xs r) ->
  unroll c = g_base_unroll dropout c -> unrolls c.
Proof.
  intros Hr Hty Hrun Hu i o lay T N vl m merge x s g Ht _ [HT Hl] _ Hx Hs. apply Hty in Ht as Hc. rewrite Hu. unfold g_base_unroll. rewrite Hr.
  rewrite (format_tab _ _ _ _ _ _ i) by (done || by right). rewrite bind_lift. cbn [default _get_begin_state]. rewrite bind_lift. cbn [shown].
  rewrite (bind_run _ _ _ _ _ (leaf_loop dropout c i o N g Hc T x s Hx Hs)). pose proof (leaf_out_wide c i o T N x s Hc Hx Hs) as Hw.
  assert (forall n, alone c vl T x s n = (tab (len_of vl T n) (out_at (leaf_row c) (fun t => x t n) (s n)), after (leaf_row c) (fun t => x t n) (s n) (len_of vl T n))) as Ha by (intros n; by apply leaf_alone).
  set (y := fun t n => out_at (leaf_row c) (fun t => x t n) (s n) t) in *.
  change (Steps (tab T (fun t => tab N (fun n => out_at (leaf_row c) (fun t => x t n) (s n) t)))) with (shown lay false T N y).
  destruct vl as [l|]; cbn [fmap option_fmap option_map len_of] in *.
  - rewrite (leaf_states c i o T N l x s Hc HT Hl Hx Hs). cbn [mbind result_bind].
    rewrite (mask_sequence lay false true T N o) by done. cbn [mbind result_bind]. rewrite bind_lift.
    rewrite (format_tab _ _ true _ _ _ o) by (done || (by right) || by apply wide_mask). rewrite bind_lift.
    refine (f_equal (fun r => (Ok r, g)) _). refine (f_equal2 pair (f_equal2 pair _ _) eq_refl); [|by apply smat_ext; intros n _; rewrite Ha].
    apply shown_ext. intros t n HtT Hn. unfold padded_out. rewrite Ha. cbn [len_of fst]. unfold mask_at. destruct (Nat.leb_spec (l n) t), (Nat.ltb_spec t (l n)); try lia.
    + by apply zero_row_length, Hw.
    + by rewrite tab_lookup_total.
  - rewrite bind_lift. rewrite (format_tab _ _ false _ _ _ o) by (done || by right). rewrite bind_lift.
    refine (f_equal (fun r => (Ok r, g)) _). refine (f_equal2 pair (f_equal2 pair _ _) eq_refl); [|by apply smat_ext; intros n _; rewrite Ha].
    apply shown_ext. intros t n HtT Hn. unfold padded_out. rewrite Ha. cbn [len_of fst]. by rewrite (proj2 (Nat.ltb_lt _ _)), tab_lookup_total.
Qed.

(** ** Stacks *)

Lemma smat_take k1 k2 N (s : nat -> list row) : take k1 (smat (k1 + k2) N s) = smat k1 N (fun n => take k1 (s n)).
Proof.
  unfold smat. rewrite take_tab by lia. apply tab_ext. intros j Hj. apply tab_ext. intros n _. by rewrite !list_lookup_total_alt, lookup_take_lt.
Qed.
Lemma smat_drop k1 k2 N (s : nat -> list row) : drop k1 (smat (k1 + k2) N s) = smat k2 N (fun n => drop k1 (s n)).
Proof.
  unfold smat. apply tab_of; [rewrite length_drop, tab_length; lia|]. intros j Hj. rewrite lookup_drop, tab_lookup by lia. f_equal. apply tab_ext. intros n _.
  by rewrite !list_lookup_total_alt, lookup_drop.
Qed.
Lemma smat_app k1 k2 N (s1 s2 : nat -> list row) : (forall n, n < N -> length (s1 n) = k1) -> smat k1 N s1 ++ smat k2 N s2 = smat (k1 + k2) N (fun n => s1 n ++ s2 n).
Proof.
  intros Hl. unfold smat. apply tab_of; [by rewrite length_app, !tab_length|]. intros j Hj. destruct (Nat.lt_ge_cases j k1) as [Hlt|Hge].
  - rewrite lookup_app_l, tab_lookup by (rewrite ?tab_length; lia). f_equal. apply tab_ext. intros n Hn. by rewrite !list_lookup_total_alt, lookup_app_l by (rewrite Hl; done).
  - rewrite lookup_app_r, tab_length, tab_lookup by (rewrite ?tab_length; lia). f_equal. apply tab_ext. intros n Hn.
    by rewrite !list_lookup_total_alt, lookup_app_r, Hl by (done || rewrite Hl; done).
Qed.
Lemma stated_split N (ws1 ws2 : list nat) (s : nat -> list row) : stated N (ws1 ++ ws2) s ->
  stated N ws1 (fun n => take (length ws1) (s n)) /\ stated N ws2 (fun n => drop (length ws1) (s n)).
Proof. intros Hs. split; intros n Hn; by destruct (split_info _ _ _ (Hs n Hn)). Qed.
Lemma info_length (ws : list nat) (s : list row) : map length s = ws -> length s = length ws.
Proof. intros <-. by rewrite length_map. Qed.

Definition infos (l : list cell) : list nat := concat (map g_state_info l).
Lemma parts_unroll l lay T N vl merge o : Forall unrolls l -> l <> [] -> forall i m x s g,
  chain typed o l i -> foldr (fun c P => (g_modified c = false /\ as_built c) /\ P) True l -> lengths_ok vl T N ->
  fine_list (fun m c => fine lay T (has_lengths vl) m c) merge l -> wide2 T N i x -> stated N (infos l) s ->
  for_parts (fun c last x s => unroll c T x (Some s) lay (if last : bool then merge else None) (tab N <$> vl)) l (shown lay m T N x) (smat (length (infos l)) N s) g =
    (Ok (shown lay (form merge vl) T N (fun t n => if t <? len_of vl T n then (run_list seq_run l (tab (len_of vl T n) (fun t => x t n)) (s n)).1 !!! t else zeros_row o),
         smat (length (infos l)) N (fun n => (run_list seq_run l (tab (len_of vl T n) (fun t => x t n)) (s n)).2), l), g).
Proof.
  induction 1 as [|c l Hc Hall IH]; intros Hne i m x s g Ht Hb Hl Hf Hx Hs; [done|]. clear Hne. cbn [for_parts chain foldr fine_list run_list] in *. unfold infos in *. cbn [map concat] in *.
  destruct Ht as (j & Htc & Htl), Hb as ((_ & Hbc) & Hbl), Hf as [Hfc Hfl]. destruct (stated_split _ _ _ _ Hs) as [Hs1 Hs2]. rewrite length_app, smat_take, smat_drop.
  assert (unroll c T (shown lay m T N x) (Some (smat (kof c) N (fun n => take (kof c) (s n)))) lay (match l with [] => merge | _ => None end) (tab N <$> vl) g =
    (Ok (shown lay (form (match l with [] => merge | _ => None end) vl) T N (padded_out c vl T j x (fun n => take (kof c) (s n))),
      smat (kof c) N (fun n => (alone c vl T x (fun n => take (kof c) (s n)) n).2), c), g)) as E by (by apply (Hc i j)).
  assert (forall n, n < N -> length (alone c vl T x (fun n => take (kof c) (s n)) n).2 = kof c) as Hk by (intros n Hn; apply info_length; by eapply (alone_ok c i j)).
  destruct l as [|c' l].
  - cbn [chain] in Htl. subst j. rewrite (bind_run _ _ _ _ _ E). refine (f_equal (fun r => (Ok r, g)) _). refine (f_equal2 pair (f_equal2 pair _ _) eq_refl).
    + apply shown_ext. intros t n _ _. unfold padded_out, alone. by destruct (seq_run c _ _).
    + cbn [map concat length]. rewrite app_nil_r, Nat.add_0_r. apply smat_ext. intros n Hn. unfold alone. destruct (seq_run c _ _). cbn. by rewrite app_nil_r.
  - rewrite (bind_run _ _ _ _ _ E).
    erewrite bind_run; [|apply (IH ltac:(done) j (form None vl) (padded_out c vl T j x (fun n => take (kof c) (s n))) (fun n => drop (kof c) (s n)) g Htl Hbl Hl Hfl); [by eapply padded_wide|done]].
    refine (f_equal (fun r => (Ok r, g)) _). refine (f_equal2 pair (f_equal2 pair _ _) eq_refl).
    + apply shown_ext. intros t n HtT Hn. rewrite (padded_tab c i j vl T N) by done. unfold alone. destruct (seq_run c _ _). cbn [fst]. by destruct (run_list _ _ _).
    + rewrite smat_app by done. apply smat_ext. intros n Hn. rewrite (padded_tab c i j vl T N) by done. unfold alone. destruct (seq_run c _ _). cbn [fst snd]. by destruct (run_list _ _ _).
Qed.
Lemma seq_unrolls b l : Forall unrolls l -> unrolls (GSeq b l).
Proof.
  intros Hall i o lay T N vl m merge x s g [Hne Ht] Hb Hl Hf Hx Hs. cbn [unroll_cell]. unfold g_seq_unroll. pose proof Hl as [HT _].
  rewrite (format_tab _ _ _ _ _ _ i) by (done || by right). rewrite bind_lift. cbn [default _get_begin_state]. rewrite bind_lift.
  erewrite bind_run; [|exact (parts_unroll l lay T N vl merge o Hall Hne i m x s g Ht Hb Hl Hf Hx Hs)]. done.
Qed.

(** ** Residual connections *)

Lemma set_same (c : cell) b : g_modified c = b -> g_set_modified b c = c.
Proof. by destruct c; intros <-. Qed.
Lemma lengths_tens lay T N w (y z : nat -> nat -> row) : wide2 T N w y -> wide2 T N w z ->
  map widths (t_data (tens lay T N y)) = map widths (t_data (tens lay T N z)).
Proof.
  intros Hy Hz. destruct lay; cbn [tens t_data]; rewrite !map_tab; apply tab_ext; intros a Ha; rewrite (widths_tab _ w), (widths_tab _ w); try done; intros b Hb; by (apply Hy || apply Hz).
Qed.
Lemma t_ew_tens (f : F -> F -> F) lay T N w y z : wide2 T N w y -> wide2 T N w z -> t_ew f (tens lay T N y) (tens lay T N z) = Ok (tens lay T N (fun t n => zip_with f (y t n) (z t n))).
Proof.
  intros Hy Hz. unfold t_ew. rewrite (lengths_tens lay T N w y z) by done.
  destruct lay; cbn [tens t_d1 t_data]; rewrite !bool_decide_eq_true_2 by done; cbn [andb];
  rewrite zip_tab; do 2 f_equal; apply tab_ext; intros a _; by rewrite zip_tab.
Qed.
Lemma add_shown lay m T N w y z : wide2 T N w y -> wide2 T N w z -> add_inputs m (shown lay m T N y) (shown lay m T N z) = Ok (shown lay m T N (fun t n => zip_with fadd (y t n) (z t n))).
Proof.
  intros Hy Hz. unfold add_inputs. destruct m; cbn [shown]; [by rewrite (t_ew_tens _ _ _ _ w)|].
  rewrite zip_tab.
  erewrite mapR_tab; [reflexivity|]. intros t Ht. apply (ew_tab _ _ w); auto.
Qed.
Lemma merge_form lay merge vl T N (y : nat -> nat -> row) : match merge with Some m => m | None => match shown lay (form merge vl) T N y with Merged _ => true | Steps _ => false end end = form merge vl.
Proof. destruct merge; [done|]. unfold form. cbn. by destruct (has_lengths vl). Qed.
Lemma zip_zeros w : zip_with fadd (zeros_row w) (zeros_row w) = zeros_row w.
Proof. induction w as [|w IH]; [done|]. cbn. by rewrite IH, add_zero. Qed.

Lemma residual_unrolls b c : unrolls c -> unrolls (GResidual b c).
Proof.
  intros Hc i o lay T N vl m merge x s g [-> Ht] [Hm Hb] Hl Hf Hx Hs. cbn [unroll_cell g_state_info] in *. unfold g_residual_unroll. pose proof Hl as [HT _].
  erewrite bind_run; [|by apply (Hc o o)]. cbv beta iota zeta. rewrite merge_form, (set_same _ _ Hm). rewrite (format_tab _ _ _ _ _ _ o) by (done || by right). cbn [mbind result_bind default id].
  pose proof (padded_wide c o o vl T N x s Ht Hl Hx Hs) as Hw. set (z := fun t n => if has_lengths vl then mask_at t (len_of vl T n) (x t n) else x t n).
  assert ((match tab N <$> vl with Some l => _mask_sequence_variable_length (shown lay (form merge vl) T N x) T l (time_axis lay) (form merge vl) | None => Ok (shown lay (form merge vl) T N x) end)
    = Ok (shown lay (form merge vl) T N z)) as ->.
  { destruct vl as [l|]; cbn [fmap option_fmap option_map]; [|done]. by rewrite (mask_sequence _ _ _ _ _ o). }
  assert (wide2 T N o z) as Hz by (unfold z; destruct vl as [l|]; cbn [has_lengths len_of]; [by apply wide_mask|done]).
  cbn [mbind result_bind]. rewrite (add_shown _ _ _ _ o) by done. rewrite bind_lift. refine (f_equal (fun r => (Ok r, g)) _). refine (f_equal2 pair (f_equal2 pair _ _) eq_refl).
  - apply shown_ext. intros t n HtT Hn. destruct (alone_ok c o o vl T N x s n Ht Hl Hx Hs Hn) as (A & _). destruct (proj2 Hl n Hn) as [_ HlT].
    unfold padded_out, alone in *. cbn [seq_run]. destruct (seq_run c (tab (len_of vl T n) (fun t => x t n)) (s n)) as [ys s']. cbn [fst] in *. unfold z.
    destruct (Nat.ltb_spec t (len_of vl T n)) as [Hlt|Hge].
    + rewrite (list_lookup_total_alt (zip_with _ _ _)), lookup_zip_with, (list_lookup_lookup_total_lt ys t), tab_lookup by lia. cbn. unfold mask_at.
      destruct (has_lengths vl); [|done]. by rewrite (proj2 (Nat.leb_gt _ _)).
    + destruct vl as [l|]; cbn [has_lengths len_of] in *; [|lia]. unfold mask_at. rewrite (proj2 (Nat.leb_le _ _)) by done. rewrite (zero_row_length _ o) by (by apply Hx). apply zip_zeros.
  - apply smat_ext. intros n _. unfold alone. cbn [seq_run]. by destruct (seq_run c _ _).
Qed.

(** ** Both directions *)

(** The beginning of every sequence reversed. *)
Definition rv (vl : option (nat -> nat)) (T : nat) (x : nat -> nat -> row) (t n : nat) : row :=
  if t <? len_of vl T n then x (len_of vl T n - 1 - t) n else x t n.
Lemma rv_wide vl T N w x : lengths_ok vl T N -> wide2 T N w x -> wide2 T N w (rv vl T x).
Proof. intros [HT Hl] Hx t Ht n Hn. specialize (Hl n Hn). unfold rv. destruct (Nat.ltb_spec t (len_of vl T n)); apply Hx; lia. Qed.
Lemma reverse_ok vl T N w x : lengths_ok vl T N -> wide2 T N w x -> (has_lengths vl = true -> 2 <= T) ->
  _reverse_sequences (tab2 T N x) T (tab N <$> vl) = Ok (tab2 T N (rv vl T x)).
Proof.
  intros [HT Hl] Hx H2. unfold _reverse_sequences. destruct vl as [l|]; cbn [fmap option_fmap option_map]; rewrite state_at_tab by done; cbn [mbind result_bind].
  - specialize (H2 eq_refl). rewrite (stack_tab TNC T N w) by done. cbn [mbind result_bind tens]. rewrite reverse_tens by (intros n Hn; apply (Hl n Hn)). cbn [mbind result_bind].
    change (mkTensor N (tab T ?f)) with (tens TNC T N (rv (Some l) T x)). rewrite (split_tab TNC) by done. cbn [mbind result_bind].
    destruct T as [|[|T]]; [lia|lia|]. by rewrite !tab_S.
  - rewrite reverse_tab. f_equal. apply tab_ext. intros t Ht. apply tab_ext. intros n _. unfold rv. cbn [len_of]. by rewrite (proj2 (Nat.ltb_lt _ _)).
Qed.
Lemma concat2_tens lay T N (y z : nat -> nat -> row) : concat2 (tens lay T N y) (tens lay T N z) = Ok (tens lay T N (fun t n => y t n ++ z t n)).
Proof.
  unfold concat2. destruct lay; cbn [tens t_d1 t_data]; rewrite !map_tab, !bool_decide_eq_true_2 by (done || (apply tab_ext; intros; by rewrite !tab_length)); cbn [andb];
    rewrite zip_tab; do 2 f_equal; apply tab_ext; intros a _; by rewrite zip_tab.
Qed.
Definition masked (vl : option (nat -> nat)) (T : nat) (y : nat -> nat -> row) (t n : nat) : row := if has_lengths vl then mask_at t (len_of vl T n) (y t n) else y t n.

Lemma format_both lay merge vl T N a b (y z : nat -> nat -> row) : 0 < T -> wide2 T N a y -> wide2 T N b z -> (has_lengths vl = true -> lay = TNC \/ merge <> None) ->
  exists ro : gseq (F := F), bi_format lay merge (shown lay (form merge vl) T N y) (tab2 T N z) = Ok (form merge vl, shown lay (form merge vl) T N y, ro) /\ iterate ro = tab2 T N z.
Proof.
  intros HT Hy Hz Hm. unfold bi_format. destruct merge as [m|]; [by eexists|]. set (f := form None vl).
  assert (match shown lay f T N y with Merged _ => true | Steps _ => false end = f) as -> by (by destruct f). cbv zeta.
  rewrite (format_tab _ _ _ _ _ _ a) by (done || by left). cbn [mbind result_bind default id]. change (Steps (tab T ?g)) with (shown lay false T N z).
  rewrite (format_tab _ _ _ _ _ _ b) by (done || by left). cbn [mbind result_bind default id]. eexists. split; [reflexivity|]. unfold f, form. cbn [default]. destruct (has_lengths vl); [|done].
  by destruct (Hm eq_refl) as [-> |?].
Qed.
Lemma concat_both lay m T N a b (y z : nat -> nat -> row) : 0 < T -> wide2 T N a y -> wide2 T N b z ->
  bi_concat (time_axis lay) m (shown lay m T N y) (tab2 T N z) = Ok (shown lay m T N (fun t n => y t n ++ z t n)).
Proof.
  intros HT Hy Hz. unfold bi_concat. destruct m; cbn [shown iterate]; [rewrite (stack_tab lay T N b) by done; cbn [mbind result_bind]; by rewrite concat2_tens|]. rewrite zip_tab.
  erewrite mapR_tab; [reflexivity|]. intros t Ht. unfold concat1. rewrite !tab_length, bool_decide_eq_true_2, zip_tab by done. done.
Qed.
Lemma join_ok lay merge vl T N a b (y z : nat -> nat -> row) : 0 < T -> wide2 T N a y -> wide2 T N b z -> (has_lengths vl = true -> lay = TNC \/ merge <> None) ->
  g_bi_join T lay merge (tab N <$> vl) (shown lay (form merge vl) T N y) (tab2 T N z) = Ok (shown lay (form merge vl) T N (masked vl T (fun t n => y t n ++ z t n))).
Proof.
  intros HT Hy Hz Hm. unfold g_bi_join. destruct (format_both lay merge vl T N a b y z HT Hy Hz Hm) as (ro & -> & Hro). cbn [mbind result_bind].
  rewrite Hro, (concat_both lay _ T N a b) by done. cbn [mbind result_bind]. destruct vl as [l|]; cbn [fmap option_fmap option_map]; [|done].
  rewrite (mask_sequence _ _ _ _ _ (a + b)); [done|done|]. intros t Ht. apply wide_app; auto.
Qed.

(** The outputs of the backward cell on the reversed inputs, reversed. *)
Lemma rv_alone r vl T x s n : alone r vl T (rv vl T x) s n = seq_run r (reverse (tab (len_of vl T n) (fun t => x t n))) (s n).
Proof. unfold alone. f_equal. rewrite reverse_tab. apply tab_ext. intros t Ht. unfold rv. by rewrite (proj2 (Nat.ltb_lt _ _)). Qed.
Lemma rv_out r i o vl T N x s t n : typed r i o -> lengths_ok vl T N -> wide2 T N i x -> stated N (g_state_info r) s -> n < N ->
  rv vl T (padded_out r vl T o (rv vl T x) s) t n =
    if t <? len_of vl T n then reverse (seq_run r (reverse (tab (len_of vl T n) (fun t => x t n))) (s n)).1 !!! t else zeros_row o.
Proof.
  intros Ht Hl Hx Hs Hn. destruct (alone_ok r i o vl T N (rv vl T x) s n Ht Hl (rv_wide _ _ _ _ _ Hl Hx) Hs Hn) as (A & _). rewrite rv_alone in A.
  unfold rv at 1, padded_out. destruct (Nat.ltb_spec t (len_of vl T n)) as [Hlt|Hge].
  - rewrite (proj2 (Nat.ltb_lt _ _)) by lia. rewrite rv_alone, !list_lookup_total_alt, reverse_lookup by lia. f_equal. f_equal. lia.
  - done.
Qed.

Lemma bi_unrolls b l r : unrolls l -> unrolls r -> unrolls (GBi b l r).
Proof.
  intros Hl Hr i o lay T N vl m merge x s g (wa & wb & Htl & Htr & ->) ((_ & Hbl) & (_ & Hbr)) Hlen (Hbi & Hfl & Hfr) Hx Hs. cbn [unroll_cell g_state_info fine] in *. unfold g_bi_unroll. pose proof Hlen as [HT _].
  rewrite (format_tab _ _ _ _ _ _ i) by (done || by right). rewrite bind_lift. cbn [default id shown iterate]. rewrite (reverse_ok vl T N i) by (done || (intros Hv; by destruct (Hbi Hv))). rewrite bind_lift.
  cbn [_get_begin_state]. rewrite bind_lift. cbv beta iota zeta. rewrite length_app, smat_take, smat_drop. destruct (stated_split _ _ _ _ Hs) as [Hs1 Hs2].
  change (Steps (tab T (fun i => tab N (x i)))) with (shown lay false T N x). change (Steps (tab T (fun i => tab N (rv vl T x i)))) with (shown lay false T N (rv vl T x)).
  pose proof (rv_wide vl T N i x Hlen Hx) as Hrx.
  erewrite bind_run; [|by apply (Hl i wa)]. cbv beta iota zeta. erewrite bind_run; [|by apply (Hr i wb)]. cbn [form default id shown iterate].
  pose proof (padded_wide l i wa vl T N x _ Htl Hlen Hx Hs1) as Hwl. pose proof (padded_wide r i wb vl T N _ _ Htr Hlen Hrx Hs2) as Hwr.
  rewrite (reverse_ok vl T N wb) by (done || (intros Hv; by destruct (Hbi Hv))). rewrite bind_lift.
  rewrite (join_ok lay merge vl T N wa wb) by (done || (by apply rv_wide) || (intros Hv; by destruct (Hbi Hv))). rewrite bind_lift.
  refine (f_equal (fun r => (Ok r, g)) _). refine (f_equal2 pair (f_equal2 pair _ _) eq_refl).
  - apply shown_ext. intros t n HtT Hn. destruct (alone_ok l i wa vl T N x _ n Htl Hlen Hx Hs1 Hn) as (A & _). destruct (alone_ok r i wb vl T N _ _ n Htr Hlen Hrx Hs2 Hn) as (B & _). rewrite rv_alone in B.
    unfold masked. rewrite (rv_out r i wb vl T N) by done. destruct (proj2 Hlen n Hn) as [_ HlT]. unfold padded_out, alone in *. cbn [seq_run].
    destruct (seq_run l _ _) as [ys sl]. destruct (seq_run r _ _) as [zs sr]. cbn [fst] in *. destruct (Nat.ltb_spec t (len_of vl T n)) as [Hlt|Hge].
    + rewrite (list_lookup_total_alt (zip_with _ _ _)), lookup_zip_with, (list_lookup_lookup_total_lt ys t), (list_lookup_lookup_total_lt (reverse zs) t) by (rewrite ?length_reverse; lia).
      cbn. unfold mask_at. destruct (has_lengths vl); [|done]. by rewrite (proj2 (Nat.leb_gt _ _)).
    + destruct vl as [v|]; cbn [has_lengths len_of] in *; [|lia]. unfold mask_at. rewrite (proj2 (Nat.leb_le _ _)) by done. apply zero_row_length. by rewrite length_app, !length_replicate.
  - rewrite smat_app by (intros n Hn; apply info_length; by eapply (alone_ok l i wa)). apply smat_ext. intros n Hn. rewrite rv_alone. unfold alone. cbn [seq_run].
    destruct (seq_run l _ _). by destruct (seq_run r _ _).
Qed.

(** ** All cells *)

Lemma all_unrolls (c : cell) : unrolls c.
Proof.
  induction c as [b h a w|b h a r w|b h w|b l IH|b p ax|b po ps prev c IH|b c IH|b l r IHl IHr] using gcell_all;
    try (by intros i o lay T N vl m merge x s g []); try (by apply leaf_unrolls).
  - by apply seq_unrolls.
  - by apply residual_unrolls.
  - by apply bi_unrolls.
Qed.

Lemma map_same (f : cell -> cell) l : Forall (fun c => f c = c) l -> map f l = l.
Proof. induction 1 as [|c l Hc _ IH]; [done|]. cbn. by rewrite Hc, IH. Qed.
Lemma chain_Forall (P : cell -> Prop) o l : (forall c, c ∈ l -> forall i o, typed c i o -> P c) -> forall i, chain typed o l i -> Forall P l.
Proof.
  induction l as [|c l IH]; intros HP i Hc; [constructor|]. destruct Hc as (m & H1 & H2). constructor; [apply (HP c ltac:(left) i m H1)|]. apply (IH (fun c' H => HP c' ltac:(by right)) m H2).
Qed.
Lemma typed_reset (c : cell) : forall i o, typed c i o -> g_reset c = c.
Proof.
  induction c as [b h a w|b h a r w|b h w|b l IH|b p ax|b po ps prev c IH|b c IH|b l r IHl IHr] using gcell_all; intros i o Ht; cbn [g_reset typed] in *; try done.
  - f_equal. apply map_same. destruct Ht as [_ Ht]. rewrite Forall_forall in IH. by apply (chain_Forall _ o l IH i).
  - destruct Ht as [_ Ht]. by rewrite (IH i o).
  - destruct Ht as (a & d & Hl & Hr & _). by rewrite (IHl i a), (IHr i d).
Qed.

(** The initial states are g_zeros. *)
Definition zero_states (c : cell) : list row := map (fun w => zeros_row w) (g_state_info c).
Lemma begin_zeros (c : cell) N : as_built c -> begin_parts N c = Ok (map (g_zeros N) (g_state_info c)).
Proof.
  induction c as [b h a w|b h a r w|b h w|b l IH|b p ax|b po ps prev c IH|b c IH|b l r IHl IHr] using gcell_all; intros Hb; cbn [begin_parts g_state_info as_built] in *; try done.
  - assert (mapR (fun c => _ ← py_assert (negb (g_modified c)); begin_parts N c) l = Ok (map (fun c => map (g_zeros N) (g_state_info c)) l)) as ->.
    { induction IH as [|c l Hc _ IHl]; [done|]. destruct Hb as [[Hm Hb] Hl]. cbn [mapR map]. rewrite Hm. cbn [negb py_assert mbind result_bind]. rewrite Hc by done. cbn [mbind result_bind]. by rewrite IHl. }
    cbn [mbind result_bind]. by rewrite concat_map, map_map.
  - apply IH, Hb.
  - apply IH, Hb.
  - destruct Hb as [[M1 B1] [M2 B2]]. rewrite M1, M2, IHl, IHr by done. cbn. by rewrite map_app.
Qed.
Lemma smat_zeros (c : cell) N : smat (kof c) N (fun _ => zero_states c) = map (g_zeros N) (g_state_info c).
Proof.
  unfold smat, zero_states. symmetry. apply tab_of; [apply length_map|]. intros j Hj. rewrite list_lookup_fmap. destruct (g_state_info c !! j) as [w|] eqn:E; [|apply lookup_ge_None_1 in E; lia].
  cbn. f_equal. unfold g_zeros. symmetry. rewrite (tab_ext N _ (fun _ => zeros_row w)) by (intros n _; rewrite list_lookup_total_alt, list_lookup_fmap, E; done).
  unfold tab. clear. rewrite <- (length_seq N 0) at 2. induction (seq 0 N) as [|n l IH]; [done|]. cbn. by rewrite IH.
Qed.
Lemma zero_stated (c : cell) N : stated N (g_state_info c) (fun _ => zero_states c).
Proof. intros n _. unfold zero_states. rewrite map_map. rewrite <- (map_id (g_state_info c)) at 2. apply map_ext. intros w. apply length_replicate. Qed.

Lemma begin_ok (c : cell) N : as_built c -> g_modified c = false -> _get_begin_state c None N = Ok (smat (kof c) N (fun _ => zero_states c)).
Proof. intros Hb Hm. cbn [_get_begin_state]. unfold g_begin_state. rewrite Hm, smat_zeros. cbn [negb py_assert mbind result_bind]. by apply begin_zeros. Qed.
Lemma bind_same {A B} (m1 m2 : M G A) (f : A -> M G B) g : m1 g = m2 g -> (m1 ≫= f) g = (m2 ≫= f) g.
Proof. intros E. by rewrite !bind_M, E. Qed.
Lemma bind_same_k {A B} (m : M G A) (f1 f2 : A -> M G B) g : (forall a g, f1 a g = f2 a g) -> (m ≫= f1) g = (m ≫= f2) g.
Proof. intros E. rewrite !bind_M. destruct (m g) as [[a|e] g']; [apply E|done]. Qed.
(** Without initial states, [unroll] starts with g_zeros. *)
Lemma unroll_default (c : cell) i o lay T N m merge x vl g : typed c i o -> as_built c -> g_modified c = false -> 0 < T -> wide2 T N i x ->
  unroll c T (shown lay m T N x) None lay merge vl g = unroll c T (shown lay m T N x) (Some (smat (kof c) N (fun _ => zero_states c))) lay merge vl g.
Proof.
  intros Ht Hb Hm HT Hx. pose proof (begin_ok c N Hb Hm) as Hbeg.
  assert (forall k, (lift (_format_sequence (Some T) (shown lay m T N x) lay k) : M G _) = lift (Ok (shown lay (default m k) T N x, time_axis lay, N))) as Ef
    by (intros k; by rewrite (format_tab _ _ _ _ _ _ i) by (done || by right)).
  destruct c as [b h a w|b h a r w|b h w|b l|b p ax|b po ps prev c|b c|b l r]; try done; cbn [unroll_cell].
  1-3: unfold g_base_unroll; rewrite Ef, !bind_lift; cbn [g_reset]; by rewrite Hbeg.
  - unfold g_seq_unroll. rewrite Ef, !bind_lift. by rewrite Hbeg.
  - unfold g_residual_unroll. apply bind_same. rewrite Ef, !bind_lift. destruct Hb as [Hbm Hb]. by rewrite (begin_zeros c N Hb), bind_lift, <- smat_zeros.
  - unfold g_bi_unroll. rewrite Ef, !bind_lift. apply bind_same_k. intros rx g'. by rewrite Hbeg.
Qed.

(** C9: [unroll] of a cell built of Elman, LSTM and GRU cells, stacks, residual connections and both directions (no zoneout or dropout), over a
    batch of sequences padded to one length, in either layout, given as one array or a list, with given or default initial states
    and with or without the lengths of the sequences: the result has, for every sequence, the outputs that
    the cell computes on the sequence alone, zeros after its end, and the states after its last step.  So padding never
    influences a result.  (With lengths and both directions: from two steps on, and not with outputs left to
    the default form in the layout NTC.) *)
Theorem unroll_per_sequence (c : cell) i o lay T N vl m merge x begin g :
  typed c i o -> as_built c -> g_modified c = false -> lengths_ok vl T N -> fine lay T (has_lengths vl) merge c -> wide2 T N i x ->
  (forall s, begin = Some s -> stated N (g_state_info c) s) ->
  let s := default (fun _ => zero_states c) begin in
  g_unroll dropout dropout_seq c T (shown lay m T N x) (smat (kof c) N <$> begin) lay merge (tab N <$> vl) g =
    (Ok (shown lay (form merge vl) T N (fun t n => if t <? len_of vl T n then (seq_run c (tab (len_of vl T n) (fun t => x t n)) (s n)).1 !!! t else zeros_row o),
         smat (kof c) N (fun n => (seq_run c (tab (len_of vl T n) (fun t => x t n)) (s n)).2), c), g).
Proof.
  intros Ht Hb Hm Hl Hf Hx Hs s. unfold g_unroll. rewrite (typed_reset c i o Ht). destruct begin as [s0|]; cbn [fmap option_fmap option_map default] in *.
  - apply (all_unrolls c i o lay T N vl m merge x s0 g Ht Hb Hl Hf Hx). by apply Hs.
  - rewrite (unroll_default c i o) by (done || apply Hl). apply (all_unrolls c i o lay T N vl m merge x s g Ht Hb Hl Hf Hx). apply zero_stated.
Qed.
End Batch.

(** ** Concrete cells *)

#[local] Instance cell_Float : Float Z := {
  fadd := Z.add; fsub := Z.sub; fmul := Z.mul; fdiv := Z.div; fof z := z; fltb := Z.ltb; fzero := Z.eqb 0; fpow := Z.pow; fcos z := z; fpi := 3%Z }.
#[local] Instance cell_FloatMath : FloatMath Z := { fneg := Z.opp; fsqrt := Z.sqrt; fabs := Z.abs }.
#[local] Instance cell_MetricMath : MetricMath Z := { fexp z := z; flog z := z; fnan := 0%Z; to_int z := z }.
#[local] Instance cell_TanhMath : TanhMath Z := { ftanh z := z }.
Definition no_dropout : Z -> list nat -> list (list Z) -> M unit (list (list Z)) := fun _ _ m => mret m.
Definition no_dropout_seq : Z -> list nat -> gtensor (F := Z) -> M unit (gtensor (F := Z)) := fun _ _ t => mret t.
Definition ex_elman (b : bool) (w : Z) : gcell (F := Z) := GRNN b 1 (GStr "tanh") (mkGW [[w]] [[1%Z]] [0%Z] [0%Z]).
Definition ex_both : gcell (F := Z) := GBi false (ex_elman false 1) (ex_elman false 10).
Definition ex_wide : gcell (F := Z) := GRNN true 2 (GStr "relu") (mkGW [[1; 2]; [3; 4]]%Z [[1; 0]; [0; 1]]%Z [0; 0]%Z [1; 1]%Z).
Definition ex_cell : gcell (F := Z) := GSeq false [ex_both; GResidual false ex_wide].
Definition ex_x (t n : nat) : list Z := [Z.of_nat (1 + t + 10 * n)].
Definition ex_l (n : nat) : nat := 3 - n.

Lemma unroll_per_sequence_witness :
  g_unroll no_dropout no_dropout_seq ex_cell 3 (shown TNC true 3 2 ex_x) None TNC None (Some (tab 2 ex_l)) tt =
    (Ok (shown TNC true 3 2 (fun t n => if t <? ex_l n then (seq_run ex_cell (tab (ex_l n) (fun t => ex_x t n)) (zero_states ex_cell)).1 !!! t else [0; 0]%Z),
         smat 3 2 (fun n => (seq_run ex_cell (tab (ex_l n) (fun t => ex_x t n)) (zero_states ex_cell)).2), ex_cell), tt).
Proof.
  apply (unroll_per_sequence (FF := cell_Float) no_dropout no_dropout_seq (eq_refl 0%Z) ex_cell 1 2 TNC 3 2 (Some ex_l) true None ex_x None tt).
  - split; [done|]. exists 2. split; [|exists 2; split; [split; [done|]|done]].
    + exists 1, 1. split_and!; [..|done]; (split_and!; [done| |by eexists]); repeat constructor.
    + cbn. split_and!; [done| |by eexists]. repeat constructor.
  - by cbn.
  - done.
  - split; [lia|]. intros n Hn. cbn. unfold ex_l. lia.
  - cbn. split_and!; try done; intros _; (split; [lia|by left]).
  - by intros t Ht n Hn.
  - done.
Defined.

(** In the layout NTC with lengths and the default form of the outputs, the backward half is transposed: an error if the numbers of
    steps and of sequences differ, a wrong result if they do not. *)
Definition both_outputs (merge : option bool) (T N : nat) : result (gseq (F := Z)) :=
  match (g_unroll no_dropout no_dropout_seq ex_both T (shown NTC false T N ex_x) None NTC merge (Some (tab N (fun _ => T))) tt).1 with
  | Ok (o, _, _) => Ok o
  | Raise e => Raise e
  end.
Example default_form_transposed :
  both_outputs (Some true) 2 2 = Ok (Merged (mkTensor 2 [[[1; 30]; [3; 20]]; [[11; 230]; [23; 120]]]%Z)) /\
  both_outputs None 2 2 = Ok (Merged (mkTensor 2 [[[1; 30]; [3; 230]]; [[11; 20]; [23; 120]]]%Z)) /\
  both_outputs None 3 2 = Raise MXNetError.
Proof. split_and!; vm_compute; reflexivity. Qed.
(** One step with lengths: the only array of the reversed sequence is iterated over its rows. *)
Example one_step_fails : both_outputs (Some false) 1 2 = Raise AssertionError.
Proof. vm_compute. reflexivity. Qed.
(** Zoneout of a stack: the stack has no attribute [_bidirectional]. *)
Example zoneout_of_stack : new_zoneout (GSeq false [ex_elman false 1]) 0%Z 0%Z = Raise AttributeError.
Proof. reflexivity. Qed.
