(* ===== verification/Calibration.v ===== *)
(** * Calibration of quantized models

    [contrib/quantization.py]: the collectors of layer outputs, [_smooth_distribution], the
    search for the threshold with the least divergence ([_get_optimal_threshold]), the table
    of thresholds and the quantized parameters.  NumPy's [histogram] and [argmin], SciPy's
    [entropy] and the operator that quantizes an array are parameters; a divergence that is
    not a number is [None]. *)

From stdpp Require Import strings gmap.
From S2P Require Import Prelude Scope NDArray Array LRScheduler Optimizer SGD.
Open Scope Z_scope.

Section Calibration.
Context {F : Type} `{Float F} `{FloatMath F}.
Local Open Scope float_scope.

(** [x <= 0] *)
Definition le0 (x : F) : bool := fltb x 0 || fzero x.
Definition count_if {A} (p : A -> bool) (l : list A) : Z := Z.of_nat (length (filter (fun x => p x = true) l)).
Definition zsum (l : list Z) : Z := foldr Z.add 0%Z l.

Definition _smooth_distribution (p : list F) (eps : F) : result (list F) :=
  let n_zeros := count_if fzero p in
  let n_nonzeros := (py_len p - n_zeros)%Z in
  if (n_nonzeros =? 0)%Z then Raise ValueError
  else
    let eps1 := eps * fof n_zeros / fof n_nonzeros in
    _ ← py_assert (fltb eps1 1);
    let hist := map (fun x => x + (eps * (if fzero x then 1 else 0) + fneg eps1 * (if fzero x then 0 else 1))) p in
    _ ← py_assert (count_if le0 hist =? 0)%Z;
    Ok hist.

(** [except ValueError]: the distribution stays as it was. *)
Definition or_unsmoothed (q : list F) (r : result (list F)) : result (list F) := match r with Raise ValueError => Ok q | r => r end.

(** ** The threshold *)

Context (entropy : list F -> list F -> option F) (argmin : list (option F) -> nat) (histogram : list F -> Z -> F -> list Z * list F).

(** [p[0] += a] and [p[-1] += b] *)
Definition add_at (i : nat) (a : Z) (l : list Z) : list Z := alter (fun x => (x + a)%Z) i l.
Definition with_outliers (hist : list Z) (start stop : Z) : list Z :=
  let p := py_slice hist start stop in
  add_at (length p - 1) (zsum (py_slice hist stop (py_len hist))) (add_at 0 (zsum (py_slice hist 0 start)) p).

(** An assignment to an element of an array of type [int32]. *)
Definition int32 (z : Z) : Z := ((z + 2 ^ 31) mod 2 ^ 32 - 2 ^ 31)%Z.
(** The counts merged into [n] bins of [m], and the rest in the last one; the bins are
    32-bit integers. *)
Definition quantized_bins (n : nat) (m : nat) (sliced : list Z) : list Z :=
  let bins := map (fun j => int32 (zsum (take m (drop (j * m) sliced)))) (seq 0 n) in
  alter (fun x => int32 (x + zsum (drop (n * m) sliced))) (n - 1)%nat bins.
(** The bins of the quantized distribution: the last one goes to the end. *)
Definition segment {A} (n m j : nat) (l : list A) : list A := if (j =? n - 1)%nat then drop (j * m) l else take m (drop (j * m) l).
Definition expand_bins (n m : nat) (bins p : list Z) : list F :=
  concat (map (fun '(j, b) =>
    let s := segment n m j p in
    let norm := count_if (fun x => negb (x =? 0)%Z) s in
    replicate (length s) (if (norm =? 0)%Z then 0 else fof b / fof norm)) (imap pair bins)).
(** [q[p == 0] = 0] *)
Definition clear_zeros (p : list Z) (q : list F) : list F := zip_with (fun x y => if (x =? 0)%Z then 0 else y) p q.

(** The threshold and the divergence for [i] bins on each side of the middle.  The infinite
    divergence that the handler of [ValueError] stores is overwritten at once. *)
Definition calib_step (num_bins : Z) (hist : list Z) (edges : list F) (num_quantized_bins : Z) (eps : F) (i : Z) : result (F * option F) :=
  let zero_bin_idx := (num_bins / 2)%Z in
  let start := (zero_bin_idx - i)%Z in
  let stop := (zero_bin_idx + i + 1)%Z in
  th ← py_index edges stop;
  let sliced := py_slice hist start stop in
  _ ← py_assert (py_len sliced mod 2 =? 1)%Z;
  _ ← py_assert (num_quantized_bins <=? py_len sliced)%Z;
  let p := with_outliers hist start stop in
  m ← py_floordiv (py_len sliced) num_quantized_bins;
  let n := Z.to_nat num_quantized_bins in
  let bins := quantized_bins n (Z.to_nat m) sliced in
  let q := clear_zeros p (expand_bins n (Z.to_nat m) bins p) in
  ps ← _smooth_distribution (map fof p) eps;
  qs ← or_unsmoothed q (_smooth_distribution q eps);
  Ok (th, entropy ps qs).

(** [np.min], [np.max] *)
Definition np_min (l : list F) : result F := match l with [] => Raise ValueError | x :: l => Ok (foldl (fun a b => if fltb b a then b else a) x l) end.
Definition np_max (l : list F) : result F := match l with [] => Raise ValueError | x :: l => Ok (foldl (fun a b => if fltb a b then b else a) x l) end.
Definition _get_optimal_threshold (arr : list F) (num_bins num_quantized_bins : Z) (eps : F) : result (F * F * option F * F) :=
  min_val ← np_min arr;
  max_val ← np_max arr;
  let th := if fltb (fabs min_val) (fabs max_val) then fabs max_val else fabs min_val in
  let '(hist, edges) := histogram arr num_bins th in
  l ← mapR (calib_step num_bins hist edges num_quantized_bins eps) (seqZ (num_quantized_bins / 2) (num_bins / 2 + 1 - num_quantized_bins / 2));
  let k := argmin (map snd l) in
  match l !! k with
  | Some (opt_th, min_divergence) => Ok (min_val, max_val, min_divergence, opt_th)
  | None => Raise ValueError
  end.

(** [_get_optimal_thresholds], for the outputs of the layers in order. *)
Fixpoint _get_optimal_thresholds (nd_dict : list (string * list (list F))) (num_bins num_quantized_bins : Z) (eps : F) : result (list (string * (F * F))) :=
  match nd_dict with
  | [] => Ok []
  | (name, arrs) :: d =>
      _ ← py_assert (match arrs with [] => false | _ => true end);
      '(min_val, _, _, opt_th) ← _get_optimal_threshold (concat arrs) num_bins num_quantized_bins eps;
      th ← _get_optimal_thresholds d num_bins num_quantized_bins eps;
      Ok ((name, (if fltb min_val 0 then fneg opt_th else 0, opt_th)) :: th)
  end.

(** ** Collectors *)

Context (include_layer : string -> bool).
(** [_LayerOutputCollector.collect] *)
Definition collect_output (name : string) (arr : list F) (d : gmap string (list (list F))) : gmap string (list (list F)) :=
  if include_layer name then <[name := default [] (d !! name) ++ [arr]]> d else d.
(** [_LayerOutputMinMaxCollector.collect] *)
Definition collect_min_max (name : string) (arr : list F) (d : gmap string (F * F)) : result (gmap string (F * F)) :=
  if include_layer name then
    min_range ← np_min arr;
    max_range ← np_max arr;
    Ok (<[name := match d !! name with
        | Some (a, b) => (if fltb min_range a then min_range else a, if fltb b max_range then max_range else b)
        | None => (min_range, max_range)
        end]> d)
  else Ok d.

(** The outputs of one batch, in the order of the callbacks, and [_collect_layer_statistics]: batches until the number of
    examples is reached. *)
Definition collect_batch {D} (collect : string -> list F -> D -> result D) : list (string * list F) -> D -> result D :=
  fix go l d := match l with [] => Ok d | (n, a) :: l => d ← collect n a d; go l d end.
Fixpoint _collect_layer_statistics {D} (collect : string -> list F -> D -> result D) (batch_size : Z) (max_num_examples : option Z)
    (batches : list (list (string * list F))) (num_examples : Z) (d : D) : result (D * Z) :=
  match batches with
  | [] => Ok (d, num_examples)
  | b :: batches =>
      d ← collect_batch collect b d;
      let num_examples := (num_examples + batch_size)%Z in
      if match max_num_examples with Some m => (m <=? num_examples)%Z | None => false end then Ok (d, num_examples)
      else _collect_layer_statistics collect batch_size max_num_examples batches num_examples d
  end.

(** ** Parameters *)

(** Arrays, and [quantize(data, min, max, out_type='int8')]: the value and its range. *)
Context {A : Type} (quantize : A -> A * A * A) (array1 : F -> A).
Definition chop (name : string) (k : nat) : string := String.substring 0 (String.length name - k) name.
Definition _quantize_params (inputs_name : list string) (params : gmap string A) (th_dict : gmap string (F * F)) : result (gmap string A) :=
  foldl (fun r name =>
    d ← r;
    if endswith "weight_quantize" name || endswith "bias_quantize" name then
      match params !! chop name 9 with
      | Some param => let '(val, vmin, vmax) := quantize param in Ok (<[(name +:+ "_max")%string := vmax]> (<[(name +:+ "_min")%string := vmin]> (<[name := val]> d)))
      | None => Raise KeyError
      end
    else match params !! name with
    | Some a => Ok (<[name := a]> d)
    | None =>
        if endswith "_min" name then Ok (match th_dict !! chop name 4 with Some t => <[name := array1 (fst t)]> d | None => d end)
        else if endswith "_max" name then Ok (match th_dict !! chop name 4 with Some t => <[name := array1 (snd t)]> d | None => d end)
        else Ok d
    end) (Ok ∅) inputs_name.
End Calibration.
