(* ===== verification/CalibFacts.v ===== *)
(** * Calibration: the search never fails and compares distributions of the right mass

    In exact arithmetic, for an odd number of bins that the smoothing allows for: smoothing
    keeps the mass and makes every bin positive, the reference distribution has the mass of
    the histogram, the quantized one that of the bins it is made of, no assertion fails,
    and the threshold is the edge with the least divergence, unless some candidate range
    has no value: then a divergence is not a number and such a candidate is chosen. *)

From Stdlib Require Import Reals Lra.
From S2P Require Import Prelude NDArray Array LRScheduler Optimizer SGD OptReal Tables Calibration.
Open Scope R_scope.

Definition rsum (l : list R) : R := foldr Rplus 0 l.
Lemma rsum_app l k : rsum (l ++ k) = rsum l + rsum k.
Proof. induction l as [|x l IH]; [symmetry; apply Rplus_0_l|]. cbn. unfold rsum in *. rewrite IH. lra. Qed.
Lemma zsum_app l k : zsum (l ++ k) = (zsum l + zsum k)%Z.
Proof. induction l as [|x l IH]; [done|]. cbn. unfold zsum in *. rewrite IH. lia. Qed.
Lemma rsum_IZR l : rsum (map IZR l) = IZR (zsum l).
Proof. induction l as [|x l IH]; [done|]. cbn. unfold rsum, zsum in *. by rewrite IH, plus_IZR. Qed.

Lemma fzero_spec (x : R) : fzero x = true <-> x = 0.
Proof. cbn. destruct (Req_dec_T x 0); by split. Qed.
Lemma fzero_false (x : R) : fzero x = false <-> x <> 0.
Proof. cbn. destruct (Req_dec_T x 0); by split. Qed.

Section Count.
Context {A : Type} (p : A -> bool).
Lemma count_cons x l : count_if p (x :: l) = ((if p x then 1 else 0) + count_if p l)%Z.
Proof. unfold count_if. rewrite filter_cons. case_decide as E; [rewrite E; cbn [length]; lia|]. destruct (p x); [done|]. lia. Qed.
Lemma count_range l : (0 <= count_if p l <= py_len l)%Z.
Proof. unfold count_if, py_len. pose proof (length_filter (fun x => p x = true) l). lia. Qed.
Lemma count_app l k : count_if p (l ++ k) = (count_if p l + count_if p k)%Z.
Proof. unfold count_if. rewrite filter_app, length_app. lia. Qed.
Lemma count_none l : (forall x, x ∈ l -> p x = false) -> count_if p l = 0%Z.
Proof. induction l as [|x l IH]; intros Hp; [done|]. rewrite count_cons, (Hp x) by left. rewrite IH; [done|]. intros y Hy. apply Hp. by right. Qed.
Lemma count_pos l x : x ∈ l -> p x = true -> (0 < count_if p l)%Z.
Proof.
  induction l as [|y l IH]; intros Hx Hp; [by apply elem_of_nil in Hx|]. rewrite count_cons. pose proof (count_range l).
  apply elem_of_cons in Hx as [-> |Hx]; [rewrite Hp; lia|]. specialize (IH Hx Hp). destruct (p y); lia.
Qed.
Lemma count_negb l : (count_if (fun x => negb (p x)) l = py_len l - count_if p l)%Z.
Proof.
  induction l as [|x l IH]; [done|]. rewrite count_cons. assert (count_if (fun x => negb (p x)) (x :: l) = (if negb (p x) then 1 else 0) + count_if (fun x => negb (p x)) l)%Z as ->.
  { unfold count_if. rewrite filter_cons. case_decide as E; [rewrite E; cbn [length]; lia|]. destruct (p x); cbn in *; [lia|done]. }
  rewrite IH. unfold py_len. cbn [length]. destruct (p x); cbn; lia.
Qed.
End Count.
Lemma count_map {A B} (p : B -> bool) (f : A -> B) l : count_if p (map f l) = count_if (fun x => p (f x)) l.
Proof. induction l as [|x l IH]; [done|]. cbn [map]. by rewrite !count_cons, IH. Qed.
Lemma count_ext {A} (p q : A -> bool) l : (forall x, x ∈ l -> p x = q x) -> count_if p l = count_if q l.
Proof. induction l as [|x l IH]; intros E; [done|]. rewrite !count_cons, (E x) by left. rewrite IH; [done|]. intros y Hy. apply E. by right. Qed.

(** ** Smoothing *)

Lemma smooth_sum (a b : R) (p : list R) :
  rsum (map (fun x => fadd x (fadd (fmul a (if fzero x then fof 1 else fof 0)) (fmul (fneg b) (if fzero x then fof 0 else fof 1)))) p)
    = rsum p + a * IZR (count_if fzero p) - b * IZR (py_len p - count_if fzero p).
Proof.
  induction p as [|x p IH]; [change (0 = 0 + a * 0 - b * 0); lra|]. cbn [map rsum foldr]. unfold rsum in IH. rewrite IH, count_cons. unfold py_len in *. cbn [length]. rewrite Nat2Z.inj_succ.
  destruct (fzero x); to_R; rewrite !minus_IZR, ?plus_IZR, ?succ_IZR; lra.
Qed.

Lemma smooth_ok (p : list R) eps : let nz := count_if fzero p in let nn := (py_len p - nz)%Z in
  0 < eps -> (0 < nn)%Z -> eps * IZR nz / IZR nn < 1 -> (forall x, x ∈ p -> x <> 0 -> eps * IZR nz / IZR nn < x) ->
  exists p', _smooth_distribution p eps = Ok p' /\ length p' = length p /\ Forall (fun x => 0 < x) p' /\ rsum p' = rsum p.
Proof.
  intros nz nn He Hn H1 Hx. unfold _smooth_distribution. fold nz nn. destruct (Z.eqb_spec nn 0); [lia|]. cbn [fmul fdiv fof R_Float] in *.
  rewrite (proj2 (fltb_spec _ _)) by done. cbn [py_assert mbind result_bind].
  set (eps1 := eps * IZR nz / IZR nn) in *. set (h := map _ p).
  assert (Forall (fun x => 0 < x) h) as Hpos.
  { apply Forall_fmap, Forall_forall. intros x Hxp. cbn. destruct (Req_dec_T x 0) as [-> |E]; cbn; [lra|]. specialize (Hx x Hxp E). lra. }
  rewrite count_none; [|intros x Hxh; unfold le0; rewrite Forall_forall in Hpos; specialize (Hpos x Hxh); rewrite (proj2 (fltb_false _ _)) by (to_R; lra); apply fzero_false; lra].
  cbn. eexists. split; [reflexivity|]. split; [apply length_map|]. split; [done|]. unfold h. rewrite smooth_sum. fold nz nn. unfold eps1. apply IZR_lt in Hn. field. lra.
Qed.
(** Nothing but zeros is refused. *)
Lemma smooth_zeros (p : list R) eps : (forall x, x ∈ p -> x = 0) -> _smooth_distribution p eps = Raise ValueError.
Proof.
  intros Hp. unfold _smooth_distribution. pose proof (count_negb fzero p) as Hc. rewrite (count_none (fun x => negb (fzero x))) in Hc.
  - by rewrite <- Hc.
  - intros x Hx. by rewrite (proj2 (fzero_spec x) (Hp x Hx)).
Qed.

(** ** Segments *)

Lemma blocks_take {A} m (l : list A) k : (k * m <= length l)%nat -> concat (tab k (fun j => take m (drop (j * m) l))) = take (k * m) l.
Proof.
  induction k as [|k IH]; intros Hk; [done|]. unfold tab in *. rewrite seq_S, map_app, concat_app, IH by lia. cbn [map concat]. rewrite app_nil_r, Nat.add_0_l.
  rewrite <- (take_drop (k * m) (take (S k * m) l)), take_take, Nat.min_l by lia. f_equal. rewrite <- take_drop_commute || rewrite skipn_firstn_comm. f_equal. lia.
Qed.
Lemma segments_concat {A} n m (l : list A) : (0 < n)%nat -> (n * m <= length l)%nat -> concat (tab n (fun j => segment n m j l)) = l.
Proof.
  intros Hn Hm. destruct n as [|n]; [lia|]. unfold tab. rewrite seq_S, map_app, concat_app. cbn [map concat]. rewrite app_nil_r, Nat.add_0_l.
  assert (map (fun j => segment (S n) m j l) (seq 0 n) = tab n (fun j => take m (drop (j * m) l))) as ->.
  { apply tab_ext. intros j Hj. unfold segment. destruct (Nat.eqb_spec j (S n - 1)); [lia|done]. }
  rewrite blocks_take by lia. unfold segment. rewrite (proj2 (Nat.eqb_eq _ _)) by lia. apply take_drop.
Qed.
Lemma zsum_concat l : zsum (concat l) = zsum (map zsum l).
Proof. induction l as [|x l IH]; [done|]. cbn [concat map]. rewrite zsum_app, IH. done. Qed.
Lemma rsum_concat l : rsum (concat l) = rsum (map rsum l).
Proof. induction l as [|x l IH]; [done|]. cbn [concat map]. rewrite rsum_app, IH. done. Qed.

Lemma zsum_add_at i a l : (i < length l)%nat -> zsum (add_at i a l) = (zsum l + a)%Z.
Proof.
  unfold add_at. revert i. induction l as [|x l IH]; intros [|i] Hi; cbn [length] in Hi; [lia|lia| |].
  - cbn. unfold zsum. lia.
  - cbn. unfold zsum in *. rewrite IH by lia. lia.
Qed.
Lemma zsum_nonneg l : Forall (fun x => 0 <= x)%Z l -> (0 <= zsum l)%Z.
Proof. induction 1 as [|x l Hx _ IH]; [done|]. cbn. unfold zsum in *. lia. Qed.
Lemma zsum_drop l k : Forall (fun x => 0 <= x)%Z l -> (0 <= zsum (drop k l) <= zsum l)%Z.
Proof.
  intros Hl. rewrite <- (take_drop k l) at 3. rewrite zsum_app.
  pose proof (zsum_nonneg _ (Forall_take _ k _ Hl)). pose proof (zsum_nonneg _ (Forall_drop _ k _ Hl)). lia.
Qed.
Lemma zsum_take l k : Forall (fun x => 0 <= x)%Z l -> (0 <= zsum (take k l) <= zsum l)%Z.
Proof.
  intros Hl. rewrite <- (take_drop k l) at 3. rewrite zsum_app.
  pose proof (zsum_nonneg _ (Forall_take _ k _ Hl)). pose proof (zsum_nonneg _ (Forall_drop _ k _ Hl)). lia.
Qed.
Lemma int32_small z : (0 <= z < 2 ^ 31)%Z -> int32 z = z.
Proof. intros Hz. unfold int32. rewrite Z.mod_small by lia. lia. Qed.

(** The counts of the bins fit 32 bits when all the counts do. *)
Definition fits32 (s : list Z) : Prop := Forall (fun x => 0 <= x)%Z s /\ (zsum s < 2 ^ 31)%Z.

Lemma bins_segments n m s : fits32 s -> (0 < n)%nat -> (n * m <= length s)%nat -> quantized_bins n m s = tab n (fun j => zsum (segment n m j s)).
Proof.
  intros [Hs0 Hs] Hn Hm. apply tab_of; [unfold quantized_bins; by rewrite length_alter, length_map, length_seq|]. intros j Hj. unfold quantized_bins, segment.
  change (map ?f (seq 0 n)) with (tab n f).
  pose proof (zsum_drop s (j * m) Hs0) as Hd. pose proof (zsum_take _ m (Forall_drop _ (j * m) _ Hs0)) as Ht.
  destruct (Nat.eqb_spec j (n - 1)) as [-> |Hne].
  - rewrite list_lookup_alter_eq, tab_lookup by lia. cbn [fmap option_fmap option_map]. f_equal. rewrite (int32_small (zsum (take _ _))) by lia.
    replace (zsum (take m (drop ((n - 1) * m) s)) + zsum (drop (n * m) s))%Z with (zsum (drop ((n - 1) * m) s)); [by apply int32_small; lia|].
    rewrite <- (take_drop m (drop ((n - 1) * m) s)) at 1. rewrite zsum_app, drop_drop. do 3 f_equal. nia.
  - rewrite list_lookup_alter_ne, tab_lookup by (done || lia). f_equal. apply int32_small. lia.
Qed.

(** The bins of the quantized distribution, zeros cleared. *)
Definition bin_value (p : list Z) (b : Z) : R := if (count_if (fun x => negb (x =? 0)%Z) p =? 0)%Z then 0 else IZR b / IZR (count_if (fun x => negb (x =? 0)%Z) p).
Definition spread (p : list Z) (b : Z) : list R := map (fun x => if (x =? 0)%Z then 0 else bin_value p b) p.
Lemma zip_replicate {A B C} (f : A -> B -> C) l v : zip_with f l (replicate (length l) v) = map (fun x => f x v) l.
Proof. induction l as [|x l IH]; [done|]. cbn. by rewrite IH. Qed.
Lemma zip_concat {A B C} (f : A -> B -> C) (n : nat) (a : nat -> list A) (b : nat -> list B) : (forall j, length (a j) = length (b j)) ->
  zip_with f (concat (tab n a)) (concat (tab n b)) = concat (tab n (fun j => zip_with f (a j) (b j))).
Proof.
  intros Hl. unfold tab. induction (seq 0 n) as [|j l IH]; [done|]. cbn [map concat]. by rewrite zip_with_app, IH by apply Hl.
Qed.
Lemma quantized_spread n m s p : fits32 s -> (0 < n)%nat -> (n * m <= length s)%nat -> length p = length s ->
  clear_zeros p (expand_bins n m (quantized_bins n m s) p) = concat (tab n (fun j => spread (segment n m j p) (zsum (segment n m j s)))).
Proof.
  intros H32 Hn Hm Hl. unfold expand_bins. rewrite bins_segments, imap_tab, map_tab by done. unfold clear_zeros. rewrite <- (segments_concat n m p) at 1 by lia.
  rewrite zip_concat by (intros j; by rewrite length_replicate). f_equal. apply tab_ext. intros j Hj. by rewrite zip_replicate.
Qed.

(** A bin whose counts are not more than those of the reference. *)
Lemma spread_ok (p s : list Z) : Forall2 (fun a b => 0 <= a <= b)%Z s p ->
  let b := zsum s in let norm := count_if (fun x => negb (x =? 0)%Z) p in
  (0 <= b)%Z /\ ((0 < b)%Z -> (0 < norm)%Z) /\ rsum (spread p b) = IZR b /\
  (forall x, x ∈ spread p b -> x <> 0 -> (0 < b)%Z /\ x = IZR b / IZR norm) /\ ((0 < b)%Z -> count_if (fun x => negb (fzero x)) (spread p b) = norm).
Proof.
  intros Hsp b norm. assert (0 <= b)%Z as Hb by (unfold b; clear -Hsp; induction Hsp; [done|]; cbn; unfold zsum in *; lia).
  assert ((0 < b)%Z -> (0 < norm)%Z) as Hn.
  { intros H0. destruct (Z.lt_ge_cases 0 norm) as [?|Hz]; [done|]. exfalso. assert (b = 0%Z) as E; [|lia]. unfold b, norm in *. clear -Hsp Hz. induction Hsp as [|a c s p Ha _ IH]; [done|].
    rewrite count_cons in Hz. pose proof (count_range (fun x => negb (x =? 0)%Z) p). destruct (Z.eqb_spec c 0) as [-> |]; cbn [negb] in Hz; [|lia]. cbn. unfold zsum in *. rewrite IH by lia. lia. }
  assert (forall v, rsum (map (fun x => if (x =? 0)%Z then 0 else v) p) = v * IZR norm) as Hs.
  { intros v. unfold norm. clear. induction p as [|x p IH]; [symmetry; apply Rmult_0_r|]. cbn [map rsum foldr]. unfold rsum in IH. rewrite IH, count_cons, plus_IZR. destruct (x =? 0)%Z; cbn [negb]; lra. }
  split; [done|]. split; [done|]. unfold spread, bin_value. fold norm. destruct (Z.eqb_spec norm 0) as [E|E].
  - assert (b = 0%Z) as Eb by lia. rewrite Eb. split; [|split; [|lia]].
    + rewrite Hs. apply Rmult_0_l.
    + intros x Hx Hx0. exfalso. apply Hx0. apply list_elem_of_fmap in Hx as (y & -> & _). by destruct (y =? 0)%Z.
  - assert (IZR norm <> 0) as Hr by (intros H0; by apply eq_IZR in H0). split; [rewrite Hs; by field|]. split.
    + intros x Hx Hx0. apply list_elem_of_fmap in Hx as (y & -> & _). destruct (y =? 0)%Z; [done|]. split; [|done]. destruct (Z.eq_dec b 0) as [E0|]; [|lia]. rewrite E0 in Hx0. exfalso. apply Hx0. unfold Rdiv. ring.
    + intros H0. rewrite count_map. apply count_ext. intros x _. destruct (x =? 0)%Z; cbn [negb]; [by rewrite (proj2 (fzero_spec 0) eq_refl)|].
      rewrite (proj2 (fzero_false _)); [done|]. intros E0. apply IZR_lt in H0. apply (Rmult_eq_compat_r (IZR norm)) in E0. unfold Rdiv in E0. rewrite Rmult_assoc, Rinv_l in E0 by done. lra.
Qed.

Lemma segment_Forall2 {A B} (R : A -> B -> Prop) n m j l k : Forall2 R l k -> Forall2 R (segment n m j l) (segment n m j k).
Proof. intros Hl. unfold segment. destruct (_ =? _)%nat; [by apply Forall2_drop|]. by apply Forall2_take, Forall2_drop. Qed.
Lemma count_concat {A} (p : A -> bool) (f : nat -> list A) n j : (j < n)%nat -> (count_if p (f j) <= count_if p (concat (tab n f)))%Z.
Proof.
  revert f j. induction n as [|n IH]; intros f j Hj; [lia|]. rewrite tab_S. cbn [concat]. rewrite count_app. pose proof (count_range p (f 0%nat)). pose proof (count_range p (concat (tab n (fun i => f (S i))))).
  destruct j as [|j]; [lia|]. specialize (IH (fun i => f (S i)) j ltac:(lia)). cbn beta in IH. lia.
Qed.
Lemma rsum_tab n (f : nat -> R) (g : nat -> Z) : (forall j, (j < n)%nat -> f j = IZR (g j)) -> rsum (tab n f) = IZR (zsum (tab n g)).
Proof. intros E. rewrite (tab_ext n f (fun j => IZR (g j))) by done. rewrite <- rsum_IZR, map_tab. done. Qed.
Lemma elem_of_concat_tab {A} (x : A) n f : x ∈ concat (tab n f) -> exists j, (j < n)%nat /\ x ∈ f j.
Proof.
  unfold tab. intros Hx. apply list_elem_of_In, in_concat in Hx as (l & Hl & Hx). apply in_map_iff in Hl as (j & <- & Hj%in_seq). exists j. split; [lia|by apply list_elem_of_In].
Qed.

(** A small share of a number below one. *)
Lemma small_share (e nn norm b : R) : 0 <= e < 1 -> 1 <= norm <= nn -> 1 <= b -> e / nn < b / norm.
Proof.
  intros He Hn Hb. apply Rle_lt_trans with (e / norm).
  - unfold Rdiv. apply Rmult_le_compat_l; [lra|]. apply Rinv_le_contravar; lra.
  - unfold Rdiv. apply Rmult_lt_compat_r; [apply Rinv_0_lt_compat; lra|lra].
Qed.

Lemma zsum_tab_le (g : nat -> Z) n j : (forall k, 0 <= g k)%Z -> (j < n)%nat -> (0 <= g j <= zsum (tab n g))%Z.
Proof.
  intros Hg. revert g Hg j. induction n as [|n IH]; intros g Hg j Hj; [lia|]. rewrite tab_S. change (0 <= g j <= g 0%nat + zsum (tab n (fun i => g (S i))))%Z. pose proof (Hg 0%nat) as H0. destruct j as [|j].
  - split; [done|]. destruct n as [|n]; [cbn; lia|]. pose proof (IH (fun i => g (S i)) (fun i => Hg (S i)) 0%nat ltac:(lia)). lia.
  - pose proof (IH (fun i => g (S i)) (fun i => Hg (S i)) j ltac:(lia)) as Hi. cbn beta in Hi. lia.
Qed.
Lemma zsum_segments n m s : (0 < n)%nat -> (n * m <= length s)%nat -> zsum s = zsum (tab n (fun j => zsum (segment n m j s))).
Proof. intros Hn Hm. rewrite <- (segments_concat n m s) at 1 by done. by rewrite zsum_concat, map_tab. Qed.
Lemma spread_length n m p (b : nat -> Z) : (0 < n)%nat -> (n * m <= length p)%nat -> length (concat (tab n (fun j => spread (segment n m j p) (b j)))) = length p.
Proof.
  intros Hn Hm. transitivity (length (concat (tab n (fun j => segment n m j p)))); [|by rewrite segments_concat]. unfold tab. induction (seq 0 n) as [|j l IH]; [done|]. cbn [map concat]. rewrite !length_app, IH. unfold spread. by rewrite length_map.
Qed.

Lemma nonzero_element (l : list R) : rsum l <> 0 -> exists x, x ∈ l /\ x <> 0.
Proof.
  induction l as [|x l IH]; intros Hs; [done|]. destruct (Req_dec_T x 0) as [-> |E]; [|exists x; split; [left|done]].
  destruct IH as (y & Hy & Hy0); [|exists y; split; [by right|done]]. intros E. apply Hs. cbn. unfold rsum in E. rewrite E. lra.
Qed.
(** The quantized distribution: its mass is that of the slice; it is smoothed, unless the slice is empty. *)
Lemma quantized_ok n m s p eps : let q := clear_zeros p (expand_bins n m (quantized_bins n m s) p) in
  Forall2 (fun a b => 0 <= a <= b)%Z s p -> (zsum s < 2 ^ 31)%Z -> (0 < n)%nat -> (n * m <= length s)%nat -> 0 < eps -> eps * IZR (py_len s) < 1 ->
  length q = length s /\ rsum q = IZR (zsum s) /\
  if (zsum s =? 0)%Z then _smooth_distribution q eps = Raise ValueError /\ Forall (fun x => x = 0) q
  else exists q', _smooth_distribution q eps = Ok q' /\ length q' = length q /\ Forall (fun x => 0 < x) q' /\ rsum q' = rsum q.
Proof.
  intros q Hsp H31 Hn Hm He Hs. pose proof (Forall2_length _ _ _ Hsp) as Hlen.
  assert (fits32 s) as H32 by (split; [clear -Hsp; induction Hsp; constructor; [lia|done]|done]).
  unfold q. rewrite quantized_spread by done. clear q.
  assert (forall j, Forall2 (fun a b => 0 <= a <= b)%Z (segment n m j s) (segment n m j p)) as Hj by (intros j; by apply segment_Forall2).
  set (f := fun j => spread (segment n m j p) (zsum (segment n m j s))).
  assert (length (concat (tab n f)) = length s) as Hq by (unfold f; rewrite spread_length by lia; done).
  assert (rsum (concat (tab n f)) = IZR (zsum s)) as Hsum.
  { rewrite rsum_concat, map_tab, (zsum_segments n m s) by done. apply rsum_tab. intros j _. by destruct (spread_ok _ _ (Hj j)) as (_ & _ & E & _). }
  assert (forall k, 0 <= zsum (segment n m k s))%Z as Hnn by (intros k; by destruct (spread_ok _ _ (Hj k))).
  split; [done|]. split; [done|]. destruct (Z.eqb_spec (zsum s) 0) as [E0|E0].
  - rewrite Forall_forall. cut (forall x, x ∈ concat (tab n f) -> x = 0); [intros Hz; split; [by apply smooth_zeros|done]|].
    intros x (j & Hjn & Hx)%elem_of_concat_tab. destruct (Req_dec_T x 0) as [E|E]; [done|]. exfalso.
    destruct (spread_ok _ _ (Hj j)) as (_ & _ & _ & Hv & _). destruct (Hv x Hx E) as [Hb _]. pose proof (zsum_tab_le _ n j Hnn Hjn) as Hle. rewrite <- zsum_segments in Hle by done. lia.
  - pose proof (count_negb fzero (concat (tab n f))) as Hc. pose proof (count_range fzero (concat (tab n f))) as Hr. unfold py_len in *. rewrite Hq in *.
    set (nz := count_if fzero (concat (tab n f))) in *. assert (0 <= eps * IZR nz < 1) as Hez.
    { destruct Hr as [R1 R2]. apply IZR_le in R1, R2. split; [nra|]. apply Rle_lt_trans with (eps * IZR (Z.of_nat (length s))); [nra|done]. }
    (* every value is large enough *)
    assert (forall x, x ∈ concat (tab n f) -> x <> 0 -> (0 < Z.of_nat (length s) - nz)%Z /\ eps * IZR nz / IZR (Z.of_nat (length s) - nz) < x) as Hv.
    { intros x (j & Hjn & Hx)%elem_of_concat_tab Hx0. destruct (spread_ok _ _ (Hj j)) as (_ & Hp & _ & Hv & Hcnt). destruct (Hv x Hx Hx0) as [Hb ->]. specialize (Hp Hb). specialize (Hcnt Hb).
      pose proof (count_concat (fun x => negb (fzero x)) f n j Hjn) as Hge. rewrite Hc in Hge. unfold f at 1 in Hge. rewrite Hcnt in Hge. split; [lia|]. apply small_share; [done| |].
      - split; [by apply (IZR_le 1); lia|by apply IZR_le].
      - apply (IZR_le 1). lia. }
    destruct (nonzero_element (concat (tab n f))) as (x & Hx & Hx0); [rewrite Hsum; intros E; by apply eq_IZR in E|]. destruct (Hv x Hx Hx0) as [Hpos _].
    destruct (smooth_ok (concat (tab n f)) eps) as (q' & E & L & P & S); unfold py_len; rewrite ?Hq; fold nz; [done|done| |intros y Hy Hy0; by apply Hv|exists q'; split_and!; (done || congruence)].
    apply Rle_lt_trans with (eps * IZR nz / 1); [|lra]. unfold Rdiv. apply Rmult_le_compat_l; [lra|]. apply Rinv_le_contravar; [lra|]. apply (IZR_le 1). lia.
Qed.

(** ** The reference distribution *)

Lemma add_at_le (s l : list Z) i a : (0 <= a)%Z -> Forall2 (fun a b => 0 <= a <= b)%Z s l -> Forall2 (fun a b => 0 <= a <= b)%Z s (add_at i a l).
Proof. intros Ha Hl. unfold add_at. revert i. induction Hl as [|x y s l Hx Hl IH]; intros i; [by destruct i|]. destruct i as [|i]; cbn; (constructor; [lia|]); [done|apply IH]. Qed.
Lemma slice_nonneg (l : list Z) i j : Forall (fun x => 0 <= x)%Z l -> Forall (fun x => 0 <= x)%Z (py_slice l i j).
Proof. intros Hl. unfold py_slice. by apply Forall_take, Forall_drop. Qed.

Section Middle.
Context (hist : list Z) (k i : Z).
Hypothesis hist_pos : Forall (fun x => 0 <= x)%Z hist.
Hypothesis hist_odd : (py_len hist = 2 * k + 1)%Z.
Hypothesis i_range : (0 <= i <= k)%Z.
Notation sliced := (py_slice hist (k - i) (k + i + 1)).
Lemma middle_length : py_len sliced = (2 * i + 1)%Z.
Proof. rewrite py_slice_len by lia. lia. Qed.
Lemma outliers_ok : let p := with_outliers hist (k - i) (k + i + 1) in
  Forall2 (fun a b => 0 <= a <= b)%Z sliced p /\ zsum p = zsum hist /\ length p = length sliced.
Proof.
  pose proof middle_length as Hm. unfold py_len in Hm. assert (Forall2 (fun a b => 0 <= a <= b)%Z sliced (with_outliers hist (k - i) (k + i + 1))) as H2.
  { unfold with_outliers. do 2 (apply add_at_le; [by apply zsum_nonneg, slice_nonneg|]). apply Forall_Forall2_diag. eapply Forall_impl; [by apply slice_nonneg|]. cbn. lia. }
  split; [done|]. split; [|symmetry; by eapply Forall2_length]. unfold with_outliers. rewrite !zsum_add_at by (unfold add_at; rewrite ?length_alter; lia).
  assert (zsum hist = zsum (py_slice hist 0 (k - i) ++ sliced ++ py_slice hist (k + i + 1) (py_len hist))) as ->.
  { rewrite !py_slice_app by lia. by rewrite py_slice_all. }
  rewrite !zsum_app. lia.
Qed.
End Middle.

Lemma counts_smooth (p : list Z) eps : Forall (fun x => 0 <= x)%Z p -> (0 < zsum p)%Z -> 0 < eps -> eps * IZR (py_len p) < 1 ->
  exists p', _smooth_distribution (map IZR p) eps = Ok p' /\ length p' = length p /\ Forall (fun x => 0 < x) p' /\ rsum p' = IZR (zsum p).
Proof.
  intros Hp Hs He Hl. destruct (nonzero_element (map IZR p)) as (x & Hx & Hx0); [rewrite rsum_IZR; apply IZR_lt in Hs; lra|].
  assert (0 < count_if (fun x => negb (fzero x)) (map IZR p))%Z as Hnn by (apply (count_pos _ _ x Hx); by rewrite (proj2 (fzero_false x) Hx0)).
  rewrite count_negb in Hnn. pose proof (count_range fzero (map IZR p)) as Hr. unfold py_len in *. rewrite length_map in *. set (nz := count_if fzero (map IZR p)) in *.
  assert (eps * IZR nz / IZR (Z.of_nat (length p) - nz) < 1) as H1.
  { destruct Hr as [R1 R2]. apply IZR_le in R1, R2. replace 1 with (1 / 1) by field. apply small_share; [split; [nra|]|split; [lra|by apply (IZR_le 1); lia]|lra].
    apply Rle_lt_trans with (eps * IZR (Z.of_nat (length p))); [nra|done]. }
  destruct (smooth_ok (map IZR p) eps) as (p' & E & L & P & S); unfold py_len; rewrite ?length_map; fold nz; [done|done|done| |].
  - intros y Hy Hy0. apply list_elem_of_fmap in Hy as (z & -> & Hz). rewrite Forall_forall in Hp. specialize (Hp z Hz). apply Rlt_le_trans with 1; [done|]. apply (IZR_le 1). destruct (Z.eq_dec z 0) as [-> |]; [done|lia].
  - exists p'. rewrite length_map in L. rewrite rsum_IZR in S. done.
Qed.

(** ** The search *)

Definition result_to_option {A} (r : result A) : option A := match r with Ok a => Some a | Raise _ => None end.

Section Search.
Context (entropy : list R -> list R -> option R) (argmin : list (option R) -> nat) (histogram : list R -> Z -> R -> list Z * list R).
Context (num_bins num_quantized_bins : Z) (eps : R).
Hypothesis bins_odd : (num_bins mod 2 = 1)%Z.
Hypothesis quantized_range : (1 <= num_quantized_bins <= num_bins)%Z.
Hypothesis eps_small : 0 < eps /\ eps * IZR num_bins < 1.
Notation nq := num_quantized_bins.
Notation in_range i := (nq / 2 <= i <= num_bins / 2)%Z.
Notation middle hist i := (py_slice hist (num_bins / 2 - i) (num_bins / 2 + i + 1)).

(** A histogram of [n] numbers. *)
Definition histogram_ok (n : Z) (hist : list Z) (edges : list R) : Prop :=
  py_len hist = num_bins /\ py_len edges = (num_bins + 1)%Z /\ Forall (fun x => 0 <= x)%Z hist /\ zsum hist = n.
(** The distributions that are compared for [i] bins on each side of the middle. *)
Definition compared (hist : list Z) (i : Z) (p q : list R) : Prop :=
  _smooth_distribution (map IZR (with_outliers hist (num_bins / 2 - i) (num_bins / 2 + i + 1))) eps = Ok p /\
  Forall (fun x => 0 < x) p /\ rsum p = IZR (zsum hist) /\ py_len p = (2 * i + 1)%Z /\
  rsum q = IZR (zsum (middle hist i)) /\ py_len q = (2 * i + 1)%Z /\ (if (zsum (middle hist i) =? 0)%Z then Forall (fun x => x = 0) q else Forall (fun x => 0 < x) q).

(** The two distributions. *)
Definition ref_dist (hist : list Z) (i : Z) : list R :=
  default [] (result_to_option (_smooth_distribution (map IZR (with_outliers hist (num_bins / 2 - i) (num_bins / 2 + i + 1))) eps)).
Definition quant_dist (hist : list Z) (i : Z) : list R :=
  let s := middle hist i in
  let p := with_outliers hist (num_bins / 2 - i) (num_bins / 2 + i + 1) in
  let n := Z.to_nat nq in
  let m := Z.to_nat (py_len s / nq) in
  let q := clear_zeros p (expand_bins n m (quantized_bins n m s) p) in
  default [] (result_to_option (or_unsmoothed q (_smooth_distribution q eps))).

Lemma half_odd : (num_bins = 2 * (num_bins / 2) + 1)%Z.
Proof. pose proof (Z.div_mod num_bins 2). lia. Qed.
Lemma calib_step_ok n0 hist edges i : (0 < n0 < 2 ^ 31)%Z -> histogram_ok n0 hist edges -> in_range i ->
  exists th, edges !! Z.to_nat (num_bins / 2 + i + 1) = Some th /\ compared hist i (ref_dist hist i) (quant_dist hist i) /\
    calib_step entropy num_bins hist edges nq eps i = Ok (th, entropy (ref_dist hist i) (quant_dist hist i)).
Proof.
  intros Hn0 (Hl & He & Hp & Hs) Hi. pose proof half_odd as Hodd. set (k := (num_bins / 2)%Z) in *. assert (0 <= i <= k)%Z as Hik by (pose proof (Z.div_pos nq 2); lia).
  pose proof (middle_length hist k i ltac:(lia) Hik) as Hm. destruct (outliers_ok hist k i Hp ltac:(lia) Hik) as (H2 & Hsum & Hlen).
  assert (2 * (nq / 2) <= nq < 2 * (nq / 2) + 2)%Z as Hq by (pose proof (Z.div_mod nq 2); pose proof (Z.mod_pos_bound nq 2); lia).
  assert (exists th, edges !! Z.to_nat (k + i + 1) = Some th) as [th Hth].
  { apply lookup_lt_is_Some_2. unfold py_len in He. lia. }
  set (s := py_slice hist (k - i) (k + i + 1)) in *. set (p := with_outliers hist (k - i) (k + i + 1)) in *.
  assert (Forall (fun x => 0 <= x)%Z p) as Hpp by (clear -H2; induction H2; constructor; [lia|done]).
  assert (eps * IZR (py_len p) < 1) as Hep.
  { unfold py_len in *. rewrite Hlen, Hm. apply Rle_lt_trans with (eps * IZR num_bins); [|apply eps_small]. apply Rmult_le_compat_l; [apply Rlt_le, eps_small|]. apply IZR_le. lia. }
  destruct (counts_smooth p eps Hpp ltac:(lia) (proj1 eps_small) Hep) as (p' & Ep & Lp & Pp & Sp).
  set (n := Z.to_nat nq). set (m := Z.to_nat (py_len s / nq)).
  assert (n * m <= length s)%nat as Hnm.
  { unfold n, m. pose proof (Z.mul_div_le (py_len s) nq). pose proof (Z.div_pos (py_len s) nq). unfold py_len in *. nia. }
  assert (zsum s < 2 ^ 31)%Z as H31.
  { assert (zsum s <= zsum p)%Z; [|lia]. clear -H2. induction H2; [done|]. cbn. unfold zsum in *. lia. }
  destruct (quantized_ok n m s p eps H2 H31) as (Lq & Sq & Hcase); [unfold n; lia|done|apply eps_small|unfold py_len in *; by rewrite <- Hlen|].
  set (q := clear_zeros p _) in *.
  assert (exists q', or_unsmoothed q (_smooth_distribution q eps) = Ok q' /\ length q' = length s /\ rsum q' = IZR (zsum s) /\
    (if (zsum s =? 0)%Z then Forall (fun x => x = 0) q' else Forall (fun x => 0 < x) q')) as (q' & Eq & Lq' & Sq' & Pq').
  { destruct (Z.eqb_spec (zsum s) 0) as [E0|E0]; [destruct Hcase as [-> Hz]; by exists q|]. destruct Hcase as (q' & -> & A & B & C). exists q'. split_and!; (done || congruence). }
  exists th. split; [done|]. assert (ref_dist hist i = p') as -> by (unfold ref_dist; fold k; fold p; by rewrite Ep). assert (quant_dist hist i = q') as -> by (unfold quant_dist; fold k; fold p; fold s; cbv zeta; fold n m q; by rewrite Eq).
  split; [unfold compared; fold k; fold p; fold s; unfold py_len in *; split_and!; (done || lia || congruence)|].
  unfold calib_step. fold k. rewrite py_index_nonneg, Hth by lia. cbn [mbind result_bind]. fold s p. rewrite Hm.
  replace ((2 * i + 1) mod 2 =? 1)%Z with true by (symmetry; apply Z.eqb_eq; rewrite Z.add_comm, Z.mul_comm, Z_mod_plus_full; done). cbn [py_assert mbind result_bind].
  rewrite (proj2 (Z.leb_le nq _)) by lia. cbn [py_assert mbind result_bind]. unfold py_floordiv. destruct (Z.eqb_spec nq 0); [lia|]. cbn [mbind result_bind]. rewrite <- Hm. fold n m q.
  change (map fof p) with (map IZR p). rewrite Ep. cbn [mbind result_bind]. by rewrite Eq.
Qed.

(** [np.histogram] counts every value of the range; [stats.entropy] of positive distributions is a number, and it is not
    when the second one is all zeros (it divides by their sum); [np.argmin] takes what is not a number for the least. *)
Hypothesis histogram_spec : forall arr th, arr <> [] -> histogram_ok (py_len arr) (histogram arr num_bins th).1 (histogram arr num_bins th).2.
Hypothesis entropy_positive : forall p q, Forall (fun x => 0 < x) p -> Forall (fun x => 0 < x) q -> length p = length q -> p <> [] -> is_Some (entropy p q).
Hypothesis entropy_zeros : forall p q, Forall (fun x => x = 0) q -> entropy p q = None.
Hypothesis argmin_spec : forall l : list (option R), l <> [] -> exists d, l !! argmin l = Some d /\
  match d with None => True | Some d => forall x, x ∈ l -> exists e, x = Some e /\ d <= e end.

Lemma divergence_of hist i : compared hist i (ref_dist hist i) (quant_dist hist i) ->
  if (zsum (middle hist i) =? 0)%Z then entropy (ref_dist hist i) (quant_dist hist i) = None else is_Some (entropy (ref_dist hist i) (quant_dist hist i)).
Proof.
  intros (_ & Hp & _ & Lp & _ & Lq & Hq). destruct (_ =? 0)%Z; [by apply entropy_zeros|]. apply entropy_positive; [done|done|unfold py_len in *; lia|]. intros E. rewrite E in Lp. unfold py_len in Lp. cbn in Lp. lia.
Qed.

(** C40: the search for the threshold of a layer, in exact arithmetic, for data that is not empty and has less than 2^31
    numbers (the merged bins are 32-bit integers), an odd number of bins, not less than the quantized ones, and a smoothing constant
    below one over the number of bins: no assertion fails; for every candidate the reference distribution is positive
    with the mass of the histogram, the quantized one has the mass of the bins in the range and is positive, or all
    zeros when no value falls in the range; the result is the edge and the divergence of a candidate, the one with the
    least divergence when every candidate range has values; when one has none, the candidate chosen has none either, and
    the divergence is not a number. *)
Theorem threshold_search_total (arr : list R) : arr <> [] -> (py_len arr < 2 ^ 31)%Z ->
  exists mn mx hist edges i th, let D j := entropy (ref_dist hist j) (quant_dist hist j) in
    histogram_ok (py_len arr) hist edges /\ (forall j, in_range j -> compared hist j (ref_dist hist j) (quant_dist hist j)) /\ in_range i /\
    edges !! Z.to_nat (num_bins / 2 + i + 1) = Some th /\
    _get_optimal_threshold entropy argmin histogram arr num_bins nq eps = Ok (mn, mx, D i, th) /\
    ((forall j, in_range j -> zsum (middle hist j) <> 0%Z) -> forall j, in_range j -> exists d e, D i = Some d /\ D j = Some e /\ d <= e) /\
    ((exists j, in_range j /\ zsum (middle hist j) = 0%Z) -> D i = None /\ zsum (middle hist i) = 0%Z).
Proof.
  intros Hne H31. destruct arr as [|a arr]; [done|]. unfold _get_optimal_threshold. cbn [np_min np_max mbind result_bind]. set (mn := foldl _ a arr). set (mx := foldl (fun x y => if fltb x y then y else x) a arr).
  set (th0 := if fltb _ _ then _ else _). pose proof (histogram_spec (a :: arr) th0 Hne) as Hok. destruct (histogram (a :: arr) num_bins th0) as [hist edges]. cbn [fst snd] in Hok.
  assert (0 < py_len (a :: arr) < 2 ^ 31)%Z as Hn0 by (unfold py_len in *; cbn [length] in *; lia).
  set (D := fun j => entropy (ref_dist hist j) (quant_dist hist j)). set (r := seqZ _ _). set (E := fun j => default 0 (edges !! Z.to_nat (num_bins / 2 + j + 1))).
  assert (forall j, j ∈ r <-> in_range j) as Hr by (intros j; unfold r; rewrite elem_of_seqZ; lia).
  assert (forall j, in_range j -> compared hist j (ref_dist hist j) (quant_dist hist j)) as Hcmp by (intros j Hj; by destruct (calib_step_ok _ hist edges j Hn0 Hok Hj) as (_ & _ & B & _)).
  rewrite (mapR_ok _ (fun j => (E j, D j))) by (intros j Hj%Hr; destruct (calib_step_ok _ hist edges j Hn0 Hok Hj) as (th & A & _ & ->); unfold E; by rewrite A). cbn [mbind result_bind]. rewrite map_map. cbn [snd].
  destruct (argmin_spec (map D r)) as (d & Hd & Hmin).
  { assert ((nq / 2)%Z ∈ r) as Hin by (apply Hr; split; [lia|apply Z.div_le_mono; lia]). by destruct r; [apply elem_of_nil in Hin|]. }
  set (k := argmin (map D r)) in *. rewrite list_lookup_fmap in Hd. change (map (fun x => D x) r) with (map D r). fold k. rewrite list_lookup_fmap. destruct (r !! k) as [i|] eqn:Ei; [|done]. cbn in Hd. injection Hd as Hd.
  assert (in_range i) as Hi by (apply Hr; by eapply list_elem_of_lookup_2). destruct (calib_step_ok _ hist edges i Hn0 Hok Hi) as (th & A & _ & _).
  pose proof (fun j Hj => divergence_of hist j (Hcmp j Hj)) as Hdiv.
  exists mn, mx, hist, edges, i, th. cbv zeta. split_and!; try (done || lia).
  - change (Ok (mn, mx, D i, E i) = Ok (mn, mx, D i, th)). unfold E. by rewrite A.
  - intros Hall j Hj. pose proof (Hdiv i Hi) as Hx. rewrite (proj2 (Z.eqb_neq _ _) (Hall i Hi)) in Hx. destruct Hx as [di Hdi].
    fold (D i) in Hdi. rewrite Hdi in Hd. subst d. destruct (Hmin (D j)) as (e & He & Hle); [apply list_elem_of_fmap; exists j; by rewrite Hr|]. by exists di, e.
  - intros (j & Hj & Hz). pose proof (Hdiv j Hj) as Hx. rewrite Hz in Hx. cbn in Hx. fold (D j) in Hx.
    assert (D i = None) as Hnan.
    { destruct d as [d|]; [|done]. destruct (Hmin (D j)) as (e & He & _); [apply list_elem_of_fmap; exists j; by rewrite Hr|]. congruence. }
    split; [done|]. pose proof (Hdiv i Hi) as Hy. destruct (Z.eqb_spec (zsum (middle hist i)) 0); [done|]. destruct Hy as [y Hy]. unfold D in Hnan. congruence.
Qed.
End Search.

(** ** A concrete search *)

(** The relative entropy of two distributions, normalized. *)
Definition kl (p q : list R) : option R :=
  if forallb fzero q then None
  else Some (rsum (zip_with (fun a b => a / rsum p * ln (a / rsum p / (b / rsum q))) p q)).
Lemma kl_positive p q : Forall (fun x => 0 < x) p -> Forall (fun x => 0 < x) q -> length p = length q -> p <> [] -> is_Some (kl p q).
Proof.
  intros _ Hq Hl Hp. unfold kl. destruct q as [|b q]; [by destruct p|]. apply Forall_cons in Hq as [Hb _]. cbn [forallb].
  rewrite (proj2 (fzero_false b)) by lra. by eexists.
Qed.
Lemma kl_zeros p q : Forall (fun x => x = 0) q -> kl p q = None.
Proof. intros Hq. unfold kl. replace (forallb fzero q) with true; [done|]. symmetry. apply forallb_forall. intros x Hx%list_elem_of_In. apply fzero_spec. by eapply Forall_forall in Hq. Qed.

(** The first element that is not a number, otherwise the first of the least ones. *)
Definition no_more (x y : option R) : bool :=
  match x, y with None, _ => true | Some _, None => false | Some x, Some y => if Rle_dec x y then true else false end.
Fixpoint first_min (l : list (option R)) : nat :=
  match l with
  | [] => 0
  | x :: l => match l !! first_min l with Some y => if no_more x y then 0 else S (first_min l) | None => 0 end
  end.
Lemma first_min_spec (l : list (option R)) : l <> [] -> exists d, l !! first_min l = Some d /\
  match d with None => True | Some d => forall x, x ∈ l -> exists e, x = Some e /\ d <= e end.
Proof.
  induction l as [|x l IH]; intros Hne; [done|]. cbn [first_min]. destruct l as [|y l].
  - exists x. split; [done|]. destruct x as [x|]; [|done]. intros z Hz. apply list_elem_of_singleton in Hz as ->. exists x. split; [done|lra].
  - destruct (IH ltac:(done)) as (d & Ed & Hd). rewrite Ed. destruct (no_more x d) eqn:En; unfold no_more in En.
    + exists x. split; [done|]. destruct x as [x|], d as [d|]; try done. destruct (Rle_dec x d) as [Hle|]; [|done].
      intros z [-> |Hz]%elem_of_cons; [exists x; split; [done|lra]|]. destruct (Hd z Hz) as (e & -> & He). exists e. split; [done|lra].
    + exists d. split; [done|]. destruct x as [x|], d as [d|]; try done. destruct (Rle_dec x d) as [|Hgt]; [done|].
      intros z [-> |Hz]%elem_of_cons; [exists x; split; [done|lra]|]. by apply Hd.
Qed.
(** All values in the middle one of three bins. *)
Definition one_bin (arr : list R) (n : Z) (th : R) : list Z * list R := ([0; py_len arr; 0]%Z, [-1; -1 / 3; 1 / 3; 1]).
Lemma one_bin_ok arr th : arr <> [] -> histogram_ok 3 (py_len arr) (one_bin arr 3 th).1 (one_bin arr 3 th).2.
Proof.
  intros Hne. unfold histogram_ok, one_bin, zsum, py_len. cbn [fst snd foldr length]. split_and!; try lia. repeat constructor; lia.
Qed.

Lemma threshold_search_total_witness : exists mn mx hist edges i th,
  let D j := kl (ref_dist 3 (1 / 10) hist j) (quant_dist 3 1 (1 / 10) hist j) in
  let middle j := py_slice hist (3 / 2 - j) (3 / 2 + j + 1) in
  histogram_ok 3 2 hist edges /\ (forall j, (1 / 2 <= j <= 3 / 2)%Z -> compared 3 (1 / 10) hist j (ref_dist 3 (1 / 10) hist j) (quant_dist 3 1 (1 / 10) hist j)) /\ (1 / 2 <= i <= 3 / 2)%Z /\
  edges !! Z.to_nat (3 / 2 + i + 1) = Some th /\
  _get_optimal_threshold kl first_min one_bin [0; 1 / 2] 3 1 (1 / 10) = Ok (mn, mx, D i, th) /\
  ((forall j, (1 / 2 <= j <= 3 / 2)%Z -> zsum (middle j) <> 0%Z) -> forall j, (1 / 2 <= j <= 3 / 2)%Z -> exists d e, D i = Some d /\ D j = Some e /\ d <= e) /\
  ((exists j, (1 / 2 <= j <= 3 / 2)%Z /\ zsum (middle j) = 0%Z) -> D i = None /\ zsum (middle i) = 0%Z).
Proof.
  refine (threshold_search_total kl first_min one_bin 3 1 (1 / 10) _ _ _ _ _ _ _ [0; 1 / 2] _ _).
  - reflexivity.
  - lia.
  - split; lra.
  - exact one_bin_ok.
  - exact kl_positive.
  - exact kl_zeros.
  - exact first_min_spec.
  - done.
  - reflexivity.
Defined.
