(* ===== verification/Autograd.v ===== *)
(** * Recording and training scopes

    The scopes of [autograd.py]: [record], [pause], [train_mode] and [predict_mode] are objects
    that change the flags of the thread on entry and put the former values back on exit.  A
    program of nested [with] statements, which may also set flags to read them and raise
    exceptions, sees the flags that the text of the program says, and leaves them unchanged. *)

From stdpp Require Import gmap.
From S2P Require Import Prelude.

(** The flags of the thread, and what the scope objects remember. *)
Record flags := mkFlags { is_recording : bool; is_training : bool }.
Record rec_scope := mkScope { enter_is_record : option bool; enter_train_mode : option bool; prev_is_record : option bool; prev_train_mode : option bool }.
Record agstate := mkAg { ag_flags : flags; ag_scopes : gmap nat rec_scope; ag_log : list flags }.

Definition set_recording (b : bool) : M agstate bool := fun s =>
  (Ok (is_recording (ag_flags s)), mkAg (mkFlags b (is_training (ag_flags s))) (ag_scopes s) (ag_log s)).
Definition set_training (b : bool) : M agstate bool := fun s =>
  (Ok (is_training (ag_flags s)), mkAg (mkFlags (is_recording (ag_flags s)) b) (ag_scopes s) (ag_log s)).

(** [_RecordingStateScope(is_record, train_mode)], and the four functions. *)
Definition new_scope (is_record train_mode : option bool) : rec_scope := mkScope is_record train_mode None None.
Definition record (train_mode : bool) : rec_scope := new_scope (Some true) (Some train_mode).
Definition pause (train_mode : bool) : rec_scope := new_scope (Some false) (Some train_mode).
Definition train_mode : rec_scope := new_scope None (Some true).
Definition predict_mode : rec_scope := new_scope None (Some false).

Definition get_scope (i : nat) : M agstate rec_scope := fun s => (match ag_scopes s !! i with Some c => Ok c | None => Raise KeyError end, s).
Definition put_scope (i : nat) (c : rec_scope) : M agstate unit := modify (fun s => mkAg (ag_flags s) (<[i := c]> (ag_scopes s)) (ag_log s)).

Definition scope_enter (i : nat) : M agstate unit :=
  c ← get_scope i;
  _ ← match enter_is_record c with
      | Some b => prev ← set_recording b; put_scope i (mkScope (enter_is_record c) (enter_train_mode c) (Some prev) (prev_train_mode c))
      | None => mret tt
      end;
  c ← get_scope i;
  match enter_train_mode c with
  | Some b => prev ← set_training b; put_scope i (mkScope (enter_is_record c) (enter_train_mode c) (prev_is_record c) (Some prev))
  | None => mret tt
  end.
(** The former value, if it differs from the one that was set; [None] is no value of the flag. *)
Definition restore (set : bool -> M agstate bool) (enter prev : option bool) : M agstate unit :=
  match enter with
  | Some b =>
      if bool_decide (prev = Some b) then mret tt
      else match prev with Some p => _ ← set p; mret tt | None => raise TypeError end
  | None => mret tt
  end.
Definition scope_exit (i : nat) : M agstate unit :=
  c ← get_scope i;
  _ ← restore set_recording (enter_is_record c) (prev_is_record c);
  restore set_training (enter_train_mode c) (prev_train_mode c).

(** [with scope: body]: the exit is run whether the body raises or not. *)
Definition with_scope (i : nat) (body : M agstate unit) : M agstate unit := fun s =>
  match scope_enter i s with
  | (Raise e, s) => (Raise e, s)
  | (Ok _, s) =>
      let '(r, s) := body s in
      match scope_exit i s with
      | (Raise e, s) => (Raise e, s)
      | (Ok _, s) => (r, s)
      end
  end.

(** ** Programs *)

Inductive prog :=
  | Look
  | Fail_with (e : exn)
  | Then (p q : prog)
  | With (i : nat) (p : prog).
Fixpoint run (p : prog) : M agstate unit :=
  match p with
  | Look => modify (fun s => mkAg (ag_flags s) (ag_scopes s) (ag_log s ++ [ag_flags s]))
  | Fail_with e => raise e
  | Then p q => _ ← run p; run q
  | With i p => with_scope i (run p)
  end.

(** The flags that the text says: those of the innermost scope that sets them. *)
Definition inside_scope (c : rec_scope) (f : flags) : flags :=
  mkFlags (default (is_recording f) (enter_is_record c)) (default (is_training f) (enter_train_mode c)).
Fixpoint lexical (scopes : nat -> rec_scope) (f : flags) (p : prog) : result unit * list flags :=
  match p with
  | Look => (Ok tt, [f])
  | Fail_with e => (Raise e, [])
  | Then p q =>
      match lexical scopes f p with
      | (Ok _, l) => let '(r, k) := lexical scopes f q in (r, l ++ k)
      | r => r
      end
  | With i p => lexical scopes (inside_scope (scopes i) f) p
  end.

(** The objects that a program enters; no object is entered again inside itself. *)
Fixpoint entered (p : prog) : gset nat :=
  match p with Then p q => entered p ∪ entered q | With i p => {[i]} ∪ entered p | _ => ∅ end.
Fixpoint not_nested (p : prog) : Prop :=
  match p with Then p q => not_nested p /\ not_nested q | With i p => i ∉ entered p /\ not_nested p | _ => True end.

(** The settings of the objects. *)
Definition same_settings (c d : rec_scope) : Prop := enter_is_record c = enter_is_record d /\ enter_train_mode c = enter_train_mode d.
Definition made (scopes : nat -> rec_scope) (X : gset nat) (s : agstate) : Prop :=
  forall i, i ∈ X -> exists c, ag_scopes s !! i = Some c /\ same_settings c (scopes i).

Lemma scope_enter_ok i s c : ag_scopes s !! i = Some c ->
  scope_enter i s = (Ok tt, mkAg (inside_scope c (ag_flags s))
    (<[i := mkScope (enter_is_record c) (enter_train_mode c)
         (match enter_is_record c with Some _ => Some (is_recording (ag_flags s)) | None => prev_is_record c end)
         (match enter_train_mode c with Some _ => Some (is_training (ag_flags s)) | None => prev_train_mode c end)]> (ag_scopes s)) (ag_log s)).
Proof.
  intros Hi. destruct s as [[r t] m l], c as [[b|] [d|] pr pt]; cbn in Hi; unfold scope_enter, get_scope, set_recording, set_training, put_scope, modify; rewrite !bind_M; cbn;
    rewrite Hi; rewrite ?bind_M; cbn; rewrite ?bind_M; cbn; rewrite ?lookup_insert_eq; cbn; rewrite ?bind_M; cbn; rewrite ?Hi; cbn; rewrite ?insert_insert_eq; try done.
  - do 2 f_equal. by rewrite insert_id.
Qed.

Lemma scope_exit_ok i s c f : ag_scopes s !! i = Some c -> ag_flags s = inside_scope c f ->
  (enter_is_record c <> None -> prev_is_record c = Some (is_recording f)) -> (enter_train_mode c <> None -> prev_train_mode c = Some (is_training f)) ->
  scope_exit i s = (Ok tt, mkAg f (ag_scopes s) (ag_log s)).
Proof.
  intros Hi Hf Hr Ht. destruct s as [g m l], c as [er et pr pt], f as [r t]. cbn in *. subst g. unfold scope_exit, get_scope. rewrite bind_M. cbn. rewrite Hi. cbn.
  destruct er as [b|]; [specialize (Hr ltac:(done)) as ->|]; (destruct et as [d|]; [specialize (Ht ltac:(done)) as ->|]); cbn [restore]; repeat case_bool_decide; simplify_eq; done.
Qed.

(** What running a program does. *)
Definition runs_as (scopes : nat -> rec_scope) (p : prog) : Prop := forall s, made scopes (entered p) s -> not_nested p ->
  exists s', run p s = ((lexical scopes (ag_flags s) p).1, s') /\ ag_flags s' = ag_flags s /\ ag_log s' = ag_log s ++ (lexical scopes (ag_flags s) p).2 /\
    (forall i, i ∉ entered p -> ag_scopes s' !! i = ag_scopes s !! i) /\ (forall X, made scopes X s -> made scopes X s').

Lemma made_mono scopes X Y s : X ⊆ Y -> made scopes Y s -> made scopes X s.
Proof. intros HX Hm i Hi. apply Hm. set_solver. Qed.
Lemma inside_same c d f : same_settings c d -> inside_scope c f = inside_scope d f.
Proof. intros [E1 E2]. unfold inside_scope. by rewrite E1, E2. Qed.

Lemma with_runs scopes i p : runs_as scopes p -> runs_as scopes (With i p).
Proof.
  intros Hp s Hm [Hi Hn]. cbn [entered lexical run] in *. destruct (Hm i ltac:(set_solver)) as (c & Hc & Hs). unfold with_scope. rewrite (scope_enter_ok i s c Hc).
  set (c1 := mkScope _ _ _ _). set (s1 := mkAg _ _ _). destruct (Hp s1) as (s2 & E & Hf & Hl & Hk & Hx); [|done|].
  { intros j Hj. destruct (Hm j ltac:(set_solver)) as (d & Hd & Hds). exists d. cbn. rewrite lookup_insert_ne by set_solver. done. }
  rewrite E. assert (ag_scopes s2 !! i = Some c1) as H2 by (rewrite Hk by done; apply lookup_insert_eq).
  rewrite (scope_exit_ok i s2 c1 (ag_flags s) H2); [|by rewrite Hf|by destruct c as [[b|] et pr pt]|by destruct c as [er [d|] pr pt]].
  change (ag_flags s1) with (inside_scope c (ag_flags s)) in *. cbn in Hl. rewrite (inside_same c (scopes i) (ag_flags s) Hs) in *. eexists. split; [reflexivity|]. cbn [ag_flags ag_log ag_scopes]. split; [done|]. split; [done|]. split.
  - intros j Hj. rewrite Hk by set_solver. cbn. apply lookup_insert_ne. set_solver.
  - intros X HX. apply Hx. intros j Hj. cbn. destruct (decide (i = j)) as [<-|Hne].
    + exists c1. rewrite lookup_insert_eq. split; [done|]. by destruct Hs.
    + rewrite lookup_insert_ne by done. by apply HX.
Qed.
Lemma all_run scopes p : runs_as scopes p.
Proof.
  induction p as [|e|p IHp q IHq|i p IH]; [intros s Hm Hn..|by apply with_runs]; cbn [entered lexical run] in *.
  - eexists. split; [reflexivity|]. done.
  - exists s. cbn. by rewrite app_nil_r.
  - destruct Hn as [Hn1 Hn2]. destruct (IHp s) as (s1 & E & Hf & Hl & Hk & Hx); [by eapply made_mono; [|done]; set_solver|done|].
    destruct (lexical scopes (ag_flags s) p) as [[[]|e] l] eqn:El; cbn [fst snd] in *.
    + rewrite (bind_run _ _ _ _ _ E). destruct (IHq s1) as (s2 & E2 & Hf2 & Hl2 & Hk2 & Hx2); [apply Hx; by eapply made_mono; [|done]; set_solver|done|]. rewrite Hf in *.
      destruct (lexical scopes (ag_flags s) q) as [r k]. cbn [fst snd] in *. exists s2. split; [done|]. split; [done|]. split; [by rewrite Hl2, Hl, app_assoc|].
      split; [|by auto]. intros i Hi. rewrite Hk2, Hk by set_solver. done.
    + rewrite bind_M, E. exists s1. split; [done|]. split; [done|]. split; [done|]. split; [|done]. intros i Hi. apply Hk. set_solver.
Qed.

(** C26: in a program of nested [with] statements on scope objects, none entered inside itself, the flags are everywhere those
    of the innermost scope around the place that sets them, whatever was entered and left before and whether or not it raised; the program
    ends as its text says, and the flags are as they were before it. *)
Theorem scopes_are_lexical (scopes : nat -> rec_scope) (p : prog) (s : agstate) : made scopes (entered p) s -> not_nested p ->
  exists s', run p s = ((lexical scopes (ag_flags s) p).1, s') /\ ag_flags s' = ag_flags s /\ ag_log s' = ag_log s ++ (lexical scopes (ag_flags s) p).2.
Proof. intros Hm Hn. destruct (all_run scopes p s Hm Hn) as (s' & E & Hf & Hl & _). eauto. Qed.

Definition ex_scopes (i : nat) : rec_scope := match i with O => record true | S O => pause false | _ => train_mode end.
Definition ex_prog : prog := Then (With 0%nat (Then Look (Then (With 1%nat (Then Look (With 2%nat Look))) Look))) (Then Look (With 0%nat (Then Look (Fail_with ValueError)))).
Definition ex_state : agstate := mkAg (mkFlags false false) (list_to_map [(0%nat, record true); (1%nat, pause false); (2%nat, train_mode)]) [].
Lemma scopes_are_lexical_witness : exists s',
  run ex_prog ex_state = (Raise ValueError, s') /\ ag_flags s' = mkFlags false false /\
  ag_log s' = [mkFlags true true; mkFlags false false; mkFlags false true; mkFlags true true; mkFlags false false; mkFlags true true].
Proof.
  apply (scopes_are_lexical ex_scopes ex_prog ex_state).
  - intros i Hi. assert (i = 0%nat \/ i = 1%nat \/ i = 2%nat) as [-> |[-> | ->]] by (unfold ex_prog in Hi; cbn in Hi; set_solver); by eexists.
  - cbn. split_and!; try done; set_solver.
Defined.

(** An object that is entered inside itself forgets the flags before the first entry: recording stays on. *)
Example scope_reentered : ag_flags (run (With 0%nat (With 0%nat Look)) ex_state).2 = mkFlags true true.
Proof. vm_compute. reflexivity. Qed.
