(* ===== verification/ClipNorm.v ===== *)
(** * Clipping the norm of gradients

    [clip_global_norm] of [gluon/utils.py] on dense arrays: the arrays are scaled together so
    that their norm, taken over all elements, is at most the bound.  The arrays are distinct
    (one that is listed twice would be scaled twice). *)

From Stdlib Require Import Reals Lra.
From S2P Require Import Prelude NDArray Array LRScheduler Optimizer SGD OptReal.

Section ClipNorm.
Context {F : Type} `{Float F} `{FloatMath F} (isfinite : F -> bool).
Local Open Scope float_scope.

(** [dot(x, x)] of the flat array. *)
Definition _norm (x : list F) : F := foldl (fun a y => a + y * y) 0 x.
Definition eps8 : F := 1 / fof 100000000.
(** The norm that is returned, the arrays afterwards, and whether a warning was given. *)
Definition clip_global_norm (arrays : list (list F)) (max_norm : F) (check_isfinite : bool) : result (F * list (list F) * bool) :=
  _ ← py_assert (match arrays with [] => false | _ => true end);
  let total_norm := fsqrt (foldl (fun a x => a + _norm x) 0 arrays) in
  let warn := check_isfinite && negb (isfinite total_norm) in
  let scale := max_norm / (total_norm + eps8) in
  let scale := if fltb 1 scale then 1 else scale in
  Ok (total_norm, map (map (fun x => x * scale)) arrays, warn).
End ClipNorm.

Open Scope R_scope.
Definition sq_norm (l : list R) : R := foldr (fun y a => y * y + a) 0 l.
Lemma _norm_sq (l : list R) : _norm l = sq_norm l.
Proof.
  unfold _norm. to_R. assert (forall a, foldl (fun a y => a + y * y) a l = a + sq_norm l) as E; [|rewrite E; lra].
  induction l as [|y l IH]; intros a; [symmetry; apply Rplus_0_r|]. cbn [foldl sq_norm foldr]. rewrite IH. unfold sq_norm. lra.
Qed.
Lemma sq_norm_app l k : sq_norm (l ++ k) = sq_norm l + sq_norm k.
Proof. induction l as [|y l IH]; [symmetry; apply Rplus_0_l|]. cbn [app sq_norm foldr]. unfold sq_norm in *. rewrite IH. lra. Qed.
Lemma sq_norm_scale c l : sq_norm (map (fun x => x * c) l) = c * c * sq_norm l.
Proof. induction l as [|y l IH]; [symmetry; apply Rmult_0_r|]. cbn [map sq_norm foldr]. unfold sq_norm in *. rewrite IH. lra. Qed.
Lemma sq_norm_pos l : 0 <= sq_norm l.
Proof. induction l as [|y l IH]; [apply Rle_refl|]. cbn [sq_norm foldr]. unfold sq_norm in *. nra. Qed.
Lemma norms_concat (arrays : list (list R)) : foldl (fun a x => fadd a (_norm x)) (fof 0) arrays = sq_norm (concat arrays).
Proof.
  to_R. assert (forall a, foldl (fun a x => a + _norm x) a arrays = a + sq_norm (concat arrays)) as E; [|rewrite E; lra].
  induction arrays as [|x l IH]; intros a; [symmetry; apply Rplus_0_r|]. cbn [foldl concat]. rewrite IH, sq_norm_app, _norm_sq. lra.
Qed.

(** In exact arithmetic [clip_global_norm] returns the norm of all elements and scales the arrays by
    one factor between 0 and 1, after which their norm is at most the bound; arrays whose norm is below the
    bound (by the constant that is added) are not changed. *)
Theorem clipped_norm isfinite (arrays : list (list R)) max_norm check : arrays <> [] -> 0 <= max_norm ->
  exists c arrays' warn, clip_global_norm isfinite arrays max_norm check = Ok (sqrt (sq_norm (concat arrays)), arrays', warn) /\
    0 <= c <= 1 /\ arrays' = map (map (fun x => x * c)) arrays /\ sqrt (sq_norm (concat arrays')) <= max_norm /\
    (sqrt (sq_norm (concat arrays)) + 1 / 100000000 <= max_norm -> arrays' = arrays).
Proof.
  intros Hne Hm. unfold clip_global_norm. rewrite norms_concat. destruct arrays as [|a l] eqn:El; [done|]. rewrite <- El in *. clear Hne. unfold eps8. to_R. cbn [py_assert mbind result_bind]. set (T := sqrt (sq_norm (concat arrays))).
  pose proof (sqrt_pos (sq_norm (concat arrays))) as HT. fold T in HT. set (e := 1 / 100000000). assert (0 < e) as He by (unfold e; lra).
  set (s := max_norm / (T + e)). assert (0 <= s) as Hs by (unfold s; apply Rmult_le_pos; [done|left; apply Rinv_0_lt_compat; lra]). assert (s * (T + e) = max_norm) as Es by (unfold s; field; lra).
  set (c := if fltb 1 s then 1 else s). assert (0 <= c <= 1 /\ c <= s) as [Hc Hcs] by (unfold c; fcase; lra).
  exists c, (map (map (fun x => x * c)) arrays), (check && negb (isfinite T)). split; [done|]. split; [done|]. split; [done|]. split.
  - rewrite <- concat_map.
    rewrite sq_norm_scale, sqrt_mult by (nra || apply sq_norm_pos). rewrite sqrt_square by lra. fold T. nra.
  - intros Hle. assert (c = 1) as ->. { unfold c. fcase; [done|]. assert (1 <= s); [|lra]. apply Rmult_le_reg_r with (T + e); lra. }
    rewrite <- (map_id arrays) at 2. apply map_ext. intros x. rewrite <- (map_id x) at 2. apply map_ext. intros y. lra.
Qed.
Lemma clipped_norm_witness : exists c arrays' warn, clip_global_norm (fun _ => true) [[3; 0]; [4]] 1 true = Ok (sqrt (sq_norm (concat [[3; 0]; [4]])), arrays', warn) /\
  0 <= c <= 1 /\ arrays' = map (map (fun x => x * c)) [[3; 0]; [4]] /\ sqrt (sq_norm (concat arrays')) <= 1 /\
  (sqrt (sq_norm (concat [[3; 0]; [4]])) + 1 / 100000000 <= 1 -> arrays' = [[3; 0]; [4]]).
Proof. apply (clipped_norm (fun _ => true) [[3; 0]; [4]] 1 true); [done|lra]. Defined.
